(* ===== verification/_CoqProject ===== *)
-Q . S2P
Prelude.v
MFixed.v
MRandom.v
MBbox.v
Queues.v
Events.v
KeyInput.v
Zone.v
ZoneFacts.v
ZoneMalloc.v
ZoneWalks.v
ZoneOwners.v
ZoneTheorems.v
Stdio.v
Wad.v
WadSearch.v
WadTheorems.v
WadAddFile.v
WadClaims.v
MapGeometry.v
GeometryTheorems.v
DLists.v
GameTypes.v
ThingLinks.v
ThingLinkTheorems.v
PathTraverse.v
TraverseTheorems.v
Sight.v
SightTheorems.v
Movement.v
Attack.v
MovementTheorems.v
AttackTheorems.v
Info.v
Mobjs.v
Pickup.v
Psprites.v
Damage.v
Motion.v
MobjTheorems.v
MotionTheorems.v
DamageTheorems.v
Thinkers.v
SaveIO.v
SaveStructs.v
SaveCodec.v
SaveArchive.v
SaveWorld.v
SaveThinkers.v
SaveTheorems.v
PickupTheorems.v
SectorSearch.v
MovePlane.v
Frame.v
Plats.v
PlatTheorems.v
Doors.v
DoorTheorems.v
Ceilings.v
CeilingTheorems.v
Floors.v
FloorTheorems.v
Lights.v
LightTheorems.v
Ticker.v
TickerTheorems.v
ThinkerList.v
MoverSafety.v
LevelSteps.v
ManualDoorTheorems.v
LevelReach.v
Switches.v
SwitchTheorems.v
LineSafety.v
Teleport.v
TeleportTheorems.v
LineSpecials.v
LineTheorems.v
SpawnTheorems.v
PlayTheorems.v
