(* ===== verification/Prelude.v ===== *)
(** * bareDOOM: a verification of the game that runs inside the boot loader

    The repository is the boot loader barebox with the game DOOM as one of its
    commands (src/commands/doom). This development models the logic of the
    game and of the port in Rocq, one definition for each function of the
    source, and proves what makes the parts correct. Every file says at its
    top what it models.

    ** How the program is put together

    The port (doomgeneric_barebox.c, i_input.c) turns keys of barebox into
    events (d_event.c) for the game loop. Each tic, P_Ticker runs the thinker
    functions of all objects of the level (p_tick.c): monsters, missiles and
    players (P_MobjThinker), and the movers of the level, which are the
    platforms, doors, ceilings, floors and lights (p_plats.c, p_doors.c,
    p_ceilng.c, p_floor.c, p_lights.c). Lines that are crossed, shot or used
    start movers in the sectors with their tag (p_spec.c, p_switch.c), send things
    elsewhere (p_telept.c) or end the level. Players pick things up (p_inter.c).
    Things stand in lists, one for each sector and one for each block of the map
    (p_maputl.c); where they may go, what they hit and what they use is found by
    walks over the blocks (p_map.c), and what they see by a walk over the tree of
    the map (p_sight.c). Levels come from WAD files (w_wad.c), whose lumps are
    cached in the zone (z_zone.c); arithmetic is fixed-point (m_fixed.c), and
    chance comes from a table (m_random.c). A game can be
    saved to a file and loaded again (p_saveg.c, g_game.c) through a small C
    library layer (std.c).

    ** What the files model

    - Prelude.v: machine integers at their width, the outcome monad, record
      updates, tactics, and lemmas that all files share, circular lists among
      them.
    - MFixed.v, MRandom.v, MBbox.v: m_fixed.c, m_random.c, m_bbox.c.
    - Queues.v, Events.v, KeyInput.v: a queue interface and its two ring
      buffers, d_event.c and the key queue of doomgeneric_barebox.c, and the
      translation of keys into events (i_input.c, drivers/input/keymap.c,
      lib/ctype.c).
    - Zone.v: z_zone.c, with the blocks in a map
      from addresses to headers; ZoneFacts.v, ZoneMalloc.v, ZoneWalks.v and
      ZoneTheorems.v prove it correct.
      ZoneOwners.v: the owners of blocks, as the cache needs them.
    - Stdio.v: std.c, over the descriptor calls of barebox.
    - Wad.v: w_wad.c and w_file_stdc.c, with the directory of lumps in the zone and
      the cached lumps owned by it. WadSearch.v (the search and the hash table),
      WadTheorems.v (the cache) and WadAddFile.v (a directory that grows) lead to
      the claims in WadClaims.v.
    - MapGeometry.v: the geometry of p_maputl.c and r_main.c, with
      GeometryTheorems.v. DLists.v: doubly linked lists through things in memory.
      ThingLinks.v: the lists of things of p_maputl.c, with ThingLinkTheorems.v.
      PathTraverse.v: P_PathTraverse and the iterators of p_maputl.c on a world
      [play], whose field [client] is the state of whoever traverses;
      TraverseTheorems.v proves it for all of them.
    - Sight.v: p_sight.c; SightTheorems.v. Movement.v: the first half of p_map.c,
      from P_TeleportMove to P_TryMove, with P_ChangeSector and P_RadiusAttack;
      MovementTheorems.v. Attack.v: the second half, sliding, aiming, shooting and
      using; AttackTheorems.v.
    - Info.v: the tables of states and types of things (info.c). Mobjs.v: the
      first part of p_mobj.c, states, coming and leaving; its world [oworld] is
      that of Movement.v with players, thinkers and the queue of items. Psprites.v:
      the sprites of weapons and the choice of a weapon (p_pspr.c). Damage.v:
      P_DamageMobj and P_KillMobj of p_inter.c. Motion.v: the rest of p_mobj.c,
      momentum, P_MobjThinker, missiles, respawning, and the things of a level.
      It also makes these functions the [Actions] and [Shots] of the moves in
      Movement.v and Attack.v. MobjTheorems.v, MotionTheorems.v and
      DamageTheorems.v prove them correct.
    - GameTypes.v: the structures of the game (d_think.h, p_mobj.h, d_player.h,
      p_spec.h, r_defs.h, ...). The [thinkers] of a game are the objects behind
      [thinkercap] in order, each with its address; [activeplats] and
      [activeceilings] have addresses. Thinkers.v: the list operations.
    - SaveIO.v, SaveStructs.v, SaveArchive.v: p_saveg.c in three parts, the
      bytes, the structures and the archive; SaveCodec.v to SaveTheorems.v prove
      that a load restores what was saved.
    - Pickup.v, PickupTheorems.v: the first half of p_inter.c and d_items.c.
    - SectorSearch.v: the searches of p_spec.c. MovePlane.v: T_MovePlane of
      p_floor.c, and the [world] that the movers change: game, random numbers,
      and the sounds that were started.
    - Frame.v: what the tic of one mover leaves alone, and walks over the lists
      of active movers.
    - Plats.v, Doors.v, Ceilings.v, Floors.v, Lights.v with their theorems in
      PlatTheorems.v, DoorTheorems.v, CeilingTheorems.v, FloorTheorems.v and
      LightTheorems.v: the movers, how lines start, stop and restart them.
      Doors.v also has the doors that are opened by hand, with
      ManualDoorTheorems.v.
    - Switches.v, SwitchTheorems.v: switches, buttons, and the specials of
      every tic.
    - Ticker.v, TickerTheorems.v: P_RunThinkers with its dispatch on the
      thinker functions. ThinkerList.v: the list of thinkers with its links in
      memory. LevelSteps.v: each operation keeps a level valid; LevelReach.v: all
      that the movers do, in any order.
    - Teleport.v: EV_Teleport of p_telept.c. LineSpecials.v: P_CrossSpecialLine,
      P_ShootSpecialLine, P_PlayerInSpecialSector, P_SpawnSpecials and EV_DoDonut
      of p_spec.c, P_UseSpecialLine of p_switch.c. The dispatch on the number of
      the special is a table of the calls ([cross_special], [use_special]) with
      one row for each case of the code, and [run_effect] makes the calls on the
      [stage] of Switches.v: the world, the switches and buttons, and what the
      tic of the specials needs.
    - MoverSafety.v, LineSafety.v: the movers and the lines that start them in
      any level, not only where there is room for each course.
      TeleportTheorems.v, LineTheorems.v, SpawnTheorems.v: the same for
      teleporters, for everything a line does, and for the start of a level.
      PlayTheorems.v: the claims, and a small level in which it all happens.
      At its end LineTheorems.v has two lines that do not do what they mean to.

    ** What the theorems show

    - A saved game comes back when it is loaded, up to what the format leaves
      out; other versions are rejected; loaded movers own their sectors.
    - The zone stays a partition of its memory under all operations; Z_Malloc
      scans the blocks from behind the rover on, and fails only when in that scan,
      which ends before the block it began with, no run of free and purgable blocks
      is large enough; double frees are found.
    - Each mover keeps to its course: one tic goes through, changes one plane
      of one sector (or its light), and ends with a valid mover or one that is
      marked for removal and whose sector is free. Doors close and floors arrive
      after a bounded number of tics when nothing is in the way. Stopping and
      restarting is the identity. Starting a mover touches only free sectors.
      Strobes are periodic. Stairs end.
    - A level stays valid through all of this: [level_inv] says that each live
      mover owns its sector by [specialdata], that every pointer to a mover
      leads to a live one, and that all are on their courses. P_RunThinkers
      never goes wrong in a valid level, keeps it valid and ends.
    - The same without the courses ([level_wf]) holds whatever is done with the
      lines of a level. [stage_ok] is [level_wf] with what the lines need of the
      map; P_SpawnSpecials brings a loaded level there, with one light or door for
      each sector that starts one ([outfitted]), and every turn of a
      mover, line that is crossed, shot or used, special floor and tic of the
      specials keeps it. [safe m P] says that [m] returns with [P] or ends the
      program with a message, and never is undefined or without fuel; [returns]
      leaves the message out. Not allowed are: the line that makes a donut, the
      doors that open once where something moves already, and doors by hand whose
      sector has a floor mover when pointers have 64 bits; the findings say why.
    - The queues are first in, first out up to their capacity; keys become
      events in order; the searches compute the extremes over the neighbours;
      the arithmetic is exact where it fits and saturates elsewhere.
    - Touching any thing keeps the limits of health, armour and ammunition.
    - The hash table of the WAD directory finds what the search from the end finds;
      adding a file appends its lumps and keeps what is cached; a lump that is
      cached has the bytes of the file, whatever the zone purges.
    - Things are in the lists of the sector and block they stand in ([links_ok]),
      and linking and unlinking keeps all lists well linked. A traversal tests
      each line on the path once, and calls the traverser on what the path crosses,
      nearest first ([StronglySorted nearer]), until it says stop.
    - P_CheckPosition of a thing that meets nothing it reacts to ([quiet]: nothing
      to pick up, to slam into or to hit) answers as a definition that has no blocks
      and no order ([free_at]), and its heights are the extremes over the touched
      lines. P_TryMove moves exactly the things that fit and keeps a well-formed
      level ([level_ok]); P_ThingHeightClip puts a thing between the heights that
      a sector has after it moved. P_CheckSight sees what a definition over the
      crossed lines sees. P_UseLines uses the first line that can be used.
    - Things come, change their state and go ([fit]: a thing in its lists on a
      well-formed level): P_SetMobjState enters one state or two and ends with a
      state that has tics, or with the thing removed, because in the tables a state
      of a thing ([thing_state]) without tics leads to one with tics; P_SpawnMobj gives a thing all that
      the tables say ([born]); P_RemoveMobj takes it out of all lists and lets
      items come back. Momentum is limited and made in at most two steps, and
      floor and ceiling stop a thing, make skulls bounce and missiles explode. A hit
      pushes a thing away and takes exactly the damage from it, of what a player
      feels the armour takes its part, and without ammunition a player changes to a
      weapon that can be fired.

    ** Conventions

    Integers are in [Z], reduced by [wraps] and [wrapu] where the C type wraps
    (the build has -fno-strict-overflow). A function that can fail is in the
    monad [outcome]: [Ret], [Fatal] for I_Error, [Undef] for what C leaves
    undefined (a bad index, memory that is not an object of the kind), [NoFuel].
    Loops that do not recurse on data have fuel: the number of sectors plus one
    for loops over tags, its square for the outer loop of the stairs, the
    number of blocks for the zone, the number of objects plus the number of
    objects spawned for the thinkers, the number of nodes for walks in the tree of
    the map, 64 steps for a path through the blocks (the bound is in the code), the
    number of things for the lists of things, the number of special lines listed
    for P_TryMove, two tries to slide, two steps of a move by momentum, and the
    number of states for changes of state. The theorems prove that it is enough.
    Freshly allocated structures have arbitrary contents ([raw_plat] and the
    like), so that a field nobody sets is visible as such.

    What the code calls and is not modelled comes in as a class: [Crush]
    (P_ChangeSector of p_map.c), [Actors] (P_MobjThinker of p_mobj.c), [Bodies]
    (P_TeleportMove and P_SpawnMobj), [Damage] (P_DamageMobj; the movers and
    lines have a world of their own, in which these functions of the things are
    interfaces), [Sines] (the table of tables.c), [Edition] (the game that is played), [TextureNames], [Heap]
    (the allocation of level objects), [FdOps] (read, write and lseek of
    barebox), [Level] (addresses of the loaded level), [Textures] (heights of
    the textures), [Messages] (addresses of the texts), [Image] (addresses of
    the functions), [Arch] (the width of pointers and of long), [WadHost] (files by
    name), [Bsp], [Segs] and [Blockmap] (the map as p_setup.c loads it), [Actions]
    and [Shots] (what damage, states of things, pickups and special lines do to the
    world of p_map.c), [Settings] (the settings of the game), [Behaviour] (the
    functions of states, of things and of weapons, and the memory for things) and
    [Elsewhere] (pickups and special lines). What the proofs
    need of them are the classes CrushLaws, ActorLaws, BodiesLaws, DamageLaws,
    HeapLaws, RegularFile, LevelLaws, ImageLaws, SeekableFile, CallocLaw, CrossLaw,
    ActionLaws (a function of a state of things that comes to its end leaves the
    thing there, with tics if it had some), WeaponLaws and MallocLaw, each with an
    instance.

    ** Not modelled

    The renderer, the user interface, sound and the network code only produce
    output or glue parts together. The functions of the states of monsters
    (p_enemy.c) and of weapons (the rest of p_pspr.c) are called by their place in
    the table of states and come in as the interface [Behaviour]. How players move
    and look (p_user.c) follows the commands of the tic. Level loading
    (p_setup.c) copies lumps into structures. Options for WAD files (w_main.c), the
    digest for network games (w_checksum.c, sha1.c) and streams in memory (memio.c)
    are not needed by what is modelled. barebox itself is the host. *)
From Stdlib Require Export ZArith Lia Bool.
From stdpp Require Export base numbers list option strings sets gmap.

Declare Scope doom_scope.
Delimit Scope doom_scope with doom.
#[export] Set Default Goal Selector "!".
Open Scope Z_scope.

(** ** Machine integers

    C integers are mathematical integers together with an explicit
    reduction into their width: [wrapu w] for the unsigned and [wraps w]
    for the two's complement signed type of [w] bits. *)
Definition wrapu (w x : Z) : Z := x mod 2 ^ w.
Definition wraps (w x : Z) : Z := (x + 2 ^ (w - 1)) mod 2 ^ w - 2 ^ (w - 1).

Abbreviation u8 := (wrapu 8).
Abbreviation u16 := (wrapu 16).
Abbreviation u32 := (wrapu 32).
Abbreviation i8 := (wraps 8).
Abbreviation i16 := (wraps 16).
Abbreviation i32 := (wraps 32).
Abbreviation i64 := (wraps 64).

Definition INT_MIN : Z := -2147483648.
Definition INT_MAX : Z := 2147483647.

Definition fits_u (w x : Z) : Prop := 0 <= x < 2 ^ w.
Definition fits_s (w x : Z) : Prop := - 2 ^ (w - 1) <= x < 2 ^ (w - 1).

#[export] Instance fits_u_dec w x : Decision (fits_u w x).
Proof. unfold fits_u. apply _. Defined.
#[export] Instance fits_s_dec w x : Decision (fits_s w x).
Proof. unfold fits_s. apply _. Defined.

(** [x & m] is non-zero: the test C code writes as [if (x & m)]. *)
Definition has_flag (x m : Z) : bool := negb (Z.land x m =? 0).

(** Truth value of a C [int]. *)
Definition truth (x : Z) : bool := negb (x =? 0).
Definition of_bool (b : bool) : Z := if b then 1 else 0.

(** ** Data models

    The code runs on 32-bit and on 64-bit targets. Pointers and [long] have
    the same width in both. *)
Inductive abi : Set := ILP32 | LP64.
#[export] Instance abi_eq_dec : EqDecision abi.
Proof. solve_decision. Defined.

Class Arch : Set := the_abi : abi.
Definition word_bits {A : Arch} : Z := match the_abi with ILP32 => 32 | LP64 => 64 end.
Definition sizeof_ptr {A : Arch} : Z := match the_abi with ILP32 => 4 | LP64 => 8 end.

(** The macro [abs] of linux/kernel.h: the argument goes through a [long]. *)
Definition c_abs {A : Arch} (x : Z) : Z :=
  let x := wraps word_bits x in
  if x <? 0 then wraps word_bits (- x) else x.

(** ** Outcomes

    [Ret] is a normal return. [Fatal] is a call of [I_Error], which prints
    its message and leaves the program through [exit]. [Undef] is an
    execution that C leaves undefined (an access outside every object).
    [NoFuel] is a loop that used up the iterations the model gave it. *)
Inductive outcome (A : Type) : Type :=
| Ret (a : A)
| Fatal (msg : string)
| Undef
| NoFuel.
Arguments Ret {A} a.
Arguments Fatal {A} msg.
Arguments Undef {A}.
Arguments NoFuel {A}.

Definition obind {A B} (m : outcome A) (k : A -> outcome B) : outcome B :=
  match m with
  | Ret a => k a
  | Fatal e => Fatal e
  | Undef => Undef
  | NoFuel => NoFuel
  end.

Definition of_option {A} (o : option A) : outcome A :=
  match o with Some a => Ret a | None => Undef end.

Notation "'let*' x := m 'in' k" := (obind m (fun x => k))
  (at level 10, x name, m at level 100, k at level 200) : doom_scope.
Notation "'let*' ' p := m 'in' k" := (obind m (fun x => match x with p => k end))
  (at level 10, p strict pattern, m at level 100, k at level 200) : doom_scope.

(** A run that ends well, with a result that satisfies [Q], or ends the
    program with a message; it is never undefined and never runs out of fuel. *)
Definition safe {A} (m : outcome A) (Q : A -> Prop) : Prop :=
  match m with Ret a => Q a | Fatal _ => True | Undef | NoFuel => False end.

Lemma safe_bind {A B} (m : outcome A) (k : A -> outcome B) Q : safe m (fun a => safe (k a) Q) -> safe (obind m k) Q.
Proof. by destruct m. Qed.
Lemma safe_mono {A} (m : outcome A) (P Q : A -> Prop) : safe m P -> (forall a, P a -> Q a) -> safe m Q.
Proof. destruct m; cbn; auto. Qed.
(** The run returns, and [Q] holds of its result. *)
Definition returns {A} (m : outcome A) (Q : A -> Prop) : Prop := match m with Ret a => Q a | _ => False end.
Lemma returns_bind {A B} (m : outcome A) (k : A -> outcome B) Q : returns m (fun a => returns (k a) Q) -> returns (obind m k) Q.
Proof. by destruct m. Qed.
Lemma returns_mono {A} (m : outcome A) (P Q : A -> Prop) : returns m P -> (forall a, P a -> Q a) -> returns m Q.
Proof. destruct m; cbn; auto. Qed.
Lemma safe_run {A B} (m : outcome A) (k : A -> outcome B) a Q : m = Ret a -> safe (k a) Q -> safe (obind m k) Q.
Proof. by intros ->. Qed.

(** ** Record update

    [r <| f := v |>] replaces one field. The instance for a record is found
    by abstracting the projection out of the eta expansion that the
    record's [Eta] instance gives. *)
Class Eta (R : Type) : Type := eta_of : R -> R.
Class Update {R T : Type} (f : R -> T) : Type := update : (T -> T) -> R -> R.

Ltac solve_update :=
  match goal with
  | |- @Update ?R _ ?f =>
      let e := constr:(@eta_of R _) in
      let e := eval hnf in e in
      let e := eval pattern f in e in
      match e with
      | ?g _ => exact (fun h r => g (fun s => h (f s)) r)
      end
  end.
#[export] Hint Extern 0 (Update _) => solve_update : typeclass_instances.

Notation "r <| f := v |>" := (update (f := f) (fun _ => v) r)
  (at level 1, left associativity, f at level 0, v at level 200) : doom_scope.
Notation "r <| f ::= h |>" := (update (f := f) h r)
  (at level 1, left associativity, f at level 0, h at level 200) : doom_scope.
#[global] Arguments update {R T} f {_} _ _ /.

(** ** Automation *)
Create HintDb doom.

(** Turns the boolean tests of the code into propositions on [Z]. *)
Ltac breflect :=
  repeat match goal with
  | H : (_ && _) = true |- _ => apply andb_true_iff in H as [? ?]
  | H : (_ || _) = false |- _ => apply orb_false_iff in H as [? ?]
  | H : (_ && _) = false |- _ => apply andb_false_iff in H
  | H : (_ || _) = true |- _ => apply orb_true_iff in H
  | H : negb _ = true |- _ => apply negb_true_iff in H
  | H : negb _ = false |- _ => apply negb_false_iff in H
  | H : (_ =? _) = true |- _ => apply Z.eqb_eq in H
  | H : (_ =? _) = false |- _ => apply Z.eqb_neq in H
  | H : (_ <? _) = true |- _ => apply Z.ltb_lt in H
  | H : (_ <? _) = false |- _ => apply Z.ltb_ge in H
  | H : (_ <=? _) = true |- _ => apply Z.leb_le in H
  | H : (_ <=? _) = false |- _ => apply Z.leb_gt in H
  | H : (_ >? _) = _ |- _ => rewrite Z.gtb_ltb in H
  | H : (_ >=? _) = _ |- _ => rewrite Z.geb_leb in H
  end.

(** Splits every [if] and [match] of the goal, remembering the tests. *)
Ltac split_ifs :=
  repeat match goal with
  | |- context [if ?b then _ else _] =>
      lazymatch type of b with
      | bool => let E := fresh "E" in destruct b eqn:E
      end
  end; breflect.

(** Equations between returned outcomes. *)
Ltac inv_ret :=
  repeat match goal with
  | H : Ret _ = Ret _ |- _ => injection H as H; try subst
  | H : Ret _ = Fatal _ |- _ => discriminate H
  | H : Ret _ = Undef |- _ => discriminate H
  | H : Ret _ = NoFuel |- _ => discriminate H
  | H : Fatal _ = Ret _ |- _ => discriminate H
  | H : Undef = Ret _ |- _ => discriminate H
  | H : NoFuel = Ret _ |- _ => discriminate H
  | H : (_, _) = (_, _) |- _ => injection H as H; try subst
  | H : Some _ = Some _ |- _ => injection H as H; try subst
  end.

Ltac pow2 := repeat match goal with
  | |- context [2 ^ ?n] =>
      lazymatch n with
      | Zpos _ => let v := eval vm_compute in (2 ^ n) in change (2 ^ n) with v
      end
  | H : context [2 ^ ?n] |- _ =>
      lazymatch n with
      | Zpos _ => let v := eval vm_compute in (2 ^ n) in change (2 ^ n) with v in H
      end
  end.

(** Range facts about closed integers. *)
Ltac fits_const := unfold fits_s, fits_u; split; vm_compute; first [reflexivity | discriminate].

(** [i32] and [i16] of a value in range. *)
Ltac in_range := lia || (unfold fits_s; change (32 - 1) with 31; change (16 - 1) with 15; pow2; lia).

(** Closed decidable propositions, by evaluation. *)
Ltac by_decision := apply (bool_decide_unpack _); vm_compute; exact I.

(** Linear arithmetic with [/] and [mod] expanded. *)
Ltac zlia := Z.to_euclidean_division_equations; lia.

(** ** Lemmas on machine integers *)
Lemma wrapu_range w x : 0 <= w -> fits_u w (wrapu w x).
Proof. intros. apply Z.mod_pos_bound. lia. Qed.

Lemma wraps_range w x : 0 < w -> fits_s w (wraps w x).
Proof.
  intros Hw. unfold fits_s, wraps.
  assert (2 ^ w = 2 * 2 ^ (w - 1)).
  { rewrite <- Z.pow_succ_r by lia. f_equal. lia. }
  pose proof (Z.mod_pos_bound (x + 2 ^ (w - 1)) (2 ^ w)). lia.
Qed.

Lemma wrapu_id w x : fits_u w x -> wrapu w x = x.
Proof. intros H. apply Z.mod_small, H. Qed.

Lemma wraps_id w x : 0 < w -> fits_s w x -> wraps w x = x.
Proof.
  intros Hw H. unfold fits_s, wraps in *.
  assert (2 ^ w = 2 * 2 ^ (w - 1)).
  { rewrite <- Z.pow_succ_r by lia. f_equal. lia. }
  rewrite Z.mod_small; lia.
Qed.

(** Signed reduction only depends on the residue modulo [2 ^ w]. *)
Lemma wraps_congr w x y : x mod 2 ^ w = y mod 2 ^ w -> wraps w x = wraps w y.
Proof. intros H. unfold wraps. by rewrite (Zplus_mod x), H, <- Zplus_mod. Qed.

Lemma wraps_mod w x : 0 <= w -> wraps w x mod 2 ^ w = x mod 2 ^ w.
Proof.
  intros Hw. unfold wraps.
  rewrite Zminus_mod_idemp_l. f_equal. lia.
Qed.

Lemma wraps_wrapu w x : 0 <= w -> wraps w (wrapu w x) = wraps w x.
Proof. intros. apply wraps_congr, Z.mod_mod. lia. Qed.

Lemma wrapu_wraps w x : 0 <= w -> wrapu w (wraps w x) = wrapu w x.
Proof. apply wraps_mod. Qed.

Lemma wraps_wraps w x : 0 < w -> wraps w (wraps w x) = wraps w x.
Proof. intros. by apply wraps_id, wraps_range. Qed.

Lemma land_mod x y w : 0 <= w -> Z.land (x mod 2 ^ w) (y mod 2 ^ w) = Z.land x y mod 2 ^ w.
Proof.
  intros. rewrite <- !Z.land_ones by done.
  apply Z.bits_inj'. intros k Hk. rewrite !Z.land_spec.
  destruct (Z.testbit x k), (Z.testbit y k), (Z.testbit (Z.ones w) k); done.
Qed.

Lemma has_flag_0 m : has_flag 0 m = false.
Proof. done. Qed.

(** ** Least and greatest element, [d] for none *)
Definition zmin (d : Z) (l : list Z) : Z := fold_right Z.min d l.
Definition zmax (d : Z) (l : list Z) : Z := fold_right Z.max d l.

Lemma zmin_min v d vs : zmin (Z.min v d) vs = Z.min v (zmin d vs).
Proof. unfold zmin. induction vs as [|w ws IH]; cbn; lia. Qed.

Lemma zmax_max v d vs : zmax (Z.max v d) vs = Z.max v (zmax d vs).
Proof. unfold zmax. induction vs as [|w ws IH]; cbn; lia. Qed.

Lemma zmin_spec d l : (forall x, x ∈ l -> zmin d l <= x) /\ zmin d l <= d /\ (zmin d l = d \/ zmin d l ∈ l).
Proof.
  induction l as [|y l (IH1 & IH2 & IH3)]; cbn; [split_and!; [by intros x ?%elem_of_nil|lia|by left]|].
  fold (zmin d l) in *. split_and!; [|lia|].
  - intros x [->|Hx]%elem_of_cons; [lia|]. specialize (IH1 x Hx). lia.
  - destruct (Z.min_spec y (zmin d l)) as [[_ ->]|[_ ->]]; [right; left|].
    destruct IH3 as [->|]; [by left|right; by right].
Qed.

Lemma zmax_spec d l : (forall x, x ∈ l -> x <= zmax d l) /\ d <= zmax d l /\ (zmax d l = d \/ zmax d l ∈ l).
Proof.
  induction l as [|y l (IH1 & IH2 & IH3)]; cbn; [split_and!; [by intros x ?%elem_of_nil|lia|by left]|].
  fold (zmax d l) in *. split_and!; [|lia|].
  - intros x [->|Hx]%elem_of_cons; [lia|]. specialize (IH1 x Hx). lia.
  - destruct (Z.max_spec y (zmax d l)) as [[_ ->]|[_ ->]]; [|right; left].
    destruct IH3 as [->|]; [by left|right; by right].
Qed.

#[export] Hint Resolve wrapu_range wraps_range : doom.
Create Rewrite HintDb doom.
#[export] Hint Rewrite wraps_wraps wraps_wrapu wrapu_wraps using lia : doom.

(** * Circular lists

    The zone's block list (z_zone.c) and the thinker list (p_tick.c) are
    circular lists read from a cap. [chain R x l] says that [R] holds between
    neighbours of [x :: l], [cyc R l] that it also holds from the last
    element back to the first. *)

Section cyclic.
Context {X : Type}.
Implicit Types (R : X -> X -> Prop) (l : list X).

Fixpoint chain R (x : X) l : Prop :=
  match l with
  | [] => True
  | y :: l => R x y /\ chain R y l
  end.

Definition cyc R l : Prop :=
  match l with
  | [] => True
  | x :: l => chain R x (l ++ [x])
  end.

Lemma chain_app R l1 : forall x y l2,
  chain R x (l1 ++ y :: l2) <-> chain R x (l1 ++ [y]) /\ chain R y l2.
Proof. induction l1 as [|z l1 IH]; intros; cbn; [tauto|]. rewrite IH. tauto. Qed.

Lemma cyc_rot R l1 l2 : cyc R (l1 ++ l2) -> cyc R (l2 ++ l1).
Proof.
  destruct l1 as [|x l1], l2 as [|y l2]; cbn; rewrite ?app_nil_r; try done.
  rewrite <- !app_assoc. cbn. rewrite (chain_app R l1 x y (l2 ++ [x])), (chain_app R l2 y x (l1 ++ [y])). tauto.
Qed.

(** Replacing the two ends of a chain. *)
Lemma chain_ends R x x' y y' l :
  (forall z, R x z -> R x' z) -> (forall z, R z y -> R z y') -> (R x y -> R x' y') ->
  chain R x (l ++ [y]) -> chain R x' (l ++ [y']).
Proof.
  intros Hx Hy Hxy. destruct l as [|z l]; cbn; [tauto|].
  intros [H1 H2]. split; [auto|]. clear Hx Hxy H1 x x'.
  revert z H2. induction l as [|w l IH]; intros z; cbn; [intuition|].
  intros [H1 H2]. split; [done|]. by apply IH.
Qed.

(** Replacing one element of a cycle by one with the same relations. *)
Lemma cyc_replace R x x' l :
  (forall z, R x z -> R x' z) -> (forall z, R z x -> R z x') -> (R x x -> R x' x') ->
  cyc R (x :: l) -> cyc R (x' :: l).
Proof. intros. by eapply chain_ends. Qed.

Lemma cyc_impl R R' l : (forall x y, R x y -> R' x y) -> cyc R l -> cyc R' l.
Proof.
  intros H. destruct l as [|x l]; [done|]. unfold cyc. generalize (l ++ [x]). clear l.
  intros l. revert x. induction l as [|y l IH]; intros x; cbn; [done|]. intros [? ?]. auto.
Qed.

Lemma cyc_first R x y l : cyc R (x :: y :: l) -> R x y.
Proof. cbn. tauto. Qed.

Lemma cyc_last R x y l : cyc R (x :: l ++ [y]) -> R y x.
Proof.
  intros H. apply (cyc_rot R (x :: l) [y]) in H. cbn in H. tauto.
Qed.

(** [R] holds between neighbours of [l], without closing the circle. *)
Definition path R l : Prop := match l with [] => True | x :: l => chain R x l end.

Lemma path_app R l1 l2 : path R (l1 ++ l2) -> path R l1 /\ path R l2.
Proof.
  revert l2. induction l1 as [|x l1 IH]; intros l2; cbn; [done|].
  destruct l1 as [|y l1]; cbn in *.
  - destruct l2; cbn; tauto.
  - intros [H1 H2]. apply IH in H2. tauto.
Qed.

Lemma cyc_path R x l : cyc R (x :: l) -> path R l.
Proof.
  destruct l as [|y l]; [done|]. intros [_ H].
  change (path R ((y :: l) ++ [x])) in H. apply path_app in H. tauto.
Qed.

Lemma chain_snoc R l y : forall x, chain R x l -> (forall w, last (x :: l) = Some w -> R w y) ->
  chain R x (l ++ [y]).
Proof.
  induction l as [|z l IH]; intros x; cbn; [intros _ H; split; [by apply H|done]|].
  intros [H1 H2] H. split; [done|]. by apply IH.
Qed.

Lemma cyc_intro R x l : l <> [] -> path R l ->
  (forall y, head l = Some y -> R x y) -> (forall y, last l = Some y -> R y x) -> cyc R (x :: l).
Proof.
  intros Hne Hp Hh Hl. destruct l as [|y l]; [done|]. cbn. split; [by apply Hh|].
  by apply chain_snoc.
Qed.

Lemma path_last R l x y : path R (l ++ [x; y]) -> R x y.
Proof. intros H. apply path_app in H as [_ H]. cbn in H. tauto. Qed.
End cyclic.

(** Transport along a pointwise relation that [R] respects. *)
Lemma chain_Forall2 {X Y} (R : X -> X -> Prop) (R' : Y -> Y -> Prop) (S : X -> Y -> Prop) l l' :
  (forall x y x' y', S x x' -> S y y' -> R x y -> R' x' y') ->
  Forall2 S l l' -> forall x x', S x x' -> chain R x l -> chain R' x' l'.
Proof.
  intros H. induction 1 as [|y y' l l' Hy Hl IH]; intros x x' Hx; cbn; [done|].
  intros [? ?]. eauto.
Qed.

Lemma cyc_Forall2 {X Y} (R : X -> X -> Prop) (R' : Y -> Y -> Prop) (S : X -> Y -> Prop) l l' :
  (forall x y x' y', S x x' -> S y y' -> R x y -> R' x' y') ->
  Forall2 S l l' -> cyc R l -> cyc R' l'.
Proof.
  intros H HF. destruct HF as [|x x' l l' Hx Hl]; [done|]. cbn.
  eapply chain_Forall2; [done| |done]. apply Forall2_app; [done|]. by constructor.
Qed.
