(* ===== verification/MFixed.v ===== *)
(** * Fixed-point arithmetic (src/commands/doom/m_fixed.c)

    A [fixed_t] is a 32-bit integer that counts units of 1/65536. The file
    models [FixedMul] and [FixedDiv] on both data models and shows when their
    result is exact, when it saturates and where they leave C's defined
    behaviour. *)
From S2P Require Import Prelude.

Definition FRACBITS : Z := 16.
Definition FRACUNIT : Z := 65536.

(** The product is taken in [int64_t]; its conversion back to [fixed_t]
    keeps the low 32 bits. *)
Definition FixedMul (a b : Z) : Z := i32 (Z.shiftr (i64 (a * b)) FRACBITS).

(** [abs] works on a [long], so the guard differs between data models when
    an argument is [INT_MIN]. Division by zero is undefined. *)
Definition FixedDiv {A : Arch} (a b : Z) : outcome Z :=
  if Z.shiftr (c_abs a) 14 >=? c_abs b then
    Ret (if Z.lxor a b <? 0 then INT_MIN else INT_MAX)
  else if b =? 0 then Undef
  else Ret (i32 (Z.quot (i64 (Z.shiftl a 16)) b)).

(** ** Lemmas *)
Lemma c_abs_spec {A : Arch} x :
  fits_s 32 x -> (the_abi = LP64 \/ x <> INT_MIN) -> c_abs x = Z.abs x.
Proof.
  unfold fits_s, c_abs, word_bits, INT_MIN. cbn. intros Hx Harch.
  destruct the_abi.
  - destruct Harch as [|Hne]; [discriminate|].
    rewrite wraps_id by (unfold fits_s; cbn; lia).
    destruct (x <? 0) eqn:E; breflect; [rewrite wraps_id|]; unfold fits_s; cbn; lia.
  - rewrite wraps_id by (unfold fits_s; cbn; lia).
    destruct (x <? 0) eqn:E; breflect; [rewrite wraps_id|]; unfold fits_s; cbn; lia.
Qed.

Lemma lxor_neg a b : (Z.lxor a b <? 0) = xorb (a <? 0) (b <? 0).
Proof.
  destruct (Z.lxor a b <? 0) eqn:E; destruct (a <? 0) eqn:Ea; destruct (b <? 0) eqn:Eb;
    breflect; try done; exfalso.
  all: pose proof (Z.lxor_nonneg a b); lia.
Qed.

Lemma fixed_product_fits a b : fits_s 32 a -> fits_s 32 b -> fits_s 64 (a * b).
Proof. unfold fits_s. cbn. nia. Qed.

Lemma fixeddiv_quot_bound a b :
  b <> 0 -> Z.abs a / 16384 < Z.abs b -> Z.abs (Z.quot (a * 65536) b) <= 2 ^ 30.
Proof.
  intros Hb H. rewrite <- Z.quot_abs by done. rewrite Z.abs_mul.
  rewrite Z.quot_div_nonneg by lia.
  apply Z.div_le_upper_bound; [lia|].
  pose proof (Z.mod_pos_bound (Z.abs a) 16384 ltac:(lia)).
  pose proof (Z.div_mod (Z.abs a) 16384 ltac:(lia)).
  change (2 ^ 30) with (16384 * 65536). change (Z.abs 65536) with 65536. nia.
Qed.

Lemma fixeddiv_defined {A : Arch} a b :
  fits_s 32 a -> fits_s 32 b -> (the_abi = LP64 \/ a <> INT_MIN /\ b <> INT_MIN) ->
  FixedDiv a b =
  Ret (if Z.abs b <=? Z.abs a / 2 ^ 14 then (if xorb (a <? 0) (b <? 0) then INT_MIN else INT_MAX)
       else Z.quot (a * FRACUNIT) b).
Proof.
  intros Ha Hb Harch. unfold FixedDiv, FRACUNIT.
  rewrite !c_abs_spec by (try done; tauto).
  rewrite Z.geb_leb, Z.shiftr_div_pow2 by lia. rewrite lxor_neg.
  destruct (Z.abs b <=? Z.abs a / 2 ^ 14) eqn:E; [done|]. breflect.
  pose proof (Z.div_pos (Z.abs a) (2 ^ 14) ltac:(lia) ltac:(lia)).
  destruct (b =? 0) eqn:E0; breflect; [lia|].
  f_equal. rewrite Z.shiftl_mul_pow2 by lia.
  unfold fits_s in Ha, Hb. pow2. cbn in Ha, Hb.
  rewrite (wraps_id 64) by (unfold fits_s; cbn; lia).
  pose proof (fixeddiv_quot_bound a b E0 E).
  apply wraps_id; unfold fits_s; cbn in *; lia.
Qed.

(** ** Properties *)

(** FixedMul is the exact product rounded towards minus infinity as soon
    as that value is a fixed_t; in particular FRACUNIT is its unit. *)
Theorem FixedMul_exact (a b : Z) :
  fits_s 32 a -> fits_s 32 b -> fits_s 32 (a * b / FRACUNIT) ->
  FixedMul a b = a * b / FRACUNIT /\ FixedMul a FRACUNIT = a.
Proof.
  intros Ha Hb Hp. unfold FixedMul, FRACBITS, FRACUNIT in *.
  assert (Hu : fits_s 32 65536) by (unfold fits_s; cbn; lia).
  rewrite !(wraps_id 64) by (try lia; auto using fixed_product_fits).
  rewrite !Z.shiftr_div_pow2 by lia. change (2 ^ 16) with 65536.
  rewrite Z.div_mul by lia. rewrite !wraps_id by (done || lia). done.
Qed.
Lemma FixedMul_exact_witness : FixedMul (3 * FRACUNIT) 32768 = 98304.
Proof.
  destruct (FixedMul_exact (3 * FRACUNIT) 32768) as [E _]; [fits_const ..|].
  exact E.
Defined.

(** FixedDiv never overflows: when the quotient might not fit it
    saturates at INT_MIN or INT_MAX with the sign of the exact quotient, and
    otherwise it is that quotient truncated towards zero; this holds for every
    pair of arguments on LP64 and away from INT_MIN on ILP32. *)
Theorem FixedDiv_total {A : Arch} (a b : Z) :
  fits_s 32 a -> fits_s 32 b -> (the_abi = LP64 \/ a <> INT_MIN /\ b <> INT_MIN) ->
  exists q, FixedDiv a b = Ret q /\ fits_s 32 q /\
    (Z.abs a / 2 ^ 14 < Z.abs b -> q = Z.quot (a * FRACUNIT) b /\ Z.abs q <= 2 ^ 30) /\
    (Z.abs b <= Z.abs a / 2 ^ 14 -> q = if xorb (a <? 0) (b <? 0) then INT_MIN else INT_MAX).
Proof.
  intros Ha Hb Harch. rewrite (fixeddiv_defined a b Ha Hb Harch).
  pose proof (Z.div_pos (Z.abs a) (2 ^ 14) ltac:(lia) ltac:(lia)).
  eexists. split; [reflexivity|].
  destruct (Z.abs b <=? Z.abs a / 2 ^ 14) eqn:E; breflect.
  - repeat split; try lia; destruct (xorb _ _); unfold INT_MIN, INT_MAX; cbn; lia.
  - pose proof (fixeddiv_quot_bound a b ltac:(lia) E). unfold FRACUNIT, fits_s. cbn in *. lia.
Qed.
Lemma FixedDiv_total_witness :
  @FixedDiv LP64 (10 * FRACUNIT) (4 * FRACUNIT) = Ret 163840.
Proof.
  pose proof (@FixedDiv_total LP64 (10 * FRACUNIT) (4 * FRACUNIT)) as H.
  destruct H as (q & E & _ & H & _); [fits_const .. | by left |].
  rewrite E. f_equal. apply H. by vm_compute.
Defined.

(** On a 32-bit target FixedDiv mishandles INT_MIN: dividing it by zero
    reaches the division instruction, and dividing anything by INT_MIN
    saturates although the quotient is tiny. A 64-bit target does neither. *)
Theorem FixedDiv_ilp32_int_min :
  @FixedDiv ILP32 INT_MIN 0 = Undef /\
  @FixedDiv LP64 INT_MIN 0 = Ret INT_MIN /\
  (forall a, fits_s 32 a -> @FixedDiv ILP32 a INT_MIN = Ret (if 0 <=? a then INT_MIN else INT_MAX)) /\
  @FixedDiv LP64 FRACUNIT INT_MIN = Ret (-2).
Proof.
  split; [by vm_compute|]. split; [by vm_compute|]. split; [|by vm_compute].
  intros a Ha. unfold FixedDiv.
  assert (E : (Z.shiftr (@c_abs ILP32 a) 14 >=? @c_abs ILP32 INT_MIN) = true).
  { rewrite Z.geb_leb, Z.shiftr_div_pow2 by lia. apply Z.leb_le.
    change (@c_abs ILP32 INT_MIN) with INT_MIN.
    assert (fits_s 32 (@c_abs ILP32 a)).
    { unfold c_abs. cbn. destruct (_ <? 0); apply wraps_range; lia. }
    unfold fits_s, INT_MIN in *. cbn in *. apply Z.div_le_lower_bound; lia. }
  rewrite E, lxor_neg. change (INT_MIN <? 0) with true.
  destruct (a <? 0) eqn:E1, (0 <=? a) eqn:E2; breflect; try done; lia.
Qed.
