(* ===== verification/MRandom.v ===== *)
(** * Pseudo-random numbers (src/commands/doom/m_random.c)

    Two indices walk the same 256-byte table: [prndindex] drives the game
    simulation and [rndindex] everything that must not disturb it. *)
From S2P Require Import Prelude.
#[local] Open Scope doom_scope.

Definition rndtable : list Z :=
  [0; 8; 109; 220; 222; 241; 149; 107; 75; 248; 254; 140; 16; 66; 74; 21;
   211; 47; 80; 242; 154; 27; 205; 128; 161; 89; 77; 36; 95; 110; 85; 48;
   212; 140; 211; 249; 22; 79; 200; 50; 28; 188; 52; 140; 202; 120; 68; 145;
   62; 70; 184; 190; 91; 197; 152; 224; 149; 104; 25; 178; 252; 182; 202; 182;
   141; 197; 4; 81; 181; 242; 145; 42; 39; 227; 156; 198; 225; 193; 219; 93;
   122; 175; 249; 0; 175; 143; 70; 239; 46; 246; 163; 53; 163; 109; 168; 135;
   2; 235; 25; 92; 20; 145; 138; 77; 69; 166; 78; 176; 173; 212; 166; 113;
   94; 161; 41; 50; 239; 49; 111; 164; 70; 60; 2; 37; 171; 75; 136; 156;
   11; 56; 42; 146; 138; 229; 73; 146; 77; 61; 98; 196; 135; 106; 63; 197;
   195; 86; 96; 203; 113; 101; 170; 247; 181; 113; 80; 250; 108; 7; 255; 237;
   129; 226; 79; 107; 112; 166; 103; 241; 24; 223; 239; 120; 198; 58; 60; 82;
   128; 3; 184; 66; 143; 224; 145; 224; 81; 206; 163; 45; 63; 90; 168; 114;
   59; 33; 159; 95; 28; 139; 123; 98; 125; 196; 15; 70; 194; 253; 54; 14;
   109; 226; 71; 17; 161; 93; 186; 87; 244; 138; 20; 52; 123; 251; 26; 36;
   17; 46; 52; 231; 232; 76; 31; 221; 84; 37; 216; 165; 212; 106; 197; 242;
   98; 43; 39; 175; 254; 145; 190; 84; 118; 222; 187; 136; 120; 163; 236; 249].

Record rnd_state : Set := mk_rnd { rndindex : Z; prndindex : Z }.
#[export] Instance rnd_eta : Eta rnd_state := fun r => mk_rnd (rndindex r) (prndindex r).

(** The table lookup [rndtable[i]]; indices outside the table are undefined. *)
Definition rnd_at (i : Z) : outcome Z :=
  if i <? 0 then Undef else of_option (rndtable !! Z.to_nat i).

Definition P_Random (s : rnd_state) : outcome (Z * rnd_state) :=
  let s := s <| prndindex := Z.land (i32 (prndindex s + 1)) 255 |> in
  let* r := rnd_at (prndindex s) in Ret (r, s).

Definition M_Random (s : rnd_state) : outcome (Z * rnd_state) :=
  let s := s <| rndindex := Z.land (i32 (rndindex s + 1)) 255 |> in
  let* r := rnd_at (rndindex s) in Ret (r, s).

Definition M_ClearRandom (s : rnd_state) : rnd_state := mk_rnd 0 0.

(** [n] calls of [P_Random] in a row: the values drawn, first one first. *)
Fixpoint P_Randoms (n : nat) (s : rnd_state) : outcome (list Z * rnd_state) :=
  match n with
  | O => Ret ([], s)
  | S n => let* '(x, s) := P_Random s in
           let* '(xs, s) := P_Randoms n s in Ret (x :: xs, s)
  end.

(** ** Lemmas *)
Lemma rndtable_length : length rndtable = 256%nat.
Proof. done. Qed.

Lemma rndtable_bytes : Forall (fits_u 8) rndtable.
Proof. apply (bool_decide_unpack _). by vm_compute. Qed.

Lemma rnd_at_ok i : 0 <= i < 256 -> exists x, rnd_at i = Ret x /\ rndtable !! Z.to_nat i = Some x /\ fits_u 8 x.
Proof.
  intros Hi. unfold rnd_at. destruct (i <? 0) eqn:E; breflect; [lia|].
  destruct (lookup_lt_is_Some_2 rndtable (Z.to_nat i)) as [x Hx].
  { rewrite rndtable_length. lia. }
  rewrite Hx. exists x. split_and!; try done.
  by apply (proj1 (Forall_lookup _ _) rndtable_bytes _ _ Hx).
Qed.

Lemma next_index_range i : 0 <= Z.land (i32 i) 255 < 256.
Proof. change 255 with (Z.ones 8). rewrite Z.land_ones by lia. apply Z.mod_pos_bound. lia. Qed.

Lemma next_index i : 0 <= i < 256 -> Z.land (i32 (i + 1)) 255 = (i + 1) mod 256.
Proof.
  intros. rewrite wraps_id by (unfold fits_s; cbn; lia).
  change 255 with (Z.ones 8). by rewrite Z.land_ones by lia.
Qed.

Lemma P_Random_step s : 0 <= prndindex s < 256 -> exists x,
  P_Random s = Ret (x, mk_rnd (rndindex s) ((prndindex s + 1) mod 256)) /\
  rndtable !! Z.to_nat ((prndindex s + 1) mod 256) = Some x.
Proof.
  intros Hs. destruct s as [r p]. unfold P_Random, update. cbn in *. rewrite next_index by done.
  destruct (rnd_at_ok ((p + 1) mod 256)) as (x & E & Hx & _).
  { apply Z.mod_pos_bound. lia. }
  rewrite E. cbn. eauto.
Qed.

Lemma P_Random_total s : exists x s', P_Random s = Ret (x, s') /\ fits_u 8 x.
Proof.
  unfold P_Random. destruct (rnd_at_ok _ (next_index_range (prndindex s + 1))) as (x & E & _ & Hx).
  cbn. rewrite E. cbn. by do 2 eexists.
Qed.

Lemma P_Randoms_from n : forall r p, 0 <= p < 256 -> exists xs,
  P_Randoms n (mk_rnd r p) = Ret (xs, mk_rnd r ((p + Z.of_nat n) mod 256)) /\
  length xs = n /\
  forall k, (k < n)%nat -> xs !! k = rndtable !! Z.to_nat ((p + Z.of_nat k + 1) mod 256).
Proof.
  induction n as [|n IH]; intros r p Hp; cbn [P_Randoms].
  - exists []. rewrite Z.add_0_r, Z.mod_small by lia. split_and!; done || lia.
  - destruct (P_Random_step (mk_rnd r p) Hp) as (x & E & Hx). rewrite E. cbn in *.
    destruct (IH r ((p + 1) mod 256)) as (xs & E' & Hl & Hk).
    { apply Z.mod_pos_bound. lia. }
    rewrite E'. cbn. exists (x :: xs). split_and!.
    + do 3 f_equal. rewrite Zplus_mod_idemp_l. f_equal. lia.
    + cbn. lia.
    + intros [|k] Hlt; cbn.
      * rewrite Z.add_0_r. done.
      * rewrite Hk by lia. do 2 f_equal.
        rewrite <- Z.add_assoc, Zplus_mod_idemp_l. f_equal. lia.
Qed.

(** ** Properties *)

(** From any state the two generators read inside the table and return a
    byte, leave their index a byte, and neither advances the other's index:
    drawing cosmetic numbers cannot desynchronise the simulation. *)
Theorem random_safe_and_independent (s : rnd_state) :
  exists x y s1 s2,
    P_Random s = Ret (x, s1) /\ fits_u 8 x /\ fits_u 8 (prndindex s1) /\ rndindex s1 = rndindex s /\
    M_Random s = Ret (y, s2) /\ fits_u 8 y /\ fits_u 8 (rndindex s2) /\ prndindex s2 = prndindex s.
Proof.
  destruct s as [r p]. unfold P_Random, M_Random, update. cbn.
  destruct (rnd_at_ok _ (next_index_range (p + 1))) as (x & -> & _ & Hx).
  destruct (rnd_at_ok _ (next_index_range (r + 1))) as (y & -> & _ & Hy).
  cbn. do 4 eexists. split_and!; try done; apply next_index_range.
Qed.

(** After M_ClearRandom the k-th number drawn by P_Random is entry
    (k + 1) mod 256 of the table, for any number of draws, so the sequence of
    a demo or a net game is fixed and repeats with period 256. *)
Theorem P_Random_sequence (s : rnd_state) (n : nat) :
  exists xs s', P_Randoms n (M_ClearRandom s) = Ret (xs, s') /\
    length xs = n /\ prndindex s' = Z.of_nat n mod 256 /\
    (forall k, (k < n)%nat -> xs !! k = rndtable !! Z.to_nat ((Z.of_nat k + 1) mod 256)) /\
    (forall k, (k + 256 < n)%nat -> xs !! (k + 256)%nat = xs !! k).
Proof.
  destruct (P_Randoms_from n 0 0) as (xs & E & Hl & Hk); [lia|].
  exists xs. eexists. split; [exact E|]. split_and!; try done.
  intros k Hlt. rewrite !Hk by lia. do 2 f_equal.
  rewrite Nat2Z.inj_add.
  replace (0 + (Z.of_nat k + Z.of_nat 256) + 1) with (0 + Z.of_nat k + 1 + 1 * 256) by lia.
  by rewrite Z_mod_plus_full.
Qed.
