(* ===== verification/MBbox.v ===== *)
(** * Bounding boxes (src/commands/doom/m_bbox.c)

    A box is the array of four [fixed_t] indexed by [BOXTOP], [BOXBOTTOM],
    [BOXLEFT] and [BOXRIGHT], here the four fields of a record. *)
From S2P Require Import Prelude.
#[local] Open Scope doom_scope.

Record bbox : Set := mk_bbox { BOXTOP : Z; BOXBOTTOM : Z; BOXLEFT : Z; BOXRIGHT : Z }.
#[export] Instance bbox_eta : Eta bbox :=
  fun b => mk_bbox (BOXTOP b) (BOXBOTTOM b) (BOXLEFT b) (BOXRIGHT b).

Definition M_ClearBox (box : bbox) : bbox :=
  let box := box <| BOXRIGHT := INT_MIN |> <| BOXTOP := INT_MIN |> in
  box <| BOXLEFT := INT_MAX |> <| BOXBOTTOM := INT_MAX |>.

Definition M_AddToBox (box : bbox) (x y : Z) : bbox :=
  let box :=
    if x <? BOXLEFT box then box <| BOXLEFT := x |>
    else if x >? BOXRIGHT box then box <| BOXRIGHT := x |>
    else box in
  if y <? BOXBOTTOM box then box <| BOXBOTTOM := y |>
  else if y >? BOXTOP box then box <| BOXTOP := y |>
  else box.

(** The box a loop of [M_AddToBox] over points builds. *)
Definition add_points (box : bbox) (ps : list (Z * Z)) : bbox :=
  fold_left (fun b p => M_AddToBox b (fst p) (snd p)) ps box.

(** Reference definition: the least box around the points. *)
Definition exact_box (ps : list (Z * Z)) : bbox :=
  mk_bbox (zmax INT_MIN (map snd ps)) (zmin INT_MAX (map snd ps))
          (zmin INT_MAX (map fst ps)) (zmax INT_MIN (map fst ps)).

(** ** Lemmas

    The horizontal and the vertical pair of fields evolve independently and
    by the same rule, [add_axis]. *)
Definition add_axis (lohi : Z * Z) (v : Z) : Z * Z :=
  let '(lo, hi) := lohi in
  if v <? lo then (v, hi) else if v >? hi then (lo, v) else (lo, hi).
#[local] Arguments add_axis : simpl never.

Lemma M_AddToBox_axes b x y :
  let '(l, r) := add_axis (BOXLEFT b, BOXRIGHT b) x in
  let '(bo, t) := add_axis (BOXBOTTOM b, BOXTOP b) y in
  M_AddToBox b x y = mk_bbox t bo l r.
Proof.
  destruct b as [t bo l r]. unfold M_AddToBox, add_axis, update. cbn.
  destruct (x <? l); [|destruct (x >? r)]; cbn;
    (destruct (y <? bo); [|destruct (y >? t)]; done).
Qed.

Lemma add_points_axes ps : forall b,
  let '(l, r) := fold_left add_axis (map fst ps) (BOXLEFT b, BOXRIGHT b) in
  let '(bo, t) := fold_left add_axis (map snd ps) (BOXBOTTOM b, BOXTOP b) in
  add_points b ps = mk_bbox t bo l r.
Proof.
  induction ps as [|[x y] ps IH]; intros b; cbn; [by destruct b|].
  pose proof (M_AddToBox_axes b x y) as E.
  destruct (add_axis (BOXLEFT b, _) x) as [l r], (add_axis (BOXBOTTOM b, _) y) as [bo t].
  rewrite E. exact (IH (mk_bbox t bo l r)).
Qed.

Lemma fold_axis_lo vs : forall lo hi, fst (fold_left add_axis vs (lo, hi)) = zmin lo vs.
Proof.
  induction vs as [|v vs IH]; intros lo hi; [done|].
  assert (E : exists hi', add_axis (lo, hi) v = (Z.min v lo, hi')).
  { unfold add_axis. destruct (v <? lo) eqn:E; breflect; [rewrite Z.min_l by lia; eauto|].
    rewrite Z.min_r by lia. case_match; eauto. }
  destruct E as [hi' E]. cbn [fold_left]. rewrite E, IH. apply zmin_min.
Qed.

(** Once the lower end is a lower bound, the upper end is a running maximum. *)
Lemma fold_axis_hi vs : forall lo hi, Forall (fun v => lo <= v) vs ->
  fold_left add_axis vs (lo, hi) = (lo, zmax hi vs).
Proof.
  induction vs as [|v vs IH]; intros lo hi H; [done|].
  apply Forall_cons in H as [Hv H]. cbn [fold_left].
  assert (E : add_axis (lo, hi) v = (lo, Z.max v hi)).
  { unfold add_axis. destruct (v <? lo) eqn:E; breflect; [lia|].
    destruct (v >? hi) eqn:E'; breflect; f_equal; lia. }
  rewrite E, IH by done. f_equal. apply zmax_max.
Qed.

Lemma zmin_lower d vs : Forall (fun v => zmin d vs <= v) vs.
Proof.
  induction vs as [|v vs IH]; constructor; cbn [zmin zmax fold_right]; [lia|].
  eapply Forall_impl; [exact IH|]. unfold zmin, zmax. cbn. lia.
Qed.

Lemma zmax_upper d vs : Forall (fun v => v <= zmax d vs) vs.
Proof.
  induction vs as [|v vs IH]; constructor; cbn [zmin zmax fold_right]; [lia|].
  eapply Forall_impl; [exact IH|]. unfold zmin, zmax. cbn. lia.
Qed.

Lemma zmax_idem d h vs :
  (h = d \/ h ∈ vs) -> Forall (fun v => d <= v) vs -> zmax h vs = zmax d vs.
Proof.
  intros [->|Hin] Hd; [done|].
  pose proof (proj1 (Forall_forall _ _) (zmax_upper d vs) _ Hin).
  pose proof (proj1 (Forall_forall _ _) Hd _ Hin). cbn in *.
  rewrite <- (Z.max_l h d), zmax_max by lia. lia.
Qed.

Lemma fold_axis_hi_in vs : forall lo hi,
  let h := snd (fold_left add_axis vs (lo, hi)) in h = hi \/ h ∈ vs.
Proof.
  induction vs as [|v vs IH]; intros lo hi; cbn; [by left|].
  destruct (add_axis (lo, hi) v) as [lo' hi'] eqn:E.
  assert (hi' = hi \/ hi' = v) by (unfold add_axis in E; repeat case_match; inv_ret; auto).
  specialize (IH lo' hi'). cbn in IH. rewrite elem_of_cons. intuition congruence.
Qed.

Lemma fold_axis_twice vs : Forall (fits_s 32) vs ->
  fold_left add_axis (vs ++ vs) (INT_MAX, INT_MIN) = (zmin INT_MAX vs, zmax INT_MIN vs).
Proof.
  intros Hf. rewrite fold_left_app.
  pose proof (fold_axis_lo vs INT_MAX INT_MIN) as Hlo.
  pose proof (fold_axis_hi_in vs INT_MAX INT_MIN) as Hhi.
  destruct (fold_left add_axis vs _) as [lo hi]. cbn in *. subst lo.
  rewrite fold_axis_hi by apply zmin_lower. f_equal.
  apply zmax_idem; [done|].
  eapply Forall_impl; [exact Hf|]. unfold fits_s, INT_MIN. cbn. lia.
Qed.

(** ** Properties *)

(** A box cleared with M_ClearBox into which every point is added twice,
    as happens for the two line ends that meet in each vertex of a closed
    sector outline, is exactly the least box around the points. *)
Theorem add_points_twice_exact (b : bbox) (ps : list (Z * Z)) :
  Forall (fun p => fits_s 32 (fst p) /\ fits_s 32 (snd p)) ps ->
  add_points (M_ClearBox b) (ps ++ ps) = exact_box ps.
Proof.
  intros H. pose proof (add_points_axes (ps ++ ps) (M_ClearBox b)) as E.
  destruct b. unfold M_ClearBox, update in *. cbn in E. rewrite !map_app in E.
  rewrite !fold_axis_twice in E; [exact E | apply Forall_map..];
    (eapply Forall_impl; [exact H|]); cbn; tauto.
Qed.
Lemma add_points_twice_exact_witness :
  add_points (M_ClearBox (mk_bbox 0 0 0 0)) [(3, 9); (1, 4); (3, 9); (1, 4)] = mk_bbox 9 4 1 3.
Proof.
  apply (add_points_twice_exact _ [(3, 9); (1, 4)]). repeat constructor; unfold fits_s; cbn; lia.
Defined.

(** Added only once, a point that is a new minimum never updates the
    maximum: after M_ClearBox and one M_AddToBox the right and top edges are
    still INT_MIN, so the box does not contain its only point. *)
Theorem M_AddToBox_first_point (b : bbox) (x y : Z) :
  x < INT_MAX -> y < INT_MAX ->
  M_AddToBox (M_ClearBox b) x y = mk_bbox INT_MIN y x INT_MIN.
Proof.
  intros. pose proof (M_AddToBox_axes (M_ClearBox b) x y) as E. destruct b.
  unfold M_ClearBox, add_axis, update in *. cbn in E.
  destruct (x <? INT_MAX) eqn:E1, (y <? INT_MAX) eqn:E2; breflect; lia || exact E.
Qed.
Lemma M_AddToBox_first_point_witness :
  M_AddToBox (M_ClearBox (mk_bbox 0 0 0 0)) 5 7 = mk_bbox INT_MIN 7 5 INT_MIN.
Proof. apply M_AddToBox_first_point; unfold INT_MAX; lia. Defined.
