(* ===== verification/Queues.v ===== *)
(** * Ring buffers and the queue interface

    Two components of the port pass data through fixed arrays with a write
    and a read index: the event queue of src/commands/doom/d_event.c and the
    key queue of src/commands/doom/doomgeneric_barebox.c. This file has the
    arithmetic both share and the interface [Fifo] under which their client
    [I_GetEvent] sees them. *)
From S2P Require Import Prelude.

(** What a bounded queue promises: within its capacity it is first in, first
    out for the elements [adm] admits, and a pop on an empty queue is refused without a change. *)
Class Fifo (Q A : Type) (post : A -> Q -> Q) (pop : Q -> option (A * Q))
    (adm : A -> Prop) (wf : Q -> Prop) (contents : Q -> list A) (cap : nat) : Prop := {
  fifo_post : forall a q, adm a -> wf q -> (length (contents q) < cap)%nat ->
    wf (post a q) /\ contents (post a q) = contents q ++ [a];
  fifo_pop_empty : forall q, wf q -> contents q = [] -> pop q = None;
  fifo_pop : forall q a l, wf q -> contents q = a :: l ->
    exists q', pop q = Some (a, q') /\ wf q' /\ contents q' = l;
  fifo_bound : forall q, wf q -> (length (contents q) <= cap)%nat
}.

Section ring.
Context {A : Type} (n : Z).

(** The unread elements, oldest first: the slots from [tail] up to [head]. *)
Definition ring_contents (buf : list A) (head tail : Z) : list A :=
  omap (fun k => buf !! Z.to_nat ((tail + Z.of_nat k) mod n))
       (seq 0 (Z.to_nat ((head - tail) mod n))).

Definition ring_wf (buf : list A) (head tail : Z) : Prop :=
  length buf = Z.to_nat n /\ 0 <= head < n /\ 0 <= tail < n.

Lemma ring_step i : 0 <= i < n -> 0 <= (i + 1) mod n < n.
Proof. intros. apply Z.mod_pos_bound. lia. Qed.

Lemma ring_slot buf head tail k : ring_wf buf head tail ->
  is_Some (buf !! Z.to_nat ((tail + k) mod n)).
Proof.
  intros (Hl & ? & ?). apply lookup_lt_is_Some_2. rewrite Hl.
  pose proof (Z.mod_pos_bound (tail + k) n ltac:(lia)). lia.
Qed.

Lemma omap_some_length {B C} (f : B -> option C) l :
  (forall x, is_Some (f x)) -> length (omap f l) = length l.
Proof.
  intros Hf. induction l as [|x l IH]; [done|].
  destruct (Hf x) as [y Hy]. cbn. rewrite Hy. cbn. by rewrite IH.
Qed.

Lemma omap_fmap_ext {B C D} (f : B -> C) (g : C -> option D) (h : B -> option D) (l : list B) :
  (forall x, g (f x) = h x) -> omap g (f <$> l) = omap h l.
Proof. intros H. induction l as [|x l IH]; cbn; [done|]. by rewrite H, IH. Qed.

Lemma ring_length buf head tail : ring_wf buf head tail ->
  Z.of_nat (length (ring_contents buf head tail)) = (head - tail) mod n.
Proof.
  intros Hwf. unfold ring_contents. rewrite omap_some_length.
  - rewrite length_seq. pose proof (Z.mod_pos_bound (head - tail) n).
    destruct Hwf as (_ & ? & ?). lia.
  - intros k. by eapply ring_slot.
Qed.

Lemma ring_contents_congr buf buf' head tail :
  (forall k, 0 <= k < (head - tail) mod n ->
     buf' !! Z.to_nat ((tail + k) mod n) = buf !! Z.to_nat ((tail + k) mod n)) ->
  ring_contents buf' head tail = ring_contents buf head tail.
Proof.
  intros H. unfold ring_contents. apply list_omap_ext, Forall_Forall2_diag, Forall_forall.
  intros k Hk%elem_of_seq. apply H. lia.
Qed.

Lemma ring_slot_ne head tail k :
  0 <= head < n -> 0 <= tail < n -> 0 <= k < (head - tail) mod n -> (tail + k) mod n <> head.
Proof.
  intros Hh Ht Hk E.
  assert ((head - tail) mod n = k); [|lia].
  rewrite <- E, Zminus_mod_idemp_l. replace (tail + k - tail) with k by lia.
  pose proof (Z.mod_pos_bound (head - tail) n ltac:(lia)). apply Z.mod_small. lia.
Qed.

Lemma ring_head_index head tail :
  0 <= head < n -> (tail + (head - tail) mod n) mod n = head.
Proof.
  intros. rewrite Zplus_mod_idemp_r. replace (tail + (head - tail)) with head by lia.
  by apply Z.mod_small.
Qed.

Lemma ring_post buf head tail x :
  ring_wf buf head tail -> (head - tail) mod n < n - 1 ->
  ring_wf (<[Z.to_nat head := x]> buf) ((head + 1) mod n) tail /\
  ring_contents (<[Z.to_nat head := x]> buf) ((head + 1) mod n) tail
    = ring_contents buf head tail ++ [x].
Proof.
  intros (Hl & Hh & Ht) Hroom. split.
  { pose proof (ring_step head Hh). unfold ring_wf. rewrite length_insert. done. }
  pose proof (Z.mod_pos_bound (head - tail) n ltac:(lia)) as Hb.
  assert (Hlen : ((head + 1) mod n - tail) mod n = (head - tail) mod n + 1).
  { rewrite Zminus_mod_idemp_l. replace (head + 1 - tail) with ((head - tail) + 1) by lia.
    rewrite <- Zplus_mod_idemp_l. apply Z.mod_small. lia. }
  rewrite <- (ring_contents_congr buf (<[Z.to_nat head := x]> buf) head tail).
  - unfold ring_contents. rewrite Hlen, Z2Nat.inj_add by lia.
    change (Z.to_nat 1) with 1%nat. rewrite seq_app, omap_app. f_equal. cbn.
    rewrite Z2Nat.id by lia. rewrite ring_head_index by done.
    by rewrite list_lookup_insert_eq by lia.
  - intros k Hk. apply list_lookup_insert_ne.
    pose proof (ring_slot_ne head tail k Hh Ht Hk).
    pose proof (Z.mod_pos_bound (tail + k) n ltac:(lia)). lia.
Qed.

(** One post too many makes the indices meet and hides every element. *)
Lemma ring_overrun buf head tail x :
  0 <= head < n -> 0 <= tail < n -> (head - tail) mod n = n - 1 ->
  (head + 1) mod n = tail /\ ring_contents (<[Z.to_nat head := x]> buf) ((head + 1) mod n) tail = [].
Proof.
  intros Hh Ht E.
  assert (H : (head + 1) mod n = tail).
  { replace (head + 1) with (tail + (head - tail) + 1) by lia.
    rewrite <- Z.add_assoc, <- Zplus_mod_idemp_r, <- (Zplus_mod_idemp_l (head - tail)), E.
    replace (n - 1 + 1) with (1 * n) by lia. rewrite Z_mod_mult, Z.add_0_r. by apply Z.mod_small. }
  split; [done|]. unfold ring_contents. by rewrite H, Z.sub_diag, Z.mod_0_l by lia.
Qed.

Lemma ring_empty buf head tail :
  ring_wf buf head tail -> head = tail <-> ring_contents buf head tail = [].
Proof.
  intros Hwf. pose proof (ring_length _ _ _ Hwf) as Hl. destruct Hwf as (_ & Hh & Ht). split.
  - intros ->. unfold ring_contents. by rewrite Z.sub_diag, Z.mod_0_l by lia.
  - intros E. rewrite E in Hl. cbn in Hl.
    pose proof (ring_head_index head tail Hh) as H. rewrite <- Hl, Z.add_0_r in H.
    by rewrite Z.mod_small in H by lia.
Qed.

Lemma ring_pop buf head tail x l :
  ring_wf buf head tail -> ring_contents buf head tail = x :: l ->
  buf !! Z.to_nat tail = Some x /\ ring_wf buf head ((tail + 1) mod n) /\
  ring_contents buf head ((tail + 1) mod n) = l.
Proof.
  intros Hwf E. pose proof (ring_length _ _ _ Hwf) as Hlen. rewrite E in Hlen. cbn in Hlen.
  pose proof Hwf as (Hl & Hh & Ht).
  pose proof (Z.mod_pos_bound (head - tail) n ltac:(lia)) as Hb.
  assert (Hlen' : (head - (tail + 1) mod n) mod n = (head - tail) mod n - 1).
  { rewrite Zminus_mod_idemp_r. replace (head - (tail + 1)) with (head - tail - 1) by lia.
    rewrite <- Zminus_mod_idemp_l. apply Z.mod_small. lia. }
  assert (E' : ring_contents buf head tail =
    omap (fun k => buf !! Z.to_nat ((tail + Z.of_nat k) mod n)) [0%nat] ++
    ring_contents buf head ((tail + 1) mod n)).
  { unfold ring_contents. rewrite Hlen'.
    replace (Z.to_nat ((head - tail) mod n)) with (S (Z.to_nat ((head - tail) mod n - 1))) by lia.
    rewrite <- cons_seq. change (?a :: ?b) with ([a] ++ b). rewrite omap_app. f_equal.
    rewrite <- fmap_S_seq. apply omap_fmap_ext. intros k.
    do 2 f_equal. rewrite Zplus_mod_idemp_l. f_equal. lia. }
  rewrite E in E'. cbn in E'. rewrite Z.add_0_r, Z.mod_small in E' by lia.
  destruct (lookup_lt_is_Some_2 buf (Z.to_nat tail)) as [y Hy]; [lia|].
  rewrite Hy in E'. cbn in E'. injection E' as <- ->.
  pose proof (ring_step tail Ht). done.
Qed.

(** A queue that drops its oldest element for a new one when it is full. *)
Definition drop_oldest (l : list A) : list A := if Z.of_nat (length l) =? n - 1 then tl l else l.
Lemma ring_push buf head tail x : 1 < n -> ring_wf buf head tail ->
  let head' := (head + 1) mod n in let tail' := if head' =? tail then (tail + 1) mod n else tail in
  ring_wf (<[Z.to_nat head := x]> buf) head' tail' /\
  ring_contents (<[Z.to_nat head := x]> buf) head' tail' = drop_oldest (ring_contents buf head tail) ++ [x].
Proof.
  intros Hn Hwf. cbv zeta. pose proof Hwf as (Hl & Hh & Ht). pose proof (ring_length _ _ _ Hwf) as Hlen. unfold drop_oldest. rewrite Hlen. clear Hl.
  pose proof (Z.mod_pos_bound (head - tail) n ltac:(lia)) as Hb. destruct (Z.eqb_spec ((head - tail) mod n) (n - 1)) as [E|E].
  - pose proof (proj1 (ring_overrun buf head tail x Hh Ht E)) as Eh. rewrite (proj2 (Z.eqb_eq _ _) Eh).
    destruct (ring_contents buf head tail) as [|y l] eqn:El; [cbn in Hlen; lia|]. destruct (ring_pop _ _ _ _ _ Hwf El) as (_ & Hwf' & El').
    pose proof (ring_length _ _ _ Hwf') as Hlen'. rewrite El' in Hlen'. cbn in Hlen, Hlen'. destruct (ring_post buf head _ x Hwf') as [H1 H2]; [lia|].
    rewrite El' in H2. done.
  - assert (Hne : (head + 1) mod n <> tail).
    { intros Et. apply E. rewrite <- Et, Zminus_mod_idemp_r. replace (head - (head + 1)) with (n - 1 + -1 * n) by lia. rewrite Z.mod_add by lia. apply Z.mod_small. lia. }
    rewrite (proj2 (Z.eqb_neq _ _) Hne). apply ring_post; [done|lia].
Qed.
End ring.
