(* ===== verification/Events.v ===== *)
(** * The event queue (src/commands/doom/d_event.c) *)
From S2P Require Import Prelude Queues.
#[local] Open Scope doom_scope.

Inductive evtype_t : Set := ev_keydown | ev_keyup | ev_mouse | ev_joystick | ev_quit.
#[export] Instance evtype_eq_dec : EqDecision evtype_t.
Proof. solve_decision. Defined.

Record event_t : Set := mk_event { ev_type : evtype_t; data1 : Z; data2 : Z; data3 : Z; data4 : Z }.

Definition MAXEVENTS : Z := 64.

Record event_state : Set := mk_events { events : list event_t; eventhead : Z; eventtail : Z }.
#[export] Instance event_state_eta : Eta event_state :=
  fun s => mk_events (events s) (eventhead s) (eventtail s).

(** The file's static variables start out as zero. *)
Definition events_init : event_state :=
  mk_events (replicate 64 (mk_event ev_keydown 0 0 0 0)) 0 0.

Definition D_PostEvent (ev : event_t) (s : event_state) : event_state :=
  let s := s <| events := <[Z.to_nat (eventhead s) := ev]> (events s) |> in
  s <| eventhead := Z.rem (eventhead s + 1) MAXEVENTS |>.

(** [D_PopEvent] returns a pointer to a slot, here the index of the slot. *)
Definition D_PopEvent (s : event_state) : option Z * event_state :=
  if eventtail s =? eventhead s then (None, s)
  else
    let result := eventtail s in
    let s := s <| eventtail := Z.rem (eventtail s + 1) MAXEVENTS |> in
    (Some result, s).

(** What the caller sees through the returned pointer before the next post. *)
Definition pop_event (s : event_state) : option (event_t * event_state) :=
  match D_PopEvent s with
  | (Some i, s') => ev ← events s' !! Z.to_nat i; Some (ev, s')
  | (None, _) => None
  end.

Definition events_wf (s : event_state) : Prop :=
  ring_wf MAXEVENTS (events s) (eventhead s) (eventtail s).
Definition event_list (s : event_state) : list event_t :=
  ring_contents MAXEVENTS (events s) (eventhead s) (eventtail s).

(** ** Lemmas *)
Lemma event_index_rem i : 0 <= i -> Z.rem (i + 1) MAXEVENTS = (i + 1) mod MAXEVENTS.
Proof. intros. apply Z.rem_mod_nonneg; unfold MAXEVENTS; lia. Qed.

Lemma D_PostEvent_eq ev s : events_wf s ->
  D_PostEvent ev s = mk_events (<[Z.to_nat (eventhead s) := ev]> (events s))
                               ((eventhead s + 1) mod MAXEVENTS) (eventtail s).
Proof.
  intros (_ & ? & _). destruct s. unfold D_PostEvent, update. cbn in *. by rewrite event_index_rem by lia.
Qed.

Lemma D_PopEvent_eq s : events_wf s -> eventtail s <> eventhead s ->
  D_PopEvent s = (Some (eventtail s),
                  mk_events (events s) (eventhead s) ((eventtail s + 1) mod MAXEVENTS)).
Proof.
  intros (_ & _ & ?) Hne. destruct s. unfold D_PopEvent, update. cbn in *.
  rewrite event_index_rem by lia. by destruct (_ =? _) eqn:E; breflect.
Qed.

Lemma events_init_wf : events_wf events_init.
Proof. by vm_compute. Qed.

(** The queue implements the interface with room for 63 events. *)
#[export] Instance event_fifo :
  Fifo event_state event_t D_PostEvent pop_event (fun _ => True) events_wf event_list 63.
Proof.
  split.
  - intros ev s _ Hwf Hroom. rewrite (D_PostEvent_eq ev s Hwf). unfold event_list in *.
    apply (ring_post MAXEVENTS); [done|]. rewrite <- (ring_length _ _ _ _ Hwf).
    unfold MAXEVENTS in *. lia.
  - intros s Hwf E. apply (ring_empty _ _ _ _ Hwf) in E.
    unfold pop_event, D_PopEvent. by rewrite E, Z.eqb_refl.
  - intros s ev l Hwf E. assert (Hne : eventtail s <> eventhead s).
    { intros Heq. symmetry in Heq. apply (ring_empty _ _ _ _ Hwf) in Heq. unfold event_list in E. congruence. }
    destruct (ring_pop _ _ _ _ _ _ Hwf E) as (Hslot & Hwf' & E').
    unfold pop_event. rewrite (D_PopEvent_eq s Hwf Hne). cbn. rewrite Hslot. cbn. eauto.
  - intros s Hwf. pose proof (ring_length _ _ _ _ Hwf) as Hl. unfold event_list.
    pose proof (Z.mod_pos_bound (eventhead s - eventtail s) MAXEVENTS). unfold MAXEVENTS in *. lia.
Qed.

(** ** Properties *)

(** Up to 63 outstanding events the queue is first in, first out: posting
    a list of events and popping returns the oldest pending one, and the rest
    stay in order. *)
Theorem event_queue_fifo (s : event_state) (evs : list event_t) (ev : event_t) (rest : list event_t) :
  events_wf s -> (length (event_list s) + length evs <= 63)%nat ->
  event_list s ++ evs = ev :: rest ->
  exists s', pop_event (fold_left (fun s e => D_PostEvent e s) evs s) = Some (ev, s') /\
    events_wf s' /\ event_list s' = rest.
Proof.
  revert s. induction evs as [|e evs IH]; intros s Hwf Hroom E; cbn in *.
  - rewrite app_nil_r in E. by apply (fifo_pop (Fifo := event_fifo)).
  - destruct (fifo_post (Fifo := event_fifo) e s I Hwf) as [Hwf' E']; [lia|].
    apply IH; [done| |].
    + rewrite E', length_app. cbn. lia.
    + by rewrite E', <- app_assoc.
Qed.
Lemma event_queue_fifo_witness :
  let e k := mk_event ev_keydown k 0 0 0 in
  exists s', pop_event (fold_left (fun s e => D_PostEvent e s) [e 1; e 2; e 3] events_init) = Some (e 1, s')
    /\ events_wf s' /\ event_list s' = [e 2; e 3].
Proof. apply event_queue_fifo; [exact events_init_wf | by vm_compute; lia | reflexivity]. Defined.

(** The queue has no overflow check: posting to a queue that already
    holds 63 events makes the indices meet, and all 64 events are lost. *)
Theorem event_queue_overrun (s : event_state) (ev : event_t) :
  events_wf s -> length (event_list s) = 63%nat ->
  event_list (D_PostEvent ev s) = [] /\ pop_event (D_PostEvent ev s) = None.
Proof.
  intros Hwf Hlen. pose proof (ring_length _ _ _ _ Hwf) as Hl. unfold event_list in Hlen.
  rewrite Hlen in Hl. rewrite (D_PostEvent_eq ev s Hwf). pose proof Hwf as (_ & Hh & Ht).
  destruct (ring_overrun MAXEVENTS (events s) (eventhead s) (eventtail s) ev) as [E1 E2];
    [done..|unfold MAXEVENTS in *; lia|].
  split; [exact E2|]. unfold pop_event, D_PopEvent. cbn. by rewrite E1, Z.eqb_refl.
Qed.
Lemma event_queue_overrun_witness :
  let s := fold_left (fun s e => D_PostEvent e s) (replicate 63 (mk_event ev_keyup 7 0 0 0)) events_init in
  event_list (D_PostEvent (mk_event ev_quit 0 0 0 0) s) = [].
Proof. apply event_queue_overrun; by vm_compute. Defined.
