(* ===== verification/KeyInput.v ===== *)
(** * Keyboard input (src/commands/doom/doomgeneric_barebox.c, i_input.c)

    barebox's input layer calls [key_input_notify] for every key transition;
    it translates the key code and stores it in a 16-slot queue that
    [DG_GetKey] empties. [I_GetEvent] turns queued keys into events. *)
From S2P Require Import Prelude Queues Events.
#[local] Open Scope doom_scope.

(** ** The tables of the barebox input layer *)

(** src/drivers/input/keymap.c; slots without an initialiser are zero. *)
Definition keycode_bb_keys : list Z :=
  [255; 27; 49; 50; 51; 52; 53; 54; 55; 56; 57; 48; 45; 61; 8; 9;
   113; 119; 101; 114; 116; 121; 117; 105; 111; 112; 91; 93; 10; 0; 97; 115;
   100; 102; 103; 104; 106; 107; 108; 59; 96; 94; 0; 92; 122; 120; 99; 118;
   98; 110; 109; 44; 46; 47; 0; 0; 0; 32; 0; 0; 0; 0; 0; 0;
   0; 0; 0; 0; 0; 0; 0; 55; 56; 57; 45; 52; 53; 54; 43; 49;
   50; 51; 48; 46; 0; 0; 0; 0; 0; 0; 0; 0; 0; 0; 0; 0;
   10; 0; 0; 0; 0; 0; 1; 16; 135; 2; 6; 133; 14; 136; 15; 137;
   0; 0; 0; 0; 0; 61; 0; 0; 0; 44; 0; 0; 0; 0; 0; 0;
   0; 0; 0; 0; 0; 0; 0; 0; 0; 0; 0; 0; 0; 0; 0; 0;
   0; 0; 0; 0; 0; 0; 0; 0; 0; 0; 0; 0; 0; 0; 0; 0;
   0; 0; 0; 0; 0; 0; 0; 0; 0; 0; 0; 0; 0; 0; 0; 0;
   0; 0; 0; 0; 0; 0; 0; 0; 0; 0; 0; 0; 0; 0; 0; 0;
   0; 0; 0; 0; 0; 0; 0; 0; 0; 0; 0; 0; 0; 0; 0; 0;
   0; 0; 0; 0; 0; 0; 0; 0; 0; 0; 0; 0; 0; 0; 0; 0;
   0; 0; 0; 0; 0; 0; 0; 0; 0; 0; 0; 0; 0; 0; 0; 0;
   0; 0; 0; 0; 0; 0; 0; 0; 0; 0; 0; 0; 0; 0; 0; 0].

(** src/lib/ctype.c, with the masks _U 1, _L 2, _D 4, _C 8, _P 16, _S 32,
    _X 64 and _SP 128 of linux/ctype.h. *)
Definition ctype_table : list Z :=
  [8; 8; 8; 8; 8; 8; 8; 8; 8; 40; 40; 40; 40; 40; 8; 8;
   8; 8; 8; 8; 8; 8; 8; 8; 8; 8; 8; 8; 8; 8; 8; 8;
   160; 16; 16; 16; 16; 16; 16; 16; 16; 16; 16; 16; 16; 16; 16; 16;
   4; 4; 4; 4; 4; 4; 4; 4; 4; 4; 16; 16; 16; 16; 16; 16;
   16; 65; 65; 65; 65; 65; 65; 1; 1; 1; 1; 1; 1; 1; 1; 1;
   1; 1; 1; 1; 1; 1; 1; 1; 1; 1; 1; 16; 16; 16; 16; 16;
   16; 66; 66; 66; 66; 66; 66; 2; 2; 2; 2; 2; 2; 2; 2; 2;
   2; 2; 2; 2; 2; 2; 2; 2; 2; 2; 2; 16; 16; 16; 16; 8;
   0; 0; 0; 0; 0; 0; 0; 0; 0; 0; 0; 0; 0; 0; 0; 0;
   0; 0; 0; 0; 0; 0; 0; 0; 0; 0; 0; 0; 0; 0; 0; 0;
   160; 16; 16; 16; 16; 16; 16; 16; 16; 16; 16; 16; 16; 16; 16; 16;
   16; 16; 16; 16; 16; 16; 16; 16; 16; 16; 16; 16; 16; 16; 16; 16;
   1; 1; 1; 1; 1; 1; 1; 1; 1; 1; 1; 1; 1; 1; 1; 1;
   1; 1; 1; 1; 1; 1; 1; 16; 1; 1; 1; 1; 1; 1; 1; 2;
   2; 2; 2; 2; 2; 2; 2; 2; 2; 2; 2; 2; 2; 2; 2; 2;
   2; 2; 2; 2; 2; 2; 2; 16; 2; 2; 2; 2; 2; 2; 2; 2].

Definition isprint (c : Z) : bool :=
  match ctype_table !! Z.to_nat (u8 c) with
  | Some m => has_flag m (16 + 1 + 2 + 4 + 128)
  | None => false
  end.

(** src/commands/doom/i_input.c *)
Definition shiftxform : list Z :=
  [0; 1; 2; 3; 4; 5; 6; 7; 8; 9; 10; 11; 12; 13; 14; 15;
   16; 17; 18; 19; 20; 21; 22; 23; 24; 25; 26; 27; 28; 29; 30; 31;
   32; 33; 34; 35; 36; 37; 38; 34; 40; 41; 42; 43; 60; 95; 62; 63;
   41; 33; 64; 35; 36; 37; 94; 38; 42; 40; 58; 58; 60; 43; 62; 63;
   64; 65; 66; 67; 68; 69; 70; 71; 72; 73; 74; 75; 76; 77; 78; 79;
   80; 81; 82; 83; 84; 85; 86; 87; 88; 89; 90; 91; 33; 93; 34; 95;
   39; 65; 66; 67; 68; 69; 70; 71; 72; 73; 74; 75; 76; 77; 78; 79;
   80; 81; 82; 83; 84; 85; 86; 87; 88; 89; 90; 123; 124; 125; 126; 127].

Definition NR_KEYS : Z := 256.
Definition DOOM_KEY_RSHIFT : Z := 128 + 54.

(** ** The key queue *)
Definition convertToDoomKey (key : Z) : outcome Z :=
  match key with
  | 28 (* KEY_ENTER *) => Ret 13
  | 105 (* KEY_LEFT *) => Ret 172
  | 106 (* KEY_RIGHT *) => Ret 174
  | 103 (* KEY_UP *) => Ret 173
  | 108 (* KEY_DOWN *) => Ret 175
  | 97 (* KEY_RIGHTCTRL *) | 29 (* KEY_LEFTCTRL *) | 44 (* KEY_Z *) => Ret 163
  | 57 (* KEY_SPACE *) => Ret 162
  | 18 (* KEY_E *) | 54 (* KEY_RIGHTSHIFT *) => Ret DOOM_KEY_RSHIFT
  | 1 (* KEY_ESC *) | 14 (* KEY_BACKSPACE *) => Ret 27
  | _ =>
      if key >? NR_KEYS then Ret (-1)
      else
        let* k := (if key <? 0 then Undef else of_option (keycode_bb_keys !! Z.to_nat key)) in
        if isprint k then Ret k else Ret (-1)
  end.

Definition KEYQUEUE_SIZE : Z := 16.
Record key_state : Set := mk_keys {
  s_KeyQueue : list Z; s_KeyQueueWriteIndex : Z; s_KeyQueueReadIndex : Z }.
#[export] Instance key_state_eta : Eta key_state :=
  fun s => mk_keys (s_KeyQueue s) (s_KeyQueueWriteIndex s) (s_KeyQueueReadIndex s).
Definition keys_init : key_state := mk_keys (replicate 16 0) 0 0.

(** The queue holds [unsigned short]s; the indices are [unsigned int]. *)
Definition addKeyToQueue (keyData : Z) (s : key_state) : key_state :=
  let s := s <| s_KeyQueue := <[Z.to_nat (s_KeyQueueWriteIndex s) := u16 keyData]> (s_KeyQueue s) |> in
  let s := s <| s_KeyQueueWriteIndex := u32 (s_KeyQueueWriteIndex s + 1) |> in
  s <| s_KeyQueueWriteIndex := s_KeyQueueWriteIndex s mod KEYQUEUE_SIZE |>.

(** An input event carries a 16-bit code and a 16-bit value. *)
Definition key_input_notify (code value : Z) (s : key_state) : outcome key_state :=
  let* keyData := convertToDoomKey code in
  if keyData <? 0 then Ret s
  else Ret (addKeyToQueue (Z.lor keyData (Z.shiftl value 8)) s).

(** The two out parameters [pressed] and [doomKey], or [None] for return 0. *)
Definition DG_GetKey (s : key_state) : option (Z * Z * key_state) :=
  if s_KeyQueueReadIndex s =? s_KeyQueueWriteIndex s then None
  else
    keyData ← s_KeyQueue s !! Z.to_nat (s_KeyQueueReadIndex s);
    let s := s <| s_KeyQueueReadIndex := u32 (s_KeyQueueReadIndex s + 1) |> in
    let s := s <| s_KeyQueueReadIndex := s_KeyQueueReadIndex s mod KEYQUEUE_SIZE |> in
    Some (Z.shiftr keyData 8, Z.land keyData 255, s).

(** ** Event translation *)
Definition TranslateKey (key : Z) : Z := key.

Definition GetTypedChar (shiftdown key : Z) : Z :=
  let key := TranslateKey key in
  if shiftdown >? 0 then
    if (key >=? 0) && (key <? Z.of_nat (length shiftxform))
    then default 0 (shiftxform !! Z.to_nat key)
    else 0
  else key.

Definition UpdateShiftStatus (pressed key shiftdown : Z) : Z :=
  let change := if truth pressed then 1 else -1 in
  if key =? DOOM_KEY_RSHIFT then i32 (shiftdown + change) else shiftdown.

Record input_state : Set := mk_input { keyq : key_state; shiftdown : Z; evq : event_state }.
#[export] Instance input_state_eta : Eta input_state :=
  fun s => mk_input (keyq s) (shiftdown s) (evq s).

Definition post_nonzero (ev : event_t) (s : input_state) : input_state :=
  if negb (data1 ev =? 0) then s <| evq := D_PostEvent ev (evq s) |> else s.

(** The [while] loop. The local [event] is never initialised as a whole:
    [j3] and [j4] stand for what its [data3] and [data4] happen to hold. *)
Fixpoint I_GetEvent_loop (fuel : nat) (j3 j4 : Z) (s : input_state) : outcome input_state :=
  match fuel with
  | O => NoFuel
  | S fuel =>
      match DG_GetKey (keyq s) with
      | None => Ret s
      | Some (pressed, key, q) =>
          let s := s <| keyq := q |> in
          let s := s <| shiftdown := UpdateShiftStatus pressed key (shiftdown s) |> in
          if truth pressed then
            let ev := mk_event ev_keydown (TranslateKey key) (GetTypedChar (shiftdown s) key) j3 j4 in
            I_GetEvent_loop fuel j3 j4 (post_nonzero ev s)
          else
            let ev := mk_event ev_keyup (TranslateKey key) 0 j3 j4 in
            Ret (post_nonzero ev s)
      end
  end.

(** The key queue holds at most 15 keys, so 16 rounds are enough. *)
Definition I_GetEvent (j3 j4 : Z) (s : input_state) : outcome input_state :=
  I_GetEvent_loop 16 j3 j4 s.

(** Reference: what one call does to the list of pending keys. It consumes
    presses up to and including the first release. *)
Fixpoint typed_events (j3 j4 : Z) (sh : Z) (keys : list Z) : list event_t * Z * list Z :=
  match keys with
  | [] => ([], sh, [])
  | kd :: keys =>
      let pressed := Z.shiftr kd 8 in
      let key := Z.land kd 255 in
      let sh := UpdateShiftStatus pressed key sh in
      if truth pressed then
        let '(evs, sh', rest) := typed_events j3 j4 sh keys in
        ((if key =? 0 then [] else [mk_event ev_keydown key (GetTypedChar sh key) j3 j4]) ++ evs, sh', rest)
      else ((if key =? 0 then [] else [mk_event ev_keyup key 0 j3 j4]), sh, keys)
  end.

Definition keys_wf (s : key_state) : Prop :=
  ring_wf KEYQUEUE_SIZE (s_KeyQueue s) (s_KeyQueueWriteIndex s) (s_KeyQueueReadIndex s).
Definition key_list (s : key_state) : list Z :=
  ring_contents KEYQUEUE_SIZE (s_KeyQueue s) (s_KeyQueueWriteIndex s) (s_KeyQueueReadIndex s).

(** [DG_GetKey] with its two results put back together. *)
Definition pop_key (s : key_state) : option (Z * key_state) :=
  '(pressed, key, s') ← DG_GetKey s; Some (256 * pressed + key, s').

(** ** Lemmas *)
Lemma key_index i : 0 <= i < KEYQUEUE_SIZE -> u32 (i + 1) mod KEYQUEUE_SIZE = (i + 1) mod KEYQUEUE_SIZE.
Proof. intros. unfold KEYQUEUE_SIZE in *. by rewrite wrapu_id by (unfold fits_u; cbn; lia). Qed.

Lemma key_split kd : 256 * Z.shiftr kd 8 + Z.land kd 255 = kd.
Proof.
  change 255 with (Z.ones 8). rewrite Z.land_ones, Z.shiftr_div_pow2 by lia.
  change (2 ^ 8) with 256. symmetry. apply Z.div_mod. lia.
Qed.

Lemma addKeyToQueue_eq kd s : keys_wf s ->
  addKeyToQueue kd s = mk_keys (<[Z.to_nat (s_KeyQueueWriteIndex s) := u16 kd]> (s_KeyQueue s))
    ((s_KeyQueueWriteIndex s + 1) mod KEYQUEUE_SIZE) (s_KeyQueueReadIndex s).
Proof. intros (_ & ? & _). destruct s. unfold addKeyToQueue, update. cbn in *. by rewrite key_index. Qed.

#[export] Instance key_fifo :
  Fifo key_state Z addKeyToQueue pop_key (fits_u 16) keys_wf key_list 15.
Proof.
  split.
  - intros kd s Hkd Hwf Hroom. rewrite (addKeyToQueue_eq kd s Hwf), wrapu_id by done.
    unfold key_list in *. apply (ring_post KEYQUEUE_SIZE); [done|].
    rewrite <- (ring_length _ _ _ _ Hwf). unfold KEYQUEUE_SIZE in *. lia.
  - intros s Hwf E. apply (ring_empty _ _ _ _ Hwf) in E.
    unfold pop_key, DG_GetKey. by rewrite E, Z.eqb_refl.
  - intros s kd l Hwf E.
    assert (Hne : (s_KeyQueueReadIndex s =? s_KeyQueueWriteIndex s) = false).
    { apply Z.eqb_neq. intros Heq. symmetry in Heq. apply (ring_empty _ _ _ _ Hwf) in Heq.
      unfold key_list in E. congruence. }
    destruct (ring_pop _ _ _ _ _ _ Hwf E) as (Hslot & Hwf' & E').
    unfold pop_key, DG_GetKey. rewrite Hne, Hslot. cbn -[Z.mul]. rewrite key_split.
    destruct s. unfold update. cbn in *. rewrite key_index by apply Hwf. eauto.
  - intros s Hwf. pose proof (ring_length _ _ _ _ Hwf) as Hl. unfold key_list.
    pose proof (Z.mod_pos_bound (s_KeyQueueWriteIndex s - s_KeyQueueReadIndex s) KEYQUEUE_SIZE).
    unfold KEYQUEUE_SIZE in *. lia.
Qed.

Lemma DG_GetKey_cons s kd l : keys_wf s -> key_list s = kd :: l ->
  exists s', DG_GetKey s = Some (Z.shiftr kd 8, Z.land kd 255, s') /\ keys_wf s' /\ key_list s' = l.
Proof.
  intros Hwf E. destruct (fifo_pop (Fifo := key_fifo) s kd l Hwf E) as (s' & Hp & Hwf' & E').
  unfold pop_key in Hp. destruct (DG_GetKey s) as [[[p k] s'']|] eqn:G; cbn -[Z.mul] in Hp; [|discriminate].
  injection Hp as Hkd ->. exists s'. split; [|done].
  unfold DG_GetKey in G. destruct (_ =? _); [done|].
  destruct (s_KeyQueue s !! _) as [x|]; cbn in G; [|done].
  injection G as Hp Hk _. rewrite <- Hp, <- Hk, key_split in Hkd. congruence.
Qed.

Lemma post_nonzero_spec ev s : events_wf (evq s) -> (length (event_list (evq s)) < 63)%nat ->
  keyq (post_nonzero ev s) = keyq s /\ shiftdown (post_nonzero ev s) = shiftdown s /\
  events_wf (evq (post_nonzero ev s)) /\
  event_list (evq (post_nonzero ev s)) = event_list (evq s) ++ (if data1 ev =? 0 then [] else [ev]).
Proof.
  intros Hwf Hroom. destruct s as [kq sh eq]. unfold post_nonzero, update. cbn in *.
  destruct (data1 ev =? 0); cbn; [by rewrite app_nil_r|].
  by destruct (fifo_post (Fifo := event_fifo) ev eq I Hwf Hroom) as [? ->].
Qed.

Lemma if_nil_length {A} (b : bool) (x : A) : (length (if b then [] else [x]) <= 1)%nat.
Proof. destruct b; cbn; lia. Qed.

Lemma I_GetEvent_loop_correct fuel j3 j4 : forall s,
  (length (key_list (keyq s)) < fuel)%nat -> keys_wf (keyq s) -> events_wf (evq s) ->
  (length (event_list (evq s)) + length (key_list (keyq s)) <= 63)%nat ->
  exists s', I_GetEvent_loop fuel j3 j4 s = Ret s' /\ keys_wf (keyq s') /\ events_wf (evq s') /\
    let '(evs, sh, rest) := typed_events j3 j4 (shiftdown s) (key_list (keyq s)) in
    event_list (evq s') = event_list (evq s) ++ evs /\ shiftdown s' = sh /\ key_list (keyq s') = rest.
Proof.
  induction fuel as [|fuel IH]; intros s Hf Hk He Hroom; [lia|]. cbn [I_GetEvent_loop].
  destruct (key_list (keyq s)) as [|kd l] eqn:E.
  - destruct (DG_GetKey (keyq s)) as [[[p k] q]|] eqn:G.
    { pose proof (fifo_pop_empty (Fifo := key_fifo) _ Hk E) as H. unfold pop_key in H. by rewrite G in H. }
    exists s. cbn. by rewrite E, app_nil_r.
  - destruct (DG_GetKey_cons _ _ _ Hk E) as (q & -> & Hq & El).
    destruct s as [kq sh eq]. cbn [typed_events keyq shiftdown evq update Prelude.update] in *.
    set (sh' := UpdateShiftStatus (Z.shiftr kd 8) (Z.land kd 255) sh).
    cbn [length] in Hf, Hroom. destruct (truth (Z.shiftr kd 8)) eqn:Ep.
    + set (ev := mk_event ev_keydown (TranslateKey (Z.land kd 255)) (GetTypedChar sh' (Z.land kd 255)) j3 j4).
      destruct (post_nonzero_spec ev (mk_input q sh' eq)) as (H1 & H2 & H3 & H4); [done|cbn; lia|].
      cbn [keyq shiftdown evq] in *.
      destruct (IH (post_nonzero ev (mk_input q sh' eq))) as (s' & Hs & Hk' & He' & Hspec).
      * rewrite H1. rewrite El. lia.
      * by rewrite H1.
      * done.
      * rewrite H1, H4, El, length_app. pose proof (if_nil_length (data1 ev =? 0) ev). lia.
      * exists s'. split; [exact Hs|]. split; [done|]. split; [done|].
        rewrite H1, H2, El, H4 in Hspec.
        destruct (typed_events j3 j4 sh' l) as [[evs sh''] rest].
        destruct Hspec as (-> & -> & ->). by rewrite <- app_assoc.
    + set (ev := mk_event ev_keyup (TranslateKey (Z.land kd 255)) 0 j3 j4).
      destruct (post_nonzero_spec ev (mk_input q sh' eq)) as (H1 & H2 & H3 & H4); [done|cbn; lia|].
      exists (post_nonzero ev (mk_input q sh' eq)). cbn [keyq shiftdown evq] in *.
      rewrite H1, H2, H4. by rewrite El.
Qed.

(** Every key code the input layer can report, [KEY_MAX] included. *)
Lemma convertToDoomKey_codes :
  forallb (fun n => match convertToDoomKey (Z.of_nat n) with
                    | Ret k => (k =? -1) || ((0 <? k) && (k <? 256))
                    | Undef => (n =? 256)%nat
                    | _ => false end) (seq 0 768) = true.
Proof. by vm_compute. Qed.

(** ** Properties *)

(** C33: I_GetEvent terminates and refines the list-level reference: it
    consumes the pending keys in order up to and including the first release,
    posts one event per key with a non-zero code, with the shift translation
    in force at that key, and leaves the remaining keys queued. *)
Theorem I_GetEvent_correct (j3 j4 : Z) (s : input_state) :
  keys_wf (keyq s) -> events_wf (evq s) -> (length (event_list (evq s)) <= 48)%nat ->
  exists s', I_GetEvent j3 j4 s = Ret s' /\ keys_wf (keyq s') /\ events_wf (evq s') /\
    let '(evs, sh, rest) := typed_events j3 j4 (shiftdown s) (key_list (keyq s)) in
    event_list (evq s') = event_list (evq s) ++ evs /\ shiftdown s' = sh /\ key_list (keyq s') = rest.
Proof.
  intros Hk He Hroom. pose proof (fifo_bound (Fifo := key_fifo) _ Hk).
  apply I_GetEvent_loop_correct; [lia|done|done|lia].
Qed.
Lemma I_GetEvent_correct_witness :
  let s := mk_input (addKeyToQueue 97 (addKeyToQueue (256 + 97) (addKeyToQueue (256 + 182) keys_init))) 0 events_init in
  exists s', I_GetEvent 0 0 s = Ret s' /\
    event_list (evq s') = [mk_event ev_keydown 182 0 0 0; mk_event ev_keydown 97 65 0 0; mk_event ev_keyup 97 0 0 0].
Proof.
  destruct (I_GetEvent_correct 0 0 (mk_input (addKeyToQueue 97 (addKeyToQueue (256 + 97)
    (addKeyToQueue (256 + 182) keys_init))) 0 events_init)) as (s' & E & _ & _ & H & _).
  - by vm_compute.
  - exact events_init_wf.
  - vm_compute. lia.
  - exists s'. split; [exact E|]. rewrite H. by vm_compute.
Defined.

(** For every key code up to KEY_MAX the translation is defined and
    yields -1 or a byte, except for code 256: the guard tests for greater than
    NR_KEYS where the table has NR_KEYS entries, so that code reads past it. *)
Theorem convertToDoomKey_oob (code : Z) :
  0 <= code <= 767 ->
  match convertToDoomKey code with
  | Ret k => code <> 256 /\ (k = -1 \/ 0 < k < 256)
  | Undef => code = 256
  | _ => False
  end.
Proof.
  intros Hc. pose proof convertToDoomKey_codes as H. rewrite forallb_forall in H.
  specialize (H (Z.to_nat code)). rewrite Z2Nat.id in H by lia.
  rewrite in_seq in H. specialize (H ltac:(lia)).
  destruct (decide (code = 256)) as [->|Hne]; [by vm_compute|].
  destruct (convertToDoomKey code); [|done| |done].
  - split; [done|]. apply orb_true_iff in H as [H|H]; breflect; lia.
  - apply Nat.eqb_eq in H. lia.
Qed.
Lemma convertToDoomKey_oob_witness :
  convertToDoomKey 256 = Undef /\
  match convertToDoomKey 30 with
  | Ret k => 30 <> 256 /\ (k = -1 \/ 0 < k < 256)
  | Undef => 30 = 256
  | _ => False
  end.
Proof.
  split; [by vm_compute|]. apply (convertToDoomKey_oob 30). lia.
Defined.
