(* ===== verification/Zone.v ===== *)
(** * The zone allocator (src/commands/doom/z_zone.c): definitions

    The zone is one region of memory cut into blocks without gaps. Each block
    starts with a header; the headers form a circular doubly linked list
    through the list cap [blocklist] inside the zone descriptor. A header is
    a record at an address, [mem] maps addresses to the headers last written
    there, and [cells] maps the addresses of owner variables ([user]) to
    their contents. A header that is merged into its neighbour stays in
    [mem], as it stays in memory. *)
From S2P Require Import Prelude.
#[local] Open Scope doom_scope.

Definition ZONEID : Z := 0x1d4a11.
Definition MINFRAGMENT : Z := 64.

Definition PU_STATIC : Z := 1.
Definition PU_SOUND : Z := 2.
Definition PU_MUSIC : Z := 3.
Definition PU_FREE : Z := 4.
Definition PU_LEVEL : Z := 5.
Definition PU_LEVSPEC : Z := 6.
Definition PU_PURGELEVEL : Z := 7.
Definition PU_CACHE : Z := 8.

Record memblock : Set := mk_block {
  size : Z; user : Z; tag : Z; id : Z; next : Z; prev : Z }.
#[export] Instance memblock_eta : Eta memblock :=
  fun b => mk_block (size b) (user b) (tag b) (id b) (next b) (prev b).

Record zone : Type := mk_zone {
  zbase : Z;                 (* address of the memzone_t *)
  zsize : Z;                 (* mainzone->size *)
  rover : Z;                 (* mainzone->rover *)
  mem : gmap Z memblock;
  cells : gmap Z Z }.
#[export] Instance zone_eta : Eta zone :=
  fun z => mk_zone (zbase z) (zsize z) (rover z) (mem z) (cells z).

Section zone.
Context {A : Arch}.

(** [MEM_ALIGN] and the struct sizes; on 64 bits the members are padded. *)
Definition MEM_ALIGN : Z := sizeof_ptr.
Definition sizeof_memblock : Z := match the_abi with ILP32 => 24 | LP64 => 40 end.
Definition sizeof_memzone : Z := match the_abi with ILP32 => 32 | LP64 => 56 end.
Definition offsetof_blocklist : Z := match the_abi with ILP32 => 4 | LP64 => 8 end.

(** [&mainzone->blocklist] *)
Definition zcap (z : zone) : Z := zbase z + offsetof_blocklist.

(** Header access: reading where no header was ever written is undefined. *)
Definition getb (a : Z) (z : zone) : outcome memblock := of_option (mem z !! a).
Definition setb (a : Z) (b : memblock) (z : zone) : zone := z <| mem := <[a := b]> (mem z) |>.
Definition updb (a : Z) (f : memblock -> memblock) (z : zone) : outcome zone :=
  let* b := getb a z in Ret (setb a (f b) z).
Definition set_cell (a v : Z) (z : zone) : zone := z <| cells := <[a := v]> (cells z) |>.

(** [raw] is what the fresh memory happens to hold where [Z_Init] writes no
    field; [base] and [bytes] are the results of [I_ZoneBase]. *)
Definition Z_Init (raw : Z -> memblock) (base bytes : Z) : zone :=
  let cap := base + offsetof_blocklist in
  let block := base + sizeof_memzone in
  let capb := (raw cap) <| next := block |> <| prev := block |>
                      <| user := base |> <| tag := PU_STATIC |> in
  let b := (raw block) <| prev := cap |> <| next := cap |> <| tag := PU_FREE |>
                     <| size := i32 (bytes - sizeof_memzone) |> in
  mk_zone base bytes block (<[block := b]> (<[cap := capb]> ∅)) ∅.

(** Both merges of [Z_Free] append block [src] to its predecessor [dst]. *)
Definition merge_into (dst src : Z) (z : zone) : outcome zone :=
  let* s := getb src z in
  let* z := updb dst (fun d => d <| size := i32 (size d + size s) |>) z in
  let* z := updb dst (fun d => d <| next := next s |>) z in
  let* d := getb dst z in
  let* z := updb (next d) (fun n => n <| prev := dst |>) z in
  Ret (if src =? rover z then z <| rover := dst |> else z).

Definition Z_Free (ptr : Z) (z : zone) : outcome zone :=
  let block := ptr - sizeof_memblock in
  let* b := getb block z in
  if negb (id b =? ZONEID) then Fatal "Z_Free: freed a pointer without ZONEID"
  else
    let z := if negb (tag b =? PU_FREE) && negb (user b =? 0) then set_cell (user b) 0 z else z in
    let* z := updb block (fun b => b <| tag := PU_FREE |> <| user := 0 |> <| id := 0 |>) z in
    let* b := getb block z in
    let other := prev b in
    let* o := getb other z in
    let* '(block, z) :=
      (if tag o =? PU_FREE
       then let* z := merge_into other block z in Ret (other, z)
       else Ret (block, z)) in
    let* b := getb block z in
    let other := next b in
    let* o := getb other z in
    if tag o =? PU_FREE then merge_into block other z else Ret z.

(** The size rounded up to the alignment, in [size_t], and back in [int]. *)
Definition align_size (n : Z) : Z :=
  i32 (Z.land (wrapu word_bits (n + MEM_ALIGN - 1)) (wrapu word_bits (Z.lnot (MEM_ALIGN - 1)))).

(** The body of the [do ... while] of [Z_Malloc] behind its first test: the
    new [base] and [rover]. *)
Definition Z_Malloc_step (base rov : Z) (z : zone) : outcome (Z * Z * zone) :=
  let* r := getb rov z in
  if negb (tag r =? PU_FREE) then
    if tag r <? PU_PURGELEVEL then Ret (next r, next r, z)
    else
      let* b := getb base z in
      let base := prev b in
      let* z := Z_Free (rov + sizeof_memblock) z in
      let* b := getb base z in
      let base := next b in
      let* b := getb base z in
      Ret (base, next b, z)
  else Ret (base, next r, z).

Fixpoint Z_Malloc_scan (fuel : nat) (want start base rov : Z) (z : zone) : outcome (Z * zone) :=
  match fuel with
  | O => NoFuel
  | S fuel =>
      if rov =? start then Fatal "Z_Malloc: failed on allocation"
      else
        let* '(base, rov, z) := Z_Malloc_step base rov z in
        let* b := getb base z in
        if negb (tag b =? PU_FREE) || (size b <? want)
        then Z_Malloc_scan fuel want start base rov z
        else Ret (base, z)
  end.

(** Cutting what is not needed off the found block. [rawid a] is what the
    [id] field of a new header at [a] happens to hold: it is not written. *)
Definition Z_Malloc_carve (rawid : Z -> Z) (want base : Z) (z : zone) : outcome zone :=
  let* b := getb base z in
  let extra := i32 (size b - want) in
  if extra >? MINFRAGMENT then
    let newblock := base + want in
    let z := setb newblock (mk_block extra 0 PU_FREE (rawid newblock) (next b) base) z in
    let* z := updb (next b) (fun n => n <| prev := newblock |>) z in
    let* z := updb base (fun b => b <| next := newblock |>) z in
    updb base (fun b => b <| size := want |>) z
  else Ret z.

(** Marking the block as used and reporting it to its owner. *)
Definition Z_Malloc_assign (tg usr base : Z) (z : zone) : outcome (Z * zone) :=
  if (usr =? 0) && (tg >=? PU_PURGELEVEL)
  then Fatal "Z_Malloc: an owner is required for purgable blocks"
  else
    let* z := updb base (fun b => b <| user := usr |> <| tag := tg |>) z in
    let result := base + sizeof_memblock in
    let z := if truth usr then set_cell usr result z else z in
    let* b := getb base z in
    let z := z <| rover := next b |> in
    let* z := updb base (fun b => b <| id := ZONEID |>) z in
    Ret (result, z).

Definition Z_Malloc (fuel : nat) (rawid : Z -> Z) (n tg usr : Z) (z : zone) : outcome (Z * zone) :=
  let want := i32 (align_size n + sizeof_memblock) in
  let base := rover z in
  let* b := getb base z in
  let* p := getb (prev b) z in
  let base := if tag p =? PU_FREE then prev b else base in
  let* b := getb base z in
  let start := prev b in
  let* '(base, z) := Z_Malloc_scan fuel want start base base z in
  let* z := Z_Malloc_carve rawid want base z in
  Z_Malloc_assign tg usr base z.

Fixpoint Z_FreeTags_loop (fuel : nat) (lowtag hightag block : Z) (z : zone) : outcome zone :=
  match fuel with
  | O => NoFuel
  | S fuel =>
      if block =? zcap z then Ret z
      else
        let* b := getb block z in
        let nxt := next b in
        if tag b =? PU_FREE then Z_FreeTags_loop fuel lowtag hightag nxt z
        else
          let* z := (if (tag b >=? lowtag) && (tag b <=? hightag)
                     then Z_Free (block + sizeof_memblock) z else Ret z) in
          Z_FreeTags_loop fuel lowtag hightag nxt z
  end.
Definition Z_FreeTags (fuel : nat) (lowtag hightag : Z) (z : zone) : outcome zone :=
  let* c := getb (zcap z) z in Z_FreeTags_loop fuel lowtag hightag (next c) z.

Fixpoint Z_CheckHeap_loop (fuel : nat) (block : Z) (z : zone) : outcome unit :=
  match fuel with
  | O => NoFuel
  | S fuel =>
      let* b := getb block z in
      if next b =? zcap z then Ret tt
      else if negb (block + size b =? next b)
      then Fatal "Z_CheckHeap: block size does not touch the next block"
      else
        let* n := getb (next b) z in
        if negb (prev n =? block)
        then Fatal "Z_CheckHeap: next block doesn't have proper back link"
        else if (tag b =? PU_FREE) && (tag n =? PU_FREE)
        then Fatal "Z_CheckHeap: two consecutive free blocks"
        else Z_CheckHeap_loop fuel (next b) z
  end.
Definition Z_CheckHeap (fuel : nat) (z : zone) : outcome unit :=
  let* c := getb (zcap z) z in Z_CheckHeap_loop fuel (next c) z.

Definition Z_ChangeTag2 (ptr tg : Z) (z : zone) : outcome zone :=
  let block := ptr - sizeof_memblock in
  let* b := getb block z in
  if negb (id b =? ZONEID) then Fatal "Z_ChangeTag: block without a ZONEID!"
  else if (tg >=? PU_PURGELEVEL) && (user b =? 0)
  then Fatal "Z_ChangeTag: an owner is required for purgable blocks"
  else updb block (fun b => b <| tag := tg |>) z.

Definition Z_ChangeUser (ptr usr : Z) (z : zone) : outcome zone :=
  let block := ptr - sizeof_memblock in
  let* b := getb block z in
  if negb (id b =? ZONEID) then Fatal "Z_ChangeUser: Tried to change user for invalid block!"
  else
    let* z := updb block (fun b => b <| user := usr |>) z in
    Ret (set_cell usr ptr z).

Fixpoint Z_FreeMemory_loop (fuel : nat) (block free : Z) (z : zone) : outcome Z :=
  match fuel with
  | O => NoFuel
  | S fuel =>
      if block =? zcap z then Ret free
      else
        let* b := getb block z in
        let free := if (tag b =? PU_FREE) || (tag b >=? PU_PURGELEVEL)
                    then i32 (free + size b) else free in
        Z_FreeMemory_loop fuel (next b) free z
  end.
Definition Z_FreeMemory (fuel : nat) (z : zone) : outcome Z :=
  let* c := getb (zcap z) z in Z_FreeMemory_loop fuel (next c) 0 z.

Definition Z_ZoneSize (z : zone) : Z := u32 (zsize z).
End zone.
