(* ===== verification/ZoneFacts.v ===== *)
(** * The zone allocator: invariant and correctness

    [zone_inv z L] says that the headers of the zone, read from some block
    around the circle, are the list [L]; that they are linked both ways, tile
    the zone without gaps or overlap, and that no two neighbours are free. *)
From S2P Require Import Prelude Zone.
#[local] Open Scope doom_scope.

Abbreviation node := (Z * memblock)%type.

Section facts.
Context {A : Arch}.
Implicit Types (z : zone) (L R P Q : list node) (x y p b n : node).

(** ** The invariant *)
Definition linked x y : Prop := next x.2 = y.1 /\ prev y.2 = x.1.

Definition is_cap z x : bool := x.1 =? zcap z.
Definition zfirst z : Z := zbase z + sizeof_memzone.
Definition zend z : Z := zbase z + zsize z.

(** Neighbours touch; the cap stands for both ends of the zone. *)
Definition end_of z x : Z := if is_cap z x then zfirst z else x.1 + size x.2.
Definition start_of z y : Z := if is_cap z y then zend z else y.1.
Definition touching z x y : Prop := end_of z x = start_of z y.

Definition is_free x : Prop := tag x.2 = PU_FREE.
Definition not_both_free x y : Prop := ~ (is_free x /\ is_free y).

Definition block_ok z x : Prop :=
  if is_cap z x then tag x.2 = PU_STATIC
  else zfirst z <= x.1 /\ x.1 + size x.2 <= zend z /\ sizeof_memblock <= size x.2 /\
       (MEM_ALIGN | x.1) /\ (~ is_free x -> id x.2 = ZONEID) /\
       (PU_PURGELEVEL <= tag x.2 -> user x.2 <> 0).

Definition disjoint_blocks z x y : Prop :=
  is_cap z x = false -> is_cap z y = false -> x.1 <> y.1 ->
  x.1 + size x.2 <= y.1 \/ y.1 + size y.2 <= x.1.

Record zone_ok z L : Prop := {
  ok_mem : Forall (fun x => mem z !! x.1 = Some x.2) L;
  ok_nodup : NoDup (fst <$> L);
  ok_cap : zcap z ∈ (fst <$> L);
  ok_link : cyc linked L;
  ok_touch : cyc (touching z) L;
  ok_blocks : Forall (block_ok z) L;
  ok_disj : forall x y, x ∈ L -> y ∈ L -> disjoint_blocks z x y;
  ok_size : sizeof_memzone < zsize z <= INT_MAX;
  ok_align : (MEM_ALIGN | zbase z);
  ok_rover : rover z ∈ (fst <$> L)
}.

Definition zone_inv z L : Prop := zone_ok z L /\ cyc not_both_free L.

(** Two nodes that differ at most in their links. *)
Definition same x y : Prop :=
  x.1 = y.1 /\ size x.2 = size y.2 /\ user x.2 = user y.2 /\ tag x.2 = tag y.2 /\ id x.2 = id y.2.

(** ** Constants *)
Lemma sizeof_memblock_pos : 24 <= sizeof_memblock <= 40.
Proof. unfold sizeof_memblock. destruct the_abi; lia. Qed.

Lemma sizeof_memblock_align : (MEM_ALIGN | sizeof_memblock).
Proof. unfold MEM_ALIGN, sizeof_ptr, sizeof_memblock. destruct the_abi; [exists 6|exists 5]; done. Qed.

Lemma sizeof_memzone_align : (MEM_ALIGN | sizeof_memzone).
Proof. unfold MEM_ALIGN, sizeof_ptr, sizeof_memzone. destruct the_abi; [exists 8|exists 7]; done. Qed.

Lemma cap_below z : zcap z + sizeof_memblock <= zfirst z.
Proof. unfold zcap, zfirst, offsetof_blocklist, sizeof_memblock, sizeof_memzone. destruct the_abi; lia. Qed.

(** ** Rotation and access *)
Lemma zone_ok_rot z L1 L2 : zone_ok z (L1 ++ L2) -> zone_ok z (L2 ++ L1).
Proof.
  intros [H1 H2 H3 H4 H5 H6 H7 H8 H9 H10]. assert (Hp : L1 ++ L2 ≡ₚ L2 ++ L1) by apply Permutation_app_comm.
  split; try done.
  - by rewrite <- Hp.
  - by rewrite <- Hp.
  - by rewrite <- Hp.
  - by apply cyc_rot.
  - by apply cyc_rot.
  - by rewrite <- Hp.
  - intros x y Hx Hy. apply H7; by rewrite Hp.
  - by rewrite <- Hp.
Qed.

Lemma zone_inv_rot z L1 L2 : zone_inv z (L1 ++ L2) -> zone_inv z (L2 ++ L1).
Proof.
  intros (H1 & H2). split; [by apply zone_ok_rot|by apply cyc_rot].
Qed.

Lemma zone_ok_mem z L x : zone_ok z L -> x ∈ L -> getb x.1 z = Ret x.2.
Proof. intros [H _ _ _ _ _ _ _ _ _] Hx. unfold getb. by rewrite (proj1 (Forall_forall _ _) H x Hx). Qed.

Lemma zone_ok_block z L x : zone_ok z L -> x ∈ L -> block_ok z x.
Proof. intros [_ _ _ _ _ H _ _ _ _] Hx. by apply (proj1 (Forall_forall _ _) H x Hx). Qed.

Lemma free_not_cap z L x : zone_ok z L -> x ∈ L -> is_free x -> is_cap z x = false.
Proof.
  intros Hok Hx Hf. pose proof (zone_ok_block _ _ _ Hok Hx) as H. unfold block_ok in H.
  destruct (is_cap z x); [|done]. unfold is_free in Hf. rewrite H in Hf. done.
Qed.

Lemma zone_ok_cap_in z L : zone_ok z L -> exists c, c ∈ L /\ is_cap z c = true.
Proof.
  intros Hok. pose proof (ok_cap _ _ Hok) as H. apply list_elem_of_fmap in H as (c & Hc & Hin).
  exists c. split; [done|]. unfold is_cap. rewrite <- Hc. apply Z.eqb_refl.
Qed.

Lemma nodup_addr z L x y : zone_ok z L -> x ∈ L -> y ∈ L -> x.1 = y.1 -> x = y.
Proof.
  intros Hok Hx Hy E. pose proof (zone_ok_mem _ _ _ Hok Hx) as H1.
  pose proof (zone_ok_mem _ _ _ Hok Hy) as H2. rewrite E in H1.
  destruct x, y; cbn in *. congruence.
Qed.

Lemma getb_set_eq z a v : getb a (setb a v z) = Ret v.
Proof. unfold getb, setb, update. cbn. by rewrite lookup_insert_eq. Qed.

Lemma getb_set_ne z a a' v : a <> a' -> getb a (setb a' v z) = getb a z.
Proof. intros. unfold getb, setb, update. cbn. by rewrite lookup_insert_ne. Qed.

Lemma same_refl x : same x x.
Proof. by unfold same. Qed.
Lemma Forall2_same_refl L : Forall2 same L L.
Proof. induction L; constructor; auto using same_refl. Qed.
Lemma same_trans x y w : same x y -> same y w -> same x w.
Proof. unfold same. intuition congruence. Qed.

Lemma Forall2_same_trans L1 L2 L3 : Forall2 same L1 L2 -> Forall2 same L2 L3 -> Forall2 same L1 L3.
Proof.
  intros H. revert L3. induction H as [|x y l l' Hx Hl IH]; intros L3 H3;
    apply Forall2_cons_inv_l in H3 || apply Forall2_nil_inv_l in H3.
  - by subst.
  - destruct H3 as (w & l3 & Hw & Hl3 & ->). constructor; eauto using same_trans.
Qed.

Lemma same_fmap L L' : Forall2 same L L' -> fst <$> L = fst <$> L'.
Proof. induction 1 as [|x y L L' [E _] _ IH]; cbn; [done|]. by rewrite E, IH. Qed.

Lemma mem_other (m : gmap Z memblock) a v L :
  Forall (fun x => m !! x.1 = Some x.2) L -> a ∉ (fst <$> L) ->
  Forall (fun x => <[a := v]> m !! x.1 = Some x.2) L.
Proof.
  intros H Ha. apply Forall_forall. intros x Hx.
  rewrite lookup_insert_ne; [by apply (proj1 (Forall_forall _ _) H)|].
  intros ->. apply Ha, list_elem_of_fmap. eauto.
Qed.

(** Disjointness only looks at addresses and sizes. *)
Lemma disj_view z z' L L' :
  (forall w, w ∈ L' -> exists v, v ∈ L /\ v.1 = w.1 /\ size v.2 = size w.2 /\ is_cap z v = is_cap z' w) ->
  (forall x y, x ∈ L -> y ∈ L -> disjoint_blocks z x y) ->
  forall x y, x ∈ L' -> y ∈ L' -> disjoint_blocks z' x y.
Proof.
  intros G H x y Hx Hy. destruct (G x Hx) as (v & Hv & E1 & E2 & E3), (G y Hy) as (w & Hw & F1 & F2 & F3).
  pose proof (H v w Hv Hw) as D. unfold disjoint_blocks in *. by rewrite <- E1, <- E2, <- E3, <- F1, <- F2, <- F3.
Qed.

(** ** Merging a block into its predecessor *)
Definition grown p b n : node :=
  (p.1, mk_block (size p.2 + size b.2) (user p.2) (tag p.2) (id p.2) n.1 (prev p.2)).
Definition relinked p n : node :=
  (n.1, mk_block (size n.2) (user n.2) (tag n.2) (id n.2) (next n.2) p.1).

Lemma merged_mem z p b n R :
  zone_ok z (p :: b :: n :: R) ->
  Forall (fun x => <[n.1 := (relinked p n).2]> (<[p.1 := (grown p b n).2]> (mem z)) !! x.1 = Some x.2)
         (grown p b n :: relinked p n :: R).
Proof.
  intros Hok. pose proof (ok_nodup _ _ Hok) as Hnd. pose proof (ok_mem _ _ Hok) as Hm.
  cbn in Hnd. rewrite !NoDup_cons, !not_elem_of_cons in Hnd.
  destruct Hnd as ((? & ? & Hp) & (? & ?) & Hn & _).
  rewrite !Forall_cons in Hm. destruct Hm as (_ & _ & _ & Hm).
  repeat constructor; cbn.
  - by rewrite lookup_insert_ne, lookup_insert_eq by congruence.
  - by rewrite lookup_insert_eq.
  - by apply mem_other, Hn; apply mem_other.
Qed.

Lemma merged_size z p b n R :
  zone_ok z (p :: b :: n :: R) -> is_cap z p = false -> is_cap z b = false ->
  b.1 = p.1 + size p.2 /\ 0 < size p.2 /\ 0 < size b.2 /\ fits_s 32 (size p.2 + size b.2).
Proof.
  intros Hok Hp Hb. pose proof (cyc_first _ _ _ _ (ok_touch _ _ Hok)) as Ht.
  unfold touching, end_of, start_of in Ht. rewrite Hp, Hb in Ht.
  pose proof (zone_ok_block _ _ p Hok ltac:(left)) as Hbp.
  pose proof (zone_ok_block _ _ b Hok ltac:(right; left)) as Hbb.
  unfold block_ok in *. rewrite Hp in Hbp. rewrite Hb in Hbb.
  pose proof (ok_size _ _ Hok). pose proof sizeof_memblock_pos.
  unfold zfirst, zend, fits_s, INT_MAX, sizeof_memzone in *. cbn.
  split_and!; try lia; destruct the_abi; lia.
Qed.

Lemma merged_disjoint z p b n R x y :
  zone_ok z (p :: b :: n :: R) -> is_cap z p = false -> is_cap z b = false ->
  x ∈ grown p b n :: relinked p n :: R -> y ∈ grown p b n :: relinked p n :: R ->
  disjoint_blocks z x y.
Proof.
  intros Hok Hp Hb. destruct (merged_size _ _ _ _ _ Hok Hp Hb) as (Hadj & Hsp & Hsb & _).
  assert (G : forall w, w ∈ relinked p n :: R -> exists v, v ∈ n :: R /\ v.1 = w.1 /\ size v.2 = size w.2).
  { intros w Hw. apply elem_of_cons in Hw as [->|Hw]; [exists n; split; [left|done]|].
    exists w. split; [by right|done]. }
  assert (Hpos : forall v, v ∈ n :: R -> is_cap z v = false -> 0 < size v.2).
  { intros v Hv Hc. pose proof (zone_ok_block _ _ v Hok ltac:(by do 2 right)) as H.
    unfold block_ok in H. rewrite Hc in H. pose proof sizeof_memblock_pos. lia. }
  assert (K : forall w, w ∈ relinked p n :: R -> disjoint_blocks z (grown p b n) w).
  { intros w Hw. destruct (G w Hw) as (v & Hv & E1 & E2). intros _ Hcw Hne.
    assert (Hcv : is_cap z v = false) by (unfold is_cap in *; by rewrite E1).
    pose proof (Hpos v Hv Hcv).
    pose proof (ok_disj _ _ Hok p v ltac:(left) ltac:(by do 2 right) Hp Hcv) as D1.
    pose proof (ok_disj _ _ Hok b v ltac:(right; left) ltac:(by do 2 right) Hb Hcv) as D2.
    assert (b.1 <> v.1).
    { intros E. pose proof (nodup_addr _ _ b v Hok ltac:(right; left) ltac:(by do 2 right) E) as <-.
      pose proof (ok_nodup _ _ Hok) as Hnd. cbn in Hnd. rewrite !NoDup_cons in Hnd.
      apply (proj1 (proj2 Hnd)). by apply (list_elem_of_fmap_2 fst (n :: R)). }
    cbn in *. rewrite <- E1, <- E2. specialize (D2 H0). specialize (D1 ltac:(congruence)). lia. }
  intros Hx Hy. apply elem_of_cons in Hx as [->|Hx]; apply elem_of_cons in Hy as [->|Hy].
  - by intros _ _ [].
  - by apply K.
  - intros Hc1 Hc2 Hne. destruct (K x Hx Hc2 Hc1 (not_eq_sym Hne)); lia.
  - destruct (G x Hx) as (v & Hv & E1 & E2), (G y Hy) as (v' & Hv' & E1' & E2').
    pose proof (ok_disj _ _ Hok v v' ltac:(by do 2 right) ltac:(by do 2 right)) as D.
    unfold disjoint_blocks, is_cap in *. by rewrite <- E1, <- E2, <- E1', <- E2'.
Qed.

(** The memory after a merge holds the shortened list. *)
Lemma merged_ok z z' p b n R :
  zone_ok z (p :: b :: n :: R) -> is_cap z p = false -> is_cap z b = false ->
  z' = mk_zone (zbase z) (zsize z) (if b.1 =? rover z then p.1 else rover z)
         (<[n.1 := (relinked p n).2]> (<[p.1 := (grown p b n).2]> (mem z))) (cells z) ->
  zone_ok z' (grown p b n :: relinked p n :: R).
Proof.
  intros Hok Hp Hb ->. destruct (merged_size _ _ _ _ _ Hok Hp Hb) as (Hadj & Hsp & Hsb & Hfit).
  pose proof (ok_nodup _ _ Hok) as Hnd. cbn in Hnd. rewrite !NoDup_cons, !not_elem_of_cons in Hnd.
  destruct Hnd as ((? & Hpn & HpR) & _ & HnR & HnodR).
  destruct (ok_link _ _ Hok) as [[Lpb _] [[Lbn _] Lrest]].
  destruct (ok_touch _ _ Hok) as [T1 [T2 T3]].
  set (z' := mk_zone _ _ _ _ _). split.
  - exact (merged_mem _ _ _ _ _ Hok).
  - cbn. rewrite !NoDup_cons, not_elem_of_cons. done.
  - pose proof (ok_cap _ _ Hok) as Hc. change (zcap z') with (zcap z). cbn in *.
    rewrite !elem_of_cons in *. unfold is_cap in Hb. breflect. intuition congruence.
  - cbn. split; [done|]. revert Lrest. cbn. apply chain_ends; unfold linked; cbn; tauto.
  - split.
    + unfold touching, end_of, start_of, is_cap in *. change (zcap z') with (zcap z).
      change (zend z') with (zend z). cbn [grown relinked fst snd size].
      rewrite Hp. rewrite Hb in T2. rewrite <- T2. lia.
    + revert T3. apply chain_ends; unfold touching, end_of, start_of, is_cap;
        change (zcap z') with (zcap z); cbn; done.
  - pose proof (ok_blocks _ _ Hok) as Hbk. rewrite !Forall_cons in *.
    destruct Hbk as (B1 & B2 & B3 & B4). split_and!; [|exact B3|exact B4].
    unfold block_ok in *. change (is_cap z' (grown p b n)) with (is_cap z p).
    rewrite Hp in *. rewrite Hb in B2. unfold is_free in *. cbn.
    change (zfirst z') with (zfirst z). change (zend z') with (zend z).
    destruct B1 as (? & ? & ? & ? & ? & ?), B2 as (? & ? & ? & ? & ? & ?).
    split_and!; try done; lia.
  - intros x y. exact (merged_disjoint _ _ _ _ _ x y Hok Hp Hb).
  - exact (ok_size _ _ Hok).
  - exact (ok_align _ _ Hok).
  - pose proof (ok_rover _ _ Hok) as Hr. cbn in *. rewrite !elem_of_cons in *.
    destruct (b.1 =? rover z) eqn:E; breflect; intuition congruence.
Qed.

Lemma merge_ok z p b n R :
  zone_ok z (p :: b :: n :: R) -> is_cap z p = false -> is_cap z b = false ->
  exists z', merge_into p.1 b.1 z = Ret z' /\ zone_ok z' (grown p b n :: relinked p n :: R) /\
    zbase z' = zbase z /\ zsize z' = zsize z /\ cells z' = cells z /\ mem z' !! b.1 = Some b.2.
Proof.
  intros Hok Hp Hb. destruct (merged_size _ _ _ _ _ Hok Hp Hb) as (_ & _ & _ & Hfit).
  pose proof (zone_ok_mem _ _ p Hok ltac:(left)) as Gp.
  pose proof (zone_ok_mem _ _ b Hok ltac:(right; left)) as Gb.
  pose proof (zone_ok_mem _ _ n Hok ltac:(right; right; left)) as Gn.
  pose proof (ok_nodup _ _ Hok) as Hnd. cbn in Hnd. rewrite !NoDup_cons, !not_elem_of_cons in Hnd.
  destruct Hnd as ((Hpb & Hpn & _) & (Hbn & _) & _).
  destruct (ok_link _ _ Hok) as [_ [[Lbn _] _]].
  eexists. split; [|split; [apply (merged_ok z _ p b n R Hok Hp Hb eq_refl)|]]; cycle 1.
  { split_and!; try done. cbn. rewrite !lookup_insert_ne by congruence.
    pose proof (ok_mem _ _ Hok) as Hm. rewrite !Forall_cons in Hm. tauto. }
  unfold merge_into, updb. rewrite Gb. cbn [obind]. rewrite Gp. cbn [obind].
  rewrite wraps_id by (done || lia). rewrite getb_set_eq. cbn [obind].
  rewrite Lbn, getb_set_eq. cbn [obind].
  match goal with |- context [next ?r] => change (next r) with n.1 end.
  rewrite !getb_set_ne by congruence. rewrite Gn. cbn [obind].
  unfold setb, update. cbn [rover mem]. rewrite insert_insert_eq.
  by destruct (b.1 =? rover z).
Qed.

(** ** Changing the payload of a header *)
Definition with_payload b (u t i : Z) : node :=
  (b.1, mk_block (size b.2) u t i (next b.2) (prev b.2)).

Lemma payload_ok z b R u t i :
  zone_ok z (b :: R) -> is_cap z b = false ->
  (t <> PU_FREE -> i = ZONEID) -> (PU_PURGELEVEL <= t -> u <> 0) ->
  zone_ok (setb b.1 (with_payload b u t i).2 z) (with_payload b u t i :: R).
Proof.
  intros Hok Hb Ht Hu. destruct Hok as [H1 H2 H3 H4 H5 H6 H7 H8 H9 H10]. set (z' := setb _ _ _).
  rewrite Forall_cons in H1, H6. destruct H1 as [M1 M2], H6 as [B1 B2].
  split; try done.
  - constructor; [cbn; by rewrite lookup_insert_eq|]. apply mem_other; [done|].
    cbn in H2. rewrite NoDup_cons in H2. tauto.
  - revert H4. by apply cyc_replace.
  - revert H5. by apply cyc_replace.
  - constructor; [|exact B2]. unfold block_ok in *.
    change (is_cap z' (with_payload b u t i)) with (is_cap z b). rewrite Hb in *.
    unfold is_free. cbn. tauto.
  - eapply disj_view; [|exact H7]. intros w Hw. apply elem_of_cons in Hw as [->|Hw].
    + exists b. split; [left|done].
    + exists w. split; [by right|done].
Qed.

(** ** Z_Free *)
Definition freed b : node := with_payload b 0 PU_FREE 0.
Definition head_used L : Prop := forall r, head L = Some r -> ~ is_free r.
Definition last_used L : Prop := forall r, last L = Some r -> ~ is_free r.
Definition framed z z' : Prop := zbase z' = zbase z /\ zsize z' = zsize z.

Lemma framed_refl z : framed z z.
Proof. done. Qed.
Lemma framed_trans z1 z2 z3 : framed z1 z2 -> framed z2 z3 -> framed z1 z3.
Proof. unfold framed. intuition congruence. Qed.
Lemma framed_cap z z' x : framed z z' -> is_cap z' x = is_cap z x.
Proof. intros [E _]. unfold is_cap, zcap. by rewrite E. Qed.

Lemma grown_same_tag p b n : tag (grown p b n).2 = tag p.2.
Proof. done. Qed.

(** A header that was merged away still points at the block behind it. *)
Definition stale z R (q : node) : Prop :=
  exists h, mem z !! q.1 = Some h /\ tag h = PU_FREE /\ (forall r, head R = Some r -> next h = r.1).

(** The bytes in a list of blocks. *)
Definition total (l : list node) : Z := foldr (fun x sum => size x.2 + sum) 0 l.
Lemma total_app l1 l2 : total (l1 ++ l2) = total l1 + total l2.
Proof. unfold total. induction l1 as [|x l1 IH]; cbn; lia. Qed.
Lemma total_same l l' : Forall2 same l l' -> total l = total l'.
Proof. unfold total. induction 1 as [|x y l l' (_ & E & _) _ IH]; cbn; lia. Qed.

(** The second half of [Z_Free]: absorb the block behind [f] if it is free. *)
Lemma merge_next z f n R :
  zone_ok z (f :: n :: R) -> is_cap z f = false -> path not_both_free (n :: R) ->
  exists z' f' Q Rm R',
    (let* b := getb f.1 z in
     let* o := getb (next b) z in
     if tag o =? PU_FREE then merge_into f.1 (next b) z else Ret z) = Ret z' /\
    zone_ok z' (f' :: R') /\ n :: R = Q ++ Rm /\ Forall2 same Rm R' /\ Forall is_free Q /\
    f'.1 = f.1 /\ tag f'.2 = tag f.2 /\ size f.2 <= size f'.2 /\ Rm <> [] /\ head_used Rm /\
    framed z z' /\ cells z' = cells z /\ Forall (stale z' Rm) Q /\ size f'.2 = size f.2 + total Q.
Proof.
  intros Hok Hf Hpath. pose proof (cyc_first _ _ _ _ (ok_link _ _ Hok)) as [Hn _].
  rewrite (zone_ok_mem _ _ f Hok ltac:(left)). cbn [obind]. rewrite Hn.
  rewrite (zone_ok_mem _ _ n Hok ltac:(right; left)). cbn [obind].
  destruct (tag n.2 =? PU_FREE) eqn:E; breflect.
  - assert (Hfree : is_free n) by exact E.
    pose proof (free_not_cap _ _ n Hok ltac:(right; left) Hfree) as Hcn.
    destruct R as [|m R].
    { destruct (zone_ok_cap_in _ _ Hok) as (c & Hc & Hcc).
      rewrite !elem_of_cons, elem_of_nil in Hc. intuition congruence. }
    destruct (merge_ok z f n m R Hok Hf Hcn) as (z' & Hrun & Hok' & ? & ? & ? & Hstale).
    exists z', (grown f n m), [n], (m :: R), (relinked f m :: R).
    pose proof (zone_ok_block _ _ n Hok ltac:(right; left)) as Hb. unfold block_ok in Hb.
    rewrite Hcn in Hb. pose proof sizeof_memblock_pos.
    split; [exact Hrun|]. split; [exact Hok'|]. split_and!; try done.
    + constructor; [done|]. apply Forall2_same_refl.
    + by constructor.
    + cbn. lia.
    + intros r [= <-] Hr. destruct Hpath as [Hnm _]. by apply Hnm.
    + constructor; [|done]. exists n.2. split_and!; try done.
      destruct (ok_link _ _ Hok) as [_ [[Hnm _] _]]. intros r. by intros [= <-].
    + cbn. lia.
  - exists z, f, [], (n :: R), (n :: R). split_and!; try done.
    + apply Forall2_same_refl.
    + by intros r [= <-].
    + cbn. lia.
Qed.

(** The first half: the block [b] joins its predecessor if that is free. *)
Lemma merge_prev z b R :
  zone_ok z (b :: R) -> is_cap z b = false ->
  exists z' f P Rm R',
    (let* b' := getb b.1 z in
     let* o := getb (prev b') z in
     if tag o =? PU_FREE
     then let* z := merge_into (prev b') b.1 z in Ret (prev b', z)
     else Ret (b.1, z)) = Ret (f.1, z') /\
    zone_ok z' (f :: R') /\ R = Rm ++ P /\ Forall2 same Rm R' /\ Rm <> [] /\ Forall is_free P /\
    (is_free b -> is_free f) /\ size b.2 <= size f.2 /\ is_cap z f = false /\
    (P = [] /\ f.1 = b.1 /\ last_used R \/ exists p, P = [p] /\ f.1 = p.1) /\
    framed z z' /\ cells z' = cells z /\ size f.2 = size b.2 + total P.
Proof.
  intros Hok Hb. destruct (zone_ok_cap_in _ _ Hok) as (c & Hc & Hcc).
  destruct R as [|p R0 _] using rev_ind.
  { apply list_elem_of_singleton in Hc. congruence. }
  pose proof (cyc_last _ _ _ _ (ok_link _ _ Hok)) as [_ Hp].
  assert (Hpin : p ∈ b :: R0 ++ [p]) by (rewrite elem_of_cons, elem_of_app, elem_of_cons; auto).
  rewrite (zone_ok_mem _ _ b Hok ltac:(left)). cbn [obind]. rewrite Hp.
  rewrite (zone_ok_mem _ _ p Hok Hpin). cbn [obind].
  destruct (tag p.2 =? PU_FREE) eqn:E; breflect.
  - assert (Hfree : is_free p) by exact E.
    pose proof (free_not_cap _ _ p Hok Hpin Hfree) as Hcp.
    destruct R0 as [|n R0].
    { cbn in Hc. rewrite !elem_of_cons, elem_of_nil in Hc. intuition congruence. }
    apply (zone_ok_rot z (b :: n :: R0) [p]) in Hok. cbn in Hok.
    destruct (merge_ok z p b n R0 Hok Hcp Hb) as (z' & Hrun & Hok' & ? & ? & ? & _).
    exists z', (grown p b n), [p], (n :: R0), (relinked p n :: R0).
    destruct (merged_size _ _ _ _ _ Hok Hcp Hb) as (_ & ? & ? & _).
    rewrite Hrun. split_and!; try done.
    + constructor; [done|]. apply Forall2_same_refl.
    + by constructor.
    + cbn. lia.
    + right. eauto.
    + cbn. lia.
  - exists z, b, [], (R0 ++ [p]), (R0 ++ [p]). rewrite app_nil_r.
    split_and!; try done.
    + apply Forall2_same_refl.
    + by destruct R0.
    + left. split_and!; try done. intros r. rewrite last_snoc. by intros [= <-].
    + cbn. lia.
Qed.

Lemma nbf_same x y x' y' : same x x' -> same y y' -> not_both_free x y -> not_both_free x' y'.
Proof.
  unfold same, not_both_free, is_free. intros (_ & _ & _ & E & _) (_ & _ & _ & E' & _).
  by rewrite E, E'.
Qed.

Lemma nbf_free_cycle f Rm R' :
  Forall2 same Rm R' -> Rm <> [] -> path not_both_free Rm -> head_used Rm -> last_used Rm ->
  cyc not_both_free (f :: R').
Proof.
  intros HF Hne Hp Hh Hl. apply (cyc_Forall2 not_both_free _ same (f :: Rm)).
  - apply nbf_same.
  - constructor; [apply same_refl|done].
  - apply cyc_intro; try done.
    + intros y Hy [_ Hf]. by apply (Hh y).
    + intros y Hy [Hf _]. by apply (Hl y).
Qed.

Lemma Forall2_same_nonnil L L' : Forall2 same L L' -> L <> [] -> L' <> [].
Proof. by destruct 1. Qed.

Lemma path_same L L' : Forall2 same L L' -> path not_both_free L -> path not_both_free L'.
Proof.
  destruct 1 as [|x y l l' Hx Hl]; [done|]. cbn.
  eapply (chain_Forall2 _ _ same); [apply nbf_same|done|done].
Qed.

Lemma last_used_same L L' : Forall2 same L L' -> last_used L -> last_used L'.
Proof.
  intros HF H. destruct L' as [|x L' _] using rev_ind; [by intros r|].
  apply Forall2_app_inv_r in HF as (L0 & l & _ & HF & ->).
  apply Forall2_cons_inv_r in HF as (y & l' & Hxy & HF & ->).
  apply Forall2_nil_inv_r in HF as ->.
  intros r. rewrite last_snoc. intros [= <-] Hr. apply (H y); [apply last_snoc|].
  destruct Hxy as (_ & _ & _ & E & _). unfold is_free in *. by rewrite E.
Qed.

Lemma free_same L L' : Forall2 same L L' -> Forall is_free L' -> Forall is_free L.
Proof.
  induction 1 as [|x y l l' (_ & _ & _ & E & _) _ IH]; [done|]. rewrite !Forall_cons.
  unfold is_free at 1 3. rewrite E. tauto.
Qed.

Lemma stale_same z Rm Rm' Q Q' :
  Forall2 same Q Q' -> Forall2 same Rm Rm' -> Forall (stale z Rm') Q' -> Forall (stale z Rm) Q.
Proof.
  intros HQ HR. induction HQ as [|x y l l' (E & _) _ IH]; [done|]. rewrite !Forall_cons.
  intros [(h & Hm & Ht & Hh) Hl]. split; [|by apply IH]. exists h. rewrite E. split_and!; try done.
  intros r. destruct HR as [|u v Ru Rv (Eu & _) _]; [done|]. intros [= <-]. rewrite Eu. by apply Hh.
Qed.

(** The block before a free block, or before one whose predecessor is used. *)
Lemma last_used_before L P (fa ba : Z) :
  L <> [] -> path not_both_free (L ++ P) -> Forall is_free P ->
  (P = [] /\ fa = ba /\ last_used (L ++ P) \/ exists p : node, P = [p] /\ fa = p.1) -> last_used L.
Proof.
  intros Hne Hp HP [(-> & _ & H)|(p & -> & _)]; [by rewrite app_nil_r in H|].
  destruct L as [|x L _] using rev_ind; [done|]. intros r. rewrite last_snoc. intros [= <-] Hf.
  rewrite <- app_assoc in Hp. apply path_last in Hp. apply Hp. split; [done|].
  by rewrite Forall_singleton in HP.
Qed.

Lemma last_used_suffix Q R : R <> [] -> last_used (Q ++ R) -> last_used R.
Proof.
  intros Hne H. destruct R as [|x R _] using rev_ind; [done|]. intros r. rewrite last_snoc.
  intros [= <-]. apply H. by rewrite app_assoc, last_snoc.
Qed.

(** What freeing a used block [b] does, seen from [b] around the circle:
    [Q] and [P] are the free blocks behind and before it that it absorbs. *)
Lemma Z_Free_spec z b R :
  zone_inv z (b :: R) -> is_cap z b = false -> ~ is_free b ->
  exists z' f Q Rm P R',
    Z_Free (b.1 + sizeof_memblock) z = Ret z' /\ zone_inv z' (f :: R') /\ is_free f /\
    R = Q ++ Rm ++ P /\ Forall2 same Rm R' /\ Rm <> [] /\ Forall is_free Q /\ Forall is_free P /\
    (P = [] /\ f.1 = b.1 /\ last_used R \/ exists p, P = [p] /\ f.1 = p.1) /\
    size b.2 <= size f.2 /\ framed z z' /\
    cells z' = (if user b.2 =? 0 then cells z else <[user b.2 := 0]> (cells z)) /\
    Forall (stale z' Rm) Q /\ size f.2 = size b.2 + total Q + total P.
Proof.
  intros [Hok Hnbf] Hb Hused.
  pose proof (zone_ok_block _ _ b Hok ltac:(left)) as Hbk. unfold block_ok in Hbk. rewrite Hb in Hbk.
  destruct Hbk as (_ & _ & _ & _ & Hid & _). specialize (Hid Hused).
  pose proof (zone_ok_mem _ _ b Hok ltac:(left)) as Gb.
  set (z1 := if user b.2 =? 0 then z else set_cell (user b.2) 0 z).
  assert (Hok1 : zone_ok z1 (b :: R)) by (unfold z1; destruct (user b.2 =? 0); [|destruct Hok]; done).
  pose proof (payload_ok z1 b R 0 PU_FREE 0 Hok1 ltac:(by unfold z1; case_match) ltac:(done)
    ltac:(unfold PU_PURGELEVEL, PU_FREE; lia)) as Hok2. fold (freed b) in Hok2.
  set (z2 := setb b.1 (freed b).2 z1) in *.
  assert (Hf2 : framed z z2) by (unfold z2, z1; by destruct (user b.2 =? 0)).
  destruct (merge_prev z2 (freed b) R Hok2) as
    (z3 & f & P & Rm1 & R1 & Hrun1 & Hok3 & -> & HF1 & Hne1 & HP & Hfree1 & Hsz1 & Hcap1 & Hcase & Hf3 & Hcells3 & Htot1).
  { by rewrite (framed_cap z). }
  pose proof (cyc_path _ _ _ Hnbf) as Hpath. pose proof (path_app _ _ _ Hpath) as [Hpath1 _].
  destruct R1 as [|n R1]; [by apply Forall2_same_nonnil in HF1|].
  destruct (merge_next z3 f n R1 Hok3) as
    (z4 & f' & Q & Rm2 & R2 & Hrun2 & Hok4 & Hsplit & HF2 & HQ & Hf' & Htag & Hsz2 & Hne2 & Hhd & Hf4 & Hcells4 & Hstale & HszQ).
  { by rewrite (framed_cap z2). }
  { by eapply path_same. }
  pose proof HF1 as HFall. rewrite Hsplit in HF1. apply Forall2_app_inv_r in HF1 as (Q0 & Rm & HFQ & HFm & ->).
  exists z4, f', Q0, Rm, P, R2.
  assert (HneRm : Rm <> []) by (intros ->; by apply Forall2_nil_inv_l in HFm).
  split; [|split; [split; [exact Hok4|]|split_and!; try done]].
  - unfold Z_Free. replace (b.1 + sizeof_memblock - sizeof_memblock) with b.1 by lia.
    rewrite Gb. cbn [obind]. rewrite Hid. cbn [negb Z.eqb Pos.eqb ZONEID].
    replace (tag b.2 =? PU_FREE) with false by (symmetry; by apply Z.eqb_neq).
    assert (Hz1 : (if negb false && negb (user b.2 =? 0) then set_cell (user b.2) 0 z else z) = z1)
      by (unfold z1; by destruct (user b.2 =? 0)).
    rewrite Hz1. unfold updb at 1. rewrite (zone_ok_mem _ _ b Hok1 ltac:(left)). cbn [obind].
    match goal with |- context [setb b.1 ?v z1] => change (setb b.1 v z1) with z2 end.
    revert Hrun1. change (freed b).1 with b.1. destruct (getb b.1 z2) as [b2| | |]; cbn [obind]; try done.
    destruct (getb (prev b2) z2) as [o| | |]; cbn [obind]; try done. intros ->. exact Hrun2.
  - apply (nbf_free_cycle _ Rm2); try done.
    + rewrite Hsplit in HFall. apply (path_same _ _ HFall), path_app in Hpath1. tauto.
    + eapply last_used_same; [exact HFm|]. eapply last_used_suffix; [done|].
      by eapply (last_used_before _ P f.1 b.1).
  - unfold is_free. rewrite Htag. by apply Hfree1.
  - by rewrite app_assoc.
  - by eapply Forall2_same_trans.
  - by eapply free_same.
  - by rewrite Hf'.
  - etrans; [exact Hsz1|exact Hsz2].
  - eauto using framed_trans.
  - rewrite Hcells4, Hcells3. unfold z2, z1. by destruct (user b.2 =? 0).
  - by eapply stale_same.
  - rewrite HszQ, Htot1, (total_same _ _ HFQ). change (size (freed b).2) with (size b.2). lia.
Qed.

(** ** The scan of Z_Malloc *)

(** Blocks the scan may not touch, and how a block list may change: no
    unpurgable block is lost and no used block appears. *)
Definition unpurgable x : Prop := ~ is_free x /\ tag x.2 < PU_PURGELEVEL.
Definition evolves L L' : Prop :=
  (forall x, x ∈ L -> unpurgable x -> exists y, y ∈ L' /\ same x y) /\
  (forall y, y ∈ L' -> ~ is_free y -> exists x, x ∈ L /\ same x y).

(** No used block is lost or appears. *)
Definition retains L L' : Prop :=
  (forall x, x ∈ L -> ~ is_free x -> exists y, y ∈ L' /\ same x y) /\
  (forall y, y ∈ L' -> ~ is_free y -> exists x, x ∈ L /\ same x y).
Lemma retains_perm L L' : L ≡ₚ L' -> retains L L'.
Proof.
  intros HP. split; intros x Hx _; exists x; (split; [|apply same_refl]).
  - by rewrite <- HP.
  - by rewrite HP.
Qed.
Lemma retains_evolves L L' : retains L L' -> evolves L L'.
Proof. intros [H1 H2]. split; [|done]. intros x Hx [Hu _]. by apply H1. Qed.

Lemma evolves_perm L L' : L ≡ₚ L' -> evolves L L'.
Proof. intros HP. by apply retains_evolves, retains_perm. Qed.

Lemma unpurgable_same x y : same x y -> unpurgable x -> unpurgable y.
Proof. intros (_ & _ & _ & E & _). unfold unpurgable, is_free. by rewrite E. Qed.

Lemma used_same x y : same x y -> ~ is_free y -> ~ is_free x.
Proof. intros (_ & _ & _ & E & _). unfold is_free. by rewrite E. Qed.

Lemma evolves_trans L1 L2 L3 : evolves L1 L2 -> evolves L2 L3 -> evolves L1 L3.
Proof.
  intros [K1 S1] [K2 S2]. split.
  - intros x Hx Hu. destruct (K1 x Hx Hu) as (y & Hy & Hxy).
    destruct (K2 y Hy (unpurgable_same _ _ Hxy Hu)) as (w & Hw & Hyw). eauto using same_trans.
  - intros w Hw Hu. destruct (S2 w Hw Hu) as (y & Hy & Hyw).
    destruct (S1 y Hy (used_same _ _ Hyw Hu)) as (x & Hx & Hxy). eauto using same_trans.
Qed.

Lemma Forall2_same_elem_l L L' x : Forall2 same L L' -> x ∈ L -> exists y, y ∈ L' /\ same x y.
Proof.
  intros HF Hx. apply list_elem_of_lookup in Hx as [i Hi].
  destruct (Forall2_lookup_l _ _ _ _ _ HF Hi) as (y & Hy & Hs).
  exists y. split; [|done]. apply list_elem_of_lookup. eauto.
Qed.

Lemma Forall2_same_elem_r L L' y : Forall2 same L L' -> y ∈ L' -> exists x, x ∈ L /\ same x y.
Proof.
  intros HF Hy. apply list_elem_of_lookup in Hy as [i Hi].
  destruct (Forall2_lookup_r _ _ _ _ _ HF Hi) as (x & Hx & Hs).
  exists x. split; [|done]. apply list_elem_of_lookup. eauto.
Qed.

(** Freeing evolves the list if the freed block was purgable. *)
Lemma evolves_free b Q Rm P f R' :
  ~ unpurgable b -> Forall is_free Q -> Forall is_free P -> is_free f -> Forall2 same Rm R' ->
  evolves (b :: Q ++ Rm ++ P) (f :: R').
Proof.
  intros Hb HQ HP Hf HF. rewrite Forall_forall in HQ, HP. split.
  - intros x Hx Hu. rewrite elem_of_cons, !elem_of_app in Hx.
    destruct Hx as [->|[Hx|[Hx|Hx]]]; [done| |..].
    + exfalso. apply (proj1 Hu). by apply HQ.
    + destruct (Forall2_same_elem_l _ _ _ HF Hx) as (y & Hy & Hs). exists y. split; [by right|done].
    + exfalso. apply (proj1 Hu). by apply HP.
  - intros y Hy Hu. apply elem_of_cons in Hy as [->|Hy]; [done|].
    destruct (Forall2_same_elem_r _ _ _ HF Hy) as (x & Hx & Hs). exists x. split; [|done].
    rewrite elem_of_cons, !elem_of_app. auto.
Qed.

(** The loop invariant: around the circle from behind [start] the scan has
    passed [Pre]; then comes the free base block, unless base and rover
    coincide; [q] is the rover, the first of the blocks [F] that are left, and
    [st] the last of them, which the rover must not reach. *)
Definition scan_inv z (start base rov : Z) L (F : list node) : Prop :=
  exists Pre Bs q Qt st,
    L = Pre ++ Bs ++ q :: Qt /\ zone_inv z L /\ rov = q.1 /\ F = q :: Qt /\
    last (q :: Qt) = Some st /\ st.1 = start /\ ~ is_free st /\
    (Bs = [] /\ base = q.1 /\ last_used Pre \/ exists b, Bs = [b] /\ is_free b /\ base = b.1).

(** A free block that is large enough. *)
Definition fits (want : Z) x : Prop := is_free x /\ want <= size x.2.
(** Space the scan can have: free or purgable blocks in a row. [run_room want acc l]:
    in [l] there is such a row with [want] bytes, where a row at the start of [l] has
    [acc] bytes more in front of it. *)
Definition reclaimable x : Prop := is_free x \/ PU_PURGELEVEL <= tag x.2.
#[export] Instance reclaimable_dec x : Decision (reclaimable x).
Proof. unfold reclaimable, is_free. apply _. Defined.
Fixpoint run_room (want acc : Z) (l : list node) : Prop :=
  match l with
  | [] => False
  | x :: l => if decide (reclaimable x) then want <= acc + size x.2 \/ run_room want (acc + size x.2) l else run_room want 0 l
  end.
(** The same without a measure: some blocks in a row. *)
Definition row_in (want : Z) (l : list node) : Prop := exists Pa Q B, l = Pa ++ Q ++ B /\ Q <> [] /\ Forall reclaimable Q /\ want <= total Q.
Lemma run_room_mono want acc acc' l : acc <= acc' -> run_room want acc l -> run_room want acc' l.
Proof.
  revert acc acc'. induction l as [|x l IH]; intros acc acc' Hle; [done|]. cbn. destruct (decide _); [|done].
  intros [H|H]; [left; lia|]. right. by apply (IH (acc + size x.2)); [lia|].
Qed.
Lemma run_room_row want acc Q B : Q <> [] -> Forall reclaimable Q -> want <= acc + total Q -> run_room want acc (Q ++ B).
Proof.
  revert acc. induction Q as [|x Q IH]; intros acc Hne HQ Hw; [done|]. apply Forall_cons in HQ as [Hx HQ]. cbn. rewrite decide_True by done.
  unfold total in Hw. cbn in Hw. fold (total Q) in Hw. destruct Q as [|y Q]; [left; cbn in Hw; lia|]. right. apply IH; [done|done|lia].
Qed.
Lemma row_run_room want acc l : Forall (fun x => reclaimable x -> 0 <= size x.2) l -> 0 <= acc -> row_in want l -> run_room want acc l.
Proof.
  intros Hs Ha (Pa & Q & B & -> & Hne & HQ & Hw). revert acc Ha. induction Pa as [|x Pa IH]; intros acc Ha.
  - cbn [app]. apply run_room_row; [exact Hne|exact HQ|lia].
  - cbn in Hs. apply Forall_cons in Hs as [Hx Hs]. cbn. destruct (decide _) as [Hr|Hr]; [right; specialize (Hx Hr)|]; apply IH; done || lia.
Qed.
Lemma run_room_same want acc l l' : Forall2 same l l' -> run_room want acc l -> run_room want acc l'.
Proof.
  intros HF. revert acc. induction HF as [|x y l l' (_ & Es & _ & Et & _) _ IH]; intros acc; [done|]. cbn. rewrite <- Es.
  assert (Hr : reclaimable x <-> reclaimable y) by (unfold reclaimable, is_free; by rewrite Et). destruct (decide (reclaimable x)), (decide (reclaimable y)); try tauto.
  - intros [H|H]; [by left|right; by apply IH].
  - apply IH.
Qed.
(** Free blocks in front of the row are part of it. *)
Lemma run_room_free want acc Q l : Forall (fun x => is_free x /\ 0 <= size x.2) Q -> run_room want acc (Q ++ l) ->
  Q <> [] /\ want <= acc + total Q \/ run_room want (acc + total Q) l.
Proof.
  revert acc. induction Q as [|x Q IH]; intros acc HQ; cbn [app]; [unfold total; cbn; rewrite Z.add_0_r; auto|]. apply Forall_cons in HQ as [[Hf Hx] HQ].
  assert (Hpos : 0 <= total Q) by (clear -HQ; unfold total; induction HQ as [|y Q [_ Hy] _ IH]; cbn; lia).
  assert (Et : total (x :: Q) = size x.2 + total Q) by done. rewrite Et. cbn [app run_room]. rewrite decide_True by (by left). intros [H|H]; [left; split; [done|lia]|].
  destruct (IH _ HQ H) as [[_ H']|H']; [left; split; [done|lia]|right]. by replace (acc + (size x.2 + total Q)) with (acc + size x.2 + total Q) by lia.
Qed.
(** Room the scan has not passed: before the last block of [F], where the rover must
    not come; the base block, if the rover has left it, is in front of it. *)
Definition still_room (want base rov : Z) L (F : list node) : Prop := exists F0 st acc, F = F0 ++ [st] /\
  (base = rov /\ acc = 0 \/ base <> rov /\ exists b, b ∈ L /\ b.1 = base /\ acc = size b.2) /\ run_room want acc F0.
Lemma base_bytes z Pre Bs q Qt base acc :
  zone_inv z (Pre ++ Bs ++ q :: Qt) -> (Bs = [] /\ base = q.1 \/ exists b, Bs = [b] /\ base = b.1) ->
  (base = q.1 /\ acc = 0 \/ base <> q.1 /\ exists b, b ∈ Pre ++ Bs ++ q :: Qt /\ b.1 = base /\ acc = size b.2) -> acc = total Bs.
Proof.
  intros [Hok _] HB Hacc. destruct HB as [(-> & ->)|(b & -> & ->)].
  - destruct Hacc as [[_ ->]|[Hn _]]; done.
  - assert (Hbq : b.1 <> q.1).
    { pose proof (ok_nodup _ _ Hok) as Hnd. rewrite fmap_app in Hnd. apply NoDup_app in Hnd as (_ & _ & Hnd). cbn in Hnd. apply NoDup_cons in Hnd as [Hnd _].
      intros E. apply Hnd. rewrite E. left. }
    destruct Hacc as [[E _]|[_ (b' & Hb' & E & ->)]]; [done|]. assert (b' = b) as ->; [|unfold total; cbn; lia].
    apply (nodup_addr z (Pre ++ [b] ++ q :: Qt)); try done. rewrite !elem_of_app, list_elem_of_singleton. auto.
Qed.
Lemma tail_room (q q2 : node) Qt F0 st : q :: q2 :: Qt = F0 ++ [st] -> exists F1, F0 = q :: F1 /\ q2 :: Qt = F1 ++ [st].
Proof. destruct F0 as [|x F1]; [done|]. cbn. intros [= <- E]. by exists F1. Qed.

Lemma free_prefix Qa Rm Qt Pre st :
  Qa ++ Rm = Qt ++ Pre -> last Qt = Some st -> ~ is_free st -> Forall is_free Qa ->
  exists q Qt', Qt = Qa ++ q :: Qt' /\ Rm = (q :: Qt') ++ Pre /\ last (q :: Qt') = Some st.
Proof.
  intros E Hlast Hst HQa. rewrite Forall_forall in HQa.
  assert (Hin : st ∉ Qa) by (intros H; by apply Hst, HQa).
  apply app_eq_inv in E as [(k & -> & ->)|(k & -> & ->)].
  - exfalso. apply Hin. rewrite elem_of_app. left. by apply last_Some_elem_of.
  - destruct k as [|q k].
    + rewrite app_nil_r in Hlast. exfalso. by apply Hin, last_Some_elem_of.
    + exists q, k. split_and!; try done. by rewrite last_app_cons in Hlast.
Qed.

Lemma last_used_app L R : R <> [] -> last_used (L ++ R) <-> last_used R.
Proof.
  intros Hne. destruct R as [|x R _] using rev_ind; [done|]. unfold last_used.
  by rewrite app_assoc, !last_snoc.
Qed.

(** The blocks around a purged rover: what it absorbs in front of it is
    exactly the base block when that is a free block of its own. *)
Lemma purge_split Qa Rm P Qt Pre Bs (fa qa base : Z) st :
  Qt ++ Pre ++ Bs = Qa ++ Rm ++ P -> last Qt = Some st -> ~ is_free st -> Rm <> [] ->
  Forall is_free P ->
  (P = [] /\ fa = qa /\ last_used (Qt ++ Pre ++ Bs) \/ exists p : node, P = [p] /\ fa = p.1) ->
  (Bs = [] /\ base = qa /\ last_used Pre \/ exists b : node, Bs = [b] /\ is_free b /\ base = b.1) ->
  Qa ++ Rm = Qt ++ Pre /\ fa = base.
Proof.
  intros E Hlast Hst Hne HP HcP HcB.
  destruct HcB as [(-> & -> & Hu)|(b & -> & Hb & ->)]; rewrite ?app_nil_r in *.
  - assert (Hl : last_used (Qt ++ Pre)).
    { destruct Pre as [|x Pre]; [|by apply last_used_app].
      rewrite app_nil_r. intros r Hr. congruence. }
    destruct HcP as [(-> & -> & _)|(p & -> & ->)]; [by rewrite app_nil_r in E|].
    exfalso. rewrite E in Hl. rewrite app_assoc in Hl. apply last_used_app in Hl; [|done].
    apply (Hl p); [done|]. by rewrite Forall_singleton in HP.
  - rewrite app_assoc in *. destruct HcP as [(-> & -> & Hl)|(p & -> & ->)].
    + exfalso. apply last_used_app in Hl; [|done]. by apply (Hl b).
    + rewrite app_assoc in E. apply app_inj_tail in E as [E ->]. done.
Qed.

Lemma last_addr_same L L' w : Forall2 same L L' -> last L = Some w ->
  exists L0 w', L' = L0 ++ [w'] /\ w'.1 = w.1.
Proof.
  intros HF Hl. apply last_Some in Hl as (L0 & ->).
  apply Forall2_app_inv_l in HF as (L0' & l & _ & HF & ->).
  apply Forall2_cons_inv_l in HF as (w' & l' & (E & _) & HF & ->).
  apply Forall2_nil_inv_l in HF as ->. eauto.
Qed.

Lemma used_not_cap z L x : zone_ok z L -> x ∈ L -> PU_PURGELEVEL <= tag x.2 -> is_cap z x = false.
Proof.
  intros Hok Hx Ht. pose proof (zone_ok_block _ _ _ Hok Hx) as H. unfold block_ok in H.
  destruct (is_cap z x); [|done]. rewrite H in Ht. unfold PU_PURGELEVEL, PU_STATIC in Ht. lia.
Qed.

(** The base block and its predecessor in the list. *)
Lemma base_prev z Pre Bs q Qt st base :
  zone_ok z (Pre ++ Bs ++ q :: Qt) -> last Qt = Some st ->
  (Bs = [] /\ base = q.1 \/ exists b, Bs = [b] /\ base = b.1) ->
  exists w bb, last (Qt ++ Pre) = Some w /\ getb base z = Ret bb /\ prev bb = w.1.
Proof.
  intros Hok Hlast HB.
  destruct (last (Qt ++ Pre)) as [w|] eqn:Hw; [|by apply last_None, app_nil in Hw as [-> _]].
  apply last_Some in Hw as (W & HW). exists w.
  assert (E : exists x R, Bs ++ [q] = x :: R /\ base = x.1).
  { destruct HB as [(-> & ->)|(b & -> & ->)]; cbn; eauto. }
  destruct E as (x & R & E & ->).
  assert (Hok' : zone_ok z (x :: (R ++ W) ++ [w])).
  { apply zone_ok_rot in Hok. rewrite <- app_assoc, <- HW.
    replace (x :: R ++ Qt ++ Pre) with ((Bs ++ q :: Qt) ++ Pre); [done|].
    change (q :: Qt) with ([q] ++ Qt). by rewrite app_assoc, E, <- app_assoc. }
  exists x.2. split; [done|]. split.
  - apply (zone_ok_mem _ _ x Hok'). left.
  - by apply (cyc_last _ _ _ _ (ok_link _ _ Hok')).
Qed.

Lemma purge_room want q Qa Qb F0 st acc f Qb' L' :
  reclaimable q -> q :: Qa ++ Qb = F0 ++ [st] -> Qb <> [] -> Forall (fun x => is_free x /\ 0 <= size x.2) Qa -> Forall2 same Qb Qb' -> is_free f ->
  acc + size q.2 + total Qa = size f.2 -> f ∈ L' -> (forall r, head Qb' = Some r -> f.1 <> r.1) -> run_room want acc F0 ->
  (exists x, x ∈ L' /\ x.1 = f.1 /\ fits want x) \/ still_room want f.1 (match Qb' with r :: _ => r.1 | [] => 0 end) L' Qb'.
Proof.
  intros Hq EF Hne HQa HF Hf Hsz HfL Hr Hroom.
  destruct Qb as [|x Qb _] using rev_ind; [done|]. change (q :: Qa ++ Qb ++ [x]) with ((q :: Qa) ++ Qb ++ [x]) in EF. rewrite app_assoc in EF. apply app_inj_tail in EF as [<- <-].
  apply Forall2_app_inv_l in HF as (L1 & l & HF & HF1 & ->). apply Forall2_cons_inv_l in HF1 as (x' & l' & _ & HF1 & ->). apply Forall2_nil_inv_l in HF1 as ->.
  cbn in Hroom. rewrite decide_True in Hroom by done.
  assert (Hcase : want <= size f.2 \/ run_room want (size f.2) Qb).
  { rewrite <- Hsz. assert (0 <= total Qa) by (clear -HQa; unfold total; induction HQa as [|y Q [_ Hy] _ IH]; cbn; lia).
    destruct Hroom as [H'|H']; [left; lia|]. destruct (run_room_free _ _ _ _ HQa H') as [[_ H2]|H2]; [by left|by right]. }
  destruct Hcase as [Hw|Hw]; [left; exists f; by split_and!|right]. exists L1, x', (size f.2). split; [done|]. split; [right|by eapply run_room_same].
  split; [|exists f; by split_and!]. destruct L1 as [|y L1]; cbn; by apply Hr.
Qed.
(** Purging the rover leaves the scan on a free base block. *)
Lemma purge_step z Pre Bs q Qt st base :
  zone_inv z (Pre ++ Bs ++ q :: Qt) -> last Qt = Some st -> ~ is_free st ->
  PU_PURGELEVEL <= tag q.2 ->
  (Bs = [] /\ base = q.1 /\ last_used Pre \/ exists b, Bs = [b] /\ is_free b /\ base = b.1) ->
  exists z' base' rov' L' F',
    (let* b := getb base z in
     let base := prev b in
     let* z := Z_Free (q.1 + sizeof_memblock) z in
     let* b := getb base z in
     let base := next b in
     let* b := getb base z in
     Ret (base, next b, z)) = Ret (base', rov', z') /\
    scan_inv z' st.1 base' rov' L' F' /\ (length F' <= length Qt)%nat /\ framed z z' /\
    evolves (Pre ++ Bs ++ q :: Qt) L' /\
    forall want, still_room want base q.1 (Pre ++ Bs ++ q :: Qt) (q :: Qt) -> (exists x, x ∈ L' /\ x.1 = base' /\ fits want x) \/ still_room want base' rov' L' F'.
Proof.
  intros Hinv Hlast Hst Htag HB.
  destruct (base_prev z Pre Bs q Qt st base) as (w & bb & Hw & Gbase & Hprev); [apply Hinv|done|..].
  { destruct HB as [(-> & -> & _)|(b & -> & _ & ->)]; eauto. }
  assert (Hrot : zone_inv z (q :: Qt ++ Pre ++ Bs)).
  { rewrite app_assoc in Hinv. apply zone_inv_rot in Hinv. done. }
  assert (Hused : ~ is_free q) by (unfold is_free, PU_FREE, PU_PURGELEVEL in *; lia).
  assert (Hcap : is_cap z q = false) by (eapply used_not_cap; [apply Hrot|left|done]).
  destruct (Z_Free_spec z q _ Hrot Hcap Hused) as
    (z' & f & Qa & Rm & P & R' & Hrun & Hinv' & Hf & Esplit & HF & Hne & HQa & HP & HcP & _ & Hfr & _ & _ & HszQ).
  destruct (purge_split Qa Rm P Qt Pre Bs f.1 q.1 base st) as [E Hfb]; try done.
  destruct (free_prefix Qa Rm Qt Pre st E Hlast Hst HQa) as (q2 & Qt' & EQt & ERm & Hlast').
  assert (HwRm : last Rm = Some w).
  { rewrite <- E in Hw. rewrite last_app in Hw. destruct (last Rm) eqn:El; [done|].
    by apply last_None in El. }
  destruct (last_addr_same _ _ _ HF HwRm) as (R0 & w' & ER' & Hw').
  pose proof Hinv' as [Hok' _]. pose proof (cyc_last _ f w' R0 ltac:(rewrite <- ER'; apply Hok')) as [Hnw _].
  rewrite ERm in HF. apply Forall2_app_inv_l in HF as (Qx & Pre' & HFQ & HFP & HR').
  pose proof HFQ as HFQ'. apply Forall2_cons_inv_l in HFQ' as (q2' & Qt'' & Hq2 & HFt & EQx).
  subst Qx R'.
  pose proof (cyc_first _ f q2' (Qt'' ++ Pre') (ok_link _ _ Hok')) as [Hnf _].
  exists z', f.1, q2'.1, (Pre' ++ [f] ++ q2' :: Qt''), (q2' :: Qt'').
  split.
  { rewrite Gbase. cbn [obind]. rewrite Hrun. cbn [obind]. rewrite Hprev, <- Hw'.
    rewrite (zone_ok_mem _ _ w' Hok') by (rewrite ER', elem_of_cons, elem_of_app, elem_of_cons; auto). cbn [obind].
    rewrite Hnw, (zone_ok_mem _ _ f Hok' ltac:(left)). cbn [obind]. by rewrite Hnf. }
  split; [|split_and!; try done].
  - destruct (last (q2' :: Qt'')) as [st'|] eqn:Hst'; [|by apply last_None in Hst'].
    destruct (last_addr_same _ _ _ HFQ Hlast') as (L0 & s' & EL & Es).
    rewrite EL, last_snoc in Hst'. injection Hst' as ->.
    exists Pre', [f], q2', Qt'', st'. split_and!; try done.
    + by apply (zone_inv_rot _ (f :: q2' :: Qt'')).
    + by rewrite EL, last_snoc.
    + eapply (last_used_same _ _ HFQ); [|by rewrite EL, last_snoc]. intros r Hr. congruence.
    + right. eauto.
  - apply Forall2_length in HFt. rewrite EQt, length_app. cbn. lia.
  - eapply evolves_trans; [apply evolves_perm|].
    { rewrite (app_assoc Pre). apply Permutation_app_comm. }
    cbn. rewrite Esplit. eapply evolves_trans; [apply (evolves_free q Qa Rm P f ((q2' :: Qt'') ++ Pre'))|apply evolves_perm]; try done.
    + unfold unpurgable. lia.
    + rewrite ERm. by apply Forall2_app.
    + apply (Permutation_app_comm (f :: q2' :: Qt'') Pre').
  - intros want (F0 & st1 & acc & EF & Hacc & Hroom).
    assert (HPB : P = Bs) by (apply (app_inv_head (Qa ++ Rm)); by rewrite <- app_assoc, <- Esplit, E, <- app_assoc).
    assert (Eacc : acc = total P).
    { rewrite HPB. apply (base_bytes z Pre Bs q Qt base); [done| |done]. destruct HB as [(-> & -> & _)|(b & -> & _ & ->)]; eauto. }
    assert (HQs : Forall (fun x => is_free x /\ 0 <= size x.2) Qa).
    { apply Forall_forall. intros x Hx. assert (Hfx : is_free x) by (by apply (proj1 (Forall_forall _ _) HQa)). split; [done|].
      assert (HxL : x ∈ q :: Qt ++ Pre ++ Bs) by (rewrite Esplit, elem_of_cons, elem_of_app; auto).
      pose proof (free_not_cap _ _ x (proj1 Hrot) HxL Hfx) as Hcx. pose proof (zone_ok_block _ _ x (proj1 Hrot) HxL) as Hbx. unfold block_ok in Hbx. rewrite Hcx in Hbx.
      pose proof sizeof_memblock_pos. lia. }
    apply (purge_room want q Qa (q2 :: Qt') F0 st1 acc f (q2' :: Qt'') (Pre' ++ [f] ++ q2' :: Qt'')); try done.
    + by right.
    + by rewrite <- EQt.
    + rewrite HszQ. lia.
    + rewrite !elem_of_app, list_elem_of_singleton. auto.
    + intros r [= <-]. pose proof (ok_nodup _ _ Hok') as Hnd. cbn in Hnd. apply NoDup_cons in Hnd as [Hnd _]. by apply not_elem_of_cons in Hnd as [Hnd _].
Qed.

Lemma scan_step z start base rov L F :
  scan_inv z start base rov L F -> rov <> start ->
  exists z' base' rov' L' F',
    Z_Malloc_step base rov z = Ret (base', rov', z') /\ scan_inv z' start base' rov' L' F' /\
    (length F' < length F)%nat /\ framed z z' /\ evolves L L' /\
    forall want, still_room want base rov L F -> (exists x, x ∈ L' /\ x.1 = base' /\ fits want x) \/ still_room want base' rov' L' F'.
Proof.
  intros (Pre & Bs & q & Qt & st & -> & Hinv & -> & -> & Hlast & <- & Hst & HB) Hne.
  destruct Qt as [|q2 Qt]; [cbn in Hlast; congruence|].
  assert (Hlast' : last (q2 :: Qt) = Some st) by done.
  assert (Hqin : q ∈ Pre ++ Bs ++ q :: q2 :: Qt) by (rewrite !elem_of_app, elem_of_cons; auto).
  pose proof Hinv as [Hok Hnbf].
  assert (Hrot : zone_inv z (q :: q2 :: Qt ++ Pre ++ Bs)).
  { pose proof Hinv as H. rewrite app_assoc in H. by apply zone_inv_rot in H. }
  pose proof (cyc_first _ _ _ _ (ok_link _ _ (proj1 Hrot))) as [Hnext _].
  unfold Z_Malloc_step. rewrite (zone_ok_mem _ _ q Hok Hqin). cbn [obind].
  destruct (tag q.2 =? PU_FREE) eqn:Ef; cbn [negb]; breflect.
  - destruct HB as [(-> & -> & HuP)|(b & -> & Hb & ->)].
    + exists z, q.1, q2.1, (Pre ++ q :: q2 :: Qt), (q2 :: Qt).
      rewrite Hnext. split; [done|]. split; [|split_and!; [cbn; lia|done|by apply evolves_perm|]].
      * exists Pre, [q], q2, Qt, st. split_and!; try done. right. eauto.
      * intros want (F0 & s0 & acc & EF & Hacc & Hroom). destruct (tail_room _ _ _ _ _ EF) as (F1 & -> & EF1).
        assert (acc = 0) as -> by (by destruct Hacc as [[_ ->]|[Hn _]]). cbn in Hroom. rewrite decide_True in Hroom by (by left).
        destruct Hroom as [H'|H']; [left; exists q; rewrite elem_of_app, elem_of_cons; by split_and!; [auto| |]|right].
        exists F1, s0, (size q.2). split; [done|]. split; [right; split; [|exists q; rewrite elem_of_app, elem_of_cons; auto]|done].
        pose proof (ok_nodup _ _ (proj1 Hrot)) as Hnd. cbn in Hnd. apply NoDup_cons in Hnd as [Hnd _]. by apply not_elem_of_cons in Hnd as [Hnd _].
    + exfalso. pose proof (zone_inv_rot z Pre ([b] ++ q :: q2 :: Qt) Hinv) as [_ H].
      cbn in H. destruct H as [H _]. by apply H.
  - destruct (tag q.2 <? PU_PURGELEVEL) eqn:Et; breflect.
    + exists z, q2.1, q2.1, (Pre ++ Bs ++ q :: q2 :: Qt), (q2 :: Qt).
      rewrite Hnext. split; [done|]. split; [|split_and!; [cbn; lia|done|by apply evolves_perm|]].
      * exists (Pre ++ Bs ++ [q]), [], q2, Qt, st. split_and!; try done.
        { cbn. by rewrite <- !app_assoc. }
        left. split_and!; try done. rewrite app_assoc. by apply last_used_app; [|intros r [= <-]].
      * intros want (F0 & s0 & acc & EF & _ & Hroom). destruct (tail_room _ _ _ _ _ EF) as (F1 & -> & EF1). right. exists F1, s0, 0. split; [done|].
        split; [by left|]. cbn in Hroom. rewrite decide_False in Hroom; [done|]. unfold reclaimable, is_free. lia.
    + destruct (purge_step z Pre Bs q (q2 :: Qt) st base Hinv Hlast' Hst Et HB) as
        (z' & base' & rov' & L' & F' & Hrun & Hs & Hn & Hf & He & Hr).
      exists z', base', rov', L', F'. split_and!; try done. cbn in *. lia.
Qed.

Lemma scan_base z start base rov L F :
  scan_inv z start base rov L F ->
  exists b R, b.1 = base /\ getb base z = Ret b.2 /\ zone_inv z (b :: R) /\ evolves L (b :: R) /\
    forall x, x ∈ L -> x.1 = base -> x = b.
Proof.
  intros (Pre & Bs & q & Qt & st & -> & Hinv & _ & _ & _ & _ & _ & HB).
  assert (E : exists x R, Bs ++ q :: Qt = x :: R /\ base = x.1).
  { destruct HB as [(-> & -> & _)|(b & -> & _ & ->)]; cbn; eauto. }
  destruct E as (x & R & E & ->). rewrite E in *. exists x, (R ++ Pre).
  assert (H : zone_inv z (x :: R ++ Pre)) by (by apply (zone_inv_rot z Pre (x :: R)) in Hinv).
  split_and!; try done.
  - apply (zone_ok_mem _ _ x (proj1 H)). left.
  - apply evolves_perm. apply (Permutation_app_comm Pre (x :: R)).
  - intros y Hy Ey. apply (nodup_addr z (Pre ++ x :: R)); try done; [apply Hinv|].
    rewrite elem_of_app, elem_of_cons. auto.
Qed.

(** When the rover has come to [start] nothing is left that fits. *)
Lemma scan_exhausted z base rov L F want : scan_inv z rov base rov L F -> ~ still_room want base rov L F.
Proof.
  intros (Pre & Bs & q & Qt & st & -> & Hinv & -> & -> & Hlast & Est & Hst & _) (F0 & s0 & acc & EF & _ & Hroom).
  assert (Hq : q = st).
  { apply (nodup_addr z (Pre ++ Bs ++ q :: Qt)); [apply Hinv|..|done].
    - rewrite !elem_of_app, elem_of_cons. auto.
    - rewrite !elem_of_app. right. right. by apply last_Some_elem_of. }
  destruct Qt as [|q2 Qt].
  - destruct F0 as [|x F0]; [done|]. destruct F0; discriminate EF.
  - pose proof (ok_nodup _ _ (proj1 Hinv)) as Hnd. rewrite !fmap_app, fmap_cons in Hnd.
    apply NoDup_app in Hnd as (_ & _ & Hnd). apply NoDup_app in Hnd as (_ & _ & Hnd).
    apply NoDup_cons in Hnd as [Hnd _]. apply Hnd. rewrite Hq.
    by apply list_elem_of_fmap_2, last_Some_elem_of.
Qed.

(** The scan finds a free block that is large enough, or runs out of blocks;
    the latter not while there is room among those it has not passed. *)
Lemma scan_ok fuel : forall z want start base rov L F,
  scan_inv z start base rov L F -> (length F <= fuel)%nat ->
  (exists msg, Z_Malloc_scan fuel want start base rov z = Fatal msg /\ ~ still_room want base rov L F) \/
  exists z' b R, Z_Malloc_scan fuel want start base rov z = Ret (b.1, z') /\
    zone_inv z' (b :: R) /\ is_free b /\ want <= size b.2 /\ framed z z' /\ evolves L (b :: R).
Proof.
  induction fuel as [|fuel IH]; intros z want start base rov L F Hs Hn.
  { destruct Hs as (Pre & Bs & q & Qt & st & _ & _ & _ & -> & _). cbn in Hn. lia. }
  cbn [Z_Malloc_scan]. destruct (rov =? start) eqn:E; breflect.
  { subst start. left. eauto using scan_exhausted. }
  destruct (scan_step _ _ _ _ _ _ Hs E) as (z' & base' & rov' & L' & F' & -> & Hs' & Hn' & Hf & He & Hroom).
  cbn [obind]. destruct (scan_base _ _ _ _ _ _ Hs') as (b & R & Hb & -> & Hinv' & He' & Huniq). cbn [obind].
  destruct (negb (tag b.2 =? PU_FREE) || (size b.2 <? want)) eqn:Et.
  - destruct (IH z' want start base' rov' L' F' Hs') as [(msg & Hm & Hno)|(z2 & b2 & R2 & Hr & Hi & Hfr & Hw & Hf2 & He2)].
    + lia.
    + left. exists msg. split; [done|]. intros Hr. destruct (Hroom want Hr) as [(x & Hx & Ex & Hfree & Hsz)|]; [|done].
      rewrite (Huniq x Hx Ex) in *. apply orb_true_iff in Et as [Et|Et]; breflect; [done|lia].
    + right. exists z2, b2, R2. split_and!; try done; eauto using framed_trans, evolves_trans.
  - breflect. right. exists z', b, R. rewrite Hb. split_and!; try done. eauto using evolves_trans.
Qed.

(** ** Carving the found block *)
Lemma align_size_eq (k len : Z) : MEM_ALIGN = 2 ^ k -> 0 <= k -> 0 <= len -> len + MEM_ALIGN < 2 ^ 31 ->
  align_size len = (len + MEM_ALIGN - 1) / MEM_ALIGN * MEM_ALIGN.
Proof.
  intros E Hk Hn Hb. unfold align_size, wrapu.
  assert (Hal : 1 <= MEM_ALIGN) by (rewrite E; pose proof (Z.pow_pos_nonneg 2 k); lia).
  assert (H0 : 0 <= (len + MEM_ALIGN - 1) / MEM_ALIGN * MEM_ALIGN <= len + MEM_ALIGN - 1).
  { assert (Ha : 0 <= len + MEM_ALIGN - 1) by lia. assert (Hm : 0 < MEM_ALIGN) by lia.
    pose proof (Z.div_pos _ _ Ha Hm). pose proof (Z.mul_div_le (len + MEM_ALIGN - 1) _ Hm). lia. }
  rewrite land_mod by (unfold word_bits; destruct the_abi; lia).
  rewrite <- Z.ldiff_land. replace (MEM_ALIGN - 1) with (Z.ones k) by (rewrite Z.ones_equiv, E; lia).
  rewrite Z.ldiff_ones_r, Z.shiftl_mul_pow2, Z.shiftr_div_pow2, <- E by done.
  rewrite Z.mod_small; [apply wraps_id; [lia|unfold fits_s; cbn; lia]|].
  unfold word_bits. destruct the_abi; cbn; lia.
Qed.

Lemma align_size_spec (len : Z) : 0 <= len -> len + MEM_ALIGN < 2 ^ 31 ->
  len <= align_size len < len + MEM_ALIGN /\ (MEM_ALIGN | align_size len).
Proof.
  intros Hn Hb. assert (H : exists k, MEM_ALIGN = 2 ^ k /\ 0 <= k).
  { unfold MEM_ALIGN, sizeof_ptr. destruct the_abi; [exists 2|exists 3]; done. }
  destruct H as (k & E & Hk). rewrite (align_size_eq k len) by done.
  assert (Hm : 0 < MEM_ALIGN) by (unfold MEM_ALIGN, sizeof_ptr; destruct the_abi; lia).
  split; [|by apply Z.divide_factor_r].
  pose proof (Z_div_mod_eq_full (len + MEM_ALIGN - 1) MEM_ALIGN).
  pose proof (Z.mod_pos_bound (len + MEM_ALIGN - 1) _ Hm). lia.
Qed.

(** The two parts of a split block and its successor. *)
Definition front b (want : Z) : node :=
  (b.1, mk_block want (user b.2) (tag b.2) (id b.2) (b.1 + want) (prev b.2)).
Definition rest b n (want rid : Z) : node :=
  (b.1 + want, mk_block (size b.2 - want) 0 PU_FREE rid n.1 b.1).

Lemma split_fresh z b R want :
  zone_ok z (b :: R) -> is_cap z b = false -> 0 < want < size b.2 -> b.1 + want ∉ (fst <$> (b :: R)).
Proof.
  intros Hok Hb Hw Hin. apply list_elem_of_fmap in Hin as (x & E & Hx).
  pose proof (zone_ok_block _ _ b Hok ltac:(left)) as Hbb. unfold block_ok in Hbb. rewrite Hb in Hbb.
  destruct (is_cap z x) eqn:Hc.
  - unfold is_cap in Hc. breflect. pose proof (cap_below z). pose proof sizeof_memblock_pos. lia.
  - pose proof (zone_ok_block _ _ x Hok Hx) as Hbx. unfold block_ok in Hbx. rewrite Hc in Hbx.
    pose proof sizeof_memblock_pos.
    destruct (ok_disj _ _ Hok b x ltac:(left) Hx Hb Hc ltac:(lia)); lia.
Qed.

Lemma split_disjoint z b n R want rid x y :
  zone_ok z (b :: n :: R) -> is_cap z b = false -> 0 < want < size b.2 ->
  x ∈ front b want :: rest b n want rid :: relinked (rest b n want rid) n :: R ->
  y ∈ front b want :: rest b n want rid :: relinked (rest b n want rid) n :: R ->
  disjoint_blocks z x y.
Proof.
  intros Hok Hb Hw.
  assert (G : forall w, w ∈ relinked (rest b n want rid) n :: R ->
    exists v, v ∈ n :: R /\ v.1 = w.1 /\ size v.2 = size w.2).
  { intros w Hw'. apply elem_of_cons in Hw' as [->|Hw']; [exists n; split; [left|done]|].
    exists w. split; [by right|done]. }
  assert (K : forall w, w ∈ relinked (rest b n want rid) n :: R -> is_cap z w = false ->
    b.1 + size b.2 <= w.1 \/ w.1 + size w.2 <= b.1).
  { intros w Hw' Hc. destruct (G w Hw') as (v & Hv & E1 & E2). rewrite <- E1, <- E2.
    assert (Hcv : is_cap z v = false) by (unfold is_cap in *; by rewrite E1).
    apply (ok_disj _ _ Hok b v ltac:(left) ltac:(by right) Hb Hcv).
    intros E. pose proof (ok_nodup _ _ Hok) as Hnd. cbn in Hnd. rewrite NoDup_cons in Hnd.
    apply (proj1 Hnd). rewrite E. by apply (list_elem_of_fmap_2 fst (n :: R)). }
  intros Hx Hy Hcx Hcy Hne. rewrite elem_of_cons in Hx. rewrite elem_of_cons in Hy.
  destruct Hx as [->|Hx]; [|rewrite elem_of_cons in Hx; destruct Hx as [->|Hx]];
  (destruct Hy as [->|Hy]; [|rewrite elem_of_cons in Hy; destruct Hy as [->|Hy]]);
  cbn [front rest fst snd size] in *; try lia; try (destruct (K _ Hx Hcx); lia); try (destruct (K _ Hy Hcy); lia).
  destruct (G x Hx) as (v & Hv & E1 & E2), (G y Hy) as (v' & Hv' & E1' & E2').
  pose proof (ok_disj _ _ Hok v v' ltac:(by right) ltac:(by right)) as D.
  unfold disjoint_blocks, is_cap in *. rewrite <- E1, <- E2, <- E1', <- E2' in *. by apply D.
Qed.

End facts.
