(* ===== verification/ZoneMalloc.v ===== *)
(** * The zone allocator: allocation, whole-list walks and the theorems *)
From S2P Require Import Prelude Zone ZoneFacts.
#[local] Open Scope doom_scope.

Section malloc.
Context {A : Arch}.
Implicit Types (z : zone) (L R : list node) (x y b n : node).

(** ** Splitting a block *)
Lemma split_ok z z' b n R (want rid : Z) :
  zone_ok z (b :: n :: R) -> is_cap z b = false -> is_free b ->
  sizeof_memblock <= want -> sizeof_memblock <= size b.2 - want -> (MEM_ALIGN | want) ->
  z' = mk_zone (zbase z) (zsize z) (rover z)
         (<[b.1 := (front b want).2]> (<[n.1 := (relinked (rest b n want rid) n).2]>
           (<[b.1 + want := (rest b n want rid).2]> (mem z)))) (cells z) ->
  zone_ok z' (front b want :: rest b n want rid :: relinked (rest b n want rid) n :: R).
Proof.
  intros Hok Hb Hfree Hw1 Hw2 Hal ->. pose proof sizeof_memblock_pos as Hhdr.
  pose proof (split_fresh z b (n :: R) want Hok Hb ltac:(lia)) as Hfresh.
  pose proof (ok_nodup _ _ Hok) as Hnd. pose proof (ok_mem _ _ Hok) as Hm.
  cbn in Hnd, Hfresh. rewrite !NoDup_cons, not_elem_of_cons in Hnd.
  rewrite !not_elem_of_cons in Hfresh. rewrite !Forall_cons in Hm.
  destruct Hnd as ((Hbn & HbR) & HnR & HndR), Hfresh as (Hfb & Hfn & HfR), Hm as (_ & _ & Hm).
  destruct (ok_link _ _ Hok) as [[Lbn Lnb] Lrest]. destruct (ok_touch _ _ Hok) as [T1 T2].
  set (z' := mk_zone _ _ _ _ _). split.
  - repeat constructor; cbn.
    + by rewrite lookup_insert_eq.
    + by rewrite !lookup_insert_ne, lookup_insert_eq by congruence.
    + by rewrite lookup_insert_ne, lookup_insert_eq by congruence.
    + by repeat (apply mem_other; [|done]).
  - cbn. rewrite !NoDup_cons, !not_elem_of_cons. by split_and!.
  - pose proof (ok_cap _ _ Hok) as Hc. change (zcap z') with (zcap z). cbn in *.
    rewrite !elem_of_cons in *. tauto.
  - cbn. split_and!; try done. revert Lrest. apply chain_ends; unfold linked; cbn; tauto.
  - change (cyc (touching z) (front b want :: rest b n want rid :: relinked (rest b n want rid) n :: R)).
    assert (Hcr : is_cap z (rest b n want rid) = false).
    { pose proof (zone_ok_block _ _ b Hok ltac:(left)) as H. unfold block_ok in H. rewrite Hb in H.
      unfold is_cap. cbn. apply Z.eqb_neq. pose proof (cap_below z). lia. }
    split; [|split].
    + unfold touching, end_of, start_of. change (is_cap z (front b want)) with (is_cap z b).
      by rewrite Hb, Hcr.
    + unfold touching, end_of, start_of in *. rewrite Hcr. rewrite Hb in T1.
      change (is_cap z (relinked (rest b n want rid) n)) with (is_cap z n). cbn.
      rewrite <- T1. lia.
    + revert T2. by apply chain_ends.
  - pose proof (ok_blocks _ _ Hok) as Hbk. rewrite !Forall_cons in *.
    destruct Hbk as (B1 & B2 & B3). split_and!; [| |exact B2|exact B3].
    + unfold block_ok in *. change (is_cap z' (front b want)) with (is_cap z b). rewrite Hb in *.
      change (zfirst z') with (zfirst z). change (zend z') with (zend z). cbn.
      destruct B1 as (? & ? & ? & ? & ? & ?). split_and!; try done; lia.
    + unfold block_ok in *. rewrite Hb in B1. destruct B1 as (? & ? & ? & ? & ? & ?).
      destruct (is_cap z' (rest b n want rid)) eqn:E.
      * unfold is_cap in E. cbn in E. breflect. change (zcap z') with (zcap z) in E.
        pose proof (cap_below z). lia.
      * change (zfirst z') with (zfirst z). change (zend z') with (zend z). cbn.
        split_and!; [lia|lia|lia|by apply Z.divide_add_r|by intros []|].
        unfold PU_PURGELEVEL, PU_FREE. lia.
  - intros x y. exact (split_disjoint z b n R want rid x y Hok Hb ltac:(lia)).
  - exact (ok_size _ _ Hok).
  - exact (ok_align _ _ Hok).
  - pose proof (ok_rover _ _ Hok) as Hr. cbn in *. rewrite !elem_of_cons in *. tauto.
Qed.

(** ** Handing out a free block *)
Definition allocated b (tg usr : Z) : node := with_payload b usr tg ZONEID.

Lemma zone_ok_set z L (r : Z) (cs : gmap Z Z) :
  zone_ok z L -> r ∈ (fst <$> L) -> zone_ok (mk_zone (zbase z) (zsize z) r (mem z) cs) L.
Proof. intros [] Hr. by split. Qed.

Lemma allocate_ok z b n R (tg usr : Z) (cs : gmap Z Z) :
  zone_ok z (b :: n :: R) -> is_cap z b = false -> tg <> PU_FREE ->
  (PU_PURGELEVEL <= tg -> usr <> 0) ->
  zone_ok (mk_zone (zbase z) (zsize z) n.1 (<[b.1 := (allocated b tg usr).2]> (mem z)) cs)
          (allocated b tg usr :: n :: R).
Proof.
  intros Hok Hb Ht Hu. pose proof (payload_ok z b (n :: R) usr tg ZONEID Hok Hb ltac:(done) Hu) as H.
  apply (zone_ok_set _ _ n.1 cs) in H; [exact H|]. cbn. rewrite !elem_of_cons. auto.
Qed.

Lemma carve_ok z b n R want rawid :
  zone_ok z (b :: n :: R) -> is_free b -> ~ is_free n ->
  sizeof_memblock <= want <= size b.2 -> (MEM_ALIGN | want) ->
  exists z' b' n' R', Z_Malloc_carve rawid want b.1 z = Ret z' /\ zone_ok z' (b' :: n' :: R') /\
    b'.1 = b.1 /\ is_free b' /\ want <= size b'.2 /\ framed z z' /\ cells z' = cells z /\
    ((exists r, n' :: R' = r :: relinked r n :: R /\ is_free r) \/ n' :: R' = n :: R).
Proof.
  intros Hok Hb Hn Hw Hal. pose proof (free_not_cap _ _ b Hok ltac:(left) Hb) as Hcb.
  pose proof (zone_ok_block _ _ b Hok ltac:(left)) as Hbb. unfold block_ok in Hbb. rewrite Hcb in Hbb.
  destruct Hbb as (H1 & H2 & _). pose proof (ok_size _ _ Hok) as Hsz. pose proof sizeof_memblock_pos.
  assert (Hfit : fits_s 32 (size b.2 - want)).
  { unfold zfirst, zend, fits_s, INT_MAX, sizeof_memzone in *. cbn. destruct the_abi; lia. }
  unfold Z_Malloc_carve. rewrite (zone_ok_mem _ _ b Hok ltac:(left)). cbn [obind].
  rewrite wraps_id by (done || lia). destruct (size b.2 - want >? MINFRAGMENT) eqn:E; breflect.
  - unfold MINFRAGMENT in E. destruct (ok_link _ _ Hok) as [[Lbn _] _].
    pose proof (split_fresh z b (n :: R) want Hok Hcb ltac:(lia)) as Hfresh.
    cbn in Hfresh. rewrite !not_elem_of_cons in Hfresh. destruct Hfresh as (Hfb & Hfn & _).
    pose proof (ok_nodup _ _ Hok) as Hnd. cbn in Hnd. rewrite !NoDup_cons, not_elem_of_cons in Hnd.
    destruct Hnd as ((Hbn & _) & _).
    eexists _, (front b want), (rest b n want (rawid (b.1 + want))),
      (relinked (rest b n want (rawid (b.1 + want))) n :: R).
    split; [|split; [apply (split_ok z _ b n R want _ Hok Hcb Hb); [lia|lia|done|reflexivity]|]].
    + unfold updb. rewrite Lbn, getb_set_ne by congruence.
      rewrite (zone_ok_mem _ _ n Hok ltac:(right; left)). cbn [obind].
      rewrite !getb_set_ne by congruence. rewrite (zone_ok_mem _ _ b Hok ltac:(left)). cbn [obind].
      rewrite getb_set_eq. cbn [obind]. unfold setb, update. cbn. by rewrite insert_insert_eq.
    + split_and!; try done. left. eexists. split; [reflexivity|done].
  - exists z, b, n, R. split_and!; try done; first [lia | by right].
Qed.

Lemma assign_ok z b n R (tg usr : Z) :
  zone_ok z (b :: n :: R) -> is_cap z b = false -> tg <> PU_FREE ->
  (exists msg, Z_Malloc_assign tg usr b.1 z = Fatal msg /\ usr = 0 /\ PU_PURGELEVEL <= tg) \/
  exists z', Z_Malloc_assign tg usr b.1 z = Ret (b.1 + sizeof_memblock, z') /\
    zone_ok z' (allocated b tg usr :: n :: R) /\ framed z z' /\ (PU_PURGELEVEL <= tg -> usr <> 0) /\
    cells z' = (if usr =? 0 then cells z else <[usr := b.1 + sizeof_memblock]> (cells z)).
Proof.
  intros Hok Hb Ht. unfold Z_Malloc_assign.
  destruct ((usr =? 0) && (tg >=? PU_PURGELEVEL)) eqn:E; [left|right].
  { apply andb_true_iff in E as [E1 E2]. breflect. eexists. split_and!; [done|done|lia]. }
  assert (Hu : PU_PURGELEVEL <= tg -> usr <> 0).
  { intros. apply andb_false_iff in E as [E|E]; breflect; lia. }
  destruct (ok_link _ _ Hok) as [[Lbn _] _].
  set (cs := if usr =? 0 then cells z else <[usr := b.1 + sizeof_memblock]> (cells z)).
  eexists. split; [|split; [apply (allocate_ok z b n R tg usr cs Hok Hb Ht Hu)|done]].
  unfold updb. rewrite (zone_ok_mem _ _ b Hok ltac:(left)). cbn [obind].
  set (z1 := setb b.1 _ z). set (z2 := if truth usr then _ else z1).
  assert (E2 : z2 = mk_zone (zbase z) (zsize z) (rover z) (mem z1) cs).
  { unfold z2, truth, cs. by destruct (usr =? 0). }
  rewrite E2. unfold getb at 1. cbn [mem]. unfold z1 at 1, setb, update. cbn [mem].
  rewrite lookup_insert_eq. cbn [of_option obind].
  unfold getb, z1, setb, update. cbn [mem]. rewrite lookup_insert_eq. cbn [of_option obind].
  cbn. by rewrite insert_insert_eq, Lbn.
Qed.

(** A zone list read from any of its nodes on: it ends in a predecessor. *)
Lemma zone_at z L x : zone_inv z L -> x ∈ L ->
  exists R0 p, zone_inv z (x :: R0 ++ [p]) /\ L ≡ₚ x :: R0 ++ [p].
Proof.
  intros Hinv Hx. apply list_elem_of_split in Hx as (l1 & l2 & ->).
  pose proof (zone_inv_rot z l1 (x :: l2) Hinv) as H. cbn in H.
  assert (HP : l1 ++ x :: l2 ≡ₚ x :: l2 ++ l1) by apply (Permutation_app_comm l1 (x :: l2)).
  remember (l2 ++ l1) as R eqn:E. destruct R as [|p R0 _] using rev_ind; [exfalso|eauto].
  destruct (zone_ok_cap_in _ _ (proj1 H)) as (c & Hc & Hcc). apply list_elem_of_singleton in Hc as ->.
  destruct (ok_touch _ _ (proj1 H)) as [T _]. unfold touching, end_of, start_of, zfirst, zend in T.
  rewrite Hcc in T. pose proof (ok_size _ _ (proj1 H)). lia.
Qed.

Lemma scan_start z L r R0 st :
  zone_inv z L -> L = r :: R0 ++ [st] -> ~ is_free st ->
  exists bb, getb r.1 z = Ret bb /\ scan_inv z (prev bb) r.1 r.1 L L.
Proof.
  intros Hinv E Hst. exists r.2. split.
  - apply (zone_ok_mem _ _ r (proj1 Hinv)). rewrite E. left.
  - pose proof (ok_link _ _ (proj1 Hinv)) as Hl. rewrite E in Hl. pose proof (cyc_last _ _ _ _ Hl) as [_ ->].
    exists [], [], r, (R0 ++ [st]), st. subst L. split_and!; try done.
    + change (r :: R0 ++ [st]) with ((r :: R0) ++ [st]). apply last_snoc.
    + left. by split_and!.
Qed.

(** The blocks in the order in which the scan comes to them: from the rover, or the
    free block before it, around the circle; it stops before [last]. *)
Definition scan_order z L (W : list node) (last : node) : Prop :=
  zone_inv z (W ++ [last]) /\ L ≡ₚ W ++ [last] /\ ~ is_free last /\
  exists b, head (W ++ [last]) = Some b /\ (b.1 = rover z \/ is_free b /\ next b.2 = rover z).
Lemma reclaimable_size z L : zone_inv z L -> Forall (fun x => reclaimable x -> 0 <= size x.2) L.
Proof.
  intros [Hok _]. apply Forall_forall. intros x Hx Hr. pose proof (zone_ok_block _ _ x Hok Hx) as Hb. unfold block_ok in Hb. pose proof sizeof_memblock_pos.
  destruct (is_cap z x); [|lia]. unfold reclaimable, is_free, PU_FREE, PU_PURGELEVEL, PU_STATIC in *. lia.
Qed.
Lemma start_room z W last want base L' : L' = W ++ [last] -> zone_inv z L' -> row_in want W -> still_room want base base L' L'.
Proof.
  intros -> Hi Hr. exists W, last, 0. split; [done|]. split; [by left|]. apply row_run_room; [|done|done]. pose proof (reclaimable_size _ _ Hi) as H. by apply Forall_app in H as [H _].
Qed.
Lemma malloc_start z L :
  zone_inv z L -> exists r p base bb L', getb (rover z) z = Ret r /\ getb (prev r) z = Ret p /\
    base = (if tag p =? PU_FREE then prev r else rover z) /\ getb base z = Ret bb /\
    scan_inv z (prev bb) base base L' L' /\ exists W last, L' = W ++ [last] /\ scan_order z L W last.
Proof.
  intros Hinv. pose proof (ok_rover _ _ (proj1 Hinv)) as Hr.
  apply list_elem_of_fmap in Hr as (r & Er & Hr). rewrite Er.
  destruct (zone_at z L r Hinv Hr) as (R0 & p & Hi & Hperm).
  pose proof Hi as [Hok Hnbf]. pose proof (cyc_last _ _ _ _ (ok_link _ _ Hok)) as [_ Hprev].
  assert (Hp : p ∈ r :: R0 ++ [p]) by (rewrite elem_of_cons, elem_of_app, elem_of_cons; auto).
  rewrite (zone_ok_mem _ _ r Hok ltac:(left)). exists r.2, p.2. rewrite Hprev.
  rewrite (zone_ok_mem _ _ p Hok Hp).
  destruct (tag p.2 =? PU_FREE) eqn:E; breflect.
  + pose proof (zone_inv_rot z (r :: R0) [p] Hi) as Hi'. cbn in Hi'.
    remember (r :: R0) as R1' eqn:E1. destruct R1' as [|st R1 _] using rev_ind; [done|].
    destruct (scan_start z (p :: R1 ++ [st]) p R1 st Hi' eq_refl) as (bb & Hbb & Hs).
    { intros Hf. destruct Hi' as [_ Hn]. apply cyc_last in Hn. by apply Hn. }
    exists p.1, bb, (p :: R1 ++ [st]). split_and!; try done.
    exists (p :: R1), st. split; [done|]. split; [done|]. split; [|split].
    * rewrite Hperm. change (r :: R0 ++ [p]) with ((r :: R0) ++ [p]). rewrite <- E1. apply (Permutation_app_comm _ [p]).
    * intros Hf. destruct Hi' as [_ Hn]. apply cyc_last in Hn. by apply Hn.
    * exists p. split; [done|]. right. split; [done|]. pose proof (cyc_last _ _ _ _ (ok_link _ _ Hok)) as [Hnp _]. by rewrite Er.
  + destruct (scan_start z _ r R0 p Hi eq_refl E) as (bb & Hbb & Hs).
    exists r.1, bb, (r :: R0 ++ [p]). split_and!; try done. exists (r :: R0), p. split; [done|]. split; [done|]. split; [done|]. split; [done|]. exists r. split; [done|by left].
Qed.

(** The part of [Z_Malloc] behind the scan. *)
Lemma malloc_finish z b R (want tg usr : Z) rawid :
  zone_inv z (b :: R) -> is_free b -> sizeof_memblock <= want <= size b.2 -> (MEM_ALIGN | want) ->
  tg <> PU_FREE ->
  let run := let* z := Z_Malloc_carve rawid want b.1 z in Z_Malloc_assign tg usr b.1 z in
  (exists msg, run = Fatal msg /\ usr = 0 /\ PU_PURGELEVEL <= tg) \/
  exists z' b' R', run = Ret (b'.1 + sizeof_memblock, z') /\ zone_inv z' (b' :: R') /\
    is_cap z' b' = false /\ tag b'.2 = tg /\ user b'.2 = usr /\ want <= size b'.2 /\ framed z z' /\
    cells z' = (if usr =? 0 then cells z else <[usr := b'.1 + sizeof_memblock]> (cells z)) /\
    retains R R'.
Proof.
  intros [Hok Hnbf] Hb Hw Hal Htg run.
  destruct R as [|n R].
  { destruct (zone_ok_cap_in _ _ Hok) as (c & Hc & Hcc). apply list_elem_of_singleton in Hc as ->.
    pose proof (free_not_cap _ _ b Hok ltac:(left) Hb). congruence. }
  assert (Hn : ~ is_free n) by (intros Hn; by apply (cyc_first _ _ _ _ Hnbf)).
  destruct (carve_ok z b n R want rawid Hok Hb Hn Hw Hal) as
    (z1 & b1 & n1 & R1 & Hrun1 & Hok1 & Eb1 & Hb1 & Hw1 & Hf1 & Hc1 & Hshape).
  pose proof (free_not_cap _ _ b1 Hok1 ltac:(left) Hb1) as Hcap1.
  unfold run. rewrite Hrun1. cbn [obind]. rewrite <- Eb1.
  destruct (assign_ok z1 b1 n1 R1 tg usr Hok1 Hcap1 Htg) as [(msg & Hm & Hno)|(z2 & Hrun2 & Hok2 & Hf2 & Hu & Hc2)].
  { left. eauto. }
  right. exists z2, (allocated b1 tg usr), (n1 :: R1).
  assert (Hused : ~ is_free (allocated b1 tg usr)) by exact Htg.
  split; [exact Hrun2|]. split; [split; [exact Hok2|]|split_and!; try done].
  - destruct Hshape as [(r & E & Hr)|E]; injection E as -> ->.
    + destruct Hnbf as [_ Hch]. split; [by intros [H1 _]|]. split; [by intros [_ H1]|].
      revert Hch. apply chain_ends; unfold not_both_free; tauto.
    + revert Hnbf. apply cyc_replace; unfold not_both_free; tauto.
  - by rewrite (framed_cap z1).
  - eauto using framed_trans.
  - by rewrite Hc2, Hc1.
  - destruct Hshape as [(r & -> & Hr)| -> ]; [|by apply retains_perm].
    split.
    + intros x Hx _. apply elem_of_cons in Hx as [->|Hx].
      * exists (relinked r n). split; [right; left|done].
      * exists x. split; [by do 2 right|apply same_refl].
    + intros y Hy Hyu. apply elem_of_cons in Hy as [->|Hy]; [done|]. apply elem_of_cons in Hy as [->|Hy].
      * exists n. split; [left|done].
      * exists y. split; [by right|apply same_refl].
Qed.

(** What an allocation promises: the region it returns lies in the zone, is
    large enough, aligned and marked for its owner, and among the other
    blocks no unpurgable one is lost or changed and no used one appears. *)
Definition alloc_spec z L (len tg usr ptr : Z) z' : Prop :=
  exists b R, zone_inv z' (b :: R) /\ ptr = b.1 + sizeof_memblock /\
    tag b.2 = tg /\ user b.2 = usr /\ sizeof_memblock + len <= size b.2 /\
    (MEM_ALIGN | ptr) /\ zfirst z <= b.1 /\ ptr + len <= zend z /\
    (usr <> 0 -> cells z' !! usr = Some ptr) /\
    (forall x, x ∈ L -> unpurgable x -> exists y, y ∈ R /\ same x y) /\
    (forall y, y ∈ R -> ~ is_free y -> exists x, x ∈ L /\ same x y).

Lemma Z_Malloc_spec fuel rawid (len tg usr : Z) z L :
  zone_inv z L -> (length L <= fuel)%nat -> 0 <= len <= INT_MAX - 64 -> tg <> PU_FREE ->
  exists W last, scan_order z L W last /\
  ((exists msg, Z_Malloc fuel rawid len tg usr z = Fatal msg /\
     (usr = 0 /\ PU_PURGELEVEL <= tg \/ ~ row_in (align_size len + sizeof_memblock) W)) \/
  exists ptr z', Z_Malloc fuel rawid len tg usr z = Ret (ptr, z') /\ framed z z' /\
    alloc_spec z L len tg usr ptr z').
Proof.
  intros Hinv Hfuel Hlen Htg. pose proof sizeof_memblock_pos as Hhdr.
  assert (Hma : 4 <= MEM_ALIGN <= 8) by (unfold MEM_ALIGN, sizeof_ptr; destruct the_abi; lia).
  destruct (align_size_spec len) as (Hal & Hdiv); [lia|unfold INT_MAX in Hlen; cbn; lia|].
  assert (Hwant : i32 (align_size len + sizeof_memblock) = align_size len + sizeof_memblock).
  { apply wraps_id; [lia|]. unfold fits_s, INT_MAX in *. cbn. lia. }
  destruct (malloc_start z L Hinv) as (r & p & base & bb & L' & Gr & Gp & Ebase & Gbb & Hs & W & lst & EL' & Hord).
  exists W, lst. split; [done|]. pose proof Hord as (Hi' & Hperm & _ & _). rewrite <- EL' in Hperm, Hi'.
  unfold Z_Malloc. rewrite Hwant, Gr. cbn [obind]. rewrite Gp. cbn [obind]. rewrite <- Ebase, Gbb. cbn [obind].
  destruct (scan_ok fuel z (align_size len + sizeof_memblock) _ _ _ _ _ Hs) as
    [(msg & Hm & Hno)|(z1 & b & R & Hrun & Hinv1 & Hfree & Hsz & Hf1 & He1)].
  { by rewrite <- Hperm. }
  { rewrite Hm. left. exists msg. split; [done|]. right. intros Hr. apply Hno. by apply (start_room z W lst). }
  rewrite Hrun. cbn [obind].
  destruct (malloc_finish z1 b R (align_size len + sizeof_memblock) tg usr rawid Hinv1 Hfree) as
    [(msg & Hm & Hno)|(z2 & b2 & R2 & Hrun2 & Hinv2 & Hb2 & Ht & Hu & Hw & Hf2 & Hc2 & He2%retains_evolves)]; try done.
  { lia. } { apply Z.divide_add_r; [done|apply sizeof_memblock_align]. }
  { left. exists msg. split; [done|]. by left. }
  right. exists (b2.1 + sizeof_memblock), z2. split; [exact Hrun2|]. split; [eauto using framed_trans|].
  pose proof (zone_ok_block _ _ b2 (proj1 Hinv2) ltac:(left)) as Hbk. unfold block_ok in Hbk.
  rewrite Hb2 in Hbk. destruct Hbk as (B1 & B2 & _ & B4 & _).
  assert (Hz : zfirst z2 = zfirst z /\ zend z2 = zend z).
  { destruct Hf1 as [F1 F2], Hf2 as [F3 F4]. unfold zfirst, zend. by rewrite F3, F4, F1, F2. }
  exists b2, R2. split_and!; try done; try lia.
  - apply Z.divide_add_r; [done|apply sizeof_memblock_align].
  - intros Hne. rewrite Hc2. apply Z.eqb_neq in Hne as ->. by rewrite lookup_insert_eq.
  - intros x Hx Hux. rewrite Hperm in Hx. destruct (proj1 He1 x Hx Hux) as (y & Hy & Hxy).
    apply elem_of_cons in Hy as [->|Hy].
    + exfalso. apply (proj1 (unpurgable_same _ _ Hxy Hux)). done.
    + destruct (proj1 He2 y Hy (unpurgable_same _ _ Hxy Hux)) as (w & Hw' & Hyw). eauto using same_trans.
  - intros y Hy Huy. destruct (proj2 He2 y Hy Huy) as (w & Hw' & Hwy).
    destruct (proj2 He1 w ltac:(by right) (used_same _ _ Hwy Huy)) as (x & Hx & Hxw).
    exists x. split; [by rewrite Hperm|]. by eapply same_trans.
Qed.

End malloc.
