(* ===== verification/ZoneWalks.v ===== *)
(** * The zone allocator: start-up, walks over the block list, theorems *)
From S2P Require Import Prelude Zone ZoneFacts ZoneMalloc.
#[local] Open Scope doom_scope.

Section walks.
Context {A : Arch}.
Implicit Types (z : zone) (L R : list node) (x y b c n : node).

(** ** Z_Init *)
Definition init_cap (raw : Z -> memblock) (base : Z) : node :=
  let cap := base + offsetof_blocklist in
  (cap, mk_block (size (raw cap)) base PU_STATIC (id (raw cap))
          (base + sizeof_memzone) (base + sizeof_memzone)).
Definition init_block (raw : Z -> memblock) (base bytes : Z) : node :=
  let block := base + sizeof_memzone in
  let cap := base + offsetof_blocklist in
  (block, mk_block (bytes - sizeof_memzone) (user (raw block)) PU_FREE (id (raw block)) cap cap).

Lemma Z_Init_inv raw (base bytes : Z) :
  (MEM_ALIGN | base) -> sizeof_memzone + sizeof_memblock <= bytes <= INT_MAX ->
  zone_inv (Z_Init raw base bytes) [init_cap raw base; init_block raw base bytes].
Proof.
  intros Hal Hsz. pose proof sizeof_memblock_pos as Hh. pose proof sizeof_memzone_align as Hza.
  set (z := Z_Init raw base bytes).
  assert (Hlt : base + offsetof_blocklist < base + sizeof_memzone).
  { pose proof (cap_below z). unfold zcap, zfirst in *. cbn in *. lia. }
  assert (Hcb : is_cap z (init_block raw base bytes) = false).
  { unfold is_cap. cbn. apply Z.eqb_neq. unfold zcap. cbn. lia. }
  assert (Hcc : is_cap z (init_cap raw base) = true) by (unfold is_cap; apply Z.eqb_refl).
  assert (Hfit : i32 (bytes - sizeof_memzone) = bytes - sizeof_memzone).
  { apply wraps_id; [lia|]. unfold fits_s, INT_MAX, sizeof_memzone in *. cbn. destruct the_abi; lia. }
  split; [split|].
  - unfold z, Z_Init, update. cbn. repeat constructor; cbn.
    + by rewrite lookup_insert_ne, lookup_insert_eq by lia.
    + by rewrite lookup_insert_eq, Hfit.
  - cbn. rewrite !NoDup_cons, list_elem_of_singleton. split_and!; try done; [lia|by apply not_elem_of_nil|constructor].
  - left.
  - done.
  - unfold cyc, chain, touching, end_of, start_of. cbn [app]. rewrite Hcb, Hcc.
    unfold zfirst, zend. cbn. split_and!; try done. lia.
  - repeat constructor; unfold block_ok; rewrite ?Hcc, ?Hcb; [done|].
    unfold zfirst, zend. cbn. split_and!; [lia|lia|lia|by apply Z.divide_add_r|by intros []|].
    unfold PU_PURGELEVEL, PU_FREE. lia.
  - intros x y Hx Hy Hxc Hyc Hne. exfalso. rewrite !elem_of_cons, elem_of_nil in Hx, Hy.
    destruct Hx as [->|[->|[]]], Hy as [->|[->|[]]]; congruence.
  - cbn. lia.
  - done.
  - cbn. right. left.
  - unfold cyc, chain, not_both_free, is_free, PU_STATIC, PU_FREE. cbn. unfold PU_STATIC. intuition lia.
Qed.

(** ** Walking from the cap *)
Lemma zone_from_cap z L : zone_inv z L ->
  exists c l, zone_inv z (c :: l) /\ L ≡ₚ c :: l /\ is_cap z c = true /\ l <> [].
Proof.
  intros Hinv. destruct (zone_ok_cap_in _ _ (proj1 Hinv)) as (c & Hc & Hcc).
  destruct (zone_at z L c Hinv Hc) as (R0 & p & Hi & HP). exists c, (R0 ++ [p]).
  split_and!; try done. by destruct R0.
Qed.

Lemma cap_addr z c : is_cap z c = true -> c.1 = zcap z.
Proof. unfold is_cap. intros. by breflect. Qed.

Lemma not_cap_elem z c l x : zone_ok z (c :: l) -> is_cap z c = true -> x ∈ l -> is_cap z x = false.
Proof.
  intros Hok Hc Hx. destruct (is_cap z x) eqn:E; [|done]. exfalso.
  pose proof (ok_nodup _ _ Hok) as Hnd. cbn in Hnd. apply NoDup_cons in Hnd as [Hn _]. apply Hn.
  rewrite (cap_addr z c Hc), <- (cap_addr z x E). by apply list_elem_of_fmap_2.
Qed.

(** The successor of a block met on the way from the cap. *)
Lemma walk_next z c l1 b l2 :
  zone_inv z (c :: l1 ++ b :: l2) -> is_cap z c = true ->
  next b.2 = (hd c l2).1 /\ getb b.1 z = Ret b.2 /\ is_cap z b = false /\
  (forall n l, l2 = n :: l -> getb n.1 z = Ret n.2 /\ b.1 + size b.2 = n.1 /\
     prev n.2 = b.1 /\ not_both_free b n /\ is_cap z n = false).
Proof.
  intros Hinv Hc. pose proof (not_cap_elem z c (l1 ++ b :: l2) b (proj1 Hinv) Hc) as Hcb.
  specialize (Hcb ltac:(rewrite elem_of_app, elem_of_cons; auto)).
  pose proof (zone_inv_rot z (c :: l1) (b :: l2) Hinv) as [Hok Hnbf]. cbn in Hok.
  assert (E : exists R, l2 ++ c :: l1 = hd c l2 :: R) by (destruct l2; cbn; eauto).
  destruct E as (R & E). pose proof Hok as Hok'. rewrite E in Hok'.
  pose proof (cyc_first _ _ _ _ (ok_link _ _ Hok')) as [Hn _].
  split_and!; try done.
  - apply (zone_ok_mem _ _ b Hok). left.
  - intros n l ->. pose proof (not_cap_elem z c (l1 ++ b :: n :: l) n (proj1 Hinv) Hc) as Hcn.
    specialize (Hcn ltac:(rewrite elem_of_app, !elem_of_cons; auto)). cbn in Hok.
    pose proof (cyc_first _ _ _ _ (ok_link _ _ Hok)) as [_ Hp].
    pose proof (cyc_first _ _ _ _ (ok_touch _ _ Hok)) as Ht.
    unfold touching, end_of, start_of in Ht. rewrite Hcb, Hcn in Ht.
    split_and!; try done; [|by apply (cyc_first _ _ _ _ Hnbf)].
    apply (zone_ok_mem _ _ n Hok). right. left.
Qed.

Lemma getb_cap z c l : zone_inv z (c :: l) -> is_cap z c = true -> l <> [] ->
  getb (zcap z) z = Ret c.2 /\ next c.2 = (hd c l).1.
Proof.
  intros [Hok _] Hc Hne. rewrite <- (cap_addr z c Hc). split; [apply (zone_ok_mem _ _ c Hok); left|].
  destruct l as [|b l]; [done|]. by apply (cyc_first _ _ _ _ (ok_link _ _ Hok)).
Qed.

(** ** Z_CheckHeap *)
Lemma CheckHeap_loop_ok z c fuel : forall l1 b l2,
  zone_inv z (c :: l1 ++ b :: l2) -> is_cap z c = true -> (length (b :: l2) <= fuel)%nat ->
  Z_CheckHeap_loop fuel b.1 z = Ret tt.
Proof.
  induction fuel as [|fuel IH]; intros l1 b l2 Hinv Hc Hf; [cbn in Hf; lia|].
  destruct (walk_next z c l1 b l2 Hinv Hc) as (Hn & Gb & Hcb & Hnext).
  cbn [Z_CheckHeap_loop]. rewrite Gb. cbn [obind]. rewrite Hn. destruct l2 as [|n l2]; cbn [hd].
  - by rewrite (cap_addr z c Hc), Z.eqb_refl.
  - destruct (Hnext n l2 eq_refl) as (Gn & Ht & Hp & Hnf & Hcn).
    unfold is_cap in Hcn. rewrite Hcn, Ht, Z.eqb_refl, Gn. cbn [obind negb]. rewrite Hp, Z.eqb_refl. cbn [negb].
    destruct ((tag b.2 =? PU_FREE) && (tag n.2 =? PU_FREE)) eqn:E.
    + breflect. exfalso. by apply Hnf.
    + apply (IH (l1 ++ [b]) n l2); [by rewrite <- app_assoc|done|cbn in *; lia].
Qed.

Lemma CheckHeap_ok z L fuel : zone_inv z L -> (length L <= fuel)%nat -> Z_CheckHeap fuel z = Ret tt.
Proof.
  intros Hinv Hf. destruct (zone_from_cap z L Hinv) as (c & l & Hi & HP & Hc & Hne).
  rewrite HP in Hf. destruct (getb_cap z c l Hi Hc Hne) as [Gc Hn].
  unfold Z_CheckHeap. rewrite Gc. cbn [obind]. rewrite Hn. destruct l as [|b l]; [done|].
  apply (CheckHeap_loop_ok z c fuel [] b l Hi Hc). cbn in *. lia.
Qed.

(** ** Z_FreeMemory *)
Definition reclaimable x : bool := (tag x.2 =? PU_FREE) || (tag x.2 >=? PU_PURGELEVEL).
Definition free_bytes (l : list node) : Z :=
  foldr (fun x acc => (if reclaimable x then size x.2 else 0) + acc) 0 l.

Lemma FreeMemory_loop_ok z c fuel : forall l1 l2 (acc : Z),
  zone_inv z (c :: l1 ++ l2) -> is_cap z c = true -> (length l2 < fuel)%nat ->
  0 <= acc -> (forall b l, l2 = b :: l -> acc <= b.1 - zfirst z) ->
  Z_FreeMemory_loop fuel (hd c l2).1 acc z = Ret (acc + free_bytes l2).
Proof.
  induction fuel as [|fuel IH]; intros l1 l2 acc Hinv Hc Hf H0 Hacc; [lia|].
  cbn [Z_FreeMemory_loop]. destruct l2 as [|b l2]; cbn [hd].
  - rewrite (cap_addr z c Hc), Z.eqb_refl. cbn. f_equal. lia.
  - destruct (walk_next z c l1 b l2 Hinv Hc) as (Hn & Gb & Hcb & Hnext).
    pose proof Hcb as Hcb'. unfold is_cap in Hcb'. rewrite Hcb', Gb. cbn [obind]. rewrite Hn.
    pose proof (zone_ok_block _ _ b (proj1 Hinv) ltac:(rewrite elem_of_cons, elem_of_app, elem_of_cons; auto)) as Hb.
    unfold block_ok in Hb. rewrite Hcb in Hb. pose proof sizeof_memblock_pos.
    pose proof (ok_size _ _ (proj1 Hinv)) as Hz. specialize (Hacc b l2 eq_refl).
    assert (Hfit : fits_s 32 (acc + size b.2)).
    { unfold zfirst, zend, fits_s, INT_MAX, sizeof_memzone in *. cbn. destruct the_abi; lia. }
    rewrite (wraps_id 32) by (done || lia). change ((tag b.2 =? PU_FREE) || (tag b.2 >=? PU_PURGELEVEL)) with (reclaimable b).
    rewrite (IH (l1 ++ [b]) l2).
    + f_equal. change (free_bytes (b :: l2)) with ((if reclaimable b then size b.2 else 0) + free_bytes l2).
      destruct (reclaimable b); lia.
    + by rewrite <- app_assoc.
    + done.
    + cbn in Hf. lia.
    + destruct (reclaimable b); lia.
    + intros n l E. destruct (Hnext n l E) as (_ & Ht & _). destruct (reclaimable b); lia.
Qed.

Lemma FreeMemory_at z c l fuel :
  zone_inv z (c :: l) -> is_cap z c = true -> l <> [] -> (S (length l) <= fuel)%nat ->
  Z_FreeMemory fuel z = Ret (free_bytes l).
Proof.
  intros Hi Hc Hne Hf. destruct (getb_cap z c l Hi Hc Hne) as [Gc Hn].
  unfold Z_FreeMemory. rewrite Gc. cbn [obind]. rewrite Hn.
  rewrite (FreeMemory_loop_ok z c fuel [] l 0 Hi Hc); [done|lia|lia|].
  intros b l' ->. destruct (walk_next z c [] b l' Hi Hc) as (_ & _ & Hcb & _).
  pose proof (zone_ok_block _ _ b (proj1 Hi) ltac:(right; left)) as Hb. unfold block_ok in Hb.
  rewrite Hcb in Hb. lia.
Qed.

(** ** Z_FreeTags *)
Definition tagged (lo hi : Z) x : Prop := ~ is_free x /\ lo <= tag x.2 <= hi.

(** How the used blocks may change: those outside the tag range stay, and no
    used block appears. *)
Definition swept (lo hi : Z) L L' : Prop :=
  (forall x, x ∈ L -> ~ is_free x -> ~ tagged lo hi x -> exists y, y ∈ L' /\ same x y) /\
  (forall y, y ∈ L' -> ~ is_free y -> exists x, x ∈ L /\ same x y).

Lemma tagged_same lo hi x y : same x y -> tagged lo hi x <-> tagged lo hi y.
Proof. intros (_ & _ & _ & E & _). unfold tagged, is_free. by rewrite E. Qed.

Lemma swept_perm lo hi L L' : L ≡ₚ L' -> swept lo hi L L'.
Proof.
  intros HP. split; intros x Hx; intros; exists x; (split; [|apply same_refl]).
  - by rewrite <- HP.
  - by rewrite HP.
Qed.

Lemma swept_trans lo hi L1 L2 L3 : swept lo hi L1 L2 -> swept lo hi L2 L3 -> swept lo hi L1 L3.
Proof.
  intros [K1 S1] [K2 S2]. split.
  - intros x Hx Hu Ht. destruct (K1 x Hx Hu Ht) as (y & Hy & Hxy).
    destruct (K2 y Hy) as (w & Hw & Hyw).
    + intros Hf. apply Hu. destruct Hxy as (_ & _ & _ & E & _). unfold is_free in *. by rewrite E.
    + by rewrite <- (tagged_same _ _ _ _ Hxy).
    + eauto using same_trans.
  - intros w Hw Hu. destruct (S2 w Hw Hu) as (y & Hy & Hyw).
    destruct (S1 y Hy (used_same _ _ Hyw Hu)) as (x & Hx & Hxy). eauto using same_trans.
Qed.

Lemma swept_free lo hi b Q Rm P f R' :
  tagged lo hi b -> Forall is_free Q -> Forall is_free P -> is_free f -> Forall2 same Rm R' ->
  swept lo hi (b :: Q ++ Rm ++ P) (f :: R').
Proof.
  intros Hb HQ HP Hf HF. rewrite Forall_forall in HQ, HP. split.
  - intros x Hx Hu Ht. rewrite elem_of_cons, !elem_of_app in Hx.
    destruct Hx as [->|[Hx|[Hx|Hx]]]; [done| |..].
    + exfalso. by apply Hu, HQ.
    + destruct (Forall2_same_elem_l _ _ _ HF Hx) as (y & Hy & Hs). exists y. split; [by right|done].
    + exfalso. by apply Hu, HP.
  - intros y Hy Hu. apply elem_of_cons in Hy as [->|Hy]; [done|].
    destruct (Forall2_same_elem_r _ _ _ HF Hy) as (x & Hx & Hs). exists x. split; [|done].
    rewrite elem_of_cons, !elem_of_app. auto.
Qed.

(** The loop's cursor is the address of a block of the list or of a header
    that was merged away; what lies before it holds no tagged block. *)
Definition cursor_at z (lo hi a : Z) c l1 l2 (k : nat) : Prop :=
  zone_inv z (c :: l1 ++ l2) /\ is_cap z c = true /\ (forall x, x ∈ l1 -> ~ tagged lo hi x) /\
  (a = (hd c l2).1 /\ k = S (length l2) \/
   a <> zcap z /\ k = S (S (length l2)) /\
   exists h, mem z !! a = Some h /\ tag h = PU_FREE /\ next h = (hd c l2).1).

Lemma untagged_same lo hi l l' :
  Forall2 same l l' -> (forall x, x ∈ l -> ~ tagged lo hi x) -> forall x, x ∈ l' -> ~ tagged lo hi x.
Proof.
  intros HF H x Hx. destruct (Forall2_same_elem_r _ _ _ HF Hx) as (y & Hy & Hs).
  rewrite <- (tagged_same _ _ _ _ Hs). by apply H.
Qed.

(** Freeing the block under the cursor. *)
Lemma sweep_free z (lo hi : Z) c l1 b l2 :
  cursor_at z lo hi b.1 c l1 (b :: l2) (S (S (length l2))) -> tagged lo hi b ->
  exists z' c' l1' l2', Z_Free (b.1 + sizeof_memblock) z = Ret z' /\ framed z z' /\
    (exists k, cursor_at z' lo hi (next b.2) c' l1' l2' k /\ (k <= S (length l2))%nat) /\
    swept lo hi (c :: l1 ++ b :: l2) (c' :: l1' ++ l2').
Proof.
  intros (Hinv & Hc & Hclean & _) Ht.
  destruct (walk_next z c l1 b l2 Hinv Hc) as (Hn & _ & Hcb & _).
  pose proof (zone_inv_rot z (c :: l1) (b :: l2) Hinv) as Hrot. cbn in Hrot.
  destruct (Z_Free_spec z b _ Hrot Hcb (proj1 Ht)) as
    (z' & f & Q & Rm & P & R' & Hrun & Hinv' & Hf & E & HF & Hne & HQ & HP & HcP & _ & Hfr & _ & Hst & _).
  assert (Hcf : ~ is_free c).
  { intros Hf'. pose proof (free_not_cap z (c :: l1 ++ b :: l2) c (proj1 Hinv) ltac:(left) Hf'). congruence. }
  assert (HQ2 : exists l2a, l2 = Q ++ l2a /\ Rm ++ P = l2a ++ c :: l1).
  { destruct (free_prefix Q (Rm ++ P) (l2 ++ [c]) l1 c) as (q & t & E1 & E2 & E3); try done.
    - rewrite <- app_assoc. by symmetry.
    - apply last_snoc.
    - assert (Hx : exists l2a, q :: t = l2a ++ [c]) by (by apply last_Some in E3).
      destruct Hx as (l2a & Hx). rewrite Hx in *. exists l2a. rewrite app_assoc in E1.
      apply app_inj_tail in E1 as [-> _]. split; [done|]. by rewrite E2, <- app_assoc. }
  destruct HQ2 as (l2a & El2 & ERP).
  assert (HP2 : exists l1a, Rm = l2a ++ c :: l1a /\ l1 = l1a ++ P).
  { destruct HcP as [(-> & _ & _)|(p & -> & _)].
    - exists l1. rewrite app_nil_r in *. done.
    - rewrite Forall_singleton in HP. destruct l1 as [|p' l1a _] using rev_ind.
      + apply app_inj_tail in ERP as [_ ->]. done.
      + change (c :: l1a ++ [p']) with ((c :: l1a) ++ [p']) in ERP.
        rewrite app_assoc in ERP. apply app_inj_tail in ERP as [-> ->]. eauto. }
  destruct HP2 as (l1a & ERm & El1).
  rewrite ERm in HF. apply Forall2_app_inv_l in HF as (l2' & R2 & HF2 & HFc & ER').
  apply Forall2_cons_inv_l in HFc as (c' & l1' & Hcc' & HF1 & ->). subst R'.
  assert (Hcap' : is_cap z' c' = true).
  { rewrite (framed_cap z z' c' Hfr). destruct Hcc' as (Ea & _). unfold is_cap in *. by rewrite <- Ea. }
  assert (Hhd : (hd c l2a).1 = (hd c' l2').1).
  { destruct HF2 as [|x y lx ly (Ex & _) _]; [by destruct Hcc'|done]. }
  exists z', c', (l1' ++ [f]), l2'. split; [exact Hrun|]. split; [done|]. split.
  - pose proof (zone_inv_rot z' (f :: l2') (c' :: l1') Hinv') as Hi'. cbn in Hi'.
    assert (Hbase : zone_inv z' (c' :: (l1' ++ [f]) ++ l2') /\ is_cap z' c' = true /\
      (forall x, x ∈ l1' ++ [f] -> ~ tagged lo hi x)).
    { split_and!; [by rewrite <- app_assoc|done|]. intros x Hx. rewrite elem_of_app, list_elem_of_singleton in Hx.
      destruct Hx as [Hx| ->]; [|by intros []]. apply (untagged_same lo hi l1a l1'); try done.
      intros y Hy. apply Hclean. rewrite El1, elem_of_app. auto. }
    destruct Hbase as (HB1 & HB2 & HB3). pose proof (Forall2_length _ _ _ HF2) as Hlen.
    destruct Q as [|q Q].
    + exists (S (length l2')). split; [|rewrite El2; cbn; lia].
      split_and!; try done. left. split; [|done]. rewrite Hn, El2. done.
    + exists (S (S (length l2'))). split; [|rewrite El2, length_app; cbn; lia].
      split_and!; try done. right. apply Forall_cons in Hst as [(h & Hh & Hth & Hnx) _].
      apply Forall_cons in HQ as [Hq _].
      split_and!; try done.
      * rewrite Hn, El2. cbn. assert (Hqc : is_cap z q = false).
        { eapply free_not_cap; [apply Hrot| |done]. rewrite E, elem_of_cons. right. left. }
        unfold is_cap, zcap in *. destruct Hfr as [-> _]. by breflect.
      * exists h. rewrite Hn, El2. cbn. split_and!; try done.
        rewrite <- Hhd. rewrite ERm in Hnx. destruct l2a as [|x l2a]; by apply Hnx.
  - eapply swept_trans; [apply swept_perm, (Permutation_app_comm (c :: l1) (b :: l2))|].
    cbn. rewrite E. eapply swept_trans; [apply (swept_free lo hi b Q Rm P f (l2' ++ c' :: l1')); try done|].
    + rewrite ERm. apply Forall2_app; [done|]. by constructor.
    + apply swept_perm. rewrite <- app_assoc. apply (Permutation_app_comm (f :: l2') (c' :: l1')).
Qed.

Lemma cursor_skip z lo hi c l1 b l2 :
  zone_inv z (c :: l1 ++ b :: l2) -> is_cap z c = true ->
  (forall x, x ∈ l1 -> ~ tagged lo hi x) -> ~ tagged lo hi b ->
  cursor_at z lo hi (next b.2) c (l1 ++ [b]) l2 (S (length l2)).
Proof.
  intros Hinv Hc Hclean Hb. destruct (walk_next z c l1 b l2 Hinv Hc) as (Hn & _).
  split_and!; try done; [by rewrite <- app_assoc| |by left].
  intros x. rewrite elem_of_app, list_elem_of_singleton. intros [Hx| ->]; [by apply Hclean|done].
Qed.

Lemma FreeTags_loop_ok lo hi fuel : forall z a c l1 l2 (k : nat),
  cursor_at z lo hi a c l1 l2 k -> (k <= fuel)%nat ->
  exists z' L', Z_FreeTags_loop fuel lo hi a z = Ret z' /\ zone_inv z' L' /\ framed z z' /\
    swept lo hi (c :: l1 ++ l2) L' /\ forall x, x ∈ L' -> is_cap z' x = false -> ~ tagged lo hi x.
Proof.
  induction fuel as [|fuel IH]; intros z a c l1 l2 k Hcur Hk.
  { destruct Hcur as (_ & _ & _ & [(_ & ->)|(_ & -> & _)]); lia. }
  cbn [Z_FreeTags_loop]. pose proof Hcur as (Hinv & Hc & Hclean & [(-> & ->)|(Ha & -> & h & Hh & Hth & Hnx)]).
  - destruct l2 as [|b l2]; cbn [hd].
    + rewrite (cap_addr z c Hc), Z.eqb_refl, app_nil_r in *. exists z, (c :: l1).
      split_and!; try done; [by apply swept_perm|].
      intros x Hx Hcx. apply elem_of_cons in Hx as [->|Hx]; [congruence|by apply Hclean].
    + destruct (walk_next z c l1 b l2 Hinv Hc) as (_ & Gb & Hcb & _).
      pose proof Hcb as Hcb'. unfold is_cap in Hcb'. rewrite Hcb', Gb. cbn [obind].
      assert (Hskip : ~ tagged lo hi b -> exists z' L',
        Z_FreeTags_loop fuel lo hi (next b.2) z = Ret z' /\ zone_inv z' L' /\ framed z z' /\
        swept lo hi (c :: l1 ++ b :: l2) L' /\ forall x, x ∈ L' -> is_cap z' x = false -> ~ tagged lo hi x).
      { intros Hb. pose proof (cursor_skip z lo hi c l1 b l2 Hinv Hc Hclean Hb) as Hcur'.
        destruct (IH _ _ _ _ _ _ Hcur') as (z' & L' & H); [cbn in Hk; lia|].
        rewrite <- app_assoc in H. by exists z', L'. }
      destruct (tag b.2 =? PU_FREE) eqn:Ef; breflect; [apply Hskip; by intros [? _]|].
      destruct ((tag b.2 >=? lo) && (tag b.2 <=? hi)) eqn:Et.
      * apply andb_true_iff in Et as [E1 E2]. breflect.
        assert (Hb : tagged lo hi b) by (split; [done|lia]).
        destruct (sweep_free z lo hi c l1 b l2 Hcur Hb) as
          (z1 & c' & l1' & l2' & -> & Hf1 & (k' & Hcur' & Hk') & Hs1). cbn [obind].
        destruct (IH _ _ _ _ _ _ Hcur') as (z' & L' & Hrun & Hi' & Hf' & Hs' & Hno); [cbn in Hk; lia|].
        exists z', L'. split_and!; try done; eauto using framed_trans, swept_trans.
      * cbn [obind]. apply Hskip. intros [_ Hb]. apply andb_false_iff in Et as [Et|Et]; breflect; lia.
  - apply Z.eqb_neq in Ha. rewrite Ha. unfold getb. rewrite Hh. cbn [of_option obind].
    rewrite Hth, Hnx. cbn [Z.eqb Pos.eqb PU_FREE]. apply (IH z _ c l1 l2 (S (length l2))); [|lia].
    split_and!; try done. by left.
Qed.

Lemma FreeTags_ok z L lo hi fuel : zone_inv z L -> (length L <= fuel)%nat ->
  exists z' L', Z_FreeTags fuel lo hi z = Ret z' /\ zone_inv z' L' /\ framed z z' /\
    swept lo hi L L' /\ forall x, x ∈ L' -> is_cap z' x = false -> ~ tagged lo hi x.
Proof.
  intros Hinv Hf. destruct (zone_from_cap z L Hinv) as (c & l & Hi & HP & Hc & Hne).
  rewrite HP in Hf. destruct (getb_cap z c l Hi Hc Hne) as [Gc Hn].
  unfold Z_FreeTags. rewrite Gc. cbn [obind]. rewrite Hn.
  destruct (FreeTags_loop_ok lo hi fuel z (hd c l).1 c [] l (S (length l))) as
    (z' & L' & Hrun & Hi' & Hf' & Hs & Hno).
  - split_and!; try done; [by intros x Hx; apply elem_of_nil in Hx|by left].
  - cbn in Hf. lia.
  - exists z', L'. split_and!; try done. eapply swept_trans; [by apply swept_perm|done].
Qed.

(** ** Changing the tag or the owner of a block *)
Lemma payload_nbf b R u t i :
  cyc not_both_free (b :: R) -> (t = PU_FREE -> is_free b) -> cyc not_both_free (with_payload b u t i :: R).
Proof.
  intros H Ht. revert H. apply cyc_replace; unfold not_both_free, is_free in *; cbn; intros x; tauto.
Qed.

Lemma set_cell_inv z L a v : zone_inv z L -> zone_inv (set_cell a v z) L.
Proof. intros [[] Hn]. split; [split|]; done. Qed.

(** A block of the list, read from it on. *)
Lemma zone_around z L b : zone_inv z L -> b ∈ L -> exists R, zone_inv z (b :: R) /\ L ≡ₚ b :: R.
Proof. intros Hinv Hb. destruct (zone_at z L b Hinv Hb) as (R0 & p & H). eauto. Qed.

Lemma ChangeTag2_ok z b R (tg : Z) :
  zone_inv z (b :: R) -> is_cap z b = false -> ~ is_free b -> tg <> PU_FREE ->
  (PU_PURGELEVEL <= tg -> user b.2 <> 0) ->
  exists z', Z_ChangeTag2 (b.1 + sizeof_memblock) tg z = Ret z' /\
    zone_inv z' (with_payload b (user b.2) tg ZONEID :: R) /\ framed z z' /\ cells z' = cells z.
Proof.
  intros [Hok Hnbf] Hb Hu Ht Hp. pose proof (zone_ok_block _ _ b Hok ltac:(left)) as Hk.
  unfold block_ok in Hk. rewrite Hb in Hk. destruct Hk as (_ & _ & _ & _ & Hid & _). specialize (Hid Hu).
  exists (setb b.1 (with_payload b (user b.2) tg ZONEID).2 z). split.
  - unfold Z_ChangeTag2. replace (b.1 + sizeof_memblock - sizeof_memblock) with b.1 by lia.
    rewrite (zone_ok_mem _ _ b Hok ltac:(left)). cbn [obind]. rewrite Hid, Z.eqb_refl. cbn [negb].
    replace ((tg >=? PU_PURGELEVEL) && (user b.2 =? 0)) with false.
    { unfold updb. rewrite (zone_ok_mem _ _ b Hok ltac:(left)). cbn [obind].
      unfold with_payload, update. cbn. by rewrite Hid. }
    symmetry. apply andb_false_iff. destruct (tg >=? PU_PURGELEVEL) eqn:E; [right|by left].
    breflect. apply Z.eqb_neq, Hp. lia.
  - split; [|done]. split; [by apply payload_ok|by apply payload_nbf].
Qed.

Lemma ChangeUser_ok z b R (usr : Z) :
  zone_inv z (b :: R) -> is_cap z b = false -> ~ is_free b -> usr <> 0 ->
  exists z', Z_ChangeUser (b.1 + sizeof_memblock) usr z = Ret z' /\
    zone_inv z' (with_payload b usr (tag b.2) ZONEID :: R) /\ framed z z' /\
    cells z' = <[usr := b.1 + sizeof_memblock]> (cells z).
Proof.
  intros [Hok Hnbf] Hb Hu Ht. pose proof (zone_ok_block _ _ b Hok ltac:(left)) as Hk.
  unfold block_ok in Hk. rewrite Hb in Hk. destruct Hk as (_ & _ & _ & _ & Hid & _). specialize (Hid Hu).
  exists (set_cell usr (b.1 + sizeof_memblock) (setb b.1 (with_payload b usr (tag b.2) ZONEID).2 z)). split.
  - unfold Z_ChangeUser. replace (b.1 + sizeof_memblock - sizeof_memblock) with b.1 by lia.
    unfold updb. rewrite (zone_ok_mem _ _ b Hok ltac:(left)). cbn [obind]. rewrite Hid, Z.eqb_refl. cbn [negb].
    unfold with_payload, update. cbn. by rewrite Hid.
  - split; [|done]. apply set_cell_inv. split; [by apply payload_ok|by apply payload_nbf].
Qed.

(** ** Fuel *)
Lemma scan_more fuel : forall fuel' want start base rov z r,
  (fuel <= fuel')%nat -> Z_Malloc_scan fuel want start base rov z = Ret r ->
  Z_Malloc_scan fuel' want start base rov z = Ret r.
Proof.
  induction fuel as [|fuel IH]; intros fuel' want start base rov z r Hle; [done|].
  destruct fuel' as [|fuel']; [lia|]. cbn [Z_Malloc_scan]. destruct (rov =? start); [done|].
  destruct (Z_Malloc_step base rov z) as [[[base' rov'] z']| | |]; cbn [obind]; try done.
  destruct (getb base' z') as [b| | |]; cbn [obind]; try done.
  destruct (negb (tag b =? PU_FREE) || (size b <? want)); [|done]. apply IH. lia.
Qed.

Lemma Z_Malloc_more fuel fuel' rawid len tg usr z r :
  (fuel <= fuel')%nat -> Z_Malloc fuel rawid len tg usr z = Ret r -> Z_Malloc fuel' rawid len tg usr z = Ret r.
Proof.
  intros Hle. unfold Z_Malloc. repeat (destruct (getb _ z); cbn [obind]; [|done..]).
  destruct (Z_Malloc_scan fuel _ _ _ _ z) as [p| | |] eqn:E; cbn [obind]; [|done..].
  by rewrite (scan_more _ _ _ _ _ _ _ _ Hle E).
Qed.

Lemma FreeTags_loop_more fuel : forall fuel' lo hi a z r,
  (fuel <= fuel')%nat -> Z_FreeTags_loop fuel lo hi a z = Ret r -> Z_FreeTags_loop fuel' lo hi a z = Ret r.
Proof.
  induction fuel as [|fuel IH]; intros fuel' lo hi a z r Hle; [done|].
  destruct fuel' as [|fuel']; [lia|]. cbn [Z_FreeTags_loop]. destruct (a =? zcap z); [done|].
  destruct (getb a z) as [b| | |]; cbn [obind]; [|done..].
  destruct (tag b =? PU_FREE); [apply IH; lia|].
  destruct (if _ && _ then _ else _); cbn [obind]; [apply IH; lia|done..].
Qed.

Lemma Z_FreeTags_more fuel fuel' lo hi z r :
  (fuel <= fuel')%nat -> Z_FreeTags fuel lo hi z = Ret r -> Z_FreeTags fuel' lo hi z = Ret r.
Proof.
  intros Hle. unfold Z_FreeTags. destruct (getb _ z); cbn [obind]; [|done..]. by apply FreeTags_loop_more.
Qed.

(** ** Freeing twice *)
Definition ids_kept z z' : Prop := forall a, (id <$> mem z' !! a) = (id <$> mem z !! a).

Lemma updb_ids (a : Z) (h : memblock -> memblock) z z' : (forall e, id (h e) = id e) -> updb a h z = Ret z' -> ids_kept z z'.
Proof.
  intros Hh. unfold updb, getb, setb, update. destruct (mem z !! a) as [b|] eqn:E; cbn; [|done].
  intros [= <-] a'. cbn. destruct (decide (a = a')) as [<-|].
  - by rewrite lookup_insert_eq, E; cbn; rewrite Hh.
  - by rewrite lookup_insert_ne.
Qed.

Lemma merge_ids dst src z z' : merge_into dst src z = Ret z' -> ids_kept z z'.
Proof.
  unfold merge_into. destruct (getb src z) as [b| | |]; cbn [obind]; [|done..].
  destruct (updb dst _ z) as [z1| | |] eqn:E1; cbn [obind]; [|done..].
  destruct (updb dst _ z1) as [z2| | |] eqn:E2; cbn [obind]; [|done..].
  destruct (getb dst z2) as [d| | |]; cbn [obind]; [|done..].
  destruct (updb _ _ z2) as [z3| | |] eqn:E3; cbn [obind]; [|done..].
  intros [= <-] a. apply updb_ids in E1, E2, E3; [|done..].
  rewrite <- (E1 a), <- (E2 a), <- (E3 a). by destruct (src =? rover z3).
Qed.

Lemma Z_Free_clears ptr z z' : Z_Free ptr z = Ret z' ->
  exists h, getb (ptr - sizeof_memblock) z' = Ret h /\ id h = 0.
Proof.
  unfold Z_Free. set (a := ptr - sizeof_memblock).
  destruct (getb a z) as [b| | |]; cbn [obind]; [|done..].
  destruct (negb (id b =? ZONEID)); [done|]. set (z1 := if _ && _ then _ else _).
  unfold updb at 1. destruct (getb a z1) as [b1| | |]; cbn [obind]; [|done..].
  match goal with |- context [setb a ?v z1] => set (h := v) end. set (z2 := setb a h z1).
  assert (H2 : (id <$> mem z2 !! a) = Some 0) by (unfold z2, setb, update; cbn; by rewrite lookup_insert_eq).
  replace (getb a z2) with (Ret h) by (symmetry; apply getb_set_eq). cbn [obind].
  destruct (getb (prev h) z2) as [o| | |]; cbn [obind]; [|done..].
  assert (G : forall z3, ids_kept z2 z3 -> exists h, getb a z3 = Ret h /\ id h = 0).
  { intros z3 H3. specialize (H3 a). rewrite H2 in H3. unfold getb.
    destruct (mem z3 !! a) as [h3|]; [|done]. injection H3 as E. by exists h3. }
  destruct (tag o =? PU_FREE); [destruct (merge_into _ _ z2) as [z3| | |] eqn:E3|]; cbn [obind]; [| done.. |].
  - apply merge_ids in E3. destruct (getb _ z3) as [b3| | |]; cbn [obind]; [|done..].
    destruct (getb (next b3) z3) as [o3| | |]; cbn [obind]; [|done..].
    destruct (tag o3 =? PU_FREE); [|by intros [= <-]; apply G].
    intros E4. apply merge_ids in E4. apply G. intros x. by rewrite (E4 x).
  - replace (getb a z2) with (Ret h) by (symmetry; apply getb_set_eq). cbn [obind].
    destruct (getb (next h) z2) as [o3| | |]; cbn [obind]; [|done..].
    destruct (tag o3 =? PU_FREE); [|by intros [= <-]; apply G].
    intros E4. apply merge_ids in E4. by apply G.
Qed.

End walks.
