(* ===== verification/ZoneOwners.v ===== *)
(** * The zone allocator: blocks and their owner variables

    A client of the zone gives a variable with each block it may lose; the
    allocator clears it when the block is taken away. [owners] says that blocks
    and variables agree, and all that a client does with the zone keeps it. *)
From S2P Require Import Prelude Zone ZoneFacts ZoneMalloc ZoneWalks.
#[local] Open Scope doom_scope.

Section owners.
Context {A : Arch}.
Implicit Types (z : zone) (L R : list node) (b x y : node).

Definition used z x : Prop := is_cap z x = false /\ ~ is_free x.
Definition ptr_of x : Z := x.1 + sizeof_memblock.

(** [C] are the variables a client looks at: null, or the address of a block
    that names them. *)
Record owners (C : Z -> Prop) z L : Prop := {
  ow_inv : zone_inv z L;
  ow_base : 0 <= zbase z;
  ow_back x : x ∈ L -> used z x -> user x.2 <> 0 -> cells z !! user x.2 = Some (ptr_of x);
  ow_there c p : C c -> c <> 0 -> cells z !! c = Some p -> p <> 0 -> exists x, x ∈ L /\ used z x /\ user x.2 = c /\ p = ptr_of x
}.

(** ** A zone has one list *)
Lemma node_eq z L1 L2 x y : zone_ok z L1 -> zone_ok z L2 -> x ∈ L1 -> y ∈ L2 -> x.1 = y.1 -> x = y.
Proof.
  intros H1 H2 Hx Hy E. pose proof (zone_ok_mem _ _ _ H1 Hx) as G1. rewrite E, (zone_ok_mem _ _ _ H2 Hy) in G1.
  injection G1 as G1. destruct x, y. cbn in *. congruence.
Qed.
Lemma chain_same z M1 M2 c : zone_ok z M1 -> zone_ok z M2 -> forall l1 l2 x, (forall y, y ∈ l1 -> y ∈ M1 /\ y <> c) -> (forall y, y ∈ l2 -> y ∈ M2 /\ y <> c) ->
  c ∈ M1 -> c ∈ M2 -> chain linked x (l1 ++ [c]) -> chain linked x (l2 ++ [c]) -> l1 = l2.
Proof.
  intros H1 H2. induction l1 as [|y l1 IH]; intros [|y' l2] x Hl1 Hl2 Hc1 Hc2 C1 C2; [done|..]; cbn in C1, C2.
  - destruct C1 as [[E1 _] _], C2 as [[E2 _] _]. destruct (Hl2 y') as [Hy Hne]; [left|]. exfalso. apply Hne. eapply (node_eq z); [exact H2|exact H1|done|done|congruence].
  - destruct C1 as [[E1 _] _], C2 as [[E2 _] _]. destruct (Hl1 y) as [Hy Hne]; [left|]. exfalso. apply Hne. eapply (node_eq z); [exact H1|exact H1|done|done|congruence].
  - destruct C1 as [[E1 _] C1], C2 as [[E2 _] C2]. destruct (Hl1 y) as [Hy _]; [left|]. destruct (Hl2 y') as [Hy' _]; [left|].
    assert (y = y') as <- by (eapply (node_eq z); [exact H1|exact H2|done|done|congruence]). f_equal.
    apply (IH l2 y); try done; intros w Hw; [apply Hl1|apply Hl2]; by right.
Qed.
Lemma zone_unique z L1 L2 : zone_inv z L1 -> zone_inv z L2 -> L1 ≡ₚ L2.
Proof.
  intros I1 I2. destruct (zone_from_cap z L1 I1) as (c & l1 & J1 & -> & Hc1 & _). destruct (zone_from_cap z L2 I2) as (c' & l2 & J2 & -> & Hc2 & _).
  assert (c' = c) as -> by (eapply (node_eq z); [apply J2|apply J1|left|left|]; by rewrite !(cap_addr z)).
  assert (Hn : forall l, zone_inv z (c :: l) -> forall y, y ∈ l -> y ∈ c :: l /\ y <> c).
  { intros l [J _] y Hy. split; [by right|]. intros ->. pose proof (not_cap_elem z c l c J Hc1 Hy). congruence. }
  rewrite (chain_same z (c :: l1) (c :: l2) c (proj1 J1) (proj1 J2) l1 l2 c); [done|by apply Hn|by apply Hn|left|left|apply J1|apply J2].
Qed.

Lemma owners_perm C z L L' : owners C z L -> zone_inv z L' -> owners C z L'.
Proof.
  intros [O1 O2 O3 O4] I. pose proof (zone_unique z L L' O1 I) as HP. split; try done.
  - intros x Hx. apply O3. by rewrite HP.
  - intros c p Hc Hz Hp H0. destruct (O4 c p Hc Hz Hp H0) as (x & Hx & Hr). exists x. by rewrite <- HP.
Qed.

(** ** What stays *)
Lemma same_used z z' x y : framed z z' -> same x y -> used z x <-> used z' y.
Proof.
  intros Hf (E & _ & _ & Et & _). unfold used, is_free. rewrite (framed_cap z z' y Hf), Et. unfold is_cap. by rewrite E.
Qed.
Lemma same_ptr x y : same x y -> ptr_of x = ptr_of y /\ user x.2 = user y.2.
Proof. intros (E & _ & Eu & _). unfold ptr_of. by rewrite E. Qed.
Lemma used_addr z L x : zone_ok z L -> x ∈ L -> 0 <= zbase z -> is_cap z x = false -> 0 < ptr_of x.
Proof.
  intros Hok Hx Hz Hc. pose proof (zone_ok_block _ _ _ Hok Hx) as Hb. unfold block_ok in Hb. rewrite Hc in Hb. destruct Hb as (Hb & _).
  unfold ptr_of, zfirst in *. pose proof sizeof_memblock_pos. unfold sizeof_memzone in Hb. destruct the_abi; lia.
Qed.

(** Blocks that come from blocks of before; variables that keep their value or
    are cleared. *)
Definition from L L' : Prop := forall y, y ∈ L' -> ~ is_free y -> exists x, x ∈ L /\ same x y.
Definition faded (cs cs' : gmap Z Z) : Prop := forall c, cs' !! c = cs !! c \/ cs' !! c = Some 0.
Lemma from_trans L1 L2 L3 : from L1 L2 -> from L2 L3 -> from L1 L3.
Proof.
  intros H1 H2 y Hy Hu. destruct (H2 y Hy Hu) as (x & Hx & Hxy). destruct (H1 x Hx (used_same _ _ Hxy Hu)) as (w & Hw & Hwx).
  exists w. split; [done|]. by eapply same_trans.
Qed.
Lemma faded_trans (c1 c2 c3 : gmap Z Z) : faded c1 c2 -> faded c2 c3 -> faded c1 c3.
Proof. intros H1 H2 k. destruct (H2 k) as [->|?]; [apply H1|by right]. Qed.

Lemma free_owners C z L b : owners C z L -> b ∈ L -> used z b ->
  exists z' L', Z_Free (ptr_of b) z = Ret z' /\ (user b.2 = 0 -> cells z' = cells z) /\ owners C z' L' /\ framed z z' /\ from L L' /\ faded (cells z) (cells z') /\
    (forall x, x ∈ L -> used z x -> x <> b -> exists y, y ∈ L' /\ same x y) /\
    (forall y, y ∈ L' -> used z' y -> ptr_of y <> ptr_of b).
Proof.
  intros [O1 O2 O3 O4] Hb [Hc Hu]. destruct (zone_around z L b O1 Hb) as (R & HR & HP).
  destruct (Z_Free_spec z b R HR Hc Hu) as (z' & f & Q & Rm & P & R' & E & Hi & Hf & ER & HF & _ & HQ & HPf & _ & _ & Hfr & Hcells & _).
  rewrite Forall_forall in HQ, HPf.
  assert (Hb' : forall x, x ∈ L -> x <> b -> user b.2 <> 0 -> used z x -> user x.2 <> 0 -> user x.2 <> user b.2).
  { intros x Hx Hne Hub Hux H0 Eu. apply Hne. eapply (node_eq z); [apply O1|apply O1|done|done|].
    pose proof (O3 x Hx Hux H0) as E1. pose proof (O3 b Hb (conj Hc Hu) Hub) as E2. rewrite Eu, E2 in E1. injection E1 as E1. unfold ptr_of in *. lia. }
  assert (Hfrom : forall y, y ∈ f :: R' -> ~ is_free y -> exists x, x ∈ L /\ x <> b /\ same x y).
  { intros y Hy Huy. apply elem_of_cons in Hy as [->|Hy]; [done|]. destruct (Forall2_same_elem_r _ _ _ HF Hy) as (x & Hx & Hs).
    assert (HxR : x ∈ R) by (rewrite ER, !elem_of_app; auto). exists x. split_and!; [by rewrite HP; right| |done].
    intros ->. pose proof (ok_nodup _ _ (proj1 HR)) as Hnd. cbn in Hnd. apply NoDup_cons in Hnd as [Hnd _]. by apply Hnd, list_elem_of_fmap_2. }
  assert (Hkeep : forall x, x ∈ L -> used z x -> x <> b -> exists y, y ∈ f :: R' /\ same x y).
  { intros x Hx [_ Hux] Hne. rewrite HP, ER, elem_of_cons, !elem_of_app in Hx. destruct Hx as [->|[Hx|[Hx|Hx]]]; [done|by destruct Hux; apply HQ| |by destruct Hux; apply HPf].
    destruct (Forall2_same_elem_l _ _ _ HF Hx) as (y & Hy & Hs). exists y. split; [by right|done]. }
  exists z', (f :: R'). split_and!; try done.
  - intros E0. rewrite Hcells, E0. done.
  - split; [done|by destruct Hfr as [-> _]| |].
    + intros y Hy Huy H0. destruct (Hfrom y Hy (proj2 Huy)) as (x & Hx & Hne & Hs). pose proof (proj2 (same_used z z' x y Hfr Hs) Huy) as Hux.
      destruct (same_ptr _ _ Hs) as [Ep Eu]. rewrite <- Eu in H0. rewrite <- Ep, <- Eu, Hcells. destruct (user b.2 =? 0) eqn:Eb; breflect; [by apply O3|].
      rewrite lookup_insert_ne; [by apply O3|]. intros E2. by apply (Hb' x).
    + intros c p HC Hc0 Hp H0. rewrite Hcells in Hp.
      assert (Hz : cells z !! c = Some p /\ (user b.2 <> 0 -> c <> user b.2)).
      { destruct (user b.2 =? 0) eqn:Eb; breflect; [done|]. apply lookup_insert_Some in Hp as [[_ <-]|[Hne Hp]]; [done|]. split; [done|]. intros _. congruence. }
      destruct Hz as [Hz Hne]. destruct (O4 c p HC Hc0 Hz H0) as (x & Hx & Hux & Eu & ->).
      assert (Hxb : x <> b) by (intros ->; subst c; by apply Hne). destruct (Hkeep x Hx Hux Hxb) as (y & Hy & Hs).
      exists y. destruct (same_ptr _ _ Hs) as [<- <-]. split_and!; try done. by apply (same_used z z' x y).
  - intros y Hy Huy. destruct (Hfrom y Hy Huy) as (x & Hx & _ & Hs). eauto.
  - intros c. rewrite Hcells. destruct (user b.2 =? 0); [by left|]. destruct (decide (c = user b.2)) as [->|Hne]; [right; by rewrite lookup_insert_eq|left; by rewrite lookup_insert_ne].
  - intros y Hy [_ Huy] Ep. destruct (Hfrom y Hy Huy) as (x & Hx & Hne & Hs). destruct (same_ptr _ _ Hs) as [E1 _]. apply Hne.
    eapply (node_eq z); [apply O1|apply O1|done|done|]. unfold ptr_of in *. lia.
Qed.

(** ** Allocation *)
Lemma step_inversion base rov z r : Z_Malloc_step base rov z = Ret r ->
  r.2 = z \/ exists h, mem z !! rov = Some h /\ PU_PURGELEVEL <= tag h /\ Z_Free (rov + sizeof_memblock) z = Ret r.2.
Proof.
  unfold Z_Malloc_step, getb. destruct (mem z !! rov) as [h|] eqn:Eh; [|done]. cbn [of_option obind].
  destruct (tag h =? PU_FREE); cbn [negb]; [intros [= <-]; by left|]. destruct (tag h <? PU_PURGELEVEL) eqn:Et; breflect; [intros [= <-]; by left|].
  destruct (mem z !! base); [|done]. cbn [of_option obind]. destruct (Z_Free _ z) as [z1| | |] eqn:Ez; try done. cbn [obind].
  destruct (mem z1 !! _) as [h2|]; [|done]. cbn [of_option obind]. destruct (mem z1 !! _); [|done]. cbn [of_option obind]. intros [= <-]. right. by exists h.
Qed.
Lemma step_owners C z start base rov L F r : scan_inv z start base rov L F -> owners C z L -> Z_Malloc_step base rov z = Ret r ->
  exists L', owners C r.2 L' /\ framed z r.2 /\ from L L' /\ faded (cells z) (cells r.2).
Proof.
  intros (Pre & Bs & q & Qt & st & EL & Hinv & -> & _) Ho Hr. apply step_inversion in Hr as [->|(h & Eh & Ht & Hfree)].
  - exists L. split_and!; try done; [|by left]. intros y Hy _. exists y. split; [done|apply same_refl].
  - assert (Hq : q ∈ L) by (rewrite EL, !elem_of_app, elem_of_cons; auto). pose proof (zone_ok_mem _ _ q (proj1 Hinv) Hq) as G. unfold getb in G. rewrite Eh in G.
    injection G as ->. assert (Hu : used z q) by (split; [by eapply used_not_cap; [apply Hinv|..]|unfold is_free, PU_FREE, PU_PURGELEVEL in *; lia]).
    destruct (free_owners C z L q Ho Hq Hu) as (z2 & L' & E & _ & H1 & H2 & H3 & H4 & _). unfold ptr_of in E. rewrite Hfree in E. injection E as <-. eauto.
Qed.
Lemma scan_owners C fuel : forall z want start base rov L F (a : Z) z', scan_inv z start base rov L F -> owners C z L ->
  Z_Malloc_scan fuel want start base rov z = Ret (a, z') -> exists L', owners C z' L' /\ framed z z' /\ from L L' /\ faded (cells z) (cells z').
Proof.
  induction fuel as [|fuel IH]; intros z want start base rov L F a z' Hs Ho E; cbn [Z_Malloc_scan] in E; [done|].
  destruct (rov =? start) eqn:Er; breflect; [done|]. destruct (scan_step _ _ _ _ _ _ Hs Er) as (z1 & b1 & r1 & L1 & F1 & E1 & Hs1 & _).
  destruct (step_owners C z start base rov L F _ Hs Ho E1) as (L1' & Ho1 & Hf1 & Hfr1 & Hc1). cbn [snd] in *. rewrite E1 in E. cbn [obind] in E.
  assert (Hi1 : zone_inv z1 L1) by (by destruct Hs1 as (? & ? & ? & ? & ? & _ & ? & _)). pose proof (zone_unique _ _ _ (ow_inv _ _ _ Ho1) Hi1) as HP.
  assert (Hfrom : from L L1) by (intros y Hy; apply Hfr1; by rewrite HP).
  destruct (getb b1 z1) as [bb| | |]; try done. cbn [obind] in E. destruct (_ || _).
  - destruct (IH _ _ _ _ _ _ _ _ _ Hs1 (owners_perm _ _ _ _ Ho1 Hi1) E) as (L2 & H1 & H2 & H3 & H4).
    exists L2. split_and!; [done|by eapply framed_trans|by eapply from_trans|by eapply faded_trans].
  - injection E as <- <-. exists L1. split_and!; try done. by eapply owners_perm.
Qed.

(** A variable that is given to [Z_Malloc] must not name another block. *)
Definition vacant z (usr : Z) : Prop := cells z !! usr = None \/ cells z !! usr = Some 0.
Lemma faded_vacant z z' usr : faded (cells z) (cells z') -> vacant z usr -> vacant z' usr.
Proof. intros Hf Hv. unfold vacant in *. destruct (Hf usr) as [-> | ->]; auto. Qed.

Record fresh_block (tg usr len ptr : Z) z L z' L' b : Prop := {
  fb_in : b ∈ L';
  fb_used : used z' b;
  fb_ptr : ptr = ptr_of b;
  fb_tag : tag b.2 = tg;
  fb_user : user b.2 = usr;
  fb_size : sizeof_memblock + len <= size b.2;
  fb_others y : y ∈ L' -> used z' y -> y = b \/ exists x, x ∈ L /\ used z x /\ same x y;
  fb_cells c : c <> usr -> cells z' !! c = cells z !! c \/ cells z' !! c = Some 0;
  fb_cell : usr <> 0 -> cells z' !! usr = Some ptr
}.

(** The part of [Z_Malloc] behind the scan. *)
Lemma finish_owners C z b R (tg usr : Z) z' b' R' :
  owners C z (b :: R) -> is_free b -> zone_inv z' (b' :: R') -> is_cap z' b' = false -> tag b'.2 = tg -> user b'.2 = usr ->
  tg <> PU_FREE -> (usr <> 0 -> vacant z usr) -> framed z z' ->
  cells z' = (if usr =? 0 then cells z else <[usr := ptr_of b']> (cells z)) -> retains R R' ->
  owners C z' (b' :: R').
Proof.
  intros [O1 O2 O3 O4] Hb Hi Hc Ht Hu Htg Hv Hf Hcells [K1 K2].
  assert (Hub : used z' b') by (split; [done|unfold is_free; by rewrite Ht]).
  assert (Hback : forall x, x ∈ b :: R -> used z x -> user x.2 <> 0 -> usr <> 0 -> user x.2 <> usr).
  { intros x Hx Hux H0 Hu0 Eu. pose proof (O3 x Hx Hux H0) as E. rewrite Eu in E. destruct (Hv Hu0) as [Hn|Hn]; rewrite Hn in E; [done|].
    injection E as E. pose proof (used_addr z _ x (proj1 O1) Hx O2 (proj1 Hux)). lia. }
  split; [done|by destruct Hf as [-> _]| |].
  - intros y Hy Huy H0. apply elem_of_cons in Hy as [->|Hy].
    + rewrite Hcells, Hu in *. rewrite (proj2 (Z.eqb_neq _ _)) by done. by rewrite lookup_insert_eq.
    + destruct (K2 y Hy (proj2 Huy)) as (x & Hx & Hs). pose proof (proj2 (same_used z z' x y Hf Hs) Huy) as Hux. destruct (same_ptr _ _ Hs) as [Ep Eu].
      rewrite <- Eu in H0. rewrite <- Ep, <- Eu, Hcells. assert (Hx' : x ∈ b :: R) by (by right). destruct (usr =? 0) eqn:E0; breflect; [by apply O3|].
      rewrite lookup_insert_ne; [by apply O3|]. intros E. by apply (Hback x).
  - intros c p HC Hc0 Hp H0. rewrite Hcells in Hp. destruct (decide (c = usr)) as [->|Hne].
    + rewrite (proj2 (Z.eqb_neq _ _)), lookup_insert_eq in Hp by done. injection Hp as <-. exists b'. split_and!; try done. left.
    + assert (Hz : cells z !! c = Some p) by (destruct (usr =? 0); [done|by rewrite lookup_insert_ne in Hp]).
      destruct (O4 c p HC Hc0 Hz H0) as (x & Hx & Hux & Eu & ->). apply elem_of_cons in Hx as [->|Hx]; [by destruct Hux|].
      destruct (K1 x Hx (proj2 Hux)) as (y & Hy & Hs). exists y. destruct (same_ptr _ _ Hs) as [<- <-]. split_and!; try done; [by right|by apply (same_used z z' x y)].
Qed.

Lemma malloc_owners C fuel rawid (len tg usr : Z) z L :
  owners C z L -> (length L <= fuel)%nat -> 0 <= len <= INT_MAX - 64 -> tg <> PU_FREE -> (usr <> 0 -> vacant z usr) ->
  (exists msg, Z_Malloc fuel rawid len tg usr z = Fatal msg) \/
  exists ptr z' L' b, Z_Malloc fuel rawid len tg usr z = Ret (ptr, z') /\ owners C z' L' /\ framed z z' /\ fresh_block tg usr len ptr z L z' L' b /\
    (forall x, x ∈ L -> unpurgable x -> exists y, y ∈ L' /\ same x y /\ y <> b).
Proof.
  intros Ho Hfuel Hlen Htg Hv. pose proof (ow_inv _ _ _ Ho) as Hinv. pose proof sizeof_memblock_pos as Hhdr.
  assert (Hma : 4 <= MEM_ALIGN <= 8) by (unfold MEM_ALIGN, sizeof_ptr; destruct the_abi; lia).
  destruct (align_size_spec len) as (Hal & Hdiv); [lia|unfold INT_MAX in Hlen; cbn; lia|].
  assert (Hwant : i32 (align_size len + sizeof_memblock) = align_size len + sizeof_memblock).
  { apply wraps_id; [lia|]. unfold fits_s, INT_MAX in *. cbn. lia. }
  destruct (malloc_start z L Hinv) as (r & p & base & bb & L1 & Gr & Gp & Ebase & Gbb & Hs & W & lst & EL1 & _ & Hperm & _). rewrite <- EL1 in Hperm.
  unfold Z_Malloc. rewrite Hwant, Gr. cbn [obind]. rewrite Gp. cbn [obind]. rewrite <- Ebase, Gbb. cbn [obind].
  assert (Hi1 : zone_inv z L1) by (by destruct Hs as (? & ? & ? & ? & ? & _ & ? & _)). pose proof (owners_perm C z L L1 Ho Hi1) as Ho1.
  destruct (scan_ok fuel z (align_size len + sizeof_memblock) _ _ _ _ _ Hs) as [(msg & -> & _)|(z1 & b & R & Hrun & Hinv1 & Hfree & Hsz & Hf1 & He1)];
    [by rewrite <- Hperm|left; by exists msg|].
  destruct (scan_owners C _ _ _ _ _ _ _ _ _ _ Hs Ho1 Hrun) as (L2 & Ho2 & _ & Hfr2 & Hc2). pose proof (owners_perm _ _ _ _ Ho2 Hinv1) as Ho3.
  rewrite Hrun. cbn [obind].
  destruct (malloc_finish z1 b R (align_size len + sizeof_memblock) tg usr rawid Hinv1 Hfree) as
    [(msg & -> & _)|(z2 & b2 & R2 & Hrun2 & Hinv2 & Hb2 & Ht & Hu & Hw & Hf2 & Hcells & Hr2)]; try done; [lia|apply Z.divide_add_r; [done|apply sizeof_memblock_align]|left; by exists msg|].
  right. exists (b2.1 + sizeof_memblock), z2, (b2 :: R2), b2. split; [exact Hrun2|].
  assert (Ho4 : owners C z2 (b2 :: R2)).
  { apply (finish_owners C z1 b R tg usr z2 b2 R2 Ho3); try done. intros H0. by eapply faded_vacant; [|apply Hv]. }
  assert (Hf : framed z z2) by (by eapply framed_trans). split; [exact Ho4|]. split; [done|]. split.
  - split; try done.
    + left.
    + split; [done|unfold is_free; by rewrite Ht].
    + lia.
    + intros y Hy Huy. apply elem_of_cons in Hy as [->|Hy]; [by left|right]. destruct (proj2 Hr2 y Hy (proj2 Huy)) as (w & Hw' & Hwy).
      destruct (proj2 He1 w ltac:(by right) (used_same _ _ Hwy (proj2 Huy))) as (x & Hx & Hxw). exists x. rewrite Hperm. split_and!; [done| |by eapply same_trans].
      apply (same_used z z2 x y Hf); [by eapply same_trans|done].
    + intros c Hc. rewrite Hcells. destruct (usr =? 0); [apply Hc2|]. rewrite lookup_insert_ne by done. apply Hc2.
    + intros H0. rewrite Hcells, (proj2 (Z.eqb_neq _ _)) by done. by rewrite lookup_insert_eq.
  - intros x Hx Hux. rewrite Hperm in Hx. destruct (proj1 He1 x Hx Hux) as (y & Hy & Hxy). apply elem_of_cons in Hy as [->|Hy].
    + exfalso. by apply (proj1 (unpurgable_same _ _ Hxy Hux)).
    + destruct (proj1 Hr2 y Hy (proj1 (unpurgable_same _ _ Hxy Hux))) as (w & Hw' & Hyw). exists w. split_and!; [by right|by eapply same_trans|]. intros ->.
      pose proof (ok_nodup _ _ (proj1 (ow_inv _ _ _ Ho4))) as Hnd. cbn in Hnd. apply NoDup_cons in Hnd as [Hnd _]. by apply Hnd, list_elem_of_fmap_2.
Qed.

(** ** Tags and owners that change *)
Lemma retag_owners C z L b (tg : Z) : owners C z L -> b ∈ L -> used z b -> tg <> PU_FREE -> (PU_PURGELEVEL <= tg -> user b.2 <> 0) ->
  exists z' L' b', Z_ChangeTag2 (ptr_of b) tg z = Ret z' /\ owners C z' L' /\ framed z z' /\ cells z' = cells z /\
    b' ∈ L' /\ used z' b' /\ ptr_of b' = ptr_of b /\ user b'.2 = user b.2 /\ size b'.2 = size b.2 /\ tag b'.2 = tg /\
    (forall y, y ∈ L' -> used z' y -> y = b' \/ y ∈ L /\ y <> b) /\ (forall x, x ∈ L -> used z x -> x <> b -> x ∈ L' /\ used z' x).
Proof.
  intros [O1 O2 O3 O4] Hb [Hc Hu] Ht Hp. destruct (zone_around z L b O1 Hb) as (R & HR & HP).
  destruct (ChangeTag2_ok z b R tg HR Hc Hu Ht Hp) as (z' & Hrun & Hi & Hf & Hcells). set (b' := with_payload b (user b.2) tg ZONEID) in *.
  assert (Hub : used z' b') by (split; [by rewrite (framed_cap z)|done]).
  assert (HnR : b ∉ R) by (pose proof (ok_nodup _ _ (proj1 HR)) as Hnd; cbn in Hnd; apply NoDup_cons in Hnd as [Hnd _]; intros H; by apply Hnd, list_elem_of_fmap_2).
  assert (HR' : forall x, x ∈ R -> (used z' x <-> used z x)) by (intros x _; unfold used; by rewrite (framed_cap z z')).
  exists z', (b' :: R), b'. split; [exact Hrun|]. split; [split|split_and!; try done].
  - done.
  - by destruct Hf as [-> _].
  - intros x Hx Hux H0. rewrite Hcells. apply elem_of_cons in Hx as [->|Hx]; [by apply (O3 b)|]. apply O3; [rewrite HP; by right|by apply HR'|done].
  - intros c p HC Hc0 E H0. rewrite Hcells in E. destruct (O4 c p HC Hc0 E H0) as (x & Hx & Hux & Eu & ->). rewrite HP in Hx. apply elem_of_cons in Hx as [->|Hx].
    + exists b'. split_and!; try done. left.
    + exists x. split_and!; try done; [by right|by apply HR'].
  - left.
  - intros y Hy Huy. apply elem_of_cons in Hy as [->|Hy]; [by left|right]. split; [rewrite HP; by right|]. by intros ->.
  - intros x Hx Hux Hne. rewrite HP in Hx. apply elem_of_cons in Hx as [->|Hx]; [done|]. split; [by right|by apply HR'].
Qed.
Lemma reuser_owners C z L b (usr : Z) : owners C z L -> b ∈ L -> used z b -> user b.2 <> 0 -> usr <> 0 -> (forall x, x ∈ L -> used z x -> user x.2 <> usr) -> ~ C (user b.2) ->
  exists z' L' b', Z_ChangeUser (ptr_of b) usr z = Ret z' /\ owners C z' L' /\ framed z z' /\ cells z' = <[usr := ptr_of b]> (cells z) /\
    b' ∈ L' /\ used z' b' /\ ptr_of b' = ptr_of b /\ user b'.2 = usr /\ size b'.2 = size b.2 /\ tag b'.2 = tag b.2 /\
    (forall y, y ∈ L' -> used z' y -> y = b' \/ y ∈ L /\ y <> b) /\ (forall x, x ∈ L -> used z x -> x <> b -> x ∈ L' /\ used z' x).
Proof.
  intros Ho Hb [Hc Hu] Hu0 Hn Hv HnC. pose proof Ho as [O1 O2 O3 O4]. destruct (zone_around z L b O1 Hb) as (R & HR & HP).
  destruct (ChangeUser_ok z b R usr HR Hc Hu Hn) as (z' & Hrun & Hi & Hf & Hcells). set (b' := with_payload b usr (tag b.2) ZONEID) in *.
  assert (Hub : used z' b') by (split; [by rewrite (framed_cap z)|done]).
  assert (HnR : b ∉ R) by (pose proof (ok_nodup _ _ (proj1 HR)) as Hnd; cbn in Hnd; apply NoDup_cons in Hnd as [Hnd _]; intros H; by apply Hnd, list_elem_of_fmap_2).
  assert (HR' : forall x, (used z' x <-> used z x)) by (intros x; unfold used; by rewrite (framed_cap z z')).
  exists z', (b' :: R), b'. split; [exact Hrun|]. split; [split|split_and!; try done].
  - done.
  - by destruct Hf as [-> _].
  - intros x Hx Hux H0. rewrite Hcells. apply elem_of_cons in Hx as [->|Hx]; [by rewrite lookup_insert_eq|]. assert (HxL : x ∈ L) by (rewrite HP; by right).
    apply HR' in Hux. rewrite lookup_insert_ne; [by apply O3|]. intros E. by apply (Hv x HxL Hux).
  - intros c p HC Hc0 E H0. rewrite Hcells in E. apply lookup_insert_Some in E as [[<- <-]|[Hne E]].
    + exists b'. split_and!; try done. left.
    + destruct (O4 c p HC Hc0 E H0) as (x & Hx & Hux & Eu & ->). rewrite HP in Hx. apply elem_of_cons in Hx as [->|Hx]; [by subst c|].
      exists x. split_and!; try done; [by right|by apply HR'].
  - left.
  - intros y Hy Huy. apply elem_of_cons in Hy as [->|Hy]; [by left|right]. split; [rewrite HP; by right|]. by intros ->.
  - intros x Hx Hux Hne. rewrite HP in Hx. apply elem_of_cons in Hx as [->|Hx]; [done|]. split; [by right|by apply HR'].
Qed.
End owners.
