(* ===== verification/ZoneTheorems.v ===== *)
(** * The zone allocator: what it promises

    The theorems of [ZoneFacts], [ZoneMalloc] and [ZoneWalks] in the form a
    client of the allocator uses them, and the zones a client can reach. *)
From S2P Require Import Prelude Zone ZoneFacts ZoneMalloc ZoneWalks.
#[local] Open Scope doom_scope.

Section client.
Context {A : Arch}.
Implicit Types (z : zone) (L : list node) (b x y : node).

(** A pointer the zone has handed out and not taken back. *)
Definition live z (ptr : Z) : Prop :=
  exists L b, zone_inv z L /\ b ∈ L /\ is_cap z b = false /\ ~ is_free b /\ ptr = b.1 + sizeof_memblock.

(** The zones a client reaches that frees and retags only live pointers,
    never asks for the tag [PU_FREE] and names a real owner variable. *)
Inductive zone_reach (raw : Z -> memblock) (base bytes : Z) : zone -> Prop :=
| reach_init : zone_reach raw base bytes (Z_Init raw base bytes)
| reach_malloc z fuel rawid len tg usr ptr z' :
    zone_reach raw base bytes z -> 0 <= len <= INT_MAX - 64 -> tg <> PU_FREE ->
    Z_Malloc fuel rawid len tg usr z = Ret (ptr, z') -> zone_reach raw base bytes z'
| reach_free z ptr z' :
    zone_reach raw base bytes z -> live z ptr -> Z_Free ptr z = Ret z' -> zone_reach raw base bytes z'
| reach_freetags z fuel lo hi z' :
    zone_reach raw base bytes z -> Z_FreeTags fuel lo hi z = Ret z' -> zone_reach raw base bytes z'
| reach_changetag z ptr tg z' :
    zone_reach raw base bytes z -> live z ptr -> tg <> PU_FREE ->
    Z_ChangeTag2 ptr tg z = Ret z' -> zone_reach raw base bytes z'
| reach_changeuser z ptr usr z' :
    zone_reach raw base bytes z -> live z ptr -> usr <> 0 ->
    Z_ChangeUser ptr usr z = Ret z' -> zone_reach raw base bytes z'.

Lemma live_around z ptr : live z ptr ->
  exists b R, zone_inv z (b :: R) /\ is_cap z b = false /\ ~ is_free b /\ ptr = b.1 + sizeof_memblock.
Proof.
  intros (L & b & Hinv & Hb & Hc & Hu & ->). destruct (zone_around z L b Hinv Hb) as (R & HR & _). eauto 6.
Qed.

Lemma ChangeTag2_owner z b R tg z' :
  zone_inv z (b :: R) -> Z_ChangeTag2 (b.1 + sizeof_memblock) tg z = Ret z' -> PU_PURGELEVEL <= tg -> user b.2 <> 0.
Proof.
  intros [Hok _]. unfold Z_ChangeTag2. replace (b.1 + sizeof_memblock - sizeof_memblock) with b.1 by lia.
  rewrite (zone_ok_mem _ _ b Hok ltac:(left)). cbn [obind]. destruct (negb _); [done|].
  destruct ((tg >=? PU_PURGELEVEL) && (user b.2 =? 0)) eqn:E; [done|].
  apply andb_false_iff in E as [E|E]; breflect; [lia|done].
Qed.

Lemma reach_inv raw base bytes z :
  (MEM_ALIGN | base) -> sizeof_memzone + sizeof_memblock <= bytes <= INT_MAX ->
  zone_reach raw base bytes z -> exists L, zone_inv z L.
Proof.
  intros Hal Hsz. induction 1 as [|z fuel rawid len tg usr ptr z' _ [L HL] Hlen Htg Hrun|z ptr z' _ _ Hlive Hrun
    |z fuel lo hi z' _ [L HL] Hrun|z ptr tg z' _ _ Hlive Htg Hrun|z ptr usr z' _ _ Hlive Hu Hrun].
  - eexists. by apply Z_Init_inv.
  - apply (Z_Malloc_more _ (fuel + length L)) in Hrun; [|lia].
    destruct (Z_Malloc_spec (fuel + length L) rawid len tg usr z L HL) as
      (W & lst & _ & [(msg & E & _)|(p & z2 & E & _ & (b & R & Hb & _))]); [lia|done|done|congruence|].
    rewrite Hrun in E. injection E as -> ->. eauto.
  - destruct (live_around z ptr Hlive) as (b & R & HR & Hc & Hb & ->).
    destruct (Z_Free_spec z b R HR Hc Hb) as (z2 & f & Q & Rm & P & R' & E & Hi & _).
    rewrite Hrun in E. injection E as ->. eauto.
  - apply (Z_FreeTags_more _ (fuel + length L)) in Hrun; [|lia].
    destruct (FreeTags_ok z L lo hi (fuel + length L) HL) as (z2 & L' & E & Hi & _); [lia|].
    rewrite Hrun in E. injection E as ->. eauto.
  - destruct (live_around z ptr Hlive) as (b & R & HR & Hc & Hb & ->).
    pose proof (ChangeTag2_owner z b R tg z' HR Hrun).
    destruct (ChangeTag2_ok z b R tg HR Hc Hb Htg) as (z2 & E & Hi & _); [done|].
    rewrite Hrun in E. injection E as ->. eauto.
  - destruct (live_around z ptr Hlive) as (b & R & HR & Hc & Hb & ->).
    destruct (ChangeUser_ok z b R usr HR Hc Hb Hu) as (z2 & E & Hi & _).
    rewrite Hrun in E. injection E as ->. eauto.
Qed.

(** C6: every zone a client can reach from [Z_Init] satisfies the zone
    invariant (its blocks tile the zone, are linked both ways, no two free
    neighbours), so [Z_CheckHeap] never reports an error and [Z_FreeMemory]
    returns exactly the bytes in free and purgable blocks. *)
Theorem zone_reach_ok raw base bytes z :
  (MEM_ALIGN | base) -> sizeof_memzone + sizeof_memblock <= bytes <= INT_MAX ->
  zone_reach raw base bytes z ->
  exists c l, zone_inv z (c :: l) /\ is_cap z c = true /\
    forall fuel, (S (length l) <= fuel)%nat ->
      Z_CheckHeap fuel z = Ret tt /\ Z_FreeMemory fuel z = Ret (free_bytes l).
Proof.
  intros Hal Hsz Hr. destruct (reach_inv raw base bytes z Hal Hsz Hr) as (L & HL).
  destruct (zone_from_cap z L HL) as (c & l & Hi & _ & Hc & Hne). exists c, l. split_and!; try done.
  intros fuel Hf. split; [by apply (CheckHeap_ok z (c :: l))|]. by apply (FreeMemory_at z c l).
Qed.

(** C5: [Z_Malloc] on a zone that satisfies the invariant returns an aligned
    region of the zone that is large enough and marked for its owner, loses or
    changes no unpurgable block and makes up no used one. It stops with an
    error only when a purgable block has no owner, or when, in the order in which
    the scan goes around from the rover, there are no free and purgable blocks in a
    row that together are large enough. The scan ends before the block it started
    behind: a row across that place, or with that block in it, is not found. *)
Theorem Z_Malloc_correct fuel rawid (len tg usr : Z) z L :
  zone_inv z L -> (length L <= fuel)%nat -> 0 <= len <= INT_MAX - 64 -> tg <> PU_FREE ->
  exists W last, scan_order z L W last /\
  ((exists msg, Z_Malloc fuel rawid len tg usr z = Fatal msg /\
     (usr = 0 /\ PU_PURGELEVEL <= tg \/ ~ row_in (align_size len + sizeof_memblock) W)) \/
  exists ptr z', Z_Malloc fuel rawid len tg usr z = Ret (ptr, z') /\ framed z z' /\
    alloc_spec z L len tg usr ptr z').
Proof. apply Z_Malloc_spec. Qed.

(** C39: [Z_Free] of a live block succeeds and keeps the invariant; its space
    ends up in a free block at least as large, its owner variable is cleared,
    every other used block stays as it was and no used block appears. *)
Theorem Z_Free_correct z L b :
  zone_inv z L -> b ∈ L -> is_cap z b = false -> ~ is_free b ->
  exists z' f L', Z_Free (b.1 + sizeof_memblock) z = Ret z' /\ zone_inv z' L' /\ framed z z' /\
    f ∈ L' /\ is_free f /\ size b.2 <= size f.2 /\
    cells z' = (if user b.2 =? 0 then cells z else <[user b.2 := 0]> (cells z)) /\
    (forall x, x ∈ L -> ~ is_free x -> x <> b -> exists y, y ∈ L' /\ same x y) /\
    (forall y, y ∈ L' -> ~ is_free y -> exists x, x ∈ L /\ x <> b /\ same x y).
Proof.
  intros Hinv Hb Hc Hu. destruct (zone_around z L b Hinv Hb) as (R & HR & HP).
  destruct (Z_Free_spec z b R HR Hc Hu) as
    (z' & f & Q & Rm & P & R' & Hrun & Hi & Hf & E & HF & _ & HQ & HPf & _ & Hsz & Hfr & Hcells & _).
  exists z', f, (f :: R'). split_and!; try done; [left|..].
  - intros x Hx Hux Hne. rewrite HP, E, elem_of_cons, !elem_of_app in Hx. rewrite Forall_forall in HQ, HPf.
    destruct Hx as [->|[Hx|[Hx|Hx]]]; [done|by destruct Hux; apply HQ| |by destruct Hux; apply HPf].
    destruct (Forall2_same_elem_l _ _ _ HF Hx) as (y & Hy & Hs). exists y. split; [by right|done].
  - intros y Hy Huy. apply elem_of_cons in Hy as [->|Hy]; [done|].
    destruct (Forall2_same_elem_r _ _ _ HF Hy) as (x & Hx & Hs).
    assert (HxR : x ∈ R) by (rewrite E, !elem_of_app; auto).
    exists x. split_and!; [by rewrite HP; right| |done]. intros ->.
    pose proof (ok_nodup _ _ (proj1 HR)) as Hnd. cbn in Hnd. apply NoDup_cons in Hnd as [Hnd _].
    by apply Hnd, list_elem_of_fmap_2.
Qed.

(** a second [Z_Free] of the same pointer is always caught: the first
    clears the block's id, and neither merge restores it. *)
Theorem Z_Free_twice ptr z z' :
  Z_Free ptr z = Ret z' -> Z_Free ptr z' = Fatal "Z_Free: freed a pointer without ZONEID".
Proof.
  intros H. destruct (Z_Free_clears ptr z z' H) as (h & Hh & E).
  unfold Z_Free. rewrite Hh. cbn [obind]. by rewrite E.
Qed.

(** C40: [Z_FreeTags] terminates, keeps the invariant, leaves no used block
    with a tag of the range, and touches no used block outside it. *)
Theorem Z_FreeTags_correct z L (lo hi : Z) fuel :
  zone_inv z L -> (length L <= fuel)%nat ->
  exists z' L', Z_FreeTags fuel lo hi z = Ret z' /\ zone_inv z' L' /\ framed z z' /\
    swept lo hi L L' /\ forall x, x ∈ L' -> is_cap z' x = false -> ~ tagged lo hi x.
Proof. apply FreeTags_ok. Qed.
End client.

(** ** A zone of 64 KiB on a 64 bit machine *)
#[local] Instance demo_arch : Arch := LP64.
Definition demo_raw (a : Z) : memblock := mk_block 0 0 0 0 0 0.
Definition demo_zone : zone := Z_Init demo_raw 4096 65536.
Definition demo_list : list node := [init_cap demo_raw 4096; init_block demo_raw 4096 65536].

Lemma demo_inv : zone_inv demo_zone demo_list.
Proof. apply Z_Init_inv; [by exists 512|]. unfold INT_MAX. cbn. lia. Qed.

(** The zone after one allocation of 100 bytes at level tag for owner 16. *)
Definition demo_malloc : outcome (Z * zone) := Z_Malloc 2 (fun _ => 0) 100 PU_LEVEL 16 demo_zone.
Definition demo_zone1 : zone := match demo_malloc with Ret (_, z) => z | _ => demo_zone end.
Definition demo_ptr : Z := 4192.
Definition demo_block : node := (4152, mk_block 144 16 PU_LEVEL ZONEID 4296 4104).
Definition demo_list1 : list node :=
  [demo_block; (4296, mk_block 65336 0 PU_FREE 0 4104 4152); (4104, mk_block 0 4096 PU_STATIC 0 4152 4296)].

Lemma demo_malloc_run : demo_malloc = Ret (demo_ptr, demo_zone1).
Proof. vm_compute. reflexivity. Qed.

Lemma zone_reach_ok_witness :
  exists c l, zone_inv demo_zone1 (c :: l) /\ is_cap demo_zone1 c = true /\
    forall fuel, (S (length l) <= fuel)%nat ->
      Z_CheckHeap fuel demo_zone1 = Ret tt /\ Z_FreeMemory fuel demo_zone1 = Ret (free_bytes l).
Proof.
  apply (zone_reach_ok demo_raw 4096 65536 demo_zone1).
  - exists 512. reflexivity.
  - unfold INT_MAX. cbn. lia.
  - apply (reach_malloc demo_raw 4096 65536 demo_zone 2 (fun _ => 0) 100 PU_LEVEL 16 demo_ptr demo_zone1).
    + apply reach_init.
    + unfold INT_MAX. lia.
    + discriminate.
    + exact demo_malloc_run.
Defined.

Lemma Z_Malloc_correct_witness :
  exists ptr z', Z_Malloc 2 (fun _ => 0) 100 PU_LEVEL 16 demo_zone = Ret (ptr, z') /\ framed demo_zone z' /\
    alloc_spec demo_zone demo_list 100 PU_LEVEL 16 ptr z'.
Proof.
  destruct (Z_Malloc_correct 2 (fun _ => 0) 100 PU_LEVEL 16 demo_zone demo_list) as (W & lst & _ & [(msg & E & _)|H]).
  - exact demo_inv.
  - cbn. lia.
  - unfold INT_MAX. lia.
  - discriminate.
  - pose proof demo_malloc_run as Hrun. unfold demo_malloc in Hrun. congruence.
  - exact H.
Defined.

Lemma demo_inv1 : zone_inv demo_zone1 demo_list1.
Proof.
  split; [split|].
  - repeat constructor; vm_compute; reflexivity.
  - apply (bool_decide_unpack _). vm_compute. exact I.
  - apply (bool_decide_unpack _). vm_compute. exact I.
  - repeat split; vm_compute; reflexivity.
  - repeat split; vm_compute; reflexivity.
  - apply Forall_forall. unfold demo_list1. intros x Hx. rewrite !elem_of_cons, elem_of_nil in Hx.
    destruct Hx as [->|[->|[->|[]]]]; [| |vm_compute; reflexivity];
      (unfold block_ok; match goal with |- context [is_cap ?z ?b] => change (is_cap z b) with false end;
       split_and!; [vm_compute; discriminate..|(by exists 519) || (by exists 537)|by vm_compute|]);
      vm_compute; done.
  - unfold demo_list1. intros x y Hx Hy Hcx Hcy Hne. rewrite !elem_of_cons, elem_of_nil in Hx, Hy.
    destruct Hx as [->|[->|[->|[]]]], Hy as [->|[->|[->|[]]]]; vm_compute in Hcx, Hcy;
      try discriminate; vm_compute in Hne; try (by destruct Hne); vm_compute; intuition discriminate.
  - vm_compute. split; [reflexivity|discriminate].
  - by exists 512.
  - apply (bool_decide_unpack _). vm_compute. exact I.
  - repeat split; unfold not_both_free, is_free, PU_FREE, PU_LEVEL; cbn; unfold PU_LEVEL, PU_STATIC, PU_FREE; lia.
Qed.

Lemma Z_Free_correct_witness :
  exists z' f L', Z_Free (demo_block.1 + sizeof_memblock) demo_zone1 = Ret z' /\ zone_inv z' L' /\
    framed demo_zone1 z' /\ f ∈ L' /\ is_free f /\ size demo_block.2 <= size f.2 /\
    cells z' = (if user demo_block.2 =? 0 then cells demo_zone1
                else <[user demo_block.2 := 0]> (cells demo_zone1)) /\
    (forall x, x ∈ demo_list1 -> ~ is_free x -> x <> demo_block -> exists y, y ∈ L' /\ same x y) /\
    (forall y, y ∈ L' -> ~ is_free y -> exists x, x ∈ demo_list1 /\ x <> demo_block /\ same x y).
Proof.
  apply (Z_Free_correct demo_zone1 demo_list1 demo_block).
  - exact demo_inv1.
  - left.
  - reflexivity.
  - discriminate.
Defined.

Lemma Z_Free_twice_witness :
  exists z', Z_Free demo_ptr demo_zone1 = Ret z' /\
    Z_Free demo_ptr z' = Fatal "Z_Free: freed a pointer without ZONEID".
Proof.
  destruct (Z_Free demo_ptr demo_zone1) as [z'| | |] eqn:E;
    [|vm_compute in E; discriminate..].
  exists z'. split; [reflexivity|]. exact (Z_Free_twice demo_ptr demo_zone1 z' E).
Defined.

Lemma Z_FreeTags_correct_witness :
  exists z' L', Z_FreeTags 3 PU_LEVEL PU_LEVSPEC demo_zone1 = Ret z' /\ zone_inv z' L' /\ framed demo_zone1 z' /\
    swept PU_LEVEL PU_LEVSPEC demo_list1 L' /\
    forall x, x ∈ L' -> is_cap z' x = false -> ~ tagged PU_LEVEL PU_LEVSPEC x.
Proof.
  apply (Z_FreeTags_correct demo_zone1 demo_list1 PU_LEVEL PU_LEVSPEC 3).
  - exact demo_inv1.
  - cbn. lia.
Defined.
