(* ===== verification/Stdio.v ===== *)
(** * The C library layer of the port (src/commands/doom/std.c)

    The port implements [fopen], [fread] and their like on the file
    descriptor calls of the bootloader. Those calls are an interface here:
    [FdOps] has the operations on the one open file a client works with, and
    [RegularFile] what they do on a regular file. *)
From Stdlib Require Import Ascii.
From S2P Require Import Prelude.
#[local] Open Scope doom_scope.

Definition O_RDONLY : Z := 0.
Definition O_WRONLY : Z := 1.
Definition O_TRUNC : Z := 0x200.
Definition SEEK_SET : Z := 0.
Definition SEEK_CUR : Z := 1.
Definition SEEK_END : Z := 2.

(** [write], [read] and [lseek] on the descriptor: a count or a negative
    error code; [fd_read] also gives the bytes it put into the buffer. *)
Class FdOps (F : Type) := {
  fd_write : list Z -> F -> Z * F;
  fd_read : Z -> F -> Z * list Z * F;
  fd_lseek : Z -> Z -> F -> Z * F
}.

(** What a client can see of a regular file: its bytes, the position, and
    how large the file system lets it grow. *)
Record fview : Type := mk_view { fdata : list Z; fpos : nat; flimit : nat }.

Class RegularFile (F : Type) {ops : FdOps F} (view : F -> fview) : Prop := {
  limit_int f : Z.of_nat (flimit (view f)) <= INT_MAX;
  append_law f bs :
    fpos (view f) = length (fdata (view f)) ->
    (length (fdata (view f)) + length bs <= flimit (view f))%nat ->
    exists f', fd_write bs f = (Z.of_nat (length bs), f') /\
      view f' = mk_view (fdata (view f) ++ bs) (fpos (view f) + length bs) (flimit (view f));
  read_law f n :
    0 <= n ->
    let got := take (Z.to_nat n) (drop (fpos (view f)) (fdata (view f))) in
    exists f', fd_read n f = (Z.of_nat (length got), got, f') /\
      view f' = mk_view (fdata (view f)) (fpos (view f) + length got) (flimit (view f));
  tell_law f :
    exists f', fd_lseek 0 SEEK_CUR f = (Z.of_nat (fpos (view f)), f') /\ view f' = view f
}.

Section std.
Context {A : Arch} {F : Type} {ops : FdOps F}.

(** The result [errno_wrap] returns, and the new [errno]. *)
Definition errno_wrap (ret errno : Z) : Z * Z :=
  if ret >=? 0 then (ret, errno) else (-1, i32 ret).

(** The flags [fopen] passes to [open]: they depend on the file name only. *)
Definition strchr (s : string) (c : ascii) : bool :=
  existsb (Ascii.eqb c) (String.list_ascii_of_string s).
Definition fopen_flags (filename mode : string) : Z :=
  if strchr filename "r"%char then O_RDONLY
  else if strchr filename "w"%char then Z.lor O_WRONLY O_TRUNC
  else 0.

(** [fopen] on an [open] that gives a descriptor or an error code: the file
    pointer is the descriptor, [NULL] is 0. *)
Definition fopen (sys_open : string -> Z -> Z) (filename mode : string) (errno : Z) : Z * Z :=
  let fd := i32 (sys_open filename (fopen_flags filename mode)) in
  let '(r, errno) := errno_wrap fd errno in
  if r <? 0 then (0, errno) else (wrapu word_bits fd, errno).

(** The count both transfer functions return, a [size_t]. *)
Definition count_of (ret size : Z) : Z :=
  wrapu word_bits (if ret <? 0 then ret else ret / size).

Definition fwrite (ptr : list Z) (size nmemb : Z) (f : F) (errno : Z) : Z * F * Z :=
  let '(r, f) := fd_write (take (Z.to_nat (wrapu word_bits (size * nmemb))) ptr) f in
  let '(ret, errno) := errno_wrap r errno in
  (count_of (i32 ret) size, f, errno).

Definition fread (size nmemb : Z) (f : F) (errno : Z) : Z * list Z * F * Z :=
  let '(r, bs, f) := fd_read (wrapu word_bits (size * nmemb)) f in
  let '(ret, errno) := errno_wrap r errno in
  (count_of (i32 ret) size, bs, f, errno).

Definition fseek (offset whence : Z) (f : F) (errno : Z) : Z * F * Z :=
  let '(r, f) := fd_lseek offset whence f in
  let '(ret, errno) := errno_wrap r errno in
  (if ret <? 0 then -1 else 0, f, errno).

Definition ftell (f : F) (errno : Z) : Z * F * Z :=
  let '(r, f) := fd_lseek 0 SEEK_CUR f in
  let '(ret, errno) := errno_wrap r errno in
  (ret, f, errno).

Lemma word_ge : 32 <= word_bits.
Proof. unfold word_bits. destruct the_abi; lia. Qed.

Lemma wrapu_small x : 0 <= x <= INT_MAX -> wrapu word_bits x = x.
Proof.
  intros H. apply wrapu_id. unfold fits_u, INT_MAX in *.
  pose proof (Z.pow_le_mono_r 2 32 word_bits). pose proof word_ge. lia.
Qed.

(** An error code of [read] or [write] comes back as the largest
    [size_t], so that the test [< 1] of the callers does not see it. *)
Theorem fread_error_is_not_short (n : Z) (f f' : F) (bs : list Z) (e : Z) :
  INT_MIN <= e < 0 -> fd_read (wrapu word_bits n) f = (e, bs, f') ->
  exists m, fread 1 n f 0 = (m, bs, f', e) /\ m = 2 ^ word_bits - 1 /\ (m <? 1) = false.
Proof.
  intros He Hr. exists (2 ^ word_bits - 1). pose proof word_ge as Hw.
  pose proof (Z.pow_le_mono_r 2 32 word_bits ltac:(lia) Hw).
  unfold fread. replace (1 * n) with n by lia. rewrite Hr. unfold errno_wrap.
  replace (e >=? 0) with false by (symmetry; rewrite Z.geb_leb; apply Z.leb_gt; lia).
  split_and!; [|done|apply Z.ltb_ge; lia].
  assert (Ee : i32 e = e) by (apply wraps_id; [lia|unfold fits_s, INT_MIN in *; cbn; lia]).
  rewrite Ee. do 3 f_equal. change (i32 (-1)) with (-1). unfold count_of. cbn [Z.ltb Z.compare].
  unfold wrapu. symmetry. apply (Z.mod_unique_pos _ _ (-1)); lia.
Qed.

(** The mode string has no effect: a file whose name has neither an r
    nor a w in it is opened read only, also for writing. *)
Theorem fopen_ignores_mode sys_open filename mode mode' errno :
  fopen sys_open filename mode errno = fopen sys_open filename mode' errno /\
  (strchr filename "w"%char = false ->
   fopen sys_open filename mode errno =
     let fd := i32 (sys_open filename O_RDONLY) in
     if fd <? 0 then (0, fd) else (wrapu word_bits fd, errno)).
Proof.
  split; [done|]. intros Hw. unfold fopen, fopen_flags. rewrite Hw.
  replace (if strchr filename "r"%char then O_RDONLY else _) with O_RDONLY
    by (by destruct (strchr filename "r"%char)).
  cbv zeta. set (fd := i32 _). unfold errno_wrap. rewrite Z.geb_leb, Z.leb_antisym.
  destruct (fd <? 0) eqn:E; cbn [negb]; [|by rewrite E].
  cbn. f_equal. apply wraps_wraps. lia.
Qed.
End std.

(** A file in memory: the concrete file of the examples. *)
#[export] Instance memfd_ops : FdOps fview := {
  fd_write bs f :=
    if bool_decide (length (fdata f) + length bs <= flimit f)%nat
    then (Z.of_nat (length bs),
          mk_view (take (fpos f) (fdata f) ++ bs ++ drop (fpos f + length bs) (fdata f))
                  (fpos f + length bs) (flimit f))
    else (-28, f);
  fd_read n f :=
    let got := take (Z.to_nat n) (drop (fpos f) (fdata f)) in
    (Z.of_nat (length got), got, mk_view (fdata f) (fpos f + length got) (flimit f));
  fd_lseek off whence f :=
    let p := (if whence =? SEEK_SET then 0 else if whence =? SEEK_CUR then Z.of_nat (fpos f)
              else Z.of_nat (length (fdata f))) + off in
    if p <? 0 then (-22, f) else (p, mk_view (fdata f) (Z.to_nat p) (flimit f))
}.

(** A limit beyond what an [int] counts promises nothing. *)
Definition memfd_view (f : fview) : fview :=
  mk_view (fdata f) (fpos f) (if Z.of_nat (flimit f) <=? INT_MAX then flimit f else 0).

#[export] Instance memfd_regular : RegularFile fview memfd_view.
Proof.
  split.
  - intros f. cbn. unfold INT_MAX. destruct (Z.leb_spec (Z.of_nat (flimit f)) 2147483647); cbn; lia.
  - intros f bs. cbn. intros Hp Hl.
    assert (Hl' : (length (fdata f) + length bs <= flimit f)%nat) by (destruct (_ <=? INT_MAX) in Hl; lia).
    rewrite bool_decide_eq_true_2 by lia.
    eexists. split; [done|]. unfold memfd_view. cbn. f_equal.
    rewrite firstn_all2, (drop_ge (fdata f)) by lia. by rewrite app_nil_r.
  - intros f n Hn. cbn. eexists. split; done.
  - intros f. cbn. rewrite (proj2 (Z.ltb_ge _ _)) by lia. rewrite Z.add_0_r. eexists. split; [done|].
    unfold memfd_view. cbn. by rewrite Nat2Z.id.
Qed.

(** ** Witnesses *)

(** A device whose transfers all fail with [-EIO]. *)
Definition broken_ops : FdOps unit := {|
  fd_write _ u := (-5, u); fd_read _ u := (-5, [], u); fd_lseek _ _ u := (-5, u) |}.

Lemma fread_error_is_not_short_witness :
  exists m, fread (A := ILP32) (ops := broken_ops) 1 1 tt 0 = (m, [], tt, -5) /\ m = 2 ^ 32 - 1 /\ (m <? 1) = false.
Proof.
  apply (fread_error_is_not_short (A := ILP32) (ops := broken_ops) 1 tt tt [] (-5));
    [unfold INT_MIN; lia|reflexivity].
Defined.

Lemma fopen_ignores_mode_witness :
  fopen (A := ILP32) (fun _ flags => if flags =? O_RDONLY then -2 else 3) "temp.dsg" "wb" 0 = (0, -2).
Proof.
  etransitivity; [apply (fopen_ignores_mode (A := ILP32) (fun _ flags => if flags =? O_RDONLY then -2 else 3)
    "temp.dsg" "wb" "rb" 0); reflexivity|reflexivity].
Defined.
