(* ===== verification/Wad.v ===== *)
(** * WAD files (src/commands/doom/w_wad.c, w_file.c, w_file_stdc.c, m_misc.c)

    The directory of lumps, the search for a lump by its name, and the cache of
    lumps in the zone. A lump that is cached has the variable [lump->cache] as the
    owner of its block: it is one of the [cells] of the zone. *)
From Stdlib Require Import Ascii.
From S2P Require Import Prelude KeyInput Stdio Zone.
#[local] Open Scope doom_scope.

(** ** Strings in memory *)
Definition islower (c : Z) : bool := match ctype_table !! Z.to_nat (u8 c) with Some m => has_flag m 2 | None => false end.
Definition isupper (c : Z) : bool := match ctype_table !! Z.to_nat (u8 c) with Some m => has_flag m 1 | None => false end.
Definition tolower (c : Z) : Z := u8 (if isupper c then u8 c - (65 - 97) else c).
Definition toupper (c : Z) : Z := u8 (if islower c then u8 c - (97 - 65) else c).

Definition char_at (s : list Z) : outcome (Z * list Z) := match s with c :: s => Ret (c, s) | [] => Undef end.
(** The loop of [strncasecmp], for [n] that is not 0, over two arrays. *)
Fixpoint strncasecmp (s1 s2 : list Z) (n : nat) : outcome Z :=
  match n with
  | O => Ret 0
  | S n =>
      let* '(c1, s1) := char_at s1 in
      let* '(c2, s2) := char_at s2 in
      let c1 := tolower c1 in
      let c2 := tolower c2 in
      if bool_decide (0 < n)%nat && (c1 =? c2) && negb (c1 =? 0) then strncasecmp s1 s2 n else Ret (c1 - c2)
  end.
Fixpoint strcasecmp (s1 s2 : list Z) : outcome Z :=
  match s1, s2 with
  | c1 :: s1, c2 :: s2 =>
      let c1 := tolower c1 in
      let c2 := tolower c2 in
      if (c1 =? c2) && negb (c1 =? 0) then strcasecmp s1 s2 else Ret (c1 - c2)
  | _, _ => Undef
  end.
(** The bytes of a string, and with its end. *)
Definition bytes_of (s : string) : list Z := (fun c => Z.of_nat (nat_of_ascii c)) <$> String.list_ascii_of_string s.
Definition cstr (s : string) : list Z := bytes_of s ++ [0].
(** [strncpy] into an array of zeros. *)
Fixpoint strncpy (dest src : list Z) : list Z :=
  match dest, src with
  | _ :: dest, c :: src => if c =? 0 then 0 :: dest else c :: strncpy dest src
  | _, _ => dest
  end.

(** ** The directory *)
Module Lump.
Record lumpinfo_t : Type := mk { name : list Z; wad_file : Z; position : Z; size : Z; next : option nat }.
#[global] Instance eta : Eta lumpinfo_t := fun l => mk (name l) (wad_file l) (position l) (size l) (next l).
Definition zero : lumpinfo_t := mk (replicate 8 0) 0 0 0 None.
End Lump.

Record wad_file_t (F : Type) : Type := mk_wad_file { mapped : Z; wlength : Z; fstream : F }.
Arguments mk_wad_file {F}.
Arguments mapped {F}.
Arguments wlength {F}.
Arguments fstream {F}.

(** The array [lumpinfo] has [numlumps] entries, and starts at [lumpinfo_at];
    [data] has the bytes of blocks of the zone. *)
Record wads (F : Type) : Type := mk_wads {
  zn : zone;
  data : gmap Z (list Z);
  files : gmap Z (wad_file_t F);
  lumpinfo : list Lump.lumpinfo_t;
  lumpinfo_at : Z;
  lumphash : option (Z * list (option nat)) }.
Arguments mk_wads {F}.
Arguments zn {F}.
Arguments data {F}.
Arguments files {F}.
Arguments lumpinfo {F}.
Arguments lumpinfo_at {F}.
Arguments lumphash {F}.
#[export] Instance wads_eta {F} : Eta (wads F) := fun s => mk_wads (zn s) (data s) (files s) (lumpinfo s) (lumpinfo_at s) (lumphash s).

(** What the host provides: [calloc], with 0 for no memory; [open] on a file
    name; what is open behind a file pointer; and what fresh memory holds. *)
Class WadHost (F : Type) := {
  calloc : Z -> Z -> wads F -> Z;
  sys_open : string -> Z -> Z;
  file_of : Z -> F;
  raw_id : Z -> Z;
  raw_bytes : Z -> list Z
}.

Section wad.
Context {A : Arch} {F : Type} {ops : FdOps F} {host : WadHost F}.
Implicit Types (st : wads F).

Definition numlumps st : Z := Z.of_nat (length (lumpinfo st)).
Definition sizeof_lumpinfo : Z := match the_abi with ILP32 => 28 | LP64 => 40 end.
Definition offsetof_cache : Z := match the_abi with ILP32 => 20 | LP64 => 24 end.
Definition cache_at (base : Z) (i : nat) : Z := base + Z.of_nat i * sizeof_lumpinfo + offsetof_cache.
(** [lumpinfo[i].cache] *)
Definition cache (i : nat) st : Z := default 0 (cells (zn st) !! cache_at (lumpinfo_at st) i).
Definition wad_malloc (n tag user : Z) st : outcome (Z * wads F) :=
  let* '(p, z) := Z_Malloc (S (stdpp.base.size (mem (zn st)))) raw_id n tag user (zn st) in
  Ret (p, st <| zn := z |> <| data ::= <[p := raw_bytes p]> |>).
Definition on_zone (m : zone -> outcome zone) st : outcome (wads F) := let* z := m (zn st) in Ret (st <| zn := z |>).

(** ** Files *)
Definition M_FileLength (f : F) : Z * F :=
  let '(savedpos, f, _) := ftell f 0 in
  let '(_, f, _) := fseek 0 SEEK_END f 0 in
  let '(len, f, _) := ftell f 0 in
  let '(_, f, _) := fseek savedpos SEEK_SET f 0 in
  (len, f).
Definition sizeof_stdc_wad_file : Z := match the_abi with ILP32 => 16 | LP64 => 32 end.
Definition W_OpenFile (path : string) st : outcome (Z * wads F) :=
  let '(fp, _) := fopen sys_open path "rb" 0 in
  if fp =? 0 then Ret (0, st)
  else
    let* '(p, st) := wad_malloc sizeof_stdc_wad_file PU_STATIC 0 st in
    let '(len, f) := M_FileLength (file_of fp) in
    Ret (p, st <| files ::= <[p := mk_wad_file 0 (u32 len) f]> |>).
(** The count, and the buffer with what was read at its start. *)
Definition W_Read (wad offset : Z) (buffer : list Z) (buffer_len : Z) st : outcome (Z * list Z * wads F) :=
  let* w := of_option (files st !! wad) in
  let '(_, f, _) := fseek (wraps word_bits (u32 offset)) SEEK_SET (fstream w) 0 in
  let '(count, bs, f, _) := fread 1 buffer_len f 0 in
  Ret (count, bs ++ drop (length bs) buffer, st <| files ::= <[wad := mk_wad_file (mapped w) (wlength w) f]> |>).

Definition W_CloseFile (wad : Z) st : outcome (wads F) :=
  let* _ := of_option (files st !! wad) in
  let* st := on_zone (Z_Free wad) st in
  Ret (st <| files ::= delete wad |>).

(** ** Adding a file *)
Definition LONG (off : nat) (bs : list Z) : outcome Z :=
  match drop off bs with
  | a :: b :: c :: d :: _ => Ret (i32 (a + 256 * b + 65536 * c + 16777216 * d))
  | _ => Undef
  end.

(** One entry of the array is copied, with the block of its lump. *)
Definition copy_lump (from to : Z) (i : nat) st : outcome (wads F) :=
  let p := default 0 (cells (zn st) !! cache_at from i) in
  let st := st <| zn ::= set_cell (cache_at to i) p |> in
  if negb (p =? 0) then on_zone (Z_ChangeUser p (cache_at to i)) st else Ret st.
Fixpoint copy_lumps (from to : Z) (l : list nat) st : outcome (wads F) :=
  match l with [] => Ret st | i :: l => let* st := copy_lump from to i st in copy_lumps from to l st end.
Definition ExtendLumpInfo (newnumlumps : Z) st : outcome (wads F) :=
  let to := calloc newnumlumps sizeof_lumpinfo st in
  if to =? 0 then Fatal "Couldn't realloc lumpinfo"
  else if newnumlumps <? 0 then Undef
  else
    let new := Z.to_nat newnumlumps in
    let old := Nat.min (length (lumpinfo st)) new in
    let st := st <| zn ::= fun z => foldr (fun i => set_cell (cache_at to i) 0) z (seq 0 new) |> in
    let* st := copy_lumps (lumpinfo_at st) to (seq 0 old) st in
    Ret (st <| lumpinfo := take old (lumpinfo st) ++ replicate (new - old) Lump.zero |> <| lumpinfo_at := to |>).

Definition sizeof_filelump : nat := 16.
Definition sizeof_wadinfo : Z := 12.
Definition DIR_SEPARATOR : Z := 47.
(** The index [src] stops at, from [n] on downwards. *)
Fixpoint base_start (path : list Z) (n : nat) : outcome nat :=
  match n with
  | O => Ret O
  | S m => let* c := of_option (path !! m) in if c =? DIR_SEPARATOR then Ret n else base_start path m
  end.
Fixpoint copy_base (src : list Z) (n : nat) : list Z :=
  match n, src with
  | S n, c :: src => if (c =? 0) || (c =? 46) then [] else toupper c :: copy_base src n
  | _, _ => []
  end.
Definition M_ExtractFileBase (path : string) : outcome (list Z) :=
  if bool_decide (bytes_of path = []) then Undef
  else
    let* n := base_start (bytes_of path) (length (bytes_of path) - 1) in
    let base := copy_base (drop n (bytes_of path)) 8 in
    Ret (base ++ replicate (8 - length base) 0).
Definition LONG_bytes (x : Z) : list Z := [u8 x; u8 (Z.shiftr x 8); u8 (Z.shiftr x 16); u8 (Z.shiftr x 24)].

(** The part of [W_AddFile] that reads the directory: its address, and the
    number of its entries. *)
Definition is_wad_name (filename : string) : outcome bool :=
  let n := length (bytes_of filename) in
  if bool_decide (n < 3)%nat then Undef
  else let* r := strcasecmp (drop (n - 3) (cstr filename)) (cstr "wad") in Ret (r =? 0).
Definition read_directory (filename : string) (wad_file : Z) st : outcome (Z * Z * wads F) :=
  let* wad := is_wad_name filename in
  if negb wad then
    let* '(fileinfo, st) := wad_malloc (Z.of_nat sizeof_filelump) PU_STATIC 0 st in
    let* w := of_option (files st !! wad_file) in
    let* base := M_ExtractFileBase filename in
    Ret (fileinfo, 1, st <| data ::= <[fileinfo := LONG_bytes 0 ++ LONG_bytes (wlength w) ++ base]> |>)
  else
    let* '(_, header, st) := W_Read wad_file 0 (raw_bytes 0) sizeof_wadinfo st in
    if negb (bool_decide (take 4 header = bytes_of "IWAD")) && negb (bool_decide (take 4 header = bytes_of "PWAD"))
    then Fatal "Wad file doesn't have IWAD or PWAD id"
    else
      let* num := LONG 4 header in
      let* infotableofs := LONG 8 header in
      let len := i32 (wrapu word_bits (num * Z.of_nat sizeof_filelump)) in
      let* '(fileinfo, st) := wad_malloc len PU_STATIC 0 st in
      let* '(_, bs, st) := W_Read wad_file infotableofs (raw_bytes fileinfo) (wrapu word_bits len) st in
      Ret (fileinfo, num, st <| data ::= <[fileinfo := bs]> |>).
Definition add_lump (wad_file : Z) (entry : list Z) (l : Lump.lumpinfo_t) : outcome Lump.lumpinfo_t :=
  let* pos := LONG 0 entry in
  let* size := LONG 4 entry in
  if bool_decide (length entry < sizeof_filelump)%nat then Undef
  else Ret (Lump.mk (strncpy (Lump.name l) (take 8 (drop 8 entry))) wad_file pos size (Lump.next l)).
(** The loop over the new lumps: [bs] are the entries that are left. *)
Fixpoint add_lumps (wad_file : Z) (bs : list Z) (l : list nat) st : outcome (wads F) :=
  match l with
  | [] => Ret st
  | i :: l =>
      let* li := of_option (lumpinfo st !! i) in
      let* li := add_lump wad_file (take sizeof_filelump bs) li in
      let st := st <| lumpinfo ::= <[i := li]> |> <| zn ::= set_cell (cache_at (lumpinfo_at st) i) 0 |> in
      add_lumps wad_file (drop sizeof_filelump bs) l st
  end.
(** The part behind that, with [num] new lumps. *)
Definition add_entries (wad_file fileinfo num : Z) st : outcome (Z * wads F) :=
  let startlump := length (lumpinfo st) in
  let* st := ExtendLumpInfo (i32 (numlumps st + num)) st in
  let* bs := of_option (data st !! fileinfo) in
  let* st := add_lumps wad_file bs (seq startlump (length (lumpinfo st) - startlump)) st in
  let* st := on_zone (Z_Free fileinfo) st in
  match lumphash st with
  | None => Ret (wad_file, st)
  | Some (p, _) => let* st := on_zone (Z_Free p) st in Ret (wad_file, st <| lumphash := None |>)
  end.
Definition W_AddFile (filename : string) st : outcome (Z * wads F) :=
  let* '(wad_file, st) := W_OpenFile filename st in
  if wad_file =? 0 then Ret (0, st)
  else
    let* '(fileinfo, num, st) := read_directory filename wad_file st in
    add_entries wad_file fileinfo num st.

(** ** Finding a lump *)
Fixpoint hash_loop (n : nat) (s : list Z) (result : Z) : outcome Z :=
  match n with
  | O => Ret result
  | S n =>
      let* '(c, s) := char_at s in
      if c =? 0 then Ret result
      else hash_loop n s (Z.lxor (Z.lxor (u32 (Z.shiftl result 5)) result) (toupper c))
  end.
Definition W_LumpNameHash (s : list Z) : outcome Z := hash_loop 8 s 5381.
Definition hash_slot (s : list Z) st : outcome Z :=
  let* h := W_LumpNameHash s in
  if numlumps st =? 0 then Undef else Ret (i32 (h mod numlumps st)).

Definition slot_at {X} (table : list X) (i : Z) : outcome X := if i <? 0 then Undef else of_option (table !! Z.to_nat i).
Definition same_name (i : nat) (name : list Z) st : outcome bool :=
  let* l := of_option (lumpinfo st !! i) in
  let* r := strncasecmp (Lump.name l) name 8 in
  Ret (r =? 0).
Fixpoint search_chain (fuel : nat) (p : option nat) (name : list Z) st : outcome Z :=
  match p with
  | None => Ret (-1)
  | Some i =>
      match fuel with
      | O => NoFuel
      | S fuel =>
          let* same := same_name i name st in
          if same : bool then Ret (Z.of_nat i)
          else let* l := of_option (lumpinfo st !! i) in search_chain fuel (Lump.next l) name st
      end
  end.
(** The loop over the lumps below [n], backwards. *)
Fixpoint search_back (n : nat) (name : list Z) st : outcome Z :=
  match n with
  | O => Ret (-1)
  | S n => let* same := same_name n name st in if same : bool then Ret (Z.of_nat n) else search_back n name st
  end.
Definition W_CheckNumForName (name : list Z) st : outcome Z :=
  match lumphash st with
  | Some (_, table) =>
      let* hash := hash_slot name st in
      let* p := slot_at table hash in
      search_chain (length (lumpinfo st)) p name st
  | None => search_back (length (lumpinfo st)) name st
  end.
Definition W_GetNumForName (name : list Z) st : outcome Z :=
  let* i := W_CheckNumForName name st in
  if i <? 0 then Fatal "W_GetNumForName: not found!" else Ret i.

Definition hook (i : nat) st : outcome (wads F) :=
  let* l := of_option (lumpinfo st !! i) in
  let* hash := hash_slot (Lump.name l) st in
  match lumphash st with
  | Some (p, table) =>
      let* head := slot_at table hash in
      Ret (st <| lumpinfo ::= <[i := l <| Lump.next := head |>]> |> <| lumphash := Some (p, <[Z.to_nat hash := Some i]> table) |>)
  | None => Undef
  end.
Fixpoint hook_all (l : list nat) st : outcome (wads F) :=
  match l with [] => Ret st | i :: l => let* st := hook i st in hook_all l st end.
Definition W_GenerateHashTable st : outcome (wads F) :=
  let* st := match lumphash st with Some (p, _) => on_zone (Z_Free p) st | None => Ret st end in
  if numlumps st >? 0 then
    let* '(p, st) := wad_malloc (i32 (wrapu word_bits (sizeof_ptr * numlumps st))) PU_STATIC 0 st in
    hook_all (seq 0 (length (lumpinfo st))) (st <| lumphash := Some (p, replicate (length (lumpinfo st)) None) |>)
  else Ret st.

(** ** Reading and caching lumps *)
Definition get_lump (lump : Z) (msg : string) st : outcome (nat * Lump.lumpinfo_t) :=
  if u32 lump >=? numlumps st then Fatal msg
  else let* l := of_option (lumpinfo st !! Z.to_nat (u32 lump)) in Ret (Z.to_nat (u32 lump), l).
Definition W_LumpLength (lump : Z) st : outcome Z :=
  let* '(_, l) := get_lump lump "W_LumpLength: >= numlumps" st in Ret (Lump.size l).
Definition W_ReadLump (lump dest : Z) st : outcome (wads F) :=
  let* '(_, l) := get_lump lump "W_ReadLump: >= numlumps" st in
  let* buffer := of_option (data st !! dest) in
  let* '(c, bs, st) := W_Read (Lump.wad_file l) (Lump.position l) buffer (wrapu word_bits (Lump.size l)) st in
  let st := st <| data ::= <[dest := bs]> |> in
  if i32 c <? Lump.size l then Fatal "W_ReadLump: short read" else Ret st.

Definition W_CacheLumpNum (lumpnum tag : Z) st : outcome (Z * wads F) :=
  let* '(i, l) := get_lump lumpnum "W_CacheLumpNum: >= numlumps" st in
  let* w := of_option (files st !! Lump.wad_file l) in
  if negb (mapped w =? 0) then Ret (mapped w + Lump.position l, st)
  else if negb (cache i st =? 0) then
    let result := cache i st in
    let* st := on_zone (Z_ChangeTag2 (cache i st) tag) st in
    Ret (result, st)
  else
    let* len := W_LumpLength lumpnum st in
    let* '(p, st) := wad_malloc len tag (cache_at (lumpinfo_at st) i) st in
    let st := st <| zn ::= set_cell (cache_at (lumpinfo_at st) i) p |> in
    let* st := W_ReadLump lumpnum (cache i st) st in
    Ret (cache i st, st).
Definition W_CacheLumpName (name : list Z) (tag : Z) st : outcome (Z * wads F) :=
  let* i := W_GetNumForName name st in W_CacheLumpNum i tag st.
Definition W_ReleaseLumpNum (lumpnum : Z) st : outcome (wads F) :=
  let* '(i, l) := get_lump lumpnum "W_ReleaseLumpNum: >= numlumps" st in
  let* w := of_option (files st !! Lump.wad_file l) in
  if negb (mapped w =? 0) then Ret st else on_zone (Z_ChangeTag2 (cache i st) PU_CACHE) st.
Definition W_ReleaseLumpName (name : list Z) st : outcome (wads F) :=
  let* i := W_GetNumForName name st in W_ReleaseLumpNum i st.

Inductive GameMission_t : Set := doom | doom2 | pack_tnt | pack_plut | pack_chex | pack_hacx | heretic | hexen | strife | none.
#[export] Instance mission_eq : EqDecision GameMission_t.
Proof. solve_decision. Defined.
Definition unique_lumps : list (GameMission_t * string) := [(doom, "POSSA1"); (heretic, "IMPXA1"); (hexen, "ETTNA1"); (strife, "AGRDA1")].
Fixpoint check_lumps (l : list (GameMission_t * string)) (mission : GameMission_t) st : outcome unit :=
  match l with
  | [] => Ret tt
  | (m, name) :: l =>
      if bool_decide (mission = m) then check_lumps l mission st
      else
        let* lumpnum := W_CheckNumForName (cstr name) st in
        if lumpnum >=? 0 then Fatal "You are trying to use another IWAD file with this binary." else check_lumps l mission st
  end.
Definition W_CheckCorrectIWAD (mission : GameMission_t) st : outcome unit := check_lumps unique_lumps mission st.
End wad.
