(* ===== verification/WadSearch.v ===== *)
(** * Finding lumps by name

    The table that W_GenerateHashTable makes finds the same lump as the search
    backwards through the directory: the last one with the name, whatever the
    case of its letters. *)
From S2P Require Import Prelude KeyInput Stdio Zone Wad.
#[local] Open Scope doom_scope.

(** ** Names *)

(** The first [n] bytes can be read, or the string ends before. *)
Fixpoint readable (n : nat) (s : list Z) : Prop :=
  match n, s with
  | O, _ => True
  | S n, c :: s => c = 0 \/ readable n s
  | S _, [] => False
  end.
Definition byte (c : Z) : Prop := 0 <= c < 256.
(** What counts of a name. *)
Fixpoint canon (n : nat) (s : list Z) : list Z :=
  match n, s with
  | S n, c :: s => if c =? 0 then [] else tolower c :: canon n s
  | _, _ => []
  end.

Lemma all_bytes (P : Z -> bool) : forallb P (Z.of_nat <$> seq 0 256) = true -> forall c, byte c -> P c = true.
Proof.
  intros H c [H0 H1]. rewrite forallb_forall in H. apply H. apply list_elem_of_In, list_elem_of_fmap. exists (Z.to_nat c).
  split; [by rewrite Z2Nat.id|]. apply elem_of_seq. lia.
Qed.
Lemma upper_lower c : byte c -> toupper (tolower c) = toupper c.
Proof. intros Hc. apply Z.eqb_eq. revert c Hc. apply all_bytes. by vm_compute. Qed.
Lemma lower_zero c : byte c -> (tolower c =? 0) = (c =? 0).
Proof. intros Hc. apply Bool.eqb_prop. revert c Hc. apply all_bytes. by vm_compute. Qed.

Lemma lower_zero' c : byte c -> tolower c = 0 <-> c = 0.
Proof. intros Hc. pose proof (lower_zero c Hc) as E. rewrite <- (Z.eqb_eq (tolower c)), <- (Z.eqb_eq c), E. done. Qed.

Lemma strncasecmp_run n : forall s1 s2, readable (S n) s1 -> readable (S n) s2 -> Forall byte s1 -> Forall byte s2 ->
  exists r, strncasecmp s1 s2 (S n) = Ret r /\ (r = 0 <-> canon (S n) s1 = canon (S n) s2).
Proof.
  induction n as [|n IH]; intros [|c1 s1] [|c2 s2] R1 R2 B1 B2; try done; apply Forall_cons in B1 as [B1 Bs1], B2 as [B2 Bs2].
  - cbn [strncasecmp char_at obind]. rewrite bool_decide_eq_false_2 by lia. eexists. split; [done|]. cbn [canon].
    pose proof (lower_zero' c1 B1). pose proof (lower_zero' c2 B2). destruct (c1 =? 0) eqn:E1, (c2 =? 0) eqn:E2; breflect; subst; (split; [intros Hr|intros Hr]); try done; try lia.
    + f_equal. lia.
    + injection Hr as Hr. lia.
  - change (readable (S (S n)) (c1 :: s1)) with (c1 = 0 \/ readable (S n) s1) in R1. change (readable (S (S n)) (c2 :: s2)) with (c2 = 0 \/ readable (S n) s2) in R2.
    change (strncasecmp (c1 :: s1) (c2 :: s2) (S (S n))) with
      (if bool_decide (0 < S n)%nat && (tolower c1 =? tolower c2) && negb (tolower c1 =? 0) then strncasecmp s1 s2 (S n) else Ret (tolower c1 - tolower c2)).
    change (canon (S (S n)) (c1 :: s1)) with (if c1 =? 0 then [] else tolower c1 :: canon (S n) s1).
    change (canon (S (S n)) (c2 :: s2)) with (if c2 =? 0 then [] else tolower c2 :: canon (S n) s2).
    rewrite bool_decide_eq_true_2 by lia. cbn [andb]. pose proof (lower_zero c1 B1) as Z1. pose proof (lower_zero c2 B2) as Z2. rewrite Z1.
    destruct (tolower c1 =? tolower c2) eqn:E; breflect; cbn [andb].
    + rewrite <- E, Z1 in Z2. destruct (c1 =? 0) eqn:E1; cbn [negb]; rewrite <- Z2.
      * eexists. split; [done|]. split; [done|]. intros _. lia.
      * breflect. destruct (IH s1 s2) as (r & -> & Hr); [tauto| |done|done|].
        { destruct R2 as [->|R2]; [done|exact R2]. }
        exists r. split; [done|]. rewrite Hr, E. split; congruence.
    + eexists. split; [done|]. split; [lia|]. destruct (c1 =? 0) eqn:E1, (c2 =? 0) eqn:E2; breflect; subst; try done. intros [= E3 _]. congruence.
Qed.

(** The hash looks at nothing else. *)
Lemma hash_loop_run n : forall s r, readable n s -> Forall byte s ->
  hash_loop n s r = Ret (foldl (fun r c => Z.lxor (Z.lxor (u32 (Z.shiftl r 5)) r) (toupper c)) r (canon n s)).
Proof.
  induction n as [|n IH]; intros s r R B; [done|]. destruct s as [|c s]; [done|]. apply Forall_cons in B as [B Bs]. cbn [hash_loop char_at obind canon].
  destruct (c =? 0) eqn:E; breflect; [done|]. cbn [foldl]. rewrite upper_lower by done. apply IH; [|done]. by destruct R.
Qed.

Section search.
Context {A : Arch} {F : Type} {ops : FdOps F} {host : WadHost F}.
Implicit Types (st : wads F) (l : list Lump.lumpinfo_t) (name : list Z).

Definition a_name name : Prop := readable 8 name /\ Forall byte name.
Definition names_ok l : Prop := Forall (fun x => a_name (Lump.name x)) l.
Definition key_of name : list Z := canon 8 name.
Definition key_at l (i : nat) : option (list Z) := key_of ∘ Lump.name <$> l !! i.
Definition slot_of (n : Z) (key : list Z) : Z :=
  foldl (fun r c => Z.lxor (Z.lxor (u32 (Z.shiftl r 5)) r) (toupper c)) 5381 key mod n.

Lemma name_at l i x : names_ok l -> l !! i = Some x -> a_name (Lump.name x).
Proof. intros H E. exact (proj1 (Forall_lookup _ _) H i x E). Qed.
Lemma same_name_run i name st x : names_ok (lumpinfo st) -> a_name name -> lumpinfo st !! i = Some x ->
  same_name i name st = Ret (bool_decide (key_of (Lump.name x) = key_of name)).
Proof.
  intros Hn [R B] E. unfold same_name. rewrite E. cbn [of_option obind]. destruct (name_at _ _ _ Hn E) as [Rx Bx].
  destruct (strncasecmp_run 7 _ _ Rx R Bx B) as (r & -> & Hr). cbn [obind]. f_equal.
  destruct (r =? 0) eqn:E0; breflect; [rewrite bool_decide_eq_true_2|rewrite bool_decide_eq_false_2]; try done; [by apply Hr|by rewrite <- Hr].
Qed.
Lemma hash_slot_run name st : a_name name -> 0 < numlumps st <= INT_MAX -> hash_slot name st = Ret (slot_of (numlumps st) (key_of name)) /\
  0 <= slot_of (numlumps st) (key_of name) < numlumps st.
Proof.
  intros [R B] Hn. unfold hash_slot, W_LumpNameHash. rewrite hash_loop_run by done. cbn [obind]. rewrite (proj2 (Z.eqb_neq _ _)) by lia.
  assert (Hs : 0 <= slot_of (numlumps st) (key_of name) < numlumps st) by (apply Z.mod_pos_bound; lia). split; [|done].
  change (Ret (i32 (slot_of (numlumps st) (key_of name))) = Ret (slot_of (numlumps st) (key_of name))). set (s := slot_of _ _) in *. clearbody s.
  f_equal. apply wraps_id; [lia|]. unfold fits_s, INT_MAX in *. change (2 ^ (32 - 1)) with 2147483648. lia.
Qed.

(** ** The search backwards *)

(** The first of a list of lumps that has the name. *)
Definition first_named l name (ks : list nat) : Z :=
  match list_find (fun k => key_at l k = Some (key_of name)) ks with Some (_, k) => Z.of_nat k | None => -1 end.
Lemma first_named_cons l name k ks : first_named l name (k :: ks) = if bool_decide (key_at l k = Some (key_of name)) then Z.of_nat k else first_named l name ks.
Proof.
  unfold first_named. cbn [list_find]. destruct (decide _) as [E|E]; [by rewrite bool_decide_eq_true_2|rewrite bool_decide_eq_false_2 by done].
  destruct (list_find _ ks) as [[j k']|]; done.
Qed.
Definition downto (n : nat) : list nat := reverse (seq 0 n).
Lemma downto_S n : downto (S n) = n :: downto n.
Proof. unfold downto. by rewrite seq_S, reverse_app. Qed.
Lemma named_key i name st x : lumpinfo st !! i = Some x ->
  bool_decide (key_at (lumpinfo st) i = Some (key_of name)) = bool_decide (key_of (Lump.name x) = key_of name).
Proof. intros E. unfold key_at. rewrite E. cbn. apply bool_decide_ext. split; congruence. Qed.
Lemma search_back_run name st : names_ok (lumpinfo st) -> a_name name -> forall n, (n <= length (lumpinfo st))%nat ->
  search_back n name st = Ret (first_named (lumpinfo st) name (downto n)).
Proof.
  intros Hn Hm. induction n as [|n IH]; intros Hl; [done|]. cbn [search_back]. destruct (lookup_lt_is_Some_2 (lumpinfo st) n) as [x E]; [lia|].
  rewrite (same_name_run n name st x) by done. cbn [obind]. rewrite downto_S, first_named_cons, (named_key n name st x) by done.
  case_bool_decide; [done|]. apply IH. lia.
Qed.

(** ** Chains *)
Fixpoint chain_is l (p : option nat) (ks : list nat) : Prop :=
  match ks with
  | [] => p = None
  | k :: ks => p = Some k /\ exists x, l !! k = Some x /\ chain_is l (Lump.next x) ks
  end.
Lemma chain_insert l i y ks : forall p, chain_is l p ks -> i ∉ ks -> chain_is (<[i := y]> l) p ks.
Proof.
  induction ks as [|k ks IH]; intros p H Hi; [done|]. rewrite not_elem_of_cons in Hi. destruct Hi as [Hk Hi]. destruct H as [-> (x & E & H)]. split; [done|].
  exists x. rewrite list_lookup_insert_ne by done. split; [done|]. by apply IH.
Qed.
Lemma search_chain_run name st : names_ok (lumpinfo st) -> a_name name -> forall ks fuel p, chain_is (lumpinfo st) p ks -> (length ks <= fuel)%nat ->
  search_chain fuel p name st = Ret (first_named (lumpinfo st) name ks).
Proof.
  intros Hn Hm. induction ks as [|k ks IH]; intros fuel p H Hf.
  - change (p = None) in H. subst p. by destruct fuel.
  - destruct H as [-> (x & E & H)]. cbn [length] in Hf. destruct fuel as [|fuel]; [lia|]. cbn [search_chain]. rewrite (same_name_run k name st x) by done. cbn [obind].
    rewrite first_named_cons, (named_key k name st x) by done. case_bool_decide; [done|]. rewrite E. cbn [of_option obind]. apply IH; [done|lia].
Qed.

(** The lumps below [n] whose names have the slot [s], the last one first. *)
Definition bucket l (n : nat) (s : Z) : list nat :=
  filter (fun k => slot_of (Z.of_nat (length l)) <$> key_at l k = Some s) (downto n).
(** The first [n] lumps are in the table. *)
Record hashed l (table : list (option nat)) (n : nat) : Prop := {
  ha_length : length table = length l;
  ha_chains s : 0 <= s < Z.of_nat (length l) -> exists p, table !! Z.to_nat s = Some p /\ chain_is l p (bucket l n s)
}.
Lemma bucket_below l n s k : k ∈ bucket l n s -> (k < n)%nat.
Proof. intros [_ H]%list_elem_of_filter. unfold downto in H. apply elem_of_reverse, elem_of_seq in H. lia. Qed.
Lemma bucket_length l n s : (length (bucket l n s) <= n)%nat.
Proof. unfold bucket. etrans; [apply length_filter|]. unfold downto. by rewrite length_reverse, length_seq. Qed.

(** Only the slot of its name matters for a name. *)
Lemma first_in_bucket l name n : first_named l name (bucket l n (slot_of (Z.of_nat (length l)) (key_of name))) = first_named l name (downto n).
Proof.
  unfold bucket. induction (downto n) as [|k ks IH]; [done|]. rewrite first_named_cons. destruct (key_at l k) as [key|] eqn:Ek.
  - destruct (decide (key = key_of name)) as [->|Hne].
    + rewrite filter_cons_True by (by rewrite Ek). rewrite first_named_cons, Ek. by rewrite bool_decide_eq_true_2.
    + rewrite (bool_decide_eq_false_2 (Some key = _)) by congruence. rewrite <- IH. destruct (decide (slot_of (Z.of_nat (length l)) <$> key_at l k = Some (slot_of (Z.of_nat (length l)) (key_of name)))).
      * rewrite filter_cons_True by done. rewrite first_named_cons, Ek. by rewrite bool_decide_eq_false_2 by congruence.
      * by rewrite filter_cons_False.
  - rewrite (bool_decide_eq_false_2 (None = _)) by done. by rewrite filter_cons_False by (by rewrite Ek).
Qed.

(** ** Making the table *)
Definition only_links l l' : Prop := Forall2 (fun x x' => x' = x <| Lump.next := Lump.next x' |>) l l'.
#[export] Instance links_pre : PreOrder only_links.
Proof.
  split.
  - intros l. induction l as [|x l IH]; constructor; [by destruct x|done].
  - intros l1 l2 l3 H1. revert l3. induction H1 as [|x y l1 l2 -> _ IH]; intros l3 H2; [done|]. apply Forall2_cons_inv_l in H2 as (z & l3' & -> & H2 & ->).
    constructor; [by destruct x, z|by apply IH].
Qed.
Lemma links_key l l' : only_links l l' -> (forall i, key_at l' i = key_at l i) /\ length l' = length l /\ (names_ok l -> names_ok l').
Proof.
  intros H. pose proof (Forall2_length _ _ _ H) as Hl. split_and!; [|done|].
  - intros i. unfold key_at. destruct (l !! i) as [x|] eqn:E.
    + destruct (Forall2_lookup_l _ _ _ _ _ H E) as (x' & -> & Hx). cbn. by rewrite Hx.
    + apply lookup_ge_None in E. by rewrite (proj2 (lookup_ge_None _ _)) by lia.
  - intros Hn. apply Forall_lookup. intros i x' E. destruct (Forall2_lookup_r _ _ _ _ _ H E) as (x & Ex & ->). exact (name_at _ _ _ Hn Ex).
Qed.
Lemma bucket_S l n s x : l !! n = Some x ->
  bucket l (S n) s = if decide (slot_of (Z.of_nat (length l)) (key_of (Lump.name x)) = s) then n :: bucket l n s else bucket l n s.
Proof.
  intros E. unfold bucket. rewrite downto_S. assert (Ek : key_at l n = Some (key_of (Lump.name x))) by (unfold key_at; by rewrite E).
  assert (Hiff : (slot_of (Z.of_nat (length l)) <$> key_at l n = Some s) <-> slot_of (Z.of_nat (length l)) (key_of (Lump.name x)) = s)
    by (rewrite Ek; change (Some (slot_of (Z.of_nat (length l)) (key_of (Lump.name x))) = Some s <-> slot_of (Z.of_nat (length l)) (key_of (Lump.name x)) = s); split; congruence).
  destruct (decide (slot_of _ _ = s)) as [Hs|Hs]; [by rewrite filter_cons_True by (by apply Hiff)|by rewrite filter_cons_False by (by rewrite Hiff)].
Qed.
Lemma links_bucket l l' n s : only_links l l' -> bucket l' n s = bucket l n s.
Proof. intros H. destruct (links_key _ _ H) as (Hk & Hl & _). unfold bucket. rewrite Hl. apply list_filter_iff. intros k. by rewrite Hk. Qed.

Lemma hook_run n st p table : lumphash st = Some (p, table) -> names_ok (lumpinfo st) -> numlumps st <= INT_MAX -> (n < length (lumpinfo st))%nat ->
  hashed (lumpinfo st) table n -> exists l' table', hook n st = Ret (st <| lumpinfo := l' |> <| lumphash := Some (p, table') |>) /\
    only_links (lumpinfo st) l' /\ hashed l' table' (S n).
Proof.
  intros Eh Hn Hm Hlt [H1 H2]. unfold hook. destruct (lookup_lt_is_Some_2 (lumpinfo st) n Hlt) as [x E]. rewrite E. cbn [of_option obind].
  destruct (hash_slot_run (Lump.name x) st) as [Hs Hr]; [by eapply name_at|unfold numlumps in *; lia|]. rewrite Hs. cbn [obind]. rewrite Eh.
  set (s := slot_of (numlumps st) (key_of (Lump.name x))) in *. destruct (H2 s Hr) as (h & Et & Hc). unfold slot_at. rewrite (proj2 (Z.ltb_ge _ _)), Et by lia.
  cbn [of_option obind]. set (y := x <| Lump.next := h |>). set (l' := <[n := y]> (lumpinfo st)). exists l', (<[Z.to_nat s := Some n]> table). split; [by destruct st|].
  assert (Hl : only_links (lumpinfo st) l').
  { unfold l'. rewrite <- (list_insert_id (lumpinfo st) n x) at 1 by done. apply Forall2_insert; [apply links_pre|by destruct x]. }
  destruct (links_key _ _ Hl) as (Hk & Hlen & _). split; [done|]. split; [by rewrite length_insert, Hlen|]. rewrite Hlen. intros s' Hs'.
  rewrite (links_bucket _ _ _ _ Hl), (bucket_S _ n s' x) by done. fold (numlumps st) s. destruct (decide (s = s')) as [<-|Hne].
  - exists (Some n). rewrite list_lookup_insert_eq by lia. split; [done|]. split; [done|]. eexists. split; [by apply list_lookup_insert_eq|].
    apply chain_insert; [exact Hc|]. intros Hin%bucket_below. lia.
  - destruct (H2 s' Hs') as (h' & Et' & Hc'). exists h'. rewrite list_lookup_insert_ne by lia. split; [done|].
    apply chain_insert; [exact Hc'|]. intros Hin%bucket_below. lia.
Qed.
Lemma hook_all_run k : forall n st p table, lumphash st = Some (p, table) -> names_ok (lumpinfo st) -> numlumps st <= INT_MAX ->
  (n + k = length (lumpinfo st))%nat -> hashed (lumpinfo st) table n ->
  exists l' table', hook_all (seq n k) st = Ret (st <| lumpinfo := l' |> <| lumphash := Some (p, table') |>) /\ only_links (lumpinfo st) l' /\
    hashed l' table' (length l').
Proof.
  induction k as [|k IH]; intros n st p table Eh Hn Hm Hk Hh.
  - exists (lumpinfo st), table. split; [cbn; rewrite <- Eh; by destruct st|]. split; [done|]. by replace (length (lumpinfo st)) with n by lia.
  - cbn [seq hook_all]. destruct (hook_run n st p table Eh Hn Hm) as (l1 & t1 & -> & Hl1 & Hh1); [lia|done|]. cbn [obind].
    destruct (links_key _ _ Hl1) as (_ & Hlen & Hn1). set (st1 := st <| lumpinfo := l1 |> <| lumphash := _ |>).
    destruct (IH (S n) st1 p t1) as (l2 & t2 & E & Hl2 & Hh2); try done; [by apply Hn1|unfold numlumps in *; change (lumpinfo st1) with l1; lia|change (lumpinfo st1) with l1; lia|].
    exists l2, t2. split; [rewrite E; by destruct st|]. split; [|done]. by transitivity l1.
Qed.
Lemma empty_table l : hashed l (replicate (length l) None) 0.
Proof.
  split; [by rewrite length_replicate|]. intros s Hs. exists None. split; [apply lookup_replicate_2; lia|]. done.
Qed.

(** What a search has to find. *)
Definition found (r : Z) name l : Prop :=
  r = -1 /\ (forall i x, l !! i = Some x -> key_of (Lump.name x) <> key_of name) \/
  exists i x, r = Z.of_nat i /\ l !! i = Some x /\ key_of (Lump.name x) = key_of name /\
    forall j y, (i < j)%nat -> l !! j = Some y -> key_of (Lump.name y) <> key_of name.
Lemma first_found l name n : (forall j y, (n <= j)%nat -> l !! j = Some y -> key_of (Lump.name y) <> key_of name) -> found (first_named l name (downto n)) name l.
Proof.
  induction n as [|n IH]; intros Hj.
  - left. split; [done|]. intros i x E. apply (Hj i x); [lia|done].
  - rewrite downto_S, first_named_cons. case_bool_decide as Hk.
    + unfold key_at in Hk. destruct (l !! n) as [x|] eqn:E; [|done]. injection Hk as Hk. right. exists n, x. split_and!; [done|done|done|]. intros j y Hlt. by apply Hj.
    + apply IH. intros j y Hle E. destruct (decide (j = n)) as [->|Hne]; [|apply (Hj j y); [lia|done]]. intros Ek. apply Hk. unfold key_at. rewrite E. cbn. by f_equal.
Qed.

Definition table_ok st : Prop := match lumphash st with Some (_, table) => hashed (lumpinfo st) table (length (lumpinfo st)) | None => True end.
Lemma check_num_run name st : names_ok (lumpinfo st) -> a_name name -> numlumps st <= INT_MAX -> table_ok st -> (lumphash st <> None -> lumpinfo st <> []) ->
  W_CheckNumForName name st = Ret (first_named (lumpinfo st) name (downto (length (lumpinfo st)))).
Proof.
  intros Hn Hm Hl Ht Hne. unfold W_CheckNumForName, table_ok in *. destruct (lumphash st) as [[p table]|]; [|by apply search_back_run].
  assert (Hpos : 0 < numlumps st) by (unfold numlumps; destruct (lumpinfo st); [by destruct Hne|cbn; lia]).
  destruct (hash_slot_run name st Hm) as [-> Hr]; [lia|]. cbn [obind]. destruct (ha_chains _ _ _ Ht _ Hr) as (h & Et & Hc).
  unfold slot_at. rewrite (proj2 (Z.ltb_ge _ _)), Et by lia. cbn [of_option obind]. rewrite (search_chain_run name st Hn Hm _ _ _ Hc).
  - f_equal. apply first_in_bucket.
  - apply bucket_length.
Qed.
End search.
