(* ===== verification/WadTheorems.v ===== *)
(** * The cache of lumps

    A lump that is cached is a block of the zone whose owner is the variable of
    the lump, and the block has the bytes of the lump. *)
From S2P Require Import Prelude KeyInput Stdio Zone ZoneFacts ZoneMalloc ZoneWalks ZoneOwners Wad WadSearch.
#[local] Open Scope doom_scope.

(** What [lseek] does on a regular file. *)
Class SeekableFile (F : Type) {ops : FdOps F} (view : F -> fview) : Prop := {
  seek_law f off : 0 <= off <= Z.of_nat (length (fdata (view f))) ->
    exists f', fd_lseek off SEEK_SET f = (off, f') /\ view f' = mk_view (fdata (view f)) (Z.to_nat off) (flimit (view f));
  seek_past f off : off < 0 \/ Z.of_nat (length (fdata (view f))) < off ->
    exists f', fd_lseek off SEEK_SET f = (-1, f') /\ view f' = view f;
  seek_end f : exists f', fd_lseek 0 SEEK_END f = (Z.of_nat (length (fdata (view f))), f') /\
    view f' = mk_view (fdata (view f)) (length (fdata (view f))) (flimit (view f))
}.

Section wad.
Context {A : Arch} {F : Type} {ops : FdOps F} {view : F -> fview} {reg : RegularFile F view} {seek : SeekableFile F view} {host : WadHost F}.
Implicit Types (st : wads F) (L : list node) (i j : nat) (l : Lump.lumpinfo_t).

(** ** Reading *)
Definition bytes_at (w : wad_file_t F) (offset len : Z) : list Z := take (Z.to_nat len) (drop (Z.to_nat offset) (fdata (view (fstream w)))).
Definition same_file (w w' : wad_file_t F) : Prop := mapped w' = mapped w /\ wlength w' = wlength w /\ fdata (view (fstream w')) = fdata (view (fstream w)).
Lemma fseek_run f off : 0 <= off <= Z.of_nat (length (fdata (view f))) ->
  exists f', fseek off SEEK_SET f 0 = (0, f', 0) /\ view f' = mk_view (fdata (view f)) (Z.to_nat off) (flimit (view f)).
Proof.
  intros H. destruct (seek_law f off H) as (f' & E & V). exists f'. split; [|done]. unfold fseek, errno_wrap. rewrite E, Z.geb_leb, (proj2 (Z.leb_le 0 off)) by lia.
  by rewrite (proj2 (Z.ltb_ge off 0)) by lia.
Qed.
Lemma fread_run f len : 0 <= len <= INT_MAX ->
  let bs := take (Z.to_nat len) (drop (fpos (view f)) (fdata (view f))) in
  exists f', fread 1 len f 0 = (Z.of_nat (length bs), bs, f', 0) /\ fdata (view f') = fdata (view f).
Proof.
  intros Hl bs. unfold fread. rewrite Z.mul_1_l, wrapu_small by lia. destruct (read_law f len) as (f' & E & V); [lia|]. cbv zeta in E, V.
  fold bs in E, V. rewrite E. exists f'. split; [|by rewrite V].
  assert (Hb : Z.of_nat (length bs) <= len) by (unfold bs; rewrite length_take; lia).
  unfold errno_wrap. rewrite Z.geb_leb, (proj2 (Z.leb_le _ _)) by lia.
  assert (Ei : i32 (Z.of_nat (length bs)) = Z.of_nat (length bs)) by (apply wraps_id; [lia|unfold fits_s, INT_MAX in *; cbn; lia]). rewrite Ei.
  unfold count_of. by rewrite (proj2 (Z.ltb_ge (Z.of_nat (length bs)) 0)), Z.div_1_r, wrapu_small by lia.
Qed.
Lemma W_Read_run wad w offset buffer len st : files st !! wad = Some w -> 0 <= offset <= INT_MAX -> 0 <= len <= INT_MAX ->
  offset <= Z.of_nat (length (fdata (view (fstream w)))) ->
  let bs := bytes_at w offset len in
  exists w', W_Read wad offset buffer len st = Ret (Z.of_nat (length bs), bs ++ drop (length bs) buffer, st <| files ::= <[wad := w']> |>) /\ same_file w w'.
Proof.
  intros E Ho Hl Hin bs. unfold W_Read. rewrite E. cbn [of_option obind].
  assert (Eo : wraps word_bits (u32 offset) = offset).
  { rewrite (wrapu_id 32) by (unfold fits_u, INT_MAX in *; cbn; lia). apply wraps_id; [pose proof word_ge; lia|].
    unfold fits_s, INT_MAX in *. pose proof (Z.pow_le_mono_r 2 31 (word_bits - 1)). pose proof word_ge. lia. }
  rewrite Eo. destruct (fseek_run (fstream w) offset) as (f1 & E1 & V1); [lia|]. rewrite E1.
  destruct (fread_run f1 len Hl) as (f2 & E2 & V2). cbv zeta in E2. rewrite V1 in E2, V2. cbn [fpos fdata] in E2, V2. rewrite E2.
  exists (mk_wad_file (mapped w) (wlength w) f2). by split.
Qed.

(** ** The state *)
Definition ours st (c : Z) : Prop := exists i, (i < length (lumpinfo st))%nat /\ c = cache_at (lumpinfo_at st) i.
Definition lump_bytes l st : list Z :=
  match files st !! Lump.wad_file l with Some w => bytes_at w (Lump.position l) (Lump.size l) | None => [] end.
(** When the lump is cached: its block, and the bytes in it. *)
Definition cached_ok st L i l : Prop := cache i st <> 0 -> exists x, x ∈ L /\ used (zn st) x /\ user x.2 = cache_at (lumpinfo_at st) i /\
  ptr_of x = cache i st /\ sizeof_memblock + Lump.size l <= size x.2 /\
  exists bs, data st !! cache i st = Some bs /\ take (Z.to_nat (Lump.size l)) bs = lump_bytes l st.
(** A block of the module itself: it has no owner and cannot be purged. *)
Definition pinned z L p : Prop := exists x, x ∈ L /\ used z x /\ ptr_of x = p /\ user x.2 = 0 /\ tag x.2 = PU_STATIC.
Record dir_ok st L : Prop := {
  wo_owners : owners (ours st) (zn st) L;
  wo_addr : 0 <= lumpinfo_at st;
  wo_count : numlumps st <= INT_MAX;
  wo_names : names_ok (lumpinfo st);
  wo_files i l : lumpinfo st !! i = Some l -> exists w, files st !! Lump.wad_file l = Some w /\ mapped w = 0;
  wo_pinned i l : lumpinfo st !! i = Some l -> pinned (zn st) L (Lump.wad_file l);
  wo_cached i l : lumpinfo st !! i = Some l -> cached_ok st L i l
}.
Record wad_ok st L : Prop := {
  wo_dir :> dir_ok st L;
  wo_table : table_ok st;
  wo_hash p t : lumphash st = Some (p, t) -> lumpinfo st <> [] /\ pinned (zn st) L p /\ forall i l, lumpinfo st !! i = Some l -> Lump.wad_file l <> p
}.

Lemma cache_pos st i : 0 <= lumpinfo_at st -> 0 < cache_at (lumpinfo_at st) i.
Proof. intros H. unfold cache_at, sizeof_lumpinfo, offsetof_cache. destruct the_abi; lia. Qed.
Lemma cache_at_inj base i j : cache_at base i = cache_at base j -> i = j.
Proof. unfold cache_at, sizeof_lumpinfo. destruct the_abi; lia. Qed.
Lemma cache_some st i p : cache i st = p -> p <> 0 -> cells (zn st) !! cache_at (lumpinfo_at st) i = Some p.
Proof. unfold cache. destruct (cells (zn st) !! _); cbn; congruence. Qed.
Lemma zone_length z L : zone_ok z L -> (length L <= stdpp.base.size (mem z))%nat.
Proof.
  intros H. assert (E : list_to_map (M := gmap Z memblock) L ⊆ mem z).
  { apply map_subseteq_spec. intros a b Ha. apply elem_of_list_to_map in Ha; [|apply H]. pose proof (zone_ok_mem _ _ _ H Ha) as G. unfold getb in G. cbn in G.
    destruct (mem z !! a); [|done]. by injection G as ->. }
  apply map_subseteq_size in E. rewrite map_size_list_to_map in E by apply H. exact E.
Qed.

(** ** What happens to the other lumps *)

(** Blocks of [L'] that are not [fresh] come from [L]. *)
Definition older st L z' L' (fresh : node -> Prop) : Prop :=
  forall y, y ∈ L' -> used z' y -> fresh y \/ exists x, x ∈ L /\ used (zn st) x /\ same x y.
Lemma kept_cached st st' L L' (fresh : node -> Prop) i l : dir_ok st L -> lumpinfo st !! i = Some l ->
  lumpinfo_at st' = lumpinfo_at st -> length (lumpinfo st') = length (lumpinfo st) -> owners (ours st') (zn st') L' -> older st L (zn st') L' fresh ->
  (forall y, fresh y -> y ∈ L' /\ used (zn st') y /\ user y.2 <> cache_at (lumpinfo_at st) i) ->
  (forall p, (forall y, fresh y -> ptr_of y <> p) -> data st' !! p = data st !! p) -> lump_bytes l st' = lump_bytes l st ->
  cached_ok st' L' i l /\ (cache i st' <> 0 -> cache i st' = cache i st).
Proof.
  intros Hw El Ea En Ho Hold Hfr Hd Hlb.
  assert (Hkey : cache i st' <> 0 -> exists x x', x ∈ L /\ used (zn st) x /\ same x x' /\ x' ∈ L' /\ used (zn st') x' /\ user x'.2 = cache_at (lumpinfo_at st) i /\
    ptr_of x' = cache i st' /\ cache i st' = cache i st).
  { intros H0. pose proof (cache_some st' i _ eq_refl H0) as Hc. pose proof (cache_pos st i (wo_addr _ _ Hw)) as Hpos. rewrite Ea in Hc.
    destruct (ow_there _ _ _ Ho (cache_at (lumpinfo_at st) i) (cache i st')) as (x' & Hx' & Hux' & Eu' & Ep'); [|lia|done|done|].
    { exists i. rewrite En, Ea. split; [by eapply lookup_lt_Some|done]. }
    destruct (Hold x' Hx' Hux') as [Hf|(x & Hx & Hux & Hs)]; [by destruct (Hfr x' Hf) as (_ & _ & Hne)|]. exists x, x'. destruct (same_ptr _ _ Hs) as [Esp Esu].
    split_and!; try done. pose proof (ow_back _ _ _ (wo_owners _ _ Hw) x Hx Hux) as Hb. rewrite Esu, Eu' in Hb. unfold cache at 2. rewrite Hb by lia. cbn. congruence. }
  split; [|intros H0; destruct (Hkey H0) as (? & ? & _ & _ & _ & _ & _ & _ & _ & E); exact E].
  intros H0. destruct (Hkey H0) as (x & x' & Hx & Hux & Hs & Hx' & Hux' & Eu' & Ep' & Ec). destruct (same_ptr _ _ Hs) as [Esp Esu].
  destruct (wo_cached _ _ Hw i l El) as (x2 & Hx2 & Hux2 & Eu2 & Ep2 & Hsz & bs & Eb & Hb); [congruence|].
  assert (x2 = x) as -> by (eapply (node_eq (zn st)); [apply (ow_inv _ _ _ (wo_owners _ _ Hw))|apply (ow_inv _ _ _ (wo_owners _ _ Hw))|done|done|unfold ptr_of in *; lia]).
  exists x'. rewrite Ea. split_and!; try done; [by destruct Hs as (_ & <- & _)|]. exists bs. rewrite Hlb. split; [|done]. rewrite Ec, Hd; [done|].
  intros y Hy Ey. destruct (Hfr y Hy) as (HyL & Huy & Hne). apply Hne. assert (y = x') as -> by (eapply (node_eq (zn st')); [apply (ow_inv _ _ _ Ho)|apply (ow_inv _ _ _ Ho)|done|done|unfold ptr_of in *; lia]). done.
Qed.

(** The lump is in its file. *)
Record in_file l st : Prop := {
  if_position : 0 <= Lump.position l <= INT_MAX;
  if_size : 0 <= Lump.size l <= INT_MAX - 64;
  if_end w : files st !! Lump.wad_file l = Some w -> Lump.position l + Lump.size l <= Z.of_nat (length (fdata (view (fstream w))))
}.
Lemma lump_length l st w : in_file l st -> files st !! Lump.wad_file l = Some w -> length (bytes_at w (Lump.position l) (Lump.size l)) = Z.to_nat (Lump.size l).
Proof.
  intros [[H1 H2] [H3 _] H4] E. specialize (H4 w E). unfold bytes_at. rewrite length_take, length_drop. lia.
Qed.
Lemma get_lump_run i l msg st : lumpinfo st !! i = Some l -> numlumps st <= INT_MAX -> get_lump (Z.of_nat i) msg st = Ret (i, l).
Proof.
  intros E Hn. pose proof (lookup_lt_Some _ _ _ E) as Hi. unfold get_lump, numlumps in *.
  assert (Eu : u32 (Z.of_nat i) = Z.of_nat i) by (apply (wrapu_id 32); unfold fits_u, INT_MAX in *; cbn; lia).
  rewrite Eu, Z.geb_leb, (proj2 (Z.leb_gt _ _)), Nat2Z.id, E by lia. done.
Qed.
Lemma W_ReadLump_run i l w dest buffer st : lumpinfo st !! i = Some l -> numlumps st <= INT_MAX -> in_file l st -> files st !! Lump.wad_file l = Some w ->
  data st !! dest = Some buffer -> exists w' bs, W_ReadLump (Z.of_nat i) dest st = Ret (st <| files ::= <[Lump.wad_file l := w']> |> <| data ::= <[dest := bs]> |>) /\
    same_file w w' /\ take (Z.to_nat (Lump.size l)) bs = lump_bytes l st.
Proof.
  intros El Hn Hf Ew Ed. unfold W_ReadLump. rewrite (get_lump_run i l) by done. cbn [obind]. rewrite Ed. cbn [of_option obind]. pose proof Hf as [H1 H2 H3]. specialize (H3 w Ew).
  rewrite wrapu_small by (unfold INT_MAX in *; lia). destruct (W_Read_run _ w (Lump.position l) buffer (Lump.size l) st Ew) as (w' & -> & Hs); [lia|unfold INT_MAX in *; lia|lia|].
  cbn [obind]. rewrite (lump_length l st w Hf Ew), Z2Nat.id by lia.
  assert (Ei : i32 (Lump.size l) = Lump.size l) by (apply wraps_id; [lia|unfold fits_s, INT_MAX in *; cbn; lia]). rewrite Ei, Z.ltb_irrefl.
  eexists w', _. split; [reflexivity|]. split; [done|]. unfold lump_bytes. rewrite Ew, <- (lump_length l st w Hf Ew). by rewrite take_app_length.
Qed.

(** Reading changes no file. *)
Lemma same_bytes l st wad w w' : files st !! wad = Some w -> same_file w w' -> lump_bytes l (st <| files ::= <[wad := w']> |>) = lump_bytes l st.
Proof.
  intros E (_ & _ & Hd). unfold lump_bytes. cbn [files update]. destruct (decide (Lump.wad_file l = wad)) as [->|Hne].
  - change (match <[wad := w']> (files st) !! wad with Some w => bytes_at w (Lump.position l) (Lump.size l) | None => [] end = match files st !! wad with Some w => bytes_at w (Lump.position l) (Lump.size l) | None => [] end).
    rewrite lookup_insert_eq, E. unfold bytes_at. by rewrite Hd.
  - change (match <[wad := w']> (files st) !! Lump.wad_file l with Some w => bytes_at w (Lump.position l) (Lump.size l) | None => [] end = match files st !! Lump.wad_file l with Some w => bytes_at w (Lump.position l) (Lump.size l) | None => [] end).
    by rewrite lookup_insert_ne by congruence.
Qed.

(** ** Caching *)

(** What [W_CacheLumpNum] promises: the lump is cached with the tag; others are
    at most lost. *)
Record cached_as st st' L' i l (tg : Z) : Prop := {
  ca_ok : wad_ok st' L';
  ca_dir : lumpinfo st' = lumpinfo st /\ lumpinfo_at st' = lumpinfo_at st /\ lumphash st' = lumphash st;
  ca_there : cache i st' <> 0;
  ca_tag x : x ∈ L' -> used (zn st') x -> ptr_of x = cache i st' -> tag x.2 = tg;
  ca_bytes : exists bs, data st' !! cache i st' = Some bs /\ take (Z.to_nat (Lump.size l)) bs = lump_bytes l st;
  ca_others j : j <> i -> (j < length (lumpinfo st))%nat -> cache j st' = cache j st \/ cache j st' = 0
}.

Lemma block_at z C L x y : owners C z L -> x ∈ L -> y ∈ L -> ptr_of x = ptr_of y -> x = y.
Proof. intros Ho Hx Hy E. eapply (node_eq z); [apply (ow_inv _ _ _ Ho)|apply (ow_inv _ _ _ Ho)|done|done|unfold ptr_of in *; lia]. Qed.

Lemma cache_hit st L i l tg : wad_ok st L -> lumpinfo st !! i = Some l -> cache i st <> 0 -> tg <> PU_FREE ->
  exists st' L', on_zone (Z_ChangeTag2 (cache i st) tg) st = Ret st' /\ cached_as st st' L' i l tg /\ cache i st' = cache i st /\ data st' = data st /\ files st' = files st.
Proof.
  intros Hw El H0 Ht. destruct (wo_cached _ _ Hw i l El H0) as (x & Hx & Hux & Eu & Ep & Hsz & bs & Eb & Hb). pose proof (wo_owners _ _ Hw) as Ho.
  pose proof (cache_pos st i (wo_addr _ _ Hw)) as Hpos.
  destruct (retag_owners (ours st) (zn st) L x tg Ho Hx Hux Ht) as (z' & L' & b' & Hrun & Ho' & Hf & Hc & Hb' & Hub & Epb & Eub & Esb & Etb & Hold & Hkeep); [lia|].
  set (st' := st <| zn := z' |>). exists st', L'. assert (Ecs : forall j, cache j st' = cache j st) by (intros j; unfold cache; change (cells (zn st')) with (cells z'); by rewrite Hc).
  split; [unfold on_zone; by rewrite <- Ep, Hrun|]. split; [|by split_and!].
  assert (Hcached : forall j lj, lumpinfo st !! j = Some lj -> cached_ok st' L' j lj).
  { intros j lj Ej Hj. rewrite Ecs in *. destruct (wo_cached _ _ Hw j lj Ej Hj) as (y & Hy & Huy & Euy & Epy & Hszy & bsy & Eby & Hby).
    destruct (decide (ptr_of y = ptr_of x)) as [Exy|Hne]; [rewrite (block_at (zn st) (ours st) L y x Ho Hy Hx Exy) in *|].
    - exists b'. rewrite Eub, Epb, Esb. split_and!; try done. by exists bsy.
    - destruct (Hkeep y Hy Huy ltac:(by intros ->)) as [Hy' Huy']. exists y. split_and!; try done. by exists bsy. }
  split; try done.
  - assert (Hpin : forall p, pinned (zn st) L p -> pinned z' L' p).
    { intros p (y & Hy & Huy & Epy & Euy & Ety). destruct (Hkeep y Hy Huy) as [Hy' Huy']; [intros ->; lia|]. exists y. by split_and!. }
    destruct Hw as [[W1 W2 W3 W4 W5 W6 W7] W8 W9]. split; [split; try done; intros j lj Ej; exact (Hpin _ (W6 j lj Ej))|done|].
    intros p t Eh. destruct (W9 p t Eh) as (Hne & Hp & Hd). split_and!; try done. by apply Hpin.
  - by rewrite Ecs.
  - intros y Hy Huy Epy. rewrite Ecs, <- Ep, <- Epb in Epy. by rewrite (block_at z' (ours st) L' y b' Ho' Hy Hb' Epy).
  - exists bs. rewrite Ecs. by split.
  - intros j _ _. left. apply Ecs.
Qed.

(** A block that is new: the other lumps are kept or lost. *)
Lemma malloc_kept st st' L L' tg usr len p b j lj : dir_ok st L -> owners (ours st') (zn st') L' ->
  fresh_block tg usr len p (zn st) L (zn st') L' b -> lumpinfo_at st' = lumpinfo_at st -> length (lumpinfo st') = length (lumpinfo st) ->
  (forall q, q <> p -> data st' !! q = data st !! q) -> lump_bytes lj st' = lump_bytes lj st ->
  lumpinfo st !! j = Some lj -> usr <> cache_at (lumpinfo_at st) j ->
  cached_ok st' L' j lj /\ (cache j st' <> 0 -> cache j st' = cache j st).
Proof.
  intros Hw Ho Hb Ea En Hd Hl Ej Hu. apply (kept_cached st st' L L' (fun y => y = b) j lj Hw Ej Ea En Ho); [| | |exact Hl].
  - intros y Hy Huy. destruct (fb_others _ _ _ _ _ _ _ _ _ Hb y Hy Huy) as [->|H]; auto.
  - intros y ->. split_and!; [apply Hb|apply Hb|]. by rewrite (fb_user _ _ _ _ _ _ _ _ _ Hb).
  - intros q Hq. apply Hd. intros ->. apply (Hq b eq_refl). by rewrite <- (fb_ptr _ _ _ _ _ _ _ _ _ Hb).
Qed.
Lemma pinned_kept z L z' L' b p : framed z z' -> zone_inv z' L' -> b ∈ L' -> (forall x, x ∈ L -> unpurgable x -> exists y, y ∈ L' /\ same x y /\ y <> b) ->
  pinned z L p -> pinned z' L' p /\ p <> ptr_of b.
Proof.
  intros Hf Hi Hb Hk (x & Hx & Hux & Ep & Eu & Et). destruct (Hk x Hx) as (y & Hy & Hs & Hne); [by split; [apply Hux|rewrite Et]|].
  destruct (same_ptr _ _ Hs) as [Ep' Eu']. split.
  - exists y. split_and!; [done|by apply (same_used z z' x y)|congruence|congruence|]. by destruct Hs as (_ & _ & _ & <- & _).
  - intros E. apply Hne. eapply (node_eq z'); [apply Hi|apply Hi|done|done|unfold ptr_of in *; lia].
Qed.
Lemma wad_malloc_run st L len tg usr : dir_ok st L -> 0 <= len <= INT_MAX - 64 -> tg <> PU_FREE -> (usr <> 0 -> vacant (zn st) usr) ->
  (exists msg, wad_malloc len tg usr st = Fatal msg) \/
  exists p z' L' b, wad_malloc len tg usr st = Ret (p, st <| zn := z' |> <| data ::= <[p := raw_bytes p]> |>) /\ 0 < p /\ owners (ours st) z' L' /\
    framed (zn st) z' /\ fresh_block tg usr len p (zn st) L z' L' b /\ (forall p', pinned (zn st) L p' -> pinned z' L' p' /\ p' <> p).
Proof.
  intros Hw Hl Ht Hv. pose proof (wo_owners _ _ Hw) as Ho. unfold wad_malloc.
  destruct (malloc_owners (ours st) (S (stdpp.base.size (mem (zn st)))) raw_id len tg usr (zn st) L Ho) as [(msg & ->)|(p & z' & L' & b & -> & Ho' & Hf & Hb & Hk)];
    try done; [pose proof (zone_length _ _ (proj1 (ow_inv _ _ _ Ho))); lia|left; by exists msg|]. right. exists p, z', L', b. split_and!; try done.
  - rewrite (fb_ptr _ _ _ _ _ _ _ _ _ Hb). apply (used_addr z' L' b); [apply Ho'|apply Hb|apply Ho'|apply Hb].
  - intros p' Hp'. rewrite (fb_ptr _ _ _ _ _ _ _ _ _ Hb). apply (pinned_kept (zn st) L z' L' b p'); [done|apply Ho'|apply Hb|done|done].
Qed.
Lemma set_cell_same c p (z : zone) : cells z !! c = Some p -> set_cell c p z = z.
Proof. intros E. unfold set_cell. destruct z. cbn in *. by rewrite insert_id. Qed.
Lemma cache_vacant st i : cache i st = 0 -> vacant (zn st) (cache_at (lumpinfo_at st) i).
Proof. unfold cache, vacant. destruct (cells (zn st) !! _); cbn; [intros ->|]; auto. Qed.

Lemma same_files st wad w w' i l : files st !! wad = Some w -> same_file w w' ->
  (exists v, files st !! Lump.wad_file l = Some v /\ mapped v = 0) -> lumpinfo st !! i = Some l ->
  exists v, <[wad := w']> (files st) !! Lump.wad_file l = Some v /\ mapped v = 0.
Proof.
  intros E (Em & _) (v & Ev & Hv) _. destruct (decide (wad = Lump.wad_file l)) as [->|Hne].
  - exists w'. rewrite lookup_insert_eq. split; [done|]. congruence.
  - exists v. by rewrite lookup_insert_ne.
Qed.

(** Loading a lump that is not in memory. *)
Definition load (lumpnum tg : Z) i st : outcome (Z * wads F) :=
  let* len := W_LumpLength lumpnum st in
  let* '(p, st) := wad_malloc len tg (cache_at (lumpinfo_at st) i) st in
  let st := st <| zn ::= set_cell (cache_at (lumpinfo_at st) i) p |> in
  let* st := W_ReadLump lumpnum (cache i st) st in
  Ret (cache i st, st).
Lemma cache_miss st L i l tg : wad_ok st L -> lumpinfo st !! i = Some l -> in_file l st -> cache i st = 0 -> tg <> PU_FREE ->
  (exists msg, load (Z.of_nat i) tg i st = Fatal msg) \/
  exists st' L', load (Z.of_nat i) tg i st = Ret (cache i st', st') /\ cached_as st st' L' i l tg.
Proof.
  intros Hw El Hf H0 Ht. destruct (wo_files _ _ Hw i l El) as (w & Ew & Hm). pose proof (cache_pos st i (wo_addr _ _ Hw)) as Hpos.
  set (usr := cache_at (lumpinfo_at st) i) in *. unfold load, W_LumpLength. rewrite (get_lump_run i l) by (done || apply (wo_count _ _ Hw)). cbn [obind]. fold usr.
  destruct (wad_malloc_run st L (Lump.size l) tg usr Hw) as [(msg & Em)|(p & z' & L' & b & Em & Hp & Ho & Hfr & Hb & Hk)];
    [exact (if_size _ _ Hf)|exact Ht|intros _; exact (cache_vacant st i H0)|rewrite Em; left; by exists msg|].
  right. rewrite Em. clear Em. cbn [obind].
  set (st1 := st <| zn := z' |> <| data ::= <[p := raw_bytes p]> |>). pose proof (fb_cell _ _ _ _ _ _ _ _ _ Hb ltac:(lia)) as Hc.
  assert (E1 : st1 <| zn ::= set_cell (cache_at (lumpinfo_at st1) i) p |> = st1) by (unfold st1; destruct st; unfold update; cbn in *; by rewrite set_cell_same).
  rewrite E1. assert (Ec : cache i st1 = p) by (unfold cache; change (cells (zn st1)) with (cells z'); change (lumpinfo_at st1) with (lumpinfo_at st); fold usr; by rewrite Hc). rewrite Ec.
  assert (Ed1 : data st1 !! p = Some (raw_bytes p)) by exact (lookup_insert_eq (data st) p (raw_bytes p)).
  assert (Hf1 : in_file l st1) by (destruct Hf as [F1 F2 F3]; split; [exact F1|exact F2|exact F3]).
  destruct (W_ReadLump_run i l w p (raw_bytes p) st1 El (wo_count _ _ Hw) Hf1 Ew Ed1) as (w' & bs & Er & Hs & Hbs).
  rewrite Er. clear Er. cbn [obind]. set (st2 := st1 <| files ::= _ |> <| data ::= _ |>). exists st2, L'. split; [done|].
  assert (Elb : forall lj, lump_bytes lj st2 = lump_bytes lj st) by (intros lj; exact (same_bytes lj st _ w w' Ew Hs)).
  assert (Ed : forall q, q <> p -> data st2 !! q = data st !! q).
  { intros q Hq. change (<[p := bs]> (<[p := raw_bytes p]> (data st)) !! q = data st !! q). by rewrite !lookup_insert_ne. }
  assert (Ed2 : data st2 !! p = Some bs) by apply lookup_insert_eq.
  assert (Hok : forall j lj, lumpinfo st !! j = Some lj -> j <> i -> cached_ok st2 L' j lj /\ (cache j st2 <> 0 -> cache j st2 = cache j st)).
  { intros j lj Ej Hne. apply (malloc_kept st st2 L L' tg usr (Lump.size l) p b j lj Hw Ho Hb); try done. intros E%cache_at_inj. done. }
  assert (Hci : cached_ok st2 L' i l).
  { intros _. exists b. change (cache i st2) with (cache i st1). change (lumpinfo_at st2) with (lumpinfo_at st). rewrite Ec. split_and!; try apply Hb.
    - symmetry. apply Hb.
    - exists bs. rewrite Elb. split; [done|exact Hbs]. }
  split.
  - split; [split|exact (wo_table _ _ Hw)|].
    + done.
    + exact (wo_addr _ _ Hw).
    + exact (wo_count _ _ Hw).
    + exact (wo_names _ _ Hw).
    + intros j lj Ej. exact (same_files st _ w w' j lj Ew Hs (wo_files _ _ Hw j lj Ej) Ej).
    + intros j lj Ej. exact (proj1 (Hk _ (wo_pinned _ _ Hw j lj Ej))).
    + intros j lj Ej. destruct (decide (j = i)) as [->|Hne]; [|by apply Hok]. change (lumpinfo st !! i = Some lj) in Ej. by replace lj with l by congruence.
    + intros q t Eq. destruct (wo_hash _ _ Hw q t Eq) as (Hne & Hq & Hd). split; [done|]. split; [exact (proj1 (Hk _ Hq))|done].
  - done.
  - change (cache i st2) with (cache i st1). lia.
  - intros x Hx Hux Ex. change (cache i st2) with (cache i st1) in Ex. rewrite Ec, (fb_ptr _ _ _ _ _ _ _ _ _ Hb) in Ex.
    rewrite (block_at z' (ours st) L' x b Ho Hx (fb_in _ _ _ _ _ _ _ _ _ Hb) Ex). apply Hb.
  - exists bs. change (cache i st2) with (cache i st1). rewrite Ec. by split.
  - intros j Hne Hj. destruct (lookup_lt_is_Some_2 (lumpinfo st) j Hj) as [lj Ej]. destruct (Hok j lj Ej Hne) as [_ H].
    destruct (decide (cache j st2 = 0)); [by right|left; by apply H].
Qed.

Lemma CacheLumpNum_run st L i l tg : wad_ok st L -> lumpinfo st !! i = Some l -> in_file l st -> tg <> PU_FREE ->
  (cache i st = 0 /\ exists msg, W_CacheLumpNum (Z.of_nat i) tg st = Fatal msg) \/
  exists st' L', W_CacheLumpNum (Z.of_nat i) tg st = Ret (cache i st', st') /\ cached_as st st' L' i l tg /\
    (cache i st <> 0 -> cache i st' = cache i st /\ data st' = data st /\ files st' = files st).
Proof.
  intros Hw El Hf Ht. destruct (wo_files _ _ Hw i l El) as (w & Ew & Hm). unfold W_CacheLumpNum. rewrite (get_lump_run i l) by (done || apply (wo_count _ _ Hw)).
  cbn [obind]. rewrite Ew. cbn [of_option obind]. rewrite Hm. cbn [Z.eqb negb]. destruct (cache i st =? 0) eqn:E0; breflect; cbn [negb].
  - destruct (cache_miss st L i l tg Hw El Hf E0 Ht) as [(msg & E)|(st' & L' & E & H)]; [left|right].
    + split; [done|]. exists msg. exact E.
    + exists st', L'. split; [exact E|]. split; [done|]. intros H0. done.
  - right. destruct (cache_hit st L i l tg Hw El E0 Ht) as (st' & L' & E & H & Ec & Ed & Ef). exists st', L'. rewrite E. cbn [obind]. rewrite Ec. by split_and!.
Qed.

End wad.
