(* ===== verification/WadAddFile.v ===== *)
(** * Adding a file of lumps

    W_AddFile opens a file, reads its directory, makes room for the new lumps
    and copies the old ones with their blocks. *)
From S2P Require Import Prelude KeyInput Stdio Zone ZoneFacts ZoneMalloc ZoneWalks ZoneOwners Wad WadSearch WadTheorems.
#[local] Open Scope doom_scope.


(** * The directory of lumps and the zone

    W_GenerateHashTable and W_AddFile keep the state of the module valid: the
    lumps that were cached stay in the zone with their bytes. *)

Section directory.
Context {A : Arch} {F : Type} {ops : FdOps F} {view : F -> fview} {reg : RegularFile F view} {seek : SeekableFile F view} {host : WadHost F}.
#[local] Abbreviation dir_ok := (WadTheorems.dir_ok (view := view)).
#[local] Abbreviation wad_ok := (WadTheorems.wad_ok (view := view)).
#[local] Abbreviation cached_ok := (WadTheorems.cached_ok (view := view)).
#[local] Abbreviation lump_bytes := (WadTheorems.lump_bytes (view := view)).
Implicit Types (st : wads F) (L : list node) (i j : nat) (l : Lump.lumpinfo_t).

(** Some cached lumps may be lost, others are not touched. *)
Definition caches_kept st st' : Prop := forall j, (j < length (lumpinfo st))%nat -> cache j st' = cache j st \/ cache j st' = 0.

(** ** Blocks of the module itself are given back *)
Lemma free_pinned st L p : dir_ok st L -> pinned (zn st) L p -> (forall i l, lumpinfo st !! i = Some l -> Lump.wad_file l <> p) ->
  exists z' L', Z_Free p (zn st) = Ret z' /\ dir_ok (st <| zn := z' |>) L' /\ cells z' = cells (zn st) /\
    (forall q, q <> p -> pinned (zn st) L q -> pinned z' L' q).
Proof.
  intros Hw (b & Hb & Hub & <- & Eub & Etb) Hd. pose proof (wo_owners _ _ Hw) as Ho.
  destruct (free_owners (ours st) (zn st) L b Ho Hb Hub) as (z' & L' & Hrun & Hcells & Ho' & Hf & Hfrom & _ & Hkeep & _).
  assert (Hpin : forall q, q <> ptr_of b -> pinned (zn st) L q -> pinned z' L' q).
  { intros q Hq (x & Hx & Hux & Ep & Eu & Et). destruct (Hkeep x Hx Hux ltac:(by intros ->)) as (y & Hy & Hs). destruct (same_ptr _ _ Hs) as [Ep' Eu'].
    exists y. split_and!; [done|by apply (same_used (zn st) z' x y)|congruence|congruence|]. by destruct Hs as (_ & _ & _ & <- & _). }
  exists z', L'. split; [done|]. split; [|by split; [apply Hcells|]]. destruct Hw as [W1 W2 W3 W4 W5 W6 W7]. split; try done.
  - intros i l E. apply Hpin; [by eapply Hd|by eapply W6].
  - intros i l E. apply (kept_cached st (st <| zn := z' |>) L L' (fun _ => False) i l); try done.
    intros y Hy Huy. right. destruct (Hfrom y Hy (proj2 Huy)) as (x & Hx & Hs). exists x. split_and!; [done|by apply (same_used (zn st) z' x y)|done].
Qed.

(** ** Blocks of the module itself are made *)
Lemma pinned_data st L p bs : dir_ok st L -> pinned (zn st) L p -> dir_ok (st <| data ::= <[p := bs]> |>) L.
Proof.
  intros Hw (b & Hb & Hub & <- & Eub & _). destruct Hw as [W1 W2 W3 W4 W5 W6 W7]. split; try done.
  intros i l E H0. destruct (W7 i l E H0) as (x & Hx & Hux & Eu & Ep & Hsz & bx & Ed & Hbx). exists x. split_and!; try done. exists bx. split; [|exact Hbx].
  change (<[ptr_of b := bs]> (data st) !! cache i st = Some bx). rewrite lookup_insert_ne; [done|]. intros E'. rewrite <- Ep in E'.
  rewrite (block_at (zn st) (ours st) L b x W1 Hb Hx E') in Eub. pose proof (cache_pos st i W2). lia.
Qed.
Lemma malloc_static st L len : dir_ok st L -> 0 <= len <= INT_MAX - 64 ->
  (exists msg, wad_malloc len PU_STATIC 0 st = Fatal msg) \/
  exists p z' L', wad_malloc len PU_STATIC 0 st = Ret (p, st <| zn := z' |> <| data ::= <[p := raw_bytes p]> |>) /\
    dir_ok (st <| zn := z' |> <| data ::= <[p := raw_bytes p]> |>) L' /\ 0 < p /\ pinned z' L' p /\
    (forall q, pinned (zn st) L q -> pinned z' L' q /\ q <> p) /\ caches_kept st (st <| zn := z' |>) /\
    (forall y, y ∈ L' -> used z' y -> user y.2 = 0 \/ exists x, x ∈ L /\ used (zn st) x /\ same x y).
Proof.
  intros Hw Hl. destruct (wad_malloc_run st L len PU_STATIC 0 Hw Hl) as [(msg & E)|(p & z' & L' & b & E & Hp & Ho & Hf & Hb & Hk)]; [done|done|left; by exists msg|].
  right. exists p, z', L'. set (st' := st <| zn := z' |> <| data ::= _ |>). split; [done|].
  assert (Hj : forall j lj, lumpinfo st !! j = Some lj -> cached_ok st' L' j lj /\ (cache j st' <> 0 -> cache j st' = cache j st)).
  { intros j lj Ej. apply (malloc_kept st st' L L' PU_STATIC 0 len p b j lj Hw Ho Hb); try done.
    - intros q Hq. change (<[p := raw_bytes p]> (data st) !! q = data st !! q). by rewrite lookup_insert_ne.
    - pose proof (cache_pos st j (wo_addr _ _ Hw)). lia. }
  assert (Hpb : pinned z' L' p) by (exists b; split_and!; [apply Hb|apply Hb|by rewrite (fb_ptr _ _ _ _ _ _ _ _ _ Hb)|apply Hb|apply Hb]).
  split_and!; try done.
  - destruct Hw as [W1 W2 W3 W4 W5 W6 W7]. split; try done.
    + intros i l El. by apply Hk, (W6 i).
    + intros i l El. by apply Hj.
  - intros j Hlt. destruct (lookup_lt_is_Some_2 (lumpinfo st) j Hlt) as [lj Ej]. destruct (Hj j lj Ej) as [_ H].
    destruct (decide (cache j st' = 0)); [by right|left; by apply H].
  - intros y Hy Huy. destruct (fb_others _ _ _ _ _ _ _ _ _ Hb y Hy Huy) as [->|Hx]; [left; apply Hb|by right].
Qed.

(** ** The hash table *)
Definition hash_pinned st L : Prop := forall p t, lumphash st = Some (p, t) ->
  pinned (zn st) L p /\ forall i l, lumpinfo st !! i = Some l -> Lump.wad_file l <> p.
Lemma wad_hash_pinned st L : wad_ok st L -> hash_pinned st L.
Proof. intros Hw p t E. exact (proj2 (wo_hash _ _ Hw p t E)). Qed.
Lemma any_hash st L h : dir_ok st L -> dir_ok (st <| lumphash := h |>) L.
Proof. intros [W1 W2 W3 W4 W5 W6 W7]. by split. Qed.
Lemma drop_hash st L : dir_ok st L -> hash_pinned st L -> exists z' L',
  match lumphash st with Some (p, _) => on_zone (Z_Free p) st | None => Ret st end = Ret (st <| zn := z' |>) /\
  dir_ok (st <| zn := z' |>) L' /\ cells z' = cells (zn st).
Proof.
  intros Hw Hh. destruct (lumphash st) as [[p t]|] eqn:Eh.
  - destruct (Hh p t Eh) as (Hp & Hd). destruct (free_pinned st L p Hw Hp Hd) as (z' & L' & E & Hw' & Hc & _).
    exists z', L'. split; [|done]. unfold on_zone. by rewrite E.
  - exists (zn st), L. split; [by destruct st|]. split; [|done]. by replace (st <| zn := zn st |>) with st by (by destruct st).
Qed.

Lemma links_lump (l l' : list Lump.lumpinfo_t) i x : only_links l l' -> l' !! i = Some x -> exists y, l !! i = Some y /\ x = y <| Lump.next := Lump.next x |>.
Proof. intros H E. destruct (Forall2_lookup_r _ _ _ _ _ H E) as (y & Ey & Hy). eauto. Qed.
Lemma links_ok st L (l' : list Lump.lumpinfo_t) : dir_ok st L -> only_links (lumpinfo st) l' -> dir_ok (st <| lumpinfo := l' |>) L.
Proof.
  intros Hw Hl. destruct (links_key _ _ Hl) as (_ & Hlen & Hn). set (st' := st <| lumpinfo := l' |>).
  destruct Hw as [W1 W2 W3 W4 W5 W6 W7].
  assert (En : forall c, ours st' c <-> ours st c) by (intros c; unfold ours; change (lumpinfo st') with l'; by rewrite Hlen).
  split; try done.
  - destruct W1 as [O1 O2 O3 O4]. split; try done. intros c p Hc. apply O4. by apply En.
  - unfold numlumps in *. change (lumpinfo st') with l'. by rewrite Hlen.
  - by apply Hn.
  - intros i x E. destruct (links_lump _ _ i x Hl E) as (y & Ey & ->). apply (W5 i y Ey).
  - intros i x E. destruct (links_lump _ _ i x Hl E) as (y & Ey & ->). apply (W6 i y Ey).
  - intros i x E H0. destruct (links_lump _ _ i x Hl E) as (y & Ey & ->). exact (W7 i y Ey H0).
Qed.
Lemma links_first (l l' : list Lump.lumpinfo_t) name ks : only_links l l' -> first_named l' name ks = first_named l name ks.
Proof.
  intros H. destruct (links_key _ _ H) as (Hk & _). induction ks as [|k ks IH]; [done|]. rewrite !first_named_cons, Hk, IH. done.
Qed.
Lemma check_num_ok st L name : wad_ok st L -> a_name name -> W_CheckNumForName name st = Ret (first_named (lumpinfo st) name (downto (length (lumpinfo st)))).
Proof.
  intros Hw Hn. apply check_num_run; [exact (wo_names _ _ Hw)|done|exact (wo_count _ _ Hw)|exact (wo_table _ _ Hw)|].
  intros H. destruct (lumphash st) as [[p t]|] eqn:E; [|done]. by destruct (wo_hash _ _ Hw p t E).
Qed.

Lemma GenerateHashTable_run st L : wad_ok st L -> numlumps st <= 2 ^ 27 ->
  (exists msg, W_GenerateHashTable st = Fatal msg) \/
  exists st' L', W_GenerateHashTable st = Ret st' /\ wad_ok st' L' /\ only_links (lumpinfo st) (lumpinfo st') /\
    (lumpinfo st <> [] -> lumphash st' <> None) /\ caches_kept st st'.
Proof.
  intros Hw Hm. destruct (drop_hash st L Hw (wad_hash_pinned _ _ Hw)) as (z1 & L1 & E1 & Hw1 & Hc1). unfold W_GenerateHashTable. rewrite E1. cbn [obind].
  set (st1 := st <| zn := z1 |>) in *.
  assert (Ek : forall j, cache j st1 = cache j st) by (intros j; unfold cache; change (cells (zn st1)) with (cells z1); by rewrite Hc1).
  change (numlumps st1) with (numlumps st). rewrite Z.gtb_ltb. destruct (0 <? numlumps st) eqn:E0; breflect.
  - assert (Hi : i32 (wrapu word_bits (sizeof_ptr * numlumps st)) = sizeof_ptr * numlumps st /\ 0 <= sizeof_ptr * numlumps st <= INT_MAX - 64).
    { assert (Hs : sizeof_ptr = 4 \/ sizeof_ptr = 8) by (unfold sizeof_ptr; destruct the_abi; auto). change (2 ^ 27) with 134217728 in Hm.
      rewrite wrapu_small by (unfold INT_MAX; lia). split; [|unfold INT_MAX; lia]. apply wraps_id; [lia|]. unfold fits_s. change (2 ^ (32 - 1)) with 2147483648. lia. }
    destruct Hi as [-> Hi]. destruct (malloc_static st1 L1 _ Hw1 Hi) as [(msg & ->)|(p & z2 & L2 & -> & Hw2 & Hp & Hpin & Hpk & Hck & _)]; [left; by exists msg|right].
    cbn [obind]. set (st2n := st1 <| zn := z2 |> <| data ::= _ |>) in *. set (table := replicate _ None).
    set (st2 := st2n <| lumphash := Some (p, table) |>).
    destruct (hook_all_run (length (lumpinfo st)) 0 st2 p table) as (l' & t' & E & Hl & Hh);
      [done|exact (wo_names _ _ Hw)|exact (wo_count _ _ Hw)|done|apply empty_table|].
    exists (st2 <| lumpinfo := l' |> <| lumphash := Some (p, t') |>), L2. split; [exact E|]. split_and!; try done.
    + split; [exact (any_hash _ _ (Some (p, t')) (links_ok st2n L2 l' Hw2 Hl))|exact Hh|]. intros q t [= <- <-]. split_and!; [|done|].
      * intros En. pose proof (Forall2_length _ _ _ Hl) as El. change (l' = []) in En. rewrite En in El. change (length (lumpinfo st) = 0%nat) in El. unfold numlumps in E0. lia.
      * intros i x Ex. change (l' !! i = Some x) in Ex. destruct (links_lump _ _ i x Hl Ex) as (y & Ey & ->). exact (proj2 (Hpk _ (wo_pinned _ _ Hw1 i y Ey))).
    + intros j Hj. rewrite <- !Ek. exact (Hck j Hj).
  - assert (Hnil : lumpinfo st = []) by (unfold numlumps in E0; destruct (lumpinfo st); [done|cbn in E0; lia]).
    assert (Eh : lumphash st = None) by (destruct (lumphash st) as [[p t]|] eqn:Eh; [|done]; by destruct (wo_hash _ _ Hw p t Eh)).
    right. exists st1, L1. split_and!; try done.
    + split; [done|unfold table_ok; change (lumphash st1) with (lumphash st); by rewrite Eh|]. intros p t E. change (lumphash st = Some (p, t)) in E. congruence.
    + intros j _. left. apply Ek.
Qed.
End directory.

(** * Adding a file of lumps *)
Section add.
Context {A : Arch} {F : Type} {ops : FdOps F} {view : F -> fview} {reg : RegularFile F view} {seek : SeekableFile F view} {host : WadHost F}.
#[local] Abbreviation dir_ok := (WadTheorems.dir_ok (view := view)).
#[local] Abbreviation same_file := (WadTheorems.same_file (view := view)).
#[local] Abbreviation lump_bytes := (WadTheorems.lump_bytes (view := view)).
#[local] Abbreviation contents w := (fdata (view (fstream w))).
Implicit Types (st : wads F) (L : list node) (i j : nat) (l : Lump.lumpinfo_t).

(** ** What every step carries over *)
Record carried st L st' L' : Prop := {
  cr_dir : dir_ok st' L';
  cr_lumps : lumpinfo st' = lumpinfo st;
  cr_at : lumpinfo_at st' = lumpinfo_at st;
  cr_hash : lumphash st' = lumphash st;
  cr_caches : caches_kept st st';
  cr_pinned q : pinned (zn st) L q -> pinned (zn st') L' q;
  cr_users y : y ∈ L' -> used (zn st') y -> user y.2 <> 0 -> exists x, x ∈ L /\ used (zn st) x /\ same x y
}.
Lemma carried_refl st L : dir_ok st L -> carried st L st L.
Proof. intros H. split; try done; [intros j _; by left|]. intros y Hy Huy _. exists y. split_and!; [done|done|apply same_refl]. Qed.
Lemma carried_trans st1 L1 st2 L2 st3 L3 : carried st1 L1 st2 L2 -> carried st2 L2 st3 L3 -> carried st1 L1 st3 L3.
Proof.
  intros [A1 A2 A3 A4 A5 A6 A7] [B1 B2 B3 B4 B5 B6 B7]. split; try congruence.
  - intros j Hj. destruct (B5 j) as [-> |H]; [congruence|by apply A5|by right].
  - auto.
  - intros y Hy Huy H0. destruct (B7 y Hy Huy H0) as (x & Hx & Hux & Hs). destruct (A7 x Hx Hux) as (w & Hw & Huw & Hs').
    + by rewrite (proj2 (same_ptr _ _ Hs)).
    + exists w. split_and!; [done|done|by eapply same_trans].
Qed.

(** ** Reading and opening *)
Lemma read_ok st L wad w w' : dir_ok st L -> files st !! wad = Some w -> same_file w w' -> carried st L (st <| files ::= <[wad := w']> |>) L.
Proof.
  intros Hw Ew Hs. set (st' := st <| files ::= _ |>). destruct (carried_refl st L Hw) as [_ C2 C3 C4 C5 C6 C7]. split; try done.
  destruct Hw as [W1 W2 W3 W4 W5 W6 W7]. split; try done.
  - intros i l E. exact (same_files st wad w w' i l Ew Hs (W5 i l E) E).
  - intros i l E H0. destruct (W7 i l E H0) as (x & Hx & Hux & Eu & Ep & Hsz & bx & Ed & Hbx). exists x. split_and!; try done. exists bx. split; [done|].
    unfold st'. by rewrite (same_bytes l st wad w w' Ew Hs).
Qed.
Lemma new_file st L p w : dir_ok st L -> (forall i l, lumpinfo st !! i = Some l -> Lump.wad_file l <> p) -> carried st L (st <| files ::= <[p := w]> |>) L.
Proof.
  intros Hw Hp. set (st' := st <| files ::= _ |>). destruct (carried_refl st L Hw) as [_ C2 C3 C4 C5 C6 C7].
  assert (Hf : forall i l, lumpinfo st !! i = Some l -> files st' !! Lump.wad_file l = files st !! Lump.wad_file l)
    by (intros i l E; apply lookup_insert_ne; intros E'; by apply (Hp i l E)).
  split; try done. destruct Hw as [W1 W2 W3 W4 W5 W6 W7]. split; try done.
  - intros i l E. rewrite (Hf i l E). exact (W5 i l E).
  - intros i l E H0. destruct (W7 i l E H0) as (x & Hx & Hux & Eu & Ep & Hsz & bx & Ed & Hbx). exists x. split_and!; try done. exists bx. split; [done|].
    unfold lump_bytes. by rewrite (Hf i l E).
Qed.

Lemma seek_keeps f off : exists r e f', fseek off SEEK_SET f 0 = (r, f', e) /\ fdata (view f') = fdata (view f).
Proof.
  assert (H : exists r f', fd_lseek off SEEK_SET f = (r, f') /\ fdata (view f') = fdata (view f)).
  { destruct (decide (0 <= off <= Z.of_nat (length (fdata (view f))))) as [Hin|Hout].
    - destruct (seek_law f off Hin) as (f' & E & V). exists off, f'. by rewrite V.
    - assert (Ho : off < 0 \/ Z.of_nat (length (fdata (view f))) < off) by lia. destruct (seek_past f off Ho) as (f' & E & V). exists (-1), f'. by rewrite V. }
  destruct H as (r & f' & E & V). unfold fseek. rewrite E. destruct (errno_wrap r 0) as [ret e]. by eexists _, _, f'.
Qed.
Lemma FileLength_run f : exists f', M_FileLength f = (Z.of_nat (length (fdata (view f))), f') /\ fdata (view f') = fdata (view f).
Proof.
  assert (Hge : forall n e, errno_wrap (Z.of_nat n) e = (Z.of_nat n, e)) by (intros n e; unfold errno_wrap; by rewrite Z.geb_leb, (proj2 (Z.leb_le _ _)) by lia).
  unfold M_FileLength, ftell. destruct (tell_law f) as (f1 & E1 & V1). rewrite E1, Hge. unfold fseek at 1. destruct (seek_end f1) as (f2 & E2 & V2). rewrite E2, Hge.
  destruct (tell_law f2) as (f3 & E3 & V3). rewrite E3, Hge. destruct (seek_keeps f3 (Z.of_nat (fpos (view f)))) as (r & e & f4 & E4 & V4). rewrite E4.
  exists f4. rewrite V4, V3, V2, V1. cbn [fdata fpos]. done.
Qed.
Lemma static_carried st L len : dir_ok st L -> 0 <= len <= INT_MAX - 64 ->
  (exists msg, wad_malloc len PU_STATIC 0 st = Fatal msg) \/
  exists p z' L', let st' := st <| zn := z' |> <| data ::= <[p := raw_bytes p]> |> in wad_malloc len PU_STATIC 0 st = Ret (p, st') /\
    carried st L st' L' /\ 0 < p /\ pinned z' L' p /\ (forall q, pinned (zn st) L q -> q <> p).
Proof.
  intros Hw Hl. destruct (malloc_static st L len Hw Hl) as [H|(p & z' & L' & E & Hw' & Hp & Hpin & Hk & Hc & Hu)]; [by left|right].
  exists p, z', L'. cbv zeta. split_and!; try done.
  - split; try done; [intros q Hq; by apply Hk|]. intros y Hy Huy H0. by destruct (Hu y Hy Huy).
  - intros q Hq. by apply Hk.
Qed.
Lemma W_OpenFile_run path fp st L : dir_ok st L -> (fopen sys_open path "rb" 0).1 = fp -> fp <> 0 ->
  (exists msg, W_OpenFile path st = Fatal msg) \/
  exists p w st' L', W_OpenFile path st = Ret (p, st') /\ carried st L st' L' /\ 0 < p /\ pinned (zn st') L' p /\ (forall q, pinned (zn st) L q -> q <> p) /\
    files st' !! p = Some w /\ mapped w = 0 /\ contents w = fdata (view (file_of fp)).
Proof.
  intros Hw <- H0. unfold W_OpenFile. destruct (fopen sys_open path "rb" 0) as [fp e]. cbn [fst] in *. rewrite (proj2 (Z.eqb_neq _ _)) by done.
  assert (Hsz : 0 <= sizeof_stdc_wad_file <= INT_MAX - 64) by (unfold sizeof_stdc_wad_file, INT_MAX; destruct the_abi; lia).
  destruct (static_carried st L _ Hw Hsz) as [(msg & ->)|(p & z' & L' & E & Hc & Hp & Hpin & Hne)]; [left; by exists msg|right].
  rewrite E. cbn [obind]. destruct (FileLength_run (file_of fp)) as (f' & -> & V). exists p, (mk_wad_file 0 (u32 (Z.of_nat (length (fdata (view (file_of fp)))))) f'). eexists _, L'. split; [reflexivity|].
  assert (Hd : forall i l, lumpinfo st !! i = Some l -> Lump.wad_file l <> p) by (intros i l El; apply Hne; exact (wo_pinned _ _ Hw i l El)).
  split; [eapply carried_trans; [exact Hc|apply new_file; [exact (cr_dir _ _ _ _ Hc)|exact Hd]]|]. split_and!; [done|done|done|exact (lookup_insert_eq _ _ _)|done|exact V].
Qed.

(** ** The directory *)

(** The bytes of a file of lumps: an identification, the number of lumps, and
    where the directory is. *)
Record wad_image (bs : list Z) (num : nat) (dir : list Z) : Prop := {
  wi_id : take 4 bs = bytes_of "IWAD" \/ take 4 bs = bytes_of "PWAD";
  wi_num : LONG 4 bs = Ret (Z.of_nat num);
  wi_dir : exists ofs, LONG 8 bs = Ret (Z.of_nat ofs) /\ (ofs + 16 * num <= length bs)%nat /\ dir = take (16 * num) (drop ofs bs);
  wi_length : Z.of_nat (length bs) <= INT_MAX - 64
}.
Lemma header_run bs r v : LONG 8 bs = Ret v ->
  take 4 (take 12 bs ++ r) = take 4 bs /\ LONG 4 (take 12 bs ++ r) = LONG 4 bs /\ LONG 8 (take 12 bs ++ r) = LONG 8 bs /\ (12 <= length bs)%nat.
Proof. do 12 (destruct bs as [|? bs]; [done|]). intros _. split_and!; try done. cbn. lia. Qed.
Lemma read_directory_run filename p w st L num dir : dir_ok st L -> is_wad_name filename = Ret true -> files st !! p = Some w -> wad_image (contents w) num dir ->
  (exists msg, read_directory filename p st = Fatal msg) \/
  exists fi rest w' st' L', read_directory filename p st = Ret (fi, Z.of_nat num, st') /\ carried st L st' L' /\ 0 < fi /\ pinned (zn st') L' fi /\
    (forall q, pinned (zn st) L q -> q <> fi) /\ data st' !! fi = Some (dir ++ rest) /\ files st' !! p = Some w' /\ same_file w w'.
Proof.
  intros Hw Hn Ew [H1 H2 (ofs & H3 & H4 & ->) H5]. unfold read_directory. rewrite Hn. cbn [obind negb].
  destruct (W_Read_run p w 0 (raw_bytes 0) sizeof_wadinfo st Ew) as (w1 & -> & Hs1); [unfold INT_MAX; lia|unfold INT_MAX, sizeof_wadinfo; lia|lia|].
  cbn [obind]. set (st1 := st <| files ::= _ |>). unfold bytes_at. change (Z.to_nat sizeof_wadinfo) with 12%nat. change (Z.to_nat 0) with 0%nat. rewrite drop_0.
  destruct (header_run (contents w) (drop (length (take 12 (contents w))) (raw_bytes 0)) (Z.of_nat ofs) H3) as (E1 & E2 & E3 & _). rewrite E1, E2, E3, H2, H3.
  assert (Eid : negb (bool_decide (take 4 (contents w) = bytes_of "IWAD")) && negb (bool_decide (take 4 (contents w) = bytes_of "PWAD")) = false).
  { destruct H1 as [H1|H1]; rewrite H1; [by rewrite (bool_decide_eq_true_2 (bytes_of "IWAD" = _))|]. rewrite andb_false_intro2; [done|]. by rewrite bool_decide_eq_true_2. }
  rewrite Eid. cbn [obind].
  assert (Elen : i32 (wrapu word_bits (Z.of_nat num * Z.of_nat sizeof_filelump)) = Z.of_nat (16 * num)).
  { unfold sizeof_filelump. rewrite wrapu_small by lia. replace (Z.of_nat num * Z.of_nat 16) with (Z.of_nat (16 * num)) by lia.
    apply wraps_id; [lia|]. unfold fits_s, INT_MAX in *. change (2 ^ (32 - 1)) with 2147483648. lia. }
  rewrite Elen. pose proof (read_ok st L p w w1 Hw Ew Hs1) as C1.
  destruct (static_carried st1 L (Z.of_nat (16 * num)) (cr_dir _ _ _ _ C1)) as [(msg & ->)|(fi & z2 & L2 & -> & C2 & Hp & Hpin & Hne)]; [lia|left; by exists msg|right].
  cbn [obind]. set (st2 := st1 <| zn := z2 |> <| data ::= _ |>) in *. assert (Ew2 : files st2 !! p = Some w1) by exact (lookup_insert_eq _ _ _).
  rewrite wrapu_small by lia. destruct Hs1 as (S1 & S2 & S3).
  destruct (W_Read_run p w1 (Z.of_nat ofs) (raw_bytes fi) (Z.of_nat (16 * num)) st2 Ew2) as (w3 & -> & Hs3); [lia|lia|rewrite S3; lia|].
  cbn [obind]. set (st3 := st2 <| files ::= _ |>). unfold bytes_at. rewrite !Nat2Z.id, S3. set (bs := take (16 * num) (drop ofs (contents w))).
  exists fi, (drop (length bs) (raw_bytes fi)), w3. eexists _, L2. split; [reflexivity|].
  pose proof (read_ok st2 L2 p w1 w3 (cr_dir _ _ _ _ C2) Ew2 Hs3) as C3. fold st3 in C3. pose proof (carried_trans _ _ _ _ _ _ C1 (carried_trans _ _ _ _ _ _ C2 C3)) as C.
  split; [|split_and!; [done|exact Hpin|exact Hne|exact (lookup_insert_eq _ _ _)|exact (lookup_insert_eq _ _ _)|destruct Hs3 as (? & ? & ?); split_and!; congruence]].
  destruct C as [D1 D2 D3 D4 D5 D6 D7]. split; try done. exact (pinned_data st3 L2 fi _ D1 Hpin).
Qed.

(** ** Making room *)

(** Memory for [n] lumps at [base] that nothing refers to. *)
Definition unowned st L (base : Z) (n : nat) : Prop :=
  0 <= base /\ forall i, (i < n)%nat -> ~ ours st (cache_at base i) /\ forall x, x ∈ L -> used (zn st) x -> user x.2 <> cache_at base i.
Lemma owners_cells (C C' : Z -> Prop) (z : zone) L cs : owners C z L -> (forall c, C' c -> C c) ->
  (forall c, C' c \/ (exists x, x ∈ L /\ used z x /\ user x.2 = c) -> cs !! c = cells z !! c) -> owners C' (z <| cells := cs |>) L.
Proof.
  intros [[O1 O1'] O2 O3 O4] HC Hcs. split; [by split; [destruct O1|]|done| |].
  - intros x Hx Hux H0. change (cs !! user x.2 = Some (ptr_of x)). rewrite Hcs; [by apply O3|right; by exists x].
  - intros c p Hc H0 E Hp. change (cs !! c = Some p) in E. rewrite Hcs in E by (by left). exact (O4 c p (HC c Hc) H0 E Hp).
Qed.
Definition zeroed (to : Z) (l : list nat) (z : zone) : zone := foldr (fun i => set_cell (cache_at to i) 0) z l.
Lemma zeroed_cells (to : Z) (l : list nat) (z : zone) : exists cs, zeroed to l z = z <| cells := cs |> /\
  (forall i, i ∈ l -> cs !! cache_at to i = Some 0) /\ (forall c, (forall i, i ∈ l -> c <> cache_at to i) -> cs !! c = cells z !! c).
Proof.
  induction l as [|i l (cs & E & H1 & H2)]; [exists (cells z); split_and!; [by destruct z|set_solver|done]|].
  exists (<[cache_at to i := 0]> cs). unfold zeroed in *. cbn [foldr]. rewrite E. split_and!; [done| |].
  - intros j Hj. destruct (decide (j = i)) as [->|Hne]; [by rewrite lookup_insert_eq|]. rewrite lookup_insert_ne by (intros Ej%cache_at_inj; done).
    apply H1. by apply elem_of_cons in Hj as [->|Hj].
  - intros c Hc. rewrite lookup_insert_ne by (intros <-; by apply (Hc i ltac:(left))). apply H2. intros j Hj. apply Hc. by right.
Qed.

Section copying.
Context (st : wads F) (L : list node) (to : Z) (new : nat).
Context (Hw : dir_ok st L) (Hu : unowned st L to new) (Hnew : (length (lumpinfo st) <= new)%nat).
#[local] Abbreviation n := (length (lumpinfo st)).
#[local] Abbreviation from := (lumpinfo_at st).

(** The variables of the lumps when the first [k] are copied. *)
Definition moved (k : nat) (c : Z) : Prop := (exists i, (i < k)%nat /\ c = cache_at to i) \/ (exists i, (k <= i < n)%nat /\ c = cache_at from i).
Record copied (k : nat) (z : zone) L' : Prop := {
  cp_own : owners (moved k) z L';
  cp_new i : (i < k)%nat -> cells z !! cache_at to i = Some (cache i st);
  cp_old i : (k <= i < n)%nat -> default 0 (cells z !! cache_at from i) = cache i st;
  cp_zero i : (k <= i < new)%nat -> cells z !! cache_at to i = Some 0 /\ forall x, x ∈ L' -> used z x -> user x.2 <> cache_at to i;
  cp_blocks y : y ∈ L' -> used z y -> exists x, x ∈ L /\ used (zn st) x /\ ptr_of y = ptr_of x /\ size y.2 = size x.2;
  cp_pinned q : pinned (zn st) L q -> pinned z L' q
}.
Lemma to_from i j : (i < new)%nat -> (j < n)%nat -> cache_at to i <> cache_at from j.
Proof. intros Hi Hj E. apply (proj1 (proj2 Hu i Hi)). by exists j. Qed.
Lemma copied_start : copied 0 (zeroed to (seq 0 new) (zn st)) L.
Proof.
  destruct (zeroed_cells to (seq 0 new) (zn st)) as (cs & -> & H1 & H2).
  assert (Hin : forall i, i ∈ seq 0 new <-> (i < new)%nat) by (intros i; rewrite elem_of_seq; lia).
  assert (Hc : forall c, ours st c \/ (exists x, x ∈ L /\ used (zn st) x /\ user x.2 = c) -> cs !! c = cells (zn st) !! c).
  { intros c Hc. apply H2. intros i Hi%Hin ->. destruct (proj2 Hu i Hi) as [U1 U2]. destruct Hc as [Hc|(x & Hx & Hux & Ex)]; [done|by apply (U2 x)]. }
  split; try done.
  - apply (owners_cells (ours st)); [exact (wo_owners _ _ Hw)| |].
    + intros c [(i & Hi & _)|(i & Hi & ->)]; [lia|]. exists i. split; [lia|done].
    + intros c Hm. apply Hc. destruct Hm as [[(i & Hi & _)|(i & Hi & ->)]|Hm]; [lia|left; exists i; split; [lia|done]|by right].
  - intros i Hi. lia.
  - intros i Hi. change (default 0 (cs !! cache_at from i) = cache i st). unfold cache. rewrite Hc; [done|]. left. exists i. split; [lia|done].
  - intros i Hi. split; [apply H1, Hin; lia|]. intros x Hx Hux. apply (proj2 Hu i); [lia|done|exact Hux].
  - intros y Hy Huy. exists y. by split_and!.
Qed.
Lemma copied_step k st' L' : copied k (zn st') L' -> (k < n)%nat ->
  exists z L2, copy_lump from to k st' = Ret (st' <| zn := z |>) /\ copied (S k) z L2.
Proof.
  intros [P1 P2 P3 P4 P5 P6] Hk. unfold copy_lump. rewrite P3 by lia. destruct (P4 k) as [Z1 Z2]; [lia|].
  assert (Hfrom : moved k (cache_at from k)) by (right; exists k; split; [lia|done]). pose proof (cache_pos st k (wo_addr _ _ Hw)) as Hpos.
  assert (Hsub : forall c, moved (S k) c -> c = cache_at to k \/ moved k c /\ c <> cache_at to k /\ c <> cache_at from k).
  { intros c [(i & Hi & ->)|(i & Hi & ->)].
    - destruct (decide (i = k)) as [->|Hne]; [by left|right]. split_and!; [left; exists i; split; [lia|done]|by intros E%cache_at_inj|apply to_from; lia].
    - right. split_and!; [right; exists i; split; [lia|done]|intros E; symmetry in E; revert E; apply to_from; lia|intros E%cache_at_inj; lia]. }
  destruct (cache k st =? 0) eqn:E0; breflect; cbn [negb].
  - exists (zn st'), L'. split; [unfold update; rewrite E0, set_cell_same by done; by destruct st'|]. split; try done.
    + destruct P1 as [O1 O2 O3 O4]. split; try done. intros c p Hc H0 E Hp. destruct (Hsub c Hc) as [->|(Hc' & _)]; [|by apply (O4 c)]. rewrite Z1 in E. by injection E as <-.
    + intros i Hi. destruct (decide (i = k)) as [->|Hne]; [congruence|]. apply P2. lia.
    + intros i Hi. apply P3. lia.
    + intros i Hi. apply P4. lia.
  - set (p := cache k st) in *. assert (Ecell : cells (zn st') !! cache_at from k = Some p).
    { pose proof (P3 k ltac:(lia)) as E. fold p in E. destruct (cells (zn st') !! cache_at from k); cbn in E; congruence. }
    destruct (ow_there _ _ _ P1 (cache_at from k) p Hfrom ltac:(lia) Ecell E0) as (b & Hb & Hub & Eub & Ep).
    set (z1 := set_cell (cache_at to k) p (zn st')). set (C0 := fun c => moved (S k) c /\ c <> cache_at to k).
    assert (Ho1 : owners C0 z1 L').
    { apply (owners_cells (moved k)); [exact P1| |].
      - intros c [Hc Hne]. destruct (Hsub c Hc) as [->|(Hc' & _)]; [done|exact Hc'].
      - intros c [[_ Hne]|(x & Hx & Hux & <-)]; rewrite lookup_insert_ne; [done|done|done|]. intros E. by apply (Z2 x). }
    destruct (reuser_owners C0 z1 L' b (cache_at to k) Ho1 Hb Hub) as (z2 & L2 & b2 & Hrun & Ho2 & Hf & Hcells & Hb2 & Hub2 & Ep2 & Eu2 & Es2 & Et2 & Hold & Hkeep).
    { lia. } { pose proof (to_from k k ltac:(lia) Hk). pose proof (proj1 Hu). unfold cache_at, offsetof_cache, sizeof_lumpinfo in *. destruct the_abi; lia. }
    { intros x Hx Hux. by apply Z2. }
    { intros [Hc _]. rewrite Eub in Hc. destruct (Hsub _ Hc) as [E|(_ & _ & Hne)]; [|done]. symmetry in E. revert E. apply to_from; lia. }
    assert (Ecs : forall c, c <> cache_at to k -> cells z2 !! c = cells (zn st') !! c).
    { intros c Hc. rewrite Hcells, lookup_insert_ne by done. unfold z1, set_cell. change (<[cache_at to k := p]> (cells (zn st')) !! c = cells (zn st') !! c). by rewrite lookup_insert_ne. }
    exists z2, L2. split; [unfold on_zone; change (zn (st' <| zn ::= set_cell (cache_at to k) p |>)) with z1; rewrite Ep, Hrun; by destruct st'|]. split.
    + split; [apply Ho2|apply Ho2|apply Ho2|]. intros c q Hc H0 E Hq. destruct (decide (c = cache_at to k)) as [->|Hne]; [|by apply (ow_there _ _ _ Ho2 c q)].
      rewrite Hcells, lookup_insert_eq in E. injection E as <-. exists b2. by split_and!.
    + intros i Hi. destruct (decide (i = k)) as [->|Hne]; [rewrite Hcells, lookup_insert_eq; by rewrite <- Ep|]. rewrite Ecs by (by intros E%cache_at_inj). apply P2. lia.
    + intros i Hi. rewrite Ecs by (intros E; symmetry in E; revert E; apply to_from; lia). apply P3. lia.
    + intros i Hi. rewrite Ecs by (intros E%cache_at_inj; lia). destruct (P4 i) as [Q1 Q2]; [lia|]. split; [done|]. intros x Hx Hux.
      destruct (Hold x Hx Hux) as [->|[Hx' Hne]]; [rewrite Eu2; intros E%cache_at_inj; lia|]. apply Q2; [done|]. destruct Hux as [Hx1 Hx2]. split; [|done].
      rewrite <- Hx1. symmetry. exact (framed_cap z1 z2 x Hf).
    + intros y Hy Huy. destruct (Hold y Hy Huy) as [->|[Hy' Hne]].
      * destruct (P5 b Hb Hub) as (x & Hx & Hux & Epx & Esx). exists x. split_and!; [done|done|congruence|congruence].
      * apply P5; [done|]. destruct Huy as [Hx1 Hx2]. split; [|done]. rewrite <- Hx1. symmetry. exact (framed_cap z1 z2 y Hf).
    + intros q Hq. destruct (P6 q Hq) as (x & Hx & Hux & Epx & Eux & Etx). destruct (Hkeep x Hx Hux) as [Hx' Hux']; [intros ->; lia|]. exists x. by split_and!.
Qed.
Lemma copies_run m : forall k st' L', copied k (zn st') L' -> (k + m = n)%nat ->
  exists z L2, copy_lumps from to (seq k m) st' = Ret (st' <| zn := z |>) /\ copied n z L2.
Proof.
  induction m as [|m IH]; intros k st' L' Hc Hk.
  - exists (zn st'), L'. split; [by destruct st'|]. by replace n with k by lia.
  - cbn [seq copy_lumps]. destruct (copied_step k st' L' Hc) as (z & L2 & -> & Hc2); [lia|]. cbn [obind].
    set (st2 := st' <| zn := z |>). destruct (IH (S k) st2 L2) as (z3 & L3 & E & Hc3); [exact Hc2|lia|]. exists z3, L3. split; [rewrite E; by destruct st'|done].
Qed.
Lemma Extend_run : to = calloc (Z.of_nat new) sizeof_lumpinfo st -> to <> 0 -> exists z L2,
  ExtendLumpInfo (Z.of_nat new) st = Ret (st <| zn := z |> <| lumpinfo := lumpinfo st ++ replicate (new - n) Lump.zero |> <| lumpinfo_at := to |>) /\ copied n z L2.
Proof.
  intros Hto H0. unfold ExtendLumpInfo. rewrite <- Hto, (proj2 (Z.eqb_neq _ _)), (proj2 (Z.ltb_ge _ _)), Nat2Z.id, Nat.min_l by (done || lia).
  set (st1 := st <| zn ::= _ |>). change (lumpinfo_at st1) with from. destruct (copies_run n 0 st1 L copied_start eq_refl) as (z & L2 & -> & Hc). exists z, L2. split; [|done].
  cbn [obind]. change (lumpinfo (st1 <| zn := z |>)) with (lumpinfo st). rewrite take_ge by lia. by destruct st.
Qed.
Lemma copied_dir z L2 : copied n z L2 -> let st' := st <| zn := z |> <| lumpinfo_at := to |> in
  dir_ok st' L2 /\ (forall i, (i < n)%nat -> cache i st' = cache i st).
Proof.
  intros [P1 P2 P3 P4 P5 P6] st'.
  assert (Hours : forall c, ours st' c -> moved n c) by (intros c (i & Hi & ->); left; by exists i).
  assert (Hc : forall i, (i < n)%nat -> cache i st' = cache i st) by (intros i Hi; unfold cache at 1; change (default 0 (cells z !! cache_at to i) = cache i st); by rewrite P2).
  split; [|exact Hc]. destruct Hw as [W1 W2 W3 W4 W5 W6 W7]. split; try done.
  - destruct P1 as [O1 O2 O3 O4]. split; try done. intros c p Hcc. by apply O4, Hours.
  - exact (proj1 Hu).
  - intros i l E. by apply P6, (W6 i).
  - intros i l E H0. pose proof (lookup_lt_Some _ _ _ E) as Hi. change (lumpinfo st !! i = Some l) in E. change (i < n)%nat in Hi. rewrite (Hc i Hi) in *.
    destruct (W7 i l E H0) as (x & Hx & Hux & Eu & Ep & Hsz & bs & Ed & Hbs).
    assert (Hto : 0 < cache_at to i) by (pose proof (proj1 Hu); unfold cache_at, offsetof_cache, sizeof_lumpinfo; destruct the_abi; lia).
    destruct (ow_there _ _ _ P1 (cache_at to i) (cache i st)) as (y & Hy & Huy & Euy & Epy); [left; by exists i|lia|by apply P2|done|].
    destruct (P5 y Hy Huy) as (x' & Hx' & Hux' & Epx & Esx). rewrite (block_at (zn st) (ours st) L x' x W1 Hx' Hx ltac:(congruence)) in *.
    exists y. rewrite Esx. split_and!; try done. by exists bs.
Qed.
End copying.

(** ** The new lumps *)
Definition long (bs : list Z) (off : nat) : Z :=
  i32 (nth off bs 0 + 256 * nth (off + 1) bs 0 + 65536 * nth (off + 2) bs 0 + 16777216 * nth (off + 3) bs 0).
Fixpoint until_zero (s : list Z) : list Z := match s with c :: s => if c =? 0 then [] else c :: until_zero s | [] => [] end.
Definition padded (s : list Z) : list Z := s ++ replicate (8 - length s) 0.
Definition entry (wad : Z) (e : list Z) : Lump.lumpinfo_t := Lump.mk (padded (until_zero (take 8 (drop 8 e)))) wad (long e 0) (long e 4) None.
Fixpoint entries (wad : Z) (m : nat) (dir : list Z) : list Lump.lumpinfo_t :=
  match m with O => [] | S m => entry wad (take 16 dir) :: entries wad m (drop 16 dir) end.

Lemma strncpy_zeros s : forall k, (length s <= k)%nat -> strncpy (replicate k 0) s = until_zero s ++ replicate (k - length (until_zero s)) 0.
Proof.
  induction s as [|c s IH]; intros k Hk.
  - by destruct k.
  - destruct k as [|k]; [cbn in Hk; lia|]. cbn [replicate strncpy until_zero]. destruct (c =? 0); [done|]. cbn [app length]. rewrite IH by (cbn in Hk; lia). done.
Qed.
Lemma add_lump_run wad e : length e = 16%nat -> add_lump wad e Lump.zero = Ret (entry wad e).
Proof.
  intros H. do 16 (destruct e as [|? e]; [done|]). destruct e; [|done]. unfold add_lump, entry. cbn [LONG drop of_option obind].
  rewrite bool_decide_eq_false_2 by (unfold sizeof_filelump; cbn; lia). do 2 f_equal. cbn [Lump.name Lump.zero]. rewrite strncpy_zeros by (cbn; lia). done.
Qed.
Lemma entries_length wad m : forall dir, length (entries wad m dir) = m.
Proof. induction m as [|m IH]; intros dir; cbn; [done|]. by rewrite IH. Qed.
Lemma add_lumps_run wad m : forall ls dir rest st, lumpinfo st = ls ++ replicate m Lump.zero -> length dir = (16 * m)%nat ->
  (forall i, (length ls <= i < length ls + m)%nat -> cells (zn st) !! cache_at (lumpinfo_at st) i = Some 0) ->
  add_lumps wad (dir ++ rest) (seq (length ls) m) st = Ret (st <| lumpinfo := ls ++ entries wad m dir |>).
Proof.
  induction m as [|m IH]; intros ls dir rest st El Hd Hz.
  - cbn. destruct st; cbn in *. by subst.
  - cbn [seq add_lumps]. rewrite El, lookup_app_r, Nat.sub_diag by lia. cbn [replicate lookup list_lookup of_option obind].
    assert (Et : take sizeof_filelump (dir ++ rest) = take 16 dir) by (unfold sizeof_filelump; rewrite take_app_le by lia; done).
    assert (Edr : drop sizeof_filelump (dir ++ rest) = drop 16 dir ++ rest) by (unfold sizeof_filelump; rewrite drop_app_le by lia; done).
    rewrite Et, Edr, (add_lump_run wad (take 16 dir)) by (rewrite length_take; lia). cbn [obind].
    set (st1 := st <| lumpinfo ::= _ |> <| zn ::= _ |>).
    assert (E1 : st1 = st <| lumpinfo := (ls ++ [entry wad (take 16 dir)]) ++ replicate m Lump.zero |>).
    { unfold st1, update. cbn [zn lumpinfo]. rewrite set_cell_same by (apply Hz; lia). destruct st; cbn in *. f_equal. rewrite El.
      rewrite insert_app_r_alt, Nat.sub_diag by lia. cbn. by rewrite <- app_assoc. }
    rewrite E1. rewrite <- (Nat.add_1_r (length ls)). replace (length ls + 1)%nat with (length (ls ++ [entry wad (take 16 dir)])) by (rewrite length_app; done).
    rewrite IH; [|done|rewrite length_drop; lia|].
    + rewrite <- app_assoc. by destruct st.
    + intros i Hi. apply Hz. rewrite length_app in Hi. cbn in Hi. lia.
Qed.
Lemma readable_length k : forall s, (k <= length s)%nat -> readable k s.
Proof. induction k as [|k IH]; intros [|c s] H; try done; [cbn in H; lia|]. right. apply IH. cbn in H. lia. Qed.
Lemma until_zero_bytes s : Forall byte s -> Forall byte (until_zero s) /\ (length (until_zero s) <= length s)%nat.
Proof. induction 1 as [|c s Hc Hs [IH1 IH2]]; [done|]. cbn. destruct (c =? 0); [split; [done|cbn; lia]|]. split; [by constructor|cbn; lia]. Qed.
Lemma entry_name wad e : Forall byte e -> a_name (Lump.name (entry wad e)).
Proof.
  intros He. assert (H8 : Forall byte (take 8 (drop 8 e))) by (by apply Forall_take, Forall_drop). destruct (until_zero_bytes _ H8) as [H1 H2].
  rewrite length_take in H2. cbn [entry Lump.name]. unfold padded. split.
  - apply readable_length. rewrite length_app, length_replicate. lia.
  - apply Forall_app. split; [done|]. apply Forall_replicate. unfold byte. lia.
Qed.
Lemma entries_lookup wad m : forall dir i l, Forall byte dir -> entries wad m dir !! i = Some l -> Lump.wad_file l = wad /\ a_name (Lump.name l).
Proof.
  induction m as [|m IH]; intros dir i l Hd E; [done|]. destruct i as [|i].
  - injection E as <-. split; [done|]. apply entry_name. by apply Forall_take.
  - apply (IH (drop 16 dir) i); [by apply Forall_drop|done].
Qed.
Lemma grow st L wad w m dir : dir_ok st L -> Forall byte dir -> numlumps st + Z.of_nat m <= INT_MAX -> files st !! wad = Some w -> mapped w = 0 -> pinned (zn st) L wad ->
  (forall i, (length (lumpinfo st) <= i < length (lumpinfo st) + m)%nat -> cells (zn st) !! cache_at (lumpinfo_at st) i = Some 0) ->
  dir_ok (st <| lumpinfo := lumpinfo st ++ entries wad m dir |>) L.
Proof.
  intros [W1 W2 W3 W4 W5 W6 W7] Hd Hm Ew H0 Hp Hz. set (st' := st <| lumpinfo := _ |>).
  assert (Hnew : forall i l, lumpinfo st' !! i = Some l -> lumpinfo st !! i = Some l \/ (length (lumpinfo st) <= i < length (lumpinfo st) + m)%nat /\ Lump.wad_file l = wad /\ a_name (Lump.name l)).
  { intros i l E. change ((lumpinfo st ++ entries wad m dir) !! i = Some l) in E. apply lookup_app_Some in E as [E|[Hi E]]; [by left|right].
    pose proof (lookup_lt_Some _ _ _ E) as Hlt. rewrite entries_length in Hlt. split; [lia|]. by apply (entries_lookup wad m dir (i - length (lumpinfo st))). }
  split; try done.
  - destruct W1 as [O1 O2 O3 O4]. split; try done. intros c p (i & Hi & ->) Hc E Hp0. change (lumpinfo_at st') with (lumpinfo_at st) in *.
    destruct (decide (i < length (lumpinfo st))%nat) as [Hlt|Hge]; [apply O4; try done; by exists i|]. change (i < length (lumpinfo st ++ entries wad m dir))%nat in Hi.
    rewrite length_app, entries_length in Hi. rewrite Hz in E by lia. by injection E as <-.
  - unfold numlumps in *. change (lumpinfo st') with (lumpinfo st ++ entries wad m dir). rewrite length_app, entries_length. lia.
  - apply Forall_lookup. intros i l E. destruct (Hnew i l E) as [E'|(_ & _ & Hn)]; [exact (name_at _ _ _ W4 E')|done].
  - intros i l E. destruct (Hnew i l E) as [E'|(_ & -> & _)]; [exact (W5 i l E')|by exists w].
  - intros i l E. destruct (Hnew i l E) as [E'|(_ & -> & _)]; [exact (W6 i l E')|done].
  - intros i l E Hc. destruct (Hnew i l E) as [E'|(Hi & _)]; [exact (W7 i l E' Hc)|]. destruct Hc. unfold cache. change (lumpinfo_at st') with (lumpinfo_at st).
    change (zn st') with (zn st). by rewrite Hz.
Qed.

(** ** Adding a file *)

(** [calloc] gives memory that nothing refers to, or none. *)
Class CallocLaw : Prop := calloc_law st L n : dir_ok st L -> let p := calloc (Z.of_nat n) sizeof_lumpinfo st in p = 0 \/ unowned st L p n.
Context {claw : CallocLaw}.

Record file_added st st' L' (p : Z) (bytes dir : list Z) (num : nat) : Prop := {
  fa_ok : WadTheorems.wad_ok (view := view) st' L';
  fa_file : p <> 0 /\ exists w, files st' !! p = Some w /\ mapped w = 0 /\ contents w = bytes;
  fa_lumps : lumpinfo st' = lumpinfo st ++ entries p num dir;
  fa_hash : lumphash st' = None;
  fa_caches : caches_kept st st';
  fa_new i : (length (lumpinfo st) <= i < length (lumpinfo st) + num)%nat -> cache i st' = 0
}.

Lemma add_entries_run p fi num dir rest w st L : dir_ok st L -> hash_pinned st L -> pinned (zn st) L p -> pinned (zn st) L fi -> p <> 0 ->
  (forall i l, lumpinfo st !! i = Some l -> Lump.wad_file l <> fi) -> p <> fi ->
  (forall h t, lumphash st = Some (h, t) -> h <> p /\ h <> fi) -> files st !! p = Some w -> mapped w = 0 ->
  data st !! fi = Some (dir ++ rest) -> length dir = (16 * num)%nat -> Forall byte dir -> numlumps st + Z.of_nat num <= INT_MAX ->
  (exists msg, add_entries p fi (Z.of_nat num) st = Fatal msg) \/
  exists st' L', add_entries p fi (Z.of_nat num) st = Ret (p, st') /\ file_added st st' L' p (contents w) dir num.
Proof.
  intros Hw Hh Hp Hfi H0 Hne Hpf Hhne Ew Hm Ed Hlen Hb Hn. unfold add_entries.
  assert (Ei : i32 (numlumps st + Z.of_nat num) = Z.of_nat (length (lumpinfo st) + num)).
  { unfold numlumps in *. rewrite <- Nat2Z.inj_add. apply wraps_id; [lia|]. unfold fits_s, INT_MAX in *. change (2 ^ (32 - 1)) with 2147483648. lia. }
  rewrite Ei. set (new := (length (lumpinfo st) + num)%nat) in *. set (to := calloc (Z.of_nat new) sizeof_lumpinfo st).
  destruct (decide (to = 0)) as [Et|Ht]; [left; eexists; unfold ExtendLumpInfo; fold to; by rewrite Et|right].
  destruct (calloc_law st L new Hw) as [E|Hu]; [done|]. fold to in Hu.
  destruct (Extend_run st L to new Hw Hu ltac:(lia) eq_refl Ht) as (z & L2 & -> & Hc). cbn [obind].
  destruct (copied_dir st L to new Hw Hu ltac:(lia) z L2 Hc) as [Hw2 Hk2]. set (st2 := st <| zn := z |> <| lumpinfo_at := to |>) in *.
  set (st3 := st <| zn := z |> <| lumpinfo := _ |> <| lumpinfo_at := to |>). change (data st3) with (data st). rewrite Ed. cbn [of_option obind].
  replace (length (lumpinfo st3) - length (lumpinfo st))%nat with num
    by (change (lumpinfo st3) with (lumpinfo st ++ replicate (new - length (lumpinfo st)) Lump.zero); rewrite length_app, length_replicate; lia).
  assert (Hz : forall i, (length (lumpinfo st) <= i < length (lumpinfo st) + num)%nat -> cells z !! cache_at to i = Some 0) by (intros i Hi; exact (proj1 (cp_zero _ _ _ _ _ _ _ Hc i Hi))).
  rewrite (add_lumps_run p num (lumpinfo st) dir rest st3); [|change (lumpinfo st3) with (lumpinfo st ++ replicate (new - length (lumpinfo st)) Lump.zero); do 2 f_equal; lia|done|exact Hz].
  cbn [obind]. set (st4 := st3 <| lumpinfo := _ |>). pose proof (cp_pinned _ _ _ _ _ _ _ Hc) as Hpk.
  assert (Hw4 : dir_ok st4 L2) by exact (grow st2 L2 p w num dir Hw2 Hb Hn Ew Hm (Hpk _ Hp) Hz).
  assert (Hl4 : forall i l, lumpinfo st4 !! i = Some l -> lumpinfo st !! i = Some l \/ Lump.wad_file l = p).
  { intros i l E. apply lookup_app_Some in E as [E|[_ E]]; [by left|right]. by destruct (entries_lookup p num dir _ _ Hb E). }
  destruct (free_pinned st4 L2 fi Hw4 (Hpk _ Hfi)) as (z5 & L5 & E5 & Hw5 & Hc5 & Hpk5); [intros i l E; destruct (Hl4 i l E) as [E'|E']; [by apply (Hne i)|congruence]|].
  unfold on_zone at 1. rewrite E5. cbn [obind]. set (st5 := st4 <| zn := z5 |>) in *.
  destruct (drop_hash st5 L5 Hw5) as (z6 & L6 & E6 & Hw6 & Hc6).
  { intros h t E. change (lumphash st = Some (h, t)) in E. destruct (Hh h t E) as [Hh1 Hh2], (Hhne h t E) as [Hh3 Hh4]. split; [apply Hpk5; [done|by apply Hpk]|].
    intros i l El. destruct (Hl4 i l El) as [E'|E']; [by apply (Hh2 i)|congruence]. }
  exists (st5 <| zn := z6 |> <| lumphash := None |>), L6. split.
  - destruct (lumphash st5) as [[h t]|] eqn:Eh; [by rewrite E6|]. injection E6 as <-. change (lumphash st = None) in Eh. do 2 f_equal. unfold st5, st4, st3. destruct st. cbn in Eh. by subst.
  - assert (Ek : forall i, cache i (st5 <| zn := z6 |> <| lumphash := None |>) = default 0 (cells z !! cache_at to i)).
    { intros i. unfold cache. change (default 0 (cells z6 !! cache_at to i) = default 0 (cells z !! cache_at to i)). rewrite Hc6. change (zn st5) with z5. by rewrite Hc5. }
    split; [split; [exact (any_hash _ _ None Hw6)|done|done]|split; [done|by exists w]|done|done| |].
    + intros j Hj. left. rewrite Ek. exact (Hk2 j Hj).
    + intros i Hi. rewrite Ek. by rewrite Hz.
Qed.
Lemma AddFile_run filename fp num dir st L : let bytes := fdata (view (file_of fp)) in
  WadTheorems.wad_ok (view := view) st L -> is_wad_name filename = Ret true -> (fopen sys_open filename "rb" 0).1 = fp -> fp <> 0 ->
  wad_image bytes num dir -> Forall byte bytes -> numlumps st + Z.of_nat num <= INT_MAX ->
  (exists msg, W_AddFile filename st = Fatal msg) \/
  exists p st' L', W_AddFile filename st = Ret (p, st') /\ file_added st st' L' p bytes dir num.
Proof.
  intros bytes Hw Hn Hfp H0 Him Hb Hnum. unfold W_AddFile.
  destruct (W_OpenFile_run filename fp st L Hw Hfp H0) as [(msg & ->)|(p & w & st1 & L1 & -> & C1 & Hp & Hpin & Hpn & Ew & Hm & Ec)]; [left; by exists msg|].
  cbn [obind]. rewrite (proj2 (Z.eqb_neq _ _)) by lia. fold bytes in Ec. rewrite <- Ec in Him.
  destruct (read_directory_run filename p w st1 L1 num dir (cr_dir _ _ _ _ C1) Hn Ew Him) as
    [(msg & ->)|(fi & rest & w' & st2 & L2 & -> & C2 & Hfi & Hfin & Hfn & Ed & Ew' & Hs)]; [left; by exists msg|].
  cbn [obind]. pose proof (carried_trans _ _ _ _ _ _ C1 C2) as C. destruct Hs as (S1 & S2 & S3).
  assert (Hold : forall q, pinned (zn st) L q -> pinned (zn st2) L2 q /\ q <> p /\ q <> fi).
  { intros q Hq. split_and!; [exact (cr_pinned _ _ _ _ C q Hq)|exact (Hpn q Hq)|]. apply Hfn. exact (cr_pinned _ _ _ _ C1 q Hq). }
  assert (Hdir : length dir = (16 * num)%nat /\ Forall byte dir).
  { destruct Him as [_ _ (ofs & _ & Hl & ->) _]. rewrite Ec in *. split; [rewrite length_take, length_drop; lia|by apply Forall_take, Forall_drop]. }
  destruct (add_entries_run p fi num dir rest w' st2 L2 (cr_dir _ _ _ _ C)) as [(msg & ->)|(st3 & L3 & -> & R)]; try (by apply Hdir); [| | | | | | | | | | |left; by exists msg|].
  - intros h t E. rewrite (cr_hash _ _ _ _ C) in E. destruct (wad_hash_pinned _ _ Hw h t E) as [H1 H2]. split; [exact (cr_pinned _ _ _ _ C h H1)|].
    rewrite (cr_lumps _ _ _ _ C). exact H2.
  - exact (cr_pinned _ _ _ _ C2 p Hpin).
  - exact Hfin.
  - lia.
  - rewrite (cr_lumps _ _ _ _ C). intros i l E. apply Hold. exact (wo_pinned _ _ Hw i l E).
  - exact (Hfn p Hpin).
  - rewrite (cr_hash _ _ _ _ C). intros h t E. destruct (wad_hash_pinned _ _ Hw h t E) as [H1 _]. split; by apply Hold.
  - exact Ew'.
  - congruence.
  - exact Ed.
  - unfold numlumps in *. by rewrite (cr_lumps _ _ _ _ C).
  - right. exists p, st3, L3. split; [done|]. destruct R as [R1 R2 R3 R4 R5 R6]. rewrite (cr_lumps _ _ _ _ C) in *. split; try done.
    + destruct R2 as (? & w3 & ? & ? & ?). split; [done|]. exists w3. split_and!; try done. congruence.
    + intros j Hj. destruct (R5 j) as [->|H]; [by rewrite (cr_lumps _ _ _ _ C)|by apply (cr_caches _ _ _ _ C)|by right].
Qed.
End add.
