(* ===== verification/WadClaims.v ===== *)
(** * What the module of WAD files promises

    Adding a file, making the hash table, and caching a lump by its name, with a
    small file of two lumps. *)
From S2P Require Import Prelude KeyInput Stdio Zone ZoneFacts ZoneMalloc ZoneWalks ZoneOwners Wad WadSearch WadTheorems WadAddFile.
#[local] Open Scope doom_scope.

Section claims.
Context {A : Arch} {F : Type} {ops : FdOps F} {view : F -> fview} {reg : RegularFile F view} {seek : SeekableFile F view} {host : WadHost F}.
#[local] Abbreviation wad_ok := (WadTheorems.wad_ok (view := view)).
Implicit Types (st : wads F) (L : list node).

(** C22: W_AddFile on a file that is an image of [num] lumps with the directory
    [dir], in a valid state: it ends the program for lack of memory, or appends
    exactly the lumps of the directory in their order, with their names up to the
    first zero byte. The module stays valid: the zone and the owner variables of all
    cached lumps agree although the array of lumps has moved, a lump that was
    cached still is, or was purged, and its bytes are the same; the new lumps are not
    cached; the hash table is gone. A file that cannot be opened changes nothing. *)
Theorem W_AddFile_correct (claw : CallocLaw (view := view)) filename num dir st L :
  let fp := (fopen sys_open filename "rb" 0).1 in let bytes := fdata (view (file_of fp)) in
  wad_ok st L -> is_wad_name filename = Ret true -> wad_image bytes num dir -> Forall byte bytes -> numlumps st + Z.of_nat num <= INT_MAX ->
  if fp =? 0 then W_AddFile filename st = Ret (0, st)
  else (exists msg, W_AddFile filename st = Fatal msg) \/
    exists p st' L', W_AddFile filename st = Ret (p, st') /\ file_added (view := view) st st' L' p bytes dir num.
Proof.
  intros fp bytes Hw Hn Him Hb Hnum. destruct (fp =? 0) eqn:E; breflect.
  - unfold W_AddFile, W_OpenFile. fold fp in E. unfold fp in E. destruct (fopen sys_open filename "rb" 0) as [f e]. cbn [fst] in E. by rewrite E.
  - by apply (AddFile_run filename fp num dir st L).
Qed.

(** C23: W_GenerateHashTable in a valid state ends the program for lack of
    memory, or makes a table: only the links of the lumps change, the module stays
    valid, cached lumps stay or are purged, and every search for a name has the same
    result as the search backwards through the directory: the last lump with the
    name, letters of either case being equal, or -1. *)
Theorem W_GenerateHashTable_correct st L : wad_ok st L -> numlumps st <= 2 ^ 27 ->
  (exists msg, W_GenerateHashTable st = Fatal msg) \/
  exists st' L', W_GenerateHashTable st = Ret st' /\ wad_ok st' L' /\ only_links (lumpinfo st) (lumpinfo st') /\
    (lumpinfo st <> [] -> lumphash st' <> None) /\ caches_kept st st' /\
    forall name, a_name name -> exists r, W_CheckNumForName name st' = Ret r /\ W_CheckNumForName name st = Ret r /\
      search_back (length (lumpinfo st)) name st = Ret r /\ found r name (lumpinfo st).
Proof.
  intros Hw Hn. destruct (GenerateHashTable_run st L Hw Hn) as [H|(st' & L' & E & Hw' & Hl & Hh & Hc)]; [by left|right].
  exists st', L'. split_and!; try done. intros name Hname. exists (first_named (lumpinfo st) name (downto (length (lumpinfo st)))).
  destruct (links_key _ _ Hl) as (_ & Hlen & _). rewrite (check_num_ok st' L' name Hw' Hname), (check_num_ok st L name Hw Hname), Hlen, (links_first _ _ _ _ Hl).
  split_and!; [done|done|by apply (search_back_run name st (wo_names _ _ Hw))|]. apply first_found. intros j y Hj E'. apply lookup_lt_Some in E'. lia.
Qed.

(** C24: W_CacheLumpName in a valid state, when the lumps are inside their
    files: if no lump has the name the program ends with a message that says so.
    Otherwise the last lump with the name is cached: only when it was not in memory
    can the program end for lack of memory; when it was, the block that has it is
    returned and nothing is read. The block has the requested tag and the bytes of
    the lump, and every other cached lump stays or is purged. *)
Theorem W_CacheLumpName_correct st L name tg : wad_ok st L -> a_name name -> tg <> PU_FREE ->
  (forall i l, lumpinfo st !! i = Some l -> in_file (view := view) l st) ->
  (forall i l, lumpinfo st !! i = Some l -> key_of (Lump.name l) <> key_of name) /\ W_CacheLumpName name tg st = Fatal "W_GetNumForName: not found!" \/
  exists i l, lumpinfo st !! i = Some l /\ key_of (Lump.name l) = key_of name /\
    (forall j y, (i < j)%nat -> lumpinfo st !! j = Some y -> key_of (Lump.name y) <> key_of name) /\
    (cache i st = 0 /\ (exists msg, W_CacheLumpName name tg st = Fatal msg) \/
     exists st' L', W_CacheLumpName name tg st = Ret (cache i st', st') /\ cached_as (view := view) st st' L' i l tg /\
       (cache i st <> 0 -> cache i st' = cache i st /\ data st' = data st /\ files st' = files st)).
Proof.
  intros Hw Hn Ht Hin. unfold W_CacheLumpName, W_GetNumForName. rewrite (check_num_ok st L name Hw Hn). cbn [obind].
  destruct (first_found (lumpinfo st) name (length (lumpinfo st))) as [[-> H]|(i & l & -> & El & Hk & Hj)]; [intros j y Hj E'; apply lookup_lt_Some in E'; lia|by left|right].
  exists i, l. rewrite (proj2 (Z.ltb_ge _ _)) by lia. cbn [obind]. split_and!; try done. exact (CacheLumpNum_run st L i l tg Hw El (Hin i l El) Ht).
Qed.

(** A seek behind the end of the file fails, and nobody looks: what is read are
    the bytes where the last read ended. *)
Theorem read_behind_end wad w offset buffer len st : files st !! wad = Some w -> 0 <= offset <= INT_MAX -> 0 <= len <= INT_MAX ->
  Z.of_nat (length (fdata (view (fstream w)))) < offset ->
  let bs := take (Z.to_nat len) (drop (fpos (view (fstream w))) (fdata (view (fstream w)))) in
  exists st', W_Read wad offset buffer len st = Ret (Z.of_nat (length bs), bs ++ drop (length bs) buffer, st').
Proof.
  intros E Ho Hl Hout bs. unfold W_Read. rewrite E. cbn [of_option obind].
  assert (Eo : wraps word_bits (u32 offset) = offset).
  { rewrite (wrapu_id 32) by (unfold fits_u, INT_MAX in *; cbn; lia). apply wraps_id; [pose proof word_ge; lia|].
    unfold fits_s, INT_MAX in *. pose proof (Z.pow_le_mono_r 2 31 (word_bits - 1)). pose proof word_ge. lia. }
  rewrite Eo. unfold fseek. destruct (seek_past (fstream w) offset ltac:(by right)) as (f1 & E1 & V1). rewrite E1. cbn.
  destruct (fread_run f1 len Hl) as (f2 & E2 & V2). cbv zeta in E2. rewrite V1 in E2. rewrite E2. by eexists.
Qed.
End claims.

(** ** A small file of lumps *)
Module WadDemo.
#[export] Instance arch : Arch := ILP32.
(** The seek of barebox does not leave the file. *)
#[export] Instance bounded : FdOps fview := {
  fd_write bs f := fd_write (FdOps := memfd_ops) bs f;
  fd_read n f := fd_read (FdOps := memfd_ops) n f;
  fd_lseek off whence f :=
    let len := Z.of_nat (length (fdata f)) in
    if whence =? SEEK_CUR then (Z.of_nat (fpos f), f)
    else if whence =? SEEK_END then (len, mk_view (fdata f) (length (fdata f)) (flimit f))
    else if (off <? 0) || (len <? off) then (-1, f) else (off, mk_view (fdata f) (Z.to_nat off) (flimit f))
}.
#[export] Instance bounded_regular : RegularFile fview (ops := bounded) memfd_view.
Proof.
  split.
  - apply (limit_int (ops := memfd_ops)).
  - apply (append_law (ops := memfd_ops)).
  - apply (read_law (ops := memfd_ops)).
  - intros f. by exists f.
Qed.
#[export] Instance bounded_seek : SeekableFile fview (ops := bounded) memfd_view.
Proof.
  split.
  - intros f off H. unfold fd_lseek, bounded. change (SEEK_SET =? SEEK_CUR) with false. change (SEEK_SET =? SEEK_END) with false. cbv zeta. cbn iota.
    change (fdata (memfd_view f)) with (fdata f) in H. rewrite (proj2 (Z.ltb_ge off 0)), (proj2 (Z.ltb_ge _ off)) by lia. by eexists.
  - intros f off H. unfold fd_lseek, bounded. change (SEEK_SET =? SEEK_CUR) with false. change (SEEK_SET =? SEEK_END) with false. cbv zeta. cbn iota.
    change (fdata (memfd_view f)) with (fdata f) in H. replace ((off <? 0) || (_ <? off)) with true; [by exists f|].
    destruct H; symmetry; [apply orb_true_intro; left; by apply Z.ltb_lt|apply orb_true_intro; right; by apply Z.ltb_lt].
  - intros f. by eexists.
Qed.

(** Two lumps behind the header, then the directory. *)
Definition directory : list Z :=
  [12; 0; 0; 0; 4; 0; 0; 0] ++ bytes_of "PLAYPAL" ++ [0] ++ [16; 0; 0; 0; 2; 0; 0; 0] ++ bytes_of "DEMO1" ++ [0; 0; 0].
Definition image : list Z := bytes_of "IWAD" ++ [2; 0; 0; 0; 18; 0; 0; 0] ++ bytes_of "abcdef" ++ directory.

(** Fresh memory is behind the array, and behind all owner variables. *)
Definition top (st : wads fview) : Z := foldr (fun kb m => Z.max (user kb.2) m) 0 (map_to_list (mem (zn st))).
#[export] Instance host : WadHost fview := {
  calloc n size st := 65536 + Z.max (lumpinfo_at st + Z.of_nat (length (lumpinfo st)) * sizeof_lumpinfo) (top st);
  sys_open path flags := 3;
  file_of fp := mk_view image 0 0;
  raw_id p := 165;
  raw_bytes p := replicate 40 165
}.
Lemma top_above st a b : mem (zn st) !! a = Some b -> user b <= top st.
Proof.
  intros E. apply elem_of_map_to_list in E. unfold top. revert E. generalize (map_to_list (mem (zn st))) as l. induction l as [|[a' b'] l IH]; intros H; [by apply elem_of_nil in H|].
  cbn [foldr]. apply elem_of_cons in H as [[= <- <-]|H]; [cbn; lia|]. specialize (IH H). cbn in *. lia.
Qed.
#[export] Instance demo_calloc : CallocLaw (view := memfd_view).
Proof.
  intros st L n Hw. right. pose proof (wo_addr _ _ Hw) as Ha. unfold calloc, host. set (len := length (lumpinfo st)). set (base := 65536 + _).
  assert (Hb : lumpinfo_at st + Z.of_nat len * sizeof_lumpinfo <= base /\ top st <= base) by (unfold base; lia).
  assert (Hsz : sizeof_lumpinfo = 28) by done. assert (Hoff : offsetof_cache = 20) by done. split; [lia|]. intros i _. split.
  - intros (j & Hj & E). unfold cache_at in E. fold len in Hj. lia.
  - intros x Hx _. pose proof (zone_ok_mem _ _ x (proj1 (ow_inv _ _ _ (wo_owners _ _ Hw))) Hx) as G. unfold getb in G.
    destruct (mem (zn st) !! x.1) as [b|] eqn:E; [|done]. injection G as ->. pose proof (top_above st _ _ E). unfold cache_at. lia.
Qed.

Definition raw (a : Z) : memblock := mk_block 0 0 0 0 0 0.
Definition st0 : wads fview := mk_wads (Z_Init raw 4096 65536) ∅ ∅ [] 0 None.
Lemma st0_ok : WadTheorems.wad_ok (view := memfd_view) st0 [init_cap raw 4096; init_block raw 4096 65536].
Proof.
  assert (I : zone_inv (zn st0) [init_cap raw 4096; init_block raw 4096 65536]) by (apply Z_Init_inv; [by exists 1024|unfold INT_MAX; cbn; lia]).
  split; [split|done|done]; try done.
  - split; [exact I|done| |].
    + intros x Hx [Hc Hu] H0. apply elem_of_cons in Hx as [->|Hx]; [by vm_compute in Hc|]. apply list_elem_of_singleton in Hx as ->. by destruct Hu.
    + intros c p (i & Hi & _). cbn in Hi. lia.
  - constructor.
Qed.
Lemma image_ok : wad_image image 2 directory.
Proof.
  split; [by left|by vm_compute|exists 18%nat; split_and!; [by vm_compute|vm_compute; lia|by vm_compute]|by vm_compute].
Qed.
Lemma image_bytes : Forall byte image.
Proof. apply Forall_forall. intros c Hc. unfold byte. assert (H : forallb (fun c => (0 <=? c) && (c <? 256)) image = true) by (by vm_compute).
  rewrite forallb_forall in H. apply list_elem_of_In in Hc. specialize (H c Hc). breflect. lia. Qed.
Lemma room : numlumps st0 + Z.of_nat 2 <= INT_MAX.
Proof. by vm_compute. Qed.

Lemma fp3 : (fopen sys_open "doom1.wad" "rb" 0).1 = 3.
Proof. vm_compute. reflexivity. Qed.

(** The state with the file. *)
Definition after {X} (m : outcome (X * wads fview)) : wads fview := match m with Ret (_, s) => s | _ => st0 end.
Definition st1 : wads fview := after (W_AddFile "doom1.wad" st0).
Lemma st1_ok : exists L, WadTheorems.wad_ok (view := memfd_view) st1 L.
Proof.
  destruct (AddFile_run (view := memfd_view) "doom1.wad" 3 2 directory st0 _ st0_ok eq_refl fp3 ltac:(discriminate) image_ok image_bytes room) as [(msg & E)|(p & st' & L' & E & R)];
    [vm_compute in E; discriminate E|]. exists L'. unfold st1. rewrite E. apply R.
Qed.
End WadDemo.

(** ** Witnesses *)
Section witnesses.
Import WadDemo.

(** The two lumps of the file are the directory. *)
Lemma W_AddFile_correct_witness :
  exists p st' L', W_AddFile "doom1.wad" st0 = Ret (p, st') /\ file_added (view := memfd_view) st0 st' L' p image directory 2 /\
    Lump.name <$> lumpinfo st' = [bytes_of "PLAYPAL" ++ [0]; bytes_of "DEMO1" ++ [0; 0; 0]].
Proof.
  destruct (W_AddFile_correct (view := memfd_view) demo_calloc "doom1.wad" 2 directory st0 _ st0_ok eq_refl image_ok image_bytes room) as [(msg & E)|(p & st' & L' & E & R)].
  - vm_compute in E. discriminate E.
  - exists p, st', L'. split; [exact E|]. split; [exact R|]. rewrite (fa_lumps _ _ _ _ _ _ _ R). vm_compute. reflexivity.
Defined.

Lemma W_GenerateHashTable_correct_witness :
  exists st' L', W_GenerateHashTable st1 = Ret st' /\ WadTheorems.wad_ok (view := memfd_view) st' L' /\ lumphash st' <> None /\
    W_CheckNumForName (cstr "playpal") st' = Ret 0 /\ W_CheckNumForName (cstr "demo2") st' = Ret (-1).
Proof.
  destruct st1_ok as [L HL].
  destruct (W_GenerateHashTable_correct (view := memfd_view) st1 L HL ltac:(vm_compute; discriminate)) as [(msg & E)|(st' & L' & E & Hw & Hl & Hh & _ & Hs)].
  - exfalso. assert (N : match W_GenerateHashTable st1 with Fatal _ => False | _ => True end) by (vm_compute; exact I). rewrite E in N. exact N.
  - exists st', L'. split; [exact E|]. split; [exact Hw|]. split; [apply Hh; vm_compute; discriminate|].
    assert (N1 : a_name (cstr "playpal")) by (split; [vm_compute; tauto|apply Forall_forall; intros c Hc; apply list_elem_of_In in Hc; vm_compute in Hc; unfold byte; intuition lia]).
    assert (N2 : a_name (cstr "demo2")) by (split; [vm_compute; tauto|apply Forall_forall; intros c Hc; apply list_elem_of_In in Hc; vm_compute in Hc; unfold byte; intuition lia]).
    split.
    + destruct (Hs _ N1) as (r & -> & E1 & _). rewrite <- E1. vm_compute. reflexivity.
    + destruct (Hs _ N2) as (r & -> & E1 & _). rewrite <- E1. vm_compute. reflexivity.
Defined.

Lemma W_CacheLumpName_correct_witness :
  exists st' L' l, W_CacheLumpName (cstr "demo1") PU_CACHE st1 = Ret (cache 1 st', st') /\ cached_as (view := memfd_view) st1 st' L' 1 l PU_CACHE /\
    lump_bytes (view := memfd_view) l st1 = bytes_of "ef".
Proof.
  destruct st1_ok as [L HL].
  assert (N1 : a_name (cstr "demo1")) by (split; [vm_compute; tauto|apply Forall_forall; intros c Hc; apply list_elem_of_In in Hc; vm_compute in Hc; unfold byte; intuition lia]).
  assert (Hin : forall i l, lumpinfo st1 !! i = Some l -> in_file (view := memfd_view) l st1).
  { intros i l E. assert (El : lumpinfo st1 = entries (Lump.wad_file (nth 0 (lumpinfo st1) Lump.zero)) 2 directory) by (vm_compute; reflexivity). rewrite El in E.
    destruct i as [|[|i]]; [| |discriminate E].
    - injection E as <-. split; [vm_compute; split; discriminate|vm_compute; split; discriminate|intros w Ew; vm_compute in Ew; injection Ew as <-; vm_compute; discriminate].
    - injection E as <-. split; [vm_compute; split; discriminate|vm_compute; split; discriminate|intros w Ew; vm_compute in Ew; injection Ew as <-; vm_compute; discriminate]. }
  destruct (W_CacheLumpName_correct (view := memfd_view) st1 L (cstr "demo1") PU_CACHE HL N1 ltac:(discriminate) Hin) as [[_ E]|(i & l & El & Hk & _ & H)].
  - exfalso. assert (N : match W_CacheLumpName (cstr "demo1") PU_CACHE st1 with Fatal _ => False | _ => True end) by (vm_compute; exact I). rewrite E in N. exact N.
  - assert (i = 1%nat) as ->.
    { destruct i as [|[|i]]; [|reflexivity|]; [|vm_compute in El; discriminate El]. vm_compute in El. injection El as <-. vm_compute in Hk. discriminate Hk. }
    destruct H as [[_ (msg & E)]|(st' & L' & E & H & _)].
    + exfalso. assert (N : match W_CacheLumpName (cstr "demo1") PU_CACHE st1 with Fatal _ => False | _ => True end) by (vm_compute; exact I). rewrite E in N. exact N.
    + exists st', L', l. split; [exact E|]. split; [exact H|]. vm_compute in El. injection El as <-. vm_compute. reflexivity.
Defined.
End witnesses.
