(* ===== verification/MapGeometry.v ===== *)
(** * The geometry of the map (p_maputl.c, r_main.c, p_setup.c)

    Lines with the fields that the loader computes, sides of points and boxes,
    intercepts of two traces, the opening between two sectors, and the
    subsector of a point. *)
From S2P Require Import Prelude MFixed MBbox.
#[local] Open Scope doom_scope.

Record vertex_t : Type := mk_vertex { vx : Z; vy : Z }.
Inductive slopetype_t : Set := ST_HORIZONTAL | ST_VERTICAL | ST_POSITIVE | ST_NEGATIVE.

(** [line_t] with all that the code reads of its place on the map. *)
Module Geo.
Record line_t : Type := mk {
  v1 : vertex_t; v2 : vertex_t; dx : Z; dy : Z; flags : Z; special : Z; sidenum1 : Z; bbox : MBbox.bbox; slopetype : slopetype_t;
  frontsector : option nat; backsector : option nat; validcount : Z }.
#[global] Instance eta : Eta line_t := fun l =>
  mk (v1 l) (v2 l) (dx l) (dy l) (flags l) (special l) (sidenum1 l) (bbox l) (slopetype l) (frontsector l) (backsector l) (validcount l).
End Geo.
Module Divline.
Record divline_t : Type := mk { x : Z; y : Z; dx : Z; dy : Z }.
#[global] Instance eta : Eta divline_t := fun l => mk (x l) (y l) (dx l) (dy l).
End Divline.
Module Node.
Record node_t : Type := mk { x : Z; y : Z; dx : Z; dy : Z; children : Z * Z }.
End Node.
(** The heights that [P_LineOpening] reads. *)
Record heights : Type := mk_heights { floorheight : Z; ceilingheight : Z }.
(** The variables it sets. *)
Record opening : Type := mk_opening { opentop : Z; openbottom : Z; openrange : Z; lowfloor : Z }.
#[export] Instance opening_eta : Eta opening := fun o => mk_opening (opentop o) (openbottom o) (openrange o) (lowfloor o).

Definition NF_SUBSECTOR : Z := 0x8000.
Definition ML_TWOSIDED : Z := 4.

Section geometry.
Context {A : Arch}.

(** [x & 0x80000000] for an [int]. *)
Definition sign_bit (x : Z) : bool := has_flag (u32 x) 0x80000000.

Definition P_AproxDistance (dx dy : Z) : Z :=
  let dx := i32 (c_abs dx) in
  let dy := i32 (c_abs dy) in
  if dx <? dy then i32 (i32 (dx + dy) - Z.shiftr dx 1) else i32 (i32 (dx + dy) - Z.shiftr dy 1).

(** The cases that the side functions share: a vertical or a horizontal line. *)
Definition axis_side (x y lx ly ldx ldy : Z) (other : Z) : Z :=
  if ldx =? 0 then of_bool (if x <=? lx then ldy >? 0 else ldy <? 0)
  else if ldy =? 0 then of_bool (if y <=? ly then ldx <? 0 else ldx >? 0)
  else other.
Definition P_PointOnLineSide (x y : Z) (line : Geo.line_t) : Z :=
  let dx := i32 (x - vx (Geo.v1 line)) in
  let dy := i32 (y - vy (Geo.v1 line)) in
  let left := FixedMul (Z.shiftr (Geo.dy line) FRACBITS) dx in
  let right := FixedMul dy (Z.shiftr (Geo.dx line) FRACBITS) in
  axis_side x y (vx (Geo.v1 line)) (vy (Geo.v1 line)) (Geo.dx line) (Geo.dy line) (if right <? left then 0 else 1).
Definition P_BoxOnLineSide (tmbox : bbox) (ld : Geo.line_t) : Z :=
  let '(p1, p2) :=
    match Geo.slopetype ld with
    | ST_HORIZONTAL =>
        let p1 := of_bool (BOXTOP tmbox >? vy (Geo.v1 ld)) in
        let p2 := of_bool (BOXBOTTOM tmbox >? vy (Geo.v1 ld)) in
        if Geo.dx ld <? 0 then (Z.lxor p1 1, Z.lxor p2 1) else (p1, p2)
    | ST_VERTICAL =>
        let p1 := of_bool (BOXRIGHT tmbox <? vx (Geo.v1 ld)) in
        let p2 := of_bool (BOXLEFT tmbox <? vx (Geo.v1 ld)) in
        if Geo.dy ld <? 0 then (Z.lxor p1 1, Z.lxor p2 1) else (p1, p2)
    | ST_POSITIVE => (P_PointOnLineSide (BOXLEFT tmbox) (BOXTOP tmbox) ld, P_PointOnLineSide (BOXRIGHT tmbox) (BOXBOTTOM tmbox) ld)
    | ST_NEGATIVE => (P_PointOnLineSide (BOXRIGHT tmbox) (BOXTOP tmbox) ld, P_PointOnLineSide (BOXLEFT tmbox) (BOXBOTTOM tmbox) ld)
    end in
  if p1 =? p2 then p1 else -1.
(** The slope type that the loader gives a line. *)
Definition line_slope (dx dy : Z) : outcome slopetype_t :=
  if dx =? 0 then Ret ST_VERTICAL
  else if dy =? 0 then Ret ST_HORIZONTAL
  else let* q := FixedDiv dy dx in Ret (if q >? 0 then ST_POSITIVE else ST_NEGATIVE).

(** The quick decision by the sign bits, and the slow one. *)
Definition quick_side (ldx ldy dx dy : Z) (slow : Z) : Z :=
  if sign_bit (Z.lxor (Z.lxor (Z.lxor ldy ldx) dx) dy) then (if sign_bit (Z.lxor ldy dx) then 1 else 0) else slow.
Definition P_PointOnDivlineSide (x y : Z) (line : Divline.divline_t) : Z :=
  let dx := i32 (x - Divline.x line) in
  let dy := i32 (y - Divline.y line) in
  let left := FixedMul (Z.shiftr (Divline.dy line) 8) (Z.shiftr dx 8) in
  let right := FixedMul (Z.shiftr dy 8) (Z.shiftr (Divline.dx line) 8) in
  axis_side x y (Divline.x line) (Divline.y line) (Divline.dx line) (Divline.dy line)
    (quick_side (Divline.dx line) (Divline.dy line) dx dy (if right <? left then 0 else 1)).
Definition R_PointOnSide (x y : Z) (node : Node.node_t) : Z :=
  let dx := i32 (x - Node.x node) in
  let dy := i32 (y - Node.y node) in
  let left := FixedMul (Z.shiftr (Node.dy node) FRACBITS) dx in
  let right := FixedMul dy (Z.shiftr (Node.dx node) FRACBITS) in
  axis_side x y (Node.x node) (Node.y node) (Node.dx node) (Node.dy node)
    (quick_side (Node.dx node) (Node.dy node) dx dy (if right <? left then 0 else 1)).

Definition P_MakeDivline (li : Geo.line_t) : Divline.divline_t :=
  Divline.mk (vx (Geo.v1 li)) (vy (Geo.v1 li)) (Geo.dx li) (Geo.dy li).
Definition P_InterceptVector (v2 v1 : Divline.divline_t) : outcome Z :=
  let den := i32 (FixedMul (Z.shiftr (Divline.dy v1) 8) (Divline.dx v2) - FixedMul (Z.shiftr (Divline.dx v1) 8) (Divline.dy v2)) in
  if den =? 0 then Ret 0
  else
    let num := i32 (FixedMul (Z.shiftr (i32 (Divline.x v1 - Divline.x v2)) 8) (Divline.dy v1) +
                    FixedMul (Z.shiftr (i32 (Divline.y v2 - Divline.y v1)) 8) (Divline.dx v1)) in
    FixedDiv num den.

Definition P_LineOpening (sectors : list heights) (linedef : Geo.line_t) (o : opening) : outcome opening :=
  if Geo.sidenum1 linedef =? -1 then Ret (o <| openrange := 0 |>)
  else
    let* f := of_option (Geo.frontsector linedef) in
    let* front := of_option (sectors !! f) in
    let* b := of_option (Geo.backsector linedef) in
    let* back := of_option (sectors !! b) in
    let o := o <| opentop := if ceilingheight front <? ceilingheight back then ceilingheight front else ceilingheight back |> in
    let o := if floorheight front >? floorheight back
             then o <| openbottom := floorheight front |> <| lowfloor := floorheight back |>
             else o <| openbottom := floorheight back |> <| lowfloor := floorheight front |> in
    Ret (o <| openrange := i32 (opentop o - openbottom o) |>).

(** ** The subsector of a point *)
Definition child (node : Node.node_t) (side : Z) : Z := if side =? 0 then (Node.children node).1 else (Node.children node).2.
Fixpoint descend (fuel : nat) (nodes : list Node.node_t) (x y nodenum : Z) : outcome Z :=
  if has_flag nodenum NF_SUBSECTOR then Ret (Z.land nodenum (Z.lnot NF_SUBSECTOR))
  else
    match fuel with
    | O => NoFuel
    | S fuel =>
        let* node := if nodenum <? 0 then Undef else of_option (nodes !! Z.to_nat nodenum) in
        descend fuel nodes x y (child node (R_PointOnSide x y node))
    end.
Definition R_PointInSubsector (nodes : list Node.node_t) (x y : Z) : outcome Z :=
  if bool_decide (nodes = []) then Ret 0
  else descend (length nodes) nodes x y (Z.of_nat (length nodes) - 1).
End geometry.
