(* ===== verification/GeometryTheorems.v ===== *)
(** * What the geometry functions compute

    The estimate of a distance, the side of a box, and the descent to the
    subsector of a point. *)
From S2P Require Import Prelude MFixed MBbox MapGeometry.
#[local] Open Scope doom_scope.

Section geometry.
Context {A : Arch}.
Implicit Types (l : Geo.line_t) (b : bbox) (x y : Z).

(** Coordinates whose differences are [fixed_t] again. *)
Definition coord x : Prop := fits_s 31 x.
Lemma coord_sub x y : coord x -> coord y -> i32 (x - y) = x - y /\ fits_s 32 (x - y).
Proof. unfold coord, fits_s. cbn. intros Hx Hy. assert (H : fits_s 32 (x - y)) by (unfold fits_s; cbn; lia). split; [by apply wraps_id|exact H]. Qed.

(** ** Distances *)
Lemma i32_abs x : Z.abs x <= 2 ^ 30 -> i32 (c_abs x) = Z.abs x.
Proof.
  intros H. change (2 ^ 30) with 1073741824 in H. rewrite c_abs_spec; [|unfold fits_s; cbn; lia|right; unfold INT_MIN; lia].
  apply wraps_id; [lia|]. unfold fits_s. cbn. lia.
Qed.
Lemma AproxDistance_run dx dy : Z.abs dx <= 2 ^ 30 -> Z.abs dy <= 2 ^ 30 ->
  P_AproxDistance dx dy = Z.max (Z.abs dx) (Z.abs dy) + (Z.min (Z.abs dx) (Z.abs dy) + 1) / 2.
Proof.
  intros Hx Hy. unfold P_AproxDistance. rewrite !i32_abs by done. change (2 ^ 30) with 1073741824 in *. set (a := Z.abs dx) in *. set (c := Z.abs dy) in *.
  assert (Hs : forall m, Z.shiftr m 1 = m / 2) by (intros m; by rewrite Z.shiftr_div_pow2).
  assert (Ei : forall m, 0 <= m <= a + c -> i32 (i32 (a + c) - m) = a + c - m \/ a + c - m > INT_MAX).
  { intros m Hm. destruct (decide (a + c - m <= INT_MAX)); [left|right; lia]. transitivity (i32 (a + c - m)); [|apply wraps_id; [lia|unfold fits_s, INT_MAX in *; cbn; lia]].
    apply wraps_congr. rewrite Zminus_mod, wraps_mod, <- Zminus_mod by lia. done. }
  rewrite !Hs. destruct (a <? c) eqn:E; breflect.
  - destruct (Ei (a / 2)) as [-> | H]; [Z.div_mod_to_equations; lia|rewrite Z.max_r, Z.min_l by lia; Z.div_mod_to_equations; lia|unfold INT_MAX in H; Z.div_mod_to_equations; lia].
  - destruct (Ei (c / 2)) as [-> | H]; [Z.div_mod_to_equations; lia|rewrite Z.max_l, Z.min_r by lia; Z.div_mod_to_equations; lia|unfold INT_MAX in H; Z.div_mod_to_equations; lia].
Qed.

(** P_AproxDistance never gives less than the true distance, and, up to
    the rounding of one half, at most the square root of 5/4 times it: less than
    12 percent too much. *)
Theorem P_AproxDistance_bounds dx dy : Z.abs dx <= 2 ^ 30 -> Z.abs dy <= 2 ^ 30 ->
  let d := P_AproxDistance dx dy in (dx * dx + dy * dy <= d * d /\ (2 * d - 1) * (2 * d - 1) <= 5 * (dx * dx + dy * dy)) \/ dx = 0 /\ dy = 0 /\ d = 0.
Proof.
  intros Hx Hy. cbv zeta. rewrite AproxDistance_run by done. rewrite <- (Z.abs_square dx), <- (Z.abs_square dy).
  pose proof (Z.abs_nonneg dx) as Px. pose proof (Z.abs_nonneg dy) as Py. assert (H0 : forall v, Z.abs v = 0 -> v = 0) by lia.
  pose proof (H0 dx) as H0x. pose proof (H0 dy) as H0y. revert Hx Hy Px Py H0x H0y. clear H0. generalize (Z.abs dx) (Z.abs dy). intros a c Hx Hy Px Py H0x H0y.
  set (m := Z.max _ _). set (k := Z.min _ _).
  assert (E : a * a + c * c = m * m + k * k) by (unfold m, k; destruct (Z.max_spec a c) as [[? ->]|[? ->]], (Z.min_spec a c) as [[? ->]|[? ->]]; lia).
  rewrite E. assert (Hk : 0 <= k <= m) by (unfold k, m; lia). destruct (decide (m = 0)) as [Em|Hm].
  - right. unfold m in Em. split_and!; [apply H0x; lia|apply H0y; lia|]. replace m with 0 by (unfold m; lia). replace k with 0 by lia. done.
  - left. clearbody m k. set (h := (k + 1) / 2). assert (Hh : k <= 2 * h <= k + 1) by (unfold h; clear; Z.div_mod_to_equations; lia). clearbody h. split.
    + assert (k * k <= m * (2 * h)) by nia. nia.
    + assert (0 <= (m - 2 * k) * (m - 2 * k)) by apply Z.square_nonneg. destruct (decide (h = 0)) as [->|Hh0]; [nia|].
      set (t := 2 * h - 1). assert (Ht : 0 <= t <= k) by lia. replace (2 * (m + h) - 1) with (2 * m + t) by lia. clearbody t.
      assert (m * t <= m * k) by nia. assert (t * t <= k * k) by nia. nia.
Qed.
(** ** Sides of a line *)
Definition in_box b x y : Prop := BOXLEFT b <= x <= BOXRIGHT b /\ BOXBOTTOM b <= y <= BOXTOP b.
Record line_ok l : Prop := {
  lk_x : coord (vx (Geo.v1 l));
  lk_y : coord (vy (Geo.v1 l));
  lk_dx : - INT_MAX <= Geo.dx l <= INT_MAX;
  lk_dy : - INT_MAX <= Geo.dy l <= INT_MAX;
  lk_unit : (FRACUNIT | Geo.dy l);
  lk_slope : line_slope (Geo.dx l) (Geo.dy l) = Ret (Geo.slopetype l)
}.
Definition box_ok b : Prop := coord (BOXLEFT b) /\ coord (BOXRIGHT b) /\ coord (BOXBOTTOM b) /\ coord (BOXTOP b) /\ BOXLEFT b <= BOXRIGHT b /\ BOXBOTTOM b <= BOXTOP b.

Lemma half_mul k v : -32768 <= k < 32768 -> fits_s 32 v -> FixedMul k v = k * v / 65536 /\ FixedMul v k = k * v / 65536.
Proof.
  intros Hk Hv. unfold FixedMul. rewrite (Z.mul_comm v k). assert (H : FixedMul k v = k * v / 65536); [|by split].
  unfold fits_s in Hv. cbn in Hv. unfold FixedMul, FRACBITS. rewrite (wraps_id 64) by (unfold fits_s; cbn; nia).
  rewrite Z.shiftr_div_pow2 by lia. change (2 ^ 16) with 65536. apply wraps_id; [lia|]. unfold fits_s. cbn.
  split; [apply Z.div_le_lower_bound; nia|apply Z.div_lt_upper_bound; nia].
Qed.
Lemma half_range d : - INT_MAX <= d <= INT_MAX -> -32768 <= Z.shiftr d FRACBITS < 32768 /\ (0 < d -> 0 <= Z.shiftr d FRACBITS) /\ (d < 0 -> Z.shiftr d FRACBITS <= 0).
Proof. unfold INT_MAX, FRACBITS. intros H. rewrite Z.shiftr_div_pow2 by lia. change (2 ^ 16) with 65536. Z.div_mod_to_equations. lia. Qed.

(** The decision of a line that is not along an axis. *)
Definition left_of l x : Z := Z.shiftr (Geo.dy l) FRACBITS * (x - vx (Geo.v1 l)) / 65536.
Definition right_of l y : Z := Z.shiftr (Geo.dx l) FRACBITS * (y - vy (Geo.v1 l)) / 65536.
Lemma PointOnLineSide_run l x y : line_ok l -> coord x -> coord y ->
  P_PointOnLineSide x y l = axis_side x y (vx (Geo.v1 l)) (vy (Geo.v1 l)) (Geo.dx l) (Geo.dy l) (if right_of l y <? left_of l x then 0 else 1).
Proof.
  intros [H1 H2 H3 H4 _ _] Hx Hy. unfold P_PointOnLineSide. destruct (coord_sub x _ Hx H1) as [-> Fx], (coord_sub y _ Hy H2) as [-> Fy].
  destruct (half_mul _ _ (proj1 (half_range _ H4)) Fx) as [-> _], (half_mul _ _ (proj1 (half_range _ H3)) Fy) as [_ ->]. done.
Qed.
Lemma scaled_up k v w : v <= w -> 0 <= k -> k * v / 65536 <= k * w / 65536.
Proof. intros H Hk. apply Z.div_le_mono; nia. Qed.
Lemma scaled_down k v w : v <= w -> k <= 0 -> k * w / 65536 <= k * v / 65536.
Proof. intros H Hk. apply Z.div_le_mono; nia. Qed.

(** The slope type says whether the ends go the same way. *)
Lemma slope_sign l : line_ok l ->
  match Geo.slopetype l with
  | ST_VERTICAL => Geo.dx l = 0
  | ST_HORIZONTAL => Geo.dx l <> 0 /\ Geo.dy l = 0
  | ST_POSITIVE => 0 < Geo.dx l /\ 0 < Geo.dy l \/ Geo.dx l < 0 /\ Geo.dy l < 0
  | ST_NEGATIVE => 0 < Geo.dx l /\ Geo.dy l < 0 \/ Geo.dx l < 0 /\ 0 < Geo.dy l
  end.
Proof.
  intros [_ _ H3 H4 [u Hu] H5]. unfold line_slope in H5. destruct (Geo.dx l =? 0) eqn:E1; breflect; [by injection H5 as <-|].
  destruct (Geo.dy l =? 0) eqn:E2; breflect; [by injection H5 as <-|].
  rewrite fixeddiv_defined in H5; [|unfold fits_s, INT_MAX in *; cbn; lia|unfold fits_s, INT_MAX in *; cbn; lia|right; unfold INT_MIN, INT_MAX in *; lia].
  cbn [obind] in H5. injection H5 as <-. unfold FRACUNIT in Hu. rewrite Z.gtb_ltb.
  destruct (Z.abs (Geo.dx l) <=? Z.abs (Geo.dy l) / 2 ^ 14) eqn:E3; breflect.
  - destruct (Geo.dy l <? 0) eqn:E4, (Geo.dx l <? 0) eqn:E5; breflect; cbn; lia.
  - assert (Hq : Z.abs (Z.quot (Geo.dy l * FRACUNIT) (Geo.dx l)) >= 1).
    { rewrite <- Z.quot_abs by done. rewrite Z.abs_mul, Z.quot_div_nonneg by lia. unfold INT_MAX, FRACUNIT in *. apply Z.le_ge, Z.div_le_lower_bound; lia. }
    pose proof (Z.quot_rem' (Geo.dy l * FRACUNIT) (Geo.dx l)) as Hd. set (q := Z.quot _ _) in *. clearbody q.
    pose proof (Z.rem_bound_abs (Geo.dy l * FRACUNIT) (Geo.dx l) E1) as Hr. pose proof (Z.rem_sign_mul (Geo.dy l * FRACUNIT) (Geo.dx l) E1) as Hs.
    set (r := Z.rem _ _) in *. clearbody r. unfold FRACUNIT in *. destruct (0 <? q) eqn:E6; breflect.
    + destruct (Z.lt_trichotomy (Geo.dx l) 0) as [|[|]], (Z.lt_trichotomy (Geo.dy l) 0) as [|[|]]; try lia; exfalso; nia.
    + destruct (Z.lt_trichotomy (Geo.dx l) 0) as [|[|]], (Z.lt_trichotomy (Geo.dy l) 0) as [|[|]]; try lia; exfalso; nia.
Qed.

(** Of two corners of a box, the one that is first in the direction of the
    line's left, and the other. *)
Lemma slanted_box l b x y : line_ok l -> in_box b x y ->
  match Geo.slopetype l with
  | ST_POSITIVE => (0 < Geo.dx l -> left_of l (BOXLEFT b) <= left_of l x <= left_of l (BOXRIGHT b) /\ right_of l (BOXBOTTOM b) <= right_of l y <= right_of l (BOXTOP b)) /\
      (Geo.dx l < 0 -> left_of l (BOXRIGHT b) <= left_of l x <= left_of l (BOXLEFT b) /\ right_of l (BOXTOP b) <= right_of l y <= right_of l (BOXBOTTOM b))
  | ST_NEGATIVE => (0 < Geo.dx l -> left_of l (BOXRIGHT b) <= left_of l x <= left_of l (BOXLEFT b) /\ right_of l (BOXBOTTOM b) <= right_of l y <= right_of l (BOXTOP b)) /\
      (Geo.dx l < 0 -> left_of l (BOXLEFT b) <= left_of l x <= left_of l (BOXRIGHT b) /\ right_of l (BOXTOP b) <= right_of l y <= right_of l (BOXBOTTOM b))
  | _ => True
  end.
Proof.
  intros Hl [Hx Hy]. pose proof (slope_sign l Hl) as Hs. destruct (half_range _ (lk_dx _ Hl)) as (_ & Px & Nx), (half_range _ (lk_dy _ Hl)) as (_ & Py & Ny).
  unfold left_of, right_of. destruct (Geo.slopetype l); try done; (split; intros Hd; split; split); (apply scaled_up; lia) || (apply scaled_down; lia).
Qed.
Lemma slant_side l x y : line_ok l -> coord x -> coord y -> Geo.dx l <> 0 -> Geo.dy l <> 0 ->
  P_PointOnLineSide x y l = if right_of l y <? left_of l x then 0 else 1.
Proof. intros Hl Hx Hy H1 H2. rewrite PointOnLineSide_run by done. unfold axis_side. by rewrite (proj2 (Z.eqb_neq _ _) H1), (proj2 (Z.eqb_neq _ _) H2). Qed.
Lemma box_coord b x y : box_ok b -> in_box b x y -> coord x /\ coord y.
Proof. unfold box_ok, in_box, coord, fits_s. lia. Qed.

(** The side of a point as P_BoxOnLineSide sees it: P_PointOnLineSide, but for
    points exactly on a vertical line, which P_PointOnLineSide counts to the left
    of it and P_BoxOnLineSide to the right. *)
Definition box_side x y l : Z :=
  if (Geo.dx l =? 0) && (x =? vx (Geo.v1 l)) then of_bool (Geo.dy l <? 0) else P_PointOnLineSide x y l.
Lemma box_side_slanted x y l : Geo.dx l <> 0 -> box_side x y l = P_PointOnLineSide x y l.
Proof. intros H. unfold box_side. by rewrite (proj2 (Z.eqb_neq _ _) H). Qed.
Lemma box_side_vertical x y l : coord x -> coord y -> line_ok l -> Geo.dx l = 0 -> Geo.dy l <> 0 ->
  box_side x y l = of_bool (if x <? vx (Geo.v1 l) then 0 <? Geo.dy l else Geo.dy l <? 0).
Proof.
  intros Hx Hy Hl H0 Hd. unfold box_side. rewrite PointOnLineSide_run by (done || tauto). unfold axis_side. rewrite H0, Z.eqb_refl, Z.gtb_ltb. cbn [andb].
  destruct (Z.eqb_spec x (vx (Geo.v1 l))) as [->|Hn]; [by rewrite Z.ltb_irrefl|]. cbn.
  destruct (Z.leb_spec x (vx (Geo.v1 l))), (Z.ltb_spec x (vx (Geo.v1 l))); done || lia.
Qed.

(** C25: P_BoxOnLineSide answers 0 or 1 when every point of the box is on that side
    of the line, and -1 when two points of the box are on different sides, where
    the side is that of P_PointOnLineSide, except that points exactly on a vertical
    line count to its right, and not as there to its left. *)
Theorem P_BoxOnLineSide_correct l b : line_ok l -> Geo.dx l <> 0 \/ Geo.dy l <> 0 -> box_ok b ->
  let r := P_BoxOnLineSide b l in
  ((r = 0 \/ r = 1) /\ forall x y, in_box b x y -> box_side x y l = r) \/
  (r = -1 /\ exists x y x' y', in_box b x y /\ in_box b x' y' /\ box_side x y l <> box_side x' y' l).
Proof.
  intros Hl Hne Hb. pose proof Hb as (C1 & C2 & C3 & C4 & Hlr & Hbt). pose proof (slope_sign l Hl) as Hs.
  assert (Hin : forall x y, (x = BOXLEFT b \/ x = BOXRIGHT b) -> (y = BOXBOTTOM b \/ y = BOXTOP b) -> in_box b x y) by (unfold in_box; lia).
  assert (Hslant : forall x1 y1 x2 y2, in_box b x1 y1 -> in_box b x2 y2 -> Geo.dx l <> 0 -> Geo.dy l <> 0 ->
    (forall x y, in_box b x y -> left_of l x1 <= left_of l x <= left_of l x2 /\ right_of l y2 <= right_of l y <= right_of l y1 \/
                                 left_of l x2 <= left_of l x <= left_of l x1 /\ right_of l y1 <= right_of l y <= right_of l y2) ->
    let p1 := P_PointOnLineSide x1 y1 l in let p2 := P_PointOnLineSide x2 y2 l in
    p1 = p2 /\ (p1 = 0 \/ p1 = 1) /\ (forall x y, in_box b x y -> P_PointOnLineSide x y l = p1) \/ p1 <> p2).
  { intros x1 y1 x2 y2 H1 H2 Hdx Hdy Hbetween p1 p2. destruct (decide (p1 = p2)) as [E|E]; [left|by right]. split; [done|].
    destruct (box_coord b x1 y1 Hb H1) as [? ?], (box_coord b x2 y2 Hb H2) as [? ?]. unfold p1, p2 in *. rewrite !slant_side in * by done.
    split; [destruct (_ <? _); auto|]. intros x y Hxy. destruct (box_coord b x y Hb Hxy) as [? ?]. rewrite slant_side by done.
    specialize (Hbetween x y Hxy). destruct (right_of l y1 <? left_of l x1) eqn:E1, (right_of l y2 <? left_of l x2) eqn:E2, (right_of l y <? left_of l x) eqn:E3;
      breflect; try done; lia. }
  unfold P_BoxOnLineSide. destruct (Geo.slopetype l) eqn:Et.
  - assert (Hpt : forall x y, coord x -> coord y -> P_PointOnLineSide x y l = of_bool (if y <=? vy (Geo.v1 l) then Geo.dx l <? 0 else Geo.dx l >? 0)).
    { intros x y Hx Hy. rewrite PointOnLineSide_run by done. unfold axis_side. rewrite (proj2 (Z.eqb_neq _ _)), (proj2 (Z.eqb_eq (Geo.dy l) 0)) by tauto. done. }
    rewrite !Z.gtb_ltb in *. destruct (Geo.dx l <? 0) eqn:Ed, (vy (Geo.v1 l) <? BOXTOP b) eqn:E1, (vy (Geo.v1 l) <? BOXBOTTOM b) eqn:E2; breflect; cbn; try lia.
    all: try (left; split; [auto|]; intros x y Hxy; rewrite box_side_slanted by tauto; destruct (box_coord b x y Hb Hxy); rewrite Hpt by done; destruct Hxy;
      destruct (y <=? vy (Geo.v1 l)) eqn:E3; rewrite ?Z.gtb_ltb; breflect; try lia; destruct (Geo.dx l <? 0) eqn:E4, (0 <? Geo.dx l) eqn:E5; breflect; done || lia).
    all: right; split; [done|]; exists (BOXLEFT b), (BOXTOP b), (BOXLEFT b), (BOXBOTTOM b); split_and!; [by apply Hin; auto|by apply Hin; auto|]; rewrite !box_side_slanted, !Hpt by tauto;
      rewrite (proj2 (Z.leb_gt (BOXTOP b) _)), (proj2 (Z.leb_le (BOXBOTTOM b) _)) by lia; rewrite ?Z.gtb_ltb; destruct (Geo.dx l <? 0) eqn:E4, (0 <? Geo.dx l) eqn:E5; breflect; done || lia.
  - assert (Hdy : Geo.dy l <> 0) by tauto.
    assert (Hpt : forall x y, in_box b x y -> box_side x y l = of_bool (if x <? vx (Geo.v1 l) then 0 <? Geo.dy l else Geo.dy l <? 0)).
    { intros x y Hxy. destruct (box_coord b x y Hb Hxy). by apply box_side_vertical. }
    destruct (Geo.dy l <? 0) eqn:Ed, (BOXRIGHT b <? vx (Geo.v1 l)) eqn:E1, (BOXLEFT b <? vx (Geo.v1 l)) eqn:E2; breflect; cbn; try lia.
    all: try (left; split; [auto|]; intros x y Hxy; rewrite (Hpt x y Hxy); destruct Hxy;
      destruct (x <? vx (Geo.v1 l)) eqn:E3; breflect; try lia; destruct (0 <? Geo.dy l) eqn:E5; breflect; done || lia).
    all: right; split; [done|]; exists (BOXLEFT b), (BOXTOP b), (BOXRIGHT b), (BOXTOP b); (split; [by apply Hin; auto|]); (split; [by apply Hin; auto|]);
      rewrite !Hpt by (apply Hin; auto); rewrite (proj2 (Z.ltb_ge (BOXRIGHT b) _)), (proj2 (Z.ltb_lt (BOXLEFT b) _)) by lia; destruct (0 <? Geo.dy l) eqn:E5; breflect; done || lia.
  - destruct (Hslant (BOXLEFT b) (BOXTOP b) (BOXRIGHT b) (BOXBOTTOM b)) as [(E & H01 & H)|E]; [by apply Hin; auto|by apply Hin; auto|lia|lia| | |].
    + intros x y Hxy. pose proof (slanted_box l b x y Hl Hxy) as H. rewrite Et in H. destruct H as [H1 H2]. destruct Hs as [[Hd _]|[Hd _]]; [left|right]; auto.
    + left. rewrite E, Z.eqb_refl in *. split; [done|]. intros x y Hxy. rewrite box_side_slanted by lia. by apply H.
    + right. rewrite (proj2 (Z.eqb_neq _ _) E). split; [done|]. eexists _, _, _, _. split_and!; [| |rewrite !box_side_slanted by lia; exact E]; apply Hin; auto.
  - destruct (Hslant (BOXRIGHT b) (BOXTOP b) (BOXLEFT b) (BOXBOTTOM b)) as [(E & H01 & H)|E]; [by apply Hin; auto|by apply Hin; auto|lia|lia| | |].
    + intros x y Hxy. pose proof (slanted_box l b x y Hl Hxy) as H. rewrite Et in H. destruct H as [H1 H2]. destruct Hs as [[Hd _]|[Hd _]]; [left|right]; auto.
    + left. rewrite E, Z.eqb_refl in *. split; [done|]. intros x y Hxy. rewrite box_side_slanted by lia. by apply H.
    + right. rewrite (proj2 (Z.eqb_neq _ _) E). split; [done|]. eexists _, _, _, _. split_and!; [| |rewrite !box_side_slanted by lia; exact E]; apply Hin; auto.
Qed.

(** ** The subsector of a point *)

(** Nodes come before the nodes that have them as children; [n] subsectors. *)
Definition child_ok (n : Z) (i : nat) (c : Z) : Prop :=
  has_flag c NF_SUBSECTOR = true /\ 0 <= Z.land c (Z.lnot NF_SUBSECTOR) < n \/ has_flag c NF_SUBSECTOR = false /\ 0 <= c < Z.of_nat i.
Definition nodes_ok (nodes : list Node.node_t) (n : Z) : Prop :=
  0 < n /\ Z.of_nat (length nodes) <= NF_SUBSECTOR /\
  forall i node, nodes !! i = Some node -> child_ok n i (Node.children node).1 /\ child_ok n i (Node.children node).2.
(** The leaf that the partition lines lead to. *)
Inductive leads (nodes : list Node.node_t) x y : Z -> Z -> Prop :=
| leads_leaf c : has_flag c NF_SUBSECTOR = true -> leads nodes x y c (Z.land c (Z.lnot NF_SUBSECTOR))
| leads_node i node s : nodes !! i = Some node -> leads nodes x y (child node (R_PointOnSide x y node)) s -> leads nodes x y (Z.of_nat i) s.
Lemma no_flag_small i : 0 <= i < NF_SUBSECTOR -> has_flag i NF_SUBSECTOR = false.
Proof.
  intros H. unfold has_flag, NF_SUBSECTOR in *. assert (E : Z.land i 32768 = 0); [|by rewrite E]. apply Z.bits_inj'. intros k Hk. rewrite Z.land_spec, Z.bits_0.
  change 32768 with (2 ^ 15). rewrite Z.pow2_bits_eqb by lia. destruct (15 =? k) eqn:E; breflect; [|by rewrite andb_false_r]. subst k.
  rewrite Z.bits_above_log2; [done|lia|]. destruct (decide (i = 0)) as [->|Hi]; [cbn; lia|]. apply Z.log2_lt_pow2; [lia|]. exact (proj2 H).
Qed.
Lemma descend_run nodes n x y : nodes_ok nodes n -> forall fuel i c, child_ok n i c -> (i <= length nodes)%nat -> (i <= fuel)%nat ->
  exists s, descend fuel nodes x y c = Ret s /\ 0 <= s < n /\ leads nodes x y c s.
Proof.
  intros (Hn & Hl & Hc). induction fuel as [|fuel IH]; intros i c [[Hf Hs]|[Hf Hs]] Hi Hfu; cbn [descend]; rewrite Hf; try (eexists; split_and!; [done|lia|lia|by constructor]); [lia|].
  rewrite (proj2 (Z.ltb_ge _ _)) by lia. destruct (lookup_lt_is_Some_2 nodes (Z.to_nat c)) as [node E]; [lia|]. rewrite E. cbn [of_option obind].
  destruct (Hc _ _ E) as [H1 H2].
  destruct (IH (Z.to_nat c) (child node (R_PointOnSide x y node))) as (s & Er & Hr & Hp); [unfold child; by destruct (_ =? 0)|lia|lia|].
  exists s. split_and!; [done|lia|lia|]. rewrite <- (Z2Nat.id c) by lia. by eapply leads_node.
Qed.

Lemma PointInSubsector_run nodes n x y : nodes_ok nodes n ->
  exists s, R_PointInSubsector nodes x y = Ret s /\ 0 <= s < n /\
    (nodes = [] -> s = 0) /\ (nodes <> [] -> leads nodes x y (Z.of_nat (length nodes) - 1) s).
Proof.
  intros H. unfold R_PointInSubsector. destruct (decide (nodes = [])) as [->|Hne]; [rewrite bool_decide_eq_true_2 by done; exists 0; destruct H; split_and!; done || lia|].
  rewrite bool_decide_eq_false_2 by done. pose proof H as (Hn & Hl & Hc). assert (0 < length nodes)%nat by (destruct nodes; [done|cbn; lia]).
  assert (Hroot : child_ok n (length nodes) (Z.of_nat (length nodes) - 1)) by (right; split; [apply no_flag_small; lia|lia]).
  destruct (descend_run nodes n x y H (length nodes) (length nodes) _ Hroot) as (s & E & Hs & Hp); [lia|lia|]. by exists s.
Qed.

(** on well-formed nodes, R_PointInSubsector terminates with the number of
    a subsector: the leaf to which the sides of the point at the partition lines
    lead from the root; a map without nodes has the subsector 0 only. *)
Theorem R_PointInSubsector_correct nodes n x y : nodes_ok nodes n ->
  exists s, R_PointInSubsector nodes x y = Ret s /\ 0 <= s < n /\
    (nodes = [] -> s = 0) /\ (nodes <> [] -> leads nodes x y (Z.of_nat (length nodes) - 1) s).
Proof. apply PointInSubsector_run. Qed.
End geometry.

(** ** Witnesses *)
Lemma P_AproxDistance_bounds_witness : let d := P_AproxDistance (A := ILP32) (3 * FRACUNIT) (-4 * FRACUNIT) in
  d = 360448 /\ (5 * FRACUNIT) * (5 * FRACUNIT) <= d * d.
Proof.
  split; [vm_compute; reflexivity|].
  destruct (P_AproxDistance_bounds (A := ILP32) (3 * FRACUNIT) (-4 * FRACUNIT)) as [[H _]|(H & _)]; [vm_compute; discriminate|vm_compute; discriminate|exact H|discriminate H].
Defined.

(** A line that goes up and to the right, and a box above it. *)
Definition rising : Geo.line_t := Geo.mk (mk_vertex 0 0) (mk_vertex (64 * FRACUNIT) (32 * FRACUNIT)) (64 * FRACUNIT) (32 * FRACUNIT) 0 0 0 (mk_bbox (32 * FRACUNIT) 0 0 (64 * FRACUNIT)) ST_POSITIVE None None 0.
Lemma P_BoxOnLineSide_correct_witness : let b := mk_bbox (60 * FRACUNIT) (50 * FRACUNIT) 0 (20 * FRACUNIT) in
  P_BoxOnLineSide b rising = 1 /\ P_PointOnLineSide (10 * FRACUNIT) (55 * FRACUNIT) rising = 1.
Proof.
  cbv zeta. set (b := mk_bbox _ _ _ _).
  assert (E : P_BoxOnLineSide b rising = 1) by (vm_compute; reflexivity). split; [exact E|].
  destruct (P_BoxOnLineSide_correct (A := LP64) rising b) as [[_ H]|[H _]].
  - split; [fits_const|fits_const|vm_compute; split; discriminate|vm_compute; split; discriminate|exists 32; reflexivity|vm_compute; reflexivity].
  - left. discriminate.
  - split; [fits_const|]. split; [fits_const|]. split; [fits_const|]. split; [fits_const|]. split; vm_compute; discriminate.
  - rewrite E in H. specialize (H (10 * FRACUNIT) (55 * FRACUNIT)). apply H. split; split; vm_compute; discriminate.
  - rewrite E in H. discriminate H.
Defined.

(** Two nodes and three subsectors. *)
Definition small_tree : list Node.node_t :=
  [Node.mk 0 0 0 FRACUNIT (0x8000, 0x8001); Node.mk 0 0 FRACUNIT 0 (0, 0x8002)].
Lemma R_PointInSubsector_correct_witness : exists s, R_PointInSubsector small_tree (5 * FRACUNIT) (-FRACUNIT) = Ret s /\ 0 <= s < 3.
Proof.
  destruct (R_PointInSubsector_correct small_tree 3 (5 * FRACUNIT) (-FRACUNIT)) as (s & E & H & _).
  - split; [lia|]. split; [vm_compute; discriminate|]. intros [|[|i]] node En; [| |discriminate En]; injection En as <-; (split; [|]); vm_compute; first [left; split; [reflexivity|split; [discriminate|reflexivity]]|right; split; [reflexivity|split; [discriminate|reflexivity]]].
  - exists s. split; [exact E|exact H].
Defined.
