(* ===== verification/DLists.v ===== *)
(** * Doubly linked lists through the objects

    The things of a sector and the things of a block of the map are lists with
    links in both directions through the things themselves. Both are the same
    list over a different pair of links, so the links are a parameter. *)
From S2P Require Import Prelude.
#[local] Open Scope doom_scope.

(** A pair of links in an object of type [M]. *)
Record fields (M : Type) : Type := mk_fields { nx : M -> Z; pv : M -> Z; set_nx : Z -> M -> M; set_pv : Z -> M -> M }.
Arguments mk_fields {M}.
Arguments nx {M}.
Arguments pv {M}.
Arguments set_nx {M}.
Arguments set_pv {M}.
Class FieldLaws {M : Type} (f : fields M) : Prop := {
  nx_set_nx v m : nx f (set_nx f v m) = v;
  nx_set_pv v m : nx f (set_pv f v m) = nx f m;
  pv_set_nx v m : pv f (set_nx f v m) = pv f m;
  pv_set_pv v m : pv f (set_pv f v m) = v
}.

Section dlist.
Context {M : Type} (f : fields M) {laws : FieldLaws f}.
Implicit Types (ms : gmap Z M) (l : list Z) (a p n : Z).

Definition change (a : Z) (g : M -> M) ms : outcome (gmap Z M) :=
  let* m := of_option (ms !! a) in Ret (<[a := g m]> ms).

(** The part of a list between the objects [p] and [n]. *)
Fixpoint dseg ms p l n : Prop :=
  match l with
  | [] => True
  | a :: l => a <> 0 /\ exists m, ms !! a = Some m /\ pv f m = p /\ nx f m = hd n l /\ dseg ms a l n
  end.
Definition dlist ms l : Prop := NoDup l /\ dseg ms 0 l 0.

Lemma dseg_app ms l1 l2 : forall p n, dseg ms p (l1 ++ l2) n <-> dseg ms p l1 (hd n l2) /\ dseg ms (default p (last l1)) l2 n.
Proof.
  induction l1 as [|a l1 IH]; intros p n; [cbn; tauto|]. cbn [app dseg]. assert (Eh : hd n (l1 ++ l2) = hd (hd n l2) l1) by (by destruct l1).
  assert (El : default p (last (a :: l1)) = default a (last l1)) by (rewrite last_cons; by destruct (last l1)). rewrite Eh, El.
  split; [intros (H0 & m & Em & Hp & Hn & H); apply IH in H as [H1 H2]|intros [(H0 & m & Em & Hp & Hn & H1) H2]].
  - split; [|done]. split; [done|]. by exists m.
  - split; [done|]. exists m. split_and!; try done. apply IH. by split.
Qed.
Lemma dseg_frame ms ms' l : forall p n, dseg ms p l n ->
  (forall a m, a ∈ l -> ms !! a = Some m -> exists m', ms' !! a = Some m' /\ nx f m' = nx f m /\ pv f m' = pv f m) -> dseg ms' p l n.
Proof.
  induction l as [|a l IH]; intros p n; [done|]. intros (H0 & m & Em & Hp & Hn & H) Hf. split; [done|].
  destruct (Hf a m ltac:(left) Em) as (m' & Em' & En & Ep). exists m'. rewrite En, Ep. split_and!; try done. apply IH; [done|]. intros b mb Hb. apply Hf. by right.
Qed.
Lemma dlist_frame ms ms' l : dlist ms l ->
  (forall a m, a ∈ l -> ms !! a = Some m -> exists m', ms' !! a = Some m' /\ nx f m' = nx f m /\ pv f m' = pv f m) -> dlist ms' l.
Proof. intros [H1 H2] Hf. split; [done|]. by eapply dseg_frame. Qed.
Lemma dseg_elem ms l p n a : dseg ms p l n -> a ∈ l -> a <> 0 /\ is_Some (ms !! a).
Proof.
  revert p. induction l as [|b l IH]; intros p H Ha; [by apply elem_of_nil in Ha|]. destruct H as (H0 & m & Em & _ & _ & H).
  apply elem_of_cons in Ha as [->|Ha]; [split; [done|by exists m]|by eapply IH].
Qed.

(** ** Linking at the head *)
Definition link (a head : Z) ms : outcome (gmap Z M) :=
  let* ms := change a (set_pv f 0) ms in
  let* ms := change a (set_nx f head) ms in
  if head =? 0 then Ret ms else change head (set_pv f a) ms.
Lemma link_run ms l a m : dlist ms l -> a ∉ l -> a <> 0 -> ms !! a = Some m ->
  exists ms', link a (hd 0 l) ms = Ret ms' /\ dlist ms' (a :: l) /\
    ms' !! a = Some (set_nx f (hd 0 l) (set_pv f 0 m)) /\
    (forall b, b <> a -> ms' !! b = ms !! b \/ exists mb, b = hd 0 l /\ ms !! b = Some mb /\ ms' !! b = Some (set_pv f a mb)).
Proof.
  intros [Hd Hs] Ha H0 Em. unfold link, change. rewrite Em. cbn [of_option obind]. rewrite lookup_insert_eq. cbn [of_option obind].
  set (ma := set_nx f (hd 0 l) (set_pv f 0 m)). rewrite insert_insert_eq. destruct l as [|b l].
  - cbn [hd Z.eqb]. eexists. split; [done|]. split; [split; [by apply NoDup_singleton|]|split; [by rewrite lookup_insert_eq|]].
    + split; [done|]. exists ma. rewrite lookup_insert_eq. unfold ma. rewrite pv_set_nx, pv_set_pv, nx_set_nx. done.
    + intros b Hb. left. by rewrite lookup_insert_ne.
  - destruct Hs as (Hb0 & mb & Eb & Hbp & Hbn & Hs). rewrite not_elem_of_cons in Ha. destruct Ha as [Hab Hal]. cbn [hd].
    apply NoDup_cons in Hd as [Hbl Hd]. rewrite (proj2 (Z.eqb_neq b 0) Hb0), lookup_insert_ne, Eb by done. cbn [of_option obind]. eexists. split; [done|].
    split; [split|split].
    + apply NoDup_cons. split; [by rewrite not_elem_of_cons|]. by apply NoDup_cons.
    + split; [done|]. exists ma. rewrite lookup_insert_ne, lookup_insert_eq by congruence. unfold ma. rewrite pv_set_nx, pv_set_pv, nx_set_nx. split_and!; try done.
      split; [done|]. exists (set_pv f a mb). rewrite lookup_insert_eq, pv_set_pv, nx_set_pv. split_and!; try done.
      apply (dseg_frame ms); [done|]. intros c mc Hc Ec. exists mc. split; [|done]. rewrite !lookup_insert_ne; [done|congruence|congruence].
    + by rewrite lookup_insert_ne, lookup_insert_eq by congruence.
    + intros c Hc. destruct (decide (c = b)) as [->|Hcb]; [right; exists mb; by rewrite lookup_insert_eq|left]. by rewrite !lookup_insert_ne by congruence.
Qed.

(** ** Taking an object out

    The links of the neighbours are set; without a neighbour in front, the caller
    sets the head. *)
Definition unlink (a : Z) ms : outcome (Z * bool * gmap Z M) :=
  let* m := of_option (ms !! a) in
  let* ms := if nx f m =? 0 then Ret ms else change (nx f m) (set_pv f (pv f m)) ms in
  let* m := of_option (ms !! a) in
  if pv f m =? 0 then Ret (nx f m, true, ms)
  else let* ms := change (pv f m) (set_nx f (nx f m)) ms in Ret (nx f m, false, ms).
Lemma pull_out_run ms l1 a l2 : dlist ms (l1 ++ a :: l2) ->
  exists ms', unlink a ms = Ret (hd 0 l2, bool_decide (l1 = []), ms') /\ dlist ms' (l1 ++ l2) /\ ms' !! a = ms !! a /\
    (forall b, b <> a -> ms' !! b = ms !! b \/ exists mb mb' v, b ∈ l1 ++ l2 /\ ms !! b = Some mb /\ ms' !! b = Some mb' /\
       (mb' = set_nx f v mb \/ mb' = set_pv f v mb)).
Proof.
  intros [Hd Hs]. apply dseg_app in Hs as [Hs1 Hs2]. destruct Hs2 as (Ha0 & m & Em & Hp & Hn & Hs2).
  assert (Hnd : NoDup (l1 ++ l2) /\ a ∉ l1 /\ a ∉ l2).
  { rewrite (Permutation_middle l1 l2 a) in Hd || rewrite <- (Permutation_middle l1 l2 a) in Hd. apply NoDup_cons in Hd as [H1 H2]. rewrite not_elem_of_app in H1. done. }
  destruct Hnd as (Hnd & Ha1 & Ha2). pose proof Hnd as Hnd'. apply NoDup_app in Hnd' as (Hn1 & Hdis & Hn2). unfold unlink. rewrite Em. cbn [of_option obind]. rewrite Hn, Hp.
  (* the object behind *)
  assert (H2 : exists ms2, (if hd 0 l2 =? 0 then Ret ms else change (hd 0 l2) (set_pv f (default 0 (last l1))) ms) = Ret ms2 /\ ms2 !! a = Some m /\
    dseg ms2 (default 0 (last l1)) l2 0 /\ dseg ms2 0 l1 a /\
    (forall b, b <> a -> ms2 !! b = ms !! b \/ exists mb v, b ∈ l2 /\ ms !! b = Some mb /\ ms2 !! b = Some (set_pv f v mb))).
  { destruct l2 as [|c l2]; [exists ms; split_and!; try done; intros b _; by left|]. destruct Hs2 as (Hc0 & mc & Ec & Hcp & Hcn & Hs2). cbn [hd] in *.
    apply not_elem_of_cons in Ha2 as [Hac Ha2]. apply NoDup_cons in Hn2 as [Hcl2 Hn2]. rewrite (proj2 (Z.eqb_neq c 0) Hc0). unfold change. rewrite Ec. cbn [of_option obind].
    eexists. split; [done|]. split_and!.
    - by rewrite lookup_insert_ne.
    - split; [done|]. eexists. rewrite lookup_insert_eq, pv_set_pv, nx_set_pv. split_and!; try done. apply (dseg_frame ms); [done|].
      intros b mb Hb Eb. exists mb. rewrite lookup_insert_ne; [done|]. by intros ->.
    - apply (dseg_frame ms); [done|]. intros b mb Hb Eb. exists mb. rewrite lookup_insert_ne; [done|]. intros ->. apply (Hdis b Hb). left.
    - intros b Hb. destruct (decide (b = c)) as [->|Hbc]; [right; exists mc; eexists; split_and!; [left|done|by rewrite lookup_insert_eq]|left; by rewrite lookup_insert_ne]. }
  destruct H2 as (ms2 & -> & Em2 & Hs2' & Hs1' & Hoth). cbn [obind]. rewrite Em2. cbn [of_option obind]. rewrite Hn, Hp.
  destruct (last l1) as [q|] eqn:El; [change (default 0 (Some q)) with q in *|change (default 0 None) with 0 in *].
  - apply last_Some in El as [l0 ->]. apply dseg_app in Hs1' as [Hs0 (Hq0 & mq & Eq & Hqp & Hqn & _)]. cbn [hd] in *.
    rewrite (proj2 (Z.eqb_neq q 0)) by done. unfold change. rewrite Eq. cbn [of_option obind]. rewrite bool_decide_eq_false_2 by (by destruct l0).
    assert (Hql2 : q ∉ l2) by (apply Hdis; rewrite elem_of_app; right; left). assert (Hq0' : q ∉ l0) by (apply NoDup_app in Hn1 as (_ & H & _); intros Hq; apply (H q Hq); left).
    eexists. split; [done|]. split_and!; [split; [done|]|by rewrite lookup_insert_ne by (intros <-; apply Ha1; rewrite elem_of_app; right; left)|].
    + rewrite <- app_assoc. apply dseg_app. split; [|].
      * apply (dseg_frame ms2); [done|]. intros b mb Hb Eb. exists mb. rewrite lookup_insert_ne; [done|]. by intros ->.
      * cbn [app]. split; [done|]. eexists. rewrite lookup_insert_eq, pv_set_nx, nx_set_nx. split_and!; try done.
        apply (dseg_frame ms2); [done|]. intros b mb Hb Eb. exists mb. rewrite lookup_insert_ne; [done|]. by intros ->.
    + intros b Hb. destruct (decide (b = q)) as [->|Hbq].
      * right. destruct (Hoth q Hb) as [Eo|(mb & v & Hin & _)]; [|done]. exists mq, (set_nx f (hd 0 l2) mq), (hd 0 l2). rewrite lookup_insert_eq, <- Eo. split_and!; try done; [|by left].
        rewrite !elem_of_app. left. right. left.
      * rewrite lookup_insert_ne by done. destruct (Hoth b Hb) as [->|(mb & v & Hin & E1 & E2)]; [by left|right]. exists mb, (set_pv f v mb), v. split_and!; try done; [rewrite elem_of_app; by right|by right].
  - apply last_None in El as ->. cbn [Z.eqb]. rewrite bool_decide_eq_true_2 by done. exists ms2. split; [done|]. split_and!; [by split|congruence|].
    intros b Hb. destruct (Hoth b Hb) as [->|(mb & v & Hin & E1 & E2)]; [by left|right]. exists mb, (set_pv f v mb), v. split_and!; try done. by right.
Qed.

(** ** Only links change *)
Inductive relinked : M -> M -> Prop :=
| relinked_refl m : relinked m m
| relinked_nx m m' v : relinked m m' -> relinked m (set_nx f v m')
| relinked_pv m m' v : relinked m m' -> relinked m (set_pv f v m').
Definition relinks ms ms' : Prop := forall b m, ms !! b = Some m -> exists m', ms' !! b = Some m' /\ relinked m m'.

Lemma push_run ms (ls : list (list Z)) i l a m : Forall (dlist ms) ls -> ls !! i = Some l -> (forall j l', ls !! j = Some l' -> a ∉ l') -> a <> 0 -> ms !! a = Some m ->
  (forall j k lj lk b, ls !! j = Some lj -> ls !! k = Some lk -> b ∈ lj -> b ∈ lk -> j = k) ->
  exists ms', link a (hd 0 l) ms = Ret ms' /\ relinks ms ms' /\ Forall (dlist ms') (<[i := a :: l]> ls).
Proof.
  intros Hls Ei Ha H0 Em Hu. rewrite Forall_lookup in Hls. destruct (link_run ms l a m (Hls i l Ei) (Ha i l Ei) H0 Em) as (ms' & E & Hd & Ea & Ho).
  exists ms'. split; [done|]. split.
  - intros b mb Eb. destruct (decide (b = a)) as [->|Hb].
    + rewrite Em in Eb. injection Eb as <-. eexists. split; [done|]. by do 3 constructor.
    + destruct (Ho b Hb) as [->|(mb' & _ & E1 & E2)]; [exists mb; split; [done|constructor]|]. rewrite E1 in Eb. injection Eb as ->. eexists. split; [done|]. by do 2 constructor.
  - apply Forall_lookup. intros j lj Ej. apply list_lookup_insert_Some in Ej as [(<- & <- & _)|[Hij Ej]]; [done|].
    apply (dlist_frame ms); [by apply (Hls j)|]. intros b mb Hb Eb. exists mb. split; [|done]. destruct (Ho b) as [->|(mb' & -> & _)]; [by intros ->; apply (Ha j lj)|done|].
    exfalso. destruct l as [|c l]; [destruct (dseg_elem ms lj 0 0 0 (proj2 (Hls j lj Ej)) Hb); done|]. apply Hij. by apply (Hu i j (c :: l) lj c Ei Ej ltac:(left)).
Qed.
Lemma pull_run ms (ls : list (list Z)) i l1 a l2 : Forall (dlist ms) ls -> ls !! i = Some (l1 ++ a :: l2) ->
  (forall j k lj lk b, ls !! j = Some lj -> ls !! k = Some lk -> b ∈ lj -> b ∈ lk -> j = k) ->
  exists ms', unlink a ms = Ret (hd 0 l2, bool_decide (l1 = []), ms') /\ relinks ms ms' /\ ms' !! a = ms !! a /\ Forall (dlist ms') (<[i := l1 ++ l2]> ls).
Proof.
  intros Hls Ei Hu. rewrite Forall_lookup in Hls. destruct (pull_out_run ms l1 a l2 (Hls i _ Ei)) as (ms' & E & Hd & Ea & Ho).
  exists ms'. split_and!; [done| |done|].
  - intros b mb Eb. destruct (decide (b = a)) as [->|Hb]; [exists mb; split; [by rewrite Ea|constructor]|].
    destruct (Ho b Hb) as [->|(mb' & mb2 & v & _ & E1 & E2 & Hv)]; [exists mb; split; [done|constructor]|]. rewrite E1 in Eb. injection Eb as ->.
    exists mb2. split; [done|]. destruct Hv as [-> | ->]; by do 2 constructor.
  - apply Forall_lookup. intros j lj Ej. apply list_lookup_insert_Some in Ej as [(<- & <- & _)|[Hij Ej]]; [done|].
    apply (dlist_frame ms); [by apply (Hls j)|]. intros b mb Hb Eb. exists mb. split; [|done].
    assert (Hbi : b ∉ l1 ++ a :: l2) by (intros Hin; apply Hij; by apply (Hu i j _ lj b Ei Ej Hin Hb)).
    destruct (Ho b) as [->|(mb' & mb2 & v & Hin & _)]; [intros ->; apply Hbi; rewrite elem_of_app; right; left|done|].
    exfalso. apply Hbi. rewrite elem_of_app in *. destruct Hin; [by left|right; by right].
Qed.
End dlist.
