(* ===== verification/GameTypes.v ===== *)
(** * The data of a running game

    The structures of src/commands/doom that a savegame holds and the movers
    work on, one module per C structure with the C field names. Integers are
    mathematical integers whose width the operations on them keep. A pointer
    into one of the arrays [states], [sectors], [players] or [lines] is the
    index of its target; every other pointer is its address. Of the
    structures that describe the map only the fields that the modelled code
    reads or writes are there. *)
From S2P Require Import Prelude.

(** [mapthing_t] *)
Module MapThing.
Record mapthing_t : Type := mk {
  x : Z; y : Z; angle : Z; type : Z; options : Z }.
#[global] Instance eta : Eta mapthing_t := fun r =>
  mk (x r) (y r) (angle r) (type r) (options r).
End MapThing.

(** [thinker_t] *)
Module Thinker.
Record thinker_t : Type := mk {
  prev : Z; next : Z; function : Z }.
#[global] Instance eta : Eta thinker_t := fun r =>
  mk (prev r) (next r) (function r).
End Thinker.

(** [mobj_t] *)
Module Mobj.
Record mobj_t : Type := mk {
  thinker : Thinker.thinker_t; x : Z; y : Z; z : Z; snext : Z; sprev : Z; angle : Z;
  sprite : Z; frame : Z; bnext : Z; bprev : Z; subsector : Z; floorz : Z; ceilingz : Z;
  radius : Z; height : Z; momx : Z; momy : Z; momz : Z; validcount : Z; type : Z; info : Z;
  tics : Z; state : Z; flags : Z; health : Z; movedir : Z; movecount : Z; target : Z;
  reactiontime : Z; threshold : Z; player : option Z; lastlook : Z;
  spawnpoint : MapThing.mapthing_t; tracer : Z }.
#[global] Instance eta : Eta mobj_t := fun r =>
  mk (thinker r) (x r) (y r) (z r) (snext r) (sprev r) (angle r) (sprite r) (frame r) (bnext r)
  (bprev r) (subsector r) (floorz r) (ceilingz r) (radius r) (height r) (momx r) (momy r)
  (momz r) (validcount r) (type r) (info r) (tics r) (state r) (flags r) (health r) (movedir r)
  (movecount r) (target r) (reactiontime r) (threshold r) (player r) (lastlook r)
  (spawnpoint r) (tracer r).
End Mobj.

(** [ticcmd_t] *)
Module TicCmd.
Record ticcmd_t : Type := mk {
  forwardmove : Z; sidemove : Z; angleturn : Z; chatchar : Z; buttons : Z; consistancy : Z;
  buttons2 : Z; inventory : Z; lookfly : Z; arti : Z }.
#[global] Instance eta : Eta ticcmd_t := fun r =>
  mk (forwardmove r) (sidemove r) (angleturn r) (chatchar r) (buttons r) (consistancy r)
  (buttons2 r) (inventory r) (lookfly r) (arti r).
End TicCmd.

(** [pspdef_t] *)
Module PspDef.
Record pspdef_t : Type := mk {
  state : option Z; tics : Z; sx : Z; sy : Z }.
#[global] Instance eta : Eta pspdef_t := fun r =>
  mk (state r) (tics r) (sx r) (sy r).
End PspDef.

(** [player_t] *)
Module Player.
Record player_t : Type := mk {
  mo : Z; playerstate : Z; cmd : TicCmd.ticcmd_t; viewz : Z; viewheight : Z;
  deltaviewheight : Z; bob : Z; health : Z; armorpoints : Z; armortype : Z; powers : list Z;
  cards : list Z; backpack : Z; frags : list Z; readyweapon : Z; pendingweapon : Z;
  weaponowned : list Z; ammo : list Z; maxammo : list Z; attackdown : Z; usedown : Z;
  cheats : Z; refire : Z; killcount : Z; itemcount : Z; secretcount : Z; message : Z;
  damagecount : Z; bonuscount : Z; attacker : Z; extralight : Z; fixedcolormap : Z;
  colormap : Z; psprites : list PspDef.pspdef_t; didsecret : Z }.
#[global] Instance eta : Eta player_t := fun r =>
  mk (mo r) (playerstate r) (cmd r) (viewz r) (viewheight r) (deltaviewheight r) (bob r)
  (health r) (armorpoints r) (armortype r) (powers r) (cards r) (backpack r) (frags r)
  (readyweapon r) (pendingweapon r) (weaponowned r) (ammo r) (maxammo r) (attackdown r)
  (usedown r) (cheats r) (refire r) (killcount r) (itemcount r) (secretcount r) (message r)
  (damagecount r) (bonuscount r) (attacker r) (extralight r) (fixedcolormap r) (colormap r)
  (psprites r) (didsecret r).
End Player.

(** [ceiling_t] *)
Module Ceiling.
Record ceiling_t : Type := mk {
  thinker : Thinker.thinker_t; type : Z; sector : Z; bottomheight : Z; topheight : Z;
  speed : Z; crush : Z; direction : Z; tag : Z; olddirection : Z }.
#[global] Instance eta : Eta ceiling_t := fun r =>
  mk (thinker r) (type r) (sector r) (bottomheight r) (topheight r) (speed r) (crush r)
  (direction r) (tag r) (olddirection r).
End Ceiling.

(** [vldoor_t] *)
Module VlDoor.
Record vldoor_t : Type := mk {
  thinker : Thinker.thinker_t; type : Z; sector : Z; topheight : Z; speed : Z; direction : Z;
  topwait : Z; topcountdown : Z }.
#[global] Instance eta : Eta vldoor_t := fun r =>
  mk (thinker r) (type r) (sector r) (topheight r) (speed r) (direction r) (topwait r)
  (topcountdown r).
End VlDoor.

(** [floormove_t] *)
Module FloorMove.
Record floormove_t : Type := mk {
  thinker : Thinker.thinker_t; type : Z; crush : Z; sector : Z; direction : Z; newspecial : Z;
  texture : Z; floordestheight : Z; speed : Z }.
#[global] Instance eta : Eta floormove_t := fun r =>
  mk (thinker r) (type r) (crush r) (sector r) (direction r) (newspecial r) (texture r)
  (floordestheight r) (speed r).
End FloorMove.

(** [plat_t] *)
Module Plat.
Record plat_t : Type := mk {
  thinker : Thinker.thinker_t; sector : Z; speed : Z; low : Z; high : Z; wait : Z; count : Z;
  status : Z; oldstatus : Z; crush : Z; tag : Z; type : Z }.
#[global] Instance eta : Eta plat_t := fun r =>
  mk (thinker r) (sector r) (speed r) (low r) (high r) (wait r) (count r) (status r)
  (oldstatus r) (crush r) (tag r) (type r).
End Plat.

(** [lightflash_t] *)
Module LightFlash.
Record lightflash_t : Type := mk {
  thinker : Thinker.thinker_t; sector : Z; count : Z; maxlight : Z; minlight : Z; maxtime : Z;
  mintime : Z }.
#[global] Instance eta : Eta lightflash_t := fun r =>
  mk (thinker r) (sector r) (count r) (maxlight r) (minlight r) (maxtime r) (mintime r).
End LightFlash.

(** [strobe_t] *)
Module Strobe.
Record strobe_t : Type := mk {
  thinker : Thinker.thinker_t; sector : Z; count : Z; minlight : Z; maxlight : Z; darktime : Z;
  brighttime : Z }.
#[global] Instance eta : Eta strobe_t := fun r =>
  mk (thinker r) (sector r) (count r) (minlight r) (maxlight r) (darktime r) (brighttime r).
End Strobe.

(** [glow_t] *)
Module Glow.
Record glow_t : Type := mk {
  thinker : Thinker.thinker_t; sector : Z; minlight : Z; maxlight : Z; direction : Z }.
#[global] Instance eta : Eta glow_t := fun r =>
  mk (thinker r) (sector r) (minlight r) (maxlight r) (direction r).
End Glow.

(** [fireflicker_t] *)
Module FireFlicker.
Record fireflicker_t : Type := mk {
  thinker : Thinker.thinker_t; sector : Z; count : Z; maxlight : Z; minlight : Z }.
#[global] Instance eta : Eta fireflicker_t := fun r =>
  mk (thinker r) (sector r) (count r) (maxlight r) (minlight r).
End FireFlicker.

(** [doomsector_t] *)
Module Sector.
Record doomsector_t : Type := mk {
  floorheight : Z; ceilingheight : Z; floorpic : Z; ceilingpic : Z; lightlevel : Z;
  special : Z; tag : Z; soundtraversed : Z; soundtarget : Z; specialdata : Z; lines : list nat }.
#[global] Instance eta : Eta doomsector_t := fun r =>
  mk (floorheight r) (ceilingheight r) (floorpic r) (ceilingpic r) (lightlevel r) (special r)
  (tag r) (soundtraversed r) (soundtarget r) (specialdata r) (lines r).
End Sector.

(** [side_t] *)
Module Side.
Record side_t : Type := mk {
  textureoffset : Z; rowoffset : Z; toptexture : Z; bottomtexture : Z; midtexture : Z;
  sector : Z }.
#[global] Instance eta : Eta side_t := fun r =>
  mk (textureoffset r) (rowoffset r) (toptexture r) (bottomtexture r) (midtexture r) (sector r).
End Side.

(** [line_t] *)
Module Line.
Record line_t : Type := mk {
  flags : Z; special : Z; tag : Z; sidenum : list Z; frontsector : option nat;
  backsector : option nat }.
#[global] Instance eta : Eta line_t := fun r =>
  mk (flags r) (special r) (tag r) (sidenum r) (frontsector r) (backsector r).
End Line.


Definition TICRATE : Z := 35.
Definition MAXPLAYERS : nat := 4.
Definition NUMPOWERS : nat := 6.
Definition NUMCARDS : nat := 6.
Definition NUMWEAPONS : nat := 9.
Definition NUMAMMO : nat := 4.
Definition NUMPSPRITES : nat := 2.
Definition MAXCEILINGS : nat := 30.
Definition MAXPLATS : nat := 30.

(** The object a thinker is the head of. *)
Inductive thing : Type :=
| TMobj (m : Mobj.mobj_t)
| TCeiling (c : Ceiling.ceiling_t)
| TDoor (d : VlDoor.vldoor_t)
| TFloor (f : FloorMove.floormove_t)
| TPlat (p : Plat.plat_t)
| TFlash (f : LightFlash.lightflash_t)
| TStrobe (s : Strobe.strobe_t)
| TGlow (g : Glow.glow_t)
| TFlicker (f : FireFlicker.fireflicker_t).

(** The thinker functions the code compares with, as addresses of the
    program image. *)
Inductive action : Set :=
| P_MobjThinker | T_MoveCeiling | T_VerticalDoor | T_MoveFloor | T_PlatRaise
| T_LightFlash | T_StrobeFlash | T_Glow | T_FireFlicker.
#[export] Instance action_eq_dec : EqDecision action.
Proof. solve_decision. Defined.

(** Where the linker put them. *)
Class Image := fn_addr : action -> Z.

(** The part of the game state a savegame is made from. [thinkers] is the
    list behind [thinkercap] in order, each object with its address. *)
Record game : Type := mk_game {
  gameskill : Z; gameepisode : Z; gamemap : Z; leveltime : Z;
  playeringame : list Z;
  players : list Player.player_t;
  sectors : list Sector.doomsector_t;
  lines : list Line.line_t;
  sides : list Side.side_t;
  thinkers : list (Z * thing);
  activeceilings : list Z;
  activeplats : list Z }.
#[export] Instance game_eta : Eta game := fun g =>
  mk_game (gameskill g) (gameepisode g) (gamemap g) (leveltime g) (playeringame g) (players g)
    (sectors g) (lines g) (sides g) (thinkers g) (activeceilings g) (activeplats g).

(** [card_t] *)
Definition it_bluecard : Z := 0.
Definition it_yellowcard : Z := 1.
Definition it_redcard : Z := 2.
Definition it_blueskull : Z := 3.
Definition it_yellowskull : Z := 4.
Definition it_redskull : Z := 5.

(** The address of a message string. *)
Class Messages := message_at : string -> Z.

#[local] Open Scope doom_scope.
(** Array access; outside the array it is undefined. *)
Definition get (l : list Z) (i : Z) : outcome Z := if i <? 0 then Undef else of_option (l !! Z.to_nat i).
Definition set (l : list Z) (i v : Z) : outcome (list Z) := let* _ := get l i in Ret (<[Z.to_nat i := v]> l).
