(* ===== verification/ThingLinks.v ===== *)
(** * The place of a thing on the map (p_maputl.c)

    A thing is in the list of the sector it stands in and in the list of its
    block of the map. P_SetThingPosition puts it into both, and
    P_UnsetThingPosition takes it out. *)
From S2P Require Import Prelude MFixed MapGeometry DLists GameTypes.
#[local] Open Scope doom_scope.

Definition MF_NOSECTOR : Z := 0x8.
Definition MF_NOBLOCKMAP : Z := 0x10.
Definition MAPBLOCKSHIFT : Z := FRACBITS + 7.

Definition sector_links : fields Mobj.mobj_t :=
  mk_fields Mobj.snext Mobj.sprev (fun v m => m <| Mobj.snext := v |>) (fun v m => m <| Mobj.sprev := v |>).
Definition block_links : fields Mobj.mobj_t :=
  mk_fields Mobj.bnext Mobj.bprev (fun v m => m <| Mobj.bnext := v |>) (fun v m => m <| Mobj.bprev := v |>).
#[export] Instance sector_laws : FieldLaws sector_links.
Proof. by split. Qed.
#[export] Instance block_laws : FieldLaws block_links.
Proof. by split. Qed.

(** The block map. The nodes of the map, the address of the n-th subsector, and the
    sector of the subsector at an address. *)
Record grid : Type := mk_grid { bmaporgx : Z; bmaporgy : Z; bmapwidth : Z; bmapheight : Z }.
Class Bsp : Type := { nodes : list Node.node_t; ss_at : Z -> Z; ss_sector : Z -> option nat }.

(** The things by their address; the heads of the lists. *)
Record places : Type := mk_places { mobjs : gmap Z Mobj.mobj_t; thinglist : list Z; blocklinks : list Z }.
#[export] Instance places_eta : Eta places := fun w => mk_places (mobjs w) (thinglist w) (blocklinks w).

Section links.
Context {bsp : Bsp} (gr : grid).
Implicit Types (w : places) (a : Z) (m : Mobj.mobj_t).

Definition getm a w : outcome Mobj.mobj_t := of_option (mobjs w !! a).
Definition sector_of m : option nat := ss_sector (Mobj.subsector m).
(** The index of the block in [blocklinks], when it is on the map. *)
Definition block_of m : option nat :=
  let blockx := Z.shiftr (i32 (Mobj.x m - bmaporgx gr)) MAPBLOCKSHIFT in
  let blocky := Z.shiftr (i32 (Mobj.y m - bmaporgy gr)) MAPBLOCKSHIFT in
  if (blockx >=? 0) && (blockx <? bmapwidth gr) && (blocky >=? 0) && (blocky <? bmapheight gr)
  then Some (Z.to_nat (i32 (blocky * bmapwidth gr + blockx))) else None.
(** Reading and writing the head of a list. *)
Definition head_at (heads : list Z) (i : nat) : outcome Z := of_option (heads !! i).
Definition set_thinglist (s : nat) (v : Z) w : outcome places := let* _ := head_at (thinglist w) s in Ret (w <| thinglist ::= <[s := v]> |>).
Definition set_blocklink (k : nat) (v : Z) w : outcome places := let* _ := head_at (blocklinks w) k in Ret (w <| blocklinks ::= <[k := v]> |>).

Definition unset_sector a w : outcome places :=
  let* '(next, first, ms) := unlink sector_links a (mobjs w) in
  let w := w <| mobjs := ms |> in
  if first : bool then
    let* m := getm a w in
    let* s := of_option (sector_of m) in
    set_thinglist s next w
  else Ret w.
Definition unset_block a w : outcome places :=
  let* '(next, first, ms) := unlink block_links a (mobjs w) in
  let w := w <| mobjs := ms |> in
  if first : bool then
    let* m := getm a w in
    match block_of m with
    | Some k => set_blocklink k next w
    | None => Ret w
    end
  else Ret w.
Definition P_UnsetThingPosition a w : outcome places :=
  let* m := getm a w in
  let* w := if negb (has_flag (Mobj.flags m) MF_NOSECTOR) then unset_sector a w else Ret w in
  if negb (has_flag (Mobj.flags m) MF_NOBLOCKMAP) then unset_block a w else Ret w.

Definition set_sector a w : outcome places :=
  let* m := getm a w in
  let* s := of_option (sector_of m) in
  let* head := head_at (thinglist w) s in
  let* ms := link sector_links a head (mobjs w) in
  set_thinglist s a (w <| mobjs := ms |>).
Definition set_block a w : outcome places :=
  let* m := getm a w in
  match block_of m with
  | Some k =>
      let* head := head_at (blocklinks w) k in
      let* ms := link block_links a head (mobjs w) in
      set_blocklink k a (w <| mobjs := ms |>)
  | None => Ret (w <| mobjs ::= <[a := m <| Mobj.bprev := 0 |> <| Mobj.bnext := 0 |>]> |>)
  end.
Definition P_SetThingPosition a w : outcome places :=
  let* m := getm a w in
  let* ss := R_PointInSubsector nodes (Mobj.x m) (Mobj.y m) in
  let m := m <| Mobj.subsector := ss_at ss |> in
  let w := w <| mobjs ::= <[a := m]> |> in
  let* w := if negb (has_flag (Mobj.flags m) MF_NOSECTOR) then set_sector a w else Ret w in
  if negb (has_flag (Mobj.flags m) MF_NOBLOCKMAP) then set_block a w else Ret w.

(** ** Walking through a block *)

(** The loop of [P_BlockThingsIterator]; [func] may change what it likes. *)
Fixpoint things_loop {S : Type} (fuel : nat) (get : S -> places) (func : Z -> S -> outcome (bool * S)) (a : Z) (s : S) : outcome (bool * S) :=
  if a =? 0 then Ret (true, s)
  else
    match fuel with
    | O => NoFuel
    | S fuel =>
        let* '(go, s) := func a s in
        if negb go then Ret (false, s)
        else let* m := getm a (get s) in things_loop fuel get func (Mobj.bnext m) s
    end.
Definition P_BlockThingsIterator {S : Type} (get : S -> places) (func : Z -> S -> outcome (bool * S)) (x y : Z) (s : S) : outcome (bool * S) :=
  if (x <? 0) || (y <? 0) || (x >=? bmapwidth gr) || (y >=? bmapheight gr) then Ret (true, s)
  else
    let* head := head_at (blocklinks (get s)) (Z.to_nat (i32 (y * bmapwidth gr + x))) in
    things_loop (size (mobjs (get s))) get func head s.
End links.
