(* ===== verification/ThingLinkTheorems.v ===== *)
(** * Things are where the lists say

    The lists of the sectors and of the blocks as plain lists of things, which
    P_SetThingPosition and P_UnsetThingPosition extend and shorten. *)
From S2P Require Import Prelude MFixed MapGeometry GeometryTheorems DLists GameTypes ThingLinks.
#[local] Open Scope doom_scope.

Section links.
Context {bsp : Bsp} (gr : grid).
Implicit Types (w : places) (a b : Z) (m : Mobj.mobj_t) (S B : list (list Z)) (l : list Z).
#[local] Abbreviation in_sectors m := (has_flag (Mobj.flags m) MF_NOSECTOR = false).
#[local] Abbreviation in_blocks m := (has_flag (Mobj.flags m) MF_NOBLOCKMAP = false).

(** What the links do not change. *)
Definition same_thing m m' : Prop := exists sn sp bn bp, m' = m <| Mobj.snext := sn |> <| Mobj.sprev := sp |> <| Mobj.bnext := bn |> <| Mobj.bprev := bp |>.
#[export] Instance same_thing_pre : PreOrder same_thing.
Proof.
  split.
  - intros m. exists (Mobj.snext m), (Mobj.sprev m), (Mobj.bnext m), (Mobj.bprev m). by destruct m.
  - intros m1 m2 m3 (sn & sp & bn & bp & ->) (sn' & sp' & bn' & bp' & ->). exists sn', sp', bn', bp'. by destruct m1.
Qed.
Lemma same_home m m' : same_thing m m' -> sector_of m' = sector_of m /\ block_of gr m' = block_of gr m /\ Mobj.flags m' = Mobj.flags m.
Proof. by intros (? & ? & ? & ? & ->). Qed.
Definition same_things (ms ms' : gmap Z Mobj.mobj_t) : Prop := forall b m, ms !! b = Some m -> exists m', ms' !! b = Some m' /\ same_thing m m'.
#[export] Instance same_things_pre : PreOrder same_things.
Proof.
  split.
  - intros ms b m E. by exists m.
  - intros m1 m2 m3 H1 H2 b m E. destruct (H1 b m E) as (m' & E' & S1), (H2 b m' E') as (m'' & E'' & S2). exists m''. split; [done|]. by etrans.
Qed.

(** The lists are well linked, and their things belong there. *)
Definition at_home (home : Mobj.mobj_t -> option nat) (ms : gmap Z Mobj.mobj_t) (ls : list (list Z)) : Prop :=
  forall i l a, ls !! i = Some l -> a ∈ l -> exists m, ms !! a = Some m /\ home m = Some i.
Definition sector_home m : option nat := if has_flag (Mobj.flags m) MF_NOSECTOR then None else sector_of m.
Definition block_home m : option nat := if has_flag (Mobj.flags m) MF_NOBLOCKMAP then None else block_of gr m.
Record links_ok w S B : Prop := {
  li_sectors : thinglist w = hd 0 <$> S;
  li_blocks : blocklinks w = hd 0 <$> B;
  li_slists : Forall (dlist sector_links (mobjs w)) S;
  li_blists : Forall (dlist block_links (mobjs w)) B;
  li_shome : at_home sector_home (mobjs w) S;
  li_bhome : at_home block_home (mobjs w) B
}.
(** The thing is in the lists it belongs to. *)
Record placed w S B a m : Prop := {
  pl_thing : mobjs w !! a = Some m;
  pl_sector : in_sectors m -> exists s l, sector_of m = Some s /\ S !! s = Some l /\ a ∈ l;
  pl_block : in_blocks m -> forall k, block_of gr m = Some k -> exists l, B !! k = Some l /\ a ∈ l;
  pl_off : in_blocks m -> block_of gr m = None -> Mobj.bnext m = 0 /\ Mobj.bprev m = 0
}.
Definition absent (ls : list (list Z)) a : Prop := forall i l, ls !! i = Some l -> a ∉ l.

Lemma same_home' m m' : same_thing m m' -> sector_home m' = sector_home m /\ block_home m' = block_home m.
Proof. intros H. unfold sector_home, block_home. destruct (same_home _ _ H) as (-> & -> & ->). done. Qed.
Lemma at_home_same home ms ms' ls : (forall m m', same_thing m m' -> home m' = home m) -> same_things ms ms' -> at_home home ms ls -> at_home home ms' ls.
Proof. intros Hh H Hs i l a E Ha. destruct (Hs i l a E Ha) as (m & Em & Hm). destruct (H a m Em) as (m' & Em' & Hm'). exists m'. split; [done|]. by rewrite (Hh m m'). Qed.
(** Two lists of a kind have no thing in common. *)
Lemma home_unique home ms ls i j li lj a : at_home home ms ls -> ls !! i = Some li -> ls !! j = Some lj -> a ∈ li -> a ∈ lj -> i = j.
Proof. intros H Ei Ej Hi Hj. destruct (H i li a Ei Hi) as (m & Em & Hm), (H j lj a Ej Hj) as (m' & Em' & Hm'). congruence. Qed.

(** ** One kind of links at a time *)
Lemma relinked_sector m m' : relinked sector_links m m' -> same_thing m m' /\ Mobj.bnext m' = Mobj.bnext m /\ Mobj.bprev m' = Mobj.bprev m.
Proof.
  induction 1 as [m|m m' v _ (IH & E1 & E2)|m m' v _ (IH & E1 & E2)]; [by split|..]; (split; [etrans; [exact IH|]|done]).
  - exists v, (Mobj.sprev m'), (Mobj.bnext m'), (Mobj.bprev m'). by destruct m'.
  - exists (Mobj.snext m'), v, (Mobj.bnext m'), (Mobj.bprev m'). by destruct m'.
Qed.
Lemma relinked_block m m' : relinked block_links m m' -> same_thing m m' /\ Mobj.snext m' = Mobj.snext m /\ Mobj.sprev m' = Mobj.sprev m.
Proof.
  induction 1 as [m|m m' v _ (IH & E1 & E2)|m m' v _ (IH & E1 & E2)]; [by split|..]; (split; [etrans; [exact IH|]|done]).
  - exists (Mobj.snext m'), (Mobj.sprev m'), v, (Mobj.bprev m'). by destruct m'.
  - exists (Mobj.snext m'), (Mobj.sprev m'), (Mobj.bnext m'), v. by destruct m'.
Qed.
Lemma relinks_sector ms ms' B : relinks sector_links ms ms' -> same_things ms ms' /\ (Forall (dlist block_links ms) B -> Forall (dlist block_links ms') B).
Proof.
  intros H. split.
  - intros b m E. destruct (H b m E) as (m' & E' & R). exists m'. split; [done|]. by apply relinked_sector.
  - intros HB. eapply Forall_impl; [exact HB|]. intros l Hl. eapply dlist_frame; [exact Hl|]. intros b m _ E. destruct (H b m E) as (m' & E' & R). exists m'. split; [done|]. by apply relinked_sector.
Qed.
Lemma relinks_block ms ms' S : relinks block_links ms ms' -> same_things ms ms' /\ (Forall (dlist sector_links ms) S -> Forall (dlist sector_links ms') S).
Proof.
  intros H. split.
  - intros b m E. destruct (H b m E) as (m' & E' & R). exists m'. split; [done|]. by apply relinked_block.
  - intros HS. eapply Forall_impl; [exact HS|]. intros l Hl. eapply dlist_frame; [exact Hl|]. intros b m _ E. destruct (H b m E) as (m' & E' & R). exists m'. split; [done|]. by apply relinked_block.
Qed.

Lemma hd_insert (ls : list (list Z)) i l : hd 0 <$> <[i := l]> ls = <[i := hd 0 l]> (hd 0 <$> ls).
Proof. apply list_fmap_insert. Qed.
Lemma head_run heads (ls : list (list Z)) i l : heads = hd 0 <$> ls -> ls !! i = Some l -> head_at heads i = Ret (hd 0 l).
Proof. intros -> E. unfold head_at. by rewrite list_lookup_fmap, E. Qed.
Lemma at_home_push home ms ms' ls i l a m : (forall m m', same_thing m m' -> home m' = home m) -> at_home home ms ls -> same_things ms ms' ->
  ls !! i = Some l -> ms !! a = Some m -> home m = Some i -> at_home home ms' (<[i := a :: l]> ls).
Proof.
  intros Hh H Hs Ei Em Hm j lj b Ej Hb. apply list_lookup_insert_Some in Ej as [(<- & <- & _)|[_ Ej]]; [|by eapply at_home_same].
  apply elem_of_cons in Hb as [->|Hb]; [|by eapply at_home_same]. destruct (Hs a m Em) as (m' & Em' & Hm'). exists m'. split; [done|]. by rewrite (Hh m m').
Qed.
Lemma at_home_pull home ms ms' ls i l1 a l2 : (forall m m', same_thing m m' -> home m' = home m) -> at_home home ms ls -> same_things ms ms' ->
  ls !! i = Some (l1 ++ a :: l2) -> at_home home ms' (<[i := l1 ++ l2]> ls).
Proof.
  intros Hh H Hs Ei j lj b Ej Hb. apply list_lookup_insert_Some in Ej as [(<- & <- & _)|[_ Ej]]; [|by eapply at_home_same].
  eapply at_home_same; [exact Hh|exact Hs|exact H|exact Ei|]. rewrite elem_of_app in *. destruct Hb; [by left|right; by right].
Qed.

Lemma set_sector_run w S B a m s l : links_ok w S B -> absent S a -> a <> 0 -> mobjs w !! a = Some m -> sector_home m = Some s -> S !! s = Some l ->
  exists w', set_sector a w = Ret w' /\ links_ok w' (<[s := a :: l]> S) B /\ same_things (mobjs w) (mobjs w') /\
    (forall m', mobjs w' !! a = Some m' -> Mobj.bnext m' = Mobj.bnext m /\ Mobj.bprev m' = Mobj.bprev m).
Proof.
  intros [L1 L2 L3 L4 L5 L6] Ha H0 Em Hs El. unfold set_sector, getm. rewrite Em. cbn [of_option obind].
  assert (Es : sector_of m = Some s) by (unfold sector_home in Hs; by destruct (has_flag _ _)). rewrite Es. cbn [of_option obind].
  rewrite (head_run _ S s l L1 El). cbn [obind].
  destruct (push_run sector_links (mobjs w) S s l a m L3 El Ha H0 Em) as (ms' & -> & Hr & Hd); [intros j k lj lk b; by apply (home_unique sector_home (mobjs w))|].
  cbn [obind]. unfold set_thinglist. change (thinglist (w <| mobjs := ms' |>)) with (thinglist w). rewrite (head_run _ S s l L1 El). cbn [obind].
  destruct (relinks_sector _ _ B Hr) as [Hsame HB]. eexists. split; [reflexivity|]. split; [split|split; [done|]].
  - change (<[s := a]> (thinglist w) = hd 0 <$> <[s := a :: l]> S). by rewrite hd_insert, L1.
  - exact L2.
  - exact Hd.
  - by apply HB.
  - apply (at_home_push _ (mobjs w) ms' S s l a m); try done. intros x y H. by apply same_home'.
  - apply (at_home_same _ (mobjs w) ms' B); try done. intros x y H. by apply same_home'.
  - intros m' E'. destruct (Hr a m Em) as (m2 & E2 & R). change (ms' !! a = Some m') in E'. rewrite E' in E2. injection E2 as <-. by apply relinked_sector.
Qed.
Lemma set_block_run w S B a m k l : links_ok w S B -> absent B a -> a <> 0 -> mobjs w !! a = Some m -> block_home m = Some k -> B !! k = Some l ->
  exists w', set_block gr a w = Ret w' /\ links_ok w' S (<[k := a :: l]> B) /\ same_things (mobjs w) (mobjs w').
Proof.
  intros [L1 L2 L3 L4 L5 L6] Ha H0 Em Hs El. unfold set_block, getm. rewrite Em. cbn [of_option obind].
  assert (Es : block_of gr m = Some k) by (unfold block_home in Hs; by destruct (has_flag _ _)). rewrite Es.
  rewrite (head_run _ B k l L2 El). cbn [obind].
  destruct (push_run block_links (mobjs w) B k l a m L4 El Ha H0 Em) as (ms' & -> & Hr & Hd); [intros j i lj lk b; by apply (home_unique block_home (mobjs w))|].
  cbn [obind]. unfold set_blocklink. change (blocklinks (w <| mobjs := ms' |>)) with (blocklinks w). rewrite (head_run _ B k l L2 El). cbn [obind].
  destruct (relinks_block _ _ S Hr) as [Hsame HS]. eexists. split; [reflexivity|]. split; [split|done].
  - exact L1.
  - change (<[k := a]> (blocklinks w) = hd 0 <$> <[k := a :: l]> B). by rewrite hd_insert, L2.
  - by apply HS.
  - exact Hd.
  - apply (at_home_same _ (mobjs w) ms' S); try done. intros x y H. by apply same_home'.
  - apply (at_home_push _ (mobjs w) ms' B k l a m); try done. intros x y H. by apply same_home'.
Qed.
Lemma unset_sector_run w S B a m s l1 l2 : links_ok w S B -> mobjs w !! a = Some m -> S !! s = Some (l1 ++ a :: l2) ->
  exists w', unset_sector a w = Ret w' /\ links_ok w' (<[s := l1 ++ l2]> S) B /\ same_things (mobjs w) (mobjs w') /\ mobjs w' !! a = Some m.
Proof.
  intros [L1 L2 L3 L4 L5 L6] Em El. unfold unset_sector.
  destruct (pull_run sector_links (mobjs w) S s l1 a l2 L3 El) as (ms' & -> & Hr & Ea & Hd); [intros j k lj lk b; by apply (home_unique sector_home (mobjs w))|].
  cbn [obind]. set (w1 := w <| mobjs := ms' |>). destruct (relinks_sector _ _ B Hr) as [Hsame HB].
  assert (Es : sector_of m = Some s).
  { destruct (L5 s _ a El) as (m' & E' & Hm'); [rewrite elem_of_app; right; left|]. rewrite Em in E'. injection E' as <-. unfold sector_home in Hm'. by destruct (has_flag _ _). }
  assert (Hw : forall w', mobjs w' = ms' -> blocklinks w' = blocklinks w -> thinglist w' = hd 0 <$> <[s := l1 ++ l2]> S -> links_ok w' (<[s := l1 ++ l2]> S) B).
  { intros w' E1 E2 E3. split; rewrite ?E1, ?E2; try done; [by apply HB| |].
    - apply (at_home_pull _ (mobjs w) ms' S s l1 a l2); try done. intros x y H. by apply same_home'.
    - apply (at_home_same _ (mobjs w) ms' B); try done. intros x y H. by apply same_home'. }
  destruct l1 as [|c l1].
  - rewrite bool_decide_eq_true_2 by done. unfold getm. change (mobjs w1) with ms'. rewrite Ea, Em. cbn [of_option obind]. rewrite Es. cbn [of_option obind].
    unfold set_thinglist. change (thinglist w1) with (thinglist w). rewrite (head_run _ S s _ L1 El). cbn [obind]. eexists. split; [reflexivity|].
    split; [|split; [done|exact (eq_trans Ea Em)]]. apply Hw; try done. change (<[s := hd 0 l2]> (thinglist w) = hd 0 <$> <[s := l2]> S). by rewrite hd_insert, L1.
  - rewrite bool_decide_eq_false_2 by done. exists w1. split; [done|]. split; [|split; [done|exact (eq_trans Ea Em)]]. apply Hw; try done.
    rewrite hd_insert, list_insert_id; [exact L1|]. by rewrite list_lookup_fmap, El.
Qed.
Lemma unset_block_run w S B a m k l1 l2 : links_ok w S B -> mobjs w !! a = Some m -> B !! k = Some (l1 ++ a :: l2) ->
  exists w', unset_block gr a w = Ret w' /\ links_ok w' S (<[k := l1 ++ l2]> B) /\ same_things (mobjs w) (mobjs w') /\ mobjs w' !! a = Some m.
Proof.
  intros [L1 L2 L3 L4 L5 L6] Em El. unfold unset_block.
  destruct (pull_run block_links (mobjs w) B k l1 a l2 L4 El) as (ms' & -> & Hr & Ea & Hd); [intros j i lj lk b; by apply (home_unique block_home (mobjs w))|].
  cbn [obind]. set (w1 := w <| mobjs := ms' |>). destruct (relinks_block _ _ S Hr) as [Hsame HS].
  assert (Es : block_of gr m = Some k).
  { destruct (L6 k _ a El) as (m' & E' & Hm'); [rewrite elem_of_app; right; left|]. rewrite Em in E'. injection E' as <-. unfold block_home in Hm'. by destruct (has_flag _ _). }
  assert (Hw : forall w', mobjs w' = ms' -> thinglist w' = thinglist w -> blocklinks w' = hd 0 <$> <[k := l1 ++ l2]> B -> links_ok w' S (<[k := l1 ++ l2]> B)).
  { intros w' E1 E2 E3. split; rewrite ?E1, ?E2; try done; [by apply HS| |].
    - apply (at_home_same _ (mobjs w) ms' S); try done. intros x y H. by apply same_home'.
    - apply (at_home_pull _ (mobjs w) ms' B k l1 a l2); try done. intros x y H. by apply same_home'. }
  destruct l1 as [|c l1].
  - rewrite bool_decide_eq_true_2 by done. unfold getm. change (mobjs w1) with ms'. rewrite Ea, Em. cbn [of_option obind]. rewrite Es.
    unfold set_blocklink. change (blocklinks w1) with (blocklinks w). rewrite (head_run _ B k _ L2 El). cbn [obind]. eexists. split; [reflexivity|].
    split; [|split; [done|exact (eq_trans Ea Em)]]. apply Hw; try done. change (<[k := hd 0 l2]> (blocklinks w) = hd 0 <$> <[k := l2]> B). by rewrite hd_insert, L2.
  - rewrite bool_decide_eq_false_2 by done. exists w1. split; [done|]. split; [|split; [done|exact (eq_trans Ea Em)]]. apply Hw; try done.
    rewrite hd_insert, list_insert_id; [exact L2|]. by rewrite list_lookup_fmap, El.
Qed.

(** ** Setting and unsetting *)
Definition grid_ok B : Prop := 0 <= bmapwidth gr /\ 0 <= bmapheight gr /\ bmapwidth gr * bmapheight gr = Z.of_nat (length B) /\ Z.of_nat (length B) <= INT_MAX.
Definition map_ok S : Prop := exists n, nodes_ok nodes n /\ forall i, 0 <= i < n -> exists s, ss_sector (ss_at i) = Some s /\ (s < length S)%nat.
Lemma block_range B m k : grid_ok B -> block_of gr m = Some k -> (k < length B)%nat.
Proof.
  intros (Hw & Hh & Hn & Hm). unfold block_of. set (x := Z.shiftr _ _). set (y := Z.shiftr (i32 (Mobj.y m - _)) _). rewrite !Z.geb_leb.
  destruct (_ && _ && _ && _) eqn:E; [|done]. breflect. intros [= <-].
  assert (Hr : 0 <= y * bmapwidth gr + x < bmapwidth gr * bmapheight gr) by nia.
  rewrite wraps_id; [lia|lia|]. unfold fits_s, INT_MAX in *. change (2 ^ (32 - 1)) with 2147483648. lia.
Qed.
Definition pushed (ls : list (list Z)) (home : option nat) (a : Z) : list (list Z) := match home with Some i => alter (cons a) i ls | None => ls end.
Definition pulled (ls : list (list Z)) (a : Z) : list (list Z) := filter (fun b => b <> a) <$> ls.

Lemma pushed_eq ls i l a : ls !! i = Some l -> pushed ls (Some i) a = <[i := a :: l]> ls.
Proof. intros E. unfold pushed. apply list_eq. intros j. destruct (decide (j = i)) as [->|Hj].
  - rewrite list_lookup_alter_eq, E, list_lookup_insert_eq by (by eapply lookup_lt_Some). done.
  - by rewrite list_lookup_alter_ne, list_lookup_insert_ne.
Qed.
Lemma links_update w S B a m v : links_ok w S B -> absent S a -> absent B a -> mobjs w !! a = Some m -> links_ok (w <| mobjs ::= <[a := v]> |>) S B.
Proof.
  intros [L1 L2 L3 L4 L5 L6] HS HB Em. set (w' := w <| mobjs ::= _ |>). assert (Hf : forall b, b <> a -> mobjs w' !! b = mobjs w !! b) by (intros b Hb; by apply lookup_insert_ne).
  split; try done.
  - apply Forall_lookup. intros i l E. rewrite Forall_lookup in L3. apply (dlist_frame sector_links (mobjs w)); [by eapply L3|]. intros b mb Hb Eb. exists mb. split; [|done].
    rewrite Hf; [done|]. intros ->. by apply (HS i l).
  - apply Forall_lookup. intros i l E. rewrite Forall_lookup in L4. apply (dlist_frame block_links (mobjs w)); [by eapply L4|]. intros b mb Hb Eb. exists mb. split; [|done].
    rewrite Hf; [done|]. intros ->. by apply (HB i l).
  - intros i l b E Hb. rewrite Hf; [by apply (L5 i l)|]. intros ->. by apply (HS i l).
  - intros i l b E Hb. rewrite Hf; [by apply (L6 i l)|]. intros ->. by apply (HB i l).
Qed.
Lemma placed_intro w S B a m : mobjs w !! a = Some m -> (in_sectors m -> exists s l, sector_of m = Some s /\ S !! s = Some (a :: l)) ->
  (in_blocks m -> match block_of gr m with Some k => exists l, B !! k = Some (a :: l) | None => Mobj.bnext m = 0 /\ Mobj.bprev m = 0 end) -> placed w S B a m.
Proof.
  intros Em HS HB. split; [done|..].
  - intros H. destruct (HS H) as (s & l & Es & El). exists s, (a :: l). split_and!; [done|done|left].
  - intros H k Ek. specialize (HB H). rewrite Ek in HB. destruct HB as [l El]. exists (a :: l). split; [done|left].
  - intros H Ek. specialize (HB H). by rewrite Ek in HB.
Qed.

Lemma set_sector_step w S B a m s : links_ok w S B -> absent S a -> a <> 0 -> mobjs w !! a = Some m -> sector_of m = Some s -> (s < length S)%nat ->
  let S' := pushed S (sector_home m) a in
  exists w', (if negb (has_flag (Mobj.flags m) MF_NOSECTOR) then set_sector a w else Ret w) = Ret w' /\ links_ok w' S' B /\
    same_things (mobjs w) (mobjs w') /\ (in_sectors m -> exists l, S' !! s = Some (a :: l)).
Proof.
  intros Hw HS H0 Em Es Hs S'. unfold S', sector_home. destruct (has_flag (Mobj.flags m) MF_NOSECTOR) eqn:E; cbn [negb]; [exists w; split_and!; [done|exact Hw|reflexivity|intros H; discriminate H]|].
  destruct (lookup_lt_is_Some_2 S s Hs) as [l El]. assert (En : sector_home m = Some s) by (unfold sector_home; by rewrite E).
  destruct (set_sector_run w S B a m s l Hw HS H0 Em En El) as (w2 & -> & Hw2 & Hsame & _). exists w2. rewrite Es, (pushed_eq _ _ _ _ El). split_and!; try done.
  intros _. exists l. apply list_lookup_insert_eq. by eapply lookup_lt_Some.
Qed.
(** A thing off the map gets empty links. *)
Lemma off_map_run w S B a m : links_ok w S B -> absent B a -> mobjs w !! a = Some m ->
  let m' := m <| Mobj.bprev := 0 |> <| Mobj.bnext := 0 |> in let w' := w <| mobjs ::= <[a := m']> |> in
  links_ok w' S B /\ same_things (mobjs w) (mobjs w') /\ mobjs w' !! a = Some m'.
Proof.
  intros [L1 L2 L3 L4 L5 L6] HB Em m' w'. assert (Hm : same_thing m m') by (exists (Mobj.snext m), (Mobj.sprev m), 0, 0; by destruct m).
  assert (Ew : forall b, b <> a -> mobjs w' !! b = mobjs w !! b) by (intros b Hb; by apply lookup_insert_ne).
  assert (Hst : same_things (mobjs w) (mobjs w')).
  { intros b mb Eb. destruct (decide (b = a)) as [->|Hb]; [exists m'; split; [by apply lookup_insert_eq|congruence]|exists mb; split; [by rewrite Ew|done]]. }
  split; [|split; [done|by apply lookup_insert_eq]]. split; try done.
  - eapply Forall_impl; [exact L3|]. intros l Hl. eapply dlist_frame; [exact Hl|]. intros b mb _ Eb. destruct (decide (b = a)) as [->|Hb].
    + exists m'. split; [by apply lookup_insert_eq|]. rewrite Em in Eb. by injection Eb as <-.
    + exists mb. by rewrite Ew.
  - apply Forall_lookup. intros j l Ej. rewrite Forall_lookup in L4. eapply dlist_frame; [by eapply L4|]. intros b mb Hb Eb.
    exists mb. split; [|done]. rewrite Ew; [done|]. intros ->. by apply (HB j l).
  - apply (at_home_same _ (mobjs w)); try done. intros x y H. by apply same_home'.
  - apply (at_home_same _ (mobjs w)); try done. intros x y H. by apply same_home'.
Qed.
Lemma set_block_step w S B a m : links_ok w S B -> absent B a -> a <> 0 -> mobjs w !! a = Some m -> grid_ok B ->
  let B' := pushed B (block_home m) a in
  exists w' m', (if negb (has_flag (Mobj.flags m) MF_NOBLOCKMAP) then set_block gr a w else Ret w) = Ret w' /\ links_ok w' S B' /\
    same_things (mobjs w) (mobjs w') /\ mobjs w' !! a = Some m' /\
    (in_blocks m -> match block_of gr m with Some k => exists l, B' !! k = Some (a :: l) | None => Mobj.bnext m' = 0 /\ Mobj.bprev m' = 0 end).
Proof.
  intros Hw HB H0 Em Hg B'. unfold B', block_home. destruct (has_flag (Mobj.flags m) MF_NOBLOCKMAP) eqn:E; cbn [negb]; [exists w, m; split_and!; [done|exact Hw|reflexivity|exact Em|intros H; discriminate H]|].
  destruct (block_of gr m) as [k|] eqn:Ek.
  - assert (En : block_home m = Some k) by (unfold block_home; by rewrite E). destruct (lookup_lt_is_Some_2 B k (block_range B m k Hg Ek)) as [l El].
    destruct (set_block_run w S B a m k l Hw HB H0 Em En El) as (w' & E' & Hw' & Hsame). destruct (Hsame a m Em) as (m' & Em' & _).
    exists w', m'. rewrite (pushed_eq _ _ _ _ El). split_and!; try done. intros _. exists l. apply list_lookup_insert_eq. by eapply lookup_lt_Some.
  - destruct (off_map_run w S B a m Hw HB Em) as (Hw' & Hsame & Em'). unfold set_block, getm. rewrite Em. cbn [of_option obind]. rewrite Ek.
    eexists _, _. split; [reflexivity|]. split_and!; [exact Hw'|exact Hsame|exact Em'|done].
Qed.

Lemma SetThingPosition_run w S B a m : links_ok w S B -> absent S a -> absent B a -> a <> 0 -> mobjs w !! a = Some m -> map_ok S -> grid_ok B ->
  exists i w' m', R_PointInSubsector nodes (Mobj.x m) (Mobj.y m) = Ret i /\ P_SetThingPosition gr a w = Ret w' /\
    let m1 := m <| Mobj.subsector := ss_at i |> in
    mobjs w' !! a = Some m' /\ same_thing m1 m' /\
    let S' := pushed S (sector_home m1) a in let B' := pushed B (block_home m1) a in
    links_ok w' S' B' /\ placed w' S' B' a m' /\ (forall b mb, b <> a -> mobjs w !! b = Some mb -> exists mb', mobjs w' !! b = Some mb' /\ same_thing mb mb').
Proof.
  intros Hw HS HB H0 Em (n & Hn & Hss) Hg. destruct (PointInSubsector_run nodes n (Mobj.x m) (Mobj.y m) Hn) as (i & Ei & Hi & _).
  destruct (Hss i Hi) as (s & Es & Hs). unfold P_SetThingPosition, getm. rewrite Em. cbn [of_option obind]. rewrite Ei. cbn [obind].
  set (m1 := m <| Mobj.subsector := ss_at i |>). set (w1 := w <| mobjs ::= <[a := m1]> |>). pose proof (links_update w S B a m m1 Hw HS HB Em) as Hw1. fold w1 in Hw1.
  assert (Em1 : mobjs w1 !! a = Some m1) by apply lookup_insert_eq.
  destruct (set_sector_step w1 S B a m1 s Hw1 HS H0 Em1 Es Hs) as (w2 & -> & Hw2 & Hsame2 & Hin2). cbn [obind].
  destruct (Hsame2 a m1 Em1) as (m2 & Em2 & Hm2). destruct (same_home _ _ Hm2) as (Hh1 & Hh2 & Hh3), (same_home' _ _ Hm2) as (Hh4 & Hh5).
  destruct (set_block_step w2 _ B a m2 Hw2 HB H0 Em2 Hg) as (w3 & m3 & E3 & Hw3 & Hsame3 & Em3 & Hin3). rewrite Hh2, Hh3, Hh5 in *.
  destruct (Hsame3 a m2 Em2) as (m3' & Em3' & Hm3). rewrite Em3 in Em3'. injection Em3' as <-.
  assert (Hm : same_thing m1 m3) by (by etrans). destruct (same_home _ _ Hm) as (Hk1 & Hk2 & Hk3).
  exists i, w3, m3. split; [done|]. split; [exact E3|]. cbv zeta. split; [exact Em3|]. split; [exact Hm|]. split; [exact Hw3|]. split.
  - apply placed_intro; [exact Em3|rewrite Hk3|rewrite Hk3, Hk2; exact Hin3]. intros H. destruct (Hin2 H) as [l Hl]. exists s, l. split; [rewrite Hk1; exact Es|exact Hl].
  - intros b mb Hb Eb. assert (Eb1 : mobjs w1 !! b = Some mb) by (rewrite <- Eb; by apply lookup_insert_ne). destruct (Hsame2 b mb Eb1) as (mb2 & Eb2 & Hs2).
    destruct (Hsame3 b mb2 Eb2) as (mb3 & Eb3 & Hs3). exists mb3. split; [done|]. by etrans.
Qed.

(** C20: P_SetThingPosition of a thing that is in no list, on a well-formed map:
    it goes through, finds the subsector of the thing's position, and puts the thing
    in front of the list of that subsector's sector and of the list of its block,
    unless its flags keep it out of them or it is off the map. All lists are well
    linked in both directions again, and nothing but links changes in any thing. *)
Theorem P_SetThingPosition_correct w S B a m : links_ok w S B -> absent S a -> absent B a -> a <> 0 -> mobjs w !! a = Some m -> map_ok S -> grid_ok B ->
  exists i w' m', R_PointInSubsector nodes (Mobj.x m) (Mobj.y m) = Ret i /\ P_SetThingPosition gr a w = Ret w' /\
    let m1 := m <| Mobj.subsector := ss_at i |> in
    mobjs w' !! a = Some m' /\ same_thing m1 m' /\
    let S' := pushed S (sector_home m1) a in let B' := pushed B (block_home m1) a in
    links_ok w' S' B' /\ placed w' S' B' a m' /\ (forall b mb, b <> a -> mobjs w !! b = Some mb -> exists mb', mobjs w' !! b = Some mb' /\ same_thing mb mb').
Proof. apply SetThingPosition_run. Qed.

Lemma not_home home ms ls a m : at_home home ms ls -> ms !! a = Some m -> home m = None -> absent ls a.
Proof. intros H Em Hm i l El Ha. destruct (H i l a El Ha) as (m' & Em' & Hm'). congruence. Qed.
Lemma pulled_absent ls a : absent ls a -> pulled ls a = ls.
Proof.
  intros H. unfold pulled. apply list_eq. intros i. rewrite list_lookup_fmap. destruct (ls !! i) as [l|] eqn:El; [|done]. cbn. f_equal.
  specialize (H i l El). clear El. induction l as [|b l IH]; [done|]. apply not_elem_of_cons in H as [H1 H2]. rewrite filter_cons_True by congruence. f_equal. by apply IH.
Qed.
Lemma filter_split l1 a l2 : a ∉ l1 -> a ∉ l2 -> filter (fun b => b <> a) (l1 ++ a :: l2) = l1 ++ l2.
Proof.
  intros H1 H2. assert (E : forall l, a ∉ l -> filter (fun b => b <> a) l = l).
  { induction l as [|b l IH]; [done|]. intros H. apply not_elem_of_cons in H as [? ?]. rewrite filter_cons_True by congruence. f_equal. by apply IH. }
  rewrite filter_app, filter_cons_False by naive_solver. by rewrite !E.
Qed.
Lemma pulled_eq home ms ls i l1 a l2 : at_home home ms ls -> NoDup (l1 ++ a :: l2) -> ls !! i = Some (l1 ++ a :: l2) -> pulled ls a = <[i := l1 ++ l2]> ls.
Proof.
  intros H Hnd E. unfold pulled. apply list_eq. intros j. rewrite list_lookup_fmap. rewrite <- Permutation_middle in Hnd. apply NoDup_cons in Hnd as [Ha _]. rewrite not_elem_of_app in Ha.
  destruct (decide (j = i)) as [->|Hj].
  - rewrite E, list_lookup_insert_eq by (by eapply lookup_lt_Some). cbn. f_equal. destruct Ha. by apply filter_split.
  - rewrite list_lookup_insert_ne by done. destruct (ls !! j) as [l|] eqn:El; [|done]. cbn. f_equal.
    assert (Hal : a ∉ l) by (intros Hal; apply Hj; apply (home_unique home ms ls j i l (l1 ++ a :: l2) a H El E Hal); rewrite elem_of_app; right; left).
    pose proof (pulled_absent [l] a) as Hp. unfold pulled in Hp. cbn in Hp. by injection (Hp ltac:(intros [|k] l' E'; [by injection E' as <-|done])).
Qed.
Lemma pulled_gone ls a : absent (pulled ls a) a.
Proof. intros i l El Ha. unfold pulled in El. rewrite list_lookup_fmap in El. destruct (ls !! i) as [l0|]; [|done]. injection El as <-. by apply list_elem_of_filter in Ha as [? _]. Qed.
Lemma unset_sector_step w S B a m : links_ok w S B -> placed w S B a m ->
  exists w', (if negb (has_flag (Mobj.flags m) MF_NOSECTOR) then unset_sector a w else Ret w) = Ret w' /\ links_ok w' (pulled S a) B /\
    same_things (mobjs w) (mobjs w') /\ mobjs w' !! a = Some m.
Proof.
  intros Hw [Em HS _ _]. destruct (has_flag (Mobj.flags m) MF_NOSECTOR) eqn:E; cbn [negb].
  - exists w. rewrite pulled_absent; [split; [done|split; [exact Hw|split; [reflexivity|exact Em]]]|].
    apply (not_home sector_home (mobjs w) S a m (li_shome _ _ _ Hw) Em). unfold sector_home. by rewrite E.
  - destruct (HS eq_refl) as (s & l & Es & El & Ha). apply list_elem_of_split in Ha as (l1 & l2 & ->).
    destruct (unset_sector_run w S B a m s l1 l2 Hw Em El) as (w' & -> & Hw' & Hsame & Em'). exists w'.
    rewrite (pulled_eq sector_home (mobjs w) S s l1 a l2 (li_shome _ _ _ Hw)); [by split_and!| |done].
    exact (proj1 (proj1 (Forall_lookup _ _) (li_slists _ _ _ Hw) s _ El)).
Qed.
Lemma unset_block_step w S B a m : links_ok w S B -> mobjs w !! a = Some m ->
  (in_blocks m -> forall k, block_of gr m = Some k -> exists l, B !! k = Some l /\ a ∈ l) -> (in_blocks m -> block_of gr m = None -> Mobj.bnext m = 0 /\ Mobj.bprev m = 0) ->
  exists w', (if negb (has_flag (Mobj.flags m) MF_NOBLOCKMAP) then unset_block gr a w else Ret w) = Ret w' /\ links_ok w' S (pulled B a) /\
    same_things (mobjs w) (mobjs w') /\ mobjs w' !! a = Some m.
Proof.
  intros Hw Em HB Hoff. assert (Hnone : block_home m = None -> pulled B a = B) by (intros Hn; apply pulled_absent; apply (not_home block_home (mobjs w) B a m (li_bhome _ _ _ Hw) Em Hn)).
  destruct (has_flag (Mobj.flags m) MF_NOBLOCKMAP) eqn:E; cbn [negb].
  - exists w. rewrite Hnone by (unfold block_home; by rewrite E). split; [done|split; [exact Hw|split; [reflexivity|exact Em]]].
  - destruct (block_of gr m) as [k|] eqn:Ek.
    + destruct (HB eq_refl k eq_refl) as (l & El & Ha). apply list_elem_of_split in Ha as (l1 & l2 & ->).
      destruct (unset_block_run w S B a m k l1 l2 Hw Em El) as (w' & -> & Hw' & Hsame & Em'). exists w'.
      rewrite (pulled_eq block_home (mobjs w) B k l1 a l2 (li_bhome _ _ _ Hw)); [by split_and!| |done].
      exact (proj1 (proj1 (Forall_lookup _ _) (li_blists _ _ _ Hw) k _ El)).
    + destruct (Hoff eq_refl eq_refl) as [En Ep]. exists w. rewrite Hnone by (unfold block_home; by rewrite E).
      split; [|split; [exact Hw|split; [reflexivity|exact Em]]]. unfold unset_block, unlink. rewrite Em. cbn [of_option obind]. cbn [nx pv block_links]. rewrite En. cbn [Z.eqb obind].
      rewrite Em. cbn [of_option obind]. rewrite Ep, En. cbn [Z.eqb obind]. unfold getm. cbn [obind]. replace (w <| mobjs := mobjs w |>) with w by (by destruct w).
      rewrite Em. cbn [of_option obind]. by rewrite Ek.
Qed.

Lemma UnsetThingPosition_run w S B a m : links_ok w S B -> placed w S B a m ->
  exists w', P_UnsetThingPosition gr a w = Ret w' /\ links_ok w' (pulled S a) (pulled B a) /\ absent (pulled S a) a /\ absent (pulled B a) a /\
    same_things (mobjs w) (mobjs w') /\ mobjs w' !! a = Some m.
Proof.
  intros Hw Hp. pose proof Hp as [Em _ HB Hoff]. unfold P_UnsetThingPosition, getm. rewrite Em. cbn [of_option obind].
  destruct (unset_sector_step w S B a m Hw Hp) as (w1 & -> & Hw1 & Hs1 & Em1). cbn [obind].
  destruct (unset_block_step w1 _ B a m Hw1 Em1 HB Hoff) as (w2 & -> & Hw2 & Hs2 & Em2).
  exists w2. split; [done|]. split; [exact Hw2|]. split; [apply pulled_gone|]. split; [apply pulled_gone|]. split; [by etrans|exact Em2].
Qed.

(** C21: P_UnsetThingPosition of a thing that is in its lists goes through and
    takes it out of both, so that it is in no list any more; the others stay in their
    order and are well linked, and nothing but links changes in any thing. *)
Theorem P_UnsetThingPosition_correct w S B a m : links_ok w S B -> placed w S B a m ->
  exists w', P_UnsetThingPosition gr a w = Ret w' /\ links_ok w' (pulled S a) (pulled B a) /\ absent (pulled S a) a /\ absent (pulled B a) a /\
    same_things (mobjs w) (mobjs w') /\ mobjs w' !! a = Some m.
Proof. apply UnsetThingPosition_run. Qed.

(** ** Walking through a block *)
Fixpoint run_list {E X} (func : E -> X -> outcome (bool * X)) (l : list E) (s : X) : outcome (bool * X) :=
  match l with
  | [] => Ret (true, s)
  | a :: l => let* '(go, s) := func a s in if go : bool then run_list func l s else Ret (false, s)
  end.
Lemma dlist_size {M} (f : fields M) (ms : gmap Z M) l : dlist f ms l -> (length l <= size ms)%nat.
Proof.
  intros [Hnd Hs]. rewrite <- size_dom. rewrite <- (size_list_to_set (C := gset Z)) by done. apply subseteq_size. intros a Ha. apply elem_of_list_to_set in Ha.
  apply elem_of_dom. by apply (dseg_elem f ms l 0 0 a Hs Ha).
Qed.
Lemma things_loop_run {X} (get : X -> places) (func : Z -> X -> outcome (bool * X)) (I : X -> Prop) (l0 : list Z) :
  (forall a s go s', a ∈ l0 -> I s -> dlist block_links (mobjs (get s)) l0 -> func a s = Ret (go, s') -> I s' /\ dlist block_links (mobjs (get s')) l0) ->
  forall l l1 fuel s, l0 = l1 ++ l -> I s -> dlist block_links (mobjs (get s)) l0 -> (length l <= fuel)%nat ->
  things_loop fuel get func (hd 0 l) s = run_list func l s.
Proof.
  intros Hf. induction l as [|a l IH]; intros l1 fuel s El HI Hd Hfu; [by destruct fuel|].
  assert (Ha : a ∈ l0) by (rewrite El, elem_of_app; right; left). destruct (dseg_elem _ _ _ _ _ _ (proj2 Hd) Ha) as [Ha0 _].
  destruct fuel as [|fuel]; [cbn in Hfu; lia|]. cbn [things_loop hd run_list]. rewrite (proj2 (Z.eqb_neq a 0) Ha0).
  destruct (func a s) as [[go s']| | |] eqn:Ef; try done. cbn [obind]. destruct go; [|done]. cbn [negb].
  pose proof (Hf a s true s' Ha HI Hd Ef) as [HI' Hd']. pose proof Hd' as [_ Hs]. rewrite El in Hs. apply dseg_app in Hs as [_ (_ & m & Em & _ & Hn & _)].
  unfold getm. rewrite Em. cbn [of_option obind]. change (Mobj.bnext m) with (nx block_links m). rewrite Hn.
  apply (IH (l1 ++ [a])); [by rewrite <- app_assoc|done|done|cbn in Hfu; lia].
Qed.
Definition block_index (x y : Z) : option nat :=
  if (x <? 0) || (y <? 0) || (x >=? bmapwidth gr) || (y >=? bmapheight gr) then None else Some (Z.to_nat (i32 (y * bmapwidth gr + x))).
Lemma BlockThings_inv {X} (get : X -> places) (func : Z -> X -> outcome (bool * X)) (I : X -> Prop) (x y : Z) (s : X) B :
  blocklinks (get s) = hd 0 <$> B -> Forall (dlist block_links (mobjs (get s))) B -> grid_ok B -> I s ->
  (forall l a s go s', l ∈ B -> a ∈ l -> I s -> dlist block_links (mobjs (get s)) l -> func a s = Ret (go, s') -> I s' /\ dlist block_links (mobjs (get s')) l) ->
  P_BlockThingsIterator gr get func x y s = run_list func (default [] (block_index x y ≫= fun k => B !! k)) s.
Proof.
  intros Eb HB (Hw & Hh & Hn & Hm) HI Hf. unfold P_BlockThingsIterator, block_index. rewrite !Z.geb_leb. destruct (_ || _ || _ || _) eqn:E; [done|]. breflect. cbn [mbind option_bind].
  assert (Hr : 0 <= y * bmapwidth gr + x < bmapwidth gr * bmapheight gr) by nia.
  assert (Ei : i32 (y * bmapwidth gr + x) = y * bmapwidth gr + x) by (apply wraps_id; [lia|unfold fits_s, INT_MAX in *; change (2 ^ (32 - 1)) with 2147483648; lia]).
  rewrite Ei. destruct (lookup_lt_is_Some_2 B (Z.to_nat (y * bmapwidth gr + x))) as [l El]; [lia|]. rewrite (head_run _ B _ l Eb El), El. cbn [obind].
  pose proof (proj1 (Forall_lookup _ _) HB _ l El) as Hd. apply (things_loop_run get func I l) with (l1 := []); [|done|done|done|by eapply dlist_size].
  intros a s1 go s2 Ha. apply Hf; [by eapply list_elem_of_lookup_2|done].
Qed.
Lemma BlockThings_run {X} (get : X -> places) (func : Z -> X -> outcome (bool * X)) (x y : Z) (s : X) B :
  blocklinks (get s) = hd 0 <$> B -> Forall (dlist block_links (mobjs (get s))) B -> grid_ok B ->
  (forall l a s go s', l ∈ B -> a ∈ l -> dlist block_links (mobjs (get s)) l -> func a s = Ret (go, s') -> dlist block_links (mobjs (get s')) l) ->
  P_BlockThingsIterator gr get func x y s = run_list func (default [] (block_index x y ≫= fun k => B !! k)) s.
Proof. intros Eb HB Hg Hf. apply (BlockThings_inv get func (fun _ => True)); [done..|]. intros l a s1 go s2 Hl Ha _ Hd E. split; [done|]. by eapply Hf. Qed.
End links.

(** ** Witnesses *)

(** A map with one sector in three subsectors and four blocks; one thing is in
    the lists, or two. *)
Module SmallMap.
Definition bsp : Bsp := {| nodes := small_tree; ss_at i := 1000 + i; ss_sector a := if (1000 <=? a) && (a <? 1003) then Some 0%nat else None |}.
Definition small_grid : grid := mk_grid 0 0 2 2.
Definition thing (x y snext sprev bnext bprev : Z) : Mobj.mobj_t :=
  Mobj.mk (Thinker.mk 0 0 0) (x * FRACUNIT) (y * FRACUNIT) 0 snext sprev 0 0 0 bnext bprev 1000 0 0 (20 * FRACUNIT) (56 * FRACUNIT) 0 0 0 0 0 0 0 0 0 0 0 0 0 0 0 None 0 (MapThing.mk 0 0 0 0 0) 0.
Definition one : places := mk_places (<[16 := thing 30 5 0 0 0 0]> (<[32 := thing 20 20 0 0 0 0]> ∅)) [16] [16; 0; 0; 0].
Definition two : places := mk_places (<[16 := thing 30 5 0 32 0 32]> (<[32 := thing 20 20 16 0 16 0]> ∅)) [32] [32; 0; 0; 0].
Lemma dlist_nil {M} (f : fields M) ms : dlist f ms [].
Proof. split; [constructor|done]. Qed.
Lemma dlist_one {M} (f : fields M) ms a m : a <> 0 -> ms !! a = Some m -> pv f m = 0 -> nx f m = 0 -> dlist f ms [a].
Proof. intros H0 E Hp Hn. split; [apply NoDup_singleton|]. split; [exact H0|]. by exists m. Qed.
Lemma one_home home (ms : gmap Z Mobj.mobj_t) l ls : Forall (fun a => exists m, ms !! a = Some m /\ home m = Some 0%nat) l -> Forall (fun l => l = []) ls -> at_home home ms (l :: ls).
Proof.
  intros Hl Hls [|i] l' a Ei Ha; [injection Ei as <-; rewrite Forall_forall in Hl; by apply Hl|]. cbn in Ei. rewrite Forall_lookup in Hls. rewrite (Hls i l' Ei) in Ha. by apply elem_of_nil in Ha.
Qed.
Lemma one_ok : links_ok (bsp := bsp) small_grid one [[16]] [[16]; []; []; []].
Proof.
  split; [reflexivity|reflexivity| | | |].
  - constructor; [|constructor]. eapply dlist_one; [discriminate|reflexivity|reflexivity|reflexivity].
  - constructor; [eapply dlist_one; [discriminate|reflexivity|reflexivity|reflexivity]|]. repeat (constructor; [apply dlist_nil|]). constructor.
  - apply one_home; [|constructor]. constructor; [|constructor]. eexists. split; reflexivity.
  - apply one_home; [|repeat (constructor; [reflexivity|]); constructor]. constructor; [|constructor]. eexists. split; reflexivity.
Qed.
Lemma two_list f : f = sector_links \/ f = block_links -> dlist f (mobjs two) [32; 16].
Proof.
  intros Hf. split; [by apply (bool_decide_unpack (NoDup [32; 16]))|]. destruct Hf as [-> | ->]; (split; [discriminate|]); eexists; (split; [reflexivity|]); (split; [reflexivity|]); (split; [reflexivity|]);
    (split; [discriminate|]); eexists; (split; [reflexivity|]); (split; [reflexivity|]); (split; [reflexivity|exact I]).
Qed.
Lemma two_ok : links_ok (bsp := bsp) small_grid two [[32; 16]] [[32; 16]; []; []; []].
Proof.
  split; [reflexivity|reflexivity| | | |].
  - constructor; [|constructor]. apply two_list. by left.
  - constructor; [apply two_list; by right|]. repeat (constructor; [apply dlist_nil|]). constructor.
  - apply one_home; [|constructor]. constructor; [|constructor; [|constructor]]; eexists; split; reflexivity.
  - apply one_home; [|repeat (constructor; [reflexivity|]); constructor]. constructor; [|constructor; [|constructor]]; eexists; split; reflexivity.
Qed.
Lemma small_grid_ok : grid_ok small_grid [[16]; []; []; []].
Proof. split; [discriminate|]. split; [discriminate|]. split; [reflexivity|discriminate]. Qed.
Lemma small_map_ok : map_ok (bsp := bsp) [[16]].
Proof.
  exists 3. split.
  - split; [lia|]. split; [vm_compute; discriminate|]. intros [|[|i]] node En; [| |discriminate En]; injection En as <-; (split; [|]); vm_compute;
      first [left; split; [reflexivity|split; [discriminate|reflexivity]]|right; split; [reflexivity|split; [discriminate|reflexivity]]].
  - intros i Hi. exists 0%nat. split; [|cbn; lia]. assert (Hi3 : i = 0 \/ i = 1 \/ i = 2) by lia. destruct Hi3 as [->|[-> | ->]]; reflexivity.
Qed.
Lemma not_there ls a : forallb (fun l => negb (bool_decide (a ∈ l))) ls = true -> absent ls a.
Proof. intros H i l E Ha. rewrite forallb_forall in H. specialize (H l ltac:(apply list_elem_of_In; by eapply list_elem_of_lookup_2)). rewrite bool_decide_eq_true_2 in H; done. Qed.
End SmallMap.

Lemma P_SetThingPosition_correct_witness : exists w', P_SetThingPosition (bsp := SmallMap.bsp) SmallMap.small_grid 32 SmallMap.one = Ret w' /\
  links_ok (bsp := SmallMap.bsp) SmallMap.small_grid w' [[32; 16]] [[32; 16]; []; []; []].
Proof.
  destruct (P_SetThingPosition_correct (bsp := SmallMap.bsp) SmallMap.small_grid SmallMap.one [[16]] [[16]; []; []; []] 32 (SmallMap.thing 20 20 0 0 0 0)) as (i & w' & m' & Ei & E & _ & _ & Hok & _).
  - exact SmallMap.one_ok.
  - apply SmallMap.not_there. reflexivity.
  - apply SmallMap.not_there. reflexivity.
  - discriminate.
  - reflexivity.
  - exact SmallMap.small_map_ok.
  - exact SmallMap.small_grid_ok.
  - exists w'. split; [exact E|]. assert (Hi : R_PointInSubsector (@nodes SmallMap.bsp) (20 * FRACUNIT) (20 * FRACUNIT) = Ret 2) by (vm_compute; reflexivity).
    change (R_PointInSubsector (@nodes SmallMap.bsp) (20 * FRACUNIT) (20 * FRACUNIT) = Ret i) in Ei. rewrite Hi in Ei. injection Ei as <-. exact Hok.
Defined.
Lemma P_UnsetThingPosition_correct_witness : exists w', P_UnsetThingPosition (bsp := SmallMap.bsp) SmallMap.small_grid 16 SmallMap.two = Ret w' /\
  links_ok (bsp := SmallMap.bsp) SmallMap.small_grid w' [[32]] [[32]; []; []; []].
Proof.
  destruct (P_UnsetThingPosition_correct (bsp := SmallMap.bsp) SmallMap.small_grid SmallMap.two [[32; 16]] [[32; 16]; []; []; []] 16 (SmallMap.thing 30 5 0 32 0 32)) as (w' & E & Hok & _).
  - exact SmallMap.two_ok.
  - split.
    + reflexivity.
    + intros _. exists 0%nat, [32; 16]. split; [reflexivity|]. split; [reflexivity|]. right. left.
    + intros _ k Ek. vm_compute in Ek. injection Ek as <-. exists [32; 16]. split; [reflexivity|]. right. left.
    + intros _ Ek. vm_compute in Ek. discriminate Ek.
  - exists w'. split; [exact E|exact Hok].
Defined.
