(* ===== verification/PathTraverse.v ===== *)
(** * Tracing a line through the map (p_maputl.c)

    P_PathTraverse walks through the blocks between two points, collects what is
    crossed there (the intercepts), and calls a traverser on them in the order of
    their distance. *)
From S2P Require Import Prelude MFixed MBbox MapGeometry DLists GameTypes ThingLinks.
#[local] Open Scope doom_scope.

Definition MAXINTERCEPTS_ORIGINAL : Z := 128.
Definition MAXINTERCEPTS : Z := MAXINTERCEPTS_ORIGINAL + 61.
Definition PT_ADDLINES : Z := 1.
Definition PT_ADDTHINGS : Z := 2.
Definition PT_EARLYOUT : Z := 4.
Definition MAPBLOCKSIZE : Z := 128 * FRACUNIT.
Definition MAPBTOFRAC : Z := MAPBLOCKSHIFT - FRACBITS.

(** A line by its index, or a thing by its address. *)
Inductive target : Set := ALine (i : nat) | AThing (a : Z).
Record intercept_t : Type := mk_intercept { frac : Z; d : target }.
#[export] Instance intercept_eta : Eta intercept_t := fun i => mk_intercept (frac i) (d i).

(** The lump of the block map, and the address of a line. *)
Class Blockmap : Type := { blockmaplump : list Z; line_at : nat -> Z }.

(** What a traverser works on: everything but the array of intercepts, which
    only p_maputl.c touches. [client] is what else there is. *)
Record play (Y : Type) : Type := mk_play {
  maplines : list Geo.line_t; validcount : Z; gr : grid; pl : places; open : opening; bulletslope : Z; playerstarts : list Z; client : Y }.
Arguments mk_play {Y}.
Arguments maplines {Y}.
Arguments validcount {Y}.
Arguments gr {Y}.
Arguments pl {Y}.
Arguments open {Y}.
Arguments bulletslope {Y}.
Arguments playerstarts {Y}.
Arguments client {Y}.
#[export] Instance play_eta {Y} : Eta (play Y) := fun p => mk_play (maplines p) (validcount p) (gr p) (pl p) (open p) (bulletslope p) (playerstarts p) (client p).
#[export] Instance grid_eta : Eta grid := fun g => mk_grid (bmaporgx g) (bmaporgy g) (bmapwidth g) (bmapheight g).

Section trace.
Context {A : Arch} {bsp : Bsp} {bm : Blockmap} {Y : Type}.
Implicit Types (p : play Y) (ins : list intercept_t).

(** ** The array of intercepts *)

(** Where a write behind the array goes; nothing is at the other places. *)
Inductive overrun_t : Set :=
| Nothing | Lowfloor | Openbottom | Opentop | Openrange | Bulletslope | Playerstarts | Bmapwidth | Bmaporgx | Bmaporgy | Bmapheight.
Definition intercepts_overrun : list (Z * overrun_t) :=
  [(4, Nothing); (4, Nothing); (4, Nothing); (4, Lowfloor); (4, Openbottom); (4, Opentop); (4, Openrange); (4, Nothing); (120, Nothing); (8, Nothing);
   (4, Bulletslope); (4, Nothing); (4, Nothing); (4, Nothing); (40, Playerstarts); (4, Nothing); (4, Bmapwidth); (4, Nothing); (4, Bmaporgx);
   (4, Bmaporgy); (4, Nothing); (4, Bmapheight)].
Definition overwrite (o : overrun_t) (at_ value : Z) p : outcome (play Y) :=
  let v := i32 value in
  match o with
  | Nothing => Ret p
  | Lowfloor => Ret (p <| open ::= fun o => o <| lowfloor := v |> |>)
  | Openbottom => Ret (p <| open ::= fun o => o <| openbottom := v |> |>)
  | Opentop => Ret (p <| open ::= fun o => o <| opentop := v |> |>)
  | Openrange => Ret (p <| open ::= fun o => o <| openrange := v |> |>)
  | Bulletslope => Ret (p <| bulletslope := v |>)
  | Playerstarts =>
      let index := at_ / 2 in
      let* l := set (playerstarts p) index (i16 (Z.land value 0xffff)) in
      let* l := set l (index + 1) (i16 (Z.land (Z.shiftr value 16) 0xffff)) in
      Ret (p <| playerstarts := l |>)
  | Bmapwidth => Ret (p <| gr ::= fun g => g <| bmapwidth := v |> |>)
  | Bmaporgx => Ret (p <| gr ::= fun g => g <| bmaporgx := v |> |>)
  | Bmaporgy => Ret (p <| gr ::= fun g => g <| bmaporgy := v |> |>)
  | Bmapheight => Ret (p <| gr ::= fun g => g <| bmapheight := v |> |>)
  end.
Fixpoint memory_overrun (table : list (Z * overrun_t)) (offset location value : Z) p : outcome (play Y) :=
  match table with
  | [] => Ret p
  | (len, o) :: table =>
      if offset + len >? location then overwrite o (location - offset) value p
      else memory_overrun table (offset + len) location value p
  end.
Definition InterceptsMemoryOverrun (location value : Z) p : outcome (play Y) := memory_overrun intercepts_overrun 0 location value p.
Definition target_at (t : target) : Z := match t with ALine i => line_at i | AThing a => a end.
Definition isaline (t : target) : bool := match t with ALine _ => true | AThing _ => false end.
Definition InterceptsOverrun (num_intercepts : Z) (i : intercept_t) p : outcome (play Y) :=
  if num_intercepts <=? MAXINTERCEPTS_ORIGINAL then Ret p
  else
    let location := (num_intercepts - MAXINTERCEPTS_ORIGINAL - 1) * 12 in
    let* p := InterceptsMemoryOverrun location (frac i) p in
    let* p := InterceptsMemoryOverrun (location + 4) (of_bool (isaline (d i))) p in
    InterceptsMemoryOverrun (location + 8) (wraps word_bits (target_at (d i))) p.
(** The next entry is written, and [intercept_p] goes on. *)
Definition push_intercept (i : intercept_t) (ip : list intercept_t * play Y) : outcome (list intercept_t * play Y) :=
  let '(ins, p) := ip in
  let n := Z.of_nat (length ins) in
  if n >=? MAXINTERCEPTS then Undef
  else let* p := InterceptsOverrun n i p in Ret (ins ++ [i], p).

(** ** What is crossed *)

(** The side test for a line: which of the two routines depends on the
    length of the trace. *)
Definition long_trace (trace : Divline.divline_t) : bool :=
  (Divline.dx trace >? FRACUNIT * 16) || (Divline.dy trace >? FRACUNIT * 16) || (Divline.dx trace <? - FRACUNIT * 16) || (Divline.dy trace <? - FRACUNIT * 16).
Definition line_sides (trace : Divline.divline_t) (ld : Geo.line_t) : Z * Z :=
  if long_trace trace
  then (P_PointOnDivlineSide (vx (Geo.v1 ld)) (vy (Geo.v1 ld)) trace, P_PointOnDivlineSide (vx (Geo.v2 ld)) (vy (Geo.v2 ld)) trace)
  else (P_PointOnLineSide (Divline.x trace) (Divline.y trace) ld,
        P_PointOnLineSide (i32 (Divline.x trace + Divline.dx trace)) (i32 (Divline.y trace + Divline.dy trace)) ld).
Definition PIT_AddLineIntercepts (trace : Divline.divline_t) (earlyout : bool) (i : nat) (ip : list intercept_t * play Y) : outcome (bool * (list intercept_t * play Y)) :=
  let* ld := of_option (maplines ip.2 !! i) in
  let '(s1, s2) := line_sides trace ld in
  if s1 =? s2 then Ret (true, ip)
  else
    let* frac := P_InterceptVector trace (P_MakeDivline ld) in
    if frac <? 0 then Ret (true, ip)
    else if earlyout && (frac <? FRACUNIT) && bool_decide (Geo.backsector ld = None) then Ret (false, ip)
    else let* ip := push_intercept (mk_intercept frac (ALine i)) ip in Ret (true, ip).
(** The corner to corner cross section of a thing. *)
Definition thing_divline (trace : Divline.divline_t) (m : Mobj.mobj_t) : Z * Z * Z * Z :=
  let x := Mobj.x m in let y := Mobj.y m in let r := Mobj.radius m in
  if Z.lxor (Divline.dx trace) (Divline.dy trace) >? 0
  then (i32 (x - r), i32 (y + r), i32 (x + r), i32 (y - r))
  else (i32 (x - r), i32 (y - r), i32 (x + r), i32 (y + r)).
Definition PIT_AddThingIntercepts (trace : Divline.divline_t) (a : Z) (ip : list intercept_t * play Y) : outcome (bool * (list intercept_t * play Y)) :=
  let* m := getm a (pl ip.2) in
  let '(x1, y1, x2, y2) := thing_divline trace m in
  let s1 := P_PointOnDivlineSide x1 y1 trace in
  let s2 := P_PointOnDivlineSide x2 y2 trace in
  if s1 =? s2 then Ret (true, ip)
  else
    let* frac := P_InterceptVector trace (Divline.mk x1 y1 (i32 (x2 - x1)) (i32 (y2 - y1))) in
    if frac <? 0 then Ret (true, ip)
    else let* ip := push_intercept (mk_intercept frac (AThing a)) ip in Ret (true, ip).

(** ** The lines of a block *)
Section lines.
Context {S : Type} (get : S -> play Y) (upd : (play Y -> play Y) -> S -> S) (func : nat -> S -> outcome (bool * S)).
Fixpoint lines_loop (list : list Z) (s : S) : outcome (bool * S) :=
  match list with
  | [] => Undef
  | n :: list =>
      if n =? -1 then Ret (true, s)
      else if n <? 0 then Undef
      else
        let i := Z.to_nat n in
        let* ld := of_option (maplines (get s) !! i) in
        if Geo.validcount ld =? validcount (get s) then lines_loop list s
        else
          let s := upd (fun p => p <| maplines ::= <[i := ld <| Geo.validcount := validcount p |>]> |>) s in
          let* '(go, s) := func i s in
          if negb go then Ret (false, s) else lines_loop list s
  end.
Definition P_BlockLinesIterator (x y : Z) (s : S) : outcome (bool * S) :=
  let g := gr (get s) in
  if (x <? 0) || (y <? 0) || (x >=? bmapwidth g) || (y >=? bmapheight g) then Ret (true, s)
  else
    let* offset := GameTypes.get blockmaplump (4 + i32 (y * bmapwidth g + x)) in
    if offset <? 0 then Undef else lines_loop (drop (Z.to_nat offset) blockmaplump) s.
End lines.

(** ** The traversal in order *)

(** The first of the nearest intercepts; [dist] is the distance so far. *)
Fixpoint closest (ins : list intercept_t) (i : nat) (dist : Z) (inp : option nat) : Z * option nat :=
  match ins with
  | [] => (dist, inp)
  | c :: ins => if frac c <? dist then closest ins (S i) (frac c) (Some i) else closest ins (S i) dist inp
  end.
Fixpoint traverse_loop (count : nat) (func : intercept_t -> play Y -> outcome (bool * play Y)) (maxfrac : Z) (inp : option nat) ins p : outcome (bool * play Y) :=
  match count with
  | O => Ret (true, p)
  | S count =>
      let '(dist, inp) := closest ins 0 INT_MAX inp in
      if dist >? maxfrac then Ret (true, p)
      else
        let* k := of_option inp in
        let* i := of_option (ins !! k) in
        let* '(go, p) := func i p in
        if negb go then Ret (false, p)
        else traverse_loop count func maxfrac inp (<[k := i <| frac := INT_MAX |>]> ins) p
  end.
Definition P_TraverseIntercepts (func : intercept_t -> play Y -> outcome (bool * play Y)) (maxfrac : Z) ins p : outcome (bool * play Y) :=
  traverse_loop (length ins) func maxfrac None ins p.

(** ** The path *)

(** One direction: the step from block to block, the step of the other
    coordinate with it, and where that starts. *)
Definition axis_steps (t1 t2 c1 c2 o1 o2 : Z) : outcome (Z * Z * Z) :=
  let* '(mapstep, partial, ostep) :=
    if t2 >? t1 then let* q := FixedDiv (i32 (o2 - o1)) (i32 (c_abs (i32 (c2 - c1)))) in Ret (1, FRACUNIT - Z.land (Z.shiftr c1 MAPBTOFRAC) (FRACUNIT - 1), q)
    else if t2 <? t1 then let* q := FixedDiv (i32 (o2 - o1)) (i32 (c_abs (i32 (c2 - c1)))) in Ret (-1, Z.land (Z.shiftr c1 MAPBTOFRAC) (FRACUNIT - 1), q)
    else Ret (0, FRACUNIT, 256 * FRACUNIT) in
  Ret (mapstep, ostep, i32 (Z.shiftr o1 MAPBTOFRAC + FixedMul partial ostep)).

Record walk_t : Type := mk_walk { xt2 : Z; yt2 : Z; mapxstep : Z; mapystep : Z; xstep : Z; ystep : Z }.
Definition add_block (flags : Z) (trace : Divline.divline_t) (mapx mapy : Z) (ip : list intercept_t * play Y) : outcome (bool * (list intercept_t * play Y)) :=
  let* '(go, ip) :=
    if has_flag flags PT_ADDLINES
    then P_BlockLinesIterator snd (fun f ip => (ip.1, f ip.2)) (PIT_AddLineIntercepts trace (has_flag flags PT_EARLYOUT)) mapx mapy ip
    else Ret (true, ip) in
  if negb go then Ret (false, ip)
  else if has_flag flags PT_ADDTHINGS
  then P_BlockThingsIterator (gr ip.2) (fun ip => pl ip.2) (PIT_AddThingIntercepts trace) mapx mapy ip
  else Ret (true, ip).
Fixpoint walk (count : nat) (w : walk_t) (flags : Z) (trace : Divline.divline_t) (mapx mapy xintercept yintercept : Z) (ip : list intercept_t * play Y) : outcome (bool * (list intercept_t * play Y)) :=
  match count with
  | O => Ret (true, ip)
  | S count =>
      let* '(go, ip) := add_block flags trace mapx mapy ip in
      if negb go then Ret (false, ip)
      else if (mapx =? xt2 w) && (mapy =? yt2 w) then Ret (true, ip)
      else if Z.shiftr yintercept FRACBITS =? mapy
      then walk count w flags trace (i32 (mapx + mapxstep w)) mapy xintercept (i32 (yintercept + ystep w)) ip
      else if Z.shiftr xintercept FRACBITS =? mapx
      then walk count w flags trace mapx (i32 (mapy + mapystep w)) (i32 (xintercept + xstep w)) yintercept ip
      else walk count w flags trace mapx mapy xintercept yintercept ip
  end.

(** The trace, which does not start on the border of a block. *)
Definition start_trace (g : grid) (x1 y1 x2 y2 : Z) : Divline.divline_t :=
  let x1 := if Z.land (i32 (x1 - bmaporgx g)) (MAPBLOCKSIZE - 1) =? 0 then i32 (x1 + FRACUNIT) else x1 in
  let y1 := if Z.land (i32 (y1 - bmaporgy g)) (MAPBLOCKSIZE - 1) =? 0 then i32 (y1 + FRACUNIT) else y1 in
  Divline.mk x1 y1 (i32 (x2 - x1)) (i32 (y2 - y1)).
(** Where the walk starts, and its steps. *)
Definition path_start (g : grid) (trace : Divline.divline_t) (x2 y2 : Z) : outcome (walk_t * (Z * Z) * (Z * Z)) :=
  let x1 := i32 (Divline.x trace - bmaporgx g) in
  let y1 := i32 (Divline.y trace - bmaporgy g) in
  let xt1 := Z.shiftr x1 MAPBLOCKSHIFT in
  let yt1 := Z.shiftr y1 MAPBLOCKSHIFT in
  let x2 := i32 (x2 - bmaporgx g) in
  let y2 := i32 (y2 - bmaporgy g) in
  let xt2 := Z.shiftr x2 MAPBLOCKSHIFT in
  let yt2 := Z.shiftr y2 MAPBLOCKSHIFT in
  let* '(mapxstep, ystep, yintercept) := axis_steps xt1 xt2 x1 x2 y1 y2 in
  let* '(mapystep, xstep, xintercept) := axis_steps yt1 yt2 y1 y2 x1 x2 in
  Ret (mk_walk xt2 yt2 mapxstep mapystep xstep ystep, (xt1, yt1), (xintercept, yintercept)).
Definition P_PathTraverse (x1 y1 x2 y2 flags : Z) (trav : Divline.divline_t -> intercept_t -> play Y -> outcome (bool * play Y)) p : outcome (bool * play Y) :=
  let p := p <| validcount ::= fun v => i32 (v + 1) |> in
  let trace := start_trace (gr p) x1 y1 x2 y2 in
  let* '(w, (mapx, mapy), (xintercept, yintercept)) := path_start (gr p) trace x2 y2 in
  let* '(go, (ins, p)) := walk 64 w flags trace mapx mapy xintercept yintercept ([], p) in
  if negb go then Ret (false, p) else P_TraverseIntercepts (trav trace) FRACUNIT ins p.
End trace.
