(* ===== verification/TraverseTheorems.v ===== *)
(** * A traversal visits what is crossed, in order

    P_TraverseIntercepts is a stable sort of the intercepts, and P_PathTraverse
    collects the intercepts of every line and thing in the blocks of the path. *)
From Stdlib Require Import Sorted.
From S2P Require Import Prelude MFixed MBbox MapGeometry DLists GameTypes ThingLinks ThingLinkTheorems PathTraverse.
#[local] Open Scope doom_scope.

Section trace.
Context {A : Arch} {bsp : Bsp} {bm : Blockmap} {Y : Type}.
Implicit Types (p : play Y) (ins : list intercept_t) (c : intercept_t).

(** ** In the order of the distance *)
Definition nearer c c' : Prop := frac c <= frac c'.
(** [l] is [ins] sorted, equals in their order. *)
Record sorted_as (l ins : list intercept_t) : Prop := {
  so_perm : l ≡ₚ ins;
  so_sorted : StronglySorted nearer l;
  so_stable v : filter (fun c => frac c = v) l = filter (fun c => frac c = v) ins
}.
Definition in_reach (maxfrac : Z) ins : list intercept_t := filter (fun c => frac c <= maxfrac) ins.

Lemma closest_run ins : forall i dist inp dist' inp', closest ins i dist inp = (dist', inp') ->
  (Forall (fun c => dist <= frac c) ins /\ dist' = dist /\ inp' = inp) \/
  exists l1 c l2, ins = l1 ++ c :: l2 /\ dist' = frac c /\ inp' = Some (i + length l1)%nat /\ frac c < dist /\
    Forall (fun c' => frac c < frac c') l1 /\ Forall (fun c' => frac c <= frac c') l2.
Proof.
  induction ins as [|c ins IH]; intros i dist inp dist' inp' E; cbn [closest] in E; [injection E as <- <-; left; done|].
  destruct (frac c <? dist) eqn:Ec; breflect.
  - right. destruct (IH _ _ _ _ _ E) as [(H & -> & ->)|(l1 & c' & l2 & -> & -> & -> & Hlt & H1 & H2)].
    + exists [], c, ins. split_and!; try done. f_equal. cbn. lia.
    + exists (c :: l1), c', l2. split_and!; try done; [f_equal; cbn; lia|lia|by constructor].
  - destruct (IH _ _ _ _ _ E) as [(H & -> & ->)|(l1 & c' & l2 & -> & -> & -> & Hlt & H1 & H2)]; [left|right].
    + split_and!; [by constructor|done|done].
    + exists (c :: l1), c', l2. split_and!; try done; [f_equal; cbn; lia|constructor; [lia|done]].
Qed.
Lemma sorted_cons c l r1 r2 : sorted_as l (r1 ++ r2) -> Forall (fun c' => frac c < frac c') r1 -> Forall (fun c' => frac c <= frac c') r2 -> sorted_as (c :: l) (r1 ++ c :: r2).
Proof.
  intros [H1 H2 H3] F1 F2. split.
  - rewrite H1. apply Permutation_middle.
  - constructor; [done|]. rewrite H1. apply Forall_app. split; [|done]. eapply Forall_impl; [exact F1|]. intros x Hx. unfold nearer. cbn in Hx. lia.
  - intros v. rewrite filter_app. specialize (H3 v). rewrite filter_app in H3. destruct (decide (frac c = v)) as [Hv|Hv].
    + assert (E : filter (fun c => frac c = v) r1 = []).
      { clear -F1 Hv. induction F1 as [|x r Hx _ IH]; [done|]. rewrite filter_cons_False by lia. exact IH. }
      rewrite E in *. rewrite !filter_cons_True by done. cbn [app] in *. by rewrite H3.
    + rewrite !filter_cons_False by done. exact H3.
Qed.
Lemma all_in_reach (P : intercept_t -> Prop) maxfrac ins : Forall P ins -> Forall P (in_reach maxfrac ins).
Proof. rewrite !Forall_forall. intros H c [_ Hc]%list_elem_of_filter. by apply H. Qed.
Lemma none_in_reach maxfrac ins : Forall (fun c => maxfrac < frac c) ins -> in_reach maxfrac ins = [].
Proof. induction 1 as [|x r Hx _ IH]; [done|]. unfold in_reach in *. rewrite filter_cons_False by lia. exact IH. Qed.
Lemma sorted_nil : sorted_as [] [].
Proof. split; [done|constructor|done]. Qed.
Lemma in_reach_app maxfrac l1 l2 : in_reach maxfrac (l1 ++ l2) = in_reach maxfrac l1 ++ in_reach maxfrac l2.
Proof. apply filter_app. Qed.
Lemma traverse_run func maxfrac count : maxfrac < INT_MAX -> forall ins inp p, (length (in_reach maxfrac ins) <= count)%nat ->
  exists l, sorted_as l (in_reach maxfrac ins) /\ traverse_loop count func maxfrac inp ins p = run_list func l p.
Proof.
  intros Hmax. induction count as [|count IH]; intros ins inp p Hc.
  - exists []. destruct (in_reach maxfrac ins); [|cbn in Hc; lia]. split; [apply sorted_nil|done].
  - cbn [traverse_loop]. destruct (closest ins 0 INT_MAX inp) as [dist inp'] eqn:Ec. destruct (closest_run _ _ _ _ _ _ Ec) as [(H & -> & ->)|(l1 & c & l2 & -> & -> & -> & Hlt & H1 & H2)].
    + rewrite Z.gtb_ltb, (proj2 (Z.ltb_lt _ _)) by lia. exists []. split; [|done]. rewrite none_in_reach; [apply sorted_nil|].
      eapply Forall_impl; [exact H|]. cbn. lia.
    + rewrite Z.gtb_ltb. destruct (maxfrac <? frac c) eqn:Em; breflect.
      * exists []. split; [|done]. rewrite none_in_reach; [apply sorted_nil|].
        apply Forall_app. split; [eapply Forall_impl; [exact H1|]; cbn; lia|]. constructor; [done|]. eapply Forall_impl; [exact H2|]; cbn; lia.
      * cbn [of_option obind]. rewrite Nat.add_0_l, list_lookup_middle by done. cbn [of_option obind].
        rewrite in_reach_app in *. unfold in_reach at 2 in Hc. unfold in_reach at 2. rewrite filter_cons_True in * by done. fold (in_reach maxfrac l2) in *.
        set (c' := c <| frac := INT_MAX |>). replace (<[length l1:=c']> (l1 ++ c :: l2)) with (l1 ++ c' :: l2) by (by rewrite insert_app_r_alt, Nat.sub_diag by lia).
        assert (E : in_reach maxfrac (l1 ++ c' :: l2) = in_reach maxfrac l1 ++ in_reach maxfrac l2).
        { rewrite in_reach_app. unfold in_reach at 2. rewrite filter_cons_False by (cbn; lia). done. }
        assert (Hc2 : (length (in_reach maxfrac (l1 ++ c' :: l2)) <= count)%nat) by (rewrite E; rewrite length_app in *; cbn in Hc; lia).
        assert (Hs : forall p', exists l, sorted_as (c :: l) (in_reach maxfrac l1 ++ c :: in_reach maxfrac l2) /\
          traverse_loop count func maxfrac (Some (length l1)) (l1 ++ c' :: l2) p' = run_list func l p').
        { intros p'. destruct (IH (l1 ++ c' :: l2) (Some (length l1)) p' Hc2) as (l & Hl & Er). exists l. split; [|done]. rewrite E in Hl.
          apply sorted_cons; [done|by apply all_in_reach|by apply all_in_reach]. }
        destruct (func c p) as [[go p']| | |] eqn:Ef.
        -- destruct (Hs p') as (l & Hl & Er). exists (c :: l). split; [done|]. cbn [run_list]. rewrite Ef. cbn [obind]. destruct go; [exact Er|done].
        -- destruct (Hs p) as (l & Hl & _). exists (c :: l). split; [done|]. cbn [run_list]. by rewrite Ef.
        -- destruct (Hs p) as (l & Hl & _). exists (c :: l). split; [done|]. cbn [run_list]. by rewrite Ef.
        -- destruct (Hs p) as (l & Hl & _). exists (c :: l). split; [done|]. cbn [run_list]. by rewrite Ef.
Qed.
Lemma TraverseIntercepts_run func maxfrac ins p : maxfrac < INT_MAX ->
  exists l, sorted_as l (in_reach maxfrac ins) /\ P_TraverseIntercepts func maxfrac ins p = run_list func l p.
Proof. intros H. apply traverse_run; [done|]. unfold in_reach. apply length_filter. Qed.

(** ** What is crossed, as a function *)
Inductive hit : Set := Miss | Stop | At (f : Z).
Definition line_hit (trace : Divline.divline_t) (earlyout : bool) (ld : Geo.line_t) : outcome hit :=
  let '(s1, s2) := line_sides trace ld in
  if s1 =? s2 then Ret Miss
  else
    let* f := P_InterceptVector trace (P_MakeDivline ld) in
    Ret (if f <? 0 then Miss else if earlyout && (f <? FRACUNIT) && bool_decide (Geo.backsector ld = None) then Stop else At f).
Definition thing_hit (trace : Divline.divline_t) (m : Mobj.mobj_t) : outcome hit :=
  let '(x1, y1, x2, y2) := thing_divline trace m in
  if P_PointOnDivlineSide x1 y1 trace =? P_PointOnDivlineSide x2 y2 trace then Ret Miss
  else
    let* f := P_InterceptVector trace (Divline.mk x1 y1 (i32 (x2 - x1)) (i32 (y2 - y1))) in
    Ret (if f <? 0 then Miss else At f).
Definition target_hit (lines : list Geo.line_t) (things : gmap Z Mobj.mobj_t) trace earlyout (t : target) : outcome hit :=
  match t with
  | ALine i => let* ld := of_option (lines !! i) in line_hit trace earlyout ld
  | AThing a => let* m := of_option (things !! a) in thing_hit trace m
  end.
(** The intercepts of some targets, up to the first that ends the search. *)
Fixpoint gather lines things trace earlyout (ts : list target) ins : outcome (bool * list intercept_t) :=
  match ts with
  | [] => Ret (true, ins)
  | t :: ts =>
      let* h := target_hit lines things trace earlyout t in
      match h with
      | Miss => gather lines things trace earlyout ts ins
      | Stop => Ret (false, ins)
      | At f => gather lines things trace earlyout ts (ins ++ [mk_intercept f t])
      end
  end.
Lemma gather_app lines things trace earlyout ts1 ts2 : forall ins, gather lines things trace earlyout (ts1 ++ ts2) ins =
  let* '(go, ins) := gather lines things trace earlyout ts1 ins in if go : bool then gather lines things trace earlyout ts2 ins else Ret (false, ins).
Proof.
  induction ts1 as [|t ts1 IH]; intros ins; [done|]. cbn [app gather]. destruct (target_hit _ _ _ _ t) as [[| |f]| | |]; try done; cbn [obind]; apply IH.
Qed.
Lemma gather_grows lines things trace earlyout ts : forall ins go ins', gather lines things trace earlyout ts ins = Ret (go, ins') -> (length ins <= length ins')%nat.
Proof.
  induction ts as [|t ts IH]; intros ins go ins' E; cbn [gather] in E; [by injection E as <- <-|].
  destruct (target_hit _ _ _ _ t) as [[| |f]| | |]; try done; cbn [obind] in E; [by eapply IH|by injection E as <- <-|].
  apply IH in E. rewrite length_app in E. cbn in E. lia.
Qed.
Lemma fixeddiv_ret a b : b <> 0 -> exists q, FixedDiv a b = Ret q.
Proof. intros H. unfold FixedDiv. destruct (_ >=? _); [by eexists|]. rewrite (proj2 (Z.eqb_neq b 0) H). by eexists. Qed.
Lemma intercept_ret v2 v1 : exists q, P_InterceptVector v2 v1 = Ret q.
Proof. unfold P_InterceptVector. destruct (_ =? 0) eqn:E; breflect; [by exists 0|]. by apply fixeddiv_ret. Qed.
Lemma line_hit_ret trace earlyout ld : exists h, line_hit trace earlyout ld = Ret h.
Proof. unfold line_hit. destruct (line_sides trace ld) as [s1 s2]. destruct (_ =? _); [by eexists|]. destruct (intercept_ret trace (P_MakeDivline ld)) as [q ->]. by eexists. Qed.
Lemma thing_hit_ret trace m : exists h, thing_hit trace m = Ret h.
Proof.
  unfold thing_hit. destruct (thing_divline trace m) as [[[x1 y1] x2] y2]. destruct (_ =? _); [by eexists|].
  destruct (intercept_ret trace (Divline.mk x1 y1 (i32 (x2 - x1)) (i32 (y2 - y1)))) as [q ->]. by eexists.
Qed.

(** Within the array, nothing but the array changes. *)
Definition added (h : hit) (t : target) ins : bool * list intercept_t :=
  match h with Miss => (true, ins) | Stop => (false, ins) | At f => (true, ins ++ [mk_intercept f t]) end.
Lemma add_intercept_run i ins p : Z.of_nat (length ins) <= MAXINTERCEPTS_ORIGINAL -> push_intercept i (ins, p) = Ret (ins ++ [i], p).
Proof.
  intros H. unfold push_intercept, InterceptsOverrun, MAXINTERCEPTS, MAXINTERCEPTS_ORIGINAL in *. rewrite Z.geb_leb, (proj2 (Z.leb_gt _ _)), (proj2 (Z.leb_le _ _)) by lia. done.
Qed.
Lemma AddLine_run trace earlyout i ins p ld h : maplines p !! i = Some ld -> line_hit trace earlyout ld = Ret h ->
  (forall f, h = At f -> Z.of_nat (length ins) <= MAXINTERCEPTS_ORIGINAL) ->
  PIT_AddLineIntercepts trace earlyout i (ins, p) = let '(go, ins') := added h (ALine i) ins in Ret (go, (ins', p)).
Proof.
  intros El Eh Hn. unfold PIT_AddLineIntercepts, line_hit in *. cbn [snd]. rewrite El. cbn [of_option obind]. destruct (line_sides trace ld) as [s1 s2].
  destruct (s1 =? s2); [by injection Eh as <-|]. destruct (P_InterceptVector trace (P_MakeDivline ld)) as [f| | |]; try done. cbn [obind] in *. injection Eh as <-.
  destruct (f <? 0); [done|]. destruct (_ && _); [done|]. rewrite add_intercept_run by (by eapply Hn). done.
Qed.
Lemma AddThing_run trace a ins p m h : mobjs (pl p) !! a = Some m -> thing_hit trace m = Ret h ->
  (forall f, h = At f -> Z.of_nat (length ins) <= MAXINTERCEPTS_ORIGINAL) ->
  PIT_AddThingIntercepts trace a (ins, p) = let '(go, ins') := added h (AThing a) ins in Ret (go, (ins', p)).
Proof.
  intros El Eh Hn. unfold PIT_AddThingIntercepts, thing_hit, getm in *. cbn [snd]. rewrite El. cbn [of_option obind]. destruct (thing_divline trace m) as [[[x1 y1] x2] y2].
  destruct (_ =? _); [by injection Eh as <-|]. destruct (P_InterceptVector trace _) as [f| | |]; try done. cbn [obind] in *. injection Eh as <-.
  destruct (f <? 0); [done|]. rewrite add_intercept_run by (by eapply Hn). done.
Qed.

(** ** Lines are looked at once *)
Definition marked_line (ld ld' : Geo.line_t) : Prop := ld' = ld <| Geo.validcount := Geo.validcount ld' |>.
Definition marked p p' : Prop := exists ls, Forall2 marked_line (maplines p) ls /\ p' = p <| maplines := ls |>.
Lemma marked_refl p : marked p p.
Proof. exists (maplines p). split; [|by destruct p]. induction (maplines p) as [|l ls IH]; constructor; [by destruct l|done]. Qed.
Lemma marked_trans p1 p2 p3 : marked p1 p2 -> marked p2 p3 -> marked p1 p3.
Proof.
  intros (l2 & H2 & ->) (l3 & H3 & ->). exists l3. split; [|by destruct p1]. change (Forall2 marked_line l2 l3) in H3. revert l3 H3.
  induction H2 as [|x y l1 l2 Hxy _ IH]; intros l3 H3; [by inversion H3|]. apply Forall2_cons_inv_l in H3 as (z & l3' & Hyz & H3 & ->). constructor; [|by apply IH].
  unfold marked_line in *. rewrite Hyz, Hxy. by destruct x.
Qed.
Lemma marked_hit trace earlyout ld ld' : marked_line ld ld' -> line_hit trace earlyout ld' = line_hit trace earlyout ld.
Proof. unfold marked_line. intros ->. done. Qed.
Lemma marked_lookup p p' i : marked p p' -> match maplines p !! i, maplines p' !! i with Some ld, Some ld' => marked_line ld ld' | None, None => True | _, _ => False end.
Proof.
  intros (ls & H & ->). change (maplines (p <| maplines := ls |>)) with ls. destruct (maplines p !! i) as [ld|] eqn:E.
  - destruct (Forall2_lookup_l _ _ _ _ _ H E) as (ld' & -> & Hl). done.
  - apply lookup_ge_None in E. rewrite (proj2 (lookup_ge_None _ _)); [done|]. by rewrite <- (Forall2_length _ _ _ H).
Qed.
(** The lines in [seen] have been looked at. *)
Definition seen_ok (seen : list nat) p : Prop := forall i ld, maplines p !! i = Some ld -> (Geo.validcount ld = validcount p <-> i ∈ seen).
Fixpoint unseen (seen ls : list nat) : list nat :=
  match ls with [] => [] | i :: ls => if decide (i ∈ seen) then unseen seen ls else i :: unseen (i :: seen) ls end.
Lemma unseen_ext ls : forall s1 s2, (forall i, i ∈ s1 <-> i ∈ s2) -> unseen s1 ls = unseen s2 ls.
Proof.
  induction ls as [|i ls IH]; intros s1 s2 H; [done|]. cbn [unseen]. rewrite (decide_ext _ _ (unseen s1 ls) (i :: unseen (i :: s1) ls) (H i)).
  destruct (decide _); [by apply IH|]. f_equal. apply IH. intros j. rewrite !elem_of_cons, H. done.
Qed.
(** The lines named up to the end mark. *)
Fixpoint until_end (ns : list Z) : option (list nat) :=
  match ns with
  | [] => None
  | n :: ns => if n =? -1 then Some [] else if n <? 0 then None else cons (Z.to_nat n) <$> until_end ns
  end.
#[local] Abbreviation hits p := (gather (maplines p) (mobjs (pl p))).
Lemma gather_marked p p' trace earlyout ts : marked p p' -> forall ins, hits p' trace earlyout ts ins = hits p trace earlyout ts ins.
Proof.
  intros H. assert (Et : forall t, target_hit (maplines p') (mobjs (pl p')) trace earlyout t = target_hit (maplines p) (mobjs (pl p)) trace earlyout t).
  { intros [i|a]; cbn [target_hit]; [|by destruct H as (ls & _ & ->)]. pose proof (marked_lookup p p' i H) as Hl.
    destruct (maplines p !! i), (maplines p' !! i); try done. cbn [of_option obind]. by apply marked_hit. }
  induction ts as [|t ts IH]; intros ins; [done|]. cbn [gather]. rewrite Et. destruct (target_hit _ _ _ _ t) as [[| |f]| | |]; try done; cbn [obind]; apply IH.
Qed.
(** Marking one line. *)
Lemma mark_run seen p i ld : seen_ok seen p -> maplines p !! i = Some ld ->
  let p' := p <| maplines ::= <[i := ld <| Geo.validcount := validcount p |>]> |> in marked p p' /\ seen_ok (i :: seen) p'.
Proof.
  intros Hs El p'. split.
  - exists (<[i := ld <| Geo.validcount := validcount p |>]> (maplines p)). split; [|done]. apply Forall2_same_length_lookup_2; [by rewrite length_insert|].
    intros j x y Hx Hy. apply list_lookup_insert_Some in Hy as [(<- & <- & _)|[_ Hy]]; [|rewrite Hx in Hy; injection Hy as <-; unfold marked_line; by destruct x].
    rewrite El in Hx. injection Hx as <-. done.
  - intros j x Hx. change (maplines p') with (<[i := ld <| Geo.validcount := validcount p |>]> (maplines p)) in Hx. change (validcount p') with (validcount p).
    rewrite elem_of_cons. apply list_lookup_insert_Some in Hx as [(<- & <- & _)|[Hij Hx]]; [cbn; tauto|]. rewrite (Hs j x Hx). split; [by right|intros [->|?]; done].
Qed.
Definition lines_func trace earlyout := lines_loop (Y := Y) snd (fun f (ip : list intercept_t * play Y) => (ip.1, f ip.2)) (PIT_AddLineIntercepts trace earlyout).
Lemma lines_run trace earlyout ns : forall ls seen ins p go ins', until_end ns = Some ls -> Forall (fun i => (i < length (maplines p))%nat) ls -> seen_ok seen p ->
  hits p trace earlyout (ALine <$> unseen seen ls) ins = Ret (go, ins') -> Z.of_nat (length ins') <= MAXINTERCEPTS_ORIGINAL + 1 ->
  exists p', lines_func trace earlyout ns (ins, p) = Ret (go, (ins', p')) /\ marked p p' /\ (go = true -> seen_ok (ls ++ seen) p').
Proof.
  unfold lines_func. induction ns as [|n ns IH]; intros ls seen ins p go ins' Eu Hls Hs Eg Hn; [done|]. cbn [until_end lines_loop] in *.
  destruct (n =? -1) eqn:E1; [injection Eu as <-; injection Eg as <- <-; exists p; split_and!; [done|apply marked_refl|done]|].
  destruct (n <? 0) eqn:E2; [done|]. destruct (until_end ns) as [ls'|] eqn:Eu'; [|done]. injection Eu as <-. apply Forall_cons in Hls as [Hi Hls].
  destruct (lookup_lt_is_Some_2 _ _ Hi) as [ld El]. cbn [snd]. rewrite El. cbn [of_option obind]. cbn [unseen] in Eg. pose proof (Hs _ _ El) as Hv.
  destruct (decide (Z.to_nat n ∈ seen)) as [Hin|Hin].
  - rewrite (proj2 (Z.eqb_eq _ _)) by tauto. destruct (IH _ _ _ _ _ _ eq_refl Hls Hs Eg Hn) as (p' & E & Hm & Hs'). exists p'. split_and!; [done|done|].
    intros Hgo j x Hx. rewrite (Hs' Hgo j x Hx). cbn [app]. rewrite elem_of_cons, elem_of_app. naive_solver.
  - rewrite (proj2 (Z.eqb_neq _ _)) by tauto. cbn [fst snd]. destruct (mark_run seen p _ ld Hs El) as [Hm1 Hs1]. set (p1 := p <| maplines ::= _ |>) in *.
    rewrite fmap_cons in Eg. cbn [gather target_hit] in Eg. rewrite El in Eg. cbn [of_option obind] in Eg. destruct (line_hit_ret trace earlyout ld) as [h Eh]. rewrite Eh in Eg. cbn [obind] in Eg.
    assert (El1 : maplines p1 !! Z.to_nat n = Some (ld <| Geo.validcount := validcount p |>)) by (by apply list_lookup_insert_eq).
    rewrite (AddLine_run trace earlyout _ ins p1 _ h El1 Eh).
    2: { intros f ->. apply gather_grows in Eg. rewrite length_app in Eg. cbn in Eg. lia. }
    assert (Hls1 : Forall (fun i => (i < length (maplines p1))%nat) ls') by (eapply Forall_impl; [exact Hls|]; intros x Hx; change (maplines p1) with (<[Z.to_nat n := ld <| Geo.validcount := validcount p |>]> (maplines p)); by rewrite length_insert).
    assert (Hk : forall ins1, hits p trace earlyout (ALine <$> unseen (Z.to_nat n :: seen) ls') ins1 = Ret (go, ins') ->
      exists p', lines_loop snd (fun f ip => (ip.1, f ip.2)) (PIT_AddLineIntercepts trace earlyout) ns (ins1, p1) = Ret (go, (ins', p')) /\ marked p p' /\ (go = true -> seen_ok ((Z.to_nat n :: ls') ++ seen) p')).
    { intros ins1 E. rewrite <- (gather_marked p p1 _ _ _ Hm1) in E. destruct (IH _ _ _ _ _ _ eq_refl Hls1 Hs1 E Hn) as (p' & E' & Hm' & Hs').
      exists p'. split_and!; [done|by eapply marked_trans|]. intros Hgo j x Hx. rewrite (Hs' Hgo j x Hx). cbn [app]. rewrite !elem_of_cons, !elem_of_app, elem_of_cons. tauto. }
    destruct h as [| |f]; cbn [added obind negb]; [by apply Hk|injection Eg as <- <-; exists p1; split_and!; done|by apply Hk].
Qed.

(** ** The things of a block *)
Lemma overwrite_pl o i v p p' : overwrite o i v p = Ret p' -> pl p' = pl p.
Proof.
  unfold overwrite. destruct o; try (by intros [= <-]). destruct (set _ _ _) as [l| | |]; try done. cbn [obind]. destruct (set _ _ _) as [l'| | |]; try done. by intros [= <-].
Qed.
Lemma overrun_pl table : forall offset location v p p', memory_overrun table offset location v p = Ret p' -> pl p' = pl p.
Proof. induction table as [|[n o] table IH]; intros offset location v p p' E; cbn [memory_overrun] in E; [by injection E as <-|]. destruct (_ >? _); [by eapply overwrite_pl|by eapply IH]. Qed.
Lemma push_pl i ins p ins' p' : push_intercept i (ins, p) = Ret (ins', p') -> pl p' = pl p.
Proof.
  unfold push_intercept, InterceptsOverrun, InterceptsMemoryOverrun. destruct (_ >=? _); [done|]. destruct (_ <=? _); cbn [obind]; [by intros [= _ <-]|].
  destruct (memory_overrun _ _ _ _ p) as [p1| | |] eqn:E1; try done. cbn [obind]. destruct (memory_overrun _ _ _ _ p1) as [p2| | |] eqn:E2; try done. cbn [obind].
  destruct (memory_overrun _ _ _ _ p2) as [p3| | |] eqn:E3; try done. cbn [obind]. intros [= _ <-]. by rewrite (overrun_pl _ _ _ _ _ _ E3), (overrun_pl _ _ _ _ _ _ E2), (overrun_pl _ _ _ _ _ _ E1).
Qed.
Lemma AddThing_pl trace a (ip : list intercept_t * play Y) go ip' : PIT_AddThingIntercepts trace a ip = Ret (go, ip') -> pl ip'.2 = pl ip.2.
Proof.
  destruct ip as [ins p], ip' as [ins' p']. unfold PIT_AddThingIntercepts. cbn [snd]. destruct (getm a (pl p)) as [m| | |]; try done. cbn [obind].
  destruct (thing_divline trace m) as [[[x1 y1] x2] y2]. destruct (_ =? _); [by intros [= _ _ <-]|]. destruct (P_InterceptVector trace _) as [f| | |]; try done. cbn [obind].
  destruct (f <? 0); [by intros [= _ _ <-]|]. destruct (push_intercept _ _) as [[i1 p1]| | |] eqn:E; try done. cbn [obind]. intros [= _ _ <-]. by eapply push_pl.
Qed.
Lemma things_run trace earlyout l : forall ins p go ins', hits p trace earlyout (AThing <$> l) ins = Ret (go, ins') -> Z.of_nat (length ins') <= MAXINTERCEPTS_ORIGINAL + 1 ->
  run_list (PIT_AddThingIntercepts trace) l (ins, p) = Ret (go, (ins', p)).
Proof.
  induction l as [|a l IH]; intros ins p go ins' E Hn; [by injection E as <- <-|]. rewrite fmap_cons in E. cbn [gather target_hit run_list] in *.
  destruct (mobjs (pl p) !! a) as [m|] eqn:Em; [|done]. cbn [of_option obind] in E. destruct (thing_hit trace m) as [h| | |] eqn:Eh; try done. cbn [obind] in E.
  rewrite (AddThing_run trace a ins p m h Em Eh). 2: { intros f ->. apply gather_grows in E. rewrite length_app in E. cbn in E. lia. }
  destruct h as [| |f]; cbn [added obind]; [by apply IH| |by apply IH]. exfalso. clear -Eh. unfold thing_hit in Eh. destruct (thing_divline trace m) as [[[x1 y1] x2] y2].
  destruct (_ =? _); [done|]. destruct (P_InterceptVector trace _) as [f| | |]; try done. cbn [obind] in Eh. by destruct (f <? 0).
Qed.

(** ** A block *)
Definition lines_in (g : grid) (x y : Z) : list nat :=
  match block_index g x y with
  | None => []
  | Some k => match get blockmaplump (4 + Z.of_nat k) with Ret offset => default [] (until_end (drop (Z.to_nat offset) blockmaplump)) | _ => [] end
  end.
Definition things_in (g : grid) (B : list (list Z)) (x y : Z) : list Z := default [] (block_index g x y ≫= fun k => B !! k).
(** Every block of the map has a list of lines with an end. *)
Definition blockmap_ok (g : grid) (n : nat) : Prop := forall x y k, block_index g x y = Some k ->
  exists offset ls, get blockmaplump (4 + Z.of_nat k) = Ret offset /\ 0 <= offset /\ until_end (drop (Z.to_nat offset) blockmaplump) = Some ls /\ Forall (fun i => (i < n)%nat) ls.
Record blocks_ok p (B : list (list Z)) : Prop := {
  bo_lines : blockmap_ok (gr p) (length (maplines p));
  bo_grid : grid_ok (gr p) B;
  bo_heads : blocklinks (pl p) = hd 0 <$> B;
  bo_lists : Forall (dlist block_links (mobjs (pl p))) B
}.
Lemma marked_ok p p' B : blocks_ok p B -> marked p p' -> blocks_ok p' B.
Proof. intros [H1 H2 H3 H4] (ls & Hl & ->). split; try done. change (blockmap_ok (gr p) (length ls)). by rewrite <- (Forall2_length _ _ _ Hl). Qed.
(** What a block adds when the lines in [seen] have been looked at. *)
Definition block_lines (flags : Z) (g : grid) (b : Z * Z) : list nat := if has_flag flags PT_ADDLINES then lines_in g b.1 b.2 else [].
Definition block_things (flags : Z) (g : grid) B (b : Z * Z) : list Z := if has_flag flags PT_ADDTHINGS then things_in g B b.1 b.2 else [].
Definition block_targets flags g B seen b : list target := (ALine <$> unseen seen (block_lines flags g b)) ++ (AThing <$> block_things flags g B b).
Fixpoint targets (flags : Z) (g : grid) B (seen : list nat) (bs : list (Z * Z)) : list target :=
  match bs with [] => [] | b :: bs => block_targets flags g B seen b ++ targets flags g B (block_lines flags g b ++ seen) bs end.
Lemma block_index_nonneg g B x y k : grid_ok g B -> block_index g x y = Some k -> i32 (y * bmapwidth g + x) = Z.of_nat k /\ 0 <= y * bmapwidth g + x.
Proof.
  intros (Hw & Hh & Hn & Hm). unfold block_index. rewrite !Z.geb_leb. destruct (_ || _ || _ || _) eqn:E; [done|]. breflect. intros [= <-].
  assert (Hr : 0 <= y * bmapwidth g + x < bmapwidth g * bmapheight g) by nia. rewrite wraps_id; [lia|lia|]. unfold fits_s, INT_MAX in *. change (2 ^ (32 - 1)) with 2147483648. lia.
Qed.
Lemma BlockLines_run trace earlyout x y seen ins p go ins' B : blocks_ok p B -> seen_ok seen p ->
  hits p trace earlyout (ALine <$> unseen seen (lines_in (gr p) x y)) ins = Ret (go, ins') -> Z.of_nat (length ins') <= MAXINTERCEPTS_ORIGINAL + 1 ->
  exists p', P_BlockLinesIterator snd (fun f (ip : list intercept_t * play Y) => (ip.1, f ip.2)) (PIT_AddLineIntercepts trace earlyout) x y (ins, p) = Ret (go, (ins', p')) /\
    marked p p' /\ (go = true -> seen_ok (lines_in (gr p) x y ++ seen) p').
Proof.
  intros [Hb Hg _ _] Hs. unfold P_BlockLinesIterator, lines_in. cbn [snd]. destruct (block_index (gr p) x y) as [k|] eqn:Ek.
  - destruct (block_index_nonneg _ _ _ _ _ Hg Ek) as [Ei _]. destruct (Hb x y k Ek) as (offset & ls & Eo & H0 & Eu & Hls). rewrite Eo, Eu. cbn [default id]. intros E Hn.
    unfold block_index in Ek. destruct (_ || _ || _ || _); [done|]. rewrite Ei, Eo. cbn [obind]. rewrite (proj2 (Z.ltb_ge offset 0) H0). by apply lines_run.
  - unfold block_index in Ek. destruct (_ || _ || _ || _); [|done]. intros [= <- <-] _. exists p. split_and!; [done|apply marked_refl|done].
Qed.
Lemma add_block_run flags trace B x y seen ins p go ins' : blocks_ok p B -> seen_ok seen p ->
  hits p trace (has_flag flags PT_EARLYOUT) (block_targets flags (gr p) B seen (x, y)) ins = Ret (go, ins') -> Z.of_nat (length ins') <= MAXINTERCEPTS_ORIGINAL + 1 ->
  exists p', add_block flags trace x y (ins, p) = Ret (go, (ins', p')) /\ marked p p' /\ (go = true -> seen_ok (block_lines flags (gr p) (x, y) ++ seen) p').
Proof.
  intros Hok Hs. unfold block_targets, block_lines, block_things, add_block. cbn [fst snd]. rewrite gather_app. intros E Hn.
  set (early := has_flag flags PT_EARLYOUT) in *. clearbody early.
  assert (H1 : exists go1 ins1, hits p trace early (ALine <$> unseen seen (if has_flag flags PT_ADDLINES then lines_in (gr p) x y else [])) ins = Ret (go1, ins1) /\
    (if go1 : bool then hits p trace early (AThing <$> (if has_flag flags PT_ADDTHINGS then things_in (gr p) B x y else [])) ins1 = Ret (go, ins') else go = false /\ ins' = ins1)).
  { destruct (hits p trace early (ALine <$> _) ins) as [[go1 ins1]| | |]; try done. cbn [obind] in E. exists go1, ins1. split; [done|]. destruct go1; [done|]. injection E as <- <-. done. }
  destruct H1 as (go1 & ins1 & E1 & E2). clear E.
  assert (Hn1 : Z.of_nat (length ins1) <= MAXINTERCEPTS_ORIGINAL + 1) by (destruct go1; [apply gather_grows in E2; lia|by destruct E2 as [_ <-]]).
  assert (H1 : exists p1, (if has_flag flags PT_ADDLINES then P_BlockLinesIterator snd (fun f (ip : list intercept_t * play Y) => (ip.1, f ip.2)) (PIT_AddLineIntercepts trace early) x y (ins, p) else Ret (true, (ins, p))) = Ret (go1, (ins1, p1)) /\
    marked p p1 /\ (go1 = true -> seen_ok ((if has_flag flags PT_ADDLINES then lines_in (gr p) x y else []) ++ seen) p1)).
  { destruct (has_flag flags PT_ADDLINES); [by apply (BlockLines_run _ _ _ _ _ _ _ _ _ B)|]. cbn in E1. injection E1 as <- <-. exists p. split_and!; [done|apply marked_refl|done]. }
  destruct H1 as (p1 & -> & Hm1 & Hs1). cbn [obind]. destruct go1; cbn [negb]; [|destruct E2 as [-> ->]; exists p1; split_and!; done].
  assert (E3 : (if has_flag flags PT_ADDTHINGS then P_BlockThingsIterator (gr p1) (fun ip : list intercept_t * play Y => pl ip.2) (PIT_AddThingIntercepts trace) x y (ins1, p1) else Ret (true, (ins1, p1))) = Ret (go, (ins', p1))).
  { destruct (has_flag flags PT_ADDTHINGS); [|by injection E2 as <- <-]. pose proof (marked_ok p p1 B Hok Hm1) as [_ Hg Hh Hl].
    rewrite (BlockThings_run (gr p1) (fun ip : list intercept_t * play Y => pl ip.2) (PIT_AddThingIntercepts trace) x y (ins1, p1) B Hh Hl Hg).
    - apply (things_run trace early); [|done]. rewrite (gather_marked p p1 _ _ _ Hm1). destruct Hm1 as (ls & _ & ->). exact E2.
    - intros l a s go' s' _ _ Hd Ef. by rewrite (AddThing_pl _ _ _ _ _ Ef). }
  cbn [snd]. exists p1. split_and!; [exact E3|done|]. intros _. by apply Hs1.
Qed.

(** ** The path *)
(** The blocks of the walk. *)
Fixpoint path (count : nat) (w : walk_t) (mapx mapy xintercept yintercept : Z) : list (Z * Z) :=
  match count with
  | O => []
  | S count =>
      (mapx, mapy) ::
      (if (mapx =? xt2 w) && (mapy =? yt2 w) then []
       else if Z.shiftr yintercept FRACBITS =? mapy then path count w (i32 (mapx + mapxstep w)) mapy xintercept (i32 (yintercept + ystep w))
       else if Z.shiftr xintercept FRACBITS =? mapx then path count w mapx (i32 (mapy + mapystep w)) (i32 (xintercept + xstep w)) yintercept
       else path count w mapx mapy xintercept yintercept)
  end.
Lemma path_walk_run flags trace w count : forall mapx mapy xi yi (ip : list intercept_t * play Y),
  walk count w flags trace mapx mapy xi yi ip = run_list (fun b => add_block flags trace b.1 b.2) (path count w mapx mapy xi yi) ip.
Proof.
  induction count as [|count IH]; intros mapx mapy xi yi ip; [done|]. cbn [walk path run_list fst snd]. destruct (add_block flags trace mapx mapy ip) as [[go ip']| | |]; try done. cbn [obind].
  destruct go; [|done]. cbn [negb]. destruct (_ && _); [done|]. destruct (_ =? mapy); [apply IH|]. destruct (_ =? mapx); apply IH.
Qed.
Lemma blocks_run flags trace B bs : forall seen ins p go ins', blocks_ok p B -> seen_ok seen p ->
  hits p trace (has_flag flags PT_EARLYOUT) (targets flags (gr p) B seen bs) ins = Ret (go, ins') -> Z.of_nat (length ins') <= MAXINTERCEPTS_ORIGINAL + 1 ->
  exists p', run_list (fun b => add_block flags trace b.1 b.2) bs (ins, p) = Ret (go, (ins', p')) /\ marked p p'.
Proof.
  induction bs as [|[x y] bs IH]; intros seen ins p go ins' Hok Hs E Hn; [injection E as <- <-; exists p; split; [done|apply marked_refl]|].
  cbn [targets run_list fst snd] in *. rewrite gather_app in E. destruct (hits p trace _ (block_targets flags (gr p) B seen (x, y)) ins) as [[go1 ins1]| | |] eqn:E1; try done. cbn [obind] in E.
  assert (Hn1 : Z.of_nat (length ins1) <= MAXINTERCEPTS_ORIGINAL + 1) by (destruct go1; [apply gather_grows in E; lia|by injection E as _ <-]).
  destruct (add_block_run _ _ _ _ _ _ _ _ _ _ Hok Hs E1 Hn1) as (p1 & -> & Hm1 & Hs1). cbn [obind]. destruct go1; [|injection E as <- <-; by exists p1].
  destruct (IH (block_lines flags (gr p) (x, y) ++ seen) ins1 p1 go ins') as (p2 & E2 & Hm2); [by eapply marked_ok|by apply Hs1| |done|].
  - rewrite (gather_marked p p1 _ _ _ Hm1). destruct Hm1 as (ls & _ & ->). exact E.
  - exists p2. split; [done|by eapply marked_trans].
Qed.

Lemma abs_nonzero v : fits_s 32 v -> v <> 0 -> i32 (c_abs v) <> 0.
Proof.
  intros Hv H0. assert (Hw : i32 v = v) by (apply wraps_id; [lia|done]). unfold fits_s in Hv. change (2 ^ (32 - 1)) with 2147483648 in Hv.
  unfold c_abs, word_bits, wraps in *. destruct the_abi; cbn zeta iota;
    [change (2 ^ (64 - 1)) with 9223372036854775808; change (2 ^ 64) with 18446744073709551616|]; change (2 ^ (32 - 1)) with 2147483648; change (2 ^ 32) with 4294967296;
    destruct (_ <? 0) eqn:E; breflect; Z.div_mod_to_equations; lia.
Qed.
Lemma axis_ret k1 k2 o1 o2 : fits_s 32 k1 -> fits_s 32 k2 -> exists r, axis_steps (Z.shiftr k1 MAPBLOCKSHIFT) (Z.shiftr k2 MAPBLOCKSHIFT) k1 k2 o1 o2 = Ret r.
Proof.
  intros H1 H2. unfold axis_steps. assert (Hd : k1 <> k2 -> exists q, FixedDiv (i32 (o2 - o1)) (i32 (c_abs (i32 (k2 - k1)))) = Ret q).
  { intros Hne. apply fixeddiv_ret, abs_nonzero; [apply wraps_range; lia|]. unfold fits_s, wraps in *. change (2 ^ (32 - 1)) with 2147483648 in *.
    change (2 ^ 32) with 4294967296. Z.div_mod_to_equations; lia. }
  destruct (_ >? _) eqn:E1.
  - destruct Hd as [q ->]; [intros ->; lia|]. cbn [obind]. by eexists.
  - destruct (_ <? _) eqn:E2; [destruct Hd as [q ->]; [intros ->; lia|]|]; cbn [obind]; by eexists.
Qed.
Lemma start_ret g trace x2 y2 : exists r, path_start g trace x2 y2 = Ret r.
Proof.
  unfold path_start. cbv zeta. destruct (axis_ret (i32 (Divline.x trace - bmaporgx g)) (i32 (x2 - bmaporgx g)) (i32 (Divline.y trace - bmaporgy g)) (i32 (y2 - bmaporgy g))) as [[[a b] c] ->]; [apply wraps_range; lia..|].
  destruct (axis_ret (i32 (Divline.y trace - bmaporgy g)) (i32 (y2 - bmaporgy g)) (i32 (Divline.x trace - bmaporgx g)) (i32 (x2 - bmaporgx g))) as [[[a' b'] c'] ->]; [apply wraps_range; lia..|]. by eexists.
Qed.
(** What the targets name exists. *)
Definition target_ok p (t : target) : Prop := match t with ALine i => (i < length (maplines p))%nat | AThing a => is_Some (mobjs (pl p) !! a) end.
Lemma gather_ret p trace earlyout ts : Forall (target_ok p) ts -> forall ins, exists r, hits p trace earlyout ts ins = Ret r.
Proof.
  induction 1 as [|t ts Ht _ IH]; intros ins; [by eexists|]. cbn [gather].
  assert (Eh : exists h, target_hit (maplines p) (mobjs (pl p)) trace earlyout t = Ret h).
  { destruct t as [i|a]; cbn [target_hit target_ok] in *; [destruct (lookup_lt_is_Some_2 _ _ Ht) as [ld ->]; apply line_hit_ret|destruct Ht as [m ->]; apply thing_hit_ret]. }
  destruct Eh as [[| |f] ->]; cbn [obind]; [apply IH|by eexists|apply IH].
Qed.
Lemma unseen_sub ls : forall seen i, i ∈ unseen seen ls -> i ∈ ls.
Proof.
  induction ls as [|j ls IH]; intros seen i Hi; [done|]. cbn [unseen] in Hi. rewrite elem_of_cons. destruct (decide _); [right; by eapply IH|].
  apply elem_of_cons in Hi as [->|Hi]; [by left|right; by eapply IH].
Qed.
Lemma targets_ok flags p B bs : blocks_ok p B -> forall seen, Forall (target_ok p) (targets flags (gr p) B seen bs).
Proof.
  intros [Hb Hg _ Hl]. induction bs as [|[x y] bs IH]; intros seen; cbn [targets]; [done|]. rewrite Forall_app. split; [|apply IH]. unfold block_targets, block_lines, block_things. rewrite Forall_app. cbn [fst snd]. split.
  - apply Forall_forall. intros t (i & -> & Hi)%list_elem_of_fmap. apply unseen_sub in Hi. destruct (has_flag _ _); [|by apply elem_of_nil in Hi]. unfold lines_in in Hi.
    destruct (block_index (gr p) x y) as [k|] eqn:Ek; [|by apply elem_of_nil in Hi]. destruct (Hb x y k Ek) as (o & ls & Eo & _ & Eu & Hls). rewrite Eo, Eu in Hi. rewrite Forall_forall in Hls. by apply Hls.
  - apply Forall_forall. intros t (a & -> & Ha)%list_elem_of_fmap. destruct (has_flag _ _); [|by apply elem_of_nil in Ha]. unfold things_in in Ha. destruct (block_index (gr p) x y) as [k|]; [|by apply elem_of_nil in Ha]. cbn [mbind option_bind] in Ha.
    destruct (B !! k) as [l|] eqn:El; [|by apply elem_of_nil in Ha]. rewrite Forall_lookup in Hl. by apply (dseg_elem _ _ _ _ _ _ (proj2 (Hl k l El)) Ha).
Qed.

Lemma path_bound w count : forall mapx mapy xi yi, (length (path count w mapx mapy xi yi) <= count)%nat.
Proof.
  induction count as [|count IH]; intros mapx mapy xi yi; [done|]. cbn [path length]. apply le_n_S.
  destruct (_ && _); [apply Nat.le_0_l|]. destruct (_ =? mapy); [apply IH|]. destruct (_ =? mapx); apply IH.
Qed.

(** The lines have not been looked at in this traversal. *)
Definition unmarked p : Prop := Forall (fun ld => Geo.validcount ld <> i32 (validcount p + 1)) (maplines p).

Lemma PathTraverse_run x1 y1 x2 y2 flags trav p B : blocks_ok p B -> unmarked p ->
  let trace := start_trace (gr p) x1 y1 x2 y2 in
  exists w xi yi, let mapx := Z.shiftr (i32 (Divline.x trace - bmaporgx (gr p))) MAPBLOCKSHIFT in let mapy := Z.shiftr (i32 (Divline.y trace - bmaporgy (gr p))) MAPBLOCKSHIFT in
  let bs := path 64 w mapx mapy xi yi in
  path_start (gr p) trace x2 y2 = Ret (w, (mapx, mapy), (xi, yi)) /\ (length bs <= 64)%nat /\
  exists go ins, hits p trace (has_flag flags PT_EARLYOUT) (targets flags (gr p) B [] bs) [] = Ret (go, ins) /\
    (Z.of_nat (length ins) <= MAXINTERCEPTS_ORIGINAL + 1 ->
     exists p' l, marked (p <| validcount ::= fun v => i32 (v + 1) |>) p' /\
       l ≡ₚ in_reach FRACUNIT ins /\ StronglySorted nearer l /\ (forall v, filter (fun c => frac c = v) l = filter (fun c => frac c = v) (in_reach FRACUNIT ins)) /\
       P_PathTraverse x1 y1 x2 y2 flags trav p = if go then run_list (trav trace) l p' else Ret (false, p')).
Proof.
  intros Hok Hun trace. set (p0 := p <| validcount ::= fun v => i32 (v + 1) |>). destruct (start_ret (gr p) trace x2 y2) as [[[w [mx my]] [xi yi]] Es]. exists w, xi, yi. cbv zeta.
  pose proof Es as Es'. unfold path_start in Es'. cbv zeta in Es'. destruct (axis_steps _ _ _ _ _ _) as [[[a b] c]| | |]; try done. cbn [obind] in Es'.
  destruct (axis_steps _ _ _ _ _ _) as [[[a' b'] c']| | |]; try done. cbn [obind] in Es'. assert (Emx : Z.shiftr (i32 (Divline.x trace - bmaporgx (gr p))) MAPBLOCKSHIFT = mx) by congruence.
  assert (Emy : Z.shiftr (i32 (Divline.y trace - bmaporgy (gr p))) MAPBLOCKSHIFT = my) by congruence. rewrite Emx, Emy. clear Es'. split; [done|]. split; [apply path_bound|].
  assert (Hok0 : blocks_ok p0 B) by (destruct Hok; by split). assert (Hs0 : seen_ok [] p0).
  { intros i ld El. pose proof (proj1 (Forall_lookup _ _) Hun i ld El) as Hne. split; [intros H; by destruct Hne|intros H; by apply elem_of_nil in H]. }
  destruct (gather_ret p trace (has_flag flags PT_EARLYOUT) _ (targets_ok flags p B (path 64 w mx my xi yi) Hok []) []) as [[go ins] Eg].
  exists go, ins. split; [done|]. intros Hn. destruct (blocks_run flags trace B (path 64 w mx my xi yi) [] [] p0 go ins Hok0 Hs0 Eg Hn) as (p' & Ew & Hm).
  destruct (TraverseIntercepts_run (trav trace) FRACUNIT ins p' eq_refl) as (l & [L1 L2 L3] & El). exists p', l. split_and!; try done.
  unfold P_PathTraverse. fold p0. change (gr p0) with (gr p). cbv zeta. fold trace. rewrite Es. cbn [obind]. rewrite path_walk_run, Ew. cbn [obind]. destruct go; [exact El|done].
Qed.

(** C19: P_PathTraverse, on a level whose block map and lists are in order and
    whose lines do not bear the new mark. The trace has a path of at most 64 blocks,
    from the block it starts in; the lines of these blocks, each once however many
    of the blocks name it, and the things of these blocks are tested in the order of
    the path. If a one-sided line is to stop the search and does, the traverser is
    not called. Otherwise, as long as no more than 129 of them are crossed, the
    traverser is called on exactly the crossed ones in reach, in the order of their
    distance along the trace, equal distances in the order of the path, until it
    says stop. Nothing but the marks of lines has changed when it is first called. *)
Theorem P_PathTraverse_correct x1 y1 x2 y2 flags trav p B : blocks_ok p B -> unmarked p ->
  let trace := start_trace (gr p) x1 y1 x2 y2 in
  exists w xi yi, let mapx := Z.shiftr (i32 (Divline.x trace - bmaporgx (gr p))) MAPBLOCKSHIFT in let mapy := Z.shiftr (i32 (Divline.y trace - bmaporgy (gr p))) MAPBLOCKSHIFT in
  let bs := path 64 w mapx mapy xi yi in
  path_start (gr p) trace x2 y2 = Ret (w, (mapx, mapy), (xi, yi)) /\ (length bs <= 64)%nat /\
  exists go ins, hits p trace (has_flag flags PT_EARLYOUT) (targets flags (gr p) B [] bs) [] = Ret (go, ins) /\
    (Z.of_nat (length ins) <= MAXINTERCEPTS_ORIGINAL + 1 ->
     exists p' l, marked (p <| validcount ::= fun v => i32 (v + 1) |>) p' /\
       l ≡ₚ in_reach FRACUNIT ins /\ StronglySorted nearer l /\ (forall v, filter (fun c => frac c = v) l = filter (fun c => frac c = v) (in_reach FRACUNIT ins)) /\
       P_PathTraverse x1 y1 x2 y2 flags trav p = if go then run_list (trav trace) l p' else Ret (false, p')).
Proof. apply PathTraverse_run. Qed.
End trace.

(** ** Witness *)
Module TraceDemo.
(** A line in the first block, and a thing before it. *)
Definition wall : Geo.line_t := Geo.mk (mk_vertex (64 * FRACUNIT) 0) (mk_vertex (64 * FRACUNIT) (128 * FRACUNIT)) 0 (128 * FRACUNIT) ML_TWOSIDED 0 0 (mk_bbox (128 * FRACUNIT) 0 (64 * FRACUNIT) (64 * FRACUNIT)) ST_VERTICAL (Some 0%nat) (Some 0%nat) 0.
Definition lump : list Z := [0; 0; 2; 2; 8; 10; 10; 10; 0; -1; -1].
Definition bm : Blockmap := {| blockmaplump := lump; line_at i := 5000 + Z.of_nat i |}.
Definition level : play (list target) := mk_play [wall] 7 SmallMap.small_grid SmallMap.one (mk_opening 0 0 0 0) 0 [] [].
Definition note (trace : Divline.divline_t) (i : intercept_t) (p : play (list target)) : outcome (bool * play (list target)) := Ret (true, p <| client ::= fun l => l ++ [d i] |>).
Lemma level_ok : blocks_ok (bm := bm) level [[16]; []; []; []].
Proof.
  split.
  - intros x y k Ek. assert (Hk : (k < 4)%nat).
    { assert (Hr : 0 <= x < 2 /\ 0 <= y < 2 /\ k = Z.to_nat (i32 (y * 2 + x))).
      { unfold block_index in Ek. cbn [level gr SmallMap.small_grid bmapwidth bmapheight] in Ek. rewrite !Z.geb_leb in Ek. destruct (_ || _ || _ || _) eqn:E; [done|]. breflect. injection Ek as <-. lia. }
      destruct Hr as (Hx & Hy & ->). assert (Hx' : x = 0 \/ x = 1) by lia. assert (Hy' : y = 0 \/ y = 1) by lia. destruct Hx' as [-> | ->], Hy' as [-> | ->]; vm_compute; lia. }
    destruct k as [|[|[|[|k]]]]; [..|lia].
    + exists 8, [0%nat]. split; [reflexivity|]. split; [lia|]. split; [reflexivity|]. constructor; [cbn; lia|constructor].
    + exists 10, []. split; [reflexivity|]. split; [lia|]. split; [reflexivity|constructor].
    + exists 10, []. split; [reflexivity|]. split; [lia|]. split; [reflexivity|constructor].
    + exists 10, []. split; [reflexivity|]. split; [lia|]. split; [reflexivity|constructor].
  - exact SmallMap.small_grid_ok.
  - reflexivity.
  - exact (li_blists _ _ _ _ SmallMap.one_ok).
Qed.
End TraceDemo.
Lemma P_PathTraverse_correct_witness :
  exists p' l, l ≡ₚ [mk_intercept 19828 (ALine 0); mk_intercept 8402 (AThing 16)] /\ StronglySorted nearer l /\
    P_PathTraverse (A := LP64) (bm := TraceDemo.bm) (5 * FRACUNIT) (5 * FRACUNIT) (200 * FRACUNIT) (5 * FRACUNIT) 3 TraceDemo.note TraceDemo.level =
    run_list (TraceDemo.note (start_trace SmallMap.small_grid (5 * FRACUNIT) (5 * FRACUNIT) (200 * FRACUNIT) (5 * FRACUNIT))) l p'.
Proof.
  destruct (P_PathTraverse_correct (A := LP64) (bm := TraceDemo.bm) (5 * FRACUNIT) (5 * FRACUNIT) (200 * FRACUNIT) (5 * FRACUNIT) 3 TraceDemo.note TraceDemo.level _
    TraceDemo.level_ok) as (w & xi & yi & Es & _ & go & ins & Eg & H).
  - constructor; [discriminate|constructor].
  - vm_compute in Es. injection Es as <- <- <-. vm_compute in Eg. injection Eg as <- <-.
    destruct H as (p' & l & _ & Hl & Hs & _ & E); [vm_compute; discriminate|]. exists p', l. split; [exact Hl|]. split; [exact Hs|exact E].
Defined.
