(* ===== verification/Sight.v ===== *)
(** * Who sees whom (p_sight.c)

    P_CheckSight follows the line between two things through the tree of the map
    and narrows the window that the heights of the crossed sectors leave. *)
From S2P Require Import Prelude MFixed MapGeometry GameTypes ThingLinks.
#[local] Open Scope doom_scope.

(** [subsector_t] and [seg_t] with the fields the code reads. *)
Record subsector_t : Type := mk_subsector { numlines : Z; firstline : Z }.
Record seg_t : Type := mk_seg { linedef : nat; frontsector : option nat; backsector : option nat }.
(** The parts of the map that do not change. *)
Class Segs : Type := { subsectors : list subsector_t; segs : list seg_t; rejectmatrix : list Z }.

(** The variables of the module; [lines] for their marks. *)
Record sight : Type := mk_sight { lines : list Geo.line_t; validcount : Z; topslope : Z; bottomslope : Z; sightcounts : Z * Z }.
#[export] Instance sight_eta : Eta sight := fun s => mk_sight (lines s) (validcount s) (topslope s) (bottomslope s) (sightcounts s).
(** Those that are set once for a call. *)
Record look : Type := mk_look { sightzstart : Z; strace : Divline.divline_t; t2x : Z; t2y : Z }.

(** Reading an array at an index of any value. *)
Definition at_index {X} (l : list X) (i : Z) : outcome X := if i <? 0 then Undef else of_option (l !! Z.to_nat i).

Section sight.
Context {A : Arch} {bsp : Bsp} {sg : Segs} (sectors : list heights).
Implicit Types (s : sight) (k : look).

Definition P_DivlineSide (x y : Z) (node : Divline.divline_t) : Z :=
  if Divline.dx node =? 0 then
    if x =? Divline.x node then 2
    else of_bool (if x <=? Divline.x node then Divline.dy node >? 0 else Divline.dy node <? 0)
  else if Divline.dy node =? 0 then
    if x =? Divline.y node then 2
    else of_bool (if y <=? Divline.y node then Divline.dx node <? 0 else Divline.dx node >? 0)
  else
    let dx := i32 (x - Divline.x node) in
    let dy := i32 (y - Divline.y node) in
    let left := i32 (Z.shiftr (Divline.dy node) FRACBITS * Z.shiftr dx FRACBITS) in
    let right := i32 (Z.shiftr dy FRACBITS * Z.shiftr (Divline.dx node) FRACBITS) in
    if right <? left then 0 else if left =? right then 2 else 1.
Definition P_InterceptVector2 (v2 v1 : Divline.divline_t) : outcome Z :=
  let den := i32 (FixedMul (Z.shiftr (Divline.dy v1) 8) (Divline.dx v2) - FixedMul (Z.shiftr (Divline.dx v1) 8) (Divline.dy v2)) in
  if den =? 0 then Ret 0
  else
    let num := i32 (FixedMul (Z.shiftr (i32 (Divline.x v1 - Divline.x v2)) 8) (Divline.dy v1) +
                    FixedMul (Z.shiftr (i32 (Divline.y v2 - Divline.y v1)) 8) (Divline.dx v1)) in
    FixedDiv num den.

(** ** A subsector *)

(** Whether the line of sight crosses a line of the map, and the divline of it. *)
Definition seg_divline (ld : Geo.line_t) : Divline.divline_t :=
  Divline.mk (vx (Geo.v1 ld)) (vy (Geo.v1 ld)) (i32 (vx (Geo.v2 ld) - vx (Geo.v1 ld))) (i32 (vy (Geo.v2 ld) - vy (Geo.v1 ld))).
Definition crosses k (ld : Geo.line_t) : bool :=
  negb (P_DivlineSide (vx (Geo.v1 ld)) (vy (Geo.v1 ld)) (strace k) =? P_DivlineSide (vx (Geo.v2 ld)) (vy (Geo.v2 ld)) (strace k)) &&
  negb (P_DivlineSide (Divline.x (strace k)) (Divline.y (strace k)) (seg_divline ld) =? P_DivlineSide (t2x k) (t2y k) (seg_divline ld)).
(** A two-sided line that is crossed: the window gets smaller. *)
Definition narrow k (front back : heights) (ld : Geo.line_t) s : outcome (bool * sight) :=
  if (floorheight front =? floorheight back) && (ceilingheight front =? ceilingheight back) then Ret (true, s)
  else
    let opentop := if ceilingheight front <? ceilingheight back then ceilingheight front else ceilingheight back in
    let openbottom := if floorheight front >? floorheight back then floorheight front else floorheight back in
    if openbottom >=? opentop then Ret (false, s)
    else
      let* frac := P_InterceptVector2 (strace k) (seg_divline ld) in
      let* s :=
        if negb (floorheight front =? floorheight back)
        then let* slope := FixedDiv (i32 (openbottom - sightzstart k)) frac in
             Ret (if slope >? bottomslope s then s <| bottomslope := slope |> else s)
        else Ret s in
      let* s :=
        if negb (ceilingheight front =? ceilingheight back)
        then let* slope := FixedDiv (i32 (opentop - sightzstart k)) frac in
             Ret (if slope <? topslope s then s <| topslope := slope |> else s)
        else Ret s in
      Ret (negb (topslope s <=? bottomslope s), s).
Definition cross_seg k (seg : seg_t) s : outcome (bool * sight) :=
  let* ld := of_option (lines s !! linedef seg) in
  if Geo.validcount ld =? validcount s then Ret (true, s)
  else
    let s := s <| lines ::= <[linedef seg := ld <| Geo.validcount := validcount s |>]> |> in
    if negb (crosses k ld) then Ret (true, s)
    else if bool_decide (Geo.backsector ld = None) then Ret (false, s)
    else if negb (has_flag (Geo.flags ld) ML_TWOSIDED) then Ret (false, s)
    else
      let* f := of_option (frontsector seg) in
      let* front := of_option (sectors !! f) in
      let* b := of_option (backsector seg) in
      let* back := of_option (sectors !! b) in
      narrow k front back ld s.
Fixpoint cross_segs (count : nat) k (i : Z) s : outcome (bool * sight) :=
  match count with
  | O => Ret (true, s)
  | S count =>
      let* seg := at_index segs i in
      let* '(go, s) := cross_seg k seg s in
      if negb go then Ret (false, s) else cross_segs count k (i + 1) s
  end.
Definition P_CrossSubsector k (num : Z) s : outcome (bool * sight) :=
  if num >=? Z.of_nat (length subsectors) then Fatal "P_CrossSubsector: ss with numss"
  else
    let* sub := at_index subsectors num in
    if numlines sub <? 0 then Undef else cross_segs (Z.to_nat (numlines sub)) k (firstline sub) s.

(** ** The tree *)
Definition node_divline (n : Node.node_t) : Divline.divline_t := Divline.mk (Node.x n) (Node.y n) (Node.dx n) (Node.dy n).
Fixpoint cross_node (fuel : nat) k (bspnum : Z) s : outcome (bool * sight) :=
  if has_flag bspnum NF_SUBSECTOR then
    if bspnum =? -1 then P_CrossSubsector k 0 s else P_CrossSubsector k (Z.land bspnum (Z.lnot NF_SUBSECTOR)) s
  else
    match fuel with
    | O => NoFuel
    | S fuel =>
        let* n := at_index nodes bspnum in
        let side := P_DivlineSide (Divline.x (strace k)) (Divline.y (strace k)) (node_divline n) in
        let side := if side =? 2 then 0 else side in
        let* '(go, s) := cross_node fuel k (child n side) s in
        if negb go then Ret (false, s)
        else if side =? P_DivlineSide (t2x k) (t2y k) (node_divline n) then Ret (true, s)
        else cross_node fuel k (child n (Z.lxor side 1)) s
    end.
Definition P_CrossBSPNode k (bspnum : Z) s : outcome (bool * sight) := cross_node (length nodes) k bspnum s.

(** ** The line of sight *)
Definition look_from (t1 t2 : Mobj.mobj_t) : look :=
  mk_look (i32 (i32 (Mobj.z t1 + Mobj.height t1) - Z.shiftr (Mobj.height t1) 2))
    (Divline.mk (Mobj.x t1) (Mobj.y t1) (i32 (Mobj.x t2 - Mobj.x t1)) (i32 (Mobj.y t2 - Mobj.y t1))) (Mobj.x t2) (Mobj.y t2).
Definition rejected (s1 s2 : nat) : outcome bool :=
  let pnum := i32 (i32 (Z.of_nat s1 * Z.of_nat (length sectors)) + Z.of_nat s2) in
  let* byte := at_index rejectmatrix (Z.shiftr pnum 3) in
  Ret (has_flag byte (Z.shiftl 1 (Z.land pnum 7))).
Definition P_CheckSight (t1 t2 : Mobj.mobj_t) s : outcome (bool * sight) :=
  let* s1 := of_option (sector_of t1) in
  let* s2 := of_option (sector_of t2) in
  let* r := rejected s1 s2 in
  if r : bool then Ret (false, s <| sightcounts ::= fun c => (i32 (c.1 + 1), c.2) |>)
  else
    let s := s <| sightcounts ::= fun c => (c.1, i32 (c.2 + 1)) |> <| validcount ::= fun v => i32 (v + 1) |> in
    let k := look_from t1 t2 in
    let s := s <| topslope := i32 (i32 (Mobj.z t2 + Mobj.height t2) - sightzstart k) |> <| bottomslope := i32 (Mobj.z t2 - sightzstart k) |> in
    P_CrossBSPNode k (Z.of_nat (length nodes) - 1) s.
End sight.
