(* ===== verification/SightTheorems.v ===== *)
(** * Sight is free when nothing closed is crossed and a window stays open

    The lines that P_CheckSight looks at, in the order of its walk through the
    tree, and a description of its answer that no longer depends on the order. *)
From S2P Require Import Prelude MFixed MBbox MapGeometry GeometryTheorems GameTypes ThingLinks ThingLinkTheorems TraverseTheorems Sight.
#[local] Open Scope doom_scope.

Lemma run_list_app {E X} (f : E -> X -> outcome (bool * X)) l1 l2 : forall s,
  run_list f (l1 ++ l2) s = let* '(go, s) := run_list f l1 s in if go : bool then run_list f l2 s else Ret (false, s).
Proof.
  induction l1 as [|a l1 IH]; intros s; [done|]. cbn [app run_list]. destruct (f a s) as [[go s']| | |]; try done. cbn [obind]. destruct go; [apply IH|done].
Qed.

Section sight.
Context {A : Arch} {bsp : Bsp} {sg : Segs} (sectors : list heights).
Implicit Types (s : sight) (k : look) (seg : seg_t).

(** ** What a line does to the sight *)
Inductive verdict : Set := Open | Closed | Step (low high : option Z).
Definition line_view k (front back : heights) (ld : Geo.line_t) : outcome verdict :=
  if (floorheight front =? floorheight back) && (ceilingheight front =? ceilingheight back) then Ret Open
  else
    let opentop := Z.min (ceilingheight front) (ceilingheight back) in
    let openbottom := Z.max (floorheight front) (floorheight back) in
    if openbottom >=? opentop then Ret Closed
    else
      let* frac := P_InterceptVector2 (strace k) (seg_divline ld) in
      let* low := if floorheight front =? floorheight back then Ret None else let* slope := FixedDiv (i32 (openbottom - sightzstart k)) frac in Ret (Some slope) in
      let* high := if ceilingheight front =? ceilingheight back then Ret None else let* slope := FixedDiv (i32 (opentop - sightzstart k)) frac in Ret (Some slope) in
      Ret (Step low high).
Definition seg_view k (ls : list Geo.line_t) seg : outcome verdict :=
  let* ld := of_option (ls !! linedef seg) in
  if negb (crosses k ld) then Ret Open
  else if bool_decide (Geo.backsector ld = None) || negb (has_flag (Geo.flags ld) ML_TWOSIDED) then Ret Closed
  else
    let* front := of_option (frontsector seg ≫= fun f => sectors !! f) in
    let* back := of_option (backsector seg ≫= fun b => sectors !! b) in
    line_view k front back ld.

(** What lines one after the other do to the window. *)
Definition lowest (low : option Z) (b : Z) : Z := match low with Some l => Z.max b l | None => b end.
Definition highest (high : option Z) (t : Z) : Z := match high with Some h => Z.min t h | None => t end.
Fixpoint sweep (vs : list verdict) (t b : Z) : bool :=
  match vs with
  | [] => true
  | Open :: vs => sweep vs t b
  | Closed :: vs => false
  | Step low high :: vs => if highest high t <=? lowest low b then false else sweep vs (highest high t) (lowest low b)
  end.
(** The same without an order: nothing is closed, and when something is stepped
    over, every lower limit is below every upper limit. *)
Definition lows (vs : list verdict) : list Z := omap (fun v => match v with Step low _ => low | _ => None end) vs.
Definition highs (vs : list verdict) : list Z := omap (fun v => match v with Step _ high => high | _ => None end) vs.
Definition is_step (v : verdict) : Prop := match v with Step _ _ => True | _ => False end.
#[local] Instance is_step_dec v : Decision (is_step v).
Proof. destruct v; apply _. Defined.
Definition clear (vs : list verdict) (t b : Z) : Prop :=
  Closed ∉ vs /\ (Exists is_step vs -> forall x y, x ∈ b :: lows vs -> y ∈ t :: highs vs -> x < y).
Lemma no_steps vs : ~ Exists is_step vs -> lows vs = [] /\ highs vs = [].
Proof.
  induction vs as [|v vs IH]; intros H; [done|]. rewrite Exists_cons in H. destruct v as [| |low high]; [..|exfalso; apply H; by left]; apply IH; tauto.
Qed.
Lemma limits_step low high vs t b :
  (forall x y, x ∈ b :: lows (Step low high :: vs) -> y ∈ t :: highs (Step low high :: vs) -> x < y) <->
  (forall x y, x ∈ lowest low b :: lows vs -> y ∈ highest high t :: highs vs -> x < y).
Proof.
  assert (El : forall x, x ∈ b :: lows (Step low high :: vs) <-> x = b \/ Some x = low \/ x ∈ lows vs).
  { intros x. unfold lows. cbn [omap list_omap]. rewrite elem_of_cons. destruct low; [rewrite elem_of_cons; naive_solver|naive_solver]. }
  assert (Eh : forall x, x ∈ t :: highs (Step low high :: vs) <-> x = t \/ Some x = high \/ x ∈ highs vs).
  { intros x. unfold highs. cbn [omap list_omap]. rewrite elem_of_cons. destruct high; [rewrite elem_of_cons; naive_solver|naive_solver]. }
  setoid_rewrite El. setoid_rewrite Eh. setoid_rewrite elem_of_cons. split; intros H x y Hx Hy.
  - destruct Hx as [->|Hx], Hy as [->|Hy]; destruct low as [l|], high as [h|]; cbn [lowest highest];
      try (pose proof (H b t ltac:(by left) ltac:(by left))); try (pose proof (H b h ltac:(by left) ltac:(by right; left)));
      try (pose proof (H l t ltac:(by right; left) ltac:(by left))); try (pose proof (H l h ltac:(by right; left) ltac:(by right; left)));
      try (pose proof (H x t ltac:(by right; right) ltac:(by left))); try (pose proof (H x h ltac:(by right; right) ltac:(by right; left)));
      try (pose proof (H b y ltac:(by left) ltac:(by right; right))); try (pose proof (H l y ltac:(by right; left) ltac:(by right; right))); try lia; by apply H; right; right.
  - assert (Hx2 : exists x', (x' = lowest low b \/ x' ∈ lows vs) /\ x <= x').
    { destruct Hx as [->|[<-|Hx]]; [exists (lowest low b); split; [by left|destruct low; cbn; lia]|eexists; split; [by left|cbn; lia]|exists x; split; [by right|lia]]. }
    assert (Hy2 : exists y', (y' = highest high t \/ y' ∈ highs vs) /\ y' <= y).
    { destruct Hy as [->|[<-|Hy]]; [exists (highest high t); split; [by left|destruct high; cbn; lia]|eexists; split; [by left|cbn; lia]|exists y; split; [by right|lia]]. }
    destruct Hx2 as (x' & Hx2 & ?), Hy2 as (y' & Hy2 & ?). specialize (H x' y' Hx2 Hy2). lia.
Qed.
Lemma sweep_clear vs : forall t b, sweep vs t b = true <-> clear vs t b.
Proof.
  unfold clear. induction vs as [|v vs IH]; intros t b; cbn [sweep].
  - split; [intros _; split; [by apply not_elem_of_nil|by intros H; inversion H]|done].
  - rewrite not_elem_of_cons, Exists_cons. destruct v as [| |low high].
    + rewrite IH. change (lows (Open :: vs)) with (lows vs). change (highs (Open :: vs)) with (highs vs). cbn [is_step]. naive_solver.
    + split; [done|naive_solver].
    + cbn [is_step]. rewrite limits_step. destruct (highest high t <=? lowest low b) eqn:E; breflect.
      * split; [done|]. intros [_ H]. specialize (H ltac:(by left) (lowest low b) (highest high t) ltac:(left) ltac:(left)). lia.
      * rewrite IH. split; [|naive_solver]. intros [H1 H2]. split; [done|]. intros _. destruct (decide (Exists is_step vs)) as [Hs|Hs]; [by apply H2|].
        destruct (no_steps vs Hs) as [-> ->]. intros x y ->%list_elem_of_singleton ->%list_elem_of_singleton. lia.
Qed.

(** ** One line *)
Lemma fixeddiv_lp64 a b : the_abi = LP64 -> fits_s 32 a -> exists q, FixedDiv a b = Ret q.
Proof.
  intros Hl Ha. destruct (decide (b = 0)) as [->|Hb]; [|by apply fixeddiv_ret]. unfold FixedDiv. rewrite (c_abs_spec a), (c_abs_spec 0) by (try done; by left).
  rewrite Z.geb_leb, (proj2 (Z.leb_le _ _)); [by eexists|]. rewrite Z.shiftr_nonneg. lia.
Qed.
Lemma min_if a b : (if a <? b then a else b) = Z.min a b.
Proof. destruct (a <? b) eqn:E; breflect; lia. Qed.
Lemma max_if a b : (if a >? b then a else b) = Z.max a b.
Proof. destruct (a >? b) eqn:E; breflect; lia. Qed.
(** A state where the sight has gone on to other slopes and marks. *)
Definition sloped s ls t b : sight := s <| lines := ls |> <| topslope := t |> <| bottomslope := b |>.
Lemma intercept_2 v2 v1 : P_InterceptVector2 v2 v1 = P_InterceptVector v2 v1.
Proof. unfold P_InterceptVector2, P_InterceptVector. reflexivity. Qed.
Lemma lower_slope slope s : (if slope >? bottomslope s then s <| bottomslope := slope |> else s) = s <| bottomslope := Z.max (bottomslope s) slope |>.
Proof. destruct s as [ls v t b c]. cbn [bottomslope]. destruct (slope >? b) eqn:E; breflect; unfold set; cbn; f_equal; lia. Qed.
Lemma upper_slope slope s : (if slope <? topslope s then s <| topslope := slope |> else s) = s <| topslope := Z.min (topslope s) slope |>.
Proof. destruct s as [ls v t b c]. cbn [topslope]. destruct (slope <? t) eqn:E; breflect; unfold set; cbn; f_equal; lia. Qed.
Lemma narrow_run k front back ld s : the_abi = LP64 ->
  exists v, line_view k front back ld = Ret v /\ exists t b, narrow k front back ld s = Ret (sweep [v] (topslope s) (bottomslope s), sloped s (lines s) t b) /\
    (forall vs, sweep (v :: vs) (topslope s) (bottomslope s) = if sweep [v] (topslope s) (bottomslope s) then sweep vs t b else false).
Proof.
  intros Hl. unfold line_view, narrow. assert (Es : forall s, s = sloped s (lines s) (topslope s) (bottomslope s)) by (by intros []).
  destruct (_ && _); [exists Open; split; [done|]; exists (topslope s), (bottomslope s); split; [by rewrite <- Es|done]|].
  rewrite min_if, max_if. destruct (_ >=? _); [exists Closed; split; [done|]; exists (topslope s), (bottomslope s); split; [by rewrite <- Es|done]|].
  destruct (intercept_ret (strace k) (seg_divline ld)) as [frac Ef]. rewrite intercept_2, Ef. cbn [obind].
  destruct (fixeddiv_lp64 (i32 (Z.max (floorheight front) (floorheight back) - sightzstart k)) frac Hl ltac:(apply wraps_range; lia)) as [low El].
  destruct (fixeddiv_lp64 (i32 (Z.min (ceilingheight front) (ceilingheight back) - sightzstart k)) frac Hl ltac:(apply wraps_range; lia)) as [high Eh].
  rewrite El, Eh. cbn [obind]. set (lo := if floorheight front =? floorheight back then None else Some low). set (hi := if ceilingheight front =? ceilingheight back then None else Some high).
  exists (Step lo hi). split; [unfold lo, hi; by destruct (floorheight front =? floorheight back), (ceilingheight front =? ceilingheight back)|].
  exists (highest hi (topslope s)), (lowest lo (bottomslope s)). split; [|cbn [sweep]; intros vs; by destruct (_ <=? _)].
  rewrite lower_slope. unfold lo, hi. destruct (floorheight front =? floorheight back), (ceilingheight front =? ceilingheight back); cbn [negb obind highest lowest sweep];
    rewrite ?upper_slope; by destruct s, (_ <=? _).
Qed.

(** What is behind a seg exists. *)
Definition seg_ok (ls : list Geo.line_t) seg : Prop := exists ld, ls !! linedef seg = Some ld /\
  (Geo.backsector ld <> None -> has_flag (Geo.flags ld) ML_TWOSIDED = true ->
   exists f b, frontsector seg = Some f /\ backsector seg = Some b /\ is_Some (sectors !! f) /\ is_Some (sectors !! b)).
Definition seen_in (seen : list nat) s : Prop := forall i ld, lines s !! i = Some ld -> (Geo.validcount ld = validcount s <-> i ∈ seen).
Lemma marked_line_trans l1 l2 l3 : marked_line l1 l2 -> marked_line l2 l3 -> marked_line l1 l3.
Proof. unfold marked_line. intros H1 H2. rewrite H2, H1. by destruct l1. Qed.
Lemma set_mark ls0 ls i ld v : Forall2 marked_line ls0 ls -> ls !! i = Some ld -> Forall2 marked_line ls0 (<[i := ld <| Geo.validcount := v |>]> ls).
Proof.
  intros H E. apply Forall2_same_length_lookup_2; [by rewrite length_insert, (Forall2_length _ _ _ H)|]. intros j x y Hx Hy.
  apply list_lookup_insert_Some in Hy as [(<- & <- & _)|[_ Hy]].
  - destruct (Forall2_lookup_l _ _ _ _ _ H Hx) as (z & Ez & Hz). rewrite E in Ez. injection Ez as ->. apply (marked_line_trans _ z); [done|]. by destruct z.
  - destruct (Forall2_lookup_l _ _ _ _ _ H Hx) as (z & Ez & Hz). rewrite Hy in Ez. injection Ez as ->. exact Hz.
Qed.
Lemma cross_seg_seen k seen s seg : seen_in seen s -> is_Some (lines s !! linedef seg) -> linedef seg ∈ seen -> cross_seg sectors k seg s = Ret (true, s).
Proof. intros Hs [ld E] Hin. unfold cross_seg. rewrite E. cbn [of_option obind]. apply (Hs _ _ E) in Hin. by rewrite (proj2 (Z.eqb_eq _ _) Hin). Qed.
Lemma cross_seg_run k ls0 seen s seg : the_abi = LP64 -> Forall2 marked_line ls0 (lines s) -> seen_in seen s -> seg_ok ls0 seg -> linedef seg ∉ seen ->
  exists v, seg_view k ls0 seg = Ret v /\ exists ls t b, cross_seg sectors k seg s = Ret (sweep [v] (topslope s) (bottomslope s), sloped s ls t b) /\
    Forall2 marked_line ls0 ls /\ seen_in (linedef seg :: seen) (sloped s ls t b) /\
    (forall vs, sweep (v :: vs) (topslope s) (bottomslope s) = if sweep [v] (topslope s) (bottomslope s) then sweep vs t b else false).
Proof.
  intros Hl Hm Hs (ld0 & E0 & Hwall) Hin. destruct (Forall2_lookup_l _ _ _ _ _ Hm E0) as (ld & E & Hld).
  unfold seg_view, cross_seg. rewrite E0, E. cbn [of_option obind]. rewrite (proj2 (Z.eqb_neq _ _)) by (rewrite (Hs _ _ E); done).
  set (ls := <[linedef seg := ld <| Geo.validcount := validcount s |>]> (lines s)).
  assert (H1 : Forall2 marked_line ls0 ls) by (by apply set_mark).
  assert (H2 : forall t b, seen_in (linedef seg :: seen) (sloped s ls t b)).
  { intros t b j x Hx. change (lines (sloped s ls t b)) with ls in Hx. change (validcount (sloped s ls t b)) with (validcount s). rewrite elem_of_cons.
    apply list_lookup_insert_Some in Hx as [(<- & <- & _)|[Hij Hx]]; [cbn; tauto|]. rewrite (Hs j x Hx). split; [by right|intros [->|?]; done]. }
  assert (Ec : crosses k ld = crosses k ld0 /\ Geo.backsector ld = Geo.backsector ld0 /\ Geo.flags ld = Geo.flags ld0 /\ seg_divline ld = seg_divline ld0) by (rewrite Hld; done).
  destruct Ec as (-> & Eb & Efl & Ed). rewrite Eb, Efl.
  assert (Es : s <| lines ::= <[linedef seg := ld <| Geo.validcount := validcount s |>]> |> = sloped s ls (topslope s) (bottomslope s)) by (by destruct s). rewrite Es. clear Es.
  destruct (crosses k ld0); cbn [negb]; [|exists Open; split; [done|]; exists ls, (topslope s), (bottomslope s); split_and!; done].
  destruct (decide (Geo.backsector ld0 = None)) as [Hb|Hb]; [rewrite (bool_decide_eq_true_2 _ Hb)|rewrite (bool_decide_eq_false_2 _ Hb)]; cbn [orb];
    [exists Closed; split; [done|]; exists ls, (topslope s), (bottomslope s); split_and!; done|].
  destruct (has_flag (Geo.flags ld0) ML_TWOSIDED) eqn:Ef; cbn [negb]; [|exists Closed; split; [done|]; exists ls, (topslope s), (bottomslope s); split_and!; done].
  destruct (Hwall Hb eq_refl) as (f & b & Esf & Esb & [front Hf] & [back Hbk]). rewrite Esf, Esb. cbn [mbind option_bind of_option obind]. rewrite Hf, Hbk. cbn [of_option obind].
  destruct (narrow_run k front back ld (sloped s ls (topslope s) (bottomslope s)) Hl) as (v & Ev & t & bt & En & Hsw).
  assert (Ev0 : line_view k front back ld0 = Ret v) by (rewrite <- Ev; unfold line_view; by rewrite Ed).
  exists v. split; [done|]. exists ls, t, bt. split; [rewrite En; by destruct s|]. split_and!; [done|apply H2|exact Hsw].
Qed.

(** ** All lines *)
(** The segs that are the first of their line. *)
Fixpoint firsts (seen : list nat) (l : list seg_t) : list seg_t :=
  match l with [] => [] | seg :: l => if decide (linedef seg ∈ seen) then firsts seen l else seg :: firsts (linedef seg :: seen) l end.
Lemma segs_run k ls0 l : the_abi = LP64 -> Forall (seg_ok ls0) l -> forall seen s, Forall2 marked_line ls0 (lines s) -> seen_in seen s ->
  exists vs, Forall2 (fun seg v => seg_view k ls0 seg = Ret v) (firsts seen l) vs /\
    exists ls t b, run_list (cross_seg sectors k) l s = Ret (sweep vs (topslope s) (bottomslope s), sloped s ls t b) /\ Forall2 marked_line ls0 ls.
Proof.
  intros Hl. induction 1 as [|seg l Hseg _ IH]; intros seen s Hm Hs.
  - exists []. split; [constructor|]. exists (lines s), (topslope s), (bottomslope s). split; [by destruct s|done].
  - cbn [firsts run_list]. destruct (decide (linedef seg ∈ seen)) as [Hin|Hin].
    + destruct Hseg as (ld0 & E0 & _). destruct (Forall2_lookup_l _ _ _ _ _ Hm E0) as (ld & E & _). rewrite (cross_seg_seen k seen s seg Hs ltac:(by exists ld) Hin). cbn [obind]. by apply IH.
    + destruct (cross_seg_run k ls0 seen s seg Hl Hm Hs Hseg Hin) as (v & Ev & ls & t & b & -> & Hm1 & Hs1 & Hsw). cbn [obind].
      destruct (IH (linedef seg :: seen) (sloped s ls t b) Hm1 Hs1) as (vs & Hvs & ls' & t' & b' & Er & Hm2). exists (v :: vs). split; [by constructor|]. rewrite (Hsw vs).
      destruct (sweep [v] _ _); [exists ls', t', b'; split; [rewrite Er; by destruct s|done]|by exists ls, t, b].
Qed.

(** ** The way through the tree *)
Definition leaf (c : Z) : Z := if c =? -1 then 0 else Z.land c (Z.lnot NF_SUBSECTOR).
(** The side of a partition line on which the sight starts; on the line counts as in front. *)
Definition start_side k (n : Node.node_t) : Z :=
  let side := P_DivlineSide (Divline.x (strace k)) (Divline.y (strace k)) (node_divline n) in if side =? 2 then 0 else side.
Definition end_side k (n : Node.node_t) : Z := P_DivlineSide (t2x k) (t2y k) (node_divline n).
(** The subsectors below a child in the order in which the sight passes them. *)
Inductive visits k : Z -> list Z -> Prop :=
| visits_leaf c : has_flag c NF_SUBSECTOR = true -> visits k c [leaf c]
| visits_near i n l : nodes !! i = Some n -> start_side k n = end_side k n -> visits k (child n (start_side k n)) l -> visits k (Z.of_nat i) l
| visits_both i n l1 l2 : nodes !! i = Some n -> start_side k n <> end_side k n ->
    visits k (child n (start_side k n)) l1 -> visits k (child n (Z.lxor (start_side k n) 1)) l2 -> visits k (Z.of_nat i) (l1 ++ l2).
Definition sub_segs (num : Z) : list seg_t :=
  match subsectors !! Z.to_nat num with Some sub => take (Z.to_nat (numlines sub)) (drop (Z.to_nat (firstline sub)) segs) | None => [] end.
(** A map on which sight can be traced. *)
Record sight_ok (ls : list Geo.line_t) : Prop := {
  si_nodes : nodes_ok nodes (Z.of_nat (length subsectors));
  si_subs : Forall (fun sub => 0 <= numlines sub /\ 0 <= firstline sub /\ firstline sub + numlines sub <= Z.of_nat (length segs)) subsectors;
  si_segs : Forall (seg_ok ls) segs
}.
Lemma cross_segs_run k count : forall i s, (i + count <= length segs)%nat -> cross_segs sectors count k (Z.of_nat i) s = run_list (cross_seg sectors k) (take count (drop i segs)) s.
Proof.
  induction count as [|count IH]; intros i s Hi; [done|]. destruct (lookup_lt_is_Some_2 segs i) as [seg E]; [lia|]. rewrite (drop_S _ _ _ E). cbn [cross_segs take run_list].
  unfold at_index. rewrite (proj2 (Z.ltb_ge _ _)), Nat2Z.id, E by lia. cbn [of_option obind]. destruct (cross_seg sectors k seg s) as [[go s']| | |]; try done. cbn [obind].
  destruct go; [|done]. cbn [negb]. replace (Z.of_nat i + 1) with (Z.of_nat (S i)) by lia. apply IH. lia.
Qed.
Lemma subsector_run k ls num s : sight_ok ls -> 0 <= num < Z.of_nat (length subsectors) -> P_CrossSubsector sectors k num s = run_list (cross_seg sectors k) (sub_segs num) s.
Proof.
  intros [_ Hs _] Hn. unfold P_CrossSubsector, sub_segs, at_index. rewrite Z.geb_leb, (proj2 (Z.leb_gt _ _)), (proj2 (Z.ltb_ge num 0)) by lia.
  destruct (lookup_lt_is_Some_2 subsectors (Z.to_nat num)) as [sub E]; [lia|]. rewrite E. cbn [of_option obind]. rewrite Forall_lookup in Hs. destruct (Hs _ _ E) as (H1 & H2 & H3).
  rewrite (proj2 (Z.ltb_ge _ _)) by lia. rewrite <- cross_segs_run by lia. by rewrite Z2Nat.id.
Qed.
Definition below (l : list Z) : list seg_t := mjoin (sub_segs <$> l).
Lemma below_app l1 l2 : below (l1 ++ l2) = below l1 ++ below l2.
Proof. unfold below. by rewrite fmap_app, join_app. Qed.
Lemma leaf_run k ls c s : sight_ok ls -> has_flag c NF_SUBSECTOR = true -> 0 <= leaf c < Z.of_nat (length subsectors) ->
  forall fuel, cross_node sectors fuel k c s = run_list (cross_seg sectors k) (below [leaf c]) s.
Proof.
  intros Hok Hf Hr fuel. unfold below. cbn [fmap list_fmap mjoin list_join]. rewrite app_nil_r, <- (subsector_run k ls) by done. unfold leaf. destruct fuel; cbn [cross_node]; rewrite Hf; by destruct (c =? -1).
Qed.
Lemma node_run k ls : sight_ok ls -> forall fuel i c, child_ok (Z.of_nat (length subsectors)) i c -> (i <= length nodes)%nat -> (i <= fuel)%nat ->
  exists l, visits k c l /\ forall s, cross_node sectors fuel k c s = run_list (cross_seg sectors k) (below l) s.
Proof.
  intros Hok. pose proof (si_nodes _ Hok) as (Hn & Hl & Hc). induction fuel as [|fuel IH]; intros i c [[Hf Hr]|[Hf Hr]] Hi Hfu; try lia.
  1, 2: exists [leaf c]; split; [by constructor|]; intros s; apply (leaf_run k ls); [done|done|]; unfold leaf; destruct (c =? -1) eqn:E; [lia|done].
  destruct (lookup_lt_is_Some_2 nodes (Z.to_nat c)) as [n E]; [lia|]. destruct (Hc _ _ E) as [H1 H2].
  assert (Hch : forall side, child_ok (Z.of_nat (length subsectors)) (Z.to_nat c) (child n side)) by (intros side; unfold child; by destruct (side =? 0)).
  destruct (IH (Z.to_nat c) (child n (start_side k n)) (Hch _)) as (l1 & V1 & R1); [lia|lia|].
  destruct (IH (Z.to_nat c) (child n (Z.lxor (start_side k n) 1)) (Hch _)) as (l2 & V2 & R2); [lia|lia|].
  assert (Estep : forall s, cross_node sectors (S fuel) k c s = let* '(go, s) := run_list (cross_seg sectors k) (below l1) s in
    if negb go then Ret (false, s) else if start_side k n =? end_side k n then Ret (true, s) else run_list (cross_seg sectors k) (below l2) s).
  { intros s. cbn [cross_node]. rewrite Hf. unfold at_index. rewrite (proj2 (Z.ltb_ge _ _)), E by lia. cbn [of_option obind]. cbv zeta. fold (start_side k n). fold (end_side k n). rewrite R1.
    destruct (run_list _ (below l1) s) as [[go s']| | |]; try done. cbn [obind]. destruct (negb go); [done|]. destruct (_ =? _); [done|]. apply R2. }
  rewrite <- (Z2Nat.id c) by lia. destruct (Z.eq_dec (start_side k n) (end_side k n)) as [Es|Es].
  - exists l1. split; [by eapply visits_near|]. intros s. rewrite Z2Nat.id, Estep by lia. rewrite (proj2 (Z.eqb_eq _ _) Es). destruct (run_list _ (below l1) s) as [[go s']| | |]; try done. by destruct go.
  - exists (l1 ++ l2). split; [by eapply visits_both|]. intros s. rewrite Z2Nat.id, Estep, below_app, run_list_app by lia. rewrite (proj2 (Z.eqb_neq _ _) Es).
    destruct (run_list _ (below l1) s) as [[go s']| | |]; try done. by destruct go.
Qed.

(** The reject table has a bit for every pair of sectors. *)
Definition reject_ok : Prop := Z.of_nat (length sectors) <= 2 ^ 15 /\ Z.of_nat (length sectors) * Z.of_nat (length sectors) <= 8 * Z.of_nat (length rejectmatrix).
Lemma rejected_run n1 n2 : reject_ok -> (n1 < length sectors)%nat -> (n2 < length sectors)%nat ->
  exists byte, rejectmatrix !! Z.to_nat ((Z.of_nat n1 * Z.of_nat (length sectors) + Z.of_nat n2) / 8) = Some byte /\
    rejected sectors n1 n2 = Ret (has_flag byte (2 ^ ((Z.of_nat n1 * Z.of_nat (length sectors) + Z.of_nat n2) mod 8))).
Proof.
  intros [Hn Hr] H1 H2. set (n := Z.of_nat (length sectors)) in *. set (p := Z.of_nat n1 * n + Z.of_nat n2). change (2 ^ 15) with 32768 in Hn.
  assert (Hp : 0 <= p < n * n) by (unfold p; nia). assert (Hnn : n * n <= 1073741824) by nia.
  unfold rejected, at_index. fold n. rewrite (wraps_id 32 (Z.of_nat n1 * n)); [|lia|unfold fits_s; change (2 ^ (32 - 1)) with 2147483648; unfold p in Hp; nia]. fold p.
  rewrite wraps_id; [|lia|unfold fits_s; change (2 ^ (32 - 1)) with 2147483648; lia]. rewrite Z.shiftr_div_pow2 by lia. change (2 ^ 3) with 8.
  assert (Hd : 0 <= p / 8 < Z.of_nat (length rejectmatrix)) by (split; [apply Z.div_pos; lia|apply Z.div_lt_upper_bound; lia]).
  rewrite (proj2 (Z.ltb_ge _ _)) by lia. destruct (lookup_lt_is_Some_2 rejectmatrix (Z.to_nat (p / 8))) as [byte E]; [lia|]. rewrite E. exists byte. split; [done|]. cbn [of_option obind].
  rewrite Z.shiftl_mul_pow2, Z.mul_1_l by (apply Z.land_nonneg; lia). change 7 with (Z.ones 3). rewrite Z.land_ones by lia. done.
Qed.
(** No line bears the mark of this call. *)
Definition fresh s : Prop := Forall (fun ld => Geo.validcount ld <> i32 (validcount s + 1)) (lines s).

(** C9: P_CheckSight on a well-formed map, on a 64-bit target. When the bit of the
    two sectors in the reject table is set, the answer is no and nothing is traced.
    Otherwise the sight passes subsectors in the order in which the tree of the map
    has them, and each line in them is judged once, where it is met first. The
    answer is yes exactly when no crossed line is solid or leaves no opening and,
    if the heights differ at one of them, every lower limit of the slope, the foot
    of the target among them, is below every upper limit, its top among them. Only
    marks of lines, slopes and counters change. *)
Theorem P_CheckSight_correct t1 t2 s n1 n2 : the_abi = LP64 -> sight_ok (lines s) -> reject_ok -> fresh s ->
  sector_of t1 = Some n1 -> sector_of t2 = Some n2 -> (n1 < length sectors)%nat -> (n2 < length sectors)%nat ->
  exists r, rejected sectors n1 n2 = Ret r /\
    let k := look_from t1 t2 in
    exists ls t b c, Forall2 marked_line (lines s) ls /\
    if r then P_CheckSight sectors t1 t2 s = Ret (false, s <| sightcounts := c |>)
    else exists l vs, visits k (Z.of_nat (length nodes) - 1) l /\ Forall2 (fun seg v => seg_view k (lines s) seg = Ret v) (firsts [] (below l)) vs /\
      exists answer, P_CheckSight sectors t1 t2 s = Ret (answer, sloped (s <| sightcounts := c |> <| validcount ::= fun v => i32 (v + 1) |>) ls t b) /\
      (answer = true <-> clear vs (i32 (i32 (Mobj.z t2 + Mobj.height t2) - sightzstart k)) (i32 (Mobj.z t2 - sightzstart k))).
Proof.
  intros Hl Hok Hrej Hf E1 E2 H1 H2. destruct (rejected_run n1 n2 Hrej H1 H2) as (byte & _ & Er). eexists. split; [exact Er|]. cbv zeta. set (k := look_from t1 t2).
  unfold P_CheckSight. rewrite E1, E2. cbn [of_option obind]. rewrite Er. cbn [obind]. destruct (has_flag _ _).
  - exists (lines s), 0, 0, (i32 ((sightcounts s).1 + 1), (sightcounts s).2). split; [apply Forall2_same_length_lookup_2; [done|]; intros i x y Hx Hy; rewrite Hx in Hy; injection Hy as <-; by destruct x|].
    by destruct s.
  - fold k. set (st := _ <| bottomslope := _ |>).
    assert (Hroot : exists l, visits k (Z.of_nat (length nodes) - 1) l /\ forall s, cross_node sectors (length nodes) k (Z.of_nat (length nodes) - 1) s = run_list (cross_seg sectors k) (below l) s).
    { pose proof (si_nodes _ Hok) as (Hn & Hln & _). destruct (decide (length nodes = 0%nat)) as [E0|E0].
      - rewrite E0. exists [leaf (-1)]. split; [by apply visits_leaf|]. intros s0. by apply (leaf_run k (lines s)).
      - apply (node_run k (lines s) Hok _ (length nodes)); [|lia|lia]. right. split; [apply no_flag_small; lia|lia]. }
    destruct Hroot as (l & V & R).
    assert (Hm : Forall2 marked_line (lines s) (lines st)).
    { change (lines st) with (lines s). apply Forall2_same_length_lookup_2; [done|]. intros i x y Hx Hy. rewrite Hx in Hy. injection Hy as <-. by destruct x. }
    assert (Hs : seen_in [] st).
    { intros i ld El. pose proof (proj1 (Forall_lookup _ _) Hf i ld El) as Hne. split; [intros H; by destruct Hne|intros H; by apply elem_of_nil in H]. }
    assert (Hsg : Forall (seg_ok (lines s)) (below l)).
    { unfold below. apply Forall_join, Forall_fmap, Forall_true. intros n. cbn. unfold sub_segs. destruct (subsectors !! _); [|constructor]. apply Forall_take, Forall_drop, (si_segs _ Hok). }
    destruct (segs_run k (lines s) (below l) Hl Hsg [] st Hm Hs) as (vs & Hvs & ls & t & b & Erun & Hm').
    exists ls, t, b, ((sightcounts s).1, i32 ((sightcounts s).2 + 1)). split; [done|]. exists l, vs. split; [done|]. split; [done|]. eexists. split.
    + unfold P_CrossBSPNode. rewrite R, Erun. by destruct s.
    + apply sweep_clear.
Qed.
End sight.

(** ** Witness *)
Module SightDemo.
(** A step of 24 units between the two things; one wall that bounds two sectors. *)
Definition stair : Geo.line_t := Geo.mk (mk_vertex (64 * FRACUNIT) (-64 * FRACUNIT)) (mk_vertex (64 * FRACUNIT) (128 * FRACUNIT)) 0 (192 * FRACUNIT) ML_TWOSIDED 0 0 (mk_bbox (128 * FRACUNIT) (-64 * FRACUNIT) (64 * FRACUNIT) (64 * FRACUNIT)) ST_VERTICAL (Some 0%nat) (Some 1%nat) 0.
Definition sg : Segs := {| subsectors := [mk_subsector 1 0; mk_subsector 1 0; mk_subsector 1 0]; segs := [mk_seg 0 (Some 0%nat) (Some 1%nat)]; rejectmatrix := [0] |}.
Definition rooms : list heights := [mk_heights 0 (128 * FRACUNIT); mk_heights (24 * FRACUNIT) (128 * FRACUNIT)].
Definition st : sight := mk_sight [stair] 41 0 0 (0, 0).
Definition looker : Mobj.mobj_t := SmallMap.thing 5 5 0 0 0 0.
Definition seen : Mobj.mobj_t := SmallMap.thing 200 9 0 0 0 0.
Lemma st_ok : sight_ok (bsp := SmallMap.bsp) (sg := sg) rooms (lines st).
Proof.
  split.
  - split; [cbn; lia|]. split; [vm_compute; discriminate|]. intros [|[|i]] node En; [| |discriminate En]; injection En as <-; (split; [|]); vm_compute;
      first [left; split; [reflexivity|split; [discriminate|reflexivity]]|right; split; [reflexivity|split; [discriminate|reflexivity]]].
  - repeat (constructor; [cbn; lia|]). constructor.
  - constructor; [|constructor]. exists stair. split; [reflexivity|]. intros _ _. exists 0%nat, 1%nat. split; [reflexivity|]. split; [reflexivity|]. split; eexists; reflexivity.
Qed.
End SightDemo.
Lemma P_CheckSight_correct_witness : exists vs s', clear vs (i32 (i32 (56 * FRACUNIT) - 42 * FRACUNIT)) (i32 (0 - 42 * FRACUNIT)) /\
  P_CheckSight (A := LP64) (bsp := SmallMap.bsp) (sg := SightDemo.sg) SightDemo.rooms SightDemo.looker SightDemo.seen SightDemo.st = Ret (true, s').
Proof.
  destruct (P_CheckSight_correct (A := LP64) (bsp := SmallMap.bsp) (sg := SightDemo.sg) SightDemo.rooms SightDemo.looker SightDemo.seen SightDemo.st 0%nat 0%nat) as (r & Er & ls & t & b & c & _ & H).
  - reflexivity.
  - exact SightDemo.st_ok.
  - split; vm_compute; discriminate.
  - constructor; [vm_compute; discriminate|constructor].
  - reflexivity.
  - reflexivity.
  - cbn. lia.
  - cbn. lia.
  - vm_compute in Er. injection Er as <-. destruct H as (l & vs & _ & _ & answer & E & Hc). exists vs.
    assert (Ea : exists s', P_CheckSight (A := LP64) (bsp := SmallMap.bsp) (sg := SightDemo.sg) SightDemo.rooms SightDemo.looker SightDemo.seen SightDemo.st = Ret (true, s')) by (eexists; vm_compute; reflexivity).
    destruct Ea as [s' Ea]. exists s'. split; [|exact Ea]. rewrite Ea in E. injection E as <- _. apply (proj1 Hc eq_refl).
Defined.

(** At a horizontal line P_DivlineSide compares x, not y, with the height of the
    line: a point above it is taken to be on it because of its x, and a point on it
    is not. *)
Theorem horizontal_compares_x : let node := Divline.mk 0 (64 * FRACUNIT) FRACUNIT 0 in
  (forall y, P_DivlineSide (64 * FRACUNIT) y node = 2) /\ P_DivlineSide 0 (64 * FRACUNIT) node = 0.
Proof. split; [intros y|]; reflexivity. Qed.
