(* ===== verification/Movement.v ===== *)
(** * Moving things (p_map.c)

    Where a thing may stand (P_CheckPosition), its moves (P_TryMove), the moves of
    teleporters, and what a sector that changes its height and an explosion do to
    the things near it. Attacks and sliding are in Attack.v. *)
From S2P Require Import Prelude MFixed MRandom MBbox MapGeometry DLists GameTypes ThingLinks Sight PathTraverse.
#[local] Open Scope doom_scope.

Definition MF_SPECIAL : Z := 0x1.
Definition MF_SOLID : Z := 0x2.
Definition MF_SHOOTABLE : Z := 0x4.
Definition MF_DROPOFF : Z := 0x400.
Definition MF_PICKUP : Z := 0x800.
Definition MF_NOCLIP : Z := 0x1000.
Definition MF_FLOAT : Z := 0x4000.
Definition MF_TELEPORT : Z := 0x8000.
Definition MF_MISSILE : Z := 0x10000.
Definition MF_DROPPED : Z := 0x20000.
Definition MF_NOBLOOD : Z := 0x80000.
Definition MF_SKULLFLY : Z := 0x1000000.
Definition ML_BLOCKING : Z := 1.
Definition ML_BLOCKMONSTERS : Z := 2.
Definition MT_PLAYER : Z := 0.
Definition MT_BRUISER : Z := 15.
Definition MT_KNIGHT : Z := 17.
Definition MT_SPIDER : Z := 19.
Definition MT_CYBORG : Z := 21.
Definition MT_BLOOD : Z := 38.
Definition S_GIBS : Z := 895.
Definition deh_species_infighting : Z := 0.
Definition MAXRADIUS : Z := 32 * FRACUNIT.
Definition MAXSPECIALCROSS : Z := 20.
Definition MAXSPECIALCROSS_ORIGINAL : Z := 8.

(** A sector with what the module reads of it. *)
Record psector : Type := mk_psector { hts : heights; ceilingpic : Z; secspecial : Z; blockbox : bbox }.

(** The variables of p_map.c, the sectors, the random numbers and the slopes that
    the module shares with p_sight.c. [rest] is what else there is in the game. *)
Record moving (C : Type) : Type := mk_moving {
  tmthing : Z; tmflags : Z; tmx : Z; tmy : Z; tmbbox : bbox; floatok : bool; tmfloorz : Z; tmceilingz : Z; tmdropoffz : Z;
  ceilingline : option nat; spechit : list nat; numspechit : Z; crushchange : Z; nofit : Z;
  sectors : list psector; rnd : rnd_state; topslope : Z; bottomslope : Z; sightcounts : Z * Z; rest : C }.
Arguments mk_moving {C}.
Arguments tmthing {C}.
Arguments tmflags {C}.
Arguments tmx {C}.
Arguments tmy {C}.
Arguments tmbbox {C}.
Arguments floatok {C}.
Arguments tmfloorz {C}.
Arguments tmceilingz {C}.
Arguments tmdropoffz {C}.
Arguments ceilingline {C}.
Arguments spechit {C}.
Arguments numspechit {C}.
Arguments crushchange {C}.
Arguments nofit {C}.
Arguments sectors {C}.
Arguments rnd {C}.
Arguments topslope {C}.
Arguments bottomslope {C}.
Arguments sightcounts {C}.
Arguments rest {C}.
#[export] Instance moving_eta {C} : Eta (moving C) := fun t =>
  mk_moving (tmthing t) (tmflags t) (tmx t) (tmy t) (tmbbox t) (floatok t) (tmfloorz t) (tmceilingz t) (tmdropoffz t)
    (ceilingline t) (spechit t) (numspechit t) (crushchange t) (nofit t) (sectors t) (rnd t) (topslope t) (bottomslope t) (sightcounts t) (rest t).
Abbreviation pworld C := (play (moving C)).

(** The rest of the game: the actions of things and lines, the table of the types
    of things, and the values that a level and the command line have. *)
Class Actions (C : Type) : Type := {
  P_DamageMobj : Z -> Z -> Z -> Z -> pworld C -> outcome (pworld C);
  P_SetMobjState : Z -> Z -> pworld C -> outcome (pworld C);
  P_TouchSpecialThing : Z -> Z -> pworld C -> outcome (pworld C);
  P_CrossSpecialLine : nat -> Z -> Z -> pworld C -> outcome (pworld C);
  P_SpawnMobj : Z -> Z -> Z -> Z -> pworld C -> outcome (Z * pworld C);
  P_RemoveMobj : Z -> pworld C -> outcome (pworld C);
  info_damage : Z -> Z;
  info_spawnstate : Z -> Z;
  gamemap : Z;
  leveltime : pworld C -> Z;
  spechit_base : Z
}.

Section movement.
Context {A : Arch} {bsp : Bsp} {sg : Segs} {bm : Blockmap} {C : Type} {act : Actions C}.
Implicit Types (p : pworld C) (a : Z) (m : Mobj.mobj_t).

Definition on_tm (f : moving C -> moving C) p : pworld C := p <| client ::= f |>.
Definition thing_at a p : outcome Mobj.mobj_t := getm a (pl p).
Definition upd_thing a (f : Mobj.mobj_t -> Mobj.mobj_t) p : outcome (pworld C) :=
  let* m := thing_at a p in Ret (p <| pl ::= fun w => w <| mobjs ::= <[a := f m]> |> |>).
Definition on_pl (f : places -> outcome places) p : outcome (pworld C) := let* w := f (pl p) in Ret (p <| pl := w |>).
Definition draw p : outcome (Z * pworld C) :=
  let* '(r, s) := P_Random (rnd (client p)) in Ret (r, on_tm (fun t => t <| rnd := s |>) p).
(** [((P_Random()%8)+1)*damage] *)
Definition random_damage damage p : outcome (Z * pworld C) :=
  let* '(r, p) := draw p in Ret (i32 ((r mod 8 + 1) * damage), p).

(** ** Blocks *)
Definition zrange (lo hi : Z) : list Z := (fun i => lo + Z.of_nat i) <$> seq 0 (Z.to_nat (hi - lo + 1)).
Definition blocks (xl xh yl yh : Z) : list (Z * Z) := zrange xl xh ≫= fun bx => (fun by_ => (bx, by_)) <$> zrange yl yh.
Fixpoint each_block (f : Z -> Z -> pworld C -> outcome (bool * pworld C)) (l : list (Z * Z)) p : outcome (bool * pworld C) :=
  match l with
  | [] => Ret (true, p)
  | (x, y) :: l => let* '(go, p) := f x y p in if negb go then Ret (false, p) else each_block f l p
  end.
Definition things_of (func : Z -> pworld C -> outcome (bool * pworld C)) (x y : Z) p : outcome (bool * pworld C) := P_BlockThingsIterator (gr p) pl func x y p.
Definition lines_of (func : nat -> pworld C -> outcome (bool * pworld C)) (x y : Z) p : outcome (bool * pworld C) := P_BlockLinesIterator id (fun f p => f p) func x y p.
(** The blocks a box touches, with a margin. *)
Definition box_blocks (margin : Z) p : list (Z * Z) :=
  let b := tmbbox (client p) in let g := gr p in
  blocks (Z.shiftr (i32 (i32 (BOXLEFT b - bmaporgx g) - margin)) MAPBLOCKSHIFT) (Z.shiftr (i32 (i32 (BOXRIGHT b - bmaporgx g) + margin)) MAPBLOCKSHIFT)
    (Z.shiftr (i32 (i32 (BOXBOTTOM b - bmaporgy g) - margin)) MAPBLOCKSHIFT) (Z.shiftr (i32 (i32 (BOXTOP b - bmaporgy g) + margin)) MAPBLOCKSHIFT).

(** ** Where a thing stands *)

(** The start that P_CheckPosition and P_TeleportMove have in common: the box of
    the thing at the new place, and the heights of the sector there. *)
Definition start_check a (x y : Z) p : outcome (pworld C) :=
  let* m := thing_at a p in
  let r := Mobj.radius m in
  let* ss := R_PointInSubsector nodes x y in
  let* s := of_option (ss_sector (ss_at ss)) in
  let* sec := of_option (sectors (client p) !! s) in
  let p := on_tm (fun t => t <| tmthing := a |> <| tmflags := Mobj.flags m |> <| tmx := x |> <| tmy := y |>
    <| tmbbox := mk_bbox (i32 (y + r)) (i32 (y - r)) (i32 (x - r)) (i32 (x + r)) |> <| ceilingline := None |>
    <| tmfloorz := floorheight (hts sec) |> <| tmdropoffz := floorheight (hts sec) |> <| tmceilingz := ceilingheight (hts sec) |> <| spechit := [] |> <| numspechit := 0 |>) p in
  Ret (p <| validcount ::= fun v => i32 (v + 1) |>).
(** Whether a thing overlaps the place that is checked. *)
Definition overlaps m p : outcome bool :=
  let t := client p in
  let* tm := thing_at (tmthing t) p in
  let blockdist := i32 (Mobj.radius m + Mobj.radius tm) in
  Ret (negb ((c_abs (i32 (Mobj.x m - tmx t)) >=? blockdist) || (c_abs (i32 (Mobj.y m - tmy t)) >=? blockdist))).
Definition is_null (o : option Z) : bool := bool_decide (o = None).

Definition SpechitOverrun (i : nat) p : pworld C :=
  let addr := wrapu 32 (spechit_base + Z.of_nat i * 0x3E) in
  on_tm (fun t =>
    let n := numspechit t in
    if n =? 9 then t <| tmbbox ::= fun b => b <| BOXTOP := i32 addr |> |>
    else if n =? 10 then t <| tmbbox ::= fun b => b <| BOXBOTTOM := i32 addr |> |>
    else if n =? 11 then t <| tmbbox ::= fun b => b <| BOXLEFT := i32 addr |> |>
    else if n =? 12 then t <| tmbbox ::= fun b => b <| BOXRIGHT := i32 addr |> |>
    else if n =? 13 then t <| crushchange := i32 addr |>
    else if n =? 14 then t <| nofit := i32 addr |>
    else t) p.
(** The next special line is listed. *)
Definition push_spechit (i : nat) p : outcome (pworld C) :=
  let n := numspechit (client p) in
  if n >=? MAXSPECIALCROSS then Undef
  else
    let p := on_tm (fun t => t <| spechit := take (Z.to_nat n) (spechit t) ++ [i] |> <| numspechit := n + 1 |>) p in
    Ret (if n + 1 >? MAXSPECIALCROSS_ORIGINAL then SpechitOverrun i p else p).
Definition apart (b lb : bbox) : bool :=
  (BOXRIGHT b <=? BOXLEFT lb) || (BOXLEFT b >=? BOXRIGHT lb) || (BOXTOP b <=? BOXBOTTOM lb) || (BOXBOTTOM b >=? BOXTOP lb).
(** Whether a line stops the thing whatever its heights. *)
Definition stops m (ld : Geo.line_t) : bool :=
  bool_decide (Geo.backsector ld = None) ||
  negb (has_flag (Mobj.flags m) MF_MISSILE) && (has_flag (Geo.flags ld) ML_BLOCKING || is_null (Mobj.player m) && has_flag (Geo.flags ld) ML_BLOCKMONSTERS).
(** The heights that are left with an opening. *)
Definition narrow_room (i : nat) (o : opening) (t : moving C) : moving C :=
  let t := if opentop o <? tmceilingz t then t <| tmceilingz := opentop o |> <| ceilingline := Some i |> else t in
  let t := if openbottom o >? tmfloorz t then t <| tmfloorz := openbottom o |> else t in
  if lowfloor o <? tmdropoffz t then t <| tmdropoffz := lowfloor o |> else t.
Definition PIT_CheckLine (i : nat) p : outcome (bool * pworld C) :=
  let* ld := of_option (maplines p !! i) in
  let t := client p in
  if apart (tmbbox t) (Geo.bbox ld) then Ret (true, p)
  else if negb (P_BoxOnLineSide (tmbbox t) ld =? -1) then Ret (true, p)
  else
    let* m := thing_at (tmthing t) p in
    if stops m ld then Ret (false, p)
    else
      let* o := P_LineOpening (hts <$> sectors t) ld (open p) in
      let p := p <| open := o |> in
      let p := on_tm (narrow_room i o) p in
      if negb (Geo.special ld =? 0) then let* p := push_spechit i p in Ret (true, p) else Ret (true, p).

(** A skull slams into a thing. *)
Definition slam a tm p : outcome (bool * pworld C) :=
  let t := tmthing (client p) in
  let* '(damage, p) := random_damage (info_damage (Mobj.info tm)) p in
  let* p := P_DamageMobj a t t damage p in
  let* p := upd_thing t (fun m => m <| Mobj.flags ::= fun f => Z.land f (Z.lnot MF_SKULLFLY) |> <| Mobj.momx := 0 |> <| Mobj.momy := 0 |> <| Mobj.momz := 0 |>) p in
  let* tm := thing_at t p in
  let* p := P_SetMobjState t (info_spawnstate (Mobj.info tm)) p in
  Ret (false, p).
Definition same_species (ty1 ty2 : Z) : bool :=
  (ty1 =? ty2) || (ty1 =? MT_KNIGHT) && (ty2 =? MT_BRUISER) || (ty1 =? MT_BRUISER) && (ty2 =? MT_KNIGHT).
(** A missile that neither passes above nor below the thing; [None]: it hurts it. *)
Definition spared a m tm p : outcome (option bool) :=
  let* kin :=
    if Mobj.target tm =? 0 then Ret false
    else let* src := thing_at (Mobj.target tm) p in Ret (same_species (Mobj.type src) (Mobj.type m)) in
  if kin && (a =? Mobj.target tm) then Ret (Some true)
  else if kin && negb (Mobj.type m =? MT_PLAYER) && (deh_species_infighting =? 0) then Ret (Some false)
  else if negb (has_flag (Mobj.flags m) MF_SHOOTABLE) then Ret (Some (negb (has_flag (Mobj.flags m) MF_SOLID)))
  else Ret None.
Definition missile_hits a m tm p : outcome (bool * pworld C) :=
  if Mobj.z tm >? i32 (Mobj.z m + Mobj.height m) then Ret (true, p)
  else if i32 (Mobj.z tm + Mobj.height tm) <? Mobj.z m then Ret (true, p)
  else
    let* s := spared a m tm p in
    match s with
    | Some go => Ret (go, p)
    | None =>
        let* '(damage, p) := random_damage (info_damage (Mobj.info tm)) p in
        let* p := P_DamageMobj a (tmthing (client p)) (Mobj.target tm) damage p in
        Ret (false, p)
    end.
Definition PIT_CheckThing a p : outcome (bool * pworld C) :=
  let* m := thing_at a p in
  if negb (has_flag (Mobj.flags m) (Z.lor (Z.lor MF_SOLID MF_SPECIAL) MF_SHOOTABLE)) then Ret (true, p)
  else
    let* hit := overlaps m p in
    if negb hit then Ret (true, p)
    else if a =? tmthing (client p) then Ret (true, p)
    else
      let* tm := thing_at (tmthing (client p)) p in
      if has_flag (Mobj.flags tm) MF_SKULLFLY then slam a tm p
      else if has_flag (Mobj.flags tm) MF_MISSILE then missile_hits a m tm p
      else if has_flag (Mobj.flags m) MF_SPECIAL then
        let solid := has_flag (Mobj.flags m) MF_SOLID in
        let* p := if has_flag (tmflags (client p)) MF_PICKUP then P_TouchSpecialThing a (tmthing (client p)) p else Ret p in
        Ret (negb solid, p)
      else Ret (negb (has_flag (Mobj.flags m) MF_SOLID), p).

Definition P_CheckPosition a (x y : Z) p : outcome (bool * pworld C) :=
  let* p := start_check a x y p in
  if has_flag (tmflags (client p)) MF_NOCLIP then Ret (true, p)
  else
    let* '(go, p) := each_block (things_of PIT_CheckThing) (box_blocks MAXRADIUS p) p in
    if negb go then Ret (false, p) else each_block (lines_of PIT_CheckLine) (box_blocks 0 p) p.

(** ** Moves *)

(** The thing leaves its place and is put to where the check was. *)
Definition relocate a (x y : Z) p : outcome (pworld C) :=
  let* p := on_pl (P_UnsetThingPosition (gr p) a) p in
  let* p := upd_thing a (fun m => m <| Mobj.floorz := tmfloorz (client p) |> <| Mobj.ceilingz := tmceilingz (client p) |> <| Mobj.x := x |> <| Mobj.y := y |>) p in
  on_pl (P_SetThingPosition (gr p) a) p.
(** The heights at the new place; sets [floatok]. *)
Definition fits m p : bool * bool :=
  let t := client p in
  if i32 (tmceilingz t - tmfloorz t) <? Mobj.height m then (false, false)
  else
    (true,
     negb (negb (has_flag (Mobj.flags m) MF_TELEPORT) && (i32 (tmceilingz t - Mobj.z m) <? Mobj.height m)) &&
     negb (negb (has_flag (Mobj.flags m) MF_TELEPORT) && (i32 (tmfloorz t - Mobj.z m) >? 24 * FRACUNIT)) &&
     negb (negb (has_flag (Mobj.flags m) (Z.lor MF_DROPOFF MF_FLOAT)) && (i32 (tmfloorz t - tmdropoffz t) >? 24 * FRACUNIT))).
(** The loop over the special lines that were touched, the last one first. *)
Fixpoint cross_specials (fuel : nat) a (oldx oldy : Z) p : outcome (pworld C) :=
  let n := numspechit (client p) in
  let p := on_tm (fun t => t <| numspechit := n - 1 |>) p in
  if n =? 0 then Ret p
  else
    match fuel with
    | O => NoFuel
    | S fuel =>
        let* i := at_index (spechit (client p)) (n - 1) in
        let* ld := of_option (maplines p !! i) in
        let* m := thing_at a p in
        let side := P_PointOnLineSide (Mobj.x m) (Mobj.y m) ld in
        let oldside := P_PointOnLineSide oldx oldy ld in
        let* p := if negb (side =? oldside) && negb (Geo.special ld =? 0) then P_CrossSpecialLine i oldside a p else Ret p in
        cross_specials fuel a oldx oldy p
    end.
Definition P_TryMove a (x y : Z) p : outcome (bool * pworld C) :=
  let p := on_tm (fun t => t <| floatok := false |>) p in
  let* '(go, p) := P_CheckPosition a x y p in
  if negb go then Ret (false, p)
  else
    let* m := thing_at a p in
    let '(float, ok) := if has_flag (Mobj.flags m) MF_NOCLIP then (false, true) else fits m p in
    let p := on_tm (fun t => t <| floatok := float |>) p in
    if negb ok then Ret (false, p)
    else
      let oldx := Mobj.x m in let oldy := Mobj.y m in
      let* p := relocate a x y p in
      let* m := thing_at a p in
      if negb (has_flag (Mobj.flags m) (Z.lor MF_TELEPORT MF_NOCLIP))
      then let* p := cross_specials (Z.to_nat (numspechit (client p))) a oldx oldy p in Ret (true, p)
      else Ret (true, p).

Definition PIT_StompThing a p : outcome (bool * pworld C) :=
  let* m := thing_at a p in
  if negb (has_flag (Mobj.flags m) MF_SHOOTABLE) then Ret (true, p)
  else
    let* hit := overlaps m p in
    if negb hit then Ret (true, p)
    else if a =? tmthing (client p) then Ret (true, p)
    else
      let* tm := thing_at (tmthing (client p)) p in
      if is_null (Mobj.player tm) && negb (gamemap =? 30) then Ret (false, p)
      else let* p := P_DamageMobj a (tmthing (client p)) (tmthing (client p)) 10000 p in Ret (true, p).
Definition P_TeleportMove a (x y : Z) p : outcome (bool * pworld C) :=
  let* p := start_check a x y p in
  let* '(go, p) := each_block (things_of PIT_StompThing) (box_blocks MAXRADIUS p) p in
  if negb go then Ret (false, p) else let* p := relocate a x y p in Ret (true, p).

(** ** Sectors that change their height *)
Definition P_ThingHeightClip a p : outcome (bool * pworld C) :=
  let* m := thing_at a p in
  let onfloor := Mobj.z m =? Mobj.floorz m in
  let* '(_, p) := P_CheckPosition a (Mobj.x m) (Mobj.y m) p in
  let* p := upd_thing a (fun m => m <| Mobj.floorz := tmfloorz (client p) |> <| Mobj.ceilingz := tmceilingz (client p) |>) p in
  let* p := upd_thing a (fun m =>
    if onfloor then m <| Mobj.z := Mobj.floorz m |>
    else if i32 (Mobj.z m + Mobj.height m) >? Mobj.ceilingz m then m <| Mobj.z := i32 (Mobj.ceilingz m - Mobj.height m) |> else m) p in
  let* m := thing_at a p in
  Ret (negb (i32 (Mobj.ceilingz m - Mobj.floorz m) <? Mobj.height m), p).
(** [(P_Random() - P_Random ())<<12], the left one drawn first. *)
Definition random_push p : outcome (Z * pworld C) :=
  let* '(r1, p) := draw p in
  let* '(r2, p) := draw p in
  Ret (i32 (Z.shiftl (r1 - r2) 12), p).
Definition spray a p : outcome (pworld C) :=
  let* p := P_DamageMobj a 0 0 10 p in
  let* m := thing_at a p in
  let* '(mo, p) := P_SpawnMobj (Mobj.x m) (Mobj.y m) (i32 (Mobj.z m + Z.quot (Mobj.height m) 2)) MT_BLOOD p in
  let* '(v, p) := random_push p in
  let* p := upd_thing mo (fun m => m <| Mobj.momx := v |>) p in
  let* '(v, p) := random_push p in
  upd_thing mo (fun m => m <| Mobj.momy := v |>) p.
Definition PIT_ChangeSector a p : outcome (bool * pworld C) :=
  let* '(ok, p) := P_ThingHeightClip a p in
  if ok then Ret (true, p)
  else
    let* m := thing_at a p in
    if Mobj.health m <=? 0 then
      let* p := P_SetMobjState a S_GIBS p in
      let* p := upd_thing a (fun m => m <| Mobj.flags ::= fun f => Z.land f (Z.lnot MF_SOLID) |> <| Mobj.height := 0 |> <| Mobj.radius := 0 |>) p in
      Ret (true, p)
    else if has_flag (Mobj.flags m) MF_DROPPED then let* p := P_RemoveMobj a p in Ret (true, p)
    else if negb (has_flag (Mobj.flags m) MF_SHOOTABLE) then Ret (true, p)
    else
      let p := on_tm (fun t => t <| nofit := 1 |>) p in
      if negb (crushchange (client p) =? 0) && (Z.land (leveltime p) 3 =? 0)
      then let* p := spray a p in Ret (true, p) else Ret (true, p).
Definition P_ChangeSector (sector : nat) (crunch : Z) p : outcome (Z * pworld C) :=
  let p := on_tm (fun t => t <| nofit := 0 |> <| crushchange := crunch |>) p in
  let* sec := of_option (sectors (client p) !! sector) in
  let b := blockbox sec in
  let* '(_, p) := each_block (fun x y p => let* '(_, p) := things_of PIT_ChangeSector x y p in Ret (true, p)) (blocks (BOXLEFT b) (BOXRIGHT b) (BOXBOTTOM b) (BOXTOP b)) p in
  Ret (nofit (client p), p).

(** ** Explosions *)

(** P_CheckSight on the shared state. *)
Definition check_sight a b p : outcome (bool * pworld C) :=
  let* t1 := thing_at a p in
  let* t2 := thing_at b p in
  let t := client p in
  let* '(r, s) := P_CheckSight (hts <$> sectors t) t1 t2 (mk_sight (maplines p) (validcount p) (topslope t) (bottomslope t) (sightcounts t)) in
  Ret (r, on_tm (fun t => t <| topslope := Sight.topslope s |> <| bottomslope := Sight.bottomslope s |> <| sightcounts := Sight.sightcounts s |>)
            (p <| maplines := Sight.lines s |> <| validcount := Sight.validcount s |>)).
Definition PIT_RadiusAttack (bombspot bombsource bombdamage : Z) a p : outcome (bool * pworld C) :=
  let* m := thing_at a p in
  if negb (has_flag (Mobj.flags m) MF_SHOOTABLE) then Ret (true, p)
  else if (Mobj.type m =? MT_CYBORG) || (Mobj.type m =? MT_SPIDER) then Ret (true, p)
  else
    let* spot := thing_at bombspot p in
    let dx := i32 (c_abs (i32 (Mobj.x m - Mobj.x spot))) in
    let dy := i32 (c_abs (i32 (Mobj.y m - Mobj.y spot))) in
    let dist := if dx >? dy then dx else dy in
    let dist := Z.shiftr (i32 (dist - Mobj.radius m)) FRACBITS in
    let dist := if dist <? 0 then 0 else dist in
    if dist >=? bombdamage then Ret (true, p)
    else
      let* '(seen, p) := check_sight a bombspot p in
      if seen : bool then let* p := P_DamageMobj a bombspot bombsource (i32 (bombdamage - dist)) p in Ret (true, p) else Ret (true, p).
Definition radius_dist (damage : Z) : Z := i32 (Z.shiftl (i32 (damage + MAXRADIUS)) FRACBITS).
Definition P_RadiusAttack (spot source damage : Z) p : outcome (pworld C) :=
  let* m := thing_at spot p in
  let dist := radius_dist damage in
  let g := gr p in
  let yh := Z.shiftr (i32 (i32 (Mobj.y m + dist) - bmaporgy g)) MAPBLOCKSHIFT in
  let yl := Z.shiftr (i32 (i32 (Mobj.y m - dist) - bmaporgy g)) MAPBLOCKSHIFT in
  let xh := Z.shiftr (i32 (i32 (Mobj.x m + dist) - bmaporgx g)) MAPBLOCKSHIFT in
  let xl := Z.shiftr (i32 (i32 (Mobj.x m - dist) - bmaporgx g)) MAPBLOCKSHIFT in
  let* '(_, p) := each_block (fun y x p => let* '(_, p) := things_of (PIT_RadiusAttack spot source damage) x y p in Ret (true, p)) (blocks yl yh xl xh) p in
  Ret p.
End movement.
