(* ===== verification/Attack.v ===== *)
(** * Sliding, shooting and using (p_map.c)

    What follows a trace through the map: players that slide along walls, aim and
    shoot, and use lines. *)
From S2P Require Import Prelude MFixed MRandom MBbox MapGeometry DLists GameTypes ThingLinks Sight PathTraverse Movement.
#[local] Open Scope doom_scope.

Definition USERANGE : Z := 64 * FRACUNIT.
Definition ANG180 : Z := 0x80000000.
Definition ANGLETOFINESHIFT : Z := 19.

(** The variables of the second half of p_map.c. *)
Record attack (C : Type) : Type := mk_attack {
  bestslidefrac : Z; secondslidefrac : Z; bestslideline : option nat; secondslideline : option nat; slidemo : Z; tmxmove : Z; tmymove : Z;
  linetarget : Z; shootthing : Z; shootz : Z; la_damage : Z; attackrange : Z; aimslope : Z; usething : Z; other : C }.
Arguments mk_attack {C}.
Arguments bestslidefrac {C}.
Arguments secondslidefrac {C}.
Arguments bestslideline {C}.
Arguments secondslideline {C}.
Arguments slidemo {C}.
Arguments tmxmove {C}.
Arguments tmymove {C}.
Arguments linetarget {C}.
Arguments shootthing {C}.
Arguments shootz {C}.
Arguments la_damage {C}.
Arguments attackrange {C}.
Arguments aimslope {C}.
Arguments usething {C}.
Arguments other {C}.
#[export] Instance attack_eta {C} : Eta (attack C) := fun t =>
  mk_attack (bestslidefrac t) (secondslidefrac t) (bestslideline t) (secondslideline t) (slidemo t) (tmxmove t) (tmymove t)
    (linetarget t) (shootthing t) (shootz t) (la_damage t) (attackrange t) (aimslope t) (usething t) (other t).
Abbreviation aworld C := (pworld (attack C)).

(** The tables of angles, and the actions of other modules. *)
Class Shots (C : Type) : Type := {
  finesine : Z -> Z;
  finecosine : Z -> Z;
  R_PointToAngle2 : Z -> Z -> Z -> Z -> Z;
  skyflatnum : Z;
  dummy_mobj : Z;
  P_ShootSpecialLine : Z -> nat -> aworld C -> outcome (aworld C);
  P_UseSpecialLine : Z -> nat -> Z -> aworld C -> outcome (aworld C);
  P_SpawnPuff : Z -> Z -> Z -> aworld C -> outcome (aworld C);
  P_SpawnBlood : Z -> Z -> Z -> Z -> aworld C -> outcome (aworld C);
  sound_noway : Z -> aworld C -> aworld C
}.

Section attack.
Context {A : Arch} {bsp : Bsp} {sg : Segs} {bm : Blockmap} {C : Type} {act : Actions (attack C)} {shots : Shots C}.
Implicit Types (p : aworld C) (a : Z) (m : Mobj.mobj_t) (i : intercept_t).

Definition on_at (f : attack C -> attack C) p : aworld C := on_tm (fun t => t <| rest ::= f |>) p.
Definition at_ p : attack C := rest (client p).
Definition line_of (n : nat) p : outcome Geo.line_t := of_option (maplines p !! n).
Definition opening_of (ld : Geo.line_t) p : outcome (aworld C) :=
  let* o := P_LineOpening (hts <$> sectors (client p)) ld (open p) in Ret (p <| open := o |>).
Definition front_of (ld : Geo.line_t) p : outcome psector := let* f := of_option (Geo.frontsector ld) in of_option (sectors (client p) !! f).
Definition back_of (ld : Geo.line_t) p : outcome (option psector) :=
  match Geo.backsector ld with None => Ret None | Some b => let* s := of_option (sectors (client p) !! b) in Ret (Some s) end.

(** ** Sliding *)
Definition P_HitSlideLine (ld : Geo.line_t) p : outcome (aworld C) :=
  match Geo.slopetype ld with
  | ST_HORIZONTAL => Ret (on_at (fun t => t <| tmymove := 0 |>) p)
  | ST_VERTICAL => Ret (on_at (fun t => t <| tmxmove := 0 |>) p)
  | _ =>
      let t := at_ p in
      let* m := thing_at (slidemo t) p in
      let side := P_PointOnLineSide (Mobj.x m) (Mobj.y m) ld in
      let lineangle := R_PointToAngle2 0 0 (Geo.dx ld) (Geo.dy ld) in
      let lineangle := if side =? 1 then wrapu 32 (lineangle + ANG180) else lineangle in
      let moveangle := R_PointToAngle2 0 0 (tmxmove t) (tmymove t) in
      let deltaangle := wrapu 32 (moveangle - lineangle) in
      let deltaangle := if deltaangle >? ANG180 then wrapu 32 (deltaangle + ANG180) else deltaangle in
      let lineangle := Z.shiftr lineangle ANGLETOFINESHIFT in
      let deltaangle := Z.shiftr deltaangle ANGLETOFINESHIFT in
      let movelen := P_AproxDistance (tmxmove t) (tmymove t) in
      let newlen := FixedMul movelen (finecosine deltaangle) in
      Ret (on_at (fun t => t <| tmxmove := FixedMul newlen (finecosine lineangle) |> <| tmymove := FixedMul newlen (finesine lineangle) |>) p)
  end.
(** Whether a two-sided line lets the sliding thing through. *)
Definition slides_through (o : opening) m : bool :=
  negb ((openrange o <? Mobj.height m) || (i32 (opentop o - Mobj.z m) <? Mobj.height m) || (i32 (openbottom o - Mobj.z m) >? 24 * FRACUNIT)).
Definition is_blocking (f : Z) (n : nat) p : outcome (bool * aworld C) :=
  Ret (false, on_at (fun t => if f <? bestslidefrac t
    then t <| secondslidefrac := bestslidefrac t |> <| secondslideline := bestslideline t |> <| bestslidefrac := f |> <| bestslideline := Some n |> else t) p).
Definition PTR_SlideTraverse (trace : Divline.divline_t) i p : outcome (bool * aworld C) :=
  match d i with
  | AThing _ => Fatal "PTR_SlideTraverse: not a line?"
  | ALine n =>
      let* li := line_of n p in
      let* m := thing_at (slidemo (at_ p)) p in
      if negb (has_flag (Geo.flags li) ML_TWOSIDED) then
        if negb (P_PointOnLineSide (Mobj.x m) (Mobj.y m) li =? 0) then Ret (true, p) else is_blocking (frac i) n p
      else
        let* p := opening_of li p in
        if slides_through (open p) m then Ret (true, p) else is_blocking (frac i) n p
  end.
Definition slide_trace (x y : Z) m p : outcome (aworld C) :=
  let* '(_, p) := P_PathTraverse x y (i32 (x + Mobj.momx m)) (i32 (y + Mobj.momy m)) PT_ADDLINES PTR_SlideTraverse p in Ret p.
Definition stairstep mo p : outcome (aworld C) :=
  let* m := thing_at mo p in
  let* '(ok, p) := P_TryMove mo (Mobj.x m) (i32 (Mobj.y m + Mobj.momy m)) p in
  if ok : bool then Ret p
  else
    let* m := thing_at mo p in
    let* '(_, p) := P_TryMove mo (i32 (Mobj.x m + Mobj.momx m)) (Mobj.y m) p in Ret p.
(** The way up to the wall; whether it was free. *)
Definition move_up_to mo p : outcome (bool * aworld C) :=
  let best := bestslidefrac (at_ p) in
  if best >? 0 then
    let* m := thing_at mo p in
    P_TryMove mo (i32 (Mobj.x m + FixedMul (Mobj.momx m) best)) (i32 (Mobj.y m + FixedMul (Mobj.momy m) best)) p
  else Ret (true, p).
(** The rest of the move along the wall: [None] when nothing is left of it,
    otherwise whether it was free. *)
Definition move_along mo p : outcome (option bool * aworld C) :=
  let p := on_at (fun t => t <| bestslidefrac ::= fun f => i32 (FRACUNIT - i32 (f + 0x800)) |>) p in
  let p := on_at (fun t => if bestslidefrac t >? FRACUNIT then t <| bestslidefrac := FRACUNIT |> else t) p in
  let best := bestslidefrac (at_ p) in
  if best <=? 0 then Ret (None, p)
  else
    let* m := thing_at mo p in
    let p := on_at (fun t => t <| tmxmove := FixedMul (Mobj.momx m) best |> <| tmymove := FixedMul (Mobj.momy m) best |>) p in
    let* n := of_option (bestslideline (at_ p)) in
    let* li := line_of n p in
    let* p := P_HitSlideLine li p in
    let* p := upd_thing mo (fun m => m <| Mobj.momx := tmxmove (at_ p) |> <| Mobj.momy := tmymove (at_ p) |>) p in
    let* m := thing_at mo p in
    let* '(ok, p) := P_TryMove mo (i32 (Mobj.x m + tmxmove (at_ p))) (i32 (Mobj.y m + tmymove (at_ p))) p in
    Ret (Some ok, p).
(** The three corners in front. *)
Definition corners m : (Z * Z) * (Z * Z) :=
  let r := Mobj.radius m in
  ((if Mobj.momx m >? 0 then (i32 (Mobj.x m + r), i32 (Mobj.x m - r)) else (i32 (Mobj.x m - r), i32 (Mobj.x m + r))),
   (if Mobj.momy m >? 0 then (i32 (Mobj.y m + r), i32 (Mobj.y m - r)) else (i32 (Mobj.y m - r), i32 (Mobj.y m + r)))).
Fixpoint slide (tries : nat) mo p : outcome (aworld C) :=
  match tries with
  | O => stairstep mo p
  | S tries =>
      let* m := thing_at mo p in
      let '((leadx, trailx), (leady, traily)) := corners m in
      let p := on_at (fun t => t <| bestslidefrac := FRACUNIT + 1 |>) p in
      let* p := slide_trace leadx leady m p in
      let* p := slide_trace trailx leady m p in
      let* p := slide_trace leadx traily m p in
      if bestslidefrac (at_ p) =? FRACUNIT + 1 then stairstep mo p
      else
        let p := on_at (fun t => t <| bestslidefrac ::= fun f => i32 (f - 0x800) |>) p in
        let* '(ok, p) := move_up_to mo p in
        if negb ok then stairstep mo p
        else
          let* '(r, p) := move_along mo p in
          match r with Some false => slide tries mo p | _ => Ret p end
  end.
Definition P_SlideMove mo p : outcome (aworld C) := slide 2 mo (on_at (fun t => t <| slidemo := mo |>) p).

(** ** Aiming *)

(** A slope where the trace is [f] of its length away. *)
Definition slope_to (z f : Z) p : outcome Z := FixedDiv (i32 (z - shootz (at_ p))) (FixedMul (attackrange (at_ p)) f).
Definition floors_differ (front : psector) (back : option psector) : bool :=
  match back with None => true | Some b => negb (floorheight (hts front) =? floorheight (hts b)) end.
Definition ceilings_differ (front : psector) (back : option psector) : bool :=
  match back with None => true | Some b => negb (ceilingheight (hts front) =? ceilingheight (hts b)) end.
Definition aim_line (li : Geo.line_t) (f : Z) p : outcome (bool * aworld C) :=
  if negb (has_flag (Geo.flags li) ML_TWOSIDED) then Ret (false, p)
  else
    let* p := opening_of li p in
    if openbottom (open p) >=? opentop (open p) then Ret (false, p)
    else
      let* front := front_of li p in
      let* back := back_of li p in
      let* p :=
        if floors_differ front back
        then let* slope := slope_to (openbottom (open p)) f p in
             Ret (on_tm (fun t => if slope >? bottomslope t then t <| bottomslope := slope |> else t) p)
        else Ret p in
      let* p :=
        if ceilings_differ front back
        then let* slope := slope_to (opentop (open p)) f p in
             Ret (on_tm (fun t => if slope <? topslope t then t <| topslope := slope |> else t) p)
        else Ret p in
      Ret (negb (topslope (client p) <=? bottomslope (client p)), p).
Definition aim_thing a (f : Z) p : outcome (bool * aworld C) :=
  if a =? shootthing (at_ p) then Ret (true, p)
  else
    let* th := thing_at a p in
    if negb (has_flag (Mobj.flags th) MF_SHOOTABLE) then Ret (true, p)
    else
      let* thingtopslope := slope_to (i32 (Mobj.z th + Mobj.height th)) f p in
      if thingtopslope <? bottomslope (client p) then Ret (true, p)
      else
        let* thingbottomslope := slope_to (Mobj.z th) f p in
        if thingbottomslope >? topslope (client p) then Ret (true, p)
        else
          let hi := if thingtopslope >? topslope (client p) then topslope (client p) else thingtopslope in
          let lo := if thingbottomslope <? bottomslope (client p) then bottomslope (client p) else thingbottomslope in
          Ret (false, on_at (fun t => t <| aimslope := Z.quot (i32 (hi + lo)) 2 |> <| linetarget := a |>) p).
Definition PTR_AimTraverse (trace : Divline.divline_t) i p : outcome (bool * aworld C) :=
  match d i with
  | ALine n => let* li := line_of n p in aim_line li (frac i) p
  | AThing a => aim_thing a (frac i) p
  end.

(** ** Shooting *)
Definition shot_at (trace : Divline.divline_t) (f : Z) p : Z * Z * Z :=
  let t := at_ p in
  (i32 (Divline.x trace + FixedMul (Divline.dx trace) f), i32 (Divline.y trace + FixedMul (Divline.dy trace) f), i32 (shootz t + FixedMul (aimslope t) (FixedMul f (attackrange t)))).
(** The shot ends at a line. *)
Definition hit_line (trace : Divline.divline_t) (li : Geo.line_t) (f : Z) p : outcome (bool * aworld C) :=
  let* q := FixedDiv (4 * FRACUNIT) (attackrange (at_ p)) in
  let '(x, y, z) := shot_at trace (i32 (f - q)) p in
  let* front := front_of li p in
  let* back := back_of li p in
  if (ceilingpic front =? skyflatnum) &&
     ((z >? ceilingheight (hts front)) || match back with Some b => ceilingpic b =? skyflatnum | None => false end)
  then Ret (false, p)
  else let* p := P_SpawnPuff x y z p in Ret (false, p).
(** Whether the shot goes through the opening of a two-sided line. *)
Definition through_line (li : Geo.line_t) (f : Z) p : outcome bool :=
  let* front := front_of li p in
  let* back := back_of li p in
  let* below :=
    if floors_differ front back then let* slope := slope_to (openbottom (open p)) f p in Ret (slope >? aimslope (at_ p)) else Ret false in
  if below : bool then Ret false
  else
    let* above :=
      if ceilings_differ front back then let* slope := slope_to (opentop (open p)) f p in Ret (slope <? aimslope (at_ p)) else Ret false in
    Ret (negb above).
Definition shoot_line (trace : Divline.divline_t) (n : nat) (f : Z) p : outcome (bool * aworld C) :=
  let* li := line_of n p in
  let* p := if negb (Geo.special li =? 0) then P_ShootSpecialLine (shootthing (at_ p)) n p else Ret p in
  let* li := line_of n p in
  if negb (has_flag (Geo.flags li) ML_TWOSIDED) then hit_line trace li f p
  else
    let* p := opening_of li p in
    let* free := through_line li f p in
    if free : bool then Ret (true, p) else hit_line trace li f p.
Definition shoot_thing (trace : Divline.divline_t) a (f : Z) p : outcome (bool * aworld C) :=
  let t := at_ p in
  if a =? shootthing t then Ret (true, p)
  else
    let* th := thing_at a p in
    if negb (has_flag (Mobj.flags th) MF_SHOOTABLE) then Ret (true, p)
    else
      let* thingtopslope := slope_to (i32 (Mobj.z th + Mobj.height th)) f p in
      if thingtopslope <? aimslope t then Ret (true, p)
      else
        let* thingbottomslope := slope_to (Mobj.z th) f p in
        if thingbottomslope >? aimslope t then Ret (true, p)
        else
          let* q := FixedDiv (10 * FRACUNIT) (attackrange t) in
          let '(x, y, z) := shot_at trace (i32 (f - q)) p in
          let* p := if has_flag (Mobj.flags th) MF_NOBLOOD then P_SpawnPuff x y z p else P_SpawnBlood x y z (la_damage t) p in
          let* p := if negb (la_damage (at_ p) =? 0) then P_DamageMobj a (shootthing (at_ p)) (shootthing (at_ p)) (la_damage (at_ p)) p else Ret p in
          Ret (false, p).
Definition PTR_ShootTraverse (trace : Divline.divline_t) i p : outcome (bool * aworld C) :=
  match d i with ALine n => shoot_line trace n (frac i) p | AThing a => shoot_thing trace a (frac i) p end.

(** Where a trace of a length in the direction of an angle ends. *)
Definition aim_end (m : Mobj.mobj_t) (angle distance : Z) : Z * Z :=
  let an := Z.shiftr angle ANGLETOFINESHIFT in
  (i32 (Mobj.x m + i32 (Z.shiftr distance FRACBITS * finecosine an)), i32 (Mobj.y m + i32 (Z.shiftr distance FRACBITS * finesine an))).
Definition shoot_height m : Z := i32 (i32 (Mobj.z m + Z.shiftr (Mobj.height m) 1) + 8 * FRACUNIT).
Definition P_SubstNullMobj a p : outcome (Z * aworld C) :=
  if a =? 0 then let* p := upd_thing dummy_mobj (fun m => m <| Mobj.x := 0 |> <| Mobj.y := 0 |> <| Mobj.z := 0 |> <| Mobj.flags := 0 |>) p in Ret (dummy_mobj, p)
  else Ret (a, p).
Definition P_AimLineAttack a (angle distance : Z) p : outcome (Z * aworld C) :=
  let* '(a, p) := P_SubstNullMobj a p in
  let* m := thing_at a p in
  let '(x2, y2) := aim_end m angle distance in
  let p := on_at (fun t => t <| shootthing := a |> <| shootz := shoot_height m |> <| attackrange := distance |> <| linetarget := 0 |>) p in
  let p := on_tm (fun t => t <| topslope := Z.quot (100 * FRACUNIT) 160 |> <| bottomslope := Z.quot (-100 * FRACUNIT) 160 |>) p in
  let* '(_, p) := P_PathTraverse (Mobj.x m) (Mobj.y m) x2 y2 (Z.lor PT_ADDLINES PT_ADDTHINGS) PTR_AimTraverse p in
  Ret (if negb (linetarget (at_ p) =? 0) then aimslope (at_ p) else 0, p).
Definition P_LineAttack a (angle distance slope damage : Z) p : outcome (aworld C) :=
  let* m := thing_at a p in
  let '(x2, y2) := aim_end m angle distance in
  let p := on_at (fun t => t <| shootthing := a |> <| la_damage := damage |> <| shootz := shoot_height m |> <| attackrange := distance |> <| aimslope := slope |>) p in
  let* '(_, p) := P_PathTraverse (Mobj.x m) (Mobj.y m) x2 y2 (Z.lor PT_ADDLINES PT_ADDTHINGS) PTR_ShootTraverse p in
  Ret p.

(** ** Using lines *)
Definition PTR_UseTraverse (trace : Divline.divline_t) i p : outcome (bool * aworld C) :=
  match d i with
  | AThing _ => Undef
  | ALine n =>
      let* li := line_of n p in
      if Geo.special li =? 0 then
        let* p := opening_of li p in
        if openrange (open p) <=? 0 then Ret (false, sound_noway (usething (at_ p)) p) else Ret (true, p)
      else
        let* m := thing_at (usething (at_ p)) p in
        let side := if P_PointOnLineSide (Mobj.x m) (Mobj.y m) li =? 1 then 1 else 0 in
        let* p := P_UseSpecialLine (usething (at_ p)) n side p in
        Ret (false, p)
  end.
(** [mo]: the thing of the player. *)
Definition P_UseLines mo p : outcome (aworld C) :=
  let p := on_at (fun t => t <| usething := mo |>) p in
  let* m := thing_at mo p in
  let '(x2, y2) := aim_end m (Mobj.angle m) USERANGE in
  let* '(_, p) := P_PathTraverse (Mobj.x m) (Mobj.y m) x2 y2 PT_ADDLINES PTR_UseTraverse p in
  Ret p.
End attack.
