(* ===== verification/MovementTheorems.v ===== *)
(** * Where a thing may stand, and how it gets there

    P_CheckPosition for a thing that overlaps nothing it would pick up, slam into or
    hit ([quiet]) only looks: it says whether a solid thing or a blocking line is in
    the way, and computes the heights that are left. P_TryMove moves the thing when
    it fits. *)
From S2P Require Import Prelude MFixed MRandom MBbox MapGeometry GeometryTheorems DLists GameTypes ThingLinks ThingLinkTheorems Sight PathTraverse TraverseTheorems SightTheorems Movement.
#[local] Open Scope doom_scope.

Section movement.
Context {A : Arch} {bsp : Bsp} {sg : Segs} {bm : Blockmap} {C : Type} {act : Actions C}.
Implicit Types (p : pworld C) (a : Z) (m : Mobj.mobj_t) (ld : Geo.line_t).

(** ** What a line leaves *)
Definition floor_of (hs : list heights) (o : option nat) : Z := default 0 (floorheight <$> (o ≫= fun f => hs !! f)).
Definition ceiling_of (hs : list heights) (o : option nat) : Z := default 0 (ceilingheight <$> (o ≫= fun f => hs !! f)).
Definition line_bottom hs ld : Z := Z.max (floor_of hs (Geo.frontsector ld)) (floor_of hs (Geo.backsector ld)).
Definition line_low hs ld : Z := Z.min (floor_of hs (Geo.frontsector ld)) (floor_of hs (Geo.backsector ld)).
Definition line_top hs ld : Z := Z.min (ceiling_of hs (Geo.frontsector ld)) (ceiling_of hs (Geo.backsector ld)).
Definition opening_ok (hs : list heights) ld : Prop := Geo.backsector ld <> None -> Geo.sidenum1 ld <> -1 /\
  is_Some (Geo.frontsector ld ≫= fun f => hs !! f) /\ is_Some (Geo.backsector ld ≫= fun f => hs !! f).
Lemma LineOpening_run hs ld o : opening_ok hs ld -> Geo.backsector ld <> None -> exists r, P_LineOpening hs ld o = Ret (mk_opening (line_top hs ld) (line_bottom hs ld) r (line_low hs ld)).
Proof.
  intros Ho Hb. destruct (Ho Hb) as (Hs & [front Hf] & [back Hbk]). exists (i32 (line_top hs ld - line_bottom hs ld)). unfold P_LineOpening, line_top, line_bottom, line_low, floor_of, ceiling_of. rewrite (proj2 (Z.eqb_neq _ _) Hs), Hf, Hbk.
  destruct (Geo.frontsector ld) as [f|]; [|done]. destruct (Geo.backsector ld) as [b|]; [|done]. cbn [mbind option_bind of_option obind] in *. rewrite Hf. cbn [of_option obind]. rewrite Hbk. cbn [of_option obind fmap option_fmap default id].
  f_equal. destruct o as [o1 o2 o3 o4]. cbn. rewrite min_if. destruct (floorheight front >? floorheight back) eqn:E; breflect; cbn; [rewrite Z.max_l, (Z.min_r (floorheight front)) by lia|rewrite Z.max_r, (Z.min_l (floorheight front)) by lia]; done.
Qed.

(** ** The lines that are touched *)
Definition touches (box : bbox) ld : bool := negb (apart box (Geo.bbox ld)) && (P_BoxOnLineSide box ld =? -1).
(** A line without its mark. *)
Definition bare ld : Geo.line_t := ld <| Geo.validcount := 0 |>.
Definition touched (box : bbox) (ls : list Geo.line_t) (idx : list nat) : list (nat * Geo.line_t) :=
  omap (fun i => ld ← ls !! i; if touches box ld then Some (i, bare ld) else None) idx.
Definition specials (T : list (nat * Geo.line_t)) : list nat := (filter (fun il => Geo.special il.2 <> 0) T).*1.
(** What the touched lines do to the heights and the list of special lines. *)
Definition room hs (T : list (nat * Geo.line_t)) (cl : option nat) (t : moving C) : moving C :=
  t <| tmfloorz := foldl Z.max (tmfloorz t) (line_bottom hs <$> T.*2) |> <| tmceilingz := foldl Z.min (tmceilingz t) (line_top hs <$> T.*2) |>
    <| tmdropoffz := foldl Z.min (tmdropoffz t) (line_low hs <$> T.*2) |> <| ceilingline := cl |>
    <| spechit := spechit t ++ specials T |> <| numspechit := numspechit t + Z.of_nat (length (specials T)) |>.
Definition roomed hs p p' T : Prop := exists lns o cl, Forall2 marked_line (maplines p) lns /\
  p' = p <| maplines := lns |> <| open := o |> <| client ::= room hs T cl |>.
Lemma same_marks ls : Forall2 marked_line ls ls.
Proof. induction ls as [|l ls IH]; constructor; [by destruct l|done]. Qed.
Lemma marks_trans l1 l2 l3 : Forall2 marked_line l1 l2 -> Forall2 marked_line l2 l3 -> Forall2 marked_line l1 l3.
Proof.
  intros H. revert l3. induction H as [|x y l1 l2 Hxy _ IH]; intros l3 H3; [by inversion H3|]. apply Forall2_cons_inv_l in H3 as (z & l3' & Hyz & H3 & ->).
  constructor; [by eapply marked_line_trans|by apply IH].
Qed.
Lemma roomed_refl hs p : roomed hs p p [].
Proof.
  exists (maplines p), (open p), (ceilingline (client p)). split; [apply same_marks|]. destruct p as [? ? ? ? ? ? ? t]. destruct t. unfold room, set. cbn. by rewrite app_nil_r, Z.add_0_r.
Qed.
Lemma specials_app T1 T2 : specials (T1 ++ T2) = specials T1 ++ specials T2.
Proof. unfold specials. by rewrite filter_app, fmap_app. Qed.
Lemma roomed_trans hs p1 p2 p3 T1 T2 : roomed hs p1 p2 T1 -> roomed hs p2 p3 T2 -> roomed hs p1 p3 (T1 ++ T2).
Proof.
  intros (l2 & o2 & c2 & H2 & ->) (l3 & o3 & c3 & H3 & ->). exists l3, o3, c3. split; [by eapply marks_trans|].
  destruct p1 as [? ? ? ? ? ? ? t]. destruct t. unfold room, set. cbn. rewrite specials_app, !fmap_app, !foldl_app, app_assoc, length_app. do 2 f_equal. lia.
Qed.
Lemma marked_touches box hs m ld ld' : marked_line ld ld' -> touches box ld' = touches box ld /\ stops m ld' = stops m ld /\ Geo.special ld' = Geo.special ld /\
  line_bottom hs ld' = line_bottom hs ld /\ line_top hs ld' = line_top hs ld /\ line_low hs ld' = line_low hs ld /\ (opening_ok hs ld -> opening_ok hs ld') /\ Geo.backsector ld' = Geo.backsector ld.
Proof. unfold marked_line. intros ->. done. Qed.

(** ** One line *)

(** During a check: the thing [m] at [a], its box, and room in the list. *)
Record checking p a m (box : bbox) (n : nat) : Prop := {
  ck_thing : tmthing (client p) = a;
  ck_mobj : thing_at a p = Ret m;
  ck_box : tmbbox (client p) = box;
  ck_count : numspechit (client p) = Z.of_nat (length (spechit (client p)));
  ck_room : numspechit (client p) + Z.of_nat n <= MAXSPECIALCROSS_ORIGINAL
}.
Lemma checking_roomed hs p p' T a m box n : checking p a m box (length (specials T) + n) -> roomed hs p p' T -> checking p' a m box n.
Proof.
  intros [H1 H2 H3 H4 H5] (lns & o & cl & _ & ->). split; [exact H1|exact H2|exact H3| |].
  - cbn. rewrite length_app, H4. lia.
  - cbn. lia.
Qed.
Lemma check_away_run i ld p : maplines p !! i = Some ld -> touches (tmbbox (client p)) ld = false -> PIT_CheckLine i p = Ret (true, p).
Proof.
  intros El Et. unfold PIT_CheckLine, touches in *. rewrite El. cbn [of_option obind]. destruct (apart _ _); [done|]. cbn [negb andb] in Et. by rewrite Et.
Qed.
Definition stopped m (T : list (nat * Geo.line_t)) : bool := existsb (fun il => stops m il.2) T.
Lemma on_tm_open f o p : on_tm f (p <| open := o |>) = p <| open := o |> <| client := f (client p) |>.
Proof. by destruct p. Qed.
Definition narrowed hs ld (cl : option nat) (t : moving C) : moving C :=
  t <| tmfloorz := Z.max (tmfloorz t) (line_bottom hs ld) |> <| tmceilingz := Z.min (tmceilingz t) (line_top hs ld) |>
    <| tmdropoffz := Z.min (tmdropoffz t) (line_low hs ld) |> <| ceilingline := cl |>.
Lemma narrow_room_run hs ld i r (t : moving C) : narrow_room i (mk_opening (line_top hs ld) (line_bottom hs ld) r (line_low hs ld)) t =
  narrowed hs ld (if line_top hs ld <? tmceilingz t then Some i else ceilingline t) t.
Proof.
  unfold narrow_room, narrowed. destruct t as [t1 t2 t3 t4 t5 t6 t7 t8 t9 t10 t11 t12 t13 t14 t15 t16 t17 t18 t19 t20]. cbn.
  destruct (line_top hs ld <? t8) eqn:E1; cbn; destruct (line_bottom hs ld >? t7) eqn:E2; cbn; destruct (line_low hs ld <? t9) eqn:E3; cbn; breflect; unfold set; cbn; f_equal; lia.
Qed.
Lemma push_spechit_run i p : numspechit (client p) = Z.of_nat (length (spechit (client p))) -> numspechit (client p) < MAXSPECIALCROSS_ORIGINAL ->
  push_spechit i p = Ret (on_tm (fun t => t <| spechit := spechit t ++ [i] |> <| numspechit := numspechit t + 1 |>) p).
Proof.
  intros H4 H5. unfold push_spechit, MAXSPECIALCROSS, MAXSPECIALCROSS_ORIGINAL in *. rewrite Z.geb_leb, (proj2 (Z.leb_gt _ _)), Z.gtb_ltb, (proj2 (Z.ltb_ge _ _)) by lia.
  f_equal. destruct p as [? ? ? ? ? ? ? t]. destruct t. unfold on_tm, set. cbn in *. by rewrite H4, Nat2Z.id, firstn_all.
Qed.
Lemma check_line_run a m box i ld p : checking p a m box (length (specials [(i, bare ld)])) -> maplines p !! i = Some ld -> opening_ok (hts <$> sectors (client p)) ld ->
  if touches box ld && negb (stops m ld) then exists p', PIT_CheckLine i p = Ret (true, p') /\ roomed (hts <$> sectors (client p)) p p' [(i, bare ld)] /\ maplines p' = maplines p
  else PIT_CheckLine i p = Ret (negb (touches box ld), p).
Proof.
  intros [H1 H2 H3 H4 H5] El Ho. unfold PIT_CheckLine, touches. rewrite El. cbn [of_option obind]. rewrite H3. destruct (apart box (Geo.bbox ld)); [done|]. cbn [negb andb].
  destruct (P_BoxOnLineSide box ld =? -1); [|done]. cbn [negb andb]. rewrite H1, H2. cbn [obind]. destruct (stops m ld) eqn:Es; [done|]. cbn [negb].
  assert (Hb : Geo.backsector ld <> None) by (intros Hb; unfold stops in Es; by rewrite (bool_decide_eq_true_2 _ Hb) in Es).
  destruct (LineOpening_run _ _ (open p) Ho Hb) as [r ->]. cbn [obind opentop openbottom lowfloor]. set (hs := hts <$> sectors (client p)) in *. set (o := mk_opening _ _ _ _).
  set (cl := if line_top hs ld <? tmceilingz (client p) then Some i else ceilingline (client p)).
  set (p1 := on_tm (narrow_room i o) (p <| open := o |>)).
  assert (E1 : p1 = p <| open := o |> <| client := narrowed hs ld cl (client p) |>) by (unfold p1, o; rewrite on_tm_open, (narrow_room_run hs ld i r); done).
  destruct (Z.eqb_spec (Geo.special ld) 0) as [Esp|Esp]; cbn [negb].
  - assert (Esp0 : specials [(i, bare ld)] = []) by (unfold specials; rewrite filter_cons_False by (intros H; by apply H); done).
    exists p1. split; [done|]. rewrite E1. split; [|by destruct p]. exists (maplines p), o, cl. split; [apply same_marks|]. unfold room. rewrite Esp0. destruct p as [? ? ? ? ? ? ? t]. destruct t. unfold narrowed, set. cbn. by rewrite app_nil_r, Z.add_0_r.
  - assert (Esp1 : specials [(i, bare ld)] = [i]) by (unfold specials; rewrite filter_cons_True by done; done). rewrite Esp1 in H5. cbn [length] in H5. unfold MAXSPECIALCROSS_ORIGINAL in H5.
    rewrite push_spechit_run by (rewrite E1; cbn; unfold MAXSPECIALCROSS_ORIGINAL; lia). cbn [obind]. eexists. split; [done|]. rewrite E1. split; [|by destruct p].
    exists (maplines p), o, cl. split; [apply same_marks|]. unfold room, narrowed. rewrite Esp1. destruct p as [? ? ? ? ? ? ? t]. by destruct t.
Qed.

(** ** The lines of a block *)
Lemma touched_marked box ls ls' idx : Forall2 marked_line ls ls' -> touched box ls' idx = touched box ls idx.
Proof.
  intros H. unfold touched. induction idx as [|i idx IH]; [done|]. cbn [omap list_omap]. rewrite IH. destruct (ls !! i) as [ld|] eqn:E.
  - destruct (Forall2_lookup_l _ _ _ _ _ H E) as (ld' & -> & Hl). cbn [mbind option_bind]. unfold marked_line in Hl. rewrite Hl. done.
  - apply lookup_ge_None in E. rewrite (proj2 (lookup_ge_None _ _)); [done|]. by rewrite <- (Forall2_length _ _ _ H).
Qed.
Lemma touched_app box ls i1 i2 : touched box ls (i1 ++ i2) = touched box ls i1 ++ touched box ls i2.
Proof. apply omap_app. Qed.
Lemma marked_roomed hs p p' : marked p p' -> roomed hs p p' [].
Proof.
  intros (ls & H & ->). exists ls, (open p), (ceilingline (client p)). split; [done|]. destruct p as [? ? ? ? ? ? ? t]. destruct t. unfold room, set. cbn. by rewrite app_nil_r, Z.add_0_r.
Qed.
Lemma roomed_same hs p p' T : roomed hs p p' T -> Forall2 marked_line (maplines p) (maplines p') /\ sectors (client p') = sectors (client p) /\ validcount p' = validcount p /\ gr p' = gr p /\ pl p' = pl p.
Proof. by intros (lns & o & cl & H & ->). Qed.
Lemma check_lines_run a m box ns : forall ls seen p, until_end ns = Some ls -> Forall (fun i => (i < length (maplines p))%nat) ls -> seen_ok seen p ->
  let hs := hts <$> sectors (client p) in let T := touched box (maplines p) (unseen seen ls) in
  checking p a m box (length (specials T)) -> Forall (opening_ok hs) (maplines p) ->
  exists T' p', lines_loop id (fun f p => f p) PIT_CheckLine ns p = Ret (negb (stopped m T), p') /\ roomed hs p p' T' /\
    (stopped m T = false -> T' = T /\ seen_ok (ls ++ seen) p').
Proof.
  induction ns as [|n ns IH]; intros ls seen p Eu Hls Hs hs T Hck Hop; [done|]. cbn [until_end lines_loop] in *.
  destruct (n =? -1); [injection Eu as <-; exists [], p; split_and!; [done|apply roomed_refl|done]|].
  destruct (n <? 0); [done|]. destruct (until_end ns) as [ls'|] eqn:Eu'; [|done]. injection Eu as <-. apply Forall_cons in Hls as [Hi Hls].
  destruct (lookup_lt_is_Some_2 _ _ Hi) as [ld El]. cbn [id]. rewrite El. cbn [of_option obind]. unfold T in *. clear T. cbn [unseen] in *. pose proof (Hs _ _ El) as Hv.
  destruct (decide (Z.to_nat n ∈ seen)) as [Hin|Hin].
  - rewrite (proj2 (Z.eqb_eq _ _)) by tauto. destruct (IH _ seen p eq_refl Hls Hs Hck Hop) as (T' & p' & E & Hr & Hf). exists T', p'. split_and!; [done|done|].
    intros Hst. destruct (Hf Hst) as [-> Hs']. split; [done|]. intros j x Hx. rewrite (Hs' j x Hx). cbn [app]. rewrite elem_of_cons, elem_of_app. naive_solver.
  - rewrite (proj2 (Z.eqb_neq _ _)) by tauto. destruct (mark_run seen p _ ld Hs El) as [Hm1 Hs1]. set (p1 := p <| maplines ::= _ |>) in *. set (ld1 := ld <| Geo.validcount := validcount p |>) in *.
    assert (El1 : maplines p1 !! Z.to_nat n = Some ld1) by (by apply list_lookup_insert_eq).
    pose proof (marked_roomed hs p p1 Hm1) as Hr1. destruct (roomed_same _ _ _ _ Hr1) as (Hl1 & Hsec & _).
    assert (Hop1 : Forall (opening_ok hs) (maplines p1)).
    { apply Forall_lookup. intros j x Hx. destruct (Forall2_lookup_r _ _ _ _ _ Hl1 Hx) as (y & Hy & Hxy). rewrite Forall_lookup in Hop. apply (marked_touches box hs m _ _ Hxy). exact (Hop j y Hy). }
    assert (HT : touched box (maplines p) (Z.to_nat n :: unseen (Z.to_nat n :: seen) ls') = (if touches box ld then [(Z.to_nat n, bare ld)] else []) ++ touched box (maplines p) (unseen (Z.to_nat n :: seen) ls')).
    { unfold touched at 1. cbn [omap list_omap]. rewrite El. cbn [mbind option_bind]. by destruct (touches box ld). }
    rewrite HT in *. set (T2 := touched box (maplines p) (unseen (Z.to_nat n :: seen) ls')) in *.
    assert (Hcont : forall p2 T1, roomed hs p1 p2 T1 -> maplines p2 = maplines p1 -> T1 = (if touches box ld then [(Z.to_nat n, bare ld)] else []) -> stopped m T1 = false ->
      exists T' p', lines_loop id (fun f p => f p) PIT_CheckLine ns p2 = Ret (negb (stopped m (T1 ++ T2)), p') /\ roomed hs p p' T' /\
        (stopped m (T1 ++ T2) = false -> T' = T1 ++ T2 /\ seen_ok ((Z.to_nat n :: ls') ++ seen) p')).
    { intros p2 T1 Hr2 Em2 ET1 Hst1. pose proof (roomed_trans _ _ _ _ _ _ Hr1 Hr2) as Hr12. cbn [app] in Hr12. destruct (roomed_same _ _ _ _ Hr12) as (Hl2 & Hsec2 & Hv2 & _).
      destruct (roomed_same _ _ _ _ Hr2) as (_ & _ & Hv12 & _).
      assert (Hs2 : seen_ok (Z.to_nat n :: seen) p2) by (intros j x Hx; rewrite Em2 in Hx; rewrite Hv12; by apply Hs1).
      assert (ET2 : touched box (maplines p2) (unseen (Z.to_nat n :: seen) ls') = T2) by (by apply touched_marked).
      specialize (IH ls' (Z.to_nat n :: seen) p2 eq_refl). rewrite ET2, Hsec2 in IH. fold hs in IH.
      destruct IH as (T' & p' & E & Hr & Hf).
      - rewrite Em2. eapply Forall_impl; [exact Hls|]. intros x Hx. by rewrite <- (Forall2_length _ _ _ Hl1).
      - done.
      - rewrite ET1 in *. rewrite specials_app, length_app in Hck. by apply (checking_roomed hs p p2 _ a m box _ Hck).
      - by rewrite Em2.
      - assert (Est : stopped m (T1 ++ T2) = stopped m T2) by (unfold stopped in *; by rewrite existsb_app, Hst1). rewrite Est. exists (T1 ++ T'), p'. split; [done|]. split; [by apply (roomed_trans hs p p2)|].
        intros Hst. destruct (Hf Hst) as [-> Hs']. split; [done|]. intros j x Hx. rewrite (Hs' j x Hx). cbn [app]. rewrite !elem_of_cons, !elem_of_app, elem_of_cons. tauto. }
    destruct (touches box ld) eqn:Et; [|rewrite check_away_run with (ld := ld1) by (exact El1 || (change (tmbbox (client p1)) with (tmbbox (client p)); rewrite (ck_box _ _ _ _ _ Hck); exact Et)); cbn [obind negb]; by apply (Hcont p1 []); [apply roomed_refl|done|done|done]].
    assert (Hck1 : checking p1 a m box (length (specials [(Z.to_nat n, bare ld1)]))).
    { rewrite specials_app, length_app in Hck. destruct Hck as [K1 K2 K3 K4 K5]. split; [exact K1|exact K2|exact K3|exact K4|].
      change (numspechit (client p1)) with (numspechit (client p)). change (bare ld1) with (bare ld). lia. }
    assert (Hop2 : opening_ok hs ld1) by (rewrite Forall_lookup in Hop; exact (Hop _ _ El)).
    pose proof (check_line_run a m box (Z.to_nat n) ld1 p1 Hck1 El1 Hop2) as Hrun. change (touches box ld1) with (touches box ld) in Hrun. change (stops m ld1) with (stops m ld) in Hrun. rewrite Et in Hrun. cbn [andb] in Hrun.
    destruct (stops m ld) eqn:Est; cbn [negb] in Hrun.
    + rewrite Hrun. cbn [obind negb]. exists [], p1. assert (E1 : stopped m ([(Z.to_nat n, bare ld)] ++ T2) = true) by (unfold stopped; cbn; change (stops m (bare ld)) with (stops m ld); by rewrite Est).
      rewrite E1. split_and!; done.
    + destruct Hrun as (p2 & -> & Hr2 & Em2). cbn [obind negb]. apply (Hcont p2 [(Z.to_nat n, bare ld)]); [exact Hr2|done|done|]. unfold stopped. cbn. change (stops m (bare ld)) with (stops m ld). by rewrite Est.
Qed.

(** ** The blocks around the place *)
Lemma unseen_app l1 l2 : forall seen, unseen seen (l1 ++ l2) = unseen seen l1 ++ unseen (l1 ++ seen) l2.
Proof.
  induction l1 as [|i l1 IH]; intros seen; [done|]. cbn [app unseen]. destruct (decide (i ∈ seen)) as [Hi|Hi].
  - rewrite IH. f_equal. apply unseen_ext. intros j. rewrite elem_of_cons, elem_of_app. naive_solver.
  - cbn [app]. rewrite IH. do 2 f_equal. apply unseen_ext. intros j. rewrite elem_of_cons, !elem_of_app, elem_of_cons. naive_solver.
Qed.
Definition lines_near (g : grid) (bs : list (Z * Z)) : list nat := bs ≫= fun b => lines_in g b.1 b.2.
Definition things_near (g : grid) (B : list (list Z)) (bs : list (Z * Z)) : list Z := bs ≫= fun b => things_in g B b.1 b.2.
Lemma lines_of_run a m box x y seen p B : blocks_ok p B -> seen_ok seen p ->
  let hs := hts <$> sectors (client p) in let T := touched box (maplines p) (unseen seen (lines_in (gr p) x y)) in
  checking p a m box (length (specials T)) -> Forall (opening_ok hs) (maplines p) ->
  exists T' p', lines_of PIT_CheckLine x y p = Ret (negb (stopped m T), p') /\ roomed hs p p' T' /\
    (stopped m T = false -> T' = T /\ seen_ok (lines_in (gr p) x y ++ seen) p').
Proof.
  intros [Hb Hg _ _] Hs hs T Hck Hop. unfold lines_of, P_BlockLinesIterator. cbn [id]. cbv zeta. unfold T, lines_in in *. clear T.
  destruct (block_index (gr p) x y) as [k|] eqn:Ek.
  - destruct (block_index_nonneg _ _ _ _ _ Hg Ek) as [Ei _]. destruct (Hb x y k Ek) as (offset & ls & Eo & H0 & Eu & Hls). rewrite Eo, Eu in *. cbn [default id] in *.
    unfold block_index in Ek. destruct (_ || _ || _ || _); [done|]. rewrite Ei, Eo. cbn [obind]. rewrite (proj2 (Z.ltb_ge offset 0) H0). by apply check_lines_run with (a := a) (box := box).
  - unfold block_index in Ek. destruct (_ || _ || _ || _); [|done]. exists [], p. split_and!; [done|apply roomed_refl|done].
Qed.
Lemma roomed_ok hs p p' T B : blocks_ok p B -> roomed hs p p' T -> blocks_ok p' B.
Proof. intros [H1 H2 H3 H4] (ls & o & cl & Hl & ->). split; try done. change (blockmap_ok (gr p) (length ls)). by rewrite <- (Forall2_length _ _ _ Hl). Qed.
Lemma lines_blocks_run a m box B bs : forall seen p, blocks_ok p B -> seen_ok seen p ->
  let hs := hts <$> sectors (client p) in let T := touched box (maplines p) (unseen seen (lines_near (gr p) bs)) in
  checking p a m box (length (specials T)) -> Forall (opening_ok hs) (maplines p) ->
  exists T' p', each_block (lines_of PIT_CheckLine) bs p = Ret (negb (stopped m T), p') /\ roomed hs p p' T' /\ (stopped m T = false -> T' = T).
Proof.
  induction bs as [|[x y] bs IH]; intros seen p Hok Hs hs T Hck Hop; [exists [], p; split_and!; [done|apply roomed_refl|done]|].
  assert (ET : T = touched box (maplines p) (unseen seen (lines_in (gr p) x y)) ++ touched box (maplines p) (unseen (lines_in (gr p) x y ++ seen) (lines_near (gr p) bs))).
  { unfold T, lines_near. cbn [mbind list_bind]. by rewrite unseen_app, touched_app. }
  set (T1 := touched box (maplines p) (unseen seen (lines_in (gr p) x y))) in *. set (T2 := touched box (maplines p) (unseen (lines_in (gr p) x y ++ seen) _)) in *. rewrite ET in *. clear T ET.
  rewrite specials_app, length_app in Hck. cbn [each_block].
  assert (Hck1 : checking p a m box (length (specials T1))) by (destruct Hck as [K1 K2 K3 K4 K5]; split; try done; lia).
  destruct (lines_of_run a m box x y seen p B Hok Hs Hck1 Hop) as (T' & p1 & -> & Hr & Hf). fold T1 in Hf |- *. cbn [obind]. unfold stopped in *. rewrite existsb_app.
  destruct (existsb _ T1) eqn:E1; cbn [negb orb]; [exists T', p1; split_and!; done|]. destruct (Hf eq_refl) as [-> Hs1]. fold hs in Hr. destruct (roomed_same _ _ _ _ Hr) as (Hl & Hsec & Hv & Hg & _).
  assert (ET2 : touched box (maplines p1) (unseen (lines_in (gr p) x y ++ seen) (lines_near (gr p1) bs)) = T2) by (rewrite Hg; by apply touched_marked).
  specialize (IH (lines_in (gr p) x y ++ seen) p1 (roomed_ok _ _ _ _ _ Hok Hr) Hs1). cbv zeta in IH. rewrite ET2, Hsec in IH. fold hs in IH.
  destruct IH as (T3 & p2 & E2 & Hr2 & Hf2).
  - by apply (checking_roomed hs p p1 T1).
  - apply Forall_lookup. intros j z Hz. destruct (Forall2_lookup_r _ _ _ _ _ Hl Hz) as (z0 & Hz0 & Hzz). rewrite Forall_lookup in Hop. apply (marked_touches box hs m _ _ Hzz). exact (Hop j z0 Hz0).
  - exists (T1 ++ T3), p2. split; [exact E2|]. split; [by apply (roomed_trans hs p p1)|]. intros Hst. by rewrite (Hf2 Hst).
Qed.

(** ** The things around the place *)

(** The thing [m'] at [a'] is in the way of [m] at (x, y). *)
Definition near m x y m' : bool :=
  let blockdist := i32 (Mobj.radius m' + Mobj.radius m) in
  (c_abs (i32 (Mobj.x m' - x)) <? blockdist) && (c_abs (i32 (Mobj.y m' - y)) <? blockdist).
Definition in_way a m x y a' m' : bool := has_flag (Mobj.flags m') MF_SOLID && near m x y m' && negb (a' =? a) && negb (has_flag (Mobj.flags m) MF_MISSILE).
(** The meeting of [m] with [m'] that does something: a charging skull that slams
    into it, a missile that neither passes above nor below it, a thing that picks
    up, and something to be picked up. *)
Definition misses m m' : bool := (Mobj.z m >? i32 (Mobj.z m' + Mobj.height m')) || (i32 (Mobj.z m + Mobj.height m) <? Mobj.z m').
Definition reacts m m' : bool :=
  let meets := has_flag (Mobj.flags m') (Z.lor (Z.lor MF_SOLID MF_SPECIAL) MF_SHOOTABLE) in
  if has_flag (Mobj.flags m) MF_SKULLFLY then meets
  else if has_flag (Mobj.flags m) MF_MISSILE then meets && negb (misses m m')
  else has_flag (Mobj.flags m') MF_SPECIAL && has_flag (Mobj.flags m) MF_PICKUP.
(** [m] at (x, y) overlaps no thing of the blocks [B] that it reacts to. *)
Definition quiet p (B : list (list Z)) a m x y : Prop := forall a' m', a' ∈ mjoin B -> thing_at a' p = Ret m' -> near m x y m' = true -> a' <> a -> reacts m m' = false.
(** A thing that is no missile, no charging skull and picks nothing up never reacts. *)
Definition plain m : Prop := has_flag (Mobj.flags m) MF_MISSILE = false /\ has_flag (Mobj.flags m) MF_SKULLFLY = false /\ has_flag (Mobj.flags m) MF_PICKUP = false.
Lemma plain_quiet p B a m x y : plain m -> quiet p B a m x y.
Proof. intros (P1 & P2 & P3) a' m' _ _ _ _. unfold reacts. by rewrite P1, P2, P3, andb_false_r. Qed.
Record standing p a m x y : Prop := {
  sd_thing : tmthing (client p) = a;
  sd_mobj : thing_at a p = Ret m;
  sd_flags : tmflags (client p) = Mobj.flags m;
  sd_x : tmx (client p) = x;
  sd_y : tmy (client p) = y
}.
Lemma has_flag_lor v f g : has_flag v (Z.lor f g) = has_flag v f || has_flag v g.
Proof.
  unfold has_flag. rewrite Z.land_lor_distr_r. destruct (Z.eqb_spec (Z.lor (Z.land v f) (Z.land v g)) 0) as [E|E].
  - apply Z.lor_eq_0_iff in E as [-> ->]. done.
  - destruct (Z.eqb_spec (Z.land v f) 0) as [E1|E1]; [|done]. destruct (Z.eqb_spec (Z.land v g) 0) as [E2|E2]; [|done]. by rewrite E1, E2 in E.
Qed.
Lemma check_thing_run p a m x y a' m' : standing p a m x y -> thing_at a' p = Ret m' -> (near m x y m' = true -> a' <> a -> reacts m m' = false) ->
  PIT_CheckThing a' p = Ret (negb (in_way a m x y a' m'), p).
Proof.
  intros [S1 S2 S3 S4 S5] E Hq. unfold PIT_CheckThing, in_way, reacts in *. rewrite E. cbn [obind].
  assert (Eo : overlaps m' p = Ret (near m x y m')) by (unfold overlaps, near; rewrite S1, S2, S4, S5; cbn [obind]; by rewrite !Z.geb_leb, !Z.leb_antisym, negb_orb, !negb_involutive).
  destruct (has_flag (Mobj.flags m') (Z.lor (Z.lor MF_SOLID MF_SPECIAL) MF_SHOOTABLE)) eqn:Em.
  2: { cbn [negb]. rewrite !has_flag_lor in Em. destruct (has_flag (Mobj.flags m') MF_SOLID); [by rewrite !orb_true_l in Em|done]. }
  cbn [negb]. rewrite Eo, S1, S2. cbn [obind]. destruct (near m x y m'); cbn [negb andb]; [|by rewrite andb_false_r].
  destruct (Z.eqb_spec a' a) as [->|Hne]; cbn [negb andb]; [by rewrite andb_false_r|]. specialize (Hq eq_refl Hne). cbn [andb] in Hq.
  destruct (has_flag (Mobj.flags m) MF_SKULLFLY); [done|]. destruct (has_flag (Mobj.flags m) MF_MISSILE).
  - unfold missile_hits. apply negb_false_iff in Hq. unfold misses in Hq. rewrite andb_false_r. destruct (_ >? _); [done|]. cbn [orb] in Hq. by rewrite Hq.
  - rewrite !andb_true_r, S3. destruct (has_flag (Mobj.flags m') MF_SPECIAL); [|done]. cbn [andb] in Hq. by rewrite Hq.
Qed.

(** Whether the thing at [a'] leaves the place free. *)
Definition way_free p a m x y a' : bool := match mobjs (pl p) !! a' with Some m' => negb (in_way a m x y a' m') | None => true end.
Lemma things_of_run p B a m x y l : quiet p B a m x y -> standing p a m x y -> Forall (fun a' => a' ∈ mjoin B /\ is_Some (mobjs (pl p) !! a')) l ->
  run_list PIT_CheckThing l p = Ret (forallb (way_free p a m x y) l, p).
Proof.
  intros Hm Hs. induction 1 as [|a' l [Hin [m' E]] _ IH]; [done|]. cbn [run_list forallb]. assert (E' : thing_at a' p = Ret m') by (unfold thing_at, getm; by rewrite E).
  rewrite (check_thing_run p a m x y a' m' Hs E' (Hm a' m' Hin E')). cbn [obind].
  unfold way_free at 1. rewrite E. destruct (negb _); [exact IH|done].
Qed.
Lemma things_blocks_run p a m x y B bs : blocks_ok p B -> quiet p B a m x y -> standing p a m x y ->
  each_block (things_of PIT_CheckThing) bs p = Ret (forallb (way_free p a m x y) (things_near (gr p) B bs), p).
Proof.
  intros [Hb Hg Hh Hl] Hm Hs. induction bs as [|[bx by_] bs IH]; [done|]. unfold things_near. cbn [each_block mbind list_bind fst snd]. fold (things_near (gr p) B bs).
  assert (Hth : forall l, l ∈ B -> Forall (fun a' => a' ∈ mjoin B /\ is_Some (mobjs (pl p) !! a')) l).
  { intros l Hin. apply Forall_forall. intros a' Ha. split; [apply list_elem_of_join; by exists l|]. rewrite Forall_forall in Hl. by apply (dseg_elem _ _ _ _ _ _ (proj2 (Hl l Hin)) Ha). }
  assert (E : things_of PIT_CheckThing bx by_ p = Ret (forallb (way_free p a m x y) (things_in (gr p) B bx by_), p)).
  { unfold things_of. rewrite (BlockThings_inv (gr p) pl PIT_CheckThing (eq p) bx by_ p B Hh Hl Hg eq_refl).
    - fold (things_in (gr p) B bx by_). apply (things_of_run p B); [done|done|]. unfold things_in. destruct (block_index _ _ _) as [k|]; [|constructor]. cbn [mbind option_bind]. destruct (B !! k) as [l|] eqn:El; [|constructor].
      apply Hth. by eapply list_elem_of_lookup_2.
    - intros l a' s0 go s' Hin Ha <- Hd Er. pose proof (Hth l Hin) as Hl'. rewrite Forall_forall in Hl'. destruct (Hl' a' Ha) as [Hj [m' Em']].
      assert (Et : thing_at a' p = Ret m') by (unfold thing_at, getm; by rewrite Em'). rewrite (check_thing_run p a m x y a' m' Hs Et (Hm a' m' Hj Et)) in Er. injection Er as _ <-. done. }
  rewrite E. cbn [obind]. rewrite forallb_app. destruct (forallb _ (things_in _ _ _ _)); [exact IH|done].
Qed.

(** ** The whole check *)
Definition box_at m (x y : Z) : bbox := let r := Mobj.radius m in mk_bbox (i32 (y + r)) (i32 (y - r)) (i32 (x - r)) (i32 (x + r)).
(** The state at the start of a check in a sector of these heights. *)
Definition started a m x y (h : heights) p : pworld C :=
  on_tm (fun t => t <| tmthing := a |> <| tmflags := Mobj.flags m |> <| tmx := x |> <| tmy := y |> <| tmbbox := box_at m x y |> <| ceilingline := None |>
    <| tmfloorz := floorheight h |> <| tmdropoffz := floorheight h |> <| tmceilingz := ceilingheight h |> <| spechit := [] |> <| numspechit := 0 |>) p
  <| validcount ::= fun v => i32 (v + 1) |>.
Definition sectors_ok p : Prop := exists n, nodes_ok nodes n /\ forall i, 0 <= i < n -> exists s, ss_sector (ss_at i) = Some s /\ (s < length (sectors (client p)))%nat.
(** The sector at a point. *)
Definition sector_at p (x y : Z) (sec : psector) : Prop := exists i s, R_PointInSubsector nodes x y = Ret i /\ ss_sector (ss_at i) = Some s /\ sectors (client p) !! s = Some sec.
Lemma start_run a m x y p : sectors_ok p -> thing_at a p = Ret m -> exists sec, sector_at p x y sec /\ start_check a x y p = Ret (started a m x y (hts sec) p).
Proof.
  intros (n & Hn & Hs) Em. destruct (PointInSubsector_run nodes n x y Hn) as (i & Ei & Hi & _). destruct (Hs i Hi) as (s & Es & Hlt). destruct (lookup_lt_is_Some_2 _ _ Hlt) as [sec Esec].
  exists sec. split; [by exists i, s|]. unfold start_check. rewrite Em, Ei. cbn [obind]. rewrite Es. cbn [of_option obind]. rewrite Esec. done.
Qed.
(** The lines and things that a check looks at, in the state it starts from. *)
Definition lines_at (box : bbox) p : list (nat * Geo.line_t) := touched box (maplines p) (unseen [] (lines_near (gr p) (box_blocks 0 p))).
Definition things_at B p : list Z := things_near (gr p) B (box_blocks MAXRADIUS p).
Definition free_at B a m x y p : bool := forallb (way_free p a m x y) (things_at B p) && negb (stopped m (lines_at (box_at m x y) p)).
Lemma check_rest a m x y p B : blocks_ok p B -> standing p a m x y -> tmbbox (client p) = box_at m x y -> numspechit (client p) = 0 -> spechit (client p) = [] -> seen_ok [] p ->
  Forall (opening_ok (hts <$> sectors (client p))) (maplines p) -> quiet p B a m x y -> Z.of_nat (length (specials (lines_at (box_at m x y) p))) <= MAXSPECIALCROSS_ORIGINAL ->
  exists p' T',
    (let* '(go, p) := each_block (things_of PIT_CheckThing) (box_blocks MAXRADIUS p) p in
     if negb go then Ret (false, p) else each_block (lines_of PIT_CheckLine) (box_blocks 0 p) p) = Ret (free_at B a m x y p, p') /\
    roomed (hts <$> sectors (client p)) p p' T' /\ (free_at B a m x y p = true -> T' = lines_at (box_at m x y) p).
Proof.
  intros Hok Hs Hb Hns Hsp Hseen Hop Hm Hn. rewrite (things_blocks_run p a m x y B _ Hok Hm Hs). cbn [obind]. unfold free_at. fold (things_at B p). destruct (forallb _ _); cbn [negb andb].
  - destruct (lines_blocks_run a m (box_at m x y) B (box_blocks 0 p) [] p Hok Hseen) as (T' & p' & E & Hr & Hf); [|exact Hop|].
    + split; [apply (sd_thing _ _ _ _ _ Hs)|apply (sd_mobj _ _ _ _ _ Hs)|exact Hb|by rewrite Hns, Hsp|by rewrite Hns].
    + exists p', T'. split; [exact E|]. split; [exact Hr|]. intros Hst. apply Hf. by apply negb_true_iff in Hst.
  - exists p, []. split; [done|]. split; [apply roomed_refl|done].
Qed.
Lemma CheckPosition_run a m x y p B : blocks_ok p B -> sectors_ok p -> unmarked p -> Forall (opening_ok (hts <$> sectors (client p))) (maplines p) -> thing_at a p = Ret m -> quiet p B a m x y ->
  exists sec, sector_at p x y sec /\ let p0 := started a m x y (hts sec) p in let noclip := has_flag (Mobj.flags m) MF_NOCLIP in
  (Z.of_nat (length (specials (lines_at (box_at m x y) p0))) <= MAXSPECIALCROSS_ORIGINAL ->
   exists p' T', P_CheckPosition a x y p = Ret (noclip || free_at B a m x y p0, p') /\ roomed (hts <$> sectors (client p)) p0 p' T' /\
     (noclip = true -> p' = p0 /\ T' = []) /\ (noclip = false -> free_at B a m x y p0 = true -> T' = lines_at (box_at m x y) p0)).
Proof.
  intros Hok Hsec Hun Hop Em Hm. destruct (start_run a m x y p Hsec Em) as (sec & Hat & Est). exists sec. split; [done|]. cbv zeta. intros Hn. unfold P_CheckPosition. rewrite Est. cbn [obind].
  assert (Hok0 : blocks_ok (started a m x y (hts sec) p) B) by (destruct Hok; by split).
  assert (Hs0 : standing (started a m x y (hts sec) p) a m x y) by (split; [done|exact Em|done|done|done]).
  assert (Hseen : seen_ok [] (started a m x y (hts sec) p)).
  { intros i ld El. pose proof (proj1 (Forall_lookup _ _) Hun i ld El) as Hne. split; [intros H; by destruct Hne|intros H; by apply elem_of_nil in H]. }
  rewrite (sd_flags _ _ _ _ _ Hs0). destruct (has_flag (Mobj.flags m) MF_NOCLIP).
  - exists (started a m x y (hts sec) p), []. split; [done|]. split; [apply roomed_refl|]. by split.
  - destruct (check_rest a m x y _ B Hok0 Hs0 eq_refl eq_refl eq_refl Hseen Hop Hm Hn) as (p' & T' & E & Hr & Hf). exists p', T'. split; [exact E|]. split; [exact Hr|]. by split.
Qed.

(** ** The move *)
Lemma pulled_length ls a : length (pulled ls a) = length ls.
Proof. apply length_fmap. Qed.
Lemma grid_pulled g B a : grid_ok g B -> grid_ok g (pulled B a).
Proof. unfold grid_ok. by rewrite pulled_length. Qed.
Lemma map_pulled S a : map_ok S -> map_ok (pulled S a).
Proof. unfold map_ok. by rewrite pulled_length. Qed.
(** The thing as it is after the move, but for its links. *)
Definition moved m x y (i f c : Z) : Mobj.mobj_t := m <| Mobj.floorz := f |> <| Mobj.ceilingz := c |> <| Mobj.x := x |> <| Mobj.y := y |> <| Mobj.subsector := ss_at i |>.
(** The lists after the move. *)
Record relocated p p' (S B : list (list Z)) a (m1 : Mobj.mobj_t) : Prop := {
  rl_only : p' = p <| pl := pl p' |>;
  rl_thing : exists m2, thing_at a p' = Ret m2 /\ same_thing m1 m2 /\ placed (gr p) (pl p') (pushed (pulled S a) (sector_home m1) a) (pushed (pulled B a) (block_home (gr p) m1) a) a m2;
  rl_links : links_ok (gr p) (pl p') (pushed (pulled S a) (sector_home m1) a) (pushed (pulled B a) (block_home (gr p) m1) a);
  rl_others b mb : b <> a -> mobjs (pl p) !! b = Some mb -> exists mb', mobjs (pl p') !! b = Some mb' /\ same_thing mb mb'
}.
Lemma relocate_run p S B a m x y : links_ok (gr p) (pl p) S B -> placed (gr p) (pl p) S B a m -> map_ok S -> grid_ok (gr p) B -> a <> 0 ->
  exists i p', R_PointInSubsector nodes x y = Ret i /\ relocate a x y p = Ret p' /\ relocated p p' S B a (moved m x y i (tmfloorz (client p)) (tmceilingz (client p))).
Proof.
  intros Hl Hp Hm Hg H0. unfold relocate, on_pl. destruct (UnsetThingPosition_run (gr p) (pl p) S B a m Hl Hp) as (w1 & -> & Hl1 & HaS & HaB & Hs1 & Em1). cbn [obind].
  set (f := tmfloorz (client p)). set (c := tmceilingz (client p)). set (m' := m <| Mobj.floorz := f |> <| Mobj.ceilingz := c |> <| Mobj.x := x |> <| Mobj.y := y |>). set (w2 := w1 <| mobjs ::= <[a := m']> |>).
  assert (Em2 : mobjs w2 !! a = Some m') by apply lookup_insert_eq.
  assert (Eu : upd_thing a (fun m => m <| Mobj.floorz := f |> <| Mobj.ceilingz := c |> <| Mobj.x := x |> <| Mobj.y := y |>) (p <| pl := w1 |>) = Ret (p <| pl := w2 |>)).
  { unfold upd_thing, thing_at, getm. change (pl (p <| pl := w1 |>)) with w1. rewrite Em1. done. }
  change (tmfloorz (client (p <| pl := w1 |>))) with f. change (tmceilingz (client (p <| pl := w1 |>))) with c. rewrite Eu. cbn [obind].
  change (gr (p <| pl := w2 |>)) with (gr p). change (pl (p <| pl := w2 |>)) with w2.
  destruct (SetThingPosition_run (gr p) w2 (pulled S a) (pulled B a) a m') as (i & w3 & m3 & Ei & E & Em3 & Hsame & Hl3 & Hp3 & Hoth);
    [by eapply links_update|done|done|done|done|by apply map_pulled|by apply grid_pulled|].
  change (Mobj.x m') with x in Ei. change (Mobj.y m') with y in Ei. exists i, (p <| pl := w3 |>). split; [exact Ei|].
  split; [rewrite E; by destruct p|].
  change (m' <| Mobj.subsector := ss_at i |>) with (moved m x y i f c) in *. split; [by destruct p|exists m3; split; [unfold thing_at, getm; cbn; by rewrite Em3|by split]|exact Hl3|].
  intros b mb Hb Eb. destruct (Hs1 b mb Eb) as (mb1 & Eb1 & Hsb1). destruct (Hoth b mb1 Hb) as (mb3 & Eb3 & Hsb3); [by unfold w2; cbn; rewrite lookup_insert_ne|]. exists mb3. split; [exact Eb3|by etrans].
Qed.

(** The heights that a check leaves. *)
Definition room_floor p (h : heights) (T : list (nat * Geo.line_t)) : Z := foldl Z.max (floorheight h) (line_bottom (hts <$> sectors (client p)) <$> T.*2).
Definition room_ceiling p (h : heights) (T : list (nat * Geo.line_t)) : Z := foldl Z.min (ceilingheight h) (line_top (hts <$> sectors (client p)) <$> T.*2).
Definition room_drop p (h : heights) (T : list (nat * Geo.line_t)) : Z := foldl Z.min (floorheight h) (line_low (hts <$> sectors (client p)) <$> T.*2).
Definition high_enough m (f c : Z) : bool := Mobj.height m <=? i32 (c - f).
(** A thing that does not teleport has to fit where it is and climbs 24 units at
    most; one that neither floats nor drops does not stand over a deeper edge. *)
Definition steps_there m (f c d : Z) : bool :=
  (has_flag (Mobj.flags m) MF_TELEPORT || (Mobj.height m <=? i32 (c - Mobj.z m)) && (i32 (f - Mobj.z m) <=? 24 * FRACUNIT)) &&
  (has_flag (Mobj.flags m) (Z.lor MF_DROPOFF MF_FLOAT) || (i32 (f - d) <=? 24 * FRACUNIT)).
Lemma fits_run m p : fits m p = (high_enough m (tmfloorz (client p)) (tmceilingz (client p)),
  high_enough m (tmfloorz (client p)) (tmceilingz (client p)) && steps_there m (tmfloorz (client p)) (tmceilingz (client p)) (tmdropoffz (client p))).
Proof.
  unfold fits, high_enough, steps_there. rewrite Z.ltb_antisym. destruct (Mobj.height m <=? i32 (tmceilingz (client p) - tmfloorz (client p))); cbn [negb andb]; [|done]. f_equal.
  rewrite !Z.gtb_ltb, !Z.ltb_antisym, !negb_andb, !negb_involutive. by destruct (has_flag (Mobj.flags m) MF_TELEPORT), (has_flag (Mobj.flags m) (Z.lor _ _)), (_ <=? _), (_ <=? _).
Qed.
Lemma roomed_heights hs a m x y h p p' T : hs = hts <$> sectors (client p) -> roomed hs (started a m x y h p) p' T ->
  tmfloorz (client p') = room_floor p h T /\ tmceilingz (client p') = room_ceiling p h T /\ tmdropoffz (client p') = room_drop p h T /\ spechit (client p') = specials T /\
  numspechit (client p') = Z.of_nat (length (specials T)) /\ pl p' = pl p /\ gr p' = gr p /\ sectors (client p') = sectors (client p).
Proof. intros -> (lns & o & cl & _ & ->). split_and!; done. Qed.

(** ** Special lines *)

(** What P_CrossSpecialLine promises: it leaves the list of special lines alone,
    or empties it (a thing that is teleported). *)
Class CrossLaw : Prop := cross_law i side a p p' : P_CrossSpecialLine i side a p = Ret p' ->
  spechit (client p') = spechit (client p) /\ numspechit (client p') = numspechit (client p) \/ numspechit (client p') = 0.
Definition counted n p : pworld C := on_tm (fun t => t <| numspechit := n |>) p.
(** The lines are crossed in order as far as the thing has come to their other
    side, until the list is emptied. *)
Fixpoint crossings a oldx oldy (is_ : list nat) p : outcome (pworld C) :=
  match is_ with
  | [] => Ret (counted (-1) p)
  | i :: is_ =>
      let p := counted (Z.of_nat (length is_)) p in
      let* ld := of_option (maplines p !! i) in
      let* m := thing_at a p in
      let oldside := P_PointOnLineSide oldx oldy ld in
      let* p := if negb (P_PointOnLineSide (Mobj.x m) (Mobj.y m) ld =? oldside) && negb (Geo.special ld =? 0) then P_CrossSpecialLine i oldside a p else Ret p in
      if numspechit (client p) =? 0 then Ret (counted (-1) p) else crossings a oldx oldy is_ p
  end.
Lemma on_tm_numspechit n p : on_tm (fun t => t <| numspechit := n |>) p = counted n p.
Proof. done. Qed.
Lemma crossings_run (claw : CrossLaw) a oldx oldy is_ : forall fuel p, numspechit (client p) = Z.of_nat (length is_) -> (length is_ <= fuel)%nat -> (exists l, spechit (client p) = rev is_ ++ l) ->
  cross_specials fuel a oldx oldy p = crossings a oldx oldy is_ p.
Proof.
  induction is_ as [|i is_ IH]; intros fuel p Hn Hf (l & Hl).
  - destruct fuel; cbn [cross_specials crossings]; rewrite Hn; done.
  - destruct fuel as [|fuel]; [cbn in Hf; lia|]. cbn [cross_specials crossings]. cbv zeta. rewrite Hn, (proj2 (Z.eqb_neq _ 0)) by (cbn; lia).
    replace (Z.of_nat (length (i :: is_)) - 1) with (Z.of_nat (length is_)) by (cbn; lia). rewrite on_tm_numspechit. set (p1 := counted (Z.of_nat (length is_)) p).
    assert (Es1 : spechit (client p1) = rev (i :: is_) ++ l) by exact Hl. assert (En1 : numspechit (client p1) = Z.of_nat (length is_)) by done. clearbody p1.
    assert (Ei : at_index (spechit (client p1)) (Z.of_nat (length is_)) = Ret i).
    { unfold at_index. rewrite Es1, (proj2 (Z.ltb_ge _ _)), Nat2Z.id by lia. cbn [rev]. rewrite <- app_assoc. rewrite lookup_app_r by (rewrite length_rev; lia). rewrite length_rev, Nat.sub_diag. done. }
    rewrite Ei. cbn [obind]. destruct (maplines p1 !! i) as [ld|]; [|done]. cbn [of_option obind]. destruct (thing_at a p1) as [m| | |]; try done. cbn [obind].
    assert (Hgo : forall p2, spechit (client p2) = spechit (client p1) /\ numspechit (client p2) = numspechit (client p1) \/ numspechit (client p2) = 0 ->
      cross_specials fuel a oldx oldy p2 = if numspechit (client p2) =? 0 then Ret (counted (-1) p2) else crossings a oldx oldy is_ p2).
    { intros p2 H2. destruct (numspechit (client p2) =? 0) eqn:E0; breflect.
      - destruct fuel; cbn [cross_specials]; rewrite E0; done.
      - destruct H2 as [[H2 H3]|H2]; [|done]. apply IH; [by rewrite H3|cbn in Hf; lia|]. exists ([i] ++ l). rewrite H2, Es1. cbn [rev]. by rewrite <- app_assoc. }
    destruct (_ && _); cbn [obind]; [|apply Hgo; by left].
    destruct (P_CrossSpecialLine _ _ _ _) as [p2| | |] eqn:Ec; try done. cbn [obind]. apply Hgo. exact (cross_law _ _ _ _ _ Ec).
Qed.

(** A level in which things can move. *)
Record level_ok p (S B : list (list Z)) : Prop := {
  lv_blocks : blocks_ok p B;
  lv_links : links_ok (gr p) (pl p) S B;
  lv_map : map_ok S;
  lv_sectors : length S = length (sectors (client p));
  lv_openings : Forall (opening_ok (hts <$> sectors (client p))) (maplines p)
}.
Lemma level_sectors p S B : level_ok p S B -> sectors_ok p.
Proof. intros [_ _ (n & Hn & Hs) Hl _]. exists n. split; [done|]. intros i Hi. destruct (Hs i Hi) as (s & Es & Hlt). exists s. split; [done|]. by rewrite <- Hl. Qed.


(** The state before the check of a move. *)
Definition stage p : pworld C := on_tm (fun t => t <| floatok := false |>) p.
(** Between the two only marks of lines and variables of the check differ. *)
Record same_level p p1 : Prop := {
  sl_places : pl p1 = pl p;
  sl_grid : gr p1 = gr p;
  sl_lines : Forall2 marked_line (maplines p) (maplines p1);
  sl_sectors : sectors (client p1) = sectors (client p)
}.
Lemma TryMove_run (claw : CrossLaw) a m x y p S B : level_ok p S B -> unmarked p -> placed (gr p) (pl p) S B a m -> a <> 0 -> quiet p B a m x y ->
  exists sec i, sector_at p x y sec /\ R_PointInSubsector nodes x y = Ret i /\ let p0 := started a m x y (hts sec) (stage p) in let noclip := has_flag (Mobj.flags m) MF_NOCLIP in
  let T := if noclip then [] else lines_at (box_at m x y) p0 in
  let f := room_floor p (hts sec) T in let c := room_ceiling p (hts sec) T in let d := room_drop p (hts sec) T in
  (Z.of_nat (length (specials (lines_at (box_at m x y) p0))) <= MAXSPECIALCROSS_ORIGINAL ->
   exists p1, same_level p p1 /\
     if noclip || free_at B a m x y p0 && (high_enough m f c && steps_there m f c d)
     then exists p2, relocated p1 p2 S B a (moved m x y i f c) /\
       P_TryMove a x y p = if has_flag (Mobj.flags m) (Z.lor MF_TELEPORT MF_NOCLIP) then Ret (true, p2)
                           else let* p3 := crossings a (Mobj.x m) (Mobj.y m) (rev (specials T)) p2 in Ret (true, p3)
     else P_TryMove a x y p = Ret (false, p1)).
Proof.
  intros Hlv Hun Hpl H0 Hm. pose proof (pl_thing _ _ _ _ _ _ Hpl) as Em. assert (Em' : thing_at a (stage p) = Ret m) by (unfold thing_at, getm; change (pl (stage p)) with (pl p); by rewrite Em).
  assert (Hlv' : level_ok (stage p) S B) by (destruct Hlv as [[V1 V2 V3 V4] V5 V6 V7 V8]; split; [split; [exact V1|exact V2|exact V3|exact V4]|exact V5|exact V6|exact V7|exact V8]).
  assert (Hun' : unmarked (stage p)) by exact Hun.
  destruct (CheckPosition_run a m x y (stage p) B (lv_blocks _ _ _ Hlv') (level_sectors _ _ _ Hlv') Hun' (lv_openings _ _ _ Hlv') Em' Hm) as (sec & Hat & Hrun).
  pose proof Hat as (i & s & Ei & _). exists sec, i. split; [exact Hat|]. split; [exact Ei|]. cbv zeta in *. intros Hn. destruct (Hrun Hn) as (p1 & T' & E & Hr & Hc & Hf). clear Hrun.
  destruct (roomed_heights _ a m x y (hts sec) (stage p) p1 T' eq_refl Hr) as (R1 & R2 & R3 & R4 & R5 & Rp & Rg & Rs). destruct (roomed_same _ _ _ _ Hr) as (Hl & _).
  change (pl (stage p)) with (pl p) in Rp. change (gr (stage p)) with (gr p) in Rg.
  change (room_floor (stage p)) with (room_floor p) in R1. change (room_ceiling (stage p)) with (room_ceiling p) in R2. change (room_drop (stage p)) with (room_drop p) in R3.
  set (free := free_at B a m x y _) in *. set (LT := lines_at (box_at m x y) _) in *. clearbody free LT.
  assert (Em1 : thing_at a p1 = Ret m) by (unfold thing_at, getm; by rewrite Rp, Em).
  unfold P_TryMove. fold (stage p). rewrite E. cbn [obind].
  (* the thing is moved *)
  assert (Hmove : forall float, let p2 := on_tm (fun t => t <| floatok := float |>) p1 in
    T' = (if has_flag (Mobj.flags m) MF_NOCLIP then [] else LT) ->
    exists p3, relocated p2 p3 S B a (moved m x y i (room_floor p (hts sec) T') (room_ceiling p (hts sec) T')) /\
      (let* p := relocate a x y p2 in let* m' := thing_at a p in
       if negb (has_flag (Mobj.flags m') (Z.lor MF_TELEPORT MF_NOCLIP)) then let* p := cross_specials (Z.to_nat (numspechit (client p))) a (Mobj.x m) (Mobj.y m) p in Ret (true, p) else Ret (true, p)) =
      (if has_flag (Mobj.flags m) (Z.lor MF_TELEPORT MF_NOCLIP) then Ret (true, p3) else let* p3 := crossings a (Mobj.x m) (Mobj.y m) (rev (specials T')) p3 in Ret (true, p3))).
  { intros float p2 ET. assert (Hl2 : links_ok (gr p2) (pl p2) S B) by (change (links_ok (gr p1) (pl p1) S B); rewrite Rg, Rp; apply (lv_links _ _ _ Hlv)).
    assert (Hp2 : placed (gr p2) (pl p2) S B a m) by (change (placed (gr p1) (pl p1) S B a m); by rewrite Rg, Rp).
    assert (Hg2 : grid_ok (gr p2) B) by (change (grid_ok (gr p1) B); rewrite Rg; apply (bo_grid _ _ (lv_blocks _ _ _ Hlv))).
    destruct (relocate_run p2 S B a m x y Hl2 Hp2 (lv_map _ _ _ Hlv) Hg2 H0) as (i' & p3 & Ei' & -> & Hrel). rewrite Ei in Ei'. injection Ei' as <-. cbn [obind].
    change (tmfloorz (client p2)) with (tmfloorz (client p1)) in Hrel. change (tmceilingz (client p2)) with (tmceilingz (client p1)) in Hrel. rewrite R1, R2 in Hrel. exists p3. split; [exact Hrel|].
    destruct Hrel as [Honly (m3 & Em3 & Hsame & _) _ _]. rewrite Em3. cbn [obind]. assert (Efl : Mobj.flags m3 = Mobj.flags m) by (destruct (same_home (gr p) _ _ Hsame) as (_ & _ & ->); done). rewrite Efl.
    destruct (has_flag (Mobj.flags m) (Z.lor MF_TELEPORT MF_NOCLIP)); cbn [negb]; [reflexivity|].
    assert (Es3 : spechit (client p3) = specials T') by (rewrite Honly; exact R4). assert (En3 : numspechit (client p3) = Z.of_nat (length (specials T'))) by (rewrite Honly; exact R5).
    rewrite (crossings_run claw a (Mobj.x m) (Mobj.y m) (rev (specials T'))); [reflexivity|rewrite length_rev; exact En3|rewrite length_rev, En3; lia|]. exists []. rewrite rev_involutive, app_nil_r. exact Es3. }
  rewrite Em1. cbn [obind]. rewrite fits_run, R1, R2, R3. destruct (has_flag (Mobj.flags m) MF_NOCLIP) eqn:Ec.
  - cbn [orb negb]. destruct (Hc eq_refl) as [_ ET]. destruct (Hmove false ET) as (p3 & Hrel & Emv). rewrite ET in *. exists (on_tm (fun t => t <| floatok := false |>) p1).
    split; [by split|]. exists p3. split; [exact Hrel|exact Emv].
  - cbn [orb]. destruct free; cbn [andb negb]; [|exists p1; split; [by split|reflexivity]].
    pose proof (Hf eq_refl eq_refl) as ET. rewrite ET in *.
    set (hi := high_enough m _ _) in *. set (st := steps_there m _ _ _) in *. destruct (hi && st); cbn [negb].
    + destruct (Hmove hi eq_refl) as (p3 & Hrel & Emv). exists (on_tm (fun t => t <| floatok := hi |>) p1). split; [by split|]. exists p3. split; [exact Hrel|exact Emv].
    + exists (on_tm (fun t => t <| floatok := hi |>) p1). split; [by split|reflexivity].
Qed.

Lemma pushed_length ls o a : length (pushed ls o a) = length ls.
Proof. unfold pushed. destruct o; [apply length_alter|done]. Qed.
Lemma marked_openings hs ls ls' : Forall2 marked_line ls ls' -> Forall (opening_ok hs) ls -> Forall (opening_ok hs) ls'.
Proof. induction 1 as [|x y l l' Hxy _ IH]; intros H; constructor; apply Forall_cons in H as [Hx H]; [|by apply IH]. unfold marked_line in Hxy. rewrite Hxy. exact Hx. Qed.
Lemma same_level_ok p p1 S B : level_ok p S B -> same_level p p1 -> level_ok p1 S B.
Proof.
  intros [[V1 V2 V3 V4] V5 V6 V7 V8] [H1 H2 H3 H4]. split; [split| | | |]; rewrite ?H1, ?H2, ?H4; try assumption.
  - by rewrite <- (Forall2_length _ _ _ H3).
  - by eapply marked_openings.
Qed.
Lemma relocated_ok p p' S B a m1 : level_ok p S B -> relocated p p' S B a m1 -> level_ok p' (pushed (pulled S a) (sector_home m1) a) (pushed (pulled B a) (block_home (gr p) m1) a).
Proof.
  intros [[V1 V2 V3 V4] V5 V6 V7 V8] [Honly _ Hl _]. split; [split| | | |].
  - rewrite Honly. exact V1.
  - rewrite Honly. cbn. unfold grid_ok. rewrite pushed_length, pulled_length. exact V2.
  - exact (li_blocks _ _ _ _ Hl).
  - exact (li_blists _ _ _ _ Hl).
  - rewrite Honly. exact Hl.
  - unfold map_ok. rewrite pushed_length, pulled_length. exact V6.
  - rewrite pushed_length, pulled_length. rewrite Honly. exact V7.
  - rewrite Honly. exact V8.
Qed.


(** ** A sector that has moved *)

(** The thing after P_ThingHeightClip: what stood on the floor stands on it again,
    what would stick out of the ceiling is put lower. *)
Definition clipped m (f c : Z) : Mobj.mobj_t :=
  m <| Mobj.floorz := f |> <| Mobj.ceilingz := c |>
    <| Mobj.z := if Mobj.z m =? Mobj.floorz m then f else if i32 (Mobj.z m + Mobj.height m) >? c then i32 (c - Mobj.height m) else Mobj.z m |>.
(** A change of a thing that leaves its place alone. *)
Definition stays g m m' : Prop := Mobj.snext m' = Mobj.snext m /\ Mobj.sprev m' = Mobj.sprev m /\ Mobj.bnext m' = Mobj.bnext m /\ Mobj.bprev m' = Mobj.bprev m /\
  sector_home m' = sector_home m /\ block_home g m' = block_home g m.
Lemma home_put home (ms : gmap Z Mobj.mobj_t) ls a m m' : ms !! a = Some m -> home m' = home m -> at_home home ms ls -> at_home home (<[a := m']> ms) ls.
Proof.
  intros Em Hh H i l b Ei Hb. destruct (H i l b Ei Hb) as (mb & Eb & Hm). destruct (decide (b = a)) as [->|Hne].
  - exists m'. split; [apply lookup_insert_eq|]. rewrite Em in Eb. injection Eb as <-. by rewrite Hh.
  - exists mb. by rewrite lookup_insert_ne.
Qed.
Lemma lists_put f (ms : gmap Z Mobj.mobj_t) ls a m m' : ms !! a = Some m -> nx f m' = nx f m -> pv f m' = pv f m -> Forall (dlist f ms) ls -> Forall (dlist f (<[a := m']> ms)) ls.
Proof.
  intros Em H1 H2 H. eapply Forall_impl; [exact H|]. intros l Hl. apply (dlist_frame f ms); [done|]. intros b mb _ Eb. destruct (decide (b = a)) as [->|Hne].
  - exists m'. split; [apply lookup_insert_eq|]. rewrite Em in Eb. by injection Eb as <-.
  - exists mb. by rewrite lookup_insert_ne.
Qed.
Lemma links_put g w S B a m m' : links_ok g w S B -> mobjs w !! a = Some m -> stays g m m' -> links_ok g (w <| mobjs ::= <[a := m']> |>) S B.
Proof.
  intros [L1 L2 L3 L4 L5 L6] Em (H1 & H2 & H3 & H4 & H5 & H6). split; [exact L1|exact L2| | | |].
  - exact (lists_put sector_links (mobjs w) S a m m' Em H1 H2 L3).
  - exact (lists_put block_links (mobjs w) B a m m' Em H3 H4 L4).
  - exact (home_put sector_home (mobjs w) S a m m' Em H5 L5).
  - exact (home_put (block_home g) (mobjs w) B a m m' Em H6 L6).
Qed.
Definition put_thing a m p : pworld C := p <| pl ::= fun w => w <| mobjs ::= <[a := m]> |> |>.
Lemma put_ok p S B a m m' : level_ok p S B -> thing_at a p = Ret m -> stays (gr p) m m' -> level_ok (put_thing a m' p) S B.
Proof.
  intros [[V1 V2 V3 V4] V5 V6 V7 V8] Em Hst. assert (Em' : mobjs (pl p) !! a = Some m) by (unfold thing_at, getm in Em; destruct (mobjs (pl p) !! a); [by injection Em as ->|done]).
  pose proof (links_put _ _ _ _ a m m' V5 Em' Hst) as Hl. split; [split; [exact V1|exact V2|exact V3|exact (li_blists _ _ _ _ Hl)]|exact Hl|exact V6|exact V7|exact V8].
Qed.
Lemma upd_thing_run a f p m : thing_at a p = Ret m -> upd_thing a f p = Ret (put_thing a (f m) p).
Proof. intros E. unfold upd_thing. by rewrite E. Qed.
Lemma put_at a m p : thing_at a (put_thing a m p) = Ret m.
Proof. unfold thing_at, getm, put_thing. destruct p as [? ? ? [? ? ?] ? ? ? ?]. unfold set. cbn. by rewrite lookup_insert_eq. Qed.
Lemma put_put a m m' p : put_thing a m' (put_thing a m p) = put_thing a m' p.
Proof. unfold put_thing. destruct p as [? ? ? [? ? ?] ? ? ? ?]. unfold set. cbn. by rewrite insert_insert_eq. Qed.

End movement.

(** ** The reach of an explosion *)

(** [(damage+MAXRADIUS)<<FRACBITS] adds the margin for the radius of things in
    fixed point and shifts it out of the integer: the blocks that are searched end
    at the damage itself. *)
Lemma radius_margin_lost d : 0 <= d < 2 ^ 15 -> radius_dist d = d * FRACUNIT.
Proof.
  intros Hd. unfold radius_dist, MAXRADIUS, FRACBITS, FRACUNIT. rewrite (wraps_id 32 (d + _)) by (unfold fits_s; cbn; lia).
  rewrite Z.shiftl_mul_pow2 by lia. transitivity (wraps 32 (d * 65536)); [|apply wraps_id; unfold fits_s; cbn; lia].
  apply wraps_congr. replace ((d + 32 * 65536) * 2 ^ 16) with (d * 65536 + 32 * 2 ^ 32) by lia. by rewrite Z.mod_add by lia.
Qed.

(** ** Witnesses *)

(** Two things in the room of [SmallMap], with a two-sided line in it. *)
Module RoomDemo.
#[local] Instance act : Actions unit := {|
  P_DamageMobj _ _ _ _ p := Ret p; P_SetMobjState _ _ p := Ret p; P_TouchSpecialThing _ _ p := Ret p; P_CrossSpecialLine _ _ _ p := Ret p;
  P_SpawnMobj _ _ _ _ p := Ret (0, p); P_RemoveMobj _ p := Ret p; info_damage _ := 0; info_spawnstate _ := 0; gamemap := 1; leveltime _ := 0; spechit_base := 0x01C09C98 |}.
Definition room0 : psector := mk_psector (mk_heights 0 (128 * FRACUNIT)) 1 0 (mk_bbox 1 0 0 1).
Definition vars : moving unit := mk_moving 0 0 0 0 (mk_bbox 0 0 0 0) false 0 0 0 None [] 0 0 0 [room0] (mk_rnd 0 0) 0 0 (0, 0) tt.
Definition world : pworld unit := mk_play [TraceDemo.wall] 7 SmallMap.small_grid SmallMap.two (mk_opening 0 0 0 0) 0 [] vars.
Definition mover : Mobj.mobj_t := SmallMap.thing 30 5 0 32 0 32.
Lemma law : CrossLaw (act := act).
Proof. intros i side a p p' E. cbn in E. injection E as <-. left. by split. Qed.
Lemma world_ok : level_ok (bsp := SmallMap.bsp) (bm := TraceDemo.bm) world [[32; 16]] [[32; 16]; []; []; []].
Proof.
  split.
  - pose proof TraceDemo.level_ok as [H1 H2 _ _]. split; [exact H1|exact H2|reflexivity|exact (li_blists _ _ _ _ SmallMap.two_ok)].
  - exact SmallMap.two_ok.
  - exact SmallMap.small_map_ok.
  - reflexivity.
  - constructor; [|constructor]. intros _. split; [discriminate|]. split; eexists; reflexivity.
Qed.
Lemma world_unmarked : unmarked world.
Proof. constructor; [discriminate|constructor]. Qed.
Lemma mover_plain : plain mover.
Proof. repeat split. Qed.
Lemma mover_placed : placed (bsp := SmallMap.bsp) SmallMap.small_grid (pl world) [[32; 16]] [[32; 16]; []; []; []] 16 mover.
Proof.
  split.
  - reflexivity.
  - intros _. exists 0%nat, [32; 16]. split; [reflexivity|]. split; [reflexivity|]. right. left.
  - intros _ k Ek. vm_compute in Ek. injection Ek as <-. exists [32; 16]. split; [reflexivity|]. right. left.
  - intros _ Ek. vm_compute in Ek. discriminate Ek.
Qed.
(** There is one sector only. *)
Lemma one_sector x y sec : sector_at (bsp := SmallMap.bsp) world x y sec -> sec = room0.
Proof. intros (i & s & _ & _ & E). destruct s as [|s]; [by injection E as <-|by destruct s]. Qed.
End RoomDemo.
