(* ===== verification/AttackTheorems.v ===== *)
(** * Using lines

    P_UseLines with the traversal it goes through: the nearest line that is special
    or has no opening decides. *)
From Stdlib Require Import Sorted.
From S2P Require Import Prelude MFixed MRandom MBbox MapGeometry DLists GameTypes ThingLinks ThingLinkTheorems Sight PathTraverse TraverseTheorems Movement MovementTheorems Attack.
#[local] Open Scope doom_scope.

Section attack.
Context {A : Arch} {bsp : Bsp} {sg : Segs} {bm : Blockmap} {C : Type} {act : Actions (attack C)} {shots : Shots C}.
Implicit Types (p : aworld C) (a : Z) (m : Mobj.mobj_t) (c : intercept_t) (ld : Geo.line_t).

(** Without early exit the search for intercepts goes on to the end. *)
Lemma gather_goes (lines : list Geo.line_t) things trace ts : forall ins go ins', gather lines things trace false ts ins = Ret (go, ins') -> go = true.
Proof.
  induction ts as [|t ts IH]; intros ins go ins' E; cbn [gather] in E; [by injection E as <- _|].
  destruct (target_hit _ _ _ _ t) as [h| | |] eqn:Eh; try done. cbn [obind] in E. destruct h as [| |f]; [by eapply IH| |by eapply IH]. exfalso. clear -Eh.
  destruct t as [i|b]; cbn [target_hit] in Eh.
  - destruct (lines !! i); [|done]. cbn [of_option obind] in Eh. unfold line_hit in Eh. destruct (line_sides trace _) as [s1 s2]. destruct (s1 =? s2); [done|].
    destruct (P_InterceptVector _ _) as [f| | |]; try done. cbn [obind andb] in Eh. by destruct (f <? 0).
  - destruct (things !! b); [|done]. cbn [of_option obind] in Eh. unfold thing_hit in Eh. destruct (thing_divline trace _) as [[[x1 y1] x2] y2]. destruct (_ =? _); [done|].
    destruct (P_InterceptVector _ _) as [f| | |]; try done. cbn [obind] in Eh. by destruct (f <? 0).
Qed.
(** Only lines are collected when only lines are asked for. *)
Definition is_line c : Prop := exists n, d c = ALine n.
Lemma gather_lines (lines : list Geo.line_t) things trace e ts : Forall (fun t => exists n, t = ALine n) ts -> forall ins go ins', Forall is_line ins ->
  gather lines things trace e ts ins = Ret (go, ins') -> Forall is_line ins'.
Proof.
  induction 1 as [|t ts [n ->] _ IH]; intros ins go ins' Hi E; cbn [gather] in E; [by injection E as _ <-|].
  destruct (target_hit _ _ _ _ _) as [h| | |]; try done. cbn [obind] in E. destruct h as [| |f]; [by eapply IH|by injection E as _ <-|].
  eapply IH; [|exact E]. apply Forall_app. split; [done|]. constructor; [by exists n|constructor].
Qed.
Lemma targets_lines g B bs : forall seen, Forall (fun t => exists n, t = ALine n) (targets PT_ADDLINES g B seen bs).
Proof.
  induction bs as [|b bs IH]; intros seen; cbn [targets]; [constructor|]. apply Forall_app. split; [|apply IH]. unfold block_targets, block_things. change (has_flag PT_ADDLINES PT_ADDTHINGS) with false.
  apply Forall_app. split; [|constructor]. apply Forall_forall. intros t (i & -> & _)%list_elem_of_fmap. by exists i.
Qed.
(** The intercepts name targets that were looked at. *)
Lemma gather_named (lines : list Geo.line_t) things trace e ts : forall ins go ins', gather lines things trace e ts ins = Ret (go, ins') ->
  forall c, c ∈ ins' -> c ∈ ins \/ d c ∈ ts.
Proof.
  induction ts as [|t ts IH]; intros ins go ins' E c Hc; cbn [gather] in E; [injection E as _ <-; by left|].
  destruct (target_hit _ _ _ _ t) as [h| | |]; try done. cbn [obind] in E. destruct h as [| |f].
  - destruct (IH ins go ins' E c Hc); [by left|right; by right].
  - injection E as _ <-. by left.
  - destruct (IH _ go ins' E c Hc) as [H|H]; [|right; by right]. rewrite elem_of_app, list_elem_of_singleton in H. destruct H as [H|H]; [by left|]. rewrite H. right. left.
Qed.

(** ** What a line does for the user *)
Definition range_of (hs : list heights) ld : Z := if Geo.sidenum1 ld =? -1 then 0 else i32 (line_top hs ld - line_bottom hs ld).
(** Every line with a second side has sectors on both sides. *)
Definition two_sided_ok (hs : list heights) ld : Prop := Geo.sidenum1 ld <> -1 -> opening_ok hs ld /\ Geo.backsector ld <> None.
Lemma opening_range hs ld o : two_sided_ok hs ld -> exists o', P_LineOpening hs ld o = Ret o' /\ openrange o' = range_of hs ld.
Proof.
  intros H. unfold range_of. destruct (Geo.sidenum1 ld =? -1) eqn:E.
  - unfold P_LineOpening. rewrite E. eexists. split; [done|]. by destruct o.
  - breflect. destruct (H E) as [Ho Hb]. destruct (LineOpening_run hs ld o Ho Hb) as [r Er]. exists (mk_opening (line_top hs ld) (line_bottom hs ld) r (line_low hs ld)). split; [done|]. cbn.
    unfold P_LineOpening in Er. rewrite (proj2 (Z.eqb_neq _ _) E) in Er. destruct (Ho Hb) as (_ & [front Hf] & [back Hbk]).
    destruct (Geo.frontsector ld) as [f|]; [|done]. destruct (Geo.backsector ld) as [b|]; [|done]. cbn [mbind option_bind of_option obind] in *. rewrite Hf, Hbk in Er. cbn [of_option obind] in Er.
    destruct (floorheight front >? floorheight back); injection Er as E1 E2 E3 E4; cbn in E1, E2, E3, E4; rewrite <- E1, <- E2, <- E3; done.
Qed.

(** The first line that ends the search: it is special, or nothing is open. *)
Definition ends_use (hs : list heights) (ls : list Geo.line_t) c : bool :=
  match d c with
  | ALine n => match ls !! n with Some ld => negb (Geo.special ld =? 0) || (range_of hs ld <=? 0) | None => false end
  | AThing _ => false
  end.
(** What happens at the line. *)
Definition use_at mo m (ls : list Geo.line_t) c p : outcome (aworld C) :=
  match d c with
  | ALine n =>
      let* ld := of_option (ls !! n) in
      if Geo.special ld =? 0 then Ret (sound_noway mo p)
      else P_UseSpecialLine mo n (if P_PointOnLineSide (Mobj.x m) (Mobj.y m) ld =? 1 then 1 else 0) p
  | AThing _ => Undef
  end.
Lemma use_trace_run trace mo m hs ls l : Forall (fun c => exists n ld, d c = ALine n /\ ls !! n = Some ld /\ two_sided_ok hs ld) l -> forall p, hs = hts <$> sectors (client p) ->
  Forall2 marked_line ls (maplines p) -> usething (at_ p) = mo -> thing_at mo p = Ret m ->
  exists o, run_list (PTR_UseTraverse trace) l p =
    match List.find (ends_use hs ls) l with
    | None => Ret (true, p <| open := o |>)
    | Some c => let* p := use_at mo m ls c (p <| open := o |>) in Ret (false, p)
    end.
Proof.
  induction 1 as [|c l (n & ld & Ed & El & Hts) _ IH]; intros p Ehs Hl Eu Em; [exists (open p); by destruct p|].
  destruct (Forall2_lookup_l _ _ _ _ _ Hl El) as (ld' & El' & Hm). cbn [run_list List.find]. unfold PTR_UseTraverse at 1, ends_use at 1, line_of. rewrite Ed, El, El'. cbn [of_option obind].
  assert (Esp : Geo.special ld' = Geo.special ld) by (by rewrite Hm). rewrite Esp. destruct (Geo.special ld =? 0) eqn:E0; cbn [negb orb].
  - unfold opening_of. rewrite <- Ehs. destruct (opening_range hs ld (open p) Hts) as (o & Eo & Er).
    assert (Eo' : P_LineOpening hs ld' (open p) = Ret o) by (rewrite <- Eo, Hm; done). rewrite Eo'. cbn [obind]. change (open (p <| open := o |>)) with o. rewrite Er.
    destruct (range_of hs ld <=? 0).
    + exists o. unfold use_at. rewrite Ed, El. cbn [of_option obind]. rewrite E0. change (at_ (p <| open := o |>)) with (at_ p). rewrite Eu. reflexivity.
    + cbn [obind]. destruct (IH (p <| open := o |>)) as (o2 & E2); [exact Ehs|exact Hl|exact Eu|exact Em|]. exists o2. rewrite E2. replace (p <| open := o |> <| open := o2 |>) with (p <| open := o2 |>) by (by destruct p). reflexivity.
  - exists (open p). replace (p <| open := open p |>) with p by (by destruct p). rewrite Eu, Em. cbn [obind]. unfold use_at. rewrite Ed, El. cbn [of_option obind]. rewrite E0.
    assert (Eside : P_PointOnLineSide (Mobj.x m) (Mobj.y m) ld' = P_PointOnLineSide (Mobj.x m) (Mobj.y m) ld) by (by rewrite Hm). rewrite Eside.
    destruct (P_UseSpecialLine _ _ _ p); reflexivity.
Qed.
Lemma bind_false {X} (r : outcome X) : (let* '(_, p) := let* p := r in Ret (false, p) in Ret p) = r.
Proof. by destruct r. Qed.
(** The state in which the lines are used. *)
Definition user mo p : aworld C := on_at (fun t => t <| usething := mo |>) p.

(** C10: P_UseLines of a player on a well-formed level: the lines of the blocks in
    front, within the range of use, are looked at from the nearest on. The first
    that is special or has no opening decides: a special line is used from the side
    the player is on, once and no other; at a line without an opening there is a
    sound; if there is none, nothing happens but marks of lines. *)
Theorem P_UseLines_correct mo m p B : blocks_ok p B -> unmarked p -> Forall (two_sided_ok (hts <$> sectors (client p))) (maplines p) -> thing_at mo p = Ret m ->
  let x2 := (aim_end m (Mobj.angle m) USERANGE).1 in let y2 := (aim_end m (Mobj.angle m) USERANGE).2 in
  let trace := start_trace (gr p) (Mobj.x m) (Mobj.y m) x2 y2 in
  exists w mapx mapy xi yi ins, path_start (gr p) trace x2 y2 = Ret (w, (mapx, mapy), (xi, yi)) /\
    gather (maplines p) (mobjs (pl p)) trace false (targets PT_ADDLINES (gr p) B [] (path 64 w mapx mapy xi yi)) [] = Ret (true, ins) /\
    (Z.of_nat (length ins) <= MAXINTERCEPTS_ORIGINAL + 1 ->
     exists l lns o, l ≡ₚ in_reach FRACUNIT ins /\ StronglySorted nearer l /\ Forall2 marked_line (maplines p) lns /\
       let p' := user mo p <| validcount ::= fun v => i32 (v + 1) |> <| maplines := lns |> <| open := o |> in
       P_UseLines mo p = match List.find (ends_use (hts <$> sectors (client p)) (maplines p)) l with None => Ret p' | Some c => use_at mo m (maplines p) c p' end).
Proof.
  intros Hok Hun Hts Em x2 y2 trace. set (pu := user mo p).
  assert (Hoku : blocks_ok pu B) by (destruct Hok as [V1 V2 V3 V4]; split; [exact V1|exact V2|exact V3|exact V4]).
  destruct (PathTraverse_run (Mobj.x m) (Mobj.y m) x2 y2 PT_ADDLINES PTR_UseTraverse pu B Hoku Hun) as (w & xi & yi & Es & _ & go & ins & Eg & Hrun). cbv zeta in Es, Eg, Hrun.
  change (has_flag PT_ADDLINES PT_EARLYOUT) with false in Eg. pose proof (gather_goes _ _ _ _ _ _ _ Eg) as ->.
  eexists w, _, _, xi, yi, ins. split; [exact Es|]. split; [exact Eg|]. intros Hn.
  match type of Eg with context [targets _ _ _ [] ?b] => set (bs := b) in * end. destruct (Hrun Hn) as (p' & l & Hm & Hl & Hsort & _ & E). clear Hrun.
  assert (Hcs : Forall (fun c => exists n ld, d c = ALine n /\ maplines p !! n = Some ld /\ two_sided_ok (hts <$> sectors (client p)) ld) l).
  { apply Forall_forall. intros c Hc. rewrite Hl in Hc. apply list_elem_of_filter in Hc as [_ Hc].
    destruct (gather_named _ _ _ _ _ _ _ _ Eg c Hc) as [H|H]; [by apply elem_of_nil in H|].
    pose proof (targets_ok PT_ADDLINES pu B bs Hoku []) as Hto. rewrite Forall_forall in Hto. specialize (Hto _ H).
    pose proof (targets_lines (gr pu) B bs []) as Htl. rewrite Forall_forall in Htl. destruct (Htl _ H) as [n Edn]. rewrite Edn in Hto. cbn [target_ok] in Hto.
    destruct (lookup_lt_is_Some_2 _ _ Hto) as [ld El]. exists n, ld. split; [exact Edn|]. split; [exact El|]. rewrite Forall_forall in Hts. apply Hts. by eapply list_elem_of_lookup_2. }
  destruct Hm as (lns & Hlns & Ep'). change (maplines (pu <| validcount ::= fun v => i32 (v + 1) |>)) with (maplines p) in Hlns.
  destruct (use_trace_run (start_trace (gr pu) (Mobj.x m) (Mobj.y m) x2 y2) mo m (hts <$> sectors (client p)) (maplines p) l Hcs p') as (o & Er); [by rewrite Ep'|by rewrite Ep'|by rewrite Ep'|rewrite Ep'; exact Em|].
  exists l, lns, o. split; [exact Hl|]. split; [exact Hsort|]. split; [exact Hlns|]. cbv zeta. unfold P_UseLines. fold (user mo p). fold pu. change (thing_at mo pu) with (thing_at mo p). rewrite Em. cbn [obind].
  rewrite (surjective_pairing (aim_end m (Mobj.angle m) USERANGE)). fold x2 y2. rewrite E, Er, Ep'. destruct (List.find _ l) as [c|]; [|reflexivity]. apply bind_false.
Qed.
End attack.

(** ** Witness *)

(** A player before a switch; the lines that were used are noted. *)
Module UseDemo.
#[local] Instance act : Actions (attack (list nat)) := {|
  P_DamageMobj _ _ _ _ p := Ret p; P_SetMobjState _ _ p := Ret p; P_TouchSpecialThing _ _ p := Ret p; P_CrossSpecialLine _ _ _ p := Ret p;
  P_SpawnMobj _ _ _ _ p := Ret (0, p); P_RemoveMobj _ p := Ret p; info_damage _ := 0; info_spawnstate _ := 0; gamemap := 1; leveltime _ := 0; spechit_base := 0x01C09C98 |}.
#[local] Instance shots : Shots (list nat) := {|
  finesine _ := 0; finecosine _ := FRACUNIT; R_PointToAngle2 _ _ _ _ := 0; skyflatnum := 7; dummy_mobj := 0; P_ShootSpecialLine _ _ p := Ret p;
  P_UseSpecialLine _ n _ p := Ret (on_at (fun t => t <| other ::= cons n |>) p); P_SpawnPuff _ _ _ p := Ret p; P_SpawnBlood _ _ _ _ p := Ret p; sound_noway _ p := p |}.
Definition switch : Geo.line_t := TraceDemo.wall <| Geo.special := 1 |>.
Definition vars : moving (attack (list nat)) :=
  mk_moving 0 0 0 0 (mk_bbox 0 0 0 0) false 0 0 0 None [] 0 0 0 [RoomDemo.room0] (mk_rnd 0 0) 0 0 (0, 0) (mk_attack 0 0 None None 0 0 0 0 0 0 0 0 0 0 []).
Definition world : aworld (list nat) := mk_play [switch] 7 SmallMap.small_grid SmallMap.one (mk_opening 0 0 0 0) 0 [] vars.
Lemma yard_ok : blocks_ok (bm := TraceDemo.bm) world [[16]; []; []; []].
Proof. pose proof TraceDemo.level_ok as [H1 H2 H3 H4]. split; [exact H1|exact H2|exact H3|exact H4]. Qed.
End UseDemo.
Lemma P_UseLines_correct_witness : exists p', P_UseLines (A := LP64) (bm := TraceDemo.bm) (shots := UseDemo.shots) 16 UseDemo.world = Ret p' /\ other (at_ p') = [0%nat].
Proof.
  destruct (P_UseLines_correct (A := LP64) (bm := TraceDemo.bm) (shots := UseDemo.shots) 16 (SmallMap.thing 30 5 0 0 0 0) UseDemo.world [[16]; []; []; []] UseDemo.yard_ok) as (w & mapx & mapy & xi & yi & ins & Es & Eg & H).
  - constructor; [discriminate|constructor].
  - constructor; [|constructor]. intros _. split; [|discriminate]. intros _. split; [discriminate|]. split; eexists; reflexivity.
  - reflexivity.
  - vm_compute in Es. injection Es as <- <- <- <- <-. vm_compute in Eg. injection Eg as <-. destruct H as (l & lns & o & Hl & _ & _ & E); [vm_compute; discriminate|].
    match type of Hl with _ ≡ₚ ?r => assert (Er : exists c, r = [c] /\ d c = ALine 0) by (eexists; split; vm_compute; reflexivity) end. destruct Er as (c & Er & Ed). rewrite Er in Hl. apply Permutation_singleton_r in Hl. subst l.
    assert (Ef : List.find (ends_use [hts RoomDemo.room0] [UseDemo.switch]) [c] = Some c) by (cbn [List.find]; unfold ends_use; rewrite Ed; reflexivity).
    change (List.find (ends_use (hts <$> sectors (client UseDemo.world)) (maplines UseDemo.world)) [c]) with (List.find (ends_use [hts RoomDemo.room0] [UseDemo.switch]) [c]) in E.
    rewrite Ef in E. unfold use_at in E. rewrite Ed in E. eexists. split; [exact E|]. reflexivity.
Defined.
