(* ===== verification/Info.v ===== *)
(** * The tables of states and types of things (info.c)

    Each row of [states] is sprite, frame, tics, action and next state; each row of
    [mobjinfo] has the fields in the order of the structure. A state is named by
    its place in the table, as a type of thing is. *)
From S2P Require Import Prelude.
#[local] Open Scope Z_scope.

(** The functions that states call; [NULL]: none. *)
Inductive action_t : Set :=
| NULL
| A_Light0 | A_WeaponReady | A_Lower | A_Raise | A_Punch | A_ReFire | A_FirePistol | A_Light1
| A_FireShotgun | A_Light2 | A_FireShotgun2 | A_CheckReload | A_OpenShotgun2 | A_LoadShotgun2 | A_CloseShotgun2 | A_FireCGun
| A_GunFlash | A_FireMissile | A_Saw | A_FirePlasma | A_BFGsound | A_FireBFG | A_BFGSpray | A_Explode
| A_Pain | A_PlayerScream | A_Fall | A_XScream | A_Look | A_Chase | A_FaceTarget | A_PosAttack
| A_Scream | A_SPosAttack | A_VileChase | A_VileStart | A_VileTarget | A_VileAttack | A_StartFire | A_Fire
| A_FireCrackle | A_Tracer | A_SkelWhoosh | A_SkelFist | A_SkelMissile | A_FatRaise | A_FatAttack1 | A_FatAttack2
| A_FatAttack3 | A_BossDeath | A_CPosAttack | A_CPosRefire | A_TroopAttack | A_SargAttack | A_HeadAttack | A_BruisAttack
| A_SkullAttack | A_Metal | A_SpidRefire | A_BabyMetal | A_BspiAttack | A_Hoof | A_CyberAttack | A_PainAttack
| A_PainDie | A_KeenDie | A_BrainPain | A_BrainScream | A_BrainDie | A_BrainAwake | A_BrainSpit | A_SpawnSound
| A_SpawnFly | A_BrainExplode.
#[export] Instance action_t_eq_dec : EqDecision action_t.
Proof. solve_decision. Defined.

Module State.
Record state_t : Set := mk { sprite : Z; frame : Z; tics : Z; action : action_t; nextstate : Z; misc1 : Z; misc2 : Z }.
End State.
Module MobjInfo.
Record mobjinfo_t : Set := mk {
  doomednum : Z; spawnstate : Z; spawnhealth : Z; seestate : Z; seesound : Z; reactiontime : Z; attacksound : Z; painstate : Z;
  painchance : Z; painsound : Z; meleestate : Z; missilestate : Z; deathstate : Z; xdeathstate : Z; deathsound : Z; speed : Z;
  radius : Z; height : Z; mass : Z; damage : Z; activesound : Z; flags : Z; raisestate : Z }.
End MobjInfo.

Definition NUMSTATES : Z := 967.
Definition NUMMOBJTYPES : Z := 137.

#[local] Abbreviation st s f t a n := (State.mk s f t a n 0 0).
Definition states : list State.state_t := [
  st 0 0 (-1) NULL 0; st 1 4 0 A_Light0 0; st 2 0 1 A_WeaponReady 2; st 2 0 1 A_Lower 3;
  st 2 0 1 A_Raise 4; st 2 1 4 NULL 6; st 2 2 4 A_Punch 7; st 2 3 5 NULL 8;
  st 2 2 4 NULL 9; st 2 1 5 A_ReFire 2; st 3 0 1 A_WeaponReady 10; st 3 0 1 A_Lower 11;
  st 3 0 1 A_Raise 12; st 3 0 4 NULL 14; st 3 1 6 A_FirePistol 15; st 3 2 4 NULL 16;
  st 3 1 5 A_ReFire 10; st 4 32768 7 A_Light1 1; st 1 0 1 A_WeaponReady 18; st 1 0 1 A_Lower 19;
  st 1 0 1 A_Raise 20; st 1 0 3 NULL 22; st 1 0 7 A_FireShotgun 23; st 1 1 5 NULL 24;
  st 1 2 5 NULL 25; st 1 3 4 NULL 26; st 1 2 5 NULL 27; st 1 1 5 NULL 28;
  st 1 0 3 NULL 29; st 1 0 7 A_ReFire 18; st 5 32768 4 A_Light1 31; st 5 32769 3 A_Light2 1;
  st 6 0 1 A_WeaponReady 32; st 6 0 1 A_Lower 33; st 6 0 1 A_Raise 34; st 6 0 3 NULL 36;
  st 6 0 7 A_FireShotgun2 37; st 6 1 7 NULL 38; st 6 2 7 A_CheckReload 39; st 6 3 7 A_OpenShotgun2 40;
  st 6 4 7 NULL 41; st 6 5 7 A_LoadShotgun2 42; st 6 6 6 NULL 43; st 6 7 6 A_CloseShotgun2 44;
  st 6 0 5 A_ReFire 32; st 6 1 7 NULL 46; st 6 0 3 NULL 33; st 6 32776 5 A_Light1 48;
  st 6 32777 4 A_Light2 1; st 7 0 1 A_WeaponReady 49; st 7 0 1 A_Lower 50; st 7 0 1 A_Raise 51;
  st 7 0 4 A_FireCGun 53; st 7 1 4 A_FireCGun 54; st 7 1 0 A_ReFire 49; st 8 32768 5 A_Light1 1;
  st 8 32769 5 A_Light2 1; st 9 0 1 A_WeaponReady 57; st 9 0 1 A_Lower 58; st 9 0 1 A_Raise 59;
  st 9 1 8 A_GunFlash 61; st 9 1 12 A_FireMissile 62; st 9 1 0 A_ReFire 57; st 10 32768 3 A_Light1 64;
  st 10 32769 4 NULL 65; st 10 32770 4 A_Light2 66; st 10 32771 4 A_Light2 1; st 11 2 4 A_WeaponReady 68;
  st 11 3 4 A_WeaponReady 67; st 11 2 1 A_Lower 69; st 11 2 1 A_Raise 70; st 11 0 4 A_Saw 72;
  st 11 1 4 A_Saw 73; st 11 1 0 A_ReFire 67; st 12 0 1 A_WeaponReady 74; st 12 0 1 A_Lower 75;
  st 12 0 1 A_Raise 76; st 12 0 3 A_FirePlasma 78; st 12 1 20 A_ReFire 74; st 13 32768 4 A_Light1 1;
  st 13 32769 4 A_Light1 1; st 14 0 1 A_WeaponReady 81; st 14 0 1 A_Lower 82; st 14 0 1 A_Raise 83;
  st 14 0 20 A_BFGsound 85; st 14 1 10 A_GunFlash 86; st 14 1 10 A_FireBFG 87; st 14 1 20 A_ReFire 81;
  st 15 32768 11 A_Light1 89; st 15 32769 6 A_Light2 1; st 16 2 8 NULL 91; st 16 1 8 NULL 92;
  st 16 0 8 NULL 0; st 17 32768 4 NULL 94; st 17 1 4 NULL 95; st 17 2 4 NULL 96;
  st 17 3 4 NULL 0; st 18 32768 4 NULL 98; st 18 32769 4 NULL 97; st 18 32770 6 NULL 100;
  st 18 32771 6 NULL 101; st 18 32772 6 NULL 0; st 19 32768 4 NULL 103; st 19 32769 4 NULL 102;
  st 19 32770 6 NULL 105; st 19 32771 6 NULL 106; st 19 32772 6 NULL 0; st 20 32768 6 NULL 108;
  st 20 32769 6 NULL 107; st 21 32768 4 NULL 110; st 21 32769 4 NULL 111; st 21 32770 4 NULL 112;
  st 21 32771 4 NULL 113; st 21 32772 4 NULL 0; st 22 32768 1 NULL 114; st 23 32768 4 NULL 116;
  st 23 32769 4 NULL 115; st 24 32768 8 NULL 118; st 24 32769 8 NULL 119; st 24 32770 8 A_BFGSpray 120;
  st 24 32771 8 NULL 121; st 24 32772 8 NULL 122; st 24 32773 8 NULL 0; st 25 32768 8 NULL 124;
  st 25 32769 8 NULL 125; st 25 32770 8 NULL 126; st 25 32771 8 NULL 0; st 22 32769 8 A_Explode 128;
  st 22 32770 6 NULL 129; st 22 32771 4 NULL 0; st 26 32768 6 NULL 131; st 26 32769 6 NULL 132;
  st 26 32768 6 NULL 133; st 26 32769 6 NULL 134; st 26 32770 6 NULL 135; st 26 32771 6 NULL 136;
  st 26 32772 6 NULL 137; st 26 32773 6 NULL 138; st 26 32774 6 NULL 139; st 26 32775 6 NULL 140;
  st 26 32776 6 NULL 141; st 26 32777 6 NULL 0; st 27 32768 6 NULL 143; st 27 32769 6 NULL 144;
  st 27 32768 6 NULL 145; st 27 32769 6 NULL 146; st 27 32770 6 NULL 147; st 27 32771 6 NULL 148;
  st 27 32772 6 NULL 0; st 28 0 (-1) NULL 0; st 28 0 4 NULL 151; st 28 1 4 NULL 152;
  st 28 2 4 NULL 153; st 28 3 4 NULL 150; st 28 4 12 NULL 149; st 28 32773 6 NULL 154;
  st 28 6 4 NULL 157; st 28 6 4 A_Pain 149; st 28 7 10 NULL 159; st 28 8 10 A_PlayerScream 160;
  st 28 9 10 A_Fall 161; st 28 10 10 NULL 162; st 28 11 10 NULL 163; st 28 12 10 NULL 164;
  st 28 13 (-1) NULL 0; st 28 14 5 NULL 166; st 28 15 5 A_XScream 167; st 28 16 5 A_Fall 168;
  st 28 17 5 NULL 169; st 28 18 5 NULL 170; st 28 19 5 NULL 171; st 28 20 5 NULL 172;
  st 28 21 5 NULL 173; st 28 22 (-1) NULL 0; st 29 0 10 A_Look 175; st 29 1 10 A_Look 174;
  st 29 0 4 A_Chase 177; st 29 0 4 A_Chase 178; st 29 1 4 A_Chase 179; st 29 1 4 A_Chase 180;
  st 29 2 4 A_Chase 181; st 29 2 4 A_Chase 182; st 29 3 4 A_Chase 183; st 29 3 4 A_Chase 176;
  st 29 4 10 A_FaceTarget 185; st 29 5 8 A_PosAttack 186; st 29 4 8 NULL 176; st 29 6 3 NULL 188;
  st 29 6 3 A_Pain 176; st 29 7 5 NULL 190; st 29 8 5 A_Scream 191; st 29 9 5 A_Fall 192;
  st 29 10 5 NULL 193; st 29 11 (-1) NULL 0; st 29 12 5 NULL 195; st 29 13 5 A_XScream 196;
  st 29 14 5 A_Fall 197; st 29 15 5 NULL 198; st 29 16 5 NULL 199; st 29 17 5 NULL 200;
  st 29 18 5 NULL 201; st 29 19 5 NULL 202; st 29 20 (-1) NULL 0; st 29 10 5 NULL 204;
  st 29 9 5 NULL 205; st 29 8 5 NULL 206; st 29 7 5 NULL 176; st 30 0 10 A_Look 208;
  st 30 1 10 A_Look 207; st 30 0 3 A_Chase 210; st 30 0 3 A_Chase 211; st 30 1 3 A_Chase 212;
  st 30 1 3 A_Chase 213; st 30 2 3 A_Chase 214; st 30 2 3 A_Chase 215; st 30 3 3 A_Chase 216;
  st 30 3 3 A_Chase 209; st 30 4 10 A_FaceTarget 218; st 30 32773 10 A_SPosAttack 219; st 30 4 10 NULL 209;
  st 30 6 3 NULL 221; st 30 6 3 A_Pain 209; st 30 7 5 NULL 223; st 30 8 5 A_Scream 224;
  st 30 9 5 A_Fall 225; st 30 10 5 NULL 226; st 30 11 (-1) NULL 0; st 30 12 5 NULL 228;
  st 30 13 5 A_XScream 229; st 30 14 5 A_Fall 230; st 30 15 5 NULL 231; st 30 16 5 NULL 232;
  st 30 17 5 NULL 233; st 30 18 5 NULL 234; st 30 19 5 NULL 235; st 30 20 (-1) NULL 0;
  st 30 11 5 NULL 237; st 30 10 5 NULL 238; st 30 9 5 NULL 239; st 30 8 5 NULL 240;
  st 30 7 5 NULL 209; st 31 0 10 A_Look 242; st 31 1 10 A_Look 241; st 31 0 2 A_VileChase 244;
  st 31 0 2 A_VileChase 245; st 31 1 2 A_VileChase 246; st 31 1 2 A_VileChase 247; st 31 2 2 A_VileChase 248;
  st 31 2 2 A_VileChase 249; st 31 3 2 A_VileChase 250; st 31 3 2 A_VileChase 251; st 31 4 2 A_VileChase 252;
  st 31 4 2 A_VileChase 253; st 31 5 2 A_VileChase 254; st 31 5 2 A_VileChase 243; st 31 32774 0 A_VileStart 256;
  st 31 32774 10 A_FaceTarget 257; st 31 32775 8 A_VileTarget 258; st 31 32776 8 A_FaceTarget 259; st 31 32777 8 A_FaceTarget 260;
  st 31 32778 8 A_FaceTarget 261; st 31 32779 8 A_FaceTarget 262; st 31 32780 8 A_FaceTarget 263; st 31 32781 8 A_FaceTarget 264;
  st 31 32782 8 A_VileAttack 265; st 31 32783 20 NULL 243; st 31 32794 10 NULL 267; st 31 32795 10 NULL 268;
  st 31 32796 10 NULL 243; st 31 16 5 NULL 270; st 31 16 5 A_Pain 243; st 31 16 7 NULL 272;
  st 31 17 7 A_Scream 273; st 31 18 7 A_Fall 274; st 31 19 7 NULL 275; st 31 20 7 NULL 276;
  st 31 21 7 NULL 277; st 31 22 7 NULL 278; st 31 23 5 NULL 279; st 31 24 5 NULL 280;
  st 31 25 (-1) NULL 0; st 32 32768 2 A_StartFire 282; st 32 32769 2 A_Fire 283; st 32 32768 2 A_Fire 284;
  st 32 32769 2 A_Fire 285; st 32 32770 2 A_FireCrackle 286; st 32 32769 2 A_Fire 287; st 32 32770 2 A_Fire 288;
  st 32 32769 2 A_Fire 289; st 32 32770 2 A_Fire 290; st 32 32771 2 A_Fire 291; st 32 32770 2 A_Fire 292;
  st 32 32771 2 A_Fire 293; st 32 32770 2 A_Fire 294; st 32 32771 2 A_Fire 295; st 32 32772 2 A_Fire 296;
  st 32 32771 2 A_Fire 297; st 32 32772 2 A_Fire 298; st 32 32771 2 A_Fire 299; st 32 32772 2 A_FireCrackle 300;
  st 32 32773 2 A_Fire 301; st 32 32772 2 A_Fire 302; st 32 32773 2 A_Fire 303; st 32 32772 2 A_Fire 304;
  st 32 32773 2 A_Fire 305; st 32 32774 2 A_Fire 306; st 32 32775 2 A_Fire 307; st 32 32774 2 A_Fire 308;
  st 32 32775 2 A_Fire 309; st 32 32774 2 A_Fire 310; st 32 32775 2 A_Fire 0; st 17 1 4 NULL 312;
  st 17 2 4 NULL 313; st 17 1 4 NULL 314; st 17 2 4 NULL 315; st 17 3 4 NULL 0;
  st 33 32768 2 A_Tracer 317; st 33 32769 2 A_Tracer 316; st 34 32768 8 NULL 319; st 34 32769 6 NULL 320;
  st 34 32770 4 NULL 0; st 35 0 10 A_Look 322; st 35 1 10 A_Look 321; st 35 0 2 A_Chase 324;
  st 35 0 2 A_Chase 325; st 35 1 2 A_Chase 326; st 35 1 2 A_Chase 327; st 35 2 2 A_Chase 328;
  st 35 2 2 A_Chase 329; st 35 3 2 A_Chase 330; st 35 3 2 A_Chase 331; st 35 4 2 A_Chase 332;
  st 35 4 2 A_Chase 333; st 35 5 2 A_Chase 334; st 35 5 2 A_Chase 323; st 35 6 0 A_FaceTarget 336;
  st 35 6 6 A_SkelWhoosh 337; st 35 7 6 A_FaceTarget 338; st 35 8 6 A_SkelFist 323; st 35 32777 0 A_FaceTarget 340;
  st 35 32777 10 A_FaceTarget 341; st 35 10 10 A_SkelMissile 342; st 35 10 10 A_FaceTarget 323; st 35 11 5 NULL 344;
  st 35 11 5 A_Pain 323; st 35 11 7 NULL 346; st 35 12 7 NULL 347; st 35 13 7 A_Scream 348;
  st 35 14 7 A_Fall 349; st 35 15 7 NULL 350; st 35 16 (-1) NULL 0; st 35 16 5 NULL 352;
  st 35 15 5 NULL 353; st 35 14 5 NULL 354; st 35 13 5 NULL 355; st 35 12 5 NULL 356;
  st 35 11 5 NULL 323; st 36 32768 4 NULL 358; st 36 32769 4 NULL 357; st 22 32769 8 NULL 360;
  st 22 32770 6 NULL 361; st 22 32771 4 NULL 0; st 37 0 15 A_Look 363; st 37 1 15 A_Look 362;
  st 37 0 4 A_Chase 365; st 37 0 4 A_Chase 366; st 37 1 4 A_Chase 367; st 37 1 4 A_Chase 368;
  st 37 2 4 A_Chase 369; st 37 2 4 A_Chase 370; st 37 3 4 A_Chase 371; st 37 3 4 A_Chase 372;
  st 37 4 4 A_Chase 373; st 37 4 4 A_Chase 374; st 37 5 4 A_Chase 375; st 37 5 4 A_Chase 364;
  st 37 6 20 A_FatRaise 377; st 37 32775 10 A_FatAttack1 378; st 37 8 5 A_FaceTarget 379; st 37 6 5 A_FaceTarget 380;
  st 37 32775 10 A_FatAttack2 381; st 37 8 5 A_FaceTarget 382; st 37 6 5 A_FaceTarget 383; st 37 32775 10 A_FatAttack3 384;
  st 37 8 5 A_FaceTarget 385; st 37 6 5 A_FaceTarget 364; st 37 9 3 NULL 387; st 37 9 3 A_Pain 364;
  st 37 10 6 NULL 389; st 37 11 6 A_Scream 390; st 37 12 6 A_Fall 391; st 37 13 6 NULL 392;
  st 37 14 6 NULL 393; st 37 15 6 NULL 394; st 37 16 6 NULL 395; st 37 17 6 NULL 396;
  st 37 18 6 NULL 397; st 37 19 (-1) A_BossDeath 0; st 37 17 5 NULL 399; st 37 16 5 NULL 400;
  st 37 15 5 NULL 401; st 37 14 5 NULL 402; st 37 13 5 NULL 403; st 37 12 5 NULL 404;
  st 37 11 5 NULL 405; st 37 10 5 NULL 364; st 38 0 10 A_Look 407; st 38 1 10 A_Look 406;
  st 38 0 3 A_Chase 409; st 38 0 3 A_Chase 410; st 38 1 3 A_Chase 411; st 38 1 3 A_Chase 412;
  st 38 2 3 A_Chase 413; st 38 2 3 A_Chase 414; st 38 3 3 A_Chase 415; st 38 3 3 A_Chase 408;
  st 38 4 10 A_FaceTarget 417; st 38 32773 4 A_CPosAttack 418; st 38 32772 4 A_CPosAttack 419; st 38 5 1 A_CPosRefire 417;
  st 38 6 3 NULL 421; st 38 6 3 A_Pain 408; st 38 7 5 NULL 423; st 38 8 5 A_Scream 424;
  st 38 9 5 A_Fall 425; st 38 10 5 NULL 426; st 38 11 5 NULL 427; st 38 12 5 NULL 428;
  st 38 13 (-1) NULL 0; st 38 14 5 NULL 430; st 38 15 5 A_XScream 431; st 38 16 5 A_Fall 432;
  st 38 17 5 NULL 433; st 38 18 5 NULL 434; st 38 19 (-1) NULL 0; st 38 13 5 NULL 436;
  st 38 12 5 NULL 437; st 38 11 5 NULL 438; st 38 10 5 NULL 439; st 38 9 5 NULL 440;
  st 38 8 5 NULL 441; st 38 7 5 NULL 408; st 0 0 10 A_Look 443; st 0 1 10 A_Look 442;
  st 0 0 3 A_Chase 445; st 0 0 3 A_Chase 446; st 0 1 3 A_Chase 447; st 0 1 3 A_Chase 448;
  st 0 2 3 A_Chase 449; st 0 2 3 A_Chase 450; st 0 3 3 A_Chase 451; st 0 3 3 A_Chase 444;
  st 0 4 8 A_FaceTarget 453; st 0 5 8 A_FaceTarget 454; st 0 6 6 A_TroopAttack 444; st 0 7 2 NULL 456;
  st 0 7 2 A_Pain 444; st 0 8 8 NULL 458; st 0 9 8 A_Scream 459; st 0 10 6 NULL 460;
  st 0 11 6 A_Fall 461; st 0 12 (-1) NULL 0; st 0 13 5 NULL 463; st 0 14 5 A_XScream 464;
  st 0 15 5 NULL 465; st 0 16 5 A_Fall 466; st 0 17 5 NULL 467; st 0 18 5 NULL 468;
  st 0 19 5 NULL 469; st 0 20 (-1) NULL 0; st 0 12 8 NULL 471; st 0 11 8 NULL 472;
  st 0 10 6 NULL 473; st 0 9 6 NULL 474; st 0 8 6 NULL 444; st 39 0 10 A_Look 476;
  st 39 1 10 A_Look 475; st 39 0 2 A_Chase 478; st 39 0 2 A_Chase 479; st 39 1 2 A_Chase 480;
  st 39 1 2 A_Chase 481; st 39 2 2 A_Chase 482; st 39 2 2 A_Chase 483; st 39 3 2 A_Chase 484;
  st 39 3 2 A_Chase 477; st 39 4 8 A_FaceTarget 486; st 39 5 8 A_FaceTarget 487; st 39 6 8 A_SargAttack 477;
  st 39 7 2 NULL 489; st 39 7 2 A_Pain 477; st 39 8 8 NULL 491; st 39 9 8 A_Scream 492;
  st 39 10 4 NULL 493; st 39 11 4 A_Fall 494; st 39 12 4 NULL 495; st 39 13 (-1) NULL 0;
  st 39 13 5 NULL 497; st 39 12 5 NULL 498; st 39 11 5 NULL 499; st 39 10 5 NULL 500;
  st 39 9 5 NULL 501; st 39 8 5 NULL 477; st 40 0 10 A_Look 502; st 40 0 3 A_Chase 503;
  st 40 1 5 A_FaceTarget 505; st 40 2 5 A_FaceTarget 506; st 40 32771 5 A_HeadAttack 503; st 40 4 3 NULL 508;
  st 40 4 3 A_Pain 509; st 40 5 6 NULL 503; st 40 6 8 NULL 511; st 40 7 8 A_Scream 512;
  st 40 8 8 NULL 513; st 40 9 8 NULL 514; st 40 10 8 A_Fall 515; st 40 11 (-1) NULL 0;
  st 40 11 8 NULL 517; st 40 10 8 NULL 518; st 40 9 8 NULL 519; st 40 8 8 NULL 520;
  st 40 7 8 NULL 521; st 40 6 8 NULL 503; st 41 32768 4 NULL 523; st 41 32769 4 NULL 522;
  st 41 32770 6 NULL 525; st 41 32771 6 NULL 526; st 41 32772 6 NULL 0; st 42 0 10 A_Look 528;
  st 42 1 10 A_Look 527; st 42 0 3 A_Chase 530; st 42 0 3 A_Chase 531; st 42 1 3 A_Chase 532;
  st 42 1 3 A_Chase 533; st 42 2 3 A_Chase 534; st 42 2 3 A_Chase 535; st 42 3 3 A_Chase 536;
  st 42 3 3 A_Chase 529; st 42 4 8 A_FaceTarget 538; st 42 5 8 A_FaceTarget 539; st 42 6 8 A_BruisAttack 529;
  st 42 7 2 NULL 541; st 42 7 2 A_Pain 529; st 42 8 8 NULL 543; st 42 9 8 A_Scream 544;
  st 42 10 8 NULL 545; st 42 11 8 A_Fall 546; st 42 12 8 NULL 547; st 42 13 8 NULL 548;
  st 42 14 (-1) A_BossDeath 0; st 42 14 8 NULL 550; st 42 13 8 NULL 551; st 42 12 8 NULL 552;
  st 42 11 8 NULL 553; st 42 10 8 NULL 554; st 42 9 8 NULL 555; st 42 8 8 NULL 529;
  st 43 0 10 A_Look 557; st 43 1 10 A_Look 556; st 43 0 3 A_Chase 559; st 43 0 3 A_Chase 560;
  st 43 1 3 A_Chase 561; st 43 1 3 A_Chase 562; st 43 2 3 A_Chase 563; st 43 2 3 A_Chase 564;
  st 43 3 3 A_Chase 565; st 43 3 3 A_Chase 558; st 43 4 8 A_FaceTarget 567; st 43 5 8 A_FaceTarget 568;
  st 43 6 8 A_BruisAttack 558; st 43 7 2 NULL 570; st 43 7 2 A_Pain 558; st 43 8 8 NULL 572;
  st 43 9 8 A_Scream 573; st 43 10 8 NULL 574; st 43 11 8 A_Fall 575; st 43 12 8 NULL 576;
  st 43 13 8 NULL 577; st 43 14 (-1) NULL 0; st 43 14 8 NULL 579; st 43 13 8 NULL 580;
  st 43 12 8 NULL 581; st 43 11 8 NULL 582; st 43 10 8 NULL 583; st 43 9 8 NULL 584;
  st 43 8 8 NULL 558; st 44 32768 10 A_Look 586; st 44 32769 10 A_Look 585; st 44 32768 6 A_Chase 588;
  st 44 32769 6 A_Chase 587; st 44 32770 10 A_FaceTarget 590; st 44 32771 4 A_SkullAttack 591; st 44 32770 4 NULL 592;
  st 44 32771 4 NULL 591; st 44 32772 3 NULL 594; st 44 32772 3 A_Pain 587; st 44 32773 6 NULL 596;
  st 44 32774 6 A_Scream 597; st 44 32775 6 NULL 598; st 44 32776 6 A_Fall 599; st 44 9 6 NULL 600;
  st 44 10 6 NULL 0; st 45 0 10 A_Look 602; st 45 1 10 A_Look 601; st 45 0 3 A_Metal 604;
  st 45 0 3 A_Chase 605; st 45 1 3 A_Chase 606; st 45 1 3 A_Chase 607; st 45 2 3 A_Metal 608;
  st 45 2 3 A_Chase 609; st 45 3 3 A_Chase 610; st 45 3 3 A_Chase 611; st 45 4 3 A_Metal 612;
  st 45 4 3 A_Chase 613; st 45 5 3 A_Chase 614; st 45 5 3 A_Chase 603; st 45 32768 20 A_FaceTarget 616;
  st 45 32774 4 A_SPosAttack 617; st 45 32775 4 A_SPosAttack 618; st 45 32775 1 A_SpidRefire 616; st 45 8 3 NULL 620;
  st 45 8 3 A_Pain 603; st 45 9 20 A_Scream 622; st 45 10 10 A_Fall 623; st 45 11 10 NULL 624;
  st 45 12 10 NULL 625; st 45 13 10 NULL 626; st 45 14 10 NULL 627; st 45 15 10 NULL 628;
  st 45 16 10 NULL 629; st 45 17 10 NULL 630; st 45 18 30 NULL 631; st 45 18 (-1) A_BossDeath 0;
  st 46 0 10 A_Look 633; st 46 1 10 A_Look 632; st 46 0 20 NULL 635; st 46 0 3 A_BabyMetal 636;
  st 46 0 3 A_Chase 637; st 46 1 3 A_Chase 638; st 46 1 3 A_Chase 639; st 46 2 3 A_Chase 640;
  st 46 2 3 A_Chase 641; st 46 3 3 A_BabyMetal 642; st 46 3 3 A_Chase 643; st 46 4 3 A_Chase 644;
  st 46 4 3 A_Chase 645; st 46 5 3 A_Chase 646; st 46 5 3 A_Chase 635; st 46 32768 20 A_FaceTarget 648;
  st 46 32774 4 A_BspiAttack 649; st 46 32775 4 NULL 650; st 46 32775 1 A_SpidRefire 648; st 46 8 3 NULL 652;
  st 46 8 3 A_Pain 635; st 46 9 20 A_Scream 654; st 46 10 7 A_Fall 655; st 46 11 7 NULL 656;
  st 46 12 7 NULL 657; st 46 13 7 NULL 658; st 46 14 7 NULL 659; st 46 15 (-1) A_BossDeath 0;
  st 46 15 5 NULL 661; st 46 14 5 NULL 662; st 46 13 5 NULL 663; st 46 12 5 NULL 664;
  st 46 11 5 NULL 665; st 46 10 5 NULL 666; st 46 9 5 NULL 635; st 47 32768 5 NULL 668;
  st 47 32769 5 NULL 667; st 48 32768 5 NULL 670; st 48 32769 5 NULL 671; st 48 32770 5 NULL 672;
  st 48 32771 5 NULL 673; st 48 32772 5 NULL 0; st 49 0 10 A_Look 675; st 49 1 10 A_Look 674;
  st 49 0 3 A_Hoof 677; st 49 0 3 A_Chase 678; st 49 1 3 A_Chase 679; st 49 1 3 A_Chase 680;
  st 49 2 3 A_Chase 681; st 49 2 3 A_Chase 682; st 49 3 3 A_Metal 683; st 49 3 3 A_Chase 676;
  st 49 4 6 A_FaceTarget 685; st 49 5 12 A_CyberAttack 686; st 49 4 12 A_FaceTarget 687; st 49 5 12 A_CyberAttack 688;
  st 49 4 12 A_FaceTarget 689; st 49 5 12 A_CyberAttack 676; st 49 6 10 A_Pain 676; st 49 7 10 NULL 692;
  st 49 8 10 A_Scream 693; st 49 9 10 NULL 694; st 49 10 10 NULL 695; st 49 11 10 NULL 696;
  st 49 12 10 A_Fall 697; st 49 13 10 NULL 698; st 49 14 10 NULL 699; st 49 15 30 NULL 700;
  st 49 15 (-1) A_BossDeath 0; st 50 0 10 A_Look 701; st 50 0 3 A_Chase 703; st 50 0 3 A_Chase 704;
  st 50 1 3 A_Chase 705; st 50 1 3 A_Chase 706; st 50 2 3 A_Chase 707; st 50 2 3 A_Chase 702;
  st 50 3 5 A_FaceTarget 709; st 50 4 5 A_FaceTarget 710; st 50 32773 5 A_FaceTarget 711; st 50 32773 0 A_PainAttack 702;
  st 50 6 6 NULL 713; st 50 6 6 A_Pain 702; st 50 32775 8 NULL 715; st 50 32776 8 A_Scream 716;
  st 50 32777 8 NULL 717; st 50 32778 8 NULL 718; st 50 32779 8 A_PainDie 719; st 50 32780 8 NULL 0;
  st 50 12 8 NULL 721; st 50 11 8 NULL 722; st 50 10 8 NULL 723; st 50 9 8 NULL 724;
  st 50 8 8 NULL 725; st 50 7 8 NULL 702; st 51 0 10 A_Look 727; st 51 1 10 A_Look 726;
  st 51 0 3 A_Chase 729; st 51 0 3 A_Chase 730; st 51 1 3 A_Chase 731; st 51 1 3 A_Chase 732;
  st 51 2 3 A_Chase 733; st 51 2 3 A_Chase 734; st 51 3 3 A_Chase 735; st 51 3 3 A_Chase 728;
  st 51 4 10 A_FaceTarget 737; st 51 5 10 A_FaceTarget 738; st 51 32774 4 A_CPosAttack 739; st 51 5 6 A_FaceTarget 740;
  st 51 32774 4 A_CPosAttack 741; st 51 5 1 A_CPosRefire 737; st 51 7 3 NULL 743; st 51 7 3 A_Pain 728;
  st 51 8 5 NULL 745; st 51 9 5 A_Scream 746; st 51 10 5 A_Fall 747; st 51 11 5 NULL 748;
  st 51 12 (-1) NULL 0; st 51 13 5 NULL 750; st 51 14 5 A_XScream 751; st 51 15 5 A_Fall 752;
  st 51 16 5 NULL 753; st 51 17 5 NULL 754; st 51 18 5 NULL 755; st 51 19 5 NULL 756;
  st 51 20 5 NULL 757; st 51 21 (-1) NULL 0; st 51 12 5 NULL 759; st 51 11 5 NULL 760;
  st 51 10 5 NULL 761; st 51 9 5 NULL 762; st 51 8 5 NULL 728; st 52 0 (-1) NULL 763;
  st 52 0 6 NULL 765; st 52 1 6 NULL 766; st 52 2 6 A_Scream 767; st 52 3 6 NULL 768;
  st 52 4 6 NULL 769; st 52 5 6 NULL 770; st 52 6 6 NULL 771; st 52 7 6 NULL 772;
  st 52 8 6 NULL 773; st 52 9 6 NULL 774; st 52 10 6 A_KeenDie 775; st 52 11 (-1) NULL 0;
  st 52 12 4 NULL 777; st 52 12 8 A_Pain 763; st 53 0 (-1) NULL 0; st 53 1 36 A_BrainPain 778;
  st 53 0 100 A_BrainScream 781; st 53 0 10 NULL 782; st 53 0 10 NULL 783; st 53 0 (-1) A_BrainDie 0;
  st 51 0 10 A_Look 784; st 51 0 181 A_BrainAwake 786; st 51 0 150 A_BrainSpit 786; st 54 32768 3 A_SpawnSound 788;
  st 54 32769 3 A_SpawnFly 789; st 54 32770 3 A_SpawnFly 790; st 54 32771 3 A_SpawnFly 787; st 32 32768 4 A_Fire 792;
  st 32 32769 4 A_Fire 793; st 32 32770 4 A_Fire 794; st 32 32771 4 A_Fire 795; st 32 32772 4 A_Fire 796;
  st 32 32773 4 A_Fire 797; st 32 32774 4 A_Fire 798; st 32 32775 4 A_Fire 0; st 22 32769 10 NULL 800;
  st 22 32770 10 NULL 801; st 22 32771 10 A_BrainExplode 0; st 55 0 6 NULL 803; st 55 32769 7 NULL 802;
  st 56 0 6 NULL 805; st 56 32769 6 NULL 804; st 57 0 6 NULL 807; st 57 1 6 NULL 806;
  st 58 32768 5 NULL 809; st 58 32769 5 A_Scream 810; st 58 32770 5 NULL 811; st 58 32771 10 A_Explode 812;
  st 58 32772 10 NULL 0; st 59 32768 4 NULL 814; st 59 32769 4 NULL 815; st 59 32770 4 NULL 813;
  st 60 0 6 NULL 817; st 60 1 6 NULL 818; st 60 2 6 NULL 819; st 60 3 6 NULL 820;
  st 60 2 6 NULL 821; st 60 1 6 NULL 816; st 61 0 6 NULL 823; st 61 1 6 NULL 824;
  st 61 2 6 NULL 825; st 61 3 6 NULL 826; st 61 2 6 NULL 827; st 61 1 6 NULL 822;
  st 62 0 10 NULL 829; st 62 32769 10 NULL 828; st 63 0 10 NULL 831; st 63 32769 10 NULL 830;
  st 64 0 10 NULL 833; st 64 32769 10 NULL 832; st 65 0 10 NULL 835; st 65 32769 10 NULL 834;
  st 66 0 10 NULL 837; st 66 32769 10 NULL 836; st 67 0 10 NULL 839; st 67 32769 10 NULL 838;
  st 68 0 (-1) NULL 0; st 69 0 (-1) NULL 0; st 70 32768 6 NULL 843; st 70 32769 6 NULL 844;
  st 70 32770 6 NULL 845; st 70 32771 6 NULL 846; st 70 32770 6 NULL 847; st 70 32769 6 NULL 842;
  st 71 32768 6 NULL 849; st 71 32769 6 NULL 850; st 71 32770 6 NULL 851; st 71 32771 6 NULL 848;
  st 72 32768 (-1) NULL 0; st 73 32768 6 NULL 854; st 73 32769 6 NULL 855; st 73 32770 6 NULL 856;
  st 73 32771 6 NULL 853; st 74 32768 6 NULL 858; st 74 32769 6 NULL 859; st 74 32770 6 NULL 860;
  st 74 32771 6 NULL 857; st 75 32768 (-1) NULL 0; st 76 32768 6 NULL 863; st 76 32769 6 NULL 864;
  st 76 32770 6 NULL 865; st 76 32771 6 NULL 866; st 76 32770 6 NULL 867; st 76 32769 6 NULL 862;
  st 77 32768 6 NULL 869; st 77 1 6 NULL 868; st 78 0 (-1) NULL 0; st 79 0 (-1) NULL 0;
  st 80 0 (-1) NULL 0; st 81 0 (-1) NULL 0; st 82 0 (-1) NULL 0; st 83 0 (-1) NULL 0;
  st 84 0 (-1) NULL 0; st 85 0 (-1) NULL 0; st 86 0 (-1) NULL 0; st 87 0 (-1) NULL 0;
  st 88 0 (-1) NULL 0; st 89 0 (-1) NULL 0; st 90 0 (-1) NULL 0; st 91 0 (-1) NULL 0;
  st 92 0 (-1) NULL 0; st 93 0 (-1) NULL 0; st 94 32768 (-1) NULL 0; st 95 0 (-1) NULL 0;
  st 96 0 10 NULL 889; st 96 1 15 NULL 890; st 96 2 8 NULL 891; st 96 1 6 NULL 888;
  st 28 13 (-1) NULL 0; st 28 18 (-1) NULL 0; st 97 0 (-1) NULL 0; st 98 0 (-1) NULL 0;
  st 99 0 (-1) NULL 0; st 100 32768 6 NULL 898; st 100 32769 6 NULL 897; st 101 0 (-1) NULL 0;
  st 102 0 6 NULL 901; st 102 1 8 NULL 900; st 103 0 (-1) NULL 0; st 104 0 (-1) NULL 0;
  st 105 0 (-1) NULL 0; st 106 0 (-1) NULL 0; st 107 0 (-1) NULL 0; st 108 0 (-1) NULL 0;
  st 109 0 (-1) NULL 0; st 110 0 (-1) NULL 0; st 111 0 (-1) NULL 0; st 112 32768 (-1) NULL 0;
  st 113 32768 (-1) NULL 0; st 114 0 (-1) NULL 0; st 115 0 (-1) NULL 0; st 116 0 (-1) NULL 0;
  st 117 0 (-1) NULL 0; st 118 32768 6 NULL 918; st 118 32769 6 NULL 919; st 118 32770 6 NULL 920;
  st 118 32769 6 NULL 917; st 119 32768 6 NULL 922; st 119 32769 6 NULL 923; st 119 32770 6 NULL 921;
  st 120 0 14 NULL 925; st 120 1 14 NULL 924; st 121 32768 4 NULL 927; st 121 32769 4 NULL 928;
  st 121 32770 4 NULL 929; st 121 32771 4 NULL 926; st 122 32768 4 NULL 931; st 122 32769 4 NULL 932;
  st 122 32770 4 NULL 933; st 122 32771 4 NULL 930; st 123 32768 4 NULL 935; st 123 32769 4 NULL 936;
  st 123 32770 4 NULL 937; st 123 32771 4 NULL 934; st 124 32768 4 NULL 939; st 124 32769 4 NULL 940;
  st 124 32770 4 NULL 941; st 124 32771 4 NULL 938; st 125 32768 4 NULL 943; st 125 32769 4 NULL 944;
  st 125 32770 4 NULL 945; st 125 32771 4 NULL 942; st 126 32768 4 NULL 947; st 126 32769 4 NULL 948;
  st 126 32770 4 NULL 949; st 126 32771 4 NULL 946; st 127 0 (-1) NULL 0; st 128 0 (-1) NULL 0;
  st 129 0 (-1) NULL 0; st 130 0 (-1) NULL 0; st 131 0 (-1) NULL 0; st 132 0 (-1) NULL 0;
  st 133 0 (-1) NULL 0; st 134 0 (-1) NULL 0; st 135 0 (-1) NULL 0; st 136 32768 4 NULL 960;
  st 136 32769 4 NULL 961; st 136 32770 4 NULL 962; st 136 32771 4 NULL 959; st 137 32768 4 NULL 964;
  st 137 32769 4 NULL 965; st 137 32770 4 NULL 966; st 137 32771 4 NULL 963].

Definition mobjinfo : list MobjInfo.mobjinfo_t := [
  MobjInfo.mk (-1) 149 100 150 0 0 0 156 255 25 0 154 158 165 57 0 1048576 3670016 100 0 0 33557510 0;
  MobjInfo.mk 3004 174 20 176 36 8 1 187 200 27 0 184 189 194 59 8 1310720 3670016 100 0 75 4194310 203;
  MobjInfo.mk 9 207 30 209 37 8 0 220 170 27 0 217 222 227 60 8 1310720 3670016 100 0 75 4194310 236;
  MobjInfo.mk 64 241 700 243 48 8 0 269 10 28 0 255 271 0 71 15 1310720 3670016 500 0 80 4194310 0;
  MobjInfo.mk (-1) 281 1000 0 0 8 0 0 0 0 0 0 0 0 0 0 1310720 1048576 100 0 0 528 0;
  MobjInfo.mk 66 321 300 323 106 8 0 343 100 27 335 339 345 0 74 10 1310720 3670016 500 0 105 4194310 351;
  MobjInfo.mk (-1) 316 1000 0 107 8 0 0 0 0 0 0 318 0 82 655360 720896 524288 100 10 0 67088 0;
  MobjInfo.mk (-1) 311 1000 0 0 8 0 0 0 0 0 0 0 0 0 0 1310720 1048576 100 0 0 528 0;
  MobjInfo.mk 67 362 600 364 49 8 0 386 80 29 0 376 388 0 100 8 3145728 4194304 1000 0 75 4194310 398;
  MobjInfo.mk (-1) 357 1000 0 16 8 0 0 0 0 0 0 359 0 17 1310720 393216 524288 100 8 0 67088 0;
  MobjInfo.mk 65 406 70 408 37 8 0 420 170 27 0 416 422 429 60 8 1310720 3670016 100 0 75 4194310 435;
  MobjInfo.mk 3001 442 60 444 39 8 0 455 200 27 452 452 457 462 62 8 1310720 3670016 100 0 76 4194310 470;
  MobjInfo.mk 3002 475 150 477 41 8 52 488 180 26 485 0 490 0 64 10 1966080 3670016 400 0 77 4194310 496;
  MobjInfo.mk 58 475 150 477 41 8 52 488 180 26 485 0 490 0 64 10 1966080 3670016 400 0 77 4456454 496;
  MobjInfo.mk 3005 502 400 503 42 8 0 507 128 26 0 504 510 0 65 8 2031616 3670016 400 0 77 4211206 516;
  MobjInfo.mk 3003 527 1000 529 43 8 0 540 50 26 537 537 542 0 67 8 1572864 4194304 1000 0 77 4194310 549;
  MobjInfo.mk (-1) 522 1000 0 16 8 0 0 0 0 0 0 524 0 17 983040 393216 524288 100 8 0 67088 0;
  MobjInfo.mk 69 556 500 558 47 8 0 569 50 26 566 566 571 0 72 8 1572864 4194304 1000 0 77 4194310 578;
  MobjInfo.mk 3006 585 100 587 0 8 51 593 256 26 0 589 595 0 17 8 1048576 3670016 50 3 77 16902 0;
  MobjInfo.mk 7 601 3000 603 45 8 2 619 40 26 0 615 621 0 69 12 8388608 6553600 1000 0 77 4194310 0;
  MobjInfo.mk 68 632 500 634 46 8 0 651 128 26 0 647 653 0 70 12 4194304 4194304 600 0 78 4194310 660;
  MobjInfo.mk 16 674 4000 676 44 8 0 690 20 26 0 684 691 0 68 16 2621440 7208960 1000 0 77 4194310 0;
  MobjInfo.mk 71 701 400 702 50 8 0 712 128 30 0 708 714 0 73 8 2031616 3670016 400 0 77 4211206 720;
  MobjInfo.mk 84 726 50 728 101 8 0 742 170 27 0 736 744 749 102 8 1310720 3670016 100 0 75 4194310 758;
  MobjInfo.mk 72 763 100 0 0 8 0 776 256 103 0 0 764 0 104 0 1048576 4718592 10000000 0 0 4195078 0;
  MobjInfo.mk 88 778 250 0 0 8 0 779 255 97 0 0 780 0 98 0 1048576 1048576 10000000 0 0 6 0;
  MobjInfo.mk 89 784 1000 785 0 8 0 0 0 0 0 0 0 0 0 0 1310720 2097152 100 0 0 24 0;
  MobjInfo.mk 87 0 1000 0 0 8 0 0 0 0 0 0 0 0 0 0 1310720 2097152 100 0 0 24 0;
  MobjInfo.mk (-1) 787 1000 0 94 8 0 0 0 0 0 0 0 0 17 655360 393216 2097152 100 3 0 71184 0;
  MobjInfo.mk (-1) 791 1000 0 0 8 0 0 0 0 0 0 0 0 0 0 1310720 1048576 100 0 0 528 0;
  MobjInfo.mk 2035 806 20 0 0 8 0 0 0 0 0 0 808 0 82 0 655360 2752512 100 0 0 524294 0;
  MobjInfo.mk (-1) 97 1000 0 16 8 0 0 0 0 0 0 99 0 17 655360 393216 524288 100 3 0 67088 0;
  MobjInfo.mk (-1) 102 1000 0 16 8 0 0 0 0 0 0 104 0 17 655360 393216 524288 100 5 0 67088 0;
  MobjInfo.mk (-1) 114 1000 0 14 8 0 0 0 0 0 0 127 0 82 1310720 720896 524288 100 20 0 67088 0;
  MobjInfo.mk (-1) 107 1000 0 8 8 0 0 0 0 0 0 109 0 17 1638400 851968 524288 100 5 0 67088 0;
  MobjInfo.mk (-1) 115 1000 0 0 8 0 0 0 0 0 0 117 0 15 1638400 851968 524288 100 100 0 67088 0;
  MobjInfo.mk (-1) 667 1000 0 8 8 0 0 0 0 0 0 669 0 17 1638400 851968 524288 100 5 0 67088 0;
  MobjInfo.mk (-1) 93 1000 0 0 8 0 0 0 0 0 0 0 0 0 0 1310720 1048576 100 0 0 528 0;
  MobjInfo.mk (-1) 90 1000 0 0 8 0 0 0 0 0 0 0 0 0 0 1310720 1048576 100 0 0 16 0;
  MobjInfo.mk (-1) 130 1000 0 0 8 0 0 0 0 0 0 0 0 0 0 1310720 1048576 100 0 0 528 0;
  MobjInfo.mk (-1) 142 1000 0 0 8 0 0 0 0 0 0 0 0 0 0 1310720 1048576 100 0 0 528 0;
  MobjInfo.mk 14 0 1000 0 0 8 0 0 0 0 0 0 0 0 0 0 1310720 1048576 100 0 0 24 0;
  MobjInfo.mk (-1) 123 1000 0 0 8 0 0 0 0 0 0 0 0 0 0 1310720 1048576 100 0 0 528 0;
  MobjInfo.mk 2018 802 1000 0 0 8 0 0 0 0 0 0 0 0 0 0 1310720 1048576 100 0 0 1 0;
  MobjInfo.mk 2019 804 1000 0 0 8 0 0 0 0 0 0 0 0 0 0 1310720 1048576 100 0 0 1 0;
  MobjInfo.mk 2014 816 1000 0 0 8 0 0 0 0 0 0 0 0 0 0 1310720 1048576 100 0 0 8388609 0;
  MobjInfo.mk 2015 822 1000 0 0 8 0 0 0 0 0 0 0 0 0 0 1310720 1048576 100 0 0 8388609 0;
  MobjInfo.mk 5 828 1000 0 0 8 0 0 0 0 0 0 0 0 0 0 1310720 1048576 100 0 0 33554433 0;
  MobjInfo.mk 13 830 1000 0 0 8 0 0 0 0 0 0 0 0 0 0 1310720 1048576 100 0 0 33554433 0;
  MobjInfo.mk 6 832 1000 0 0 8 0 0 0 0 0 0 0 0 0 0 1310720 1048576 100 0 0 33554433 0;
  MobjInfo.mk 39 838 1000 0 0 8 0 0 0 0 0 0 0 0 0 0 1310720 1048576 100 0 0 33554433 0;
  MobjInfo.mk 38 836 1000 0 0 8 0 0 0 0 0 0 0 0 0 0 1310720 1048576 100 0 0 33554433 0;
  MobjInfo.mk 40 834 1000 0 0 8 0 0 0 0 0 0 0 0 0 0 1310720 1048576 100 0 0 33554433 0;
  MobjInfo.mk 2011 840 1000 0 0 8 0 0 0 0 0 0 0 0 0 0 1310720 1048576 100 0 0 1 0;
  MobjInfo.mk 2012 841 1000 0 0 8 0 0 0 0 0 0 0 0 0 0 1310720 1048576 100 0 0 1 0;
  MobjInfo.mk 2013 842 1000 0 0 8 0 0 0 0 0 0 0 0 0 0 1310720 1048576 100 0 0 8388609 0;
  MobjInfo.mk 2022 848 1000 0 0 8 0 0 0 0 0 0 0 0 0 0 1310720 1048576 100 0 0 8388609 0;
  MobjInfo.mk 2023 852 1000 0 0 8 0 0 0 0 0 0 0 0 0 0 1310720 1048576 100 0 0 8388609 0;
  MobjInfo.mk 2024 853 1000 0 0 8 0 0 0 0 0 0 0 0 0 0 1310720 1048576 100 0 0 8388609 0;
  MobjInfo.mk 2025 861 1000 0 0 8 0 0 0 0 0 0 0 0 0 0 1310720 1048576 100 0 0 1 0;
  MobjInfo.mk 2026 862 1000 0 0 8 0 0 0 0 0 0 0 0 0 0 1310720 1048576 100 0 0 8388609 0;
  MobjInfo.mk 2045 868 1000 0 0 8 0 0 0 0 0 0 0 0 0 0 1310720 1048576 100 0 0 8388609 0;
  MobjInfo.mk 83 857 1000 0 0 8 0 0 0 0 0 0 0 0 0 0 1310720 1048576 100 0 0 8388609 0;
  MobjInfo.mk 2007 870 1000 0 0 8 0 0 0 0 0 0 0 0 0 0 1310720 1048576 100 0 0 1 0;
  MobjInfo.mk 2048 871 1000 0 0 8 0 0 0 0 0 0 0 0 0 0 1310720 1048576 100 0 0 1 0;
  MobjInfo.mk 2010 872 1000 0 0 8 0 0 0 0 0 0 0 0 0 0 1310720 1048576 100 0 0 1 0;
  MobjInfo.mk 2046 873 1000 0 0 8 0 0 0 0 0 0 0 0 0 0 1310720 1048576 100 0 0 1 0;
  MobjInfo.mk 2047 874 1000 0 0 8 0 0 0 0 0 0 0 0 0 0 1310720 1048576 100 0 0 1 0;
  MobjInfo.mk 17 875 1000 0 0 8 0 0 0 0 0 0 0 0 0 0 1310720 1048576 100 0 0 1 0;
  MobjInfo.mk 2008 876 1000 0 0 8 0 0 0 0 0 0 0 0 0 0 1310720 1048576 100 0 0 1 0;
  MobjInfo.mk 2049 877 1000 0 0 8 0 0 0 0 0 0 0 0 0 0 1310720 1048576 100 0 0 1 0;
  MobjInfo.mk 8 878 1000 0 0 8 0 0 0 0 0 0 0 0 0 0 1310720 1048576 100 0 0 1 0;
  MobjInfo.mk 2006 879 1000 0 0 8 0 0 0 0 0 0 0 0 0 0 1310720 1048576 100 0 0 1 0;
  MobjInfo.mk 2002 880 1000 0 0 8 0 0 0 0 0 0 0 0 0 0 1310720 1048576 100 0 0 1 0;
  MobjInfo.mk 2005 881 1000 0 0 8 0 0 0 0 0 0 0 0 0 0 1310720 1048576 100 0 0 1 0;
  MobjInfo.mk 2003 882 1000 0 0 8 0 0 0 0 0 0 0 0 0 0 1310720 1048576 100 0 0 1 0;
  MobjInfo.mk 2004 883 1000 0 0 8 0 0 0 0 0 0 0 0 0 0 1310720 1048576 100 0 0 1 0;
  MobjInfo.mk 2001 884 1000 0 0 8 0 0 0 0 0 0 0 0 0 0 1310720 1048576 100 0 0 1 0;
  MobjInfo.mk 82 885 1000 0 0 8 0 0 0 0 0 0 0 0 0 0 1310720 1048576 100 0 0 1 0;
  MobjInfo.mk 85 959 1000 0 0 8 0 0 0 0 0 0 0 0 0 0 1048576 1048576 100 0 0 2 0;
  MobjInfo.mk 86 963 1000 0 0 8 0 0 0 0 0 0 0 0 0 0 1048576 1048576 100 0 0 2 0;
  MobjInfo.mk 2028 886 1000 0 0 8 0 0 0 0 0 0 0 0 0 0 1048576 1048576 100 0 0 2 0;
  MobjInfo.mk 30 907 1000 0 0 8 0 0 0 0 0 0 0 0 0 0 1048576 1048576 100 0 0 2 0;
  MobjInfo.mk 31 908 1000 0 0 8 0 0 0 0 0 0 0 0 0 0 1048576 1048576 100 0 0 2 0;
  MobjInfo.mk 32 909 1000 0 0 8 0 0 0 0 0 0 0 0 0 0 1048576 1048576 100 0 0 2 0;
  MobjInfo.mk 33 910 1000 0 0 8 0 0 0 0 0 0 0 0 0 0 1048576 1048576 100 0 0 2 0;
  MobjInfo.mk 37 913 1000 0 0 8 0 0 0 0 0 0 0 0 0 0 1048576 1048576 100 0 0 2 0;
  MobjInfo.mk 36 924 1000 0 0 8 0 0 0 0 0 0 0 0 0 0 1048576 1048576 100 0 0 2 0;
  MobjInfo.mk 41 917 1000 0 0 8 0 0 0 0 0 0 0 0 0 0 1048576 1048576 100 0 0 2 0;
  MobjInfo.mk 42 921 1000 0 0 8 0 0 0 0 0 0 0 0 0 0 1048576 1048576 100 0 0 2 0;
  MobjInfo.mk 43 914 1000 0 0 8 0 0 0 0 0 0 0 0 0 0 1048576 1048576 100 0 0 2 0;
  MobjInfo.mk 44 926 1000 0 0 8 0 0 0 0 0 0 0 0 0 0 1048576 1048576 100 0 0 2 0;
  MobjInfo.mk 45 930 1000 0 0 8 0 0 0 0 0 0 0 0 0 0 1048576 1048576 100 0 0 2 0;
  MobjInfo.mk 46 934 1000 0 0 8 0 0 0 0 0 0 0 0 0 0 1048576 1048576 100 0 0 2 0;
  MobjInfo.mk 55 938 1000 0 0 8 0 0 0 0 0 0 0 0 0 0 1048576 1048576 100 0 0 2 0;
  MobjInfo.mk 56 942 1000 0 0 8 0 0 0 0 0 0 0 0 0 0 1048576 1048576 100 0 0 2 0;
  MobjInfo.mk 57 946 1000 0 0 8 0 0 0 0 0 0 0 0 0 0 1048576 1048576 100 0 0 2 0;
  MobjInfo.mk 47 906 1000 0 0 8 0 0 0 0 0 0 0 0 0 0 1048576 1048576 100 0 0 2 0;
  MobjInfo.mk 48 916 1000 0 0 8 0 0 0 0 0 0 0 0 0 0 1048576 1048576 100 0 0 2 0;
  MobjInfo.mk 34 911 1000 0 0 8 0 0 0 0 0 0 0 0 0 0 1310720 1048576 100 0 0 0 0;
  MobjInfo.mk 35 912 1000 0 0 8 0 0 0 0 0 0 0 0 0 0 1048576 1048576 100 0 0 2 0;
  MobjInfo.mk 49 888 1000 0 0 8 0 0 0 0 0 0 0 0 0 0 1048576 4456448 100 0 0 770 0;
  MobjInfo.mk 50 902 1000 0 0 8 0 0 0 0 0 0 0 0 0 0 1048576 5505024 100 0 0 770 0;
  MobjInfo.mk 51 903 1000 0 0 8 0 0 0 0 0 0 0 0 0 0 1048576 5505024 100 0 0 770 0;
  MobjInfo.mk 52 904 1000 0 0 8 0 0 0 0 0 0 0 0 0 0 1048576 4456448 100 0 0 770 0;
  MobjInfo.mk 53 905 1000 0 0 8 0 0 0 0 0 0 0 0 0 0 1048576 3407872 100 0 0 770 0;
  MobjInfo.mk 59 902 1000 0 0 8 0 0 0 0 0 0 0 0 0 0 1310720 5505024 100 0 0 768 0;
  MobjInfo.mk 60 904 1000 0 0 8 0 0 0 0 0 0 0 0 0 0 1310720 4456448 100 0 0 768 0;
  MobjInfo.mk 61 903 1000 0 0 8 0 0 0 0 0 0 0 0 0 0 1310720 3407872 100 0 0 768 0;
  MobjInfo.mk 62 905 1000 0 0 8 0 0 0 0 0 0 0 0 0 0 1310720 3407872 100 0 0 768 0;
  MobjInfo.mk 63 888 1000 0 0 8 0 0 0 0 0 0 0 0 0 0 1310720 4456448 100 0 0 768 0;
  MobjInfo.mk 22 515 1000 0 0 8 0 0 0 0 0 0 0 0 0 0 1310720 1048576 100 0 0 0 0;
  MobjInfo.mk 15 164 1000 0 0 8 0 0 0 0 0 0 0 0 0 0 1310720 1048576 100 0 0 0 0;
  MobjInfo.mk 18 193 1000 0 0 8 0 0 0 0 0 0 0 0 0 0 1310720 1048576 100 0 0 0 0;
  MobjInfo.mk 21 495 1000 0 0 8 0 0 0 0 0 0 0 0 0 0 1310720 1048576 100 0 0 0 0;
  MobjInfo.mk 23 600 1000 0 0 8 0 0 0 0 0 0 0 0 0 0 1310720 1048576 100 0 0 0 0;
  MobjInfo.mk 20 461 1000 0 0 8 0 0 0 0 0 0 0 0 0 0 1310720 1048576 100 0 0 0 0;
  MobjInfo.mk 19 226 1000 0 0 8 0 0 0 0 0 0 0 0 0 0 1310720 1048576 100 0 0 0 0;
  MobjInfo.mk 10 173 1000 0 0 8 0 0 0 0 0 0 0 0 0 0 1310720 1048576 100 0 0 0 0;
  MobjInfo.mk 12 173 1000 0 0 8 0 0 0 0 0 0 0 0 0 0 1310720 1048576 100 0 0 0 0;
  MobjInfo.mk 28 894 1000 0 0 8 0 0 0 0 0 0 0 0 0 0 1048576 1048576 100 0 0 2 0;
  MobjInfo.mk 24 895 1000 0 0 8 0 0 0 0 0 0 0 0 0 0 1310720 1048576 100 0 0 0 0;
  MobjInfo.mk 27 896 1000 0 0 8 0 0 0 0 0 0 0 0 0 0 1048576 1048576 100 0 0 2 0;
  MobjInfo.mk 29 897 1000 0 0 8 0 0 0 0 0 0 0 0 0 0 1048576 1048576 100 0 0 2 0;
  MobjInfo.mk 25 899 1000 0 0 8 0 0 0 0 0 0 0 0 0 0 1048576 1048576 100 0 0 2 0;
  MobjInfo.mk 26 900 1000 0 0 8 0 0 0 0 0 0 0 0 0 0 1048576 1048576 100 0 0 2 0;
  MobjInfo.mk 54 915 1000 0 0 8 0 0 0 0 0 0 0 0 0 0 2097152 1048576 100 0 0 2 0;
  MobjInfo.mk 70 813 1000 0 0 8 0 0 0 0 0 0 0 0 0 0 1048576 1048576 100 0 0 2 0;
  MobjInfo.mk 73 950 1000 0 0 8 0 0 0 0 0 0 0 0 0 0 1048576 5767168 100 0 0 770 0;
  MobjInfo.mk 74 951 1000 0 0 8 0 0 0 0 0 0 0 0 0 0 1048576 5767168 100 0 0 770 0;
  MobjInfo.mk 75 952 1000 0 0 8 0 0 0 0 0 0 0 0 0 0 1048576 4194304 100 0 0 770 0;
  MobjInfo.mk 76 953 1000 0 0 8 0 0 0 0 0 0 0 0 0 0 1048576 4194304 100 0 0 770 0;
  MobjInfo.mk 77 954 1000 0 0 8 0 0 0 0 0 0 0 0 0 0 1048576 4194304 100 0 0 770 0;
  MobjInfo.mk 78 955 1000 0 0 8 0 0 0 0 0 0 0 0 0 0 1048576 4194304 100 0 0 770 0;
  MobjInfo.mk 79 956 1000 0 0 8 0 0 0 0 0 0 0 0 0 0 1310720 1048576 100 0 0 16 0;
  MobjInfo.mk 80 957 1000 0 0 8 0 0 0 0 0 0 0 0 0 0 1310720 1048576 100 0 0 16 0;
  MobjInfo.mk 81 958 1000 0 0 8 0 0 0 0 0 0 0 0 0 0 1310720 1048576 100 0 0 16 0].
