(* ===== verification/Mobjs.v ===== *)
(** * The life of things (p_mobj.c, first part)

    The states a thing goes through (P_SetMobjState), how things come into the level
    and leave it. What the functions of the states do is an interface, [Behaviour]:
    they are in p_enemy.c and p_pspr.c. How things move is in Motion.v. *)
From S2P Require Import Prelude MFixed MRandom MBbox MapGeometry DLists GameTypes ThingLinks Sight PathTraverse Movement Attack Info.
#[local] Open Scope doom_scope.

Definition MF_AMBUSH : Z := 32.
Definition MF_JUSTHIT : Z := 64.
Definition MF_SPAWNCEILING : Z := 256.
Definition MF_NOGRAVITY : Z := 512.
Definition MF_SHADOW : Z := 0x40000.
Definition MF_CORPSE : Z := 0x100000.
Definition MF_INFLOAT : Z := 0x200000.
Definition MF_COUNTKILL : Z := 0x400000.
Definition MF_COUNTITEM : Z := 0x800000.
Definition MF_NOTDMATCH : Z := 0x2000000.
Definition MF_TRANSSHIFT : Z := 26.
Definition S_NULL : Z := 0.
Definition S_BLOOD2 : Z := 91.
Definition S_BLOOD3 : Z := 92.
Definition S_PUFF3 : Z := 95.
Definition MT_PUFF : Z := 37.
Definition MT_INV : Z := 56.
Definition MT_INS : Z := 58.
Definition ONFLOORZ : Z := INT_MIN.
Definition ONCEILINGZ : Z := INT_MAX.
Definition ITEMQUESIZE : Z := 128.
Definition MELEERANGE : Z := 64 * FRACUNIT.
Definition sk_nightmare : Z := 4.

(** What the module and its callers keep besides the map: the players, the
    thinkers in order (their addresses), the queue of items that come back, and
    what is counted. [sounds] has the calls of the sound module, the last one
    first. *)
Inductive sound_call : Set := Start (a sfx : Z) | Stop (a : Z).
Record objs (D : Type) : Type := mk_objs {
  players : list Player.player_t; thinkers : list Z;
  itemrespawnque : list MapThing.mapthing_t; itemrespawntime : list Z; iquehead : Z; iquetail : Z;
  deathmatchstarts : list MapThing.mapthing_t; deathmatch_p : Z; totalkills : Z; totalitems : Z; leveltime : Z; sounds : list sound_call; more : D }.
Arguments mk_objs {D}.
Arguments players {D}.
Arguments thinkers {D}.
Arguments itemrespawnque {D}.
Arguments itemrespawntime {D}.
Arguments iquehead {D}.
Arguments iquetail {D}.
Arguments deathmatchstarts {D}.
Arguments deathmatch_p {D}.
Arguments totalkills {D}.
Arguments totalitems {D}.
Arguments leveltime {D}.
Arguments sounds {D}.
Arguments more {D}.
#[export] Instance objs_eta {D} : Eta (objs D) := fun t =>
  mk_objs (players t) (thinkers t) (itemrespawnque t) (itemrespawntime t) (iquehead t) (iquetail t) (deathmatchstarts t) (deathmatch_p t)
    (totalkills t) (totalitems t) (leveltime t) (sounds t) (more t).
Abbreviation oworld D := (aworld (objs D)).

(** The settings of the game, and where the linker put the table of types. *)
Class Settings : Type := {
  gameskill : Z; deathmatch : Z; netgame : bool; nomonsters : bool; respawnmonsters : bool; gameversion : Z; gamemode : Z; map_number : Z;
  consoleplayer : Z; playeringame : list Z; mobjinfo_base : Z; dummy_at : Z; spechit_magic : Z; sky_flat : Z;
  sine : Z -> Z; cosine : Z -> Z; point_to_angle : Z -> Z -> Z -> Z -> Z
}.
(** The functions of the states, of things and of the weapons of players (by the
    player and the place of the sprite), and the memory for new things. *)
Class Behaviour (D : Type) : Type := {
  state_action : action_t -> Z -> oworld D -> outcome (oworld D);
  weapon_action : action_t -> Z -> nat -> oworld D -> outcome (oworld D);
  mobj_malloc : oworld D -> outcome Z
}.

Section mobjs.
Context {A : Arch} {im : Image} {bsp : Bsp} {D : Type} {st : Settings} {bh : Behaviour D}.
Implicit Types (p : oworld D) (a : Z) (m : Mobj.mobj_t).

Definition ob p : objs D := other (at_ p).
Definition on_ob (f : objs D -> objs D) p : oworld D := on_at (fun t => t <| other ::= f |>) p.
Definition S_StartSound a (sfx : Z) p : oworld D := on_ob (fun t => t <| sounds ::= cons (Start a sfx) |>) p.
Definition S_StopSound a p : oworld D := on_ob (fun t => t <| sounds ::= cons (Stop a) |>) p.

(** ** Tables *)
Definition sizeof_mobjinfo : Z := 92.
Definition at_place {X : Type} (l : list X) (i : Z) : outcome X := if i <? 0 then Undef else of_option (l !! Z.to_nat i).
Definition state_at (s : Z) : outcome State.state_t := at_place states s.
Definition type_at (t : Z) : outcome MobjInfo.mobjinfo_t := at_place mobjinfo t.
(** [&mobjinfo[type]], and the entry a pointer leads to. *)
Definition info_ptr (t : Z) : Z := wrapu word_bits (mobjinfo_base + sizeof_mobjinfo * t).
Definition info_of m : outcome MobjInfo.mobjinfo_t :=
  let off := Mobj.info m - mobjinfo_base in
  if off mod sizeof_mobjinfo =? 0 then type_at (off / sizeof_mobjinfo) else Undef.
(** The sector under a thing. *)
Definition under m p : outcome psector := let* s := of_option (sector_of m) in of_option (sectors (client p) !! s).

(** ** Leaving the level *)
Definition removed : Z := wrapu word_bits (-1).
Definition is_removed m : bool := Thinker.function (Mobj.thinker m) =? removed.
Definition next_in_que (i : Z) : Z := Z.land (i + 1) (ITEMQUESIZE - 1).
(** An item that is picked up is queued to come back. *)
Definition comes_back m : bool :=
  has_flag (Mobj.flags m) MF_SPECIAL && negb (has_flag (Mobj.flags m) MF_DROPPED) && negb (Mobj.type m =? MT_INV) && negb (Mobj.type m =? MT_INS).
Definition queue_item m (t : objs D) : outcome (objs D) :=
  let head := iquehead t in
  let* _ := at_place (itemrespawnque t) head in
  let* times := set (itemrespawntime t) head (leveltime t) in
  let t := t <| itemrespawnque ::= <[Z.to_nat head := Mobj.spawnpoint m]> |> <| itemrespawntime := times |> <| iquehead := next_in_que head |> in
  Ret (if iquehead t =? iquetail t then t <| iquetail ::= next_in_que |> else t).
Definition on_ob_out (f : objs D -> outcome (objs D)) p : outcome (oworld D) := let* t := f (ob p) in Ret (on_ob (fun _ => t) p).
Definition P_RemoveThinker a p : outcome (oworld D) :=
  upd_thing a (fun m => m <| Mobj.thinker := (Mobj.thinker m) <| Thinker.function := removed |> |>) p.
Definition P_RemoveMobj a p : outcome (oworld D) :=
  let* m := thing_at a p in
  let* p := if comes_back m then on_ob_out (queue_item m) p else Ret p in
  let* p := on_pl (P_UnsetThingPosition (gr p) a) p in
  P_RemoveThinker a (S_StopSound a p).

(** ** States *)

(** The pointer S_NULL, which no state has. *)
Definition null_state : Z := -1.
Definition enter_state (s : Z) (d : State.state_t) m : Mobj.mobj_t :=
  m <| Mobj.state := s |> <| Mobj.tics := State.tics d |> <| Mobj.sprite := State.sprite d |> <| Mobj.frame := State.frame d |>.
(** The loop: a state without tics leads on to the next. *)
Fixpoint set_state (fuel : nat) a (state : Z) p : outcome (bool * oworld D) :=
  if state =? S_NULL then
    let* p := upd_thing a (fun m => m <| Mobj.state := null_state |>) p in
    let* p := P_RemoveMobj a p in
    Ret (false, p)
  else
    let* d := state_at state in
    let* p := upd_thing a (enter_state state d) p in
    let* p := if bool_decide (State.action d = NULL) then Ret p else state_action (State.action d) a p in
    let* m := thing_at a p in
    if Mobj.tics m =? 0
    then match fuel with O => NoFuel | S fuel => set_state fuel a (State.nextstate d) p end
    else Ret (true, p).
Definition P_SetMobjState a (state : Z) p : outcome (bool * oworld D) := set_state (length states) a state p.
(** [mo->tics -= P_Random()&3], at least 1. *)
Definition random_tics a p : outcome (oworld D) :=
  let* '(r, p) := draw p in
  upd_thing a (fun m => let t := i32 (Mobj.tics m - Z.land r 3) in m <| Mobj.tics := if t <? 1 then 1 else t |>) p.
Definition P_ExplodeMissile a p : outcome (oworld D) :=
  let* p := upd_thing a (fun m => m <| Mobj.momx := 0 |> <| Mobj.momy := 0 |> <| Mobj.momz := 0 |>) p in
  let* m := thing_at a p in
  let* d := type_at (Mobj.type m) in
  let* '(_, p) := P_SetMobjState a (MobjInfo.deathstate d) p in
  let* p := random_tics a p in
  let* p := upd_thing a (fun m => m <| Mobj.flags ::= fun f => Z.land f (Z.lnot MF_MISSILE) |>) p in
  let* m := thing_at a p in
  let* i := info_of m in
  Ret (if negb (MobjInfo.deathsound i =? 0) then S_StartSound a (MobjInfo.deathsound i) p else p).

(** ** Coming into the level *)
Definition zero_thing : Mobj.mobj_t :=
  Mobj.mk (Thinker.mk 0 0 0) 0 0 0 0 0 0 0 0 0 0 0 0 0 0 0 0 0 0 0 0 0 0 0 0 0 0 0 0 0 0 None 0 (MapThing.mk 0 0 0 0 0) 0.
(** The thing after its memory was cleared and its type written. *)
Definition fresh (x y type : Z) (i : MobjInfo.mobjinfo_t) : Mobj.mobj_t :=
  let m := zero_thing <| Mobj.type := type |> <| Mobj.info := info_ptr type |> <| Mobj.x := x |> <| Mobj.y := y |>
    <| Mobj.radius := MobjInfo.radius i |> <| Mobj.height := MobjInfo.height i |> <| Mobj.flags := MobjInfo.flags i |> <| Mobj.health := MobjInfo.spawnhealth i |> in
  if gameskill =? sk_nightmare then m else m <| Mobj.reactiontime := MobjInfo.reactiontime i |>.
Definition stand_at (z : Z) (h : heights) (i : MobjInfo.mobjinfo_t) m : Mobj.mobj_t :=
  let m := m <| Mobj.floorz := floorheight h |> <| Mobj.ceilingz := ceilingheight h |> in
  m <| Mobj.z := if z =? ONFLOORZ then Mobj.floorz m else if z =? ONCEILINGZ then i32 (Mobj.ceilingz m - MobjInfo.height i) else z |>.
Definition P_AddThinker a p : oworld D := on_ob (fun t => t <| thinkers ::= fun l => l ++ [a] |>) p.
Definition P_SpawnMobj (x y z type : Z) p : outcome (Z * oworld D) :=
  let* a := mobj_malloc p in
  let* i := type_at type in
  let m := fresh x y type i in
  let* '(r, p) := draw p in
  let* d := state_at (MobjInfo.spawnstate i) in
  let m := enter_state (MobjInfo.spawnstate i) d (m <| Mobj.lastlook := Z.rem r (Z.of_nat MAXPLAYERS) |>) in
  let p := p <| pl ::= fun w => w <| mobjs ::= <[a := m]> |> |> in
  let* p := on_pl (P_SetThingPosition (gr p) a) p in
  let* m := thing_at a p in
  let* s := under m p in
  let* p := upd_thing a (stand_at z (hts s) i) p in
  let* p := upd_thing a (fun m => m <| Mobj.thinker := (Mobj.thinker m) <| Thinker.function := fn_addr P_MobjThinker |> |>) p in
  Ret (a, P_AddThinker a p).

(** [(P_Random()-P_Random())<<10], the left one drawn first. *)
Definition random_height (z : Z) p : outcome (Z * oworld D) :=
  let* '(r1, p) := draw p in
  let* '(r2, p) := draw p in
  Ret (i32 (z + i32 (Z.shiftl (r1 - r2) 10)), p).
Definition P_SpawnPuff (x y z : Z) p : outcome (oworld D) :=
  let* '(z, p) := random_height z p in
  let* '(th, p) := P_SpawnMobj x y z MT_PUFF p in
  let* p := upd_thing th (fun m => m <| Mobj.momz := FRACUNIT |>) p in
  let* p := random_tics th p in
  if attackrange (at_ p) =? MELEERANGE then let* '(_, p) := P_SetMobjState th S_PUFF3 p in Ret p else Ret p.
Definition P_SpawnBlood (x y z damage : Z) p : outcome (oworld D) :=
  let* '(z, p) := random_height z p in
  let* '(th, p) := P_SpawnMobj x y z MT_BLOOD p in
  let* p := upd_thing th (fun m => m <| Mobj.momz := FRACUNIT * 2 |>) p in
  let* p := random_tics th p in
  if (damage <=? 12) && (damage >=? 9) then let* '(_, p) := P_SetMobjState th S_BLOOD2 p in Ret p
  else if damage <? 9 then let* '(_, p) := P_SetMobjState th S_BLOOD3 p in Ret p
  else Ret p.
End mobjs.
