(* ===== verification/Pickup.v ===== *)
(** * Picking things up (src/commands/doom/p_inter.c, first part)

    A player is the pair of its [player_t] and of the object [mo] that stands
    for it in the level; both carry the health. *)
From S2P Require Import Prelude MFixed GameTypes.
#[local] Open Scope doom_scope.

(** ** Constants of doomdef.h, p_local.h, p_mobj.h, deh_misc.h and info.h *)
Definition BONUSADD : Z := 6.
Definition MAXHEALTH : Z := 100.
Definition INVULNTICS : Z := 30 * TICRATE.
Definition INVISTICS : Z := 60 * TICRATE.
Definition INFRATICS : Z := 120 * TICRATE.
Definition IRONTICS : Z := 60 * TICRATE.

Definition am_clip : Z := 0.
Definition am_shell : Z := 1.
Definition am_cell : Z := 2.
Definition am_misl : Z := 3.
Definition am_noammo : Z := 5.

Definition wp_fist : Z := 0.
Definition wp_pistol : Z := 1.
Definition wp_shotgun : Z := 2.
Definition wp_chaingun : Z := 3.
Definition wp_missile : Z := 4.
Definition wp_plasma : Z := 5.
Definition wp_bfg : Z := 6.
Definition wp_chainsaw : Z := 7.
Definition wp_supershotgun : Z := 8.

Definition pw_invulnerability : Z := 0.
Definition pw_strength : Z := 1.
Definition pw_invisibility : Z := 2.
Definition pw_ironfeet : Z := 3.
Definition pw_allmap : Z := 4.
Definition pw_infrared : Z := 5.

Definition sk_baby : Z := 0.
Definition sk_nightmare : Z := 4.

Definition MF_DROPPED : Z := 0x20000.
Definition MF_SHADOW : Z := 0x40000.
Definition MF_COUNTITEM : Z := 0x800000.

Definition deh_max_health : Z := 200.
Definition deh_max_armor : Z := 200.
Definition deh_green_armor_class : Z := 1.
Definition deh_blue_armor_class : Z := 2.
Definition deh_max_soulsphere : Z := 200.
Definition deh_soulsphere_health : Z := 100.
Definition deh_megasphere_health : Z := 200.

(** The sprites of the things that can be picked up ([spritenum_t]). *)
Definition SPR_ARM1 : Z := 55.
Definition SPR_ARM2 : Z := 56.
Definition SPR_BON1 : Z := 60.
Definition SPR_BON2 : Z := 61.
Definition SPR_BKEY : Z := 62.
Definition SPR_RKEY : Z := 63.
Definition SPR_YKEY : Z := 64.
Definition SPR_BSKU : Z := 65.
Definition SPR_RSKU : Z := 66.
Definition SPR_YSKU : Z := 67.
Definition SPR_STIM : Z := 68.
Definition SPR_MEDI : Z := 69.
Definition SPR_SOUL : Z := 70.
Definition SPR_PINV : Z := 71.
Definition SPR_PSTR : Z := 72.
Definition SPR_PINS : Z := 73.
Definition SPR_MEGA : Z := 74.
Definition SPR_SUIT : Z := 75.
Definition SPR_PMAP : Z := 76.
Definition SPR_PVIS : Z := 77.
Definition SPR_CLIP : Z := 78.
Definition SPR_AMMO : Z := 79.
Definition SPR_ROCK : Z := 80.
Definition SPR_BROK : Z := 81.
Definition SPR_CELL : Z := 82.
Definition SPR_CELP : Z := 83.
Definition SPR_SHEL : Z := 84.
Definition SPR_SBOX : Z := 85.
Definition SPR_BPAK : Z := 86.
Definition SPR_BFUG : Z := 87.
Definition SPR_MGUN : Z := 88.
Definition SPR_CSAW : Z := 89.
Definition SPR_LAUN : Z := 90.
Definition SPR_PLAS : Z := 91.
Definition SPR_SHOT : Z := 92.
Definition SPR_SGN2 : Z := 93.

Definition maxammo : list Z := [200; 50; 300; 50].
Definition clipammo : list Z := [10; 4; 20; 1].
(** The weapons of d_items.c; the states are their numbers in info.h. *)
Record weaponinfo_t : Set := mk_weaponinfo {
  winfo_ammo : Z; upstate : Z; downstate : Z; readystate : Z; atkstate : Z; flashstate : Z }.
Definition weaponinfo : list weaponinfo_t :=
  [mk_weaponinfo am_noammo 4 3 2 5 0;
   mk_weaponinfo am_clip 12 11 10 13 17;
   mk_weaponinfo am_shell 20 19 18 21 30;
   mk_weaponinfo am_clip 51 50 49 52 55;
   mk_weaponinfo am_misl 59 58 57 60 63;
   mk_weaponinfo am_cell 76 75 74 77 79;
   mk_weaponinfo am_cell 83 82 81 84 88;
   mk_weaponinfo am_noammo 70 69 67 71 0;
   mk_weaponinfo am_shell 34 33 32 35 47].
Definition weapon_ammo : list Z := map winfo_ammo weaponinfo.

(** The settings of the game that the rules depend on; [console] tells
    whether the player is the one at the console. *)
Record rules : Set := mk_rules {
  skill : Z; netgame : bool; deathmatch : Z; commercial : bool; console : bool }.

Inductive sfx : Set := sfx_itemup | sfx_getpow | sfx_wpnup.

Record inv : Type := mk_inv { ply : Player.player_t; mo : Mobj.mobj_t }.
#[export] Instance inv_eta : Eta inv := fun i => mk_inv (ply i) (mo i).

Section pickup.
Context {msgs : Messages} (r : rules).

(** The weapon a player without ammunition changes to. *)
Definition new_weapon (ammo : Z) (p : Player.player_t) : outcome Player.player_t :=
  let ready := Player.readyweapon p in
  let change w := Ret (p <| Player.pendingweapon := w |>) in
  if ammo =? am_clip then
    if ready =? wp_fist then
      let* owned := get (Player.weaponowned p) wp_chaingun in
      if truth owned then change wp_chaingun else change wp_pistol
    else Ret p
  else if ammo =? am_shell then
    if (ready =? wp_fist) || (ready =? wp_pistol) then
      let* owned := get (Player.weaponowned p) wp_shotgun in
      if truth owned then change wp_shotgun else Ret p
    else Ret p
  else if ammo =? am_cell then
    if (ready =? wp_fist) || (ready =? wp_pistol) then
      let* owned := get (Player.weaponowned p) wp_plasma in
      if truth owned then change wp_plasma else Ret p
    else Ret p
  else if ammo =? am_misl then
    if ready =? wp_fist then
      let* owned := get (Player.weaponowned p) wp_missile in
      if truth owned then change wp_missile else Ret p
    else Ret p
  else Ret p.

Definition P_GiveAmmo (ammo num : Z) (p : Player.player_t) : outcome (bool * Player.player_t) :=
  if ammo =? am_noammo then Ret (false, p)
  else if ammo >? Z.of_nat NUMAMMO then Fatal "P_GiveAmmo: bad type"
  else
    let* have := get (Player.ammo p) ammo in
    let* most := get (Player.maxammo p) ammo in
    if have =? most then Ret (false, p)
    else
      let* clip := get clipammo ammo in
      let num := if truth num then i32 (num * clip) else Z.quot clip 2 in
      let num := if (skill r =? sk_baby) || (skill r =? sk_nightmare) then i32 (Z.shiftl num 1) else num in
      let oldammo := have in
      let have := i32 (have + num) in
      let have := if have >? most then most else have in
      let* l := set (Player.ammo p) ammo have in
      let p := p <| Player.ammo := l |> in
      if truth oldammo then Ret (true, p)
      else let* p := new_weapon ammo p in Ret (true, p).

(** The result, the player, and the sound if one is started. *)
Definition P_GiveWeapon (weapon : Z) (dropped : bool) (p : Player.player_t) :
  outcome (bool * Player.player_t * option sfx) :=
  let* owned := get (Player.weaponowned p) weapon in
  let* ammo := get weapon_ammo weapon in
  if netgame r && negb (deathmatch r =? 2) && negb dropped then
    if truth owned then Ret (false, p, None)
    else
      let p := p <| Player.bonuscount ::= fun c => i32 (c + BONUSADD) |> in
      let* l := set (Player.weaponowned p) weapon 1 in
      let p := p <| Player.weaponowned := l |> in
      let* '(_, p) := P_GiveAmmo ammo (if truth (deathmatch r) then 5 else 2) p in
      let p := p <| Player.pendingweapon := weapon |> in
      Ret (false, p, if console r then Some sfx_wpnup else None)
  else
    let* '(gaveammo, p) :=
      (if negb (ammo =? am_noammo) then P_GiveAmmo ammo (if dropped then 1 else 2) p else Ret (false, p)) in
    let* owned := get (Player.weaponowned p) weapon in
    if truth owned then Ret (gaveammo, p, None)
    else
      let* l := set (Player.weaponowned p) weapon 1 in
      Ret (true, p <| Player.weaponowned := l |> <| Player.pendingweapon := weapon |>, None).

Definition P_GiveBody (num : Z) (i : inv) : bool * inv :=
  if Player.health (ply i) >=? MAXHEALTH then (false, i)
  else
    let h := i32 (Player.health (ply i) + num) in
    let h := if h >? MAXHEALTH then MAXHEALTH else h in
    (true, mk_inv ((ply i) <| Player.health := h |>) ((mo i) <| Mobj.health := h |>)).

Definition P_GiveArmor (armortype : Z) (p : Player.player_t) : bool * Player.player_t :=
  let hits := i32 (armortype * 100) in
  if Player.armorpoints p >=? hits then (false, p)
  else (true, p <| Player.armortype := armortype |> <| Player.armorpoints := hits |>).

Definition P_GiveCard (card : Z) (p : Player.player_t) : outcome Player.player_t :=
  let* has := get (Player.cards p) card in
  if truth has then Ret p
  else
    let* l := set (Player.cards p) card 1 in
    Ret (p <| Player.bonuscount := BONUSADD |> <| Player.cards := l |>).

Definition P_GivePower (power : Z) (i : inv) : outcome (bool * inv) :=
  let set_power v i := let* l := set (Player.powers (ply i)) power v in
                       Ret (true, i <| ply ::= fun p => p <| Player.powers := l |> |>) in
  if power =? pw_invulnerability then set_power INVULNTICS i
  else if power =? pw_invisibility then
    let* '(b, i) := set_power INVISTICS i in
    Ret (b, i <| mo ::= fun m => m <| Mobj.flags ::= fun f => Z.lor f MF_SHADOW |> |>)
  else if power =? pw_infrared then set_power INFRATICS i
  else if power =? pw_ironfeet then set_power IRONTICS i
  else if power =? pw_strength then set_power 1 (P_GiveBody 100 i).2
  else
    let* has := get (Player.powers (ply i)) power in
    if truth has then Ret (false, i) else set_power 1 i.

(** ** P_TouchSpecialThing

    A case of the switch returns [None] where the code returns and leaves the
    thing where it is, with the player as changed so far, and the sound to
    play where it breaks out of the switch; the list has the sounds that were
    started on the way. *)
Definition case : Type := outcome (option sfx * list sfx * inv).
Definition take (i : inv) (msg : string) (s : sfx) : case :=
  Ret (Some s, [], i <| ply ::= fun p => p <| Player.message := message_at msg |> |>).
Definition leave (i : inv) : case := Ret (None, [], i).
Definition with_ply (i : inv) (p : Player.player_t) : inv := i <| ply := p |>.
(** [player->mo->health = player->health] *)
Definition set_health (h : Z) (i : inv) : inv :=
  mk_inv ((ply i) <| Player.health := h |>) ((mo i) <| Mobj.health := h |>).

Definition touch_bonus (sprite : Z) (i : inv) : option case :=
  let p := ply i in
  if sprite =? SPR_ARM1 then Some (
    let '(b, p) := P_GiveArmor deh_green_armor_class p in
    if b then take (with_ply i p) "GOTARMOR" sfx_itemup else leave i)
  else if sprite =? SPR_ARM2 then Some (
    let '(b, p) := P_GiveArmor deh_blue_armor_class p in
    if b then take (with_ply i p) "GOTMEGA" sfx_itemup else leave i)
  else if sprite =? SPR_BON1 then Some (
    let h := i32 (Player.health p + 1) in
    let h := if h >? deh_max_health then deh_max_health else h in
    take (set_health h i) "GOTHTHBONUS" sfx_itemup)
  else if sprite =? SPR_BON2 then Some (
    let a := i32 (Player.armorpoints p + 1) in
    let a := if a >? deh_max_armor then deh_max_armor else a in
    let t := if truth (Player.armortype p) then Player.armortype p else 1 in
    take (with_ply i (p <| Player.armorpoints := a |> <| Player.armortype := t |>)) "GOTARMBONUS" sfx_itemup)
  else if sprite =? SPR_SOUL then Some (
    let h := i32 (Player.health p + deh_soulsphere_health) in
    let h := if h >? deh_max_soulsphere then deh_max_soulsphere else h in
    take (set_health h i) "GOTSUPER" sfx_getpow)
  else if sprite =? SPR_MEGA then Some (
    if negb (commercial r) then leave i
    else
      let i := set_health deh_megasphere_health i in
      take (with_ply i (P_GiveArmor 2 (ply i)).2) "GOTMSPHERE" sfx_getpow)
  else None.

Definition touch_card (card : Z) (msg : string) (i : inv) : case :=
  let* has := get (Player.cards (ply i)) card in
  let i := if truth has then i else i <| ply ::= fun p => p <| Player.message := message_at msg |> |> in
  let* p := P_GiveCard card (ply i) in
  if negb (netgame r) then Ret (Some sfx_itemup, [], with_ply i p) else leave (with_ply i p).
Definition touch_key (sprite : Z) (i : inv) : option case :=
  if sprite =? SPR_BKEY then Some (touch_card it_bluecard "GOTBLUECARD" i)
  else if sprite =? SPR_YKEY then Some (touch_card it_yellowcard "GOTYELWCARD" i)
  else if sprite =? SPR_RKEY then Some (touch_card it_redcard "GOTREDCARD" i)
  else if sprite =? SPR_BSKU then Some (touch_card it_blueskull "GOTBLUESKUL" i)
  else if sprite =? SPR_YSKU then Some (touch_card it_yellowskull "GOTYELWSKUL" i)
  else if sprite =? SPR_RSKU then Some (touch_card it_redskull "GOTREDSKULL" i)
  else None.

Definition touch_power (power : Z) (msg : string) (i : inv) : case :=
  let* '(b, i) := P_GivePower power i in
  if b : bool then take i msg sfx_getpow else leave i.
Definition touch_body_power (sprite : Z) (i : inv) : option case :=
  if sprite =? SPR_STIM then Some (
    let '(b, i) := P_GiveBody 10 i in
    if b : bool then take i "GOTSTIM" sfx_itemup else leave i)
  else if sprite =? SPR_MEDI then Some (
    let '(b, i) := P_GiveBody 25 i in
    if b : bool then
      take i (if Player.health (ply i) <? 25 then "GOTMEDINEED" else "GOTMEDIKIT") sfx_itemup
    else leave i)
  else if sprite =? SPR_PINV then Some (touch_power pw_invulnerability "GOTINVUL" i)
  else if sprite =? SPR_PSTR then Some (
    let* '(b, i) := P_GivePower pw_strength i in
    if b : bool then
      let* '(s, l, i) := take i "GOTBERSERK" sfx_getpow in
      Ret (s, l, if Player.readyweapon (ply i) =? wp_fist then i
              else i <| ply ::= fun p => p <| Player.pendingweapon := wp_fist |> |>)
    else leave i)
  else if sprite =? SPR_PINS then Some (touch_power pw_invisibility "GOTINVIS" i)
  else if sprite =? SPR_SUIT then Some (touch_power pw_ironfeet "GOTSUIT" i)
  else if sprite =? SPR_PMAP then Some (touch_power pw_allmap "GOTMAP" i)
  else if sprite =? SPR_PVIS then Some (touch_power pw_infrared "GOTVISOR" i)
  else None.

Definition touch_clip (ammo num : Z) (msg : string) (i : inv) : case :=
  let* '(b, p) := P_GiveAmmo ammo num (ply i) in
  if b : bool then take (with_ply i p) msg sfx_itemup else leave (with_ply i p).
(** [for (i=0 ; i<NUMAMMO ; i++) P_GiveAmmo (player, i, 1);] *)
Fixpoint give_each (ammos : list Z) (p : Player.player_t) : outcome Player.player_t :=
  match ammos with
  | [] => Ret p
  | a :: ammos => let* '(_, p) := P_GiveAmmo a 1 p in give_each ammos p
  end.
Definition touch_ammo (sprite flags : Z) (i : inv) : option case :=
  if sprite =? SPR_CLIP then Some (touch_clip am_clip (if has_flag flags MF_DROPPED then 0 else 1) "GOTCLIP" i)
  else if sprite =? SPR_AMMO then Some (touch_clip am_clip 5 "GOTCLIPBOX" i)
  else if sprite =? SPR_ROCK then Some (touch_clip am_misl 1 "GOTROCKET" i)
  else if sprite =? SPR_BROK then Some (touch_clip am_misl 5 "GOTROCKBOX" i)
  else if sprite =? SPR_CELL then Some (touch_clip am_cell 1 "GOTCELL" i)
  else if sprite =? SPR_CELP then Some (touch_clip am_cell 5 "GOTCELLBOX" i)
  else if sprite =? SPR_SHEL then Some (touch_clip am_shell 1 "GOTSHELLS" i)
  else if sprite =? SPR_SBOX then Some (touch_clip am_shell 5 "GOTSHELLBOX" i)
  else if sprite =? SPR_BPAK then Some (
    let p := ply i in
    let p := if truth (Player.backpack p) then p
             else p <| Player.maxammo ::= fmap (fun m => i32 (m * 2)) |> <| Player.backpack := 1 |> in
    let* p := give_each [am_clip; am_shell; am_cell; am_misl] p in
    take (with_ply i p) "GOTBACKPACK" sfx_itemup)
  else None.

(** A weapon that stays in a net game has its sound started all the same. *)
Definition touch_gun (weapon : Z) (dropped : bool) (msg : string) (i : inv) : case :=
  let* '(b, p, snd) := P_GiveWeapon weapon dropped (ply i) in
  if b : bool then take (with_ply i p) msg sfx_wpnup
  else Ret (None, option_list snd, with_ply i p).
Definition touch_weapon (sprite flags : Z) (i : inv) : option case :=
  let dropped := has_flag flags MF_DROPPED in
  if sprite =? SPR_BFUG then Some (touch_gun wp_bfg false "GOTBFG9000" i)
  else if sprite =? SPR_MGUN then Some (touch_gun wp_chaingun dropped "GOTCHAINGUN" i)
  else if sprite =? SPR_CSAW then Some (touch_gun wp_chainsaw false "GOTCHAINSAW" i)
  else if sprite =? SPR_LAUN then Some (touch_gun wp_missile false "GOTLAUNCHER" i)
  else if sprite =? SPR_PLAS then Some (touch_gun wp_plasma false "GOTPLASMA" i)
  else if sprite =? SPR_SHOT then Some (touch_gun wp_shotgun dropped "GOTSHOTGUN" i)
  else if sprite =? SPR_SGN2 then Some (touch_gun wp_supershotgun dropped "GOTSHOTGUN2" i)
  else None.

(** The first of the groups of cases that knows the sprite. *)
Definition touch_switch (special : Mobj.mobj_t) (i : inv) : case :=
  let sprite := Mobj.sprite special in
  let flags := Mobj.flags special in
  match touch_bonus sprite i with Some c => c | None =>
  match touch_key sprite i with Some c => c | None =>
  match touch_body_power sprite i with Some c => c | None =>
  match touch_ammo sprite flags i with Some c => c | None =>
  match touch_weapon sprite flags i with Some c => c | None =>
    Fatal "P_SpecialThing: Unknown gettable thing"
  end end end end end.

(** The toucher is the player's [mo]. The result tells whether the thing is
    taken away from the level; the list has the sounds that are started. *)
Definition P_TouchSpecialThing (special : Mobj.mobj_t) (i : inv) : outcome (bool * list sfx * inv) :=
  let toucher := mo i in
  let delta := i32 (Mobj.z special - Mobj.z toucher) in
  if (delta >? Mobj.height toucher) || (delta <? -8 * FRACUNIT) then Ret (false, [], i)
  else if Mobj.health toucher <=? 0 then Ret (false, [], i)
  else
    let* '(sound, started, i) := touch_switch special i in
    match sound with
    | None => Ret (false, started, i)
    | Some s =>
        let count := has_flag (Mobj.flags special) MF_COUNTITEM in
        let p := if count then (ply i) <| Player.itemcount ::= fun c => i32 (c + 1) |> else ply i in
        let p := p <| Player.bonuscount ::= fun c => i32 (c + BONUSADD) |> in
        Ret (true, started ++ (if console r then [s] else []), with_ply i p)
    end.
End pickup.
