(* ===== verification/Psprites.v ===== *)
(** * The weapon in the hands of a player (p_pspr.c, first part)

    The states of the two sprites of a weapon, and how weapons are raised, lowered
    and chosen. What the functions of their states do is an interface of Mobjs.v. *)
From S2P Require Import Prelude MFixed MRandom MBbox MapGeometry DLists GameTypes Pickup ThingLinks Sight PathTraverse Movement Attack Info Mobjs.
#[local] Open Scope doom_scope.

Definition wp_nochange : Z := 10.
Definition WEAPONBOTTOM : Z := 128 * FRACUNIT.
Definition WEAPONTOP : Z := 32 * FRACUNIT.
Definition ps_weapon : nat := 0.
Definition ps_flash : nat := 1.
Definition deh_bfg_cells_per_shot : Z := 40.
Definition shareware : Z := 0.
Definition commercial : Z := 2.
Definition sfx_sawup : Z := 10.
Definition S_PLAY_ATK1 : Z := 154.

Section psprites.
Context {A : Arch} {im : Image} {bsp : Bsp} {D : Type} {st : Settings} {bh : Behaviour D}.
Implicit Types (p : oworld D) (i : Z) (pl : Player.player_t).

Definition get_player i p : outcome Player.player_t := at_place (players (ob p)) i.
Definition put_player i pl p : oworld D := on_ob (fun t => t <| players ::= <[Z.to_nat i := pl]> |>) p.
Definition upd_player i (f : Player.player_t -> Player.player_t) p : outcome (oworld D) := let* pl := get_player i p in Ret (put_player i (f pl) p).
Definition get_psp i (pos : nat) p : outcome PspDef.pspdef_t := let* pl := get_player i p in of_option (Player.psprites pl !! pos).
Definition upd_psp i (pos : nat) (f : PspDef.pspdef_t -> PspDef.pspdef_t) p : outcome (oworld D) :=
  let* s := get_psp i pos p in upd_player i (fun pl => pl <| Player.psprites ::= <[pos := f s]> |>) p.
Definition weapon_at (w : Z) : outcome weaponinfo_t := at_place weaponinfo w.

(** The loop: a state without tics leads on to the next. *)
Definition enter_sprite (s : Z) (d : State.state_t) (x : PspDef.pspdef_t) : PspDef.pspdef_t :=
  let x := x <| PspDef.state := Some s |> <| PspDef.tics := State.tics d |> in
  if State.misc1 d =? 0 then x
  else x <| PspDef.sx := i32 (Z.shiftl (State.misc1 d) FRACBITS) |> <| PspDef.sy := i32 (Z.shiftl (State.misc2 d) FRACBITS) |>.
Fixpoint set_psprite (fuel : nat) i (position : nat) (stnum : Z) p : outcome (oworld D) :=
  if stnum =? 0 then upd_psp i position (fun x => x <| PspDef.state := None |>) p
  else
    let* d := state_at stnum in
    let* p := upd_psp i position (enter_sprite stnum d) p in
    let* p := if bool_decide (State.action d = NULL) then Ret p else weapon_action (State.action d) i position p in
    let* x := get_psp i position p in
    match PspDef.state x with
    | None => if bool_decide (State.action d = NULL) then Undef else Ret p
    | Some s =>
        let* d := state_at s in
        if PspDef.tics x =? 0
        then match fuel with O => NoFuel | S fuel => set_psprite fuel i position (State.nextstate d) p end
        else Ret p
    end.
Definition P_SetPsprite i (position : nat) (stnum : Z) p : outcome (oworld D) := set_psprite (length states) i position stnum p.

Definition P_BringUpWeapon i p : outcome (oworld D) :=
  let* p := upd_player i (fun pl => if Player.pendingweapon pl =? wp_nochange then pl <| Player.pendingweapon := Player.readyweapon pl |> else pl) p in
  let* pl := get_player i p in
  let p := if Player.pendingweapon pl =? wp_chainsaw then S_StartSound (Player.mo pl) sfx_sawup p else p in
  let* w := weapon_at (Player.pendingweapon pl) in
  let* p := upd_player i (fun pl => pl <| Player.pendingweapon := wp_nochange |>) p in
  let* p := upd_psp i ps_weapon (fun x => x <| PspDef.sy := WEAPONBOTTOM |>) p in
  P_SetPsprite i ps_weapon (upstate w) p.

(** ** Ammunition *)
Definition shot_cost (w : Z) : Z := if w =? wp_bfg then deh_bfg_cells_per_shot else if w =? wp_supershotgun then 2 else 1.
(** What a player without ammunition changes to, in the order of preference. *)
Definition owns pl (w : Z) : outcome bool := let* x := get (Player.weaponowned pl) w in Ret (truth x).
Definition has_more pl (ammo n : Z) : outcome bool := let* x := get (Player.ammo pl) ammo in Ret (x >? n).
Definition has_some pl (ammo : Z) : outcome bool := let* x := get (Player.ammo pl) ammo in Ret (truth x).
Definition both (x y : outcome bool) : outcome bool := let* b := x in if b : bool then y else Ret false.
Fixpoint first_usable (l : list (Z * outcome bool)) : outcome Z :=
  match l with
  | [] => Ret wp_fist
  | (w, usable) :: l => let* b := usable in if b : bool then Ret w else first_usable l
  end.
Definition next_weapon pl : outcome Z := first_usable [
  (wp_plasma, both (owns pl wp_plasma) (both (has_some pl am_cell) (Ret (negb (gamemode =? shareware)))));
  (wp_supershotgun, both (owns pl wp_supershotgun) (both (has_more pl am_shell 2) (Ret (gamemode =? commercial))));
  (wp_chaingun, both (owns pl wp_chaingun) (has_some pl am_clip));
  (wp_shotgun, both (owns pl wp_shotgun) (has_some pl am_shell));
  (wp_pistol, has_some pl am_clip);
  (wp_chainsaw, owns pl wp_chainsaw);
  (wp_missile, both (owns pl wp_missile) (has_some pl am_misl));
  (wp_bfg, both (owns pl wp_bfg) (both (has_more pl am_cell 40) (Ret (negb (gamemode =? shareware)))))].
(** Whether the weapon in hand can be fired. *)
Definition can_fire pl : outcome bool :=
  let* w := weapon_at (Player.readyweapon pl) in
  if winfo_ammo w =? am_noammo then Ret true
  else let* n := get (Player.ammo pl) (winfo_ammo w) in Ret (n >=? shot_cost (Player.readyweapon pl)).
Definition P_DropWeapon i p : outcome (oworld D) :=
  let* pl := get_player i p in
  let* w := weapon_at (Player.readyweapon pl) in
  P_SetPsprite i ps_weapon (downstate w) p.
Definition P_CheckAmmo i p : outcome (bool * oworld D) :=
  let* pl := get_player i p in
  let* b := can_fire pl in
  if b : bool then Ret (true, p)
  else
    let* next := next_weapon pl in
    let* p := upd_player i (fun pl => pl <| Player.pendingweapon := next |>) p in
    let* p := P_DropWeapon i p in
    Ret (false, p).

(** ** Every tic, and the start of a level *)
Definition P_SetupPsprites i p : outcome (oworld D) :=
  let* p := upd_psp i ps_weapon (fun x => x <| PspDef.state := None |>) p in
  let* p := upd_psp i ps_flash (fun x => x <| PspDef.state := None |>) p in
  let* p := upd_player i (fun pl => pl <| Player.pendingweapon := Player.readyweapon pl |>) p in
  P_BringUpWeapon i p.
Definition move_psprite i (pos : nat) p : outcome (oworld D) :=
  let* x := get_psp i pos p in
  match PspDef.state x with
  | None => Ret p
  | Some s =>
      if PspDef.tics x =? -1 then Ret p
      else
        let* p := upd_psp i pos (fun x => x <| PspDef.tics ::= fun t => i32 (t - 1) |>) p in
        let* x := get_psp i pos p in
        if PspDef.tics x =? 0 then let* d := state_at s in P_SetPsprite i pos (State.nextstate d) p else Ret p
  end.
Definition P_MovePsprites i p : outcome (oworld D) :=
  let* p := move_psprite i ps_weapon p in
  let* p := move_psprite i ps_flash p in
  let* x := get_psp i ps_weapon p in
  upd_psp i ps_flash (fun y => y <| PspDef.sx := PspDef.sx x |> <| PspDef.sy := PspDef.sy x |>) p.
End psprites.
