(* ===== verification/Damage.v ===== *)
(** * Damage and death (p_inter.c, second part) *)
From S2P Require Import Prelude MFixed MRandom MBbox MapGeometry DLists GameTypes Pickup ThingLinks Sight PathTraverse Movement Attack Info Mobjs Psprites.
#[local] Open Scope doom_scope.

Definition CF_GODMODE : Z := 2.
Definition PST_DEAD : Z := 1.
Definition BASETHRESHOLD : Z := 100.
Definition exe_chex : Z := 9.
Definition MT_POSSESSED : Z := 1.
Definition MT_SHOTGUY : Z := 2.
Definition MT_VILE : Z := 3.
Definition MT_CHAINGUY : Z := 10.
Definition MT_SKULL : Z := 18.
Definition MT_WOLFSS : Z := 23.
Definition MT_CLIP : Z := 63.
Definition MT_CHAINGUN : Z := 73.
Definition MT_SHOTGUN : Z := 77.

Section damage.
Context {A : Arch} {im : Image} {bsp : Bsp} {D : Type} {st : Settings} {bh : Behaviour D}.
Implicit Types (p : oworld D) (target source inflictor : Z) (m : Mobj.mobj_t) (pl : Player.player_t).

Definition clear_flags (f : Z) m : Mobj.mobj_t := m <| Mobj.flags ::= fun x => Z.land x (Z.lnot f) |>.
Definition set_flags (f : Z) m : Mobj.mobj_t := m <| Mobj.flags ::= fun x => Z.lor x f |>.
(** The thing becomes a corpse. *)
Definition corpse m : Mobj.mobj_t :=
  let m := clear_flags (Z.lor (Z.lor MF_SHOOTABLE MF_FLOAT) MF_SKULLFLY) m in
  let m := if Mobj.type m =? MT_SKULL then m else clear_flags MF_NOGRAVITY m in
  set_flags (Z.lor MF_CORPSE MF_DROPOFF) m <| Mobj.height ::= fun h => Z.shiftr h 2 |>.
(** The player of a thing, if it is there and has one. *)
Definition player_of a p : outcome (option Z) := if a =? 0 then Ret None else let* m := thing_at a p in Ret (Mobj.player m).
Definition count_frag (i j : Z) p : outcome (oworld D) :=
  let* pl := get_player i p in
  let* n := get (Player.frags pl) j in
  Ret (put_player i (pl <| Player.frags ::= <[Z.to_nat j := i32 (n + 1)]> |>) p).
Definition count_kill (i : Z) p : outcome (oworld D) := upd_player i (fun pl => pl <| Player.killcount ::= fun n => i32 (n + 1) |>) p.
(** Whom the kill counts for. *)
Definition count_death source m p : outcome (oworld D) :=
  let kill := has_flag (Mobj.flags m) MF_COUNTKILL in
  let* killer := player_of source p in
  match killer with
  | Some k =>
      let* p := if kill then count_kill k p else Ret p in
      match Mobj.player m with Some j => count_frag k j p | None => Ret p end
  | None => if negb netgame && kill then count_kill 0 p else Ret p
  end.
Definition player_dies source target (j : Z) p : outcome (oworld D) :=
  let* p := if source =? 0 then count_frag j j p else Ret p in
  let* p := upd_thing target (clear_flags MF_SOLID) p in
  let* p := upd_player j (fun pl => pl <| Player.playerstate := PST_DEAD |>) p in
  P_DropWeapon j p.
Definition dropped_item (type : Z) : option Z :=
  if (type =? MT_WOLFSS) || (type =? MT_POSSESSED) then Some MT_CLIP
  else if type =? MT_SHOTGUY then Some MT_SHOTGUN
  else if type =? MT_CHAINGUY then Some MT_CHAINGUN else None.
Definition drop_item target p : outcome (oworld D) :=
  let* m := thing_at target p in
  match dropped_item (Mobj.type m) with
  | None => Ret p
  | Some item =>
      let* '(mo, p) := P_SpawnMobj (Mobj.x m) (Mobj.y m) ONFLOORZ item p in
      upd_thing mo (set_flags MF_DROPPED) p
  end.
(** The screen leaves the automap when the player of the console dies there;
    that is no part of the model. *)
Definition P_KillMobj source target p : outcome (oworld D) :=
  let* p := upd_thing target corpse p in
  let* m := thing_at target p in
  let* p := count_death source m p in
  let* p := match Mobj.player m with Some j => player_dies source target j p | None => Ret p end in
  let* m := thing_at target p in
  let* i := info_of m in
  let state := if (Mobj.health m <? i32 (- MobjInfo.spawnhealth i)) && negb (MobjInfo.xdeathstate i =? 0) then MobjInfo.xdeathstate i else MobjInfo.deathstate i in
  let* '(_, p) := P_SetMobjState target state p in
  let* p := random_tics target p in
  if gameversion =? exe_chex then Ret p else drop_item target p.

(** Whether what hurts the thing pushes it: not the chainsaw of a player. *)
Definition pushes source inflictor m p : outcome bool :=
  if (inflictor =? 0) || has_flag (Mobj.flags m) MF_NOCLIP then Ret false
  else
    let* shooter := player_of source p in
    match shooter with
    | None => Ret true
    | Some i => let* pl := get_player i p in Ret (negb (Player.readyweapon pl =? wp_chainsaw))
    end.
Definition c_div (a b : Z) : outcome Z := if b =? 0 then Undef else Ret (i32 (Z.quot a b)).
Definition push target inflictor (damage : Z) p : outcome (oworld D) :=
  let* m := thing_at target p in
  let* mi := thing_at inflictor p in
  let ang := point_to_angle (Mobj.x mi) (Mobj.y mi) (Mobj.x m) (Mobj.y m) in
  let* i := info_of m in
  let* thrust := c_div (i32 (i32 (damage * Z.shiftr FRACUNIT 3) * 100)) (MobjInfo.mass i) in
  let* '(r, p) :=
    if (damage <? 40) && (damage >? Mobj.health m) && (i32 (Mobj.z m - Mobj.z mi) >? 64 * FRACUNIT) then draw p else Ret (0, p) in
  let forwards := has_flag r 1 in
  let ang := if forwards then wrapu 32 (ang + ANG180) else ang in
  let thrust := if forwards then i32 (thrust * 4) else thrust in
  let fine := Z.shiftr ang ANGLETOFINESHIFT in
  upd_thing target (fun m => m <| Mobj.momx ::= fun x => i32 (x + FixedMul thrust (cosine fine)) |> <| Mobj.momy ::= fun y => i32 (y + FixedMul thrust (sine fine)) |>) p.
(** The armour takes its part: what is left of the damage. *)
Definition absorb (damage : Z) pl : Z * Player.player_t :=
  if Player.armortype pl =? 0 then (damage, pl)
  else
    let saved := if Player.armortype pl =? 1 then Z.quot damage 3 else Z.quot damage 2 in
    let used_up := Player.armorpoints pl <=? saved in
    let saved := if used_up then Player.armorpoints pl else saved in
    let pl := if used_up then pl <| Player.armortype := 0 |> else pl in
    (i32 (damage - saved), pl <| Player.armorpoints ::= fun n => i32 (n - saved) |>).
Definition wound source (damage : Z) pl : Player.player_t :=
  let h := i32 (Player.health pl - damage) in
  let c := i32 (Player.damagecount pl + damage) in
  pl <| Player.health := if h <? 0 then 0 else h |> <| Player.attacker := source |> <| Player.damagecount := if c >? 100 then 100 else c |>.
Definition invulnerable pl : outcome bool :=
  let* power := get (Player.powers pl) pw_invulnerability in
  Ret (has_flag (Player.cheats pl) CF_GODMODE || truth power).
(** The part for players: [None] when the damage is ignored, otherwise what the
    thing still suffers. *)
Definition hurt_player target source (j damage : Z) p : outcome (option Z * oworld D) :=
  let* m := thing_at target p in
  let* s := under m p in
  let damage := if (secspecial s =? 11) && (damage >=? Mobj.health m) then i32 (Mobj.health m - 1) else damage in
  let* pl := get_player j p in
  let* safe := if damage <? 1000 then invulnerable pl else Ret false in
  if safe : bool then Ret (None, p)
  else
    let '(damage, pl) := absorb damage pl in
    Ret (Some damage, put_player j (wound source damage pl) p).
(** The thing is in pain, and turns against who hurt it. *)
Definition in_pain target p : outcome (oworld D) :=
  let* '(r, p) := draw p in
  let* m := thing_at target p in
  let* i := info_of m in
  if (r <? MobjInfo.painchance i) && negb (has_flag (Mobj.flags m) MF_SKULLFLY) then
    let* p := upd_thing target (set_flags MF_JUSTHIT) p in
    let* '(_, p) := P_SetMobjState target (MobjInfo.painstate i) p in Ret p
  else Ret p.
Definition chase target source p : outcome (oworld D) :=
  let* m := thing_at target p in
  if ((Mobj.threshold m =? 0) || (Mobj.type m =? MT_VILE)) && negb (source =? 0) && negb (source =? target) then
    let* ms := thing_at source p in
    if Mobj.type ms =? MT_VILE then Ret p
    else
      let* p := upd_thing target (fun m => m <| Mobj.target := source |> <| Mobj.threshold := BASETHRESHOLD |>) p in
      let* i := info_of m in
      if (Mobj.state m =? MobjInfo.spawnstate i) && negb (MobjInfo.seestate i =? S_NULL)
      then let* '(_, p) := P_SetMobjState target (MobjInfo.seestate i) p in Ret p else Ret p
  else Ret p.
Definition P_DamageMobj target inflictor source (damage : Z) p : outcome (oworld D) :=
  let* m := thing_at target p in
  if negb (has_flag (Mobj.flags m) MF_SHOOTABLE) then Ret p
  else if Mobj.health m <=? 0 then Ret p
  else
    let* p := if has_flag (Mobj.flags m) MF_SKULLFLY
              then upd_thing target (fun m => m <| Mobj.momx := 0 |> <| Mobj.momy := 0 |> <| Mobj.momz := 0 |>) p else Ret p in
    let damage := if bool_decide (Mobj.player m <> None) && (gameskill =? sk_baby) then Z.shiftr damage 1 else damage in
    let* pushed := pushes source inflictor m p in
    let* p := if pushed : bool then push target inflictor damage p else Ret p in
    let* '(suffered, p) := match Mobj.player m with Some j => hurt_player target source j damage p | None => Ret (Some damage, p) end in
    match suffered with
    | None => Ret p
    | Some damage =>
        let* p := upd_thing target (fun m => m <| Mobj.health ::= fun h => i32 (h - damage) |>) p in
        let* m := thing_at target p in
        if Mobj.health m <=? 0 then P_KillMobj source target p
        else
          let* p := in_pain target p in
          let* p := upd_thing target (fun m => m <| Mobj.reactiontime := 0 |>) p in
          chase target source p
    end.
End damage.
