(* ===== verification/Motion.v ===== *)
(** * Things that move, think and are placed (p_mobj.c, second part)

    The momentum of things along the map and up and down, the turn of a thing
    (P_MobjThinker), missiles, and the things of a level. This file puts the parts
    together: the functions of Mobjs.v and Damage.v are what the moves of
    Movement.v and Attack.v call. *)
From S2P Require Import Prelude MFixed MRandom MBbox MapGeometry DLists GameTypes Pickup ThingLinks Sight PathTraverse Movement Attack Info Mobjs Psprites Damage.
#[local] Open Scope doom_scope.

Definition STOPSPEED : Z := 0x1000.
Definition FRICTION : Z := 0xe800.
Definition MAXMOVE : Z := 30 * FRACUNIT.
Definition GRAVITY : Z := FRACUNIT.
Definition FLOATSPEED : Z := 4 * FRACUNIT.
Definition VIEWHEIGHT : Z := 41 * FRACUNIT.
Definition CF_NOMOMENTUM : Z := 4.
Definition S_PLAY : Z := 149.
Definition S_PLAY_RUN1 : Z := 150.
Definition MT_TFOG : Z := 39.
Definition MT_IFOG : Z := 40.
Definition ANG45 : Z := 0x20000000.
Definition MTF_AMBUSH : Z := 8.
Definition MAX_DM_STARTS : Z := 10.
Definition PST_LIVE : Z := 0.
Definition PST_REBORN : Z := 2.
Definition exe_ultimate : Z := 6.
Definition sfx_oof : Z := 34.
Definition sfx_telept : Z := 35.
Definition sfx_itmbk : Z := 90.

(** What other modules do: items that are touched, and lines. *)
Class Elsewhere (D : Type) : Type := {
  touch_special : Z -> Z -> oworld D -> outcome (oworld D);
  cross_line : nat -> Z -> Z -> oworld D -> outcome (oworld D);
  shoot_line : Z -> nat -> oworld D -> outcome (oworld D);
  use_line : Z -> nat -> Z -> oworld D -> outcome (oworld D);
  noway : Z -> oworld D -> oworld D
}.

Section wiring.
Context {A : Arch} {im : Image} {bsp : Bsp} {D : Type} {st : Settings} {bh : Behaviour D} {el : Elsewhere D}.
Implicit Types (p : oworld D).

(** The field of a type of thing a pointer leads to. *)
Definition info_field (f : MobjInfo.mobjinfo_t -> Z) (ptr : Z) : Z :=
  match info_of (zero_thing <| Mobj.info := ptr |>) with Ret i => f i | _ => 0 end.
#[export] Instance actions : Actions (attack (objs D)) := {|
  Movement.P_DamageMobj target inflictor source damage p := Damage.P_DamageMobj target inflictor source damage p;
  Movement.P_SetMobjState a s p := let* '(_, p) := Mobjs.P_SetMobjState a s p in Ret p;
  Movement.P_TouchSpecialThing := touch_special;
  Movement.P_CrossSpecialLine := cross_line;
  Movement.P_SpawnMobj := Mobjs.P_SpawnMobj;
  Movement.P_RemoveMobj := Mobjs.P_RemoveMobj;
  info_damage := info_field MobjInfo.damage;
  info_spawnstate := info_field MobjInfo.spawnstate;
  gamemap := map_number;
  Movement.leveltime p := leveltime (ob p);
  spechit_base := spechit_magic |}.
#[export] Instance shots : Shots (objs D) := {|
  finesine := sine; finecosine := cosine; R_PointToAngle2 := point_to_angle; skyflatnum := sky_flat; dummy_mobj := dummy_at;
  P_ShootSpecialLine := shoot_line; P_UseSpecialLine := use_line;
  Attack.P_SpawnPuff := Mobjs.P_SpawnPuff; Attack.P_SpawnBlood := Mobjs.P_SpawnBlood; sound_noway := noway |}.
End wiring.

Section motion.
Context {A : Arch} {im : Image} {bsp : Bsp} {sg : Segs} {bm : Blockmap} {D : Type} {st : Settings} {bh : Behaviour D} {el : Elsewhere D}.
Implicit Types (p : oworld D) (a : Z) (m : Mobj.mobj_t).

(** ** Along the map *)
Definition halt m : Mobj.mobj_t := m <| Mobj.momx := 0 |> <| Mobj.momy := 0 |> <| Mobj.momz := 0 |>.
Definition clamp (v : Z) : Z := if v >? MAXMOVE then MAXMOVE else if v <? - MAXMOVE then - MAXMOVE else v.
(** Whether the lowest ceiling on the way was a sky. *)
Definition sky_above p : outcome bool :=
  match ceilingline (client p) with
  | None => Ret false
  | Some i =>
      let* ld := line_of i p in
      let* back := back_of ld p in
      Ret (match back with Some s => ceilingpic s =? sky_flat | None => false end)
  end.
(** What a blocked move does; [false]: the thing is gone and the move over. *)
Definition blocked_move a p : outcome (bool * oworld D) :=
  let* m := thing_at a p in
  if bool_decide (Mobj.player m <> None) then let* p := P_SlideMove a p in Ret (true, p)
  else if has_flag (Mobj.flags m) MF_MISSILE then
    let* sky := sky_above p in
    if sky : bool then let* p := P_RemoveMobj a p in Ret (false, p)
    else let* p := P_ExplodeMissile a p in Ret (true, p)
  else let* p := upd_thing a (fun m => m <| Mobj.momx := 0 |> <| Mobj.momy := 0 |>) p in Ret (true, p).
(** One step of the move, from where the thing is now. *)
Definition try_step a (dx dy : Z) p : outcome (bool * oworld D) :=
  let* m := thing_at a p in
  let* '(free, p) := P_TryMove a (i32 (Mobj.x m + dx)) (i32 (Mobj.y m + dy)) p in
  if free : bool then Ret (true, p) else blocked_move a p.
Fixpoint xy_loop (fuel : nat) a (xmove ymove : Z) p : outcome (bool * oworld D) :=
  match fuel with
  | O => NoFuel
  | S fuel =>
      let long := (xmove >? Z.quot MAXMOVE 2) || (ymove >? Z.quot MAXMOVE 2) in
      let '(dx, dy) := if long then (Z.quot xmove 2, Z.quot ymove 2) else (xmove, ymove) in
      let '(restx, resty) := if long then (Z.shiftr xmove 1, Z.shiftr ymove 1) else (0, 0) in
      let* '(on, p) := try_step a dx dy p in
      if negb on then Ret (false, p)
      else if (restx =? 0) && (resty =? 0) then Ret (true, p) else xy_loop fuel a restx resty p
  end.
(** The friction of the floor. *)
Definition slow m : bool :=
  (Mobj.momx m >? - STOPSPEED) && (Mobj.momx m <? STOPSPEED) && (Mobj.momy m >? - STOPSPEED) && (Mobj.momy m <? STOPSPEED).
Definition fast_corpse m : bool :=
  (Mobj.momx m >? Z.quot FRACUNIT 4) || (Mobj.momx m <? Z.quot (- FRACUNIT) 4) || (Mobj.momy m >? Z.quot FRACUNIT 4) || (Mobj.momy m <? Z.quot (- FRACUNIT) 4).
Definition idle (player : option Z) p : outcome bool :=
  match player with
  | None => Ret true
  | Some i => let* pl := get_player i p in Ret ((TicCmd.forwardmove (Player.cmd pl) =? 0) && (TicCmd.sidemove (Player.cmd pl) =? 0))
  end.
Definition stop_running (player : option Z) p : outcome (oworld D) :=
  match player with
  | None => Ret p
  | Some i =>
      let* pl := get_player i p in
      let* mo := thing_at (Player.mo pl) p in
      if wrapu 32 (Mobj.state mo - S_PLAY_RUN1) <? 4 then let* '(_, p) := P_SetMobjState (Player.mo pl) S_PLAY p in Ret p else Ret p
  end.
Definition friction a (player : option Z) p : outcome (oworld D) :=
  let* m := thing_at a p in
  if has_flag (Mobj.flags m) (Z.lor MF_MISSILE MF_SKULLFLY) then Ret p
  else if Mobj.z m >? Mobj.floorz m then Ret p
  else
    let* off_step :=
      if has_flag (Mobj.flags m) MF_CORPSE && fast_corpse m
      then let* s := under m p in Ret (negb (Mobj.floorz m =? floorheight (hts s))) else Ret false in
    if off_step : bool then Ret p
    else
      let* still := if slow m then idle player p else Ret false in
      if still : bool then
        let* p := stop_running player p in
        upd_thing a (fun m => m <| Mobj.momx := 0 |> <| Mobj.momy := 0 |>) p
      else upd_thing a (fun m => m <| Mobj.momx := FixedMul (Mobj.momx m) FRICTION |> <| Mobj.momy := FixedMul (Mobj.momy m) FRICTION |>) p.
Definition XY_STEPS : nat := 2.
Definition P_XYMovement a p : outcome (oworld D) :=
  let* m := thing_at a p in
  if (Mobj.momx m =? 0) && (Mobj.momy m =? 0) then
    if has_flag (Mobj.flags m) MF_SKULLFLY then
      let* p := upd_thing a (fun m => halt (clear_flags MF_SKULLFLY m)) p in
      let* i := info_of m in
      let* '(_, p) := P_SetMobjState a (MobjInfo.spawnstate i) p in Ret p
    else Ret p
  else
    let player := Mobj.player m in
    let* p := upd_thing a (fun m => m <| Mobj.momx ::= clamp |> <| Mobj.momy ::= clamp |>) p in
    let* m := thing_at a p in
    let* '(on, p) := xy_loop XY_STEPS a (Mobj.momx m) (Mobj.momy m) p in
    if negb on then Ret p
    else
      let* nomomentum := match player with Some i => let* pl := get_player i p in Ret (has_flag (Player.cheats pl) CF_NOMOMENTUM) | None => Ret false end in
      if nomomentum : bool then upd_thing a (fun m => m <| Mobj.momx := 0 |> <| Mobj.momy := 0 |>) p
      else friction a player p.

(** ** Up and down *)

(** A step up lowers the view of a player for a moment. *)
Definition step_up a p : outcome (oworld D) :=
  let* m := thing_at a p in
  match Mobj.player m with
  | Some i =>
      if Mobj.z m <? Mobj.floorz m then
        upd_player i (fun pl =>
          let h := i32 (Player.viewheight pl - i32 (Mobj.floorz m - Mobj.z m)) in
          pl <| Player.viewheight := h |> <| Player.deltaviewheight := Z.shiftr (i32 (VIEWHEIGHT - h)) 3 |>) p
      else Ret p
  | None => Ret p
  end.
(** A floating thing moves to the height of its target. *)
Definition float_to m t : Mobj.mobj_t :=
  let dist := P_AproxDistance (i32 (Mobj.x m - Mobj.x t)) (i32 (Mobj.y m - Mobj.y t)) in
  let delta := i32 (i32 (Mobj.z t + Z.shiftr (Mobj.height m) 1) - Mobj.z m) in
  if (delta <? 0) && (dist <? i32 (- i32 (delta * 3))) then m <| Mobj.z ::= fun z => i32 (z - FLOATSPEED) |>
  else if (delta >? 0) && (dist <? i32 (delta * 3)) then m <| Mobj.z ::= fun z => i32 (z + FLOATSPEED) |>
  else m.
Definition float a p : outcome (oworld D) :=
  let* m := thing_at a p in
  if has_flag (Mobj.flags m) MF_FLOAT && negb (Mobj.target m =? 0) && negb (has_flag (Mobj.flags m) MF_SKULLFLY) && negb (has_flag (Mobj.flags m) MF_INFLOAT) then
    let* t := thing_at (Mobj.target m) p in upd_thing a (fun m => float_to m t) p
  else Ret p.
Definition bounce m : Mobj.mobj_t := m <| Mobj.momz ::= fun z => i32 (- z) |>.
Definition correct_lost_soul_bounce : bool := gameversion >=? exe_ultimate.
(** A player who falls hard squats and says so. *)
Definition hard_landing a m p : outcome (oworld D) :=
  match Mobj.player m with
  | Some i =>
      if Mobj.momz m <? - GRAVITY * 8 then
        let* p := upd_player i (fun pl => pl <| Player.deltaviewheight := Z.shiftr (Mobj.momz m) 3 |>) p in
        Ret (S_StartSound a sfx_oof p)
      else Ret p
  | None => Ret p
  end.
Definition hit_floor a p : outcome (oworld D) :=
  let* p := upd_thing a (fun m => if correct_lost_soul_bounce && has_flag (Mobj.flags m) MF_SKULLFLY then bounce m else m) p in
  let* m := thing_at a p in
  let* p := if Mobj.momz m <? 0 then let* p := hard_landing a m p in upd_thing a (fun m => m <| Mobj.momz := 0 |>) p else Ret p in
  upd_thing a (fun m =>
    let m := m <| Mobj.z := Mobj.floorz m |> in
    if negb correct_lost_soul_bounce && has_flag (Mobj.flags m) MF_SKULLFLY then bounce m else m) p.
Definition fall m : Mobj.mobj_t :=
  if has_flag (Mobj.flags m) MF_NOGRAVITY then m
  else if Mobj.momz m =? 0 then m <| Mobj.momz := - GRAVITY * 2 |> else m <| Mobj.momz ::= fun z => i32 (z - GRAVITY) |>.
Definition bump m : Mobj.mobj_t :=
  let m := if Mobj.momz m >? 0 then m <| Mobj.momz := 0 |> else m in
  let m := m <| Mobj.z := i32 (Mobj.ceilingz m - Mobj.height m) |> in
  if has_flag (Mobj.flags m) MF_SKULLFLY then bounce m else m.
Definition explodes m : bool := has_flag (Mobj.flags m) MF_MISSILE && negb (has_flag (Mobj.flags m) MF_NOCLIP).
Definition hit_ceiling a p : outcome (oworld D) :=
  let* m := thing_at a p in
  if i32 (Mobj.z m + Mobj.height m) >? Mobj.ceilingz m then
    let* p := upd_thing a bump p in
    if explodes m then P_ExplodeMissile a p else Ret p
  else Ret p.
Definition P_ZMovement a p : outcome (oworld D) :=
  let* p := step_up a p in
  let* p := upd_thing a (fun m => m <| Mobj.z := i32 (Mobj.z m + Mobj.momz m) |>) p in
  let* p := float a p in
  let* m := thing_at a p in
  if Mobj.z m <=? Mobj.floorz m then
    let* p := hit_floor a p in
    if explodes m then P_ExplodeMissile a p else hit_ceiling a p
  else
    let* p := upd_thing a fall p in
    hit_ceiling a p.

(** ** The turn of a thing *)
Definition spawn_height (flags : Z) : Z := if has_flag flags MF_SPAWNCEILING then ONCEILINGZ else ONFLOORZ.
Definition map_angle (angle : Z) : Z := wrapu 32 (ANG45 * Z.quot angle 45).
(** The fog of a teleporter on the floor of the sector at a place. *)
Definition fog (type sfx x y : Z) p : outcome (oworld D) :=
  let* ss := R_PointInSubsector nodes x y in
  let* s := of_option (ss_sector (ss_at ss)) in
  let* sec := of_option (sectors (client p) !! s) in
  let* '(mo, p) := P_SpawnMobj x y (floorheight (hts sec)) type p in
  Ret (S_StartSound mo sfx p).
Definition P_NightmareRespawn a p : outcome (oworld D) :=
  let* m := thing_at a p in
  let sp := Mobj.spawnpoint m in
  let x := i32 (Z.shiftl (MapThing.x sp) FRACBITS) in
  let y := i32 (Z.shiftl (MapThing.y sp) FRACBITS) in
  let* '(free, p) := P_CheckPosition a x y p in
  if negb free then Ret p
  else
    let* m := thing_at a p in
    let* s := under m p in
    let* '(mo, p) := P_SpawnMobj (Mobj.x m) (Mobj.y m) (floorheight (hts s)) MT_TFOG p in
    let p := S_StartSound mo sfx_telept p in
    let* p := fog MT_TFOG sfx_telept x y p in
    let* m := thing_at a p in
    let* i := info_of m in
    let* '(mo, p) := P_SpawnMobj x y (spawn_height (MobjInfo.flags i)) (Mobj.type m) p in
    let* p := upd_thing mo (fun n =>
      let n := n <| Mobj.spawnpoint := Mobj.spawnpoint m |> <| Mobj.angle := map_angle (MapThing.angle (Mobj.spawnpoint m)) |> in
      let n := if has_flag (MapThing.options (Mobj.spawnpoint m)) MTF_AMBUSH then set_flags MF_AMBUSH n else n in
      n <| Mobj.reactiontime := 18 |>) p in
    P_RemoveMobj a p.
(** A corpse of a monster that may rise again. *)
Definition try_respawn a p : outcome (oworld D) :=
  let* m := thing_at a p in
  if negb (has_flag (Mobj.flags m) MF_COUNTKILL) || negb respawnmonsters then Ret p
  else
    let* p := upd_thing a (fun m => m <| Mobj.movecount ::= fun c => i32 (c + 1) |>) p in
    let* m := thing_at a p in
    if (Mobj.movecount m <? 12 * TICRATE) || has_flag (leveltime (ob p)) 31 then Ret p
    else
      let* '(r, p) := draw p in
      if r >? 4 then Ret p else P_NightmareRespawn a p.
Definition next_tic a p : outcome (oworld D) :=
  let* m := thing_at a p in
  if Mobj.tics m =? -1 then try_respawn a p
  else
    let* p := upd_thing a (fun m => m <| Mobj.tics ::= fun t => i32 (t - 1) |>) p in
    let* m := thing_at a p in
    if Mobj.tics m =? 0 then
      let* d := state_at (Mobj.state m) in
      let* '(_, p) := P_SetMobjState a (State.nextstate d) p in Ret p
    else Ret p.
Definition P_MobjThinker a p : outcome (oworld D) :=
  let* m := thing_at a p in
  let* '(on, p) :=
    if negb (Mobj.momx m =? 0) || negb (Mobj.momy m =? 0) || has_flag (Mobj.flags m) MF_SKULLFLY then
      let* p := P_XYMovement a p in
      let* m := thing_at a p in Ret (negb (is_removed m), p)
    else Ret (true, p) in
  if negb on then Ret p
  else
    let* m := thing_at a p in
    let* '(on, p) :=
      if negb (Mobj.z m =? Mobj.floorz m) || negb (Mobj.momz m =? 0) then
        let* p := P_ZMovement a p in
        let* m := thing_at a p in Ret (negb (is_removed m), p)
      else Ret (true, p) in
    if negb on then Ret p else next_tic a p.
End motion.

(** * Missiles, and the things of a level (p_mobj.c, third part)

    Also the fresh start of a player (G_PlayerReborn of g_game.c). *)

Definition deh_initial_health : Z := 100.
Definition deh_initial_bullets : Z := 50.

Section spawning.
Context {A : Arch} {im : Image} {bsp : Bsp} {sg : Segs} {bm : Blockmap} {D : Type} {st : Settings} {bh : Behaviour D} {el : Elsewhere D}.
Implicit Types (p : oworld D) (a : Z) (m : Mobj.mobj_t) (t : MapThing.mapthing_t).

(** ** Missiles *)
Definition P_CheckMissileSpawn a p : outcome (oworld D) :=
  let* p := random_tics a p in
  let* p := upd_thing a (fun m =>
    m <| Mobj.x ::= fun x => i32 (x + Z.shiftr (Mobj.momx m) 1) |> <| Mobj.y ::= fun y => i32 (y + Z.shiftr (Mobj.momy m) 1) |>
      <| Mobj.z ::= fun z => i32 (z + Z.shiftr (Mobj.momz m) 1) |>) p in
  let* m := thing_at a p in
  let* '(free, p) := P_TryMove a (Mobj.x m) (Mobj.y m) p in
  if free : bool then Ret p else P_ExplodeMissile a p.
(** The sound a type of thing makes when it is seen. *)
Definition see_sound a (i : MobjInfo.mobjinfo_t) p : oworld D := if MobjInfo.seesound i =? 0 then p else S_StartSound a (MobjInfo.seesound i) p.
Definition P_SpawnMissile (source dest type : Z) p : outcome (Z * oworld D) :=
  let* src := thing_at source p in
  let* '(th, p) := P_SpawnMobj (Mobj.x src) (Mobj.y src) (i32 (Mobj.z src + 4 * 8 * FRACUNIT)) type p in
  let* m := thing_at th p in
  let* i := info_of m in
  let p := see_sound th i p in
  let* p := upd_thing th (fun m => m <| Mobj.target := source |>) p in
  let* src := thing_at source p in
  let* dst := thing_at dest p in
  let an := point_to_angle (Mobj.x src) (Mobj.y src) (Mobj.x dst) (Mobj.y dst) in
  let* '(an, p) :=
    if has_flag (Mobj.flags dst) MF_SHADOW
    then let* '(r1, p) := draw p in let* '(r2, p) := draw p in Ret (wrapu 32 (an + Z.shiftl (r1 - r2) 20), p)
    else Ret (an, p) in
  let fine := Z.shiftr an ANGLETOFINESHIFT in
  let speed := MobjInfo.speed i in
  let* dist := c_div (P_AproxDistance (i32 (Mobj.x dst - Mobj.x src)) (i32 (Mobj.y dst - Mobj.y src))) speed in
  let dist := if dist <? 1 then 1 else dist in
  let* p := upd_thing th (fun m => m <| Mobj.angle := an |> <| Mobj.momx := FixedMul speed (cosine fine) |> <| Mobj.momy := FixedMul speed (sine fine) |>
    <| Mobj.momz := Z.quot (i32 (Mobj.z dst - Mobj.z src)) dist |>) p in
  let* p := P_CheckMissileSpawn th p in
  Ret (th, p).
(** Aiming straight ahead, then a little to the left and to the right: the angle
    that had a target and its slope. *)
Definition AIMRANGE : Z := 16 * 64 * FRACUNIT.
Fixpoint aim_among (source : Z) (angles : list Z) p : outcome (option (Z * Z) * oworld D) :=
  match angles with
  | [] => Ret (None, p)
  | an :: angles =>
      let* '(slope, p) := P_AimLineAttack source an AIMRANGE p in
      if linetarget (at_ p) =? 0 then aim_among source angles p else Ret (Some (an, slope), p)
  end.
Definition aim_angles (an : Z) : list Z := let left := wrapu 32 (an + Z.shiftl 1 26) in [an; left; wrapu 32 (left - Z.shiftl 2 26)].
Definition P_SpawnPlayerMissile (source type : Z) p : outcome (oworld D) :=
  let* src := thing_at source p in
  let* '(aim, p) := aim_among source (aim_angles (Mobj.angle src)) p in
  let* src := thing_at source p in
  let '(an, slope) := match aim with Some x => x | None => (Mobj.angle src, 0) end in
  let* '(th, p) := P_SpawnMobj (Mobj.x src) (Mobj.y src) (i32 (Mobj.z src + 4 * 8 * FRACUNIT)) type p in
  let* m := thing_at th p in
  let* i := info_of m in
  let p := see_sound th i p in
  let fine := Z.shiftr an ANGLETOFINESHIFT in
  let speed := MobjInfo.speed i in
  let* p := upd_thing th (fun m => m <| Mobj.target := source |> <| Mobj.angle := an |>
    <| Mobj.momx := FixedMul speed (cosine fine) |> <| Mobj.momy := FixedMul speed (sine fine) |> <| Mobj.momz := FixedMul speed slope |>) p in
  P_CheckMissileSpawn th p.

(** ** Items that come back *)

(** The loop over the types: the first with the number, or the number of types. *)
Definition find_type (doomednum : Z) : Z :=
  match list_find (fun i => MobjInfo.doomednum i = doomednum) mobjinfo with Some (k, _) => Z.of_nat k | None => NUMMOBJTYPES end.
Definition map_x t : Z := i32 (Z.shiftl (MapThing.x t) FRACBITS).
Definition map_y t : Z := i32 (Z.shiftl (MapThing.y t) FRACBITS).
Definition P_RespawnSpecials p : outcome (oworld D) :=
  let o := ob p in
  if negb (deathmatch =? 2) then Ret p
  else if iquehead o =? iquetail o then Ret p
  else
    let* since := get (itemrespawntime o) (iquetail o) in
    if i32 (leveltime o - since) <? 30 * TICRATE then Ret p
    else
      let* mthing := at_place (itemrespawnque o) (iquetail o) in
      let* p := fog MT_IFOG sfx_itmbk (map_x mthing) (map_y mthing) p in
      let type := find_type (MapThing.type mthing) in
      let* i := type_at type in
      let* '(mo, p) := P_SpawnMobj (map_x mthing) (map_y mthing) (spawn_height (MobjInfo.flags i)) type p in
      let* p := upd_thing mo (fun m => m <| Mobj.spawnpoint := mthing |> <| Mobj.angle := map_angle (MapThing.angle mthing) |>) p in
      Ret (on_ob (fun o => o <| iquetail ::= next_in_que |>) p).

(** ** Players *)
Definition zero_player : Player.player_t :=
  Player.mk 0 0 (TicCmd.mk 0 0 0 0 0 0 0 0 0 0) 0 0 0 0 0 0 0 (replicate NUMPOWERS 0) (replicate NUMCARDS 0) 0 (replicate MAXPLAYERS 0) 0 0 (replicate NUMWEAPONS 0)
    (replicate NUMAMMO 0) (replicate NUMAMMO 0) 0 0 0 0 0 0 0 0 0 0 0 0 0 0 (replicate NUMPSPRITES (PspDef.mk None 0 0 0)) 0.
(** What a player keeps: the frags and the counts of the level. *)
Definition reborn (pl : Player.player_t) : Player.player_t :=
  zero_player <| Player.frags := Player.frags pl |> <| Player.killcount := Player.killcount pl |> <| Player.itemcount := Player.itemcount pl |>
    <| Player.secretcount := Player.secretcount pl |> <| Player.usedown := 1 |> <| Player.attackdown := 1 |> <| Player.playerstate := PST_LIVE |>
    <| Player.health := deh_initial_health |> <| Player.readyweapon := wp_pistol |> <| Player.pendingweapon := wp_pistol |>
    <| Player.weaponowned ::= fun l => <[Z.to_nat wp_pistol := 1]> (<[Z.to_nat wp_fist := 1]> l) |>
    <| Player.ammo ::= <[Z.to_nat am_clip := deh_initial_bullets]> |> <| Player.maxammo := Pickup.maxammo |>.
Definition G_PlayerReborn (i : Z) p : outcome (oworld D) := upd_player i reborn p.
(** The fields that start anew with a level. *)
Definition enter_level mo (pl : Player.player_t) : Player.player_t :=
  pl <| Player.mo := mo |> <| Player.playerstate := PST_LIVE |> <| Player.refire := 0 |> <| Player.message := 0 |> <| Player.damagecount := 0 |>
    <| Player.bonuscount := 0 |> <| Player.extralight := 0 |> <| Player.fixedcolormap := 0 |> <| Player.viewheight := VIEWHEIGHT |>.
(** The status bar is woken for the player of the console, which is no part of the
    model. *)
Definition P_SpawnPlayer t p : outcome (oworld D) :=
  if MapThing.type t =? 0 then Ret p
  else
    let i := MapThing.type t - 1 in
    let* playing := get playeringame i in
    if negb (truth playing) then Ret p
    else
      let* pl := get_player i p in
      let* p := if Player.playerstate pl =? PST_REBORN then G_PlayerReborn i p else Ret p in
      let* '(mo, p) := P_SpawnMobj (map_x t) (map_y t) ONFLOORZ MT_PLAYER p in
      let* pl := get_player i p in
      let* p := upd_thing mo (fun m =>
        let m := if MapThing.type t >? 1 then set_flags (Z.shiftl i MF_TRANSSHIFT) m else m in
        m <| Mobj.angle := map_angle (MapThing.angle t) |> <| Mobj.player := Some i |> <| Mobj.health := Player.health pl |>) p in
      let* p := upd_player i (enter_level mo) p in
      let* p := P_SetupPsprites i p in
      if negb (deathmatch =? 0) then upd_player i (fun pl => pl <| Player.cards := replicate NUMCARDS 1 |>) p else Ret p.

(** ** The things of a level *)
Definition skill_bit : outcome Z :=
  if gameskill =? sk_baby then Ret 1 else if gameskill =? sk_nightmare then Ret 4
  else if gameskill - 1 <? 0 then Undef else Ret (Z.shiftl 1 (gameskill - 1)).
Definition deathmatch_start t p : outcome (oworld D) :=
  let o := ob p in
  if deathmatch_p o <? MAX_DM_STARTS then
    let* _ := at_place (deathmatchstarts o) (deathmatch_p o) in
    Ret (on_ob (fun o => o <| deathmatchstarts ::= <[Z.to_nat (deathmatch_p o) := t]> |> <| deathmatch_p ::= fun n => n + 1 |>) p)
  else Ret p.
(** [playerstarts[i] = *mthing], in the 16-bit words that the array consists of. *)
Definition map_words t : list Z := [MapThing.x t; MapThing.y t; MapThing.angle t; MapThing.type t; MapThing.options t].
Fixpoint set_words (l : list Z) (i : Z) (ws : list Z) : outcome (list Z) :=
  match ws with [] => Ret l | w :: ws => let* l := set l i w in set_words l (i + 1) ws end.
Definition player_start t p : outcome (oworld D) :=
  let* l := set_words (playerstarts p) ((MapThing.type t - 1) * 5) (map_words t) in Ret (p <| playerstarts := l |>).
Definition not_wanted (type : Z) (i : MobjInfo.mobjinfo_t) : bool :=
  negb (deathmatch =? 0) && has_flag (MobjInfo.flags i) MF_NOTDMATCH || nomonsters && ((type =? MT_SKULL) || has_flag (MobjInfo.flags i) MF_COUNTKILL).
Definition place_thing t (type : Z) (i : MobjInfo.mobjinfo_t) p : outcome (oworld D) :=
  let* '(a, p) := P_SpawnMobj (map_x t) (map_y t) (spawn_height (MobjInfo.flags i)) type p in
  let* p := upd_thing a (fun m => m <| Mobj.spawnpoint := t |>) p in
  let* m := thing_at a p in
  let* p :=
    if Mobj.tics m >? 0
    then let* '(r, p) := draw p in upd_thing a (fun m => m <| Mobj.tics := 1 + Z.rem r (Mobj.tics m) |>) p else Ret p in
  let p := if has_flag (Mobj.flags m) MF_COUNTKILL then on_ob (fun o => o <| totalkills ::= fun n => i32 (n + 1) |>) p else p in
  let p := if has_flag (Mobj.flags m) MF_COUNTITEM then on_ob (fun o => o <| totalitems ::= fun n => i32 (n + 1) |>) p else p in
  upd_thing a (fun m =>
    let m := m <| Mobj.angle := map_angle (MapThing.angle t) |> in
    if has_flag (MapThing.options t) MTF_AMBUSH then set_flags MF_AMBUSH m else m) p.
Definition P_SpawnMapThing t p : outcome (oworld D) :=
  if MapThing.type t =? 11 then deathmatch_start t p
  else if MapThing.type t <=? 0 then Ret p
  else if MapThing.type t <=? 4 then
    let* p := player_start t p in
    if deathmatch =? 0 then P_SpawnPlayer t p else Ret p
  else if negb netgame && has_flag (MapThing.options t) 16 then Ret p
  else
    let* bit := skill_bit in
    if negb (has_flag (MapThing.options t) bit) then Ret p
    else
      let type := find_type (MapThing.type t) in
      if type =? NUMMOBJTYPES then Fatal "P_SpawnMapThing: Unknown type"
      else
        let* i := type_at type in
        if not_wanted type i then Ret p else place_thing t type i p.
End spawning.
