(* ===== verification/MobjTheorems.v ===== *)
(** * Things come, go and change their state: the theorems *)
From S2P Require Import Prelude Queues MFixed MRandom MBbox MapGeometry GeometryTheorems DLists GameTypes Pickup ThingLinks ThingLinkTheorems Sight PathTraverse TraverseTheorems SightTheorems Movement MovementTheorems Attack Info Mobjs.
#[local] Open Scope doom_scope.

(** ** Facts about the tables *)
Lemma tables_length : Z.of_nat (length states) = NUMSTATES /\ Z.of_nat (length mobjinfo) = NUMMOBJTYPES.
Proof. by vm_compute. Qed.
Lemma at_place_run {X} (l : list X) i : 0 <= i < Z.of_nat (length l) -> exists x, at_place l i = Ret x /\ l !! Z.to_nat i = Some x.
Proof. intros Hi. unfold at_place. rewrite (proj2 (Z.ltb_ge _ _)) by lia. destruct (lookup_lt_is_Some_2 l (Z.to_nat i)) as [x Hx]; [lia|]. rewrite Hx. by exists x. Qed.
Lemma state_at_run s : 0 <= s < NUMSTATES -> exists d, state_at s = Ret d /\ states !! Z.to_nat s = Some d.
Proof. intros Hs. apply at_place_run. by rewrite (proj1 tables_length). Qed.
Lemma type_at_run t : 0 <= t < NUMMOBJTYPES -> exists i, type_at t = Ret i /\ mobjinfo !! Z.to_nat t = Some i.
Proof. intros Ht. apply at_place_run. by rewrite (proj2 tables_length). Qed.
Definition is_state (s : Z) : Prop := 0 <= s < NUMSTATES.
#[export] Instance is_state_dec s : Decision (is_state s).
Proof. unfold is_state. apply _. Defined.
(** All states that the tables name are in the table. *)
Definition info_states (i : MobjInfo.mobjinfo_t) : list Z :=
  [MobjInfo.spawnstate i; MobjInfo.seestate i; MobjInfo.painstate i; MobjInfo.meleestate i; MobjInfo.missilestate i; MobjInfo.deathstate i; MobjInfo.xdeathstate i; MobjInfo.raisestate i].
Lemma named_states : Forall (fun i => Forall is_state (info_states i)) mobjinfo /\ Forall (fun d => is_state (State.nextstate d)) states.
Proof. apply (bool_decide_unpack _). by vm_compute. Qed.
(** A state without tics leads to one with tics, or to none. *)
Definition leads_on (d : State.state_t) : Prop :=
  State.tics d = 0 -> State.nextstate d = S_NULL \/ exists d', states !! Z.to_nat (State.nextstate d) = Some d' /\ State.tics d' <> 0.
Definition leads_on_b (d : State.state_t) : bool :=
  negb (State.tics d =? 0) || (State.nextstate d =? S_NULL) || match states !! Z.to_nat (State.nextstate d) with Some d' => negb (State.tics d' =? 0) | None => false end.
Lemma states_lead_on : Forall leads_on states.
Proof.
  assert (H : forallb leads_on_b states = true) by (vm_compute; reflexivity). rewrite forallb_forall in H. apply Forall_forall. intros d Hd Ht.
  specialize (H d (proj1 (list_elem_of_In _ _) Hd)). unfold leads_on_b in H. rewrite Ht in H. cbn [Z.eqb negb orb] in H.
  destruct (Z.eqb_spec (State.nextstate d) S_NULL) as [E|_]; [by left|]. right. destruct (states !! Z.to_nat (State.nextstate d)) as [d'|]; [|done].
  exists d'. split; [done|]. intros E. by rewrite E in H.
Qed.
(** The states of things: those of the table of types, those the code sets by
    name (S_PLAY, S_PLAY_RUN1, S_PLAY_ATK1, S_PLAY_ATK2, S_BLOOD2, S_BLOOD3,
    S_PUFF3, S_VILE_HEAL1, S_BRAINEXPLODE1 and S_GIBS), and what follows them. *)
Definition set_by_name : list Z := [149; 150; 154; 155; S_BLOOD2; 92; S_PUFF3; 266; 799; S_GIBS].
Inductive thing_state : Z -> Prop :=
| ts_type i s : i ∈ mobjinfo -> s ∈ info_states i -> thing_state s
| ts_name s : s ∈ set_by_name -> thing_state s
| ts_next s d : thing_state s -> states !! Z.to_nat s = Some d -> s <> S_NULL -> thing_state (State.nextstate d).
(** None of them is a state of a weapon, which come first in the table. *)
Definition no_weapon_state (s : Z) : bool := (s =? S_NULL) || (90 <=? s) && (s <? NUMSTATES).
Lemma no_weapon_cases s : no_weapon_state s = true -> s = S_NULL \/ 90 <= s < NUMSTATES.
Proof. unfold no_weapon_state. intros [H|H]%orb_true_iff; breflect; [by left|right; lia]. Qed.
Lemma thing_state_no_weapon s : thing_state s -> no_weapon_state s = true.
Proof.
  assert (H1 : Forall (fun i => Forall (fun s => no_weapon_state s = true) (info_states i)) mobjinfo) by (apply (bool_decide_unpack _); by vm_compute).
  assert (H2 : Forall (fun s => no_weapon_state s = true) set_by_name) by (apply (bool_decide_unpack _); by vm_compute).
  assert (H3 : Forall (fun d => no_weapon_state (State.nextstate d) = true) (drop 90 states)) by (apply (bool_decide_unpack _); by vm_compute).
  intros H. induction H as [i s Hi Hs|s Hs|s d Hs IH Ed Hn].
  - exact (proj1 (Forall_forall _ _) (proj1 (Forall_forall _ _) H1 _ Hi) _ Hs).
  - exact (proj1 (Forall_forall _ _) H2 _ Hs).
  - apply no_weapon_cases in IH as [->|[H90 _]]; [done|]. apply (proj1 (Forall_lookup _ _) H3 (Z.to_nat s - 90)%nat d).
    rewrite lookup_drop. by replace (90 + (Z.to_nat s - 90))%nat with (Z.to_nat s) by (clear -H90; lia).
Qed.
Lemma thing_is_state s : thing_state s -> is_state s.
Proof. intros H. apply thing_state_no_weapon, no_weapon_cases in H. unfold is_state, NUMSTATES, S_NULL in *. lia. Qed.
(** A state of a thing without tics leads to one with tics. *)
Lemma thing_leads_on s d : thing_state s -> state_at s = Ret d -> State.tics d = 0 ->
  thing_state (State.nextstate d) /\ State.nextstate d <> S_NULL /\ exists d1, state_at (State.nextstate d) = Ret d1 /\ State.tics d1 <> 0.
Proof.
  assert (H1 : Forall (fun d => State.tics d = 0 -> State.nextstate d <> S_NULL) (drop 90 states)) by (apply (bool_decide_unpack _); by vm_compute).
  intros Hs Ed Et. destruct (state_at_run s (thing_is_state s Hs)) as (d' & Ed' & El). assert (d' = d) as -> by congruence.
  destruct (no_weapon_cases s (thing_state_no_weapon s Hs)) as [->|[H90 _]].
  { vm_compute in Ed. injection Ed as <-. done. }
  assert (Hn : State.nextstate d <> S_NULL).
  { apply (proj1 (Forall_lookup _ _) H1 (Z.to_nat s - 90)%nat); [|done]. rewrite lookup_drop. by replace (90 + (Z.to_nat s - 90))%nat with (Z.to_nat s) by (clear -H90; lia). }
  assert (Hts : thing_state (State.nextstate d)) by (apply (ts_next s d Hs El); unfold S_NULL; lia). split; [done|]. split; [done|].
  destruct (proj1 (Forall_lookup _ _) states_lead_on _ _ El Et) as [?|(d1 & Ed1 & Ht1)]; [done|]. exists d1. split; [|done].
  destruct (state_at_run _ (thing_is_state _ Hts)) as (d2 & Ed2 & El2). congruence.
Qed.
(** Every thing has a mass; missiles have a speed. *)
Lemma masses : Forall (fun i => 0 < MobjInfo.mass i) mobjinfo.
Proof. apply (bool_decide_unpack _). by vm_compute. Qed.
Lemma missile_speeds : Forall (fun i => has_flag (MobjInfo.flags i) MF_MISSILE = true -> 0 < MobjInfo.speed i) mobjinfo.
Proof. apply (bool_decide_unpack _). by vm_compute. Qed.
Lemma spawn_state_run t i : type_at t = Ret i -> exists d, state_at (MobjInfo.spawnstate i) = Ret d.
Proof.
  unfold type_at, at_place. destruct (t <? 0); [done|]. destruct (mobjinfo !! Z.to_nat t) as [i'|] eqn:E; [|done]. intros [= ->].
  pose proof (proj1 (Forall_lookup _ _) (proj1 named_states) _ _ E) as H. apply Forall_cons in H as [H _]. destruct (state_at_run _ H) as (d & Ed & _). by exists d.
Qed.

Section mobjs.
Context {A : Arch} {im : Image} {bsp : Bsp} {sg : Segs} {bm : Blockmap} {D : Type} {st : Settings} {bh : Behaviour D}.
Implicit Types (p : oworld D) (a : Z) (m : Mobj.mobj_t) (S B : list (list Z)).

(** ** Things in memory *)
Lemma draw_run p : exists r s, draw p = Ret (r, on_tm (fun t => t <| rnd := s |>) p) /\ fits_u 8 r.
Proof. unfold draw. destruct (P_Random_total (rnd (client p))) as (r & s & E & Hr). rewrite E. by exists r, s. Qed.
Lemma thing_lookup a p m : thing_at a p = Ret m <-> mobjs (pl p) !! a = Some m.
Proof. unfold thing_at, getm. destruct (mobjs (pl p) !! a); split; intros H; try done; by injection H as ->. Qed.
Lemma links_new g w S B a m : links_ok g w S B -> mobjs w !! a = None -> links_ok g (w <| mobjs ::= <[a := m]> |>) S B /\ absent S a /\ absent B a.
Proof.
  intros [L1 L2 L3 L4 L5 L6] Ha.
  assert (HS : absent S a) by (intros i l El Hl; destruct (L5 i l a El Hl) as (m' & E & _); congruence).
  assert (HB : absent B a) by (intros i l El Hl; destruct (L6 i l a El Hl) as (m' & E & _); congruence).
  assert (Hf : forall b mb, mobjs w !! b = Some mb -> (<[a := m]> (mobjs w) : gmap Z Mobj.mobj_t) !! b = Some mb).
  { intros b mb Eb. rewrite lookup_insert_ne; [done|]. intros ->. congruence. }
  assert (Hd : forall f ls, Forall (dlist f (mobjs w)) ls -> Forall (dlist f (<[a := m]> (mobjs w))) ls).
  { intros f ls H. eapply Forall_impl; [exact H|]. intros l Hl. apply (dlist_frame f (mobjs w)); [done|]. intros b mb _ Eb. exists mb. split; [by apply Hf|done]. }
  assert (Hh : forall home ls, at_home home (mobjs w) ls -> at_home home (<[a := m]> (mobjs w)) ls).
  { intros home ls H i l b El Hl. destruct (H i l b El Hl) as (mb & Eb & Hm). exists mb. split; [by apply Hf|done]. }
  split; [|done]. split; [exact L1|exact L2|by apply Hd|by apply Hd|by apply Hh|by apply Hh].
Qed.
(** What the place of a thing depends on is left alone. *)
Definition unmoved m m' : Prop := Mobj.x m' = Mobj.x m /\ Mobj.y m' = Mobj.y m /\ Mobj.subsector m' = Mobj.subsector m /\ Mobj.flags m' = Mobj.flags m /\
  Mobj.snext m' = Mobj.snext m /\ Mobj.sprev m' = Mobj.sprev m /\ Mobj.bnext m' = Mobj.bnext m /\ Mobj.bprev m' = Mobj.bprev m.
Lemma unmoved_homes g m m' : unmoved m m' -> sector_of m' = sector_of m /\ block_of g m' = block_of g m /\ stays g m m'.
Proof.
  intros (H1 & H2 & H3 & H4 & H5 & H6 & H7 & H8). assert (Es : sector_of m' = sector_of m) by (unfold sector_of; by rewrite H3).
  assert (Eb : block_of g m' = block_of g m) by (unfold block_of; by rewrite H1, H2). split; [done|]. split; [done|].
  unfold stays, sector_home, block_home. by rewrite H4, Es, Eb.
Qed.
Lemma placed_put g w S B a m m' : placed g w S B a m -> unmoved m m' -> placed g (w <| mobjs ::= <[a := m']> |>) S B a m'.
Proof.
  intros [P1 P2 P3 P4] Hu. destruct (unmoved_homes g m m' Hu) as (Es & Eb & _). destruct Hu as (_ & _ & _ & Ef & _ & _ & En & Ep).
  split; [apply lookup_insert_eq|..]; rewrite ?Ef, ?Es, ?Eb, ?En, ?Ep; done.
Qed.

(** ** A new thing *)
Definition thinking m : Mobj.mobj_t := m <| Mobj.thinker := (Mobj.thinker m) <| Thinker.function := fn_addr P_MobjThinker |> |>.
(** The new thing with the random number [r] in subsector [ss]. *)
Definition newborn (x y type : Z) (i : MobjInfo.mobjinfo_t) (d : State.state_t) (r ss : Z) : Mobj.mobj_t :=
  (enter_state (MobjInfo.spawnstate i) d ((fresh x y type i) <| Mobj.lastlook := Z.rem r 4 |>)) <| Mobj.subsector := ss_at ss |>.
Definition spawned (x y z type : Z) (i : MobjInfo.mobjinfo_t) (d : State.state_t) (r ss : Z) (h : heights) : Mobj.mobj_t :=
  thinking (stand_at z h i (newborn x y type i d r ss)).
(** What changed besides the thing: one random number was drawn, links of other
    things, and the thinkers have one more. *)
Record arrived p p' a (m : Mobj.mobj_t) (S B : list (list Z)) : Prop := {
  ar_only : exists s, p' = P_AddThinker a ((on_tm (fun t => t <| rnd := s |>) p) <| pl := pl p' |>);
  ar_thing : exists m', thing_at a p' = Ret m' /\ same_thing m m' /\ placed (gr p) (pl p') (pushed S (sector_home m) a) (pushed B (block_home (gr p) m) a) a m';
  ar_level : level_ok p' (pushed S (sector_home m) a) (pushed B (block_home (gr p) m) a);
  ar_others b mb : b <> a -> thing_at b p = Ret mb -> exists mb', thing_at b p' = Ret mb' /\ same_thing mb mb'
}.
Lemma put_links m sn sp bn bp : forall z h i,
  thinking (stand_at z h i (m <| Mobj.snext := sn |> <| Mobj.sprev := sp |> <| Mobj.bnext := bn |> <| Mobj.bprev := bp |>)) =
  (thinking (stand_at z h i m)) <| Mobj.snext := sn |> <| Mobj.sprev := sp |> <| Mobj.bnext := bn |> <| Mobj.bprev := bp |>.
Proof. intros z h i. by destruct m. Qed.
Lemma on_pl_run f p w : f (pl p) = Ret w -> on_pl f p = Ret (p <| pl := w |>).
Proof. intros E. unfold on_pl. by rewrite E. Qed.
Lemma under_run p S m s : length S = length (sectors (client p)) -> sector_of m = Some s -> (s < length S)%nat -> exists sec, under m p = Ret sec /\ sectors (client p) !! s = Some sec.
Proof. intros Hl Es Hs. destruct (lookup_lt_is_Some_2 (sectors (client p)) s) as [sec E]; [by rewrite <- Hl|]. exists sec. unfold under. rewrite Es. cbn [of_option obind]. by rewrite E. Qed.
Lemma grown_ok p p' S B (S' B' : list (list Z)) : level_ok p S B -> gr p' = gr p -> maplines p' = maplines p -> sectors (client p') = sectors (client p) -> length S' = length S -> length B' = length B ->
  links_ok (gr p) (pl p') S' B' -> level_ok p' S' B'.
Proof.
  intros [[V1 V2 V3 V4] V5 V6 V7 V8] Hg Hm Hs HlS HlB Hl. split; [split| | | |]; rewrite ?Hg, ?Hm, ?Hs; try assumption.
  - unfold grid_ok. by rewrite HlB.
  - exact (li_blocks _ _ _ _ Hl).
  - exact (li_blists _ _ _ _ Hl).
  - unfold map_ok. by rewrite HlS.
  - by rewrite HlS.
Qed.
Lemma SpawnMobj_run x y z type p S B a : level_ok p S B -> mobj_malloc p = Ret a -> a <> 0 -> mobjs (pl p) !! a = None -> 0 <= type < NUMMOBJTYPES ->
  exists i d r ss sec p', type_at type = Ret i /\ state_at (MobjInfo.spawnstate i) = Ret d /\ R_PointInSubsector nodes x y = Ret ss /\ sector_at p x y sec /\ fits_u 8 r /\
    P_SpawnMobj x y z type p = Ret (a, p') /\ arrived p p' a (spawned x y z type i d r ss (hts sec)) S B.
Proof.
  intros Hlv Ea H0 Hn Ht. destruct (type_at_run _ Ht) as (i & Ei & _). destruct (spawn_state_run _ _ Ei) as (d & Ed). destruct (draw_run p) as (r & s & Er & Hr).
  set (p1 := on_tm (fun t => t <| rnd := s |>) p) in *. set (m := enter_state (MobjInfo.spawnstate i) d ((fresh x y type i) <| Mobj.lastlook := Z.rem r 4 |>)).
  set (w1 := (pl p) <| mobjs ::= <[a := m]> |>). destruct (links_new (gr p) (pl p) S B a m (lv_links _ _ _ Hlv) Hn) as (Hl1 & HaS & HaB). fold w1 in Hl1.
  assert (Em1 : mobjs w1 !! a = Some m) by apply lookup_insert_eq.
  destruct (SetThingPosition_run (gr p) w1 S B a m Hl1 HaS HaB H0 Em1 (lv_map _ _ _ Hlv) (bo_grid _ _ (lv_blocks _ _ _ Hlv))) as (ss & w2 & m2 & Ess & Eset & Em2 & Hsame & Hl2 & Hp2 & Hoth).
  assert (Exy : Mobj.x m = x /\ Mobj.y m = y) by (unfold m, fresh; by destruct (gameskill =? sk_nightmare)). rewrite (proj1 Exy), (proj2 Exy) in Ess. change (m <| Mobj.subsector := ss_at ss |>) with (newborn x y type i d r ss) in *. set (m1 := newborn x y type i d r ss) in *.
  destruct (lv_map _ _ _ Hlv) as (n & Hnodes & Hss). destruct (PointInSubsector_run nodes n x y Hnodes) as (ss' & Ess' & Hrange & _). rewrite Ess in Ess'. injection Ess' as <-.
  destruct (Hss ss Hrange) as (sc & Esc & Hsc). destruct (same_home (gr p) _ _ Hsame) as (Hh1 & _ & _).
  assert (Es2 : sector_of m2 = Some sc) by (rewrite Hh1; exact Esc).
  set (p2 := p1 <| pl := w2 |>). destruct (under_run p2 S m2 sc (lv_sectors _ _ _ Hlv) Es2 Hsc) as (sec & Eu & Esec).
  set (h := hts sec). set (m3 := thinking (stand_at z h i m2)). set (p3 := put_thing a m3 p2).
  exists i, d, r, ss, sec, (P_AddThinker a p3). split; [done|]. split; [done|]. split; [done|]. split; [by exists ss, sc|]. split; [done|]. split.
  - unfold P_SpawnMobj. rewrite Ea. cbn [obind]. rewrite Ei. cbn [obind]. cbv zeta. rewrite Er. cbn [obind]. rewrite Ed. cbn [obind].
    change (Z.of_nat MAXPLAYERS) with 4. fold m. rewrite (on_pl_run _ _ w2) by exact Eset. cbn [obind].
    change ((p1 <| pl ::= fun w => w <| mobjs ::= <[a := m]> |> |>) <| pl := w2 |>) with p2.
    assert (Et2 : thing_at a p2 = Ret m2) by (apply thing_lookup; exact Em2). rewrite Et2. cbn [obind]. rewrite Eu. cbn [obind].
    rewrite (upd_thing_run _ _ _ _ Et2). cbn [obind]. rewrite (upd_thing_run _ _ _ _ (put_at _ _ _)). cbn [obind]. by rewrite put_put.
  - assert (Hu0 : forall m0, unmoved m0 (thinking (stand_at z h i m0))) by (intros m0; by repeat split). pose proof (Hu0 m2 : unmoved m2 m3) as Hu.
    destruct (unmoved_homes (gr p) _ _ (Hu0 m1 : unmoved m1 (spawned x y z type i d r ss h))) as (_ & _ & Hst1). destruct Hst1 as (_ & _ & _ & _ & Eh1 & Eh2). destruct (unmoved_homes (gr p) _ _ Hu) as (_ & _ & Hst).
    destruct Hsame as (sn & sp & bn & bp & Em2'). assert (E3 : same_thing (spawned x y z type i d r ss h) m3) by (exists sn, sp, bn, bp; unfold m3; rewrite Em2'; unfold spawned; fold m1; generalize m1; intros m0; rewrite put_links; reflexivity).
    fold h. split; rewrite ?Eh1, ?Eh2.
    + exists s. reflexivity.
    + exists m3. split; [exact (put_at a m3 p2)|]. split; [exact E3|]. pose proof (placed_put _ _ _ _ _ _ _ Hp2 Hu) as Hp3. exact Hp3.
    + apply (grown_ok p _ S B); [exact Hlv|reflexivity|reflexivity|reflexivity|apply pushed_length|apply pushed_length|].
      exact (links_put (gr p) w2 _ _ a m2 m3 Hl2 Em2 Hst).
    + intros b mb Hb Eb. destruct (Hoth b mb Hb) as (mb' & Eb' & Hs'); [unfold w1; cbn; rewrite lookup_insert_ne by done; by apply thing_lookup|]. exists mb'. split; [|exact Hs'].
      apply thing_lookup. change (<[a := m3]> (mobjs w2) !! b = Some mb'). by rewrite lookup_insert_ne.
Qed.

(** ** The queue of items *)
Record que_ok (o : objs D) : Prop := {
  qu_items : ring_wf ITEMQUESIZE (itemrespawnque o) (iquehead o) (iquetail o);
  qu_times : ring_wf ITEMQUESIZE (itemrespawntime o) (iquehead o) (iquetail o)
}.
(** The items that wait to come back, the oldest first, and the times they were
    taken. *)
Definition que_items (o : objs D) : list MapThing.mapthing_t := ring_contents ITEMQUESIZE (itemrespawnque o) (iquehead o) (iquetail o).
Definition que_times (o : objs D) : list Z := ring_contents ITEMQUESIZE (itemrespawntime o) (iquehead o) (iquetail o).
Lemma next_in_que_mod i : next_in_que i = (i + 1) mod ITEMQUESIZE.
Proof. unfold next_in_que, ITEMQUESIZE. change (128 - 1) with (Z.ones 7). by rewrite Z.land_ones by lia. Qed.
Lemma queue_item_run m o : que_ok o -> exists o', queue_item m o = Ret o' /\ que_ok o' /\ thinkers o' = thinkers o /\
  que_items o' = drop_oldest ITEMQUESIZE (que_items o) ++ [Mobj.spawnpoint m] /\ que_times o' = drop_oldest ITEMQUESIZE (que_times o) ++ [leveltime o].
Proof.
  intros [Hi Ht]. pose proof Hi as (Hl & Hh & _). pose proof Ht as (Hlt & _ & _). unfold queue_item. unfold ITEMQUESIZE in *.
  destruct (at_place_run (itemrespawnque o) (iquehead o)) as (x & -> & _); [lia|]. cbn [obind].
  destruct (lookup_lt_is_Some_2 (itemrespawntime o) (Z.to_nat (iquehead o))) as [y Ey]; [lia|].
  unfold set, get. rewrite (proj2 (Z.ltb_ge _ _)) by lia. rewrite Ey. cbn [of_option obind].
  destruct (ring_push 128 _ _ _ (Mobj.spawnpoint m) ltac:(lia) Hi) as [W1 C1]. destruct (ring_push 128 _ _ _ (leveltime o) ltac:(lia) Ht) as [W2 C2].
  eexists. split; [reflexivity|]. destruct o as [o1 o2 o3 o4 head tail o7 o8 o9 o10 o11 o12 o13]. unfold que_items, que_times, ITEMQUESIZE, update in *. cbn in *. rewrite !next_in_que_mod. unfold ITEMQUESIZE.
  destruct ((head + 1) mod 128 =? tail); cbn; rewrite ?next_in_que_mod; by split_and!.
Qed.

(** ** Leaving the level *)
Definition with_function (f : Z) m : Mobj.mobj_t := m <| Mobj.thinker := (Mobj.thinker m) <| Thinker.function := f |> |>.
(** What the removal of [m] leaves: it is in no list, and its thinker is marked. *)
Record left_level p p' a m S B : Prop := {
  lf_thing : exists m', thing_at a p' = Ret m' /\ same_thing (with_function removed m) m';
  lf_level : level_ok p' (pulled S a) (pulled B a);
  lf_absent : absent (pulled S a) a /\ absent (pulled B a) a;
  lf_que : que_ok (ob p') /\ if comes_back m
    then que_items (ob p') = drop_oldest ITEMQUESIZE (que_items (ob p)) ++ [Mobj.spawnpoint m] /\ que_times (ob p') = drop_oldest ITEMQUESIZE (que_times (ob p)) ++ [leveltime (ob p)]
    else que_items (ob p') = que_items (ob p) /\ que_times (ob p') = que_times (ob p);
  lf_thinkers : thinkers (ob p') = thinkers (ob p);
  lf_others b mb : b <> a -> thing_at b p = Ret mb -> exists mb', thing_at b p' = Ret mb' /\ same_thing mb mb'
}.
Lemma RemoveMobj_run p S B a m : level_ok p S B -> placed (gr p) (pl p) S B a m -> que_ok (ob p) -> exists p', P_RemoveMobj a p = Ret p' /\ left_level p p' a m S B.
Proof.
  intros Hlv Hpl Hq. pose proof (proj2 (thing_lookup a p m) (pl_thing _ _ _ _ _ _ Hpl)) as Em. unfold P_RemoveMobj. rewrite Em. cbn [obind].
  assert (Hque : exists o, (if comes_back m then on_ob_out (queue_item m) p else Ret p) = Ret (on_ob (fun _ => o) p) /\ que_ok o /\ thinkers o = thinkers (ob p) /\
    if comes_back m then que_items o = drop_oldest ITEMQUESIZE (que_items (ob p)) ++ [Mobj.spawnpoint m] /\ que_times o = drop_oldest ITEMQUESIZE (que_times (ob p)) ++ [leveltime (ob p)]
    else que_items o = que_items (ob p) /\ que_times o = que_times (ob p)).
  { destruct (comes_back m).
    - destruct (queue_item_run m (ob p) Hq) as (o & Eo & Ho & Eth & E1 & E2). exists o. unfold on_ob_out. rewrite Eo. cbn [obind]. done.
    - exists (ob p). split; [|done]. destruct p as [? ? ? ? ? ? ? t]. destruct t as [? ? ? ? ? ? ? ? ? ? ? ? ? ? ? ? ? ? ? r]. by destruct r. }
  destruct Hque as (o & -> & Ho & Eth & Eq). cbn [obind]. set (p1 := on_ob (fun _ => o) p).
  destruct (UnsetThingPosition_run (gr p) (pl p) S B a m (lv_links _ _ _ Hlv) Hpl) as (w1 & E1 & Hl1 & HaS & HaB & Hs1 & Em1).
  rewrite (on_pl_run _ _ w1) by exact E1. cbn [obind]. unfold P_RemoveThinker. set (p2 := S_StopSound a (p1 <| pl := w1 |>)).
  assert (Em2 : thing_at a p2 = Ret m) by (apply thing_lookup; exact Em1). rewrite (upd_thing_run _ _ _ _ Em2). fold (with_function removed m). eexists. split; [reflexivity|].
  assert (Hu : unmoved m (with_function removed m)) by (by repeat split). destruct (unmoved_homes (gr p) _ _ Hu) as (_ & _ & Hst). split.
  - exists (with_function removed m). split; [apply put_at|]. exists (Mobj.snext m), (Mobj.sprev m), (Mobj.bnext m), (Mobj.bprev m). by destruct m.
  - apply (grown_ok p _ S B); [exact Hlv|reflexivity|reflexivity|reflexivity|apply pulled_length|apply pulled_length|].
    exact (links_put (gr p) w1 _ _ a m (with_function removed m) Hl1 Em1 Hst).
  - by split.
  - destruct Ho as [W1 W2]. split; [split; [exact W1|exact W2]|exact Eq].
  - exact Eth.
  - intros b mb Hb Eb. apply thing_lookup in Eb. destruct (Hs1 b mb Eb) as (mb' & Eb' & Hsb). exists mb'. split; [|exact Hsb].
    apply thing_lookup. change (<[a := with_function removed m]> (mobjs w1) !! b = Some mb'). by rewrite lookup_insert_ne.
Qed.

(** C16: P_RemoveMobj of a thing in its lists, on a well-formed level: it goes
    through, takes the thing out of all lists, which stay well linked, and marks its
    thinker. A thing that was put on the map to be picked up, not dropped by a
    monster, and no invulnerability or invisibility, joins the items that will come
    back, with the time; of 127 that wait the oldest is forgotten. *)
Theorem P_RemoveMobj_correct p S B a m : level_ok p S B -> placed (gr p) (pl p) S B a m -> que_ok (ob p) ->
  exists p', P_RemoveMobj a p = Ret p' /\ level_ok p' (pulled S a) (pulled B a) /\ absent (pulled S a) a /\ absent (pulled B a) a /\
    (exists m', thing_at a p' = Ret m' /\ is_removed m' = true) /\ que_ok (ob p') /\
    (if comes_back m
     then que_items (ob p') = drop_oldest ITEMQUESIZE (que_items (ob p)) ++ [Mobj.spawnpoint m] /\ que_times (ob p') = drop_oldest ITEMQUESIZE (que_times (ob p)) ++ [leveltime (ob p)]
     else que_items (ob p') = que_items (ob p) /\ que_times (ob p') = que_times (ob p)).
Proof.
  intros Hlv Hpl Hq. destruct (RemoveMobj_run p S B a m Hlv Hpl Hq) as (p' & E & [(m' & Em' & Hs) H2 [H3 H4] [H5 H6] _ _]). exists p'. split_and!; [done..| |done|done].
  exists m'. split; [done|]. destruct Hs as (sn & sp & bn & bp & ->). unfold is_removed. apply Z.eqb_refl.
Qed.

(** ** States *)

(** A thing in its lists, on a well-formed level. *)
Definition fit p a m : Prop := exists S B, level_ok p S B /\ placed (gr p) (pl p) S B a m /\ que_ok (ob p).
Lemma fit_thing p a m : fit p a m -> thing_at a p = Ret m.
Proof. intros (S & B & _ & Hp & _). apply thing_lookup, (pl_thing _ _ _ _ _ _ Hp). Qed.
Lemma fit_put p a m m' : fit p a m -> unmoved m m' -> fit (put_thing a m' p) a m'.
Proof.
  intros Hf Hu. pose proof (fit_thing _ _ _ Hf) as Em. destruct Hf as (S & B & Hl & Hp & Hq). exists S, B. destruct (unmoved_homes (gr p) _ _ Hu) as (_ & _ & Hst).
  split; [by apply (put_ok p S B a m)|]. split; [exact (placed_put _ _ _ _ _ _ _ Hp Hu)|exact Hq].
Qed.
(** What is left to the functions of the states of things: when one comes to its
    end, the thing it ran for is still there, and had it tics, it still has some. *)
Class ActionLaws : Prop := action_law s d a p m p1 : thing_state s -> state_at s = Ret d -> thing_at a p = Ret m ->
  state_action (State.action d) a p = Ret p1 -> exists m1, thing_at a p1 = Ret m1 /\ (Mobj.tics m <> 0 -> Mobj.tics m1 <> 0).
Context {alaws : ActionLaws}.
Lemma set_null_run fuel a p m : fit p a m -> exists p' m', set_state fuel a S_NULL p = Ret (false, p') /\ thing_at a p' = Ret m' /\ is_removed m' = true /\ Mobj.state m' = null_state.
Proof.
  intros Hf. set (m1 := m <| Mobj.state := null_state |>). assert (Hf1 : fit (put_thing a m1 p) a m1) by (apply (fit_put p a m); [done|by repeat split]).
  destruct Hf1 as (S & B & Hl & Hp & Hq). destruct (RemoveMobj_run _ S B a m1 Hl Hp Hq) as (p' & E & [(m' & Em' & sn & sp & bn & bp & ->) _ _ _ _ _]).
  exists p'. eexists. split; [|split; [exact Em'|split; [apply Z.eqb_refl|reflexivity]]].
  assert (Er : set_state fuel a S_NULL p = let* p := upd_thing a (fun m => m <| Mobj.state := null_state |>) p in let* p := P_RemoveMobj a p in Ret (false, p)) by (by destruct fuel).
  rewrite Er, (upd_thing_run _ _ _ _ (fit_thing _ _ _ Hf)). cbn [obind]. fold m1. by rewrite E.
Qed.
(** A thing enters a state and the function of the state runs. *)
Definition entered a s d m p : outcome (oworld D) :=
  let p0 := put_thing a (enter_state s d m) p in
  if bool_decide (State.action d = NULL) then Ret p0 else state_action (State.action d) a p0.
(** One turn of the loop. *)
Lemma round_run fuel a s p m d : thing_at a p = Ret m -> s <> S_NULL -> state_at s = Ret d ->
  set_state fuel a s p = let* p1 := entered a s d m p in let* m1 := thing_at a p1 in
    if Mobj.tics m1 =? 0 then match fuel with O => NoFuel | S fuel => set_state fuel a (State.nextstate d) p1 end else Ret (true, p1).
Proof.
  intros Em Hs Ed. pose proof (upd_thing_run a (enter_state s d) p m Em) as Eu. unfold entered.
  destruct fuel; cbn [set_state]; by rewrite (proj2 (Z.eqb_neq _ _) Hs), Ed; cbn [obind]; rewrite Eu.
Qed.
Lemma entered_keeps a s d m p p1 : thing_state s -> state_at s = Ret d -> entered a s d m p = Ret p1 ->
  exists m1, thing_at a p1 = Ret m1 /\ (State.tics d <> 0 -> Mobj.tics m1 <> 0).
Proof.
  intros Hs Ed. unfold entered. pose proof (put_at a (enter_state s d m) p) as E0. case_bool_decide.
  - intros [= <-]. by exists (enter_state s d m).
  - intros E. exact (action_law s d a _ _ p1 Hs Ed E0 E).
Qed.
(** A state with tics ends the loop at once. *)
Lemma set_state_last fuel a s p m d : thing_state s -> thing_at a p = Ret m -> s <> S_NULL -> state_at s = Ret d -> State.tics d <> 0 ->
  set_state fuel a s p = let* p1 := entered a s d m p in Ret (true, p1).
Proof.
  intros Hs Em Hn Ed Ht. rewrite (round_run fuel a s p m d Em Hn Ed). destruct (entered a s d m p) as [p1| | |] eqn:E; try done.
  destruct (entered_keeps _ _ _ _ _ _ Hs Ed E) as (m1 & Em1 & H1). cbn [obind]. rewrite Em1. cbn [obind]. by rewrite (proj2 (Z.eqb_neq _ _) (H1 Ht)).
Qed.

(** C12: P_SetMobjState to a state that a thing can get into. For S_NULL the thing
    (in its lists, on a well-formed level) is removed, its state is S_NULL and the
    answer is false. Any other state is in the table. One with tics is entered, its
    function runs, and that is all: the answer is true. One without tics (three
    monsters have such) is followed by its next state, unless its function has
    given the thing tics; the next state is never S_NULL and has tics, so there
    the loop ends. When the functions come to their end, the thing is left with
    tics. *)
Theorem P_SetMobjState_correct a s p m : thing_state s -> thing_at a p = Ret m ->
  if s =? S_NULL then fit p a m -> exists p' m', P_SetMobjState a s p = Ret (false, p') /\ thing_at a p' = Ret m' /\ is_removed m' = true /\ Mobj.state m' = null_state
  else exists d, state_at s = Ret d /\
    P_SetMobjState a s p = (let* p1 := entered a s d m p in
      if State.tics d =? 0 then
        let n := State.nextstate d in let* m1 := thing_at a p1 in
        if Mobj.tics m1 =? 0 then let* d1 := state_at n in let* p2 := entered a n d1 m1 p1 in Ret (true, p2) else Ret (true, p1)
      else Ret (true, p1)) /\
    forall r p', P_SetMobjState a s p = Ret (r, p') -> r = true /\ exists m', thing_at a p' = Ret m' /\ Mobj.tics m' <> 0.
Proof.
  intros Hs Em. unfold P_SetMobjState. change (length states) with (S 966). destruct (Z.eqb_spec s S_NULL) as [->|Hn].
  { intros Hf. exact (set_null_run (S 966) a p m Hf). }
  destruct (state_at_run s (thing_is_state s Hs)) as (d & Ed & El). exists d. split; [done|].
  destruct (Z.eqb_spec (State.tics d) 0) as [E0|E0].
  - destruct (thing_leads_on s d Hs Ed E0) as (Hs' & Hn' & d1 & Ed1 & Ht1). rewrite (round_run (S 966) a s p m d Em Hn Ed).
    destruct (entered a s d m p) as [p1| | |] eqn:E; try (by split). destruct (entered_keeps _ _ _ _ _ _ Hs Ed E) as (m1 & Em1 & _).
    cbn [obind]. rewrite Em1. cbn [obind]. destruct (Z.eqb_spec (Mobj.tics m1) 0) as [E1|E1].
    + rewrite (set_state_last 966 a _ p1 m1 d1 Hs' Em1 Hn' Ed1 Ht1), Ed1. cbn [obind]. split; [done|]. intros r p' Er.
      destruct (entered a (State.nextstate d) d1 m1 p1) as [p2| | |] eqn:E2; try done. injection Er as <- <-. split; [done|].
      destruct (entered_keeps _ _ _ _ _ _ Hs' Ed1 E2) as (m2 & Em2 & H2). exists m2. split; [done|exact (H2 Ht1)].
    + split; [done|]. intros r p' [= <- <-]. split; [done|by exists m1].
  - rewrite (set_state_last (S 966) a s p m d Hs Em Hn Ed E0). split; [done|]. intros r p' Er.
    destruct (entered a s d m p) as [p1| | |] eqn:E; try done. injection Er as <- <-. split; [done|].
    destruct (entered_keeps _ _ _ _ _ _ Hs Ed E) as (m1 & Em1 & H1). exists m1. split; [done|exact (H1 E0)].
Qed.

(** ** New things *)

(** The memory for a new thing is no other thing. *)
Class MallocLaw : Prop := malloc_law p : exists a, mobj_malloc p = Ret a /\ a <> 0 /\ mobjs (pl p) !! a = None.
Lemma spawn_run (mlaw : MallocLaw) x y z type p S B : level_ok p S B -> 0 <= type < NUMMOBJTYPES ->
  exists a i d r ss sec p', a <> 0 /\ mobjs (pl p) !! a = None /\ type_at type = Ret i /\ state_at (MobjInfo.spawnstate i) = Ret d /\ R_PointInSubsector nodes x y = Ret ss /\ sector_at p x y sec /\ fits_u 8 r /\
    P_SpawnMobj x y z type p = Ret (a, p') /\ arrived p p' a (spawned x y z type i d r ss (hts sec)) S B.
Proof.
  intros Hlv Ht. destruct (malloc_law p) as (a & Ea & H0 & Hn). destruct (SpawnMobj_run x y z type p S B a Hlv Ea H0 Hn Ht) as (i & d & r & ss & sec & p' & H). by exists a, i, d, r, ss, sec, p'.
Qed.
(** The fields of a new thing. *)
Record born (x y z type : Z) (i : MobjInfo.mobjinfo_t) (h : heights) m : Prop := {
  bn_type : Mobj.type m = type /\ Mobj.info m = info_ptr type;
  bn_place : Mobj.x m = x /\ Mobj.y m = y /\ Mobj.floorz m = floorheight h /\ Mobj.ceilingz m = ceilingheight h;
  bn_height : Mobj.z m = if z =? ONFLOORZ then floorheight h else if z =? ONCEILINGZ then i32 (ceilingheight h - MobjInfo.height i) else z;
  bn_still : Mobj.momx m = 0 /\ Mobj.momy m = 0 /\ Mobj.momz m = 0 /\ Mobj.target m = 0 /\ Mobj.player m = None;
  bn_info : Mobj.radius m = MobjInfo.radius i /\ Mobj.height m = MobjInfo.height i /\ Mobj.flags m = MobjInfo.flags i /\ Mobj.health m = MobjInfo.spawnhealth i;
  bn_time : Mobj.reactiontime m = if gameskill =? sk_nightmare then 0 else MobjInfo.reactiontime i;
  bn_look : 0 <= Mobj.lastlook m < 4;
  bn_state : Mobj.state m = MobjInfo.spawnstate i /\ exists d, state_at (MobjInfo.spawnstate i) = Ret d /\ Mobj.tics m = State.tics d /\ Mobj.sprite m = State.sprite d /\ Mobj.frame m = State.frame d;
  bn_thinks : Thinker.function (Mobj.thinker m) = fn_addr P_MobjThinker
}.
Lemma spawned_born x y z type i d r ss h m : fits_u 8 r -> state_at (MobjInfo.spawnstate i) = Ret d -> same_thing (spawned x y z type i d r ss h) m -> born x y z type i h m.
Proof.
  intros Hr Ed (sn & sp & bn & bp & ->). unfold spawned, newborn, fresh, stand_at. destruct (gameskill =? sk_nightmare) eqn:Es.
  all: split; rewrite ?Es; try (by repeat split); [cbn; unfold fits_u in Hr; pose proof (Z.rem_bound_pos r 4); lia|split; [reflexivity|exists d; by split]].
Qed.
(** C13: P_SpawnMobj of any type, anywhere on a well-formed level: it goes through.
    The new thing has all that the tables say of its type and first state, stands
    at (x, y) in its sector between floor and ceiling heights of that sector, on
    the floor, below the ceiling or at z as was asked; it thinks, as the last of
    the thinkers, is in front of the lists of its sector and block, and the level
    stays well-formed. Nothing changes in other things but links. *)
Theorem P_SpawnMobj_correct (mlaw : MallocLaw) x y z type p S B : level_ok p S B -> 0 <= type < NUMMOBJTYPES ->
  exists a i sec p' m, type_at type = Ret i /\ sector_at p x y sec /\
    P_SpawnMobj x y z type p = Ret (a, p') /\ thing_at a p' = Ret m /\ born x y z type i (hts sec) m /\ mobjs (pl p) !! a = None /\
    thinkers (ob p') = thinkers (ob p) ++ [a] /\
    (let S' := pushed S (sector_home m) a in let B' := pushed B (block_home (gr p) m) a in placed (gr p) (pl p') S' B' a m /\ level_ok p' S' B') /\
    (forall b mb, b <> a -> thing_at b p = Ret mb -> exists mb', thing_at b p' = Ret mb' /\ same_thing mb mb').
Proof.
  intros Hlv Ht. destruct (spawn_run mlaw x y z type p S B Hlv Ht) as (a & i & d & r & ss & sec & p' & H0 & Hn & Ei & Ed & Ess & Hsec & Hr & E & [(s & Hp') (m & Em & Hs & Hpl) Hl Ho]).
  pose proof (spawned_born _ _ _ _ _ _ _ _ _ _ Hr Ed Hs) as Hb. exists a, i, sec, p', m. destruct (same_home' (gr p) _ _ Hs) as [-> ->]. split_and!; try done. by rewrite Hp'.
Qed.
End mobjs.

(** ** Witnesses *)

(** The room of [RoomDemo] with all that things need; functions of states do
    nothing, and memory comes from unused addresses. *)
Module ThingDemo.
#[local] Instance im : Image := fun _ => 4096.
#[local] Instance st : Settings := {|
  gameskill := 2; deathmatch := 2; netgame := true; nomonsters := false; respawnmonsters := false; gameversion := 4; gamemode := 2; map_number := 1;
  consoleplayer := 0; playeringame := [1; 0; 0; 0]; mobjinfo_base := 8192; dummy_at := 8; spechit_magic := 0x01C09C98; sky_flat := 7;
  sine _ := 0; cosine _ := FRACUNIT; point_to_angle _ _ _ _ := 0 |}.
(** An address above all others. *)
Definition above (ms : gmap Z Mobj.mobj_t) : Z := 1 + foldr Z.max 0 (map_to_list ms).*1.
Lemma above_fresh ms : above ms <> 0 /\ ms !! above ms = None.
Proof.
  assert (H : forall l (x : Z), x ∈ l -> x <= foldr Z.max 0 l) by (induction l as [|y l IH]; intros x Hx; [by apply elem_of_nil in Hx|]; apply elem_of_cons in Hx as [->|Hx]; cbn; [lia|specialize (IH x Hx); lia]).
  assert (H0 : forall l, 0 <= foldr Z.max 0 l) by (induction l as [|y l IH]; cbn; lia). split; [unfold above; specialize (H0 (map_to_list ms).*1); lia|].
  destruct (ms !! above ms) as [m|] eqn:E; [|done]. apply elem_of_map_to_list in E. pose proof (list_elem_of_fmap_2 fst _ _ E) as E2. specialize (H _ _ E2). cbn in H. unfold above in H. lia.
Qed.
#[local] Instance bh : Behaviour unit := {| state_action _ _ p := Ret p; weapon_action _ _ _ p := Ret p; mobj_malloc p := Ret (above (mobjs (pl p))) |}.
Lemma mlaw : MallocLaw.
Proof. intros p. exists (above (mobjs (pl p))). split; [done|]. apply above_fresh. Qed.
#[local] Instance alaws : ActionLaws.
Proof. intros s d a p m p1 _ _ Em [= <-]. by exists m. Qed.
Definition things : objs unit :=
  mk_objs [] [32; 16] (replicate 128 (MapThing.mk 0 0 0 0 0)) (replicate 128 0) 0 0 (replicate 10 (MapThing.mk 0 0 0 0 0)) 0 0 0 5 [] tt.
Definition vars : moving (attack (objs unit)) :=
  mk_moving 0 0 0 0 (mk_bbox 0 0 0 0) false 0 0 0 None [] 0 0 0 [RoomDemo.room0] (mk_rnd 0 0) 0 0 (0, 0) (mk_attack 0 0 None None 0 0 0 0 0 0 0 0 0 0 things).
Definition world : oworld unit := mk_play [TraceDemo.wall] 7 SmallMap.small_grid SmallMap.two (mk_opening 0 0 0 0) 0 [] vars.
Lemma thing_world_ok : level_ok (bsp := SmallMap.bsp) (bm := TraceDemo.bm) world [[32; 16]] [[32; 16]; []; []; []].
Proof. pose proof RoomDemo.world_ok as [[V1 V2 V3 V4] V5 V6 V7 V8]. split; [split; [exact V1|exact V2|exact V3|exact V4]|exact V5|exact V6|exact V7|exact V8]. Qed.
Lemma ring_ok {X} (x : X) : ring_wf ITEMQUESIZE (replicate 128 x) 0 0.
Proof. split; [apply length_replicate|]. unfold ITEMQUESIZE. lia. Qed.
Lemma world_que : que_ok (ob world).
Proof. split; apply ring_ok. Qed.
Lemma world_fit : fit (bsp := SmallMap.bsp) (bm := TraceDemo.bm) world 16 RoomDemo.mover.
Proof. exists [[32; 16]], [[32; 16]; []; []; []]. split; [exact thing_world_ok|]. split; [exact RoomDemo.mover_placed|exact world_que]. Qed.
End ThingDemo.
Lemma P_RemoveMobj_correct_witness : exists p', P_RemoveMobj (A := LP64) (bsp := SmallMap.bsp) 16 ThingDemo.world = Ret p' /\ exists m', thing_at 16 p' = Ret m' /\ is_removed (A := LP64) m' = true.
Proof.
  destruct (P_RemoveMobj_correct (A := LP64) (bsp := SmallMap.bsp) (bm := TraceDemo.bm) ThingDemo.world [[32; 16]] [[32; 16]; []; []; []] 16 RoomDemo.mover ThingDemo.thing_world_ok RoomDemo.mover_placed ThingDemo.world_que)
    as (p' & E & _ & _ & _ & Hm & _). exists p'. split; [exact E|exact Hm].
Defined.
(** A pain elemental's attack ends in its walk. *)
Lemma P_SetMobjState_correct_witness : exists p', P_SetMobjState (A := LP64) (bsp := SmallMap.bsp) (bh := ThingDemo.bh) 16 711 ThingDemo.world = Ret (true, p') /\
  exists m', thing_at 16 p' = Ret m' /\ Mobj.tics m' <> 0.
Proof.
  assert (Hs : thing_state 711).
  { assert (H : thing_state 708).
    { destruct (mobjinfo !! 22%nat) as [i|] eqn:Ei; [|vm_compute in Ei; discriminate]. apply (ts_type i); [by eapply list_elem_of_lookup_2|].
      vm_compute in Ei. injection Ei as <-. apply (bool_decide_unpack _). by vm_compute. }
    do 3 (eapply ts_next in H; [|vm_compute; reflexivity|discriminate]; cbn [State.nextstate] in H). exact H. }
  destruct (P_SetMobjState_correct (A := LP64) (bsp := SmallMap.bsp) (bm := TraceDemo.bm) (bh := ThingDemo.bh) (alaws := ThingDemo.alaws) 16 711 ThingDemo.world RoomDemo.mover Hs
    (fit_thing (bsp := SmallMap.bsp) (bm := TraceDemo.bm) _ _ _ ThingDemo.world_fit)) as (d & _ & E & H).
  destruct (P_SetMobjState 16 711 ThingDemo.world) as [[r p']| | |] eqn:Er; try (vm_compute in Er; discriminate).
  destruct (H r p' eq_refl) as [-> Hm]. exists p'. by split.
Defined.
Lemma P_SpawnMobj_correct_witness : exists a p', P_SpawnMobj (A := LP64) (im := ThingDemo.im) (bsp := SmallMap.bsp) (st := ThingDemo.st) (bh := ThingDemo.bh) (40 * FRACUNIT) (40 * FRACUNIT) ONFLOORZ 63 ThingDemo.world = Ret (a, p') /\
  thinkers (ob p') = [32; 16] ++ [a].
Proof.
  destruct (P_SpawnMobj_correct (A := LP64) (im := ThingDemo.im) (bsp := SmallMap.bsp) (bm := TraceDemo.bm) (st := ThingDemo.st) (bh := ThingDemo.bh) ThingDemo.mlaw (40 * FRACUNIT) (40 * FRACUNIT) ONFLOORZ 63 ThingDemo.world
    [[32; 16]] [[32; 16]; []; []; []] ThingDemo.thing_world_ok) as (a & i & sec & p' & m & _ & _ & E & _ & _ & _ & Hth & _).
  - split; [discriminate|reflexivity].
  - exists a, p'. split; [exact E|exact Hth].
Defined.
