(* ===== verification/MotionTheorems.v ===== *)
(** * How things move, and what comes back: the theorems *)
From S2P Require Import Prelude Queues MFixed MRandom MBbox MapGeometry GeometryTheorems DLists GameTypes Pickup ThingLinks ThingLinkTheorems Sight PathTraverse TraverseTheorems SightTheorems Movement MovementTheorems Attack Info Mobjs Psprites Damage Motion MobjTheorems.
#[local] Open Scope doom_scope.

Section motion.
Context {A : Arch} {im : Image} {bsp : Bsp} {sg : Segs} {bm : Blockmap} {D : Type} {st : Settings} {bh : Behaviour D} {el : Elsewhere D}.
Implicit Types (p : oworld D) (a : Z) (m : Mobj.mobj_t) (S B : list (list Z)).

(** ** Along the map *)

(** The steps of a move: in two halves when it goes more than 15 units to the
    east or to the north. *)
Definition xy_steps (mx my : Z) : list (Z * Z) :=
  if (mx >? 15 * FRACUNIT) || (my >? 15 * FRACUNIT) then [(Z.quot mx 2, Z.quot my 2); (Z.shiftr mx 1, Z.shiftr my 1)] else [(mx, my)].
Fixpoint run_steps a (l : list (Z * Z)) p : outcome (bool * oworld D) :=
  match l with
  | [] => Ret (true, p)
  | (dx, dy) :: l => let* '(on, p) := try_step a dx dy p in if negb on then Ret (false, p) else run_steps a l p
  end.
Lemma clamp_range v : - MAXMOVE <= clamp v <= MAXMOVE.
Proof. unfold clamp, MAXMOVE, FRACUNIT. destruct (v >? _) eqn:E1; [lia|]. destruct (v <? _) eqn:E2; breflect; lia. Qed.
Lemma obind_pair {X} (o : outcome (bool * X)) : (let* '(on, p) := o in if negb on then Ret (false, p) else Ret (true, p)) = o.
Proof. by destruct o as [[[] x]| | |]. Qed.
Lemma xy_loop_run a mx my p : - MAXMOVE <= mx <= MAXMOVE -> - MAXMOVE <= my <= MAXMOVE -> xy_loop XY_STEPS a mx my p = run_steps a (xy_steps mx my) p.
Proof.
  unfold MAXMOVE, FRACUNIT. intros Hx Hy. unfold XY_STEPS, xy_steps. cbn [xy_loop]. change (Z.quot MAXMOVE 2) with (15 * FRACUNIT).
  destruct ((mx >? 15 * FRACUNIT) || (my >? 15 * FRACUNIT)) eqn:El; [|reflexivity].
  assert (Hsx : Z.shiftr mx 1 = mx / 2) by (rewrite Z.shiftr_div_pow2 by lia; reflexivity). assert (Hsy : Z.shiftr my 1 = my / 2) by (rewrite Z.shiftr_div_pow2 by lia; reflexivity).
  assert (Hsmall : (Z.shiftr mx 1 >? 15 * FRACUNIT) || (Z.shiftr my 1 >? 15 * FRACUNIT) = false).
  { rewrite Hsx, Hsy. unfold FRACUNIT. rewrite !Z.gtb_ltb. apply orb_false_iff. split; apply Z.ltb_ge; [pose proof (Z.div_le_upper_bound mx 2 983040 ltac:(lia) ltac:(lia))|pose proof (Z.div_le_upper_bound my 2 983040 ltac:(lia) ltac:(lia))]; lia. }
  assert (Hmore : (Z.shiftr mx 1 =? 0) && (Z.shiftr my 1 =? 0) = false).
  { rewrite Hsx, Hsy. unfold FRACUNIT in El. rewrite !Z.gtb_ltb in El. apply andb_false_iff. apply orb_true_iff in El as [El|El]; apply Z.ltb_lt in El; [left|right]; apply Z.eqb_neq; intros E; [pose proof (Z.div_le_lower_bound mx 2 2 ltac:(lia) ltac:(lia))|pose proof (Z.div_le_lower_bound my 2 2 ltac:(lia) ltac:(lia))]; lia. }
  rewrite Hmore, Hsmall. cbn [run_steps Z.eqb andb]. done.
Qed.
(** The last step and what follows it. *)
Definition after_steps a (player : option Z) p : outcome (oworld D) :=
  let* nomomentum := match player with Some i => let* pl := get_player i p in Ret (has_flag (Player.cheats pl) CF_NOMOMENTUM) | None => Ret false end in
  if nomomentum : bool then upd_thing a (fun m => m <| Mobj.momx := 0 |> <| Mobj.momy := 0 |>) p else friction a player p.
(** A thing with its momentum limited to 30 units. *)
Definition limited m : Mobj.mobj_t := m <| Mobj.momx ::= clamp |> <| Mobj.momy ::= clamp |>.

(** C18: P_XYMovement of a thing that moves limits its momentum to 30 units in each
    direction and makes one or two steps, each tried by P_TryMove from where the
    thing is then; together they are the momentum, but for the rounding of one unit
    of the fixed-point number. Steps east and north are never longer than 15 units.
    Afterwards there is friction, unless the thing is gone. *)
Theorem P_XYMovement_correct a m p : thing_at a p = Ret m -> Mobj.momx m <> 0 \/ Mobj.momy m <> 0 ->
  let mx := clamp (Mobj.momx m) in let my := clamp (Mobj.momy m) in let l := xy_steps mx my in
  P_XYMovement a p = (let* '(on, p) := run_steps a l (put_thing a (limited m) p) in if on : bool then after_steps a (Mobj.player m) p else Ret p) /\
  (length l <= 2)%nat /\ Forall (fun d => - MAXMOVE <= d.1 <= 15 * FRACUNIT /\ - MAXMOVE <= d.2 <= 15 * FRACUNIT) l /\
  (let sx := foldr Z.add 0 l.*1 in let sy := foldr Z.add 0 l.*2 in mx - 1 <= sx <= mx /\ my - 1 <= sy <= my).
Proof.
  intros Em Hm mx my l. pose proof (clamp_range (Mobj.momx m)) as Hx. pose proof (clamp_range (Mobj.momy m)) as Hy. fold mx in Hx. fold my in Hy. split; [|unfold l, xy_steps; clearbody mx my; unfold MAXMOVE, FRACUNIT in *].
  - unfold P_XYMovement. rewrite Em. cbn [obind]. assert (Hz : (Mobj.momx m =? 0) && (Mobj.momy m =? 0) = false) by (destruct Hm as [Hm|Hm]; apply Z.eqb_neq in Hm; rewrite Hm; [done|apply andb_false_r]).
    rewrite Hz, (upd_thing_run _ _ _ _ Em). cbn [obind]. rewrite put_at. cbn [obind]. fold (limited m). change (Mobj.momx (limited m)) with mx. change (Mobj.momy (limited m)) with my.
    rewrite xy_loop_run by done. fold l. destruct (run_steps a l _) as [[[] p1]| | |]; done.
  - rewrite !Z.gtb_ltb. destruct (_ || _) eqn:El; [|apply orb_false_iff in El as [E1 E2]; breflect; split; [cbn; lia|]; split; [constructor; [cbn; lia|constructor]|cbn; lia]].
    assert (Hq : forall v, -1966080 <= v <= 1966080 -> -1966080 <= Z.quot v 2 <= 983040 /\ -1966080 <= Z.shiftr v 1 <= 983040 /\ v - 1 <= Z.quot v 2 + Z.shiftr v 1 <= v).
    { intros v Hv. rewrite Z.shiftr_div_pow2 by lia. change (2 ^ 1) with 2. pose proof (Z.div_mod v 2 ltac:(lia)). pose proof (Z.mod_pos_bound v 2 ltac:(lia)). pose proof (Z.quot_rem' v 2).
      pose proof (Z.rem_bound_abs v 2 ltac:(lia)). pose proof (Z.rem_sign_nz v 2). assert (0 <= v -> Z.quot v 2 = v / 2) by (intros; apply Z.quot_div_nonneg; lia). lia. }
    pose proof (Hq mx Hx). pose proof (Hq my Hy). split; [cbn; lia|]. split; [constructor; [cbn; lia|constructor; [cbn; lia|constructor]]|cbn; lia].
Qed.
(** To the west and to the south the whole momentum is one step. *)
Lemma west_is_one_step : xy_steps (- MAXMOVE) 0 = [(- MAXMOVE, 0)] /\ length (xy_steps MAXMOVE 0) = 2%nat.
Proof. by vm_compute. Qed.

(** ** Up and down *)
Definition floats m : bool := has_flag (Mobj.flags m) MF_FLOAT && negb (Mobj.target m =? 0) && negb (has_flag (Mobj.flags m) MF_SKULLFLY) && negb (has_flag (Mobj.flags m) MF_INFLOAT).
(** The thing where its momentum, and its target if it floats to [t], take it. *)
Definition flown (t : option Mobj.mobj_t) m : Mobj.mobj_t :=
  let m := m <| Mobj.z := i32 (Mobj.z m + Mobj.momz m) |> in match t with Some t => float_to m t | None => m end.
(** All that P_ZMovement reads is there, and no sum of heights overflows. *)
Record flies p a m (t : option Mobj.mobj_t) : Prop := {
  fl_thing : thing_at a p = Ret m;
  fl_player i : Mobj.player m = Some i -> exists pl, get_player i p = Ret pl;
  fl_target : if floats m then Mobj.target m <> a /\ exists x, thing_at (Mobj.target m) p = Ret x /\ t = Some x else t = None;
  fl_range : Forall (fun v => - 2 ^ 29 <= v <= 2 ^ 29) [Mobj.z m; Mobj.momz m; Mobj.floorz m; Mobj.ceilingz m; Mobj.height m]
}.
Definition same_places p p' : Prop := pl p' = pl p.
Lemma put_player_places i pl p : same_places p (put_player i pl p).
Proof. done. Qed.
Lemma step_up_run p a m t : flies p a m t -> exists p', step_up a p = Ret p' /\ same_places p p' /\ (forall i, Mobj.player m = Some i -> exists pl, get_player i p' = Ret pl).
Proof.
  intros [Em Hp _ _]. unfold step_up. rewrite Em. cbn [obind]. destruct (Mobj.player m) as [i|] eqn:Ei; [|exists p; by split_and!]. destruct (Hp i eq_refl) as (pl & Epl).
  destruct (_ <? _); [|exists p; split_and!; [done|done|intros j [= <-]; by exists pl]]. unfold upd_player. rewrite Epl. cbn [obind]. eexists. split; [reflexivity|]. split; [done|].
  intros j [= <-]. unfold get_player, at_place in *. destruct (i <? 0); [done|]. unfold put_player. change (players (ob (on_ob ?f p))) with (players (f (ob p))). cbn.
  destruct (players (ob p) !! Z.to_nat i) eqn:E; [|done]. rewrite list_lookup_insert_eq by (by eapply lookup_lt_Some). cbn. by eexists.
Qed.
Lemma float_range m t : Mobj.z (float_to m t) = Mobj.z m \/ Mobj.z (float_to m t) = i32 (Mobj.z m - FLOATSPEED) \/ Mobj.z (float_to m t) = i32 (Mobj.z m + FLOATSPEED).
Proof. unfold float_to. destruct (_ && _); [right; by left|]. destruct (_ && _); [right; by right|by left]. Qed.
(** But for its height, floating leaves a thing alone. *)
Lemma flown_only t m : exists z, flown t m = m <| Mobj.z := z |>.
Proof.
  unfold flown. destruct t as [t|]; [|by eexists]. unfold float_to. destruct (_ && _); [eexists; by destruct m|]. destruct (_ && _); eexists; by destruct m.
Qed.
Lemma flown_range t m : - 2 ^ 29 <= Mobj.z m <= 2 ^ 29 -> - 2 ^ 29 <= Mobj.momz m <= 2 ^ 29 -> let z1 := Mobj.z (flown t m) in
  - FLOATSPEED <= z1 - (Mobj.z m + Mobj.momz m) <= FLOATSPEED /\ (t = None -> z1 = Mobj.z m + Mobj.momz m).
Proof.
  intros H1 H2. assert (Ei : i32 (Mobj.z m + Mobj.momz m) = Mobj.z m + Mobj.momz m) by (apply wraps_id; [lia|unfold fits_s; lia]).
  unfold flown. rewrite Ei. unfold FLOATSPEED, FRACUNIT. destruct t as [t|]; [split; [|done]|cbn; lia].
  destruct (float_range (m <| Mobj.z := Mobj.z m + Mobj.momz m |>) t) as [-> |[-> | ->]]; unfold FLOATSPEED, FRACUNIT; cbn; rewrite ?wraps_id by (unfold fits_s; lia); lia.
Qed.
Lemma hard_landing_places a m p : (forall i, Mobj.player m = Some i -> exists pl, get_player i p = Ret pl) -> exists p', hard_landing a m p = Ret p' /\ same_places p p'.
Proof.
  intros Hp. unfold hard_landing. destruct (Mobj.player m) as [i|]; [|by exists p]. destruct (_ <? _); [|by exists p]. destruct (Hp i eq_refl) as (pl & E). unfold upd_player. rewrite E. cbn [obind]. by eexists.
Qed.
Lemma thing_same a p p' m : same_places p p' -> thing_at a p = Ret m -> thing_at a p' = Ret m.
Proof. intros H E. unfold thing_at. by rewrite H. Qed.
(** A thing that is at the places of another world. *)
Definition put_at_places a m p p' : Prop := pl p' = pl (put_thing a m p).
Lemma put_places a m p p1 : same_places p p1 -> put_at_places a m p (put_thing a m p1).
Proof. unfold same_places, put_at_places. destruct p, p1. cbn. by intros ->. Qed.
Lemma put_places_again a m m' p p1 : put_at_places a m p p1 -> put_at_places a m' p (put_thing a m' p1).
Proof. unfold put_at_places, put_thing. destruct p as [? ? ? w ? ? ? ?], p1 as [? ? ? w1 ? ? ? ?]. cbn. intros ->. destruct w. unfold set. cbn. by rewrite insert_insert_eq. Qed.
Lemma put_places_at a m p p1 : put_at_places a m p p1 -> thing_at a p1 = Ret m.
Proof. unfold put_at_places. intros H. apply thing_lookup. rewrite H. unfold put_thing. destruct p as [? ? ? w ? ? ? ?]. destruct w. cbn. apply lookup_insert_eq. Qed.
Lemma put_same a m p p1 : same_places p p1 -> thing_at a p = Ret m -> put_at_places a m p p1.
Proof.
  unfold same_places, put_at_places. intros -> E. apply thing_lookup in E. unfold put_thing. destruct p as [? ? ? w ? ? ? ?]. destruct w. cbn in *. unfold set. cbn. by rewrite insert_id.
Qed.
Lemma put_places_trans a m m' p p1 p2 : put_at_places a m p p1 -> put_at_places a m' p1 p2 -> put_at_places a m' p p2.
Proof. unfold put_at_places. intros H1 ->. unfold put_thing. destruct p as [? ? ? w ? ? ? ?], p1 as [? ? ? w1 ? ? ? ?]. cbn in *. subst w1. destruct w. unfold set. cbn. by rewrite insert_insert_eq. Qed.
Lemma put_places_upd a m p p1 f : put_at_places a m p p1 -> exists p2, upd_thing a f p1 = Ret p2 /\ put_at_places a (f m) p p2.
Proof. intros H. eexists. split; [apply (upd_thing_run _ _ _ _ (put_places_at _ _ _ _ H))|]. exact (put_places_again _ _ _ _ _ H). Qed.

(** On the floor a fall ends; a charging skull is thrown back, but in the later
    versions of the program only when it came up from below. *)
Definition charges m : bool := has_flag (Mobj.flags m) MF_SKULLFLY.
Definition landing m : Z :=
  let v := Mobj.momz m in if charges m then (if correct_lost_soul_bounce then Z.max 0 (- v) else - Z.max 0 v) else Z.max 0 v.
Definition landed m : Mobj.mobj_t := m <| Mobj.momz := landing m |> <| Mobj.z := Mobj.floorz m |>.
Lemma landed_bounce m : - 2 ^ 30 <= Mobj.momz m <= 2 ^ 30 ->
  let m0 := if correct_lost_soul_bounce && charges m then bounce m else m in
  let m1 := if Mobj.momz m0 <? 0 then m0 <| Mobj.momz := 0 |> else m0 in
  let m2 := m1 <| Mobj.z := Mobj.floorz m1 |> in
  (if negb correct_lost_soul_bounce && charges m then bounce m2 else m2) = landed m.
Proof.
  intros Hr. unfold landed, landing, bounce. destruct correct_lost_soul_bounce, (charges m); cbn [andb negb]; destruct m; cbn in *; unfold set, update; cbn;
    rewrite ?(wraps_id 32 (- momz)) by (unfold fits_s; lia); repeat match goal with |- context [?a <? ?b] => destruct (Z.ltb_spec a b) end; cbn; rewrite ?(wraps_id 32) by (unfold fits_s; lia); f_equal; lia.
Qed.
Lemma hit_floor_run a m p : thing_at a p = Ret m -> - 2 ^ 30 <= Mobj.momz m <= 2 ^ 30 -> (forall i, Mobj.player m = Some i -> exists pl, get_player i p = Ret pl) ->
  exists p', hit_floor a p = Ret p' /\ put_at_places a (landed m) p p'.
Proof.
  intros Em Hr Hp. pose proof (landed_bounce m Hr) as Hl. cbn zeta in Hl. set (m0 := if correct_lost_soul_bounce && charges m then bounce m else m) in *.
  assert (Hf0 : Mobj.flags m0 = Mobj.flags m /\ Mobj.player m0 = Mobj.player m) by (unfold m0; by destruct (_ && _), m). destruct Hf0 as [Hf0 Hpl0].
  unfold hit_floor. rewrite (upd_thing_run _ _ _ _ Em). cbn [obind]. fold (charges m). fold m0. rewrite put_at. cbn [obind].
  assert (H1 : exists p1, (if Mobj.momz m0 <? 0 then let* p := hard_landing a m0 (put_thing a m0 p) in upd_thing a (fun m => m <| Mobj.momz := 0 |>) p else Ret (put_thing a m0 p)) = Ret p1 /\
    put_at_places a (if Mobj.momz m0 <? 0 then m0 <| Mobj.momz := 0 |> else m0) p p1).
  { destruct (Mobj.momz m0 <? 0); [|by eexists]. destruct (hard_landing_places a m0 (put_thing a m0 p)) as (p1 & -> & H1); [rewrite Hpl0; exact Hp|]. cbn [obind].
    exact (put_places_upd a m0 p p1 (fun m => m <| Mobj.momz := 0 |>) H1). }
  destruct H1 as (p1 & -> & H1). cbn [obind]. set (m1 := if Mobj.momz m0 <? 0 then _ else m0) in *.
  match goal with |- context [upd_thing a ?f _] => destruct (put_places_upd a _ p p1 f H1) as (p3 & E3 & H3) end. exists p3. split; [exact E3|].
  rewrite <- Hl. revert H3. change (Mobj.flags (m1 <| Mobj.z := Mobj.floorz m1 |>)) with (Mobj.flags m1).
  replace (has_flag (Mobj.flags m1) MF_SKULLFLY) with (charges m); [done|]. unfold charges. rewrite <- Hf0. unfold m1. by destruct (_ <? _), m0.
Qed.
(** At the ceiling a rise ends; a charging skull that was on its way down is thrown
    back. *)
Definition bumped m : Mobj.mobj_t :=
  m <| Mobj.momz := (let v := Z.min 0 (Mobj.momz m) in if charges m then - v else v) |> <| Mobj.z := Mobj.ceilingz m - Mobj.height m |>.
Lemma bump_bumped m : - 2 ^ 30 <= Mobj.momz m <= 2 ^ 30 -> fits_s 32 (Mobj.ceilingz m - Mobj.height m) -> bump m = bumped m.
Proof.
  intros Hr Hc. unfold bump, bumped, bounce, charges. rewrite Z.gtb_ltb.
  destruct (Z.ltb_spec 0 (Mobj.momz m)); change (Mobj.flags (_ <| Mobj.z := _ |>)) with (Mobj.flags m); destruct (has_flag _ MF_SKULLFLY); destruct m; cbn in *; unfold set, update; cbn;
    rewrite ?(wraps_id 32) by (done || lia || (unfold fits_s; lia)); f_equal; lia.
Qed.
Definition too_high m : bool := Mobj.z m + Mobj.height m >? Mobj.ceilingz m.
Lemma hit_ceiling_run a m p : thing_at a p = Ret m -> - 2 ^ 30 <= Mobj.momz m <= 2 ^ 30 -> fits_s 32 (Mobj.ceilingz m - Mobj.height m) -> fits_s 32 (Mobj.z m + Mobj.height m) ->
  exists p', put_at_places a (if too_high m then bumped m else m) p p' /\ hit_ceiling a p = if too_high m && explodes m then P_ExplodeMissile a p' else Ret p'.
Proof.
  intros Em Hr Hc Hz. unfold hit_ceiling, too_high. rewrite Em. cbn [obind]. rewrite (wraps_id 32 (Mobj.z m + _)) by (done || lia).
  destruct (_ >? _); cbn [andb]; [|exists p; split; [by apply put_same|done]].
  rewrite (upd_thing_run _ _ _ _ Em). cbn [obind]. rewrite bump_bumped by done. exists (put_thing a (bumped m) p). by split.
Qed.

(** The thing when floor and ceiling have stopped it: a missile that meets the
    floor goes no further. *)
Definition on_floor m : bool := Mobj.z m <=? Mobj.floorz m.
Definition met m : Mobj.mobj_t := if on_floor m then landed m else fall m.
Definition bursts m : bool := explodes m && (on_floor m || too_high (met m)).
Definition stopped_at m : Mobj.mobj_t := if negb (explodes m && on_floor m) && too_high (met m) then bumped (met m) else met m.
(** With room above the floor a thing that does not bounce is kept in the room. *)
Lemma stopped_between m : charges m = false -> 0 <= Mobj.height m -> Mobj.floorz m + Mobj.height m <= Mobj.ceilingz m ->
  Mobj.z (stopped_at m) = Z.max (Mobj.floorz m) (Z.min (Mobj.z m) (Mobj.ceilingz m - Mobj.height m)) /\
  Mobj.momz (stopped_at m) = (let v := if on_floor m then Z.max 0 (Mobj.momz m) else Mobj.momz (fall m) in if too_high m then Z.min 0 v else v).
Proof.
  intros Hc Hh Hroom. unfold stopped_at, met, too_high. destruct (on_floor m) eqn:Ef; unfold on_floor in Ef; breflect.
  - change (Mobj.z (landed m)) with (Mobj.floorz m). change (Mobj.height (landed m)) with (Mobj.height m). change (Mobj.ceilingz (landed m)) with (Mobj.ceilingz m).
    rewrite !Z.gtb_ltb, !(proj2 (Z.ltb_ge _ _)) by lia. rewrite andb_false_r. unfold landed, landing. rewrite Hc. cbn. lia.
  - assert (Eu : exists u, fall m = m <| Mobj.momz := u |>).
    { unfold fall. destruct (has_flag _ _); [exists (Mobj.momz m); by destruct m|]. destruct (_ =? _); by eexists. }
    destruct Eu as [u Eu]. rewrite Eu. rewrite andb_false_r. cbn [negb andb]. change (Mobj.z (m <| Mobj.momz := u |>)) with (Mobj.z m).
    change (Mobj.height (m <| Mobj.momz := u |>)) with (Mobj.height m). change (Mobj.ceilingz (m <| Mobj.momz := u |>)) with (Mobj.ceilingz m).
    rewrite Z.gtb_ltb. destruct (Z.ltb_spec (Mobj.ceilingz m) (Mobj.z m + Mobj.height m)); unfold bumped; change (charges (m <| Mobj.momz := u |>)) with (charges m); rewrite ?Hc; cbn; lia.
Qed.
Lemma fall_small m : - 2 ^ 29 <= Mobj.momz m <= 2 ^ 29 -> - 2 ^ 30 <= Mobj.momz (fall m) <= 2 ^ 30.
Proof.
  intros Hr. unfold fall. destruct (has_flag _ _); [lia|]. unfold GRAVITY, FRACUNIT. destruct (_ =? _); cbn; [lia|]. rewrite wraps_id by (unfold fits_s; lia). lia.
Qed.
Lemma fall_only m : exists u, fall m = m <| Mobj.momz := u |>.
Proof. unfold fall. destruct (has_flag _ _); [exists (Mobj.momz m); by destruct m|]. destruct (_ =? _); by eexists. Qed.
(** The way up to where the thing has flown. *)
Lemma flown_run p a m t : flies p a m t -> exists p1 p3, step_up a p = Ret p1 /\ thing_at a p1 = Ret m /\
  float a (put_thing a (m <| Mobj.z := i32 (Mobj.z m + Mobj.momz m) |>) p1) = Ret p3 /\
  put_at_places a (flown t m) p p3 /\ (forall i, Mobj.player m = Some i -> exists pl, get_player i p3 = Ret pl).
Proof.
  intros Hf. pose proof Hf as [Em Hp Ht _]. destruct (step_up_run p a m t Hf) as (p1 & E1 & Hs1 & Hp1). set (m1 := m <| Mobj.z := i32 (Mobj.z m + Mobj.momz m) |>).
  pose proof (put_places a m1 p p1 Hs1) as H1. set (p2 := put_thing a m1 p1) in *.
  assert (Hfl : exists p3, float a p2 = Ret p3 /\ put_at_places a (flown t m) p p3 /\ (forall i, Mobj.player m = Some i -> exists pl, get_player i p3 = Ret pl)).
  { unfold float. rewrite (put_places_at _ _ _ _ H1). cbn [obind]. fold (floats m1). change (floats m1) with (floats m). destruct (floats m).
    - destruct Ht as (Hne & x & Ex & ->). change (Mobj.target m1) with (Mobj.target m). assert (Ex2 : thing_at (Mobj.target m) p2 = Ret x).
      { apply thing_lookup. rewrite H1. apply thing_lookup in Ex. unfold put_thing. destruct p as [? ? ? w ? ? ? ?]. destruct w. cbn in *. by rewrite lookup_insert_ne. }
      rewrite Ex2. cbn [obind]. rewrite (upd_thing_run _ _ _ _ (put_places_at _ _ _ _ H1)). eexists. split; [reflexivity|]. split; [exact (put_places_again _ _ _ _ _ H1)|exact Hp1].
    - subst t. exists p2. by split_and!. }
  destruct Hfl as (p3 & E3 & H3 & Hp3). exists p1, p3. split_and!; try done. by apply (thing_same a p).
Qed.

End motion.

(** ** Witnesses *)

(** The room of [ThingDemo] with a thing that flies: it moves east and down. *)
Module FlightDemo.
#[local] Instance el : Elsewhere unit := {| touch_special _ _ p := Ret p; cross_line _ _ _ p := Ret p; shoot_line _ _ p := Ret p; use_line _ _ _ p := Ret p; noway _ p := p |}.
#[local] Instance sg : Segs := {| subsectors := []; segs := []; rejectmatrix := [] |}.
Definition flier : Mobj.mobj_t :=
  RoomDemo.mover <| Mobj.z := 3 * FRACUNIT |> <| Mobj.momx := 20 * FRACUNIT |> <| Mobj.momz := - 5 * FRACUNIT |> <| Mobj.ceilingz := 128 * FRACUNIT |>.
Definition world : oworld unit := put_thing 16 flier ThingDemo.world.
Lemma flier_flies : flies world 16 flier None.
Proof. split; [reflexivity|discriminate|reflexivity|]. repeat (constructor; [split; vm_compute; discriminate|]). constructor. Qed.
End FlightDemo.
Lemma P_XYMovement_correct_witness :
  P_XYMovement (A := LP64) (im := ThingDemo.im) (bsp := SmallMap.bsp) (bm := TraceDemo.bm) (st := ThingDemo.st) (bh := ThingDemo.bh) (el := FlightDemo.el) 16 FlightDemo.world =
  (let* '(on, p) := run_steps (A := LP64) (im := ThingDemo.im) (bsp := SmallMap.bsp) (bm := TraceDemo.bm) (st := ThingDemo.st) (bh := ThingDemo.bh) (el := FlightDemo.el) 16
     [(10 * FRACUNIT, 0); (10 * FRACUNIT, 0)] (put_thing 16 (limited FlightDemo.flier) FlightDemo.world) in
   if on : bool then after_steps (A := LP64) (bsp := SmallMap.bsp) (bh := ThingDemo.bh) 16 None p else Ret p).
Proof.
  destruct (P_XYMovement_correct (A := LP64) (im := ThingDemo.im) (bsp := SmallMap.bsp) (bm := TraceDemo.bm) (st := ThingDemo.st) (bh := ThingDemo.bh) (el := FlightDemo.el) 16 FlightDemo.flier FlightDemo.world eq_refl) as [E _]; [left; discriminate|].
  exact E.
Defined.
