(* ===== verification/DamageTheorems.v ===== *)
(** * Damage and weapons: the theorems

    What a hit takes from the armour and the health of a thing (P_DamageMobj), and
    the weapon a player without ammunition changes to (P_CheckAmmo). *)
From S2P Require Import Prelude Queues MFixed MRandom MBbox MapGeometry GeometryTheorems DLists GameTypes Pickup ThingLinks ThingLinkTheorems Sight PathTraverse TraverseTheorems SightTheorems Movement MovementTheorems Attack Info Mobjs Psprites Damage MobjTheorems.
#[local] Open Scope doom_scope.

Section damage.
Context {A : Arch} {im : Image} {bsp : Bsp} {sg : Segs} {bm : Blockmap} {D : Type} {st : Settings} {bh : Behaviour D}.
Implicit Types (p : oworld D) (target source inflictor : Z) (m : Mobj.mobj_t) (pl : Player.player_t).

(** ** Being pushed *)

(** A thing with another momentum, after some random numbers. *)
Definition with_momentum (v : Z * Z * Z) m : Mobj.mobj_t := m <| Mobj.momx := v.1.1 |> <| Mobj.momy := v.1.2 |> <| Mobj.momz := v.2 |>.
Definition momentum m : Z * Z * Z := (Mobj.momx m, Mobj.momy m, Mobj.momz m).
Definition shoved target m (v : Z * Z * Z) (s : rnd_state) p : oworld D := put_thing target (with_momentum v m) (on_tm (fun t => t <| rnd := s |>) p).
Lemma shoved_again target m v w s p : put_thing target (with_momentum w m) (shoved target m v s p) = shoved target m w s p.
Proof. apply put_put. Qed.
Lemma info_mass m i : info_of m = Ret i -> 0 < MobjInfo.mass i.
Proof.
  unfold info_of, type_at, at_place. destruct (_ =? 0); [|done]. destruct (_ <? 0); [done|]. destruct (mobjinfo !! _) as [i'|] eqn:E; [|done]. intros [= ->].
  exact (proj1 (Forall_lookup _ _) masses _ _ E).
Qed.
(** The push: away from what inflicts it, the harder the more damage and the less mass;
    [forwards], the other way and four times as hard. *)
Definition thrust_of (damage : Z) (i : MobjInfo.mobjinfo_t) : Z := Z.quot (i32 (damage * 819200)) (MobjInfo.mass i).
Definition kick (damage : Z) m mi (i : MobjInfo.mobjinfo_t) (forwards : bool) : Z * Z * Z :=
  let away := point_to_angle (Mobj.x mi) (Mobj.y mi) (Mobj.x m) (Mobj.y m) in
  let ang := if forwards then (away + 2 ^ 31) mod 2 ^ 32 else away in
  let t := if forwards then i32 (4 * thrust_of damage i) else thrust_of damage i in
  let fine := Z.shiftr ang 19 in
  (i32 (Mobj.momx m + FixedMul t (cosine fine)), i32 (Mobj.momy m + FixedMul t (sine fine)), Mobj.momz m).
(** Who is killed by little damage from far below may fall forwards, every second
    time. *)
Definition may_fall (damage : Z) m mi : bool := (damage <? 40) && (Mobj.health m <? damage) && (64 * FRACUNIT <? i32 (Mobj.z m - Mobj.z mi)).
Definition kicked (damage : Z) m mi (i : MobjInfo.mobjinfo_t) (s0 : rnd_state) (v : Z * Z * Z) (s : rnd_state) : Prop :=
  if may_fall damage m mi then exists r, P_Random s0 = Ret (r, s) /\ v = kick damage m mi i (has_flag r 1) else s = s0 /\ v = kick damage m mi i false.
Lemma thrust_run damage i : 0 < MobjInfo.mass i -> i32 (Z.quot (i32 (i32 (damage * Z.shiftr FRACUNIT 3) * 100)) (MobjInfo.mass i)) = thrust_of damage i.
Proof.
  intros Hm. unfold thrust_of. change (Z.shiftr FRACUNIT 3) with 8192.
  assert (E : i32 (i32 (damage * 8192) * 100) = i32 (damage * 819200)).
  { apply wraps_congr. pose proof (wraps_mod 32 (damage * 8192) ltac:(lia)) as H. rewrite Z.mul_mod, H, <- Z.mul_mod by lia. f_equal. lia. }
  rewrite E. apply wraps_id; [lia|]. pose proof (wraps_range 32 (damage * 819200) ltac:(lia)) as Hr. unfold fits_s in *. set (a := i32 (damage * 819200)) in *. clearbody a.
  pose proof (Z.quot_rem' a (MobjInfo.mass i)). pose proof (Z.rem_bound_abs a (MobjInfo.mass i) ltac:(lia)). change (2 ^ (32 - 1)) with 2147483648 in *. nia.
Qed.
Lemma push_target_run target inflictor damage p m mi i : thing_at target p = Ret m -> thing_at inflictor p = Ret mi -> info_of m = Ret i ->
  exists v s, push target inflictor damage p = Ret (shoved target m v s p) /\ kicked damage m mi i (rnd (client p)) v s.
Proof.
  intros Em Emi Ei. pose proof (info_mass _ _ Ei) as Hm. unfold push. rewrite Em. cbn [obind]. rewrite Emi. cbn [obind]. cbv zeta. rewrite Ei. cbn [obind].
  unfold c_div. rewrite (proj2 (Z.eqb_neq _ _)) by lia. cbn [obind]. rewrite (thrust_run _ _ Hm).
  assert (Hd : exists r s, (if (damage <? 40) && (damage >? Mobj.health m) && (i32 (Mobj.z m - Mobj.z mi) >? 64 * FRACUNIT) then draw p else Ret (0, p)) = Ret (r, on_tm (fun t => t <| rnd := s |>) p) /\
    if may_fall damage m mi then P_Random (rnd (client p)) = Ret (r, s) else s = rnd (client p) /\ r = 0).
  { rewrite !Z.gtb_ltb. fold (may_fall damage m mi). destruct (may_fall damage m mi).
    - unfold draw. destruct (P_Random_total (rnd (client p))) as (r & s & E & _). rewrite E. by exists r, s.
    - exists 0, (rnd (client p)). split; [|done]. destruct p as [? ? ? ? ? ? ? t]. by destruct t. }
  destruct Hd as (r & s & -> & Hr). cbn [obind]. erewrite upd_thing_run by exact Em.
  exists (kick damage m mi i (has_flag r 1)), s. split.
  - unfold shoved, kick. do 2 f_equal. destruct (has_flag r 1); [|reflexivity]. unfold with_momentum. rewrite (Z.mul_comm (thrust_of damage i) 4). reflexivity.
  - unfold kicked. destruct (may_fall damage m mi); [by exists r|]. destruct Hr as [-> ->]. done.
Qed.

(** ** What a hit does *)

(** All that P_DamageMobj reads is there, and the numbers are those of a game. *)
Definition small (x : Z) : Prop := 0 <= x <= 2 ^ 20.
Record hit_ok target inflictor source m p : Prop := {
  ht_thing : thing_at target p = Ret m;
  ht_info : exists i, info_of m = Ret i;
  ht_inflictor : inflictor <> 0 -> exists mi, thing_at inflictor p = Ret mi;
  ht_source : source <> 0 -> exists ms, thing_at source p = Ret ms /\ forall k, Mobj.player ms = Some k -> exists pl, get_player k p = Ret pl;
  ht_health : small (Mobj.health m)
}.
Record victim p m (j : Z) pl (sec : psector) : Prop := {
  vc_player : get_player j p = Ret pl;
  vc_under : under m p = Ret sec;
  vc_power : exists x, get (Player.powers pl) pw_invulnerability = Ret x;
  vc_health : small (Player.health pl);
  vc_armour : small (Player.armorpoints pl);
  vc_count : small (Player.damagecount pl)
}.
(** The damage a player feels: half of it in the easiest game, and never a deadly
    one on the floor that ends an episode. *)
Definition felt (damage : Z) m (sec : psector) : Z :=
  let d := if gameskill =? sk_baby then damage / 2 else damage in
  if (secspecial sec =? 11) && (d >=? Mobj.health m) then Mobj.health m - 1 else d.
Definition protected pl : bool := has_flag (Player.cheats pl) CF_GODMODE || match Player.powers pl !! 0%nat with Some x => truth x | None => false end.
(** What armour takes at most, and takes. *)
Definition portion (d : Z) pl : Z := if Player.armortype pl =? 1 then d / 3 else d / 2.
Definition share (d : Z) pl : Z := if Player.armortype pl =? 0 then 0 else Z.min (Player.armorpoints pl) (portion d pl).
Definition struck source (d : Z) pl : Player.player_t :=
  pl <| Player.armortype := if Player.armorpoints pl <=? portion d pl then 0 else Player.armortype pl |>
     <| Player.armorpoints := Player.armorpoints pl - share d pl |>
     <| Player.health := Z.max 0 (Player.health pl - (d - share d pl)) |> <| Player.attacker := source |>
     <| Player.damagecount := Z.min 100 (Player.damagecount pl + (d - share d pl)) |>.
(** The thing loses health: it dies, or feels pain and turns against who did it. *)
Definition strike target source (d : Z) m p : outcome (oworld D) :=
  let m := m <| Mobj.health := Mobj.health m - d |> in
  let p := put_thing target m p in
  if Mobj.health m <=? 0 then P_KillMobj source target p
  else
    let* p := in_pain target p in
    let* p := upd_thing target (fun m => m <| Mobj.reactiontime := 0 |>) p in
    chase target source p.
Lemma share_bounds d pl : 0 <= d -> 0 <= Player.armorpoints pl -> 0 <= share d pl <= Player.armorpoints pl /\ 2 * share d pl <= d.
Proof. intros Hd Ha. unfold share, portion. destruct (_ =? 0); [lia|]. destruct (_ =? 1); zlia. Qed.
Lemma absorb_run d pl : small d -> small (Player.armorpoints pl) ->
  absorb d pl = (d - share d pl, pl <| Player.armortype := if Player.armorpoints pl <=? portion d pl then 0 else Player.armortype pl |> <| Player.armorpoints := Player.armorpoints pl - share d pl |>).
Proof.
  unfold small. intros Hd Ha. pose proof (share_bounds d pl ltac:(lia) ltac:(lia)) as Hs. unfold absorb. unfold share in *. destruct (Z.eqb_spec (Player.armortype pl) 0) as [E|E].
  - replace (d - 0) with d by lia. f_equal. destruct pl; unfold set, update. cbn in *. subst. f_equal; [lia|by destruct (_ <=? _)].
  - rewrite !Z.quot_div_nonneg by lia. fold (portion d pl) in *. destruct (Z.leb_spec (Player.armorpoints pl) (portion d pl)) as [H|H].
    + rewrite (Z.min_l _ _ H) in *. rewrite wraps_id by (unfold fits_s; lia). f_equal. destruct pl; unfold set, update; cbn in *. f_equal. rewrite wraps_id by (unfold fits_s; lia). lia.
    + rewrite Z.min_r in * by lia. rewrite wraps_id by (unfold fits_s; lia). f_equal. destruct pl; unfold set, update; cbn in *. f_equal. rewrite wraps_id by (unfold fits_s; lia). lia.
Qed.
Lemma wound_run source d pl : small d -> small (Player.health pl) -> small (Player.armorpoints pl) -> small (Player.damagecount pl) ->
  wound source (d - share d pl) (pl <| Player.armortype := if Player.armorpoints pl <=? portion d pl then 0 else Player.armortype pl |> <| Player.armorpoints := Player.armorpoints pl - share d pl |>) = struck source d pl.
Proof.
  unfold small. intros Hd Hh Ha Hc. pose proof (share_bounds d pl ltac:(lia) ltac:(lia)) as Hs. unfold wound, struck. generalize (if Player.armorpoints pl <=? portion d pl then 0 else Player.armortype pl). intros t.
  set (s := share d pl) in *. clearbody s. change (Player.health (_ <| Player.armorpoints := _ |>)) with (Player.health pl). change (Player.damagecount (_ <| Player.armorpoints := _ |>)) with (Player.damagecount pl).
  rewrite !wraps_id by (unfold fits_s; lia).
  replace (if Player.health pl - (d - s) <? 0 then 0 else Player.health pl - (d - s)) with (Z.max 0 (Player.health pl - (d - s))) by (destruct (_ <? 0) eqn:E; breflect; lia).
  replace (if Player.damagecount pl + (d - s) >? 100 then 100 else Player.damagecount pl + (d - s)) with (Z.min 100 (Player.damagecount pl + (d - s))) by (destruct (_ >? 100) eqn:E; breflect; lia).
  reflexivity.
Qed.
Lemma hurt_player_run target source j damage p m pl sec : thing_at target p = Ret m -> victim p m j pl sec -> small (Mobj.health m) -> small damage ->
  0 < Mobj.health m ->
  let d := if (secspecial sec =? 11) && (damage >=? Mobj.health m) then Mobj.health m - 1 else damage in
  hurt_player target source j damage p =
  Ret (if (d <? 1000) && protected pl then (None, p) else (Some (d - share d pl), put_player j (struck source d pl) p)).
Proof.
  intros Em [Epl Eu [x Ex] Hh Ha Hc] Hm Hd H0 d. unfold small in *. unfold hurt_player. rewrite Em. cbn [obind]. rewrite Eu. cbn [obind].
  assert (Ed : (if (secspecial sec =? 11) && (damage >=? Mobj.health m) then i32 (Mobj.health m - 1) else damage) = d) by (unfold d; rewrite wraps_id by (unfold fits_s; lia); done).
  rewrite Ed, Epl. cbn [obind]. assert (Esafe : (if d <? 1000 then invulnerable pl else Ret false) = Ret ((d <? 1000) && protected pl)).
  { destruct (d <? 1000); [|done]. unfold invulnerable. rewrite Ex. cbn [obind andb]. unfold protected. change (of_option (Player.powers pl !! 0%nat) = Ret x) in Ex. destruct (Player.powers pl !! 0%nat) as [y|] eqn:Ey; cbn in Ex; [by injection Ex as ->|done]. }
  rewrite Esafe. cbn [obind]. destruct ((d <? 1000) && protected pl); [reflexivity|]. assert (Hds : small d) by (unfold small, d; destruct (Z.eqb_spec (secspecial sec) 11) as [E|E]; [destruct (damage >=? _) eqn:Eg; breflect; cbn [andb]; lia|cbn [andb]; lia]).
  rewrite absorb_run by done. by rewrite wound_run.
Qed.
(** Nothing pushes the thing: no other thing inflicts the damage, the thing passes
    through everything, or it is hit by a player with a chainsaw. *)
Definition spared source inflictor m p : Prop := inflictor = 0 \/ has_flag (Mobj.flags m) MF_NOCLIP = true \/
  exists ms k pl, source <> 0 /\ thing_at source p = Ret ms /\ Mobj.player ms = Some k /\ get_player k p = Ret pl /\ Player.readyweapon pl = wp_chainsaw.
(** The momentum [v] after the push, and the random numbers [s]. *)
Definition shove source inflictor damage m p (v : Z * Z * Z) (s : rnd_state) : Prop :=
  (spared source inflictor m p -> v = momentum m /\ s = rnd (client p)) /\
  (~ spared source inflictor m p -> forall mi i, thing_at inflictor p = Ret mi -> info_of m = Ret i -> kicked damage m mi i (rnd (client p)) v s).
Lemma pushes_run target source inflictor m p : hit_ok target inflictor source m p ->
  exists b, pushes source inflictor m p = Ret b /\ if b then ~ spared source inflictor m p else spared source inflictor m p.
Proof.
  intros [_ _ _ Hs _]. unfold pushes, spared. destruct (Z.eqb_spec inflictor 0) as [E|E]; [exists false; auto|]. cbn [orb].
  destruct (has_flag (Mobj.flags m) MF_NOCLIP) eqn:En; [exists false; auto|]. unfold player_of.
  destruct (Z.eqb_spec source 0) as [Es|Es].
  { exists true. split; [done|]. by intros [?|[?|(? & ? & ? & ? & _)]]. }
  destruct (Hs Es) as (ms & Ems & Hp). rewrite Ems. cbn [obind]. destruct (Mobj.player ms) as [k|] eqn:Ek.
  - destruct (Hp k eq_refl) as (pl & Epl). rewrite Epl. cbn [obind]. eexists. split; [reflexivity|]. destruct (Z.eqb_spec (Player.readyweapon pl) wp_chainsaw) as [Ew|Ew]; cbn [negb].
    + right. right. by exists ms, k, pl.
    + intros [?|[?|(ms' & k' & pl' & _ & E1 & E2 & E3 & E4)]]; [done|done|]. assert (ms' = ms) as -> by congruence. assert (k' = k) as -> by congruence. congruence.
  - exists true. split; [done|]. intros [?|[?|(ms' & k' & pl' & _ & E1 & E2 & _)]]; [done|done|]. assert (ms' = ms) as -> by congruence. congruence.
Qed.
Lemma shoved_not target m p : thing_at target p = Ret m -> shoved target m (momentum m) (rnd (client p)) p = p.
Proof.
  intros Em. apply thing_lookup in Em. unfold shoved, put_thing. replace (with_momentum (momentum m) m) with m by (by destruct m). destruct p as [? ? ? w ? ? ? t]. destruct t, w. unfold set; cbn in *. by rewrite insert_id.
Qed.
(** What was hit is pushed, or not; then the hit follows. *)
Lemma push_part target source inflictor damage m p : hit_ok target inflictor source m p ->
  exists v s, (let* pushed := pushes source inflictor m p in if pushed : bool then push target inflictor damage p else Ret p) = Ret (shoved target m v s p) /\
    shove source inflictor damage m p v s.
Proof.
  intros H. pose proof H as [Em [i Ei] Hi _ _]. destruct (pushes_run _ _ _ _ _ H) as (b & -> & Hb). cbn [obind]. destruct b.
  - destruct (Hi ltac:(intros E; apply Hb; by left)) as (mi & Emi). destruct (push_target_run target inflictor damage p m mi i Em Emi Ei) as (v & s & E & Hk). exists v, s. split; [exact E|].
    split; [done|]. intros _ mi' i' Emi' Ei'. assert (mi' = mi) as -> by congruence. assert (i' = i) as -> by congruence. exact Hk.
  - exists (momentum m), (rnd (client p)). rewrite (shoved_not _ _ _ Em). split; [done|]. split; [done|]. by intros Hn.
Qed.
Lemma put_other target m m' p b mb : thing_at target p = Ret m -> thing_at b p = Ret mb ->
  exists mb', thing_at b (put_thing target m' p) = Ret mb' /\ (mb = m /\ mb' = m' \/ b <> target /\ mb' = mb).
Proof.
  intros Em Eb. destruct (decide (b = target)) as [->|Hn]; [exists m'; split; [apply put_at|left; split; [congruence|done]]|]. exists mb. split; [|by right].
  apply thing_lookup. apply thing_lookup in Eb. change (<[target := m']> (mobjs (pl p)) !! b = Some mb). by rewrite lookup_insert_ne.
Qed.
Lemma hit_ok_put target inflictor source m m' p : hit_ok target inflictor source m p -> Mobj.info m' = Mobj.info m -> Mobj.health m' = Mobj.health m -> Mobj.player m' = Mobj.player m ->
  hit_ok target inflictor source m' (put_thing target m' p).
Proof.
  intros [Em [i Ei] Hi Hs Hh] E1 E2 E3.
  assert (Hat : forall b mb, thing_at b p = Ret mb -> exists mb', thing_at b (put_thing target m' p) = Ret mb' /\ Mobj.player mb' = Mobj.player mb).
  { intros b mb Eb. destruct (put_other target m m' p b mb Em Eb) as (mb' & E & [[-> ->]|[_ ->]]); eauto. }
  split; [apply put_at|exists i; unfold info_of in *; by rewrite E1| | |by rewrite E2].
  - intros Hz. destruct (Hi Hz) as (mi & Emi). destruct (Hat _ _ Emi) as (mb & E & _). by exists mb.
  - intros Hz. destruct (Hs Hz) as (ms & Ems & Hp). destruct (Hat _ _ Ems) as (mb & E & Epb). exists mb. split; [exact E|]. intros k Ek. rewrite Epb in Ek. destruct (Hp k Ek) as (pl & Epl). by exists pl.
Qed.
Lemma strike_run target source d m p : thing_at target p = Ret m -> small (Mobj.health m) -> - 2 ^ 20 <= d <= 2 ^ 20 ->
  (let* p := upd_thing target (fun m => m <| Mobj.health ::= fun h => i32 (h - d) |>) p in
   let* m := thing_at target p in
   if Mobj.health m <=? 0 then P_KillMobj source target p
   else
     let* p := in_pain target p in
     let* p := upd_thing target (fun m => m <| Mobj.reactiontime := 0 |>) p in
     chase target source p) = strike target source d m p.
Proof.
  unfold small. intros Em Hh Hd. rewrite (upd_thing_run _ _ _ _ Em). cbn [obind]. rewrite put_at. cbn [obind]. unfold strike.
  assert (E : m <| Mobj.health ::= fun h => i32 (h - d) |> = m <| Mobj.health := Mobj.health m - d |>) by (destruct m; unfold set, update; cbn in *; by rewrite wraps_id by (unfold fits_s; lia)).
  rewrite E. reflexivity.
Qed.
(** A charging skull stops when it is hit. *)
Definition stopped m : Mobj.mobj_t := if has_flag (Mobj.flags m) MF_SKULLFLY then m <| Mobj.momx := 0 |> <| Mobj.momy := 0 |> <| Mobj.momz := 0 |> else m.
Lemma spared_put source inflictor target m m' p : thing_at target p = Ret m -> Mobj.flags m' = Mobj.flags m -> Mobj.player m' = Mobj.player m ->
  spared source inflictor m' (put_thing target m' p) <-> spared source inflictor m' p.
Proof.
  intros Em Ef Ep. unfold spared. assert (H : forall k pl, (exists ms, source <> 0 /\ thing_at source (put_thing target m' p) = Ret ms /\ Mobj.player ms = Some k /\ get_player k p = Ret pl /\ Player.readyweapon pl = wp_chainsaw) <->
    (exists ms, source <> 0 /\ thing_at source p = Ret ms /\ Mobj.player ms = Some k /\ get_player k p = Ret pl /\ Player.readyweapon pl = wp_chainsaw)).
  { intros k q. split; intros (ms & H0 & E1 & E2 & H3).
    - destruct (decide (source = target)) as [->|Hn]; [rewrite put_at in E1; injection E1 as <-; exists m; by rewrite <- Ep|].
      exists ms. split_and!; try apply H3; try done. apply thing_lookup in E1. apply thing_lookup. change (<[target := m']> (mobjs (pl p)) !! source = Some ms) in E1. by rewrite lookup_insert_ne in E1.
    - destruct (put_other target m m' p source ms Em E1) as (mb & E & Hmb). exists mb. split_and!; try apply H3; try done. destruct Hmb as [[-> ->]|[_ ->]]; [by rewrite Ep|done]. }
  change (get_player ?k (put_thing target m' p)) with (get_player k p).
  split; (intros [?|[?|(ms & k & pl & H')]]; [by left|by right; left|right; right]); destruct (H k pl) as [H1 H2]; [destruct (H1 (ex_intro _ ms H')) as [ms' ?]|destruct (H2 (ex_intro _ ms H')) as [ms' ?]]; by exists ms', k, pl.
Qed.
(** The start of a hit: a charging skull stops, and the thing is pushed. *)
Lemma start_hit_run target inflictor source damage m p : hit_ok target inflictor source m p -> exists v s,
  (let* p := if has_flag (Mobj.flags m) MF_SKULLFLY
             then upd_thing target (fun m => m <| Mobj.momx := 0 |> <| Mobj.momy := 0 |> <| Mobj.momz := 0 |>) p else Ret p in
   let* pushed := pushes source inflictor m p in if pushed : bool then push target inflictor damage p else Ret p) = Ret (shoved target m v s p) /\
  shove source inflictor damage (stopped m) p v s.
Proof.
  intros H. pose proof (ht_thing _ _ _ _ _ H) as Em. unfold stopped. destruct (has_flag (Mobj.flags m) MF_SKULLFLY) eqn:Ef; [|cbn [obind]; exact (push_part target source inflictor damage m p H)].
  rewrite (upd_thing_run _ _ _ _ Em). cbn [obind]. set (m0 := m <| Mobj.momx := 0 |> <| Mobj.momy := 0 |> <| Mobj.momz := 0 |>).
  assert (H0 : hit_ok target inflictor source m0 (put_thing target m0 p)) by (by apply (hit_ok_put target inflictor source m)).
  destruct (push_part target source inflictor damage m0 _ H0) as (v & s & E & Hv). change (pushes source inflictor m0 ?q) with (pushes source inflictor m q) in E.
  exists v, s. split.
  - rewrite E. f_equal. unfold shoved. change (on_tm ?f (put_thing target m0 p)) with (put_thing target m0 (on_tm f p)). rewrite put_put. by destruct m.
  - pose proof (spared_put source inflictor target m m0 p Em eq_refl eq_refl) as Hsp. destruct Hv as [Hv1 Hv2]. change (rnd (client (put_thing target m0 p))) with (rnd (client p)) in *.
    split; [intros Hs; apply Hv1; by apply Hsp|]. intros Hn mi i Emi Ei. specialize (Hv2 ltac:(intros Hs; apply Hn; by apply Hsp)).
    destruct (put_other target m m0 p inflictor mi Em Emi) as (mi' & Emi' & [[-> ->]|[_ ->]]); [|exact (Hv2 mi i Emi' Ei)]. exact (Hv2 m0 i Emi' Ei).
Qed.

End damage.

(** The damage of a telefrag overflows the integer in which the thrust is computed. *)
Lemma telefrag_overflows : 10000 * Z.shiftr FRACUNIT 3 * 100 > INT_MAX /\ i32 (i32 (10000 * Z.shiftr FRACUNIT 3) * 100) = -397934592.
Proof. split; vm_compute; reflexivity. Qed.

(** ** Weapons *)
Section weapons.
Context {D : Type} {st : Settings} {bh : Behaviour D}.
Implicit Types (p : oworld D) (i : Z) (pos : nat) (pl : Player.player_t) (x : PspDef.pspdef_t).

Definition weapon_states (w : weaponinfo_t) : list Z := [upstate w; downstate w; readystate w; atkstate w; flashstate w].
Lemma weapons_in_states : Forall (fun w => Forall is_state (weapon_states w)) weaponinfo.
Proof. apply (bool_decide_unpack _). by vm_compute. Qed.
Definition sprite_ok x : Prop := match PspDef.state x with Some s => is_state s | None => True end.
(** The sprite rests: it is off, or in a state with tics left. *)
Definition at_rest x : Prop := PspDef.state x = None \/ PspDef.tics x <> 0.
(** What the functions of the states of weapons promise: they go through for a
    player of the game, and leave the sprite at rest, or as it was in a state
    without tics. *)
Class WeaponLaws : Prop := weapon_law d i pos p x s : get_psp i pos p = Ret x -> PspDef.state x = Some s -> is_state s ->
  exists p' x', weapon_action d i pos p = Ret p' /\ get_psp i pos p' = Ret x' /\ (at_rest x' \/ PspDef.tics x = 0 /\ PspDef.tics x' = 0 /\ PspDef.state x' = Some s) /\ sprite_ok x'.
Lemma get_put_player i pl pl' p : get_player i p = Ret pl -> get_player i (put_player i pl' p) = Ret pl'.
Proof.
  unfold get_player, at_place, put_player. destruct (i <? 0); [done|]. change (players (ob (on_ob ?f p))) with (players (f (ob p))).
  destruct (players (ob p) !! Z.to_nat i) eqn:E; [|done]. intros _. cbn. by rewrite list_lookup_insert_eq by (by eapply lookup_lt_Some).
Qed.
Lemma upd_psp_run i pos f p x : get_psp i pos p = Ret x -> exists p', upd_psp i pos f p = Ret p' /\ get_psp i pos p' = Ret (f x).
Proof.
  intros E. unfold upd_psp. rewrite E. cbn [obind]. unfold get_psp in E. destruct (get_player i p) as [pl| | |] eqn:Ep; try done. cbn [obind] in E. unfold upd_player. rewrite Ep. cbn [obind].
  eexists. split; [reflexivity|]. unfold get_psp. rewrite (get_put_player _ pl) by done. cbn [obind]. destruct (Player.psprites pl !! pos) eqn:Es; [|done]. cbn in *. by rewrite list_lookup_insert_eq by (by eapply lookup_lt_Some).
Qed.
Context {wlaws : WeaponLaws}.
Definition settled i pos p : Prop := exists x, get_psp i pos p = Ret x /\ at_rest x /\ sprite_ok x.
Lemma sprite_null fuel i pos p x : get_psp i pos p = Ret x -> exists p', set_psprite fuel i pos 0 p = Ret p' /\ settled i pos p'.
Proof.
  intros E. destruct (upd_psp_run i pos (fun x => x <| PspDef.state := None |>) p x E) as (p' & Eu & E'). exists p'. split; [destruct fuel; exact Eu|]. eexists. split; [exact E'|]. split; [by left|done].
Qed.
(** One turn of the loop: it ends, or goes on with the state after [s]. *)
Lemma sprite_round fuel i pos s p x d : get_psp i pos p = Ret x -> s <> 0 -> is_state s -> state_at s = Ret d ->
  (exists p', set_psprite fuel i pos s p = Ret p' /\ settled i pos p') \/
  (exists p1 x1, State.tics d = 0 /\ get_psp i pos p1 = Ret x1 /\ set_psprite fuel i pos s p = match fuel with O => NoFuel | S fuel => set_psprite fuel i pos (State.nextstate d) p1 end).
Proof.
  intros Ex H0 Hs Ed. destruct (upd_psp_run i pos (enter_sprite s d) p x Ex) as (p0 & E0 & Ex0). set (x0 := enter_sprite s d x) in *.
  assert (Est : PspDef.state x0 = Some s /\ PspDef.tics x0 = State.tics d) by (unfold x0, enter_sprite; by destruct (_ =? 0)). destruct Est as [Est Et].
  assert (Er : set_psprite fuel i pos s p = let* p := (if bool_decide (State.action d = NULL) then Ret p0 else weapon_action (State.action d) i pos p0) in
    let* x := get_psp i pos p in match PspDef.state x with
      | None => if bool_decide (State.action d = NULL) then Undef else Ret p
      | Some s => let* d := state_at s in if PspDef.tics x =? 0 then match fuel with O => NoFuel | S fuel => set_psprite fuel i pos (State.nextstate d) p end else Ret p end)
    by (destruct fuel; cbn [set_psprite]; by rewrite (proj2 (Z.eqb_neq _ _) H0), Ed; cbn [obind]; rewrite E0).
  rewrite Er. clear Er. case_bool_decide as Ea; cbn [obind].
  - rewrite Ex0. cbn [obind]. rewrite Est, Ed. cbn [obind]. destruct (Z.eqb_spec (PspDef.tics x0) 0) as [Hz|Hz]; [right; exists p0, x0; split_and!; [congruence|done|done]|].
    left. exists p0. split; [done|]. exists x0. split; [done|]. split; [by right|]. unfold sprite_ok. by rewrite Est.
  - destruct (weapon_law (State.action d) i pos p0 x0 s Ex0 Est Hs) as (p1 & x1 & -> & Ex1 & Hx1 & Hok). cbn [obind]. rewrite Ex1. cbn [obind].
    destruct (PspDef.state x1) as [s1|] eqn:Es1; [|left; exists p1; split; [done|]; exists x1; split; [done|]; split; [by left|done]].
    assert (Hs1 : is_state s1) by (unfold sprite_ok in Hok; by rewrite Es1 in Hok). destruct (state_at_run s1 Hs1) as (d1 & Ed1 & _). rewrite Ed1. cbn [obind].
    destruct (Z.eqb_spec (PspDef.tics x1) 0) as [Hz|Hz]; [|left; exists p1; split; [done|]; exists x1; split; [done|]; split; [by right|done]].
    right. exists p1, x1. destruct Hx1 as [[H|H]|(Ht0 & _ & Hss)]; [congruence|done|]. assert (d1 = d) as -> by congruence. split_and!; [congruence|done|done].
Qed.
Lemma SetPsprite_run i pos s p x : get_psp i pos p = Ret x -> is_state s -> exists p', P_SetPsprite i pos s p = Ret p' /\ settled i pos p'.
Proof.
  intros Ex Hs. unfold P_SetPsprite. change (length states) with (S 966). generalize 966%nat. intros fuel. destruct (decide (s = 0)) as [->|H0]; [by eapply sprite_null|].
  destruct (state_at_run s Hs) as (d & Ed & El). destruct (sprite_round (S fuel) i pos s p x d Ex H0 Hs Ed) as [H|(p1 & x1 & Et & Ex1 & ->)]; [done|].
  pose proof (proj1 (Forall_lookup _ _) (proj2 named_states) _ _ El) as Hn. destruct (decide (State.nextstate d = 0)) as [->|Hn0]; [by eapply sprite_null|].
  destruct (proj1 (Forall_lookup _ _) states_lead_on _ _ El Et) as [H|(d' & Ed' & Ht')]; [done|]. destruct (state_at_run _ Hn) as (d2 & Ed2 & El2). assert (d2 = d') as -> by congruence.
  destruct (sprite_round fuel i pos _ p1 x1 d' Ex1 Hn0 Hn Ed2) as [H|(p2 & x2 & Et2 & _)]; [done|congruence].
Qed.

(** A player with all that P_CheckAmmo reads. *)
Record armed i p pl : Prop := {
  ar_player : get_player i p = Ret pl;
  ar_ready : 0 <= Player.readyweapon pl < Z.of_nat NUMWEAPONS;
  ar_owned : length (Player.weaponowned pl) = NUMWEAPONS;
  ar_ammo : length (Player.ammo pl) = NUMAMMO;
  ar_some : Forall (fun n => 0 <= n) (Player.ammo pl);
  ar_sprite : exists x, Player.psprites pl !! ps_weapon = Some x
}.
(** The ammunition of a weapon that a player has, if the weapon needs any. *)
Definition loaded pl (w : Z) : option Z := wi ← weaponinfo !! Z.to_nat w; if winfo_ammo wi =? am_noammo then None else Player.ammo pl !! Z.to_nat (winfo_ammo wi).
(** There is enough for one shot: the BFG takes 40 cells, the super shotgun two
    shells. *)
Definition per_shot (w : Z) : Z := if w =? wp_bfg then 40 else if w =? wp_supershotgun then 2 else 1.
Definition enough pl (w : Z) : bool := match loaded pl w with None => true | Some n => n >=? per_shot w end.
Definition owned pl (w : Z) : bool := match Player.weaponowned pl !! Z.to_nat w with Some x => truth x | None => false end.
(** The order in which a weapon is looked for, and what it has to have more than:
    for two weapons that is what one shot costs. *)
Definition preferences : list Z := [wp_plasma; wp_supershotgun; wp_chaingun; wp_shotgun; wp_pistol; wp_chainsaw; wp_missile; wp_bfg; wp_fist].
Definition wanted (w : Z) : Z := if w =? wp_supershotgun then 2 else if w =? wp_bfg then 40 else 0.
Definition in_edition (w : Z) : bool :=
  if w =? wp_supershotgun then gamemode =? commercial else if (w =? wp_plasma) || (w =? wp_bfg) then negb (gamemode =? shareware) else true.
Definition choosable pl (w : Z) : bool :=
  (owned pl w || (w =? wp_pistol) || (w =? wp_fist)) && (match loaded pl w with None => true | Some n => n >? wanted w end) && in_edition w.
Lemma can_fire_run i p pl : armed i p pl -> can_fire pl = Ret (enough pl (Player.readyweapon pl)).
Proof.
  intros [_ Hr _ Ha _ _]. unfold can_fire, weapon_at, at_place, enough, loaded. rewrite (proj2 (Z.ltb_ge _ _)) by lia.
  destruct (lookup_lt_is_Some_2 weaponinfo (Z.to_nat (Player.readyweapon pl))) as [wi Ew]; [change (length weaponinfo) with NUMWEAPONS; lia|]. rewrite Ew. cbn [of_option obind option_bind mbind].
  destruct (Z.eqb_spec (winfo_ammo wi) am_noammo) as [E|E]; [done|].
  assert (Hw : winfo_ammo wi = am_noammo \/ 0 <= winfo_ammo wi < 4).
  { assert (H : Forall (fun wi => winfo_ammo wi = am_noammo \/ 0 <= winfo_ammo wi < 4) weaponinfo) by (apply (bool_decide_unpack _); by vm_compute). exact (proj1 (Forall_lookup _ _) H _ _ Ew). }
  destruct Hw as [Hw|Hw]; [done|]. unfold get. rewrite (proj2 (Z.ltb_ge _ _)) by lia. change NUMAMMO with 4%nat in Ha.
  destruct (lookup_lt_is_Some_2 (Player.ammo pl) (Z.to_nat (winfo_ammo wi))) as [n ->]; [lia|]. done.
Qed.
Lemma next_weapon_run i p pl : armed i p pl -> exists w, next_weapon pl = Ret w /\ List.find (choosable pl) preferences = Some w.
Proof.
  intros [_ _ Ho Ha Hp _]. unfold next_weapon, choosable, owned, loaded, preferences, owns, has_more, has_some, both, in_edition.
  destruct (Player.weaponowned pl) as [|o0 [|o1 [|o2 [|o3 [|o4 [|o5 [|o6 [|o7 [|o8 [|]]]]]]]]]]; try done. destruct (Player.ammo pl) as [|a0 [|a1 [|a2 [|a3 [|]]]]]; try done.
  clear Ho Ha. assert (Hn : forall a, 0 <= a -> (a >? 0) = truth a) by (intros a H; unfold truth; destruct (Z.gtb_spec a 0), (Z.eqb_spec a 0); cbn; lia).
  apply Forall_cons in Hp as [H0 Hp]. apply Forall_cons in Hp as [H1 Hp]. apply Forall_cons in Hp as [H2 Hp]. apply Forall_cons in Hp as [H3 _]. apply Hn in H0, H1, H2, H3.
  generalize (gamemode =? shareware) (gamemode =? commercial). intros e1 e2. cbv -[Z.gtb truth]. rewrite H0, H1, H2, H3.
  repeat (let b := match goal with |- context [if ?b then _ else _] => match b with context [if _ then _ else _] => fail 1 | _ => b end end in destruct b; cbv -[Z.gtb truth]; try by eexists).
Qed.
Lemma choosable_enough pl w : choosable pl w = true -> enough pl w = true /\ (owned pl w = true \/ w = wp_pistol \/ w = wp_fist).
Proof.
  unfold choosable. intros H. apply andb_true_iff in H as [H _]. apply andb_true_iff in H as [Ho Hn]. split.
  - unfold enough. destruct (loaded pl w) as [n|]; [|done]. unfold wanted, per_shot in *. breflect. destruct (Z.eqb_spec w wp_supershotgun) as [->|E1]; [cbn in *; lia|]. destruct (Z.eqb_spec w wp_bfg) as [->|E2]; lia.
  - apply orb_true_iff in Ho as [Ho|Ho]; [|right; right; by apply Z.eqb_eq]. apply orb_true_iff in Ho as [Ho|Ho]; [by left|right; left; by apply Z.eqb_eq].
Qed.

(** C17: P_CheckAmmo says yes, and changes nothing, exactly when there is enough for
    a shot of the weapon in hand. Otherwise the player changes to the first weapon in
    the order of preference that is owned (pistol and fist always are), has
    ammunition and is part of the edition: another one than that in hand, which can
    be fired at once. The weapon in hand goes down, and its sprite comes to rest. *)
Theorem P_CheckAmmo_correct i p pl : armed i p pl ->
  if enough pl (Player.readyweapon pl) then P_CheckAmmo i p = Ret (true, p)
  else exists w p', List.find (choosable pl) preferences = Some w /\ w <> Player.readyweapon pl /\ enough pl w = true /\ (owned pl w = true \/ w = wp_pistol \/ w = wp_fist) /\
    P_CheckAmmo i p = Ret (false, p') /\ P_DropWeapon i (put_player i (pl <| Player.pendingweapon := w |>) p) = Ret p' /\ settled i ps_weapon p'.
Proof.
  intros H. pose proof H as [Epl Hr Ho Ha Hp [x Ex]]. unfold P_CheckAmmo. rewrite Epl. cbn [obind]. rewrite (can_fire_run i p pl H). cbn [obind].
  destruct (enough pl (Player.readyweapon pl)) eqn:Ee; [done|]. destruct (next_weapon_run i p pl H) as (w & -> & Ef). cbn [obind].
  unfold upd_player. rewrite Epl. cbn [obind]. set (pl1 := pl <| Player.pendingweapon := w |>). set (p1 := put_player i pl1 p).
  assert (Epl1 : get_player i p1 = Ret pl1) by (by apply (get_put_player i pl)).
  assert (Ex1 : get_psp i ps_weapon p1 = Ret x) by (unfold get_psp; rewrite Epl1; cbn [obind]; change (Player.psprites pl1) with (Player.psprites pl); by rewrite Ex).
  assert (Hd : exists p', P_DropWeapon i p1 = Ret p' /\ settled i ps_weapon p').
  { unfold P_DropWeapon. rewrite Epl1. cbn [obind]. change (Player.readyweapon pl1) with (Player.readyweapon pl). unfold weapon_at, at_place. rewrite (proj2 (Z.ltb_ge _ _)) by lia.
    destruct (lookup_lt_is_Some_2 weaponinfo (Z.to_nat (Player.readyweapon pl))) as [wi Ew]; [change (length weaponinfo) with NUMWEAPONS; lia|]. rewrite Ew. cbn [of_option obind].
    apply (SetPsprite_run i ps_weapon _ p1 x Ex1). pose proof (proj1 (Forall_lookup _ _) weapons_in_states _ _ Ew) as Hs. rewrite Forall_forall in Hs. apply Hs. right. left. }
  destruct Hd as (p' & Ed & Hset). rewrite Ed. cbn [obind]. destruct (List.find_some _ _ Ef) as [_ Hc]. destruct (choosable_enough pl w Hc) as [He Hw].
  exists w, p'. split_and!; [done| |done|done|done|done|done]. intros ->. congruence.
Qed.
(** Two shells are a shot of the super shotgun, and forty cells one of the BFG, but
    with exactly these neither is chosen. *)
Lemma last_shot_not_chosen pl : (loaded pl wp_supershotgun = Some 2 -> enough pl wp_supershotgun = true /\ choosable pl wp_supershotgun = false) /\
  (loaded pl wp_bfg = Some 40 -> enough pl wp_bfg = true /\ choosable pl wp_bfg = false).
Proof. split; intros E; unfold enough, choosable; rewrite E; split; [reflexivity|by rewrite andb_false_r|reflexivity|by rewrite andb_false_r]. Qed.
End weapons.

(** ** Witnesses *)

(** The room of [ThingDemo] with a player: a shotgun without shells in hand, a
    chaingun with bullets, and green armour. *)
Module FighterDemo.
Definition fighter : Player.player_t :=
  Player.mk 16 0 (TicCmd.mk 0 0 0 0 0 0 0 0 0 0) 0 0 0 0 100 90 1 (replicate NUMPOWERS 0) (replicate NUMCARDS 0) 0 (replicate MAXPLAYERS 0) wp_shotgun 10 [1; 1; 1; 1; 0; 0; 0; 0; 0]
    [20; 0; 0; 0] [200; 50; 300; 50] 0 0 0 0 0 0 0 0 0 0 0 0 0 0 (replicate NUMPSPRITES (PspDef.mk (Some 18) 1 0 0)) 0.
Definition body : Mobj.mobj_t := RoomDemo.mover <| Mobj.flags := MF_SHOOTABLE |> <| Mobj.health := 100 |> <| Mobj.info := 8192 |> <| Mobj.player := Some 0 |>.
Definition world : oworld unit := put_player 0 fighter (put_thing 16 body (on_ob (fun o => o <| players := [fighter] |>) ThingDemo.world)).
Lemma wlaws : WeaponLaws (bh := ThingDemo.bh).
Proof.
  intros d i pos p x s Ex Es Hs. exists p, x. split; [done|]. split; [done|]. split; [|unfold sprite_ok; by rewrite Es].
  destruct (decide (PspDef.tics x = 0)) as [H|H]; [right; by split_and!|left; by right].
Qed.
Lemma fighter_armed : armed 0 world fighter.
Proof. split; [reflexivity|split; vm_compute; [discriminate|reflexivity]|reflexivity|reflexivity|repeat (constructor; [vm_compute; discriminate|]); constructor|eexists; reflexivity]. Qed.
Lemma body_hit : hit_ok (st := ThingDemo.st) 16 0 0 body world.
Proof. split; [reflexivity|eexists; vm_compute; reflexivity|done|done|split; vm_compute; discriminate]. Qed.
Lemma body_victim : victim (bsp := SmallMap.bsp) world body 0 fighter RoomDemo.room0.
Proof. split; [reflexivity|vm_compute; reflexivity|eexists; reflexivity|..]; split; vm_compute; discriminate. Qed.
End FighterDemo.
Lemma P_CheckAmmo_correct_witness : exists p', P_CheckAmmo (st := ThingDemo.st) (bh := ThingDemo.bh) 0 FighterDemo.world = Ret (false, p') /\ List.find (choosable (st := ThingDemo.st) FighterDemo.fighter) preferences = Some wp_chaingun.
Proof.
  destruct (P_CheckAmmo_correct (st := ThingDemo.st) (bh := ThingDemo.bh) (wlaws := FighterDemo.wlaws) 0 FighterDemo.world FighterDemo.fighter FighterDemo.fighter_armed) as (w & p' & Ef & _ & _ & _ & E & _ & _).
  exists p'. split; [exact E|]. vm_compute. reflexivity.
Defined.
