(* ===== verification/Thinkers.v ===== *)
(** * Thinkers (src/commands/doom/p_tick.c) and the lists of active movers

    The list behind [thinkercap] is the list [thinkers] of the game: each
    object with its address. Next to it [activeceilings] and [activeplats]
    (p_ceilng.c, p_plats.c) have the addresses of the movers that can be
    stopped and started again, 0 for a free slot. *)
From S2P Require Import Prelude GameTypes.
#[local] Open Scope doom_scope.

Definition thing_thinker (t : thing) : Thinker.thinker_t :=
  match t with
  | TMobj m => Mobj.thinker m
  | TCeiling c => Ceiling.thinker c
  | TDoor d => VlDoor.thinker d
  | TFloor f => FloorMove.thinker f
  | TPlat p => Plat.thinker p
  | TFlash f => LightFlash.thinker f
  | TStrobe s => Strobe.thinker s
  | TGlow g => Glow.thinker g
  | TFlicker f => FireFlicker.thinker f
  end.
Definition thing_function (t : thing) : Z := Thinker.function (thing_thinker t).

Definition with_thinker (th : thing) (t : Thinker.thinker_t) : thing :=
  match th with
  | TMobj m => TMobj (m <| Mobj.thinker := t |>)
  | TCeiling c => TCeiling (c <| Ceiling.thinker := t |>)
  | TDoor d => TDoor (d <| VlDoor.thinker := t |>)
  | TFloor f => TFloor (f <| FloorMove.thinker := t |>)
  | TPlat p => TPlat (p <| Plat.thinker := t |>)
  | TFlash f => TFlash (f <| LightFlash.thinker := t |>)
  | TStrobe s => TStrobe (s <| Strobe.thinker := t |>)
  | TGlow g => TGlow (g <| Glow.thinker := t |>)
  | TFlicker f => TFlicker (f <| FireFlicker.thinker := t |>)
  end.

(** The sector that a mover moves. *)
Definition mover_sector (th : thing) : option Z :=
  match th with
  | TCeiling c => Some (Ceiling.sector c)
  | TDoor d => Some (VlDoor.sector d)
  | TFloor f => Some (FloorMove.sector f)
  | TPlat p => Some (Plat.sector p)
  | _ => None
  end.

(** The function that an object thinks with. *)
Definition thing_action (th : thing) : action :=
  match th with
  | TMobj _ => P_MobjThinker
  | TCeiling _ => T_MoveCeiling
  | TDoor _ => T_VerticalDoor
  | TFloor _ => T_MoveFloor
  | TPlat _ => T_PlatRaise
  | TFlash _ => T_LightFlash
  | TStrobe _ => T_StrobeFlash
  | TGlow _ => T_Glow
  | TFlicker _ => T_FireFlicker
  end.
Definition P_InitThinkers (g : game) : game := g <| thinkers := [] |>.
(** [P_AddThinker]: the new object goes behind the last one. *)
Definition P_AddThinker (a : Z) (th : thing) (g : game) : game :=
  g <| thinkers ::= fun l => l ++ [(a, th)] |>.

(** [sector->specialdata = self] *)
Definition set_specialdata (sector self : Z) (g : game) : outcome game :=
  if sector <? 0 then Undef else
  match sectors g !! Z.to_nat sector with
  | Some sec => Ret (g <| sectors ::= <[Z.to_nat sector := sec <| Sector.specialdata := self |>]> |>)
  | None => Undef
  end.

(** The first free slot of an array of pointers, if there is one. *)
Fixpoint first_free (l : list Z) (p : Z) : option (list Z) :=
  match l with
  | [] => None
  | x :: l => if x =? 0 then Some (p :: l)
              else match first_free l p with Some l' => Some (x :: l') | None => None end
  end.
Definition P_AddActiveCeiling (c : Z) (g : game) : game :=
  match first_free (activeceilings g) c with
  | Some l => g <| activeceilings := l |>
  | None => g
  end.
Definition P_AddActivePlat (p : Z) (g : game) : outcome game :=
  match first_free (activeplats g) p with
  | Some l => Ret (g <| activeplats := l |>)
  | None => Fatal "P_AddActivePlat: no more plats!"
  end.

(** [thinker.function.acp1 = (actionf_p1) ...] *)
Definition set_function {im : Image} (a : action) (t : Thinker.thinker_t) : Thinker.thinker_t :=
  t <| Thinker.function := fn_addr a |>.

(** ** Objects by address *)
Fixpoint thing_in (a : Z) (l : list (Z * thing)) : option thing :=
  match l with
  | [] => None
  | (b, th) :: l => if b =? a then Some th else thing_in a l
  end.
Definition thing_at (a : Z) (g : game) : option thing := thing_in a (thinkers g).
Definition put_thing (a : Z) (th : thing) (g : game) : game :=
  g <| thinkers ::= fmap (fun x => if x.1 =? a then (a, th) else x) |>.

(** The addresses in order. In a list of thinkers they are those of distinct
    objects. *)
Definition addresses (g : game) : list Z := fst <$> thinkers g.
Definition addrs_ok (g : game) : Prop := NoDup (addresses g) /\ 0 ∉ addresses g.

(** [(actionf_v)(-1)] marks an object for removal. *)
Definition removed {A : Arch} : Z := wrapu word_bits (-1).
Definition P_RemoveThinker {A : Arch} (a : Z) (g : game) : outcome game :=
  let* th := of_option (thing_at a g) in
  Ret (put_thing a (with_thinker th ((thing_thinker th) <| Thinker.function := removed |>)) g).

(** The objects of the level that are not movers all think with
    [P_MobjThinker], or are marked for removal. *)
Definition actors_ok {A : Arch} {im : Image} (g : game) : Prop := forall a m, thing_at a g = Some (TMobj m) ->
  thing_function (TMobj m) = fn_addr P_MobjThinker \/ thing_function (TMobj m) = removed.

(** [activeplats[i] = NULL] for the first slot that has the plat. *)
Fixpoint clear_slot (l : list Z) (p : Z) : option (list Z) :=
  match l with
  | [] => None
  | x :: l => if x =? p then Some (0 :: l)
              else match clear_slot l p with Some l' => Some (x :: l') | None => None end
  end.

(** ** Lemmas *)
Lemma thing_in_put a b th l :
  thing_in b ((fun x => if x.1 =? a then (a, th) else x) <$> l) =
    if b =? a then (match thing_in a l with Some _ => Some th | None => None end) else thing_in b l.
Proof.
  induction l as [|[c th'] l IH]; cbn [fmap list_fmap thing_in fst]; [by destruct (b =? a)|].
  destruct (c =? a) eqn:E1; breflect.
  - subst c. cbn [thing_in]. destruct (b =? a) eqn:E2; breflect.
    + subst b. by rewrite Z.eqb_refl.
    + rewrite (proj2 (Z.eqb_neq a b)) by congruence. exact IH.
  - cbn [thing_in]. destruct (c =? b) eqn:E3; breflect; [|exact IH].
    subst c. by rewrite (proj2 (Z.eqb_neq b a)).
Qed.

Lemma thing_at_put a b th g : thing_at b (put_thing a th g) =
  if b =? a then (match thing_at a g with Some _ => Some th | None => None end) else thing_at b g.
Proof. apply thing_in_put. Qed.

Lemma addresses_put a th g : addresses (put_thing a th g) = addresses g.
Proof.
  unfold addresses, put_thing. cbn. rewrite <- list_fmap_compose. apply list_fmap_ext. intros i [b t] _. cbn.
  destruct (b =? a) eqn:E; breflect; by subst.
Qed.
Lemma thing_at_put_same a th g th' : thing_at a g = Some th' -> thing_at a (put_thing a th g) = Some th.
Proof. intros E. by rewrite thing_at_put, Z.eqb_refl, E. Qed.

Lemma thing_in_app a l l' : thing_in a (l ++ l') = match thing_in a l with Some th => Some th | None => thing_in a l' end.
Proof. induction l as [|[b th] l IH]; cbn; [done|]. by destruct (b =? a). Qed.

Lemma thing_in_fresh a l : a ∉ fst <$> l -> thing_in a l = None.
Proof.
  induction l as [|[b th] l IH]; [done|]. cbn. rewrite not_elem_of_cons. intros [H1 H2].
  rewrite (proj2 (Z.eqb_neq b a)) by congruence. by apply IH.
Qed.

Lemma thing_at_add a th g : a ∉ fst <$> thinkers g -> thing_at a (P_AddThinker a th g) = Some th.
Proof.
  intros H. unfold thing_at, P_AddThinker. cbn. rewrite thing_in_app, (thing_in_fresh a) by done. cbn.
  by rewrite Z.eqb_refl.
Qed.

(** A new object that was filled in. *)
Lemma thing_at_new self th0 th g a : self ∉ addresses g ->
  thing_at a (put_thing self th (P_AddThinker self th0 g)) = if a =? self then Some th else thing_at a g.
Proof.
  intros Hf. rewrite thing_at_put, thing_at_add by done. destruct (a =? self) eqn:E; breflect; [done|].
  unfold thing_at, P_AddThinker. cbn. rewrite thing_in_app. cbn. rewrite (proj2 (Z.eqb_neq self a)) by congruence.
  by destruct (thing_in a (thinkers g)).
Qed.

Lemma clear_slot_some l p : p ∈ l -> exists l', clear_slot l p = Some l' /\ length l' = length l.
Proof.
  induction l as [|x l IH]; intros H; [by apply elem_of_nil in H|]. cbn. destruct (x =? p) eqn:E; breflect; [by eexists|].
  apply elem_of_cons in H as [->|H]; [done|]. destruct (IH H) as (l' & -> & Hl). eexists. split; [done|]. cbn. by f_equal.
Qed.

(** A plat sits in one slot, so that clearing it removes it. *)
Lemma clear_slot_gone l p l' : p <> 0 -> clear_slot l p = Some l' -> NoDup (filter (fun x => x <> 0) l) ->
  p ∉ l' /\ forall q, q <> p -> q ∈ l -> q ∈ l'.
Proof.
  intros Hp. revert l'. induction l as [|x l IH]; intros l' E Hnd; cbn in E; [done|]. destruct (x =? p) eqn:Ex; breflect.
  - subst x. injection E as <-. rewrite filter_cons_True in Hnd by done. apply NoDup_cons in Hnd as [Hn _]. split.
    + rewrite not_elem_of_cons. split; [done|]. intros Hin. apply Hn. by apply list_elem_of_filter.
    + intros q Hq [->|Hin]%elem_of_cons; [done|by right].
  - destruct (clear_slot l p) as [l2|] eqn:E2; [|done]. injection E as <-.
    assert (Hnd' : NoDup (filter (fun x => x <> 0) l)).
    { destruct (decide (x = 0)) as [->|Hx]; [by rewrite filter_cons_False in Hnd by lia|].
      rewrite filter_cons_True in Hnd by done. by apply NoDup_cons in Hnd as [_ Hnd]. }
    destruct (IH l2 eq_refl Hnd') as [I1 I2]. split; [by rewrite not_elem_of_cons|].
    intros q Hq [->|Hin]%elem_of_cons; [by left|right; by apply I2].
Qed.

(** ** The slots of the active lists *)
Definition slots (l : list Z) : nat := length (filter (fun x => x = 0) l).

#[global] Arguments slots : simpl never.

Lemma first_free_some l p : p <> 0 -> (0 < slots l)%nat ->
  exists l', first_free l p = Some l' /\ slots l = S (slots l') /\ p ∈ l' /\ forall x, x <> 0 -> x ∈ l -> x ∈ l'.
Proof.
  unfold slots. intros Hp. induction l as [|x l IH]; cbn [first_free]; [cbn; lia|]. destruct (x =? 0) eqn:E; breflect.
  - subst x. intros _. exists (p :: l). rewrite filter_cons_True, filter_cons_False by done.
    split_and!; try done; [left|].
    intros y Hy Hin. apply elem_of_cons in Hin as [->|Hin]; [done|by right].
  - rewrite filter_cons_False by done. intros H. destruct (IH H) as (l' & -> & Hs & Hin & Hk).
    exists (x :: l'). rewrite filter_cons_False by done. split_and!; try done; [by right|].
    intros y Hy Hy'. apply elem_of_cons in Hy' as [->|Hy']; [left|right; auto].
Qed.

Lemma first_free_keeps l p l' x : first_free l p = Some l' -> x ∈ l -> x <> 0 -> x ∈ l'.
Proof.
  revert l'. induction l as [|y l IH]; intros l' E Hx Hz; cbn in E; [done|]. destruct (y =? 0) eqn:Ey; breflect.
  - injection E as <-. apply elem_of_cons in Hx as [->|Hx]; [done|by right].
  - destruct (first_free l p) as [l2|]; [|done]. injection E as <-. apply elem_of_cons in Hx as [->|Hx]; [left|right; by apply IH].
Qed.
Lemma first_free_full l p : slots l = 0%nat -> first_free l p = None.
Proof.
  unfold slots. induction l as [|x l IH]; cbn [first_free]; [done|]. destruct (x =? 0) eqn:E; breflect.
  - subst x. rewrite filter_cons_True by done. done.
  - rewrite filter_cons_False by done. intros Hl. by rewrite IH.
Qed.

(** An address that no object of a list has. *)
Definition fresh_address (l : list (Z * thing)) : Z := foldr (fun x m => Z.max x.1 m) 0 l + 1.

Lemma fresh_address_new l : fresh_address l <> 0 /\ fresh_address l ∉ fst <$> l.
Proof.
  unfold fresh_address. assert (H : 0 <= foldr (fun x m => Z.max x.1 m) 0 l /\
    forall a, a ∈ fst <$> l -> a <= foldr (fun x m => Z.max x.1 m) 0 l).
  { induction l as [|x l [IH1 IH2]]; cbn; [split; [lia|]; by intros a ?%elem_of_nil|].
    split; [lia|]. intros a Ha. apply elem_of_cons in Ha as [->|Ha]; [lia|]. specialize (IH2 a Ha). lia. }
  destruct H as [H1 H2]. split; [lia|]. intros Hin. specialize (H2 _ Hin). lia.
Qed.
