(* ===== verification/SaveIO.v ===== *)
(** * Reading and writing a savegame: the byte stream
      (src/commands/doom/p_saveg.c, first part)

    The code reads and writes through [save_stream] and the flag
    [savegame_error]; a computation is a function on the state [sg] of both
    and of the game. *)
From S2P Require Import Prelude Stdio.
#[local] Open Scope doom_scope.

(** [junk] is what an uninitialised byte holds, one value per use. *)
Record sg (F G : Type) : Type := mk_sg {
  save_stream : F; errno : Z; savegame_error : bool; junk : nat -> Z; gs : G }.
Arguments mk_sg {F G} _ _ _ _ _.
Arguments save_stream {F G} _.
Arguments errno {F G} _.
Arguments savegame_error {F G} _.
Arguments junk {F G} _.
Arguments gs {F G} _.

Section io.
Context {A : Arch} {F G : Type} {ops : FdOps F}.

Definition io (T : Type) : Type := sg F G -> outcome (T * sg F G).
Definition ret {T} (a : T) : io T := fun s => Ret (a, s).
Definition bind {T U} (m : io T) (k : T -> io U) : io U :=
  fun s => let* '(a, s) := m s in k a s.
Definition fail {T} (msg : string) : io T := fun _ => Fatal msg.
Definition undef {T} : io T := fun _ => Undef.
Definition get_gs : io G := fun s => Ret (gs s, s).
Definition set_gs (g : G) : io unit :=
  fun s => Ret (tt, mk_sg (save_stream s) (errno s) (savegame_error s) (junk s) g).
End io.
Arguments io : clear implicits.

Declare Scope io_scope.
Delimit Scope io_scope with io.
Notation "x <- m ; k" := (bind m (fun x => k))
  (at level 100, m at next level, right associativity) : io_scope.
Notation "m ;; k" := (bind m (fun _ => k)) (at level 100, right associativity) : io_scope.
#[local] Open Scope io_scope.

Section saveg.
Context {A : Arch} {F G : Type} {ops : FdOps F}.
Abbreviation M := (io F G).

Definition saveg_read8 : M Z := fun s =>
  let '(n, bs, f, e) := fread 1 1 (save_stream s) (errno s) in
  let '(result, jk) :=
    match bs with
    | b :: _ => (u8 b, junk s)
    | [] => (u8 (junk s 0%nat), fun n => junk s (S n))
    end in
  let err := if n <? 1 then true else savegame_error s in
  Ret (result, mk_sg f e err jk (gs s)).

Definition saveg_write8 (value : Z) : M unit := fun s =>
  let '(n, f, e) := fwrite [u8 value] 1 1 (save_stream s) (errno s) in
  let err := if n <? 1 then true else savegame_error s in
  Ret (tt, mk_sg f e err (junk s) (gs s)).

Definition saveg_read16 : M Z :=
  result <- saveg_read8;
  b <- saveg_read8;
  let result := Z.lor result (Z.shiftl b 8) in
  ret (i16 result).

Definition saveg_write16 (value : Z) : M unit :=
  let value := i16 value in
  saveg_write8 (Z.land value 0xff);;
  saveg_write8 (Z.land (Z.shiftr value 8) 0xff).

Definition saveg_read32 : M Z :=
  result <- saveg_read8;
  b <- saveg_read8;
  let result := Z.lor result (Z.shiftl b 8) in
  b <- saveg_read8;
  let result := Z.lor result (Z.shiftl b 16) in
  b <- saveg_read8;
  let result := Z.lor result (i32 (Z.shiftl b 24)) in
  ret result.

Definition saveg_write32 (value : Z) : M unit :=
  let value := i32 value in
  saveg_write8 (Z.land value 0xff);;
  saveg_write8 (Z.land (Z.shiftr value 8) 0xff);;
  saveg_write8 (Z.land (Z.shiftr value 16) 0xff);;
  saveg_write8 (Z.land (Z.shiftr value 24) 0xff).

(** The padding at the current position, from [ftell]. *)
Definition pad_bytes : M nat := fun s =>
  let '(pos, f, e) := ftell (save_stream s) (errno s) in
  let pos := wrapu word_bits pos in
  let padding := Z.land (4 - Z.land pos 3) 3 in
  Ret (Z.to_nat padding, mk_sg f e (savegame_error s) (junk s) (gs s)).

Fixpoint read_times (n : nat) : M unit :=
  match n with O => ret tt | S n => _ <- saveg_read8; read_times n end.
Fixpoint write_zeros (n : nat) : M unit :=
  match n with O => ret tt | S n => saveg_write8 0;; write_zeros n end.

Definition saveg_read_pad : M unit := n <- pad_bytes; read_times n.
Definition saveg_write_pad : M unit := n <- pad_bytes; write_zeros n.

(** A pointer is saved as its low 32 bits and read back sign extended. *)
Definition saveg_readp : M Z := v <- saveg_read32; ret (wrapu word_bits v).
Definition saveg_writep (p : Z) : M unit := saveg_write32 (i32 p).

Definition saveg_read_enum : M Z := saveg_read32.
Definition saveg_write_enum : Z -> M unit := saveg_write32.

(** The loops over the elements of an array of the given length. *)
Fixpoint write_array {T} (w : T -> M unit) (n : nat) (l : list T) : M unit :=
  match n, l with
  | O, _ => ret tt
  | S n, v :: l => w v;; write_array w n l
  | S _, [] => undef
  end.
Fixpoint read_array {T} (r : M T) (n : nat) : M (list T) :=
  match n with
  | O => ret []
  | S n => v <- r; l <- read_array r n; ret (v :: l)
  end.
End saveg.

(** ** Codecs

    [writes w bs]: at the end of the file [w] appends the bytes [bs], which
    may depend on the position. [reads r bs a h]: where the file has those
    bytes [r] consumes exactly them, returns [a] and changes the game by
    [h]. Both leave the error flag alone. *)
Section codec.
Context {A : Arch} {F G : Type} {ops : FdOps F} {view : F -> fview} {reg : RegularFile F view}.
Abbreviation M := (io F G).

Definition writes (w : M unit) (bs : nat -> list Z) : Prop :=
  forall s d (p l : nat), view (save_stream s) = mk_view d p l -> p = length d ->
    (p + length (bs p) <= l)%nat ->
    exists f', w s = Ret (tt, mk_sg f' (errno s) (savegame_error s) (junk s) (gs s)) /\
      view f' = mk_view (d ++ bs p) (p + length (bs p)) l.

Definition reads {T} (r : M T) (bs : nat -> list Z) (a : T) (h : G -> G) : Prop :=
  forall s pre post (l : nat),
    view (save_stream s) = mk_view (pre ++ bs (length pre) ++ post) (length pre) l ->
    (length pre + length (bs (length pre)) <= l)%nat ->
    exists f', r s = Ret (a, mk_sg f' (errno s) (savegame_error s) (junk s) (h (gs s))) /\
      view f' = mk_view (pre ++ bs (length pre) ++ post) (length pre + length (bs (length pre))) l.

(** [cod n w r a h]: from what [w] writes, at most [n] bytes, [r] makes [a] and [h]. *)
Definition cod {T} (n : nat) (w : M unit) (r : M T) (a : T) (h : G -> G) : Prop :=
  exists bs, (forall p, length (bs p) <= n)%nat /\ writes w bs /\ reads r bs a h.

Lemma cod_le {T} n m w (r : M T) a h : cod n w r a h -> (n <= m)%nat -> cod m w r a h.
Proof. intros (bs & N & W & R) Hle. exists bs. split_and!; try done. intros p. specialize (N p). lia. Qed.

Definition seq_bytes (b1 b2 : nat -> list Z) : nat -> list Z :=
  fun p => b1 p ++ b2 (p + length (b1 p))%nat.

Lemma seq_bytes_le n1 n2 b1 b2 :
  (forall p, length (b1 p) <= n1)%nat -> (forall p, length (b2 p) <= n2)%nat ->
  forall p, (length (seq_bytes b1 b2 p) <= n1 + n2)%nat.
Proof.
  intros H1 H2 p. unfold seq_bytes. rewrite length_app. specialize (H1 p). specialize (H2 (p + length (b1 p))%nat). lia.
Qed.

Lemma writes_ret : writes (ret tt) (fun _ => []).
Proof.
  intros s d p l Hv Hp Hl. exists (save_stream s). cbn. rewrite app_nil_r, Nat.add_0_r. by destruct s.
Qed.

Lemma reads_ret {T} (a : T) : reads (ret a) (fun _ => []) a (fun g => g).
Proof. intros s pre post l Hv Hl. exists (save_stream s). cbn. rewrite Nat.add_0_r. by destruct s. Qed.

Lemma writes_bind w1 w2 b1 b2 : writes w1 b1 -> writes w2 b2 ->
  writes (w1;; w2) (seq_bytes b1 b2).
Proof.
  intros H1 H2 s d p l Hv Hp Hl. unfold seq_bytes in *. rewrite length_app in *.
  destruct (H1 s d p l Hv Hp) as (f1 & E1 & V1); [lia|].
  destruct (H2 (mk_sg f1 (errno s) (savegame_error s) (junk s) (gs s)) _ _ _ V1) as (f2 & E2 & V2); [rewrite length_app; lia|lia|].
  exists f2. unfold bind. rewrite E1. cbn [obind]. rewrite E2. split; [done|].
  by rewrite V2, app_assoc, Nat.add_assoc.
Qed.

Lemma reads_bind {T U} (r : M T) (k : T -> M U) a b b1 b2 h1 h2 :
  reads r b1 a h1 -> reads (k a) b2 b h2 ->
  reads (x <- r; k x) (seq_bytes b1 b2) b (fun g => h2 (h1 g)).
Proof.
  intros H1 H2 s pre post l Hv Hl. unfold seq_bytes in *. rewrite length_app in *.
  set (x := b1 (length pre)) in *. set (y := b2 (length pre + length x)%nat) in *.
  rewrite <- app_assoc in Hv. destruct (H1 s pre (y ++ post) l Hv) as (f1 & E1 & V1); [fold x; lia|]. fold x in V1.
  rewrite app_assoc, <- length_app in V1.
  destruct (H2 (mk_sg f1 (errno s) (savegame_error s) (junk s) (h1 (gs s))) (pre ++ x) post l) as (f2 & E2 & V2).
  { cbn. rewrite V1. f_equal. by rewrite length_app. }
  { rewrite length_app. fold y. lia. }
  exists f2. unfold bind. rewrite E1. cbn [obind]. rewrite E2. split; [done|].
  rewrite V2, length_app. fold y. f_equal; [by rewrite <- !app_assoc|lia].
Qed.

Lemma cod_ret {T} (a : T) : cod 0 (ret tt) (ret a) a (fun g => g).
Proof. exists (fun _ => []). split_and!; [done|apply writes_ret|apply reads_ret]. Qed.

Lemma cod_bind_gs {T U} n1 n2 w1 w2 (r : M T) (k : T -> M U) a b h1 h2 :
  cod n1 w1 r a h1 -> cod n2 w2 (k a) b h2 -> cod (n1 + n2) (w1;; w2) (x <- r; k x) b (fun g => h2 (h1 g)).
Proof.
  intros (b1 & N1 & W1 & R1) (b2 & N2 & W2 & R2). exists (seq_bytes b1 b2).
  split_and!; [by apply seq_bytes_le|by apply writes_bind|by eapply reads_bind].
Qed.

Lemma cod_bind {T U} n1 n2 w1 w2 (r : M T) (k : T -> M U) a b h :
  cod n1 w1 r a (fun g => g) -> cod n2 w2 (k a) b h -> cod (n1 + n2) (w1;; w2) (x <- r; k x) b h.
Proof. apply cod_bind_gs. Qed.

Lemma cod_last {T U} n w (r : M T) (k : T -> M U) a b h :
  cod n w r a h -> k a = ret b -> cod n w (x <- r; k x) b h.
Proof.
  intros (b1 & N1 & W1 & R1) Hk. exists b1. split_and!; [done|done|]. intros s pre post l Hv Hl.
  destruct (R1 s pre post l Hv Hl) as (f & E & V). exists f. unfold bind. rewrite E. cbn [obind].
  by rewrite Hk.
Qed.

(** What is written depends on the writer only up to pointwise equality. *)
Lemma cod_ext {T} n w w' (r r' : M T) a h : (forall s, w s = w' s) -> (forall s, r s = r' s) ->
  cod n w r a h -> cod n w' r' a h.
Proof.
  intros Hw Hr (bs & N & W & R). exists bs. split_and!; [done| |].
  - intros s. rewrite <- Hw. apply W.
  - intros s. rewrite <- Hr. apply R.
Qed.

(** A part of the game state the reader changes without reading. *)
Lemma cod_gs {T} n w (r : M T) a h h' : cod n w r a h -> (forall g, h g = h' g) -> cod n w r a h'.
Proof.
  intros (bs & N & W & R) H. exists bs. split_and!; [done|done|]. intros s pre post l Hv. rewrite <- H. by apply R.
Qed.

(** ** Bytes *)
Lemma count_one e : errno_wrap (Z.of_nat 1) e = (1, e) /\ count_of (i32 1) 1 = 1.
Proof.
  split; [done|]. unfold count_of. change (i32 1) with 1. cbn [Z.ltb Z.compare]. rewrite Z.div_1_r.
  apply wrapu_small. unfold INT_MAX. lia.
Qed.

Lemma writes8 v : writes (saveg_write8 v) (fun _ => [u8 v]).
Proof.
  intros s d p l Hv Hp Hl. cbn in Hl.
  destruct (append_law (save_stream s) [u8 v]) as (f & Ef & Vf); [by rewrite Hv|rewrite Hv; cbn; lia|].
  unfold saveg_write8, fwrite. change (1 * 1) with 1. rewrite wrapu_small by (unfold INT_MAX; lia).
  change (take (Z.to_nat 1) [u8 v]) with [u8 v].
  exists f. rewrite Ef. destruct (count_one (errno s)) as [E1 E2]. cbn [length].
  rewrite E1, E2. split; [done|]. by rewrite Vf, Hv.
Qed.

Lemma reads8 v : reads saveg_read8 (fun _ => [u8 v]) (u8 v) (fun g => g).
Proof.
  intros s pre post l Hv Hl.
  destruct (read_law (save_stream s) 1 ltac:(lia)) as (f & Ef & Vf). rewrite Hv in Ef, Vf. cbn in Ef, Vf.
  rewrite drop_app_length in Ef, Vf.
  change (take (Z.to_nat 1) (u8 v :: post)) with [u8 v] in Ef, Vf. cbn [length] in Ef, Vf.
  unfold saveg_read8, fread. change (1 * 1) with 1. rewrite wrapu_small by (unfold INT_MAX; lia).
  exists f. rewrite Ef. destruct (count_one (errno s)) as [E1 E2].
  rewrite E1, E2. cbn [Z.ltb Z.compare Pos.compare Pos.compare_cont].
  rewrite (wrapu_id 8 (u8 v)) by (by apply wrapu_range). done.
Qed.

Lemma cod8 v : cod 1 (saveg_write8 v) saveg_read8 (u8 v) (fun g => g).
Proof. exists (fun _ => [u8 v]). split_and!; [cbn; lia|apply writes8|apply reads8]. Qed.

(** ** Words *)
Lemma lor_shift a b n : 0 <= n -> 0 <= a < 2 ^ n -> Z.lor a (Z.shiftl b n) = a + b * 2 ^ n.
Proof.
  intros Hn Ha. rewrite <- Z.lxor_lor.
  - rewrite <- Z.add_nocarry_lxor, Z.shiftl_mul_pow2; try done.
    rewrite <- (Z.mod_small a (2 ^ n)), <- Z.land_ones, <- Z.land_assoc by done.
    apply Z.bits_inj'. intros k Hk. rewrite !Z.land_spec, Z.testbit_ones, Z.shiftl_spec, Z.bits_0 by done.
    destruct (Z.ltb_spec k n); [|by rewrite (proj2 (Z.leb_le _ _) Hk), ?andb_false_r, ?andb_false_l].
    rewrite (Z.testbit_neg_r b) by lia. by rewrite !andb_false_r.
  - rewrite <- (Z.mod_small a (2 ^ n)), <- Z.land_ones, <- Z.land_assoc by done.
    apply Z.bits_inj'. intros k Hk. rewrite !Z.land_spec, Z.testbit_ones, Z.shiftl_spec, Z.bits_0 by done.
    destruct (Z.ltb_spec k n); [|by rewrite (proj2 (Z.leb_le _ _) Hk), ?andb_false_r, ?andb_false_l].
    rewrite (Z.testbit_neg_r b) by lia. by rewrite !andb_false_r.
Qed.

Lemma byte_of v k : 0 <= k -> u8 (Z.land (Z.shiftr v k) 0xff) = (v / 2 ^ k) mod 256.
Proof.
  intros Hk. change 0xff with (Z.ones 8). rewrite Z.land_ones, Z.shiftr_div_pow2 by lia.
  unfold wrapu. by rewrite Zmod_mod.
Qed.

Lemma byte0_of v : u8 (Z.land v 0xff) = v mod 256.
Proof.
  change 0xff with (Z.ones 8). rewrite Z.land_ones by lia. unfold wrapu. by rewrite Zmod_mod.
Qed.

Lemma join16 v :
  i16 (Z.lor (v mod 256) (Z.shiftl ((v / 256) mod 256) 8)) = i16 v.
Proof.
  rewrite lor_shift by (pow2; zlia). apply wraps_congr. pow2. zlia.
Qed.

Lemma signed_byte_shift b : 0 <= b < 256 -> i32 (Z.shiftl b 24) = Z.shiftl (i8 b) 24.
Proof.
  intros Hb. rewrite !Z.shiftl_mul_pow2 by lia. unfold wraps. cbn -[Z.modulo Z.mul]. pow2. zlia.
Qed.

Lemma join32 v :
  Z.lor (Z.lor (Z.lor (v mod 256) (Z.shiftl ((v / 256) mod 256) 8))
           (Z.shiftl ((v / 65536) mod 256) 16))
    (i32 (Z.shiftl ((v / 16777216) mod 256) 24)) = i32 v.
Proof.
  rewrite signed_byte_shift by (apply Z.mod_pos_bound; lia).
  rewrite (lor_shift _ _ 8) by (pow2; zlia). rewrite (lor_shift _ _ 16) by (pow2; zlia).
  rewrite (lor_shift _ _ 24) by (pow2; zlia).
  pow2. set (b3 := (v / 16777216) mod 256).
  assert (H8 : exists q, i8 b3 = b3 + q * 256 /\ -128 <= i8 b3 < 128).
  { pose proof (wraps_range 8 b3 ltac:(lia)) as Hr. unfold fits_s in Hr. cbn in Hr.
    pose proof (wraps_mod 8 b3 ltac:(lia)) as Hm. pow2. exists ((i8 b3 - b3) / 256). zlia. }
  destruct H8 as (q & Hq & Hr). rewrite <- (wraps_id 32 (_ + _)); [|lia|unfold fits_s; cbn; zlia].
  apply wraps_congr. pow2. rewrite Hq. unfold b3. zlia.
Qed.

Lemma cod16 v : cod 2 (saveg_write16 v) saveg_read16 (i16 v) (fun g => g).
Proof.
  unfold saveg_write16, saveg_read16. assert (Hw : i16 (i16 v) = i16 v) by (by apply wraps_wraps).
  set (w := i16 v) in *. clearbody w.
  eapply (cod_bind 1 1); [apply cod8|]. eapply cod_last; [apply cod8|].
  cbv beta zeta. rewrite byte0_of, byte_of by lia. change (2 ^ 8) with 256. by rewrite join16, Hw.
Qed.

Lemma cod32 v : cod 4 (saveg_write32 v) saveg_read32 (i32 v) (fun g => g).
Proof.
  unfold saveg_write32, saveg_read32. assert (Hw : i32 (i32 v) = i32 v) by (by apply wraps_wraps).
  set (w := i32 v) in *. clearbody w.
  eapply (cod_bind 1 3); [apply cod8|]; cbv beta zeta. eapply (cod_bind 1 2); [apply cod8|]; cbv beta zeta.
  eapply (cod_bind 1 1); [apply cod8|]; cbv beta zeta. eapply cod_last; [apply cod8|].
  cbv beta zeta. rewrite byte0_of, !byte_of by lia. change (2 ^ 8) with 256.
  change (2 ^ 16) with 65536. change (2 ^ 24) with 16777216. by rewrite join32, Hw.
Qed.

(** The address that a saved pointer comes back as. *)
Definition ptr32 (p : Z) : Z := wrapu word_bits (i32 p).

Lemma codp p : cod 4 (saveg_writep p) saveg_readp (ptr32 p) (fun g => g).
Proof.
  unfold saveg_writep, saveg_readp. eapply cod_last; [apply cod32|]. unfold ptr32.
  by rewrite wraps_wraps by lia.
Qed.

Lemma cod_enum v : cod 4 (saveg_write_enum v) saveg_read_enum (i32 v) (fun g => g).
Proof. apply cod32. Qed.

(** ** Padding *)
Definition padding (p : nat) : nat := ((4 - p mod 4) mod 4)%nat.

Lemma pad_bytes_run (s : sg F G) d (p l : nat) : view (save_stream s) = mk_view d p l -> (p <= l)%nat ->
  exists f', pad_bytes s = Ret (padding p, mk_sg f' (errno s) (savegame_error s) (junk s) (gs s)) /\
    view f' = mk_view d p l.
Proof.
  intros Hv Hl. destruct (tell_law (save_stream s)) as (f & Ef & Vf). rewrite Hv in Ef, Vf.
  exists f. split; [|done]. unfold pad_bytes, ftell. rewrite Ef. cbn [fpos]. unfold errno_wrap.
  replace (Z.of_nat p >=? 0) with true by (symmetry; rewrite Z.geb_leb; apply Z.leb_le; lia).
  pose proof (limit_int (save_stream s)) as Hlim. rewrite Hv in Hlim. cbn in Hlim.
  rewrite wrapu_small by lia. repeat f_equal. change 3 with (Z.ones 2).
  rewrite !Z.land_ones by lia. unfold padding. pow2.
  apply Nat2Z.inj. rewrite Z2Nat.id by (apply Z.mod_pos_bound; lia).
  rewrite Nat2Z.inj_mod, Nat2Z.inj_sub by (pose proof (Nat.mod_upper_bound p 4); lia).
  by rewrite Nat2Z.inj_mod.
Qed.

Lemma writes_zeros n : writes (write_zeros n) (fun _ => replicate n 0).
Proof.
  induction n as [|n IH]; [apply writes_ret|]. cbn [write_zeros].
  apply (writes_bind _ _ (fun _ => [0]) (fun _ => replicate n 0)); [apply (writes8 0)|done].
Qed.

Lemma reads_zeros n : reads (read_times n) (fun _ => replicate n 0) tt (fun g => g).
Proof.
  induction n as [|n IH]; [apply reads_ret|]. cbn [read_times].
  apply (reads_bind saveg_read8 (fun _ => read_times n) 0 tt (fun _ => [0]) (fun _ => replicate n 0)
    (fun g => g) (fun g => g)); [apply (reads8 0)|done].
Qed.

Lemma cod_pad : cod 3 saveg_write_pad saveg_read_pad tt (fun g => g).
Proof.
  exists (fun p => replicate (padding p) 0). split_and!.
  - intros p. rewrite length_replicate. unfold padding. pose proof (Nat.mod_upper_bound (4 - p mod 4) 4). lia.
  - intros s d p l Hv Hp Hl. destruct (pad_bytes_run s d p l Hv) as (f & Ef & Vf); [lia|].
    unfold saveg_write_pad, bind. rewrite Ef. cbn [obind].
    destruct (writes_zeros (padding p) (mk_sg f (errno s) (savegame_error s) (junk s) (gs s)) d p l Vf Hp Hl)
      as (f' & E' & V'). by exists f'.
  - intros s pre post l Hv Hl. destruct (pad_bytes_run s _ _ l Hv) as (f & Ef & Vf); [lia|].
    unfold saveg_read_pad, bind. rewrite Ef. cbn [obind].
    destruct (reads_zeros (padding (length pre))
      (mk_sg f (errno s) (savegame_error s) (junk s) (gs s)) pre post l Vf Hl) as (f' & E' & V').
    by exists f'.
Qed.

(** ** Arrays *)
Lemma cod_array {T} m (w : T -> M unit) (r : M T) (v : T -> T) n l :
  (forall x, x ∈ l -> cod m (w x) r (v x) (fun g => g)) -> length l = n ->
  cod (n * m) (write_array w n l) (read_array r n) (v <$> l) (fun g => g).
Proof.
  intros Hw <-. induction l as [|x l IH]; cbn; [apply cod_ret|].
  eapply cod_bind; [apply Hw; left|]. eapply cod_last; [apply IH|done].
  intros y Hy. apply Hw. by right.
Qed.
End codec.
