(* ===== verification/SaveStructs.v ===== *)
(** * Savegames: the structures (src/commands/doom/p_saveg.c, middle part)

    One reader and one writer per C structure, field by field in the order of
    the code. A reader that sets every field of its argument returns the new
    structure; one that leaves fields alone takes the old one. *)
From S2P Require Import Prelude Stdio GameTypes SaveIO.
#[local] Open Scope doom_scope.
#[local] Open Scope io_scope.

Section structs.
Context {A : Arch} {F : Type} {ops : FdOps F}.
Abbreviation M := (io F game).

(** [mapthing_t] *)
Definition saveg_read_mapthing_t : M MapThing.mapthing_t :=
  x <- saveg_read16;
  y <- saveg_read16;
  angle <- saveg_read16;
  type <- saveg_read16;
  options <- saveg_read16;
  ret (MapThing.mk x y angle type options).

Definition saveg_write_mapthing_t (str : MapThing.mapthing_t) : M unit :=
  saveg_write16 (MapThing.x str);;
  saveg_write16 (MapThing.y str);;
  saveg_write16 (MapThing.angle str);;
  saveg_write16 (MapThing.type str);;
  saveg_write16 (MapThing.options str).

(** [actionf_t] and [think_t]: a function pointer *)
Definition saveg_read_actionf_t : M Z := saveg_readp.
Definition saveg_write_actionf_t (str : Z) : M unit := saveg_writep str.
Definition saveg_read_think_t : M Z := saveg_read_actionf_t.
Definition saveg_write_think_t : Z -> M unit := saveg_write_actionf_t.

(** [thinker_t] *)
Definition saveg_read_thinker_t : M Thinker.thinker_t :=
  prev <- saveg_readp;
  next <- saveg_readp;
  function <- saveg_read_think_t;
  ret (Thinker.mk prev next function).

Definition saveg_write_thinker_t (str : Thinker.thinker_t) : M unit :=
  saveg_writep (Thinker.prev str);;
  saveg_writep (Thinker.next str);;
  saveg_write_think_t (Thinker.function str).

(** [players[i].mo = self], on an array of [MAXPLAYERS] elements. *)
Definition player_mo_set (i self : Z) (g : game) : game :=
  g <| players ::= alter (fun p => p <| Player.mo := self |>) (Z.to_nat i) |>.
Definition set_player_mo (i self : Z) : M unit :=
  if (0 <=? i) && (i <? Z.of_nat MAXPLAYERS)
  then g <- get_gs; set_gs (player_mo_set i self g)
  else undef.

(** [mobj_t]; [self] is the address of the structure that is read into. The
    state is saved as its number, the player as its number plus one. *)
Definition saveg_read_mobj_t (self : Z) : M Mobj.mobj_t :=
  thinker <- saveg_read_thinker_t;
  x <- saveg_read32;
  y <- saveg_read32;
  z <- saveg_read32;
  snext <- saveg_readp;
  sprev <- saveg_readp;
  angle <- saveg_read32; let angle := u32 angle in
  sprite <- saveg_read_enum;
  frame <- saveg_read32;
  bnext <- saveg_readp;
  bprev <- saveg_readp;
  subsector <- saveg_readp;
  floorz <- saveg_read32;
  ceilingz <- saveg_read32;
  radius <- saveg_read32;
  height <- saveg_read32;
  momx <- saveg_read32;
  momy <- saveg_read32;
  momz <- saveg_read32;
  validcount <- saveg_read32;
  type <- saveg_read_enum;
  info <- saveg_readp;
  tics <- saveg_read32;
  state <- saveg_read32;
  flags <- saveg_read32;
  health <- saveg_read32;
  movedir <- saveg_read32;
  movecount <- saveg_read32;
  target <- saveg_readp;
  reactiontime <- saveg_read32;
  threshold <- saveg_read32;
  pl <- saveg_read32;
  player <- (if pl >? 0 then set_player_mo (pl - 1) self;; ret (Some (pl - 1)) else ret None);
  lastlook <- saveg_read32;
  spawnpoint <- saveg_read_mapthing_t;
  tracer <- saveg_readp;
  ret (Mobj.mk thinker x y z snext sprev angle sprite frame bnext bprev subsector floorz ceilingz
         radius height momx momy momz validcount type info tics state flags health movedir
         movecount target reactiontime threshold player lastlook spawnpoint tracer).

Definition saveg_write_mobj_t (str : Mobj.mobj_t) : M unit :=
  saveg_write_thinker_t (Mobj.thinker str);;
  saveg_write32 (Mobj.x str);;
  saveg_write32 (Mobj.y str);;
  saveg_write32 (Mobj.z str);;
  saveg_writep (Mobj.snext str);;
  saveg_writep (Mobj.sprev str);;
  saveg_write32 (Mobj.angle str);;
  saveg_write_enum (Mobj.sprite str);;
  saveg_write32 (Mobj.frame str);;
  saveg_writep (Mobj.bnext str);;
  saveg_writep (Mobj.bprev str);;
  saveg_writep (Mobj.subsector str);;
  saveg_write32 (Mobj.floorz str);;
  saveg_write32 (Mobj.ceilingz str);;
  saveg_write32 (Mobj.radius str);;
  saveg_write32 (Mobj.height str);;
  saveg_write32 (Mobj.momx str);;
  saveg_write32 (Mobj.momy str);;
  saveg_write32 (Mobj.momz str);;
  saveg_write32 (Mobj.validcount str);;
  saveg_write_enum (Mobj.type str);;
  saveg_writep (Mobj.info str);;
  saveg_write32 (Mobj.tics str);;
  saveg_write32 (Mobj.state str);;
  saveg_write32 (Mobj.flags str);;
  saveg_write32 (Mobj.health str);;
  saveg_write32 (Mobj.movedir str);;
  saveg_write32 (Mobj.movecount str);;
  saveg_writep (Mobj.target str);;
  saveg_write32 (Mobj.reactiontime str);;
  saveg_write32 (Mobj.threshold str);;
  (match Mobj.player str with
   | Some player => saveg_write32 (player + 1)
   | None => saveg_write32 0
   end);;
  saveg_write32 (Mobj.lastlook str);;
  saveg_write_mapthing_t (Mobj.spawnpoint str);;
  saveg_writep (Mobj.tracer str).

(** [ticcmd_t]; four fields are not saved. *)
Definition saveg_read_ticcmd_t (str : TicCmd.ticcmd_t) : M TicCmd.ticcmd_t :=
  forwardmove <- saveg_read8;
  sidemove <- saveg_read8;
  angleturn <- saveg_read16;
  consistancy <- saveg_read16;
  chatchar <- saveg_read8;
  buttons <- saveg_read8;
  ret (TicCmd.mk (i8 forwardmove) (i8 sidemove) angleturn chatchar buttons (u8 consistancy)
         (TicCmd.buttons2 str) (TicCmd.inventory str) (TicCmd.lookfly str) (TicCmd.arti str)).

Definition saveg_write_ticcmd_t (str : TicCmd.ticcmd_t) : M unit :=
  saveg_write8 (TicCmd.forwardmove str);;
  saveg_write8 (TicCmd.sidemove str);;
  saveg_write16 (TicCmd.angleturn str);;
  saveg_write16 (TicCmd.consistancy str);;
  saveg_write8 (TicCmd.chatchar str);;
  saveg_write8 (TicCmd.buttons str).

(** [pspdef_t]; a missing state is saved as 0. *)
Definition saveg_read_pspdef_t : M PspDef.pspdef_t :=
  state <- saveg_read32;
  let state := if state >? 0 then Some state else None in
  tics <- saveg_read32;
  sx <- saveg_read32;
  sy <- saveg_read32;
  ret (PspDef.mk state tics sx sy).

Definition saveg_write_pspdef_t (str : PspDef.pspdef_t) : M unit :=
  (match PspDef.state str with
   | Some state => saveg_write32 state
   | None => saveg_write32 0
   end);;
  saveg_write32 (PspDef.tics str);;
  saveg_write32 (PspDef.sx str);;
  saveg_write32 (PspDef.sy str).

(** [player_t] *)
Definition saveg_read_player_t (str : Player.player_t) : M Player.player_t :=
  mo <- saveg_readp;
  playerstate <- saveg_read_enum;
  cmd <- saveg_read_ticcmd_t (Player.cmd str);
  viewz <- saveg_read32;
  viewheight <- saveg_read32;
  deltaviewheight <- saveg_read32;
  bob <- saveg_read32;
  health <- saveg_read32;
  armorpoints <- saveg_read32;
  armortype <- saveg_read32;
  powers <- read_array saveg_read32 NUMPOWERS;
  cards <- read_array saveg_read32 NUMCARDS;
  backpack <- saveg_read32;
  frags <- read_array saveg_read32 MAXPLAYERS;
  readyweapon <- saveg_read_enum;
  pendingweapon <- saveg_read_enum;
  weaponowned <- read_array saveg_read32 NUMWEAPONS;
  ammo <- read_array saveg_read32 NUMAMMO;
  maxammo <- read_array saveg_read32 NUMAMMO;
  attackdown <- saveg_read32;
  usedown <- saveg_read32;
  cheats <- saveg_read32;
  refire <- saveg_read32;
  killcount <- saveg_read32;
  itemcount <- saveg_read32;
  secretcount <- saveg_read32;
  message <- saveg_readp;
  damagecount <- saveg_read32;
  bonuscount <- saveg_read32;
  attacker <- saveg_readp;
  extralight <- saveg_read32;
  fixedcolormap <- saveg_read32;
  colormap <- saveg_read32;
  psprites <- read_array saveg_read_pspdef_t NUMPSPRITES;
  didsecret <- saveg_read32;
  ret (Player.mk mo playerstate cmd viewz viewheight deltaviewheight bob health armorpoints armortype powers cards
         backpack frags readyweapon pendingweapon weaponowned ammo maxammo attackdown usedown cheats refire killcount
         itemcount secretcount message damagecount bonuscount attacker extralight fixedcolormap colormap psprites didsecret).

Definition saveg_write_player_t (str : Player.player_t) : M unit :=
  saveg_writep (Player.mo str);;
  saveg_write_enum (Player.playerstate str);;
  saveg_write_ticcmd_t (Player.cmd str);;
  saveg_write32 (Player.viewz str);;
  saveg_write32 (Player.viewheight str);;
  saveg_write32 (Player.deltaviewheight str);;
  saveg_write32 (Player.bob str);;
  saveg_write32 (Player.health str);;
  saveg_write32 (Player.armorpoints str);;
  saveg_write32 (Player.armortype str);;
  write_array saveg_write32 NUMPOWERS (Player.powers str);;
  write_array saveg_write32 NUMCARDS (Player.cards str);;
  saveg_write32 (Player.backpack str);;
  write_array saveg_write32 MAXPLAYERS (Player.frags str);;
  saveg_write_enum (Player.readyweapon str);;
  saveg_write_enum (Player.pendingweapon str);;
  write_array saveg_write32 NUMWEAPONS (Player.weaponowned str);;
  write_array saveg_write32 NUMAMMO (Player.ammo str);;
  write_array saveg_write32 NUMAMMO (Player.maxammo str);;
  saveg_write32 (Player.attackdown str);;
  saveg_write32 (Player.usedown str);;
  saveg_write32 (Player.cheats str);;
  saveg_write32 (Player.refire str);;
  saveg_write32 (Player.killcount str);;
  saveg_write32 (Player.itemcount str);;
  saveg_write32 (Player.secretcount str);;
  saveg_writep (Player.message str);;
  saveg_write32 (Player.damagecount str);;
  saveg_write32 (Player.bonuscount str);;
  saveg_writep (Player.attacker str);;
  saveg_write32 (Player.extralight str);;
  saveg_write32 (Player.fixedcolormap str);;
  saveg_write32 (Player.colormap str);;
  write_array saveg_write_pspdef_t NUMPSPRITES (Player.psprites str);;
  saveg_write32 (Player.didsecret str).

(** [ceiling_t]; the sector is saved as its number. *)
Definition saveg_read_ceiling_t : M Ceiling.ceiling_t :=
  thinker <- saveg_read_thinker_t;
  type <- saveg_read_enum;
  sector <- saveg_read32;
  bottomheight <- saveg_read32;
  topheight <- saveg_read32;
  speed <- saveg_read32;
  crush <- saveg_read32;
  direction <- saveg_read32;
  tag <- saveg_read32;
  olddirection <- saveg_read32;
  ret (Ceiling.mk thinker type sector bottomheight topheight
         speed crush direction tag olddirection).

Definition saveg_write_ceiling_t (str : Ceiling.ceiling_t) : M unit :=
  saveg_write_thinker_t (Ceiling.thinker str);;
  saveg_write_enum (Ceiling.type str);;
  saveg_write32 (Ceiling.sector str);;
  saveg_write32 (Ceiling.bottomheight str);;
  saveg_write32 (Ceiling.topheight str);;
  saveg_write32 (Ceiling.speed str);;
  saveg_write32 (Ceiling.crush str);;
  saveg_write32 (Ceiling.direction str);;
  saveg_write32 (Ceiling.tag str);;
  saveg_write32 (Ceiling.olddirection str).

(** [vldoor_t]; the sector is saved as its number. *)
Definition saveg_read_vldoor_t : M VlDoor.vldoor_t :=
  thinker <- saveg_read_thinker_t;
  type <- saveg_read_enum;
  sector <- saveg_read32;
  topheight <- saveg_read32;
  speed <- saveg_read32;
  direction <- saveg_read32;
  topwait <- saveg_read32;
  topcountdown <- saveg_read32;
  ret (VlDoor.mk thinker type sector topheight speed direction topwait topcountdown).

Definition saveg_write_vldoor_t (str : VlDoor.vldoor_t) : M unit :=
  saveg_write_thinker_t (VlDoor.thinker str);;
  saveg_write_enum (VlDoor.type str);;
  saveg_write32 (VlDoor.sector str);;
  saveg_write32 (VlDoor.topheight str);;
  saveg_write32 (VlDoor.speed str);;
  saveg_write32 (VlDoor.direction str);;
  saveg_write32 (VlDoor.topwait str);;
  saveg_write32 (VlDoor.topcountdown str).

(** [floormove_t]; the sector is saved as its number. *)
Definition saveg_read_floormove_t : M FloorMove.floormove_t :=
  thinker <- saveg_read_thinker_t;
  type <- saveg_read_enum;
  crush <- saveg_read32;
  sector <- saveg_read32;
  direction <- saveg_read32;
  newspecial <- saveg_read32;
  texture <- saveg_read16;
  floordestheight <- saveg_read32;
  speed <- saveg_read32;
  ret (FloorMove.mk thinker type crush sector direction newspecial texture floordestheight speed).

Definition saveg_write_floormove_t (str : FloorMove.floormove_t) : M unit :=
  saveg_write_thinker_t (FloorMove.thinker str);;
  saveg_write_enum (FloorMove.type str);;
  saveg_write32 (FloorMove.crush str);;
  saveg_write32 (FloorMove.sector str);;
  saveg_write32 (FloorMove.direction str);;
  saveg_write32 (FloorMove.newspecial str);;
  saveg_write16 (FloorMove.texture str);;
  saveg_write32 (FloorMove.floordestheight str);;
  saveg_write32 (FloorMove.speed str).

(** [plat_t]; the sector is saved as its number. *)
Definition saveg_read_plat_t : M Plat.plat_t :=
  thinker <- saveg_read_thinker_t;
  sector <- saveg_read32;
  speed <- saveg_read32;
  low <- saveg_read32;
  high <- saveg_read32;
  wait <- saveg_read32;
  count <- saveg_read32;
  status <- saveg_read_enum;
  oldstatus <- saveg_read_enum;
  crush <- saveg_read32;
  tag <- saveg_read32;
  type <- saveg_read_enum;
  ret (Plat.mk thinker sector speed low high wait count status oldstatus crush tag type).

Definition saveg_write_plat_t (str : Plat.plat_t) : M unit :=
  saveg_write_thinker_t (Plat.thinker str);;
  saveg_write32 (Plat.sector str);;
  saveg_write32 (Plat.speed str);;
  saveg_write32 (Plat.low str);;
  saveg_write32 (Plat.high str);;
  saveg_write32 (Plat.wait str);;
  saveg_write32 (Plat.count str);;
  saveg_write_enum (Plat.status str);;
  saveg_write_enum (Plat.oldstatus str);;
  saveg_write32 (Plat.crush str);;
  saveg_write32 (Plat.tag str);;
  saveg_write_enum (Plat.type str).

(** [lightflash_t]; the sector is saved as its number. *)
Definition saveg_read_lightflash_t : M LightFlash.lightflash_t :=
  thinker <- saveg_read_thinker_t;
  sector <- saveg_read32;
  count <- saveg_read32;
  maxlight <- saveg_read32;
  minlight <- saveg_read32;
  maxtime <- saveg_read32;
  mintime <- saveg_read32;
  ret (LightFlash.mk thinker sector count maxlight minlight maxtime mintime).

Definition saveg_write_lightflash_t (str : LightFlash.lightflash_t) : M unit :=
  saveg_write_thinker_t (LightFlash.thinker str);;
  saveg_write32 (LightFlash.sector str);;
  saveg_write32 (LightFlash.count str);;
  saveg_write32 (LightFlash.maxlight str);;
  saveg_write32 (LightFlash.minlight str);;
  saveg_write32 (LightFlash.maxtime str);;
  saveg_write32 (LightFlash.mintime str).

(** [strobe_t]; the sector is saved as its number. *)
Definition saveg_read_strobe_t : M Strobe.strobe_t :=
  thinker <- saveg_read_thinker_t;
  sector <- saveg_read32;
  count <- saveg_read32;
  minlight <- saveg_read32;
  maxlight <- saveg_read32;
  darktime <- saveg_read32;
  brighttime <- saveg_read32;
  ret (Strobe.mk thinker sector count minlight maxlight darktime brighttime).

Definition saveg_write_strobe_t (str : Strobe.strobe_t) : M unit :=
  saveg_write_thinker_t (Strobe.thinker str);;
  saveg_write32 (Strobe.sector str);;
  saveg_write32 (Strobe.count str);;
  saveg_write32 (Strobe.minlight str);;
  saveg_write32 (Strobe.maxlight str);;
  saveg_write32 (Strobe.darktime str);;
  saveg_write32 (Strobe.brighttime str).

(** [glow_t]; the sector is saved as its number. *)
Definition saveg_read_glow_t : M Glow.glow_t :=
  thinker <- saveg_read_thinker_t;
  sector <- saveg_read32;
  minlight <- saveg_read32;
  maxlight <- saveg_read32;
  direction <- saveg_read32;
  ret (Glow.mk thinker sector minlight maxlight direction).

Definition saveg_write_glow_t (str : Glow.glow_t) : M unit :=
  saveg_write_thinker_t (Glow.thinker str);;
  saveg_write32 (Glow.sector str);;
  saveg_write32 (Glow.minlight str);;
  saveg_write32 (Glow.maxlight str);;
  saveg_write32 (Glow.direction str).

End structs.
