(* ===== verification/SaveCodec.v ===== *)
(** * Savegames: what comes back

    For every structure the values that its fields can have ([_ok]), what the
    file keeps of it ([_saved]), and that its writer and its reader agree on
    the bytes in between. *)
From S2P Require Import Prelude Stdio GameTypes Thinkers SaveIO SaveStructs.
#[local] Open Scope doom_scope.
#[local] Open Scope io_scope.

(** ** Field values

    Every field has the range of its C type; arrays have their length. *)
Definition mapthing_ok (str : MapThing.mapthing_t) : Prop :=
  Forall (fits_s 16) [
    MapThing.x str; MapThing.y str; MapThing.angle str; MapThing.type str;
    MapThing.options str].

Definition ceiling_ok (str : Ceiling.ceiling_t) : Prop :=
  Forall (fits_s 32) [
    Ceiling.type str; Ceiling.sector str; Ceiling.bottomheight str; Ceiling.topheight str;
    Ceiling.speed str; Ceiling.crush str; Ceiling.direction str; Ceiling.tag str;
    Ceiling.olddirection str].

Definition vldoor_ok (str : VlDoor.vldoor_t) : Prop :=
  Forall (fits_s 32) [
    VlDoor.type str; VlDoor.sector str; VlDoor.topheight str; VlDoor.speed str;
    VlDoor.direction str; VlDoor.topwait str; VlDoor.topcountdown str].

Definition floormove_ok (str : FloorMove.floormove_t) : Prop :=
  Forall (fits_s 32) [
    FloorMove.type str; FloorMove.crush str; FloorMove.sector str; FloorMove.direction str;
    FloorMove.newspecial str; FloorMove.floordestheight str; FloorMove.speed str] /\
  Forall (fits_s 16) [
    FloorMove.texture str].

Definition plat_ok (str : Plat.plat_t) : Prop :=
  Forall (fits_s 32) [
    Plat.sector str; Plat.speed str; Plat.low str; Plat.high str; Plat.wait str;
    Plat.count str; Plat.status str; Plat.oldstatus str; Plat.crush str; Plat.tag str;
    Plat.type str].

Definition lightflash_ok (str : LightFlash.lightflash_t) : Prop :=
  Forall (fits_s 32) [
    LightFlash.sector str; LightFlash.count str; LightFlash.maxlight str;
    LightFlash.minlight str; LightFlash.maxtime str; LightFlash.mintime str].

Definition strobe_ok (str : Strobe.strobe_t) : Prop :=
  Forall (fits_s 32) [
    Strobe.sector str; Strobe.count str; Strobe.minlight str; Strobe.maxlight str;
    Strobe.darktime str; Strobe.brighttime str].

Definition glow_ok (str : Glow.glow_t) : Prop :=
  Forall (fits_s 32) [
    Glow.sector str; Glow.minlight str; Glow.maxlight str; Glow.direction str].

Definition ticcmd_ok (str : TicCmd.ticcmd_t) : Prop :=
  fits_s 8 (TicCmd.forwardmove str) /\ fits_s 8 (TicCmd.sidemove str) /\
  fits_s 16 (TicCmd.angleturn str) /\ fits_u 8 (TicCmd.consistancy str) /\
  fits_u 8 (TicCmd.chatchar str) /\ fits_u 8 (TicCmd.buttons str).

Definition pspdef_ok (str : PspDef.pspdef_t) : Prop :=
  (forall i, PspDef.state str = Some i -> fits_s 32 i) /\
  Forall (fits_s 32) [PspDef.tics str; PspDef.sx str; PspDef.sy str].

Definition mobj_ok (str : Mobj.mobj_t) : Prop :=
  Forall (fits_s 32) [
    Mobj.x str; Mobj.y str; Mobj.z str; Mobj.sprite str; Mobj.frame str; Mobj.floorz str;
    Mobj.ceilingz str; Mobj.radius str; Mobj.height str; Mobj.momx str; Mobj.momy str;
    Mobj.momz str; Mobj.validcount str; Mobj.type str; Mobj.tics str; Mobj.state str;
    Mobj.flags str; Mobj.health str; Mobj.movedir str; Mobj.movecount str;
    Mobj.reactiontime str; Mobj.threshold str; Mobj.lastlook str] /\
  fits_u 32 (Mobj.angle str) /\ mapthing_ok (Mobj.spawnpoint str) /\
  (forall i, Mobj.player str = Some i -> 0 <= i < Z.of_nat MAXPLAYERS).

Definition player_ok (str : Player.player_t) : Prop :=
  Forall (fits_s 32) [
    Player.playerstate str; Player.viewz str; Player.viewheight str;
    Player.deltaviewheight str; Player.bob str; Player.health str; Player.armorpoints str;
    Player.armortype str; Player.backpack str; Player.readyweapon str;
    Player.pendingweapon str; Player.attackdown str; Player.usedown str; Player.cheats str;
    Player.refire str; Player.killcount str; Player.itemcount str; Player.secretcount str;
    Player.damagecount str; Player.bonuscount str; Player.extralight str;
    Player.fixedcolormap str; Player.colormap str; Player.didsecret str] /\
  ticcmd_ok (Player.cmd str) /\
  Forall (fits_s 32) (Player.powers str) /\ length (Player.powers str) = NUMPOWERS /\
  Forall (fits_s 32) (Player.cards str) /\ length (Player.cards str) = NUMCARDS /\
  Forall (fits_s 32) (Player.frags str) /\ length (Player.frags str) = MAXPLAYERS /\
  Forall (fits_s 32) (Player.weaponowned str) /\ length (Player.weaponowned str) = NUMWEAPONS /\
  Forall (fits_s 32) (Player.ammo str) /\ length (Player.ammo str) = NUMAMMO /\
  Forall (fits_s 32) (Player.maxammo str) /\ length (Player.maxammo str) = NUMAMMO /\
  Forall pspdef_ok (Player.psprites str) /\ length (Player.psprites str) = NUMPSPRITES.

(** ** What the file keeps *)
Section saved.
Context {A : Arch}.

Definition thinker_saved (str : Thinker.thinker_t) : Thinker.thinker_t :=
  Thinker.mk (ptr32 (Thinker.prev str)) (ptr32 (Thinker.next str)) (ptr32 (Thinker.function str)).

Definition mobj_saved (str : Mobj.mobj_t) : Mobj.mobj_t :=
  str <| Mobj.thinker ::= thinker_saved |>
      <| Mobj.snext ::= ptr32 |> <| Mobj.sprev ::= ptr32 |> <| Mobj.bnext ::= ptr32 |>
      <| Mobj.bprev ::= ptr32 |> <| Mobj.subsector ::= ptr32 |> <| Mobj.info ::= ptr32 |>
      <| Mobj.target ::= ptr32 |> <| Mobj.tracer ::= ptr32 |>.

(** The fields of the command that are not saved stay as they were. *)
Definition ticcmd_saved (old str : TicCmd.ticcmd_t) : TicCmd.ticcmd_t :=
  old <| TicCmd.forwardmove := TicCmd.forwardmove str |> <| TicCmd.sidemove := TicCmd.sidemove str |>
      <| TicCmd.angleturn := TicCmd.angleturn str |> <| TicCmd.consistancy := TicCmd.consistancy str |>
      <| TicCmd.chatchar := TicCmd.chatchar str |> <| TicCmd.buttons := TicCmd.buttons str |>.

(** The first state cannot be told from no state. *)
Definition pspdef_saved (str : PspDef.pspdef_t) : PspDef.pspdef_t :=
  str <| PspDef.state ::= fun o => match o with Some i => if i >? 0 then Some i else None | None => None end |>.

Definition player_saved (old str : Player.player_t) : Player.player_t :=
  str <| Player.mo ::= ptr32 |> <| Player.message ::= ptr32 |> <| Player.attacker ::= ptr32 |>
      <| Player.cmd ::= ticcmd_saved (Player.cmd old) |> <| Player.psprites ::= fmap pspdef_saved |>.

Definition ceiling_saved (str : Ceiling.ceiling_t) : Ceiling.ceiling_t := str <| Ceiling.thinker ::= thinker_saved |>.
Definition vldoor_saved (str : VlDoor.vldoor_t) : VlDoor.vldoor_t := str <| VlDoor.thinker ::= thinker_saved |>.
Definition floormove_saved (str : FloorMove.floormove_t) : FloorMove.floormove_t := str <| FloorMove.thinker ::= thinker_saved |>.
Definition plat_saved (str : Plat.plat_t) : Plat.plat_t := str <| Plat.thinker ::= thinker_saved |>.
Definition lightflash_saved (str : LightFlash.lightflash_t) : LightFlash.lightflash_t := str <| LightFlash.thinker ::= thinker_saved |>.
Definition strobe_saved (str : Strobe.strobe_t) : Strobe.strobe_t := str <| Strobe.thinker ::= thinker_saved |>.
Definition glow_saved (str : Glow.glow_t) : Glow.glow_t := str <| Glow.thinker ::= thinker_saved |>.
End saved.

(** ** Agreement of writers and readers *)
Section agree.
Context {A : Arch} {F : Type} {ops : FdOps F} {view : F -> fview} {reg : RegularFile F view}.
Abbreviation M := (io F game).
#[local] Abbreviation cod := (SaveIO.cod (G := game) (view := view)).

Create HintDb codec.
#[local] Hint Resolve cod8 cod16 cod32 codp cod_enum cod_pad : codec.

(** How large the saved structures are at most. *)
Definition RECORD : nat := 160.
Definition PLAYER : nat := 400.

(** Field by field down to the last one. *)
Ltac codec_step := eapply cod_bind; [solve [eauto with codec]|]; cbv beta zeta.
Ltac codec_fields := repeat codec_step; eapply cod_last; [solve [eauto with codec]|]; cbv beta zeta.
Ltac codec := eapply cod_le; [codec_fields|by apply Nat.leb_le].
(** The values read are those written, since each fits its field. *)
Ltac codec_done :=
  unfold mapthing_ok, ceiling_ok, vldoor_ok, floormove_ok, plat_ok, lightflash_ok, strobe_ok, glow_ok in *;
  repeat match goal with
  | H : _ /\ _ |- _ => destruct H
  | H : Forall _ (_ :: _) |- _ => apply Forall_cons in H
  end;
  change (i32 0) with 0; rewrite ?(wrapu_wraps 32) by done;
  rewrite ?(wraps_id 32), ?(wraps_id 16), ?(wrapu_id 32) by (assumption || reflexivity);
  lazymatch goal with
  | |- _ = ret (_ ?x) => (is_var x; destruct x) || idtac
  | |- _ = ret ?x => destruct x
  | |- _ => idtac
  end; reflexivity.

Lemma cod_mapthing (str : MapThing.mapthing_t) : mapthing_ok str ->
  cod 10 (saveg_write_mapthing_t str) saveg_read_mapthing_t str (fun g => g).
Proof. intros H. codec. codec_done. Qed.

Lemma cod_thinker (str : Thinker.thinker_t) :
  cod 12 (saveg_write_thinker_t str) saveg_read_thinker_t (thinker_saved str) (fun g => g).
Proof.
  eapply cod_le; [do 2 codec_step; eapply cod_last; [apply codp|done]|cbn; lia].
Qed.
#[local] Hint Resolve cod_mapthing cod_thinker : codec.

Lemma cod_ceiling (str : Ceiling.ceiling_t) : ceiling_ok str ->
  cod RECORD (saveg_write_ceiling_t str) saveg_read_ceiling_t (ceiling_saved str) (fun g => g).
Proof. intros H. codec. codec_done. Qed.

Lemma cod_vldoor (str : VlDoor.vldoor_t) : vldoor_ok str ->
  cod RECORD (saveg_write_vldoor_t str) saveg_read_vldoor_t (vldoor_saved str) (fun g => g).
Proof. intros H. codec. codec_done. Qed.

Lemma cod_floormove (str : FloorMove.floormove_t) : floormove_ok str ->
  cod RECORD (saveg_write_floormove_t str) saveg_read_floormove_t (floormove_saved str) (fun g => g).
Proof. intros H. codec. codec_done. Qed.

Lemma cod_plat (str : Plat.plat_t) : plat_ok str ->
  cod RECORD (saveg_write_plat_t str) saveg_read_plat_t (plat_saved str) (fun g => g).
Proof. intros H. codec. codec_done. Qed.

Lemma cod_lightflash (str : LightFlash.lightflash_t) : lightflash_ok str ->
  cod RECORD (saveg_write_lightflash_t str) saveg_read_lightflash_t (lightflash_saved str) (fun g => g).
Proof. intros H. codec. codec_done. Qed.

Lemma cod_strobe (str : Strobe.strobe_t) : strobe_ok str ->
  cod RECORD (saveg_write_strobe_t str) saveg_read_strobe_t (strobe_saved str) (fun g => g).
Proof. intros H. codec. codec_done. Qed.

Lemma cod_glow (str : Glow.glow_t) : glow_ok str ->
  cod RECORD (saveg_write_glow_t str) saveg_read_glow_t (glow_saved str) (fun g => g).
Proof. intros H. codec. codec_done. Qed.

Lemma cod_ticcmd (old str : TicCmd.ticcmd_t) : ticcmd_ok str ->
  cod 10 (saveg_write_ticcmd_t str) (saveg_read_ticcmd_t old) (ticcmd_saved old str) (fun g => g).
Proof.
  intros (H1 & H2 & H3 & H4 & H5 & H6). codec. unfold ticcmd_saved, update. cbn.
  assert (H7 : fits_s 16 (TicCmd.consistancy str)) by (unfold fits_u, fits_s in *; cbn in *; lia).
  by rewrite !wraps_wrapu, !(wraps_id 8), !(wraps_id 16), !wrapu_id by (lia || done).
Qed.

Lemma cod_pspdef (str : PspDef.pspdef_t) : pspdef_ok str ->
  cod 16 (saveg_write_pspdef_t str) saveg_read_pspdef_t (pspdef_saved str) (fun g => g).
Proof.
  intros [Hs H]. unfold saveg_write_pspdef_t. destruct str as [[i|] tics sx sy]; cbn in *.
  - specialize (Hs i eq_refl). codec. codec_done.
  - codec. codec_done.
Qed.

Lemma cod_ints n (l : list Z) : Forall (fits_s 32) l -> length l = n ->
  cod (n * 4) (write_array saveg_write32 n l) (read_array saveg_read32 n) l (fun g => g).
Proof.
  intros Hl Hn. rewrite Forall_forall in Hl.
  pose proof (cod_array (G := game) (view := view) 4 saveg_write32 saveg_read32 (fun x => x) n l) as H.
  rewrite list_fmap_id in H. apply H; [|done]. intros x Hx.
  rewrite <- (wraps_id 32 x) at 2 by (lia || by apply Hl). apply cod32.
Qed.

Lemma cod_psprites n l : Forall pspdef_ok l -> length l = n ->
  cod (n * 16) (write_array saveg_write_pspdef_t n l) (read_array saveg_read_pspdef_t n) (pspdef_saved <$> l) (fun g => g).
Proof.
  intros Hl Hn. apply cod_array; [|done]. intros x Hx. apply cod_pspdef.
  by apply (proj1 (Forall_forall _ _) Hl).
Qed.
#[local] Hint Resolve cod_ticcmd cod_ints cod_psprites : codec.

Lemma cod_player (old str : Player.player_t) : player_ok str ->
  cod PLAYER (saveg_write_player_t str) (saveg_read_player_t old) (player_saved old str) (fun g => g).
Proof.
  intros H. unfold player_ok in H. destruct_and!. codec. codec_done.
Qed.

(** Reading an object that belongs to a player sets that player's [mo]. *)
Definition mobj_effect (self : Z) (str : Mobj.mobj_t) (g : game) : game :=
  match Mobj.player str with Some i => player_mo_set i self g | None => g end.

Lemma cod_effect {T U} n w (r : M T) (k : T -> M U) a b h :
  (forall s, r s = Ret (a, mk_sg (save_stream s) (errno s) (savegame_error s) (junk s) (h (gs s)))) ->
  cod n w (k a) b (fun g => g) -> cod n w (x <- r; k x) b h.
Proof.
  intros Hr (bs & N & W & R). exists bs. split_and!; [done|done|]. intros s pre post l Hv Hl.
  unfold bind. rewrite Hr. cbn [obind]. by apply R.
Qed.

Lemma cod_mobj (self : Z) (str : Mobj.mobj_t) : mobj_ok str ->
  cod RECORD (saveg_write_mobj_t str) (saveg_read_mobj_t self) (mobj_saved str) (mobj_effect self str).
Proof.
  intros H. unfold mobj_ok in H. destruct H as (H32 & Ha & Hm & Hp). eapply cod_le;
    [do 31 codec_step; lazymatch goal with |- SaveIO.cod ?m _ _ _ _ => unify m 22%nat end|by apply Nat.leb_le].
  unfold mobj_effect.
  destruct (Mobj.player str) as [i|] eqn:Ei.
  - specialize (Hp i eq_refl). change (Z.of_nat MAXPLAYERS) with 4 in Hp.
    eapply (cod_bind 4 18); [apply cod32|]; cbv beta zeta. assert (Hi : i32 (i + 1) = i + 1).
    { apply wraps_id; [lia|]. unfold fits_s. pow2. lia. }
    rewrite Hi. replace (i + 1 - 1) with i by lia. replace (i + 1 >? 0) with true by (symmetry; lia).
    apply cod_effect with (a := Some i).
    { intros s. unfold bind, set_player_mo.
      replace ((0 <=? i) && (i <? Z.of_nat MAXPLAYERS)) with true
        by (symmetry; change (Z.of_nat MAXPLAYERS) with 4; lia). done. }
    codec. rewrite <- Ei. codec_done.
  - eapply (cod_bind 4 18); [apply cod32|]; cbv beta zeta. change (i32 0) with 0. apply cod_effect with (a := None). { by intros []. }
    codec. rewrite <- Ei. codec_done.
Qed.
End agree.
