(* ===== verification/SaveArchive.v ===== *)
(** * Savegames: header, players, world, thinkers and specials
      (src/commands/doom/p_saveg.c, last part)

    The functions that [G_DoSaveGame] and [G_DoLoadGame] call in turn. What
    they need of the rest of the level code is the interface [Level]. *)
From stdpp Require Import pretty.
From Stdlib Require Import Ascii.
From S2P Require Import Prelude MFixed Stdio GameTypes Thinkers SaveIO SaveStructs.
#[local] Open Scope doom_scope.
#[local] Open Scope io_scope.

Definition SAVEGAME_EOF : Z := 0x1d.
Definition VERSIONSIZE : nat := 16.
Definition SAVESTRINGSIZE : nat := 24.

Inductive GameVersion_t : Set :=
| exe_doom_1_2 | exe_doom_1_666 | exe_doom_1_7 | exe_doom_1_8 | exe_doom_1_9 | exe_hacx
| exe_ultimate | exe_final | exe_final2 | exe_chex | exe_heretic_1_3 | exe_hexen_1_1
| exe_strife_1_2 | exe_strife_1_31.

Definition G_VanillaVersionCode (gameversion : GameVersion_t) : outcome Z :=
  match gameversion with
  | exe_doom_1_2 => Fatal "Doom 1.2 does not have a version code!"
  | exe_doom_1_666 => Ret 106
  | exe_doom_1_7 => Ret 107
  | exe_doom_1_8 => Ret 108
  | _ => Ret 109
  end.

(** The bytes of a C string, and a buffer that starts with them. *)
Definition bytes_of (s : string) : list Z :=
  (fun c => Z.of_nat (nat_of_ascii c)) <$> String.list_ascii_of_string s.
Definition fill (n : nat) (l : list Z) : list Z := take n (l ++ replicate n 0).

(** [M_snprintf(name, VERSIONSIZE, "version %i", code)] in a cleared buffer:
    at most [VERSIONSIZE - 1] characters, the rest zero. *)
Definition version_name (code : Z) : list Z :=
  fill VERSIONSIZE (take (VERSIONSIZE - 1) (bytes_of ("version " +:+ pretty code))).

(** [strcmp] of two buffers gives 0. *)
Fixpoint strcmp_eq (a b : list Z) : bool :=
  match a, b with
  | x :: a, y :: b => (x =? y) && ((x =? 0) || strcmp_eq a b)
  | _, _ => false
  end.

(** What the loader needs of the level code: removing the objects of the
    level that is left, memory for a new object, linking an object into the
    map, the address of an entry of [mobjinfo], the sector of a subsector,
    and the addresses of the thinker functions. *)
Class Level := {
  P_RemoveMobj : Z -> Mobj.mobj_t -> game -> outcome unit;
  lv_free : Z -> game -> outcome unit;
  lv_malloc : game -> outcome Z;
  P_SetThingPosition : Z -> Mobj.mobj_t -> game -> Mobj.mobj_t * game;
  mobjinfo_at : Z -> Z;
  subsector_sector : Z -> nat;
  level_image :: Image
}.

Section archive.
Context {A : Arch} {F : Type} {ops : FdOps F} {lv : Level}.
Abbreviation M := (io F game).

Definition lift {T} (m : outcome T) : M T := fun s => let* a := m in Ret (a, s).

Fixpoint write_bytes (l : list Z) : M unit :=
  match l with [] => ret tt | b :: l => saveg_write8 b;; write_bytes l end.

(** ** Header and end marker

    [description] holds the characters before the terminating zero. *)
Definition P_WriteSaveGameHeader (gameversion : GameVersion_t) (description : list Z) : M unit :=
  write_bytes description;;
  write_zeros (SAVESTRINGSIZE - length description);;
  code <- lift (G_VanillaVersionCode gameversion);
  write_bytes (version_name code);;
  g <- get_gs;
  saveg_write8 (gameskill g);;
  saveg_write8 (gameepisode g);;
  saveg_write8 (gamemap g);;
  write_array saveg_write8 MAXPLAYERS (playeringame g);;
  saveg_write8 (Z.land (Z.shiftr (leveltime g) 16) 0xff);;
  saveg_write8 (Z.land (Z.shiftr (leveltime g) 8) 0xff);;
  saveg_write8 (Z.land (leveltime g) 0xff).

Definition P_ReadSaveGameHeader (gameversion : GameVersion_t) : M bool :=
  read_times SAVESTRINGSIZE;;
  read_vcheck <- read_array saveg_read8 VERSIONSIZE;
  code <- lift (G_VanillaVersionCode gameversion);
  if negb (strcmp_eq read_vcheck (version_name code)) then ret false
  else
    skill <- saveg_read8;
    episode <- saveg_read8;
    map <- saveg_read8;
    pig <- read_array saveg_read8 MAXPLAYERS;
    a <- saveg_read8;
    b <- saveg_read8;
    c <- saveg_read8;
    g <- get_gs;
    set_gs (g <| gameskill := skill |> <| gameepisode := episode |> <| gamemap := map |>
              <| playeringame := pig |>
              <| leveltime := Z.shiftl a 16 + Z.shiftl b 8 + c |>);;
    ret true.

Definition P_ReadSaveGameEOF : M bool :=
  value <- saveg_read8; ret (value =? SAVEGAME_EOF).
Definition P_WriteSaveGameEOF : M unit := saveg_write8 SAVEGAME_EOF.

(** ** Players: the loops over the two arrays *)
Fixpoint archive_players (n : nat) (ingame : list Z) (ps : list Player.player_t) : M unit :=
  match n, ingame, ps with
  | O, _, _ => ret tt
  | S n, i :: ingame, p :: ps =>
      if truth i
      then saveg_write_pad;; saveg_write_player_t p;; archive_players n ingame ps
      else archive_players n ingame ps
  | _, _, _ => undef
  end.
Definition P_ArchivePlayers : M unit :=
  g <- get_gs; archive_players MAXPLAYERS (playeringame g) (players g).

Definition forget_pointers (p : Player.player_t) : Player.player_t :=
  p <| Player.mo := 0 |> <| Player.message := 0 |> <| Player.attacker := 0 |>.
Fixpoint unarchive_players (n : nat) (ingame : list Z) (ps : list Player.player_t) :
  M (list Player.player_t) :=
  match n, ingame, ps with
  | O, _, _ => ret ps
  | S n, i :: ingame, p :: ps =>
      if truth i
      then saveg_read_pad;;
           p <- saveg_read_player_t p;
           ps <- unarchive_players n ingame ps;
           ret (forget_pointers p :: ps)
      else ps <- unarchive_players n ingame ps; ret (p :: ps)
  | _, _, _ => undef
  end.
Definition P_UnArchivePlayers : M unit :=
  g <- get_gs;
  ps <- unarchive_players MAXPLAYERS (playeringame g) (players g);
  set_gs (g <| players := ps |>).

(** ** World *)
Definition archive_sector (sec : Sector.doomsector_t) : M unit :=
  saveg_write16 (Z.shiftr (Sector.floorheight sec) FRACBITS);;
  saveg_write16 (Z.shiftr (Sector.ceilingheight sec) FRACBITS);;
  saveg_write16 (Sector.floorpic sec);;
  saveg_write16 (Sector.ceilingpic sec);;
  saveg_write16 (Sector.lightlevel sec);;
  saveg_write16 (Sector.special sec);;
  saveg_write16 (Sector.tag sec).
Fixpoint archive_sectors (l : list Sector.doomsector_t) : M unit :=
  match l with [] => ret tt | sec :: l => archive_sector sec;; archive_sectors l end.

Definition archive_side (si : Side.side_t) : M unit :=
  saveg_write16 (Z.shiftr (Side.textureoffset si) FRACBITS);;
  saveg_write16 (Z.shiftr (Side.rowoffset si) FRACBITS);;
  saveg_write16 (Side.toptexture si);;
  saveg_write16 (Side.bottomtexture si);;
  saveg_write16 (Side.midtexture si).

(** [sides[num]]: an access outside the array is undefined. *)
Definition side_at (sds : list Side.side_t) (num : Z) : option Side.side_t :=
  if num <? 0 then None else sds !! Z.to_nat num.

Fixpoint archive_sides (sds : list Side.side_t) (nums : list Z) : M unit :=
  match nums with
  | [] => ret tt
  | num :: nums =>
      if num =? -1 then archive_sides sds nums
      else match side_at sds num with
           | Some si => archive_side si;; archive_sides sds nums
           | None => undef
           end
  end.
Definition archive_line (sds : list Side.side_t) (li : Line.line_t) : M unit :=
  saveg_write16 (Line.flags li);;
  saveg_write16 (Line.special li);;
  saveg_write16 (Line.tag li);;
  archive_sides sds (Line.sidenum li).
Fixpoint archive_lines (sds : list Side.side_t) (l : list Line.line_t) : M unit :=
  match l with [] => ret tt | li :: l => archive_line sds li;; archive_lines sds l end.
Definition P_ArchiveWorld : M unit :=
  g <- get_gs;
  archive_sectors (sectors g);;
  archive_lines (sides g) (lines g).

Definition unarchive_sector (sec : Sector.doomsector_t) : M Sector.doomsector_t :=
  floorheight <- saveg_read16;
  ceilingheight <- saveg_read16;
  floorpic <- saveg_read16;
  ceilingpic <- saveg_read16;
  lightlevel <- saveg_read16;
  special <- saveg_read16;
  tag <- saveg_read16;
  ret (sec <| Sector.floorheight := i32 (Z.shiftl floorheight FRACBITS) |>
           <| Sector.ceilingheight := i32 (Z.shiftl ceilingheight FRACBITS) |>
           <| Sector.floorpic := floorpic |> <| Sector.ceilingpic := ceilingpic |>
           <| Sector.lightlevel := lightlevel |> <| Sector.special := special |>
           <| Sector.tag := tag |> <| Sector.specialdata := 0 |> <| Sector.soundtarget := 0 |>).
Fixpoint unarchive_sectors (l : list Sector.doomsector_t) : M (list Sector.doomsector_t) :=
  match l with
  | [] => ret []
  | sec :: l => sec <- unarchive_sector sec; l <- unarchive_sectors l; ret (sec :: l)
  end.

Definition unarchive_side (si : Side.side_t) : M Side.side_t :=
  textureoffset <- saveg_read16;
  rowoffset <- saveg_read16;
  toptexture <- saveg_read16;
  bottomtexture <- saveg_read16;
  midtexture <- saveg_read16;
  ret (si <| Side.textureoffset := i32 (Z.shiftl textureoffset FRACBITS) |>
          <| Side.rowoffset := i32 (Z.shiftl rowoffset FRACBITS) |>
          <| Side.toptexture := toptexture |> <| Side.bottomtexture := bottomtexture |>
          <| Side.midtexture := midtexture |>).

(** Two lines can share a side: the array is threaded through the loop. *)
Fixpoint unarchive_sides (sds : list Side.side_t) (nums : list Z) : M (list Side.side_t) :=
  match nums with
  | [] => ret sds
  | num :: nums =>
      if num =? -1 then unarchive_sides sds nums
      else match side_at sds num with
           | Some si => si <- unarchive_side si; unarchive_sides (<[Z.to_nat num := si]> sds) nums
           | None => undef
           end
  end.
Definition unarchive_line (sds : list Side.side_t) (li : Line.line_t) :
  M (Line.line_t * list Side.side_t) :=
  flags <- saveg_read16;
  special <- saveg_read16;
  tag <- saveg_read16;
  sds <- unarchive_sides sds (Line.sidenum li);
  ret (li <| Line.flags := flags |> <| Line.special := special |> <| Line.tag := tag |>, sds).
Fixpoint unarchive_lines (sds : list Side.side_t) (l : list Line.line_t) :
  M (list Line.line_t * list Side.side_t) :=
  match l with
  | [] => ret ([], sds)
  | li :: l =>
      r <- unarchive_line sds li;
      q <- unarchive_lines r.2 l;
      ret (r.1 :: q.1, q.2)
  end.
Definition P_UnArchiveWorld : M unit :=
  g <- get_gs;
  secs <- unarchive_sectors (sectors g);
  q <- unarchive_lines (sides g) (lines g);
  set_gs (g <| sectors := secs |> <| lines := q.1 |> <| sides := q.2 |>).

(** ** Thinkers *)
Definition tc_end : Z := 0.
Definition tc_mobj : Z := 1.

(** A thinker whose function is not that of its object is read as the wrong
    structure. *)
Fixpoint archive_thinkers (l : list (Z * thing)) : M unit :=
  match l with
  | [] => ret tt
  | (_, th) :: l =>
      if thing_function th =? fn_addr P_MobjThinker
      then match th with
           | TMobj m => saveg_write8 tc_mobj;; saveg_write_pad;; saveg_write_mobj_t m;; archive_thinkers l
           | _ => undef
           end
      else archive_thinkers l
  end.
Definition P_ArchiveThinkers : M unit :=
  g <- get_gs; archive_thinkers (thinkers g);; saveg_write8 tc_end.

Fixpoint remove_thinkers (l : list (Z * thing)) : M unit :=
  match l with
  | [] => ret tt
  | (a, th) :: l =>
      g <- get_gs;
      (if thing_function th =? fn_addr P_MobjThinker
       then match th with TMobj m => lift (P_RemoveMobj a m g) | _ => undef end
       else lift (lv_free a g));;
      remove_thinkers l
  end.

(** One object read by [P_UnArchiveThinkers]. *)
Definition unarchive_mobj : M unit :=
  saveg_read_pad;;
  g <- get_gs;
  self <- lift (lv_malloc g);
  mobj <- saveg_read_mobj_t self;
  let mobj := mobj <| Mobj.target := 0 |> <| Mobj.tracer := 0 |> in
  g <- get_gs;
  let '(mobj, g) := P_SetThingPosition self mobj g in
  let mobj := mobj <| Mobj.info := mobjinfo_at (Mobj.type mobj) |> in
  sec <- lift (of_option (sectors g !! subsector_sector (Mobj.subsector mobj)));
  let mobj := mobj <| Mobj.floorz := Sector.floorheight sec |>
                   <| Mobj.ceilingz := Sector.ceilingheight sec |>
                   <| Mobj.thinker ::= fun t => t <| Thinker.function := fn_addr P_MobjThinker |> |> in
  set_gs (P_AddThinker self (TMobj mobj) g).

Fixpoint unarchive_thinkers (fuel : nat) : M unit :=
  match fuel with
  | O => fun _ => NoFuel
  | S fuel =>
      tclass <- saveg_read8;
      if tclass =? tc_end then ret tt
      else if tclass =? tc_mobj then unarchive_mobj;; unarchive_thinkers fuel
      else fail "Unknown tclass in savegame"
  end.
Definition P_UnArchiveThinkers (fuel : nat) : M unit :=
  g <- get_gs;
  remove_thinkers (thinkers g);;
  set_gs (P_InitThinkers g);;
  unarchive_thinkers fuel.

(** ** Specials *)
Definition tc_ceiling : Z := 0.
Definition tc_door : Z := 1.
Definition tc_floor : Z := 2.
Definition tc_plat : Z := 3.
Definition tc_flash : Z := 4.
Definition tc_strobe : Z := 5.
Definition tc_glow : Z := 6.
Definition tc_endspecials : Z := 7.

Definition archive_ceiling (th : thing) : M unit :=
  match th with
  | TCeiling c => saveg_write8 tc_ceiling;; saveg_write_pad;; saveg_write_ceiling_t c
  | _ => undef
  end.

(** One turn of the loop: the tests on the function pointer in order. *)
Definition archive_special (active : list Z) (a : Z) (th : thing) : M unit :=
  let fn := thing_function th in
  if fn =? 0 then (if bool_decide (a ∈ active) then archive_ceiling th else ret tt)
  else if fn =? fn_addr T_MoveCeiling then archive_ceiling th
  else if fn =? fn_addr T_VerticalDoor then
    match th with
    | TDoor d => saveg_write8 tc_door;; saveg_write_pad;; saveg_write_vldoor_t d
    | _ => undef
    end
  else if fn =? fn_addr T_MoveFloor then
    match th with
    | TFloor f => saveg_write8 tc_floor;; saveg_write_pad;; saveg_write_floormove_t f
    | _ => undef
    end
  else if fn =? fn_addr T_PlatRaise then
    match th with
    | TPlat p => saveg_write8 tc_plat;; saveg_write_pad;; saveg_write_plat_t p
    | _ => undef
    end
  else if fn =? fn_addr T_LightFlash then
    match th with
    | TFlash f => saveg_write8 tc_flash;; saveg_write_pad;; saveg_write_lightflash_t f
    | _ => undef
    end
  else if fn =? fn_addr T_StrobeFlash then
    match th with
    | TStrobe s => saveg_write8 tc_strobe;; saveg_write_pad;; saveg_write_strobe_t s
    | _ => undef
    end
  else if fn =? fn_addr T_Glow then
    match th with
    | TGlow g => saveg_write8 tc_glow;; saveg_write_pad;; saveg_write_glow_t g
    | _ => undef
    end
  else ret tt.

Fixpoint archive_specials (active : list Z) (l : list (Z * thing)) : M unit :=
  match l with
  | [] => ret tt
  | (a, th) :: l => archive_special active a th;; archive_specials active l
  end.
Definition P_ArchiveSpecials : M unit :=
  g <- get_gs; archive_specials (activeceilings g) (thinkers g);; saveg_write8 tc_endspecials.

(** The function is restored only where one was saved. *)
Definition restore_function (a : action) (t : Thinker.thinker_t) : Thinker.thinker_t :=
  if Thinker.function t =? 0 then t else set_function a t.

Definition with_new {T} (r : M T) (k : Z -> T -> game -> outcome game) : M unit :=
  saveg_read_pad;;
  g <- get_gs;
  self <- lift (lv_malloc g);
  x <- r;
  g <- get_gs;
  g <- lift (k self x g);
  set_gs g.

Definition unarchive_special (tclass : Z) : option (M unit) :=
  if tclass =? tc_ceiling then Some (with_new saveg_read_ceiling_t (fun self c g =>
    let* g := set_specialdata (Ceiling.sector c) self g in
    let c := c <| Ceiling.thinker ::= restore_function T_MoveCeiling |> in
    let g := P_AddThinker self (TCeiling c) g in
    Ret (P_AddActiveCeiling self g)))
  else if tclass =? tc_door then Some (with_new saveg_read_vldoor_t (fun self d g =>
    let* g := set_specialdata (VlDoor.sector d) self g in
    let d := d <| VlDoor.thinker ::= set_function T_VerticalDoor |> in
    Ret (P_AddThinker self (TDoor d) g)))
  else if tclass =? tc_floor then Some (with_new saveg_read_floormove_t (fun self f g =>
    let* g := set_specialdata (FloorMove.sector f) self g in
    let f := f <| FloorMove.thinker ::= set_function T_MoveFloor |> in
    Ret (P_AddThinker self (TFloor f) g)))
  else if tclass =? tc_plat then Some (with_new saveg_read_plat_t (fun self p g =>
    let* g := set_specialdata (Plat.sector p) self g in
    let p := p <| Plat.thinker ::= restore_function T_PlatRaise |> in
    let g := P_AddThinker self (TPlat p) g in
    P_AddActivePlat self g))
  else if tclass =? tc_flash then Some (with_new saveg_read_lightflash_t (fun self f g =>
    let f := f <| LightFlash.thinker ::= set_function T_LightFlash |> in
    Ret (P_AddThinker self (TFlash f) g)))
  else if tclass =? tc_strobe then Some (with_new saveg_read_strobe_t (fun self s g =>
    let s := s <| Strobe.thinker ::= set_function T_StrobeFlash |> in
    Ret (P_AddThinker self (TStrobe s) g)))
  else if tclass =? tc_glow then Some (with_new saveg_read_glow_t (fun self w g =>
    let w := w <| Glow.thinker ::= set_function T_Glow |> in
    Ret (P_AddThinker self (TGlow w) g)))
  else None.

Fixpoint unarchive_specials (fuel : nat) : M unit :=
  match fuel with
  | O => fun _ => NoFuel
  | S fuel =>
      tclass <- saveg_read8;
      if tclass =? tc_endspecials then ret tt
      else match unarchive_special tclass with
           | Some read => read;; unarchive_specials fuel
           | None => fail "P_UnarchiveSpecials: Unknown tclass in savegame"
           end
  end.
Definition P_UnArchiveSpecials (fuel : nat) : M unit := unarchive_specials fuel.
End archive.
