(* ===== verification/SaveWorld.v ===== *)
(** * Savegames: header, players and world come back *)
From S2P Require Import Prelude MFixed Stdio GameTypes Thinkers SaveIO SaveStructs SaveCodec SaveArchive.
#[local] Open Scope doom_scope.
#[local] Open Scope io_scope.


(** * Savegames: what a load restores

    [gcod g w g0 r a g1]: in a game [g] the writer [w] appends bytes from
    which the reader [r], run in a game [g0], returns [a] and makes the game
    [g1]. *)

Section gcod.
Context {A : Arch} {F : Type} {ops : FdOps F} {view : F -> fview} {reg : RegularFile F view}.
Abbreviation M := (io F game).

Definition gwrites (g : game) (w : M unit) (bs : nat -> list Z) : Prop :=
  forall s d (p l : nat), gs s = g -> view (save_stream s) = mk_view d p l -> p = length d ->
    (p + length (bs p) <= l)%nat ->
    exists f', w s = Ret (tt, mk_sg f' (errno s) (savegame_error s) (junk s) g) /\
      view f' = mk_view (d ++ bs p) (p + length (bs p)) l.

Definition greads {T} (g0 : game) (r : M T) (bs : nat -> list Z) (a : T) (g1 : game) : Prop :=
  forall s pre post (l : nat), gs s = g0 ->
    view (save_stream s) = mk_view (pre ++ bs (length pre) ++ post) (length pre) l ->
    (length pre + length (bs (length pre)) <= l)%nat ->
    exists f', r s = Ret (a, mk_sg f' (errno s) (savegame_error s) (junk s) g1) /\
      view f' = mk_view (pre ++ bs (length pre) ++ post) (length pre + length (bs (length pre))) l.

Definition gcod {T} (n : nat) (g : game) (w : M unit) (g0 : game) (r : M T) (a : T) (g1 : game) : Prop :=
  exists bs, (forall p, length (bs p) <= n)%nat /\ gwrites g w bs /\ greads g0 r bs a g1.

Implicit Types (g : game) (w : M unit).

Lemma gcod_le {T} n m g w g0 (r : M T) a g1 : gcod n g w g0 r a g1 -> (n <= m)%nat -> gcod m g w g0 r a g1.
Proof. intros (bs & N & W & R) Hle. exists bs. split_and!; try done. intros p. specialize (N p). lia. Qed.

Lemma gcod_cod {T} n g w g0 (r : M T) a h :
  SaveIO.cod (view := view) n w r a h -> gcod n g w g0 r a (h g0).
Proof.
  intros (bs & N & W & R). exists bs. split_and!; [done| |].
  - intros s d p l <- Hv Hp Hl. by apply W.
  - intros s pre post l <- Hv Hl. by apply R.
Qed.

Lemma gcod_bind {T U} n1 n2 g w1 w2 g0 (r : M T) (k : T -> M U) a b g1 g2 :
  gcod n1 g w1 g0 r a g1 -> gcod n2 g w2 g1 (k a) b g2 -> gcod (n1 + n2) g (w1;; w2) g0 (x <- r; k x) b g2.
Proof.
  intros (b1 & N1 & W1 & R1) (b2 & N2 & W2 & R2). exists (seq_bytes b1 b2). split_and!; [by apply seq_bytes_le| |].
  - intros s d p l Hg Hv Hp Hl. unfold seq_bytes in *. rewrite length_app in *.
    destruct (W1 s d p l Hg Hv Hp) as (f1 & E1 & V1); [lia|].
    destruct (W2 (mk_sg f1 (errno s) (savegame_error s) (junk s) g) _ _ _ eq_refl V1) as (f2 & E2 & V2);
      [rewrite length_app; lia|lia|].
    exists f2. unfold bind. rewrite E1. cbn [obind]. rewrite E2. split; [done|].
    by rewrite V2, app_assoc, Nat.add_assoc.
  - intros s pre post l Hg Hv Hl. unfold seq_bytes in *. rewrite length_app in *.
    set (x := b1 (length pre)) in *. set (y := b2 (length pre + length x)%nat) in *.
    rewrite <- app_assoc in Hv. destruct (R1 s pre (y ++ post) l Hg Hv) as (f1 & E1 & V1); [fold x; lia|].
    fold x in V1. rewrite app_assoc, <- length_app in V1.
    destruct (R2 (mk_sg f1 (errno s) (savegame_error s) (junk s) g1) (pre ++ x) post l eq_refl) as (f2 & E2 & V2).
    { cbn. rewrite V1. f_equal. by rewrite length_app. }
    { rewrite length_app. fold y. lia. }
    exists f2. unfold bind. rewrite E1. cbn [obind]. rewrite E2. split; [done|].
    rewrite V2, length_app. fold y. f_equal; [by rewrite <- !app_assoc|lia].
Qed.

Lemma gcod_ret {T} g g0 (a : T) : gcod 0 g (ret tt) g0 (ret a) a g0.
Proof. apply (gcod_cod 0 g (ret tt) g0 (ret a) a (fun g => g)), cod_ret. Qed.

(** Steps of the writer or the reader that touch no bytes. *)
Lemma gcod_ext {T} n g w w' g0 (r r' : M T) a g1 :
  (forall s, gs s = g -> w s = w' s) -> (forall s, gs s = g0 -> r s = r' s) ->
  gcod n g w g0 r a g1 -> gcod n g w' g0 r' a g1.
Proof.
  intros Hw Hr (bs & N & W & R). exists bs. split_and!; [done| |].
  - intros s d p l Hg. rewrite <- Hw by done. by apply W.
  - intros s pre post l Hg. rewrite <- Hr by done. by apply R.
Qed.

Lemma gcod_ext_r {T} n g w g0 (r r' : M T) a g1 :
  (forall s, gs s = g0 -> r' s = r s) -> gcod n g w g0 r a g1 -> gcod n g w g0 r' a g1.
Proof. intros H. apply gcod_ext; [done|]. intros s Hs. by rewrite H. Qed.

Lemma gcod_ext_w {T} n g w w' g0 (r : M T) a g1 :
  (forall s, gs s = g -> w' s = w s) -> gcod n g w g0 r a g1 -> gcod n g w' g0 r a g1.
Proof. intros H. apply gcod_ext; [|done]. intros s Hs. by rewrite H. Qed.

Lemma bind_assoc_run {T U V} (m : M T) (k : T -> M U) (k' : U -> M V) s :
  bind (bind m k) k' s = bind m (fun x => bind (k x) k') s.
Proof. unfold bind. by destruct (m s) as [[a s']| | |]. Qed.

Lemma gcod_assoc_r {T U V} n g w g0 (m : M T) (k : T -> M U) (k' : U -> M V) a g1 :
  gcod n g w g0 (x <- m; y <- k x; k' y) a g1 -> gcod n g w g0 (y <- (x <- m; k x); k' y) a g1.
Proof. apply gcod_ext_r. intros s _. apply bind_assoc_run. Qed.

Lemma gcod_assoc_w {T} n g (m1 m2 m3 : M unit) g0 (r : M T) a g1 :
  gcod n g (m1;; (m2;; m3)) g0 r a g1 -> gcod n g ((m1;; m2);; m3) g0 r a g1.
Proof. apply gcod_ext_w. intros s _. apply bind_assoc_run. Qed.

Lemma gcod_get_w {T} n g (k : game -> M unit) g0 (r : M T) a g1 :
  gcod n g (k g) g0 r a g1 -> gcod n g (x <- get_gs; k x) g0 r a g1.
Proof. apply gcod_ext_w. by intros s <-. Qed.

Lemma gcod_get_r {T} n g w g0 (k : game -> M T) a g1 :
  gcod n g w g0 (k g0) a g1 -> gcod n g w g0 (x <- get_gs; k x) a g1.
Proof. apply gcod_ext_r. by intros s <-. Qed.

Lemma gcod_lift_w {T U} n g (m : outcome U) (x : U) (k : U -> M unit) g0 (r : M T) a g1 :
  m = Ret x -> gcod n g (k x) g0 r a g1 -> gcod n g (x <- lift m; k x) g0 r a g1.
Proof. intros ->. apply gcod_ext_w. done. Qed.

Lemma gcod_lift_r {T U} n g w g0 (m : outcome U) (x : U) (k : U -> M T) a g1 :
  m = Ret x -> gcod n g w g0 (k x) a g1 -> gcod n g w g0 (x <- lift m; k x) a g1.
Proof. intros ->. apply gcod_ext_r. done. Qed.

Lemma gcod_ret_r {T U} n g w g0 (x : U) (k : U -> M T) a g1 :
  gcod n g w g0 (k x) a g1 -> gcod n g w g0 (x <- ret x; k x) a g1.
Proof. apply gcod_ext_r. done. Qed.

Lemma gcod_ret_w {T} n g w g0 (r : M T) a g1 : gcod n g w g0 r a g1 -> gcod n g (ret tt;; w) g0 r a g1.
Proof. apply gcod_ext_w. done. Qed.

Lemma gcod_nop_w {T} n g w g0 (r : M T) a g1 : gcod n g (w;; ret tt) g0 r a g1 -> gcod n g w g0 r a g1.
Proof.
  apply gcod_ext_w. intros s _. unfold bind, ret. by destruct (w s) as [[[] s']| | |].
Qed.

Lemma gcod_set {T} n g w g0 g1 (k : unit -> M T) a g2 :
  gcod n g w g1 (k tt) a g2 -> gcod n g w g0 (x <- set_gs g1; k x) a g2.
Proof.
  intros (bs & N & W & R). exists bs. split_and!; [done|done|]. intros s pre post l Hg Hv Hl.
  unfold bind, set_gs. cbn [obind].
  by destruct (R (mk_sg (save_stream s) (errno s) (savegame_error s) (junk s) g1) pre post l eq_refl Hv Hl)
    as (f & E & V); exists f.
Qed.

(** A loader that ends by setting the game. *)
Lemma gcod_set_last g g0 g1 : gcod 0 g (ret tt) g0 (set_gs g1) tt g1.
Proof.
  apply (gcod_ext_r _ _ _ _ (x <- set_gs g1; ret x)); [done|]. apply gcod_set, gcod_ret.
Qed.

(** A whole save followed by a whole load. *)
Lemma gcod_run {T} n g w g0 (r : M T) a g1 s d l :
  gcod n g w g0 r a g1 -> gs s = g -> view (save_stream s) = mk_view d (length d) l ->
  (length d + n <= l)%nat ->
  exists bs, (length bs <= n)%nat /\
    exists s', w s = Ret (tt, s') /\ gs s' = g /\ savegame_error s' = savegame_error s /\
      view (save_stream s') = mk_view (d ++ bs) (length d + length bs) l /\
      forall s0, gs s0 = g0 -> view (save_stream s0) = mk_view (d ++ bs) (length d) l ->
        exists s1, r s0 = Ret (a, s1) /\ gs s1 = g1 /\ savegame_error s1 = savegame_error s0 /\
          view (save_stream s1) = mk_view (d ++ bs) (length d + length bs) l.
Proof.
  intros (bs & N & W & R) Hg Hv Hn. exists (bs (length d)). split; [done|]. specialize (N (length d)).
  assert (Hl : (length d + length (bs (length d)) <= l)%nat) by lia.
  destruct (W s d _ l Hg Hv eq_refl Hl) as (f' & E & V). eexists. split; [exact E|]. split_and!; try done.
  intros s0 Hg0 Hv0. destruct (R s0 d [] l Hg0) as (f1 & E1 & V1); rewrite ?app_nil_r in *; try done.
  eexists. split; [exact E1|]. done.
Qed.
End gcod.

(** * Header, players and world *)
(** ** What is restored *)

(** The header: one byte each, three bytes of the time. *)
Definition header_loaded (g g0 : game) : game :=
  g0 <| gameskill := u8 (gameskill g) |> <| gameepisode := u8 (gameepisode g) |>
     <| gamemap := u8 (gamemap g) |> <| playeringame := wrapu 8 <$> playeringame g |>
     <| leveltime := leveltime g mod 2 ^ 24 |>.

Section loaded.
Context {A : Arch}.
Fixpoint loaded_players (ingame : list Z) (old new : list Player.player_t) : list Player.player_t :=
  match ingame, old, new with
  | i :: ingame, o :: old, n :: new =>
      (if truth i then forget_pointers (player_saved o n) else o) :: loaded_players ingame old new
  | _, _, _ => old
  end.
Fixpoint players_ok (ingame : list Z) (l : list Player.player_t) : Prop :=
  match ingame, l with
  | i :: ingame, p :: l => (truth i = true -> player_ok p) /\ players_ok ingame l
  | _, _ => True
  end.
End loaded.

(** Heights and offsets lose their fractions. *)
Definition whole (h : Z) : Z := h / 65536 * 65536.

Definition sector_ok (s : Sector.doomsector_t) : Prop :=
  Forall (fits_s 32) [Sector.floorheight s; Sector.ceilingheight s] /\
  Forall (fits_s 16) [Sector.floorpic s; Sector.ceilingpic s; Sector.lightlevel s; Sector.special s; Sector.tag s].
Definition sector_loaded (o n : Sector.doomsector_t) : Sector.doomsector_t :=
  Sector.mk (whole (Sector.floorheight n)) (whole (Sector.ceilingheight n)) (Sector.floorpic n)
    (Sector.ceilingpic n) (Sector.lightlevel n) (Sector.special n) (Sector.tag n)
    (Sector.soundtraversed o) 0 0 (Sector.lines o).

Definition side_ok (s : Side.side_t) : Prop :=
  Forall (fits_s 32) [Side.textureoffset s; Side.rowoffset s] /\
  Forall (fits_s 16) [Side.toptexture s; Side.bottomtexture s; Side.midtexture s].
Definition side_loaded (o n : Side.side_t) : Side.side_t :=
  Side.mk (whole (Side.textureoffset n)) (whole (Side.rowoffset n)) (Side.toptexture n)
    (Side.bottomtexture n) (Side.midtexture n) (Side.sector o).
(** Only the sides that a line refers to are saved. *)
Definition sides_loaded (nums : list Z) (old new : list Side.side_t) : list Side.side_t :=
  imap (fun k o => if bool_decide (Z.of_nat k ∈ nums)
                   then match new !! k with Some n => side_loaded o n | None => o end else o) old.

Definition line_ok (l : Line.line_t) : Prop :=
  Forall (fits_s 16) [Line.flags l; Line.special l; Line.tag l].
Definition line_loaded (o n : Line.line_t) : Line.line_t :=
  Line.mk (Line.flags n) (Line.special n) (Line.tag n) (Line.sidenum o) (Line.frontsector o) (Line.backsector o).

Definition world_ok (g : game) : Prop :=
  Forall sector_ok (sectors g) /\ Forall line_ok (lines g) /\ Forall side_ok (sides g) /\
  Forall (fun l => Forall (fun n => n = -1 \/ 0 <= n < Z.of_nat (length (sides g))) (Line.sidenum l)) (lines g).
(** The level is the same: as many sectors, lines and sides, joined alike. *)
Definition same_map (g g0 : game) : Prop :=
  length (sectors g) = length (sectors g0) /\ length (sides g) = length (sides g0) /\
  (Line.sidenum <$> lines g) = (Line.sidenum <$> lines g0).
Definition all_sides (l : list Line.line_t) : list Z := concat (Line.sidenum <$> l).
Definition world_loaded (g g0 : game) : game :=
  g0 <| sectors := zip_with sector_loaded (sectors g0) (sectors g) |>
     <| lines := zip_with line_loaded (lines g0) (lines g) |>
     <| sides := sides_loaded (all_sides (lines g)) (sides g0) (sides g) |>.

Section restore.
Context {A : Arch} {F : Type} {ops : FdOps F} {view : F -> fview} {reg : RegularFile F view}.
Abbreviation M := (io F game).
#[local] Abbreviation cod := (SaveIO.cod (F := F) (G := game) (view := view)).
#[local] Abbreviation gcod := (SaveWorld.gcod (F := F) (view := view)).

(** ** Bytes *)
Lemma writes_bytes l : writes (view := view) (G := game) (write_bytes l) (fun _ => wrapu 8 <$> l).
Proof.
  induction l as [|b l IH]; cbn; [apply writes_ret|].
  apply (writes_bind _ _ (fun _ => [u8 b]) (fun _ => wrapu 8 <$> l)); [apply writes8|done].
Qed.

Lemma reads_times l : reads (view := view) (G := game) (read_times (length l)) (fun _ => wrapu 8 <$> l) tt (fun g => g).
Proof.
  induction l as [|b l IH]; cbn; [apply reads_ret|].
  apply (reads_bind saveg_read8 (fun _ => read_times (length l)) (u8 b) tt (fun _ => [u8 b])
    (fun _ => wrapu 8 <$> l) (fun g => g) (fun g => g)); [apply reads8|done].
Qed.

Lemma reads_array8 l :
  reads (view := view) (G := game) (read_array saveg_read8 (length l)) (fun _ => wrapu 8 <$> l) (wrapu 8 <$> l) (fun g => g).
Proof.
  induction l as [|b l IH]; cbn; [apply reads_ret|].
  apply (reads_bind saveg_read8 (fun v => l <- read_array saveg_read8 (length l); ret (v :: l)) (u8 b) _ (fun _ => [u8 b])
    (fun _ => wrapu 8 <$> l) (fun g => g) (fun g => g)); [apply reads8|].
  intros s pre post lim Hv Hl. destruct (IH s pre post lim Hv Hl) as (f & E & V). exists f.
  unfold bind. rewrite E. done.
Qed.

Lemma cod_bytes l n : length l = n -> cod n (write_bytes l) (read_array saveg_read8 n) (wrapu 8 <$> l) (fun g => g).
Proof.
  intros <-. exists (fun _ => wrapu 8 <$> l). split_and!; [by rewrite length_fmap|apply writes_bytes|apply reads_array8].
Qed.

Lemma write_zeros_bytes n : write_zeros (F := F) (G := game) n = write_bytes (replicate n 0).
Proof. induction n as [|n IH]; cbn; [done|]. by rewrite IH. Qed.

Lemma write_bytes_app l1 l2 s :
  write_bytes (F := F) (l1 ++ l2) s = (write_bytes l1;; write_bytes l2) s.
Proof.
  revert s. induction l1 as [|b l1 IH]; intros s; cbn; [done|].
  rewrite bind_assoc_run. unfold bind at 1 2. destruct (saveg_write8 b s) as [[u s']| | |]; cbn [obind]; try done.
Qed.

Lemma cod_description d : (length d <= SAVESTRINGSIZE)%nat ->
  cod SAVESTRINGSIZE (write_bytes d;; write_zeros (SAVESTRINGSIZE - length d)) (read_times SAVESTRINGSIZE) tt (fun g => g).
Proof.
  intros Hd. set (l := d ++ replicate (SAVESTRINGSIZE - length d) 0).
  assert (Hl : length l = SAVESTRINGSIZE) by (unfold l; rewrite length_app, length_replicate; lia).
  apply (cod_ext _ (write_bytes l) _ (read_times (length l))).
  - intros s. unfold l. rewrite write_bytes_app. by rewrite write_zeros_bytes.
  - by rewrite Hl.
  - exists (fun _ => wrapu 8 <$> l). split_and!; [by rewrite length_fmap, Hl|apply writes_bytes|apply reads_times].
Qed.

Lemma cod_array8 n l : length l = n ->
  cod (n * 1) (write_array saveg_write8 n l) (read_array saveg_read8 n) (wrapu 8 <$> l) (fun g => g).
Proof. intros Hn. apply cod_array; [|done]. intros x _. apply cod8. Qed.

(** ** Header *)
Lemma version_code v code : G_VanillaVersionCode v = Ret code ->
  length (version_name code) = VERSIONSIZE /\ (wrapu 8 <$> version_name code) = version_name code /\
  strcmp_eq (version_name code) (version_name code) = true.
Proof.
  intros H. assert (Hc : code = 106 \/ code = 107 \/ code = 108 \/ code = 109)
    by (destruct v; cbn in H; inv_ret; auto).
  destruct Hc as [->|[->|[->| ->]]]; split_and!; vm_compute; done.
Qed.

Lemma time_bytes t :
  Z.shiftl (u8 (Z.land (Z.shiftr t 16) 0xff)) 16 + Z.shiftl (u8 (Z.land (Z.shiftr t 8) 0xff)) 8 +
  u8 (Z.land t 0xff) = t mod 2 ^ 24.
Proof.
  rewrite !byte_of, byte0_of, !Z.shiftl_mul_pow2 by lia. pow2.
  change 16777216 with (256 * (256 * 256)). rewrite !Z.rem_mul_r, Z.div_div by lia.
  change (256 * 256) with 65536. lia.
Qed.

(** A bytewise field: written, read, and on. *)
Lemma gcod_step {T U} n1 n2 g w1 w2 g0 (r : M T) (k : T -> M U) a b g2 :
  cod n1 w1 r a (fun g => g) -> gcod n2 g w2 g0 (k a) b g2 -> gcod (n1 + n2) g (w1;; w2) g0 (x <- r; k x) b g2.
Proof. intros H1. by apply gcod_bind, (gcod_cod n1 g w1 g0 r a (fun g => g)). Qed.

Lemma gcod_last {T U} n1 n2 g w g0 (r : M T) (k : T -> M U) a b g2 :
  cod n1 w r a (fun g => g) -> gcod n2 g (ret tt) g0 (k a) b g2 -> gcod (n1 + n2) g w g0 (x <- r; k x) b g2.
Proof. intros H1 H2. apply gcod_nop_w. by eapply gcod_step. Qed.

(** The header behind the version: what both functions do there. *)
Definition write_header_tail : M unit :=
  g <- get_gs;
  saveg_write8 (gameskill g);;
  saveg_write8 (gameepisode g);;
  saveg_write8 (gamemap g);;
  write_array saveg_write8 MAXPLAYERS (playeringame g);;
  saveg_write8 (Z.land (Z.shiftr (leveltime g) 16) 0xff);;
  saveg_write8 (Z.land (Z.shiftr (leveltime g) 8) 0xff);;
  saveg_write8 (Z.land (leveltime g) 0xff).

Lemma write_header_run v code d s : G_VanillaVersionCode v = Ret code ->
  P_WriteSaveGameHeader v d s =
  ((write_bytes d;; write_zeros (SAVESTRINGSIZE - length d));; (write_bytes (version_name code);; write_header_tail)) s.
Proof.
  intros Hv. unfold P_WriteSaveGameHeader, write_header_tail, bind, lift. rewrite Hv.
  destruct (write_bytes d s) as [[u s1]| | |]; cbn [obind]; done.
Qed.

Lemma gcod_header_tail g g0 : length (playeringame g) = MAXPLAYERS ->
  gcod 10 g write_header_tail g0
    (skill <- saveg_read8; episode <- saveg_read8; map <- saveg_read8;
     pig <- read_array saveg_read8 MAXPLAYERS;
     a <- saveg_read8; b <- saveg_read8; c <- saveg_read8;
     g <- get_gs;
     set_gs (g <| gameskill := skill |> <| gameepisode := episode |> <| gamemap := map |>
               <| playeringame := pig |> <| leveltime := Z.shiftl a 16 + Z.shiftl b 8 + c |>);;
     ret true) true (header_loaded g g0).
Proof.
  intros Hp. apply (gcod_le (1 + (1 + (1 + (MAXPLAYERS * 1 + (1 + (1 + (1 + 0)))))))); [|by apply Nat.leb_le]. apply gcod_get_w.
  do 3 (eapply gcod_step; [apply cod8|]). eapply gcod_step; [by apply cod_array8|].
  do 2 (eapply gcod_step; [apply cod8|]). eapply gcod_last; [apply cod8|].
  apply gcod_get_r, gcod_set. rewrite time_bytes. apply gcod_ret.
Qed.

Lemma gcod_header v code d g g0 :
  G_VanillaVersionCode v = Ret code -> (length d <= SAVESTRINGSIZE)%nat -> length (playeringame g) = MAXPLAYERS ->
  gcod 50 g (P_WriteSaveGameHeader v d) g0 (P_ReadSaveGameHeader v) true (header_loaded g g0).
Proof.
  intros Hv Hd Hp. destruct (version_code v code Hv) as (Hlen & Hid & Hcmp).
  eapply gcod_ext_w; [intros s _; by apply (write_header_run v code)|]. unfold P_ReadSaveGameHeader.
  eapply (gcod_step SAVESTRINGSIZE 26); [by apply cod_description|]. eapply (gcod_step VERSIONSIZE 10); [by apply cod_bytes|].
  eapply gcod_lift_r; [done|]. rewrite Hid, Hcmp. cbn [negb]. by apply gcod_header_tail.
Qed.

(** A reader of another version stops behind the version. *)
Lemma gcod_header_other v v' code code' d g g0 :
  G_VanillaVersionCode v = Ret code -> G_VanillaVersionCode v' = Ret code' -> code <> code' ->
  (length d <= SAVESTRINGSIZE)%nat ->
  gcod 40 g ((write_bytes d;; write_zeros (SAVESTRINGSIZE - length d));; write_bytes (version_name code)) g0
    (P_ReadSaveGameHeader v') false g0.
Proof.
  intros Hv Hv' Hne Hd. destruct (version_code v code Hv) as (Hlen & Hid & _).
  assert (Hc : strcmp_eq (version_name code) (version_name code') = false).
  { destruct v, v'; cbn in Hv, Hv'; inv_ret; done || vm_compute; reflexivity. }
  unfold P_ReadSaveGameHeader. eapply (gcod_step SAVESTRINGSIZE 16); [by apply cod_description|].
  eapply (gcod_last VERSIONSIZE 0); [by apply cod_bytes|]. eapply gcod_lift_r; [done|]. rewrite Hid, Hc. apply gcod_ret.
Qed.

Lemma gcod_eof g g0 : gcod 1 g P_WriteSaveGameEOF g0 P_ReadSaveGameEOF true g0.
Proof. eapply (gcod_last 1 0); [apply cod8|]. apply (gcod_ret g g0 true). Qed.

(** ** Players *)
Lemma gcod_players_loop g g0 n : forall ig old new,
  length ig = n -> length old = n -> length new = n -> players_ok ig new ->
  gcod (n * (3 + PLAYER)) g (archive_players n ig new) g0 (unarchive_players n ig old) (loaded_players ig old new) g0.
Proof.
  induction n as [|n IH]; intros ig old new H1 H2 H3 Hok.
  { destruct ig, old, new; try done. apply gcod_ret. }
  destruct ig as [|i ig], old as [|o old], new as [|p new]; try done. cbn [archive_players unarchive_players loaded_players].
  destruct Hok as [Hp Hok]. injection H1 as H1. injection H2 as H2. injection H3 as H3.
  specialize (IH ig old new H1 H2 H3 Hok). destruct (truth i).
  - apply (gcod_le (3 + (PLAYER + (n * (3 + PLAYER) + 0)))); [|cbn; lia].
    eapply gcod_step; [apply cod_pad|]. eapply gcod_step; [by apply cod_player, Hp|].
    apply gcod_nop_w. eapply gcod_bind; [exact IH|]. apply gcod_ret.
  - apply (gcod_le (n * (3 + PLAYER) + 0)); [|cbn; lia].
    apply gcod_nop_w. eapply gcod_bind; [exact IH|]. apply gcod_ret.
Qed.

Lemma gcod_players g g0 :
  playeringame g0 = playeringame g -> length (playeringame g) = MAXPLAYERS ->
  length (players g) = MAXPLAYERS -> length (players g0) = MAXPLAYERS -> players_ok (playeringame g) (players g) ->
  gcod (MAXPLAYERS * (3 + PLAYER)) g P_ArchivePlayers g0 P_UnArchivePlayers tt
    (g0 <| players := loaded_players (playeringame g) (players g0) (players g) |>).
Proof.
  intros E H1 H2 H3 Hok. apply gcod_get_w, gcod_get_r. rewrite E. apply gcod_nop_w.
  rewrite <- (Nat.add_0_r (_ * _)). eapply gcod_bind; [by apply gcod_players_loop|]. apply gcod_set_last.
Qed.

(** ** World *)
Lemma whole_saved h : fits_s 32 h -> i32 (Z.shiftl (i16 (Z.shiftr h FRACBITS)) FRACBITS) = whole h.
Proof.
  intros H. unfold FRACBITS, whole. rewrite Z.shiftr_div_pow2, Z.shiftl_mul_pow2 by lia.
  unfold fits_s in H. cbn in H. pow2.
  rewrite (wraps_id 16); [|lia|unfold fits_s; cbn; zlia]. apply wraps_id; [lia|]. unfold fits_s. cbn. zlia.
Qed.

Ltac split_ok := repeat match goal with
  | H : _ /\ _ |- _ => destruct H
  | H : Forall _ (_ :: _) |- _ => apply Forall_cons in H
  end.

Lemma cod_sector o n : sector_ok n -> cod 14 (archive_sector n) (unarchive_sector o) (sector_loaded o n) (fun g => g).
Proof.
  intros H. unfold sector_ok in H. split_ok. unfold archive_sector, unarchive_sector.
  eapply cod_le; [do 6 (eapply cod_bind; [apply cod16|]; cbv beta zeta); eapply cod_last; [apply cod16|]|cbn; lia].
  rewrite !whole_saved, !(wraps_id 16) by (assumption || reflexivity). by destruct o.
Qed.

Lemma gcod_sectors g g0 : forall old new, length old = length new -> Forall sector_ok new ->
  gcod (14 * length new) g (archive_sectors new) g0 (unarchive_sectors old) (zip_with sector_loaded old new) g0.
Proof.
  induction old as [|o old IH]; intros [|n new] Hl Hok; try done; cbn [archive_sectors unarchive_sectors zip_with]; [apply gcod_ret|].
  apply Forall_cons in Hok as [Hn Hok]. apply (gcod_le (14 + (14 * length new + 0))); [|cbn; lia].
  eapply gcod_step; [by apply cod_sector|].
  apply gcod_nop_w. eapply gcod_bind; [apply IH; [by injection Hl|done]|]. apply gcod_ret.
Qed.

Lemma cod_side o n : side_ok n -> cod 10 (archive_side n) (unarchive_side o) (side_loaded o n) (fun g => g).
Proof.
  intros H. unfold side_ok in H. split_ok. unfold archive_side, unarchive_side.
  eapply cod_le; [do 4 (eapply cod_bind; [apply cod16|]; cbv beta zeta); eapply cod_last; [apply cod16|]|cbn; lia].
  rewrite !whole_saved, !(wraps_id 16) by (assumption || reflexivity). by destruct o.
Qed.

(** Loading one more side. *)
Lemma sides_loaded_insert nums num old new o n :
  old !! num = Some o -> new !! num = Some n ->
  exists o', sides_loaded nums old new !! num = Some o' /\
    <[num := side_loaded o' n]> (sides_loaded nums old new) = sides_loaded (nums ++ [Z.of_nat num]) old new.
Proof.
  intros Ho Hn. unfold sides_loaded. rewrite list_lookup_imap, Ho. cbn. eexists. split; [done|].
  apply list_eq. intros k. destruct (decide (num = k)) as [<-|Hne].
  - rewrite list_lookup_insert_eq; [|rewrite length_imap; by eapply lookup_lt_Some].
    rewrite list_lookup_imap, Ho. cbn. rewrite Hn.
    rewrite (bool_decide_eq_true_2 (Z.of_nat num ∈ nums ++ _)) by (rewrite elem_of_app, list_elem_of_singleton; auto).
    f_equal. by case_bool_decide.
  - rewrite list_lookup_insert_ne, !list_lookup_imap by done.
    destruct (old !! k) as [ok|]; [|done]. cbn. f_equal.
    assert (E : bool_decide (Z.of_nat k ∈ nums) = bool_decide (Z.of_nat k ∈ nums ++ [Z.of_nat num])).
    { apply bool_decide_ext. rewrite elem_of_app, list_elem_of_singleton. intuition lia. }
    by rewrite E.
Qed.

Lemma sides_loaded_skip nums old new : sides_loaded (nums ++ [-1]) old new = sides_loaded nums old new.
Proof.
  unfold sides_loaded. apply imap_ext. intros k o _.
  assert (E : bool_decide (Z.of_nat k ∈ nums ++ [-1]) = bool_decide (Z.of_nat k ∈ nums)).
  { apply bool_decide_ext. rewrite elem_of_app, list_elem_of_singleton. intuition lia. }
  by rewrite E.
Qed.

Lemma sides_loaded_nil old new : sides_loaded [] old new = old.
Proof.
  unfold sides_loaded. rewrite <- (list_fmap_id old) at 2. rewrite <- imap_const. apply imap_ext. intros. done.
Qed.

Lemma gcod_sides g g0 old new : length old = length new -> Forall side_ok new -> forall nums done_,
  Forall (fun n => n = -1 \/ 0 <= n < Z.of_nat (length new)) nums ->
  gcod (10 * length nums) g (archive_sides new nums) g0 (unarchive_sides (sides_loaded done_ old new) nums)
    (sides_loaded (done_ ++ nums) old new) g0.
Proof.
  intros Hl Hok. induction nums as [|num nums IH]; intros done_ Hr; cbn [archive_sides unarchive_sides].
  { rewrite app_nil_r. apply gcod_ret. }
  apply Forall_cons in Hr as [Hn Hr].
  replace (done_ ++ num :: nums) with ((done_ ++ [num]) ++ nums) by (by rewrite <- app_assoc).
  destruct (num =? -1) eqn:E; breflect.
  { subst num. rewrite <- (sides_loaded_skip done_) at 1. eapply gcod_le; [by apply IH|cbn; lia]. }
  destruct Hn as [?|Hn]; [done|]. unfold side_at.
  replace (num <? 0) with false by (symmetry; apply Z.ltb_ge; lia).
  destruct (lookup_lt_is_Some_2 new (Z.to_nat num)) as [n Hnew]; [lia|].
  destruct (lookup_lt_is_Some_2 old (Z.to_nat num)) as [o Hold]; [lia|].
  destruct (sides_loaded_insert done_ (Z.to_nat num) old new o n Hold Hnew) as (o' & Ho' & E').
  rewrite Hnew, Ho'. apply (gcod_le (10 + 10 * length nums)); [|cbn; lia]. eapply gcod_step.
  - apply cod_side. by eapply Forall_lookup_1.
  - cbv beta. rewrite E', Z2Nat.id by lia. by apply IH.
Qed.

(** The bytes of the lines. *)
Definition lines_size (l : list Line.line_t) : nat := sum_list_with (fun li => 6 + 10 * length (Line.sidenum li))%nat l.

Lemma gcod_lines g g0 old new : length old = length new -> Forall side_ok new -> forall lo ln done_,
  (Line.sidenum <$> lo) = (Line.sidenum <$> ln) -> Forall line_ok ln ->
  Forall (fun l => Forall (fun n => n = -1 \/ 0 <= n < Z.of_nat (length new)) (Line.sidenum l)) ln ->
  gcod (lines_size ln) g (archive_lines new ln) g0 (unarchive_lines (sides_loaded done_ old new) lo)
    (zip_with line_loaded lo ln, sides_loaded (done_ ++ all_sides ln) old new) g0.
Proof.
  intros Hl Hok. induction lo as [|o lo IH]; intros [|n ln] done_ Hs Hln Hr; try done; cbn [archive_lines unarchive_lines zip_with].
  { unfold all_sides. cbn. rewrite app_nil_r. apply gcod_ret. }
  cbn in Hs. injection Hs as Es Hs. apply Forall_cons in Hln as [Hn Hln]. apply Forall_cons in Hr as [Hrn Hr].
  unfold line_ok in Hn. split_ok. unfold archive_line, unarchive_line. rewrite Es.
  apply (gcod_le (2 + (2 + (2 + (10 * length (Line.sidenum n) + (lines_size ln + 0)))))); [|unfold lines_size; cbn; lia].
  apply gcod_assoc_w, gcod_assoc_r. do 2 (eapply gcod_step; [apply cod16|]; apply gcod_assoc_w, gcod_assoc_r).
  eapply gcod_step; [apply cod16|]. apply gcod_assoc_r.
  eapply gcod_bind; [by apply gcod_sides|]. apply gcod_ret_r. cbn [fst snd]. apply gcod_nop_w.
  eapply gcod_bind; [by apply IH|]. cbn [fst snd]. unfold all_sides. cbn [fmap list_fmap concat].
  rewrite app_assoc, !(wraps_id 16) by (assumption || reflexivity).
  match goal with |- SaveWorld.gcod _ _ _ _ (ret (?x, _)) (?y, _) _ => replace x with y; [apply gcod_ret|] end.
  by destruct o.
Qed.

Lemma gcod_world g g0 : world_ok g -> same_map g g0 ->
  gcod (14 * length (sectors g) + lines_size (lines g)) g P_ArchiveWorld g0 P_UnArchiveWorld tt (world_loaded g g0).
Proof.
  intros (Hsec & Hli & Hsi & Hr) (L1 & L2 & L3). apply gcod_get_w, gcod_get_r.
  eapply gcod_bind; [by apply gcod_sectors|]. apply gcod_nop_w. rewrite <- (Nat.add_0_r (lines_size _)).
  rewrite <- (sides_loaded_nil (sides g0) (sides g)).
  eapply gcod_bind; [by apply (gcod_lines g g0 (sides g0) (sides g))|].
  cbn [fst snd app]. apply gcod_set_last.
Qed.
End restore.
