(* ===== verification/SaveThinkers.v ===== *)
(** * Savegames: the objects of the level come back *)
From S2P Require Import Prelude Stdio GameTypes Thinkers SaveIO SaveStructs SaveCodec SaveArchive SaveWorld.
#[local] Open Scope doom_scope.
#[local] Open Scope io_scope.

(** ** What the loader relies on *)

(** An object after it was linked into the map: its five links are new. *)
Definition placed (m m' : Mobj.mobj_t) : Prop :=
  exists sn sp bn bp ss,
    m' = Mobj.mk (Mobj.thinker m) (Mobj.x m) (Mobj.y m) (Mobj.z m) sn sp (Mobj.angle m) (Mobj.sprite m)
      (Mobj.frame m) bn bp ss (Mobj.floorz m) (Mobj.ceilingz m) (Mobj.radius m) (Mobj.height m) (Mobj.momx m)
      (Mobj.momy m) (Mobj.momz m) (Mobj.validcount m) (Mobj.type m) (Mobj.info m) (Mobj.tics m) (Mobj.state m)
      (Mobj.flags m) (Mobj.health m) (Mobj.movedir m) (Mobj.movecount m) (Mobj.target m) (Mobj.reactiontime m)
      (Mobj.threshold m) (Mobj.player m) (Mobj.lastlook m) (Mobj.spawnpoint m) (Mobj.tracer m).

(** Linking another object in changes at most the back links of this one. *)
Definition back_links (x y : Z * thing) : Prop :=
  x.1 = y.1 /\
  (x.2 = y.2 \/ exists m sp bp, x.2 = TMobj m /\ y.2 = TMobj (m <| Mobj.sprev := sp |> <| Mobj.bprev := bp |>)).

Class LevelLaws {A : Arch} {lv : Level} : Prop := {
  fn_inj a b : fn_addr a = fn_addr b -> a = b;
  fn_saved a : ptr32 (fn_addr a) <> 0;
  remove_ok a m g : P_RemoveMobj a m g = Ret tt;
  free_ok a g : lv_free a g = Ret tt;
  malloc_ok g : exists p, lv_malloc g = Ret p /\ p <> 0 /\ p ∉ fst <$> thinkers g;
  position_ok a m g : sectors g <> [] -> exists m' l sec,
    P_SetThingPosition a m g = (m', g <| thinkers := l |>) /\ placed m m' /\
    Forall2 back_links (thinkers g) l /\ sectors g !! subsector_sector (Mobj.subsector m') = Some sec
}.

(** ** What is restored *)
Section restored.
Context {A : Arch} {lv : Level}.

(** The object with the data of [m], new links, no target or tracer. *)
Definition mobj_restored (m : Mobj.mobj_t) (th : Thinker.thinker_t) (sn sp bn bp ss : Z)
    (sec : Sector.doomsector_t) : Mobj.mobj_t :=
  Mobj.mk th (Mobj.x m) (Mobj.y m) (Mobj.z m) sn sp (Mobj.angle m) (Mobj.sprite m)
    (Mobj.frame m) bn bp ss (Sector.floorheight sec) (Sector.ceilingheight sec) (Mobj.radius m)
    (Mobj.height m) (Mobj.momx m) (Mobj.momy m) (Mobj.momz m) (Mobj.validcount m) (Mobj.type m)
    (mobjinfo_at (Mobj.type m)) (Mobj.tics m) (Mobj.state m) (Mobj.flags m) (Mobj.health m)
    (Mobj.movedir m) (Mobj.movecount m) 0 (Mobj.reactiontime m) (Mobj.threshold m) (Mobj.player m)
    (Mobj.lastlook m) (Mobj.spawnpoint m) 0.

Definition restored (secs : list Sector.doomsector_t) (m : Mobj.mobj_t) (x : Z * thing) : Prop :=
  exists th sn sp bn bp ss sec, x.2 = TMobj (mobj_restored m th sn sp bn bp ss sec) /\
    Thinker.function th = fn_addr P_MobjThinker /\ secs !! subsector_sector ss = Some sec.

(** The objects that are saved. *)
Fixpoint live_mobjs (l : list (Z * thing)) : list Mobj.mobj_t :=
  match l with
  | [] => []
  | (_, th) :: l =>
      if thing_function th =? fn_addr P_MobjThinker
      then match th with TMobj m => m :: live_mobjs l | _ => live_mobjs l end
      else live_mobjs l
  end.

(** [players[i].mo] after the objects [ms] were loaded at the addresses. *)
Fixpoint set_mos (l : list (Z * thing)) (ms : list Mobj.mobj_t) (ps : list Player.player_t) : list Player.player_t :=
  match l, ms with
  | x :: l, m :: ms =>
      set_mos l ms (match Mobj.player m with
                    | Some i => alter (fun p => p <| Player.mo := x.1 |>) (Z.to_nat i) ps
                    | None => ps
                    end)
  | _, _ => ps
  end.

Definition of_kind (a : action) (th : thing) : Prop :=
  match a, th with
  | P_MobjThinker, TMobj _ | T_MoveCeiling, TCeiling _ | T_VerticalDoor, TDoor _ | T_MoveFloor, TFloor _
  | T_PlatRaise, TPlat _ | T_LightFlash, TFlash _ | T_StrobeFlash, TStrobe _ | T_Glow, TGlow _
  | T_FireFlicker, TFlicker _ => True
  | _, _ => False
  end.
Definition thing_ok (th : thing) : Prop :=
  match th with
  | TMobj m => mobj_ok m
  | TCeiling c => ceiling_ok c
  | TDoor d => vldoor_ok d
  | TFloor f => floormove_ok f
  | TPlat p => plat_ok p
  | TFlash f => lightflash_ok f
  | TStrobe s => strobe_ok s
  | TGlow g => glow_ok g
  | TFlicker _ => True
  end.
(** The thinkers of a level: their functions belong to their objects, their
    fields have the ranges of their types, and what sits in the list of
    active ceilings without a function is a ceiling in stasis. *)
Definition thinker_ok (active : list Z) (x : Z * thing) : Prop :=
  thing_ok x.2 /\ (forall a, thing_function x.2 = fn_addr a -> of_kind a x.2) /\
  (thing_function x.2 = 0 -> x.1 ∈ active -> exists c, x.2 = TCeiling c).
End restored.

Section thinkers.
Context {A : Arch} {F : Type} {ops : FdOps F} {view : F -> fview} {reg : RegularFile F view}.
Context {lv : Level} {laws : LevelLaws}.
#[local] Abbreviation M := (io F game).
#[local] Abbreviation gcod := (SaveWorld.gcod (F := F) (view := view)).

Lemma restored_back secs m x y : back_links x y -> restored secs m x -> restored secs m y.
Proof.
  intros (E1 & [E2|(m0 & sp' & bp' & E2 & E3)]) (th & sn & sp & bn & bp & ss & sec & E & Hf & Hs).
  - exists th, sn, sp, bn, bp, ss, sec. by rewrite <- E2.
  - exists th, sn, sp', bn, bp', ss, sec. split; [|done]. rewrite E3. rewrite E2 in E.
    injection E as ->. done.
Qed.

Lemma back_links_addr l l' : Forall2 back_links l l' -> fst <$> l = fst <$> l'.
Proof. induction 1 as [|x y l l' [E _] _ IH]; cbn; [done|]. by rewrite E, IH. Qed.

Lemma restored_backs secs ms l l' :
  Forall2 back_links l l' -> Forall2 (restored secs) ms l -> Forall2 (restored secs) ms l'.
Proof.
  intros H. revert ms. induction H as [|x y l l' Hxy _ IH]; intros ms Hm.
  - done.
  - apply Forall2_cons_inv_r in Hm as (m & ms' & Hm & Hms & ->). constructor; eauto using restored_back.
Qed.

Lemma set_mos_addr l l' ms ps : fst <$> l = fst <$> l' -> set_mos l ms ps = set_mos l' ms ps.
Proof.
  revert l' ms ps. induction l as [|x l IH]; intros [|y l'] ms ps E; try done.
  cbn in E. injection E as E1 E2. destruct ms as [|m ms]; [done|]. cbn. rewrite E1. by apply IH.
Qed.

Lemma placed_restored m m' sec :
  placed (mobj_saved m) <| Mobj.target := 0 |> <| Mobj.tracer := 0 |> m' ->
  exists th sn sp bn bp,
    m' <| Mobj.info := mobjinfo_at (Mobj.type m') |>
       <| Mobj.floorz := Sector.floorheight sec |> <| Mobj.ceilingz := Sector.ceilingheight sec |>
       <| Mobj.thinker ::= fun t => t <| Thinker.function := fn_addr P_MobjThinker |> |>
    = mobj_restored m th sn sp bn bp (Mobj.subsector m') sec /\
    Thinker.function th = fn_addr P_MobjThinker.
Proof.
  intros (sn & sp & bn & bp & ss & ->).
  exists (thinker_saved (Mobj.thinker m)) <| Thinker.function := fn_addr P_MobjThinker |>, sn, sp, bn, bp.
  split; [|done]. destruct m. reflexivity.
Qed.

(** The loop over the saved objects. [g1] is [g0] with the new objects behind
    the old ones, which may have got new back links. *)
Definition appended (g0 g1 : game) (ms : list Mobj.mobj_t) : Prop :=
  exists old new, g1 = g0 <| thinkers := old ++ new |> <| players := set_mos new ms (players g0) |> /\
    Forall2 back_links (thinkers g0) old /\ Forall2 (restored (sectors g0)) ms new /\
    (NoDup (fst <$> thinkers g0) -> NoDup (fst <$> (old ++ new))).

(** The bytes of the thinkers, at most. *)
Definition thinkers_size (n : nat) : nat := ((4 + RECORD) * n + 1)%nat.

Lemma thinkers_loop g active : forall l fuel g0,
  Forall (thinker_ok active) l -> (length l < fuel)%nat -> sectors g0 <> [] ->
  exists g1, gcod (thinkers_size (length l)) g (archive_thinkers l;; saveg_write8 tc_end) g0 (unarchive_thinkers fuel) tt g1 /\
    appended g0 g1 (live_mobjs l).
Proof.
  induction l as [|[a th] l IH]; intros fuel g0 Hok Hf Hne; (destruct fuel as [|fuel]; [cbn in Hf; lia|]).
  { exists g0. split.
    - apply gcod_ret_w. eapply (gcod_last 1 0); [apply cod8|]. apply (gcod_ret g g0 tt).
    - exists (thinkers g0), []. rewrite app_nil_r. split_and!; try done.
      + by destruct g0.
      + apply Forall2_same_length_lookup. split; [done|]. intros i x y Hx Hy.
        assert (x = y) as -> by congruence. by split; [|left]. }
  apply Forall_cons in Hok as [(Hth & Hkind & _) Hok]. cbn [archive_thinkers live_mobjs].
  destruct (thing_function th =? fn_addr P_MobjThinker) eqn:E; breflect;
    [|destruct (IH (S fuel) g0 Hok ltac:(cbn in Hf; lia) Hne) as (g1 & Hg & Ha); exists g1; split;
      [eapply gcod_le; [exact Hg|unfold thinkers_size; cbn; lia]|done]].
  specialize (Hkind P_MobjThinker E). destruct th as [m| | | | | | | |]; try done. cbn in Hth.
  destruct (malloc_ok g0) as (self & Hmal & Hnz & Hfresh).
  destruct (position_ok self (mobj_saved m) <| Mobj.target := 0 |> <| Mobj.tracer := 0 |> (mobj_effect self m g0))
    as (m' & lk & sec & Hpos & Hpl & Hlk & Hsec).
  { unfold mobj_effect. by destruct (Mobj.player m). }
  destruct (placed_restored m m' sec Hpl) as (th & sn & sp & bn & bp & Em & Hfn).
  set (mr := mobj_restored m th sn sp bn bp (Mobj.subsector m') sec) in *.
  set (ga := P_AddThinker self (TMobj mr) (mobj_effect self m g0) <| thinkers := lk |>).
  assert (Es : sectors ga = sectors g0) by (unfold ga, mobj_effect; by destruct (Mobj.player m)).
  destruct (IH fuel ga Hok ltac:(cbn in Hf; lia)) as (g1 & Hg & (old & new & E1 & Hold & Hnew & Hnd)).
  { by rewrite Es. }
  exists g1. split.
  - apply (gcod_le (1 + (3 + (RECORD + thinkers_size (length l))))); [|unfold thinkers_size; cbn; lia].
    apply gcod_assoc_w. eapply gcod_step; [apply cod8|]. change (u8 tc_mobj) with 1.
    cbn [Z.eqb Pos.eqb tc_end tc_mobj]. apply gcod_assoc_w, gcod_assoc_r.
    eapply gcod_step; [apply cod_pad|]. apply gcod_assoc_w, gcod_assoc_r, gcod_get_r, gcod_assoc_r.
    eapply gcod_lift_r; [exact Hmal|]. apply gcod_assoc_r.
    eapply gcod_bind; [apply gcod_cod, cod_mobj; exact Hth|]. apply gcod_assoc_r, gcod_get_r. cbv zeta.
    rewrite Hpos. apply gcod_assoc_r. eapply gcod_lift_r; [cbn; rewrite Hsec; done|].
    rewrite Em. apply gcod_set. exact Hg.
  - assert (Et : thinkers ga = lk ++ [(self, TMobj mr)]) by done.
    assert (Ep : players ga = match Mobj.player m with
      | Some i => alter (fun p => p <| Player.mo := self |>) (Z.to_nat i) (players g0)
      | None => players g0 end) by (unfold ga, mobj_effect; by destruct (Mobj.player m)).
    assert (El : thinkers (mobj_effect self m g0) = thinkers g0) by (unfold mobj_effect; by destruct (Mobj.player m)).
    rewrite El in Hlk. rewrite Et in Hold, Hnd. rewrite Es in Hnew.
    apply Forall2_app_inv_l in Hold as (oa & ob & Ha & Hb & ->).
    apply Forall2_cons_inv_l in Hb as (y & ob' & Hy & Hb & ->). apply Forall2_nil_inv_l in Hb as ->.
    exists oa, (y :: new). split_and!.
    + rewrite E1, Ep. change (oa ++ y :: new) with (oa ++ [y] ++ new). rewrite (app_assoc oa).
      cbn [set_mos]. replace y.1 with self by (by destruct Hy).
      unfold ga, mobj_effect. by destruct (Mobj.player m).
    + clear -Hlk Ha. revert oa Ha. induction Hlk as [|x z l l' Hxz _ IH]; intros oa Ha.
      * by apply Forall2_nil_inv_l in Ha as ->.
      * apply Forall2_cons_inv_l in Ha as (w & oa' & Hw & Ha & ->). constructor; [|by apply IH].
        destruct Hxz as (E1 & H1), Hw as (E2 & H2). split; [congruence|].
        destruct H1 as [H1|(m1 & s1 & b1 & F1 & F2)], H2 as [H2|(m2 & s2 & b2 & F3 & F4)].
        -- left. congruence.
        -- right. exists m2, s2, b2. by rewrite H1.
        -- right. exists m1, s1, b1. by rewrite <- H2.
        -- right. exists m1, s2, b2. split; [done|]. rewrite F4. rewrite F2 in F3. injection F3 as <-. done.
    + constructor; [|done]. eapply restored_back; [exact Hy|].
      exists th, sn, sp, bn, bp, (Mobj.subsector m'), sec. split_and!; try done.
      cbn in Hsec. unfold mobj_effect in Hsec. by destruct (Mobj.player m).
    + intros H0. change (oa ++ y :: new) with (oa ++ [y] ++ new). rewrite (app_assoc oa).
      apply Hnd. rewrite fmap_app, <- (back_links_addr _ _ Hlk). cbn.
      apply NoDup_app. split_and!; [done| |apply NoDup_singleton].
      intros x Hx. rewrite list_elem_of_singleton. by intros ->.
Qed.

Lemma remove_thinkers_run active l s : Forall (thinker_ok active) l ->
  remove_thinkers (F := F) l s = Ret (tt, s).
Proof.
  induction l as [|[a th] l IH]; intros Hok; [done|]. apply Forall_cons in Hok as [(_ & Hkind & _) Hok].
  cbn [remove_thinkers]. unfold bind, get_gs. cbn [obind].
  destruct (thing_function th =? fn_addr P_MobjThinker) eqn:E; breflect.
  - specialize (Hkind P_MobjThinker E). destruct th; try done. unfold lift. rewrite remove_ok. cbn [obind]. by apply IH.
  - unfold lift. rewrite free_ok. cbn [obind]. by apply IH.
Qed.

Lemma gcod_thinkers g g0 fuel :
  Forall (thinker_ok (activeceilings g)) (thinkers g) -> Forall (thinker_ok (activeceilings g0)) (thinkers g0) ->
  (length (thinkers g) < fuel)%nat -> sectors g0 <> [] ->
  exists new, Forall2 (restored (sectors g0)) (live_mobjs (thinkers g)) new /\ NoDup (fst <$> new) /\
    gcod (thinkers_size (length (thinkers g))) g P_ArchiveThinkers g0 (P_UnArchiveThinkers fuel) tt
      (g0 <| thinkers := new |> <| players := set_mos new (live_mobjs (thinkers g)) (players g0) |>).
Proof.
  intros Hok Hok0 Hf Hne.
  destruct (thinkers_loop g (activeceilings g) (thinkers g) fuel (P_InitThinkers g0) Hok Hf Hne) as (g1 & Hg & Happ).
  destruct Happ as (old & new & E & Hold & Hnew & Hnd). apply Forall2_nil_inv_l in Hold as ->.
  cbn in E, Hnd. exists new. split_and!; [done|by apply Hnd, NoDup_nil|].
  apply gcod_get_w, gcod_get_r.
  rewrite E in Hg. eapply gcod_ext_r; [|apply (gcod_set _ g _ g0 (P_InitThinkers g0) (fun _ => unarchive_thinkers fuel)); exact Hg].
  intros s Hs. unfold bind at 1. by rewrite (remove_thinkers_run (activeceilings g0)).
Qed.
End thinkers.

(** * Savegames: the movers and lights of the level come back *)

(** A loaded special: the data of the saved one, its function, new links. *)
Definition special_restored (th : thing) (x : Z * thing) : Prop :=
  exists t, Thinker.function t = thing_function th /\ x.2 = with_thinker th t.

(** What loading one special does to the game. *)
Definition restore_special (x : Z * thing) (g : game) : outcome game :=
  let* g := (match mover_sector x.2 with Some sec => set_specialdata sec x.1 g | None => Ret g end) in
  let g := P_AddThinker x.1 x.2 g in
  match x.2 with
  | TCeiling _ => Ret (P_AddActiveCeiling x.1 g)
  | TPlat _ => P_AddActivePlat x.1 g
  | _ => Ret g
  end.
Fixpoint restore_specials (l : list (Z * thing)) (g : game) : outcome game :=
  match l with [] => Ret g | x :: l => let* g := restore_special x g in restore_specials l g end.

Section specials.
Context {A : Arch} {F : Type} {ops : FdOps F} {view : F -> fview} {reg : RegularFile F view}.
Context {lv : Level} {laws : LevelLaws}.
#[local] Abbreviation M := (io F game).
#[local] Abbreviation gcod := (SaveWorld.gcod (F := F) (view := view)).

Definition special_actions : list action :=
  [T_MoveCeiling; T_VerticalDoor; T_MoveFloor; T_PlatRaise; T_LightFlash; T_StrobeFlash; T_Glow].
(** The thinkers that [P_ArchiveSpecials] saves. *)
Definition is_special (active : list Z) (x : Z * thing) : bool :=
  let fn := thing_function x.2 in
  if fn =? 0 then bool_decide (x.1 ∈ active) else existsb (fun a => fn =? fn_addr a) special_actions.
Fixpoint saved_specials (active : list Z) (l : list (Z * thing)) : list thing :=
  match l with
  | [] => []
  | x :: l => if is_special active x then x.2 :: saved_specials active l else saved_specials active l
  end.

Definition is_plat (th : thing) : bool := match th with TPlat _ => true | _ => false end.
Definition plats (l : list thing) : nat := length (filter (fun th => is_plat th = true) l).
Lemma plats_cons th l : plats (th :: l) = ((if is_plat th then 1 else 0) + plats l)%nat.
Proof. unfold plats. rewrite filter_cons. by destruct (is_plat th). Qed.
Definition sector_in (g : game) (th : thing) : Prop :=
  forall s, mover_sector th = Some s -> 0 <= s < Z.of_nat (length (sectors g)).

Lemma restore_special_ok x g : x.1 <> 0 -> sector_in g x.2 -> (plats [x.2] <= slots (activeplats g))%nat ->
  exists g', restore_special x g = Ret g' /\ thinkers g' = thinkers g ++ [x] /\
    length (sectors g') = length (sectors g) /\ (slots (activeplats g) = slots (activeplats g') + plats [x.2])%nat.
Proof.
  intros Hx Hsec Hp. rewrite plats_cons in *. change (plats []) with 0%nat in *. destruct x as [a th]. cbn [fst snd] in *. unfold restore_special. cbn [fst snd].
  assert (H1 : exists g1, (match mover_sector th with Some sec => set_specialdata sec a g | None => Ret g end) = Ret g1 /\
    thinkers g1 = thinkers g /\ length (sectors g1) = length (sectors g) /\ activeplats g1 = activeplats g /\
    activeceilings g1 = activeceilings g).
  { destruct (mover_sector th) as [s|] eqn:Es; [|by exists g]. specialize (Hsec s Es).
    unfold set_specialdata. replace (s <? 0) with false by (symmetry; apply Z.ltb_ge; lia).
    destruct (lookup_lt_is_Some_2 (sectors g) (Z.to_nat s)) as [sec ->]; [lia|].
    eexists. split; [done|]. split_and!; try done. unfold update. cbn. apply length_insert. }
  destruct H1 as (g1 & -> & H2 & H3 & H4 & H5). cbn [obind].
  assert (Ht : thinkers (P_AddThinker a th g1) = thinkers g ++ [(a, th)]) by (unfold P_AddThinker, update; cbn; by rewrite H2).
  destruct th; try (eexists; split; [done|]; cbn; rewrite H4; split_and!; [by rewrite H2|done|lia]).
  - eexists. split; [done|]. unfold P_AddActiveCeiling. destruct (first_free _ _); cbn; rewrite H4;
      (split_and!; [by rewrite H2|done|lia]).
  - unfold P_AddActivePlat. change (activeplats (P_AddThinker a (TPlat p) g1)) with (activeplats g1).
    rewrite H4. cbn in Hp.
    destruct (first_free_some (activeplats g) a Hx) as (l' & -> & Hs & _); [lia|].
    eexists. split; [done|]. cbn. split_and!; [by rewrite H2|done|]. rewrite Hs. cbn. lia.
Qed.

(** ** One special *)
Lemma gcod_special {T} n1 n2 (w w' : M unit) (r : M T) (x : T) (k : Z -> T -> game -> outcome game) g g0 loop g1 g2 self :
  SaveIO.cod (G := game) (view := view) n1 w r x (fun g => g) -> lv_malloc g0 = Ret self -> k self x g0 = Ret g1 ->
  gcod n2 g w' g1 loop tt g2 -> gcod (3 + (n1 + n2)) g ((saveg_write_pad;; w);; w') g0 (with_new r k;; loop) tt g2.
Proof.
  intros Hc Hm Hk Hl. apply gcod_assoc_w. unfold with_new. apply gcod_assoc_r.
  eapply gcod_step; [apply cod_pad|]. apply gcod_assoc_r, gcod_get_r, gcod_assoc_r.
  eapply gcod_lift_r; [exact Hm|]. apply gcod_assoc_r. eapply gcod_step; [exact Hc|].
  apply gcod_assoc_r, gcod_get_r, gcod_assoc_r. eapply gcod_lift_r; [exact Hk|].
  apply (gcod_set _ g w' g0 g1 (fun _ => loop)). exact Hl.
Qed.

Lemma ptr32_0 : ptr32 0 = 0.
Proof. unfold ptr32. change (i32 0) with 0. apply wrapu_small. unfold INT_MAX. lia. Qed.

Lemma saved_function t a : Thinker.function t = fn_addr a ->
  Thinker.function (restore_function a (thinker_saved t)) = Thinker.function t.
Proof.
  intros E. unfold restore_function. change (Thinker.function (thinker_saved t)) with (ptr32 (Thinker.function t)).
  rewrite E. pose proof (fn_saved a) as H. apply Z.eqb_neq in H. by rewrite H.
Qed.

Lemma saved_stasis t a : Thinker.function t = 0 ->
  Thinker.function (restore_function a (thinker_saved t)) = Thinker.function t.
Proof.
  intros E. unfold restore_function. change (Thinker.function (thinker_saved t)) with (ptr32 (Thinker.function t)).
  rewrite E, ptr32_0. cbn. by rewrite E, ptr32_0.
Qed.

(** The bytes of one special and its place in the loaded game. *)
Definition loads_special (g g0 : game) (w : M unit) (th th' : thing) (self : Z) : Prop :=
  special_restored th (self, th') /\ forall n fuel w' g1 g2,
    restore_special (self, th') g0 = Ret g1 -> gcod n g w' g1 (unarchive_specials fuel) tt g2 ->
    gcod (4 + RECORD + n) g (w;; w') g0 (unarchive_specials (S fuel)) tt g2.

#[local] Hint Resolve saved_function saved_stasis : core.
Ltac loaded_as th' lem :=
  match goal with Hmal : lv_malloc _ = Ret _ |- _ =>
    exists th'; split;
    [eexists; split; [|reflexivity]; solve [done | auto]
    |intros n fuel w' g1 g2 Hr Hl; apply gcod_assoc_w; (eapply (gcod_step 1 (3 + (RECORD + n))); [apply cod8|]);
     (eapply gcod_special; [apply lem; assumption|exact Hmal|exact Hr|exact Hl])]
  end.

Lemma gcod_one g g0 active a th self :
  thinker_ok active (a, th) -> is_special active (a, th) = true -> lv_malloc g0 = Ret self ->
  exists th', loads_special g g0 (archive_special active a th) th th' self.
Proof.
  intros (Hok & Hkind & Hst) Hsp Hmal. cbn [fst snd] in *. unfold is_special in Hsp. cbn [fst snd] in Hsp.
  unfold archive_special, archive_ceiling. unfold thing_function in *.
  destruct (Thinker.function (thing_thinker th) =? 0) eqn:E0; breflect.
  { rewrite Hsp. apply bool_decide_eq_true in Hsp. destruct (Hst E0 Hsp) as [c ->]. cbn in *.
    loaded_as (TCeiling (c <| Ceiling.thinker ::= fun t => restore_function T_MoveCeiling (thinker_saved t) |>)) cod_ceiling. }
  cbn [existsb special_actions] in Hsp.
  destruct (_ =? fn_addr T_MoveCeiling) eqn:E1; breflect.
  { specialize (Hkind _ E1). destruct th as [|c| | | | | | |]; try done. cbn in *.
    loaded_as (TCeiling (c <| Ceiling.thinker ::= fun t => restore_function T_MoveCeiling (thinker_saved t) |>)) cod_ceiling. }
  destruct (_ =? fn_addr T_VerticalDoor) eqn:E2; breflect.
  { specialize (Hkind _ E2). destruct th as [| |d| | | | | |]; try done. cbn in *.
    loaded_as (TDoor (d <| VlDoor.thinker ::= fun t => set_function T_VerticalDoor (thinker_saved t) |>)) cod_vldoor. }
  destruct (_ =? fn_addr T_MoveFloor) eqn:E3; breflect.
  { specialize (Hkind _ E3). destruct th as [| | |f| | | | |]; try done. cbn in *.
    loaded_as (TFloor (f <| FloorMove.thinker ::= fun t => set_function T_MoveFloor (thinker_saved t) |>)) cod_floormove. }
  destruct (_ =? fn_addr T_PlatRaise) eqn:E4; breflect.
  { specialize (Hkind _ E4). destruct th as [| | | |p| | | |]; try done. cbn in *.
    loaded_as (TPlat (p <| Plat.thinker ::= fun t => restore_function T_PlatRaise (thinker_saved t) |>)) cod_plat. }
  destruct (_ =? fn_addr T_LightFlash) eqn:E5; breflect.
  { specialize (Hkind _ E5). destruct th as [| | | | |f| | |]; try done. cbn in *.
    loaded_as (TFlash (f <| LightFlash.thinker ::= fun t => set_function T_LightFlash (thinker_saved t) |>)) cod_lightflash. }
  destruct (_ =? fn_addr T_StrobeFlash) eqn:E6; breflect.
  { specialize (Hkind _ E6). destruct th as [| | | | | |s| |]; try done. cbn in *.
    loaded_as (TStrobe (s <| Strobe.thinker ::= fun t => set_function T_StrobeFlash (thinker_saved t) |>)) cod_strobe. }
  destruct (_ =? fn_addr T_Glow) eqn:E7; breflect.
  { specialize (Hkind _ E7). destruct th as [| | | | | | |w|]; try done. cbn in *.
    loaded_as (TGlow (w <| Glow.thinker ::= fun t => set_function T_Glow (thinker_saved t) |>)) cod_glow. }
  exfalso. clear -Hsp. intuition discriminate.
Qed.

Lemma archive_special_skip active a th s :
  is_special active (a, th) = false -> archive_special (F := F) active a th s = Ret (tt, s).
Proof.
  unfold is_special, archive_special. cbn [fst snd existsb special_actions]. set (fn := thing_function th).
  destruct (fn =? 0); [by intros ->|]. intros H.
  repeat match type of H with (_ || _) = false => apply orb_false_iff in H as [-> H] end. done.
Qed.

(** ** The loop *)
Lemma specials_loop g active : forall l fuel g0,
  Forall (thinker_ok active) l -> (length l < fuel)%nat ->
  Forall (sector_in g0) (saved_specials active l) -> (plats (saved_specials active l) <= slots (activeplats g0))%nat ->
  exists g1 new, gcod (thinkers_size (length l)) g (archive_specials active l;; saveg_write8 tc_endspecials) g0 (unarchive_specials fuel) tt g1 /\
    restore_specials new g0 = Ret g1 /\ Forall2 special_restored (saved_specials active l) new /\
    Forall (fun x => x.1 <> 0) new /\ thinkers g1 = thinkers g0 ++ new /\
    (NoDup (fst <$> thinkers g0) -> NoDup (fst <$> thinkers g1)).
Proof.
  induction l as [|[a th] l IH]; intros fuel g0 Hok Hf Hsec Hpl; (destruct fuel as [|fuel]; [cbn in Hf; lia|]).
  { exists g0, []. rewrite app_nil_r. split_and!; try done.
    apply gcod_ret_w. eapply (gcod_last 1 0); [apply cod8|]. apply (gcod_ret g g0 tt). }
  apply Forall_cons in Hok as [Hth Hok]. cbn [archive_specials saved_specials] in *. cbn in Hf.
  destruct (is_special active (a, th)) eqn:Hsp.
  2:{ destruct (IH (S fuel) g0 Hok ltac:(lia) Hsec Hpl) as (g1 & new & Hg & H).
      exists g1, new. split; [|done]. eapply (gcod_le _ (thinkers_size (S (length l)))) in Hg; [|unfold thinkers_size; lia].
      revert Hg. apply gcod_ext_w. intros s _. rewrite bind_assoc_run.
      unfold bind at 1. by rewrite archive_special_skip. }
  destruct (malloc_ok g0) as (self & Hmal & Hnz & Hfresh).
  destruct (gcod_one g g0 active a th self Hth Hsp Hmal) as (th' & (t & Ht & Eth) & Hload). cbn in Eth. subst th'.
  apply Forall_cons in Hsec as [Hs Hsec]. cbn [snd] in *.
  assert (Hpl1 : (plats [with_thinker th t] + plats (saved_specials active l) <= slots (activeplats g0))%nat).
  { rewrite plats_cons in *. change (plats []) with 0%nat.
    replace (is_plat (with_thinker th t)) with (is_plat th) by (by destruct th).
    destruct (is_plat th); lia. }
  destruct (restore_special_ok (self, with_thinker th t) g0) as (ga & Hr & Eta & Els & Hsl); [done| |cbn [snd]; lia|].
  { unfold sector_in in *. intros s' Hs'. apply Hs. by destruct th. }
  cbn [snd] in Hsl. destruct (IH fuel ga Hok ltac:(lia)) as (g1 & new & Hg & Hrs & Hres & Hnz' & Et & Hnd).
  { eapply Forall_impl; [exact Hsec|]. intros x Hx s'. rewrite Els. apply Hx. }
  { lia. }
  exists g1, ((self, with_thinker th t) :: new). split_and!.
  - apply (gcod_le (4 + RECORD + thinkers_size (length l))); [|unfold thinkers_size; cbn; lia].
    apply gcod_assoc_w. by eapply Hload.
  - cbn [restore_specials]. by rewrite Hr.
  - constructor; [|done]. by exists t.
  - by constructor.
  - rewrite Et, Eta. by rewrite <- app_assoc.
  - intros H0. apply Hnd. rewrite Eta, fmap_app. cbn. apply NoDup_app.
    split_and!; [done| |apply NoDup_singleton]. intros x Hx. rewrite list_elem_of_singleton. by intros ->.
Qed.
End specials.
