(* ===== verification/SaveTheorems.v ===== *)
(** * Savegames: the theorems

    The bodies of [G_DoSaveGame] and [G_DoLoadGame] (src/commands/doom/g_game.c)
    between opening and closing the file, and what a load restores of what a
    save wrote. *)
From S2P Require Import Prelude Stdio GameTypes Thinkers SaveIO SaveStructs SaveCodec SaveArchive SaveWorld.
From S2P Require Import SaveThinkers.
#[local] Open Scope doom_scope.
#[local] Open Scope io_scope.

Section body.
Context {A : Arch} {F : Type} {ops : FdOps F} {lv : Level}.
#[local] Abbreviation M := (io F game).

Definition clear_error : M unit := fun s => Ret (tt, mk_sg (save_stream s) (errno s) false (junk s) (gs s)).

Definition save_body (gameversion : GameVersion_t) (description : list Z) : M unit :=
  clear_error;;
  P_WriteSaveGameHeader gameversion description;;
  P_ArchivePlayers;;
  P_ArchiveWorld;;
  P_ArchiveThinkers;;
  P_ArchiveSpecials;;
  P_WriteSaveGameEOF.

(** [G_InitNew] sets up the level that the header names. The result tells
    whether the header was accepted. *)
Definition load_body (G_InitNew : game -> game) (gameversion : GameVersion_t) (fuel : nat) : M bool :=
  clear_error;;
  ok <- P_ReadSaveGameHeader gameversion;
  if ok : bool then
    g <- get_gs;
    set_gs ((G_InitNew g) <| leveltime := leveltime g |>);;
    P_UnArchivePlayers;;
    P_UnArchiveWorld;;
    P_UnArchiveThinkers fuel;;
    P_UnArchiveSpecials fuel;;
    eof <- P_ReadSaveGameEOF;
    if eof : bool then ret true else fail "Bad savegame"
  else ret false.
End body.

Section theorems.
Context {A : Arch} {F : Type} {ops : FdOps F} {view : F -> fview} {reg : RegularFile F view}.
Context {lv : Level} {laws : LevelLaws}.
#[local] Abbreviation M := (io F game).
#[local] Abbreviation gcod := (SaveWorld.gcod (F := F) (view := view)).

(** A game that can be saved: every value has the range of its type. *)
Record savable (g : game) : Prop := {
  sv_ingame : length (playeringame g) = MAXPLAYERS /\ Forall (fits_u 8) (playeringame g);
  sv_players : length (players g) = MAXPLAYERS /\ players_ok (playeringame g) (players g);
  sv_world : world_ok g;
  sv_thinkers : Forall (thinker_ok (activeceilings g)) (thinkers g)
}.
(** The level [gl] as [G_InitNew] set it up for loading [g]. *)
Record loadable (g gl : game) : Prop := {
  ld_ingame : playeringame gl = playeringame g;
  ld_players : length (players gl) = MAXPLAYERS;
  ld_map : same_map g gl /\ sectors gl <> [];
  ld_thinkers : Forall (thinker_ok (activeceilings gl)) (thinkers gl);
  ld_specials : Forall (sector_in gl) (saved_specials (activeceilings g) (thinkers g));
  ld_plats : (plats (saved_specials (activeceilings g) (thinkers g)) <= slots (activeplats gl))%nat
}.

(** The world and the players of [g] in the level [gl]. *)
Definition level_loaded (g gl : game) : game :=
  world_loaded g (gl <| players := loaded_players (playeringame g) (players gl) (players g) |>).

(** The game after the load: the objects [ms] and specials [sp] are new. *)
Definition game_loaded (g gl g1 : game) (ms sp : list (Z * thing)) : Prop :=
  Forall2 (restored (sectors (level_loaded g gl))) (live_mobjs (thinkers g)) ms /\
  Forall2 special_restored (saved_specials (activeceilings g) (thinkers g)) sp /\
  NoDup (fst <$> (ms ++ sp)) /\ Forall (fun x => x.1 <> 0) sp /\ thinkers g1 = ms ++ sp /\
  restore_specials sp ((level_loaded g gl) <| thinkers := ms |>
    <| players := set_mos ms (live_mobjs (thinkers g)) (players (level_loaded g gl)) |>) = Ret g1.

(** The space a savegame takes, at most. *)
Definition save_size (g : game) : nat :=
  (50 + (MAXPLAYERS * (3 + PLAYER) + (14 * length (sectors g) + lines_size (lines g) +
   (thinkers_size (length (thinkers g)) + (thinkers_size (length (thinkers g)) + 1)))))%nat.

Lemma gcod_clear {T} n (w : M unit) (r : M T) g g0 a g1 s d l :
  gcod n g w g0 r a g1 -> gs s = g -> view (save_stream s) = mk_view d (length d) l -> (length d + n <= l)%nat ->
  exists bs, (length bs <= n)%nat /\
    exists s', (clear_error;; w) s = Ret (tt, s') /\ gs s' = g /\ savegame_error s' = false /\
      view (save_stream s') = mk_view (d ++ bs) (length d + length bs) l /\
      forall s0, gs s0 = g0 -> view (save_stream s0) = mk_view (d ++ bs) (length d) l ->
        exists s1, (clear_error;; r) s0 = Ret (a, s1) /\ gs s1 = g1 /\ savegame_error s1 = false.
Proof.
  intros H Hg Hv Hn.
  destruct (gcod_run n g w g0 r a g1 (mk_sg (save_stream s) (errno s) false (junk s) (gs s)) d l H Hg Hv Hn) as (bs & Hl & Hbs).
  exists bs. split; [done|]. destruct Hbs as (s' & E & Hs' & He & Hv' & Hr). exists s'. split_and!; try done.
  intros s0 Hg0 Hv0. destruct (Hr (mk_sg (save_stream s0) (errno s0) false (junk s0) (gs s0)) Hg0 Hv0)
    as (s1 & E1 & H1 & H2 & _). by exists s1.
Qed.

Lemma level_loaded_thinkers g gl : thinkers (level_loaded g gl) = thinkers gl.
Proof. done. Qed.

Lemma zip_with_nonnil {X Y Z} (h : X -> Y -> Z) l k : length l = length k -> l <> [] -> zip_with h l k <> [].
Proof. destruct l, k; done. Qed.

Lemma gcod_body v code d g g0 init fuel :
  G_VanillaVersionCode v = Ret code -> (length d <= SAVESTRINGSIZE)%nat -> savable g ->
  let gl := (init (header_loaded g g0)) <| leveltime := leveltime (header_loaded g g0) |> in
  loadable g gl -> (length (thinkers g) < fuel)%nat ->
  exists g1 ms sp, game_loaded g gl g1 ms sp /\
    gcod (save_size g) g (P_WriteSaveGameHeader v d;; P_ArchivePlayers;; P_ArchiveWorld;; P_ArchiveThinkers;;
            P_ArchiveSpecials;; P_WriteSaveGameEOF) g0
      (ok <- P_ReadSaveGameHeader v;
       if ok : bool then
         g <- get_gs;
         set_gs ((init g) <| leveltime := leveltime g |>);;
         P_UnArchivePlayers;; P_UnArchiveWorld;; P_UnArchiveThinkers fuel;; P_UnArchiveSpecials fuel;;
         eof <- P_ReadSaveGameEOF;
         if eof : bool then ret true else fail "Bad savegame"
       else ret false) true g1.
Proof.
  intros Hv Hd [[Hig Hfit] [Hpl Hpok] Hw Hth] gl [Li Lp [Lm Lne] Lt Ls La] Hf.
  destruct Lm as (M1 & M2 & M3).
  assert (Hsne : sectors (level_loaded g gl) <> []).
  { cbn. apply zip_with_nonnil; [by symmetry|done]. }
  destruct (gcod_thinkers g (level_loaded g gl) fuel Hth Lt Hf Hsne) as (ms & Hms & Hnd & Hgt).
  set (g2 := (level_loaded g gl) <| thinkers := ms |> <| players := _ |>) in Hgt.
  destruct (specials_loop g (activeceilings g) (thinkers g) fuel g2 Hth Hf) as
    (g1 & sp & Hgs & Hrs & Hsp & Hnz & Et & Hnd').
  { eapply Forall_impl; [exact Ls|]. intros th Hs s' E. specialize (Hs s' E). cbn.
    rewrite length_zip_with, M1, Nat.min_id. exact Hs. }
  { exact La. }
  exists g1, ms, sp. split.
  - split_and!; try done. change ms with (thinkers g2). rewrite <- Et. by apply Hnd'.
  - eapply gcod_bind; [by eapply gcod_header|]. apply gcod_get_r. apply gcod_set. fold gl.
    eapply gcod_bind; [by apply gcod_players|]. eapply gcod_bind; [by apply gcod_world|].
    eapply gcod_bind; [exact Hgt|]. eapply gcod_bind; [apply gcod_get_w; exact Hgs|].
    apply gcod_nop_w. eapply (gcod_bind 1 0); [apply gcod_eof|]. apply gcod_ret.
Qed.

(** ** The restored movers *)
Definition owned (g : game) (x : Z * thing) : Prop :=
  forall n, mover_sector x.2 = Some n -> exists sec, sectors g !! Z.to_nat n = Some sec /\ Sector.specialdata sec = x.1.
Definition registered (g : game) (x : Z * thing) : Prop := is_plat x.2 = true -> x.1 ∈ activeplats g.

Lemma restore_special_sectors x g g1 : restore_special x g = Ret g1 ->
  owned g1 x /\ forall n, mover_sector x.2 <> Some (Z.of_nat n) -> sectors g1 !! n = sectors g !! n.
Proof.
  unfold restore_special, owned. intros H.
  assert (E : exists ga, (match mover_sector x.2 with Some sec => set_specialdata sec x.1 g | None => Ret g end) = Ret ga /\
    sectors g1 = sectors ga).
  { destruct (match mover_sector x.2 with Some sec => set_specialdata sec x.1 g | None => Ret g end) as [ga| | |];
      cbn [obind] in H; try done. exists ga. split; [done|]. destruct x as [a th]. cbn [fst snd] in H.
    destruct th; inv_ret; try done.
    - unfold P_AddActiveCeiling. by destruct (first_free _ _).
    - unfold P_AddActivePlat in H. destruct (first_free _ _); by inv_ret. }
  destruct E as (ga & Ea & ->). destruct (mover_sector x.2) as [n|]; [|by inv_ret].
  unfold set_specialdata in Ea. destruct (n <? 0) eqn:En; [done|]. breflect.
  destruct (sectors g !! Z.to_nat n) as [sec|] eqn:Es; [|done]. 
  assert (Esec : sectors ga = <[Z.to_nat n := sec <| Sector.specialdata := x.1 |>]> (sectors g)) by (injection Ea as <-; done).
  rewrite Esec. split.
  - intros n' [= <-]. eexists. rewrite list_lookup_insert_eq; [done|]. by eapply lookup_lt_Some.
  - intros n' Hn. rewrite list_lookup_insert_ne; [done|]. intros <-. apply Hn. f_equal. lia.
Qed.

Lemma restore_special_active x g g1 : x.1 <> 0 -> restore_special x g = Ret g1 ->
  registered g1 x /\ forall p, p <> 0 -> p ∈ activeplats g -> p ∈ activeplats g1.
Proof.
  unfold restore_special, registered. intros Hx H.
  assert (E : exists ga, (match mover_sector x.2 with Some sec => set_specialdata sec x.1 g | None => Ret g end) = Ret ga /\
    activeplats ga = activeplats g).
  { destruct (mover_sector x.2) as [n|]; [|by exists g]. unfold set_specialdata in *.
    destruct (n <? 0); [done|]. destruct (sectors g !! Z.to_nat n); [|done]. eexists. done. }
  destruct E as (ga & Ea & Ep). rewrite Ea in H. cbn [obind] in H. destruct x as [a th]. cbn [fst snd] in *.
  destruct th; inv_ret; try (split; [done|]; cbn; by rewrite Ep).
  - split; [done|]. unfold P_AddActiveCeiling. destruct (first_free _ _); cbn; by rewrite Ep.
  - unfold P_AddActivePlat in H. change (activeplats (P_AddThinker a (TPlat p) ga)) with (activeplats ga) in H.
    rewrite Ep in H. destruct (first_free (activeplats g) a) as [l'|] eqn:El; [|done]. inv_ret. cbn.
    assert (Hs : (0 < slots (activeplats g))%nat).
    { clear -El. revert l' El. induction (activeplats g) as [|y l IH]; intros l' El; cbn in El; [done|].
      unfold slots in *. destruct (y =? 0) eqn:E; breflect.
      - rewrite filter_cons_True by done. cbn. lia.
      - rewrite filter_cons_False by done. destruct (first_free l a); [|done]. by eapply IH. }
    destruct (first_free_some (activeplats g) a Hx Hs) as (l2 & E2 & _ & Hin & Hk). rewrite El in E2. injection E2 as <-.
    split; [by intros _|]. intros q Hq Hin'. by apply Hk.
Qed.

Definition movers (l : list (Z * thing)) : list Z := omap (fun x => mover_sector x.2) l.

Lemma restore_specials_owned l g g1 :
  restore_specials l g = Ret g1 -> Forall (fun x => x.1 <> 0) l -> NoDup (movers l) ->
  Forall (fun x => forall n, mover_sector x.2 = Some n -> 0 <= n) l ->
  Forall (owned g1) l /\ Forall (registered g1) l /\
  (forall n, Z.of_nat n ∉ movers l -> sectors g1 !! n = sectors g !! n) /\
  (forall p, p <> 0 -> p ∈ activeplats g -> p ∈ activeplats g1).
Proof.
  revert g. induction l as [|x l IH]; intros g H Hnz Hnd Hpos; cbn in H.
  { inv_ret. split_and!; by try constructor. }
  destruct (restore_special x g) as [ga| | |] eqn:Ea; cbn [obind] in H; try done.
  apply Forall_cons in Hnz as [Hx Hnz]. apply Forall_cons in Hpos as [Hp Hpos].
  destruct (restore_special_sectors x g ga Ea) as [Hown Hkeep].
  destruct (restore_special_active x g ga Hx Ea) as [Hreg Hact].
  unfold movers in Hnd. cbn in Hnd.
  assert (Hnd' : NoDup (movers l)) by (destruct (mover_sector x.2); [by apply NoDup_cons in Hnd as [_ ?]|done]).
  destruct (IH ga H Hnz Hnd' Hpos) as (I1 & I2 & I3 & I4). split_and!.
  - constructor; [|done]. intros n En. rewrite En in Hnd. apply NoDup_cons in Hnd as [Hn _].
    destruct (Hown n En) as (sec & Es & Ed). exists sec. split; [|done]. rewrite I3; [done|].
    rewrite Z2Nat.id; [done|]. by apply Hp.
  - constructor; [|done]. intros Hpl. apply I4; [done|]. by apply Hreg.
  - intros n Hn. unfold movers in Hn. cbn in Hn. destruct (mover_sector x.2) as [m|] eqn:Em.
    + rewrite not_elem_of_cons in Hn. rewrite I3 by apply Hn. apply Hkeep. intros [= ->]. by destruct Hn.
    + rewrite I3 by done. by apply Hkeep.
  - intros p Hp0 Hin. apply I4; [done|]. by apply Hact.
Qed.

(** C1: a game that was saved into a file and loaded from it again is
    restored, provided that the file can take it: the level that was set up gets the world and the players of the
    saved game, and its thinkers are exactly the saved objects and specials,
    in order and with their data, at fresh addresses; neither direction
    raises the error flag. *)
Theorem savegame_roundtrip v code d g g0 init fuel s data l :
  G_VanillaVersionCode v = Ret code -> (length d <= SAVESTRINGSIZE)%nat -> savable g ->
  let gl := (init (header_loaded g g0)) <| leveltime := leveltime (header_loaded g g0) |> in
  loadable g gl -> (length (thinkers g) < fuel)%nat ->
  gs s = g -> view (save_stream s) = mk_view data (length data) l -> (length data + save_size g <= l)%nat ->
  exists bs, (length bs <= save_size g)%nat /\
    exists s' g1 ms sp, save_body v d s = Ret (tt, s') /\ gs s' = g /\ savegame_error s' = false /\
      view (save_stream s') = mk_view (data ++ bs) (length data + length bs) l /\
      game_loaded g gl g1 ms sp /\
      forall s0, gs s0 = g0 -> view (save_stream s0) = mk_view (data ++ bs) (length data) l ->
        exists s1, load_body init v fuel s0 = Ret (true, s1) /\ gs s1 = g1 /\ savegame_error s1 = false.
Proof.
  intros Hv Hd Hs gl Hl Hf Hg Hview Hcap.
  destruct (gcod_body v code d g g0 init fuel Hv Hd Hs Hl Hf) as (g1 & ms & sp & Hload & Hcod).
  destruct (gcod_clear _ _ _ g g0 true g1 s data l Hcod Hg Hview Hcap) as (bs & Hlen & s' & E & H1 & H2 & H3 & H4).
  exists bs. split; [done|]. by exists s', g1, ms, sp.
Qed.

(** after a load every restored mover is again the one that its sector
    names, and every restored plat is in the list of active plats. *)
Theorem loaded_movers_own_sectors g gl g1 ms sp :
  game_loaded g gl g1 ms sp -> NoDup (movers sp) ->
  Forall (sector_in gl) (snd <$> sp) ->
  Forall (owned g1) sp /\ Forall (registered g1) sp.
Proof.
  intros (_ & _ & _ & Hnz & _ & Hrs) Hnd Hsec.
  destruct (restore_specials_owned _ _ _ Hrs Hnz Hnd) as (H1 & H2 & _); [|done].
  rewrite Forall_forall in Hsec. apply Forall_forall. intros x Hx n En.
  by apply (Hsec x.2 (list_elem_of_fmap_2 snd sp x Hx) n En).
Qed.

(** A file cut short is noticed: reading at its end raises the error
    flag and leaves the position where it is. *)
Theorem saveg_read8_eof (s : sg F game) d l :
  view (save_stream s) = mk_view d (length d) l ->
  exists f b jk, saveg_read8 s = Ret (b, mk_sg f (errno s) true jk (gs s)) /\ view f = view (save_stream s).
Proof.
  intros Hv. destruct (read_law (save_stream s) 1 ltac:(lia)) as (f & Ef & Vf). rewrite Hv in Ef, Vf. cbn [fpos fdata flimit] in Ef, Vf.
  rewrite drop_all, take_nil in Ef, Vf. change (Z.of_nat (length [])) with 0 in Ef. cbn in Vf.
  exists f, (u8 (junk s 0%nat)), (fun n => junk s (S n)).
  unfold saveg_read8, fread. change (1 * 1) with 1. rewrite wrapu_small by (unfold INT_MAX; lia). rewrite Ef.
  change (errno_wrap 0 (errno s)) with (0, errno s). assert (E0 : count_of (i32 0) 1 = 0).
  { unfold count_of. change (i32 0) with 0. change (if 0 <? 0 then 0 else 0 / 1) with 0.
    apply wrapu_small. unfold INT_MAX. lia. }
  cbv beta iota. rewrite E0. split; [done|]. by rewrite Vf, Hv, Nat.add_0_r.
Qed.

(** Two kinds of specials are lost in a savegame, since nothing of them
    is written: a plat in stasis (it has no thinker function and, unlike a
    ceiling, is not looked up in its active list), and a fire flicker. *)
Theorem unsaved_specials active a th (s : sg F game) :
  (exists p, th = TPlat p /\ Thinker.function (Plat.thinker p) = 0 /\ a ∉ active) \/
  (exists f, th = TFlicker f /\ Thinker.function (FireFlicker.thinker f) = fn_addr T_FireFlicker) ->
  archive_special active a th s = Ret (tt, s).
Proof.
  intros H. apply archive_special_skip. unfold is_special, thing_function.
  destruct H as [(p & -> & E & Ha)|(f & -> & E)]; cbn [snd fst thing_thinker]; rewrite E.
  - by apply bool_decide_eq_false.
  - assert (Hne : forall x, T_FireFlicker <> x -> (fn_addr T_FireFlicker =? fn_addr x) = false).
    { intros x Hx. apply Z.eqb_neq. intros Hf. by apply Hx, fn_inj. }
    assert (H0 : (fn_addr T_FireFlicker =? 0) = false).
    { apply Z.eqb_neq. intros H0. apply (fn_saved T_FireFlicker). rewrite H0. apply ptr32_0. }
    rewrite H0. cbn [existsb special_actions]. by rewrite !Hne by done.
Qed.

(** A header of another version is rejected, the game stays as it was. *)
Theorem header_rejects_other_versions v v' code code' d g g0 s data l :
  G_VanillaVersionCode v = Ret code -> G_VanillaVersionCode v' = Ret code' -> code <> code' ->
  (length d <= SAVESTRINGSIZE)%nat -> length (playeringame g) = MAXPLAYERS ->
  gs s = g -> view (save_stream s) = mk_view data (length data) l -> (length data + 50 <= l)%nat ->
  exists bs, (length bs <= 50)%nat /\
    exists s', P_WriteSaveGameHeader v d s = Ret (tt, s') /\
      view (save_stream s') = mk_view (data ++ bs) (length data + length bs) l /\
      forall s0, gs s0 = g0 -> view (save_stream s0) = mk_view (data ++ bs) (length data) l ->
        exists s1, P_ReadSaveGameHeader v' s0 = Ret (false, s1) /\ gs s1 = g0.
Proof.
  intros Hv Hv' Hne Hd Hp Hg Hview Hcap.
  destruct (gcod_header_other v v' code code' d g g0 Hv Hv' Hne Hd) as (b1 & N1 & W1 & R1).
  destruct (gcod_header_tail g g0 Hp) as (b2 & N2 & W2 & _).
  exists (seq_bytes b1 b2 (length data)). split; [by apply (seq_bytes_le 40 10)|]. unfold seq_bytes. rewrite length_app.
  specialize (N1 (length data)). specialize (N2 (length data + length (b1 (length data)))%nat).
  destruct (W1 s data _ l Hg Hview eq_refl) as (f1 & E1 & V1); [lia|].
  destruct (W2 (mk_sg f1 (errno s) (savegame_error s) (junk s) g) _ _ _ eq_refl V1) as (f2 & E2 & V2);
    [rewrite length_app; lia|lia|].
  eexists. split; [|split].
  - rewrite (write_header_run v code) by done. rewrite <- bind_assoc_run. unfold bind at 1. rewrite E1. exact E2.
  - cbn. by rewrite V2, <- app_assoc, Nat.add_assoc.
  - intros s0 Hg0 Hv0. destruct (R1 s0 data (b2 (length data + length (b1 (length data)))%nat) l Hg0 Hv0) as (f3 & E3 & _);
      [lia|]. eexists. split; [exact E3|done].
Qed.
End theorems.

(** ** A small level *)
#[local] Instance demo_arch : Arch := LP64.
#[local] Instance demo_level : Level := {
  P_RemoveMobj _ _ _ := Ret tt;
  lv_free _ _ := Ret tt;
  lv_malloc g := Ret (fresh_address (thinkers g));
  P_SetThingPosition _ m g := (m <| Mobj.subsector := 0 |>, g);
  mobjinfo_at t := 500 + t;
  subsector_sector _ := 0%nat;
  level_image a := match a with
    | P_MobjThinker => 101 | T_MoveCeiling => 102 | T_VerticalDoor => 103 | T_MoveFloor => 104
    | T_PlatRaise => 105 | T_LightFlash => 106 | T_StrobeFlash => 107 | T_Glow => 108
    | T_FireFlicker => 109 end
}.

#[local] Instance demo_laws : LevelLaws.
Proof.
  split; try done.
  - intros [] []; done.
  - intros []; vm_compute; done.
  - intros g. eexists. split; [done|]. apply fresh_address_new.
  - intros a m g Hne. destruct (sectors g) as [|sec l] eqn:E; [done|].
    exists (m <| Mobj.subsector := 0 |>), (thinkers g), sec. split_and!.
    + by destruct g.
    + by do 5 eexists.
    + apply Forall2_same_length_lookup. split; [done|]. intros i x y Hx Hy.
      assert (x = y) as -> by congruence. by split; [|left].
    + done.
Qed.

Definition demo_thinker (fn : Z) : Thinker.thinker_t := Thinker.mk 900 904 fn.
Definition demo_cmd : TicCmd.ticcmd_t := TicCmd.mk 25 (-10) 640 0 1 7 0 0 0 0.
Definition demo_player : Player.player_t :=
  Player.mk 0 0 demo_cmd 0 41 0 0 100 50 1 [0; 0; 0; 0; 0; 0] [1; 0; 0; 0; 0; 0] 0 [0; 0; 0; 0] 1 10
    [1; 1; 0; 0; 0; 0; 0; 0; 0] [50; 0; 0; 0] [200; 50; 300; 50] 0 0 0 0 3 2 1 0 0 0 0 0 0 0
    [PspDef.mk (Some 10) 1 0 32; PspDef.mk None (-1) 0 0] 0.
Definition demo_mobj : Mobj.mobj_t :=
  Mobj.mk (demo_thinker 101) 65536 131072 0 0 0 0x80000000 28 0 0 0 77 0 0 1048576 3670016 5 (-5) 0 0 0
    500 (-1) 149 33554432 100 0 0 4096 0 0 (Some 0) 0 (MapThing.mk 1 2 90 1 7) 0.
Definition demo_door : VlDoor.vldoor_t := VlDoor.mk (demo_thinker 103) 1 0 8388608 131072 1 150 0.
Definition demo_plat : Plat.plat_t := Plat.mk (demo_thinker 105) 1 65536 0 65536 105 0 0 0 0 5 1.
Definition demo_sector (h : Z) : Sector.doomsector_t := Sector.mk h 8388608 1 2 160 0 0 0 0 0 [0%nat].
Definition demo_side : Side.side_t := Side.mk 0 0 1 2 3 0.
Definition demo_line : Line.line_t := Line.mk 4 0 5 [0; -1] (Some 0%nat) None.
Definition demo_game : game :=
  mk_game 2 1 1 350 [1; 0; 0; 0] (replicate 4 demo_player) [demo_sector 65636; demo_sector 0] [demo_line] [demo_side]
    [(1000, TMobj demo_mobj); (2000, TDoor demo_door); (3000, TPlat demo_plat)]
    (replicate 30 0) (3000 :: replicate 29 0).
(** The level as it is set up again: other heights, no objects yet. *)
Definition demo_init (g : game) : game :=
  g <| sectors := [demo_sector 0; demo_sector 0] |> <| thinkers := [] |> <| activeplats := replicate 30 0 |>.

Lemma demo_player_ok : player_ok demo_player.
Proof.
  unfold player_ok, ticcmd_ok. split_and!; try by_decision.
  constructor; [|constructor; [|constructor]]; (split; [|by_decision]).
  - intros i [= <-]. by_decision.
  - done.
Qed.

Lemma demo_mobj_ok : mobj_ok demo_mobj.
Proof.
  unfold mobj_ok, mapthing_ok. split_and!; try by_decision. intros i [= <-]. by_decision.
Qed.

Lemma demo_thinkers_ok : Forall (thinker_ok (activeceilings demo_game)) (thinkers demo_game).
Proof.
  assert (Hk : forall (z : Z) th, (exists a, thing_function th = fn_addr a /\ of_kind a th) ->
    (forall a, thing_function th = fn_addr a -> of_kind a th) /\
    (thing_function th = 0 -> z ∈ activeceilings demo_game -> exists c, th = TCeiling c)).
  { intros z th (a & E & H). split; [|intros E0; exfalso; rewrite E in E0; by destruct a].
    intros b Eb. by assert (a = b) as <- by (apply fn_inj; congruence). }
  constructor; [|constructor; [|constructor; [|constructor]]]; split.
  - apply demo_mobj_ok.
  - apply Hk. by exists P_MobjThinker.
  - unfold thing_ok, vldoor_ok. cbn [snd]. by_decision.
  - apply Hk. by exists T_VerticalDoor.
  - unfold thing_ok, plat_ok. cbn [snd]. by_decision.
  - apply Hk. by exists T_PlatRaise.
Qed.

Lemma demo_savable : savable demo_game.
Proof.
  split.
  - split; [done|by_decision].
  - split; [done|]. cbn. split_and!; try done. intros _. apply demo_player_ok.
  - unfold world_ok, sector_ok, line_ok, side_ok. split_and!.
    + repeat constructor; by_decision.
    + constructor; [by_decision|constructor].
    + constructor; [split; by_decision|constructor].
    + constructor; [|constructor]. cbn. constructor; [right; lia|]. constructor; [by left|constructor].
  - apply demo_thinkers_ok.
Qed.

Definition demo_level_game : game :=
  (demo_init (header_loaded demo_game demo_game)) <| leveltime := leveltime (header_loaded demo_game demo_game) |>.

Lemma demo_sector_in th : th = TDoor demo_door \/ th = TPlat demo_plat -> sector_in demo_level_game th.
Proof. intros [->| ->] n [= <-]; by_decision. Qed.

Lemma demo_specials : saved_specials (activeceilings demo_game) (thinkers demo_game) = [TDoor demo_door; TPlat demo_plat].
Proof. vm_compute. reflexivity. Qed.

Lemma demo_loadable : loadable demo_game demo_level_game.
Proof.
  split.
  - reflexivity.
  - reflexivity.
  - split; [by split_and!|done].
  - constructor.
  - rewrite demo_specials. constructor; [by apply demo_sector_in; left|].
    constructor; [by apply demo_sector_in; right|constructor].
  - rewrite demo_specials. vm_compute. lia.
Qed.

(** An empty file that can grow, and the state that saves into it. *)
Definition demo_file : fview := mk_view [] 0 4000.
Definition demo_state : sg fview game := mk_sg demo_file 0 false (fun _ => 0) demo_game.

Lemma savegame_roundtrip_witness :
  exists bs, (length bs <= save_size demo_game)%nat /\
    exists s' g1 ms sp, save_body exe_doom_1_9 [72; 73] demo_state = Ret (tt, s') /\ gs s' = demo_game /\
      savegame_error s' = false /\
      memfd_view (save_stream s') = mk_view ([] ++ bs) (length (@nil Z) + length bs) (flimit (memfd_view demo_file)) /\
      game_loaded demo_game demo_level_game g1 ms sp /\
      forall s0, gs s0 = demo_game ->
        memfd_view (save_stream s0) = mk_view ([] ++ bs) (length (@nil Z)) (flimit (memfd_view demo_file)) ->
        exists s1, load_body demo_init exe_doom_1_9 4 s0 = Ret (true, s1) /\ gs s1 = g1 /\ savegame_error s1 = false.
Proof.
  apply (savegame_roundtrip exe_doom_1_9 109 [72; 73] demo_game demo_game demo_init 4 demo_state []
    (flimit (memfd_view demo_file))).
  - reflexivity.
  - vm_compute. lia.
  - exact demo_savable.
  - exact demo_loadable.
  - vm_compute. lia.
  - reflexivity.
  - reflexivity.
  - by_decision.
Defined.

Lemma loaded_movers_own_sectors_witness :
  exists g1 ms sp, game_loaded demo_game demo_level_game g1 ms sp /\ length sp = 2%nat /\
    Forall (owned g1) sp /\ Forall (registered g1) sp.
Proof.
  destruct (gcod_body (view := memfd_view) exe_doom_1_9 109 [] demo_game demo_game demo_init 4 eq_refl
    ltac:(vm_compute; lia) demo_savable demo_loadable ltac:(vm_compute; lia)) as (g1 & ms & sp & Hload & _).
  fold demo_level_game in Hload. exists g1, ms, sp. pose proof Hload as (_ & Hsp & _).
  rewrite demo_specials in Hsp. apply Forall2_cons_inv_l in Hsp as (x & sp1 & (t & _ & Ex) & Hsp & ->).
  apply Forall2_cons_inv_l in Hsp as (y & sp2 & (t' & _ & Ey) & Hsp & ->). apply Forall2_nil_inv_l in Hsp as ->.
  split; [exact Hload|]. split; [reflexivity|].
  apply (loaded_movers_own_sectors demo_game demo_level_game g1 ms [x; y] Hload).
  - unfold movers. cbn. rewrite Ex, Ey. cbn. by_decision.
  - cbn. rewrite Ex, Ey. constructor; [|constructor; [|constructor]]; intros n [= <-]; by_decision.
Defined.

Lemma saveg_read8_eof_witness :
  exists f b jk, saveg_read8 demo_state = Ret (b, mk_sg f 0 true jk demo_game) /\
    memfd_view f = memfd_view (save_stream demo_state).
Proof.
  apply (saveg_read8_eof demo_state [] (flimit (memfd_view demo_file))). reflexivity.
Defined.

Definition demo_stasis : Plat.plat_t := demo_plat <| Plat.thinker := demo_thinker 0 |>.
Lemma unsaved_specials_witness :
  archive_special (activeceilings demo_game) 3000 (TPlat demo_stasis) demo_state = Ret (tt, demo_state).
Proof.
  apply (unsaved_specials (activeceilings demo_game) 3000 (TPlat demo_stasis) demo_state). left.
  exists demo_stasis. split; [reflexivity|]. split; [reflexivity|]. by_decision.
Defined.

Lemma header_rejects_other_versions_witness :
  exists bs, (length bs <= 50)%nat /\
    exists s', P_WriteSaveGameHeader exe_doom_1_9 [72; 73] demo_state = Ret (tt, s') /\
      memfd_view (save_stream s') = mk_view ([] ++ bs) (length (@nil Z) + length bs) (flimit (memfd_view demo_file)) /\
      forall s0, gs s0 = demo_game ->
        memfd_view (save_stream s0) = mk_view ([] ++ bs) (length (@nil Z)) (flimit (memfd_view demo_file)) ->
        exists s1, P_ReadSaveGameHeader exe_doom_1_7 s0 = Ret (false, s1) /\ gs s1 = demo_game.
Proof.
  apply (header_rejects_other_versions exe_doom_1_9 exe_doom_1_7 109 107 [72; 73] demo_game demo_game demo_state []
    (flimit (memfd_view demo_file))).
  - reflexivity.
  - reflexivity.
  - discriminate.
  - vm_compute. lia.
  - reflexivity.
  - reflexivity.
  - reflexivity.
  - by_decision.
Defined.
