(* ===== verification/PickupTheorems.v ===== *)
(** * Picking things up: what the rules guarantee *)
From S2P Require Import Prelude MFixed GameTypes Pickup.
#[local] Open Scope doom_scope.

(** ** The stock of a player *)
Definition capacity (backpack : Z) : list Z :=
  if truth backpack then [400; 100; 600; 100] else [200; 50; 300; 50].

Record stock_ok (p : Player.player_t) : Prop := {
  st_ammo : Forall2 (fun a m => 0 <= a <= m) (Player.ammo p) (Player.maxammo p);
  st_max : Player.maxammo p = capacity (Player.backpack p);
  st_weapons : length (Player.weaponowned p) = NUMWEAPONS;
  st_cards : length (Player.cards p) = NUMCARDS;
  st_powers : length (Player.powers p) = NUMPOWERS;
  st_health : 0 < Player.health p <= deh_max_health;
  st_armor : 0 <= Player.armorpoints p <= deh_max_armor
}.
(** The two records of a living player agree on its health. *)
Definition inv_ok (i : inv) : Prop := stock_ok (ply i) /\ Mobj.health (mo i) = Player.health (ply i).

(** The things the game knows how to give. *)
Definition gettable : list Z :=
  [SPR_ARM1; SPR_ARM2; SPR_BON1; SPR_BON2; SPR_SOUL; SPR_MEGA; SPR_BKEY; SPR_YKEY; SPR_RKEY; SPR_BSKU;
   SPR_YSKU; SPR_RSKU; SPR_STIM; SPR_MEDI; SPR_PINV; SPR_PSTR; SPR_PINS; SPR_SUIT; SPR_PMAP; SPR_PVIS;
   SPR_CLIP; SPR_AMMO; SPR_ROCK; SPR_BROK; SPR_CELL; SPR_CELP; SPR_SHEL; SPR_SBOX; SPR_BPAK; SPR_BFUG;
   SPR_MGUN; SPR_CSAW; SPR_LAUN; SPR_PLAS; SPR_SHOT; SPR_SGN2].

Section rules.
Context {msgs : Messages} (r : rules).
Implicit Types (p : Player.player_t) (i : inv).

Lemma get_ok l k : 0 <= k < Z.of_nat (length l) -> exists v, get l k = Ret v /\ l !! Z.to_nat k = Some v.
Proof.
  intros H. unfold get. replace (k <? 0) with false by (symmetry; apply Z.ltb_ge; lia).
  destruct (lookup_lt_is_Some_2 l (Z.to_nat k)) as [v ->]; [lia|]. by exists v.
Qed.

Lemma set_ok l k v : 0 <= k < Z.of_nat (length l) -> set l k v = Ret (<[Z.to_nat k := v]> l).
Proof. intros H. unfold set. by destruct (get_ok l k H) as (x & -> & _). Qed.

Lemma get_out l k : Z.of_nat (length l) <= k -> get l k = Undef.
Proof.
  intros H. unfold get. destruct (k <? 0); [done|]. rewrite lookup_ge_None_2; [done|]. lia.
Qed.

(** ** Ammunition *)

(** What [num] clip loads are worth. *)
Definition ammo_gain (ammo num : Z) : Z :=
  let clip := nth (Z.to_nat ammo) clipammo 0 in
  let n := if truth num then num * clip else clip / 2 in
  if (skill r =? sk_baby) || (skill r =? sk_nightmare) then n * 2 else n.

Lemma new_weapon_ok ammo p : length (Player.weaponowned p) = NUMWEAPONS ->
  exists w, new_weapon ammo p = Ret (p <| Player.pendingweapon := w |>).
Proof.
  intros Hl. assert (G : forall k, 0 <= k < 9 -> exists v, get (Player.weaponowned p) k = Ret v).
  { intros k Hk. destruct (get_ok (Player.weaponowned p) k) as (v & E & _); [rewrite Hl; unfold NUMWEAPONS; lia|]. eauto. }
  assert (K : exists w, Ret p = Ret (p <| Player.pendingweapon := w |>)) by (exists (Player.pendingweapon p); by destruct p).
  destruct (G wp_chaingun) as (v1 & E1); [unfold wp_chaingun; lia|].
  destruct (G wp_shotgun) as (v2 & E2); [unfold wp_shotgun; lia|].
  destruct (G wp_plasma) as (v3 & E3); [unfold wp_plasma; lia|].
  destruct (G wp_missile) as (v4 & E4); [unfold wp_missile; lia|].
  unfold new_weapon. rewrite E1, E2, E3, E4. cbn [obind]. repeat case_match; eauto.
Qed.

Lemma gain_bounds ammo num : 0 <= ammo < 4 -> 0 <= num <= 5 -> 0 <= ammo_gain ammo num <= 200.
Proof.
  intros Ha Hn. unfold ammo_gain. assert (H : ammo = 0 \/ ammo = 1 \/ ammo = 2 \/ ammo = 3) by lia.
  set (clip := nth _ _ _). assert (Hc : 1 <= clip <= 20) by (unfold clip; destruct H as [->|[->|[->| ->]]]; vm_compute; intuition discriminate).
  assert (Hq : 0 <= clip / 2 <= 10) by (clearbody clip; zlia).
  destruct (truth num), (_ || _); nia.
Qed.

Lemma GiveAmmo_run ammo num p have most :
  0 <= ammo < 4 -> 0 <= num <= 5 -> length (Player.weaponowned p) = NUMWEAPONS ->
  Player.ammo p !! Z.to_nat ammo = Some have -> Player.maxammo p !! Z.to_nat ammo = Some most ->
  0 <= have <= most -> most <= 600 ->
  exists w, P_GiveAmmo r ammo num p =
    Ret (negb (have =? most),
         p <| Player.ammo := <[Z.to_nat ammo := Z.min most (have + (if have =? most then 0 else ammo_gain ammo num))]> (Player.ammo p) |>
           <| Player.pendingweapon := w |>) /\
    (have <> 0 -> w = Player.pendingweapon p) /\ (have = most -> P_GiveAmmo r ammo num p = Ret (false, p)).
Proof.
  intros Ha Hn Hw Hh Hm Hle Hmax. unfold P_GiveAmmo.
  replace (ammo =? am_noammo) with false by (symmetry; apply Z.eqb_neq; unfold am_noammo; lia).
  replace (ammo >? Z.of_nat NUMAMMO) with false by (symmetry; rewrite Z.gtb_ltb; apply Z.ltb_ge; unfold NUMAMMO; lia).
  pose proof (lookup_lt_Some _ _ _ Hh) as Hlen. pose proof (gain_bounds ammo num Ha Hn) as Hg.
  assert (Gh : get (Player.ammo p) ammo = Ret have) by (unfold get; rewrite Hh; replace (ammo <? 0) with false by lia; done).
  assert (Gm : get (Player.maxammo p) ammo = Ret most) by (unfold get; rewrite Hm; replace (ammo <? 0) with false by lia; done).
  rewrite Gh. cbn [obind]. rewrite Gm. cbn [obind]. destruct (have =? most) eqn:E; breflect.
  { exists (Player.pendingweapon p). rewrite Z.add_0_r, Z.min_r by lia.
    rewrite list_insert_id by done. cbn [negb]. split_and!; [|done|done]. by destruct p. }
  assert (Gc : get clipammo ammo = Ret (nth (Z.to_nat ammo) clipammo 0)).
  { assert (H : ammo = 0 \/ ammo = 1 \/ ammo = 2 \/ ammo = 3) by lia. by destruct H as [->|[->|[->| ->]]]. }
  rewrite Gc. cbn [obind]. set (clip := nth _ _ _) in *.
  assert (Hclip : 1 <= clip <= 20).
  { unfold clip. assert (H : ammo = 0 \/ ammo = 1 \/ ammo = 2 \/ ammo = 3) by lia.
    destruct H as [->|[->|[->| ->]]]; vm_compute; intuition discriminate. }
  assert (Eg : (if (skill r =? sk_baby) || (skill r =? sk_nightmare)
     then i32 ((if truth num then i32 (num * clip) else clip ÷ 2) ≪ 1)
     else if truth num then i32 (num * clip) else clip ÷ 2) = ammo_gain ammo num).
  { unfold ammo_gain. fold clip. rewrite Z.quot_div_nonneg by lia. rewrite Z.shiftl_mul_pow2 by lia.
    assert (Hq : 0 <= clip / 2 <= 10) by (clearbody clip; zlia).
    assert (Hp : 0 <= num * clip <= 100) by nia.
    rewrite (wraps_id 32 (num * clip)) by in_range.
    set (m := if truth num then num * clip else clip / 2).
    assert (Hm' : 0 <= m <= 100) by (unfold m; destruct (truth num); lia).
    by rewrite (wraps_id 32 (m * 2 ^ 1)) by in_range. }
  rewrite Eg. rewrite (wraps_id 32 (have + _)) by in_range.
  rewrite set_ok by lia. cbn [obind negb].
  replace (if have + ammo_gain ammo num >? most then most else have + ammo_gain ammo num)
    with (Z.min most (have + ammo_gain ammo num))
    by (destruct (have + ammo_gain ammo num >? most) eqn:E'; breflect; lia).
  set (p' := p <| Player.ammo := _ |>). destruct (truth have) eqn:Et.
  - exists (Player.pendingweapon p'). split_and!; [by destruct p|done|done].
  - destruct (new_weapon_ok ammo p') as (w & ->); [done|]. exists w. split_and!; [done| |done].
    intros H. unfold truth in Et. breflect. done.
Qed.

(** ** The invariant *)

(** What changes of a player the invariant does not look at. *)
Lemma stock_same p p' :
  stock_ok p -> Player.ammo p' = Player.ammo p -> Player.maxammo p' = Player.maxammo p ->
  Player.backpack p' = Player.backpack p -> length (Player.weaponowned p') = length (Player.weaponowned p) ->
  length (Player.cards p') = length (Player.cards p) -> length (Player.powers p') = length (Player.powers p) ->
  0 < Player.health p' <= deh_max_health -> 0 <= Player.armorpoints p' <= deh_max_armor -> stock_ok p'.
Proof. intros [] E1 E2 E3 E4 E5 E6 E7 E8. split; congruence || done. Qed.

Lemma capacity_at b k : (k < 4)%nat -> exists m, capacity b !! k = Some m /\ 0 <= m <= 600.
Proof.
  intros Hk. unfold capacity. destruct (truth b); do 4 (destruct k as [|k]; [eexists; split; [done|lia]|]); lia.
Qed.

Lemma ammo_at p k : stock_ok p -> 0 <= k < 4 ->
  exists a m, Player.ammo p !! Z.to_nat k = Some a /\ Player.maxammo p !! Z.to_nat k = Some m /\ 0 <= a <= m /\ m <= 600.
Proof.
  intros Hok Hk. destruct (capacity_at (Player.backpack p) (Z.to_nat k)) as (m & Hm & Hb); [lia|].
  rewrite <- (st_max _ Hok) in Hm. destruct (Forall2_lookup_r _ _ _ _ _ (st_ammo _ Hok) Hm) as (a & Ha & Hle).
  exists a, m. split_and!; try done; lia.
Qed.

Lemma GiveAmmo_inv ammo num p : stock_ok p -> 0 <= ammo < 4 -> 0 <= num <= 5 ->
  exists b p', P_GiveAmmo r ammo num p = Ret (b, p') /\ stock_ok p' /\
    Player.health p' = Player.health p /\ Player.weaponowned p' = Player.weaponowned p.
Proof.
  intros Hok Ha Hn. destruct (ammo_at p ammo Hok Ha) as (a & m & Ea & Em & Hle & Hmax).
  destruct (GiveAmmo_run ammo num p a m Ha Hn (st_weapons _ Hok) Ea Em Hle Hmax) as (w & -> & _).
  do 2 eexists. split; [reflexivity|]. split; [|done]. pose proof (gain_bounds ammo num Ha Hn).
  destruct Hok. split; try done. cbn.
  replace (Player.maxammo p) with (<[Z.to_nat ammo := m]> (Player.maxammo p)) by (by apply list_insert_id).
  apply Forall2_insert; [done|]. destruct (a =? m); lia.
Qed.

Lemma weapon_ammo_at w : 0 <= w < 9 -> exists a, get weapon_ammo w = Ret a /\ (a = am_noammo \/ 0 <= a < 4).
Proof.
  intros Hw. destruct (get_ok weapon_ammo w) as (a & E & Ha); [cbn; lia|]. exists a. split; [done|].
  assert (H : Forall (fun a => a = am_noammo \/ 0 <= a < 4) weapon_ammo).
  { cbn. repeat apply Forall_cons_2; try apply Forall_nil_2; unfold am_noammo, am_clip, am_shell, am_cell, am_misl; lia. }
  exact (Forall_lookup_1 _ _ _ _ H Ha).
Qed.

(** A weapon added to those owned. *)
Lemma stock_weapon p w v : stock_ok p -> 0 <= w < 9 ->
  set (Player.weaponowned p) w v = Ret (<[Z.to_nat w := v]> (Player.weaponowned p)) /\
  stock_ok (p <| Player.weaponowned := <[Z.to_nat w := v]> (Player.weaponowned p) |>).
Proof.
  intros Hok Hw. split.
  - apply set_ok. rewrite (st_weapons _ Hok). unfold NUMWEAPONS. lia.
  - apply (stock_same p); try done; [|apply Hok..]. cbn. apply length_insert.
Qed.

Lemma GiveWeapon_inv w dropped p : stock_ok p -> 0 <= w < 9 ->
  exists b p' snd, P_GiveWeapon r w dropped p = Ret (b, p', snd) /\ stock_ok p' /\ Player.health p' = Player.health p.
Proof.
  intros Hok Hw. destruct (get_ok (Player.weaponowned p) w) as (o & Eo & _).
  { rewrite (st_weapons _ Hok). unfold NUMWEAPONS. lia. }
  destruct (weapon_ammo_at w Hw) as (a & Ea & Ha). unfold P_GiveWeapon. rewrite Eo, Ea. cbn [obind].
  destruct (netgame r && negb (deathmatch r =? 2) && negb dropped).
  - destruct (truth o); [by do 3 eexists|]. set (p1 := p <| Player.bonuscount ::= _ |>).
    assert (Hok1 : stock_ok p1) by (apply (stock_same p); try done; apply Hok).
    destruct (stock_weapon p1 w 1 Hok1 Hw) as [-> Hok2]. cbn [obind]. set (p2 := p1 <| Player.weaponowned := _ |>) in *.
    assert (Hg : exists b p3, P_GiveAmmo r a (if truth (deathmatch r) then 5 else 2) p2 = Ret (b, p3) /\ stock_ok p3 /\
      Player.health p3 = Player.health p).
    { destruct Ha as [->|Ha]; [by exists false, p2|].
      destruct (GiveAmmo_inv a (if truth (deathmatch r) then 5 else 2) p2 Hok2 Ha) as (b & p3 & E & H3 & H4 & _);
        [destruct (truth _); lia|]. by exists b, p3. }
    destruct Hg as (b & p3 & -> & Hok3 & H3). cbn [obind]. do 3 eexists. split; [reflexivity|]. split; [|done].
    apply (stock_same p3); try done; apply Hok3.
  - assert (Hg : exists b p3, (if negb (a =? am_noammo) then P_GiveAmmo r a (if dropped then 1 else 2) p else Ret (false, p))
        = Ret (b, p3) /\ stock_ok p3 /\ Player.health p3 = Player.health p /\ Player.weaponowned p3 = Player.weaponowned p).
    { destruct (negb (a =? am_noammo)) eqn:E; [|by exists false, p]. destruct Ha as [->|Ha]; [done|].
      apply (GiveAmmo_inv a _ p Hok Ha). destruct dropped; lia. }
    destruct Hg as (b & p3 & -> & Hok3 & H3 & Hw3). cbn [obind]. rewrite Hw3, Eo. cbn [obind].
    destruct (truth o); [by do 3 eexists|]. rewrite <- Hw3.
    destruct (stock_weapon p3 w 1 Hok3 Hw) as [-> Hok4]. cbn [obind]. do 3 eexists. split; [reflexivity|]. split; [|done].
    eapply (stock_same _ _ Hok4); try done; apply Hok4.
Qed.

Lemma set_health_inv h i : inv_ok i -> 0 < h <= deh_max_health -> inv_ok (set_health h i).
Proof. intros [Hok _] Hh. split; [|done]. apply (stock_same (ply i)); try done. apply Hok. Qed.

Lemma GiveBody_inv num i : inv_ok i -> 0 < num <= 100 -> inv_ok (P_GiveBody num i).2.
Proof.
  intros Hi Hn. unfold P_GiveBody. destruct (_ >=? MAXHEALTH) eqn:E; [done|]. breflect. cbn [snd].
  apply (set_health_inv _ i Hi). pose proof (st_health _ (proj1 Hi)) as Hh. unfold MAXHEALTH, deh_max_health in *.
  rewrite (wraps_id 32) by in_range. split_ifs; lia.
Qed.

Lemma GiveArmor_inv t p : stock_ok p -> 1 <= t <= 2 ->
  stock_ok (P_GiveArmor t p).2 /\ Player.health (P_GiveArmor t p).2 = Player.health p.
Proof.
  intros Hok Ht. unfold P_GiveArmor. destruct (_ >=? _) eqn:E; [done|]. split; [|done].
  apply (stock_same p); try done; [apply Hok|]. cbn. rewrite (wraps_id 32) by in_range.
  unfold deh_max_armor. lia.
Qed.

Lemma with_ply_inv i p : inv_ok i -> stock_ok p -> Player.health p = Player.health (ply i) -> inv_ok (with_ply i p).
Proof. intros [_ E] Hp Hh. split; [done|]. cbn. congruence. Qed.

Lemma message_inv i m : inv_ok i -> inv_ok (i <| ply ::= fun p => p <| Player.message := m |> |>).
Proof. intros [Hok E]. split; [|done]. apply (stock_same (ply i)); try done; apply Hok. Qed.

(** A case of the switch that goes through and keeps the invariant. *)
Definition case_ok (c : case) : Prop := exists s l i, c = Ret (s, l, i) /\ inv_ok i.

Lemma take_ok i msg s : inv_ok i -> case_ok (take i msg s).
Proof. intros H. do 3 eexists. split; [reflexivity|]. by apply message_inv. Qed.
Lemma leave_ok i : inv_ok i -> case_ok (leave i).
Proof. intros H. by do 3 eexists. Qed.
#[local] Hint Resolve take_ok leave_ok : core.

(** The next case of a switch written as a chain of tests. *)
Ltac next_case := lazymatch goal with
  | |- (if ?b then Some _ else _) = Some _ -> _ => destruct b; [intros [= <-]|]
  | |- None = Some _ -> _ => discriminate
  end.
Definition group_ok (o : option case) : Prop := forall c, o = Some c -> case_ok c.

Lemma touch_bonus_ok sprite i : inv_ok i -> group_ok (touch_bonus r sprite i).
Proof.
  intros Hi c. pose proof Hi as [Hok E]. pose proof (st_health _ Hok) as Hh. pose proof (st_armor _ Hok) as Har.
  unfold deh_max_health, deh_max_armor in *.
  assert (A1 : forall t msg, 1 <= t <= 2 -> case_ok (let '(b, p) := P_GiveArmor t (ply i) in
      if b then take (with_ply i p) msg sfx_itemup else leave i)).
  { intros t msg Ht. destruct (GiveArmor_inv t (ply i) Hok Ht) as [H1 H2]. destruct (P_GiveArmor t (ply i)) as [b p].
    cbn in H1, H2. destruct b; auto using with_ply_inv. }
  assert (A2 : forall d, 0 < d <= 100 -> 0 < (if i32 (Player.health (ply i) + d) >? 200 then 200 else i32 (Player.health (ply i) + d)) <= 200).
  { intros d Hd. rewrite (wraps_id 32) by in_range. split_ifs; lia. }
  unfold touch_bonus. repeat next_case.
  - apply A1. unfold deh_green_armor_class. lia.
  - apply A1. unfold deh_blue_armor_class. lia.
  - apply take_ok, set_health_inv; [done|]. unfold deh_max_health. apply A2. lia.
  - apply take_ok, with_ply_inv; [done| |done]. apply (stock_same (ply i)); try done. cbn. unfold deh_max_armor.
    rewrite (wraps_id 32) by in_range. split_ifs; lia.
  - apply take_ok, set_health_inv; [done|]. unfold deh_max_soulsphere, deh_soulsphere_health, deh_max_health. apply A2. lia.
  - destruct (negb (commercial r)); [auto|]. assert (H2 : inv_ok (set_health deh_megasphere_health i)).
    { apply set_health_inv; [done|]. unfold deh_megasphere_health, deh_max_health. lia. }
    destruct (GiveArmor_inv 2 _ (proj1 H2)) as [H3 H4]; [lia|]. apply take_ok. by apply with_ply_inv.
Qed.

Lemma touch_key_ok sprite i : inv_ok i -> group_ok (touch_key r sprite i).
Proof.
  intros Hi c. assert (K : forall card msg, 0 <= card < 6 -> case_ok (touch_card r card msg i)).
  { intros card msg Hc. pose proof Hi as [Hok E].
    destruct (get_ok (Player.cards (ply i)) card) as (v & Ev & _); [rewrite (st_cards _ Hok); unfold NUMCARDS; lia|].
    unfold touch_card. rewrite Ev. cbn [obind]. set (i1 := if truth v then i else _).
    assert (H1 : inv_ok i1) by (unfold i1; destruct (truth v); [done|by apply message_inv]).
    assert (Ec : Player.cards (ply i1) = Player.cards (ply i)) by (unfold i1; by destruct (truth v)).
    unfold P_GiveCard. rewrite Ec, Ev. cbn [obind].
    assert (Hp : exists p, (if truth v then Ret (ply i1) else
        let* l := set (Player.cards (ply i)) card 1 in
        Ret ((ply i1) <| Player.bonuscount := BONUSADD |> <| Player.cards := l |>)) = Ret p /\
        stock_ok p /\ Player.health p = Player.health (ply i1)).
    { destruct (truth v); [by exists (ply i1); destruct H1|].
      rewrite set_ok by (rewrite (st_cards _ Hok); unfold NUMCARDS; lia). cbn [obind]. eexists. split; [done|]. split; [|done].
      apply (stock_same (ply i1)); try done; try apply H1. cbn [Player.cards update]. rewrite length_insert. by f_equal. }
    destruct Hp as (p & -> & Hp & Hh). cbn [obind].
    assert (H2 : inv_ok (with_ply i1 p)) by (by apply with_ply_inv).
    destruct (negb (netgame r)); by do 3 eexists. }
  unfold touch_key. repeat next_case; apply K; unfold it_bluecard, it_yellowcard, it_redcard, it_blueskull, it_yellowskull, it_redskull; lia.
Qed.

Lemma GivePower_inv power i : inv_ok i -> 0 <= power < 6 ->
  exists b i', P_GivePower power i = Ret (b, i') /\ inv_ok i'.
Proof.
  intros Hi Hp. assert (S : forall v j, inv_ok j -> exists j',
      (let* l := set (Player.powers (ply j)) power v in Ret (true, j <| ply ::= fun p => p <| Player.powers := l |> |>)) = Ret (true, j') /\ inv_ok j').
  { intros v j [Hj Ej]. rewrite set_ok by (rewrite (st_powers _ Hj); unfold NUMPOWERS; lia). cbn [obind].
    eexists. split; [reflexivity|]. split; [|done]. apply (stock_same (ply j)); try done; try apply Hj. cbn. apply length_insert. }
  unfold P_GivePower. destruct (S INVULNTICS i Hi) as (j1 & -> & H1), (S INVISTICS i Hi) as (j2 & -> & H2),
    (S INFRATICS i Hi) as (j3 & -> & H3), (S IRONTICS i Hi) as (j4 & -> & H4), (S 1 i Hi) as (j5 & -> & H5).
  destruct (S 1 (P_GiveBody 100 i).2 (GiveBody_inv 100 i Hi ltac:(lia))) as (j6 & -> & H6).
  destruct (get_ok (Player.powers (ply i)) power) as (v & -> & _); [destruct Hi as [Hi _]; rewrite (st_powers _ Hi); unfold NUMPOWERS; lia|].
  cbn [obind]. repeat case_match; do 2 eexists; (split; [reflexivity|]); try done.
Qed.

Lemma touch_body_power_ok sprite i : inv_ok i -> group_ok (touch_body_power sprite i).
Proof.
  intros Hi c. assert (K : forall power msg, 0 <= power < 6 -> case_ok (touch_power power msg i)).
  { intros power msg Hp. unfold touch_power. destruct (GivePower_inv power i Hi Hp) as (b & i' & -> & H). cbn [obind].
    destruct b; auto. }
  assert (B : forall num msg, 0 < num <= 100 -> case_ok (let '(b, i) := P_GiveBody num i in
      if b then take i (msg i) sfx_itemup else leave i)).
  { intros num msg Hn. pose proof (GiveBody_inv num i Hi Hn) as H. destruct (P_GiveBody num i) as [b i']. destruct b; auto. }
  unfold touch_body_power. repeat next_case;
    try (apply K; unfold pw_invulnerability, pw_invisibility, pw_ironfeet, pw_allmap, pw_infrared; lia).
  - apply (B 10 (fun _ => "GOTSTIM")). lia.
  - apply (B 25 (fun i => if Player.health (ply i) <? 25 then "GOTMEDINEED" else "GOTMEDIKIT")). lia.
  - destruct (GivePower_inv pw_strength i Hi) as (b & i' & -> & H); [unfold pw_strength; lia|]. cbn [obind].
    destruct b; [|auto]. unfold take. cbn [obind]. do 3 eexists. split; [reflexivity|].
    apply (message_inv i' (message_at "GOTBERSERK")) in H. destruct (_ =? wp_fist); [done|].
    destruct H as [H E]. split; [|done]. eapply (stock_same _ _ H); try done; apply H.
Qed.

Lemma touch_ammo_ok sprite flags i : inv_ok i -> group_ok (touch_ammo r sprite flags i).
Proof.
  intros Hi c. pose proof Hi as [Hok E].
  assert (K : forall ammo num msg, 0 <= ammo < 4 -> 0 <= num <= 5 -> case_ok (touch_clip r ammo num msg i)).
  { intros ammo num msg Ha Hn. unfold touch_clip. destruct (GiveAmmo_inv ammo num (ply i) Hok Ha Hn) as (b & p & -> & H1 & H2 & _).
    cbn [obind]. destruct b; auto using with_ply_inv. }
  assert (G : forall l p, Forall (fun a => 0 <= a < 4) l -> stock_ok p ->
    exists p', give_each r l p = Ret p' /\ stock_ok p' /\ Player.health p' = Player.health p).
  { induction l as [|a l IH]; intros p Hl Hp; [by exists p|]. apply Forall_cons in Hl as [Ha Hl].
    destruct (GiveAmmo_inv a 1 p Hp Ha ltac:(lia)) as (b & p1 & E1 & H1 & H2 & _).
    destruct (IH p1 Hl H1) as (p2 & E2 & H3 & H4). exists p2. cbn. rewrite E1. cbn [obind]. split_and!; congruence || done. }
  unfold touch_ammo, am_clip, am_shell, am_cell, am_misl. repeat next_case; try (apply K; destruct (has_flag _ _) || idtac; lia).
  cbv zeta. set (p1 := if truth (Player.backpack (ply i)) then ply i else _).
  assert (H1 : stock_ok p1 /\ Player.health p1 = Player.health (ply i)).
  { unfold p1. destruct (truth (Player.backpack (ply i))) eqn:Eb; [done|]. split; [|done].
    pose proof (st_ammo _ Hok) as Ha. pose proof (st_max _ Hok) as Hm. unfold capacity in Hm. rewrite Eb in Hm.
    destruct Hok. split; try done; cbn; rewrite Hm; [|done]. rewrite Hm in Ha.
    repeat (apply Forall2_cons_inv_r in Ha as (? & ? & ? & Ha & ->)). apply Forall2_nil_inv_r in Ha as ->.
    repeat constructor; vm_compute (i32 _); lia. }
  destruct H1 as [H1 H2]. destruct (G [0; 1; 2; 3] p1) as (p2 & E2 & H3 & H4); [repeat constructor; lia|done|].
  change (case_ok (let* p := give_each r [0; 1; 2; 3] p1 in take (with_ply i p) "GOTBACKPACK" sfx_itemup)).
  rewrite E2. cbn [obind]. apply take_ok, with_ply_inv; congruence || done.
Qed.

Lemma touch_weapon_ok sprite flags i : inv_ok i -> group_ok (touch_weapon r sprite flags i).
Proof.
  intros Hi c. pose proof Hi as [Hok E].
  assert (K : forall w d msg, 0 <= w < 9 -> case_ok (touch_gun r w d msg i)).
  { intros w d msg Hw. unfold touch_gun. destruct (GiveWeapon_inv w d (ply i) Hok Hw) as (b & p & snd & -> & H1 & H2).
    cbn [obind]. destruct b; [auto using with_ply_inv|]. do 3 eexists. split; [reflexivity|]. by apply with_ply_inv. }
  unfold touch_weapon. repeat next_case; apply K;
    unfold wp_bfg, wp_chaingun, wp_chainsaw, wp_missile, wp_plasma, wp_shotgun, wp_supershotgun; lia.
Qed.

Lemma touch_switch_ok special i : inv_ok i -> Mobj.sprite special ∈ gettable -> case_ok (touch_switch r special i).
Proof.
  intros Hi Hs. unfold touch_switch. pose proof (touch_bonus_ok (Mobj.sprite special) i Hi) as H1.
  pose proof (touch_key_ok (Mobj.sprite special) i Hi) as H2.
  pose proof (touch_body_power_ok (Mobj.sprite special) i Hi) as H3.
  pose proof (touch_ammo_ok (Mobj.sprite special) (Mobj.flags special) i Hi) as H4.
  pose proof (touch_weapon_ok (Mobj.sprite special) (Mobj.flags special) i Hi) as H5.
  destruct (touch_bonus _ _ _) eqn:E1; [by apply H1|]. destruct (touch_key _ _ _) eqn:E2; [by apply H2|].
  destruct (touch_body_power _ _) eqn:E3; [by apply H3|]. destruct (touch_ammo _ _ _ _) eqn:E4; [by apply H4|].
  destruct (touch_weapon _ _ _ _) eqn:E5; [by apply H5|]. exfalso. clear H1 H2 H3 H4 H5.
  unfold gettable in Hs. repeat (apply elem_of_cons in Hs as [Hs|Hs];
    [rewrite Hs in E1, E2, E3, E4, E5; discriminate|]). by apply elem_of_nil in Hs.
Qed.

(** A sprite none of the cases names. *)
Lemma touch_switch_unknown special i :
  Mobj.sprite special ∉ gettable -> touch_switch r special i = Fatal "P_SpecialThing: Unknown gettable thing".
Proof.
  intros Hs. unfold gettable in Hs. repeat (apply not_elem_of_cons in Hs as [? Hs]).
  unfold touch_switch, touch_bonus, touch_key, touch_body_power, touch_ammo, touch_weapon. cbv zeta.
  repeat (match goal with |- context [Mobj.sprite special =? ?c] => rewrite (proj2 (Z.eqb_neq _ c)) by done end).
  reflexivity.
Qed.

(** The thing is within the toucher's reach, which is alive. *)
Definition in_reach (special toucher : Mobj.mobj_t) : bool :=
  (-8 * FRACUNIT <=? i32 (Mobj.z special - Mobj.z toucher)) &&
  (i32 (Mobj.z special - Mobj.z toucher) <=? Mobj.height toucher) && (0 <? Mobj.health toucher).

Lemma touch_reach special i : P_TouchSpecialThing r special i =
  if in_reach special (mo i) then
    let* '(sound, started, i) := touch_switch r special i in
    match sound with
    | None => Ret (false, started, i)
    | Some s =>
        let p := if has_flag (Mobj.flags special) MF_COUNTITEM then (ply i) <| Player.itemcount ::= fun c => i32 (c + 1) |> else ply i in
        Ret (true, started ++ (if console r then [s] else []), with_ply i (p <| Player.bonuscount ::= fun c => i32 (c + BONUSADD) |>))
    end
  else Ret (false, [], i).
Proof.
  unfold P_TouchSpecialThing, in_reach. cbv zeta. set (d := i32 _). rewrite Z.gtb_ltb.
  rewrite (Z.leb_antisym d), (Z.leb_antisym (Mobj.height _)), (Z.leb_antisym 0).
  destruct (Mobj.height (mo i) <? d), (d <? -8 * FRACUNIT), (0 <? Mobj.health (mo i)); reflexivity.
Qed.

(** ** The claims *)

(** C32: touching any of the things the game knows, in any state a player can
    be in, goes through (no array is overrun and no error is raised) and
    keeps the player's stock valid: every kind of ammunition between zero and
    what the player can carry, the capacities those of the backpack flag, the
    health within 1 to 200 and the same in player and object, the armor within
    0 to 200. A thing out of reach, or touched by a dead player, is not taken
    and changes nothing; a thing of any other sprite within reach is a fatal
    error. *)
Theorem P_TouchSpecialThing_correct special i : inv_ok i ->
  (Mobj.sprite special ∈ gettable ->
   exists taken sounds i', P_TouchSpecialThing r special i = Ret (taken, sounds, i') /\ inv_ok i') /\
  (in_reach special (mo i) = false -> P_TouchSpecialThing r special i = Ret (false, [], i)) /\
  (in_reach special (mo i) = true -> Mobj.sprite special ∉ gettable ->
   P_TouchSpecialThing r special i = Fatal "P_SpecialThing: Unknown gettable thing").
Proof.
  intros Hi. rewrite touch_reach. split_and!.
  - intros Hs. destruct (in_reach _ _); [|by do 3 eexists].
    destruct (touch_switch_ok special i Hi Hs) as ([s|] & l & i' & -> & [Hok E]); cbn [obind]; [|by do 3 eexists].
    do 3 eexists. split; [reflexivity|]. destruct (has_flag (Mobj.flags special) MF_COUNTITEM);
      (apply with_ply_inv; [done| |done]); apply (stock_same (ply i')); try done; apply Hok.
  - by intros ->.
  - intros -> Hs. by rewrite touch_switch_unknown.
Qed.

(** what P_GiveAmmo gives: a player with less than it can carry gets
    [num] clip loads (half a clip for zero), twice that on the easiest and the
    hardest skill, up to the capacity; the other kinds and the weapons owned
    are untouched, and the weapon is only changed for a player that had none
    of this ammunition. With full stock the call reports false and changes
    nothing. *)
Theorem P_GiveAmmo_correct ammo num p have most :
  stock_ok p -> 0 <= ammo < 4 -> 0 <= num <= 5 ->
  Player.ammo p !! Z.to_nat ammo = Some have -> Player.maxammo p !! Z.to_nat ammo = Some most ->
  if have =? most then P_GiveAmmo r ammo num p = Ret (false, p)
  else exists w, P_GiveAmmo r ammo num p =
    Ret (true, p <| Player.ammo := <[Z.to_nat ammo := Z.min most (have + ammo_gain ammo num)]> (Player.ammo p) |>
                 <| Player.pendingweapon := w |>) /\
    (have <> 0 -> w = Player.pendingweapon p).
Proof.
  intros Hok Ha Hn Eh Em. destruct (ammo_at p ammo Hok Ha) as (a & m & Ea & Em' & Hle & Hmax).
  rewrite Eh in Ea. rewrite Em in Em'. simplify_eq.
  destruct (GiveAmmo_run ammo num p a m Ha Hn (st_weapons _ Hok) Eh Em Hle Hmax) as (w & E & Hk & Hz).
  destruct (a =? m) eqn:Eq; [by apply Hz, Z.eqb_eq|]. by exists w.
Qed.

(** A medikit never says that it was really needed: the message is
    chosen after the health was raised by 25, so its test (health below 25)
    fails for every living player, however hurt. *)
Theorem medikit_never_needed special i s l i' :
  inv_ok i -> Mobj.sprite special = SPR_MEDI -> touch_switch r special i = Ret (Some s, l, i') ->
  25 < Player.health (ply i') /\ Player.message (ply i') = message_at "GOTMEDIKIT".
Proof.
  intros [Hok _] Hs. unfold touch_switch. rewrite Hs.
  change (touch_bonus r SPR_MEDI i) with (@None case). change (touch_key r SPR_MEDI i) with (@None case).
  unfold touch_body_power. change (SPR_MEDI =? SPR_STIM) with false. change (SPR_MEDI =? SPR_MEDI) with true. cbv iota.
  unfold P_GiveBody. pose proof (st_health _ Hok) as Hh. unfold deh_max_health in Hh.
  destruct (_ >=? MAXHEALTH) eqn:E; [discriminate|]. unfold MAXHEALTH in *. breflect.
  rewrite (wraps_id 32) by in_range.
  set (h := if _ >? 100 then _ else _). assert (Hh' : 25 < h) by (unfold h; split_ifs; lia).
  change (Player.health (ply (mk_inv _ _))) with h.
  replace (h <? 25) with false by (symmetry; apply Z.ltb_ge; lia). intros [= <- <- <-]. done.
Qed.

(** The check of P_GiveAmmo is off by one: numbers above 5 are a fatal
    error as meant, but NUMAMMO itself passes the check and the arrays are
    read past their end. *)
Theorem P_GiveAmmo_bad_type ammo num p :
  stock_ok p -> 4 <= ammo -> ammo <> am_noammo ->
  P_GiveAmmo r ammo num p = if ammo =? Z.of_nat NUMAMMO then Undef else Fatal "P_GiveAmmo: bad type".
Proof.
  intros Hok Ha Hn. unfold P_GiveAmmo. replace (ammo =? am_noammo) with false by (symmetry; by apply Z.eqb_neq).
  unfold NUMAMMO in *. rewrite Z.gtb_ltb. destruct (Z.ltb_spec (Z.of_nat 4) ammo).
  - by replace (ammo =? Z.of_nat 4) with false by (symmetry; apply Z.eqb_neq; lia).
  - assert (ammo = 4) as -> by lia. rewrite get_out; [done|].
    pose proof (Forall2_length _ _ _ (st_ammo _ Hok)) as El. rewrite (st_max _ Hok) in El.
    unfold capacity in El. rewrite El. by destruct (truth _).
Qed.
End rules.

(** ** Witnesses *)
Section demo.
#[local] Instance demo_messages : Messages := fun _ => 7.
Definition demo_rules : rules := mk_rules sk_baby false 0 true true.
(** A player with one point of health, two shells short of its capacity. *)
Definition hurt_player : Player.player_t :=
  Player.mk 1 0 (TicCmd.mk 0 0 0 0 0 0 0 0 0 0) 0 0 0 0 1 0 0 [0; 0; 0; 0; 0; 0] [0; 0; 0; 0; 0; 0] 0 [0; 0; 0; 0] 0 0
    [1; 1; 0; 0; 0; 0; 0; 0; 0] [0; 48; 0; 0] [200; 50; 300; 50] 0 0 0 0 0 0 0 0 0 0 0 0 0 0
    [PspDef.mk None 0 0 0; PspDef.mk None 0 0 0] 0.
Definition demo_thing (sprite health : Z) : Mobj.mobj_t :=
  Mobj.mk (Thinker.mk 0 0 0) 0 0 0 0 0 0 sprite 0 0 0 0 0 0 0 3670016 0 0 0 0 0
    0 0 0 0 health 0 0 0 0 0 None 0 (MapThing.mk 0 0 0 0 0) 0.
Definition hurt : inv := mk_inv hurt_player (demo_thing 28 1).

Lemma hurt_stock : stock_ok hurt_player.
Proof. split; try reflexivity; cbn; unfold deh_max_health, deh_max_armor; try lia. repeat constructor; lia. Qed.
Lemma hurt_ok : inv_ok hurt.
Proof. split; [apply hurt_stock|reflexivity]. Qed.

Lemma P_TouchSpecialThing_correct_witness :
  (exists taken sounds i', P_TouchSpecialThing demo_rules (demo_thing SPR_BPAK 1000) hurt = Ret (taken, sounds, i') /\ inv_ok i') /\
  P_TouchSpecialThing demo_rules (demo_thing 3 1000) hurt = Fatal "P_SpecialThing: Unknown gettable thing" /\
  (exists i', P_TouchSpecialThing demo_rules (demo_thing SPR_BPAK 1000) hurt = Ret (true, [sfx_itemup], i') /\
    Player.ammo (ply i') = [20; 56; 40; 2] /\ Player.maxammo (ply i') = [400; 100; 600; 100]).
Proof.
  split_and!.
  - apply (proj1 (P_TouchSpecialThing_correct demo_rules (demo_thing SPR_BPAK 1000) hurt hurt_ok)).
    apply (bool_decide_unpack _). vm_compute. exact I.
  - apply (proj2 (proj2 (P_TouchSpecialThing_correct demo_rules (demo_thing 3 1000) hurt hurt_ok))); [reflexivity|].
    apply (bool_decide_unpack _). vm_compute. exact I.
  - eexists. split; [vm_compute; reflexivity|]. split; reflexivity.
Defined.

Lemma P_GiveAmmo_correct_witness : exists w,
  P_GiveAmmo demo_rules am_shell 1 hurt_player =
    Ret (true, hurt_player <| Player.ammo := [0; 50; 0; 0] |> <| Player.pendingweapon := w |>) /\ (48 <> 0 -> w = 0).
Proof.
  refine (P_GiveAmmo_correct demo_rules am_shell 1 hurt_player 48 50 hurt_stock _ _ _ _);
    [unfold am_shell; lia|lia|reflexivity|reflexivity].
Defined.

Lemma medikit_never_needed_witness : exists s l i',
  touch_switch demo_rules (demo_thing SPR_MEDI 1000) hurt = Ret (Some s, l, i') /\ Player.health (ply i') = 26 /\
  25 < Player.health (ply i') /\ Player.message (ply i') = message_at "GOTMEDIKIT".
Proof.
  do 3 eexists. split; [vm_compute; reflexivity|]. split; [reflexivity|].
  refine (medikit_never_needed demo_rules (demo_thing SPR_MEDI 1000) hurt _ _ _ hurt_ok eq_refl _).
  vm_compute; reflexivity.
Defined.

Lemma P_GiveAmmo_bad_type_witness :
  P_GiveAmmo demo_rules 4 1 hurt_player = Undef /\ P_GiveAmmo demo_rules 6 1 hurt_player = Fatal "P_GiveAmmo: bad type".
Proof.
  split; [refine (P_GiveAmmo_bad_type demo_rules 4 1 hurt_player hurt_stock _ _)|
          refine (P_GiveAmmo_bad_type demo_rules 6 1 hurt_player hurt_stock _ _)]; unfold am_noammo; lia.
Defined.
End demo.
