(* ===== verification/SectorSearch.v ===== *)
(** * Searching the sectors of a level (src/commands/doom/p_spec.c)

    The functions that look at the sectors around a sector, and the loop over
    the sectors with the tag of a line that the specials are started by. A
    [doomsector_t *] and a [line_t *] are indices into the arrays of the
    level. *)
From S2P Require Import Prelude MFixed GameTypes.
#[local] Open Scope doom_scope.

Definition ML_TWOSIDED : Z := 4.
Definition MAX_ADJOINING_SECTORS : nat := 20.

Definition getNextSector (li : Line.line_t) (sec : nat) : option nat :=
  if negb (has_flag (Line.flags li) ML_TWOSIDED) then None
  else if bool_decide (Line.frontsector li = Some sec) then Line.backsector li
  else Line.frontsector li.

Section search.
Context (g : game).

(** The loop that all the searches are: over the lines of the sector, with
    [continue] where there is no sector on the other side. *)
Fixpoint each_neighbour {S} (sec : nat) (body : Sector.doomsector_t -> S -> outcome S) (ls : list nat) (s : S) : outcome S :=
  match ls with
  | [] => Ret s
  | l :: ls =>
      let* check := of_option (lines g !! l) in
      match getNextSector check sec with
      | None => each_neighbour sec body ls s
      | Some o =>
          let* other := of_option (sectors g !! o) in
          let* s := body other s in
          each_neighbour sec body ls s
      end
  end.
Definition around {S} (sec : nat) (body : Sector.doomsector_t -> S -> outcome S) (init : Sector.doomsector_t -> S) : outcome S :=
  let* s := of_option (sectors g !! sec) in
  each_neighbour sec body (Sector.lines s) (init s).

Definition P_FindLowestFloorSurrounding (sec : nat) : outcome Z :=
  around sec (fun other floor =>
    Ret (if Sector.floorheight other <? floor then Sector.floorheight other else floor)) Sector.floorheight.

Definition P_FindHighestFloorSurrounding (sec : nat) : outcome Z :=
  around sec (fun other floor =>
    Ret (if Sector.floorheight other >? floor then Sector.floorheight other else floor)) (fun _ => -500 * FRACUNIT).

Definition P_FindLowestCeilingSurrounding (sec : nat) : outcome Z :=
  around sec (fun other height =>
    Ret (if Sector.ceilingheight other <? height then Sector.ceilingheight other else height)) (fun _ => INT_MAX).

Definition P_FindHighestCeilingSurrounding (sec : nat) : outcome Z :=
  around sec (fun other height =>
    Ret (if Sector.ceilingheight other >? height then Sector.ceilingheight other else height)) (fun _ => 0).

Definition P_FindMinSurroundingLight (sector : nat) (max : Z) : outcome Z :=
  around sector (fun check min =>
    Ret (if Sector.lightlevel check <? min then Sector.lightlevel check else min)) (fun _ => max).

(** One neighbour of [P_FindNextHighestFloor]: [heightlist] has the [h]
    entries filled so far, of an array of [MAX_ADJOINING_SECTORS + 2]. *)
Definition next_height (other : Sector.doomsector_t) (st : Z * list Z) : outcome (Z * list Z) :=
  let '(height, heightlist) := st in
  if Sector.floorheight other >? height then
    let h := length heightlist in
    let* height :=
      (if bool_decide (h = MAX_ADJOINING_SECTORS + 1)%nat then Ret (Sector.floorheight other)
       else if bool_decide (h = MAX_ADJOINING_SECTORS + 2)%nat
       then Fatal "Sector with more than 22 adjoining sectors. Vanilla will crash here"
       else Ret height) in
    if bool_decide (h < MAX_ADJOINING_SECTORS + 2)%nat
    then Ret (height, heightlist ++ [Sector.floorheight other])
    else Undef
  else Ret st.

Definition P_FindNextHighestFloor (sec : nat) (currentheight : Z) : outcome Z :=
  let* '(_, heightlist) := around sec next_height (fun _ => (currentheight, [])) in
  match heightlist with
  | [] => Ret currentheight
  | first :: rest => Ret (fold_left (fun min h => if h <? min then h else min) rest first)
  end.

(** The next sector behind [start] that has the tag, or -1. *)
Fixpoint find_tag (tag : Z) (l : list Sector.doomsector_t) (i : Z) : Z :=
  match l with
  | [] => -1
  | sec :: l => if Sector.tag sec =? tag then i else find_tag tag l (i + 1)
  end.
Definition P_FindSectorFromLineTag (tag start : Z) : Z :=
  find_tag tag (drop (Z.to_nat (start + 1)) (sectors g)) (start + 1).
End search.

(** [while ((secnum = P_FindSectorFromLineTag(line,secnum)) >= 0) body], on a
    state that contains the game. *)
Fixpoint for_tagged {W} (game_of : W -> game) (fuel : nat) (tag secnum : Z) (body : nat -> W -> outcome W) (w : W) : outcome W :=
  match fuel with
  | O => NoFuel
  | S fuel =>
      let secnum := P_FindSectorFromLineTag (game_of w) tag secnum in
      if secnum >=? 0 then
        let* w := body (Z.to_nat secnum) w in
        for_tagged game_of fuel tag secnum body w
      else Ret w
  end.

(** ** Reference definitions *)

(** The indices of a level are within its arrays. *)
Record level_ok (g : game) : Prop := {
  lv_lines s sec : sectors g !! s = Some sec -> Forall (fun l => is_Some (lines g !! l)) (Sector.lines sec);
  lv_sectors l li o : lines g !! l = Some li ->
    Line.frontsector li = Some o \/ Line.backsector li = Some o -> is_Some (sectors g !! o)
}.

(** The sectors next to a sector, one for each of its lines that has one. *)
Definition next_sector (g : game) (sec l : nat) : option Sector.doomsector_t :=
  li ← lines g !! l; o ← getNextSector li sec; sectors g !! o.
Definition neighbours (g : game) (sec : nat) : list Sector.doomsector_t :=
  match sectors g !! sec with
  | Some s => omap (next_sector g sec) (Sector.lines s)
  | None => []
  end.

(** The sectors with a tag, in order, from index [i] on. *)
Fixpoint tagged_from (tag : Z) (l : list Sector.doomsector_t) (i : nat) : list nat :=
  match l with
  | [] => []
  | sec :: l => if Sector.tag sec =? tag then i :: tagged_from tag l (S i) else tagged_from tag l (S i)
  end.
Definition tagged (g : game) (tag : Z) : list nat := tagged_from tag (sectors g) 0.

Fixpoint run_each {A W} (body : A -> W -> outcome W) (l : list A) (w : W) : outcome W :=
  match l with
  | [] => Ret w
  | a :: l => let* w := body a w in run_each body l w
  end.

(** ** Lemmas *)
Section facts.
Context (g : game) (ok : level_ok g).

Lemma getNextSector_ok l li sec o : lines g !! l = Some li -> getNextSector li sec = Some o -> is_Some (sectors g !! o).
Proof.
  intros Hl. unfold getNextSector. destruct (negb _); [done|]. case_bool_decide; intros E; eapply lv_sectors; eauto.
Qed.

Lemma each_neighbour_run {S} sec (body : Sector.doomsector_t -> S -> outcome S) ls s :
  Forall (fun l => is_Some (lines g !! l)) ls ->
  each_neighbour g sec body ls s = run_each body (omap (next_sector g sec) ls) s.
Proof.
  revert s. induction ls as [|l ls IH]; intros s Hl; [done|]. apply Forall_cons in Hl as [[li El] Hl].
  cbn [each_neighbour omap list_omap]. unfold next_sector at 1. rewrite El. cbn [of_option obind mbind option_bind].
  destruct (getNextSector li sec) as [o|] eqn:En; cbn [mbind option_bind]; [|by apply IH].
  destruct (getNextSector_ok l li sec o El En) as [other ->]. cbn [of_option obind run_each].
  destruct (body other s); cbn [obind]; auto.
Qed.

Lemma around_run {S} sec s0 (body : Sector.doomsector_t -> S -> outcome S) init :
  sectors g !! sec = Some s0 -> around g sec body init = run_each body (neighbours g sec) (init s0).
Proof.
  intros E. unfold around, neighbours. rewrite E. cbn [of_option obind]. apply each_neighbour_run.
  by eapply lv_lines.
Qed.

Lemma run_each_min (f : Sector.doomsector_t -> Z) l m :
  run_each (fun x m => Ret (if f x <? m then f x else m)) l m = Ret (zmin m (f <$> l)).
Proof.
  revert m. induction l as [|x l IH]; intros m; [done|]. cbn [run_each obind]. rewrite IH. cbn [fmap list_fmap].
  f_equal. change (zmin m (f x :: (f <$> l))) with (Z.min (f x) (zmin m (f <$> l))). rewrite <- zmin_min. f_equal.
  destruct (Z.ltb_spec (f x) m); lia.
Qed.

Lemma run_each_max (f : Sector.doomsector_t -> Z) l m :
  run_each (fun x m => Ret (if f x >? m then f x else m)) l m = Ret (zmax m (f <$> l)).
Proof.
  revert m. induction l as [|x l IH]; intros m; [done|]. cbn [run_each obind]. rewrite IH. cbn [fmap list_fmap].
  f_equal. change (zmax m (f x :: (f <$> l))) with (Z.max (f x) (zmax m (f <$> l))). rewrite <- zmax_max. f_equal.
  rewrite Z.gtb_ltb. destruct (Z.ltb_spec m (f x)); lia.
Qed.

(** The heights above the current one, in the order they are met. *)
Definition higher (cur : Z) (l : list Sector.doomsector_t) : list Z :=
  filter (fun h => cur < h) (Sector.floorheight <$> l).

Lemma next_height_run cur l : forall hl, (length hl + length (higher cur l) <= 21)%nat ->
  run_each next_height l (cur, hl) = Ret (cur, hl ++ higher cur l).
Proof.
  induction l as [|x l IH]; intros hl Hlen; cbn [run_each higher fmap list_fmap] in *; [by rewrite app_nil_r|].
  unfold higher in *. cbn [fmap list_fmap] in *. unfold next_height at 1. rewrite Z.gtb_ltb.
  destruct (Z.ltb_spec cur (Sector.floorheight x)) as [H|H].
  - rewrite filter_cons_True in Hlen |- * by lia. cbn [length] in Hlen.
    rewrite !bool_decide_eq_false_2, bool_decide_eq_true_2 by (unfold MAX_ADJOINING_SECTORS; lia). cbn [obind].
    rewrite IH by (rewrite length_app; cbn; lia). by rewrite <- app_assoc.
  - rewrite filter_cons_False in Hlen |- * by lia. cbn [obind]. by apply IH.
Qed.

Lemma fold_lowest l : forall m, fold_left (fun min h => if h <? min then h else min) l m = zmin m l.
Proof.
  induction l as [|x l IH]; intros m; [done|]. cbn [fold_left]. rewrite IH.
  change (zmin m (x :: l)) with (Z.min x (zmin m l)). rewrite <- zmin_min. f_equal. destruct (Z.ltb_spec x m); lia.
Qed.
End facts.

Lemma level_ok_update g s sec sec' l : level_ok g -> sectors g !! s = Some sec -> Sector.lines sec' = Sector.lines sec ->
  level_ok (g <| thinkers := l |> <| sectors ::= <[s := sec']> |>).
Proof.
  intros [H1 H2] E El. assert (Hlt : (s < length (sectors g))%nat) by (by eapply lookup_lt_Some).
  split; cbn.
  - intros k x Hk. destruct (decide (s = k)) as [<-|Hne].
    + rewrite list_lookup_insert_eq in Hk by done. injection Hk as <-. rewrite El. by eapply H1.
    + rewrite list_lookup_insert_ne in Hk by done. by eapply H1.
  - intros k li o Hk Ho. apply lookup_lt_is_Some_2. rewrite length_insert. apply lookup_lt_is_Some_1. by eapply H2.
Qed.

(** What the searches look at stays the same when a sector keeps it. *)
Lemma neighbours_update {B} (f : Sector.doomsector_t -> B) g k sec sec' l s : sectors g !! k = Some sec ->
  Sector.lines sec' = Sector.lines sec -> f sec' = f sec ->
  f <$> neighbours (g <| thinkers := l |> <| sectors ::= <[k := sec']> |>) s = f <$> neighbours g s.
Proof.
  intros E El Ef. set (g' := g <| thinkers := l |> <| sectors ::= <[k := sec']> |>).
  assert (Hf : forall o, f <$> (sectors g' !! o) = f <$> (sectors g !! o)).
  { intros o. cbn. destruct (decide (k = o)) as [<-|Hne]; [|by rewrite list_lookup_insert_ne].
    rewrite list_lookup_insert_eq by (by eapply lookup_lt_Some). rewrite E. cbn. by rewrite Ef. }
  assert (Hl : forall ls : list nat, f <$> omap (next_sector g' s) ls = f <$> omap (next_sector g s) ls).
  { induction ls as [|i ls IH]; [done|]. cbn [omap list_omap].
    assert (Hn : f <$> next_sector g' s i = f <$> next_sector g s i).
    { unfold next_sector. change (lines g') with (lines g). destruct (lines g !! i) as [li|]; cbn [mbind option_bind]; [|done].
      destruct (getNextSector li s) as [o|]; [apply Hf|done]. }
    destruct (next_sector g' s i), (next_sector g s i); cbn in Hn; try done. cbn. rewrite IH. congruence. }
  unfold neighbours. destruct (decide (k = s)) as [<-|Hne].
  - cbn. rewrite list_lookup_insert_eq by (by eapply lookup_lt_Some). rewrite E, El. apply Hl.
  - cbn. rewrite list_lookup_insert_ne by done. destruct (sectors g !! s); [apply Hl|done].
Qed.

Lemma find_tag_tagged tag l i : find_tag tag l (Z.of_nat i) =
  match tagged_from tag l i with [] => -1 | k :: _ => Z.of_nat k end.
Proof.
  revert i. induction l as [|sec l IH]; intros i; cbn; [done|]. destruct (Sector.tag sec =? tag); [done|].
  rewrite <- IH. f_equal. lia.
Qed.

Lemma tagged_from_next tag l i k rest : tagged_from tag l i = k :: rest ->
  (i <= k < i + length l)%nat /\ tagged_from tag (drop (S k - i) l) (S k) = rest.
Proof.
  revert i. induction l as [|sec l IH]; intros i E; cbn in E; [done|]. destruct (Sector.tag sec =? tag).
  - injection E as -> <-. cbn [length]. split; [lia|]. by replace (S k - k)%nat with 1%nat by lia.
  - destruct (IH _ E) as [H1 H2]. cbn [length]. split; [lia|].
    replace (S k - i)%nat with (S (S k - S i)) by lia. exact H2.
Qed.

Lemma tagged_from_tags tag l l' i : (Sector.tag <$> l) = (Sector.tag <$> l') -> tagged_from tag l i = tagged_from tag l' i.
Proof.
  revert l' i. induction l as [|s l IH]; intros [|s' l'] i E; try done. cbn in *. injection E as -> E. by rewrite (IH l').
Qed.

Lemma for_tagged_run {W} (game_of : W -> game) tag (body : nat -> W -> outcome W) :
  (forall k w w', body k w = Ret w' -> (Sector.tag <$> sectors (game_of w')) = (Sector.tag <$> sectors (game_of w))) ->
  forall fuel n w, (n <= length (sectors (game_of w)))%nat -> (length (sectors (game_of w)) - n < fuel)%nat ->
  for_tagged game_of fuel tag (Z.of_nat n - 1) body w =
    run_each body (tagged_from tag (drop n (sectors (game_of w))) n) w.
Proof.
  intros Hb. induction fuel as [|fuel IH]; intros n w Hn Hf; [lia|]. cbn [for_tagged].
  unfold P_FindSectorFromLineTag. replace (Z.of_nat n - 1 + 1) with (Z.of_nat n) by lia. rewrite Nat2Z.id, find_tag_tagged.
  destruct (tagged_from tag (drop n (sectors (game_of w))) n) as [|k rest] eqn:E; [done|].
  destruct (tagged_from_next _ _ _ _ _ E) as [Hk Hrest]. rewrite length_drop in Hk.
  rewrite Z.geb_leb, (proj2 (Z.leb_le _ _)), Nat2Z.id by lia. cbn [run_each].
  destruct (body k w) as [w'| | |] eqn:Ew; cbn [obind]; try done. specialize (Hb k w w' Ew).
  assert (El : length (sectors (game_of w')) = length (sectors (game_of w))).
  { rewrite <- (length_fmap Sector.tag), Hb. apply length_fmap. }
  replace (Z.of_nat k) with (Z.of_nat (S k) - 1) by lia. rewrite IH by lia. f_equal.
  rewrite drop_drop in Hrest. replace (n + (S k - n))%nat with (S k) in Hrest by lia. rewrite <- Hrest.
  apply tagged_from_tags. by rewrite !fmap_drop, Hb.
Qed.

(** ** The claims *)

(** each search looks at exactly the sectors next to the given one: the
    lowest floor is the minimum over these and the sector itself, the highest
    floor the maximum over these and -500 units, the ceilings the minimum
    over these and INT_MAX and the maximum over these and 0, the light the
    minimum over these and the given level. *)
Theorem surrounding_exact g sec s0 max : level_ok g -> sectors g !! sec = Some s0 ->
  let ns := neighbours g sec in
  P_FindLowestFloorSurrounding g sec = Ret (zmin (Sector.floorheight s0) (Sector.floorheight <$> ns)) /\
  P_FindHighestFloorSurrounding g sec = Ret (zmax (-500 * FRACUNIT) (Sector.floorheight <$> ns)) /\
  P_FindLowestCeilingSurrounding g sec = Ret (zmin INT_MAX (Sector.ceilingheight <$> ns)) /\
  P_FindHighestCeilingSurrounding g sec = Ret (zmax 0 (Sector.ceilingheight <$> ns)) /\
  P_FindMinSurroundingLight g sec max = Ret (zmin max (Sector.lightlevel <$> ns)).
Proof.
  intros Hok Hs. cbv zeta. unfold P_FindLowestFloorSurrounding, P_FindHighestFloorSurrounding,
    P_FindLowestCeilingSurrounding, P_FindHighestCeilingSurrounding, P_FindMinSurroundingLight.
  rewrite !(around_run g Hok sec s0) by done.
  split_and!; first [apply run_each_min|apply run_each_max].
Qed.

(** with at most 21 lines to a higher floor, the next highest floor is
    the least floor next to the sector that is above the current height, and
    the current height when there is none; the array of heights is not
    overrun. *)
Theorem P_FindNextHighestFloor_correct g sec cur : level_ok g -> is_Some (sectors g !! sec) ->
  (length (higher cur (neighbours g sec)) <= 21)%nat ->
  exists h, P_FindNextHighestFloor g sec cur = Ret h /\
    if bool_decide (higher cur (neighbours g sec) = []) then h = cur
    else cur < h /\ h ∈ Sector.floorheight <$> neighbours g sec /\
      forall x, x ∈ Sector.floorheight <$> neighbours g sec -> cur < x -> h <= x.
Proof.
  intros Hok [s0 Hs] Hlen. unfold P_FindNextHighestFloor. rewrite (around_run g Hok sec s0) by done.
  rewrite next_height_run by (cbn; lia). cbn [obind app].
  assert (Hin : forall x, x ∈ higher cur (neighbours g sec) <-> cur < x /\ x ∈ Sector.floorheight <$> neighbours g sec)
    by (intros x; apply list_elem_of_filter).
  destruct (higher cur (neighbours g sec)) as [|x l]; [by exists cur; rewrite bool_decide_eq_true_2|].
  eexists. split; [reflexivity|]. rewrite bool_decide_eq_false_2 by done. rewrite fold_lowest.
  destruct (zmin_spec x l) as (H1 & H2 & H3). assert (Hm : zmin x l ∈ x :: l) by (destruct H3 as [->|]; [left|by right]).
  apply Hin in Hm as [Hm1 Hm2]. split_and!; try done. intros y Hy Hc.
  assert (Hy' : y ∈ x :: l) by (by apply Hin). apply elem_of_cons in Hy' as [->|Hy']; [done|by apply H1].
Qed.

(** The loop over the sectors with the tag of a line terminates after at
    most one turn per sector, as long as its body leaves the tags alone, and
    runs its body once for each sector with that tag, in order. *)
Theorem for_tagged_correct {W} (game_of : W -> game) tag (body : nat -> W -> outcome W) w :
  (forall k w w', body k w = Ret w' -> (Sector.tag <$> sectors (game_of w')) = (Sector.tag <$> sectors (game_of w))) ->
  for_tagged game_of (S (length (sectors (game_of w)))) tag (-1) body w = run_each body (tagged (game_of w) tag) w.
Proof. intros Hb. apply (for_tagged_run game_of tag body Hb _ 0); cbn; lia. Qed.

(** ** Witnesses *)
Definition room (floor : Z) (tag : Z) (ls : list nat) : Sector.doomsector_t :=
  Sector.mk floor (100 * FRACUNIT) 0 0 (160 - tag) 0 tag 0 0 0 ls.
(** Three rooms in a row. *)
Definition rooms : game :=
  mk_game 2 1 1 0 [] [] [room 0 7 [0%nat]; room 65536 3 [0%nat; 1%nat]; room 131072 7 [1%nat]]
    [Line.mk ML_TWOSIDED 0 7 [0; 1] (Some 0%nat) (Some 1%nat); Line.mk ML_TWOSIDED 0 7 [2; 3] (Some 1%nat) (Some 2%nat)]
    [] [] [] [].

Lemma rooms_ok : level_ok rooms.
Proof.
  split.
  - intros s sec. do 3 (destruct s as [|s]; [intros [= <-]; repeat (apply Forall_cons_2; [eexists; reflexivity|]); apply Forall_nil_2|]). done.
  - intros l li o. do 2 (destruct l as [|l]; [intros [= <-] [[= <-]|[= <-]]; eexists; reflexivity|]). done.
Qed.

Lemma surrounding_exact_witness :
  P_FindLowestFloorSurrounding rooms 1 = Ret 0 /\ P_FindHighestFloorSurrounding rooms 1 = Ret 131072.
Proof.
  destruct (surrounding_exact rooms 1 (room 65536 3 [0%nat; 1%nat]) 255 rooms_ok eq_refl) as (H1 & H2 & _).
  split; [rewrite H1|rewrite H2]; reflexivity.
Defined.

Lemma P_FindNextHighestFloor_correct_witness : exists h, P_FindNextHighestFloor rooms 1 65536 = Ret h /\ h = 131072.
Proof.
  destruct (P_FindNextHighestFloor_correct rooms 1 65536 rooms_ok ltac:(eexists; reflexivity) ltac:(vm_compute; lia))
    as (h & E & _). exists h. split; [exact E|]. vm_compute in E. congruence.
Defined.

Lemma for_tagged_correct_witness :
  for_tagged id 4 7 (-1) (fun k g => Ret (g <| leveltime ::= fun t => 10 * t + Z.of_nat k + 1 |>)) rooms
  = Ret (rooms <| leveltime := 13 |>).
Proof.
  etransitivity; [apply (for_tagged_correct id 7 (fun k g => Ret (g <| leveltime ::= fun t => 10 * t + Z.of_nat k + 1 |>)) rooms)|
    reflexivity]. intros k w w' [= <-]. reflexivity.
Defined.
