(* ===== verification/MovePlane.v ===== *)
(** * Moving a floor or a ceiling (src/commands/doom/p_floor.c)

    [T_MovePlane] is what all movers of a level are built on. It asks
    [P_ChangeSector] (p_map.c) whether everything in the sector still fits;
    that function is an interface here, [Crush], and [CrushLaws] is what the
    movers rely on: it moves, hurts and spawns objects of the level, but
    leaves the sectors and the movers alone, and new objects go behind the
    others. *)
From S2P Require Import Prelude MFixed MRandom GameTypes Thinkers.
#[local] Open Scope doom_scope.

Inductive sound : Set :=
| sfx_stnmov | sfx_pstart | sfx_pstop | sfx_bdcls | sfx_dorcls | sfx_doropn | sfx_bdopn | sfx_oof
| sfx_swtchn | sfx_swtchx | sfx_telept.

(** What a sound comes from: the middle of a sector, an object, or the
    memory of a button of the list of buttons. *)
Inductive origin : Set :=
| org_sector (s : Z)
| org_thing (a : Z)
| org_button (i : nat).

(** The state the specials work on; [sounds] has the sounds that were
    started, the last one first, each with what it comes from. *)
Record world : Type := mk_world { gm : game; rnd : rnd_state; sounds : list (option origin * sound) }.
#[export] Instance world_eta : Eta world := fun w => mk_world (gm w) (rnd w) (sounds w).

Inductive result_e : Set := ok | crushed | pastdest.

Class Crush := P_ChangeSector : nat -> Z -> world -> bool * world.

Definition is_mover (th : thing) : bool := match th with TMobj _ => false | _ => true end.

(** An object of a player knows one of the players, who has a place for every
    card. *)
Definition people_ok (g : game) : Prop := forall a m i, thing_at a g = Some (TMobj m) -> Mobj.player m = Some i ->
  0 <= i /\ exists p, players g !! Z.to_nat i = Some p /\ length (Player.cards p) = NUMCARDS.

Class CrushLaws {A : Arch} {im : Image} {C : Crush} : Prop := {
  crush_sectors s c w : sectors (gm (P_ChangeSector s c w).2) = sectors (gm w);
  crush_lines s c w : lines (gm (P_ChangeSector s c w).2) = lines (gm w);
  crush_sides s c w : sides (gm (P_ChangeSector s c w).2) = sides (gm w);
  crush_time s c w : leveltime (gm (P_ChangeSector s c w).2) = leveltime (gm w);
  crush_plats s c w : activeplats (gm (P_ChangeSector s c w).2) = activeplats (gm w);
  crush_ceilings s c w : activeceilings (gm (P_ChangeSector s c w).2) = activeceilings (gm w);
  crush_movers s c w a th : is_mover th = true ->
    thing_at a (gm (P_ChangeSector s c w).2) = Some th <-> thing_at a (gm w) = Some th;
  crush_adds s c w : exists l, addresses (gm (P_ChangeSector s c w).2) = addresses (gm w) ++ l;
  crush_addrs s c w : addrs_ok (gm w) -> addrs_ok (gm (P_ChangeSector s c w).2);
  crush_actors s c w : actors_ok (gm w) -> actors_ok (gm (P_ChangeSector s c w).2);
  crush_people s c w : people_ok (gm w) -> people_ok (gm (P_ChangeSector s c w).2)
}.

(** [Z_Malloc] for a new object: its address, and what the memory of an
    object holds before it is filled in. *)
Class Heap := {
  heap_malloc : world -> outcome Z;
  raw_plat : Z -> Plat.plat_t;
  raw_door : Z -> VlDoor.vldoor_t;
  raw_ceiling : Z -> Ceiling.ceiling_t;
  raw_floor : Z -> FloorMove.floormove_t;
  raw_flash : Z -> LightFlash.lightflash_t;
  raw_strobe : Z -> Strobe.strobe_t;
  raw_glow : Z -> Glow.glow_t;
  raw_flicker : Z -> FireFlicker.fireflicker_t
}.
Class HeapLaws {H : Heap} : Prop := {
  heap_fresh w : exists p, heap_malloc w = Ret p /\ p <> 0 /\ p ∉ fst <$> thinkers (gm w)
}.

(** A change of the game alone. *)
Definition on_game (f : game -> outcome game) (w : world) : outcome world :=
  let* g := f (gm w) in Ret (w <| gm := g |>).

Section move.
Context {C : Crush}.

Definition get_sector (s : Z) (w : world) : outcome Sector.doomsector_t :=
  if s <? 0 then Undef else of_option (sectors (gm w) !! Z.to_nat s).
Definition set_sector (s : Z) (sec : Sector.doomsector_t) (w : world) : world :=
  w <| gm ::= fun g => g <| sectors ::= <[Z.to_nat s := sec]> |> |>.
Definition upd_sector (s : Z) (f : Sector.doomsector_t -> Sector.doomsector_t) (w : world) : outcome world :=
  let* sec := get_sector s w in Ret (set_sector s (f sec) w).
Definition S_StartSound (o : option origin) (s : sound) (w : world) : world := w <| sounds ::= cons (o, s) |>.

(** One of the two planes of a sector. *)
Definition set_plane (ceiling : bool) (h : Z) (sec : Sector.doomsector_t) : Sector.doomsector_t :=
  if ceiling then sec <| Sector.ceilingheight := h |> else sec <| Sector.floorheight := h |>.
Definition plane (ceiling : bool) (sec : Sector.doomsector_t) : Z :=
  if ceiling then Sector.ceilingheight sec else Sector.floorheight sec.

(** The height is set and [P_ChangeSector] asked. *)
Definition move_to (sector crush : Z) (ceiling : bool) (h : Z) (w : world) : outcome (bool * world) :=
  let* w := upd_sector sector (set_plane ceiling h) w in
  Ret (P_ChangeSector (Z.to_nat sector) crush w).

(** The part common to the four directions: the last step to [dest], undone
    when something is in the way. *)
Definition move_last (sector crush : Z) (ceiling : bool) (lastpos dest : Z) (w : world) : outcome (result_e * world) :=
  let* '(flag, w) := move_to sector crush ceiling dest w in
  if flag : bool then
    let* '(_, w) := move_to sector crush ceiling lastpos w in Ret (pastdest, w)
  else Ret (pastdest, w).

(** A step that is always undone. *)
Definition move_step (sector crush : Z) (ceiling : bool) (lastpos h : Z) (w : world) : outcome (result_e * world) :=
  let* '(flag, w) := move_to sector crush ceiling h w in
  if flag : bool then
    let* '(_, w) := move_to sector crush ceiling lastpos w in Ret (crushed, w)
  else Ret (ok, w).
(** A step that crushes what is in the way if it may. *)
Definition move_crush (sector crush : Z) (ceiling : bool) (lastpos h : Z) (w : world) : outcome (result_e * world) :=
  let* '(flag, w) := move_to sector crush ceiling h w in
  if flag : bool then
    if crush =? 1 then Ret (crushed, w)
    else let* '(_, w) := move_to sector crush ceiling lastpos w in Ret (crushed, w)
  else Ret (ok, w).

Definition T_MovePlane (sector speed dest crush floorOrCeiling direction : Z) (w : world) : outcome (result_e * world) :=
  let* sec := get_sector sector w in
  let floorheight := Sector.floorheight sec in
  let ceilingheight := Sector.ceilingheight sec in
  if floorOrCeiling =? 0 then
    if direction =? -1 then
      if i32 (floorheight - speed) <? dest
      then move_last sector crush false floorheight dest w
      else move_step sector crush false floorheight (i32 (floorheight - speed)) w
    else if direction =? 1 then
      if i32 (floorheight + speed) >? dest
      then move_last sector crush false floorheight dest w
      else move_crush sector crush false floorheight (i32 (floorheight + speed)) w
    else Ret (ok, w)
  else if floorOrCeiling =? 1 then
    if direction =? -1 then
      if i32 (ceilingheight - speed) <? dest
      then move_last sector crush true ceilingheight dest w
      else move_crush sector crush true ceilingheight (i32 (ceilingheight - speed)) w
    else if direction =? 1 then
      if i32 (ceilingheight + speed) >? dest
      then move_last sector crush true ceilingheight dest w
      else
        let* '(_, w) := move_to sector crush true (i32 (ceilingheight + speed)) w in Ret (ok, w)
    else Ret (ok, w)
  else Ret (ok, w).
End move.

(** ** Lemmas *)

(** What a step of a mover keeps: everything about the level but one plane
    of one sector, and all movers. *)
Record moved (s : nat) (ceiling : bool) (h : Z) (w w' : world) : Prop := {
  mv_sectors : sectors (gm w') = alter (set_plane ceiling h) s (sectors (gm w));
  mv_lines : lines (gm w') = lines (gm w);
  mv_time : leveltime (gm w') = leveltime (gm w);
  mv_plats : activeplats (gm w') = activeplats (gm w);
  mv_ceilings : activeceilings (gm w') = activeceilings (gm w);
  mv_movers a th : thing_at a (gm w) = Some th -> is_mover th = true -> thing_at a (gm w') = Some th
}.

Section facts.
Context {A : Arch} {im : Image} {C : Crush} {laws : CrushLaws}.
Implicit Types (w : world).

Lemma get_sector_at s sec w : sectors (gm w) !! s = Some sec -> get_sector (Z.of_nat s) w = Ret sec.
Proof.
  intros E. unfold get_sector. rewrite (proj2 (Z.ltb_ge _ _)) by lia. by rewrite Nat2Z.id, E.
Qed.

Lemma set_plane_plane ceiling sec : set_plane ceiling (plane ceiling sec) sec = sec.
Proof. by destruct ceiling, sec. Qed.
Lemma set_plane_twice ceiling h h' sec : set_plane ceiling h (set_plane ceiling h' sec) = set_plane ceiling h sec.
Proof. by destruct ceiling, sec. Qed.
Lemma plane_set ceiling h sec : plane ceiling (set_plane ceiling h sec) = h.
Proof. by destruct ceiling. Qed.

Lemma move_to_run s sec crush ceiling h w : sectors (gm w) !! s = Some sec ->
  exists b w', move_to (Z.of_nat s) crush ceiling h w = Ret (b, w') /\ moved s ceiling h w w'.
Proof.
  intros E. unfold move_to, upd_sector. rewrite (get_sector_at s sec) by done. cbn [obind]. rewrite Nat2Z.id.
  set (w1 := set_sector _ _ w). exists (P_ChangeSector s crush w1).1, (P_ChangeSector s crush w1).2.
  split; [by destruct (P_ChangeSector s crush w1)|]. split.
  - rewrite crush_sectors. unfold w1. cbn. rewrite Nat2Z.id. apply list_eq. intros k.
    destruct (decide (s = k)) as [<-|Hne].
    + rewrite list_lookup_insert_eq by (by eapply lookup_lt_Some). by rewrite list_lookup_alter_eq, E.
    + by rewrite list_lookup_insert_ne, list_lookup_alter_ne.
  - by rewrite crush_lines.
  - by rewrite crush_time.
  - by rewrite crush_plats.
  - by rewrite crush_ceilings.
  - intros a th Ha Hm. by apply crush_movers.
Qed.

(** Movers stay where they are, whatever the heights. *)
Lemma move_to_movers t crush ceiling h w b w' a th : move_to t crush ceiling h w = Ret (b, w') ->
  thing_at a (gm w) = Some th -> is_mover th = true -> thing_at a (gm w') = Some th.
Proof.
  unfold move_to, upd_sector. destruct (get_sector t w); cbn [obind]; intros E Ha Hm; inv_ret; [|done..].
  set (w1 := set_sector _ _ w) in *. pose proof (proj2 (crush_movers (Z.to_nat t) crush w1 a th Hm) Ha) as H.
  destruct (P_ChangeSector (Z.to_nat t) crush w1). by inv_ret.
Qed.

Lemma T_MovePlane_movers t speed dest crush foc d w res w' a th : T_MovePlane t speed dest crush foc d w = Ret (res, w') ->
  thing_at a (gm w) = Some th -> is_mover th = true -> thing_at a (gm w') = Some th.
Proof.
  intros E Ha Hm. unfold T_MovePlane, move_last, move_step, move_crush in E.
  repeat match type of E with
  | context [if ?b then _ else _] => destruct b
  | context [obind (move_to ?t ?c ?k ?h ?w) _] =>
      let E1 := fresh "E" in destruct (move_to t c k h w) as [[? ?]| | |] eqn:E1; cbn [obind] in E; try done;
      eapply move_to_movers in E1; [|eassumption|eassumption]
  | obind (get_sector ?t ?w) _ = _ => destruct (get_sector t w); cbn [obind] in E; try done
  end; inv_ret; done.
Qed.

Lemma alter_plane s ceiling h sec (l : list Sector.doomsector_t) : l !! s = Some sec ->
  alter (set_plane ceiling h) s l !! s = Some (set_plane ceiling h sec).
Proof. intros E. by rewrite list_lookup_alter_eq, E. Qed.

(** A step that is undone moves nothing. *)
Lemma moved_back s ceiling sec h w w1 w2 : sectors (gm w) !! s = Some sec ->
  moved s ceiling h w w1 -> moved s ceiling (plane ceiling sec) w1 w2 -> moved s ceiling (plane ceiling sec) w w2.
Proof.
  intros E [A1 A2 A3 A4 A5 A6] [B1 B2 B3 B4 B5 B6]. split; try congruence; [|auto].
  rewrite B1, A1. apply list_eq. intros k. destruct (decide (s = k)) as [<-|Hne].
  - rewrite !list_lookup_alter_eq, E. cbn. by rewrite set_plane_twice.
  - by rewrite !list_lookup_alter_ne.
Qed.

Lemma moved_to s sec crush ceiling h w : sectors (gm w) !! s = Some sec ->
  exists b w1, move_to (Z.of_nat s) crush ceiling h w = Ret (b, w1) /\ moved s ceiling h w w1 /\
    exists b2 w2, move_to (Z.of_nat s) crush ceiling (plane ceiling sec) w1 = Ret (b2, w2) /\
      moved s ceiling (plane ceiling sec) w w2.
Proof.
  intros E. destruct (move_to_run s sec crush ceiling h w E) as (b & w1 & E1 & H1). exists b, w1. split_and!; try done.
  destruct (move_to_run s (set_plane ceiling h sec) crush ceiling (plane ceiling sec) w1) as (b2 & w2 & E2 & H2).
  { rewrite (mv_sectors _ _ _ _ _ H1). by apply alter_plane. }
  exists b2, w2. split; [done|]. by eapply moved_back.
Qed.

Lemma moved_stay s ceiling sec w : sectors (gm w) !! s = Some sec -> moved s ceiling (plane ceiling sec) w w.
Proof.
  intros E. split; try done. symmetry. apply list_eq. intros k. destruct (decide (s = k)) as [<-|Hne].
  - rewrite list_lookup_alter_eq, E. cbn. by rewrite set_plane_plane.
  - by rewrite list_lookup_alter_ne.
Qed.
End facts.

Section claims.
Context {A : Arch} {im : Image} {C : Crush} {laws : CrushLaws}.
Implicit Types (w : world).

(** The result of one step of a plane at height [h]. *)
Definition step_result (ceiling : bool) (d speed dest crush h : Z) (res : result_e) (h' : Z) : Prop :=
  let past := 0 <? d * (h + d * speed - dest) in
  match res with
  | ok => past = false /\ h' = h + d * speed
  | crushed => past = false /\
      (h' = h \/ h' = h + d * speed /\ crush = 1 /\ d = (if ceiling then -1 else 1))
  | pastdest => past = true /\ (h' = dest \/ h' = h)
  end.

Lemma move_last_run s sec crush ceiling dest w : sectors (gm w) !! s = Some sec ->
  exists h' w', move_last (Z.of_nat s) crush ceiling (plane ceiling sec) dest w = Ret (pastdest, w') /\
    moved s ceiling h' w w' /\ (h' = dest \/ h' = plane ceiling sec) /\
    ((forall k c w, (P_ChangeSector k c w).1 = false) -> h' = dest).
Proof.
  intros E. destruct (moved_to s sec crush ceiling dest w E) as (b & w1 & E1 & H1 & b2 & w2 & E2 & H2).
  unfold move_last. rewrite E1. cbn [obind]. destruct b.
  - rewrite E2. cbn [obind]. exists (plane ceiling sec), w2. split_and!; try done; [by right|]. intros Hf.
    unfold move_to, upd_sector in E1. rewrite (get_sector_at s sec) in E1 by done. cbn [obind] in E1. injection E1 as E1.
    specialize (Hf (Z.to_nat (Z.of_nat s)) crush (set_sector (Z.of_nat s) (set_plane ceiling dest sec) w)).
    by rewrite E1 in Hf.
  - exists dest, w1. split_and!; try done. by left.
Qed.

Lemma move_flag_free s sec crush ceiling h w b w1 : sectors (gm w) !! s = Some sec ->
  move_to (Z.of_nat s) crush ceiling h w = Ret (b, w1) ->
  (forall k c w, (P_ChangeSector k c w).1 = false) -> b = false.
Proof.
  intros E E1 Hf. unfold move_to, upd_sector in E1. rewrite (get_sector_at s sec) in E1 by done. cbn [obind] in E1.
  injection E1 as E1. specialize (Hf (Z.to_nat (Z.of_nat s)) crush (set_sector (Z.of_nat s) (set_plane ceiling h sec) w)).
  by rewrite E1 in Hf.
Qed.

(** A step that is undone, or kept where the plane may crush. *)
Lemma move_crush_run s sec crush ceiling h w : sectors (gm w) !! s = Some sec ->
  exists res h' w', move_crush (Z.of_nat s) crush ceiling (plane ceiling sec) h w = Ret (res, w') /\ moved s ceiling h' w w' /\
    (res = ok /\ h' = h \/ res = crushed /\ (h' = plane ceiling sec \/ h' = h /\ crush = 1)) /\
    ((forall k c w, (P_ChangeSector k c w).1 = false) -> res = ok).
Proof.
  intros E. destruct (moved_to s sec crush ceiling h w E) as (b & w1 & E1 & H1 & b2 & w2 & E2 & H2).
  pose proof (move_flag_free s sec crush ceiling h w b w1 E E1) as Hf.
  unfold move_crush. rewrite E1. cbn [obind]. destruct b; [destruct (crush =? 1) eqn:Ec; breflect|].
  - exists crushed, h, w1. split_and!; try done; [right; split; [done|by right]|]. intros H. by specialize (Hf H).
  - rewrite E2. cbn [obind]. exists crushed, (plane ceiling sec), w2. split_and!; try done; [right; split; [done|by left]|].
    intros H. by specialize (Hf H).
  - exists ok, h, w1. split_and!; try done. by left.
Qed.

Lemma move_step_run s sec crush ceiling h w : sectors (gm w) !! s = Some sec ->
  exists res h' w', move_step (Z.of_nat s) crush ceiling (plane ceiling sec) h w = Ret (res, w') /\ moved s ceiling h' w w' /\
    (res = ok /\ h' = h \/ res = crushed /\ h' = plane ceiling sec) /\
    ((forall k c w, (P_ChangeSector k c w).1 = false) -> res = ok).
Proof.
  intros E. destruct (moved_to s sec crush ceiling h w E) as (b & w1 & E1 & H1 & b2 & w2 & E2 & H2).
  pose proof (move_flag_free s sec crush ceiling h w b w1 E E1) as Hf.
  unfold move_step. rewrite E1. cbn [obind]. destruct b.
  - rewrite E2. cbn [obind]. exists crushed, (plane ceiling sec), w2. split_and!; try done; [by right|].
    intros H. by specialize (Hf H).
  - exists ok, h, w1. split_and!; try done. by left.
Qed.

(** One step of a plane: what happens to it, and that it goes through when
    nothing is in the way. *)
Definition plane_post (s : nat) (ceiling : bool) (d speed dest crush h : Z) (w : world) (m : outcome (result_e * world)) : Prop :=
  exists res h' w', m = Ret (res, w') /\ moved s ceiling h' w w' /\ step_result ceiling d speed dest crush h res h' /\
    ((forall k c w, (P_ChangeSector k c w).1 = false) ->
      if 0 <? d * (h + d * speed - dest) then res = pastdest /\ h' = dest else res = ok /\ h' = h + d * speed).

(** The last step is the same in all directions. *)
Lemma plane_post_intro s sec (ceiling : bool) d speed dest crush w (past : bool) m :
  let h := plane ceiling sec in
  sectors (gm w) !! s = Some sec -> past = (0 <? d * (h + d * speed - dest)) ->
  (exists res h' w', m = Ret (res, w') /\ moved s ceiling h' w w' /\
    (res = ok /\ h' = h + d * speed \/
     res = crushed /\ (h' = h \/ h' = h + d * speed /\ crush = 1 /\ d = (if ceiling then -1 else 1))) /\
    ((forall k c w, (P_ChangeSector k c w).1 = false) -> res = ok)) ->
  plane_post s ceiling d speed dest crush h w (if past then move_last (Z.of_nat s) crush ceiling h dest w else m).
Proof.
  intros h E Hp (res & h' & w' & Em & H1 & H2 & H3). unfold plane_post, step_result. rewrite <- Hp. destruct past.
  - destruct (move_last_run s sec crush ceiling dest w E) as (hl & wl & El & L1 & L2 & L3).
    exists pastdest, hl, wl. split_and!; try done. intros H. by split; [|apply L3].
  - exists res, h', w'. split_and!; try done.
    + by destruct H2 as [[-> H2]|[-> H2]].
    + intros H. specialize (H3 H). subst res. by destruct H2 as [[_ H2]|[? _]].
Qed.

Lemma T_MovePlane_run s sec speed dest crush (ceiling : bool) d w :
  sectors (gm w) !! s = Some sec -> d = -1 \/ d = 1 -> fits_s 32 (plane ceiling sec + d * speed) ->
  plane_post s ceiling d speed dest crush (plane ceiling sec) w
    (T_MovePlane (Z.of_nat s) speed dest crush (of_bool ceiling) d w).
Proof.
  intros E Hd Hfit. unfold T_MovePlane. rewrite (get_sector_at s sec) by done. cbn [obind].
  change (Sector.floorheight sec) with (plane false sec). change (Sector.ceilingheight sec) with (plane true sec).
  assert (Ei : i32 (plane ceiling sec + d * speed) = plane ceiling sec + d * speed) by (by apply wraps_id).
  destruct ceiling, Hd as [-> | ->]; cbn [of_bool] in *; cbn [Z.eqb Pos.eqb] in *;
    try (replace (_ + -1 * speed) with (plane true sec - speed) in Ei by lia);
    try (replace (_ + -1 * speed) with (plane false sec - speed) in Ei by lia);
    rewrite ?Z.mul_1_l in Ei; rewrite Ei; rewrite ?Z.gtb_ltb;
    (apply plane_post_intro; [done|apply eq_true_iff_eq; rewrite !Z.ltb_lt; lia|]);
    rewrite ?Z.mul_1_l; try (replace (_ + -1 * speed) with (plane true sec - speed) by lia);
    try (replace (_ + -1 * speed) with (plane false sec - speed) by lia).
  - destruct (move_crush_run s sec crush true (plane true sec - speed) w E) as (res & h' & w' & E1 & H1 & H2 & H3).
    exists res, h', w'. split_and!; try done. intuition.
  - destruct (move_to_run s sec crush true (plane true sec + speed) w E) as (b & w1 & E1 & H1).
    rewrite E1. cbn [obind]. exists ok, (plane true sec + speed), w1. split_and!; try done. by left.
  - destruct (move_step_run s sec crush false (plane false sec - speed) w E) as (res & h' & w' & E1 & H1 & H2 & H3).
    exists res, h', w'. split_and!; try done. intuition.
  - destruct (move_crush_run s sec crush false (plane false sec + speed) w E) as (res & h' & w' & E1 & H1 & H2 & H3).
    exists res, h', w'. split_and!; try done. intuition.
Qed.

(** A plane on its way stays between where it was and where it goes. *)
Lemma step_between ceiling d speed dest crush h res h' :
  step_result ceiling d speed dest crush h res h' -> d = -1 \/ d = 1 -> 0 <= speed -> 0 <= d * (dest - h) ->
  0 <= d * (h' - h) /\ 0 <= d * (dest - h').
Proof.
  unfold step_result. intros H Hd Hs Hh. destruct res; destruct H as [Hp H]; breflect;
    destruct Hd as [->| ->]; lia.
Qed.

Lemma step_length ceiling d speed dest crush h res h' :
  step_result ceiling d speed dest crush h res h' -> d = -1 \/ d = 1 -> 0 <= speed -> 0 <= d * (dest - h) -> d * (h' - h) <= speed.
Proof.
  unfold step_result. intros H Hd Hs Hh. destruct res; destruct H as [Hp H]; breflect;
    destruct Hd as [->| ->]; lia.
Qed.
Lemma step_behind ceiling d speed dest crush h res h' :
  step_result ceiling d speed dest crush h res h' -> d = -1 \/ d = 1 -> 0 <= speed -> d * (dest - h) < 0 ->
  res = pastdest /\ (h' = dest \/ h' = h).
Proof.
  unfold step_result. intros H Hd Hs Hh. destruct res; destruct H as [Hp H]; breflect; [|  |done];
    destruct Hd as [->| ->]; lia.
Qed.

End claims.

(** ** An example: things of 56 units that stand in the first sector *)
Module Demo.
#[export] Instance things : Crush := fun s crush w =>
  (match sectors (gm w) !! s with
   | Some sec => (Sector.ceilingheight sec - Sector.floorheight sec <? 56 * FRACUNIT) && bool_decide (s = 0%nat)
   | None => false
   end, w).
#[export] Instance things_laws {A : Arch} {im : Image} : CrushLaws.
Proof. split; try done. intros s c w. exists []. by rewrite app_nil_r. Qed.

Definition hall (floor ceiling : Z) : Sector.doomsector_t := Sector.mk floor ceiling 0 0 160 0 5 0 0 0 [].
Definition halls (g : game) (l : list Sector.doomsector_t) : world := mk_world (g <| sectors := l |>) (mk_rnd 0 0) [].
Definition empty_game : game := mk_game 2 1 1 0 [] [] [] [] [] [] [] [].

(** Memory full of 77. *)
Definition junk : Thinker.thinker_t := Thinker.mk 77 77 77.
#[export] Instance heap : Heap := {
  heap_malloc w := Ret (fresh_address (thinkers (gm w)));
  raw_plat _ := Plat.mk junk 77 77 77 77 77 77 77 77 77 77 77;
  raw_door _ := VlDoor.mk junk 77 77 77 77 77 77 77;
  raw_ceiling _ := Ceiling.mk junk 77 77 77 77 77 77 77 77 77;
  raw_floor _ := FloorMove.mk junk 77 77 77 77 77 77 77 77;
  raw_flash _ := LightFlash.mk junk 77 77 77 77 77 77;
  raw_strobe _ := Strobe.mk junk 77 77 77 77 77 77;
  raw_glow _ := Glow.mk junk 77 77 77 77;
  raw_flicker _ := FireFlicker.mk junk 77 77 77 77
}.
#[export] Instance heap_laws : HeapLaws.
Proof. split. intros w. eexists. split; [done|]. apply fresh_address_new. Qed.
#[export] Instance image : Image := fun a => match a with
  | P_MobjThinker => 101 | T_MoveCeiling => 102 | T_VerticalDoor => 103 | T_MoveFloor => 104
  | T_PlatRaise => 105 | T_LightFlash => 106 | T_StrobeFlash => 107 | T_Glow => 108
  | T_FireFlicker => 109 end.
#[export] Instance arch : Arch := ILP32.
End Demo.

Section witness.
Import Demo.
Definition low_hall : world := halls empty_game [hall 0 (60 * FRACUNIT)].
End witness.
