(* ===== verification/Frame.v ===== *)
(** * What the tic of one mover leaves alone

    A mover changes its own object, its own sector and its own slot in the
    lists of active movers. [frame self s] says so of two worlds, and
    [framed self s w m] of a run [m] that starts in [w]; the lemmas go through
    the operations that the movers are made of. *)
From S2P Require Import Prelude MRandom GameTypes Thinkers SectorSearch MovePlane.
#[local] Open Scope doom_scope.

(** A slot of an active list: kept, or cleared when it was the one of [self]. *)
Definition kept (self x y : Z) : Prop := y = x \/ x = self /\ y = 0.

(** The levels of light that a sector can get to have. *)
Definition dim_ok (x : Z) : Prop := -1000 <= x <= 1000.
(** What no mover changes in its sector. *)
Definition same_room (sec sec' : Sector.doomsector_t) : Prop :=
  Sector.lines sec' = Sector.lines sec /\ Sector.tag sec' = Sector.tag sec /\
  (dim_ok (Sector.lightlevel sec) -> dim_ok (Sector.lightlevel sec')).

Section frame.
Context {A : Arch} {im : Image}.
Implicit Types (w : world) (self : Z) (s : nat).

Record frame (self : Z) (s : nat) (w w' : world) : Prop := {
  fr_movers a th : a <> self -> is_mover th = true -> thing_at a (gm w') = Some th <-> thing_at a (gm w) = Some th;
  fr_adds : exists l, addresses (gm w') = addresses (gm w) ++ l;
  fr_addrs : addrs_ok (gm w) -> addrs_ok (gm w');
  fr_sectors k : k <> s -> sectors (gm w') !! k = sectors (gm w) !! k;
  fr_length : length (sectors (gm w')) = length (sectors (gm w));
  fr_lines : lines (gm w') = lines (gm w);
  fr_sides : sides (gm w') = sides (gm w);
  fr_time : leveltime (gm w') = leveltime (gm w);
  fr_plats : Forall2 (kept self) (activeplats (gm w)) (activeplats (gm w'));
  fr_ceilings : Forall2 (kept self) (activeceilings (gm w)) (activeceilings (gm w'));
  fr_here sec : sectors (gm w) !! s = Some sec -> exists sec', sectors (gm w') !! s = Some sec' /\ same_room sec sec';
  fr_actors : actors_ok (gm w) -> actors_ok (gm w');
  fr_people : people_ok (gm w) -> people_ok (gm w')
}.

#[export] Instance kept_refl self : Reflexive (kept self).
Proof. by left. Qed.
#[export] Instance kept_trans self : Transitive (kept self).
Proof. intros x y z [-> |[-> ->]] [-> |[-> ->]]; unfold kept; auto. Qed.

#[export] Instance same_room_pre : PreOrder same_room.
Proof. split; [done|]. intros x y z (H1 & H2 & H3) (H4 & H5 & H6). split_and!; [congruence|congruence|auto]. Qed.

Lemma kept_all self l : Forall2 (kept self) l l.
Proof. reflexivity. Qed.

#[export] Instance frame_pre self s : PreOrder (frame self s).
Proof.
  split.
  - intros w. split; try done; [exists []; by rewrite app_nil_r|]. intros sec E. by exists sec.
  - intros w1 w2 w3 [A1 [l1 A2] A3 A4 A5 A6 A7 A8 A9 A10 A11 A12 A13] [B1 [l2 B2] B3 B4 B5 B6 B7 B8 B9 B10 B11 B12 B13]. split; try congruence.
    + intros a th Ha Hm. by rewrite B1, A1.
    + exists (l1 ++ l2). by rewrite B2, A2, app_assoc.
    + auto.
    + intros k Hk. by rewrite B4, A4.
    + by etransitivity.
    + by etransitivity.
    + intros sec E. destruct (A11 sec E) as (sec1 & E1 & H1). destruct (B11 sec1 E1) as (sec2 & E2 & H2).
      exists sec2. split; [done|by etransitivity].
    + auto.
    + auto.
Qed.

(** Only the game counts. *)
Lemma frame_game self s w w1 w2 : gm w2 = gm w1 -> frame self s w w1 -> frame self s w w2.
Proof. intros E []. split; rewrite E; done. Qed.

(** Changes of the game that only concern the object [self]. *)
Lemma frame_put self s th w : is_mover th = true -> frame self s w (w <| gm ::= put_thing self th |>).
Proof.
  intros Hm. assert (Ea : addresses (put_thing self th (gm w)) = addresses (gm w)) by apply addresses_put.
  split; try done.
  - intros a th' Ha _. change (thing_at a (put_thing self th (gm w)) = Some th' <-> thing_at a (gm w) = Some th').
    by rewrite thing_at_put, (proj2 (Z.eqb_neq a self)).
  - exists []. by rewrite app_nil_r.
  - unfold addrs_ok. change (addresses (gm (w <| gm ::= put_thing self th |>))) with (addresses (put_thing self th (gm w))).
    by rewrite Ea.
  - intros sec E. by exists sec.
  - intros Hok a m E. apply (Hok a m). revert E. change (thing_at a (put_thing self th (gm w)) = Some (TMobj m) -> thing_at a (gm w) = Some (TMobj m)).
    rewrite thing_at_put. destruct (a =? self); [|done]. destruct (thing_at self (gm w)); [|done]. intros [= ->]. done.
  - intros Hok a m i E. apply (Hok a m i). revert E. change (thing_at a (put_thing self th (gm w)) = Some (TMobj m) -> thing_at a (gm w) = Some (TMobj m)).
    rewrite thing_at_put. destruct (a =? self); [|done]. destruct (thing_at self (gm w)); [|done]. intros [= ->]. done.
Qed.

Lemma frame_sound self s o snd w : frame self s w (S_StartSound o snd w).
Proof. by apply (frame_game self s w w). Qed.
Lemma frame_rnd self s r w : frame self s w (w <| rnd := r |>).
Proof. by apply (frame_game self s w w). Qed.

Lemma frame_set_sector self s sec0 sec w : sectors (gm w) !! s = Some sec0 -> same_room sec0 sec ->
  frame self s w (set_sector (Z.of_nat s) sec w).
Proof.
  intros E0 Hr. split; try done.
  - exists []. by rewrite app_nil_r.
  - intros k Hk. cbn. by rewrite Nat2Z.id, list_lookup_insert_ne.
  - cbn. apply length_insert.
  - intros sec1 E1. assert (sec1 = sec0) as -> by congruence. exists sec. split; [|done]. cbn. rewrite Nat2Z.id.
    by rewrite list_lookup_insert_eq by (by eapply lookup_lt_Some).
Qed.

Lemma sectors_set s sec w : sectors (gm (set_sector (Z.of_nat s) sec w)) = <[s := sec]> (sectors (gm w)).
Proof. cbn. by rewrite Nat2Z.id. Qed.
Lemma level_ok_set s sec sec' w : level_ok (gm w) -> sectors (gm w) !! s = Some sec -> Sector.lines sec' = Sector.lines sec ->
  level_ok (gm (set_sector (Z.of_nat s) sec' w)).
Proof.
  intros Hok E El. destruct (level_ok_update (gm w) s sec sec' (thinkers (gm w)) Hok E El) as [H1 H2].
  split; [intros k x Hk|intros i li o Hi Ho]; rewrite ?sectors_set in *; [exact (H1 k x Hk)|exact (H2 i li o Hi Ho)].
Qed.

(** ** Runs *)
End frame.
Section runs.
Context {A : Arch} {im : Image} {C : Crush} {laws : CrushLaws}.
Implicit Types (w : world) (self : Z) (s : nat).

Definition framed (self : Z) (s : nat) (w : world) (m : outcome world) : Prop := forall w', m = Ret w' -> frame self s w w'.

Lemma framed_ret self s w w' : frame self s w w' -> framed self s w (Ret w').
Proof. intros H w1 E. by inv_ret. Qed.
Lemma framed_pure {X} self s w (m : outcome X) k : (forall x, m = Ret x -> framed self s w (k x)) -> framed self s w (obind m k).
Proof. intros H. destruct m; try done. by apply H. Qed.
Lemma framed_bind self s w (m : outcome world) k :
  framed self s w m -> (forall w1, m = Ret w1 -> framed self s w1 (k w1)) -> framed self s w (obind m k).
Proof. intros H1 H2. destruct m as [w1| | |]; try done. intros w' E. etransitivity; [by apply H1|by eapply H2]. Qed.
Lemma framed_after self s w w1 m : frame self s w w1 -> framed self s w1 m -> framed self s w m.
Proof. intros H1 H2 w' E. etransitivity; [done|by apply H2]. Qed.

Lemma get_sector_inv s sec w : get_sector (Z.of_nat s) w = Ret sec -> sectors (gm w) !! s = Some sec.
Proof.
  unfold get_sector. rewrite (proj2 (Z.ltb_ge _ _)), Nat2Z.id by lia. destruct (sectors (gm w) !! s); cbn; congruence.
Qed.
Lemma framed_upd self s f w : (forall sec, same_room sec (f sec)) -> framed self s w (upd_sector (Z.of_nat s) f w).
Proof.
  intros Hf. apply framed_pure. intros sec E. eapply framed_ret, frame_set_sector; [by apply get_sector_inv|done].
Qed.

Lemma framed_specialdata self s v w : framed self s w (on_game (set_specialdata (Z.of_nat s) v) w).
Proof.
  unfold on_game, set_specialdata. rewrite (proj2 (Z.ltb_ge _ _)) by lia. rewrite Nat2Z.id.
  destruct (sectors (gm w) !! s) as [sec|] eqn:E; [|done]. apply framed_ret.
  pose proof (frame_set_sector self s sec (sec <| Sector.specialdata := v |>) w E) as F. unfold set_sector in F. rewrite Nat2Z.id in F. by apply F.
Qed.

Lemma specialdata_run s sec v w : sectors (gm w) !! s = Some sec ->
  on_game (set_specialdata (Z.of_nat s) v) w = Ret (set_sector (Z.of_nat s) (sec <| Sector.specialdata := v |>) w).
Proof.
  intros E. unfold on_game, set_specialdata, set_sector. rewrite (proj2 (Z.ltb_ge _ _)) by lia. by rewrite Nat2Z.id, E.
Qed.
Lemma remove_run self th w : thing_at self (gm w) = Some th ->
  on_game (P_RemoveThinker self) w =
    Ret (w <| gm ::= put_thing self (with_thinker th ((thing_thinker th) <| Thinker.function := removed |>)) |>).
Proof. intros E. unfold on_game, P_RemoveThinker. by rewrite E. Qed.
Lemma upd_sector_run s sec f w : sectors (gm w) !! s = Some sec ->
  upd_sector (Z.of_nat s) f w = Ret (set_sector (Z.of_nat s) (f sec) w).
Proof. intros E. unfold upd_sector. by rewrite (get_sector_at s sec). Qed.
Lemma set_sector_at s sec sec0 w : sectors (gm w) !! s = Some sec0 -> sectors (gm (set_sector (Z.of_nat s) sec w)) !! s = Some sec.
Proof. intros E. cbn. rewrite Nat2Z.id. by rewrite list_lookup_insert_eq by (by eapply lookup_lt_Some). Qed.

Lemma framed_remove self s w th : thing_at self (gm w) = Some th -> is_mover th = true ->
  framed self s w (on_game (P_RemoveThinker self) w).
Proof. intros E Hm. rewrite (remove_run self th) by done. apply framed_ret, frame_put. by destruct th. Qed.

Lemma clear_slot_kept self l l' : clear_slot l self = Some l' -> Forall2 (kept self) l l'.
Proof.
  revert l'. induction l as [|x l IH]; intros l' E; cbn in E; [done|]. destruct (x =? self) eqn:Ex; breflect.
  - injection E as <-. subst x. constructor; [by right|apply kept_all].
  - destruct (clear_slot l self) as [l2|]; [|done]. injection E as <-. constructor; [by left|by apply IH].
Qed.

(** ** Steps of a plane *)
Lemma move_to_frame self s crush ceiling h w b w' : move_to (Z.of_nat s) crush ceiling h w = Ret (b, w') -> frame self s w w'.
Proof.
  unfold move_to, upd_sector. destruct (get_sector (Z.of_nat s) w) as [sec| | |] eqn:E0; cbn [obind]; intros E; inv_ret; [|done..].
  rewrite Nat2Z.id in E. set (w1 := set_sector _ _ w) in E.
  transitivity w1; [eapply frame_set_sector; [by apply get_sector_inv|by destruct ceiling]|].
  assert (Ew : w' = (P_ChangeSector s crush w1).2) by (by rewrite E). clearbody w1. subst w'. clear E.
  split; rewrite ?crush_sectors, ?crush_lines, ?crush_sides, ?crush_time, ?crush_plats, ?crush_ceilings; try done.
  - intros a th _ Hm. by apply crush_movers.
  - apply crush_adds.
  - apply crush_addrs.
  - intros sec' Es. by exists sec'.
  - apply crush_actors.
  - apply crush_people.
Qed.

Lemma T_MovePlane_frame self s speed dest crush foc d w res w' :
  T_MovePlane (Z.of_nat s) speed dest crush foc d w = Ret (res, w') -> frame self s w w'.
Proof.
  intros E. unfold T_MovePlane, move_last, move_step, move_crush in E.
  repeat match type of E with
  | context [if ?b then _ else _] => destruct b
  | context [obind (move_to ?t ?c ?k ?h ?w) _] =>
      let E1 := fresh "E" in destruct (move_to t c k h w) as [[? ?]| | |] eqn:E1; cbn [obind] in E; try done;
      eapply (move_to_frame self) in E1
  | obind (get_sector ?t ?w) _ = _ => destruct (get_sector t w); cbn [obind] in E; try done
  end; inv_ret; first [done | by etransitivity].
Qed.

(** Nothing is ever in the way. *)
Definition unobstructed : Prop := forall k c w, (P_ChangeSector k c w).1 = false.

(** The step of a plane by the mover [th] at [self]: what the theorems on the
    movers have in common. *)
Lemma moved_mover self th s sec speed dest crush (ceiling : bool) d w :
  thing_at self (gm w) = Some th -> is_mover th = true -> sectors (gm w) !! s = Some sec ->
  d = -1 \/ d = 1 -> 0 <= speed -> fits_s 32 (plane ceiling sec + d * speed) ->
  exists res h w', T_MovePlane (Z.of_nat s) speed dest crush (of_bool ceiling) d w = Ret (res, w') /\
    thing_at self (gm w') = Some th /\ sectors (gm w') = <[s := set_plane ceiling h sec]> (sectors (gm w)) /\
    activeplats (gm w') = activeplats (gm w) /\ activeceilings (gm w') = activeceilings (gm w) /\ frame self s w w' /\
    step_result ceiling d speed dest crush (plane ceiling sec) res h /\
    (0 <= d * (dest - plane ceiling sec) -> 0 <= d * (h - plane ceiling sec) /\ 0 <= d * (dest - h)) /\
    (unobstructed ->
      if 0 <? d * (plane ceiling sec + d * speed - dest) then res = pastdest /\ h = dest
      else res = ok /\ h = plane ceiling sec + d * speed).
Proof.
  intros Hat Hm Hsec Hd Hs Hfit.
  destruct (T_MovePlane_run s sec speed dest crush ceiling d w Hsec Hd Hfit) as (res & h & w' & E & Hmv & Hst & Hfree).
  exists res, h, w'. split; [done|]. split_and!; try done.
  - by apply (mv_movers _ _ _ _ _ Hmv).
  - rewrite (mv_sectors _ _ _ _ _ Hmv). apply list_eq. intros k. destruct (decide (s = k)) as [<-|Hne].
    + by rewrite list_lookup_alter_eq, Hsec, list_lookup_insert_eq by (by eapply lookup_lt_Some).
    + by rewrite list_lookup_alter_ne, list_lookup_insert_ne.
  - apply (mv_plats _ _ _ _ _ Hmv).
  - apply (mv_ceilings _ _ _ _ _ Hmv).
  - by eapply T_MovePlane_frame.
  - intros Hh. by eapply step_between.
Qed.

(** A run that moves a plane and goes on. *)
Lemma framed_move self s speed dest crush foc d w k :
  (forall res w1, T_MovePlane (Z.of_nat s) speed dest crush foc d w = Ret (res, w1) -> framed self s w1 (k (res, w1))) ->
  framed self s w (obind (T_MovePlane (Z.of_nat s) speed dest crush foc d w) k).
Proof.
  intros H. destruct (T_MovePlane _ _ _ _ _ _ _) as [[res w1]| | |] eqn:E; try done.
  eapply framed_after; [by eapply T_MovePlane_frame|by apply H].
Qed.
End runs.

(** ** New movers

    The object [th] appears at the new address [self], last in the list, and
    the sector [s] names it; everything else is as before. *)
Record starts (self : Z) (s : nat) (th : thing) (sec : Sector.doomsector_t) (w w' : world) : Prop := {
  st_nonzero : self <> 0;
  st_fresh : self ∉ addresses (gm w);
  st_things a : thing_at a (gm w') = if a =? self then Some th else thing_at a (gm w);
  st_addrs : addresses (gm w') = addresses (gm w) ++ [self];
  st_sectors : sectors (gm w') = <[s := sec <| Sector.specialdata := self |>]> (sectors (gm w));
  st_lines : lines (gm w') = lines (gm w)
}.

Lemma starts_intro self s th th0 sec w w' : self <> 0 -> self ∉ addresses (gm w) ->
  thinkers (gm w') = thinkers (put_thing self th (P_AddThinker self th0 (gm w))) ->
  sectors (gm w') = <[s := sec <| Sector.specialdata := self |>]> (sectors (gm w)) -> lines (gm w') = lines (gm w) ->
  starts self s th sec w w'.
Proof.
  intros Hz Hf Et Es El. split; try done.
  - intros a. unfold thing_at at 1. rewrite Et. by apply (thing_at_new self th0).
  - unfold addresses at 1. rewrite Et. change (addresses (put_thing self th (P_AddThinker self th0 (gm w))) = addresses (gm w) ++ [self]).
    rewrite addresses_put. unfold addresses, P_AddThinker. cbn. by rewrite fmap_app.
Qed.

Create HintDb frame.
#[export] Hint Resolve frame_put frame_sound frame_rnd frame_set_sector : frame.

(** * The slots of the lists of active movers

    [activeplats] and [activeceilings] are walked the same way: over the slots
    in order, changing the movers a condition holds for. *)

Fixpoint each_slot {X} (get : Z -> world -> outcome X) (put : Z -> X -> world -> world) (f : X -> option X)
    (slots : list Z) (w : world) : outcome world :=
  match slots with
  | [] => Ret w
  | a :: slots =>
      let* w := (if a =? 0 then Ret w else
        let* p := get a w in
        match f p with Some p => Ret (put a p w) | None => Ret w end) in
      each_slot get put f slots w
  end.

(** What became of a mover. *)
Definition changed {X} (f : X -> option X) (p : X) : X :=
  match f p with Some p' => p' | None => p end.
(** Each slot in use has an object of the kind. *)
Definition all_slots {X} (con : X -> thing) (slots : list Z) (g : game) : Prop :=
  forall a, a ∈ slots -> a <> 0 -> exists p, thing_at a g = Some (con p).

Section slots.
Context {X : Type} (get : Z -> world -> outcome X) (put : Z -> X -> world -> world) (con : X -> thing).
Hypothesis get_at : forall a x w, thing_at a (gm w) = Some (con x) -> get a w = Ret x.
Hypothesis put_at : forall a x w, put a x w = w <| gm ::= put_thing a (con x) |>.

Lemma each_slot_run f slots w : NoDup (filter (fun x => x <> 0) slots) -> all_slots con slots (gm w) ->
  exists l, each_slot get put f slots w = Ret (w <| gm := (gm w) <| thinkers := l |> |>) /\
    (forall a p, a ∈ slots -> a <> 0 -> thing_at a (gm w) = Some (con p) -> thing_in a l = Some (con (changed f p))) /\
    (forall a, a ∉ slots \/ a = 0 -> thing_in a l = thing_at a (gm w)) /\ fst <$> l = addresses (gm w).
Proof.
  revert w. induction slots as [|a slots IH]; intros w Hnd Hall; cbn [each_slot].
  { exists (thinkers (gm w)). split_and!; [destruct w as [[] ? ?]; done| |done|done]. by intros a p Ha%elem_of_nil. }
  assert (Hall' : all_slots con slots (gm w)) by (intros b Hb; apply Hall; by right).
  destruct (a =? 0) eqn:E; breflect; cbn [obind].
  - subst a. rewrite filter_cons_False in Hnd by lia. destruct (IH w Hnd Hall') as (l & E1 & H1 & H2 & H3).
    exists l. split_and!; [done| | |done].
    + intros a p [->|Ha]%elem_of_cons ? ?; [done|by apply H1].
    + intros a [Ha|Ha]; apply H2; [left|by right]. by apply not_elem_of_cons in Ha as [_ Ha].
  - rewrite filter_cons_True in Hnd by done. apply NoDup_cons in Hnd as [Hn Hnd].
    assert (Hna : a ∉ slots) by (intros Ha; apply Hn; by apply list_elem_of_filter).
    destruct (Hall a) as [p Hp]; [left|done|]. rewrite (get_at a p) by done. cbn [obind].
    assert (E1 : exists w', match f p with Some p' => Ret (put a p' w) | None => Ret w end = Ret w' /\
      gm w' = (gm w) <| thinkers := thinkers (gm w') |> /\ rnd w' = rnd w /\ sounds w' = sounds w /\
      addresses (gm w') = addresses (gm w) /\
      forall b, thing_at b (gm w') = if b =? a then Some (con (changed f p)) else thing_at b (gm w)).
    { unfold changed. destruct (f p) as [p'|].
      - rewrite put_at. eexists. split_and!; [reflexivity|reflexivity|done|done|apply addresses_put|]. intros b. cbn [gm update].
        by rewrite thing_at_put, Hp.
      - eexists. split_and!; [reflexivity|by destruct (gm w)|done|done|done|]. intros b. destruct (b =? a) eqn:Eb; breflect; congruence. }
    destruct E1 as (w' & -> & Eg & Er & Esd & Had & Hth). cbn [obind]. destruct (IH w' Hnd) as (l & E2 & H1 & H2 & H3).
    { intros b Hb Hz. destruct (Hall' b Hb Hz) as [q Hq]. exists q. rewrite Hth.
      by rewrite (proj2 (Z.eqb_neq b a)) by (intros ->; done). }
    exists l. split_and!.
    + rewrite E2. destruct w' as [g' r' s'], w as [g r0 s0]. cbn in Eg, Er, Esd |- *. subst r' s'.
      rewrite Eg. by destruct g.
    + intros b q [->|Hb]%elem_of_cons Hz Hq.
      * rewrite H2 by (by left). rewrite Hth, Z.eqb_refl. do 2 f_equal.
        apply get_at in Hp. apply get_at in Hq. congruence.
      * apply H1; [done|done|]. rewrite Hth. by rewrite (proj2 (Z.eqb_neq b a)) by (intros ->; done).
    + intros b Hb. assert (Hba : b <> a) by (destruct Hb as [Hb| ->]; [by apply not_elem_of_cons in Hb as [? _]|congruence]).
      rewrite H2, Hth by (destruct Hb as [Hb|Hb]; [left; by apply not_elem_of_cons in Hb as [_ ?]|by right]).
      by rewrite (proj2 (Z.eqb_neq b a)).
    + congruence.
Qed.
End slots.
