(* ===== verification/Plats.v ===== *)
(** * Platforms (src/commands/doom/p_plats.c) *)
From S2P Require Import Prelude MFixed MRandom GameTypes Thinkers SectorSearch MovePlane Frame.
#[local] Open Scope doom_scope.

(** [plat_e] and [plattype_e] *)
Definition up : Z := 0.
Definition down : Z := 1.
Definition waiting : Z := 2.
Definition in_stasis : Z := 3.
Definition perpetualRaise : Z := 0.
Definition downWaitUpStay : Z := 1.
Definition raiseAndChange : Z := 2.
Definition raiseToNearestAndChange : Z := 3.
Definition blazeDWUS : Z := 4.

Definition PLATWAIT : Z := 3.
Definition PLATSPEED : Z := FRACUNIT.

Section plats.
Context {A : Arch} {im : Image} {C : Crush} {H : Heap}.

Definition get_plat (self : Z) (w : world) : outcome Plat.plat_t :=
  match thing_at self (gm w) with Some (TPlat p) => Ret p | _ => Undef end.
Definition put_plat (self : Z) (p : Plat.plat_t) (w : world) : world := w <| gm ::= put_thing self (TPlat p) |>.
Definition plat_sound (p : Plat.plat_t) (s : sound) (w : world) : world := S_StartSound (Some (org_sector (Plat.sector p))) s w.

Definition P_RemoveActivePlat (self : Z) (w : world) : outcome world :=
  match clear_slot (activeplats (gm w)) self with
  | None => Fatal "P_RemoveActivePlat: can't find plat!"
  | Some l =>
      let* p := get_plat self w in
      let* g := set_specialdata (Plat.sector p) 0 (gm w) in
      let* g := P_RemoveThinker self g in
      Ret (w <| gm := g <| activeplats := l |> |>)
  end.

Definition plat_up (self : Z) (w : world) : outcome world :=
  let* p := get_plat self w in
  let* '(res, w) := T_MovePlane (Plat.sector p) (Plat.speed p) (Plat.high p) (Plat.crush p) 0 1 w in
  let* p := get_plat self w in
  let w := if ((Plat.type p =? raiseAndChange) || (Plat.type p =? raiseToNearestAndChange)) &&
              negb (has_flag (leveltime (gm w)) 7)
           then plat_sound p sfx_stnmov w else w in
  match res with
  | crushed =>
      if truth (Plat.crush p) then Ret w
      else Ret (plat_sound p sfx_pstart (put_plat self (p <| Plat.count := Plat.wait p |> <| Plat.status := down |>) w))
  | pastdest =>
      let w := plat_sound p sfx_pstop (put_plat self (p <| Plat.count := Plat.wait p |> <| Plat.status := waiting |>) w) in
      if (Plat.type p =? blazeDWUS) || (Plat.type p =? downWaitUpStay) || (Plat.type p =? raiseAndChange) ||
         (Plat.type p =? raiseToNearestAndChange)
      then P_RemoveActivePlat self w else Ret w
  | ok => Ret w
  end.

Definition plat_down (self : Z) (w : world) : outcome world :=
  let* p := get_plat self w in
  let* '(res, w) := T_MovePlane (Plat.sector p) (Plat.speed p) (Plat.low p) 0 0 (-1) w in
  match res with
  | pastdest =>
      let* p := get_plat self w in
      Ret (plat_sound p sfx_pstop (put_plat self (p <| Plat.count := Plat.wait p |> <| Plat.status := waiting |>) w))
  | _ => Ret w
  end.

Definition plat_wait (self : Z) (w : world) : outcome world :=
  let* p := get_plat self w in
  let p := p <| Plat.count ::= fun c => i32 (c - 1) |> in
  if truth (Plat.count p) then Ret (put_plat self p w)
  else
    let* sec := get_sector (Plat.sector p) w in
    let p := p <| Plat.status := if Sector.floorheight sec =? Plat.low p then up else down |> in
    Ret (plat_sound p sfx_pstart (put_plat self p w)).

Definition T_PlatRaise (self : Z) (w : world) : outcome world :=
  let* p := get_plat self w in
  if Plat.status p =? up then plat_up self w
  else if Plat.status p =? down then plat_down self w
  else if Plat.status p =? waiting then plat_wait self w
  else Ret w.

Definition each_plat : (Plat.plat_t -> option Plat.plat_t) -> list Z -> world -> outcome world := each_slot get_plat put_plat.

Definition activate_plat (tag : Z) (p : Plat.plat_t) : option Plat.plat_t :=
  if (Plat.tag p =? tag) && (Plat.status p =? in_stasis)
  then Some (p <| Plat.status := Plat.oldstatus p |> <| Plat.thinker ::= set_function GameTypes.T_PlatRaise |>)
  else None.
Definition P_ActivateInStasis (tag : Z) (w : world) : outcome world :=
  each_plat (activate_plat tag) (activeplats (gm w)) w.

Definition stop_plat (tag : Z) (p : Plat.plat_t) : option Plat.plat_t :=
  if negb (Plat.status p =? in_stasis) && (Plat.tag p =? tag)
  then Some (p <| Plat.oldstatus := Plat.status p |> <| Plat.status := in_stasis |>
               <| Plat.thinker ::= fun t => t <| Thinker.function := 0 |> |>)
  else None.
Definition EV_StopPlat (tag : Z) (w : world) : outcome world := each_plat (stop_plat tag) (activeplats (gm w)) w.

(** [sec->floorpic = sides[line->sidenum[0]].sector->floorpic] *)
Definition line_floorpic (li : Line.line_t) (w : world) : outcome Z :=
  let* num := of_option (Line.sidenum li !! 0%nat) in
  if num <? 0 then Undef else
  let* si := of_option (sides (gm w) !! Z.to_nat num) in
  let* sec := get_sector (Side.sector si) w in
  Ret (Sector.floorpic sec).

(** The switch of [EV_DoPlat] on the type. *)
Definition plat_setup (type amount : Z) (secnum : nat) (li : Line.line_t) (p : Plat.plat_t) (w : world) :
  outcome (Plat.plat_t * world) :=
  let s := Z.of_nat secnum in
  let* sec := get_sector s w in
  let floor := Sector.floorheight sec in
  if type =? raiseToNearestAndChange then
    let p := p <| Plat.speed := PLATSPEED ÷ 2 |> in
    let* pic := line_floorpic li w in
    let* w := upd_sector s (fun sec => sec <| Sector.floorpic := pic |>) w in
    let* high := P_FindNextHighestFloor (gm w) secnum floor in
    let p := p <| Plat.high := high |> <| Plat.wait := 0 |> <| Plat.status := up |> in
    let* w := upd_sector s (fun sec => sec <| Sector.special := 0 |>) w in
    Ret (p, S_StartSound (Some (org_sector s)) sfx_stnmov w)
  else if type =? raiseAndChange then
    let p := p <| Plat.speed := PLATSPEED ÷ 2 |> in
    let* pic := line_floorpic li w in
    let* w := upd_sector s (fun sec => sec <| Sector.floorpic := pic |>) w in
    let p := p <| Plat.high := i32 (floor + i32 (amount * FRACUNIT)) |> <| Plat.wait := 0 |> <| Plat.status := up |> in
    Ret (p, S_StartSound (Some (org_sector s)) sfx_stnmov w)
  else if (type =? downWaitUpStay) || (type =? blazeDWUS) then
    let p := p <| Plat.speed := if type =? downWaitUpStay then PLATSPEED * 4 else PLATSPEED * 8 |> in
    let* low := P_FindLowestFloorSurrounding (gm w) secnum in
    let p := p <| Plat.low := if low >? floor then floor else low |> <| Plat.high := floor |>
               <| Plat.wait := TICRATE * PLATWAIT |> <| Plat.status := down |> in
    Ret (p, S_StartSound (Some (org_sector s)) sfx_pstart w)
  else if type =? perpetualRaise then
    let p := p <| Plat.speed := PLATSPEED |> in
    let* low := P_FindLowestFloorSurrounding (gm w) secnum in
    let* high := P_FindHighestFloorSurrounding (gm w) secnum in
    let* '(r, rn) := P_Random (rnd w) in
    let p := p <| Plat.low := if low >? floor then floor else low |> <| Plat.high := if high <? floor then floor else high |>
               <| Plat.wait := TICRATE * PLATWAIT |> <| Plat.status := Z.land r 1 |> in
    Ret (p, S_StartSound (Some (org_sector s)) sfx_pstart (w <| rnd := rn |>))
  else Ret (p, w).

(** The body of the loop of [EV_DoPlat]: with the result so far. *)
Definition start_plat (li : Line.line_t) (type amount : Z) (secnum : nat) (st : Z * world) : outcome (Z * world) :=
  let '(rtn, w) := st in
  let* sec := get_sector (Z.of_nat secnum) w in
  if truth (Sector.specialdata sec) then Ret (rtn, w)
  else
    let* self := heap_malloc w in
    let w := w <| gm ::= P_AddThinker self (TPlat (raw_plat self)) |> in
    let p := (raw_plat self) <| Plat.type := type |> <| Plat.sector := Z.of_nat secnum |> in
    let* w := on_game (set_specialdata (Z.of_nat secnum) self) w in
    let p := p <| Plat.thinker ::= set_function GameTypes.T_PlatRaise |> <| Plat.crush := 0 |> <| Plat.tag := Line.tag li |> in
    let* '(p, w) := plat_setup type amount secnum li p w in
    let w := put_plat self p w in
    let* w := on_game (P_AddActivePlat self) w in
    Ret (1, w).

Definition EV_DoPlat (li : Line.line_t) (type amount : Z) (w : world) : outcome (Z * world) :=
  let* w := (if type =? perpetualRaise then P_ActivateInStasis (Line.tag li) w else Ret w) in
  for_tagged (fun st : Z * world => gm st.2) (S (length (sectors (gm w)))) (Line.tag li) (-1)
    (start_plat li type amount) (0, w).
End plats.
