(* ===== verification/PlatTheorems.v ===== *)
(** * Platforms: the theorems *)
From S2P Require Import Prelude MFixed MRandom GameTypes Thinkers SectorSearch MovePlane Frame Plats.
#[local] Open Scope doom_scope.

(** The plat [p] at [self] moves the floor of the sector [sec] with index [s]. *)
Record plat_in (self : Z) (s : nat) (p : Plat.plat_t) (sec : Sector.doomsector_t) (w : world) : Prop := {
  pi_at : thing_at self (gm w) = Some (TPlat p);
  pi_sector : Plat.sector p = Z.of_nat s;
  pi_sec : sectors (gm w) !! s = Some sec
}.
(** A plat on its way between its two heights. *)
Record plat_valid (p : Plat.plat_t) (sec : Sector.doomsector_t) : Prop := {
  pv_range : Plat.low p <= Sector.floorheight sec <= Plat.high p;
  pv_speed : 0 <= Plat.speed p;
  pv_fits : INT_MIN <= Plat.low p - Plat.speed p /\ Plat.high p + Plat.speed p <= INT_MAX;
  pv_status : 0 <= Plat.status p <= 3;
  pv_wait : 0 < Plat.wait p <= INT_MAX;
  pv_count : Plat.status p = waiting \/ Plat.status p = in_stasis /\ Plat.oldstatus p = waiting -> 0 < Plat.count p <= INT_MAX;
  pv_old : Plat.status p = in_stasis -> 0 <= Plat.oldstatus p <= 2
}.
(** What a plat was started with does not change. *)
Definition same_course (p p' : Plat.plat_t) : Prop :=
  Plat.sector p' = Plat.sector p /\ Plat.speed p' = Plat.speed p /\ Plat.low p' = Plat.low p /\
  Plat.high p' = Plat.high p /\ Plat.wait p' = Plat.wait p /\ Plat.crush p' = Plat.crush p /\
  Plat.tag p' = Plat.tag p /\ Plat.type p' = Plat.type p.

Section facts.
Context {A : Arch} {im : Image} {C : Crush} {laws : CrushLaws} {H : Heap} {hlaws : HeapLaws}.
Implicit Types (w : world) (p : Plat.plat_t).

Lemma get_plat_at self p w : thing_at self (gm w) = Some (TPlat p) -> get_plat self w = Ret p.
Proof. unfold get_plat. by intros ->. Qed.

Lemma thing_put_plat self p p0 w : thing_at self (gm w) = Some (TPlat p0) ->
  thing_at self (gm (put_plat self p w)) = Some (TPlat p).
Proof. apply thing_at_put_same. Qed.

Lemma set_specialdata_run g s sec v : sectors g !! s = Some sec ->
  set_specialdata (Z.of_nat s) v g = Ret (g <| sectors ::= <[s := sec <| Sector.specialdata := v |>]> |>).
Proof. intros E. unfold set_specialdata. rewrite (proj2 (Z.ltb_ge _ _)) by lia. by rewrite Nat2Z.id, E. Qed.

Lemma remove_plat_run self s p sec w : plat_in self s p sec w -> self ∈ activeplats (gm w) -> self <> 0 ->
  NoDup (filter (fun x => x <> 0) (activeplats (gm w))) ->
  exists w', P_RemoveActivePlat self w = Ret w' /\
    plat_in self s (p <| Plat.thinker ::= fun t => t <| Thinker.function := removed |> |>)
      (sec <| Sector.specialdata := 0 |>) w' /\
    sectors (gm w') = <[s := sec <| Sector.specialdata := 0 |>]> (sectors (gm w)) /\ self ∉ activeplats (gm w').
Proof.
  intros [Hat Hs Hsec] Hin Hnz Hnd. unfold P_RemoveActivePlat. destruct (clear_slot_some _ _ Hin) as (l & El & _).
  rewrite El, (get_plat_at self p) by done. cbn [obind]. rewrite Hs, (set_specialdata_run _ _ sec) by done. cbn [obind].
  unfold P_RemoveThinker, thing_at in *. cbn [thinkers update]. rewrite Hat. cbn [of_option obind].
  eexists. split; [reflexivity|]. split_and!; [|done|]; [split|].
  - unfold thing_at. cbn. rewrite thing_in_put, Z.eqb_refl, Hat. by destruct p.
  - done.
  - cbn. by rewrite list_lookup_insert_eq by (by eapply lookup_lt_Some).
  - cbn. by eapply clear_slot_gone.
Qed.

(** A step of the floor leaves a valid plat valid. *)
Lemma moved_plat self s p sec d dest crush w : plat_in self s p sec w -> plat_valid p sec ->
  d = -1 /\ dest = Plat.low p \/ d = 1 /\ dest = Plat.high p ->
  exists res h w', T_MovePlane (Plat.sector p) (Plat.speed p) dest crush 0 d w = Ret (res, w') /\
    let sec' := sec <| Sector.floorheight := h |> in
    plat_in self s p sec' w' /\ plat_valid p sec' /\ sectors (gm w') = <[s := sec']> (sectors (gm w)) /\
    activeplats (gm w') = activeplats (gm w).
Proof.
  intros [Hat Hs Hsec] Hv Hd. pose proof (pv_range _ _ Hv) as Hr. pose proof (pv_fits _ _ Hv) as Hf.
  pose proof (pv_speed _ _ Hv) as Hsp. unfold INT_MIN, INT_MAX in Hf.
  destruct (moved_mover self (TPlat p) s sec (Plat.speed p) dest crush false d w) as (res & h & w' & E & Hat' & Es & Ep & _ & _ & _ & Hb & _);
    [done|done|done|intuition|done|cbn [plane]; destruct Hd as [[-> _]|[-> _]]; in_range|].
  cbn [plane] in Hb. exists res, h, w'. rewrite Hs. split; [exact E|]. cbn zeta.
  split_and!; [split|split|exact Es|done]; try done; try apply Hv.
  - rewrite Es. by rewrite list_lookup_insert_eq by (by eapply lookup_lt_Some).
  - cbn. destruct Hd as [[-> ->]|[-> ->]]; lia.
Qed.

(** Everything about a plat but where in its cycle it is. *)
Lemma plat_in_put self s p sec p' w : plat_in self s p sec w -> Plat.sector p' = Plat.sector p ->
  plat_in self s p' sec (put_plat self p' w).
Proof.
  intros [Hat Hs Hsec] E. split; [by eapply thing_put_plat|congruence|done].
Qed.

Lemma plat_in_sound self s p sec o snd w : plat_in self s p sec w -> plat_in self s p sec (S_StartSound o snd w).
Proof. intros []. by split. Qed.

Lemma plat_valid_cycle p sec st c : plat_valid p sec -> 0 <= st <= 2 -> (st = waiting -> 0 < c <= INT_MAX) ->
  plat_valid (p <| Plat.count := c |> <| Plat.status := st |>) sec.
Proof. intros [] Hs Hc. split; try done; unfold in_stasis; cbn; [lia| |lia]. intros [?|[? _]]; [auto|lia]. Qed.

(** What one tic does to a plat: it stays on its course, or is removed. *)
Definition plat_tic (self : Z) (s : nat) (p : Plat.plat_t) (sec : Sector.doomsector_t) (w w' : world) : Prop :=
  exists p' sec', plat_in self s p' sec' w' /\ plat_valid p' sec' /\ same_course p p' /\
    sectors (gm w') = <[s := sec']> (sectors (gm w)) /\
    (Thinker.function (Plat.thinker p') = Thinker.function (Plat.thinker p) /\
     Sector.specialdata sec' = Sector.specialdata sec /\ activeplats (gm w') = activeplats (gm w) \/
     Thinker.function (Plat.thinker p') = removed /\ Sector.specialdata sec' = 0 /\ self ∉ activeplats (gm w')).

Lemma sectors_same s sec w : sectors (gm w) !! s = Some sec -> sectors (gm w) = <[s := sec]> (sectors (gm w)).
Proof. intros E. by rewrite list_insert_id. Qed.

Lemma plat_wait_tic self s p sec w : plat_in self s p sec w -> plat_valid p sec -> Plat.status p = waiting ->
  exists w', plat_wait self w = Ret w' /\ plat_tic self s p sec w w'.
Proof.
  intros Hin Hv Hst. pose proof Hin as [Hat Hs Hsec]. pose proof (pv_count _ _ Hv (or_introl Hst)) as Hc. unfold INT_MAX in Hc.
  unfold plat_wait. rewrite (get_plat_at self p) by done. cbn [obind].
  change (Plat.count (p <| Plat.count ::= fun c => i32 (c - 1) |>)) with (i32 (Plat.count p - 1)).
  rewrite (wraps_id 32) by in_range. destruct (truth (Plat.count p - 1)) eqn:Et.
  - eexists. split; [reflexivity|]. unfold truth in Et. breflect.
    exists (p <| Plat.count ::= fun c => i32 (c - 1) |>), sec. split_and!; try done.
    + by eapply plat_in_put.
    + destruct Hv. split; try done. cbn. intros _. rewrite (wraps_id 32) by in_range. unfold INT_MAX. lia.
    + exact (sectors_same s sec w Hsec).
    + by left.
  - change (Plat.sector (p <| Plat.count ::= fun c => i32 (c - 1) |>)) with (Plat.sector p). rewrite Hs.
    rewrite (get_sector_at s sec) by done. cbn [obind]. eexists. split; [reflexivity|].
    eexists _, sec. split_and!; [apply plat_in_sound; by eapply plat_in_put| |done|exact (sectors_same s sec w Hsec)|by left].
    destruct Hv. split; try done; cbn; destruct (_ =? _); unfold up, down, waiting, in_stasis; lia || done.
Qed.

Lemma plat_down_tic self s p sec w : plat_in self s p sec w -> plat_valid p sec ->
  exists w', plat_down self w = Ret w' /\ plat_tic self s p sec w w'.
Proof.
  intros Hin Hv. unfold plat_down. rewrite (get_plat_at self p) by apply Hin. cbn [obind].
  destruct (moved_plat self s p sec (-1) (Plat.low p) 0 w Hin Hv) as (res & h & w1 & E & Hin1 & Hv1 & Es & Ea); [by left|].
  rewrite E. cbn [obind]. destruct res.
  3:{ rewrite (get_plat_at self p) by apply Hin1. cbn [obind]. eexists. split; [reflexivity|].
      eexists _, _. split_and!; [apply plat_in_sound; by eapply plat_in_put| |done|exact Es|by left].
      apply plat_valid_cycle; [done|unfold waiting; lia|]. intros _. apply Hv. }
  all: eexists; split; [reflexivity|]; eexists p, _; (split_and!; [exact Hin1|exact Hv1|done|exact Es|by left]).
Qed.

Lemma plat_up_tic self s p sec w : plat_in self s p sec w -> plat_valid p sec ->
  self ∈ activeplats (gm w) -> self <> 0 -> NoDup (filter (fun x => x <> 0) (activeplats (gm w))) ->
  exists w', plat_up self w = Ret w' /\ plat_tic self s p sec w w'.
Proof.
  intros Hin Hv Hact Hnz Hnd. unfold plat_up. rewrite (get_plat_at self p) by apply Hin. cbn [obind].
  destruct (moved_plat self s p sec 1 (Plat.high p) (Plat.crush p) w Hin Hv) as (res & h & w1 & E & Hin1 & Hv1 & Es & Ea); [by right|].
  rewrite E. cbn [obind]. rewrite (get_plat_at self p) by apply Hin1. cbn [obind].
  set (w2 := if _ && _ then _ else w1). set (sec1 := sec <| Sector.floorheight := h |>) in *.
  assert (Hw2 : plat_in self s p sec1 w2 /\ sectors (gm w2) = <[s := sec1]> (sectors (gm w)) /\
    activeplats (gm w2) = activeplats (gm w)) by (unfold w2; destruct (_ && _); [split; [by apply plat_in_sound|done]|done]).
  clearbody w2. destruct Hw2 as (Hin2 & Es2 & Ea2). destruct res.
  - eexists. split; [reflexivity|]. exists p, sec1. split_and!; try done. by left.
  - destruct (truth (Plat.crush p)).
    { eexists. split; [reflexivity|]. exists p, sec1. split_and!; try done. by left. }
    eexists. split; [reflexivity|]. eexists _, sec1.
    split_and!; [apply plat_in_sound; by eapply plat_in_put| |done|exact Es2|by left].
    apply plat_valid_cycle; [done|unfold down; lia|]. unfold down, waiting. lia.
  - set (p3 := p <| Plat.count := Plat.wait p |> <| Plat.status := waiting |>). set (w3 := plat_sound p _ _).
    assert (Hin3 : plat_in self s p3 sec1 w3) by (apply plat_in_sound; by eapply plat_in_put).
    assert (Hv3 : plat_valid p3 sec1) by (apply plat_valid_cycle; [done|unfold waiting; lia|intros _; apply Hv]).
    destruct (_ || _).
    + destruct (remove_plat_run self s p3 sec1 w3 Hin3) as (w4 & E4 & Hin4 & Es4 & Hn4); [by rewrite <- Ea2 in Hact|done| |].
      { change (activeplats (gm w3)) with (activeplats (gm w2)). by rewrite Ea2. }
      exists w4. split; [done|]. eexists _, _. split_and!; [exact Hin4|destruct Hv3; by split|done| |by right].
      rewrite Es4. change (sectors (gm w3)) with (sectors (gm w2)). rewrite Es2. apply list_insert_insert_eq.
    + exists w3. split; [done|]. exists p3, sec1. split_and!; try done. by left.
Qed.

(** ** Stasis *)
(** The plats of a level: each active slot has a plat, each plat one slot. *)
Lemma plat_tic_run self s p sec w : plat_in self s p sec w -> plat_valid p sec ->
  self ∈ activeplats (gm w) -> self <> 0 -> NoDup (filter (fun x => x <> 0) (activeplats (gm w))) ->
  exists w', T_PlatRaise self w = Ret w' /\ plat_tic self s p sec w w'.
Proof.
  intros Hin Hv Hact Hnz Hnd. unfold T_PlatRaise. rewrite (get_plat_at self p) by apply Hin. cbn [obind].
  destruct (Plat.status p =? up) eqn:E1; [by apply plat_up_tic|].
  destruct (Plat.status p =? down) eqn:E2; [by apply plat_down_tic|].
  destruct (Plat.status p =? waiting) eqn:E3; breflect; [by apply plat_wait_tic|].
  exists w. split; [done|]. exists p, sec. split_and!; try done; [|by left].
  exact (sectors_same s sec w (pi_sec _ _ _ _ _ Hin)).
Qed.

(** Nothing but the plat, its slot and its sector changes. *)
Lemma framed_remove_plat self s p w : thing_at self (gm w) = Some (TPlat p) -> Plat.sector p = Z.of_nat s ->
  framed self s w (P_RemoveActivePlat self w).
Proof.
  intros Hat Hs w' E. unfold P_RemoveActivePlat in E. destruct (clear_slot _ self) as [l|] eqn:El; [|done].
  rewrite (get_plat_at self p) in E by done. cbn [obind] in E. rewrite Hs in E.
  pose proof (framed_specialdata self s 0 w) as F1. unfold on_game in F1.
  assert (Ht : forall g1, set_specialdata (Z.of_nat s) 0 (gm w) = Ret g1 -> thinkers g1 = thinkers (gm w) /\ activeplats g1 = activeplats (gm w)).
  { intros g1. unfold set_specialdata. rewrite (proj2 (Z.ltb_ge _ _)) by lia. destruct (sectors (gm w) !! _); intros [= <-]; done. }
  destruct (set_specialdata (Z.of_nat s) 0 (gm w)) as [g1| | |]; try done. cbn [obind] in *. specialize (F1 _ eq_refl).
  destruct (Ht g1 eq_refl) as [Ht1 Ha1]. set (w1 := w <| gm := g1 |>) in *.
  assert (Hat1 : thing_at self (gm w1) = Some (TPlat p)) by (unfold thing_at; cbn; by rewrite Ht1).
  pose proof (framed_remove self s w1 _ Hat1 eq_refl) as F2. unfold on_game in F2. change (gm w1) with g1 in F2.
  destruct (P_RemoveThinker self g1) as [g2| | |]; try done. cbn [obind] in *. specialize (F2 _ eq_refl). injection E as <-.
  destruct (transitivity F1 F2) as [B1 B2 B3 B4 B5 B6 B7 B8 B9 B10 B11 B12]. split; try done. by apply clear_slot_kept.
Qed.

Lemma T_PlatRaise_frame self s p w : thing_at self (gm w) = Some (TPlat p) -> Plat.sector p = Z.of_nat s ->
  framed self s w (T_PlatRaise self w).
Proof.
  intros Hat Hs. unfold T_PlatRaise. rewrite (get_plat_at self p) by done. cbn [obind].
  assert (Hsnd : forall w1 p1 p' snd, framed self s w1 (Ret (plat_sound p1 snd (put_plat self p' w1)))).
  { intros. by apply framed_ret, (frame_game _ _ _ (put_plat self p' w1)), frame_put. }
  destruct (Plat.status p =? up); [|destruct (Plat.status p =? down); [|destruct (Plat.status p =? waiting)]].
  - unfold plat_up. rewrite (get_plat_at self p) by done. cbn [obind]. rewrite Hs. apply framed_move. intros res w1 E.
    assert (Hat1 : thing_at self (gm w1) = Some (TPlat p)) by (by eapply T_MovePlane_movers).
    rewrite (get_plat_at self p) by done. cbn [obind]. set (w2 := if _ && _ then _ else w1).
    apply (framed_after self s w1 w2); [unfold w2; destruct (_ && _); [apply frame_sound|done]|].
    assert (Hat2 : thing_at self (gm w2) = Some (TPlat p)) by (unfold w2; by destruct (_ && _)). clearbody w2.
    destruct res; [by apply framed_ret|destruct (truth _); [by apply framed_ret|apply Hsnd]|]. set (p' := p <| Plat.count := _ |> <| Plat.status := _ |>).
    eapply framed_after; [by eapply Hsnd|]. destruct (_ || _); [|by apply framed_ret].
    by eapply (framed_remove_plat self s p'); [eapply thing_at_put_same|].
  - unfold plat_down. rewrite (get_plat_at self p) by done. cbn [obind]. rewrite Hs. apply framed_move. intros res w1 E.
    rewrite (get_plat_at self p) by (by eapply T_MovePlane_movers). destruct res; [by apply framed_ret..|]. apply Hsnd.
  - unfold plat_wait. rewrite (get_plat_at self p) by done. cbn [obind]. destruct (truth _); [by apply framed_ret, frame_put|].
    apply framed_pure. intros sec _. apply Hsnd.
  - by apply framed_ret.
Qed.

Definition plats_ok (w : world) : Prop :=
  NoDup (filter (fun x => x <> 0) (activeplats (gm w))) /\ all_slots TPlat (activeplats (gm w)) (gm w).

(** ** Starting plats *)

(** Heights of a level, far from the ends of the 32 bits. *)
Definition height_ok (h : Z) : Prop := -1073741824 <= h <= 1073741824.
Definition floors_ok (g : game) : Prop := Forall (fun sec => height_ok (Sector.floorheight sec)) (sectors g).

Lemma neighbours_floors g s : floors_ok g -> Forall height_ok (Sector.floorheight <$> neighbours g s).
Proof.
  intros Hf. apply Forall_fmap. unfold neighbours. destruct (sectors g !! s) as [sec|]; [|constructor].
  apply Forall_forall. intros x Hx. apply list_elem_of_omap in Hx as (l & _ & Hl). unfold next_sector in Hl.
  destruct (lines g !! l) as [li|]; [|done]. cbn in Hl. destruct (getNextSector li s) as [o|]; [|done]. cbn in Hl.
  exact (proj1 (Forall_lookup _ _) Hf o x Hl).
Qed.

Lemma lowest_floor_ok g s sec : level_ok g -> floors_ok g -> sectors g !! s = Some sec ->
  exists low, P_FindLowestFloorSurrounding g s = Ret low /\ height_ok low /\ low <= Sector.floorheight sec.
Proof.
  intros Hl Hf E. unfold P_FindLowestFloorSurrounding. rewrite (around_run g Hl s sec), run_each_min by done.
  eexists. split; [reflexivity|]. pose proof (neighbours_floors g s Hf) as Hn.
  pose proof (proj1 (Forall_lookup _ _) Hf s sec E) as Hs. cbn in Hs.
  destruct (zmin_spec (Sector.floorheight sec) (Sector.floorheight <$> neighbours g s)) as (_ & H2 & [H3|H3]).
  - by rewrite H3.
  - split; [|done]. exact (proj1 (Forall_forall _ _) Hn _ H3).
Qed.

Lemma highest_floor_ok g s sec : level_ok g -> floors_ok g -> sectors g !! s = Some sec ->
  exists high, P_FindHighestFloorSurrounding g s = Ret high /\ height_ok high.
Proof.
  intros Hl Hf E. unfold P_FindHighestFloorSurrounding. rewrite (around_run g Hl s sec), run_each_max by done.
  eexists. split; [reflexivity|]. pose proof (neighbours_floors g s Hf) as Hn.
  destruct (zmax_spec (-500 * FRACUNIT) (Sector.floorheight <$> neighbours g s)) as (_ & _ & [H3|H3]).
  - rewrite H3. unfold height_ok, FRACUNIT. lia.
  - exact (proj1 (Forall_forall _ _) Hn _ H3).
Qed.

Lemma upd_sector_things t f w w' a : upd_sector t f w = Ret w' -> thing_at a (gm w') = thing_at a (gm w).
Proof. unfold upd_sector. destruct (get_sector t w); cbn [obind]; intros; inv_ret; done. Qed.

(** The types that only go up get no low mark. *)
Lemma plat_setup_raise type amount s li p w p' w' : type = raiseAndChange \/ type = raiseToNearestAndChange ->
  plat_setup type amount s li p w = Ret (p', w') ->
  Plat.status p' = up /\ Plat.low p' = Plat.low p /\ Plat.crush p' = Plat.crush p /\
  forall a, thing_at a (gm w') = thing_at a (gm w).
Proof.
  intros Ht. unfold plat_setup. destruct (get_sector _ w) as [sec| | |]; cbn [obind]; [|done..].
  destruct Ht as [-> | ->]; cbn [Z.eqb Pos.eqb raiseAndChange raiseToNearestAndChange];
    (destruct (line_floorpic li w); cbn [obind]; try done);
    (destruct (upd_sector _ _ w) as [w1| | |] eqn:E1; cbn [obind]; try done).
  - intros [= <- <-]. split_and!; try done. intros b. by apply (upd_sector_things _ _ _ _ b E1).
  - destruct (P_FindNextHighestFloor _ _ _); cbn [obind]; try done.
    destruct (upd_sector _ _ w1) as [w2| | |] eqn:E2; cbn [obind]; try done. intros [= <- <-]. split_and!; try done.
    intros b. change (thing_at b (gm w2) = thing_at b (gm w)).
    by rewrite (upd_sector_things _ _ _ _ b E2), (upd_sector_things _ _ _ _ b E1).
Qed.

Definition moving_type (type : Z) : bool :=
  (type =? perpetualRaise) || (type =? downWaitUpStay) || (type =? blazeDWUS).

(** The switch sets a valid course for the types that go up and down. *)
Lemma plat_setup_valid type amount s li p sec w : moving_type type = true ->
  level_ok (gm w) -> floors_ok (gm w) -> sectors (gm w) !! s = Some sec ->
  exists p' rn snd, plat_setup type amount s li p w = Ret (p', mk_world (gm w) rn snd) /\ plat_valid p' sec /\
    Plat.sector p' = Plat.sector p /\ Plat.thinker p' = Plat.thinker p /\ Plat.tag p' = Plat.tag p.
Proof.
  intros Ht Hl Hf E. unfold moving_type in Ht. unfold plat_setup. rewrite (get_sector_at s sec) by done. cbn [obind].
  destruct (lowest_floor_ok _ s sec Hl Hf E) as (low & -> & Hlow & Hle).
  destruct (highest_floor_ok _ s sec Hl Hf E) as (high & -> & Hhigh).
  destruct (P_Random_total (rnd w)) as (x & rn & -> & Hx).
  pose proof (proj1 (Forall_lookup _ _) Hf s sec E) as Hs. cbn in Hs. unfold height_ok in *.
  assert (Hb : 0 <= Z.land x 1 <= 1).
  { pose proof (Z.land_ones x 1 ltac:(lia)) as E1. change (Z.ones 1) with 1 in E1. change (2 ^ 1) with 2 in E1.
    rewrite E1. pose proof (Z.mod_pos_bound x 2). lia. }
  assert (Hq : forall t, (type =? t) = true -> type = t) by (intros t; apply Z.eqb_eq).
  cbn [obind]. assert (Egt : (low >? Sector.floorheight sec) = false) by (rewrite Z.gtb_ltb; apply Z.ltb_ge; lia). rewrite Egt.
  apply orb_true_iff in Ht as [[Ht|Ht]%orb_true_iff|Ht]; apply Hq in Ht as ->; cbn -[Z.land FRACUNIT TICRATE];
    (do 3 eexists; split; [destruct w; reflexivity|]; split_and!; try done; split; cbn -[Z.land];
     unfold PLATSPEED, FRACUNIT, INT_MIN, INT_MAX, TICRATE, PLATWAIT, waiting, down, in_stasis in *;
     try (destruct (Z.ltb_spec high (Sector.floorheight sec))); lia).
Qed.

Lemma start_plat_run li type amount s sec rtn w :
  moving_type type = true -> level_ok (gm w) -> floors_ok (gm w) -> sectors (gm w) !! s = Some sec ->
  (0 < slots (activeplats (gm w)))%nat ->
  if truth (Sector.specialdata sec) then start_plat li type amount s (rtn, w) = Ret (rtn, w)
  else exists self p w', start_plat li type amount s (rtn, w) = Ret (1, w') /\ starts self s (TPlat p) sec w w' /\
    Plat.sector p = Z.of_nat s /\ plat_valid p (sec <| Sector.specialdata := self |>) /\
    Thinker.function (Plat.thinker p) = fn_addr GameTypes.T_PlatRaise /\ Plat.tag p = Line.tag li /\
    first_free (activeplats (gm w)) self = Some (activeplats (gm w')) /\ self ∈ activeplats (gm w') /\
    activeceilings (gm w') = activeceilings (gm w).
Proof.
  intros Ht Hl Hf E Hsl. unfold start_plat. rewrite (get_sector_at s sec) by done. cbn [obind].
  destruct (truth (Sector.specialdata sec)); [done|]. destruct (heap_fresh w) as (self & -> & Hnz & Hfr). cbn [obind].
  unfold on_game. cbn [gm update]. rewrite (set_specialdata_run _ s sec) by done. cbn [obind].
  set (sec' := sec <| Sector.specialdata := self |>).
  lazymatch goal with |- context [plat_setup _ _ _ _ ?x ?y] => set (p0 := x); set (w1 := y) end.
  assert (Eg : gm w1 = (gm w) <| thinkers := thinkers (gm w) ++ [(self, TPlat (raw_plat self))] |> <| sectors ::= <[s := sec']> |>) by done.
  assert (Es : sectors (gm w1) !! s = Some sec') by (cbn; by rewrite list_lookup_insert_eq by (by eapply lookup_lt_Some)).
  destruct (plat_setup_valid type amount s li p0 sec' w1 Ht) as (p & rn & snd & Ep & Hv & P1 & P2 & P3); [|
    |done|].
  { rewrite Eg. by eapply level_ok_update. }
  { unfold floors_ok. cbn. apply Forall_insert; [done|]. exact (proj1 (Forall_lookup _ _) Hf s sec E). }
  rewrite Ep. cbn [obind]. clear Ep. unfold P_AddActivePlat. cbn [gm put_plat update activeplats].
  change (activeplats (put_thing self (TPlat p) (gm w1))) with (activeplats (gm w)).
  destruct (first_free_some _ self Hnz Hsl) as (l & Efr & _ & Hin & _). rewrite Efr. cbn [obind].
  eexists self, p, _. split; [reflexivity|]. split_and!; try done; [|by rewrite ?P1, ?P2, ?P3..].
  by eapply (starts_intro _ _ _ (TPlat (raw_plat self))).
Qed.

(** ** The claims *)

(** one tic of a plat goes through and leaves it on its course: the floor
    stays between the low and the high mark, no other sector and no other
    field of the sector changes, and either the plat goes on, or it is
    removed: its thinker is marked, its sector is free again and its slot is
    cleared. *)
Theorem T_PlatRaise_correct self s p sec w : plat_in self s p sec w -> plat_valid p sec ->
  self ∈ activeplats (gm w) -> self <> 0 -> NoDup (filter (fun x => x <> 0) (activeplats (gm w))) ->
  exists w', T_PlatRaise self w = Ret w' /\ plat_tic self s p sec w w'.
Proof. apply plat_tic_run. Qed.

(** Stopping the plats of a tag and starting them again is the identity
    on every active plat of the tag that was running, except that the status
    it was stopped in is remembered; plats of other tags are as before. *)
Theorem stop_and_activate tag w : plats_ok w ->
  exists w1 w2, EV_StopPlat tag w = Ret w1 /\ P_ActivateInStasis tag w1 = Ret w2 /\
    forall a p, a ∈ activeplats (gm w) -> a <> 0 -> thing_at a (gm w) = Some (TPlat p) ->
      Thinker.function (Plat.thinker p) = fn_addr GameTypes.T_PlatRaise -> Plat.status p <> in_stasis ->
      thing_at a (gm w2) = Some (TPlat (if Plat.tag p =? tag then p <| Plat.oldstatus := Plat.status p |> else p)) /\
      (Plat.tag p = tag -> exists q, thing_at a (gm w1) = Some (TPlat q) /\
         Plat.status q = in_stasis /\ Thinker.function (Plat.thinker q) = 0).
Proof.
  intros [Hnd Hall]. destruct (each_slot_run get_plat put_plat TPlat (fun a x w => get_plat_at a x w) (fun a x w => eq_refl) (stop_plat tag) _ w Hnd Hall) as (l1 & E1 & H1 & _).
  set (w1 := w <| gm := (gm w) <| thinkers := l1 |> |>) in *.
  destruct (each_slot_run get_plat put_plat TPlat (fun a x w => get_plat_at a x w) (fun a x w => eq_refl) (activate_plat tag) (activeplats (gm w1)) w1 Hnd) as (l2 & E2 & H2 & _).
  { intros a Ha Hz. destruct (Hall a Ha Hz) as [p Hp]. exists (changed (stop_plat tag) p). by apply H1. }
  exists w1, (w1 <| gm := (gm w1) <| thinkers := l2 |> |>). split_and!; [done|done|].
  intros a p Ha Hz Hp Hfn Hst. pose proof (H1 a p Ha Hz Hp) as Hp1. pose proof (H2 a _ Ha Hz Hp1) as Hp2.
  assert (Es : (Plat.status p =? in_stasis) = false) by (by apply Z.eqb_neq).
  unfold changed, stop_plat in Hp1. unfold changed, stop_plat, activate_plat in Hp2. rewrite Es in Hp1, Hp2. cbn [negb andb] in Hp1, Hp2.
  destruct (Plat.tag p =? tag) eqn:Et.
  - split; [|intros _; by eexists]. etransitivity; [exact Hp2|]. cbn. rewrite Et. cbn. f_equal. f_equal.
    destruct p as [[] ? ? ? ? ? ? ? ? ? ? ?]. cbn in Hfn. by subst.
  - rewrite Et, Es in Hp2. breflect. split; [|done]. exact Hp2.
Qed.

(** EV_DoPlat leaves a sector alone that something already moves. In
    any other it starts a plat (of one of the types that go up and down): the
    new plat runs T_PlatRaise with a valid course, is named by its sector and
    has a slot among the active plats; no other sector, mover or plat
    changes. *)
Theorem start_plat_correct li type amount s sec rtn w :
  moving_type type = true -> level_ok (gm w) -> floors_ok (gm w) -> sectors (gm w) !! s = Some sec ->
  (0 < slots (activeplats (gm w)))%nat ->
  if truth (Sector.specialdata sec) then start_plat li type amount s (rtn, w) = Ret (rtn, w)
  else exists self p w', start_plat li type amount s (rtn, w) = Ret (1, w') /\ starts self s (TPlat p) sec w w' /\
    Plat.sector p = Z.of_nat s /\ plat_valid p (sec <| Sector.specialdata := self |>) /\
    Thinker.function (Plat.thinker p) = fn_addr GameTypes.T_PlatRaise /\ Plat.tag p = Line.tag li /\
    first_free (activeplats (gm w)) self = Some (activeplats (gm w')) /\ self ∈ activeplats (gm w') /\
    activeceilings (gm w') = activeceilings (gm w).
Proof. apply start_plat_run. Qed.

(** A plat that only goes up (raiseAndChange, raiseToNearestAndChange)
    and finds something in its way turns around, but EV_DoPlat never sets its
    low mark: it goes down to whatever its memory held. *)
Theorem blocked_raise_is_unguided li type amount s sec rtn w w' :
  type = raiseAndChange \/ type = raiseToNearestAndChange ->
  sectors (gm w) !! s = Some sec -> Sector.specialdata sec = 0 -> start_plat li type amount s (rtn, w) = Ret (1, w') ->
  exists self p, heap_malloc w = Ret self /\ thing_at self (gm w') = Some (TPlat p) /\
    Plat.status p = up /\ Plat.low p = Plat.low (raw_plat self) /\
    forall w1 w2, thing_at self (gm w1) = Some (TPlat p) ->
      T_MovePlane (Plat.sector p) (Plat.speed p) (Plat.high p) 0 0 1 w1 = Ret (crushed, w2) ->
      exists w3 q, T_PlatRaise self w1 = Ret w3 /\ thing_at self (gm w3) = Some (TPlat q) /\
        Plat.status q = down /\ Plat.low q = Plat.low (raw_plat self).
Proof.
  intros Ht E Hsd. unfold start_plat. rewrite (get_sector_at s sec) by done. cbn [obind]. rewrite Hsd.
  change (truth 0) with false. cbv iota. destruct (heap_fresh w) as (self & -> & Hnz & Hfr). cbn [obind].
  unfold on_game. cbn [gm update]. rewrite (set_specialdata_run _ s sec) by done. cbn [obind].
  lazymatch goal with |- context [plat_setup _ _ _ _ ?x ?y] => set (p0 := x); set (w1 := y) end.
  destruct (plat_setup type amount s li p0 w1) as [[p w2]| | |] eqn:Ep; cbn [obind]; try done.
  destruct (plat_setup_raise type amount s li p0 w1 p w2 Ht Ep) as (R1 & R2 & R3 & R4). change (Plat.crush p0) with 0 in R3.
  destruct (P_AddActivePlat self _) as [g| | |] eqn:Ea; cbn [obind]; try done. intros [= <-].
  exists self, p. split; [done|]. split_and!; [|done|done|].
  - cbn [gm update]. unfold P_AddActivePlat in Ea. destruct (first_free _ _); [|done]. injection Ea as <-.
    change (thing_at self (put_thing self (TPlat p) (gm w2)) = Some (TPlat p)).
    apply (thing_at_put_same _ _ _ (TPlat (raw_plat self))). rewrite R4. unfold w1. cbn [gm update].
    change (thing_at self (P_AddThinker self (TPlat (raw_plat self)) (gm w)) = Some (TPlat (raw_plat self))). by apply thing_at_add.
  - intros wa wb Ha Hm. unfold T_PlatRaise. rewrite (get_plat_at self p) by done. cbn [obind]. rewrite R1.
    change (up =? up) with true. cbv iota. unfold plat_up. rewrite (get_plat_at self p) by done. cbn [obind].
    pose proof (T_MovePlane_movers _ _ _ _ _ _ _ _ _ _ _ Hm Ha eq_refl) as Hb.
    rewrite R3, Hm. cbn [obind]. rewrite (get_plat_at self p) by done. cbn [obind]. rewrite R3.
    change (truth 0) with false. cbv iota. eexists _, (p <| Plat.count := Plat.wait p |> <| Plat.status := down |>).
    split; [reflexivity|]. split_and!; [|done|done].
    cbn [gm plat_sound S_StartSound update]. eapply thing_put_plat.
    destruct (_ && _); exact Hb.
Qed.
End facts.

(** ** Witnesses *)
Section witness.
Import Demo.
Definition plat_world : world := mk_world (rooms <| activeplats := replicate 3 0 |>) (mk_rnd 0 0) [].
Definition plat_line : Line.line_t := Line.mk ML_TWOSIDED 62 3 [0; 1] (Some 0%nat) (Some 1%nat).
(** The plat of the middle room, on its way down. *)
Definition room_plat : Plat.plat_t :=
  Plat.mk (Thinker.mk 77 77 105) 1 (4 * FRACUNIT) 0 65536 105 77 down 77 0 3 downWaitUpStay.
Definition running : world :=
  mk_world (rooms <| activeplats := [1; 0; 0] |> <| thinkers := [(1, TPlat room_plat)] |>
    <| sectors ::= <[1%nat := (room 65536 3 [0%nat; 1%nat]) <| Sector.specialdata := 1 |>]> |>) (mk_rnd 0 0) [(Some (org_sector 1), sfx_pstart)].

Lemma room_plat_valid : plat_valid room_plat ((room 65536 3 [0%nat; 1%nat]) <| Sector.specialdata := 1 |>).
Proof. split; cbn; unfold INT_MIN, INT_MAX, FRACUNIT, down, waiting, in_stasis; lia. Qed.

Lemma T_PlatRaise_correct_witness : exists w', T_PlatRaise 1 running = Ret w' /\
  plat_tic 1 1 room_plat ((room 65536 3 [0%nat; 1%nat]) <| Sector.specialdata := 1 |>) running w'.
Proof.
  apply (T_PlatRaise_correct 1 1 room_plat).
  - split; reflexivity.
  - exact room_plat_valid.
  - apply (bool_decide_unpack _). vm_compute. exact I.
  - discriminate.
  - apply (bool_decide_unpack _). vm_compute. exact I.
Defined.

Lemma stop_and_activate_witness : exists w1 w2, EV_StopPlat 3 running = Ret w1 /\ P_ActivateInStasis 3 w1 = Ret w2 /\
  thing_at 1 (gm w2) = Some (TPlat (room_plat <| Plat.oldstatus := down |>)).
Proof.
  destruct (stop_and_activate 3 running) as (w1 & w2 & E1 & E2 & Hk).
  - split; [apply (bool_decide_unpack _); vm_compute; exact I|].
    intros a Ha Hz. unfold running in Ha. cbn in Ha. repeat (apply elem_of_cons in Ha as [->|Ha]; [done || (exists room_plat; reflexivity)|]).
    by apply elem_of_nil in Ha.
  - exists w1, w2. split; [exact E1|]. split; [exact E2|].
    refine (proj1 (Hk 1 room_plat _ _ _ _ _)); [|discriminate|reflexivity|reflexivity|discriminate].
    apply (bool_decide_unpack _). vm_compute. exact I.
Defined.

Lemma start_plat_correct_witness : exists self p w',
  start_plat plat_line downWaitUpStay 0 1 (0, plat_world) = Ret (1, w') /\
  starts self 1 (TPlat p) (room 65536 3 [0%nat; 1%nat]) plat_world w' /\ self ∈ activeplats (gm w').
Proof.
  pose proof (start_plat_correct plat_line downWaitUpStay 0 1 (room 65536 3 [0%nat; 1%nat]) 0 plat_world eq_refl) as Hc.
  destruct Hc as (self & p & w' & E1 & Hst & _ & _ & _ & _ & _ & Ha & _).
  - destruct rooms_ok as [H1 H2]. split; [exact H1|exact H2].
  - repeat constructor; unfold height_ok; cbn; lia.
  - reflexivity.
  - vm_compute. lia.
  - exists self, p, w'. split; [exact E1|]. split; [exact Hst|exact Ha].
Defined.

(** The first room is 56 units high, so that its floor cannot rise. *)
Definition blocked_world : world :=
  mk_world (rooms <| activeplats := replicate 3 0 |> <| sides := replicate 4 (Side.mk 0 0 0 0 0 2) |>
    <| sectors ::= <[0%nat := (room 0 7 [0%nat]) <| Sector.ceilingheight := 56 * FRACUNIT |>]> |>) (mk_rnd 0 0) [].

Definition blocked_start : world :=
  match start_plat plat_line raiseAndChange 24 0 (0, blocked_world) with Ret (_, w) => w | _ => blocked_world end.

Lemma blocked_raise_is_unguided_witness : exists w3 q,
  start_plat plat_line raiseAndChange 24 0 (0, blocked_world) = Ret (1, blocked_start) /\
  T_PlatRaise 1 blocked_start = Ret w3 /\ thing_at 1 (gm w3) = Some (TPlat q) /\ Plat.status q = down /\ Plat.low q = 77.
Proof.
  assert (Es : start_plat plat_line raiseAndChange 24 0 (0, blocked_world) = Ret (1, blocked_start)) by (vm_compute; reflexivity).
  assert (Ep : exists p, thing_at 1 (gm blocked_start) = Some (TPlat p) /\ exists w2,
    T_MovePlane (Plat.sector p) (Plat.speed p) (Plat.high p) 0 0 1 blocked_start = Ret (crushed, w2)).
  { eexists. split; [vm_compute; reflexivity|]. eexists. vm_compute. reflexivity. }
  destruct (blocked_raise_is_unguided plat_line raiseAndChange 24 0 ((room 0 7 [0%nat]) <| Sector.ceilingheight := 56 * FRACUNIT |>)
    0 blocked_world blocked_start (or_introl eq_refl) eq_refl eq_refl Es) as (self & p & Hm & Hat & _ & _ & Hk).
  assert (self = 1) as -> by (vm_compute in Hm; congruence).
  destruct Ep as (p' & Hp & w2 & Hw). assert (p' = p) as -> by congruence.
  destruct (Hk blocked_start w2 Hp Hw) as (w3 & q & E3 & Hq & Hst & Hlow).
  exists w3, q. split; [exact Es|]. split; [exact E3|]. split; [exact Hq|]. split; [exact Hst|exact Hlow].
Defined.
End witness.
