(* ===== verification/Doors.v ===== *)
(** * Vertical doors (src/commands/doom/p_doors.c) *)
From S2P Require Import Prelude MFixed MRandom GameTypes Thinkers SectorSearch MovePlane.
#[local] Open Scope doom_scope.

(** [vldoor_e] *)
Definition vld_normal : Z := 0.
Definition vld_close30ThenOpen : Z := 1.
Definition vld_close : Z := 2.
Definition vld_open : Z := 3.
Definition vld_raiseIn5Mins : Z := 4.
Definition vld_blazeRaise : Z := 5.
Definition vld_blazeOpen : Z := 6.
Definition vld_blazeClose : Z := 7.

Definition VDOORSPEED : Z := FRACUNIT * 2.
Definition VDOORWAIT : Z := 150.

Section doors.
Context {A : Arch} {im : Image} {C : Crush} {H : Heap} {msgs : Messages}.

Definition get_door (self : Z) (w : world) : outcome VlDoor.vldoor_t :=
  match thing_at self (gm w) with Some (TDoor d) => Ret d | _ => Undef end.
Definition put_door (self : Z) (d : VlDoor.vldoor_t) (w : world) : world := w <| gm ::= put_thing self (TDoor d) |>.
Definition door_sound (d : VlDoor.vldoor_t) (s : sound) (w : world) : world := S_StartSound (Some (org_sector (VlDoor.sector d))) s w.

(** [door->sector->specialdata = NULL; P_RemoveThinker (&door->thinker)] *)
Definition remove_door (self : Z) (d : VlDoor.vldoor_t) (w : world) : outcome world :=
  let* w := on_game (set_specialdata (VlDoor.sector d) 0) w in
  on_game (P_RemoveThinker self) w.

(** [if (!--door->topcountdown) ...] for a door that waits at the top. *)
Definition door_wait (self : Z) (w : world) : outcome world :=
  let* d := get_door self w in
  let d := d <| VlDoor.topcountdown ::= fun c => i32 (c - 1) |> in
  if truth (VlDoor.topcountdown d) then Ret (put_door self d w)
  else if VlDoor.type d =? vld_blazeRaise then
    Ret (door_sound d sfx_bdcls (put_door self (d <| VlDoor.direction := -1 |>) w))
  else if VlDoor.type d =? vld_normal then
    Ret (door_sound d sfx_dorcls (put_door self (d <| VlDoor.direction := -1 |>) w))
  else if VlDoor.type d =? vld_close30ThenOpen then
    Ret (door_sound d sfx_doropn (put_door self (d <| VlDoor.direction := 1 |>) w))
  else Ret (put_door self d w).

(** The initial wait. *)
Definition door_first_wait (self : Z) (w : world) : outcome world :=
  let* d := get_door self w in
  let d := d <| VlDoor.topcountdown ::= fun c => i32 (c - 1) |> in
  if truth (VlDoor.topcountdown d) then Ret (put_door self d w)
  else if VlDoor.type d =? vld_raiseIn5Mins then
    Ret (door_sound d sfx_doropn (put_door self (d <| VlDoor.direction := 1 |> <| VlDoor.type := vld_normal |>) w))
  else Ret (put_door self d w).

Definition door_down (self : Z) (w : world) : outcome world :=
  let* d := get_door self w in
  let* sec := get_sector (VlDoor.sector d) w in
  let* '(res, w) := T_MovePlane (VlDoor.sector d) (VlDoor.speed d) (Sector.floorheight sec) 0 1 (VlDoor.direction d) w in
  let* d := get_door self w in
  match res with
  | pastdest =>
      if (VlDoor.type d =? vld_blazeRaise) || (VlDoor.type d =? vld_blazeClose) then
        let* w := remove_door self d w in Ret (door_sound d sfx_bdcls w)
      else if (VlDoor.type d =? vld_normal) || (VlDoor.type d =? vld_close) then remove_door self d w
      else if VlDoor.type d =? vld_close30ThenOpen then
        Ret (put_door self (d <| VlDoor.direction := 0 |> <| VlDoor.topcountdown := TICRATE * 30 |>) w)
      else Ret w
  | crushed =>
      if (VlDoor.type d =? vld_blazeClose) || (VlDoor.type d =? vld_close) then Ret w
      else Ret (door_sound d sfx_doropn (put_door self (d <| VlDoor.direction := 1 |>) w))
  | ok => Ret w
  end.

Definition door_up (self : Z) (w : world) : outcome world :=
  let* d := get_door self w in
  let* '(res, w) := T_MovePlane (VlDoor.sector d) (VlDoor.speed d) (VlDoor.topheight d) 0 1 (VlDoor.direction d) w in
  let* d := get_door self w in
  match res with
  | pastdest =>
      if (VlDoor.type d =? vld_blazeRaise) || (VlDoor.type d =? vld_normal) then
        Ret (put_door self (d <| VlDoor.direction := 0 |> <| VlDoor.topcountdown := VlDoor.topwait d |>) w)
      else if (VlDoor.type d =? vld_close30ThenOpen) || (VlDoor.type d =? vld_blazeOpen) || (VlDoor.type d =? vld_open)
      then remove_door self d w
      else Ret w
  | _ => Ret w
  end.

Definition T_VerticalDoor (self : Z) (w : world) : outcome world :=
  let* d := get_door self w in
  if VlDoor.direction d =? 0 then door_wait self w
  else if VlDoor.direction d =? 2 then door_first_wait self w
  else if VlDoor.direction d =? -1 then door_down self w
  else if VlDoor.direction d =? 1 then door_up self w
  else Ret w.

(** A new door for a sector: allocated, in the list of thinkers, and named by
    the sector. *)
Definition new_door (secnum : nat) (w : world) : outcome (Z * VlDoor.vldoor_t * world) :=
  let* self := heap_malloc w in
  let w := w <| gm ::= P_AddThinker self (TDoor (raw_door self)) |> in
  let* w := on_game (set_specialdata (Z.of_nat secnum) self) w in
  let d := (raw_door self) <| VlDoor.thinker ::= set_function GameTypes.T_VerticalDoor |>
             <| VlDoor.sector := Z.of_nat secnum |> in
  Ret (self, d, w).

(** [door->topheight = P_FindLowestCeilingSurrounding(sec) - 4*FRACUNIT] *)
Definition open_height (secnum : nat) (w : world) : outcome Z :=
  let* h := P_FindLowestCeilingSurrounding (gm w) secnum in Ret (i32 (h - 4 * FRACUNIT)).

(** The switch of [EV_DoDoor]: the filled-in door, and the sound. *)
Definition door_setup (type : Z) (secnum : nat) (d : VlDoor.vldoor_t) (w : world) : outcome (VlDoor.vldoor_t * option sound) :=
  let* sec := get_sector (Z.of_nat secnum) w in
  if type =? vld_blazeClose then
    let* top := open_height secnum w in
    Ret (d <| VlDoor.topheight := top |> <| VlDoor.direction := -1 |> <| VlDoor.speed := VDOORSPEED * 4 |>, Some sfx_bdcls)
  else if type =? vld_close then
    let* top := open_height secnum w in
    Ret (d <| VlDoor.topheight := top |> <| VlDoor.direction := -1 |>, Some sfx_dorcls)
  else if type =? vld_close30ThenOpen then
    Ret (d <| VlDoor.topheight := Sector.ceilingheight sec |> <| VlDoor.direction := -1 |>, Some sfx_dorcls)
  else if (type =? vld_blazeRaise) || (type =? vld_blazeOpen) then
    let* top := open_height secnum w in
    Ret (d <| VlDoor.direction := 1 |> <| VlDoor.topheight := top |> <| VlDoor.speed := VDOORSPEED * 4 |>,
         if negb (top =? Sector.ceilingheight sec) then Some sfx_bdopn else None)
  else if (type =? vld_normal) || (type =? vld_open) then
    let* top := open_height secnum w in
    Ret (d <| VlDoor.direction := 1 |> <| VlDoor.topheight := top |>,
         if negb (top =? Sector.ceilingheight sec) then Some sfx_doropn else None)
  else Ret (d, None).

Definition start_door (type : Z) (secnum : nat) (st : Z * world) : outcome (Z * world) :=
  let '(rtn, w) := st in
  let* sec := get_sector (Z.of_nat secnum) w in
  if truth (Sector.specialdata sec) then Ret (rtn, w)
  else
    let* '(self, d, w) := new_door secnum w in
    let d := d <| VlDoor.type := type |> <| VlDoor.topwait := VDOORWAIT |> <| VlDoor.speed := VDOORSPEED |> in
    let* '(d, snd) := door_setup type secnum d w in
    let w := match snd with Some s => door_sound d s w | None => w end in
    Ret (1, put_door self d w).

Definition EV_DoDoor (li : Line.line_t) (type : Z) (w : world) : outcome (Z * world) :=
  for_tagged (fun st : Z * world => gm st.2) (S (length (sectors (gm w)))) (Line.tag li) (-1) (start_door type) (0, w).

(** ** Locks *)

(** [!p->cards[card] && !p->cards[skull]]: the player stays before the door. *)
Definition lacks (card skull : Z) (p : Player.player_t) : outcome bool :=
  let* c := get (Player.cards p) card in
  if truth c then Ret false
  else let* s := get (Player.cards p) skull in Ret (negb (truth s)).
Definition refuse (i : Z) (p : Player.player_t) (msg : string) (w : world) : world :=
  S_StartSound None sfx_oof
    (w <| gm ::= fun g => g <| players ::= <[Z.to_nat i := p <| Player.message := message_at msg |>]> |> |>).

(** The lock of a line: the cards that open it, and the message. *)
Definition lock_of (locks : list (Z * Z * (Z * Z * string))) (special : Z) : option (Z * Z * string) :=
  match filter (fun l => l.1.1 = special \/ l.1.2 = special) locks with
  | l :: _ => Some l.2
  | [] => None
  end.
Definition locked_doors : list (Z * Z * (Z * Z * string)) :=
  [(99, 133, (it_bluecard, it_blueskull, "PD_BLUEO")); (134, 135, (it_redcard, it_redskull, "PD_REDO"));
   (136, 137, (it_yellowcard, it_yellowskull, "PD_YELLOWO"))].

Definition get_player (i : Z) (w : world) : outcome Player.player_t :=
  if i <? 0 then Undef else of_option (players (gm w) !! Z.to_nat i).

Definition EV_DoLockedDoor (li : Line.line_t) (type : Z) (thing : Mobj.mobj_t) (w : world) : outcome (Z * world) :=
  match Mobj.player thing with
  | None => Ret (0, w)
  | Some i =>
      match lock_of locked_doors (Line.special li) with
      | None => EV_DoDoor li type w
      | Some (card, skull, msg) =>
          let* p := get_player i w in
          let* no := lacks card skull p in
          if no : bool then Ret (0, refuse i p msg w) else EV_DoDoor li type w
      end
  end.

(** ** Doors that the level starts with *)
Definition P_SpawnDoorCloseIn30 (secnum : nat) (w : world) : outcome world :=
  let* '(self, d, w) := new_door secnum w in
  let* w := upd_sector (Z.of_nat secnum) (fun sec => sec <| Sector.special := 0 |>) w in
  Ret (put_door self (d <| VlDoor.direction := 0 |> <| VlDoor.type := vld_normal |> <| VlDoor.speed := VDOORSPEED |>
                        <| VlDoor.topcountdown := 30 * TICRATE |>) w).

Definition P_SpawnDoorRaiseIn5Mins (secnum : nat) (w : world) : outcome world :=
  let* '(self, d, w) := new_door secnum w in
  let* w := upd_sector (Z.of_nat secnum) (fun sec => sec <| Sector.special := 0 |>) w in
  let* top := open_height secnum w in
  Ret (put_door self (d <| VlDoor.direction := 2 |> <| VlDoor.type := vld_raiseIn5Mins |> <| VlDoor.speed := VDOORSPEED |>
                        <| VlDoor.topheight := top |> <| VlDoor.topwait := VDOORWAIT |>
                        <| VlDoor.topcountdown := 5 * 60 * TICRATE |>) w).
End doors.

(** * Doors that are opened by hand (EV_VerticalDoor of src/commands/doom/p_doors.c)

    A line is used by a player or a monster. When the sector behind it has a
    mover, the function takes it for a door without looking: its [direction]
    is then whatever the other structure has at that place, which depends on
    the sizes of pointers (the code is built with -fno-strict-aliasing). *)

(** [door->direction] of an object that may not be a door. Past the texture
    of a floor there is padding on a 64-bit target. *)
Definition pun_direction {A : Arch} (th : thing) : outcome Z :=
  match th, the_abi with
  | TDoor d, _ => Ret (VlDoor.direction d)
  | TPlat p, ILP32 => Ret (Plat.wait p)
  | TPlat p, LP64 => Ret (Plat.count p)
  | TCeiling c, _ => Ret (Ceiling.speed c)
  | TFloor f, ILP32 => Ret (FloorMove.newspecial f)
  | _, _ => Undef
  end.
Definition set_pun {A : Arch} (v : Z) (th : thing) : outcome thing :=
  match th, the_abi with
  | TDoor d, _ => Ret (TDoor (d <| VlDoor.direction := v |>))
  | TPlat p, ILP32 => Ret (TPlat (p <| Plat.wait := v |>))
  | TPlat p, LP64 => Ret (TPlat (p <| Plat.count := v |>))
  | TCeiling c, _ => Ret (TCeiling (c <| Ceiling.speed := v |>))
  | TFloor f, ILP32 => Ret (TFloor (f <| FloorMove.newspecial := v |>))
  | _, _ => Undef
  end.

Section manual.
Context {A : Arch} {im : Image} {C : Crush} {H : Heap} {msgs : Messages}.

Definition manual_locks : list (Z * Z * (Z * Z * string)) :=
  [(26, 32, (it_bluecard, it_blueskull, "PD_BLUEK")); (27, 34, (it_yellowcard, it_yellowskull, "PD_YELLOWK"));
   (28, 33, (it_redcard, it_redskull, "PD_REDK"))].

(** Whether the lock of the line lets the thing through, and what a refusal
    does. *)
Definition check_lock (special : Z) (thing : Mobj.mobj_t) (w : world) : outcome (bool * world) :=
  match lock_of manual_locks special with
  | None => Ret (true, w)
  | Some (card, skull, msg) =>
      match Mobj.player thing with
      | None => Ret (false, w)
      | Some i =>
          let* p := get_player i w in
          let* no := lacks card skull p in
          if no : bool then Ret (false, refuse i p msg w) else Ret (true, w)
      end
  end.

(** Only for "raise" doors. *)
Definition raise_special (special : Z) : bool :=
  (special =? 1) || (special =? 26) || (special =? 27) || (special =? 28) || (special =? 117).

(** The mover at [self] is turned around. *)
Definition use_mover (self : Z) (thing : Mobj.mobj_t) (w : world) : outcome world :=
  let* th := of_option (thing_at self (gm w)) in
  let* dir := pun_direction th in
  if dir =? -1 then
    let* th := set_pun 1 th in Ret (w <| gm ::= put_thing self th |>)
  else
    match Mobj.player thing with
    | None => Ret w
    | Some _ =>
        if thing_function th =? fn_addr GameTypes.T_VerticalDoor then
          let* th := set_pun (-1) th in Ret (w <| gm ::= put_thing self th |>)
        else if thing_function th =? fn_addr GameTypes.T_PlatRaise then
          match th with
          | TPlat p => Ret (w <| gm ::= put_thing self (TPlat (p <| Plat.wait := -1 |>)) |>)
          | _ => Undef
          end
        else let* th := set_pun (-1) th in Ret (w <| gm ::= put_thing self th |>)
    end.

(** The type and speed that the line asks for, and whether it can be used
    once only. *)
Definition manual_setup (special : Z) (d : VlDoor.vldoor_t) : VlDoor.vldoor_t * bool :=
  if (special =? 1) || (special =? 26) || (special =? 27) || (special =? 28) then (d <| VlDoor.type := vld_normal |>, false)
  else if (special =? 31) || (special =? 32) || (special =? 33) || (special =? 34) then (d <| VlDoor.type := vld_open |>, true)
  else if special =? 117 then (d <| VlDoor.type := vld_blazeRaise |> <| VlDoor.speed := VDOORSPEED * 4 |>, false)
  else if special =? 118 then (d <| VlDoor.type := vld_blazeOpen |> <| VlDoor.speed := VDOORSPEED * 4 |>, true)
  else (d, false).

(** [line->special = 0] *)
Definition clear_line (line : nat) (g : game) : game := g <| lines ::= alter (fun li => li <| Line.special := 0 |>) line |>.

Definition open_manual (line : nat) (special : Z) (secnum : nat) (w : world) : outcome world :=
  let w := S_StartSound (Some (org_sector (Z.of_nat secnum))) (if (special =? 117) || (special =? 118) then sfx_bdopn else sfx_doropn) w in
  let* '(self, d, w) := new_door secnum w in
  let d := d <| VlDoor.direction := 1 |> <| VlDoor.speed := VDOORSPEED |> <| VlDoor.topwait := VDOORWAIT |> in
  let '(d, once) := manual_setup special d in
  let w := if once : bool then w <| gm ::= clear_line line |> else w in
  let* top := open_height secnum w in
  Ret (put_door self (d <| VlDoor.topheight := top |>) w).

Definition EV_VerticalDoor (line : nat) (thing : Mobj.mobj_t) (w : world) : outcome world :=
  let* li := of_option (lines (gm w) !! line) in
  let* '(through, w) := check_lock (Line.special li) thing w in
  if negb through then Ret w
  else
    let* num := of_option (Line.sidenum li !! 1%nat) in
    if num <? 0 then Undef else
    let* si := of_option (sides (gm w) !! Z.to_nat num) in
    let* sec := get_sector (Side.sector si) w in
    if truth (Sector.specialdata sec) && raise_special (Line.special li) then use_mover (Sector.specialdata sec) thing w
    else open_manual line (Line.special li) (Z.to_nat (Side.sector si)) w.
End manual.
