(* ===== verification/DoorTheorems.v ===== *)
(** * Vertical doors: the theorems *)
From S2P Require Import Prelude MFixed MRandom GameTypes Thinkers SectorSearch MovePlane Frame Doors.
#[local] Open Scope doom_scope.

(** The door [d] at [self] moves the ceiling of the sector [sec] with index [s]. *)
Record door_in (self : Z) (s : nat) (d : VlDoor.vldoor_t) (sec : Sector.doomsector_t) (w : world) : Prop := {
  di_at : thing_at self (gm w) = Some (TDoor d);
  di_sector : VlDoor.sector d = Z.of_nat s;
  di_sec : sectors (gm w) !! s = Some sec
}.
(** A door between closed and open. *)
Record door_valid (d : VlDoor.vldoor_t) (sec : Sector.doomsector_t) : Prop := {
  dv_range : Sector.floorheight sec <= Sector.ceilingheight sec <= VlDoor.topheight d;
  dv_speed : 0 < VlDoor.speed d;
  dv_fits : INT_MIN <= Sector.floorheight sec - VlDoor.speed d /\ VlDoor.topheight d + VlDoor.speed d <= INT_MAX;
  dv_wait : 0 < VlDoor.topwait d <= INT_MAX;
  dv_count : VlDoor.direction d = 0 \/ VlDoor.direction d = 2 -> 0 < VlDoor.topcountdown d <= INT_MAX;
  dv_type0 : VlDoor.direction d = 0 ->
    VlDoor.type d = vld_blazeRaise \/ VlDoor.type d = vld_normal \/ VlDoor.type d = vld_close30ThenOpen;
  dv_type2 : VlDoor.direction d = 2 -> VlDoor.type d = vld_raiseIn5Mins
}.

(** The constants of the doors as numbers. *)
Ltac unf := unfold vld_normal, vld_close30ThenOpen, vld_close, vld_open, vld_raiseIn5Mins,
  vld_blazeRaise, vld_blazeOpen, vld_blazeClose, INT_MAX, INT_MIN in *.

Section facts.
Context {A : Arch} {im : Image} {C : Crush} {laws : CrushLaws} {H : Heap} {hlaws : HeapLaws} {msgs : Messages}.
Implicit Types (w : world) (d : VlDoor.vldoor_t).

Lemma get_door_at self d w : thing_at self (gm w) = Some (TDoor d) -> get_door self w = Ret d.
Proof. unfold get_door. by intros ->. Qed.

Lemma door_in_put self s d sec d' w : door_in self s d sec w -> VlDoor.sector d' = VlDoor.sector d ->
  door_in self s d' sec (put_door self d' w).
Proof. intros [Hat Hs Hsec] E. split; [by eapply thing_at_put_same|congruence|done]. Qed.

Lemma door_in_sound self s d sec o snd w : door_in self s d sec w -> door_in self s d sec (S_StartSound o snd w).
Proof. intros []. by split. Qed.

Lemma remove_door_run self s d sec w : door_in self s d sec w ->
  exists w', remove_door self d w = Ret w' /\
    door_in self s (d <| VlDoor.thinker ::= fun t => t <| Thinker.function := removed |> |>)
      (sec <| Sector.specialdata := 0 |>) w' /\
    sectors (gm w') = <[s := sec <| Sector.specialdata := 0 |>]> (sectors (gm w)).
Proof.
  intros [Hat Hs Hsec]. unfold remove_door, on_game, set_specialdata. rewrite Hs, (proj2 (Z.ltb_ge _ _)) by lia.
  rewrite Nat2Z.id, Hsec. cbn [obind gm update]. unfold P_RemoveThinker, thing_at in *. cbn [thinkers update].
  rewrite Hat. cbn [of_option obind]. eexists. split; [reflexivity|]. split; [split|done].
  - unfold thing_at. cbn. rewrite thing_in_put, Z.eqb_refl, Hat. by destruct d.
  - done.
  - cbn. by rewrite list_lookup_insert_eq by (by eapply lookup_lt_Some).
Qed.

(** One step of the ceiling of a valid door. *)
Lemma moved_door self s d sec w : door_in self s d sec w -> door_valid d sec ->
  forall dir dest, dir = -1 /\ dest = Sector.floorheight sec \/ dir = 1 /\ dest = VlDoor.topheight d ->
  exists res h w', T_MovePlane (VlDoor.sector d) (VlDoor.speed d) dest 0 1 dir w = Ret (res, w') /\
    let sec' := sec <| Sector.ceilingheight := h |> in
    door_in self s d sec' w' /\ door_valid d sec' /\ sectors (gm w') = <[s := sec']> (sectors (gm w)) /\
    (unobstructed -> res = ok /\ 0 < dir * (h - Sector.ceilingheight sec) \/ res = pastdest /\ h = dest).
Proof.
  intros [Hat Hs Hsec] Hv dir dest Hd. pose proof (dv_range _ _ Hv) as Hr. pose proof (dv_fits _ _ Hv) as Hf.
  pose proof (dv_speed _ _ Hv) as Hsp. unfold INT_MIN, INT_MAX in Hf.
  destruct (moved_mover self (TDoor d) s sec (VlDoor.speed d) dest 0 true dir w) as (res & h & w' & E & Hat' & Es & _ & _ & _ & _ & Hb & Hfree);
    [done|done|done|intuition|lia|cbn [plane]; destruct Hd as [[-> _]|[-> _]]; in_range|].
  cbn [plane] in Hb, Hfree. exists res, h, w'. rewrite Hs. split; [exact E|]. cbn zeta.
  split_and!; [split|split|exact Es|]; try done; try apply Hv.
  - rewrite Es. by rewrite list_lookup_insert_eq by (by eapply lookup_lt_Some).
  - cbn. destruct Hd as [[-> ->]|[-> ->]]; lia.
  - intros Hu. specialize (Hfree Hu). destruct (0 <? _); [by right; destruct Hfree|]. destruct Hfree as [-> ->].
    left. split; [done|]. destruct Hd as [[-> _]|[-> _]]; lia.
Qed.

(** What one tic does to a door: it stays a valid door of its sector, or it
    is removed. *)
Definition door_gone (d' : VlDoor.vldoor_t) (sec' : Sector.doomsector_t) : Prop :=
  Thinker.function (VlDoor.thinker d') = removed /\ Sector.specialdata sec' = 0.
Definition door_on (d : VlDoor.vldoor_t) (sec : Sector.doomsector_t) (d' : VlDoor.vldoor_t) (sec' : Sector.doomsector_t) : Prop :=
  VlDoor.thinker d' = VlDoor.thinker d /\ Sector.specialdata sec' = Sector.specialdata sec.
Definition door_tic (self : Z) (s : nat) (d : VlDoor.vldoor_t) (sec : Sector.doomsector_t) (w w' : world)
    (d' : VlDoor.vldoor_t) (sec' : Sector.doomsector_t) : Prop :=
  door_in self s d' sec' w' /\ door_valid d' sec' /\ sectors (gm w') = <[s := sec']> (sectors (gm w)) /\
  Sector.floorheight sec' = Sector.floorheight sec /\ VlDoor.topheight d' = VlDoor.topheight d /\
  VlDoor.speed d' = VlDoor.speed d /\ VlDoor.topwait d' = VlDoor.topwait d /\
  (door_on d sec d' sec' \/ door_gone d' sec').

(** The time a door that opens and closes has left, in tics at most. *)
Definition door_left (d : VlDoor.vldoor_t) (sec : Sector.doomsector_t) : Z :=
  let way := VlDoor.topheight d - Sector.floorheight sec in
  if VlDoor.direction d =? 1 then VlDoor.topheight d - Sector.ceilingheight sec + VlDoor.topwait d + way + 3
  else if VlDoor.direction d =? 0 then VlDoor.topcountdown d + way + 2
  else Sector.ceilingheight sec - Sector.floorheight sec + 1.
Definition raises (d : VlDoor.vldoor_t) : Prop :=
  (VlDoor.type d = vld_normal \/ VlDoor.type d = vld_blazeRaise) /\
  (VlDoor.direction d = 1 \/ VlDoor.direction d = 0 \/ VlDoor.direction d = -1).
(** Progress: the door goes on with less time left, or it is closed. *)
Definition progress (d : VlDoor.vldoor_t) (sec : Sector.doomsector_t) (d' : VlDoor.vldoor_t) (sec' : Sector.doomsector_t) : Prop :=
  raises d' /\ door_left d' sec' < door_left d sec /\ door_on d sec d' sec' \/
  door_gone d' sec' /\ Sector.ceilingheight sec' = Sector.floorheight sec'.

(** The door is where it was, or was just written. *)
Ltac door_at := unfold door_sound; repeat apply door_in_sound; first [eassumption | eapply door_in_put; [eassumption|reflexivity]].

Lemma door_left_pos d sec : door_valid d sec -> raises d -> 0 < door_left d sec.
Proof.
  intros [Hr _ _ Hw Hc _ _] [_ [Hd|[Hd|Hd]]]; unfold door_left; rewrite Hd; cbn; [lia| |lia].
  specialize (Hc (or_introl Hd)). lia.
Qed.

(** The result of one tic. *)
Definition tic_ok (self : Z) (s : nat) (d : VlDoor.vldoor_t) (sec : Sector.doomsector_t) (w : world) (m : outcome world) : Prop :=
  exists w' d' sec', m = Ret w' /\ door_tic self s d sec w w' d' sec' /\
    (unobstructed -> raises d -> progress d sec d' sec').

(** Nothing but the place in the cycle differs. *)
Definition cycle (d d' : VlDoor.vldoor_t) : Prop :=
  VlDoor.thinker d' = VlDoor.thinker d /\ VlDoor.sector d' = VlDoor.sector d /\ VlDoor.topheight d' = VlDoor.topheight d /\
  VlDoor.speed d' = VlDoor.speed d /\ VlDoor.topwait d' = VlDoor.topwait d.
Lemma cycle_refl d : cycle d d.
Proof. done. Qed.

Lemma door_valid_cycle d d' sec : cycle d d' -> door_valid d sec ->
  (VlDoor.direction d' = 0 \/ VlDoor.direction d' = 2 -> 0 < VlDoor.topcountdown d' <= INT_MAX) ->
  (VlDoor.direction d' = 0 -> VlDoor.type d' = vld_blazeRaise \/ VlDoor.type d' = vld_normal \/ VlDoor.type d' = vld_close30ThenOpen) ->
  (VlDoor.direction d' = 2 -> VlDoor.type d' = vld_raiseIn5Mins) -> door_valid d' sec.
Proof. intros (E1 & E2 & E3 & E4 & E5) [] H1 H2 H3. split; congruence || done. Qed.

(** A door whose sector was moved from [sec] to [sec1] and that goes on as [d']. *)
Lemma tic_on self s d sec w sec1 d' w' :
  door_in self s d' sec1 w' -> sectors (gm w') = <[s := sec1]> (sectors (gm w)) ->
  Sector.floorheight sec1 = Sector.floorheight sec -> Sector.specialdata sec1 = Sector.specialdata sec ->
  cycle d d' -> door_valid d' sec1 -> (unobstructed -> raises d -> raises d' /\ door_left d' sec1 < door_left d sec) ->
  tic_ok self s d sec w (Ret w').
Proof.
  intros Hin Es Ef Esd (E1 & E2 & E3 & E4 & E5) Hv Hp. exists w', d', sec1. split; [done|]. split.
  - split_and!; try done. by left.
  - intros Hu Hr. left. destruct (Hp Hu Hr). by split_and!.
Qed.
(** Without a change of the door or its sector. *)
Lemma tic_still self s d sec w : door_in self s d sec w -> sectors (gm w) = <[s := sec]> (sectors (gm w)).
Proof. intros [_ _ E]. by rewrite list_insert_id. Qed.

Lemma countdown c : 0 < c <= INT_MAX -> i32 (c - 1) = c - 1.
Proof. intros Hc. unfold INT_MAX in Hc. apply wraps_id; in_range. Qed.

Lemma door_wait_tic self s d sec w : door_in self s d sec w -> door_valid d sec -> VlDoor.direction d = 0 ->
  tic_ok self s d sec w (door_wait self w).
Proof.
  intros Hin Hv Hd. pose proof (dv_count _ _ Hv (or_introl Hd)) as Hc. pose proof (dv_type0 _ _ Hv Hd) as Ht.
  pose proof (dv_range _ _ Hv) as Hr. unfold door_wait. rewrite (get_door_at self d) by apply Hin. cbn [obind].
  pose proof (tic_still _ _ _ _ _ Hin) as Es. destruct d as [th ty sct top spd dir tw cnt]. cbn in Hd, Hc, Ht, Hr |- *. subst dir.
  rewrite countdown by done. unfold truth. destruct (cnt - 1 =? 0) eqn:Et; cbn [negb]; breflect.
  - destruct Ht as [-> |[-> | ->]]; cbn;
      (eapply tic_on; [door_at|exact Es|done|done|done|eapply door_valid_cycle; [|exact Hv|..]; cbn; done || lia|]);
      unfold door_left, raises; cbn; unf; lia.
  - eapply tic_on; [door_at|exact Es|done|done|done|eapply door_valid_cycle; [|exact Hv|..]; cbn; done || lia|].
    unfold door_left, raises. cbn. lia.
Qed.

Lemma door_first_wait_tic self s d sec w : door_in self s d sec w -> door_valid d sec -> VlDoor.direction d = 2 ->
  tic_ok self s d sec w (door_first_wait self w).
Proof.
  intros Hin Hv Hd. pose proof (dv_count _ _ Hv (or_intror Hd)) as Hc. pose proof (dv_type2 _ _ Hv Hd) as Ht.
  unfold door_first_wait. rewrite (get_door_at self d) by apply Hin. cbn [obind].
  pose proof (tic_still _ _ _ _ _ Hin) as Es. destruct d as [th ty sct top spd dir tw cnt]. cbn in Hd, Hc, Ht |- *. subst dir ty.
  rewrite countdown by done. unfold truth. destruct (cnt - 1 =? 0) eqn:Et; cbn [negb]; breflect; cbn;
    (eapply tic_on; [door_at|exact Es|done|done|done|eapply door_valid_cycle; [|exact Hv|..]; cbn; done || lia|]);
    unfold door_left, raises; cbn; unf; lia.
Qed.

(** A door that is removed in this tic. *)
Lemma tic_remove self s d sec w sec1 w1 w2 w' :
  door_in self s d sec1 w1 -> sectors (gm w1) = <[s := sec1]> (sectors (gm w)) -> door_valid d sec1 ->
  Sector.floorheight sec1 = Sector.floorheight sec -> remove_door self d w1 = Ret w2 -> gm w' = gm w2 ->
  (unobstructed -> raises d -> Sector.ceilingheight sec1 = Sector.floorheight sec1) -> tic_ok self s d sec w (Ret w').
Proof.
  intros Hin Es Hv Ef Hr Ew Hp. destruct (remove_door_run self s d sec1 w1 Hin) as (w3 & E3 & Hin3 & Es3).
  rewrite Hr in E3. injection E3 as <-.
  exists w', (d <| VlDoor.thinker ::= fun t => t <| Thinker.function := removed |> |>), (sec1 <| Sector.specialdata := 0 |>).
  split; [done|]. split.
  - split_and!; [| | |done|done|done|done|by right].
    + destruct Hin3 as [B1 B2 B3]. rewrite <- Ew in B1, B3. by split.
    + destruct Hv. by split.
    + rewrite Ew, Es3, Es. apply list_insert_insert_eq.
  - intros Hu Hra. right. split; [done|]. cbn. by apply Hp.
Qed.

Lemma door_down_tic self s d sec w : door_in self s d sec w -> door_valid d sec -> VlDoor.direction d = -1 ->
  tic_ok self s d sec w (door_down self w).
Proof.
  intros Hin Hv Hd. unfold door_down. rewrite (get_door_at self d) by apply Hin. cbn [obind].
  rewrite (di_sector _ _ _ _ _ Hin), (get_sector_at s sec) by apply Hin. cbn [obind]. rewrite <- (di_sector _ _ _ _ _ Hin), Hd.
  destruct (moved_door self s d sec w Hin Hv (-1) (Sector.floorheight sec)) as (res & h & w1 & E & Hin1 & Hv1 & Es1 & Hfree); [by left|].
  rewrite E. cbn [obind]. rewrite (get_door_at self d) by apply Hin1. cbn [obind]. set (sec1 := sec <| Sector.ceilingheight := h |>) in *.
  destruct (remove_door_run self s d sec1 w1 Hin1) as (w2 & Er & _ & _).
  destruct d as [th ty sct top spd dir tw cnt]. cbn in Hd. subst dir. destruct res.
  - eapply (tic_on _ _ _ _ _ sec1); [door_at|done|done|done|apply cycle_refl|done|]. intros Hu Hr. split; [done|].
    destruct (Hfree Hu) as [[_ Hf]|[? _]]; [|done]. unfold door_left. cbn in Hf |- *. lia.
  - cbn [VlDoor.type]. destruct (_ || _).
    + eapply (tic_on _ _ _ _ _ sec1); [door_at|done|done|done|apply cycle_refl|done|]. intros Hu Hr.
      by destruct (Hfree Hu) as [[? _]|[? _]].
    + eapply (tic_on _ _ _ _ _ sec1); [door_at|done|done|done|done| |].
      * eapply door_valid_cycle; [|exact Hv1|..]; cbn; done || lia.
      * intros Hu Hr. by destruct (Hfree Hu) as [[? _]|[? _]].
  - assert (Hc : unobstructed -> Sector.ceilingheight sec1 = Sector.floorheight sec1).
    { intros Hu. by destruct (Hfree Hu) as [[? _]|[_ ->]]. }
    cbn [VlDoor.type]. destruct ((ty =? vld_blazeRaise) || (ty =? vld_blazeClose)) eqn:T1; [rewrite Er; cbn [obind]|
      destruct ((ty =? vld_normal) || (ty =? vld_close)) eqn:T2; [rewrite Er|destruct (ty =? vld_close30ThenOpen) eqn:T3]].
    + eapply (tic_remove _ _ _ _ _ sec1 w1 w2); try done. auto.
    + eapply (tic_remove _ _ _ _ _ sec1 w1 w2); try done. auto.
    + breflect. subst ty. eapply (tic_on _ _ _ _ _ sec1); [door_at|done|done|done|done| |].
      * eapply door_valid_cycle; [|exact Hv1|..]; cbn; unf; unfold TICRATE; lia || done || (intros; auto).
      * unfold raises. cbn. unf. lia.
    + eapply (tic_on _ _ _ _ _ sec1); [door_at|done|done|done|apply cycle_refl|done|].
      intros _ [[Ht|Ht] _]; cbn in Ht; subst ty; done.
Qed.

Lemma door_up_tic self s d sec w : door_in self s d sec w -> door_valid d sec -> VlDoor.direction d = 1 ->
  tic_ok self s d sec w (door_up self w).
Proof.
  intros Hin Hv Hd. unfold door_up. rewrite (get_door_at self d) by apply Hin. cbn [obind]. rewrite Hd.
  destruct (moved_door self s d sec w Hin Hv 1 (VlDoor.topheight d)) as (res & h & w1 & E & Hin1 & Hv1 & Es1 & Hfree); [by right|].
  rewrite E. cbn [obind]. rewrite (get_door_at self d) by apply Hin1. cbn [obind]. set (sec1 := sec <| Sector.ceilingheight := h |>) in *.
  destruct (remove_door_run self s d sec1 w1 Hin1) as (w2 & Er & _ & _).
  pose proof (dv_wait _ _ Hv) as Hw. pose proof (dv_range _ _ Hv) as Hr0.
  destruct d as [th ty sct top spd dir tw cnt]. cbn in Hd, Hw, Hr0. subst dir. destruct res.
  - eapply (tic_on _ _ _ _ _ sec1); [door_at|done|done|done|apply cycle_refl|done|]. intros Hu Hr. split; [done|].
    destruct (Hfree Hu) as [[_ Hf]|[? _]]; [|done]. unfold door_left. cbn in Hf |- *. lia.
  - eapply (tic_on _ _ _ _ _ sec1); [door_at|done|done|done|apply cycle_refl|done|].
    intros Hu Hr. by destruct (Hfree Hu) as [[? _]|[? _]].
  - cbn [VlDoor.type]. destruct ((ty =? vld_blazeRaise) || (ty =? vld_normal)) eqn:T1; [|destruct ((ty =? vld_close30ThenOpen) || (ty =? vld_blazeOpen) || (ty =? vld_open)) eqn:T2; [rewrite Er|]].
    + assert (Hty : ty = vld_blazeRaise \/ ty = vld_normal) by (breflect; destruct T1; breflect; auto).
      eapply (tic_on _ _ _ _ _ sec1); [door_at|done|done|done|done| |].
      * eapply door_valid_cycle; [|exact Hv1|..]; cbn; done || (intros; intuition) || lia.
      * intros Hu Hr. split; [split; [cbn; tauto|cbn; auto]|]. unfold door_left. cbn. lia.
    + eapply (tic_remove _ _ _ _ _ sec1 w1 w2); try done.
      intros Hu [[Ht|Ht] _]; cbn in Ht; subst ty; done.
    + eapply (tic_on _ _ _ _ _ sec1); [door_at|done|done|done|apply cycle_refl|done|].
      intros _ [[Ht|Ht] _]; cbn in Ht; subst ty; done.
Qed.

Lemma door_tic_run self s d sec w : door_in self s d sec w -> door_valid d sec ->
  tic_ok self s d sec w (T_VerticalDoor self w).
Proof.
  intros Hin Hv. unfold T_VerticalDoor. rewrite (get_door_at self d) by apply Hin. cbn [obind].
  destruct (VlDoor.direction d =? 0) eqn:D0; breflect; [by apply door_wait_tic|].
  destruct (VlDoor.direction d =? 2) eqn:D2; breflect; [by apply door_first_wait_tic|].
  destruct (VlDoor.direction d =? -1) eqn:D3; breflect; [by apply door_down_tic|].
  destruct (VlDoor.direction d =? 1) eqn:D1; breflect; [by apply door_up_tic|].
  eapply (tic_on _ _ _ _ _ sec d); try done; [symmetry; by apply list_insert_id, Hin|].
  intros _ [_ [?|[?|?]]]; lia.
Qed.

(** Nothing but the door and its sector changes. *)
Lemma framed_remove_door self s d w : thing_at self (gm w) = Some (TDoor d) -> VlDoor.sector d = Z.of_nat s ->
  framed self s w (remove_door self d w).
Proof.
  intros Hat Hs. unfold remove_door. rewrite Hs. apply framed_bind; [apply framed_specialdata|]. intros w1 E1.
  apply (framed_remove self s w1 (TDoor d)); [|done]. revert E1. unfold on_game, set_specialdata.
  rewrite (proj2 (Z.ltb_ge _ _)) by lia. destruct (sectors (gm w) !! _); [|done]. cbn [obind]. intros E1. by inv_ret.
Qed.

Lemma T_VerticalDoor_frame self s d w : thing_at self (gm w) = Some (TDoor d) -> VlDoor.sector d = Z.of_nat s ->
  framed self s w (T_VerticalDoor self w).
Proof.
  assert (Hput : forall w1 d', framed self s w1 (Ret (put_door self d' w1))) by (intros; by apply framed_ret, frame_put).
  assert (Hsnd : forall w1 d1 d' snd, framed self s w1 (Ret (door_sound d1 snd (put_door self d' w1)))).
  { intros. by apply framed_ret, (frame_game _ _ _ (put_door self d' w1)), frame_put. }
  intros Hat Hs. unfold T_VerticalDoor. rewrite (get_door_at self d) by done. cbn [obind].
  destruct (VlDoor.direction d =? 0); [|destruct (VlDoor.direction d =? 2); [|destruct (VlDoor.direction d =? -1); [|destruct (VlDoor.direction d =? 1)]]].
  - unfold door_wait. rewrite (get_door_at self d) by done. cbn [obind]. split_ifs; auto.
  - unfold door_first_wait. rewrite (get_door_at self d) by done. cbn [obind]. split_ifs; auto.
  - unfold door_down. rewrite (get_door_at self d) by done. cbn [obind]. apply framed_pure. intros sec _. rewrite Hs.
    apply framed_move. intros res w1 E. rewrite (get_door_at self d) by (by eapply T_MovePlane_movers). cbn [obind].
    assert (Hr : framed self s w1 (remove_door self d w1)) by (apply framed_remove_door; [by eapply T_MovePlane_movers|done]).
    destruct res; split_ifs; auto; try (by apply framed_ret).
    apply framed_bind; [done|]. intros w2 _. apply framed_ret, frame_sound.
  - unfold door_up. rewrite (get_door_at self d) by done. cbn [obind]. rewrite Hs.
    apply framed_move. intros res w1 E. rewrite (get_door_at self d) by (by eapply T_MovePlane_movers). cbn [obind].
    assert (Hr : framed self s w1 (remove_door self d w1)) by (apply framed_remove_door; [by eapply T_MovePlane_movers|done]).
    destruct res; split_ifs; auto; by apply framed_ret.
  - by apply framed_ret.
Qed.

(** ** Starting doors *)

(** The height a door opens to, and when there is a way to it. *)
Definition open_top (type : Z) (s : nat) (sec : Sector.doomsector_t) (g : game) : Z :=
  if type =? vld_close30ThenOpen then Sector.ceilingheight sec
  else zmin INT_MAX (Sector.ceilingheight <$> neighbours g s) - 4 * FRACUNIT.
Definition door_way (type : Z) (s : nat) (sec : Sector.doomsector_t) (g : game) : Prop :=
  Sector.floorheight sec <= Sector.ceilingheight sec <= open_top type s sec g /\
  INT_MIN + 4 * VDOORSPEED <= Sector.floorheight sec /\ open_top type s sec g <= INT_MAX - 4 * VDOORSPEED.
(** The types that lines start. *)
Definition line_door (type : Z) : Prop := 0 <= type <= 7 /\ type <> vld_raiseIn5Mins.

Lemma open_height_run s sec w : level_ok (gm w) -> sectors (gm w) !! s = Some sec ->
  let top := zmin INT_MAX (Sector.ceilingheight <$> neighbours (gm w) s) - 4 * FRACUNIT in
  INT_MIN <= top <= INT_MAX -> open_height s w = Ret top.
Proof.
  intros Hl E top Ht. unfold open_height, P_FindLowestCeilingSurrounding. rewrite (around_run _ Hl s sec), run_each_min by done. cbn [obind].
  f_equal. unfold top, INT_MIN, INT_MAX in *. apply wraps_id; [lia|in_range].
Qed.

Lemma door_setup_valid type s sec d w : line_door type -> level_ok (gm w) -> sectors (gm w) !! s = Some sec -> door_way type s sec (gm w) ->
  VlDoor.type d = type -> VlDoor.topwait d = VDOORWAIT -> VlDoor.speed d = VDOORSPEED ->
  exists d' snd, door_setup type s d w = Ret (d', snd) /\ door_valid d' sec /\ VlDoor.thinker d' = VlDoor.thinker d /\
    VlDoor.sector d' = VlDoor.sector d /\ VlDoor.type d' = type /\ VlDoor.topheight d' = open_top type s sec (gm w) /\
    (VlDoor.direction d' = 1 \/ VlDoor.direction d' = -1).
Proof.
  intros [Ht Hn] Hl E (Hr & Hlo & Hhi) Hty Htw Hsp. unfold door_setup. rewrite (get_sector_at s sec) by done. cbn [obind].
  pose proof (open_height_run s sec w Hl E) as Ho. cbn zeta in Ho.
  assert (Hcase : type = 0 \/ type = 1 \/ type = 2 \/ type = 3 \/ type = 5 \/ type = 6 \/ type = 7) by (unf; lia). clear Ht Hn.
  unfold open_top in *. set (top := zmin _ _ - _) in *. clearbody top. unfold VDOORSPEED, VDOORWAIT, FRACUNIT in *.
  destruct Hcase as [->|[->|[->|[->|[->|[->| ->]]]]]]; cbn [Z.eqb Pos.eqb vld_normal vld_close30ThenOpen vld_close vld_open
    vld_blazeRaise vld_blazeOpen vld_blazeClose orb] in *; rewrite ?Ho by (unf; lia); cbn [obind];
    (eexists _, _; split; [reflexivity|]; split_and!; try done; [split; cbn; unf; try lia|cbn; auto]).
Qed.

Lemma start_door_run type s sec rtn w : line_door type -> sectors (gm w) !! s = Some sec -> door_way type s sec (gm w) ->
  if truth (Sector.specialdata sec) then start_door type s (rtn, w) = Ret (rtn, w)
  else level_ok (gm w) -> exists self d w', start_door type s (rtn, w) = Ret (1, w') /\ starts self s (TDoor d) sec w w' /\
    VlDoor.sector d = Z.of_nat s /\ door_valid d (sec <| Sector.specialdata := self |>) /\ VlDoor.type d = type /\
    VlDoor.topheight d = open_top type s sec (gm w) /\ (VlDoor.direction d = 1 \/ VlDoor.direction d = -1) /\
    Thinker.function (VlDoor.thinker d) = fn_addr GameTypes.T_VerticalDoor /\
    activeplats (gm w') = activeplats (gm w) /\ activeceilings (gm w') = activeceilings (gm w).
Proof.
  intros Ht E Hway. unfold start_door. rewrite (get_sector_at s sec) by done. cbn [obind].
  destruct (truth (Sector.specialdata sec)); [done|]. intros Hl. unfold new_door.
  destruct (heap_fresh w) as (self & -> & Hnz & Hfr). cbn [obind].
  unfold on_game. cbn [gm update]. unfold set_specialdata at 1. rewrite (proj2 (Z.ltb_ge _ _)), Nat2Z.id by lia.
  cbn [sectors P_AddThinker update]. rewrite E. cbn [obind]. set (sec' := sec <| Sector.specialdata := self |>).
  lazymatch goal with |- context [door_setup _ _ ?x ?y] => set (d0 := x); set (w1 := y) end.
  assert (Es : sectors (gm w1) !! s = Some sec') by (cbn; by rewrite list_lookup_insert_eq by (by eapply lookup_lt_Some)).
  assert (Etop : open_top type s sec' (gm w1) = open_top type s sec (gm w)).
  { unfold open_top. destruct (type =? vld_close30ThenOpen); [done|].
    change (gm w1) with ((gm w) <| thinkers := thinkers (gm w) ++ [(self, TDoor (raw_door self))] |> <| sectors ::= <[s := sec']> |>).
    by rewrite (neighbours_update Sector.ceilingheight (gm w) s sec sec'). }
  destruct (door_setup_valid type s sec' d0 w1 Ht) as (d & snd & -> & Hv & P1 & P2 & P3 & P4 & P5); [by eapply level_ok_update|done| |done..|].
  { unfold door_way in *. by rewrite Etop. }
  cbn [obind]. eexists self, d, _. split; [reflexivity|]. rewrite P4, Etop.
  assert (Eg : forall w2, gm (match snd with Some o => door_sound d o w2 | None => w2 end) = gm w2) by (by destruct snd).
  split_and!; try done; [|by rewrite P1|by cbn; rewrite Eg..].
  eapply (starts_intro _ _ _ (TDoor (raw_door self))); try done; cbn [gm update put_door]; by rewrite Eg.
Qed.

(** [n] tics in a row. *)
Fixpoint door_tics (n : nat) (self : Z) (w : world) : outcome world :=
  match n with
  | O => Ret w
  | S n => let* w := T_VerticalDoor self w in door_tics n self w
  end.

(** ** The claims *)

(** one tic of a door goes through and keeps it a valid door: the
    ceiling stays between the floor and the height the door opens to, no
    other sector changes, and either the door goes on, or its thinker is
    marked for removal and its sector is free again. *)
Theorem T_VerticalDoor_correct self s d sec w : door_in self s d sec w -> door_valid d sec ->
  exists w' d' sec', T_VerticalDoor self w = Ret w' /\ door_tic self s d sec w w' d' sec'.
Proof.
  intros Hin Hv. destruct (door_tic_run self s d sec w Hin Hv) as (w' & d' & sec' & E & Ht & _). by exists w', d', sec'.
Qed.

(** C26: a door that opens and closes again ends closed: when nothing is ever
    in its way, it is removed after a bounded number of tics, with its ceiling
    on its floor and its sector free, and no other sector has changed. *)
Theorem door_closes self s d sec w : unobstructed -> door_in self s d sec w -> door_valid d sec -> raises d ->
  exists n w' d' sec', Z.of_nat n <= door_left d sec /\ door_tics n self w = Ret w' /\ door_in self s d' sec' w' /\
    Thinker.function (VlDoor.thinker d') = removed /\ Sector.specialdata sec' = 0 /\
    Sector.ceilingheight sec' = Sector.floorheight sec /\ Sector.floorheight sec' = Sector.floorheight sec /\
    sectors (gm w') = <[s := sec']> (sectors (gm w)).
Proof.
  intros Hu. remember (Z.to_nat (door_left d sec)) as m eqn:Em. revert d sec w Em.
  induction m as [m IH] using lt_wf_ind. intros d sec w -> Hin Hv Hr. pose proof (door_left_pos d sec Hv Hr) as Hpos.
  destruct (door_tic_run self s d sec w Hin Hv) as (w1 & d1 & sec1 & E & Ht & Hp).
  destruct Ht as (Hin1 & Hv1 & Es1 & Ef1 & _). destruct (Hp Hu Hr) as [(Hr1 & Hlt & _)|[[Hg1 Hg2] Hc]].
  - pose proof (door_left_pos d1 sec1 Hv1 Hr1) as Hpos1.
    destruct (IH (Z.to_nat (door_left d1 sec1)) ltac:(lia) d1 sec1 w1 eq_refl Hin1 Hv1 Hr1)
      as (n & w' & d' & sec' & Hn & E' & Hin' & H1 & H2 & H3 & H4 & Es').
    exists (S n), w', d', sec'. split_and!; [lia|cbn [door_tics]; by rewrite E|done|done|done|congruence|congruence|].
    rewrite Es', Es1. apply list_insert_insert_eq.
  - exists 1%nat, w1, d1, sec1. split_and!; [lia|cbn [door_tics]; by rewrite E|done|done|done|congruence|congruence|done].
Qed.
End facts.

(** ** Locks and doors of the level *)
Section more.
Context {A : Arch} {im : Image} {C : Crush} {laws : CrushLaws} {H : Heap} {hlaws : HeapLaws} {msgs : Messages}.

(** EV_DoDoor leaves a sector alone that something already moves. In
    any other it starts one valid door that the sector names and that runs
    T_VerticalDoor, towards the height that the type says; nothing else of the
    level changes. *)
Theorem start_door_correct type s sec rtn w : line_door type -> sectors (gm w) !! s = Some sec -> door_way type s sec (gm w) ->
  if truth (Sector.specialdata sec) then start_door type s (rtn, w) = Ret (rtn, w)
  else level_ok (gm w) -> exists self d w', start_door type s (rtn, w) = Ret (1, w') /\ starts self s (TDoor d) sec w w' /\
    VlDoor.sector d = Z.of_nat s /\ door_valid d (sec <| Sector.specialdata := self |>) /\ VlDoor.type d = type /\
    VlDoor.topheight d = open_top type s sec (gm w) /\ (VlDoor.direction d = 1 \/ VlDoor.direction d = -1) /\
    Thinker.function (VlDoor.thinker d) = fn_addr GameTypes.T_VerticalDoor /\
    activeplats (gm w') = activeplats (gm w) /\ activeceilings (gm w') = activeceilings (gm w).
Proof. apply start_door_run. Qed.

(** a locked door stays shut for who lacks both its card and its skull
    key: nothing of the level changes but the message of the player, and a
    sound is started. With either of the two the door is operated as an
    unlocked one, and an object that is no player never operates it. *)
Theorem EV_DoLockedDoor_correct li type mo w :
  match Mobj.player mo with
  | None => EV_DoLockedDoor li type mo w = Ret (0, w)
  | Some i =>
      forall p card skull msg, players (gm w) !! Z.to_nat i = Some p -> 0 <= i ->
      lock_of locked_doors (Line.special li) = Some (card, skull, msg) -> length (Player.cards p) = NUMCARDS ->
      EV_DoLockedDoor li type mo w =
        if bool_decide (Player.cards p !! Z.to_nat card = Some 0 /\ Player.cards p !! Z.to_nat skull = Some 0)
        then Ret (0, refuse i p msg w) else EV_DoDoor li type w
  end.
Proof.
  unfold EV_DoLockedDoor. destruct (Mobj.player mo) as [i|]; [|done]. intros p card skull msg Hp Hi Hl Hlen. rewrite Hl.
  unfold get_player. rewrite (proj2 (Z.ltb_ge _ _)), Hp by lia. cbn [of_option obind].
  assert (Hc : 0 <= card < 6 /\ 0 <= skull < 6).
  { unfold lock_of, locked_doors in Hl. repeat (rewrite filter_cons in Hl; destruct (decide _) in Hl; [by inversion Hl|]).
    done. }
  unfold lacks, get. rewrite !(proj2 (Z.ltb_ge _ 0)) by lia. unfold NUMCARDS in Hlen.
  destruct (lookup_lt_is_Some_2 (Player.cards p) (Z.to_nat card)) as [x Ex]; [lia|].
  destruct (lookup_lt_is_Some_2 (Player.cards p) (Z.to_nat skull)) as [y Ey]; [lia|].
  rewrite Ex, Ey. cbn [of_option obind]. unfold truth. destruct (x =? 0) eqn:Ex0; cbn [negb obind]; breflect.
  - subst x. destruct (y =? 0) eqn:Ey0; cbn [negb]; breflect.
    + subst y. by rewrite bool_decide_eq_true_2.
    + rewrite bool_decide_eq_false_2; [done|]. intros [_ E]. congruence.
  - rewrite bool_decide_eq_false_2; [done|]. intros [E _]. congruence.
Qed.

(** A door that closes after thirty seconds is never told how far it
    opens: when something blocks it, it opens towards whatever its memory
    held as its height. *)
Theorem closing_door_is_unguided s sec w : sectors (gm w) !! s = Some sec ->
  exists self w', heap_malloc w = Ret self /\ P_SpawnDoorCloseIn30 s w = Ret w' /\
    exists d, thing_at self (gm w') = Some (TDoor d) /\ VlDoor.topheight d = VlDoor.topheight (raw_door self) /\
    VlDoor.topwait d = VlDoor.topwait (raw_door self) /\ VlDoor.type d = vld_normal /\ VlDoor.direction d = 0 /\
    VlDoor.topcountdown d = 1050.
Proof.
  intros E. destruct (heap_fresh w) as (self & Em & Hnz & Hfr). unfold P_SpawnDoorCloseIn30, new_door. rewrite Em.
  cbn [obind]. set (w1 := w <| gm ::= _ |>). rewrite (specialdata_run s sec self w1) by done. cbn [obind].
  set (d0 := (raw_door self) <| VlDoor.thinker ::= _ |> <| VlDoor.sector := _ |>). set (sec1 := sec <| Sector.specialdata := self |>).
  rewrite (upd_sector_run s sec1) by (by eapply set_sector_at). cbn [obind]. set (w2 := set_sector _ _ _).
  set (d := d0 <| VlDoor.direction := 0 |> <| VlDoor.type := vld_normal |> <| VlDoor.speed := VDOORSPEED |> <| VlDoor.topcountdown := 30 * TICRATE |>).
  exists self, (put_door self d w2). split; [done|]. split; [reflexivity|]. exists d. split; [|by split_and!].
  apply (thing_at_put_same _ _ _ (TDoor (raw_door self))).
  change (thing_at self (P_AddThinker self (TDoor (raw_door self)) (gm w)) = Some (TDoor (raw_door self))). by apply thing_at_add.
Qed.
End more.

(** ** Witnesses *)
Section witness.
Import Demo.
#[local] Instance no_messages : Messages := fun _ => 7.
Definition vault : Sector.doomsector_t := (hall 0 (2 * FRACUNIT)) <| Sector.specialdata := 1 |>.
Definition vault_door : VlDoor.vldoor_t :=
  VlDoor.mk (Thinker.mk 77 77 103) vld_normal 1 (9 * FRACUNIT) VDOORSPEED 1 3 77.
Definition vault_world : world :=
  mk_world (empty_game <| sectors := [hall 0 (60 * FRACUNIT); vault] |> <| thinkers := [(1, TDoor vault_door)] |>) (mk_rnd 0 0) [].
Lemma vault_in : door_in 1 1 vault_door vault vault_world.
Proof. by split. Qed.
Lemma vault_valid : door_valid vault_door vault.
Proof. split; unfold vault, vault_door, hall; cbn; unf; unfold VDOORSPEED, FRACUNIT; lia. Qed.

Lemma T_VerticalDoor_correct_witness : exists w' d' sec',
  T_VerticalDoor 1 vault_world = Ret w' /\ door_tic 1 1 vault_door vault vault_world w' d' sec'.
Proof. apply (T_VerticalDoor_correct 1 1 vault_door vault vault_world vault_in vault_valid). Defined.

(** A level in which nothing stands. *)
Definition open_air : Crush := fun _ _ w => (false, w).
Lemma open_air_laws {A : Arch} {im : Image} : CrushLaws (C := open_air).
Proof. split; try done. intros s c w. exists []. by rewrite app_nil_r. Qed.

Lemma door_closes_witness :
  exists n w' d' sec', Z.of_nat n <= door_left vault_door vault /\ door_tics (C := open_air) n 1 vault_world = Ret w' /\
    door_in 1 1 d' sec' w' /\ Sector.ceilingheight sec' = 0.
Proof.
  destruct (door_closes (C := open_air) (laws := open_air_laws) 1 1 vault_door vault vault_world) as (n & w' & d' & sec' & Hn & E & Hin & _ & _ & Hc & _).
  - done.
  - exact vault_in.
  - exact vault_valid.
  - split; [by left|by left].
  - exists n, w', d', sec'. split; [exact Hn|]. split; [exact E|]. split; [exact Hin|exact Hc].
Defined.

(** A player with the red skull key before a red and a blue door. *)
Definition key_player : Player.player_t :=
  Player.mk 1 0 (TicCmd.mk 0 0 0 0 0 0 0 0 0 0) 0 0 0 0 1 0 0 [0; 0; 0; 0; 0; 0] [0; 0; 0; 0; 0; 1] 0 [0; 0; 0; 0] 0 0
    [1; 1; 0; 0; 0; 0; 0; 0; 0] [0; 48; 0; 0] [200; 50; 300; 50] 0 0 0 0 0 0 0 0 0 0 0 0 0 0
    [PspDef.mk None 0 0 0; PspDef.mk None 0 0 0] 0.
Definition key_world : world := vault_world <| gm ::= fun g => g <| players := [key_player] |> |>.
Definition key_mobj : Mobj.mobj_t :=
  Mobj.mk (Thinker.mk 0 0 0) 0 0 0 0 0 0 0 0 0 0 0 0 0 0 0 0 0 0 0 0 0 0 0 0 0 0 0 0 0 0 (Some 0) 0 (MapThing.mk 0 0 0 0 0) 0.
Definition key_line (special : Z) : Line.line_t := Line.mk ML_TWOSIDED special 5 [0; 1] (Some 0%nat) (Some 1%nat).

Lemma EV_DoLockedDoor_correct_witness :
  EV_DoLockedDoor (key_line 99) vld_blazeOpen key_mobj key_world = Ret (0, refuse 0 key_player "PD_BLUEO" key_world) /\
  EV_DoLockedDoor (key_line 134) vld_blazeOpen key_mobj key_world = EV_DoDoor (key_line 134) vld_blazeOpen key_world.
Proof.
  split.
  - exact (EV_DoLockedDoor_correct (key_line 99) vld_blazeOpen key_mobj key_world key_player it_bluecard it_blueskull "PD_BLUEO"
      eq_refl ltac:(lia) eq_refl eq_refl).
  - exact (EV_DoLockedDoor_correct (key_line 134) vld_blazeOpen key_mobj key_world key_player it_redcard it_redskull "PD_REDO"
      eq_refl ltac:(lia) eq_refl eq_refl).
Defined.

Lemma closing_door_is_unguided_witness : exists w', P_SpawnDoorCloseIn30 0 vault_world = Ret w' /\
  exists d, thing_at 2 (gm w') = Some (TDoor d) /\ VlDoor.topheight d = 77.
Proof.
  destruct (closing_door_is_unguided 0 (hall 0 (60 * FRACUNIT)) vault_world eq_refl) as (self & w' & Hm & E & d & Hat & Htop & _).
  vm_compute in Hm. injection Hm as <-. exists w'. split; [exact E|]. exists d. split; [exact Hat|exact Htop].
Defined.

(** The middle room is a closed door. *)
Definition shut_room : Sector.doomsector_t := (room 65536 3 [0%nat; 1%nat]) <| Sector.ceilingheight := 65536 |>.
Definition shut_world : world := mk_world (rooms <| thinkers := [] |> <| sectors ::= <[1%nat := shut_room]> |>) (mk_rnd 0 0) [].
Lemma start_door_correct_witness : exists self d w', start_door vld_normal 1 (0, shut_world) = Ret (1, w') /\
  starts self 1 (TDoor d) shut_room shut_world w' /\ VlDoor.topheight d = 100 * FRACUNIT - 4 * FRACUNIT.
Proof.
  destruct (start_door_correct vld_normal 1 shut_room 0 shut_world) as (self & d & w' & E & Hst & _ & _ & _ & Htop & _).
  - unfold line_door. unf. lia.
  - reflexivity.
  - split; [vm_compute; split; discriminate|]. split; vm_compute; discriminate.
  - eapply (level_ok_update rooms 1 (room 65536 3 [0%nat; 1%nat]) shut_room []); [exact rooms_ok|reflexivity|reflexivity].
  - exists self, d, w'. split; [exact E|]. split; [exact Hst|exact Htop].
Defined.
End witness.
