(* ===== verification/Ceilings.v ===== *)
(** * Ceilings (src/commands/doom/p_ceilng.c) *)
From S2P Require Import Prelude MFixed MRandom GameTypes Thinkers SectorSearch MovePlane Frame.
#[local] Open Scope doom_scope.

(** [ceiling_e] *)
Definition lowerToFloor : Z := 0.
Definition raiseToHighest : Z := 1.
Definition lowerAndCrush : Z := 2.
Definition crushAndRaise : Z := 3.
Definition fastCrushAndRaise : Z := 4.
Definition silentCrushAndRaise : Z := 5.

Definition CEILSPEED : Z := FRACUNIT.

Section ceilings.
Context {A : Arch} {im : Image} {C : Crush} {H : Heap}.

Definition get_ceiling (self : Z) (w : world) : outcome Ceiling.ceiling_t :=
  match thing_at self (gm w) with Some (TCeiling c) => Ret c | _ => Undef end.
Definition put_ceiling (self : Z) (c : Ceiling.ceiling_t) (w : world) : world := w <| gm ::= put_thing self (TCeiling c) |>.
Definition ceiling_sound (c : Ceiling.ceiling_t) (s : sound) (w : world) : world := S_StartSound (Some (org_sector (Ceiling.sector c))) s w.

(** A ceiling without a slot stays as it is. *)
Definition P_RemoveActiveCeiling (self : Z) (w : world) : outcome world :=
  match clear_slot (activeceilings (gm w)) self with
  | None => Ret w
  | Some l =>
      let* c := get_ceiling self w in
      let* w := on_game (set_specialdata (Ceiling.sector c) 0) w in
      let* w := on_game (P_RemoveThinker self) w in
      Ret (w <| gm ::= fun g => g <| activeceilings := l |> |>)
  end.

(** [if (!(leveltime&7)) ...]: the noise of all but the silent one. *)
Definition ceiling_noise (c : Ceiling.ceiling_t) (w : world) : world :=
  if negb (has_flag (leveltime (gm w)) 7) && negb (Ceiling.type c =? silentCrushAndRaise)
  then ceiling_sound c sfx_stnmov w else w.

Definition ceiling_up (self : Z) (w : world) : outcome world :=
  let* c := get_ceiling self w in
  let* '(res, w) := T_MovePlane (Ceiling.sector c) (Ceiling.speed c) (Ceiling.topheight c) 0 1 (Ceiling.direction c) w in
  let* c := get_ceiling self w in
  let w := ceiling_noise c w in
  match res with
  | pastdest =>
      if Ceiling.type c =? raiseToHighest then P_RemoveActiveCeiling self w
      else if Ceiling.type c =? silentCrushAndRaise then
        Ret (put_ceiling self (c <| Ceiling.direction := -1 |>) (ceiling_sound c sfx_pstop w))
      else if (Ceiling.type c =? fastCrushAndRaise) || (Ceiling.type c =? crushAndRaise) then
        Ret (put_ceiling self (c <| Ceiling.direction := -1 |>) w)
      else Ret w
  | _ => Ret w
  end.

Definition ceiling_down (self : Z) (w : world) : outcome world :=
  let* c := get_ceiling self w in
  let* '(res, w) := T_MovePlane (Ceiling.sector c) (Ceiling.speed c) (Ceiling.bottomheight c) (Ceiling.crush c) 1 (Ceiling.direction c) w in
  let* c := get_ceiling self w in
  let w := ceiling_noise c w in
  match res with
  | pastdest =>
      if Ceiling.type c =? silentCrushAndRaise then
        Ret (put_ceiling self (c <| Ceiling.speed := CEILSPEED |> <| Ceiling.direction := 1 |>) (ceiling_sound c sfx_pstop w))
      else if Ceiling.type c =? crushAndRaise then
        Ret (put_ceiling self (c <| Ceiling.speed := CEILSPEED |> <| Ceiling.direction := 1 |>) w)
      else if Ceiling.type c =? fastCrushAndRaise then Ret (put_ceiling self (c <| Ceiling.direction := 1 |>) w)
      else if (Ceiling.type c =? lowerAndCrush) || (Ceiling.type c =? lowerToFloor) then P_RemoveActiveCeiling self w
      else Ret w
  | crushed =>
      if (Ceiling.type c =? silentCrushAndRaise) || (Ceiling.type c =? crushAndRaise) || (Ceiling.type c =? lowerAndCrush)
      then Ret (put_ceiling self (c <| Ceiling.speed := CEILSPEED ÷ 8 |>) w)
      else Ret w
  | ok => Ret w
  end.

Definition T_MoveCeiling (self : Z) (w : world) : outcome world :=
  let* c := get_ceiling self w in
  if Ceiling.direction c =? 0 then Ret w
  else if Ceiling.direction c =? 1 then ceiling_up self w
  else if Ceiling.direction c =? -1 then ceiling_down self w
  else Ret w.

(** ** Stasis *)
Definition activate_ceiling (tag : Z) (c : Ceiling.ceiling_t) : option Ceiling.ceiling_t :=
  if (Ceiling.tag c =? tag) && (Ceiling.direction c =? 0)
  then Some (c <| Ceiling.direction := Ceiling.olddirection c |> <| Ceiling.thinker ::= set_function GameTypes.T_MoveCeiling |>)
  else None.
Definition P_ActivateInStasisCeiling (li : Line.line_t) (w : world) : outcome world :=
  each_slot get_ceiling put_ceiling (activate_ceiling (Line.tag li)) (activeceilings (gm w)) w.

Definition stop_ceiling (tag : Z) (c : Ceiling.ceiling_t) : option Ceiling.ceiling_t :=
  if (Ceiling.tag c =? tag) && negb (Ceiling.direction c =? 0)
  then Some (c <| Ceiling.olddirection := Ceiling.direction c |> <| Ceiling.thinker ::= fun t => t <| Thinker.function := 0 |> |>
               <| Ceiling.direction := 0 |>)
  else None.
(** [rtn]: whether a slot has a ceiling that the loop stops. *)
Definition stops_some (tag : Z) (w : world) : bool :=
  existsb (fun a => negb (a =? 0) && match get_ceiling a w with
                                     | Ret c => match stop_ceiling tag c with Some _ => true | None => false end
                                     | _ => false
                                     end) (activeceilings (gm w)).
Definition EV_CeilingCrushStop (li : Line.line_t) (w : world) : outcome (Z * world) :=
  let* w' := each_slot get_ceiling put_ceiling (stop_ceiling (Line.tag li)) (activeceilings (gm w)) w in
  Ret (of_bool (stops_some (Line.tag li) w), w').

(** ** Starting *)

(** The switch of [EV_DoCeiling]. *)
Definition ceiling_setup (type : Z) (secnum : nat) (c : Ceiling.ceiling_t) (w : world) : outcome Ceiling.ceiling_t :=
  let* sec := get_sector (Z.of_nat secnum) w in
  if type =? fastCrushAndRaise then
    Ret (c <| Ceiling.crush := 1 |> <| Ceiling.topheight := Sector.ceilingheight sec |>
           <| Ceiling.bottomheight := i32 (Sector.floorheight sec + 8 * FRACUNIT) |>
           <| Ceiling.direction := -1 |> <| Ceiling.speed := CEILSPEED * 2 |>)
  else if (type =? silentCrushAndRaise) || (type =? crushAndRaise) || (type =? lowerAndCrush) || (type =? lowerToFloor) then
    let c := if (type =? silentCrushAndRaise) || (type =? crushAndRaise)
             then c <| Ceiling.crush := 1 |> <| Ceiling.topheight := Sector.ceilingheight sec |> else c in
    let bottom := Sector.floorheight sec in
    let bottom := if negb (type =? lowerToFloor) then i32 (bottom + 8 * FRACUNIT) else bottom in
    Ret (c <| Ceiling.bottomheight := bottom |> <| Ceiling.direction := -1 |> <| Ceiling.speed := CEILSPEED |>)
  else if type =? raiseToHighest then
    let* top := P_FindHighestCeilingSurrounding (gm w) secnum in
    Ret (c <| Ceiling.topheight := top |> <| Ceiling.direction := 1 |> <| Ceiling.speed := CEILSPEED |>)
  else Ret c.

(** The body of the loop of [EV_DoCeiling]: with the result so far. *)
Definition start_ceiling (type : Z) (secnum : nat) (st : Z * world) : outcome (Z * world) :=
  let '(rtn, w) := st in
  let* sec := get_sector (Z.of_nat secnum) w in
  if truth (Sector.specialdata sec) then Ret (rtn, w)
  else
    let* self := heap_malloc w in
    let w := w <| gm ::= P_AddThinker self (TCeiling (raw_ceiling self)) |> in
    let* w := on_game (set_specialdata (Z.of_nat secnum) self) w in
    let c := (raw_ceiling self) <| Ceiling.thinker ::= set_function GameTypes.T_MoveCeiling |>
               <| Ceiling.sector := Z.of_nat secnum |> <| Ceiling.crush := 0 |> in
    let* c := ceiling_setup type secnum c w in
    let w := put_ceiling self (c <| Ceiling.tag := Sector.tag sec |> <| Ceiling.type := type |>) w in
    Ret (1, w <| gm ::= P_AddActiveCeiling self |>).

Definition EV_DoCeiling (li : Line.line_t) (type : Z) (w : world) : outcome (Z * world) :=
  let* w := (if (type =? fastCrushAndRaise) || (type =? silentCrushAndRaise) || (type =? crushAndRaise)
             then P_ActivateInStasisCeiling li w else Ret w) in
  for_tagged (fun st : Z * world => gm st.2) (S (length (sectors (gm w)))) (Line.tag li) (-1) (start_ceiling type) (0, w).
End ceilings.
