(* ===== verification/CeilingTheorems.v ===== *)
(** * Ceilings: the theorems *)
From S2P Require Import Prelude MFixed MRandom GameTypes Thinkers SectorSearch MovePlane Frame Ceilings.
#[local] Open Scope doom_scope.

(** The ceilings that go up at some time, and those that go down. *)
Definition goes_up (type : Z) : bool :=
  (type =? raiseToHighest) || (type =? crushAndRaise) || (type =? fastCrushAndRaise) || (type =? silentCrushAndRaise).
Definition goes_down (type : Z) : bool := negb (type =? raiseToHighest).
(** The crushers do both, for ever. *)
Definition crusher (type : Z) : bool := goes_up type && goes_down type.

(** A ceiling on its course. *)
Record ceiling_valid (c : Ceiling.ceiling_t) (sec : Sector.doomsector_t) : Prop := {
  cv_type : 0 <= Ceiling.type c <= 5;
  cv_dir : Ceiling.direction c = 0 \/ Ceiling.direction c = 1 /\ goes_up (Ceiling.type c) = true \/
           Ceiling.direction c = -1 /\ goes_down (Ceiling.type c) = true;
  cv_old : Ceiling.direction c = 0 -> Ceiling.olddirection c = 1 /\ goes_up (Ceiling.type c) = true \/
           Ceiling.olddirection c = -1 /\ goes_down (Ceiling.type c) = true;
  cv_low : goes_down (Ceiling.type c) = true ->
    Ceiling.bottomheight c <= Sector.ceilingheight sec /\ INT_MIN <= Ceiling.bottomheight c - 2 * CEILSPEED;
  cv_high : goes_up (Ceiling.type c) = true ->
    Sector.ceilingheight sec <= Ceiling.topheight c /\ Ceiling.topheight c + 2 * CEILSPEED <= INT_MAX;
  cv_fits : INT_MIN <= Sector.ceilingheight sec <= INT_MAX;
  cv_speed : 0 < Ceiling.speed c <= 2 * CEILSPEED
}.
(** What a ceiling was started with. *)
Definition same_ceiling (c c' : Ceiling.ceiling_t) : Prop :=
  Ceiling.sector c' = Ceiling.sector c /\ Ceiling.type c' = Ceiling.type c /\ Ceiling.tag c' = Ceiling.tag c /\
  Ceiling.topheight c' = Ceiling.topheight c /\ Ceiling.bottomheight c' = Ceiling.bottomheight c /\
  Ceiling.crush c' = Ceiling.crush c.
Definition ceiling_on (c : Ceiling.ceiling_t) (sec : Sector.doomsector_t) (w : world) (c' : Ceiling.ceiling_t) (sec' : Sector.doomsector_t)
    (w' : world) : Prop :=
  Ceiling.thinker c' = Ceiling.thinker c /\ Sector.specialdata sec' = Sector.specialdata sec /\
  activeceilings (gm w') = activeceilings (gm w).
Section facts.
Context {A : Arch} {im : Image} {C : Crush} {laws : CrushLaws} {H : Heap} {hlaws : HeapLaws}.
Implicit Types (w : world) (c : Ceiling.ceiling_t).

Definition ceiling_gone (self : Z) (c : Ceiling.ceiling_t) (c' : Ceiling.ceiling_t) (sec' : Sector.doomsector_t) (w' : world) : Prop :=
  Thinker.function (Ceiling.thinker c') = removed /\ Sector.specialdata sec' = 0 /\ self ∉ activeceilings (gm w') /\
  crusher (Ceiling.type c) = false.

(** What one tic does to a ceiling. *)
Definition ceiling_tic (self : Z) (s : nat) c sec w (m : outcome world) : Prop :=
  exists w' c' sec', m = Ret w' /\ thing_at self (gm w') = Some (TCeiling c') /\
    sectors (gm w') = <[s := sec']> (sectors (gm w)) /\ ceiling_valid c' sec' /\ same_ceiling c c' /\
    Sector.floorheight sec' = Sector.floorheight sec /\ Sector.lightlevel sec' = Sector.lightlevel sec /\ frame self s w w' /\
    (ceiling_on c sec w c' sec' w' \/ ceiling_gone self c c' sec' w').

Lemma get_ceiling_at self c w : thing_at self (gm w) = Some (TCeiling c) -> get_ceiling self w = Ret c.
Proof. unfold get_ceiling. by intros ->. Qed.

Lemma remove_ceiling_run self s c sec w : thing_at self (gm w) = Some (TCeiling c) -> Ceiling.sector c = Z.of_nat s ->
  sectors (gm w) !! s = Some sec -> self <> 0 -> NoDup (filter (fun x => x <> 0) (activeceilings (gm w))) ->
  P_RemoveActiveCeiling self w = Ret w \/
  exists w', P_RemoveActiveCeiling self w = Ret w' /\
    thing_at self (gm w') = Some (TCeiling (c <| Ceiling.thinker ::= fun t => t <| Thinker.function := removed |> |>)) /\
    sectors (gm w') = <[s := sec <| Sector.specialdata := 0 |>]> (sectors (gm w)) /\ self ∉ activeceilings (gm w') /\
    frame self s w w'.
Proof.
  intros Hat Hs Hsec Hnz Hnd. unfold P_RemoveActiveCeiling. destruct (clear_slot _ self) as [l|] eqn:El; [right|by left].
  rewrite (get_ceiling_at self c) by done. cbn [obind]. rewrite Hs.
  set (w1 := set_sector (Z.of_nat s) (sec <| Sector.specialdata := 0 |>) w).
  assert (E1 : on_game (set_specialdata (Z.of_nat s) 0) w = Ret w1).
  { unfold on_game, set_specialdata. rewrite (proj2 (Z.ltb_ge _ _)) by lia. rewrite Nat2Z.id, Hsec. cbn [obind].
    unfold w1, set_sector. rewrite Nat2Z.id. reflexivity. }
  pose proof (framed_specialdata self s 0 w w1 E1) as F1. rewrite E1. cbn [obind].
  assert (E2 : thing_at self (gm w1) = Some (TCeiling c)) by done.
  pose proof (framed_remove self s w1 _ E2 eq_refl) as F2. unfold on_game, P_RemoveThinker in *. rewrite E2 in *. cbn [of_option obind] in *.
  eexists. split; [reflexivity|]. specialize (F2 _ eq_refl). split_and!.
  - cbn [gm update]. change (thing_at self (put_thing self (with_thinker (TCeiling c) ((thing_thinker (TCeiling c)) <| Thinker.function := removed |>)) (gm w1)) =
      Some (TCeiling (c <| Ceiling.thinker ::= fun t => t <| Thinker.function := removed |> |>))).
    rewrite (thing_at_put_same _ _ _ (TCeiling c)) by done. by destruct c.
  - cbn. by rewrite Nat2Z.id.
  - cbn. by eapply clear_slot_gone.
  - destruct (transitivity F1 F2) as [B1 B2 B3 B4 B5 B6 B7 B8 B9 B10 B11 B12]. split; try done. cbn. by apply clear_slot_kept.
Qed.

(** One step of a ceiling. *)
Lemma moved_ceiling self s c sec w d dest crush : thing_at self (gm w) = Some (TCeiling c) -> Ceiling.sector c = Z.of_nat s ->
  sectors (gm w) !! s = Some sec -> ceiling_valid c sec ->
  d = -1 /\ goes_down (Ceiling.type c) = true /\ dest = Ceiling.bottomheight c \/
  d = 1 /\ goes_up (Ceiling.type c) = true /\ dest = Ceiling.topheight c ->
  exists res h w', T_MovePlane (Ceiling.sector c) (Ceiling.speed c) dest crush 1 d w = Ret (res, w') /\
    let sec' := sec <| Sector.ceilingheight := h |> in
    thing_at self (gm w') = Some (TCeiling c) /\ sectors (gm w') = <[s := sec']> (sectors (gm w)) /\ ceiling_valid c sec' /\
    activeceilings (gm w') = activeceilings (gm w) /\ frame self s w w'.
Proof.
  intros Hat Hs Hsec Hv Hd. pose proof (cv_low _ _ Hv) as Hl. pose proof (cv_high _ _ Hv) as Hh. pose proof (cv_fits _ _ Hv) as Hf.
  pose proof (cv_speed _ _ Hv) as Hsp. unfold INT_MIN, INT_MAX, CEILSPEED, FRACUNIT in *.
  destruct (moved_mover self (TCeiling c) s sec (Ceiling.speed c) dest crush true d w)
    as (res & h & w' & E & Hat' & Es & _ & Ec & Fr & Hst & Hb & _);
    [done|done|done|intuition|lia|cbn [plane]; destruct Hd as [(-> & Hg & _)|(-> & Hg & _)]; [specialize (Hl Hg)|specialize (Hh Hg)]; in_range|].
  cbn [plane] in Hb. exists res, h, w'. rewrite Hs. split; [exact E|]. cbn zeta.
  assert (Hh' : (goes_down (Ceiling.type c) = true -> Ceiling.bottomheight c <= h) /\ (goes_up (Ceiling.type c) = true -> h <= Ceiling.topheight c) /\
    INT_MIN <= h <= INT_MAX).
  { unfold INT_MIN, INT_MAX. destruct Hd as [(-> & Hg & ->)|(-> & Hg & ->)]; [specialize (Hl Hg)|specialize (Hh Hg)];
      split_and!; intros; try specialize (Hl ltac:(done)); try specialize (Hh ltac:(done)); lia. }
  destruct Hh' as (H1 & H2 & H3).
  split_and!; try done. split; cbn; try apply Hv; try done; intros Hg.
  - split; [by apply H1|]. by apply Hv.
  - split; [by apply H2|]. by apply Hv.
Qed.

(** A ceiling whose sector was moved from [sec] to [sec1] and that goes on as [c']. *)
Lemma ceiling_goes_on self s c sec w sec1 c' w1 w' : thing_at self (gm w1) = Some (TCeiling c) ->
  sectors (gm w1) = <[s := sec1]> (sectors (gm w)) -> frame self s w w1 -> activeceilings (gm w1) = activeceilings (gm w) ->
  Sector.floorheight sec1 = Sector.floorheight sec -> Sector.specialdata sec1 = Sector.specialdata sec ->
  Sector.lightlevel sec1 = Sector.lightlevel sec ->
  ceiling_valid c' sec1 -> same_ceiling c c' -> Ceiling.thinker c' = Ceiling.thinker c ->
  gm w' = gm w1 /\ c' = c \/ gm w' = put_thing self (TCeiling c') (gm w1) ->
  ceiling_tic self s c sec w (Ret w').
Proof.
  intros Hat Es Fr Ea Ef Esd Elt Hv Hsame Eth Ew.
  assert (Fr' : frame self s w w').
  { destruct Ew as [[Ew _]|Ew]; [by eapply frame_game|]. etransitivity; [exact Fr|].
    by eapply (frame_game _ _ w1 (w1 <| gm ::= put_thing self (TCeiling c') |>)), frame_put. }
  exists w', c', sec1. split; [done|]. split_and!; try done.
  - destruct Ew as [[-> ->]| ->]; [done|]. by eapply thing_at_put_same.
  - by destruct Ew as [[-> _]| ->].
  - left. split_and!; try done. by destruct Ew as [[-> _]| ->].
Qed.

Lemma gm_noise c w : gm (ceiling_noise c w) = gm w.
Proof. unfold ceiling_noise. by destruct (_ && _). Qed.

(** A ceiling that is removed where it has a slot. *)
Lemma ceiling_ends self s c sec w sec1 w1 w2 : thing_at self (gm w1) = Some (TCeiling c) -> Ceiling.sector c = Z.of_nat s ->
  sectors (gm w1) = <[s := sec1]> (sectors (gm w)) -> sectors (gm w) !! s = Some sec -> frame self s w w1 ->
  activeceilings (gm w1) = activeceilings (gm w) ->
  Sector.floorheight sec1 = Sector.floorheight sec -> Sector.specialdata sec1 = Sector.specialdata sec ->
  Sector.lightlevel sec1 = Sector.lightlevel sec ->
  ceiling_valid c sec1 -> crusher (Ceiling.type c) = false -> self <> 0 ->
  NoDup (filter (fun x => x <> 0) (activeceilings (gm w))) -> gm w2 = gm w1 ->
  ceiling_tic self s c sec w (P_RemoveActiveCeiling self w2).
Proof.
  intros Hat Hs Es Hsec Fr Ea Ef Esd Elt Hv Hc Hnz Hnd Ew.
  assert (Hs1 : sectors (gm w1) !! s = Some sec1) by (rewrite Es; by rewrite list_lookup_insert_eq by (by eapply lookup_lt_Some)).
  destruct (remove_ceiling_run self s c sec1 w2) as [E|(w' & E & Hat' & Es' & Hn & Fr')]; rewrite ?Ew; try done; [by rewrite Ea|..].
  - rewrite E. eapply (ceiling_goes_on self s c sec w sec1 c w1 w2); try done. by left.
  - rewrite E. exists w', (c <| Ceiling.thinker ::= fun t => t <| Thinker.function := removed |> |>), (sec1 <| Sector.specialdata := 0 |>).
    split; [done|]. split_and!; try done.
    + rewrite Es', Ew, Es. apply list_insert_insert_eq.
    + destruct Hv. by split.
    + transitivity w1; [done|]. destruct Fr' as [B1 B2 B3 B4 B5 B6 B7 B8 B9 B10]. rewrite Ew in *. by split.
    + right. by split_and!.
Qed.

Lemma ceiling_turn c sec dir speed : ceiling_valid c sec -> crusher (Ceiling.type c) = true -> dir = 1 \/ dir = -1 ->
  0 < speed <= 2 * CEILSPEED -> ceiling_valid (c <| Ceiling.speed := speed |> <| Ceiling.direction := dir |>) sec.
Proof.
  intros [] Hc Hd Hs. unfold crusher in Hc. apply andb_true_iff in Hc as [H1 H2]. split; try done; cbn; destruct Hd as [-> | ->]; tauto || lia.
Qed.

Lemma ceiling_up_tic self s c sec w : thing_at self (gm w) = Some (TCeiling c) -> Ceiling.sector c = Z.of_nat s ->
  sectors (gm w) !! s = Some sec -> ceiling_valid c sec -> Ceiling.direction c = 1 -> self <> 0 ->
  NoDup (filter (fun x => x <> 0) (activeceilings (gm w))) -> ceiling_tic self s c sec w (ceiling_up self w).
Proof.
  intros Hat Hs Hsec Hv Hd Hnz Hnd. unfold ceiling_up. rewrite (get_ceiling_at self c) by done. cbn [obind]. rewrite Hd.
  assert (Hg : goes_up (Ceiling.type c) = true) by (destruct (cv_dir _ _ Hv) as [?|[[_ ?]|[? _]]]; [lia|done|lia]).
  destruct (moved_ceiling self s c sec w 1 (Ceiling.topheight c) 0) as (res & h & w1 & E & Hat1 & Es1 & Hv1 & Ea1 & Fr1); [done..|by right|].
  rewrite E. cbn [obind]. rewrite (get_ceiling_at self c) by done. cbn [obind]. set (sec1 := sec <| Sector.ceilingheight := h |>) in *.
  pose proof (cv_speed _ _ Hv) as Hsp. destruct res;
    [eapply (ceiling_goes_on _ _ _ _ _ sec1 c w1); try done; left; by rewrite gm_noise..|].
  destruct (Ceiling.type c =? raiseToHighest) eqn:T1; breflect;
    [eapply (ceiling_ends self s c sec w sec1 w1); try done; [by rewrite T1|by rewrite gm_noise]|].
  assert (Hcr : crusher (Ceiling.type c) = true) by (unfold crusher, goes_down; rewrite Hg; by rewrite (proj2 (Z.eqb_neq _ _))).
  destruct (Ceiling.type c =? silentCrushAndRaise) eqn:T2; [|destruct (_ || _)].
  - eapply (ceiling_goes_on _ _ _ _ _ sec1 (c <| Ceiling.direction := -1 |>) w1); try done.
    + destruct c. cbn in *. apply (ceiling_turn _ _ (-1) speed Hv1); auto.
    + right. cbn [gm put_ceiling ceiling_sound S_StartSound update]. by rewrite gm_noise.
  - eapply (ceiling_goes_on _ _ _ _ _ sec1 (c <| Ceiling.direction := -1 |>) w1); try done.
    + destruct c. cbn in *. apply (ceiling_turn _ _ (-1) speed Hv1); auto.
    + right. cbn [gm put_ceiling update]. by rewrite gm_noise.
  - eapply (ceiling_goes_on _ _ _ _ _ sec1 c w1); try done. left. by rewrite gm_noise.
Qed.

Lemma ceiling_down_tic self s c sec w : thing_at self (gm w) = Some (TCeiling c) -> Ceiling.sector c = Z.of_nat s ->
  sectors (gm w) !! s = Some sec -> ceiling_valid c sec -> Ceiling.direction c = -1 -> self <> 0 ->
  NoDup (filter (fun x => x <> 0) (activeceilings (gm w))) -> ceiling_tic self s c sec w (ceiling_down self w).
Proof.
  intros Hat Hs Hsec Hv Hd Hnz Hnd. unfold ceiling_down. rewrite (get_ceiling_at self c) by done. cbn [obind]. rewrite Hd.
  assert (Hg : goes_down (Ceiling.type c) = true) by (destruct (cv_dir _ _ Hv) as [?|[[? _]|[_ ?]]]; [lia|lia|done]).
  destruct (moved_ceiling self s c sec w (-1) (Ceiling.bottomheight c) (Ceiling.crush c)) as (res & h & w1 & E & Hat1 & Es1 & Hv1 & Ea1 & Fr1);
    [done..|by left|].
  rewrite E. cbn [obind]. rewrite (get_ceiling_at self c) by done. cbn [obind]. set (sec1 := sec <| Sector.ceilingheight := h |>) in *.
  pose proof (cv_speed _ _ Hv) as Hsp. destruct res.
  - eapply (ceiling_goes_on _ _ _ _ _ sec1 c w1); try done. left. by rewrite gm_noise.
  - destruct (_ || _).
    + eapply (ceiling_goes_on _ _ _ _ _ sec1 (c <| Ceiling.speed := CEILSPEED ÷ 8 |>) w1); try done; [destruct Hv1; split; done|].
      right. cbn [gm put_ceiling update]. by rewrite gm_noise.
    + eapply (ceiling_goes_on _ _ _ _ _ sec1 c w1); try done. left. by rewrite gm_noise.
  - destruct (Ceiling.type c =? silentCrushAndRaise) eqn:T1; [|destruct (Ceiling.type c =? crushAndRaise) eqn:T2;
      [|destruct (Ceiling.type c =? fastCrushAndRaise) eqn:T3; [|destruct (_ || _) eqn:T4]]]; breflect.
    + eapply (ceiling_goes_on _ _ _ _ _ sec1 (c <| Ceiling.speed := CEILSPEED |> <| Ceiling.direction := 1 |>) w1); try done.
      * apply ceiling_turn; [done|by rewrite T1|by left|done].
      * right. cbn [gm put_ceiling ceiling_sound S_StartSound update]. by rewrite gm_noise.
    + eapply (ceiling_goes_on _ _ _ _ _ sec1 (c <| Ceiling.speed := CEILSPEED |> <| Ceiling.direction := 1 |>) w1); try done.
      * apply ceiling_turn; [done|by rewrite T2|by left|done].
      * right. cbn [gm put_ceiling update]. by rewrite gm_noise.
    + eapply (ceiling_goes_on _ _ _ _ _ sec1 (c <| Ceiling.direction := 1 |>) w1); try done.
      * destruct c. cbn in *. apply (ceiling_turn _ _ 1 speed Hv1); [by rewrite T3|by left|done].
      * right. cbn [gm put_ceiling update]. by rewrite gm_noise.
    + eapply (ceiling_ends self s c sec w sec1 w1); try done; [|by rewrite gm_noise].
      destruct T4 as [T4|T4]; breflect; by rewrite T4.
    + eapply (ceiling_goes_on _ _ _ _ _ sec1 c w1); try done. left. by rewrite gm_noise.
Qed.

Lemma ceiling_tic_run self s c sec w : thing_at self (gm w) = Some (TCeiling c) -> Ceiling.sector c = Z.of_nat s ->
  sectors (gm w) !! s = Some sec -> ceiling_valid c sec -> self <> 0 ->
  NoDup (filter (fun x => x <> 0) (activeceilings (gm w))) -> ceiling_tic self s c sec w (T_MoveCeiling self w).
Proof.
  intros Hat Hs Hsec Hv Hnz Hnd. unfold T_MoveCeiling. rewrite (get_ceiling_at self c) by done. cbn [obind].
  destruct (cv_dir _ _ Hv) as [Hd|[[Hd _]|[Hd _]]]; rewrite Hd; cbn [Z.eqb Pos.eqb].
  - eapply (ceiling_goes_on _ _ _ _ _ sec c w); try done; [by rewrite list_insert_id|by left].
  - by apply ceiling_up_tic.
  - by apply ceiling_down_tic.
Qed.

(** ** Starting *)

(** A sector in which a ceiling of the type has a way to go. *)
Definition has_way (type : Z) (s : nat) (sec : Sector.doomsector_t) (g : game) : Prop :=
  if type =? raiseToHighest then
    let top := zmax 0 (Sector.ceilingheight <$> neighbours g s) in
    Sector.ceilingheight sec <= top <= INT_MAX - 2 * CEILSPEED /\ INT_MIN <= Sector.ceilingheight sec
  else
    Sector.floorheight sec + (if type =? lowerToFloor then 0 else 8 * FRACUNIT) <= Sector.ceilingheight sec /\
    INT_MIN + 2 * CEILSPEED <= Sector.floorheight sec /\ Sector.ceilingheight sec <= INT_MAX - 2 * CEILSPEED.

Lemma ceiling_setup_valid type s sec c w : 0 <= type <= 5 -> level_ok (gm w) -> sectors (gm w) !! s = Some sec -> has_way type s sec (gm w) ->
  Ceiling.crush c = 0 ->
  exists c', ceiling_setup type s c w = Ret c' /\ ceiling_valid (c' <| Ceiling.tag := Sector.tag sec |> <| Ceiling.type := type |>) sec /\
    Ceiling.thinker c' = Ceiling.thinker c /\ Ceiling.sector c' = Ceiling.sector c /\ Ceiling.crush c' = of_bool (crusher type).
Proof.
  intros Ht Hl Hsec Hw Hc. unfold ceiling_setup. rewrite (get_sector_at s sec) by done. cbn [obind].
  assert (Hcase : type = 0 \/ type = 1 \/ type = 2 \/ type = 3 \/ type = 4 \/ type = 5) by lia.
  unfold has_way in Hw. destruct Hcase as [->|[->|[->|[->|[->| ->]]]]]; cbn [Z.eqb Pos.eqb lowerToFloor raiseToHighest lowerAndCrush
    crushAndRaise fastCrushAndRaise silentCrushAndRaise orb negb] in *; unfold INT_MIN, INT_MAX, CEILSPEED, FRACUNIT in *.
  2:{ destruct Hw as (Htop & Hlow). unfold P_FindHighestCeilingSurrounding.
      rewrite (around_run _ Hl s sec), run_each_max by done. cbn [obind]. eexists. split; [reflexivity|]. split_and!; try done.
      split; cbn; unfold INT_MIN, INT_MAX, CEILSPEED, FRACUNIT; try done; try lia; auto. }
  all: eexists; (split; [reflexivity|]); (split_and!; try done); rewrite ?(wraps_id 32) by in_range;
    split; cbn; unfold INT_MIN, INT_MAX, CEILSPEED, FRACUNIT; try done; try lia; auto.
Qed.
Lemma start_ceiling_run type s sec rtn w :
  0 <= type <= 5 -> sectors (gm w) !! s = Some sec -> has_way type s sec (gm w) ->
  if truth (Sector.specialdata sec) then start_ceiling type s (rtn, w) = Ret (rtn, w)
  else level_ok (gm w) -> exists self c w', start_ceiling type s (rtn, w) = Ret (1, w') /\ starts self s (TCeiling c) sec w w' /\
    Ceiling.sector c = Z.of_nat s /\ ceiling_valid c (sec <| Sector.specialdata := self |>) /\
    Ceiling.type c = type /\ Ceiling.tag c = Sector.tag sec /\ Ceiling.crush c = of_bool (crusher type) /\
    Thinker.function (Ceiling.thinker c) = fn_addr GameTypes.T_MoveCeiling /\
    activeplats (gm w') = activeplats (gm w) /\
    (if bool_decide (0 < slots (activeceilings (gm w)))%nat
     then first_free (activeceilings (gm w)) self = Some (activeceilings (gm w')) /\ self ∈ activeceilings (gm w')
     else activeceilings (gm w') = activeceilings (gm w)).
Proof.
  intros Ht E Hway. unfold start_ceiling. rewrite (get_sector_at s sec) by done. cbn [obind].
  destruct (truth (Sector.specialdata sec)); [done|]. intros Hl. destruct (heap_fresh w) as (self & -> & Hnz & Hfr). cbn [obind].
  unfold on_game. cbn [gm update]. unfold set_specialdata at 1. rewrite (proj2 (Z.ltb_ge _ _)), Nat2Z.id by lia.
  cbn [sectors P_AddThinker update]. rewrite E. cbn [obind]. set (sec' := sec <| Sector.specialdata := self |>).
  lazymatch goal with |- context [ceiling_setup _ _ ?x ?y] => set (c0 := x); set (w1 := y) end.
  assert (Es : sectors (gm w1) !! s = Some sec') by (cbn; by rewrite list_lookup_insert_eq by (by eapply lookup_lt_Some)).
  destruct (ceiling_setup_valid type s sec' c0 w1 Ht) as (c1 & -> & Hv & P1 & P2 & P3); [by eapply level_ok_update|done| |done|].
  { unfold has_way in *. destruct (type =? raiseToHighest); [|done]. cbv zeta in *.
    change (gm w1) with ((gm w) <| thinkers := thinkers (gm w) ++ [(self, TCeiling (raw_ceiling self))] |> <| sectors ::= <[s := sec']> |>).
    by rewrite (neighbours_update Sector.ceilingheight (gm w) s sec sec'). }
  cbn [obind]. lazymatch goal with |- context [put_ceiling self ?x w1] => set (c := x) in * end.
  exists self, c, ((put_ceiling self c w1) <| gm ::= P_AddActiveCeiling self |>). split; [reflexivity|]. split_and!; try done.
  - eapply (starts_intro _ _ _ (TCeiling (raw_ceiling self))); try done; cbn [gm update put_ceiling];
      unfold P_AddActiveCeiling; by destruct (first_free _ _).
  - change (Thinker.function (Ceiling.thinker c)) with (Thinker.function (Ceiling.thinker c1)). by rewrite P1.
  - cbn [gm update put_ceiling]. unfold P_AddActiveCeiling. by destruct (first_free _ _).
  - cbn [gm update put_ceiling]. unfold P_AddActiveCeiling.
    change (activeceilings (put_thing self (TCeiling c) (gm w1))) with (activeceilings (gm w)).
    case_bool_decide as Hsl.
    + destruct (first_free_some _ self Hnz Hsl) as (l & El & _ & Hin & _). rewrite El. done.
    + by rewrite first_free_full by lia.
Qed.
End facts.

(** ** The claims *)
Section claims.
Context {A : Arch} {im : Image} {C : Crush} {laws : CrushLaws} {H : Heap} {hlaws : HeapLaws}.
Implicit Types (w : world) (c : Ceiling.ceiling_t).

(** one tic of a ceiling goes through and leaves it on its course: the
    ceiling stays above its lower and below its upper mark, nothing but this
    ceiling, its sector and its slot changes, and either it goes on, or its
    thinker is marked, its sector is free again and its slot is cleared. A
    crusher is never removed. *)
Theorem T_MoveCeiling_correct self s c sec w : thing_at self (gm w) = Some (TCeiling c) -> Ceiling.sector c = Z.of_nat s ->
  sectors (gm w) !! s = Some sec -> ceiling_valid c sec -> self <> 0 ->
  NoDup (filter (fun x => x <> 0) (activeceilings (gm w))) ->
  ceiling_tic self s c sec w (T_MoveCeiling self w).
Proof. apply ceiling_tic_run. Qed.

(** EV_CeilingCrushStop stops exactly the active ceilings of the tag
    that move, and says whether there was one; P_ActivateInStasisCeiling then
    is its inverse, up to the direction that is remembered. *)
Theorem ceiling_stop_and_activate li w :
  NoDup (filter (fun x => x <> 0) (activeceilings (gm w))) -> all_slots TCeiling (activeceilings (gm w)) (gm w) ->
  exists rtn w1 w2, EV_CeilingCrushStop li w = Ret (rtn, w1) /\ P_ActivateInStasisCeiling li w1 = Ret w2 /\
    (rtn = 1 <-> exists a c, a ∈ activeceilings (gm w) /\ a <> 0 /\ thing_at a (gm w) = Some (TCeiling c) /\
       Ceiling.tag c = Line.tag li /\ Ceiling.direction c <> 0) /\
    forall a c, a ∈ activeceilings (gm w) -> a <> 0 -> thing_at a (gm w) = Some (TCeiling c) ->
      Thinker.function (Ceiling.thinker c) = fn_addr GameTypes.T_MoveCeiling -> Ceiling.direction c <> 0 ->
      thing_at a (gm w2) = Some (TCeiling (if Ceiling.tag c =? Line.tag li then c <| Ceiling.olddirection := Ceiling.direction c |> else c)) /\
      (Ceiling.tag c = Line.tag li -> exists q, thing_at a (gm w1) = Some (TCeiling q) /\
         Ceiling.direction q = 0 /\ Thinker.function (Ceiling.thinker q) = 0).
Proof.
  intros Hnd Hall. pose proof (fun f => each_slot_run get_ceiling put_ceiling TCeiling (fun a x w => get_ceiling_at a x w) (fun a x w => eq_refl) f) as Hrun.
  destruct (Hrun (stop_ceiling (Line.tag li)) _ w Hnd Hall) as (l1 & E1 & H1 & _).
  set (w1 := w <| gm := (gm w) <| thinkers := l1 |> |>) in *.
  destruct (Hrun (activate_ceiling (Line.tag li)) (activeceilings (gm w1)) w1 Hnd) as (l2 & E2 & H2 & _).
  { intros a Ha Hz. destruct (Hall a Ha Hz) as [p Hp]. exists (changed (stop_ceiling (Line.tag li)) p). by apply H1. }
  eexists _, w1, (w1 <| gm := (gm w1) <| thinkers := l2 |> |>). unfold EV_CeilingCrushStop. rewrite E1. cbn [obind].
  split; [reflexivity|]. split; [exact E2|]. split.
  - assert (Hb : stops_some (Line.tag li) w = true <-> exists a c, a ∈ activeceilings (gm w) /\ a <> 0 /\
      thing_at a (gm w) = Some (TCeiling c) /\ Ceiling.tag c = Line.tag li /\ Ceiling.direction c <> 0).
    { unfold stops_some. rewrite existsb_exists. split.
      - intros (a & Ha & Hb). apply list_elem_of_In in Ha. breflect. unfold get_ceiling, stop_ceiling in *.
        destruct (thing_at a (gm w)) as [[]|] eqn:Et; try done. destruct (_ && _) eqn:Eb; [|done]. breflect. by exists a, c.
      - intros (a & c & Ha & Hz & Hc & Ht & Hd). exists a. split; [by apply list_elem_of_In|].
        rewrite (get_ceiling_at a c) by done. unfold stop_ceiling. rewrite Ht, Z.eqb_refl, (proj2 (Z.eqb_neq a 0)) by done.
        by rewrite (proj2 (Z.eqb_neq (Ceiling.direction c) 0)). }
    rewrite <- Hb. by destruct (stops_some _ w).
  - intros a c Ha Hz Hp Hfn Hst. pose proof (H1 a c Ha Hz Hp) as Hp1. pose proof (H2 a _ Ha Hz Hp1) as Hp2.
    assert (Es : (Ceiling.direction c =? 0) = false) by (by apply Z.eqb_neq).
    unfold changed, stop_ceiling in Hp1. unfold changed, stop_ceiling, activate_ceiling in Hp2. rewrite Es in Hp1, Hp2.
    cbn [negb] in Hp1, Hp2. rewrite andb_true_r in Hp1, Hp2. destruct (Ceiling.tag c =? Line.tag li) eqn:Et.
    + split; [|intros _; by eexists]. etransitivity; [exact Hp2|]. cbn. rewrite Et. cbn. f_equal. f_equal.
      destruct c as [[] ? ? ? ? ? ? ? ? ?]. cbn in Hfn. by subst.
    + rewrite Et, Es in Hp2. breflect. split; [|done]. exact Hp2.
Qed.

(** EV_DoCeiling leaves a sector alone that something already moves. In
    any other where the ceiling has a way to go it starts a ceiling on a valid
    course that runs T_MoveCeiling, crushes if it is of a crushing kind, and
    is named by its sector; no other sector, object or active ceiling changes.
    It is registered as active if there is a free slot, and silently not
    registered when all slots are taken. *)
Theorem start_ceiling_correct type s sec rtn w :
  0 <= type <= 5 -> sectors (gm w) !! s = Some sec -> has_way type s sec (gm w) ->
  if truth (Sector.specialdata sec) then start_ceiling type s (rtn, w) = Ret (rtn, w)
  else level_ok (gm w) -> exists self c w', start_ceiling type s (rtn, w) = Ret (1, w') /\ starts self s (TCeiling c) sec w w' /\
    Ceiling.sector c = Z.of_nat s /\ ceiling_valid c (sec <| Sector.specialdata := self |>) /\
    Ceiling.type c = type /\ Ceiling.tag c = Sector.tag sec /\ Ceiling.crush c = of_bool (crusher type) /\
    Thinker.function (Ceiling.thinker c) = fn_addr GameTypes.T_MoveCeiling /\
    activeplats (gm w') = activeplats (gm w) /\
    (if bool_decide (0 < slots (activeceilings (gm w)))%nat
     then first_free (activeceilings (gm w)) self = Some (activeceilings (gm w')) /\ self ∈ activeceilings (gm w')
     else activeceilings (gm w') = activeceilings (gm w)).
Proof. apply start_ceiling_run. Qed.
End claims.

(** ** Witnesses *)
Section witness.
Import Demo.
(** The crusher of the middle room, on its way down. *)
Definition press : Ceiling.ceiling_t :=
  Ceiling.mk (Thinker.mk 77 77 102) crushAndRaise 1 (9 * FRACUNIT) (100 * FRACUNIT) CEILSPEED 1 (-1) 3 77.
Definition press_room : Sector.doomsector_t := (room 65536 3 [0%nat; 1%nat]) <| Sector.specialdata := 1 |>.
Definition press_world : world :=
  mk_world (rooms <| activeceilings := [1; 0] |> <| thinkers := [(1, TCeiling press)] |>
    <| sectors ::= <[1%nat := press_room]> |>) (mk_rnd 0 0) [].
Definition press_line : Line.line_t := Line.mk ML_TWOSIDED 57 3 [0; 1] (Some 0%nat) (Some 1%nat).
Lemma press_valid : ceiling_valid press press_room.
Proof. split; cbn; unfold INT_MIN, INT_MAX, CEILSPEED, FRACUNIT; try done; auto. Qed.

Lemma T_MoveCeiling_correct_witness : ceiling_tic 1 1 press press_room press_world (T_MoveCeiling 1 press_world).
Proof.
  apply (T_MoveCeiling_correct 1 1 press press_room press_world); [reflexivity|reflexivity|reflexivity|exact press_valid|discriminate|by_decision].
Defined.

Lemma ceiling_stop_and_activate_witness : exists rtn w1 w2, EV_CeilingCrushStop press_line press_world = Ret (rtn, w1) /\
  P_ActivateInStasisCeiling press_line w1 = Ret w2 /\ thing_at 1 (gm w2) = Some (TCeiling (press <| Ceiling.olddirection := -1 |>)).
Proof.
  destruct (ceiling_stop_and_activate press_line press_world) as (rtn & w1 & w2 & E1 & E2 & _ & Hk).
  - by_decision.
  - intros a Ha Hz. cbn in Ha. repeat (apply elem_of_cons in Ha as [->|Ha]; [done || (exists press; reflexivity)|]).
    by apply elem_of_nil in Ha.
  - exists rtn, w1, w2. split; [exact E1|]. split; [exact E2|].
    refine (proj1 (Hk 1 press _ _ _ _ _)); [by_decision|discriminate|reflexivity|reflexivity|discriminate].
Defined.

(** A lowering ceiling for the middle room. *)
Definition quiet_world : world := mk_world (rooms <| activeceilings := [0; 0] |>) (mk_rnd 0 0) [].
Lemma start_ceiling_correct_witness : exists self c w', start_ceiling lowerToFloor 1 (0, quiet_world) = Ret (1, w') /\
  starts self 1 (TCeiling c) (room 65536 3 [0%nat; 1%nat]) quiet_world w' /\ ceiling_valid c ((room 65536 3 [0%nat; 1%nat]) <| Sector.specialdata := self |>) /\
  self ∈ activeceilings (gm w').
Proof.
  destruct (start_ceiling_correct lowerToFloor 1 (room 65536 3 [0%nat; 1%nat]) 0 quiet_world) as (self & c & w' & E & Hst & _ & Hv & _ & _ & _ & _ & _ & Ha).
  - unfold lowerToFloor. lia.
  - reflexivity.
  - unfold has_way. cbn. unfold INT_MIN, INT_MAX, CEILSPEED, FRACUNIT. lia.
  - destruct rooms_ok as [H1 H2]. split; [exact H1|exact H2].
  - exists self, c, w'. split; [exact E|]. split; [exact Hst|]. split; [exact Hv|]. exact (proj2 Ha).
Defined.
End witness.
