(* ===== verification/Floors.v ===== *)
(** * Floors and stairs (src/commands/doom/p_floor.c) *)
From S2P Require Import Prelude MFixed MRandom GameTypes Thinkers SectorSearch MovePlane.
#[local] Open Scope doom_scope.

(** [floor_e] and [stair_e] *)
Definition lowerFloor : Z := 0.
Definition lowerFloorToLowest : Z := 1.
Definition turboLower : Z := 2.
Definition raiseFloor : Z := 3.
Definition raiseFloorToNearest : Z := 4.
Definition raiseToTexture : Z := 5.
Definition lowerAndChange : Z := 6.
Definition raiseFloor24 : Z := 7.
Definition raiseFloor24AndChange : Z := 8.
Definition raiseFloorCrush : Z := 9.
Definition raiseFloorTurbo : Z := 10.
Definition donutRaise : Z := 11.
Definition raiseFloor512 : Z := 12.
Definition build8 : Z := 0.
Definition turbo16 : Z := 1.

Definition FLOORSPEED : Z := FRACUNIT.

(** The heights of the textures of the WAD (r_data.c). *)
Class Textures := textureheight : list Z.

Section floors.
Context {A : Arch} {im : Image} {C : Crush} {H : Heap} {tx : Textures}.

Definition get_floor (self : Z) (w : world) : outcome FloorMove.floormove_t :=
  match thing_at self (gm w) with Some (TFloor f) => Ret f | _ => Undef end.
Definition put_floor (self : Z) (f : FloorMove.floormove_t) (w : world) : world := w <| gm ::= put_thing self (TFloor f) |>.
Definition floor_sound (f : FloorMove.floormove_t) (s : sound) (w : world) : world := S_StartSound (Some (org_sector (FloorMove.sector f))) s w.

(** [floor->sector->special = floor->newspecial; floor->sector->floorpic = floor->texture] *)
Definition change_floor (f : FloorMove.floormove_t) (sec : Sector.doomsector_t) : Sector.doomsector_t :=
  sec <| Sector.special := i16 (FloorMove.newspecial f) |> <| Sector.floorpic := FloorMove.texture f |>.

Definition T_MoveFloor (self : Z) (w : world) : outcome world :=
  let* f := get_floor self w in
  let* '(res, w) := T_MovePlane (FloorMove.sector f) (FloorMove.speed f) (FloorMove.floordestheight f) (FloorMove.crush f) 0
                      (FloorMove.direction f) w in
  let* f := get_floor self w in
  let w := if negb (has_flag (leveltime (gm w)) 7) then floor_sound f sfx_stnmov w else w in
  match res with
  | pastdest =>
      let* w := on_game (set_specialdata (FloorMove.sector f) 0) w in
      let changes := (FloorMove.direction f =? 1) && (FloorMove.type f =? donutRaise) ||
                     (FloorMove.direction f =? -1) && (FloorMove.type f =? lowerAndChange) in
      let* w := (if changes then upd_sector (FloorMove.sector f) (change_floor f) w else Ret w) in
      let* w := on_game (P_RemoveThinker self) w in
      Ret (floor_sound f sfx_pstop w)
  | _ => Ret w
  end.

(** ** The lines of a sector (p_spec.c) *)
Definition line_of (currentSector line : nat) (g : game) : outcome Line.line_t :=
  let* sec := of_option (sectors g !! currentSector) in
  let* l := of_option (Sector.lines sec !! line) in
  of_option (lines g !! l).
Definition getSide (currentSector line side : nat) (g : game) : outcome Side.side_t :=
  let* li := line_of currentSector line g in
  let* num := of_option (Line.sidenum li !! side) in
  if num <? 0 then Undef else of_option (sides g !! Z.to_nat num).
Definition getSector (currentSector line side : nat) (g : game) : outcome Z :=
  let* si := getSide currentSector line side g in Ret (Side.sector si).
Definition twoSided (sector line : nat) (g : game) : outcome bool :=
  let* li := line_of sector line g in Ret (has_flag (Line.flags li) ML_TWOSIDED).

(** ** EV_DoFloor *)

(** [if (side->bottomtexture >= 0) if (textureheight[...] < minsize) minsize = ...] *)
Definition lower_texture (si : Side.side_t) (minsize : Z) : outcome Z :=
  if Side.bottomtexture si >=? 0 then
    let* h := get textureheight (Side.bottomtexture si) in
    Ret (if h <? minsize then h else minsize)
  else Ret minsize.
(** The loop of [raiseToTexture], over the [n] lines from number [i] on. *)
Fixpoint shortest_texture (secnum i n : nat) (minsize : Z) (g : game) : outcome Z :=
  match n with
  | O => Ret minsize
  | S n =>
      let* two := twoSided secnum i g in
      let* minsize :=
        (if two : bool then
           let* si := getSide secnum i 0 g in
           let* minsize := lower_texture si minsize in
           let* si := getSide secnum i 1 g in
           lower_texture si minsize
         else Ret minsize) in
      shortest_texture secnum (S i) n minsize g
  end.

(** The loop of [lowerAndChange]. Its bound is [sec->linecount] and its body
    assigns to [sec]: [cur] is the sector that [sec] points to. *)
Fixpoint find_change (fuel secnum cur i : nat) (f : FloorMove.floormove_t) (g : game) : outcome FloorMove.floormove_t :=
  match fuel with
  | O => NoFuel
  | S fuel =>
      let* sec := of_option (sectors g !! cur) in
      if bool_decide (i < length (Sector.lines sec))%nat then
        let* two := twoSided secnum i g in
        if two : bool then
          let* si := getSide secnum i 0 g in
          let* other := (if Side.sector si =? Z.of_nat secnum then getSector secnum i 1 g else getSector secnum i 0 g) in
          if other <? 0 then Undef else
          let* sec := of_option (sectors g !! Z.to_nat other) in
          if Sector.floorheight sec =? FloorMove.floordestheight f
          then Ret (f <| FloorMove.texture := Sector.floorpic sec |> <| FloorMove.newspecial := Sector.special sec |>)
          else find_change fuel secnum (Z.to_nat other) (S i) f g
        else find_change fuel secnum cur (S i) f g
      else Ret f
  end.

(** The switch: the floor is sent to [dest] with the speed and direction. *)
Definition send (f : FloorMove.floormove_t) (secnum : nat) (direction speed dest : Z) : FloorMove.floormove_t :=
  f <| FloorMove.direction := direction |> <| FloorMove.sector := Z.of_nat secnum |> <| FloorMove.speed := speed |>
    <| FloorMove.floordestheight := dest |>.

Definition floor_setup (li : Line.line_t) (floortype : Z) (secnum : nat) (f : FloorMove.floormove_t) (w : world) :
  outcome (FloorMove.floormove_t * world) :=
  let* sec := get_sector (Z.of_nat secnum) w in
  let floor := Sector.floorheight sec in
  let g := gm w in
  if floortype =? lowerFloor then
    let* h := P_FindHighestFloorSurrounding g secnum in Ret (send f secnum (-1) FLOORSPEED h, w)
  else if floortype =? lowerFloorToLowest then
    let* h := P_FindLowestFloorSurrounding g secnum in Ret (send f secnum (-1) FLOORSPEED h, w)
  else if floortype =? turboLower then
    let* h := P_FindHighestFloorSurrounding g secnum in
    Ret (send f secnum (-1) (FLOORSPEED * 4) (if negb (h =? floor) then i32 (h + 8 * FRACUNIT) else h), w)
  else if (floortype =? raiseFloorCrush) || (floortype =? raiseFloor) then
    let f := if floortype =? raiseFloorCrush then f <| FloorMove.crush := 1 |> else f in
    let* h := P_FindLowestCeilingSurrounding g secnum in
    let h := if h >? Sector.ceilingheight sec then Sector.ceilingheight sec else h in
    Ret (send f secnum 1 FLOORSPEED (i32 (h - 8 * FRACUNIT * of_bool (floortype =? raiseFloorCrush))), w)
  else if floortype =? raiseFloorTurbo then
    let* h := P_FindNextHighestFloor g secnum floor in Ret (send f secnum 1 (FLOORSPEED * 4) h, w)
  else if floortype =? raiseFloorToNearest then
    let* h := P_FindNextHighestFloor g secnum floor in Ret (send f secnum 1 FLOORSPEED h, w)
  else if floortype =? raiseFloor24 then Ret (send f secnum 1 FLOORSPEED (i32 (floor + 24 * FRACUNIT)), w)
  else if floortype =? raiseFloor512 then Ret (send f secnum 1 FLOORSPEED (i32 (floor + 512 * FRACUNIT)), w)
  else if floortype =? raiseFloor24AndChange then
    let* front := of_option (Line.frontsector li) in
    let* fs := get_sector (Z.of_nat front) w in
    let* w := upd_sector (Z.of_nat secnum) (fun sec => sec <| Sector.floorpic := Sector.floorpic fs |>) w in
    let* fs := get_sector (Z.of_nat front) w in
    let* w := upd_sector (Z.of_nat secnum) (fun sec => sec <| Sector.special := Sector.special fs |>) w in
    Ret (send f secnum 1 FLOORSPEED (i32 (floor + 24 * FRACUNIT)), w)
  else if floortype =? raiseToTexture then
    let* minsize := shortest_texture secnum 0 (length (Sector.lines sec)) INT_MAX g in
    Ret (send f secnum 1 FLOORSPEED (i32 (floor + minsize)), w)
  else if floortype =? lowerAndChange then
    let* h := P_FindLowestFloorSurrounding g secnum in
    let f := (send f secnum (-1) FLOORSPEED h) <| FloorMove.texture := Sector.floorpic sec |> in
    let* f := find_change (S (length (Sector.lines sec))) secnum secnum 0 f g in
    Ret (f, w)
  else Ret (f, w).

(** The body of the loop: with the result so far. *)
Definition start_floor (li : Line.line_t) (floortype : Z) (secnum : nat) (st : Z * world) : outcome (Z * world) :=
  let '(rtn, w) := st in
  let* sec := get_sector (Z.of_nat secnum) w in
  if truth (Sector.specialdata sec) then Ret (rtn, w)
  else
    let* self := heap_malloc w in
    let w := w <| gm ::= P_AddThinker self (TFloor (raw_floor self)) |> in
    let* w := on_game (set_specialdata (Z.of_nat secnum) self) w in
    let f := (raw_floor self) <| FloorMove.thinker ::= set_function GameTypes.T_MoveFloor |> <| FloorMove.type := floortype |>
               <| FloorMove.crush := 0 |> in
    let* '(f, w) := floor_setup li floortype secnum f w in
    Ret (1, put_floor self f w).

Definition EV_DoFloor (li : Line.line_t) (floortype : Z) (w : world) : outcome (Z * world) :=
  for_tagged (fun st : Z * world => gm st.2) (S (length (sectors (gm w)))) (Line.tag li) (-1) (start_floor li floortype) (0, w).

(** ** EV_BuildStairs *)

(** A new step: neither its [type] nor [crush] is set. *)
Definition new_step (secnum : nat) (speed height : Z) (w : world) : outcome world :=
  let* self := heap_malloc w in
  let w := w <| gm ::= P_AddThinker self (TFloor (raw_floor self)) |> in
  let* w := on_game (set_specialdata (Z.of_nat secnum) self) w in
  let f := (raw_floor self) <| FloorMove.thinker ::= set_function GameTypes.T_MoveFloor |> <| FloorMove.direction := 1 |>
             <| FloorMove.sector := Z.of_nat secnum |> <| FloorMove.speed := speed |> <| FloorMove.floordestheight := height |> in
  Ret (put_floor self f w).

(** The [for] loop: the next sector to raise, and the height it gets. *)
Fixpoint next_step (ls : list nat) (secnum : nat) (texture stairsize height : Z) (g : game) : outcome (Z * option nat) :=
  match ls with
  | [] => Ret (height, None)
  | l :: ls =>
      let* li := of_option (lines g !! l) in
      if negb (has_flag (Line.flags li) ML_TWOSIDED) then next_step ls secnum texture stairsize height g
      else
        let* front := of_option (Line.frontsector li) in
        if negb (bool_decide (secnum = front)) then next_step ls secnum texture stairsize height g
        else
          let* back := of_option (Line.backsector li) in
          let* tsec := of_option (sectors g !! back) in
          if negb (Sector.floorpic tsec =? texture) then next_step ls secnum texture stairsize height g
          else
            let height := i32 (height + stairsize) in
            if truth (Sector.specialdata tsec) then next_step ls secnum texture stairsize height g
            else Ret (height, Some back)
  end.

(** The [do ... while (ok)]: with the sector that [secnum] ends as. *)
Fixpoint build_steps (fuel secnum : nat) (texture speed stairsize height : Z) (w : world) : outcome (nat * world) :=
  match fuel with
  | O => NoFuel
  | S fuel =>
      let* sec := get_sector (Z.of_nat secnum) w in
      let* '(height, next) := next_step (Sector.lines sec) secnum texture stairsize height (gm w) in
      match next with
      | None => Ret (secnum, w)
      | Some n =>
          let* w := new_step n speed height w in
          build_steps fuel n texture speed stairsize height w
      end
  end.

(** The outer loop. Its variable [secnum] is the one that the inner loop
    changes; [speed] and [stairsize] keep their values for an unknown type. *)
Fixpoint build_stairs (fuel : nat) (tag type : Z) (secnum : Z) (speed stairsize : Z) (rtn : Z) (w : world) : outcome (Z * world) :=
  match fuel with
  | O => NoFuel
  | S fuel =>
      let secnum := P_FindSectorFromLineTag (gm w) tag secnum in
      if secnum >=? 0 then
        let* sec := get_sector secnum w in
        if truth (Sector.specialdata sec) then build_stairs fuel tag type secnum speed stairsize rtn w
        else
          let speed := if type =? build8 then FLOORSPEED ÷ 4 else if type =? turbo16 then FLOORSPEED * 4 else speed in
          let stairsize := if type =? build8 then 8 * FRACUNIT else if type =? turbo16 then 16 * FRACUNIT else stairsize in
          let height := i32 (Sector.floorheight sec + stairsize) in
          let texture := Sector.floorpic sec in
          let* w := new_step (Z.to_nat secnum) speed height w in
          let* '(last, w) := build_steps (S (length (sectors (gm w)))) (Z.to_nat secnum) texture speed stairsize height w in
          build_stairs fuel tag type (Z.of_nat last) speed stairsize 1 w
      else Ret (rtn, w)
  end.

(** Each turn starts a step in a free sector or goes on to a later sector. *)
Definition EV_BuildStairs (li : Line.line_t) (type : Z) (w : world) : outcome (Z * world) :=
  let n := length (sectors (gm w)) in
  build_stairs (S ((n + 1) * (n + 1))) (Line.tag li) type (-1) 0 0 0 w.
End floors.
