(* ===== verification/FloorTheorems.v ===== *)
(** * Floors and stairs: the theorems *)
From S2P Require Import Prelude MFixed MRandom GameTypes Thinkers SectorSearch MovePlane Frame Floors.
#[local] Open Scope doom_scope.

(** A floor on its way. *)
Record floor_valid (f : FloorMove.floormove_t) (sec : Sector.doomsector_t) : Prop := {
  fv_dir : FloorMove.direction f = -1 \/ FloorMove.direction f = 1;
  fv_way : 0 <= FloorMove.direction f * (FloorMove.floordestheight f - Sector.floorheight sec);
  fv_speed : 0 < FloorMove.speed f;
  fv_floor : INT_MIN <= Sector.floorheight sec <= INT_MAX;
  fv_dest : INT_MIN <= FloorMove.floordestheight f + FloorMove.direction f * FloorMove.speed f <= INT_MAX
}.

(** Whether the floor changes its sector when it arrives. *)
Definition changes (f : FloorMove.floormove_t) : bool :=
  (FloorMove.direction f =? 1) && (FloorMove.type f =? donutRaise) ||
  (FloorMove.direction f =? -1) && (FloorMove.type f =? lowerAndChange).
(** The way a floor has left, in tics at most. *)
Definition floor_left (f : FloorMove.floormove_t) (sec : Sector.doomsector_t) : Z :=
  FloorMove.direction f * (FloorMove.floordestheight f - Sector.floorheight sec) + 1.

Section facts.
Context {A : Arch} {im : Image} {C : Crush} {laws : CrushLaws} {H : Heap} {hlaws : HeapLaws} {tx : Textures}.
Implicit Types (w : world) (f : FloorMove.floormove_t).

(** The floor goes on with the floor at [h], or it is removed there. *)
Definition floor_on f (f' : FloorMove.floormove_t) (sec : Sector.doomsector_t) (h : Z) (sec' : Sector.doomsector_t) : Prop :=
  f' = f /\ sec' = sec <| Sector.floorheight := h |> /\ floor_valid f sec'.
Definition floor_gone f (f' : FloorMove.floormove_t) (sec : Sector.doomsector_t) (h : Z) (sec' : Sector.doomsector_t) : Prop :=
  f' = f <| FloorMove.thinker ::= (fun t => t <| Thinker.function := removed |>) |> /\
  sec' = let sec1 := sec <| Sector.floorheight := h |> <| Sector.specialdata := 0 |> in
         if changes f then change_floor f sec1 else sec1.

Definition floor_tic (self : Z) (s : nat) f sec w (m : outcome world) : Prop :=
  exists w' f' sec' h, m = Ret w' /\ thing_at self (gm w') = Some (TFloor f') /\
    sectors (gm w') = <[s := sec']> (sectors (gm w)) /\ frame self s w w' /\
    0 <= FloorMove.direction f * (h - Sector.floorheight sec) /\ 0 <= FloorMove.direction f * (FloorMove.floordestheight f - h) /\
    (floor_on f f' sec h sec' \/ floor_gone f f' sec h sec') /\
    (unobstructed -> floor_on f f' sec h sec' /\ floor_left f sec' < floor_left f sec \/
                     floor_gone f f' sec h sec' /\ h = FloorMove.floordestheight f).

Lemma get_floor_at self f w : thing_at self (gm w) = Some (TFloor f) -> get_floor self w = Ret f.
Proof. unfold get_floor. by intros ->. Qed.

Lemma floor_tic_run self s f sec w : thing_at self (gm w) = Some (TFloor f) -> FloorMove.sector f = Z.of_nat s ->
  sectors (gm w) !! s = Some sec -> floor_valid f sec -> floor_tic self s f sec w (T_MoveFloor self w).
Proof.
  intros Hat Hs Hsec [Hd Hway Hsp Hfl Hde]. unfold T_MoveFloor. rewrite (get_floor_at self f) by done. cbn [obind]. rewrite Hs.
  destruct (moved_mover self (TFloor f) s sec (FloorMove.speed f) (FloorMove.floordestheight f) (FloorMove.crush f) false (FloorMove.direction f) w)
    as (res & h & w1 & E & Hat1 & Es1 & _ & _ & Fr1 & Hst & Hb & Hfree);
    [done|done|done|done|lia|cbn [plane]; unfold INT_MIN, INT_MAX in *; destruct Hd as [Hd|Hd]; rewrite Hd in *; in_range|].
  cbn [plane set_plane of_bool] in *. specialize (Hb Hway). destruct Hb as [Hb1 Hb2]. rewrite E. cbn [obind].
  rewrite (get_floor_at self f) by done. cbn [obind]. set (w2 := if negb _ then _ else w1).
  assert (Ew : gm w2 = gm w1) by (unfold w2; by destruct (negb _)). clearbody w2.
  assert (Fr2 : frame self s w w2) by (by eapply frame_game).
  set (sec1 := sec <| Sector.floorheight := h |>) in *.
  assert (Hv1 : floor_valid f sec1).
  { split; cbn; try done. unfold INT_MIN, INT_MAX in *. destruct Hd as [Hd|Hd]; rewrite Hd in *; lia. }
  assert (Hfree' : unobstructed -> res = ok /\ floor_left f sec1 < floor_left f sec \/ res = pastdest /\ h = FloorMove.floordestheight f).
  { intros Hu. specialize (Hfree Hu). destruct (0 <? _) eqn:Ep; breflect; [by right|]. left. destruct Hfree as [-> ->].
    split; [done|]. unfold floor_left. cbn. destruct Hd as [Hd|Hd]; rewrite Hd in *; lia. }
  destruct res; [exists w2, f, sec1, h; rewrite Ew; split_and!; try done; [by left|];
    intros Hu; destruct (Hfree' Hu) as [[? ?]|[? _]]; [by left|done]..|].
  assert (Hsec2 : sectors (gm w2) !! s = Some sec1) by (rewrite Ew, Es1; by rewrite list_lookup_insert_eq by (by eapply lookup_lt_Some)).
  rewrite Hs, (specialdata_run s sec1) by done. cbn [obind]. set (w3 := set_sector _ _ w2).
  assert (Fr3 : frame self s w w3) by (etransitivity; [exact Fr2|by eapply frame_set_sector]).
  assert (Hsec3 : sectors (gm w3) !! s = Some (sec1 <| Sector.specialdata := 0 |>)) by (by eapply set_sector_at).
  set (sec4 := if changes f then change_floor f (sec1 <| Sector.specialdata := 0 |>) else sec1 <| Sector.specialdata := 0 |>).
  assert (E4 : exists w4, (if changes f then upd_sector (Z.of_nat s) (change_floor f) w3 else Ret w3) = Ret w4 /\ frame self s w w4 /\
    thinkers (gm w4) = thinkers (gm w1) /\ sectors (gm w4) = <[s := sec4]> (sectors (gm w))).
  { unfold sec4. destruct (changes f).
    - rewrite (upd_sector_run s (sec1 <| Sector.specialdata := 0 |>)) by done. eexists. split; [reflexivity|]. split_and!.
      + etransitivity; [exact Fr3|by eapply frame_set_sector].
      + cbn. by rewrite Ew.
      + cbn. rewrite Nat2Z.id, Ew, Es1, !list_insert_insert_eq. done.
    - exists w3. split_and!; try done; cbn; [by rewrite Ew|]. rewrite Nat2Z.id, Ew, Es1. apply list_insert_insert_eq. }
  destruct E4 as (w4 & E4 & Fr4 & Et4 & Es4). change (_ && _ || _ && _) with (changes f). rewrite E4. cbn [obind].
  assert (Hat4 : thing_at self (gm w4) = Some (TFloor f)) by (unfold thing_at; by rewrite Et4).
  rewrite (remove_run self (TFloor f)) by done. cbn [obind].
  eexists _, (f <| FloorMove.thinker ::= (fun t => t <| Thinker.function := removed |>) |>), sec4, h. split; [reflexivity|].
  assert (Hg : floor_gone f (f <| FloorMove.thinker ::= (fun t => t <| Thinker.function := removed |>) |>) sec h sec4) by done.
  split_and!; [| |etransitivity; [exact Fr4|eapply (frame_game _ _ _ (w4 <| gm ::= put_thing self _ |>)); [reflexivity|by apply frame_put]]|done|done|by right|].
  - cbn [gm update floor_sound S_StartSound]. by eapply thing_at_put_same.
  - exact Es4.
  - intros Hu. right. split; [done|]. by destruct (Hfree' Hu) as [[? _]|[_ ?]].
Qed.

(** [n] tics in a row. *)
Fixpoint floor_tics (n : nat) (self : Z) (w : world) : outcome world :=
  match n with
  | O => Ret w
  | S n => let* w := T_MoveFloor self w in floor_tics n self w
  end.

(** ** Stairs *)

(** The lines of a level that can be built on: the two-sided ones have two
    sides. *)
Record stairs_ok (g : game) : Prop := {
  so_level : level_ok g;
  so_sides l li : lines g !! l = Some li -> has_flag (Line.flags li) ML_TWOSIDED = true ->
    is_Some (Line.frontsector li) /\ is_Some (Line.backsector li)
}.
(** The sectors that nothing moves. *)
Definition idle (l : list Sector.doomsector_t) : nat := length (filter (fun sec => Sector.specialdata sec = 0) l).

(** The movers that were added from [w] to [w']: each in a sector that was
    idle, a rising floor. Nothing says whether it crushes. *)
Definition new_floor (k : nat) (sec : Sector.doomsector_t) (w' : world) : Prop :=
  Sector.specialdata sec = 0 /\ exists self f, self <> 0 /\
    sectors (gm w') !! k = Some (sec <| Sector.specialdata := self |>) /\ thing_at self (gm w') = Some (TFloor f) /\
    FloorMove.sector f = Z.of_nat k /\ FloorMove.direction f = 1 /\
    Thinker.function (FloorMove.thinker f) = fn_addr GameTypes.T_MoveFloor /\
    FloorMove.crush f = FloorMove.crush (raw_floor self) /\ FloorMove.type f = FloorMove.type (raw_floor self).
(** A step is added in an idle sector. *)
Definition step_added (w w' : world) : Prop := exists n sec speed height,
  sectors (gm w) !! n = Some sec /\ Sector.specialdata sec = 0 /\ new_step n speed height w = Ret w'.
Record built (w w' : world) : Prop := {
  bu_steps : rtc step_added w w';
  bu_lines : lines (gm w') = lines (gm w);
  bu_length : length (sectors (gm w')) = length (sectors (gm w));
  bu_things a th : thing_at a (gm w) = Some th -> thing_at a (gm w') = Some th;
  bu_sectors k sec : sectors (gm w) !! k = Some sec -> sectors (gm w') !! k = Some sec \/ new_floor k sec w';
  bu_idle : (idle (sectors (gm w')) <= idle (sectors (gm w)))%nat
}.

#[local] Instance built_pre : PreOrder built.
Proof.
  split.
  - intros w. split; try done. by left.
  - intros w1 w2 w3 [A0 A1 A2 A3 A4 A5] [B0 B1 B2 B3 B4 B5]. split; [by transitivity w2|congruence|congruence|auto| |lia].
    intros k sec E. destruct (A4 k sec E) as [E2|(Hz & self & f & Hs & E2 & Ht & Hr)].
    + by apply B4.
    + right. split; [done|]. exists self, f. destruct (B4 _ _ E2) as [E3|(Hz3 & _)]; [|by cbn in Hz3]. split_and!; try done; try apply Hr. auto.
Qed.

Lemma built_tags w w' : built w w' -> (Sector.tag <$> sectors (gm w')) = (Sector.tag <$> sectors (gm w)).
Proof.
  intros [_ _ B2 _ B4 _]. apply list_eq. intros k. rewrite !list_lookup_fmap.
  destruct (sectors (gm w) !! k) as [sec|] eqn:E.
  - by destruct (B4 k sec E) as [->|(_ & self & f & _ & -> & _)].
  - apply lookup_ge_None in E. by rewrite (proj2 (lookup_ge_None _ _)) by lia.
Qed.

Lemma built_ok w w' : built w w' -> stairs_ok (gm w) -> stairs_ok (gm w').
Proof.
  intros [_ B1 B2 _ B4 _] [[L1 L2] L3]. split; [split|]; rewrite ?B1; [| |done].
  - intros k sec' E'. destruct (lookup_lt_is_Some_2 (sectors (gm w)) k) as [sec E]; [rewrite <- B2; by eapply lookup_lt_Some|].
    specialize (L1 k sec E). destruct (B4 k sec E) as [E2|(_ & self & f & _ & E2 & _)]; rewrite E' in E2; by injection E2 as ->.
  - intros l li o El Ho. apply lookup_lt_is_Some_2. rewrite B2. apply lookup_lt_is_Some_1. by eapply L2.
Qed.

Lemma idle_insert l k sec sec' : l !! k = Some sec -> Sector.specialdata sec = 0 -> Sector.specialdata sec' <> 0 ->
  idle l = S (idle (<[k := sec']> l)).
Proof.
  intros E Hz Hnz. unfold idle. pose proof (lookup_lt_Some _ _ _ E) as Hlt.
  rewrite (insert_take_drop l k sec') by done. rewrite <- (take_drop_middle l k sec E) at 1.
  rewrite !filter_app, filter_cons_True, filter_cons_False by done. rewrite !length_app. cbn. lia.
Qed.

Lemma new_step_run n sec speed height w : sectors (gm w) !! n = Some sec -> Sector.specialdata sec = 0 ->
  exists w', new_step n speed height w = Ret w' /\ built w w' /\ idle (sectors (gm w)) = S (idle (sectors (gm w'))).
Proof.
  intros E Hz. assert (Hadd : forall w', new_step n speed height w = Ret w' -> rtc step_added w w')
    by (intros w' En; apply rtc_once; by exists n, sec, speed, height).
  unfold new_step in *. destruct (heap_fresh w) as (self & Em & Hnz & Hfr). rewrite Em in *. cbn [obind] in *.
  set (w1 := w <| gm ::= P_AddThinker self _ |>) in *. rewrite (specialdata_run n sec) in * by done. cbn [obind] in *.
  eexists. split; [reflexivity|]. set (f := (raw_floor self) <| FloorMove.thinker ::= _ |> <| FloorMove.direction := 1 |>
    <| FloorMove.sector := _ |> <| FloorMove.speed := _ |> <| FloorMove.floordestheight := _ |>).
  set (w2 := put_floor self f _).
  assert (Es : sectors (gm w2) = <[n := sec <| Sector.specialdata := self |>]> (sectors (gm w))) by (cbn; by rewrite Nat2Z.id).
  assert (Hth : forall a, thing_at a (gm w2) = if a =? self then Some (TFloor f) else thing_at a (gm w))
    by (intros a; exact (thing_at_new self (TFloor (raw_floor self)) (TFloor f) (gm w) a Hfr)).
  assert (Hid : idle (sectors (gm w)) = S (idle (sectors (gm w2)))) by (rewrite Es; by eapply idle_insert).
  split; [|done]. split; [by apply Hadd|done| | | |lia].
  - rewrite Es. apply length_insert.
  - intros a th Ha. rewrite Hth. destruct (a =? self) eqn:Ea; breflect; [|done]. subst a.
    unfold thing_at in Ha. by rewrite thing_in_fresh in Ha.
  - intros k sec' Ek. rewrite Es. destruct (decide (n = k)) as [<-|Hne].
    + rewrite E in Ek. injection Ek as <-. right. split; [done|]. exists self, f. rewrite Hth, Z.eqb_refl, Es.
      rewrite list_lookup_insert_eq by (by eapply lookup_lt_Some). by split_and!.
    + left. by rewrite list_lookup_insert_ne.
Qed.

Lemma next_step_run secnum texture stairsize g ls : stairs_ok g -> Forall (fun l => is_Some (lines g !! l)) ls ->
  forall height, exists h r, next_step ls secnum texture stairsize height g = Ret (h, r) /\
    match r with None => True | Some n => exists sec, sectors g !! n = Some sec /\ Sector.specialdata sec = 0 end.
Proof.
  intros [[L1 L2] L3] Hls. induction Hls as [|l ls [li El] Hls IH]; intros height; cbn [next_step]; [by eexists _, None|].
  rewrite El. cbn [of_option obind]. destruct (has_flag (Line.flags li) ML_TWOSIDED) eqn:E2; cbn [negb]; [|apply IH].
  destruct (L3 l li El E2) as [[front Ef] [back Eb]]. rewrite Ef. cbn [of_option obind].
  case_bool_decide; cbn [negb]; [|apply IH]. rewrite Eb. cbn [of_option obind].
  destruct (L2 l li back El (or_intror Eb)) as [tsec Et]. rewrite Et. cbn [of_option obind].
  destruct (negb _); [apply IH|]. destruct (truth (Sector.specialdata tsec)) eqn:Ez; [apply IH|].
  eexists _, (Some back). split; [reflexivity|]. exists tsec. split; [done|]. unfold truth in Ez. by breflect.
Qed.

Lemma build_steps_run texture speed stairsize fuel : forall secnum height w, stairs_ok (gm w) ->
  (secnum < length (sectors (gm w)))%nat -> (idle (sectors (gm w)) < fuel)%nat ->
  exists last w', build_steps fuel secnum texture speed stairsize height w = Ret (last, w') /\ built w w' /\
    (last < length (sectors (gm w')))%nat.
Proof.
  induction fuel as [|fuel IH]; intros secnum height w Hok Hlt Hfuel; [lia|]. cbn [build_steps].
  destruct (lookup_lt_is_Some_2 _ _ Hlt) as [sec E]. rewrite (get_sector_at secnum sec) by done. cbn [obind].
  destruct (next_step_run secnum texture stairsize (gm w) (Sector.lines sec) Hok) with (height := height) as (h & [n|] & -> & Hn).
  { by eapply lv_lines; [apply Hok|]. }
  - cbn [obind]. destruct Hn as (tsec & En & Hz). destruct (new_step_run n tsec speed h w En Hz) as (w1 & -> & Hb & Hid). cbn [obind].
    destruct (IH n h w1) as (last & w' & E' & Hb' & Hl'); [by eapply built_ok| |lia|].
    { rewrite (bu_length _ _ Hb). by eapply lookup_lt_Some. }
    exists last, w'. split_and!; try done. by transitivity w1.
  - cbn [obind]. by exists secnum, w.
Qed.

(** What is left to do for the outer loop. *)
Definition stairs_left (secnum : Z) (w : world) : nat :=
  idle (sectors (gm w)) * (length (sectors (gm w)) + 1) + Z.to_nat (Z.of_nat (length (sectors (gm w))) - 1 - secnum).

Lemma find_tag_range tag l i : find_tag tag l i = -1 \/ i <= find_tag tag l i < i + Z.of_nat (length l).
Proof.
  revert i. induction l as [|sec l IH]; intros i; cbn [find_tag length]; [by left|]. destruct (_ =? tag); [right; lia|].
  destruct (IH (i + 1)) as [->|Hr]; [by left|right; lia].
Qed.

Lemma build_stairs_run tag type fuel : forall secnum speed stairsize rtn w, stairs_ok (gm w) ->
  -1 <= secnum < Z.of_nat (length (sectors (gm w))) -> (stairs_left secnum w < fuel)%nat ->
  exists rtn' w', build_stairs fuel tag type secnum speed stairsize rtn w = Ret (rtn', w') /\ built w w'.
Proof.
  induction fuel as [|fuel IH]; intros secnum speed stairsize rtn w Hok Hs Hfuel; [lia|]. cbn [build_stairs].
  set (k := P_FindSectorFromLineTag (gm w) tag secnum).
  assert (Hk : k = -1 \/ secnum < k < Z.of_nat (length (sectors (gm w)))).
  { destruct (find_tag_range tag (drop (Z.to_nat (secnum + 1)) (sectors (gm w))) (secnum + 1)) as [Hr|Hr]; [by left|right].
    rewrite length_drop in Hr. change (find_tag _ _ _) with k in Hr. lia. }
  rewrite Z.geb_leb. destruct (0 <=? k) eqn:Ek; breflect; [|by exists rtn, w]. destruct Hk as [->|Hk]; [lia|].
  destruct (lookup_lt_is_Some_2 (sectors (gm w)) (Z.to_nat k)) as [sec E]; [lia|].
  assert (Eg : get_sector k w = Ret sec) by (rewrite <- (Z2Nat.id k) by lia; by apply get_sector_at). rewrite Eg. cbn [obind].
  destruct (truth (Sector.specialdata sec)) eqn:Ez; unfold truth in Ez; breflect.
  - destruct (IH k speed stairsize rtn w Hok) as (rtn' & w' & E' & Hb'); [lia|unfold stairs_left in *; lia|by exists rtn', w'].
  - set (sp := if _ =? build8 then _ else _). set (st := if _ =? build8 then 8 * FRACUNIT else _).
    destruct (new_step_run (Z.to_nat k) sec sp (i32 (Sector.floorheight sec + st)) w E Ez) as (w1 & -> & Hb1 & Hid). cbn [obind].
    pose proof (built_ok _ _ Hb1 Hok) as Hok1. pose proof (bu_length _ _ Hb1) as Hl1.
    destruct (build_steps_run (Sector.floorpic sec) sp st (S (length (sectors (gm w1)))) (Z.to_nat k) (i32 (Sector.floorheight sec + st)) w1 Hok1)
      as (last & w2 & -> & Hb2 & Hlast); [rewrite Hl1; lia|unfold idle; pose proof (length_filter (fun sec => Sector.specialdata sec = 0) (sectors (gm w1))); lia|].
    cbn [obind]. pose proof (bu_length _ _ Hb2) as Hl2. pose proof (bu_idle _ _ Hb2) as Hi2.
    destruct (IH (Z.of_nat last) sp st 1 w2 (built_ok _ _ Hb2 Hok1)) as (rtn' & w' & -> & Hb'); [lia| |].
    { unfold stairs_left in *. rewrite Hl2, Hl1 in *. nia. }
    exists rtn', w'. split; [done|]. transitivity w1; [done|]. by transitivity w2.
Qed.
Lemma stairs_run li type w : stairs_ok (gm w) -> exists rtn w', EV_BuildStairs li type w = Ret (rtn, w') /\ built w w'.
Proof.
  intros Hok. unfold EV_BuildStairs. apply build_stairs_run; [done|lia|]. unfold stairs_left, idle.
  pose proof (length_filter (fun sec => Sector.specialdata sec = 0) (sectors (gm w))). nia.
Qed.
End facts.

(** ** Changing floors *)

(** The sides of the two-sided lines are sides of sectors. *)
Definition sides_ok (g : game) : Prop := forall l li i, lines g !! l = Some li -> has_flag (Line.flags li) ML_TWOSIDED = true ->
  (i < 2)%nat -> exists num si, Line.sidenum li !! i = Some num /\ 0 <= num /\ sides g !! Z.to_nat num = Some si /\
    0 <= Side.sector si /\ is_Some (sectors g !! Z.to_nat (Side.sector si)).

Lemma getSide_ok g secnum i li side : sides_ok g -> line_of secnum i g = Ret li -> has_flag (Line.flags li) ML_TWOSIDED = true ->
  (side < 2)%nat -> exists si, getSide secnum i side g = Ret si /\ 0 <= Side.sector si /\ is_Some (sectors g !! Z.to_nat (Side.sector si)).
Proof.
  intros Hok El E2 Hi. unfold getSide. rewrite El. cbn [obind]. unfold line_of in El.
  destruct (sectors g !! secnum) as [sec|]; [|done]. cbn [of_option obind] in El.
  destruct (Sector.lines sec !! i) as [l|]; [|done]. cbn [of_option obind] in El.
  destruct (lines g !! l) as [li'|] eqn:E'; [|done]. injection El as ->.
  destruct (Hok l li side E' E2 Hi) as (num & si & -> & Hn & Hsi & Hr). cbn [of_option obind].
  rewrite (proj2 (Z.ltb_ge _ _)) by done. rewrite Hsi. by exists si.
Qed.

Lemma find_change_run g secnum sec f : level_ok g -> sides_ok g -> sectors g !! secnum = Some sec ->
  Forall (fun s => length (Sector.lines s) <= length (Sector.lines sec))%nat (sectors g) ->
  forall fuel cur i, is_Some (sectors g !! cur) -> (i <= length (Sector.lines sec))%nat -> (length (Sector.lines sec) - i < fuel)%nat ->
  exists f', find_change fuel secnum cur i f g = Ret f' /\
    FloorMove.floordestheight f' = FloorMove.floordestheight f /\ FloorMove.direction f' = FloorMove.direction f /\
    FloorMove.speed f' = FloorMove.speed f /\ FloorMove.sector f' = FloorMove.sector f /\ FloorMove.thinker f' = FloorMove.thinker f.
Proof.
  intros Hl Hsi Hsec Hn. induction fuel as [|fuel IH]; intros cur i [cs Ec] Hi Hf; [lia|]. cbn [find_change].
  rewrite Ec. cbn [of_option obind]. pose proof (proj1 (Forall_lookup _ _) Hn cur cs Ec) as Hcs. cbn in Hcs.
  case_bool_decide as Hlt; [|by exists f].
  destruct (lookup_lt_is_Some_2 (Sector.lines sec) i) as [l El]; [lia|].
  destruct (proj1 (Forall_lookup _ _) (lv_lines g Hl secnum sec Hsec) i l El) as [li Eli].
  assert (Elo : line_of secnum i g = Ret li) by (unfold line_of; rewrite Hsec; cbn [of_option obind]; rewrite El; cbn [of_option obind]; by rewrite Eli).
  unfold twoSided. rewrite Elo. cbn [obind]. destruct (has_flag (Line.flags li) ML_TWOSIDED) eqn:E2; [|apply IH; [done|lia|lia]].
  destruct (getSide_ok g secnum i li 0 Hsi Elo E2) as (s0 & E0 & H0 & H0'); [lia|].
  destruct (getSide_ok g secnum i li 1 Hsi Elo E2) as (s1 & E1 & H1 & H1'); [lia|].
  unfold getSector. rewrite E0, E1. cbn [obind].
  assert (Ho : exists o, (if Side.sector s0 =? Z.of_nat secnum then Ret (Side.sector s1) else Ret (Side.sector s0)) = Ret o /\
    0 <= o /\ is_Some (sectors g !! Z.to_nat o)) by (destruct (_ =? _); by eexists).
  destruct Ho as (o & -> & Ho & [os Eo]). cbn [obind]. rewrite (proj2 (Z.ltb_ge _ _)), Eo by done. cbn [of_option obind].
  destruct (_ =? _); [by eexists|]. apply IH; [done|lia|lia].
Qed.

(** ** The claims *)
Section claims.
Context {A : Arch} {im : Image} {C : Crush} {laws : CrushLaws} {H : Heap} {hlaws : HeapLaws} {tx : Textures}.
Implicit Types (w : world) (f : FloorMove.floormove_t).

(** one tic of a floor goes through: the floor moves towards its
    destination and never past it, nothing but this floor and its sector
    changes, and either it goes on as before, or it is removed: its thinker is
    marked, its sector is free again and takes the new special and picture if
    the type of the floor says so. *)
Theorem T_MoveFloor_correct self s f sec w : thing_at self (gm w) = Some (TFloor f) -> FloorMove.sector f = Z.of_nat s ->
  sectors (gm w) !! s = Some sec -> floor_valid f sec -> floor_tic self s f sec w (T_MoveFloor self w).
Proof. apply floor_tic_run. Qed.

(** C27: a floor that nothing gets in the way of arrives: after a bounded
    number of tics it is removed, with the floor exactly at its destination
    and its sector free, and no other sector has changed. *)
Theorem floor_arrives self s f sec w : unobstructed -> thing_at self (gm w) = Some (TFloor f) -> FloorMove.sector f = Z.of_nat s ->
  sectors (gm w) !! s = Some sec -> floor_valid f sec ->
  exists n w' f' sec', Z.of_nat n <= floor_left f sec /\ floor_tics n self w = Ret w' /\ thing_at self (gm w') = Some (TFloor f') /\
    Thinker.function (FloorMove.thinker f') = removed /\ sectors (gm w') = <[s := sec']> (sectors (gm w)) /\
    Sector.floorheight sec' = FloorMove.floordestheight f /\ Sector.specialdata sec' = 0 /\
    Sector.ceilingheight sec' = Sector.ceilingheight sec /\
    Sector.special sec' = (if changes f then i16 (FloorMove.newspecial f) else Sector.special sec).
Proof.
  intros Hu. remember (Z.to_nat (floor_left f sec)) as m eqn:Em. revert sec w Em.
  induction m as [m IH] using lt_wf_ind. intros sec w -> Hat Hs Hsec Hv.
  assert (Hpos : 0 < floor_left f sec) by (unfold floor_left; pose proof (fv_way _ _ Hv); lia).
  destruct (floor_tic_run self s f sec w Hat Hs Hsec Hv) as (w1 & f1 & sec1 & h & E & Hat1 & Es1 & _ & _ & _ & _ & Hp).
  destruct (Hp Hu) as [[(-> & -> & Hv1) Hlt]|[(-> & ->) ->]].
  - assert (Hsec1 : sectors (gm w1) !! s = Some (sec <| Sector.floorheight := h |>))
      by (rewrite Es1; by rewrite list_lookup_insert_eq by (by eapply lookup_lt_Some)).
    assert (Hpos1 : 0 < floor_left f (sec <| Sector.floorheight := h |>)) by (unfold floor_left; pose proof (fv_way _ _ Hv1); lia).
    destruct (IH (Z.to_nat (floor_left f (sec <| Sector.floorheight := h |>))) ltac:(lia) _ w1 eq_refl Hat1 Hs Hsec1 Hv1)
      as (n & w' & f' & sec' & Hn & E' & Hat' & Hf' & Es' & R1 & R2 & R3 & R4).
    exists (S n), w', f', sec'. split_and!; try done; [lia|cbn [floor_tics]; by rewrite E|].
    rewrite Es', Es1. apply list_insert_insert_eq.
  - eexists 1%nat, w1, _, _. split; [lia|]. split; [cbn [floor_tics]; by rewrite E|]. split; [exact Hat1|]. split; [done|]. split; [exact Es1|].
    unfold change_floor. by destruct (changes f).
Qed.

(** C38: EV_BuildStairs terminates on every level, also where the steps lead
    back to sectors the outer loop has already passed, and only adds rising
    floors, each in a sector that nothing moved before: all other sectors and
    objects are as before. What the new floors have as their type and whether
    they crush is what their memory held. *)
Theorem EV_BuildStairs_terminates li type w : stairs_ok (gm w) ->
  exists rtn w', EV_BuildStairs li type w = Ret (rtn, w') /\ built w w'.
Proof. apply stairs_run. Qed.

End claims.

(** ** Witnesses *)
Section witness.
Import Demo.
#[local] Instance textures : Textures := [64 * FRACUNIT; 128 * FRACUNIT].
Definition floor_side (s : Z) : Side.side_t := Side.mk 0 0 0 1 0 s.
(** Three rooms in a row, with their sides. *)
Definition floor_game : game := rooms <| sides := [floor_side 0; floor_side 1; floor_side 1; floor_side 2] |>.
Definition lift : FloorMove.floormove_t :=
  FloorMove.mk (Thinker.mk 77 77 104) raiseFloor24 0 1 1 77 77 (25 * FRACUNIT) FLOORSPEED.
Definition lift_room : Sector.doomsector_t := (room 65536 3 [0%nat; 1%nat]) <| Sector.specialdata := 1 |>.
Definition lift_world : world :=
  mk_world (floor_game <| thinkers := [(1, TFloor lift)] |> <| sectors ::= <[1%nat := lift_room]> |>) (mk_rnd 0 0) [].
Lemma lift_valid : floor_valid lift lift_room.
Proof. split; cbn; unfold INT_MIN, INT_MAX, FLOORSPEED, FRACUNIT; lia || auto. Qed.

Lemma T_MoveFloor_correct_witness : floor_tic 1 1 lift lift_room lift_world (T_MoveFloor 1 lift_world).
Proof. apply (T_MoveFloor_correct 1 1 lift lift_room lift_world); [reflexivity|reflexivity|reflexivity|exact lift_valid]. Defined.

#[local] Instance free_fall : Crush := fun _ _ w => (false, w).
#[local] Instance free_fall_laws {A : Arch} {im : Image} : CrushLaws (C := free_fall).
Proof. split; try done. intros s c w. exists []. by rewrite app_nil_r. Qed.
Lemma floor_arrives_witness : exists n w' f' sec', Z.of_nat n <= floor_left lift lift_room /\ floor_tics (C := free_fall) n 1 lift_world = Ret w' /\
  thing_at 1 (gm w') = Some (TFloor f') /\ sectors (gm w') = <[1%nat := sec']> (sectors (gm lift_world)) /\
  Sector.floorheight sec' = 25 * FRACUNIT.
Proof.
  destruct (floor_arrives (C := free_fall) (laws := free_fall_laws) 1 1 lift lift_room lift_world) as (n & w' & f' & sec' & Hn & E & Ht & _ & Es & Hh & _);
    [done|reflexivity|reflexivity|reflexivity|exact lift_valid|].
  exists n, w', f', sec'. split; [exact Hn|]. split; [exact E|]. split; [exact Ht|]. split; [exact Es|exact Hh].
Defined.

Definition stair_world : world := mk_world floor_game (mk_rnd 0 0) [].
Definition stair_line : Line.line_t := Line.mk ML_TWOSIDED 8 7 [0; 1] (Some 0%nat) (Some 1%nat).
Lemma stair_ok : stairs_ok (gm stair_world).
Proof.
  split; [destruct rooms_ok as [H1 H2]; split; [exact H1|exact H2]|].
  intros l li. do 2 (destruct l as [|l]; [intros [= <-] _; split; eexists; reflexivity|]). done.
Qed.
(** The staircase goes up through all three rooms. *)
Lemma EV_BuildStairs_terminates_witness : exists rtn w', EV_BuildStairs stair_line build8 stair_world = Ret (rtn, w') /\
  built stair_world w'.
Proof. apply (EV_BuildStairs_terminates stair_line build8 stair_world stair_ok). Defined.

Lemma floor_game_sides : sides_ok floor_game.
Proof.
  intros l li i. do 2 (destruct l as [|l]; [intros [= <-] _ Hi; do 2 (destruct i as [|i]; [eexists _, _; split_and!; try reflexivity; cbn; try lia; eexists; reflexivity|]); lia|]).
  done.
Qed.
Lemma floor_game_ok : level_ok floor_game.
Proof. destruct rooms_ok as [H1 H2]. split; [exact H1|exact H2]. Qed.

(** The loop of lowerAndChange looks for the line of its sector behind
    which the floor is at the destination. It goes through when no sector has
    more lines than this one; but its bound is the line count of the sector it
    looked at last, so that next to a sector with more lines it reads past the
    lines of its own. *)
Theorem lowerAndChange_lines :
  (forall g secnum sec f, level_ok g -> sides_ok g -> sectors g !! secnum = Some sec ->
     Forall (fun s => length (Sector.lines s) <= length (Sector.lines sec))%nat (sectors g) ->
     exists f', find_change (S (length (Sector.lines sec))) secnum secnum 0 f g = Ret f' /\
       FloorMove.floordestheight f' = FloorMove.floordestheight f) /\
  (level_ok (gm stair_world) /\ sides_ok (gm stair_world) /\ EV_DoFloor stair_line lowerAndChange stair_world = Undef).
Proof.
  split.
  - intros g secnum sec f Hl Hsi Hsec Hn. destruct (find_change_run g secnum sec f Hl Hsi Hsec Hn (S (length (Sector.lines sec))) secnum 0)
      as (f' & E & Hd & _); [done|lia|lia|by exists f'].
  - split; [exact floor_game_ok|]. split; [exact floor_game_sides|]. reflexivity.
Qed.
End witness.
