(* ===== verification/Lights.v ===== *)
(** * Lights (src/commands/doom/p_lights.c) *)
From S2P Require Import Prelude MFixed MRandom GameTypes Thinkers SectorSearch MovePlane.
#[local] Open Scope doom_scope.

Definition GLOWSPEED : Z := 8.
Definition STROBEBRIGHT : Z := 5.
Definition FASTDARK : Z := 15.
Definition SLOWDARK : Z := 35.

Section lights.
Context {im : Image} {H : Heap}.

Definition get_flicker (self : Z) (w : world) : outcome FireFlicker.fireflicker_t :=
  match thing_at self (gm w) with Some (TFlicker f) => Ret f | _ => Undef end.
Definition get_flash (self : Z) (w : world) : outcome LightFlash.lightflash_t :=
  match thing_at self (gm w) with Some (TFlash f) => Ret f | _ => Undef end.
Definition get_strobe (self : Z) (w : world) : outcome Strobe.strobe_t :=
  match thing_at self (gm w) with Some (TStrobe f) => Ret f | _ => Undef end.
Definition get_glow (self : Z) (w : world) : outcome Glow.glow_t :=
  match thing_at self (gm w) with Some (TGlow f) => Ret f | _ => Undef end.
Definition put_light (self : Z) (th : thing) (w : world) : world := w <| gm ::= put_thing self th |>.

(** [sector->lightlevel = level], a [short]. *)
Definition set_light (s level : Z) (w : world) : outcome world :=
  upd_sector s (fun sec => sec <| Sector.lightlevel := i16 level |>) w.
(** A random number, masked. *)
Definition random_and (mask : Z) (w : world) : outcome (Z * world) :=
  let* '(r, rn) := P_Random (rnd w) in Ret (Z.land r mask, w <| rnd := rn |>).

Definition T_FireFlicker (self : Z) (w : world) : outcome world :=
  let* f := get_flicker self w in
  let f := f <| FireFlicker.count ::= fun c => i32 (c - 1) |> in
  if truth (FireFlicker.count f) then Ret (put_light self (TFlicker f) w)
  else
    let* '(r, w) := random_and 3 w in
    let amount := r * 16 in
    let* sec := get_sector (FireFlicker.sector f) w in
    let* w := (if Sector.lightlevel sec - amount <? FireFlicker.minlight f
               then set_light (FireFlicker.sector f) (FireFlicker.minlight f) w
               else set_light (FireFlicker.sector f) (FireFlicker.maxlight f - amount) w) in
    Ret (put_light self (TFlicker (f <| FireFlicker.count := 4 |>)) w).

Definition T_LightFlash (self : Z) (w : world) : outcome world :=
  let* f := get_flash self w in
  let f := f <| LightFlash.count ::= fun c => i32 (c - 1) |> in
  if truth (LightFlash.count f) then Ret (put_light self (TFlash f) w)
  else
    let* sec := get_sector (LightFlash.sector f) w in
    let bright := Sector.lightlevel sec =? LightFlash.maxlight f in
    let* w := set_light (LightFlash.sector f) (if bright then LightFlash.minlight f else LightFlash.maxlight f) w in
    let* '(r, w) := random_and (if bright then LightFlash.mintime f else LightFlash.maxtime f) w in
    Ret (put_light self (TFlash (f <| LightFlash.count := i32 (r + 1) |>)) w).

Definition T_StrobeFlash (self : Z) (w : world) : outcome world :=
  let* f := get_strobe self w in
  let f := f <| Strobe.count ::= fun c => i32 (c - 1) |> in
  if truth (Strobe.count f) then Ret (put_light self (TStrobe f) w)
  else
    let* sec := get_sector (Strobe.sector f) w in
    let dark := Sector.lightlevel sec =? Strobe.minlight f in
    let* w := set_light (Strobe.sector f) (if dark then Strobe.maxlight f else Strobe.minlight f) w in
    Ret (put_light self (TStrobe (f <| Strobe.count := if dark then Strobe.brighttime f else Strobe.darktime f |>)) w).

Definition T_Glow (self : Z) (w : world) : outcome world :=
  let* g := get_glow self w in
  let s := Glow.sector g in
  if Glow.direction g =? -1 then
    let* sec := get_sector s w in
    let* w := set_light s (Sector.lightlevel sec - GLOWSPEED) w in
    let* sec := get_sector s w in
    if Sector.lightlevel sec <=? Glow.minlight g then
      let* w := set_light s (Sector.lightlevel sec + GLOWSPEED) w in
      Ret (put_light self (TGlow (g <| Glow.direction := 1 |>)) w)
    else Ret w
  else if Glow.direction g =? 1 then
    let* sec := get_sector s w in
    let* w := set_light s (Sector.lightlevel sec + GLOWSPEED) w in
    let* sec := get_sector s w in
    if Sector.lightlevel sec >=? Glow.maxlight g then
      let* w := set_light s (Sector.lightlevel sec - GLOWSPEED) w in
      Ret (put_light self (TGlow (g <| Glow.direction := -1 |>)) w)
    else Ret w
  else Ret w.

(** ** The lights of a level *)

(** [sector->special = 0] *)
Definition clear_special (secnum : nat) (w : world) : outcome world :=
  upd_sector (Z.of_nat secnum) (fun sec => sec <| Sector.special := 0 |>) w.
Definition light_of (secnum : nat) (w : world) : outcome Z :=
  let* sec := get_sector (Z.of_nat secnum) w in Ret (Sector.lightlevel sec).
Definition least_light (secnum : nat) (w : world) : outcome Z :=
  let* level := light_of secnum w in P_FindMinSurroundingLight (gm w) secnum level.

Definition P_SpawnFireFlicker (secnum : nat) (w : world) : outcome world :=
  let* w := clear_special secnum w in
  let* self := heap_malloc w in
  let w := w <| gm ::= P_AddThinker self (TFlicker (raw_flicker self)) |> in
  let* level := light_of secnum w in
  let* low := least_light secnum w in
  let f := (raw_flicker self) <| FireFlicker.thinker ::= set_function GameTypes.T_FireFlicker |>
             <| FireFlicker.sector := Z.of_nat secnum |> <| FireFlicker.maxlight := level |>
             <| FireFlicker.minlight := i32 (low + 16) |> <| FireFlicker.count := 4 |> in
  Ret (put_light self (TFlicker f) w).

Definition P_SpawnLightFlash (secnum : nat) (w : world) : outcome world :=
  let* w := clear_special secnum w in
  let* self := heap_malloc w in
  let w := w <| gm ::= P_AddThinker self (TFlash (raw_flash self)) |> in
  let* level := light_of secnum w in
  let* low := least_light secnum w in
  let* '(r, w) := random_and 64 w in
  let f := (raw_flash self) <| LightFlash.thinker ::= set_function GameTypes.T_LightFlash |>
             <| LightFlash.sector := Z.of_nat secnum |> <| LightFlash.maxlight := level |> <| LightFlash.minlight := low |>
             <| LightFlash.maxtime := 64 |> <| LightFlash.mintime := 7 |> <| LightFlash.count := i32 (r + 1) |> in
  Ret (put_light self (TFlash f) w).

Definition P_SpawnStrobeFlash (secnum : nat) (fastOrSlow inSync : Z) (w : world) : outcome world :=
  let* self := heap_malloc w in
  let w := w <| gm ::= P_AddThinker self (TStrobe (raw_strobe self)) |> in
  let* level := light_of secnum w in
  let* low := least_light secnum w in
  let low := if low =? level then 0 else low in
  let* w := clear_special secnum w in
  let* '(count, w) := (if negb (truth inSync) then let* '(r, w) := random_and 7 w in Ret (i32 (r + 1), w) else Ret (1, w)) in
  let f := (raw_strobe self) <| Strobe.sector := Z.of_nat secnum |> <| Strobe.darktime := fastOrSlow |>
             <| Strobe.brighttime := STROBEBRIGHT |> <| Strobe.thinker ::= set_function GameTypes.T_StrobeFlash |>
             <| Strobe.maxlight := level |> <| Strobe.minlight := low |> <| Strobe.count := count |> in
  Ret (put_light self (TStrobe f) w).

Definition P_SpawnGlowingLight (secnum : nat) (w : world) : outcome world :=
  let* self := heap_malloc w in
  let w := w <| gm ::= P_AddThinker self (TGlow (raw_glow self)) |> in
  let* level := light_of secnum w in
  let* low := least_light secnum w in
  let g := (raw_glow self) <| Glow.sector := Z.of_nat secnum |> <| Glow.minlight := low |> <| Glow.maxlight := level |>
             <| Glow.thinker ::= set_function GameTypes.T_Glow |> <| Glow.direction := -1 |> in
  clear_special secnum (put_light self (TGlow g) w).

(** ** Lines that change lights *)
Definition start_strobe (secnum : nat) (w : world) : outcome world :=
  let* sec := get_sector (Z.of_nat secnum) w in
  if truth (Sector.specialdata sec) then Ret w else P_SpawnStrobeFlash secnum SLOWDARK 0 w.
Definition EV_StartLightStrobing (li : Line.line_t) (w : world) : outcome world :=
  for_tagged gm (S (length (sectors (gm w)))) (Line.tag li) (-1) start_strobe w.

(** Both lines walk over all sectors and change those with the tag: [js] has
    the sectors left. *)
Fixpoint each_sector {S} (js : list nat) (body : nat -> Sector.doomsector_t -> S -> world -> outcome (S * world)) (tag : Z) (s : S) (w : world) :
  outcome (S * world) :=
  match js with
  | [] => Ret (s, w)
  | j :: js =>
      let* sec := get_sector (Z.of_nat j) w in
      let* '(s, w) := (if Sector.tag sec =? tag then body j sec s w else Ret (s, w)) in
      each_sector js body tag s w
  end.

Definition turn_off (j : nat) (sec : Sector.doomsector_t) (s : unit) (w : world) : outcome (unit * world) :=
  let* min := around (gm w) j (fun tsec min =>
    Ret (if Sector.lightlevel tsec <? min then Sector.lightlevel tsec else min)) Sector.lightlevel in
  let* w := set_light (Z.of_nat j) min w in
  Ret (tt, w).
Definition EV_TurnTagLightsOff (li : Line.line_t) (w : world) : outcome world :=
  let* '(_, w) := each_sector (seq 0 (length (sectors (gm w)))) turn_off (Line.tag li) tt w in Ret w.

(** [bright] is the parameter of the function: what one sector makes of it
    goes on to the next. *)
Definition turn_on (j : nat) (sec : Sector.doomsector_t) (bright : Z) (w : world) : outcome (Z * world) :=
  let* bright := (if negb (truth bright) then
    around (gm w) j (fun temp bright =>
      Ret (if Sector.lightlevel temp >? bright then Sector.lightlevel temp else bright)) (fun _ => bright)
    else Ret bright) in
  let* w := set_light (Z.of_nat j) bright w in
  Ret (bright, w).
Definition EV_LightTurnOn (li : Line.line_t) (bright : Z) (w : world) : outcome world :=
  let* '(_, w) := each_sector (seq 0 (length (sectors (gm w)))) turn_on (Line.tag li) bright w in Ret w.
End lights.
