(* ===== verification/LightTheorems.v ===== *)
(** * Lights: the theorems *)
From S2P Require Import Prelude MFixed MRandom GameTypes Thinkers SectorSearch MovePlane Frame Lights.
#[local] Open Scope doom_scope.

(** The two levels of a light: what they may be when a level starts, and the
    levels of sectors that they can lead to. *)
Definition bright_ok (x : Z) : Prop := 0 <= x <= 1000.

(** The sector of a light and its levels. *)
Definition light_view (th : thing) : option (Z * Z * Z) :=
  match th with
  | TFlicker f => Some (FireFlicker.sector f, FireFlicker.minlight f, FireFlicker.maxlight f)
  | TFlash f => Some (LightFlash.sector f, LightFlash.minlight f, LightFlash.maxlight f)
  | TStrobe f => Some (Strobe.sector f, Strobe.minlight f, Strobe.maxlight f)
  | TGlow g => Some (Glow.sector g, Glow.minlight g, Glow.maxlight g)
  | _ => None
  end.
(** A light whose counter runs and whose levels are in range. *)
Definition light_clock (th : thing) : Prop :=
  match th with
  | TFlicker f => 0 < FireFlicker.count f <= INT_MAX
  | TFlash f => 0 < LightFlash.count f <= INT_MAX
  | TStrobe f => 0 < Strobe.count f <= INT_MAX /\ 0 < Strobe.darktime f <= INT_MAX /\ 0 < Strobe.brighttime f <= INT_MAX
  | TGlow g => Glow.direction g = -1 \/ Glow.direction g = 1
  | _ => False
  end.
(** A strobe only ever sets its two levels. *)
Definition level_range (th : thing) (x : Z) : Prop := match th with TStrobe _ => dim_ok x | _ => bright_ok x end.
Record light_ok (s : nat) (lo hi : Z) (th : thing) : Prop := {
  lo_view : light_view th = Some (Z.of_nat s, lo, hi);
  lo_clock : light_clock th;
  lo_min : level_range th lo;
  lo_max : level_range th hi
}.

(** The thinker function of a light. *)
Definition T_Light (th : thing) : Z -> world -> outcome world :=
  match th with
  | TFlicker _ => T_FireFlicker
  | TFlash _ => T_LightFlash
  | TStrobe _ => T_StrobeFlash
  | TGlow _ => T_Glow
  | _ => fun _ _ => Undef
  end.

Section facts.
Context {A : Arch} {im : Image} {H : Heap} {hlaws : HeapLaws}.
Implicit Types (w : world).

(** What one tic of a light does: only the light of its sector changes; it
    stays between the two levels if it was there. *)
Definition light_tic (self : Z) (s : nat) (lo hi : Z) (th : thing) (sec : Sector.doomsector_t) (w : world) (m : outcome world) : Prop :=
  exists w' th' l, m = Ret w' /\ thing_at self (gm w') = Some th' /\ thing_thinker th' = thing_thinker th /\
    light_ok s lo hi th' /\ thing_action th' = thing_action th /\
    sectors (gm w') = <[s := sec <| Sector.lightlevel := l |>]> (sectors (gm w)) /\ frame self s w w' /\ dim_ok l /\
    (lo <= Sector.lightlevel sec <= hi -> lo <= l <= hi).

Lemma random_and_run mask w : exists r rn, random_and mask w = Ret (r, w <| rnd := rn |>) /\ 0 <= r < 256 /\ (mask = 3 -> r <= 3).
Proof.
  unfold random_and. destruct (P_Random_total (rnd w)) as (x & rn & -> & Hx). cbn [obind]. eexists _, _. split; [reflexivity|].
  unfold fits_u in Hx.
  assert (E : Z.land x mask = Z.land x mask mod 2 ^ 8).
  { rewrite <- Z.land_ones by lia. rewrite <- Z.land_assoc, (Z.land_comm mask), Z.land_assoc, Z.land_ones, Z.mod_small by lia. done. }
  split; [rewrite E; pose proof (Z.mod_pos_bound (Z.land x mask) (2 ^ 8)); lia|]. intros ->. pose proof (Z.land_ones x 2 ltac:(lia)) as E3. change (Z.ones 2) with 3 in E3.
  rewrite E3. pose proof (Z.mod_pos_bound x (2 ^ 2)). lia.
Qed.

Lemma set_light_run s sec l w : sectors (gm w) !! s = Some sec -> dim_ok l ->
  set_light (Z.of_nat s) l w = Ret (set_sector (Z.of_nat s) (sec <| Sector.lightlevel := l |>) w).
Proof.
  intros E Hl. unfold set_light. rewrite (upd_sector_run s sec) by done. rewrite (wraps_id 16); [done|lia|].
  unfold dim_ok, fits_s in *. change (16 - 1) with 15. pow2. lia.
Qed.

Lemma light_mover s lo hi th : light_ok s lo hi th -> is_mover th = true.
Proof. intros [_ Hc _ _]. by destruct th. Qed.

(** A light that only counts, and one that has set its sector to [l]. *)
Lemma light_counts self s lo hi th th' sec w : thing_at self (gm w) = Some th -> sectors (gm w) !! s = Some sec ->
  light_ok s lo hi th' -> thing_action th' = thing_action th -> thing_thinker th' = thing_thinker th -> dim_ok (Sector.lightlevel sec) ->
  light_tic self s lo hi th sec w (Ret (put_light self th' w)).
Proof.
  intros Hat Hsec Hok Ht Hth Hd. exists (put_light self th' w), th', (Sector.lightlevel sec).
  split_and!; try done; [by eapply thing_at_put_same| |by eapply frame_put, light_mover]. cbn. symmetry.
  destruct sec. by apply list_insert_id.
Qed.
Lemma light_sets self s lo hi th th' sec l w w1 w2 : thing_at self (gm w) = Some th -> sectors (gm w) !! s = Some sec ->
  light_ok s lo hi th' -> thing_action th' = thing_action th -> thing_thinker th' = thing_thinker th -> dim_ok l ->
  (lo <= Sector.lightlevel sec <= hi -> lo <= l <= hi) ->
  gm w1 = gm w -> gm w2 = gm (set_sector (Z.of_nat s) (sec <| Sector.lightlevel := l |>) w1) ->
  light_tic self s lo hi th sec w (Ret (put_light self th' w2)).
Proof.
  intros Hat Hsec Hok Ht Hth Hd Hr E1 E2. exists (put_light self th' w2), th', l. split_and!; try done.
  - apply (thing_at_put_same _ _ _ th). rewrite E2. change (thing_at self (gm w1) = Some th). by rewrite E1.
  - cbn [put_light gm update put_thing sectors]. rewrite E2. cbn. by rewrite Nat2Z.id, E1.
  - transitivity w2; [|by eapply frame_put, light_mover].
    eapply (frame_game _ _ w _ _ E2). transitivity w1; [by apply (frame_game _ _ w w)|].
    eapply frame_set_sector; [by rewrite E1|done].
Qed.

Ltac count_light Hsec c :=
  match goal with |- context [truth (i32 (c - 1))] => rewrite (wraps_id 32) by in_range; destruct (truth (c - 1)) eqn:Et; unfold truth in Et; breflect end.

Lemma flicker_tic self s lo hi f sec w : thing_at self (gm w) = Some (TFlicker f) -> sectors (gm w) !! s = Some sec ->
  light_ok s lo hi (TFlicker f) -> dim_ok (Sector.lightlevel sec) -> light_tic self s lo hi (TFlicker f) sec w (T_FireFlicker self w).
Proof.
  intros Hat Hsec [Hv Hc Hlo Hhi] Hd. cbn in Hv, Hc, Hlo, Hhi. injection Hv as Hs Hmin Hmax. unfold INT_MAX in Hc.
  unfold T_FireFlicker, get_flicker. rewrite Hat. cbn [obind]. destruct f as [th sct cnt mx mn]. cbn in Hs, Hmin, Hmax, Hc. subst sct mn mx.
  cbn -[Z.land]. rewrite (wraps_id 32) by in_range. destruct (truth (cnt - 1)) eqn:Et; unfold truth in Et; breflect.
  - eapply light_counts; try done. split; cbn; try done. unfold INT_MAX. lia.
  - destruct (random_and_run 3 w) as (r & rn & -> & Hr & Hr3). specialize (Hr3 eq_refl). cbn [obind].
    rewrite (get_sector_at s sec) by done. cbn [obind].
    assert (Hb : exists l, (if Sector.lightlevel sec - r * 16 <? lo then set_light (Z.of_nat s) lo (w <| rnd := rn |>)
        else set_light (Z.of_nat s) (hi - r * 16) (w <| rnd := rn |>)) = set_light (Z.of_nat s) l (w <| rnd := rn |>) /\ dim_ok l /\
        (lo <= Sector.lightlevel sec <= hi -> lo <= l <= hi)).
    { unfold bright_ok, dim_ok in *. destruct (_ <? lo) eqn:El; breflect; eexists; (split; [reflexivity|]); lia. }
    destruct Hb as (l & -> & Hl & Hr'). rewrite (set_light_run s sec) by done. cbn [obind].
    eapply (light_sets self s lo hi _ _ sec l w (w <| rnd := rn |>)); done.
Qed.

Lemma flash_tic self s lo hi f sec w : thing_at self (gm w) = Some (TFlash f) -> sectors (gm w) !! s = Some sec ->
  light_ok s lo hi (TFlash f) -> dim_ok (Sector.lightlevel sec) -> light_tic self s lo hi (TFlash f) sec w (T_LightFlash self w).
Proof.
  intros Hat Hsec [Hv Hc Hlo Hhi] Hd. cbn in Hv, Hc, Hlo, Hhi. injection Hv as Hs Hmin Hmax. unfold INT_MAX in Hc.
  unfold T_LightFlash, get_flash. rewrite Hat. cbn [obind]. destruct f as [th sct cnt mx mn mxt mnt]. cbn in Hs, Hmin, Hmax, Hc. subst sct mn mx.
  cbn -[Z.land]. rewrite (wraps_id 32) by in_range. destruct (truth (cnt - 1)) eqn:Et; unfold truth in Et; breflect.
  - eapply light_counts; try done. split; cbn; try done. unfold INT_MAX. lia.
  - rewrite (get_sector_at s sec) by done. cbn [obind]. set (l := if _ =? hi then lo else hi). set (mask := if _ =? hi then _ else _).
    assert (Hl : dim_ok l /\ (lo <= Sector.lightlevel sec <= hi -> lo <= l <= hi)) by (unfold l, bright_ok, dim_ok in *; destruct (_ =? hi); lia).
    rewrite (set_light_run s sec) by (done || apply Hl). cbn [obind].
    destruct (random_and_run mask (set_sector (Z.of_nat s) (sec <| Sector.lightlevel := l |>) w)) as (r & rn & -> & Hr & _). cbn [obind].
    eapply (light_sets self s lo hi _ _ sec l w w); try done; [|apply Hl|apply Hl].
    split; try done. cbn. rewrite (wraps_id 32) by in_range. unfold INT_MAX. lia.
Qed.

Lemma strobe_tic self s lo hi f sec w : thing_at self (gm w) = Some (TStrobe f) -> sectors (gm w) !! s = Some sec ->
  light_ok s lo hi (TStrobe f) -> dim_ok (Sector.lightlevel sec) -> light_tic self s lo hi (TStrobe f) sec w (T_StrobeFlash self w).
Proof.
  intros Hat Hsec [Hv Hc Hlo Hhi] Hd. cbn in Hv, Hc, Hlo, Hhi. injection Hv as Hs Hmin Hmax. unfold INT_MAX in Hc.
  unfold T_StrobeFlash, get_strobe. rewrite Hat. cbn [obind]. destruct f as [th sct cnt mn mx dt bt]. cbn in Hs, Hmin, Hmax, Hc. subst sct mn mx.
  cbn -[Z.land]. rewrite (wraps_id 32) by in_range. destruct (truth (cnt - 1)) eqn:Et; unfold truth in Et; breflect.
  - eapply light_counts; try done. split; cbn; try done. unfold INT_MAX. lia.
  - rewrite (get_sector_at s sec) by done. cbn [obind]. set (l := if _ =? lo then hi else lo).
    assert (Hl : dim_ok l /\ (lo <= Sector.lightlevel sec <= hi -> lo <= l <= hi)) by (unfold l, bright_ok, dim_ok in *; destruct (_ =? lo); lia).
    rewrite (set_light_run s sec) by (done || apply Hl). cbn [obind].
    eapply (light_sets self s lo hi _ _ sec l w w); try done; [|apply Hl|apply Hl].
    split; try done. cbn. unfold INT_MAX. destruct (_ =? lo); lia.
Qed.

(** A glow moves by [d], or turns where that would reach its other level. *)
Lemma glow_tic self s lo hi f sec w : thing_at self (gm w) = Some (TGlow f) -> sectors (gm w) !! s = Some sec ->
  light_ok s lo hi (TGlow f) -> dim_ok (Sector.lightlevel sec) -> light_tic self s lo hi (TGlow f) sec w (T_Glow self w).
Proof.
  intros Hat Hsec [Hv Hc Hlo Hhi] Hd. cbn in Hv, Hc, Hlo, Hhi. injection Hv as Hs Hmin Hmax. unfold T_Glow, get_glow. rewrite Hat. cbn [obind].
  destruct f as [th sct mn mx dir]. cbn in Hs, Hmin, Hmax, Hc. subst sct mn mx. cbn [Glow.sector Glow.direction Glow.minlight Glow.maxlight].
  assert (Hi : forall x, dim_ok (Sector.lightlevel sec) -> -8 <= x <= 8 -> i16 (Sector.lightlevel sec + x) = Sector.lightlevel sec + x).
  { intros x Hx1 Hx2. apply wraps_id; [lia|]. unfold dim_ok, fits_s in *. change (16 - 1) with 15. pow2. lia. }
  assert (Hset : forall l w1 sec1, sectors (gm w1) !! s = Some sec1 -> i16 l = l ->
    set_light (Z.of_nat s) l w1 = Ret (set_sector (Z.of_nat s) (sec1 <| Sector.lightlevel := l |>) w1)).
  { intros l w1 sec1 E1 El. unfold set_light. rewrite (upd_sector_run s sec1) by done. by rewrite El. }
  assert (Hstep : forall x, -8 <= x <= 8 -> exists w1, set_light (Z.of_nat s) (Sector.lightlevel sec + x) w = Ret w1 /\
    w1 = set_sector (Z.of_nat s) (sec <| Sector.lightlevel := Sector.lightlevel sec + x |>) w /\
    get_sector (Z.of_nat s) w1 = Ret (sec <| Sector.lightlevel := Sector.lightlevel sec + x |>) /\
    (forall y, y = Sector.lightlevel sec -> exists w2, set_light (Z.of_nat s) y w1 = Ret w2 /\ gm w2 = gm w)).
  { intros x Hx. eexists. split; [by rewrite (Hset _ _ sec) by auto|]. split; [done|].
    assert (E1 : sectors (gm (set_sector (Z.of_nat s) (sec <| Sector.lightlevel := Sector.lightlevel sec + x |>) w)) !! s =
      Some (sec <| Sector.lightlevel := Sector.lightlevel sec + x |>)) by (by eapply set_sector_at).
    split; [by apply get_sector_at|]. intros y ->. rewrite (Hset _ _ _ E1) by (rewrite <- (Z.add_0_r (Sector.lightlevel sec)); apply Hi; [done|lia]).
    eexists. split; [reflexivity|]. cbn. rewrite Nat2Z.id, list_insert_insert_eq. destruct (gm w), sec. cbn in *. by rewrite list_insert_id. }
  pose proof (lookup_lt_Some _ _ _ Hsec) as Hlt.
  assert (Hgo : forall x w1, w1 = set_sector (Z.of_nat s) (sec <| Sector.lightlevel := Sector.lightlevel sec + x |>) w ->
    dim_ok (Sector.lightlevel sec + x) -> (lo <= Sector.lightlevel sec <= hi -> lo <= Sector.lightlevel sec + x <= hi) ->
    light_tic self s lo hi (TGlow (Glow.mk th (Z.of_nat s) lo hi dir)) sec w (Ret w1)).
  { intros x w1 -> Hx1 Hx2. eexists _, (TGlow (Glow.mk th (Z.of_nat s) lo hi dir)), (Sector.lightlevel sec + x). split; [reflexivity|].
    split_and!; try done; [cbn; by rewrite Nat2Z.id|by eapply frame_set_sector]. }
  assert (Hturn : forall d w2, gm w2 = gm w -> d = -1 \/ d = 1 -> light_tic self s lo hi (TGlow (Glow.mk th (Z.of_nat s) lo hi dir)) sec w
    (Ret (put_light self (TGlow (Glow.mk th (Z.of_nat s) lo hi d)) w2))).
  { intros d w2 E2 Hdir. apply (light_sets self s lo hi _ _ sec (Sector.lightlevel sec) w w); try done.
    rewrite E2. cbn. rewrite Nat2Z.id. destruct (gm w), sec. cbn in *. by rewrite list_insert_id. }
  unfold bright_ok, dim_ok, GLOWSPEED in *.
  destruct Hc as [-> | ->]; cbn [Z.eqb Pos.eqb]; rewrite (get_sector_at s sec) by done; cbn [obind].
  - destruct (Hstep (-8) ltac:(lia)) as (w1 & E1 & Ew1 & Eg1 & Hback). change (Sector.lightlevel sec - 8) with (Sector.lightlevel sec + -8).
    rewrite E1. cbn [obind]. rewrite Eg1. cbn [obind Sector.lightlevel update]. destruct (_ <=? lo) eqn:El; breflect; cbn in El.
    + destruct (Hback (Sector.lightlevel sec + -8 + 8) ltac:(lia)) as (w2 & E2 & Ew2). cbn in E2 |- *. rewrite E2. cbn [obind]. by apply Hturn; [|right].
    + apply (Hgo (-8)); [done|lia|lia].
  - destruct (Hstep 8 ltac:(lia)) as (w1 & E1 & Ew1 & Eg1 & Hback).
    rewrite E1. cbn [obind]. rewrite Eg1. cbn [obind Sector.lightlevel update]. destruct (_ >=? hi) eqn:El; breflect; cbn in El.
    + destruct (Hback (Sector.lightlevel sec + 8 - 8) ltac:(lia)) as (w2 & E2 & Ew2). cbn in E2 |- *. rewrite E2. cbn [obind]. by apply Hturn; [|left].
    + apply (Hgo 8); [done|lia|lia].
Qed.

Lemma light_tic_run self s lo hi th sec w : thing_at self (gm w) = Some th -> sectors (gm w) !! s = Some sec ->
  light_ok s lo hi th -> dim_ok (Sector.lightlevel sec) ->
  light_tic self s lo hi th sec w (T_Light th self w).
Proof.
  intros Hat Hsec Hok Hd. pose proof (lo_clock _ _ _ _ Hok) as Hc. destruct th; try done; cbn [T_Light].
  - by apply flash_tic.
  - by apply strobe_tic.
  - by apply glow_tic.
  - by apply flicker_tic.
Qed.

(** ** The period of a strobe *)
Fixpoint strobe_tics (n : nat) (self : Z) (w : world) : outcome world :=
  match n with
  | O => Ret w
  | S n => let* w := T_StrobeFlash self w in strobe_tics n self w
  end.
Lemma strobe_tics_app n m self w w1 : strobe_tics n self w = Ret w1 -> strobe_tics (n + m) self w = strobe_tics m self w1.
Proof.
  revert w. induction n as [|n IH]; intros w E; cbn [strobe_tics Nat.add] in *; [by injection E as ->|].
  destruct (T_StrobeFlash self w); cbn [obind] in *; [by apply IH|done..].
Qed.

Section strobe.
Context (self : Z) (s : nat) (f : Strobe.strobe_t) (sec : Sector.doomsector_t) (w : world).
Context (Hat : thing_at self (gm w) = Some (TStrobe f)) (Hsec : sectors (gm w) !! s = Some sec).
Context (Hok : light_ok s (Strobe.minlight f) (Strobe.maxlight f) (TStrobe f)) (Hlt : Strobe.minlight f < Strobe.maxlight f).

(** The world with the counter at [c] and the light at [l]. *)
Definition strobe_at (c l : Z) : world :=
  put_light self (TStrobe (f <| Strobe.count := c |>)) (set_sector (Z.of_nat s) (sec <| Sector.lightlevel := l |>) w).

Lemma strobe_step c l : 0 < c <= INT_MAX -> T_StrobeFlash self (strobe_at c l) =
  Ret (if c =? 1 then strobe_at (if l =? Strobe.minlight f then Strobe.brighttime f else Strobe.darktime f)
                        (if l =? Strobe.minlight f then Strobe.maxlight f else Strobe.minlight f)
       else strobe_at (c - 1) l).
Proof.
  intros Hc. destruct Hok as [Hv _ Hmin Hmax]. cbn in Hv. injection Hv as Hs. unfold T_StrobeFlash, get_strobe.
  assert (E1 : thing_at self (gm (strobe_at c l)) = Some (TStrobe (f <| Strobe.count := c |>))) by (by eapply thing_at_put_same).
  rewrite E1. cbn [obind]. unfold INT_MAX in Hc. unfold strobe_at at 2 3.
  destruct f as [th sct cnt mn mx dt bt] eqn:Ef. cbn in Hs, Hmin, Hmax, Hlt. subst sct.
  cbn [Strobe.count update]. rewrite (wraps_id 32) by in_range. unfold truth.
  replace (c - 1 =? 0) with (c =? 1) by (apply eq_true_iff_eq; rewrite !Z.eqb_eq; lia).
  assert (Eput : forall th1 th2 w1, put_light self th1 (put_light self th2 w1) = put_light self th1 w1).
  { intros th1 th2 [[] ? ?]. unfold put_light, put_thing. cbn. f_equal. f_equal. rewrite <- list_fmap_compose. apply list_fmap_ext.
    intros i [b t] _. cbn. by destruct (b =? self) eqn:Eb; cbn; rewrite ?Z.eqb_refl, ?Eb. }
  destruct (c =? 1); cbn [negb].
  - assert (E2 : sectors (gm (strobe_at c l)) !! s = Some (sec <| Sector.lightlevel := l |>)) by (by eapply set_sector_at).
    cbn [Strobe.sector Strobe.minlight Strobe.maxlight Strobe.brighttime Strobe.darktime update].
    rewrite (get_sector_at s (sec <| Sector.lightlevel := l |>)) by exact E2. cbn [obind Sector.lightlevel update].
    set (l' := if l =? mn then mx else mn). assert (Hl' : dim_ok l') by (unfold l', dim_ok, bright_ok in *; destruct (l =? mn); lia).
    change (Sector.lightlevel _) with l. rewrite (set_light_run s (sec <| Sector.lightlevel := l |>)) by done. cbn [obind]. f_equal.
    unfold strobe_at, put_light. rewrite Ef. destruct w as [[] ? ?]. cbn. unfold set_sector, put_thing. cbn.
    rewrite Nat2Z.id, list_insert_insert_eq. rewrite <- list_fmap_compose. f_equal. f_equal. apply list_fmap_ext.
    intros i [b t] _. cbn. by destruct (b =? self) eqn:Eb; cbn; rewrite ?Z.eqb_refl, ?Eb.
  - f_equal. unfold strobe_at. rewrite Eput. cbn. by rewrite Ef.
Qed.

Lemma strobe_wait l : forall n c, 0 < c <= INT_MAX -> (Z.of_nat n = c - 1) -> strobe_tics n self (strobe_at c l) = Ret (strobe_at 1 l).
Proof.
  induction n as [|n IH]; intros c Hc Hn; cbn [strobe_tics]; [by replace c with 1 by lia|].
  rewrite strobe_step by done. rewrite (proj2 (Z.eqb_neq c 1)) by lia. cbn [obind]. apply IH; lia.
Qed.
Lemma strobe_phase c l : 0 < c <= INT_MAX -> strobe_tics (Z.to_nat c) self (strobe_at c l) =
  Ret (strobe_at (if l =? Strobe.minlight f then Strobe.brighttime f else Strobe.darktime f)
         (if l =? Strobe.minlight f then Strobe.maxlight f else Strobe.minlight f)).
Proof.
  intros Hc. replace (Z.to_nat c) with (Z.to_nat (c - 1) + 1)%nat by lia.
  rewrite (strobe_tics_app _ _ _ _ (strobe_at 1 l)) by (apply strobe_wait; lia). cbn [strobe_tics].
  rewrite strobe_step by (unfold INT_MAX; lia). done.
Qed.

Lemma strobe_here : addrs_ok (gm w) -> strobe_at (Strobe.count f) (Sector.lightlevel sec) = w.
Proof.
  intros [Hnd _]. unfold strobe_at, put_light, set_sector, put_thing, thing_at, addresses in *. destruct w as [[] ? ?]. cbn in *.
  f_equal. f_equal.
  - rewrite Nat2Z.id. destruct sec. by apply list_insert_id.
  - assert (Ef : f <| Strobe.count := Strobe.count f |> = f) by (by destruct f). cbn in Ef. rewrite Ef. clear -Hat Hnd.
    induction thinkers as [|[b t] l IH]; [done|]. cbn in *. apply NoDup_cons in Hnd as [Hn Hnd].
    destruct (b =? self) eqn:Eb; breflect.
    + subst b. injection Hat as ->. f_equal. rewrite <- (list_fmap_id l) at 2. apply list_fmap_ext. intros i [b t] Hi. cbn.
      destruct (b =? self) eqn:Eb; breflect; [|done]. subst b. exfalso. apply Hn. apply (list_elem_of_fmap_2 fst) with (x := (self, t)).
      by eapply list_elem_of_lookup_2.
    + f_equal. by apply IH.
Qed.
End strobe.

(** ** Lines that change lights *)

(** All levels fit into their [short]. *)
Definition lights_ok (g : game) : Prop := Forall (fun sec => dim_ok (Sector.lightlevel sec)) (sectors g).

Lemma lights_neighbours g s : lights_ok g -> Forall dim_ok (Sector.lightlevel <$> neighbours g s).
Proof.
  intros Hl. apply Forall_fmap, Forall_forall. intros x Hx. unfold neighbours in Hx. destruct (sectors g !! s) as [sec|]; [|by apply elem_of_nil in Hx].
  apply list_elem_of_omap in Hx as (l & _ & Hn). unfold next_sector in Hn.
  destruct (lines g !! l) as [li|]; [|done]. cbn in Hn. destruct (getNextSector li s) as [o|]; [|done]. cbn in Hn.
  exact (proj1 (Forall_lookup _ _) Hl o x Hn).
Qed.

(** Once [bright] is set, every sector with the tag gets it. *)
Definition lit (tag b : Z) (js : list nat) (k : nat) (sec : Sector.doomsector_t) : Sector.doomsector_t :=
  if (Sector.tag sec =? tag) && bool_decide (k ∈ js) then sec <| Sector.lightlevel := b |> else sec.

Lemma turn_on_run tag b js w : NoDup js -> b <> 0 -> dim_ok b -> Forall (fun j => is_Some (sectors (gm w) !! j)) js ->
  exists w', each_sector js turn_on tag b w = Ret (b, w') /\ length (sectors (gm w')) = length (sectors (gm w)) /\
    forall k sec, sectors (gm w) !! k = Some sec -> sectors (gm w') !! k = Some (lit tag b js k sec).
Proof.
  intros Hnd Hb Hd. revert w. induction js as [|j js IH]; intros w Hjs; cbn [each_sector].
  { exists w. split_and!; try done. intros k sec E. unfold lit. by rewrite andb_false_r. }
  apply NoDup_cons in Hnd as [Hnj Hnd]. apply Forall_cons in Hjs as [[sec0 E0] Hjs]. rewrite (get_sector_at j sec0) by done. cbn [obind].
  unfold turn_on at 1. unfold truth. rewrite (proj2 (Z.eqb_neq b 0)) by done. cbn [negb obind].
  destruct (Sector.tag sec0 =? tag) eqn:Et.
  - rewrite (set_light_run j sec0) by done. cbn [obind]. set (w1 := set_sector _ _ w).
    assert (Es1 : sectors (gm w1) = <[j := sec0 <| Sector.lightlevel := b |>]> (sectors (gm w))) by (cbn; by rewrite Nat2Z.id).
    destruct (IH Hnd w1) as (w' & E' & Hl' & Hk').
    { eapply Forall_impl; [exact Hjs|]. intros k Hk. apply lookup_lt_is_Some_2. rewrite Es1, length_insert. by apply lookup_lt_is_Some_1. }
    exists w'. split_and!; [done|by rewrite Hl', Es1, length_insert|]. intros k sec E. destruct (decide (j = k)) as [<-|Hne].
    + rewrite E0 in E. injection E as <-. rewrite (Hk' j (sec0 <| Sector.lightlevel := b |>)).
      * unfold lit. cbn [Sector.tag update]. change (Sector.tag _ =? tag) with (Sector.tag sec0 =? tag). rewrite Et.
        rewrite bool_decide_eq_false_2, bool_decide_eq_true_2; [done|left|done].
      * rewrite Es1. by rewrite list_lookup_insert_eq by (by eapply lookup_lt_Some).
    + rewrite (Hk' k sec) by (rewrite Es1; by rewrite list_lookup_insert_ne). unfold lit.
      by rewrite (bool_decide_ext (k ∈ js) (k ∈ j :: js)) by (rewrite elem_of_cons; naive_solver).
  - cbn [obind]. destruct (IH Hnd w Hjs) as (w' & E' & Hl' & Hk'). exists w'. split_and!; [done|done|]. intros k sec E.
    rewrite (Hk' k sec E). unfold lit. destruct (Sector.tag sec =? tag) eqn:Et2; cbn [andb]; [|done].
    assert (j <> k) by (intros <-; rewrite E0 in E; injection E as ->; congruence).
    by rewrite (bool_decide_ext (k ∈ js) (k ∈ j :: js)) by (rewrite elem_of_cons; naive_solver).
Qed.

Lemma skip_untagged {S} (body : nat -> Sector.doomsector_t -> S -> world -> outcome (S * world)) tag js rest st w :
  Forall (fun j => exists sec, sectors (gm w) !! j = Some sec /\ Sector.tag sec <> tag) js ->
  each_sector (js ++ rest) body tag st w = each_sector rest body tag st w.
Proof.
  induction 1 as [|j js (sec & E & Ht) Hjs IH]; [done|]. cbn [app each_sector]. rewrite (get_sector_at j sec) by done. cbn [obind].
  by rewrite (proj2 (Z.eqb_neq _ _)).
Qed.

(** ** The lights a level starts with *)
Definition daylight (g : game) : Prop := Forall (fun sec => 0 <= Sector.lightlevel sec <= 255) (sectors g).

Lemma least_light_min s sec w : level_ok (gm w) -> sectors (gm w) !! s = Some sec ->
  light_of s w = Ret (Sector.lightlevel sec) /\ least_light s w = Ret (zmin (Sector.lightlevel sec) (Sector.lightlevel <$> neighbours (gm w) s)).
Proof.
  intros Hl E. unfold least_light, light_of, P_FindMinSurroundingLight. rewrite (get_sector_at s sec) by done. cbn [obind].
  by rewrite (around_run _ Hl s sec), run_each_min by done.
Qed.
Lemma least_light_run s sec w : level_ok (gm w) -> daylight (gm w) -> sectors (gm w) !! s = Some sec ->
  exists low, light_of s w = Ret (Sector.lightlevel sec) /\ least_light s w = Ret low /\ 0 <= low <= Sector.lightlevel sec /\
    Sector.lightlevel sec <= 255 /\ low = zmin (Sector.lightlevel sec) (Sector.lightlevel <$> neighbours (gm w) s).
Proof.
  intros Hl Hd E. destruct (least_light_min s sec w Hl E) as [-> ->]. eexists. split; [reflexivity|]. split; [reflexivity|].
  pose proof (proj1 (Forall_lookup _ _) Hd s sec E) as Hs. cbn in Hs.
  destruct (zmin_spec (Sector.lightlevel sec) (Sector.lightlevel <$> neighbours (gm w) s)) as (_ & H2 & [H3|H3]); [rewrite H3; lia|].
  split_and!; try lia. apply list_elem_of_fmap in H3 as (x & -> & Hx). unfold neighbours in Hx. rewrite E in Hx.
  apply list_elem_of_omap in Hx as (l & _ & Hn). unfold next_sector in Hn. destruct (lines (gm w) !! l) as [li|]; [|done]. cbn in Hn.
  destruct (getNextSector li s) as [o|]; [|done]. cbn in Hn. pose proof (proj1 (Forall_lookup _ _) Hd o x Hn) as Ho. cbn in Ho. lia.
Qed.

(** A new light: nothing but its object and the special of its sector. *)
Record new_light (self : Z) (s : nat) (sec : Sector.doomsector_t) (th : thing) (w w' : world) : Prop := {
  nl_at : thing_at self (gm w') = Some th;
  nl_others a : a <> self -> thing_at a (gm w') = thing_at a (gm w);
  nl_sectors : sectors (gm w') = <[s := sec <| Sector.special := 0 |>]> (sectors (gm w));
  nl_order : addresses (gm w') = addresses (gm w) ++ [self];
  nl_fresh : self <> 0 /\ self ∉ addresses (gm w);
  nl_rest : lines (gm w') = lines (gm w) /\ activeplats (gm w') = activeplats (gm w) /\ activeceilings (gm w') = activeceilings (gm w);
  nl_map : sides (gm w') = sides (gm w) /\ players (gm w') = players (gm w)
}.

Lemma new_light_intro self s sec th th0 w w' : self <> 0 -> self ∉ addresses (gm w) ->
  lines (gm w') = lines (gm w) /\ activeplats (gm w') = activeplats (gm w) /\ activeceilings (gm w') = activeceilings (gm w) ->
  sides (gm w') = sides (gm w) /\ players (gm w') = players (gm w) -> thinkers (gm w') = thinkers (put_thing self th (P_AddThinker self th0 (gm w))) ->
  sectors (gm w') = <[s := sec <| Sector.special := 0 |>]> (sectors (gm w)) -> new_light self s sec th w w'.
Proof.
  intros Hz Hf Hr Hm Ht Hs. pose proof (fun a => thing_at_new self th0 th (gm w) a Hf) as Hn. split; [| |done| |done|done|done].
  - unfold thing_at in *. by rewrite Ht, Hn, Z.eqb_refl.
  - intros a Ha. unfold thing_at in *. by rewrite Ht, Hn, (proj2 (Z.eqb_neq a self)).
  - unfold addresses. rewrite Ht. change (addresses (put_thing self th (P_AddThinker self th0 (gm w))) = addresses (gm w) ++ [self]).
    rewrite addresses_put. unfold addresses, P_AddThinker. cbn. by rewrite fmap_app.
Qed.
End facts.

(** ** The claims *)
Section claims.
Context {A : Arch} {im : Image} {H : Heap} {hlaws : HeapLaws}.
Implicit Types (w : world).

(** One tic of a light (a flicker, a broken light, a strobe or a glow)
    goes through: its clock goes on, nothing but the light of its sector
    changes, and the light stays between the two levels of the light. *)
Theorem light_stays_in_range self s lo hi th sec w : thing_at self (gm w) = Some th -> sectors (gm w) !! s = Some sec ->
  light_ok s lo hi th -> lo <= Sector.lightlevel sec <= hi ->
  exists w' th' l, T_Light th self w = Ret w' /\ thing_at self (gm w') = Some th' /\ light_ok s lo hi th' /\ thing_action th' = thing_action th /\
    sectors (gm w') = <[s := sec <| Sector.lightlevel := l |>]> (sectors (gm w)) /\ frame self s w w' /\ lo <= l <= hi.
Proof.
  intros Hat Hsec Hok Hr. destruct (light_tic_run self s lo hi th sec w Hat Hsec Hok) as (w' & th' & l & E & E1 & _ & E3 & E4 & E5 & E6 & _ & E8);
    [destruct Hok as [_ _ ? ?]; destruct th; unfold level_range, bright_ok, dim_ok in *; lia|].
  exists w', th', l. split_and!; try done; by apply E8.
Qed.

(** A strobe is periodic: after its bright time and its dark time the
    whole level is back in the same state, and in between, when the bright
    time is over, its sector is dark. *)
Theorem strobe_period self s f sec w : thing_at self (gm w) = Some (TStrobe f) -> sectors (gm w) !! s = Some sec ->
  light_ok s (Strobe.minlight f) (Strobe.maxlight f) (TStrobe f) -> Strobe.minlight f < Strobe.maxlight f -> addrs_ok (gm w) ->
  Strobe.count f = Strobe.brighttime f -> Sector.lightlevel sec = Strobe.maxlight f ->
  exists w1, strobe_tics (Z.to_nat (Strobe.brighttime f)) self w = Ret w1 /\
    sectors (gm w1) = <[s := sec <| Sector.lightlevel := Strobe.minlight f |>]> (sectors (gm w)) /\
    strobe_tics (Z.to_nat (Strobe.brighttime f) + Z.to_nat (Strobe.darktime f)) self w = Ret w.
Proof.
  intros Hat Hsec Hok Hlt Ha Hc Hl. pose proof (lo_clock _ _ _ _ Hok) as Hclk. cbn in Hclk.
  pose proof (strobe_here self s f sec w Hat Hsec Hok Hlt Ha) as Hw. rewrite Hc, Hl in Hw.
  assert (E1 : strobe_tics (Z.to_nat (Strobe.brighttime f)) self w = Ret (strobe_at self s f sec w (Strobe.darktime f) (Strobe.minlight f))).
  { rewrite <- Hw at 1. rewrite strobe_phase by (done || apply Hclk). by rewrite (proj2 (Z.eqb_neq (Strobe.maxlight f) _)) by lia. }
  exists (strobe_at self s f sec w (Strobe.darktime f) (Strobe.minlight f)). split; [done|]. split; [cbn; by rewrite Nat2Z.id|].
  rewrite (strobe_tics_app _ _ _ _ _ E1), strobe_phase by (done || apply Hclk). by rewrite Z.eqb_refl, Hw.
Qed.

(** turning on the lights of a tag gives all sectors of the tag the same
    light and leaves the others alone: the given level, or the brightest light
    next to the first of them, not next to each of them, when the level is to
    be searched for. *)
Theorem EV_LightTurnOn_correct li bright w j sec0 : level_ok (gm w) -> lights_ok (gm w) -> dim_ok bright ->
  sectors (gm w) !! j = Some sec0 -> Sector.tag sec0 = Line.tag li ->
  (forall k sec, (k < j)%nat -> sectors (gm w) !! k = Some sec -> Sector.tag sec <> Line.tag li) ->
  let b := if bright =? 0 then zmax 0 (Sector.lightlevel <$> neighbours (gm w) j) else bright in
  b <> 0 ->
  exists w', EV_LightTurnOn li bright w = Ret w' /\
    forall k sec, sectors (gm w) !! k = Some sec ->
      sectors (gm w') !! k = Some (if Sector.tag sec =? Line.tag li then sec <| Sector.lightlevel := b |> else sec).
Proof.
  intros Hl Hd Hb Hj Ht Hpre b Hb0. unfold EV_LightTurnOn. set (n := length (sectors (gm w))).
  assert (Hjn : (j < n)%nat) by (by eapply lookup_lt_Some).
  replace (seq 0 n) with (seq 0 j ++ j :: seq (S j) (n - S j)).
  2:{ replace n with (j + S (n - S j))%nat at 2 by lia. rewrite seq_app. by f_equal. }
  rewrite skip_untagged.
  2:{ apply Forall_forall. intros k Hk. apply elem_of_seq in Hk. destruct (lookup_lt_is_Some_2 (sectors (gm w)) k) as [sec E]; [lia|].
      exists sec. split; [done|]. eapply Hpre; [|done]. lia. }
  assert (Hdb : dim_ok b).
  { unfold b. destruct (bright =? 0); [|done]. destruct (zmax_spec 0 (Sector.lightlevel <$> neighbours (gm w) j)) as (_ & _ & [-> |Hz]);
      [unfold dim_ok; lia|]. exact (proj1 (Forall_forall _ _) (lights_neighbours _ j Hd) _ Hz). }
  cbn [each_sector]. rewrite (get_sector_at j sec0) by done. cbn [obind]. rewrite Ht, Z.eqb_refl. unfold turn_on at 1.
  assert (Eb : (if negb (truth bright) then around (gm w) j (fun temp bright => Ret (if Sector.lightlevel temp >? bright then
      Sector.lightlevel temp else bright)) (fun _ => bright) else Ret bright) = Ret b).
  { unfold b, truth. rewrite negb_involutive. destruct (bright =? 0) eqn:E0; [|done]. breflect. subst bright.
    by rewrite (around_run _ Hl j sec0), run_each_max by done. }
  rewrite Eb. cbn [obind]. rewrite (set_light_run j sec0) by done. cbn [obind]. set (w1 := set_sector _ _ w).
  pose proof (sectors_set j (sec0 <| Sector.lightlevel := b |>) w) as Es1. change (set_sector _ _ w) with w1 in Es1.
  destruct (turn_on_run (Line.tag li) b (seq (S j) (n - S j)) w1) as (w' & -> & _ & Hk); [apply NoDup_seq|done|done| |].
  { apply Forall_forall. intros k Hk. apply elem_of_seq in Hk. apply lookup_lt_is_Some_2. rewrite Es1, length_insert. unfold n in *. lia. }
  exists w'. split; [done|]. intros k sec E. destruct (decide (j = k)) as [<-|Hne].
  - rewrite (Hk j (sec0 <| Sector.lightlevel := b |>)) by (rewrite Es1; by rewrite list_lookup_insert_eq).
    rewrite Hj in E. injection E as <-. unfold lit. rewrite Ht, Z.eqb_refl, bool_decide_eq_false_2; [by rewrite andb_false_r|].
    rewrite elem_of_seq. lia.
  - rewrite (Hk k sec) by (rewrite Es1; by rewrite list_lookup_insert_ne). unfold lit. destruct (Sector.tag sec =? Line.tag li) eqn:Et; [|done].
    breflect. rewrite bool_decide_eq_true_2; [done|]. apply elem_of_seq. assert (~ (k < j)%nat) by (intros Hk'; by apply (Hpre k sec)).
    pose proof (lookup_lt_Some _ _ _ E). unfold n in *. lia.
Qed.

(** Where clearing the special of the sector comes in does not matter. *)
Lemma clear_special_run s sec w : sectors (gm w) !! s = Some sec ->
  clear_special s w = Ret (set_sector (Z.of_nat s) (sec <| Sector.special := 0 |>) w).
Proof. intros E. unfold clear_special. by rewrite (upd_sector_run s sec). Qed.
Lemma cleared s sec w : level_ok (gm w) -> daylight (gm w) -> sectors (gm w) !! s = Some sec ->
  let w1 := set_sector (Z.of_nat s) (sec <| Sector.special := 0 |>) w in
  level_ok (gm w1) /\ daylight (gm w1) /\ sectors (gm w1) !! s = Some (sec <| Sector.special := 0 |>) /\
  (Sector.lightlevel <$> neighbours (gm w1) s) = (Sector.lightlevel <$> neighbours (gm w) s).
Proof.
  intros Hl Hd E w1. split_and!.
  - by eapply level_ok_set.
  - unfold daylight, w1. rewrite sectors_set. apply Forall_insert; [done|]. exact (proj1 (Forall_lookup _ _) Hd s sec E).
  - by eapply set_sector_at.
  - set (sec' := sec <| Sector.special := 0 |>) in *.
    pose proof (neighbours_update Sector.lightlevel (gm w) s sec sec' (thinkers (gm w)) s E eq_refl eq_refl) as Hn.
    rewrite <- Hn. unfold w1, set_sector. rewrite Nat2Z.id. by destruct w as [[] ? ?].
Qed.

(** The times a new light has: a strobe those it was started with, and one in step
    with the others changes at the next tic. *)
Definition strobe_times (time sync : Z) (th : thing) : Prop :=
  match th with
  | TStrobe f => Strobe.darktime f = time /\ Strobe.brighttime f = STROBEBRIGHT /\ (truth sync = true -> Strobe.count f = 1)
  | _ => False
  end.
Definition light_times (th : thing) : Prop :=
  match th with
  | TFlash f => LightFlash.maxtime f = 64 /\ LightFlash.mintime f = 7
  | TGlow g => Glow.direction g = -1
  | TFlicker f => FireFlicker.count f = 4
  | _ => False
  end.

Lemma strobe_spawned s sec time sync w : level_ok (gm w) -> lights_ok (gm w) -> sectors (gm w) !! s = Some sec -> 0 < time <= INT_MAX ->
  let hi := Sector.lightlevel sec in
  let lo := zmin hi (Sector.lightlevel <$> neighbours (gm w) s) in
  exists self w' th, P_SpawnStrobeFlash s time sync w = Ret w' /\ new_light self s sec th w w' /\ light_ok s (if lo =? hi then 0 else lo) hi th /\
    thing_action th = GameTypes.T_StrobeFlash /\ thing_function th = fn_addr GameTypes.T_StrobeFlash /\ strobe_times time sync th.
Proof.
  intros Hl Hd E Ht hi lo. destruct (least_light_min s sec w Hl E) as [Eo Em]. fold hi lo in Eo, Em.
  destruct (heap_fresh w) as (self & Ea & Hnz & Hfr).
  assert (Hhi : dim_ok hi) by exact (proj1 (Forall_lookup _ _) Hd s sec E).
  assert (Hlo : dim_ok lo).
  { destruct (zmin_spec hi (Sector.lightlevel <$> neighbours (gm w) s)) as (_ & _ & [H3|H3]); fold lo in H3; [by rewrite H3|].
    exact (proj1 (Forall_forall _ _) (lights_neighbours _ s Hd) _ H3). }
  unfold P_SpawnStrobeFlash. rewrite Ea. cbn [obind]. set (w2 := w <| gm ::= _ |>).
  change (light_of s w2) with (light_of s w). change (least_light s w2) with (least_light s w). rewrite Eo, Em. cbn [obind].
  rewrite (clear_special_run s sec) by done. cbn [obind]. set (w3 := set_sector _ _ w2).
  assert (Hcnt : exists c rn, (if negb (truth sync) then let* '(r, w) := random_and 7 w3 in Ret (i32 (r + 1), w) else Ret (1, w3)) =
    Ret (c, w3 <| rnd := rn |>) /\ 0 < c <= INT_MAX /\ (truth sync = true -> c = 1)).
  { destruct (truth sync); cbn [negb].
    - exists 1, (rnd w3). split; [by destruct w3|unfold INT_MAX; lia].
    - destruct (random_and_run 7 w3) as (r & rn & -> & Hr2 & _). cbn [obind]. rewrite (wraps_id 32) by in_range. exists (r + 1), rn. split; [done|]. split; [unfold INT_MAX; lia|done]. }
  destruct Hcnt as (c & rn & -> & Hc & Hc1). cbn [obind]. eexists self, _, _. split; [reflexivity|].
  split; [eapply new_light_intro; [done|done|done|done|reflexivity|exact (sectors_set s (sec <| Sector.special := 0 |>) w)]|].
  split_and!; [split; try done; unfold STROBEBRIGHT, INT_MAX, dim_ok in *; cbn; unfold dim_ok; try lia; destruct (lo =? hi); lia|done|done|done].
Qed.

Lemma spawned_run s sec w : level_ok (gm w) -> daylight (gm w) -> sectors (gm w) !! s = Some sec ->
  let hi := Sector.lightlevel sec in
  let lo := zmin hi (Sector.lightlevel <$> neighbours (gm w) s) in
  let spawned (m : outcome world) (a : action) (lo : Z) (times : thing -> Prop) := exists self w' th, m = Ret w' /\
    new_light self s sec th w w' /\ light_ok s lo hi th /\ thing_action th = a /\ thing_function th = fn_addr a /\ times th in
  spawned (P_SpawnGlowingLight s w) GameTypes.T_Glow lo light_times /\
  spawned (P_SpawnLightFlash s w) GameTypes.T_LightFlash lo light_times /\
  (forall time sync, 0 < time <= INT_MAX ->
     spawned (P_SpawnStrobeFlash s time sync w) GameTypes.T_StrobeFlash (if lo =? hi then 0 else lo) (strobe_times time sync)) /\
  spawned (P_SpawnFireFlicker s w) GameTypes.T_FireFlicker (lo + 16) light_times.
Proof.
  intros Hl Hd E hi lo spawned. destruct (cleared s sec w Hl Hd E) as (Hl1 & Hd1 & E1 & En1).
  set (w1 := set_sector (Z.of_nat s) (sec <| Sector.special := 0 |>) w) in *.
  destruct (least_light_run s sec w Hl Hd E) as (low & Eo & Em & Hr & Hh & Elow). fold hi lo in Hr, Hh, Elow, Eo. subst low.
  destruct (least_light_run s _ w1 Hl1 Hd1 E1) as (low & Eo1 & Em1 & _ & _ & Elow1). rewrite En1 in Elow1.
  change (Sector.lightlevel (sec <| Sector.special := 0 |>)) with hi in Eo1, Elow1. fold lo in Elow1. subst low.
  destruct (heap_fresh w) as (self & Ea & Hnz & Hfr). destruct (heap_fresh w1) as (self1 & Ea1 & Hnz1 & Hfr1).
  assert (Hbr : bright_ok lo /\ bright_ok hi /\ bright_ok (lo + 16)) by (unfold bright_ok; lia). destruct Hbr as (B1 & B2 & B3).
  assert (E16 : i32 (lo + 16) = lo + 16) by (apply wraps_id; [lia|in_range]).
  split_and!.
  - unfold spawned, P_SpawnGlowingLight. rewrite Ea. cbn [obind]. set (w2 := w <| gm ::= _ |>).
    change (light_of s w2) with (light_of s w). change (least_light s w2) with (least_light s w). rewrite Eo, Em. cbn [obind].
    rewrite (clear_special_run s sec) by done. eexists self, _, _. split; [reflexivity|].
    split; [eapply new_light_intro; [done|done|done|done|reflexivity|by rewrite sectors_set]|]. split_and!; [split; [reflexivity|by left|done|done]|done|done|done].
  - unfold spawned, P_SpawnLightFlash. rewrite (clear_special_run s sec) by done. fold w1. cbn [obind]. rewrite Ea1. cbn [obind]. set (w2 := w1 <| gm ::= _ |>).
    change (light_of s w2) with (light_of s w1). change (least_light s w2) with (least_light s w1). rewrite Eo1, Em1. cbn [obind].
    destruct (random_and_run 64 w2) as (r & rn & -> & Hr2 & _). cbn [obind]. eexists self1, _, _. split; [reflexivity|].
    split; [eapply new_light_intro; [done|exact Hfr1|done|done|reflexivity|exact (sectors_set s (sec <| Sector.special := 0 |>) w)]|].
    split_and!; [split; try done; cbn; rewrite (wraps_id 32) by in_range; unfold INT_MAX; lia|done|done|done].
  - intros time sync Ht. assert (Hdl : lights_ok (gm w)) by (eapply Forall_impl; [exact Hd|]; cbn; unfold dim_ok; lia).
    destruct (strobe_spawned s sec time sync w Hl Hdl E Ht) as (sf & w' & th & R1 & R2 & R3 & R4 & R5). by exists sf, w', th.
  - unfold spawned, P_SpawnFireFlicker. rewrite (clear_special_run s sec) by done. fold w1. cbn [obind]. rewrite Ea1. cbn [obind]. set (w2 := w1 <| gm ::= _ |>).
    change (light_of s w2) with (light_of s w1). change (least_light s w2) with (least_light s w1). rewrite Eo1, Em1. cbn [obind]. rewrite E16.
    eexists self1, _, _. split; [reflexivity|]. split; [eapply new_light_intro; [done|exact Hfr1|done|done|reflexivity|exact (sectors_set s (sec <| Sector.special := 0 |>) w)]|].
    split_and!; [by split|done|done|done].
Qed.

(** A new light of any kind runs its thinker function, has the light of
    its sector as its upper and the least light next to it as its lower level
    (0 for a strobe that would not flash), and its sector loses its special. A
    flicker adds 16 to the lower level, which puts it above the upper one when
    no sector next to it is darker by 16. *)
Theorem spawned_lights s sec w : level_ok (gm w) -> daylight (gm w) -> sectors (gm w) !! s = Some sec ->
  let hi := Sector.lightlevel sec in
  let lo := zmin hi (Sector.lightlevel <$> neighbours (gm w) s) in
  let spawned (m : outcome world) (a : action) (lo : Z) (times : thing -> Prop) := exists self w' th, m = Ret w' /\
    new_light self s sec th w w' /\ light_ok s lo hi th /\ thing_action th = a /\ thing_function th = fn_addr a /\ times th in
  spawned (P_SpawnGlowingLight s w) GameTypes.T_Glow lo light_times /\
  spawned (P_SpawnLightFlash s w) GameTypes.T_LightFlash lo light_times /\
  (forall time sync, 0 < time <= INT_MAX ->
     spawned (P_SpawnStrobeFlash s time sync w) GameTypes.T_StrobeFlash (if lo =? hi then 0 else lo) (strobe_times time sync)) /\
  spawned (P_SpawnFireFlicker s w) GameTypes.T_FireFlicker (lo + 16) light_times.
Proof. apply spawned_run. Qed.
End claims.

(** ** Witnesses *)
Section witness.
Import Demo.
(** The middle room flashes. *)
Definition disco : Strobe.strobe_t := Strobe.mk (Thinker.mk 77 77 107) 1 5 100 157 15 5.
Definition disco_room : Sector.doomsector_t := room 65536 3 [0%nat; 1%nat].
Definition disco_world : world := mk_world (rooms <| thinkers := [(1, TStrobe disco)] |>) (mk_rnd 0 0) [].
Lemma disco_ok : light_ok 1 100 157 (TStrobe disco).
Proof. split; try reflexivity; cbn; unfold dim_ok, INT_MAX; lia. Qed.

Lemma light_stays_in_range_witness : exists w' th' l, T_Light (TStrobe disco) 1 disco_world = Ret w' /\ thing_at 1 (gm w') = Some th' /\
  sectors (gm w') = <[1%nat := disco_room <| Sector.lightlevel := l |>]> (sectors (gm disco_world)) /\ 100 <= l <= 157.
Proof.
  destruct (light_stays_in_range 1 1 100 157 (TStrobe disco) disco_room disco_world) as (w' & th' & l & H1 & H2 & _ & _ & H5 & _ & H7);
    [reflexivity|reflexivity|exact disco_ok|cbn; lia|].
  exists w', th', l. split; [exact H1|]. split; [exact H2|]. split; [exact H5|exact H7].
Defined.

Lemma strobe_period_witness : strobe_tics 20 1 disco_world = Ret disco_world.
Proof.
  destruct (strobe_period 1 1 disco disco_room disco_world) as (w1 & _ & _ & H3);
    [reflexivity|reflexivity|exact disco_ok|cbn; lia|split; by_decision|reflexivity|reflexivity|exact H3].
Defined.

Definition switch_line : Line.line_t := Line.mk ML_TWOSIDED 138 7 [0; 1] (Some 0%nat) (Some 1%nat).
Lemma EV_LightTurnOn_correct_witness : exists w', EV_LightTurnOn switch_line 0 disco_world = Ret w' /\
  (Sector.lightlevel <$> sectors (gm w')) = [157; 157; 157].
Proof.
  destruct (EV_LightTurnOn_correct switch_line 0 disco_world 0 (room 0 7 [0%nat])) as (w' & E & Hk).
  - destruct rooms_ok as [H1 H2]. split; [exact H1|exact H2].
  - repeat constructor; cbn; lia.
  - unfold dim_ok. lia.
  - reflexivity.
  - reflexivity.
  - intros k sec Hk. lia.
  - vm_compute. discriminate.
  - exists w'. split; [exact E|]. vm_compute in E. injection E as <-. reflexivity.
Defined.

Lemma spawned_lights_witness : exists self w' th, P_SpawnGlowingLight 1 disco_world = Ret w' /\
  new_light self 1 disco_room th disco_world w' /\ light_ok 1 153 157 th.
Proof.
  destruct (spawned_lights 1 disco_room disco_world) as ((self & w' & th & H1 & H2 & H3 & _) & _).
  - destruct rooms_ok as [H1 H2]. split; [exact H1|exact H2].
  - repeat constructor; cbn; lia.
  - reflexivity.
  - exists self, w', th. split; [exact H1|]. split; [exact H2|exact H3].
Defined.
End witness.
