(* ===== verification/Ticker.v ===== *)
(** * The tic of a level (src/commands/doom/p_tick.c)

    [P_RunThinkers] gives every object of the thinker list its turn. The
    cursor of its loop is an address, or nothing for [&thinkercap]. The movers
    are those of the other files; [P_MobjThinker] (p_mobj.c), which moves the
    monsters, missiles and players, is an interface. *)
From S2P Require Import Prelude MFixed MRandom GameTypes Thinkers SectorSearch MovePlane Frame Plats Doors Ceilings Floors Lights.
#[local] Open Scope doom_scope.

Class Actors := mobj_thinker : Z -> world -> outcome world.

(** The objects behind [a], and [thinker->next]. *)
Fixpoint behind (a : Z) (l : list (Z * thing)) : list (Z * thing) :=
  match l with
  | [] => []
  | (b, _) :: l => if b =? a then l else behind a l
  end.
Definition first_thinker (l : list (Z * thing)) : option Z := match l with [] => None | (a, _) :: _ => Some a end.
Definition next_thinker (a : Z) (g : game) : option Z := first_thinker (behind a (thinkers g)).

(** The object is taken out of the list and freed. Its [next] is read after
    that: [Z_Free] leaves the contents of a block as they are. *)
Definition unlink (a : Z) (g : game) : game := g <| thinkers ::= filter (fun x => x.1 <> a) |>.

Section ticker.
Context {A : Arch} {im : Image} {C : Crush} {H : Heap} {msgs : Messages} {act : Actors}.

(** [currentthinker->function.acp1 (currentthinker)] *)
Definition call_thinker (f self : Z) (w : world) : outcome world :=
  if f =? fn_addr P_MobjThinker then mobj_thinker self w
  else if f =? fn_addr GameTypes.T_MoveCeiling then T_MoveCeiling self w
  else if f =? fn_addr GameTypes.T_VerticalDoor then T_VerticalDoor self w
  else if f =? fn_addr GameTypes.T_MoveFloor then T_MoveFloor self w
  else if f =? fn_addr GameTypes.T_PlatRaise then T_PlatRaise self w
  else if f =? fn_addr GameTypes.T_LightFlash then T_LightFlash self w
  else if f =? fn_addr GameTypes.T_StrobeFlash then T_StrobeFlash self w
  else if f =? fn_addr GameTypes.T_Glow then T_Glow self w
  else if f =? fn_addr GameTypes.T_FireFlicker then T_FireFlicker self w
  else Undef.

(** The body of the loop. *)
Definition turn (self : Z) (w : world) : outcome (option Z * world) :=
  let* th := of_option (thing_at self (gm w)) in
  if thing_function th =? removed then Ret (next_thinker self (gm w), w <| gm ::= unlink self |>)
  else
    let* w := (if truth (thing_function th) then call_thinker (thing_function th) self w else Ret w) in
    Ret (next_thinker self (gm w), w).

Fixpoint run_thinkers (fuel : nat) (cur : option Z) (w : world) : outcome world :=
  match cur with
  | None => Ret w
  | Some self =>
      match fuel with
      | O => NoFuel
      | S fuel => let* '(cur, w) := turn self w in run_thinkers fuel cur w
      end
  end.
Definition P_RunThinkers (fuel : nat) (w : world) : outcome world :=
  run_thinkers fuel (first_thinker (thinkers (gm w))) w.
End ticker.
