(* ===== verification/TickerTheorems.v ===== *)
(** * The tic of a level: the theorems

    The invariant of a level ties the movers to the sectors: every live mover
    owns the sector it moves, by [specialdata], and is on a valid course there;
    [specialdata] and the lists of active plats and ceilings never point to an
    object that is gone. Every turn of [P_RunThinkers] goes through in such a
    level and keeps it one. *)
From S2P Require Import Prelude MFixed MRandom GameTypes Thinkers SectorSearch MovePlane Frame Plats PlatTheorems Doors DoorTheorems.
From S2P Require Import Ceilings CeilingTheorems Floors FloorTheorems Lights LightTheorems Ticker.
#[local] Open Scope doom_scope.

(** The functions of the program have addresses of their own. *)
Class ImageLaws {A : Arch} {im : Image} : Prop := {
  fn_inj a b : fn_addr a = fn_addr b -> a = b;
  fn_nonzero a : fn_addr a <> 0;
  fn_live a : fn_addr a <> removed
}.

(** The mover of a plane is on its course. *)
Definition plane_valid (th : thing) (sec : Sector.doomsector_t) : Prop :=
  match th with
  | TCeiling c => ceiling_valid c sec
  | TDoor d => door_valid d sec
  | TFloor f => floor_valid f sec
  | TPlat p => plat_valid p sec
  | _ => False
  end.
(** Plats and ceilings can be stopped: they have no function then. *)
Definition stoppable (th : thing) : bool := match th with TPlat _ | TCeiling _ => true | _ => false end.
Definition is_light (th : thing) : bool := match light_view th with Some _ => true | None => false end.

Section inv.
Context {A : Arch} {im : Image} {V : thing -> Sector.doomsector_t -> Prop}.

Definition alive (th : thing) : Prop := thing_function th <> removed.
(** The live mover [th] at [a] owns its sector. *)
Definition owns (a : Z) (th : thing) (g : game) : Prop :=
  exists s sec, mover_sector th = Some (Z.of_nat s) /\ sectors g !! s = Some sec /\ Sector.specialdata sec = a /\ V th sec /\
    (thing_function th = fn_addr (thing_action th) \/ stoppable th = true /\ thing_function th = 0).
Definition shines (th : thing) (g : game) : Prop :=
  exists s sec lo hi, light_ok s lo hi th /\ sectors g !! s = Some sec /\
    thing_function th = fn_addr (thing_action th).
(** A list of active movers: distinct, and each of them is there. *)
Definition slots_ok (a : action) (l : list Z) (g : game) : Prop :=
  NoDup (filter (fun x => x <> 0) l) /\
  forall p, p ∈ l -> p <> 0 -> exists th, thing_at p g = Some th /\ alive th /\ thing_action th = a.

Record level_on (w : world) : Prop := {
  li_addrs : addrs_ok (gm w);
  li_level : level_ok (gm w);
  li_actors : actors_ok (gm w);
  li_light : Forall (fun sec => dim_ok (Sector.lightlevel sec)) (sectors (gm w));
  li_movers a th : thing_at a (gm w) = Some th -> alive th -> mover_sector th <> None -> owns a th (gm w);
  li_plats a p : thing_at a (gm w) = Some (TPlat p) -> alive (TPlat p) -> a ∈ activeplats (gm w);
  li_lights a th : thing_at a (gm w) = Some th -> alive th -> is_light th = true -> shines th (gm w);
  li_owner s sec : sectors (gm w) !! s = Some sec -> Sector.specialdata sec <> 0 ->
    exists th, thing_at (Sector.specialdata sec) (gm w) = Some th /\ alive th /\ mover_sector th = Some (Z.of_nat s);
  li_activeplats : slots_ok GameTypes.T_PlatRaise (activeplats (gm w)) (gm w);
  li_activeceilings : slots_ok GameTypes.T_MoveCeiling (activeceilings (gm w)) (gm w)
}.
End inv.
Arguments owns {im} V a th g.
Arguments level_on {A im} V w.

(** All movers are on their courses; or nothing is said about the courses. *)
Abbreviation level_inv := (level_on plane_valid).
Definition any_course (_ : thing) (_ : Sector.doomsector_t) : Prop := True.
Abbreviation level_wf := (level_on any_course).

(** A course is about the two planes of the sector. *)
Class Course (V : thing -> Sector.doomsector_t -> Prop) : Prop :=
  course_same th sec sec' : Sector.floorheight sec' = Sector.floorheight sec ->
    Sector.ceilingheight sec' = Sector.ceilingheight sec -> V th sec -> V th sec'.
#[export] Instance plane_course : Course plane_valid.
Proof. intros th sec sec' Ef Ec. destruct th; cbn; try done; intros []; split; rewrite ?Ef, ?Ec; done. Qed.
#[export] Instance free_course : Course any_course.
Proof. done. Qed.

Section facts.
Context {A : Arch} {im : Image} {V : thing -> Sector.doomsector_t -> Prop} {course : Course V}.
Implicit Types (w : world) (self : Z) (s : nat) (th : thing).

Lemma mover_is_mover th z : mover_sector th = Some z -> is_mover th = true.
Proof. by destruct th. Qed.
Lemma light_is_mover th : is_light th = true -> is_mover th = true /\ mover_sector th = None.
Proof. by destruct th. Qed.
Lemma thing_at_addr a th g : thing_at a g = Some th -> a ∈ addresses g.
Proof.
  unfold thing_at, addresses. induction (thinkers g) as [|[b t] l IH]; [done|]. cbn. destruct (b =? a) eqn:E; breflect.
  - subst. left.
  - intros Ht. right. by apply IH.
Qed.
Lemma addr_thing_at a g : a ∈ addresses g -> exists th, thing_at a g = Some th.
Proof.
  unfold thing_at, addresses. induction (thinkers g) as [|[b t] l IH]; cbn; [by intros ?%elem_of_nil|].
  intros [->|Hin]%elem_of_cons; [rewrite Z.eqb_refl; by eexists|]. destruct (b =? a); [by eexists|by apply IH].
Qed.

(** ** Slots that are kept *)
Lemma kept_in self l l' a : Forall2 (kept self) l l' -> a <> 0 -> a ∈ l' -> a ∈ l.
Proof.
  intros H Ha. induction H as [|x y l l' [-> |[-> ->]] H IH]; [done|..]; rewrite !elem_of_cons; intuition.
Qed.
Lemma kept_stays self l l' a : Forall2 (kept self) l l' -> a <> self -> a ∈ l -> a ∈ l'.
Proof.
  intros H Ha. induction H as [|x y l l' [-> |[-> ->]] H IH]; [done|..]; rewrite !elem_of_cons; intuition.
Qed.
Lemma kept_nodup self l l' : Forall2 (kept self) l l' ->
  NoDup (filter (fun x => x <> 0) l) -> NoDup (filter (fun x => x <> 0) l').
Proof.
  induction 1 as [|x y l l' Hk H IH]; [done|]. intros Hnd. destruct (decide (x = 0)) as [->|Hx].
  - rewrite filter_cons_False in Hnd by lia. destruct Hk as [-> |[_ ->]]; rewrite filter_cons_False by lia; auto.
  - rewrite filter_cons_True in Hnd by done. apply NoDup_cons in Hnd as [Hni Hnd].
    destruct Hk as [-> |[-> ->]]; [|rewrite filter_cons_False by lia; auto].
    rewrite filter_cons_True by done. apply NoDup_cons. split; [|auto]. intros Hin%list_elem_of_filter. apply Hni, list_elem_of_filter.
    split; [done|]. eapply kept_in; [done|done|apply Hin].
Qed.

(** The slots when the object at [self] was changed to [th']. *)
Lemma slots_step act self s th th' l l' w w' : frame self s w w' -> Forall2 (kept self) l l' ->
  thing_at self (gm w) = Some th -> thing_at self (gm w') = Some th' -> thing_action th' = thing_action th ->
  act <> P_MobjThinker -> alive th' \/ self ∉ l' ->
  slots_ok act l (gm w) -> slots_ok act l' (gm w').
Proof.
  intros Fr Hk Hat Hat' Hact Hne Hal [Hnd Hs]. split; [by eapply kept_nodup|]. intros p Hp Hz.
  destruct (Hs p (kept_in _ _ _ _ Hk Hz Hp) Hz) as (t & Ht & Ha & Hta). destruct (decide (p = self)) as [->|Hp'].
  - assert (t = th) as -> by congruence. exists th'. destruct Hal as [Hal|Hal]; [|done]. split_and!; [done|done|congruence].
  - exists t. split_and!; try done. apply (fr_movers _ _ _ _ Fr); [done| |done]. by destruct t.
Qed.

(** ** The turn of a mover of a plane *)
Record plane_step self s th (sec : Sector.doomsector_t) th' (sec' : Sector.doomsector_t) w w' : Prop := {
  ps_frame : frame self s w w';
  ps_at : thing_at self (gm w') = Some th';
  ps_sectors : sectors (gm w') = <[s := sec']> (sectors (gm w));
  ps_sector : mover_sector th' = mover_sector th;
  ps_action : thing_action th' = thing_action th;
  ps_end : thing_function th' = thing_function th /\ Sector.specialdata sec' = Sector.specialdata sec /\ V th' sec' /\
             (self ∈ activeplats (gm w) -> self ∈ activeplats (gm w')) \/
           thing_function th' = removed /\ Sector.specialdata sec' = 0 /\
             self ∉ activeplats (gm w') /\ self ∉ activeceilings (gm w')
}.

(** What both kinds of turns keep. *)
Lemma frame_keeps self s sec w w' : frame self s w w' -> sectors (gm w) !! s = Some sec -> level_on V w ->
  addrs_ok (gm w') /\ level_ok (gm w') /\ actors_ok (gm w') /\ Forall (fun sec => dim_ok (Sector.lightlevel sec)) (sectors (gm w')).
Proof.
  intros Fr Hsec Hi. destruct (fr_here _ _ _ _ Fr sec Hsec) as (sec' & Hsec' & El & _ & Hd).
  pose proof (fr_sectors _ _ _ _ Fr) as Hne. pose proof (fr_length _ _ _ _ Fr) as Hlen.
  pose proof (li_light _ Hi) as Hlt. rewrite Forall_lookup in Hlt.
  split_and!; [apply (fr_addrs _ _ _ _ Fr), Hi| |apply (fr_actors _ _ _ _ Fr), Hi|].
  - destruct (li_level _ Hi) as [H1 H2]. split.
    + intros k x Hk. rewrite (fr_lines _ _ _ _ Fr). destruct (decide (k = s)) as [->|Hk'].
      * assert (x = sec') as -> by congruence. rewrite El. by eapply H1.
      * rewrite Hne in Hk by done. by eapply H1.
    + intros l li o Hl Ho. rewrite (fr_lines _ _ _ _ Fr) in Hl. apply lookup_lt_is_Some_2. rewrite Hlen.
      apply lookup_lt_is_Some_1. by eapply H2.
  - apply Forall_lookup. intros k x Hk. destruct (decide (k = s)) as [->|Hk'].
    + assert (x = sec') as -> by congruence. by eapply Hd, Hlt.
    + rewrite Hne in Hk by done. by eapply Hlt.
Qed.

Lemma lookup_one {X} (l : list X) s k sec' x : <[s := sec']> l !! k = Some x ->
  k = s /\ x = sec' \/ k <> s /\ l !! k = Some x.
Proof.
  destruct (decide (s = k)) as [<-|Hne]; intros E.
  - left. pose proof (lookup_lt_Some _ _ _ E) as Hl. rewrite length_insert in Hl. rewrite list_lookup_insert_eq in E by done. split; congruence.
  - right. rewrite list_lookup_insert_ne in E by done. auto.
Qed.

Lemma shines_keeps self s th w w' : frame self s w w' -> (exists sec, sectors (gm w) !! s = Some sec) -> shines th (gm w) -> shines th (gm w').
Proof.
  intros Fr [sec1 Hs1] (k & sec & lo & hi & Hok & Hk & Hf). destruct (decide (k = s)) as [->|Hne].
  - destruct (fr_here _ _ _ _ Fr sec Hk) as (sec' & Hk' & _). exists s, sec', lo, hi. by split_and!.
  - exists k, sec, lo, hi. split_and!; try done. by rewrite (fr_sectors _ _ _ _ Fr).
Qed.

Lemma plane_step_inv self s th sec th' sec' w w' : level_on V w -> thing_at self (gm w) = Some th -> alive th ->
  mover_sector th = Some (Z.of_nat s) -> sectors (gm w) !! s = Some sec -> Sector.specialdata sec = self -> self <> 0 ->
  plane_step self s th sec th' sec' w w' -> level_on V w'.
Proof.
  intros Hi Hat Hal Hms Hsec Hown Hnz [Fr Hat' Es Hms' Hact Hend].
  destruct (frame_keeps self s sec w w' Fr Hsec Hi) as (K1 & K2 & K3 & K4).
  assert (Hm : is_mover th = true) by (by eapply mover_is_mover).
  assert (Hoth : forall a t, a <> self -> is_mover t = true -> thing_at a (gm w') = Some t -> thing_at a (gm w) = Some t)
    by (intros; by apply (fr_movers _ _ _ _ Fr)).
  assert (Hend' : alive th' -> thing_function th' = thing_function th /\ Sector.specialdata sec' = self /\ V th' sec')
    by (intros Ha; destruct Hend as [(? & ? & ? & _)|[? _]]; [subst self; auto|done]).
  assert (Hsec' : sectors (gm w') !! s = Some sec') by (rewrite Es; by rewrite list_lookup_insert_eq by (by eapply lookup_lt_Some)).
  assert (Hsl : alive th' \/ self ∉ activeplats (gm w') /\ self ∉ activeceilings (gm w')).
  { destruct Hend as [(Ef & _)|(_ & _ & ? & ?)]; [left; unfold alive; by rewrite Ef|by right]. }
  assert (Hown' : forall a t, owns V a t (gm w) -> a <> self -> owns V a t (gm w')).
  { intros a t (k & sk & O1 & O2 & O3 & O4 & O5) Ha. exists k, sk. split_and!; try done.
    rewrite (fr_sectors _ _ _ _ Fr); [done|]. intros ->. congruence. }
  split; try done.
  - intros a t Ht Ha Hz. destruct (decide (a = self)) as [->|Hne].
    + assert (t = th') as -> by congruence. destruct (Hend' Ha) as (Ef & Esd & Hv). exists s, sec'. split_and!; try done; [congruence|].
      destruct (li_movers _ Hi self th Hat Hal) as (_ & _ & _ & _ & _ & _ & Hf); [congruence|]. rewrite Ef, Hact.
      destruct Hf as [Hf|[Hf Hf0]]; [by left|right]. split; [|done]. by destruct th, th'.
    + apply Hown'; [|done]. apply (li_movers _ Hi); [|done|done]. apply Hoth; [done|by destruct t|done].
  - intros a p Ht Ha. destruct (decide (a = self)) as [->|Hne].
    + assert (th' = TPlat p) as -> by congruence. destruct Hend as [(_ & _ & _ & Hin)|[Hr _]]; [|done]. apply Hin.
      destruct th; try done. by eapply (li_plats _ Hi).
    + eapply kept_stays; [exact (fr_plats _ _ _ _ Fr)|done|]. eapply (li_plats _ Hi); [by apply Hoth|done].
  - intros a t Ht Ha Hl. destruct (light_is_mover t Hl) as [Hmt Hnt]. destruct (decide (a = self)) as [->|Hne]; [congruence|].
    eapply shines_keeps; [done|by exists sec|]. by eapply (li_lights _ Hi); [apply Hoth|..].
  - intros k x Hk Hz. rewrite Es in Hk. apply lookup_one in Hk as [[-> ->]|[Hk Hx]].
    + assert (Ha : alive th') by (destruct Hend as [(Ef & _)|(_ & ? & _)]; [unfold alive; by rewrite Ef|done]).
      destruct (Hend' Ha) as (_ & -> & _). exists th'. split_and!; [done|done|congruence].
    + destruct (li_owner _ Hi k x Hx Hz) as (t & Ht & Hta & Hts). exists t. split_and!; try done.
      apply (fr_movers _ _ _ _ Fr); [|by eapply mover_is_mover|done]. intros Ee. rewrite Ee in Ht.
      assert (t = th) as -> by congruence. rewrite Hms in Hts. injection Hts as Hts. lia.
  - eapply (slots_step _ _ _ th th'); [done|apply Fr|done|done|done|done|destruct Hsl as [?|[? _]]; auto|apply Hi].
  - eapply (slots_step _ _ _ th th'); [done|apply Fr|done|done|done|done|destruct Hsl as [?|[_ ?]]; auto|apply Hi].
Qed.

(** ** The turn of a light *)
Lemma light_step_inv self s lo hi th sec w w' th' l : level_on V w -> thing_at self (gm w) = Some th -> alive th -> is_light th = true ->
  sectors (gm w) !! s = Some sec -> frame self s w w' -> thing_at self (gm w') = Some th' ->
  sectors (gm w') = <[s := sec <| Sector.lightlevel := l |>]> (sectors (gm w)) -> light_ok s lo hi th' ->
  thing_action th' = thing_action th -> thing_function th' = thing_function th -> level_on V w'.
Proof.
  intros Hi Hat Hal Hl Hsec Fr Hat' Es Hok Hact Hfn. set (sec' := sec <| Sector.lightlevel := l |>) in *.
  destruct (frame_keeps self s sec w w' Fr Hsec Hi) as (K1 & K2 & K3 & K4). destruct (light_is_mover th Hl) as [Hm Hn].
  assert (Hl' : is_light th' = true) by (unfold is_light; by rewrite (lo_view _ _ _ _ Hok)).
  destruct (light_is_mover th' Hl') as [_ Hn'].
  assert (Hoth : forall a t, a <> self -> is_mover t = true -> thing_at a (gm w') = Some t <-> thing_at a (gm w) = Some t)
    by (intros; by apply (fr_movers _ _ _ _ Fr)).
  assert (Hsec' : sectors (gm w') !! s = Some sec') by (rewrite Es; by rewrite list_lookup_insert_eq by (by eapply lookup_lt_Some)).
  split; try done.
  - intros a t Ht Ha Hz. destruct (decide (a = self)) as [->|Hne]; [congruence|].
    apply Hoth in Ht; [|done|by destruct t]. destruct (li_movers _ Hi a t Ht Ha Hz) as (k & sk & O1 & O2 & O3 & O4 & O5).
    destruct (decide (k = s)) as [->|Hk].
    + assert (sk = sec) as -> by congruence. exists s, sec'. split_and!; try done. by apply (course_same t sec).
    + exists k, sk. split_and!; try done. by rewrite (fr_sectors _ _ _ _ Fr).
  - intros a p Ht Ha. destruct (decide (a = self)) as [->|Hne]; [assert (th' = TPlat p) by congruence; by subst th'|]. apply Hoth in Ht; [|done|done].
    eapply kept_stays; [exact (fr_plats _ _ _ _ Fr)|done|]. by eapply (li_plats _ Hi).
  - intros a t Ht Ha Hlt. destruct (decide (a = self)) as [->|Hne].
    + assert (t = th') as -> by congruence. destruct (li_lights _ Hi self th Hat Hal Hl) as (_ & _ & _ & _ & _ & _ & Hf).
      exists s, sec', lo, hi. split_and!; try done. by rewrite Hfn, Hf, Hact.
    + apply Hoth in Ht; [|done|by apply light_is_mover]. eapply shines_keeps; [done|by exists sec|]. by eapply (li_lights _ Hi).
  - intros k x Hk Hz. assert (Hx : exists y, sectors (gm w) !! k = Some y /\ Sector.specialdata y = Sector.specialdata x).
    { rewrite Es in Hk. apply lookup_one in Hk as [[-> ->]|[Hk Hx]]; [by exists sec|by exists x]. }
    destruct Hx as (y & Hy & Ey). rewrite <- Ey in Hz |- *. destruct (li_owner _ Hi k y Hy Hz) as (t & Ht & Hta & Hts). exists t.
    split_and!; try done. apply Hoth; [|by eapply mover_is_mover|done]. intros Ee. rewrite Ee in Ht. congruence.
  - eapply (slots_step _ _ _ th th'); [done|apply Fr|done|done|done|done|left; unfold alive; by rewrite Hfn|apply Hi].
  - eapply (slots_step _ _ _ th th'); [done|apply Fr|done|done|done|done|left; unfold alive; by rewrite Hfn|apply Hi].
Qed.
End facts.

(** ** The list without an object *)
Lemma filter_id {X} (P : X -> Prop) `{!forall x, Decision (P x)} (l : list X) : Forall P l -> filter P l = l.
Proof. induction 1 as [|x l Hx Hl IH]; [done|]. rewrite filter_cons_True by done. by rewrite IH. Qed.

Lemma thing_in_filter a b l : thing_in b (filter (fun x : Z * thing => x.1 <> a) l) = if b =? a then None else thing_in b l.
Proof.
  induction l as [|[c t] l IH]; [by destruct (b =? a)|]. destruct (decide (c = a)) as [->|Hne].
  - rewrite filter_cons_False by (cbn; lia). rewrite IH. cbn. destruct (b =? a) eqn:E; breflect; [done|].
    by rewrite (proj2 (Z.eqb_neq a b)) by congruence.
  - rewrite filter_cons_True by done. cbn [thing_in]. rewrite IH. destruct (c =? b) eqn:E; breflect; [|done]. subst c.
    by rewrite (proj2 (Z.eqb_neq b a)).
Qed.

Lemma thing_at_unlink a b g : thing_at b (unlink a g) = if b =? a then None else thing_at b g.
Proof. apply thing_in_filter. Qed.

Lemma addresses_unlink a g pre post : addresses g = pre ++ a :: post -> NoDup (addresses g) -> addresses (unlink a g) = pre ++ post.
Proof.
  unfold addresses, unlink. cbn [thinkers update]. generalize (thinkers g). clear. intros l. revert pre.
  induction l as [|[b t] l IH]; intros pre E Hnd; [by destruct pre|]. destruct pre as [|c pre]; cbn in E.
  - injection E as -> E. rewrite filter_cons_False by (cbn; lia). cbn in Hnd. apply NoDup_cons in Hnd as [Hn _]. cbn. rewrite <- E.
    f_equal. apply filter_id, Forall_forall. intros [x t'] Hx Heq. cbn in Heq. subst x. apply Hn.
    apply list_elem_of_fmap. by exists (a, t').
  - injection E as -> E. cbn in Hnd. apply NoDup_cons in Hnd as [Hn Hnd].
    assert (c <> a) by (intros ->; apply Hn; rewrite E; set_solver).
    rewrite filter_cons_True by done. cbn. f_equal. by apply IH.
Qed.

Lemma next_split a g pre post : addresses g = pre ++ a :: post -> NoDup (addresses g) -> next_thinker a g = head post.
Proof.
  unfold next_thinker, addresses. generalize (thinkers g). intros l. revert pre.
  induction l as [|[b t] l IH]; intros pre E Hnd; [by destruct pre|]. cbn in *. apply NoDup_cons in Hnd as [Hn Hnd].
  destruct pre as [|c pre]; cbn in E; injection E as -> E.
  - rewrite Z.eqb_refl. rewrite <- E. by destruct l as [|[? ?] ?].
  - rewrite (proj2 (Z.eqb_neq c a)); [by eapply IH|]. intros ->. apply Hn. rewrite E. set_solver.
Qed.

(** What the level relies on from the objects that are not movers: their
    turn goes through, keeps the invariant, and puts new objects behind. *)
Class ActorLaws {A : Arch} {im : Image} {act : Actors} (V : thing -> Sector.doomsector_t -> Prop) : Prop := {
  actor_turn self m w : level_on V w -> thing_at self (gm w) = Some (TMobj m) -> alive (TMobj m) ->
    exists w' l, mobj_thinker self w = Ret w' /\ level_on V w' /\ addresses (gm w') = addresses (gm w) ++ l
}.

Section calls.
Context {A : Arch} {im : Image} {il : ImageLaws} {C : Crush} {H : Heap} {msgs : Messages} {act : Actors}.
Context {V : thing -> Sector.doomsector_t -> Prop}.
Implicit Types (w : world) (self : Z) (s : nat) (th : thing).

Lemma call_fn a self w : call_thinker (fn_addr a) self w =
  match a with
  | P_MobjThinker => mobj_thinker self w
  | GameTypes.T_MoveCeiling => T_MoveCeiling self w
  | GameTypes.T_VerticalDoor => T_VerticalDoor self w
  | GameTypes.T_MoveFloor => T_MoveFloor self w
  | GameTypes.T_PlatRaise => T_PlatRaise self w
  | GameTypes.T_LightFlash => T_LightFlash self w
  | GameTypes.T_StrobeFlash => T_StrobeFlash self w
  | GameTypes.T_Glow => T_Glow self w
  | GameTypes.T_FireFlicker => T_FireFlicker self w
  end.
Proof.
  assert (Hne : forall b, b <> a -> (fn_addr a =? fn_addr b) = false).
  { intros b Hb. apply Z.eqb_neq. intros E. apply Hb. symmetry. by apply fn_inj. }
  unfold call_thinker. destruct a; repeat (rewrite Hne by done); by rewrite Z.eqb_refl.
Qed.

(** A mover that has no slot in a list does not get one. *)
Lemma no_slot act' th self s l l' w w' : frame self s w w' -> Forall2 (kept self) l l' -> slots_ok act' l (gm w) ->
  thing_at self (gm w) = Some th -> thing_action th <> act' -> self <> 0 -> self ∉ l'.
Proof.
  intros Fr Hk [_ Hs] Hat Hne Hnz Hin. destruct (Hs self (kept_in _ _ _ _ Hk Hnz Hin) Hnz) as (t & Ht & _ & Hta). congruence.
Qed.

Lemma not_plat th self w : level_on V w -> thing_at self (gm w) = Some th -> self <> 0 -> thing_action th <> GameTypes.T_PlatRaise ->
  self ∉ activeplats (gm w).
Proof. intros Hi Hat Hnz Hne Hin. destruct (li_activeplats _ Hi) as [_ Hsl]. destruct (Hsl self Hin Hnz) as (t & Ht & _ & Hta). congruence. Qed.

End calls.

(** What each mover of a plane does for its part: its turn goes through and
    is a step as above. *)
Class Movers {A : Arch} {im : Image} {C : Crush} {H : Heap} {msgs : Messages} {act : Actors}
  (V : thing -> Sector.doomsector_t -> Prop) : Prop :=
  mover_turn self s th sec w : level_on V w -> self <> 0 -> thing_at self (gm w) = Some th -> alive th ->
    mover_sector th = Some (Z.of_nat s) -> sectors (gm w) !! s = Some sec -> V th sec -> thing_function th = fn_addr (thing_action th) ->
    exists w' th' sec', call_thinker (thing_function th) self w = Ret w' /\ plane_step (V := V) self s th sec th' sec' w w'.

Section planes.
Context {A : Arch} {im : Image} {il : ImageLaws} {C : Crush} {laws : CrushLaws} {H : Heap} {hlaws : HeapLaws} {msgs : Messages}.
Context {act : Actors}.
Implicit Types (w : world) (self : Z) (s : nat) (th : thing).

Lemma plat_turn self s p sec w : level_inv w -> self <> 0 -> thing_at self (gm w) = Some (TPlat p) -> alive (TPlat p) ->
  Plat.sector p = Z.of_nat s -> sectors (gm w) !! s = Some sec -> plat_valid p sec ->
  exists w' th' sec', T_PlatRaise self w = Ret w' /\ plane_step (V := plane_valid) self s (TPlat p) sec th' sec' w w'.
Proof.
  intros Hi Hnz Hat Hal Hs Hsec Hv. destruct (plat_tic_run self s p sec w) as (w' & E & p' & sec' & Hin & Hv' & Hc & Es & Hend);
    [by split|done|by eapply (li_plats _ Hi)|done|apply Hi|].
  exists w', (TPlat p'), sec'. split; [done|]. assert (Fr : frame self s w w') by (by eapply T_PlatRaise_frame).
  split; try done; [apply Hin|cbn; f_equal; apply Hc|]. destruct Hend as [(Hf & Hsd & Ha)|(Hf & Hsd & Ha)].
  - left. split_and!; try done. by rewrite Ha.
  - right. split_and!; try done. eapply no_slot; [done|apply Fr|apply Hi|done|done|done].
Qed.

Lemma door_turn self s d sec w : level_inv w -> self <> 0 -> thing_at self (gm w) = Some (TDoor d) -> alive (TDoor d) ->
  VlDoor.sector d = Z.of_nat s -> sectors (gm w) !! s = Some sec -> door_valid d sec ->
  exists w' th' sec', T_VerticalDoor self w = Ret w' /\ plane_step (V := plane_valid) self s (TDoor d) sec th' sec' w w'.
Proof.
  intros Hi Hnz Hat Hal Hs Hsec Hv. destruct (door_tic_run self s d sec w) as (w' & d' & sec' & E & (Hin & Hv' & Es & _ & _ & _ & _ & Hend) & _);
    [by split|done|].
  exists w', (TDoor d'), sec'. split; [done|]. assert (Fr : frame self s w w') by (by eapply T_VerticalDoor_frame).
  assert (Hn : self ∉ activeplats (gm w') /\ self ∉ activeceilings (gm w'))
    by (split; (eapply no_slot; [done|apply Fr|apply Hi|done|done|done])).
  split; try done; [apply Hin|cbn; rewrite (di_sector _ _ _ _ _ Hin); congruence|]. destruct Hend as [(Hf & Hsd)|(Hf & Hsd)].
  - left. split_and!; try done; [unfold thing_function, thing_thinker; by rewrite Hf|]. intros Hin'. by destruct (not_plat _ _ _ Hi Hat Hnz).
  - right. by destruct Hn.
Qed.

Lemma ceiling_turn_step self s c sec w : level_inv w -> self <> 0 -> thing_at self (gm w) = Some (TCeiling c) -> alive (TCeiling c) ->
  Ceiling.sector c = Z.of_nat s -> sectors (gm w) !! s = Some sec -> ceiling_valid c sec ->
  exists w' th' sec', T_MoveCeiling self w = Ret w' /\ plane_step (V := plane_valid) self s (TCeiling c) sec th' sec' w w'.
Proof.
  intros Hi Hnz Hat Hal Hs Hsec Hv. destruct (ceiling_tic_run self s c sec w) as (w' & c' & sec' & E & Hat' & Es & Hv' & Hc & _ & _ & Fr & Hend);
    [done|done|done|done|done|apply Hi|].
  exists w', (TCeiling c'), sec'. split; [done|].
  split; try done; [cbn; f_equal; apply Hc|]. destruct Hend as [(Hf & Hsd & _)|(Hf & Hsd & Ha & _)].
  - left. split_and!; try done; [unfold thing_function, thing_thinker; by rewrite Hf|]. intros Hin'. by destruct (not_plat _ _ _ Hi Hat Hnz).
  - right. split_and!; try done. eapply no_slot; [done|apply Fr|apply Hi|done|done|done].
Qed.

Lemma floor_turn self s f sec w : level_inv w -> self <> 0 -> thing_at self (gm w) = Some (TFloor f) -> alive (TFloor f) ->
  FloorMove.sector f = Z.of_nat s -> sectors (gm w) !! s = Some sec -> floor_valid f sec ->
  exists w' th' sec', T_MoveFloor self w = Ret w' /\ plane_step (V := plane_valid) self s (TFloor f) sec th' sec' w w'.
Proof.
  intros Hi Hnz Hat Hal Hs Hsec Hv. destruct (floor_tic_run self s f sec w) as (w' & f' & sec' & h & E & Hat' & Es & Fr & _ & _ & Hend & _);
    [done|done|done|done|].
  assert (Hn : self ∉ activeplats (gm w') /\ self ∉ activeceilings (gm w'))
    by (split; (eapply no_slot; [done|apply Fr|apply Hi|done|done|done])).
  exists w', (TFloor f'), sec'. split; [done|]. destruct Hend as [(-> & -> & Hv')|(-> & ->)].
  - split; try done. left. split_and!; try done. intros Hin'. by destruct (not_plat _ _ _ Hi Hat Hnz).
  - split; try done. right. destruct Hn. split_and!; try done. cbn zeta. by destruct (changes f).
Qed.

#[export] Instance plane_movers : Movers plane_valid.
Proof.
  intros self s th sec w Hi Hnz Hat Hal Hms Hsec Hv Hf. rewrite Hf, call_fn.
  destruct th; try done; injection Hms as Hs; cbn [thing_action].
  - by apply ceiling_turn_step.
  - by apply door_turn.
  - by apply floor_turn.
  - by apply plat_turn.
Qed.
End planes.

Section turns.
Context {A : Arch} {im : Image} {il : ImageLaws} {C : Crush} {laws : CrushLaws} {H : Heap} {hlaws : HeapLaws} {msgs : Messages}.
Context {act : Actors} {V : thing -> Sector.doomsector_t -> Prop} {course : Course V} {movers : Movers V} {alaws : ActorLaws V}.
Implicit Types (w : world) (self : Z) (s : nat) (th : thing).

Lemma light_turn self th w : level_on V w -> thing_at self (gm w) = Some th -> alive th -> is_light th = true ->
  exists w' l, call_thinker (thing_function th) self w = Ret w' /\ level_on V w' /\ addresses (gm w') = addresses (gm w) ++ l.
Proof.
  intros Hi Hat Hal Hl. destruct (li_lights _ Hi self th Hat Hal Hl) as (s & sec & lo & hi & Hok & Hsec & Hf).
  pose proof (li_light _ Hi) as Hd. rewrite Forall_lookup in Hd. specialize (Hd s sec Hsec).
  destruct (light_tic_run self s lo hi th sec w Hat Hsec Hok Hd) as (w' & th' & l & E & Hat' & Et & Hok' & Hact & Es & Fr & _).
  destruct (fr_adds _ _ _ _ Fr) as [new Hnew]. exists w', new. split_and!; [|eapply (light_step_inv self s lo hi th); try done|done].
  - rewrite Hf, call_fn. by destruct th.
  - unfold thing_function. by rewrite Et.
Qed.

(** ** Every turn goes through *)
Lemma addr_nonzero a th w : level_on V w -> thing_at a (gm w) = Some th -> a <> 0.
Proof. intros Hi Hat ->. destruct (li_addrs _ Hi) as [_ Hz]. by eapply Hz, thing_at_addr. Qed.

Lemma call_run self th w : level_on V w -> thing_at self (gm w) = Some th -> alive th -> thing_function th <> 0 ->
  exists w' l, call_thinker (thing_function th) self w = Ret w' /\ level_on V w' /\ addresses (gm w') = addresses (gm w) ++ l.
Proof.
  intros Hi Hat Hal Hf0. pose proof (addr_nonzero _ _ _ Hi Hat) as Hnz.
  destruct (mover_sector th) as [z|] eqn:Hz.
  - destruct (li_movers _ Hi self th Hat Hal ltac:(congruence)) as (s & sec & Hms & Hsec & Hown & Hv & Hf).
    assert (Hf' : thing_function th = fn_addr (thing_action th)) by (by destruct Hf as [?|[_ ?]]).
    destruct (mover_turn self s th sec w Hi Hnz Hat Hal Hms Hsec Hv Hf') as (w' & th' & sec' & E & Hst).
    destruct (fr_adds _ _ _ _ (ps_frame _ _ _ _ _ _ _ _ Hst)) as [l El]. exists w', l. split_and!; try done.
    by eapply (plane_step_inv self s th sec).
  - destruct (is_light th) eqn:Hl; [by apply light_turn|]. destruct th; try done.
    destruct (li_actors _ Hi self m Hat) as [Hf|Hf]; [|done]. rewrite Hf, call_fn. by eapply actor_turn.
Qed.

(** A marked object is taken out: nothing points to it. *)
Lemma unlink_inv self th w : level_on V w -> thing_at self (gm w) = Some th -> thing_function th = removed ->
  level_on V (w <| gm ::= unlink self |>).
Proof.
  intros Hi Hat Hf. destruct (li_addrs _ Hi) as [Hnd Hz0].
  destruct (list_elem_of_split _ _ (thing_at_addr _ _ _ Hat)) as (pre & post & Ea).
  pose proof (addresses_unlink self (gm w) pre post Ea Hnd) as Eu.
  assert (Hth : forall a t, thing_at a (unlink self (gm w)) = Some t -> thing_at a (gm w) = Some t).
  { intros a t. rewrite thing_at_unlink. by destruct (a =? self). }
  assert (Hlive : forall a t, thing_at a (gm w) = Some t -> alive t -> thing_at a (unlink self (gm w)) = Some t).
  { intros a t Ht Ha. rewrite thing_at_unlink. destruct (a =? self) eqn:E; breflect; [|done]. subst a.
    assert (t = th) as -> by congruence. by destruct Ha. }
  assert (Hsl : forall a l, slots_ok a l (gm w) -> slots_ok a l (unlink self (gm w))).
  { intros a l [Hn Hs]. split; [done|]. intros p Hp Hp0. destruct (Hs p Hp Hp0) as (t & Ht & Ha & Hta). exists t. split_and!; auto. }
  split; cbn [gm update].
  - split; [rewrite Eu|]; rewrite ?Eu.
    + rewrite Ea in Hnd. apply NoDup_app in Hnd as (N1 & N2 & N3). apply NoDup_cons in N3 as [_ N3]. apply NoDup_app. split_and!; try done.
      intros x Hx Hx'. by eapply N2, list_elem_of_further.
    + intros Hin. apply Hz0. rewrite Ea. apply elem_of_app in Hin as [Hin|Hin]; apply elem_of_app; [by left|right; by right].
  - destruct (li_level _ Hi) as [H1 H2]. split; [exact H1|exact H2].
  - intros a m Hm. apply (li_actors _ Hi a m). by apply Hth.
  - apply (li_light _ Hi).
  - intros a t Ht Ha Hz. exact (li_movers _ Hi a t (Hth _ _ Ht) Ha Hz).
  - intros a p Ht Ha. exact (li_plats _ Hi a p (Hth _ _ Ht) Ha).
  - intros a t Ht Ha Hl. exact (li_lights _ Hi a t (Hth _ _ Ht) Ha Hl).
  - intros k x Hk Hz. destruct (li_owner _ Hi k x Hk Hz) as (t & Ht & Ha & Hts). exists t. split_and!; auto.
  - apply Hsl, Hi.
  - apply Hsl, Hi.
Qed.

(** One turn, for the object between [pre] and [post]. *)
Definition turn_result (self : Z) (pre post : list Z) (th : thing) (w : world) (cur : option Z) (w' : world) (new : list Z) : Prop :=
  level_on V w' /\ cur = head (post ++ new) /\
  if thing_function th =? removed
  then addresses (gm w') = pre ++ post /\ new = [] /\ sectors (gm w') = sectors (gm w) /\
    (forall a, a <> self -> thing_at a (gm w') = thing_at a (gm w))
  else addresses (gm w') = pre ++ self :: post ++ new.

Lemma turn_run self pre post th w : level_on V w -> thing_at self (gm w) = Some th -> addresses (gm w) = pre ++ self :: post ->
  exists cur w' new, turn self w = Ret (cur, w') /\ turn_result self pre post th w cur w' new.
Proof.
  intros Hi Hat Ea. destruct (li_addrs _ Hi) as [Hnd _]. unfold turn, turn_result. rewrite Hat. cbn [of_option obind].
  destruct (thing_function th =? removed) eqn:Er; breflect.
  - eexists _, _, []. split; [reflexivity|]. rewrite app_nil_r. split_and!; try done.
    + by eapply unlink_inv.
    + by apply (next_split _ _ pre).
    + by apply addresses_unlink.
    + intros a Ha. cbn [gm update]. by rewrite thing_at_unlink, (proj2 (Z.eqb_neq a self)).
  - assert (Hc : exists w' l, (if truth (thing_function th) then call_thinker (thing_function th) self w else Ret w) = Ret w' /\
      level_on V w' /\ addresses (gm w') = addresses (gm w) ++ l).
    { unfold truth. destruct (thing_function th =? 0) eqn:E0; breflect; cbn [negb]; [|by apply call_run].
      exists w, []. by rewrite app_nil_r. }
    destruct Hc as (w' & l & -> & Hi' & El). cbn [obind]. eexists _, w', l. split; [reflexivity|].
    assert (Ea' : addresses (gm w') = pre ++ self :: post ++ l) by (by rewrite El, Ea, <- app_assoc).
    split_and!; try done. apply (next_split _ _ pre); [done|apply Hi'].
Qed.

(** ** A whole pass

    [turns cur w vs n cur' w']: from the cursor [cur] the objects [vs] have
    their turns and [n] new objects appear. *)
Definition spawned_by (self : Z) (w w' : world) : nat :=
  length (addresses (gm w')) + (if bool_decide (self ∈ addresses (gm w')) then 0 else 1) - length (addresses (gm w)).
Inductive turns : option Z -> world -> list Z -> nat -> option Z -> world -> Prop :=
| turns_nil cur w : turns cur w [] 0 cur w
| turns_cons self w cur1 w1 vs n cur2 w2 :
    turn self w = Ret (cur1, w1) -> turns cur1 w1 vs n cur2 w2 ->
    turns (Some self) w (self :: vs) (spawned_by self w w1 + n) cur2 w2.

Lemma turn_spawns self pre post th w cur w' new : addresses (gm w) = pre ++ self :: post ->
  turn_result self pre post th w cur w' new -> spawned_by self w w' = length new.
Proof.
  intros Ea (Hi' & _ & Hr). unfold spawned_by. destruct (li_addrs _ Hi') as [Hnd _]. rewrite Ea.
  destruct (_ =? _).
  - destruct Hr as (Ea' & -> & _). rewrite Ea', !length_app. cbn [length]. destruct (bool_decide _); lia.
  - rewrite Hr, bool_decide_eq_true_2 by set_solver. rewrite !length_app. cbn [length]. rewrite length_app. lia.
Qed.

Lemma run_thinkers_run fuel : forall N w pre todo, level_on V w -> addresses (gm w) = pre ++ todo -> fuel = (length todo + N)%nat ->
  (forall vs n cur w', turns (head todo) w vs n cur w' -> (n <= N)%nat) ->
  exists new w', run_thinkers fuel (head todo) w = Ret w' /\ level_on V w' /\ turns (head todo) w (todo ++ new) (length new) None w'.
Proof.
  induction fuel as [|fuel IH]; intros N w pre todo Hi Ea Ef Hb; destruct todo as [|self post]; try (cbn in Ef; lia).
  - exists [], w. split_and!; try done. constructor.
  - exists [], w. split_and!; try done. constructor.
  - cbn [head] in *. destruct (addr_thing_at self (gm w)) as [th Hat]; [rewrite Ea; set_solver|].
    destruct (turn_run self pre post th w Hi Hat Ea) as (cur & w1 & new & E & Hr).
    pose proof (turn_spawns _ _ _ _ _ _ _ _ Ea Hr) as Hs. destruct Hr as (Hi1 & Hcur & Hr).
    assert (Hn : (length new <= N)%nat).
    { rewrite <- Hs. rewrite <- (Nat.add_0_r (spawned_by _ _ _)). eapply Hb. econstructor; [done|constructor]. }
    assert (Ha1 : exists pre', addresses (gm w1) = pre' ++ (post ++ new)).
    { destruct (_ =? _); [destruct Hr as (-> & -> & _); exists pre; by rewrite app_nil_r|]. exists (pre ++ [self]).
      rewrite Hr, <- app_assoc. done. }
    destruct Ha1 as [pre' Ha1]. destruct (IH (N - length new)%nat w1 pre' (post ++ new) Hi1 Ha1) as (new' & w' & E' & Hi' & Ht).
    + rewrite length_app. cbn in Ef. lia.
    + intros vs n cur' w' Ht. assert (length new + n <= N)%nat; [|lia]. rewrite <- Hs. eapply Hb. econstructor; [done|by rewrite Hcur].
    + exists (new ++ new'), w'. cbn [run_thinkers]. rewrite E. cbn [obind]. rewrite Hcur. split_and!; try done.
      rewrite length_app, <- Hs. cbn [app]. rewrite app_assoc. econstructor; [exact E|by rewrite Hcur].
Qed.

Lemma first_head g : first_thinker (thinkers g) = head (addresses g).
Proof. unfold addresses. by destruct (thinkers g) as [|[? ?] ?]. Qed.

(** Whatever the fuel, nothing goes wrong. *)
Lemma run_thinkers_safe fuel : forall w pre todo, level_on V w -> addresses (gm w) = pre ++ todo ->
  run_thinkers fuel (head todo) w = NoFuel \/ exists w', run_thinkers fuel (head todo) w = Ret w' /\ level_on V w'.
Proof.
  induction fuel as [|fuel IH]; intros w pre todo Hi Ea; destruct todo as [|self post]; cbn [head run_thinkers]; eauto.
  destruct (addr_thing_at self (gm w)) as [th Hat]; [rewrite Ea; set_solver|].
  destruct (turn_run self pre post th w Hi Hat Ea) as (cur & w1 & new & E & Hi1 & Hcur & Hr). rewrite E. cbn [obind]. rewrite Hcur.
  destruct (_ =? _); [destruct Hr as (Ha & -> & _); rewrite app_nil_r; by eapply IH|]. apply (IH _ (pre ++ [self])); [done|].
  rewrite Hr, <- app_assoc. done.
Qed.

(** A pass goes only one way. *)
Lemma turns_bounded cur w vs n w' : turns cur w vs n None w' ->
  forall vs2 n2 cur2 w2, turns cur w vs2 n2 cur2 w2 -> (n2 <= n)%nat.
Proof.
  remember None as fin eqn:Efin. induction 1 as [cur w|self w cur1 w1 vs n cur2 w2 E Ht IH]; intros vs2 n2 cur3 w3 H2; subst.
  - inversion H2; subst. done.
  - inversion H2 as [|? ? c v ? m ? ? E' Ht']; subst; [lia|]. rewrite E in E'. injection E' as <- <-.
    assert (m <= n)%nat by (by eapply IH). lia.
Qed.

End turns.

(** ** The claims *)
Section claims.
Context {A : Arch} {im : Image} {il : ImageLaws} {C : Crush} {laws : CrushLaws} {H : Heap} {hlaws : HeapLaws} {msgs : Messages}.
Context {act : Actors} {alaws : ActorLaws plane_valid}.
Implicit Types (w : world).

(** C4: P_RunThinkers never goes wrong in a valid level and leaves a valid
    level. When at most N objects are spawned on the way it ends, after one
    turn for each object that was there, in order, and then one for each new
    one. *)
Theorem P_RunThinkers_correct w : level_inv w ->
  (forall fuel, P_RunThinkers fuel w = NoFuel \/ exists w', P_RunThinkers fuel w = Ret w' /\ level_inv w') /\
  forall N, (forall vs n cur w', turns (first_thinker (thinkers (gm w))) w vs n cur w' -> (n <= N)%nat) ->
    exists new w', P_RunThinkers (length (thinkers (gm w)) + N) w = Ret w' /\ level_inv w' /\
      turns (first_thinker (thinkers (gm w))) w (addresses (gm w) ++ new) (length new) None w'.
Proof.
  intros Hi. unfold P_RunThinkers. rewrite first_head. split.
  - intros fuel. by apply (run_thinkers_safe fuel w []).
  - intros N Hb. eapply (run_thinkers_run _ N w []); [done|done| |done]. f_equal. unfold addresses. by rewrite length_fmap.
Qed.
End claims.

(** ** Witnesses *)
Section witness.
Import Demo.
(** Things that do nothing. *)
#[local] Instance statues : Actors := fun _ w => Ret w.
#[local] Instance statue_laws : ActorLaws plane_valid.
Proof. split. intros self m w Hi _ _. exists w, []. by rewrite app_nil_r. Qed.
#[local] Instance image_laws : ImageLaws.
Proof. split; [by intros [] []|by intros []|by intros []]. Qed.
#[local] Instance silent : Messages := fun _ => 0.

(** The plat of the middle room, a strobe light there, and a door that is gone. *)
Definition old_door : VlDoor.vldoor_t := VlDoor.mk (Thinker.mk 77 77 removed) 0 0 0 0 0 0 0.
Definition busy : world := running <| gm ::= fun g => g <| thinkers := [(1, TPlat room_plat); (2, TDoor old_door); (3, TStrobe disco)] |> |>.

Lemma busy_things a th : thing_at a (gm busy) = Some th ->
  a = 1 /\ th = TPlat room_plat \/ a = 2 /\ th = TDoor old_door \/ a = 3 /\ th = TStrobe disco.
Proof.
  cbn [busy running gm update thing_at thinkers thing_in]. unfold thing_at. cbn [thinkers thing_in].
  destruct (1 =? a) eqn:E1; breflect; [intros [= <-]; auto|]. destruct (2 =? a) eqn:E2; breflect; [intros [= <-]; auto|].
  destruct (3 =? a) eqn:E3; breflect; [intros [= <-]; auto|done].
Qed.
Lemma busy_sectors s sec : sectors (gm busy) !! s = Some sec -> s = 1%nat \/ Sector.specialdata sec = 0.
Proof. do 3 (destruct s as [|s]; [intros [= <-]; auto|]). done. Qed.

Lemma busy_inv : level_inv busy.
Proof.
  assert (Hsl : forall p, p ∈ activeplats (gm busy) -> p <> 0 -> p = 1) by (cbn; set_solver by lia).
  split.
  - split; by_decision.
  - destruct rooms_ok as [H1 H2]. split.
    + intros s sec. do 3 (destruct s as [|s]; [intros [= <-]; repeat (apply Forall_cons_2; [eexists; reflexivity|]); apply Forall_nil_2|]). done.
    + intros l li o Hl Ho. destruct (H2 l li o Hl Ho) as [x Hx]. apply lookup_lt_is_Some_2. by apply lookup_lt_Some in Hx.
  - intros a m [[_ ?]|[[_ ?]|[_ ?]]]%busy_things; done.
  - repeat constructor; cbn; lia.
  - intros a th [[-> ->]|[[-> ->]|[-> ->]]]%busy_things Ha Hz; try done. eexists 1%nat, _.
    split; [reflexivity|]. split; [reflexivity|]. split; [reflexivity|]. split; [exact room_plat_valid|by left].
  - intros a p [[-> [= ->]]|[[_ ?]|[_ ?]]]%busy_things Ha; try done. left.
  - intros a th [[-> ->]|[[-> ->]|[-> ->]]]%busy_things Ha Hl; try done. exists 1%nat. eexists _, 100, 157.
    split; [exact disco_ok|]. split; [reflexivity|reflexivity].
  - intros s sec Hs Hz. destruct (busy_sectors s sec Hs) as [->|?]; [|done]. injection Hs as <-. by exists (TPlat room_plat).
  - split; [by_decision|]. intros p Hp Hz. rewrite (Hsl p Hp Hz). by exists (TPlat room_plat).
  - split; [by_decision|]. intros p Hp. by apply elem_of_nil in Hp.
Qed.

Definition tic1 : world := match turn 1 busy with Ret (_, w) => w | _ => busy end.
Definition tic2 : world := match turn 2 tic1 with Ret (_, w) => w | _ => tic1 end.
Definition tic3 : world := match turn 3 tic2 with Ret (_, w) => w | _ => tic2 end.
Lemma busy_turns : turns (Some 1) busy [1; 2; 3] 0 None tic3.
Proof.
  apply (turns_cons 1 busy (Some 2) tic1 [2; 3] 0); [vm_compute; reflexivity|].
  apply (turns_cons 2 tic1 (Some 3) tic2 [3] 0); [vm_compute; reflexivity|].
  apply (turns_cons 3 tic2 None tic3 [] 0); [vm_compute; reflexivity|constructor].
Qed.

Lemma P_RunThinkers_correct_witness : exists w' new, P_RunThinkers 3 busy = Ret w' /\ level_inv w' /\
  turns (Some 1) busy ([1; 2; 3] ++ new) (length new) None w'.
Proof.
  destruct (P_RunThinkers_correct busy busy_inv) as [_ Hrun].
  destruct (Hrun 0%nat (turns_bounded _ _ _ _ _ busy_turns)) as (new & w' & E & Hi & Ht).
  exists w', new. split; [exact E|]. split; [exact Hi|exact Ht].
Defined.
End witness.
