(* ===== verification/ThinkerList.v ===== *)
(** * The thinker list in memory (src/commands/doom/p_tick.c)

    [thinkercap] is the head of a circular list with links in both
    directions. The model of the game has the list of the objects instead;
    this file shows that the links do what the model says: a new thinker goes
    last, the one that is removed leaves the others in their order, and its
    own link, which the loop of [P_RunThinkers] reads after it was freed, still
    leads to the object that came next. *)
From S2P Require Import Prelude GameTypes Thinkers MovePlane Ticker TickerTheorems.
#[local] Open Scope doom_scope.

Module Links.
(** The fields [next] and [prev] of the thinkers, by address. *)
Record links : Type := mk { next : gmap Z Z; prev : gmap Z Z }.

Section ops.
Variable thinkercap : Z.

Definition get_next (a : Z) (m : links) : outcome Z := of_option (next m !! a).
Definition get_prev (a : Z) (m : links) : outcome Z := of_option (prev m !! a).
Definition set_next (a v : Z) (m : links) : links := mk (<[a := v]> (next m)) (prev m).
Definition set_prev (a v : Z) (m : links) : links := mk (next m) (<[a := v]> (prev m)).

Definition P_InitThinkers (m : links) : links := set_prev thinkercap thinkercap (set_next thinkercap thinkercap m).

Definition P_AddThinker (thinker : Z) (m : links) : outcome links :=
  let* last := get_prev thinkercap m in
  let m := set_next last thinker m in
  let m := set_next thinker thinkercap m in
  let* last := get_prev thinkercap m in
  let m := set_prev thinker last m in
  Ret (set_prev thinkercap thinker m).

(** The two lines of [P_RunThinkers] that take out [currentthinker]. *)
Definition unlink (current : Z) (m : links) : outcome links :=
  let* n := get_next current m in
  let* p := get_prev current m in
  let m := set_prev n p m in
  let* p := get_prev current m in
  let* n := get_next current m in
  Ret (set_next p n m).

(** The objects of the list that starts behind [a]. *)
Fixpoint walk (fuel : nat) (a : Z) (m : links) : outcome (list Z) :=
  match fuel with
  | O => NoFuel
  | S fuel =>
      let* b := get_next a m in
      if b =? thinkercap then Ret []
      else let* l := walk fuel b m in Ret (b :: l)
  end.
End ops.
End Links.
Import Links.

Section facts.
Variable cap : Z.

(** [a] is followed by [b]. *)
Definition linked (m : links) (a b : Z) : Prop := next m !! a = Some b /\ prev m !! b = Some a.
(** The links form the circle of the cap and the objects [l]. *)
Definition list_in (m : links) (l : list Z) : Prop := NoDup (cap :: l) /\ cyc (linked m) (cap :: l).

(** Links inside a list do not depend on what leads into it or out of it. *)
Lemma path_kept (m m' : links) L : NoDup L -> path (linked m) L ->
  (forall a, a ∈ L -> last L <> Some a -> next m' !! a = next m !! a) ->
  (forall a, a ∈ L -> head L <> Some a -> prev m' !! a = prev m !! a) -> path (linked m') L.
Proof.
  destruct L as [|x L]; [done|]. cbn [path head]. revert x. induction L as [|y L IH]; intros x Hnd Hp Hn Hv; [done|].
  cbn in Hp |- *. destruct Hp as [[H1 H2] Hp]. apply NoDup_cons in Hnd as [Hx Hnd].
  assert (Hy : y ∉ L) by (by apply NoDup_cons in Hnd as [? _]). split.
  - split.
    + rewrite Hn; [done|left|]. cbn. intros E. apply Hx. by eapply last_Some_elem_of.
    + rewrite Hv; [done|right; left|]. intros [= ->]. apply Hx. left.
  - apply (IH y); [done|done| |].
    + intros a Ha Hl. apply Hn; [by right|]. by destruct L.
    + intros a Ha Hh. apply Hv; [by right|]. intros [= ->]. done.
Qed.

Lemma init_run m : list_in (P_InitThinkers cap m) [].
Proof. split; [apply NoDup_singleton|]. cbn. split; [|done]. split; cbn; by rewrite lookup_insert_eq. Qed.

(** The last element of the circle is the one before the cap. *)
Lemma last_before m l : cyc (linked m) (cap :: l) -> exists y, last (cap :: l) = Some y /\ linked m y cap.
Proof.
  destruct l as [|z l] using rev_ind; intros Hc.
  - exists cap. split; [done|]. cbn in Hc. tauto.
  - exists z. split; [by rewrite app_comm_cons, last_snoc|]. by eapply cyc_last.
Qed.

Lemma add_run m l t : list_in m l -> t ∉ cap :: l -> exists m', P_AddThinker cap t m = Ret m' /\ list_in m' (l ++ [t]).
Proof.
  intros [Hnd Hc] Ht. destruct (last_before m l Hc) as (y & Hy & Hyn & Hyp).
  assert (Hty : t <> y) by (intros ->; by apply Ht, last_Some_elem_of).
  assert (Htc : t <> cap) by (intros ->; apply Ht; left).
  unfold P_AddThinker, get_prev. rewrite Hyp. cbn [of_option obind set_next prev]. rewrite Hyp. cbn [of_option obind].
  eexists. split; [reflexivity|]. set (m' := set_prev _ _ _).
  assert (Hnext : forall a, next m' !! a = if decide (a = t) then Some cap else if decide (a = y) then Some t else next m !! a).
  { intros a. cbn. destruct (decide (a = t)) as [->|?]; [by rewrite lookup_insert_eq|]. rewrite lookup_insert_ne by done.
    destruct (decide (a = y)) as [->|?]; [by rewrite lookup_insert_eq|]. by rewrite lookup_insert_ne. }
  assert (Hprev : forall a, prev m' !! a = if decide (a = cap) then Some t else if decide (a = t) then Some y else prev m !! a).
  { intros a. cbn. destruct (decide (a = cap)) as [->|?]; [by rewrite lookup_insert_eq|]. rewrite lookup_insert_ne by done.
    destruct (decide (a = t)) as [->|?]; [by rewrite lookup_insert_eq|]. by rewrite lookup_insert_ne. }
  split.
  - rewrite app_comm_cons. apply NoDup_app. split_and!; [done| |apply NoDup_singleton]. by intros x Hx ->%list_elem_of_singleton.
  - rewrite app_comm_cons. apply (cyc_rot _ [t] (cap :: l)). cbn [app]. apply cyc_intro; [done| | |].
    + apply (path_kept m); [done| | |].
      * unfold cyc in Hc. by apply (path_app _ (cap :: l) [cap]).
      * intros a Ha Hl. rewrite Hnext. rewrite !decide_False; [done|congruence|]. by intros ->.
      * intros a Ha Hh. rewrite Hprev. rewrite !decide_False; [done|by intros ->|]. cbn in Hh. congruence.
    + intros x [= <-]. split; [rewrite Hnext; by rewrite decide_True|rewrite Hprev; by rewrite decide_True].
    + intros x Hx. assert (x = y) as -> by congruence. split; [rewrite Hnext|rewrite Hprev].
      * by rewrite decide_False, decide_True by congruence.
      * by rewrite decide_False, decide_True by congruence.
Qed.

Lemma unlink_run m pre a post : list_in m (pre ++ a :: post) -> exists m', unlink a m = Ret m' /\ list_in m' (pre ++ post) /\
  next m' !! a = head (post ++ [cap]).
Proof.
  intros [Hnd Hc]. set (K := post ++ cap :: pre).
  assert (HcK : cyc (linked m) (a :: K)).
  { unfold K. rewrite app_comm_cons. apply (cyc_rot _ (cap :: pre) (a :: post)). by rewrite <- app_comm_cons. }
  assert (HndK : NoDup (a :: K)).
  { unfold K. assert (Hp : a :: post ++ cap :: pre ≡ₚ cap :: pre ++ a :: post) by solve_Permutation. by rewrite Hp. }
  apply NoDup_cons in HndK as [HaK HndK].
  assert (Hn : exists n, head K = Some n /\ head (post ++ [cap]) = Some n) by (unfold K; destruct post; cbn; eauto).
  destruct Hn as (n & HnK & Hn'). assert (Hpl : exists p, last K = Some p) by (destruct K using rev_ind; [done|exists x; by rewrite last_snoc]).
  destruct Hpl as (p & HpK).
  assert (Han : linked m a n) by (destruct K as [|k K']; [done|]; injection HnK as ->; by apply cyc_first in HcK).
  assert (Hpa : linked m p a).
  { destruct K as [|k K'] using rev_ind; [done|]. rewrite last_snoc in HpK. injection HpK as ->. by eapply cyc_last. }
  assert (Hna : n <> a) by (intros ->; apply HaK; destruct K; [done|]; injection HnK as ->; left).
  assert (Hpa' : p <> a) by (intros ->; by apply HaK, last_Some_elem_of).
  destruct Han as [Han1 Han2], Hpa as [Hpa1 Hpa2]. unfold unlink, get_next, get_prev. rewrite Han1, Hpa2. cbn [of_option obind set_prev prev next].
  rewrite lookup_insert_ne by done. rewrite Hpa2, Han1. cbn [of_option obind].
  eexists. split; [reflexivity|]. set (m' := set_next _ _ _). split; [|cbn; by rewrite lookup_insert_ne, Hn' by done].
  assert (HpathK : path (linked m') K).
  { apply (path_kept m); [done|by eapply cyc_path| |].
    - intros x Hx Hl. cbn. rewrite lookup_insert_ne; [done|congruence].
    - intros x Hx Hh. cbn. rewrite lookup_insert_ne; [done|congruence]. }
  assert (Hpn : linked m' p n) by (split; cbn; by rewrite lookup_insert_eq).
  assert (HcK' : cyc (linked m') K).
  { destruct K as [|k K']; [done|]. injection HnK as ->. cbn. apply chain_snoc; [done|]. intros x Hx. assert (x = p) as -> by congruence. done. }
  split.
  - assert (Hp : cap :: pre ++ post ≡ₚ K) by (unfold K; solve_Permutation). by rewrite Hp.
  - rewrite app_comm_cons. by apply (cyc_rot _ post (cap :: pre)).
Qed.

Lemma walk_run m l : forall a rest, NoDup (cap :: l) -> cap ∉ rest -> chain (linked m) a (rest ++ [cap]) ->
  forall fuel, (length rest < fuel)%nat -> walk cap fuel a m = Ret rest.
Proof.
  intros a rest _. revert a. induction rest as [|b rest IH]; intros a Hn Hc fuel Hf; (destruct fuel as [|fuel]; [cbn in Hf; lia|]); cbn [walk].
  - destruct Hc as [[E _] _]. unfold get_next. rewrite E. cbn [of_option obind]. by rewrite Z.eqb_refl.
  - destruct Hc as [[E _] Hc]. apply not_elem_of_cons in Hn as [Hb Hn]. unfold get_next. rewrite E. cbn [of_option obind].
    rewrite (proj2 (Z.eqb_neq b cap)) by congruence. rewrite (IH b Hn Hc) by (cbn in Hf; lia). done.
Qed.

(** ** The links implement the list of the model *)

(** Where the cursor of the model is. *)
Definition cursor (b : Z) : option Z := if b =? cap then None else Some b.

(** C35: the circular list with links in both directions implements the list
    of the thinkers. P_InitThinkers makes the empty list, P_AddThinker appends,
    the two assignments of P_RunThinkers take out an object, and the links lead
    to the objects in their order; the link of an object that was taken out
    still leads to the one that came next. *)
Theorem thinker_list_refines m g : list_in m (addresses g) ->
  list_in (Links.P_InitThinkers cap m) (addresses (Thinkers.P_InitThinkers g)) /\
  walk cap (S (length (addresses g))) cap m = Ret (addresses g) /\
  (forall t th, t ∉ cap :: addresses g ->
     exists m', Links.P_AddThinker cap t m = Ret m' /\ list_in m' (addresses (Thinkers.P_AddThinker t th g))) /\
  (forall a, a ∈ addresses g -> exists b, get_next a m = Ret b /\ cursor b = next_thinker a g) /\
  (forall a, a ∈ addresses g -> exists m' b, Links.unlink a m = Ret m' /\ list_in m' (addresses (Ticker.unlink a g)) /\
     get_next a m' = Ret b /\ cursor b = next_thinker a g).
Proof.
  intros Hm. pose proof Hm as [Hnd Hc]. apply NoDup_cons in Hnd as Hnd'. destruct Hnd' as [Hcap HndL].
  assert (Hcur : forall post, cap ∉ post -> exists b, head (post ++ [cap]) = Some b /\ cursor b = head post).
  { intros [|b post] Hn; cbn; [exists cap; unfold cursor; by rewrite Z.eqb_refl|]. exists b. split; [done|]. unfold cursor.
    apply not_elem_of_cons in Hn as [Hb _]. by rewrite (proj2 (Z.eqb_neq b cap)) by congruence. }
  split_and!.
  - apply init_run.
  - apply (walk_run m (addresses g)); [done|done|exact Hc|lia].
  - intros t th Ht. destruct (add_run m (addresses g) t Hm Ht) as (m' & E & Hm'). exists m'. split; [done|].
    unfold addresses, Thinkers.P_AddThinker in *. cbn. by rewrite fmap_app.
  - intros a Ha. destruct (list_elem_of_split _ _ Ha) as (pre & post & Ea). rewrite Ea in Hc, Hcap.
    destruct (Hcur post) as (b & Hb & Hcb); [set_solver|]. exists b. rewrite (next_split a g pre post) by done. split; [|done].
    unfold cyc in Hc. rewrite <- app_assoc in Hc. cbn in Hc. apply chain_app in Hc as [_ Hc]. unfold get_next.
    destruct post as [|c post]; cbn in Hb, Hc; injection Hb as <-; destruct Hc as [[-> _] _]; done.
  - intros a Ha. destruct (list_elem_of_split _ _ Ha) as (pre & post & Ea). rewrite Ea in Hm, Hcap.
    destruct (unlink_run m pre a post Hm) as (m' & E & Hm' & Hn). destruct (Hcur post) as (b & Hb & Hcb); [set_solver|].
    exists m', b. rewrite (next_split a g pre post), (addresses_unlink a g pre post) by done. split_and!; try done.
    unfold get_next. by rewrite Hn, Hb.
Qed.
End facts.

(** ** Witness: three thinkers behind the cap at 9 *)
Section witness.
Definition three : links :=
  mk (<[9 := 1]> (<[1 := 2]> (<[2 := 3]> (<[3 := 9]> ∅)))) (<[1 := 9]> (<[2 := 1]> (<[3 := 2]> (<[9 := 3]> ∅)))).
Definition three_game : game := gm busy.
Lemma thinker_list_refines_witness : exists m', Links.unlink 2 three = Ret m' /\ list_in 9 m' [1; 3] /\ get_next 2 m' = Ret 3.
Proof.
  destruct (thinker_list_refines 9 three three_game) as (_ & _ & _ & _ & Hu).
  - split; [by_decision|]. vm_compute. tauto.
  - destruct (Hu 2) as (m' & b & E & Hl & Hb & Hcur); [right; left|]. exists m'. split; [exact E|]. split; [exact Hl|].
    rewrite Hb. f_equal. unfold cursor in Hcur. destruct (b =? 9); [discriminate|]. by injection Hcur as ->.
Defined.
End witness.
