(* ===== verification/MoverSafety.v ===== *)
(** * The turns of the movers, wherever they are

    Nothing is said here about heights, speeds, types and directions: whatever
    they are, the turn of a mover that owns its sector goes through, and the
    mover owns its sector afterwards or is marked for removal and its sector is
    free. This is what the safety of a level rests on. *)
From S2P Require Import Prelude MFixed MRandom GameTypes Thinkers SectorSearch MovePlane Frame Plats PlatTheorems Doors DoorTheorems.
From S2P Require Import Ceilings CeilingTheorems Floors FloorTheorems Lights LightTheorems Ticker TickerTheorems.
#[local] Open Scope doom_scope.

Section moves.
Context {A : Arch} {im : Image} {C : Crush} {laws : CrushLaws}.
Implicit Types (w : world).

Definition plane_changed (sec sec' : Sector.doomsector_t) : Prop := exists ceiling h, sec' = set_plane ceiling h sec.

Lemma T_MovePlane_moved s sec speed dest crush foc d w : sectors (gm w) !! s = Some sec ->
  exists res w' ceiling h, T_MovePlane (Z.of_nat s) speed dest crush foc d w = Ret (res, w') /\ moved s ceiling h w w'.
Proof.
  intros E. unfold T_MovePlane. rewrite (get_sector_at s sec) by done. cbn [obind].
  assert (Hstay : exists res w' ceiling h, Ret (ok, w) = Ret (res, w') /\ moved s ceiling h w w')
    by (eexists _, _, false, _; split; [reflexivity|by apply moved_stay]).
  assert (Hl : forall k dst, exists res w' ceiling h, move_last (Z.of_nat s) crush k (plane k sec) dst w = Ret (res, w') /\ moved s ceiling h w w').
  { intros k dst. destruct (move_last_run s sec crush k dst w E) as (h' & w' & -> & Hm & _). by eexists _, _, _, _. }
  assert (Hc : forall k h, exists res w' ceiling h', move_crush (Z.of_nat s) crush k (plane k sec) h w = Ret (res, w') /\ moved s ceiling h' w w').
  { intros k h. destruct (move_crush_run s sec crush k h w E) as (res & h' & w' & -> & Hm & _). by eexists _, _, _, _. }
  assert (Hs : forall k h, exists res w' ceiling h', move_step (Z.of_nat s) crush k (plane k sec) h w = Ret (res, w') /\ moved s ceiling h' w w').
  { intros k h. destruct (move_step_run s sec crush k h w E) as (res & h' & w' & -> & Hm & _). by eexists _, _, _, _. }
  destruct (foc =? 0); [|destruct (foc =? 1); [|done]]; (destruct (d =? -1); [|destruct (d =? 1); [|done]]); (case_match; [eapply Hl|]).
  - apply (Hs false).
  - apply (Hc false).
  - apply (Hc true).
  - destruct (move_to_run s sec crush true (i32 (Sector.ceilingheight sec + speed)) w E) as (b & w' & -> & Hm). cbn [obind]. by eexists _, _, _, _.
Qed.
End moves.

Section turns.
Context {A : Arch} {im : Image} {il : ImageLaws} {C : Crush} {laws : CrushLaws} {H : Heap} {msgs : Messages} {act : Actors}.
Implicit Types (w : world) (self : Z) (s : nat) (th : thing).

(** In the middle of the turn of [th0] in [sec0], which began in [w0]. *)
Record mid self s th0 (sec0 : Sector.doomsector_t) w0 th (sec : Sector.doomsector_t) w : Prop := {
  md_frame : frame self s w0 w;
  md_at : thing_at self (gm w) = Some th;
  md_sectors : sectors (gm w) = <[s := sec]> (sectors (gm w0));
  md_sector : mover_sector th = mover_sector th0;
  md_action : thing_action th = thing_action th0;
  md_function : thing_function th = thing_function th0;
  md_data : Sector.specialdata sec = Sector.specialdata sec0;
  md_plats : activeplats (gm w) = activeplats (gm w0);
  md_ceilings : activeceilings (gm w) = activeceilings (gm w0)
}.
Definition stepped self s th0 sec0 w0 (m : outcome world) : Prop :=
  exists w' th' sec', m = Ret w' /\ plane_step (V := any_course) self s th0 sec0 th' sec' w0 w'.

Section mid.
Context (self : Z) (s : nat) (th0 : thing) (sec0 : Sector.doomsector_t) (w0 : world).
Hypothesis Hmv : is_mover th0 = true.
Hypothesis Hs0 : sectors (gm w0) !! s = Some sec0.
Abbreviation mid := (mid self s th0 sec0 w0).

Lemma mid_start : thing_at self (gm w0) = Some th0 -> mid th0 sec0 w0.
Proof. intros Hat. split; try done. by rewrite list_insert_id. Qed.

Lemma mid_here th sec w : mid th sec w -> sectors (gm w) !! s = Some sec.
Proof. intros M. rewrite (md_sectors _ _ _ _ _ _ _ _ M). by rewrite list_lookup_insert_eq by (by eapply lookup_lt_Some). Qed.

Lemma mid_mover th sec w : mid th sec w -> is_mover th = true.
Proof. intros M. pose proof (md_action _ _ _ _ _ _ _ _ M) as E. by destruct th, th0. Qed.

Lemma mid_done th sec w : mid th sec w -> stepped self s th0 sec0 w0 (Ret w).
Proof.
  intros []. exists w, th, sec. split; [done|]. split; try done. left. split_and!; try done. by rewrite md_plats0.
Qed.

Lemma mid_game th sec w w' : gm w' = gm w -> mid th sec w -> mid th sec w'.
Proof. intros E []. split; rewrite ?E; try done. by eapply frame_game. Qed.
Lemma mid_sound th sec w o snd : mid th sec w -> mid th sec (S_StartSound o snd w).
Proof. by apply mid_game. Qed.

Lemma mid_put th sec w th' : mover_sector th' = mover_sector th0 -> thing_action th' = thing_action th0 -> thing_function th' = thing_function th0 ->
  mid th sec w -> mid th' sec (w <| gm ::= put_thing self th' |>).
Proof.
  intros E1 E2 E3 []. split; try done.
  - etransitivity; [done|]. apply frame_put. by destruct th', th0.
  - change (thing_at self (put_thing self th' (gm w)) = Some th'). rewrite thing_at_put, Z.eqb_refl. by rewrite md_at0.
Qed.

Lemma mid_move th sec w speed dest crush foc d : mid th sec w ->
  exists res w' sec', T_MovePlane (Z.of_nat s) speed dest crush foc d w = Ret (res, w') /\ mid th sec' w'.
Proof.
  intros M. destruct (T_MovePlane_moved s sec speed dest crush foc d w (mid_here _ _ _ M)) as (res & w' & ceiling & h & E & Hm).
  exists res, w', (set_plane ceiling h sec). split; [done|]. pose proof (mid_mover _ _ _ M) as Hm'. destruct M. split; try done.
  - etransitivity; [done|by eapply T_MovePlane_frame].
  - by apply (mv_movers _ _ _ _ _ Hm).
  - rewrite (mv_sectors _ _ _ _ _ Hm), md_sectors0. apply list_eq. intros k. destruct (decide (s = k)) as [<-|Hne].
    + rewrite list_lookup_alter_eq, !list_lookup_insert_eq by (by eapply lookup_lt_Some). done.
    + by rewrite list_lookup_alter_ne, !list_lookup_insert_ne.
  - rewrite <- md_data0. by destruct ceiling.
  - by rewrite (mv_plats _ _ _ _ _ Hm).
  - by rewrite (mv_ceilings _ _ _ _ _ Hm).
Qed.

(** The mover is gone, and its sector free. *)
Lemma mid_gone th sec w m w' th' : mid th sec w -> m = Ret w' -> frame self s w w' -> thing_at self (gm w') = Some th' ->
  mover_sector th' = mover_sector th0 -> thing_action th' = thing_action th0 -> thing_function th' = removed ->
  (exists sec', sectors (gm w') = <[s := sec']> (sectors (gm w)) /\ Sector.specialdata sec' = 0) ->
  self ∉ activeplats (gm w') -> self ∉ activeceilings (gm w') -> stepped self s th0 sec0 w0 m.
Proof.
  intros M -> Fr Ht E1 E2 E3 (sec' & Es & Esd) Hp Hc. exists w', th', sec'. split; [done|]. split; try done.
  - etransitivity; [apply (md_frame _ _ _ _ _ _ _ _ M)|done].
  - rewrite Es, (md_sectors _ _ _ _ _ _ _ _ M). by rewrite list_insert_insert_eq.
  - right. by split_and!.
Qed.
End mid.

(** A turn that is more than [w0], in a level that is well formed. *)
Section turn.
Context (self : Z) (s : nat) (sec0 : Sector.doomsector_t) (w0 : world) (Hi : level_wf w0) (Hnz : self <> 0).
Hypothesis Hs0 : sectors (gm w0) !! s = Some sec0.

(** A mover that has no slot stays without one. *)
Lemma no_slots th w : thing_at self (gm w0) = Some th -> frame self s w0 w ->
  (thing_action th <> GameTypes.T_PlatRaise -> self ∉ activeplats (gm w)) /\
  (thing_action th <> GameTypes.T_MoveCeiling -> self ∉ activeceilings (gm w)).
Proof.
  intros Hat Fr. split; intros Hne.
  - eapply (no_slot _ th self s); [exact Fr|apply (fr_plats _ _ _ _ Fr)|apply (li_activeplats _ Hi)|done..].
  - eapply (no_slot _ th self s); [exact Fr|apply (fr_ceilings _ _ _ _ Fr)|apply (li_activeceilings _ Hi)|done..].
Qed.

Lemma plat_stepped p : thing_at self (gm w0) = Some (TPlat p) -> alive (TPlat p) -> Plat.sector p = Z.of_nat s ->
  stepped self s (TPlat p) sec0 w0 (T_PlatRaise self w0).
Proof.
  intros Hat Hal Hs. pose proof (mid_start self s (TPlat p) sec0 w0 Hs0 Hat) as M0.
  assert (Hdone : forall p' sec w snd, mid self s (TPlat p) sec0 w0 (TPlat p) sec w ->
    Plat.sector p' = Plat.sector p -> Plat.thinker p' = Plat.thinker p -> mid self s (TPlat p) sec0 w0 (TPlat p') sec (plat_sound p' snd (put_plat self p' w))).
  { intros p' sec w snd M E1 E2. apply mid_sound. eapply mid_put; try done; [by cbn; rewrite E1|by unfold thing_function, thing_thinker; rewrite E2]. }
  unfold T_PlatRaise. rewrite (get_plat_at self p) by done. cbn [obind].
  destruct (Plat.status p =? up); [|destruct (Plat.status p =? down); [|destruct (Plat.status p =? waiting)]].
  - unfold plat_up. rewrite (get_plat_at self p) by done. cbn [obind]. rewrite Hs.
    destruct (mid_move self s (TPlat p) sec0 w0 eq_refl Hs0 _ _ _ (Plat.speed p) (Plat.high p) (Plat.crush p) 0 1 M0) as (res & w1 & sec1 & -> & M1).
    cbn [obind]. rewrite (get_plat_at self p) by apply (md_at _ _ _ _ _ _ _ _ M1). cbn [obind]. set (w2 := if _ && _ then _ else w1).
    assert (M2 : mid self s (TPlat p) sec0 w0 (TPlat p) sec1 w2) by (unfold w2; destruct (_ && _); [by apply mid_sound|done]). clearbody w2.
    destruct res; [by eapply mid_done|destruct (truth _); [by eapply mid_done|]|].
    + by eapply mid_done, mid_sound, mid_put.
    + set (p' := p <| Plat.count := _ |> <| Plat.status := _ |>). assert (M3 := Hdone p' sec1 w2 sfx_pstop M2 eq_refl eq_refl).
      change (plat_sound p sfx_pstop (put_plat self p' w2)) with (plat_sound p' sfx_pstop (put_plat self p' w2)).
      set (w3 := plat_sound p' _ _) in *. clearbody w3. destruct (_ || _); [|by eapply mid_done].
      assert (Hap : activeplats (gm w3) = activeplats (gm w0)) by apply M3.
      destruct (remove_plat_run self s p' sec1 w3) as (w4 & E4 & [P1 P2 P3] & Es & Hn).
      * split; [apply (md_at _ _ _ _ _ _ _ _ M3)|done|by apply (mid_here self s _ _ _ Hs0 _ _ _ M3)].
      * rewrite Hap. by eapply (li_plats _ Hi).
      * done.
      * rewrite Hap. apply (li_activeplats _ Hi).
      * assert (Fr : frame self s w3 w4) by (eapply (framed_remove_plat self s p'); [apply (md_at _ _ _ _ _ _ _ _ M3)|done|done]).
        eapply (mid_gone self s _ _ _ _ _ _ _ w4); try done; [by eexists|].
        by apply (no_slots (TPlat p) w4 Hat (transitivity (md_frame _ _ _ _ _ _ _ _ M3) Fr)).
  - unfold plat_down. rewrite (get_plat_at self p) by done. cbn [obind]. rewrite Hs.
    destruct (mid_move self s (TPlat p) sec0 w0 eq_refl Hs0 _ _ _ (Plat.speed p) (Plat.low p) 0 0 (-1) M0) as (res & w1 & sec1 & -> & M1).
    cbn [obind]. rewrite (get_plat_at self p) by apply (md_at _ _ _ _ _ _ _ _ M1). cbn [obind].
    destruct res; [by eapply mid_done..|]. by eapply mid_done, mid_sound, mid_put.
  - unfold plat_wait. rewrite (get_plat_at self p) by done. cbn [obind]. set (p1 := p <| Plat.count ::= _ |>). destruct (truth _).
    + by eapply mid_done, mid_put.
    + change (Plat.sector p1) with (Plat.sector p). rewrite Hs, (get_sector_at s sec0) by done. cbn [obind]. by eapply mid_done, mid_sound, mid_put.
  - by eapply mid_done.
Qed.

Lemma remove_door_stepped d sec w k : thing_at self (gm w0) = Some (TDoor d) -> VlDoor.sector d = Z.of_nat s ->
  mid self s (TDoor d) sec0 w0 (TDoor d) sec w -> (forall w', gm (k w') = gm w') ->
  stepped self s (TDoor d) sec0 w0 (let* w := remove_door self d w in Ret (k w)).
Proof.
  intros Hat Hs M Hk. pose proof (md_at _ _ _ _ _ _ _ _ M) as Hat1.
  destruct (remove_door_run self s d sec w) as (w2 & E & [P1 P2 P3] & Es); [split; [done|done|by apply (mid_here self s _ _ _ Hs0 _ _ _ M)]|].
  assert (Fr : frame self s w (k w2)).
  { apply (frame_game self s w w2); [done|]. by apply (framed_remove_door self s d w Hat1 Hs). }
  destruct (no_slots (TDoor d) (k w2) Hat) as [N1 N2]; [etransitivity; [apply (md_frame _ _ _ _ _ _ _ _ M)|done]|].
  rewrite E. cbn [obind]. eapply (mid_gone self s _ _ _ _ _ _ _ (k w2) (TDoor _)).
  - exact M.
  - reflexivity.
  - exact Fr.
  - rewrite Hk. exact P1.
  - reflexivity.
  - reflexivity.
  - reflexivity.
  - rewrite Hk. by eexists.
  - by apply N1.
  - by apply N2.
Qed.

Lemma door_stepped d : thing_at self (gm w0) = Some (TDoor d) -> VlDoor.sector d = Z.of_nat s ->
  stepped self s (TDoor d) sec0 w0 (T_VerticalDoor self w0).
Proof.
  intros Hat Hs. pose proof (mid_start self s (TDoor d) sec0 w0 Hs0 Hat) as M0.
  assert (Hput : forall d' sec w, mid self s (TDoor d) sec0 w0 (TDoor d) sec w -> VlDoor.sector d' = VlDoor.sector d ->
    VlDoor.thinker d' = VlDoor.thinker d -> mid self s (TDoor d) sec0 w0 (TDoor d') sec (put_door self d' w)).
  { intros d' sec w M E1 E2. eapply mid_put; try done; [by cbn; rewrite E1|by unfold thing_function, thing_thinker; rewrite E2]. }
  assert (Hrem : forall sec w, mid self s (TDoor d) sec0 w0 (TDoor d) sec w -> stepped self s (TDoor d) sec0 w0 (remove_door self d w)).
  { intros sec w M. pose proof (remove_door_stepped d sec w (fun w => w) Hat Hs M (fun w => eq_refl)) as Hr.
    destruct (remove_door self d w); done. }
  unfold T_VerticalDoor. rewrite (get_door_at self d) by done. cbn [obind].
  destruct (VlDoor.direction d =? 0); [|destruct (VlDoor.direction d =? 2); [|destruct (VlDoor.direction d =? -1); [|destruct (VlDoor.direction d =? 1)]]].
  - unfold door_wait. rewrite (get_door_at self d) by done. cbn [obind].
    split_ifs; eapply mid_done; try apply mid_sound; by eapply Hput.
  - unfold door_first_wait. rewrite (get_door_at self d) by done. cbn [obind].
    split_ifs; eapply mid_done; try apply mid_sound; by eapply Hput.
  - unfold door_down. rewrite (get_door_at self d) by done. cbn [obind]. rewrite Hs, (get_sector_at s sec0) by done. cbn [obind].
    destruct (mid_move self s (TDoor d) sec0 w0 eq_refl Hs0 _ _ _ (VlDoor.speed d) (Sector.floorheight sec0) 0 1 (VlDoor.direction d) M0) as (res & w1 & sec1 & -> & M1).
    cbn [obind]. rewrite (get_door_at self d) by apply (md_at _ _ _ _ _ _ _ _ M1). cbn [obind].
    destruct res; split_ifs; try (by eapply mid_done); try (by eapply Hrem); try (eapply mid_done; try apply mid_sound; by eapply Hput).
    by eapply (remove_door_stepped d sec1 w1 (door_sound d sfx_bdcls)).
  - unfold door_up. rewrite (get_door_at self d) by done. cbn [obind]. rewrite Hs.
    destruct (mid_move self s (TDoor d) sec0 w0 eq_refl Hs0 _ _ _ (VlDoor.speed d) (VlDoor.topheight d) 0 1 (VlDoor.direction d) M0) as (res & w1 & sec1 & -> & M1).
    cbn [obind]. rewrite (get_door_at self d) by apply (md_at _ _ _ _ _ _ _ _ M1). cbn [obind].
    destruct res; split_ifs; try (by eapply mid_done); try (by eapply Hrem); (eapply mid_done; try apply mid_sound; by eapply Hput).
  - by eapply mid_done.
Qed.

Lemma remove_ceiling_stepped c c' sec w : thing_at self (gm w0) = Some (TCeiling c) -> Ceiling.sector c' = Z.of_nat s ->
  mid self s (TCeiling c) sec0 w0 (TCeiling c') sec w -> stepped self s (TCeiling c) sec0 w0 (P_RemoveActiveCeiling self w).
Proof.
  intros Hat Hs M. pose proof (md_at _ _ _ _ _ _ _ _ M) as Hat1.
  destruct (remove_ceiling_run self s c' sec w) as [E|(w2 & E & P1 & Es & Hn & Fr)]; [done|done|by apply (mid_here self s _ _ _ Hs0 _ _ _ M)|done| | |].
  - rewrite (md_ceilings _ _ _ _ _ _ _ _ M). apply (li_activeceilings _ Hi).
  - rewrite E. by eapply mid_done.
  - destruct (no_slots (TCeiling c) w2 Hat) as [N1 _]; [etransitivity; [apply (md_frame _ _ _ _ _ _ _ _ M)|done]|].
    eapply (mid_gone self s _ _ _ _ _ _ _ w2); try done; [apply (md_sector _ _ _ _ _ _ _ _ M)|by eexists|by apply N1].
Qed.

Lemma ceiling_stepped c : thing_at self (gm w0) = Some (TCeiling c) -> Ceiling.sector c = Z.of_nat s ->
  stepped self s (TCeiling c) sec0 w0 (T_MoveCeiling self w0).
Proof.
  intros Hat Hs. pose proof (mid_start self s (TCeiling c) sec0 w0 Hs0 Hat) as M0.
  assert (Hput : forall c' sec w, mid self s (TCeiling c) sec0 w0 (TCeiling c) sec w -> Ceiling.sector c' = Ceiling.sector c ->
    Ceiling.thinker c' = Ceiling.thinker c -> mid self s (TCeiling c) sec0 w0 (TCeiling c') sec (put_ceiling self c' w)).
  { intros c' sec w M E1 E2. eapply mid_put; try done; [by cbn; rewrite E1|by unfold thing_function, thing_thinker; rewrite E2]. }
  assert (Hnoise : forall sec w, mid self s (TCeiling c) sec0 w0 (TCeiling c) sec w -> mid self s (TCeiling c) sec0 w0 (TCeiling c) sec (ceiling_noise c w)).
  { intros sec w M. unfold ceiling_noise. destruct (_ && _); [by apply mid_sound|done]. }
  unfold T_MoveCeiling. rewrite (get_ceiling_at self c) by done. cbn [obind].
  destruct (Ceiling.direction c =? 0); [by eapply mid_done|]. destruct (Ceiling.direction c =? 1); [|destruct (Ceiling.direction c =? -1); [|by eapply mid_done]].
  - unfold ceiling_up. rewrite (get_ceiling_at self c) by done. cbn [obind]. rewrite Hs.
    destruct (mid_move self s (TCeiling c) sec0 w0 eq_refl Hs0 _ _ _ (Ceiling.speed c) (Ceiling.topheight c) 0 1 (Ceiling.direction c) M0) as (res & w1 & sec1 & -> & M1).
    cbn [obind]. rewrite (get_ceiling_at self c) by apply (md_at _ _ _ _ _ _ _ _ M1). cbn [obind]. apply Hnoise in M1.
    set (w2 := ceiling_noise c w1) in *. clearbody w2.
    destruct res; split_ifs; try (by eapply mid_done); try (by eapply (remove_ceiling_stepped c c)); eapply mid_done, Hput; try done; by apply mid_sound.
  - unfold ceiling_down. rewrite (get_ceiling_at self c) by done. cbn [obind]. rewrite Hs.
    destruct (mid_move self s (TCeiling c) sec0 w0 eq_refl Hs0 _ _ _ (Ceiling.speed c) (Ceiling.bottomheight c) (Ceiling.crush c) 1 (Ceiling.direction c) M0) as (res & w1 & sec1 & -> & M1).
    cbn [obind]. rewrite (get_ceiling_at self c) by apply (md_at _ _ _ _ _ _ _ _ M1). cbn [obind]. apply Hnoise in M1.
    set (w2 := ceiling_noise c w1) in *. clearbody w2.
    destruct res; split_ifs; try (by eapply mid_done); try (by eapply (remove_ceiling_stepped c c)); eapply mid_done, Hput; try done; by apply mid_sound.
Qed.

Lemma floor_stepped f : thing_at self (gm w0) = Some (TFloor f) -> FloorMove.sector f = Z.of_nat s ->
  stepped self s (TFloor f) sec0 w0 (T_MoveFloor self w0).
Proof.
  intros Hat Hs. pose proof (mid_start self s (TFloor f) sec0 w0 Hs0 Hat) as M0.
  unfold T_MoveFloor. rewrite (get_floor_at self f) by done. cbn [obind]. rewrite Hs.
  destruct (mid_move self s (TFloor f) sec0 w0 eq_refl Hs0 _ _ _ (FloorMove.speed f) (FloorMove.floordestheight f) (FloorMove.crush f) 0 (FloorMove.direction f) M0) as (res & w1 & sec1 & -> & M1).
  cbn [obind]. rewrite (get_floor_at self f) by apply (md_at _ _ _ _ _ _ _ _ M1). cbn [obind]. set (w2 := if negb _ then _ else w1).
  assert (M2 : mid self s (TFloor f) sec0 w0 (TFloor f) sec1 w2) by (unfold w2; destruct (negb _); [by apply mid_sound|done]). clearbody w2.
  destruct res; [by eapply mid_done..|]. pose proof (mid_here self s _ _ _ Hs0 _ _ _ M2) as Hs2. rewrite Hs, (specialdata_run s sec1) by done. cbn [obind].
  set (sec2 := sec1 <| Sector.specialdata := 0 |>). set (w3 := set_sector (Z.of_nat s) sec2 w2).
  assert (F3 : frame self s w2 w3) by (by eapply frame_set_sector).
  assert (H3 : exists w4 sec4, (if (FloorMove.direction f =? 1) && (FloorMove.type f =? donutRaise) || (FloorMove.direction f =? -1) && (FloorMove.type f =? lowerAndChange)
     then upd_sector (Z.of_nat s) (change_floor f) w3 else Ret w3) = Ret w4 /\ frame self s w2 w4 /\ thinkers (gm w4) = thinkers (gm w2) /\
     sectors (gm w4) = <[s := sec4]> (sectors (gm w2)) /\ Sector.specialdata sec4 = 0).
  { assert (Hs3 : sectors (gm w3) !! s = Some sec2) by (by eapply set_sector_at). destruct (_ || _).
    - rewrite (upd_sector_run s sec2) by done. eexists _, _. split; [reflexivity|]. split_and!.
      + etransitivity; [done|]. by eapply frame_set_sector.
      + done.
      + rewrite sectors_set. unfold w3. rewrite sectors_set. apply list_insert_insert_eq.
      + done.
    - exists w3, sec2. split_and!; try done. apply sectors_set. }
  destruct H3 as (w4 & sec4 & -> & F4 & Et & Es & Esd). cbn [obind].
  assert (Hat4 : thing_at self (gm w4) = Some (TFloor f)) by (unfold thing_at; rewrite Et; apply (md_at _ _ _ _ _ _ _ _ M2)).
  rewrite (remove_run self (TFloor f)) by done. cbn [obind]. set (w5 := w4 <| gm ::= _ |>).
  assert (F5 : frame self s w2 w5) by (etransitivity; [done|]; by apply frame_put).
  destruct (no_slots (TFloor f) w5 Hat) as [N1 N2]; [etransitivity; [apply (md_frame _ _ _ _ _ _ _ _ M2)|done]|].
  eapply (mid_gone self s _ _ _ _ _ _ _ (floor_sound f sfx_pstop w5)
    (with_thinker (TFloor f) ((thing_thinker (TFloor f)) <| Thinker.function := removed |>))).
  - exact M2.
  - reflexivity.
  - by apply (frame_game _ _ _ w5).
  - change (gm (floor_sound f sfx_pstop w5)) with (gm w5). unfold w5. cbn [gm update]. by rewrite thing_at_put, Z.eqb_refl, Hat4.
  - reflexivity.
  - reflexivity.
  - reflexivity.
  - by exists sec4.
  - by apply N1.
  - by apply N2.
Qed.
End turn.

#[export] Instance free_movers : Movers any_course.
Proof.
  intros self s th sec w Hi Hnz Hat Hal Hms Hsec _ Hf. rewrite Hf, call_fn.
  destruct th; try done; injection Hms as Hs; cbn [thing_action].
  - by apply ceiling_stepped.
  - by apply door_stepped.
  - by apply floor_stepped.
  - by apply plat_stepped.
Qed.
End turns.
