(* ===== verification/LevelSteps.v ===== *)
(** * Steps of a level

    Movers are started, stopped and started again by the lines of a level.
    Each of these operations leaves a valid level. *)
From S2P Require Import Prelude MFixed MRandom GameTypes Thinkers SectorSearch MovePlane Frame Plats PlatTheorems Doors DoorTheorems.
From S2P Require Import Ceilings CeilingTheorems Floors FloorTheorems Lights LightTheorems Ticker TickerTheorems.
#[local] Open Scope doom_scope.

Section facts.
Context {A : Arch} {im : Image} {il : ImageLaws} {V : thing -> Sector.doomsector_t -> Prop} {course : Course V}.
Implicit Types (w : world) (self : Z) (s : nat) (th : thing).

(** ** A new mover *)

(** The new mover has taken a slot of the list, or not. *)
Definition slot_taken self (l l' : list Z) : Prop := l' = l \/ first_free l self = Some l'.

Lemma first_free_in l self l' x : first_free l self = Some l' -> x ∈ l' -> x ∈ l \/ x = self.
Proof.
  revert l'. induction l as [|y l IH]; intros l' E Hx; cbn in E; [done|]. destruct (y =? 0) eqn:Ey; breflect.
  - injection E as <-. apply elem_of_cons in Hx as [->|Hx]; [by right|left; by right].
  - destruct (first_free l self) as [l2|]; [|done]. injection E as <-. apply elem_of_cons in Hx as [->|Hx]; [left; left|].
    destruct (IH l2 eq_refl Hx) as [?|?]; [left; by right|by right].
Qed.
Lemma first_free_nodup l self l' : first_free l self = Some l' -> self ∉ l -> self <> 0 ->
  NoDup (filter (fun x => x <> 0) l) -> NoDup (filter (fun x => x <> 0) l').
Proof.
  revert l'. induction l as [|y l IH]; intros l' E Hn Hz Hnd; cbn in E; [done|]. apply not_elem_of_cons in Hn as [Hy Hn].
  destruct (y =? 0) eqn:Ey; breflect.
  - injection E as <-. subst y. rewrite filter_cons_False in Hnd by lia. rewrite filter_cons_True by done.
    apply NoDup_cons. split; [|done]. by intros [_ ?]%list_elem_of_filter.
  - destruct (first_free l self) as [l2|] eqn:E2; [|done]. injection E as <-. rewrite filter_cons_True in Hnd |- * by done.
    apply NoDup_cons in Hnd as [Hni Hnd]. apply NoDup_cons. split; [|by apply IH].
    intros [_ Hin]%list_elem_of_filter. apply (first_free_in l self l2) in Hin as [Hin|Hin]; [|done|done].
    apply Hni. by apply list_elem_of_filter.
Qed.

Lemma slots_new act self s th sec w w' l l' : starts self s th sec w w' -> slot_taken self l l' -> alive th ->
  (l' <> l -> thing_action th = act) -> slots_ok act l (gm w) -> slots_ok act l' (gm w').
Proof.
  intros Hst Hl Hal Hact [Hnd Hs].
  assert (Hold : forall p, p ∈ l -> p <> 0 -> exists t, thing_at p (gm w') = Some t /\ alive t /\ thing_action t = act).
  { intros p Hp Hz. destruct (Hs p Hp Hz) as (t & Ht & Hr). exists t. split; [|done]. rewrite (st_things _ _ _ _ _ _ Hst).
    destruct (p =? self) eqn:E; breflect; [|done]. subst p. by destruct (st_fresh _ _ _ _ _ _ Hst (thing_at_addr _ _ _ Ht)). }
  assert (Hni : self ∉ l).
  { intros Hin. destruct (Hs self Hin (st_nonzero _ _ _ _ _ _ Hst)) as (t & Ht & _).
    by destruct (st_fresh _ _ _ _ _ _ Hst (thing_at_addr _ _ _ Ht)). }
  destruct Hl as [->|Hl]; [by split|]. split; [eapply first_free_nodup; try done; by apply (st_nonzero _ _ _ _ _ _ Hst)|].
  intros p Hp Hz. destruct (first_free_in _ _ _ _ Hl Hp) as [Hp'| ->]; [by apply Hold|].
  exists th. rewrite (st_things _ _ _ _ _ _ Hst), Z.eqb_refl. split_and!; try done. apply Hact. intros ->. done.
Qed.

Lemma start_inv self s th sec w w' : level_on V w -> sectors (gm w) !! s = Some sec -> Sector.specialdata sec = 0 ->
  starts self s th sec w w' -> mover_sector th = Some (Z.of_nat s) -> V th (sec <| Sector.specialdata := self |>) ->
  thing_function th = fn_addr (thing_action th) ->
  slot_taken self (activeplats (gm w)) (activeplats (gm w')) -> slot_taken self (activeceilings (gm w)) (activeceilings (gm w')) ->
  (activeplats (gm w') <> activeplats (gm w) -> thing_action th = GameTypes.T_PlatRaise) ->
  (activeceilings (gm w') <> activeceilings (gm w) -> thing_action th = GameTypes.T_MoveCeiling) ->
  (thing_action th = GameTypes.T_PlatRaise -> self ∈ activeplats (gm w')) -> level_on V w'.
Proof.
  intros Hi Hsec Hsd Hst Hms Hv Hfn Hap Hac Hap' Hac' Hin. set (sec' := sec <| Sector.specialdata := self |>) in *.
  pose proof (st_things _ _ _ _ _ _ Hst) as Hth. pose proof (st_sectors _ _ _ _ _ _ Hst) as Es. fold sec' in Es.
  pose proof (st_nonzero _ _ _ _ _ _ Hst) as Hnz. destruct (li_addrs _ Hi) as [Hnd Hz0].
  assert (Hal : alive th) by (unfold alive; rewrite Hfn; apply fn_live).
  assert (Hm : is_mover th = true) by (by eapply mover_is_mover).
  assert (Hs' : sectors (gm w') !! s = Some sec') by (rewrite Es; by rewrite list_lookup_insert_eq by (by eapply lookup_lt_Some)).
  assert (Hne : forall k, k <> s -> sectors (gm w') !! k = sectors (gm w) !! k) by (intros k Hk; rewrite Es; by rewrite list_lookup_insert_ne).
  assert (Hcase : forall a t, thing_at a (gm w') = Some t -> a = self /\ t = th \/ a <> self /\ thing_at a (gm w) = Some t).
  { intros a t. rewrite Hth. destruct (a =? self) eqn:E; breflect; [intros [= <-]; by left|by right]. }
  assert (Hsub : forall p, p ∈ activeplats (gm w) -> p <> 0 -> p ∈ activeplats (gm w')).
  { intros p Hp Hp0. destruct Hap as [->|Hf]; [done|]. by eapply first_free_keeps. }
  split.
  - unfold addrs_ok. rewrite (st_addrs _ _ _ _ _ _ Hst). split.
    + apply NoDup_app. split_and!; [done| |apply NoDup_singleton]. intros x Hx ->%list_elem_of_singleton.
      by apply (st_fresh _ _ _ _ _ _ Hst).
    + intros [?|?%list_elem_of_singleton]%elem_of_app; [done|congruence].
  - pose proof (level_ok_update (gm w) s sec sec' (thinkers (gm w)) (li_level _ Hi) Hsec eq_refl) as [L1 L2].
    split; rewrite (st_lines _ _ _ _ _ _ Hst), Es; [exact L1|exact L2].
  - intros a m Ha. destruct (Hcase a _ Ha) as [[-> <-]|[_ Hw]]; [done|]. by apply (li_actors _ Hi a m).
  - rewrite Es. apply Forall_insert; [apply Hi|]. exact (proj1 (Forall_lookup _ _) (li_light _ Hi) s sec Hsec).
  - intros a t Ha Hta Hz. destruct (Hcase a _ Ha) as [[-> ->]|[Hna Hw]]; [exists s, sec'; split_and!; try done; by left|].
    destruct (li_movers _ Hi a t Hw Hta Hz) as (k & sk & O1 & O2 & O3 & O4 & O5). exists k, sk. split_and!; try done.
    rewrite Hne; [done|]. intros ->. assert (sk = sec) as -> by congruence. rewrite Hsd in O3. subst a. by apply Hz0, (thing_at_addr _ t).
  - intros a p Ha Hta. destruct (Hcase a _ Ha) as [[-> <-]|[Hna Hw]]; [by apply Hin|].
    apply Hsub; [by eapply (li_plats _ Hi)|by eapply addr_nonzero].
  - intros a t Ha Hta Hl. destruct (Hcase a _ Ha) as [[-> ->]|[Hna Hw]]; [by destruct (light_is_mover _ Hl); congruence|].
    destruct (li_lights _ Hi a t Hw Hta Hl) as (k & sk & lo & hi & O1 & O2 & O3). destruct (decide (k = s)) as [->|Hk].
    + exists s, sec', lo, hi. by split_and!.
    + exists k, sk, lo, hi. split_and!; try done. by rewrite Hne.
  - intros k x Hk Hz. rewrite Es in Hk. apply lookup_one in Hk as [[-> ->]|[Hk Hx]].
    + exists th. change (Sector.specialdata sec') with self. rewrite Hth, Z.eqb_refl. done.
    + destruct (li_owner _ Hi k x Hx Hz) as (t & Ht & Hta & Hts). exists t. split_and!; try done. rewrite Hth.
      destruct (_ =? self) eqn:E; breflect; [|done]. rewrite E in Ht. by destruct (st_fresh _ _ _ _ _ _ Hst (thing_at_addr _ _ _ Ht)).
  - eapply slots_new; try done. apply Hi.
  - eapply slots_new; try done. apply Hi.
Qed.

(** ** Movers that are stopped or started again *)
Lemma removed_nonzero : removed <> 0.
Proof. unfold removed, word_bits. by destruct the_abi. Qed.

Section stasis.
Context {X : Type} (con : X -> thing) (f : X -> option X) (act : action).
Hypothesis con_stops : forall x, stoppable (con x) = true /\ thing_action (con x) = act.
Hypothesis f_keeps : forall x sec, V (con x) sec -> V (con (changed f x)) sec.
Hypothesis f_sector : forall x, mover_sector (con (changed f x)) = mover_sector (con x).
Hypothesis f_function : forall x, thing_function (con (changed f x)) = thing_function (con x) \/
  thing_function (con (changed f x)) = fn_addr act \/ thing_function (con (changed f x)) = 0.

Lemma stasis_inv slots w l : level_on V w -> slots_ok act slots (gm w) ->
  all_slots con slots (gm w) ->
  (forall a p, a ∈ slots -> a <> 0 -> thing_at a (gm w) = Some (con p) -> thing_in a l = Some (con (changed f p))) ->
  (forall a, a ∉ slots \/ a = 0 -> thing_in a l = thing_at a (gm w)) -> fst <$> l = addresses (gm w) ->
  level_on V (w <| gm := (gm w) <| thinkers := l |> |>).
Proof.
  intros Hi [Hnd Hs] Hall H1 H2 H3. pose proof removed_nonzero as Hr0. set (w' := w <| gm := _ |>).
  assert (Hfn0 : forall x, alive (con x) -> alive (con (changed f x))).
  { intros x Ha. unfold alive. destruct (f_function x) as [->|[->| ->]]; [done|apply fn_live|congruence]. }
  (* each object is as before, or a mover of the kind that was changed *)
  assert (Hcase : forall a t, thing_at a (gm w') = Some t -> thing_at a (gm w) = Some t \/
    exists p, thing_at a (gm w) = Some (con p) /\ alive (con p) /\ t = con (changed f p)).
  { intros a t Ht. change (thing_in a l = Some t) in Ht. destruct (decide (a ∈ slots /\ a <> 0)) as [[Ha Hz]|Hn].
    - destruct (Hall a Ha Hz) as [p Hp]. right. exists p. split; [done|]. destruct (Hs a Ha Hz) as (t' & Ht' & Hal & _).
      assert (t' = con p) as -> by congruence. split; [done|]. rewrite (H1 a p Ha Hz Hp) in Ht. congruence.
    - left. rewrite H2 in Ht; [done|]. destruct (decide (a ∈ slots)); [|by left]. destruct (decide (a = 0)); [by right|tauto]. }
  assert (Hback : forall a t, thing_at a (gm w) = Some t -> alive t -> exists t', thing_at a (gm w') = Some t' /\ alive t' /\
    mover_sector t' = mover_sector t /\ thing_action t' = thing_action t).
  { intros a t Ht Hal. change (thing_at a (gm w')) with (thing_in a l). destruct (decide (a ∈ slots /\ a <> 0)) as [[Ha Hz]|Hn].
    - destruct (Hall a Ha Hz) as [p Hp]. assert (t = con p) as -> by congruence. exists (con (changed f p)).
      rewrite (H1 a p Ha Hz Hp). split_and!; [done|by apply Hfn0|apply f_sector|]. by rewrite !(proj2 (con_stops _)).
    - exists t. rewrite H2; [done|]. destruct (decide (a ∈ slots)); [|by left]. destruct (decide (a = 0)); [by right|tauto]. }
  assert (Hsl : forall b k, slots_ok b k (gm w) -> slots_ok b k (gm w')).
  { intros b k [Hn Hk]. split; [done|]. intros p Hp Hz. destruct (Hk p Hp Hz) as (t & Ht & Ha & Hb).
    destruct (Hback p t Ht Ha) as (t' & Ht' & Ha' & _ & Hb'). exists t'. split_and!; try done. congruence. }
  assert (Hnomobj : forall x m, con x <> TMobj m) by (intros x m E; pose proof (proj1 (con_stops x)) as Hc; by rewrite E in Hc).
  split.
  - destruct (li_addrs _ Hi). unfold addrs_ok. change (addresses (gm w')) with (fst <$> l). by rewrite H3.
  - destruct (li_level _ Hi) as [L1 L2]. split; [exact L1|exact L2].
  - intros a m Hm. destruct (Hcase a _ Hm) as [Hw|(x & _ & _ & Ex)]; [by apply (li_actors _ Hi a m)|by destruct (Hnomobj _ _ (eq_sym Ex))].
  - apply (li_light _ Hi).
  - intros a t Ht Ha Hz. destruct (Hcase a _ Ht) as [Hw|(x & Hx & Hxa & ->)]; [exact (li_movers _ Hi a t Hw Ha Hz)|].
    rewrite f_sector in Hz. destruct (li_movers _ Hi a _ Hx Hxa Hz) as (s & sec & O1 & O2 & O3 & O4 & O5). exists s, sec.
    split_and!; [by rewrite f_sector|done|done|by apply f_keeps|]. destruct (con_stops x) as [_ Hac].
    destruct (con_stops (changed f x)) as [Hst Hac']. rewrite Hac' in *. rewrite Hac in O5.
    destruct (f_function x) as [->|[->| ->]]; [|by left|by right]. destruct O5 as [->|[_ ->]]; [by left|by right].
  - intros a p Ht Ha. destruct (Hcase a _ Ht) as [Hw|(x & Hx & Hxa & Ex)]; [exact (li_plats _ Hi a p Hw Ha)|].
    assert (Hk : thing_action (con x) = GameTypes.T_PlatRaise).
    { rewrite (proj2 (con_stops x)), <- (proj2 (con_stops (changed f x))). by rewrite <- Ex. }
    destruct (con x) as [| | | |q| | | |] eqn:Eq; try done. by eapply (li_plats _ Hi).
  - intros a t Ht Ha Hl. destruct (Hcase a _ Ht) as [Hw|(x & _ & _ & ->)]; [exact (li_lights _ Hi a t Hw Ha Hl)|].
    pose proof (proj1 (con_stops (changed f x))). by destruct (con (changed f x)).
  - intros k x Hk Hz. destruct (li_owner _ Hi k x Hk Hz) as (t & Ht & Ha & Hts).
    destruct (Hback _ t Ht Ha) as (t' & Ht' & Ha' & Hs' & _). exists t'. split_and!; try done. congruence.
  - apply Hsl, Hi.
  - apply Hsl, Hi.
Qed.
End stasis.

Lemma plat_slots w : level_on V w -> all_slots TPlat (activeplats (gm w)) (gm w).
Proof. intros Hi a Ha Hz. destruct (li_activeplats _ Hi) as [_ Hs]. destruct (Hs a Ha Hz) as (t & Ht & _ & Hta). destruct t; try done. by eexists. Qed.
Lemma ceiling_slots w : level_on V w -> all_slots TCeiling (activeceilings (gm w)) (gm w).
Proof. intros Hi a Ha Hz. destruct (li_activeceilings _ Hi) as [_ Hs]. destruct (Hs a Ha Hz) as (t & Ht & _ & Hta). destruct t; try done. by eexists. Qed.

(** ** A new light *)
Lemma light_inv self s sec lo hi th w w' : level_on V w -> sectors (gm w) !! s = Some sec -> new_light self s sec th w w' ->
  light_ok s lo hi th -> thing_function th = fn_addr (thing_action th) -> level_on V w'.
Proof.
  intros Hi Hsec [Hat Hoth Es Had [Hnz Hfr] (Hln & Hpl & Hce) _] Hok Hfn. set (sec' := sec <| Sector.special := 0 |>) in *.
  assert (Hl : is_light th = true) by (unfold is_light; by rewrite (lo_view _ _ _ _ Hok)).
  destruct (light_is_mover th Hl) as [Hm Hn]. destruct (li_addrs _ Hi) as [Hnd Hz0].
  assert (Hs' : sectors (gm w') !! s = Some sec') by (rewrite Es; by rewrite list_lookup_insert_eq by (by eapply lookup_lt_Some)).
  assert (Hsecs : forall k x, sectors (gm w') !! k = Some x -> exists y, sectors (gm w) !! k = Some y /\ Sector.specialdata y = Sector.specialdata x).
  { intros k x Hk. rewrite Es in Hk. apply lookup_one in Hk as [[-> ->]|[_ Hk]]; [by exists sec|by exists x]. }
  assert (Hsecs' : forall k y, sectors (gm w) !! k = Some y -> exists x, sectors (gm w') !! k = Some x /\ Sector.specialdata x = Sector.specialdata y /\
    Sector.floorheight x = Sector.floorheight y /\ Sector.ceilingheight x = Sector.ceilingheight y).
  { intros k y Hk. destruct (decide (k = s)) as [->|Hne]; [exists sec'; assert (y = sec) as -> by congruence; done|].
    exists y. split; [|done]. by rewrite Es, list_lookup_insert_ne. }
  assert (Hcase : forall a t, thing_at a (gm w') = Some t -> a = self /\ t = th \/ a <> self /\ thing_at a (gm w) = Some t).
  { intros a t Ht. destruct (decide (a = self)) as [->|Ha]; [left; split; [done|congruence]|right]. by rewrite <- Hoth. }
  assert (Hback : forall a t, thing_at a (gm w) = Some t -> thing_at a (gm w') = Some t).
  { intros a t Ht. rewrite Hoth; [done|]. intros ->. by apply Hfr, (thing_at_addr _ t). }
  assert (Hsl : forall b k, slots_ok b k (gm w) -> slots_ok b k (gm w')).
  { intros b k [Hd Hk]. split; [done|]. intros p Hp Hz. destruct (Hk p Hp Hz) as (t & Ht & Hr). exists t. split; auto. }
  split.
  - unfold addrs_ok. rewrite Had. split.
    + apply NoDup_app. split_and!; [done| |apply NoDup_singleton]. by intros x Hx ->%list_elem_of_singleton.
    + intros [?|?%list_elem_of_singleton]%elem_of_app; [done|congruence].
  - pose proof (level_ok_update (gm w) s sec sec' (thinkers (gm w)) (li_level _ Hi) Hsec eq_refl) as [L1 L2].
    split; rewrite Hln, Es; [exact L1|exact L2].
  - intros a m Ha. destruct (Hcase a _ Ha) as [[-> <-]|[_ Hw]]; [done|]. by apply (li_actors _ Hi a m).
  - rewrite Es. apply Forall_insert; [apply Hi|]. exact (proj1 (Forall_lookup _ _) (li_light _ Hi) s sec Hsec).
  - intros a t Ha Hta Hz. destruct (Hcase a _ Ha) as [[-> ->]|[Hna Hw]]; [congruence|].
    destruct (li_movers _ Hi a t Hw Hta Hz) as (k & sk & O1 & O2 & O3 & O4 & O5). destruct (Hsecs' k sk O2) as (x & X1 & X2 & X3 & X4).
    exists k, x. split_and!; try done; [congruence|by eapply course_same].
  - intros a p Ha Hta. rewrite Hpl. destruct (Hcase a _ Ha) as [[-> <-]|[Hna Hw]]; [done|]. by eapply (li_plats _ Hi).
  - intros a t Ha Hta Hlt. destruct (Hcase a _ Ha) as [[-> ->]|[Hna Hw]]; [by exists s, sec', lo, hi|].
    destruct (li_lights _ Hi a t Hw Hta Hlt) as (k & sk & lo' & hi' & O1 & O2 & O3). destruct (Hsecs' k sk O2) as (x & X1 & _).
    by exists k, x, lo', hi'.
  - intros k x Hk Hz. destruct (Hsecs k x Hk) as (y & Hy & Ey). rewrite <- Ey in Hz |- *.
    destruct (li_owner _ Hi k y Hy Hz) as (t & Ht & Hr). exists t. split; auto.
  - rewrite Hpl. apply Hsl, Hi.
  - rewrite Hce. apply Hsl, Hi.
Qed.
End facts.

(** Stopping and starting again does not leave a course. *)
Class Pausable {im : Image} (V : thing -> Sector.doomsector_t -> Prop) : Prop := {
  pause_plat tag p sec : V (TPlat p) sec -> V (TPlat (changed (stop_plat tag) p)) sec;
  resume_plat tag p sec : V (TPlat p) sec -> V (TPlat (changed (activate_plat tag) p)) sec;
  pause_ceiling tag c sec : V (TCeiling c) sec -> V (TCeiling (changed (stop_ceiling tag) c)) sec;
  resume_ceiling tag c sec : V (TCeiling c) sec -> V (TCeiling (changed (activate_ceiling tag) c)) sec
}.
#[export] Instance free_pausable {im : Image} : Pausable any_course.
Proof. done. Qed.
#[export] Instance plane_pausable {im : Image} : Pausable plane_valid.
Proof.
  split; intros tag x sec; unfold changed, stop_plat, activate_plat, stop_ceiling, activate_ceiling; destruct (_ && _) eqn:Et; auto;
    intros []; apply andb_true_iff in Et as [Et1 Et2]; breflect.
  - unfold in_stasis in *. split; try done; cbn; unfold in_stasis, waiting in *; first [lia | intros; apply pv_count; lia].
  - assert (Hold : 0 <= Plat.oldstatus x <= 2) by auto.
    split; try done; cbn; unfold in_stasis, waiting in *; first [lia | intros; apply pv_count; lia].
  - split; try done; cbn; [by left|]. intros _. by destruct cv_dir.
  - specialize (cv_old Et2). split; try done; cbn; first [lia | by right].
Qed.

Section pauses.
Context {A : Arch} {im : Image} {il : ImageLaws} {V : thing -> Sector.doomsector_t -> Prop} {course : Course V} {pausable : Pausable V}.
Implicit Types (w : world).

Lemma stop_plat_inv tag w : level_on V w -> exists w', EV_StopPlat tag w = Ret w' /\ level_on V w'.
Proof.
  intros Hi. pose proof (plat_slots w Hi) as Hall. pose proof (li_activeplats _ Hi) as Hsl.
  destruct (each_slot_run get_plat put_plat TPlat (fun a x w => get_plat_at a x w) (fun a x w => eq_refl) (stop_plat tag) _ w (proj1 Hsl) Hall)
    as (l & E & H1 & H2 & H3).
  eexists. split; [exact E|]. eapply (stasis_inv TPlat (stop_plat tag) GameTypes.T_PlatRaise); try done; [apply pause_plat|..];
    intros p *; unfold changed, stop_plat; destruct (_ && _); auto.
Qed.

Lemma activate_plat_inv tag w : level_on V w -> exists w', P_ActivateInStasis tag w = Ret w' /\ level_on V w'.
Proof.
  intros Hi. pose proof (plat_slots w Hi) as Hall. pose proof (li_activeplats _ Hi) as Hsl.
  destruct (each_slot_run get_plat put_plat TPlat (fun a x w => get_plat_at a x w) (fun a x w => eq_refl) (activate_plat tag) _ w (proj1 Hsl) Hall)
    as (l & E & H1 & H2 & H3).
  eexists. split; [exact E|]. eapply (stasis_inv TPlat (activate_plat tag) GameTypes.T_PlatRaise); try done; [apply resume_plat|..];
    intros p *; unfold changed, activate_plat; destruct (_ && _); auto.
Qed.

Lemma stop_ceiling_inv li w : level_on V w -> exists rtn w', EV_CeilingCrushStop li w = Ret (rtn, w') /\ level_on V w'.
Proof.
  intros Hi. pose proof (ceiling_slots w Hi) as Hall. pose proof (li_activeceilings _ Hi) as Hsl. unfold EV_CeilingCrushStop.
  destruct (each_slot_run get_ceiling put_ceiling TCeiling (fun a x w => get_ceiling_at a x w) (fun a x w => eq_refl) (stop_ceiling (Line.tag li)) _ w (proj1 Hsl) Hall)
    as (l & E & H1 & H2 & H3).
  rewrite E. cbn [obind]. eexists _, _. split; [reflexivity|].
  eapply (stasis_inv TCeiling (stop_ceiling (Line.tag li)) GameTypes.T_MoveCeiling); try done; [apply pause_ceiling|..];
    intros c *; unfold changed, stop_ceiling; destruct (_ && _); auto.
Qed.

Lemma activate_ceiling_inv li w : level_on V w -> exists w', P_ActivateInStasisCeiling li w = Ret w' /\ level_on V w'.
Proof.
  intros Hi. pose proof (ceiling_slots w Hi) as Hall. pose proof (li_activeceilings _ Hi) as Hsl.
  destruct (each_slot_run get_ceiling put_ceiling TCeiling (fun a x w => get_ceiling_at a x w) (fun a x w => eq_refl) (activate_ceiling (Line.tag li)) _ w (proj1 Hsl) Hall)
    as (l & E & H1 & H2 & H3).
  eexists. split; [exact E|]. eapply (stasis_inv TCeiling (activate_ceiling (Line.tag li)) GameTypes.T_MoveCeiling); try done; [apply resume_ceiling|..];
    intros c *; unfold changed, activate_ceiling; destruct (_ && _); auto.
Qed.
End pauses.

Section steps.
Context {A : Arch} {im : Image} {il : ImageLaws} {C : Crush} {laws : CrushLaws} {H : Heap} {hlaws : HeapLaws} {msgs : Messages}.
Context {tx : Textures} {act : Actors} {alaws : ActorLaws plane_valid}.
Implicit Types (w : world).

(** ** Movers that lines start *)
Lemma truth_zero x : truth x = false -> x = 0.
Proof. unfold truth. destruct (x =? 0) eqn:E; breflect; done. Qed.

Lemma start_plat_inv li type amount s sec rtn r w w' : level_inv w -> moving_type type = true -> floors_ok (gm w) ->
  sectors (gm w) !! s = Some sec -> (0 < slots (activeplats (gm w)))%nat ->
  start_plat li type amount s (rtn, w) = Ret (r, w') -> level_inv w'.
Proof.
  intros Hi Ht Hf Hsec Hsl E. pose proof (start_plat_run li type amount s sec rtn w Ht (li_level _ Hi) Hf Hsec Hsl) as Hr.
  destruct (truth (Sector.specialdata sec)) eqn:Esd; [rewrite E in Hr; by injection Hr as _ ->|]. apply truth_zero in Esd.
  destruct Hr as (self & p & w1 & E1 & Hst & Hs & Hv & Hfn & _ & Hff & Hin & Hce). rewrite E in E1. injection E1 as _ ->.
  eapply (start_inv self s (TPlat p) sec); try done; [by cbn; rewrite Hs|by right|by left].
Qed.
Lemma start_door_inv type s sec rtn r w w' : level_inv w -> line_door type -> sectors (gm w) !! s = Some sec -> door_way type s sec (gm w) ->
  start_door type s (rtn, w) = Ret (r, w') -> level_inv w'.
Proof.
  intros Hi Ht Hsec Hw E. pose proof (start_door_run type s sec rtn w Ht Hsec Hw) as Hr.
  destruct (truth (Sector.specialdata sec)) eqn:Esd; [rewrite E in Hr; by injection Hr as _ ->|]. apply truth_zero in Esd.
  destruct (Hr (li_level _ Hi)) as (self & d & w1 & E1 & Hst & Hs & Hv & _ & _ & _ & Hfn & Hpl & Hce). rewrite E in E1. injection E1 as _ ->.
  eapply (start_inv self s (TDoor d) sec); try done; [by cbn; rewrite Hs|by left|by left].
Qed.
Lemma start_ceiling_inv type s sec rtn r w w' : level_inv w -> 0 <= type <= 5 -> sectors (gm w) !! s = Some sec -> has_way type s sec (gm w) ->
  start_ceiling type s (rtn, w) = Ret (r, w') -> level_inv w'.
Proof.
  intros Hi Ht Hsec Hw E. pose proof (start_ceiling_run type s sec rtn w Ht Hsec Hw) as Hr.
  destruct (truth (Sector.specialdata sec)) eqn:Esd; [rewrite E in Hr; by injection Hr as _ ->|]. apply truth_zero in Esd.
  destruct (Hr (li_level _ Hi)) as (self & c & w1 & E1 & Hst & Hs & Hv & _ & _ & _ & Hfn & Hpl & Hce). rewrite E in E1. injection E1 as _ ->.
  eapply (start_inv self s (TCeiling c) sec); try done; [by cbn; rewrite Hs|by left|].
  case_bool_decide; [right; apply Hce|by left].
Qed.

(** A step of a stair that rises. *)
Lemma new_step_inv s sec speed height w w' : level_inv w -> sectors (gm w) !! s = Some sec -> Sector.specialdata sec = 0 ->
  INT_MIN <= Sector.floorheight sec <= height -> 0 < speed -> height + speed <= INT_MAX ->
  new_step s speed height w = Ret w' -> level_inv w'.
Proof.
  intros Hi Hsec Hsd Hh Hsp Hmax E. unfold new_step in E. destruct (heap_fresh w) as (self & Em & Hnz & Hfr). rewrite Em in E. cbn [obind] in E.
  set (w1 := w <| gm ::= P_AddThinker self _ |>) in E. rewrite (specialdata_run s sec) in E by done. cbn [obind] in E. injection E as <-.
  set (f := (raw_floor self) <| FloorMove.thinker ::= set_function GameTypes.T_MoveFloor |> <| FloorMove.direction := 1 |>
    <| FloorMove.sector := Z.of_nat s |> <| FloorMove.speed := speed |> <| FloorMove.floordestheight := height |>).
  eapply (start_inv self s (TFloor f) sec); try done; [| |by left|by left].
  - eapply (starts_intro _ _ _ (TFloor (raw_floor self))); try done. cbn. by rewrite Nat2Z.id.
  - unfold INT_MIN, INT_MAX in *. split; cbn; unfold INT_MIN, INT_MAX; [by right|lia..].
Qed.

Lemma start_strobe_inv s sec w w' : level_inv w -> sectors (gm w) !! s = Some sec -> start_strobe s w = Ret w' -> level_inv w'.
Proof.
  intros Hi Hsec E. unfold start_strobe in E. rewrite (get_sector_at s sec) in E by done. cbn [obind] in E.
  destruct (truth _); [by injection E as ->|].
  destruct (strobe_spawned s sec SLOWDARK 0 w (li_level _ Hi) (li_light _ Hi) Hsec) as (self & w1 & th & E1 & Hnew & Hok & Hact & Hfn & _);
    [unfold SLOWDARK, INT_MAX; lia|].
  rewrite E in E1. injection E1 as ->. eapply light_inv; [done|done|done|done|by rewrite Hfn, Hact].
Qed.
End steps.
