(* ===== verification/ManualDoorTheorems.v ===== *)
(** * Doors that are opened by hand: the theorems *)
From S2P Require Import Prelude MFixed MRandom GameTypes Thinkers SectorSearch MovePlane Frame Plats PlatTheorems Doors DoorTheorems.
From S2P Require Import Ceilings CeilingTheorems Floors FloorTheorems Lights LightTheorems Ticker TickerTheorems LevelSteps.
#[local] Open Scope doom_scope.

(** The lines that open doors by hand, and those that do it once. *)
Definition once (special : Z) : bool := (31 <=? special) && (special <=? 34) || (special =? 118).
Definition manual_special (special : Z) : bool := raise_special special || once special.

(** The line [li] with the index [line] leads to the sector [s]. *)
Record leads (line : nat) (li : Line.line_t) (s : nat) (sec : Sector.doomsector_t) (w : world) : Prop := {
  ld_line : lines (gm w) !! line = Some li;
  ld_side : exists num si, Line.sidenum li !! 1%nat = Some num /\ 0 <= num /\ sides (gm w) !! Z.to_nat num = Some si /\
            Side.sector si = Z.of_nat s;
  ld_sector : sectors (gm w) !! s = Some sec
}.

Section facts.
Context {A : Arch} {im : Image} {il : ImageLaws} {C : Crush} {laws : CrushLaws} {H : Heap} {hlaws : HeapLaws} {msgs : Messages}.
Implicit Types (w : world).

(** ** Parts of the world that the invariant does not look at *)
Lemma level_inv_game {V} w w' : level_on V w -> thinkers (gm w') = thinkers (gm w) -> sectors (gm w') = sectors (gm w) ->
  activeplats (gm w') = activeplats (gm w) -> activeceilings (gm w') = activeceilings (gm w) -> level_ok (gm w') -> level_on V w'.
Proof.
  intros [] Et Es Ep Ec Hl. unfold addrs_ok, addresses, actors_ok, owns, shines, slots_ok, thing_at in *.
  split; unfold addrs_ok, addresses, actors_ok, owns, shines, slots_ok, thing_at; rewrite ?Et, ?Es, ?Ep, ?Ec; done.
Qed.
Lemma refuse_inv {V} i p msg w : level_on V w -> level_on V (refuse i p msg w).
Proof. intros Hi. apply (level_inv_game w); try done. destruct (li_level _ Hi) as [L1 L2]. split; [exact L1|exact L2]. Qed.
Lemma sound_inv {V} o snd w : level_on V w -> level_on V (S_StartSound o snd w).
Proof. intros Hi. apply (level_inv_game w); try done. apply Hi. Qed.
Lemma clear_line_level line g : level_ok g -> level_ok (clear_line line g) /\
  forall s, neighbours (clear_line line g) s = neighbours g s.
Proof.
  intros [L1 L2].
  assert (Hln : forall l, (fun li => li <| Line.special := 0 |>) <$> lines (clear_line line g) !! l = (fun li => li <| Line.special := 0 |>) <$> lines g !! l).
  { intros l. cbn. destruct (decide (line = l)) as [<-|Hne]; [|by rewrite list_lookup_alter_ne]. rewrite list_lookup_alter_eq. by destruct (lines g !! line). }
  split; [split|].
  - intros s sec E. eapply Forall_impl; [by eapply L1|]. intros l [x Hx]. specialize (Hln l). rewrite Hx in Hln.
    destruct (lines (clear_line line g) !! l); [by eexists|done].
  - intros l li o E Ho. specialize (Hln l). rewrite E in Hln. destruct (lines g !! l) as [li'|] eqn:E'; [|done]. injection Hln as H1 H2 H3 H4 H5.
    eapply L2; [exact E'|]. by rewrite <- H4, <- H5.
  - intros s. unfold neighbours. change (sectors (clear_line line g)) with (sectors g). destruct (sectors g !! s) as [sec|]; [|done].
    induction (Sector.lines sec) as [|l ls IH]; [done|]. cbn [omap list_omap]. rewrite IH.
    assert (En : next_sector (clear_line line g) s l = next_sector g s l); [|by rewrite En].
    specialize (Hln l). unfold next_sector. destruct (lines g !! l) as [x|], (lines (clear_line line g) !! l) as [y|]; try done.
    injection Hln as H1 H2 H3 H4 H5. cbn. unfold getNextSector. by rewrite H1, H4, H5.
Qed.
Lemma clear_line_inv {V} line w : level_on V w -> level_on V (w <| gm ::= clear_line line |>).
Proof. intros Hi. apply (level_inv_game w); try done. apply clear_line_level, Hi. Qed.


(** ** The lock *)
Lemma check_lock_cases special mo w through w1 : check_lock special mo w = Ret (through, w1) ->
  w1 = w \/ through = false /\ exists i p msg, Mobj.player mo = Some i /\ w1 = refuse i p msg w.
Proof.
  unfold check_lock. destruct (lock_of manual_locks special) as [[[card skull] msg]|]; [|intros E; inv_ret; by left].
  destruct (Mobj.player mo) as [i|]; [|intros E; inv_ret; by left].
  destruct (get_player i w) as [p| | |]; try done. cbn [obind]. destruct (lacks card skull p) as [[]| | |]; try done; cbn [obind]; intros E; inv_ret.
  - right. split; [done|]. by exists i, p, msg.
  - by left.
Qed.

(** ** A new door *)
Lemma manual_setup_run sp d : manual_special sp = true -> VlDoor.direction d = 1 -> VlDoor.speed d = VDOORSPEED -> VlDoor.topwait d = VDOORWAIT ->
  exists d', manual_setup sp d = (d', once sp) /\ VlDoor.thinker d' = VlDoor.thinker d /\ VlDoor.sector d' = VlDoor.sector d /\
    VlDoor.direction d' = 1 /\ VlDoor.topwait d' = VDOORWAIT /\ 0 < VlDoor.speed d' <= 4 * VDOORSPEED.
Proof.
  intros Hm Hd Hs Hw.
  assert (Hcase : sp = 1 \/ sp = 26 \/ sp = 27 \/ sp = 28 \/ sp = 117 \/ sp = 31 \/ sp = 32 \/ sp = 33 \/ sp = 34 \/ sp = 118).
  { unfold manual_special, raise_special, once in Hm. rewrite !orb_true_iff, andb_true_iff, !Z.eqb_eq, !Z.leb_le in Hm. lia. }
  unfold VDOORSPEED, FRACUNIT in *.
  destruct Hcase as [->|[->|[->|[->|[->|[->|[->|[->|[->| ->]]]]]]]]]; (eexists; split; [reflexivity|]; split_and!; cbn; done || (rewrite ?Hs; lia)).
Qed.

Lemma open_manual_run line sp s sec w : manual_special sp = true -> level_ok (gm w) -> sectors (gm w) !! s = Some sec ->
  door_way vld_normal s sec (gm w) ->
  exists self d w1, open_manual line sp s w = Ret (if once sp then w1 <| gm ::= clear_line line |> else w1) /\
    starts self s (TDoor d) sec w w1 /\ VlDoor.sector d = Z.of_nat s /\ door_valid d (sec <| Sector.specialdata := self |>) /\
    VlDoor.direction d = 1 /\ VlDoor.topheight d = open_top vld_normal s sec (gm w) /\
    Thinker.function (VlDoor.thinker d) = fn_addr GameTypes.T_VerticalDoor /\
    activeplats (gm w1) = activeplats (gm w) /\ activeceilings (gm w1) = activeceilings (gm w).
Proof.
  intros Hm Hl Hsec (Hr & Hlo & Hhi). unfold open_manual. set (w0 := S_StartSound _ _ w).
  unfold new_door. destruct (heap_fresh w0) as (self & -> & Hnz & Hfr). cbn [obind].
  set (w1 := w0 <| gm ::= P_AddThinker self _ |>). rewrite (specialdata_run s sec self w1) by done. cbn [obind].
  set (sec' := sec <| Sector.specialdata := self |>) in *. set (w2 := set_sector (Z.of_nat s) sec' w1).
  set (d0 := (raw_door self) <| VlDoor.thinker ::= set_function GameTypes.T_VerticalDoor |> <| VlDoor.sector := Z.of_nat s |>).
  set (d00 := d0 <| VlDoor.direction := 1 |> <| VlDoor.speed := VDOORSPEED |> <| VlDoor.topwait := VDOORWAIT |>).
  destruct (manual_setup_run sp d00 Hm eq_refl eq_refl eq_refl)
    as (d1 & -> & D1 & D2 & D3 & D4 & D5).
  set (w3 := if once sp then w2 <| gm ::= clear_line line |> else w2).
  assert (Htop : open_height s w3 = Ret (open_top vld_normal s sec (gm w))).
  { set (g2 := (gm w) <| thinkers := thinkers (gm w) ++ [(self, TDoor (raw_door self))] |> <| sectors ::= <[s := sec']> |>).
    assert (Hl2 : level_ok g2) by (by eapply level_ok_update).
    assert (Hs2 : sectors g2 !! s = Some sec') by (cbn; by rewrite list_lookup_insert_eq by (by eapply lookup_lt_Some)).
    assert (Hn : Sector.ceilingheight <$> neighbours g2 s = Sector.ceilingheight <$> neighbours (gm w) s) by (by apply (neighbours_update Sector.ceilingheight (gm w) s sec)).
    assert (E2 : gm w2 = g2) by (unfold w2, set_sector; rewrite Nat2Z.id; reflexivity).
    unfold open_top in *. change (vld_normal =? vld_close30ThenOpen) with false in *. cbv iota in *.
    unfold w3. destruct (once sp).
    - destruct (clear_line_level line g2 Hl2) as [Hl3 Hn3]. rewrite (open_height_run s sec').
      + cbn [gm update]. rewrite E2, Hn3, Hn. done.
      + cbn [gm update]. by rewrite E2.
      + cbn [gm update]. by rewrite E2.
      + cbn [gm update]. rewrite E2, Hn3, Hn. unfold INT_MIN, INT_MAX, VDOORSPEED, FRACUNIT in *. lia.
    - rewrite (open_height_run s sec'); rewrite ?E2, ?Hn; try done. unfold INT_MIN, INT_MAX, VDOORSPEED, FRACUNIT in *. lia. }
  rewrite Htop. cbn [obind]. set (d := d1 <| VlDoor.topheight := open_top vld_normal s sec (gm w) |>).
  exists self, d, (put_door self d w2). split_and!; try done.
  - unfold w3. by destruct (once sp).
  - eapply (starts_intro _ _ _ (TDoor (raw_door self))); try done. cbn. by rewrite Nat2Z.id.
  - unfold d. clear d Htop. set (top := open_top _ _ _ _) in *. clearbody top. destruct d1 as [t1 ty1 s1 tp1 sp1 dr1 tw1 tc1]. cbn in D3, D4, D5. subst dr1 tw1.
    unfold VDOORSPEED, VDOORWAIT, FRACUNIT in *. split; cbn; unf; lia.
  - change (VlDoor.thinker d) with (VlDoor.thinker d1). by rewrite D1.
Qed.

(** ** A door that moves already *)

(** What using the line makes of the door. *)
Definition used (mo : Mobj.mobj_t) (d : VlDoor.vldoor_t) : VlDoor.vldoor_t :=
  if VlDoor.direction d =? -1 then d <| VlDoor.direction := 1 |>
  else match Mobj.player mo with Some _ => d <| VlDoor.direction := -1 |> | None => d end.

Lemma put_door_same self d w : thing_at self (gm w) = Some (TDoor d) -> NoDup (addresses (gm w)) -> put_door self d w = w.
Proof.
  intros Hat Hnd. unfold put_door, put_thing. destruct w as [[] ? ?]. cbn in *. unfold thing_at, addresses in *. cbn in *. f_equal. f_equal.
  revert Hat Hnd. induction thinkers as [|[a t] l IH]; [done|]. cbn. intros Hat [Hn Hnd]%NoDup_cons. destruct (a =? self) eqn:E; breflect.
  - subst a. injection Hat as ->. f_equal. clear IH Hnd. induction l as [|[b u] l IH]; [done|]. cbn in *. apply not_elem_of_cons in Hn as [Hb Hn].
    rewrite (proj2 (Z.eqb_neq b self)) by congruence. f_equal. by apply IH.
  - f_equal. by apply IH.
Qed.

Lemma use_mover_run self d mo w : level_inv w -> thing_at self (gm w) = Some (TDoor d) -> alive (TDoor d) ->
  use_mover self mo w = Ret (put_door self (used mo d) w).
Proof.
  intros Hi Hat Hal. unfold use_mover, used. rewrite Hat. cbn [of_option obind pun_direction set_pun].
  destruct (VlDoor.direction d =? -1); [done|]. destruct (Mobj.player mo) as [i|]; [|by rewrite put_door_same by (done || apply Hi)].
  destruct (li_movers _ Hi self _ Hat Hal ltac:(done)) as (s & sec & _ & _ & _ & _ & [Hf|[Hf _]]); [|done].
  rewrite Hf. cbn [thing_action]. by rewrite Z.eqb_refl.
Qed.

Lemma used_inv self d mo w : level_inv w -> thing_at self (gm w) = Some (TDoor d) -> alive (TDoor d) -> level_inv (put_door self (used mo d) w).
Proof.
  intros Hi Hat Hal. destruct (li_movers _ Hi self _ Hat Hal ltac:(done)) as (s & sec & Hms & Hsec & Hown & Hv & _).
  assert (Hu : cycle d (used mo d) /\ VlDoor.type (used mo d) = VlDoor.type d).
  { unfold used. destruct (_ =? _); [done|]. by destruct (Mobj.player mo). }
  destruct Hu as [(U1 & U2 & U3 & U4 & U5) U6].
  assert (Hdir : VlDoor.direction (used mo d) = 1 \/ VlDoor.direction (used mo d) = -1 \/ used mo d = d).
  { unfold used. destruct (_ =? _); [by left|]. destruct (Mobj.player mo); [right; by left|by do 2 right]. }
  apply (plane_step_inv self s (TDoor d) sec (TDoor (used mo d)) sec w); try done; [by eapply addr_nonzero|].
  split; try done.
  - by apply frame_put.
  - by eapply thing_at_put_same.
  - cbn. by rewrite list_insert_id.
  - cbn. by rewrite U2.
  - left. unfold thing_function, thing_thinker. rewrite U1. split_and!; try done.
    destruct Hdir as [Hdir|[Hdir| ->]]; [| |done]; (eapply door_valid_cycle; [done|exact Hv|rewrite Hdir; lia..]).
Qed.

(** ** The function *)
Lemma vertical_door_run line li s sec mo w w1 through : leads line li s sec w -> check_lock (Line.special li) mo w = Ret (through, w1) ->
  EV_VerticalDoor line mo w =
    if negb through then Ret w1
    else if truth (Sector.specialdata sec) && raise_special (Line.special li) then use_mover (Sector.specialdata sec) mo w
    else open_manual line (Line.special li) s w.
Proof.
  intros [Hl (num & si & E1 & Hn & E2 & E3) Hsec] Hc. unfold EV_VerticalDoor. rewrite Hl. cbn [of_option obind]. rewrite Hc. cbn [obind].
  destruct through; [|done]. assert (w1 = w) as -> by (by destruct (check_lock_cases _ _ _ _ _ Hc) as [?|[? _]]).
  cbn [negb]. rewrite E1. cbn [of_option obind]. rewrite (proj2 (Z.ltb_ge _ _)), E2 by lia. cbn [of_option obind].
  rewrite E3, (get_sector_at s sec) by done. cbn [obind]. by rewrite Nat2Z.id.
Qed.

Lemma vertical_door_cases line li s sec mo w w1 through : level_inv w -> leads line li s sec w -> manual_special (Line.special li) = true ->
  check_lock (Line.special li) mo w = Ret (through, w1) ->
  if negb through then EV_VerticalDoor line mo w = Ret w1 /\ level_inv w1 /\
    (w1 = w \/ exists i p msg, Mobj.player mo = Some i /\ w1 = refuse i p msg w)
  else if Sector.specialdata sec =? 0 then door_way vld_normal s sec (gm w) ->
    exists self d w2 w', EV_VerticalDoor line mo w = Ret w' /\ level_inv w' /\
      w' = (if once (Line.special li) then w2 <| gm ::= clear_line line |> else w2) /\
      starts self s (TDoor d) sec w w2 /\ VlDoor.sector d = Z.of_nat s /\ VlDoor.direction d = 1 /\
      VlDoor.topheight d = open_top vld_normal s sec (gm w)
  else forall d, raise_special (Line.special li) = true -> thing_at (Sector.specialdata sec) (gm w) = Some (TDoor d) ->
    EV_VerticalDoor line mo w = Ret (put_door (Sector.specialdata sec) (used mo d) w) /\
    level_inv (put_door (Sector.specialdata sec) (used mo d) w).
Proof.
  intros Hi Hl Hm Hc. rewrite (vertical_door_run _ _ _ _ _ _ _ _ Hl Hc). pose proof (ld_sector _ _ _ _ _ Hl) as Hsec.
  destruct through; cbn [negb].
  - destruct (Sector.specialdata sec =? 0) eqn:Ez; unfold truth; rewrite Ez; cbn [negb andb]; breflect.
    + intros Hw. destruct (open_manual_run line (Line.special li) s sec w Hm (li_level _ Hi) Hsec Hw)
        as (self & d & w2 & E & Hst & Hs & Hv & Hd & Ht & Hfn & Hp & Hce).
      assert (Hi2 : level_inv w2) by (eapply (start_inv self s (TDoor d) sec w); try done; [by cbn; rewrite Hs|by left|by left]).
      eexists self, d, w2, _. split; [exact E|]. split_and!; try done. destruct (once _); [by apply clear_line_inv|done].
    + intros d Hr Hat. rewrite Hr. destruct (li_owner _ Hi s sec Hsec Ez) as (t & Ht & Ha & _). assert (t = TDoor d) as -> by congruence.
      split; [by apply use_mover_run|by apply used_inv].
  - destruct (check_lock_cases _ _ _ _ _ Hc) as [->|[_ Hr]]; [by auto|]. split_and!; try done; [|by right].
    destruct Hr as (i & p & msg & _ & ->). by apply refuse_inv.
Qed.
End facts.

(** ** The claims *)
Section claims.
Context {A : Arch} {im : Image} {il : ImageLaws} {C : Crush} {laws : CrushLaws} {H : Heap} {hlaws : HeapLaws} {msgs : Messages}.
Implicit Types (w : world).

(** C36: using a door by hand in a valid level. Who is refused by the lock changes
    nothing but the message. When nothing moves the sector and it has room for a
    door ([door_way]: its ceiling is not above the height the door opens to), it gets
    a new door that opens, and a line that works once loses its special. When a door
    moves the sector and the line is one that can be used again, the door turns
    around: one that closes opens again, any other closes when a player uses it, and
    monsters never close a door. In these three cases the level stays valid. Nothing
    is said of a line that works once on a sector that moves (where validity is
    lost, see [second_door]), nor of a sector that something else than a door moves. *)
Theorem EV_VerticalDoor_correct line li s sec mo w w1 through : level_inv w -> leads line li s sec w -> manual_special (Line.special li) = true ->
  check_lock (Line.special li) mo w = Ret (through, w1) ->
  if negb through then EV_VerticalDoor line mo w = Ret w1 /\ level_inv w1 /\
    (w1 = w \/ exists i p msg, Mobj.player mo = Some i /\ w1 = refuse i p msg w)
  else if Sector.specialdata sec =? 0 then door_way vld_normal s sec (gm w) ->
    exists self d w2 w', EV_VerticalDoor line mo w = Ret w' /\ level_inv w' /\
      w' = (if once (Line.special li) then w2 <| gm ::= clear_line line |> else w2) /\
      starts self s (TDoor d) sec w w2 /\ VlDoor.sector d = Z.of_nat s /\ VlDoor.direction d = 1 /\
      VlDoor.topheight d = open_top vld_normal s sec (gm w)
  else forall d, raise_special (Line.special li) = true -> thing_at (Sector.specialdata sec) (gm w) = Some (TDoor d) ->
    EV_VerticalDoor line mo w = Ret (put_door (Sector.specialdata sec) (used mo d) w) /\
    level_inv (put_door (Sector.specialdata sec) (used mo d) w).
Proof. apply vertical_door_cases. Qed.

(** a line that opens a door once does not look whether something moves
    the sector already: it starts a second mover there. Both are live then,
    and the sector names only the new one, so that the level is not valid any
    more. *)
Theorem second_door line li s sec mo w : level_inv w -> leads line li s sec w -> once (Line.special li) = true ->
  check_lock (Line.special li) mo w = Ret (true, w) -> Sector.specialdata sec <> 0 -> door_way vld_normal s sec (gm w) ->
  exists w' self t d, EV_VerticalDoor line mo w = Ret w' /\ self <> Sector.specialdata sec /\
    thing_at (Sector.specialdata sec) (gm w') = Some t /\ alive t /\ mover_sector t = Some (Z.of_nat s) /\
    thing_at self (gm w') = Some (TDoor d) /\ alive (TDoor d) /\ VlDoor.sector d = Z.of_nat s /\ ~ level_inv w'.
Proof.
  intros Hi Hl Ho Hc Hz Hw. rewrite (vertical_door_run _ _ _ _ _ _ _ _ Hl Hc). pose proof (ld_sector _ _ _ _ _ Hl) as Hsec. cbn [negb].
  assert (Hr : raise_special (Line.special li) = false).
  { unfold once, raise_special in *. rewrite orb_true_iff, andb_true_iff, !Z.leb_le, !Z.eqb_eq in Ho. rewrite !orb_false_iff, !Z.eqb_neq. lia. }
  rewrite Hr, andb_false_r. destruct (open_manual_run line (Line.special li) s sec w) as (self & d & w2 & E & Hst & Hs & _ & _ & _ & Hfn & _ & _);
    [unfold manual_special; by rewrite Ho, orb_true_r|apply Hi|done|done|].
  destruct (li_owner _ Hi s sec Hsec Hz) as (t & Ht & Ha & Hts).
  assert (Hne : self <> Sector.specialdata sec) by (intros ->; by apply (st_fresh _ _ _ _ _ _ Hst), (thing_at_addr _ t)).
  rewrite E, Ho. eexists _, self, t, d.
  assert (T1 : thing_at (Sector.specialdata sec) (gm w2) = Some t).
  { rewrite (st_things _ _ _ _ _ _ Hst). by rewrite (proj2 (Z.eqb_neq _ _)) by congruence. }
  assert (T2 : thing_at self (gm w2) = Some (TDoor d)) by (by rewrite (st_things _ _ _ _ _ _ Hst), Z.eqb_refl).
  split; [reflexivity|]. split_and!; try done.
  - unfold alive, thing_function, thing_thinker. rewrite Hfn. apply fn_live.
  - intros Hi'. destruct (li_movers _ Hi' _ t T1 Ha ltac:(by rewrite Hts)) as (k & sk & K1 & K2 & K3 & _). rewrite Hts in K1. injection K1 as K1.
    assert (k = s) as -> by lia. change (sectors (gm w2) !! s = Some sk) in K2. rewrite (st_sectors _ _ _ _ _ _ Hst) in K2.
    rewrite list_lookup_insert_eq in K2 by (by eapply lookup_lt_Some). injection K2 as <-. cbn in K3. congruence.
Qed.
End claims.

(** ** Witnesses: the middle room is a door, closed or on its way up *)
Section witness.
Import Demo.
#[local] Existing Instances image_laws silent.
Definition door_line (special : Z) : Line.line_t := Line.mk ML_TWOSIDED special 7 [0; 1] (Some 0%nat) (Some 1%nat).
Definition rising : VlDoor.vldoor_t := VlDoor.mk (Thinker.mk 77 77 103) vld_open 1 (96 * FRACUNIT) VDOORSPEED 1 VDOORWAIT 77.
Definition door_room (owner : Z) : Sector.doomsector_t := shut_room <| Sector.specialdata := owner |>.
Definition door_game (special owner : Z) (l : list (Z * thing)) : game :=
  mk_game 2 1 1 0 [] [] [room 0 7 [0%nat]; door_room owner; room 131072 7 [1%nat]]
    [door_line special; Line.mk ML_TWOSIDED 0 7 [2; 3] (Some 1%nat) (Some 2%nat)]
    [Side.mk 0 0 0 0 0 0; Side.mk 0 0 0 0 0 1; Side.mk 0 0 0 0 0 1; Side.mk 0 0 0 0 0 2] l [] [].
Definition door_world (special owner : Z) (l : list (Z * thing)) : world := mk_world (door_game special owner l) (mk_rnd 0 0) [].
Definition visitor : Mobj.mobj_t := key_mobj.

Lemma door_leads special owner l : leads 0 (door_line special) 1 (door_room owner) (door_world special owner l).
Proof. split; [done| |done]. eexists _, _. split; [reflexivity|]. split; [lia|]. split; [reflexivity|done]. Qed.
Lemma door_world_way special owner l : door_way vld_normal 1 (door_room owner) (gm (door_world special owner l)).
Proof. split; [vm_compute; split; discriminate|]. split; vm_compute; discriminate. Qed.
Lemma door_level special owner l : level_ok (gm (door_world special owner l)).
Proof.
  split.
  - intros s sec. do 3 (destruct s as [|s]; [intros [= <-]; repeat (apply Forall_cons_2; [eexists; reflexivity|]); apply Forall_nil_2|]). done.
  - intros k li o. do 2 (destruct k as [|k]; [intros [= <-] [[= <-]|[= <-]]; eexists; reflexivity|]). done.
Qed.

Lemma closed_inv : level_inv (door_world 1 0 []).
Proof.
  split; try done.
  - split; by_decision.
  - apply door_level.
  - repeat constructor; cbn; lia.
  - intros s sec Hs Hz. exfalso. apply Hz. revert Hs. do 3 (destruct s as [|s]; [intros [= <-]; reflexivity|]). done.
  - split; [by_decision|]. by intros p Hp%elem_of_nil.
  - split; [by_decision|]. by intros p Hp%elem_of_nil.
Qed.
Lemma rising_inv special : level_inv (door_world special 1 [(1, TDoor rising)]).
Proof.
  assert (Hth : forall a th, thing_at a (gm (door_world special 1 [(1, TDoor rising)])) = Some th -> a = 1 /\ th = TDoor rising).
  { intros a th. unfold thing_at. cbn [gm door_world door_game thinkers thing_in]. destruct (1 =? a) eqn:E; breflect; [intros [= <-]; auto|done]. }
  split.
  - split; by_decision.
  - apply door_level.
  - intros a m [_ ?]%Hth. done.
  - repeat constructor; cbn; lia.
  - intros a th [-> ->]%Hth _ _. exists 1%nat, (door_room 1). split; [reflexivity|]. split; [reflexivity|]. split; [reflexivity|]. split; [|by left].
    split; cbn; unf; unfold VDOORSPEED, VDOORWAIT, FRACUNIT; lia.
  - intros a p [_ ?]%Hth. done.
  - intros a th [-> ->]%Hth _ Hl. done.
  - intros s sec Hs Hz. assert (s = 1%nat) as ->.
    { revert Hs Hz. do 3 (destruct s as [|s]; [intros [= <-] Hz; first [reflexivity|by destruct Hz]|]). done. }
    injection Hs as <-. by exists (TDoor rising).
  - split; [by_decision|]. by intros p Hp%elem_of_nil.
  - split; [by_decision|]. by intros p Hp%elem_of_nil.
Qed.

Lemma EV_VerticalDoor_correct_witness :
  (exists self d w', EV_VerticalDoor 0 visitor (door_world 1 0 []) = Ret w' /\ level_inv w' /\ thing_at self (gm w') = Some (TDoor d)) /\
  EV_VerticalDoor 0 visitor (door_world 1 1 [(1, TDoor rising)]) =
    Ret (put_door 1 (rising <| VlDoor.direction := -1 |>) (door_world 1 1 [(1, TDoor rising)])).
Proof.
  split.
  - destruct (EV_VerticalDoor_correct 0 (door_line 1) 1 (door_room 0) visitor (door_world 1 0 []) (door_world 1 0 []) true closed_inv
      (door_leads _ _ _) eq_refl eq_refl (door_world_way _ _ _)) as (self & d & w2 & w' & E & Hi & Ew & Hst & _).
    exists self, d, w'. split; [exact E|]. split; [exact Hi|]. change (once (Line.special (door_line 1))) with false in Ew. subst w'.
    rewrite (st_things _ _ _ _ _ _ Hst), Z.eqb_refl. reflexivity.
  - destruct (EV_VerticalDoor_correct 0 (door_line 1) 1 (door_room 1) visitor (door_world 1 1 [(1, TDoor rising)]) (door_world 1 1 [(1, TDoor rising)]) true
      (rising_inv 1) (door_leads _ _ _) eq_refl eq_refl rising eq_refl eq_refl) as [E _]. exact E.
Defined.

Lemma second_door_witness : exists w' self t d, EV_VerticalDoor 0 visitor (door_world 31 1 [(1, TDoor rising)]) = Ret w' /\
  thing_at 1 (gm w') = Some t /\ alive t /\ thing_at self (gm w') = Some (TDoor d) /\ ~ level_inv w'.
Proof.
  destruct (second_door 0 (door_line 31) 1 (door_room 1) visitor (door_world 31 1 [(1, TDoor rising)])) as (w' & self & t & d & E & _ & H1 & H2 & _ & H3 & _ & _ & H4).
  - apply rising_inv.
  - apply door_leads.
  - reflexivity.
  - reflexivity.
  - discriminate.
  - apply door_world_way.
  - exists w', self, t, d. split; [exact E|]. split; [exact H1|]. split; [exact H2|]. split; [exact H3|exact H4].
Defined.
End witness.
