(* ===== verification/LevelReach.v ===== *)
(** * Levels that can be reached

    Movers are started by lines and by hand, stopped and started again, and run
    by the tics of the level, in any order. *)
From S2P Require Import Prelude MFixed MRandom GameTypes Thinkers SectorSearch MovePlane Frame Plats PlatTheorems Doors DoorTheorems.
From S2P Require Import Ceilings CeilingTheorems Floors FloorTheorems Lights LightTheorems Ticker TickerTheorems LevelSteps ManualDoorTheorems.
#[local] Open Scope doom_scope.

Section steps.
Context {A : Arch} {im : Image} {il : ImageLaws} {C : Crush} {laws : CrushLaws} {H : Heap} {hlaws : HeapLaws} {msgs : Messages}.
Context {tx : Textures} {act : Actors} {alaws : ActorLaws plane_valid}.
Implicit Types (w : world).

(** ** What happens to a level, where there is room for it *)
Inductive level_step : world -> world -> Prop :=
| step_tic fuel w w' : P_RunThinkers fuel w = Ret w' -> level_step w w'
| step_plat li type amount s sec rtn r w w' :
    moving_type type = true -> floors_ok (gm w) -> sectors (gm w) !! s = Some sec -> (0 < slots (activeplats (gm w)))%nat ->
    start_plat li type amount s (rtn, w) = Ret (r, w') -> level_step w w'
| step_door type s sec rtn r w w' :
    line_door type -> sectors (gm w) !! s = Some sec -> door_way type s sec (gm w) ->
    start_door type s (rtn, w) = Ret (r, w') -> level_step w w'
| step_ceiling type s sec rtn r w w' :
    0 <= type <= 5 -> sectors (gm w) !! s = Some sec -> has_way type s sec (gm w) ->
    start_ceiling type s (rtn, w) = Ret (r, w') -> level_step w w'
| step_stair s sec speed height w w' :
    sectors (gm w) !! s = Some sec -> Sector.specialdata sec = 0 -> INT_MIN <= Sector.floorheight sec <= height -> 0 < speed ->
    height + speed <= INT_MAX -> new_step s speed height w = Ret w' -> level_step w w'
| step_use line li s sec mo through w1 w w' :
    leads line li s sec w -> manual_special (Line.special li) = true -> check_lock (Line.special li) mo w = Ret (through, w1) ->
    (through = true -> Sector.specialdata sec = 0 /\ door_way vld_normal s sec (gm w) \/
       Sector.specialdata sec <> 0 /\ raise_special (Line.special li) = true /\
       exists d, thing_at (Sector.specialdata sec) (gm w) = Some (TDoor d)) ->
    EV_VerticalDoor line mo w = Ret w' -> level_step w w'
| step_strobe s sec w w' :
    sectors (gm w) !! s = Some sec -> start_strobe s w = Ret w' -> level_step w w'
| step_stop_plats tag w w' : EV_StopPlat tag w = Ret w' -> level_step w w'
| step_wake_plats tag w w' : P_ActivateInStasis tag w = Ret w' -> level_step w w'
| step_stop_ceilings li rtn w w' : EV_CeilingCrushStop li w = Ret (rtn, w') -> level_step w w'
| step_wake_ceilings li w w' : P_ActivateInStasisCeiling li w = Ret w' -> level_step w w'.

Lemma level_step_inv w w' : level_step w w' -> level_inv w -> level_inv w'.
Proof.
  intros Hst Hi. destruct Hst as [fuel w w' E|li type amount s sec rtn r w w' H1 H2 H3 H4 E|type s sec rtn r w w' H1 H2 H3 E|type s sec rtn r w w' H1 H2 H3 E
    |s sec speed height w w' H1 H2 H3 H4 H5 E|line li s sec mo through w1 w w' H1 H2 H3 H4 E|s sec w w' H1 E|tag w w' E|tag w w' E|li rtn w w' E|li w w' E].
  - unfold P_RunThinkers in E. rewrite first_head in E. destruct (run_thinkers_safe fuel w [] _ Hi eq_refl) as [E'|(w1 & E' & Hi')]; congruence.
  - by eapply start_plat_inv.
  - by eapply start_door_inv.
  - by eapply start_ceiling_inv.
  - by eapply (new_step_inv s sec).
  - pose proof (vertical_door_cases line li s sec mo w w1 through Hi H1 H2 H3) as Hc. destruct through; cbn [negb] in Hc; [|destruct Hc as (E1 & Hi1 & _); congruence].
    destruct (H4 eq_refl) as [[Hz Hw]|(Hz & Hr & d & Hd)]; [rewrite Hz in Hc|rewrite (proj2 (Z.eqb_neq _ _) Hz) in Hc].
    + destruct (Hc Hw) as (self & d & w2 & w3 & E3 & Hi3 & _). congruence.
    + destruct (Hc d Hr Hd) as [E3 Hi3]. congruence.
  - by eapply start_strobe_inv.
  - destruct (stop_plat_inv tag w Hi) as (w1 & E1 & Hi'). congruence.
  - destruct (activate_plat_inv tag w Hi) as (w1 & E1 & Hi'). congruence.
  - destruct (stop_ceiling_inv li w Hi) as (rtn1 & w1 & E1 & Hi'). congruence.
  - destruct (activate_ceiling_inv li w Hi) as (w1 & E1 & Hi'). congruence.
Qed.

(** C2: the steps of [level_step], in any order and number, keep a valid level
    valid: every live mover owns its sector and is on its course, every light is in
    range, and neither a sector nor a list of active movers points to an object that
    is gone. The steps are: a tic of all thinkers; a line that starts a plat, a door,
    a ceiling, a step of stairs or a strobe in a sector that has room for its
    course; a door that is used by hand and is refused by its lock, finds its sector
    at rest with room for a door, or is a door already and can be used again; and
    plats and ceilings that lines stop and start again. Not among them, because they
    can break the invariant, are the donut, doors that open once used on a sector
    that moves, and a use by hand of a sector that something else than a door moves;
    nor are the other floors, which [level_play_safe] covers without their courses. *)
Theorem level_reach_ok w w' : level_inv w -> rtc level_step w w' -> level_inv w'.
Proof. intros Hi Hr. induction Hr as [|w w1 w' Hs Hr IH]; [done|]. apply IH. by eapply level_step_inv. Qed.
End steps.

(** ** Witness: the plat of the middle room is stopped, a tic passes, and it
    is started again *)
Section witness.
Import Demo.
#[local] Existing Instances statues statue_laws image_laws silent.
Definition after_stop : world := match EV_StopPlat 3 busy with Ret w => w | _ => busy end.
Definition after_tic : world := match P_RunThinkers 3 after_stop with Ret w => w | _ => busy end.
Definition after_wake : world := match P_ActivateInStasis 3 after_tic with Ret w => w | _ => busy end.
Lemma level_reach_ok_witness : level_inv after_wake /\ addresses (gm after_wake) = [1; 3].
Proof.
  split; [|vm_compute; reflexivity]. apply (level_reach_ok busy after_wake busy_inv).
  apply (rtc_l _ _ after_stop); [apply (step_stop_plats 3); vm_compute; reflexivity|].
  apply (rtc_l _ _ after_tic); [apply (step_tic 3); vm_compute; reflexivity|].
  apply rtc_once, (step_wake_plats 3). vm_compute. reflexivity.
Defined.
End witness.
