(* ===== verification/Switches.v ===== *)
(** * Switches and buttons (src/commands/doom/p_switch.c, p_spec.c)

    A switch is a line whose front side shows a texture that has a partner:
    using the line shows the partner. A button goes back after a second. The
    state of a level beyond its sectors and objects is the record [stage]: the
    buttons that are pressed, the timer of the level, the lines that scroll, and
    what the game does next. *)
From S2P Require Import Prelude MFixed MRandom GameTypes Thinkers SectorSearch MovePlane Doors.
#[local] Open Scope doom_scope.

(** [bwhere_e] *)
Inductive bwhere_e : Set := top | middle | bottom.
#[export] Instance bwhere_dec : EqDecision bwhere_e.
Proof. solve_decision. Defined.

(** [button_t]; the line and the sector are indices, [None] is NULL. *)
Module Button.
Record button_t : Type := mk { line : option nat; where_ : bwhere_e; btexture : Z; btimer : Z; soundorg : option nat }.
#[global] Instance eta : Eta button_t := fun b => mk (line b) (where_ b) (btexture b) (btimer b) (soundorg b).
(** [memset(&buttonlist[i],0,sizeof(button_t))] *)
Definition zero : button_t := mk None top 0 0 None.
End Button.

(** [anim_t] of p_spec.c *)
Module Anim.
Record anim_t : Type := mk { istexture : bool; picnum : Z; basepic : Z; numpics : Z; speed : Z }.
End Anim.

Definition MAXSWITCHES : nat := 50.
Definition MAXBUTTONS : nat := 16.
Definition BUTTONTIME : Z := 35.
Definition MAXLINEANIMS : nat := 64.

(** [gameaction_t], as far as the level sets it. *)
Definition ga_nothing : Z := 0.
Definition ga_completed : Z := 6.

(** [linespeciallist] has the entries in use, [numlinespecials] of them. *)
Record stage : Type := mk_stage {
  wd : world;
  switchlist : list Z; numswitches : Z; buttonlist : list Button.button_t;
  levelTimer : bool; levelTimeCount : Z; linespeciallist : list nat; totalsecret : Z;
  anims : list Anim.anim_t; texturetranslation : list Z; flattranslation : list Z;
  gameaction : Z; secretexit : bool }.
#[export] Instance stage_eta : Eta stage := fun s =>
  mk_stage (wd s) (switchlist s) (numswitches s) (buttonlist s) (levelTimer s) (levelTimeCount s) (linespeciallist s)
    (totalsecret s) (anims s) (texturetranslation s) (flattranslation s) (gameaction s) (secretexit s).

(** ** The list of switches *)
Definition alphSwitchList : list (string * string * Z) :=
  [("SW1BRCOM", "SW2BRCOM", 1); ("SW1BRN1", "SW2BRN1", 1); ("SW1BRN2", "SW2BRN2", 1); ("SW1BRNGN", "SW2BRNGN", 1);
   ("SW1BROWN", "SW2BROWN", 1); ("SW1COMM", "SW2COMM", 1); ("SW1COMP", "SW2COMP", 1); ("SW1DIRT", "SW2DIRT", 1);
   ("SW1EXIT", "SW2EXIT", 1); ("SW1GRAY", "SW2GRAY", 1); ("SW1GRAY1", "SW2GRAY1", 1); ("SW1METAL", "SW2METAL", 1);
   ("SW1PIPE", "SW2PIPE", 1); ("SW1SLAD", "SW2SLAD", 1); ("SW1STARG", "SW2STARG", 1); ("SW1STON1", "SW2STON1", 1);
   ("SW1STON2", "SW2STON2", 1); ("SW1STONE", "SW2STONE", 1); ("SW1STRTN", "SW2STRTN", 1); ("SW1BLUE", "SW2BLUE", 2);
   ("SW1CMT", "SW2CMT", 2); ("SW1GARG", "SW2GARG", 2); ("SW1GSTON", "SW2GSTON", 2); ("SW1HOT", "SW2HOT", 2);
   ("SW1LION", "SW2LION", 2); ("SW1SATYR", "SW2SATYR", 2); ("SW1SKIN", "SW2SKIN", 2); ("SW1VINE", "SW2VINE", 2);
   ("SW1WOOD", "SW2WOOD", 2); ("SW1PANEL", "SW2PANEL", 3); ("SW1ROCK", "SW2ROCK", 3); ("SW1MET2", "SW2MET2", 3);
   ("SW1WDMET", "SW2WDMET", 3); ("SW1BRIK", "SW2BRIK", 3); ("SW1MOD1", "SW2MOD1", 3); ("SW1ZIM", "SW2ZIM", 3);
   ("SW1STON6", "SW2STON6", 3); ("SW1TEK", "SW2TEK", 3); ("SW1MARB", "SW2MARB", 3); ("SW1SKULL", "SW2SKULL", 3);
   (EmptyString, EmptyString, 0)].

(** [GameMode_t] *)
Inductive gamemode_t : Set := shareware | registered | commercial | retail | indetermined.

(** The number of a texture of the WAD (r_data.c); it ends the program when
    there is none. *)
Class TextureNames := R_TextureNumForName : string -> outcome Z.

Section init.
Context {names : TextureNames}.

(** The loop: [n] iterations are left, [alph] is [alphSwitchList] from [i] on. *)
Fixpoint init_switches (n : nat) (alph : list (string * string * Z)) (index episode : Z) (st : stage) : outcome stage :=
  match n with
  | O => Ret st
  | S n =>
      match alph with
      | [] => Undef
      | (name1, name2, ep) :: alph =>
          if negb (truth ep) then
            let* sw := set (switchlist st) index (-1) in
            Ret (st <| numswitches := index ÷ 2 |> <| switchlist := sw |>)
          else if ep <=? episode then
            let* t1 := R_TextureNumForName name1 in
            let* sw := set (switchlist st) index t1 in
            let* t2 := R_TextureNumForName name2 in
            let* sw := set sw (index + 1) t2 in
            init_switches n alph (index + 2) episode (st <| switchlist := sw |>)
          else init_switches n alph index episode st
      end
  end.

Definition P_InitSwitchList (gamemode : gamemode_t) (st : stage) : outcome stage :=
  let episode := match gamemode with registered | retail => 2 | commercial => 3 | _ => 1 end in
  init_switches MAXSWITCHES alphSwitchList 0 episode st.
End init.

(** ** Pressing *)

(** [sides[line->sidenum[0]]]: its number and the side. *)
Definition front_side (li : Line.line_t) (g : game) : outcome (nat * Side.side_t) :=
  let* num := of_option (Line.sidenum li !! 0%nat) in
  if num <? 0 then Undef else
  let* si := of_option (sides g !! Z.to_nat num) in Ret (Z.to_nat num, si).
Definition texture_at (w : bwhere_e) (si : Side.side_t) : Z :=
  match w with top => Side.toptexture si | middle => Side.midtexture si | bottom => Side.bottomtexture si end.
(** A texture number is a [short]. *)
Definition set_texture (w : bwhere_e) (t : Z) (si : Side.side_t) : Side.side_t :=
  match w with
  | top => si <| Side.toptexture := i16 t |>
  | middle => si <| Side.midtexture := i16 t |>
  | bottom => si <| Side.bottomtexture := i16 t |>
  end.
Definition put_side (n : nat) (si : Side.side_t) (st : stage) : stage :=
  st <| wd ::= fun w => w <| gm ::= fun g => g <| sides ::= <[n := si]> |> |> |>.
Definition stage_sound (o : option origin) (s : sound) (st : stage) : stage := st <| wd ::= S_StartSound o s |>.
Definition clear_special_line (line : nat) (st : stage) : stage := st <| wd ::= fun w => w <| gm ::= clear_line line |> |>.

Definition pressed (line : nat) (b : Button.button_t) : bool := truth (Button.btimer b) && bool_decide (Button.line b = Some line).
Fixpoint first_button (l : list Button.button_t) : option nat :=
  match l with
  | [] => None
  | b :: l => if negb (truth (Button.btimer b)) then Some O else S <$> first_button l
  end.

Definition P_StartButton (line : nat) (w : bwhere_e) (texture time : Z) (st : stage) : outcome stage :=
  if existsb (pressed line) (buttonlist st) then Ret st
  else
    match first_button (buttonlist st) with
    | Some i =>
        let* li := of_option (lines (gm (wd st)) !! line) in
        let* front := of_option (Line.frontsector li) in
        Ret (st <| buttonlist ::= <[i := Button.mk (Some line) w texture time (Some front)]> |>)
    | None => Fatal "P_StartButton: no button slots left!"
    end.

(** The first entry of the list of switches, from number [i] on, that one
    of the three textures of the side is. *)
Fixpoint find_switch (n : nat) (i : Z) (si : Side.side_t) (sw : list Z) : outcome (option (Z * bwhere_e)) :=
  match n with
  | O => Ret None
  | S n =>
      let* t := get sw i in
      if t =? Side.toptexture si then Ret (Some (i, top))
      else if t =? Side.midtexture si then Ret (Some (i, middle))
      else if t =? Side.bottomtexture si then Ret (Some (i, bottom))
      else find_switch n (i + 1) si sw
  end.

(** [buttonlist->soundorg], which is the one of the first button *)
Definition first_soundorg (st : stage) : option origin :=
  match buttonlist st with
  | b :: _ => (fun s => org_sector (Z.of_nat s)) <$> Button.soundorg b
  | [] => None
  end.

Definition P_ChangeSwitchTexture (line : nat) (useAgain : Z) (st : stage) : outcome stage :=
  let st := if negb (truth useAgain) then clear_special_line line st else st in
  let* li := of_option (lines (gm (wd st)) !! line) in
  let* '(n, si) := front_side li (gm (wd st)) in
  let sound := if Line.special li =? 11 then sfx_swtchx else sfx_swtchn in
  let* r := find_switch (Z.to_nat (numswitches st * 2)) 0 si (switchlist st) in
  match r with
  | None => Ret st
  | Some (i, w) =>
      let st := stage_sound (first_soundorg st) sound st in
      let* partner := get (switchlist st) (Z.lxor i 1) in
      let st := put_side n (set_texture w partner si) st in
      if truth useAgain then
        let* t := get (switchlist st) i in P_StartButton line w t BUTTONTIME st
      else Ret st
  end.

(** ** Every tic *)

(** One button: [S_StartSound] gets the address of the field [soundorg]
    and not what it points to. *)
Definition tick_button (i : nat) (st : stage) : outcome stage :=
  let* b := of_option (buttonlist st !! i) in
  if truth (Button.btimer b) then
    let b := b <| Button.btimer ::= fun t => i32 (t - 1) |> in
    let st := st <| buttonlist ::= <[i := b]> |> in
    if truth (Button.btimer b) then Ret st
    else
      let* line := of_option (Button.line b) in
      let* li := of_option (lines (gm (wd st)) !! line) in
      let* '(n, si) := front_side li (gm (wd st)) in
      let st := put_side n (set_texture (Button.where_ b) (Button.btexture b) si) st in
      let st := stage_sound (Some (org_button i)) sfx_swtchn st in
      Ret (st <| buttonlist ::= <[i := Button.zero]> |>)
  else Ret st.
Definition update_buttons (st : stage) : outcome stage := run_each tick_button (seq 0 MAXBUTTONS) st.

(** [G_ExitLevel] of g_game.c *)
Definition G_ExitLevel (st : stage) : stage := st <| secretexit := false |> <| gameaction := ga_completed |>.

Definition level_timer (st : stage) : stage :=
  if levelTimer st then
    let st := st <| levelTimeCount ::= fun c => i32 (c - 1) |> in
    if negb (truth (levelTimeCount st)) then G_ExitLevel st else st
  else st.

(** The pictures of an animation from number [i] on, [n] of them. *)
Fixpoint animate_pics (n : nat) (i : Z) (a : Anim.anim_t) (st : stage) : outcome stage :=
  match n with
  | O => Ret st
  | S n =>
      if (Anim.speed a =? 0) || (Anim.numpics a =? 0) then Undef
      else
        let pic := i32 (Anim.basepic a + Z.rem (i32 (leveltime (gm (wd st)) ÷ Anim.speed a + i)) (Anim.numpics a)) in
        let* st :=
          (if Anim.istexture a then let* t := set (texturetranslation st) i pic in Ret (st <| texturetranslation := t |>)
           else let* t := set (flattranslation st) i pic in Ret (st <| flattranslation := t |>)) in
        animate_pics n (i + 1) a st
  end.
Definition animate (a : Anim.anim_t) (st : stage) : outcome stage :=
  animate_pics (Z.to_nat (Anim.numpics a)) (Anim.basepic a) a st.

(** [sides[line->sidenum[0]].textureoffset += FRACUNIT] *)
Definition scroll_line (line : nat) (st : stage) : outcome stage :=
  let* li := of_option (lines (gm (wd st)) !! line) in
  if Line.special li =? 48 then
    let* '(n, si) := front_side li (gm (wd st)) in
    Ret (put_side n (si <| Side.textureoffset ::= fun o => i32 (o + FRACUNIT) |>) st)
  else Ret st.

Definition P_UpdateSpecials (st : stage) : outcome stage :=
  let st := level_timer st in
  let* st := run_each animate (anims st) st in
  let* st := run_each scroll_line (linespeciallist st) st in
  update_buttons st.
