(* ===== verification/SwitchTheorems.v ===== *)
(** * Switches and buttons: what holds

    A button that is pressed shows the other texture for exactly
    [BUTTONTIME] tics, whatever the other buttons do. *)
From S2P Require Import Prelude MFixed MRandom GameTypes Thinkers SectorSearch MovePlane Doors Switches.
#[local] Open Scope doom_scope.

(** The number of the front side of a line. *)
Definition front_no (li : Line.line_t) : option nat :=
  num ← Line.sidenum li !! 0%nat; if num <? 0 then None else Some (Z.to_nat num).
Definition sides_of (st : stage) : list Side.side_t := sides (gm (wd st)).
Definition lines_of (st : stage) : list Line.line_t := lines (gm (wd st)).

(** The side that a button belongs to. *)
Definition button_side (b : Button.button_t) (st : stage) : option nat :=
  line ← Button.line b; li ← lines_of st !! line; front_no li.
Record buttons_ok (st : stage) : Prop := {
  bo_length : length (buttonlist st) = MAXBUTTONS;
  bo_running j b : buttonlist st !! j = Some b -> Button.btimer b <> 0 ->
    0 < Button.btimer b <= INT_MAX /\ exists n, button_side b st = Some n /\ is_Some (sides_of st !! n)
}.

(** A button after a tic, and what becomes of its side. *)
Definition next_button (b : Button.button_t) : Button.button_t :=
  if Button.btimer b =? 0 then b
  else if Button.btimer b =? 1 then Button.zero
  else b <| Button.btimer ::= fun t => t - 1 |>.
Definition restored (b : Button.button_t) (si : Side.side_t) : Side.side_t :=
  if Button.btimer b =? 1 then set_texture (Button.where_ b) (Button.btexture b) si else si.

(** What the tic of button [j] changes. *)
Record ticked (j : nat) (b : Button.button_t) (st st' : stage) : Prop := {
  tk_buttons : buttonlist st' = <[j := next_button b]> (buttonlist st);
  tk_sides n : button_side b st <> Some n -> sides_of st' !! n = sides_of st !! n;
  tk_side n : button_side b st = Some n -> sides_of st' !! n = restored b <$> sides_of st !! n;
  tk_lines : lines_of st' = lines_of st;
  tk_rest : anims st' = anims st /\ linespeciallist st' = linespeciallist st /\
    texturetranslation st' = texturetranslation st /\ flattranslation st' = flattranslation st
}.

(** The animations fit into their tables, and the lines that scroll have a
    front side. *)
Definition anim_ok (st : stage) (a : Anim.anim_t) : Prop :=
  0 < Anim.numpics a /\ Anim.speed a <> 0 /\ 0 <= Anim.basepic a /\
  Anim.basepic a + Anim.numpics a <= Z.of_nat (length (if Anim.istexture a then texturetranslation st else flattranslation st)).
Definition scroll_ok (st : stage) (line : nat) : Prop :=
  exists li n, lines_of st !! line = Some li /\ front_no li = Some n /\ is_Some (sides_of st !! n).
Definition updatable (st : stage) : Prop := Forall (anim_ok st) (anims st) /\ Forall (scroll_ok st) (linespeciallist st).

Lemma front_side_iff li g n si : front_side li g = Ret (n, si) <-> front_no li = Some n /\ sides g !! n = Some si.
Proof.
  unfold front_side, front_no. destruct (Line.sidenum li !! 0%nat) as [num|]; cbn [of_option obind mbind option_bind]; [|split; [done|by intros []]].
  destruct (num <? 0); [split; [done|by intros []]|]. destruct (sides g !! Z.to_nat num) as [s|] eqn:E; cbn [of_option obind].
  - split; [intros [= <- <-]; done|]. intros [[= <-] E']. rewrite E in E'. by injection E' as ->.
  - split; [done|]. intros [[= <-] E']. congruence.
Qed.

Lemma button_side_inv b st n : button_side b st = Some n ->
  exists line li, Button.line b = Some line /\ lines_of st !! line = Some li /\ front_no li = Some n.
Proof.
  unfold button_side. destruct (Button.line b) as [line|]; [|done]. cbn. destruct (lines_of st !! line) as [li|] eqn:E; [|done].
  cbn. intros Hn. by exists line, li.
Qed.

Lemma tick_button_run j st : buttons_ok st -> (j < MAXBUTTONS)%nat ->
  exists b st', buttonlist st !! j = Some b /\ tick_button j st = Ret st' /\ ticked j b st st'.
Proof.
  intros [Hlen Hok] Hj. destruct (lookup_lt_is_Some_2 (buttonlist st) j) as [b Eb]; [lia|]. exists b.
  unfold tick_button. rewrite Eb. cbn [of_option obind]. unfold truth. destruct (Button.btimer b =? 0) eqn:E0; cbn [negb]; breflect.
  - exists st. split; [done|]. split; [done|]. split; try done.
    + unfold next_button. rewrite E0. cbn. by rewrite list_insert_id.
    + intros n _. unfold restored. rewrite E0. cbn. by destruct (sides_of st !! n).
  - destruct (Hok j b Eb E0) as [Hr (n & Hn & si & Hsi)]. cbn [update]. set (t := i32 (Button.btimer b - 1)).
    assert (Et : t = Button.btimer b - 1) by (unfold t, INT_MAX in *; apply wraps_id; [lia|in_range]).
    change (Button.btimer (Button.mk _ _ _ t _)) with t.
    destruct (t =? 0) eqn:E1; cbn [negb]; breflect.
    + destruct (button_side_inv _ _ _ Hn) as (line & li & El & Eli & Enn). cbn [Button.line]. rewrite El. cbn [of_option obind].
      change (lines (gm (wd _)) !! line) with (lines_of st !! line). rewrite Eli. cbn [of_option obind].
      rewrite (proj2 (front_side_iff li _ n si)) by done. cbn [obind]. eexists. split; [done|]. split; [reflexivity|].
      split; try done.
      * unfold next_button. cbn. rewrite list_insert_insert_eq. by rewrite (proj2 (Z.eqb_neq _ 0)), (proj2 (Z.eqb_eq _ 1)) by lia.
      * intros m Hm. unfold sides_of. cbn. by rewrite list_lookup_insert_ne by congruence.
      * intros m Hm. assert (m = n) as -> by congruence. unfold sides_of in *. cbn. rewrite list_lookup_insert_eq by (by eapply lookup_lt_Some).
        rewrite Hsi. unfold restored. cbn. by rewrite (proj2 (Z.eqb_eq _ 1)) by lia.
    + eexists. split; [done|]. split; [reflexivity|]. split; try done.
      * unfold next_button. cbn. rewrite (proj2 (Z.eqb_neq _ 0)), (proj2 (Z.eqb_neq _ 1)) by lia. cbn. by rewrite Et.
      * intros m _. unfold restored. rewrite (proj2 (Z.eqb_neq _ 1)) by lia. unfold sides_of. cbn. by destruct (_ !! m).
Qed.

Lemma ticked_exists j b st st' n : ticked j b st st' -> is_Some (sides_of st !! n) <-> is_Some (sides_of st' !! n).
Proof.
  intros T. destruct (decide (button_side b st = Some n)) as [E|E]; [|by rewrite (tk_sides _ _ _ _ T n E)].
  rewrite (tk_side _ _ _ _ T n E). by rewrite fmap_is_Some.
Qed.
Lemma ticked_where j b st st' b' : ticked j b st st' -> button_side b' st' = button_side b' st.
Proof. intros T. unfold button_side. by rewrite (tk_lines _ _ _ _ T). Qed.
Lemma next_button_running b : Button.btimer (next_button b) <> 0 -> Button.btimer b <> 0 /\ Button.line (next_button b) = Button.line b /\
  Button.btimer (next_button b) = Button.btimer b - 1.
Proof. unfold next_button. destruct (Button.btimer b =? 0) eqn:E0; breflect; [done|]. by destruct (_ =? 1). Qed.

Lemma ticked_ok j b st st' : buttons_ok st -> buttonlist st !! j = Some b -> ticked j b st st' -> buttons_ok st'.
Proof.
  intros [Hlen Hok] Eb T. split; rewrite (tk_buttons _ _ _ _ T); [by rewrite length_insert|]. intros k x Ek Hx.
  setoid_rewrite <- (ticked_exists _ _ _ _ _ T). destruct (decide (j = k)) as [<-|Hne].
  - rewrite list_lookup_insert_eq in Ek by (by eapply lookup_lt_Some). injection Ek as <-.
    destruct (next_button_running b Hx) as (H0 & Hl & Ht). destruct (Hok j b Eb H0) as [Hr Hs]. split; [lia|].
    rewrite (ticked_where _ _ _ _ _ T). unfold button_side in *. by rewrite Hl.
  - rewrite list_lookup_insert_ne in Ek by done. rewrite (ticked_where _ _ _ _ _ T). by eapply Hok.
Qed.

Lemma ticked_updatable j b st st' : ticked j b st st' -> updatable st -> updatable st'.
Proof.
  intros T [H1 H2]. destruct (tk_rest _ _ _ _ T) as (R1 & R2 & R3 & R4). split; rewrite ?R1, ?R2.
  - eapply Forall_impl; [exact H1|]. intros a. unfold anim_ok. by rewrite R3, R4.
  - eapply Forall_impl; [exact H2|]. intros l (li & n & L1 & L2 & L3). exists li, n. rewrite (tk_lines _ _ _ _ T). split_and!; try done.
    by apply (ticked_exists _ _ _ _ n T).
Qed.

(** ** One button among the others

    The button in slot [k] is [b], and side [n], which no other button that
    runs belongs to, shows the textures [tex]. *)
Record showing (k : nat) (b : Button.button_t) (n : nat) (tex : bwhere_e -> Z) (st : stage) : Prop := {
  sh_ok : buttons_ok st;
  sh_up : updatable st;
  sh_slot : buttonlist st !! k = Some b;
  sh_side : Button.btimer b <> 0 -> button_side b st = Some n;
  sh_shown : exists si, sides_of st !! n = Some si /\ forall w, texture_at w si = tex w;
  sh_alone j x : j <> k -> buttonlist st !! j = Some x -> Button.btimer x <> 0 -> button_side x st <> Some n
}.
Definition restored_tex (b : Button.button_t) (tex : bwhere_e -> Z) : bwhere_e -> Z := fun w =>
  if (Button.btimer b =? 1) && bool_decide (w = Button.where_ b) then i16 (Button.btexture b) else tex w.

Lemma restored_shows b si w tex : texture_at w si = tex w -> texture_at w (restored b si) = restored_tex b tex w.
Proof. intros E. unfold restored, restored_tex. destruct (_ =? 1); [|done]. destruct (Button.where_ b), w; done. Qed.

Lemma tick_other j k b n tex st : (j < MAXBUTTONS)%nat -> j <> k -> showing k b n tex st ->
  exists st', tick_button j st = Ret st' /\ showing k b n tex st'.
Proof.
  intros Hj Hne [Hok Hup Hs Hb (si & Hsi & Ht) Ha]. destruct (tick_button_run j st Hok Hj) as (x & st' & Ex & E & T). exists st'. split; [done|].
  assert (Hin : forall m y, buttonlist st' !! m = Some y -> m <> j -> buttonlist st !! m = Some y)
    by (intros m y Hm Hn; by rewrite (tk_buttons _ _ _ _ T), list_lookup_insert_ne in Hm).
  split.
  - by eapply ticked_ok.
  - by eapply ticked_updatable.
  - by rewrite (tk_buttons _ _ _ _ T), list_lookup_insert_ne.
  - by rewrite (ticked_where _ _ _ _ _ T).
  - exists (if decide (button_side x st = Some n) then restored x si else si). destruct (decide _) as [Es|Es].
    + assert (Button.btimer x = 0) as H0 by (destruct (decide (Button.btimer x = 0)); [done|]; by destruct (Ha j x)).
      rewrite (tk_side _ _ _ _ T n Es), Hsi. split; [done|]. intros w. unfold restored. rewrite H0. apply Ht.
    + by rewrite (tk_sides _ _ _ _ T n Es).
  - intros m y Hm Ey Hy. rewrite (ticked_where _ _ _ _ _ T). destruct (decide (m = j)) as [->|Hmj]; [|by eapply Ha; eauto].
    rewrite (tk_buttons _ _ _ _ T), list_lookup_insert_eq in Ey by (by eapply lookup_lt_Some). injection Ey as <-.
    destruct (next_button_running x Hy) as (H0 & Hl & _). unfold button_side. rewrite Hl. by apply (Ha j x).
Qed.

Lemma ticks_other l k b n tex : Forall (fun j => j < MAXBUTTONS /\ j <> k)%nat l -> forall st, showing k b n tex st ->
  exists st', run_each tick_button l st = Ret st' /\ showing k b n tex st'.
Proof.
  induction 1 as [|j l [Hj Hne] _ IH]; intros st Hs; [by exists st|]. cbn [run_each].
  destruct (tick_other j k b n tex st Hj Hne Hs) as (st1 & -> & H1). cbn [obind]. by apply IH.
Qed.

Lemma tick_self k b n tex st : Button.btimer b <> 0 -> showing k b n tex st ->
  exists st', tick_button k st = Ret st' /\ showing k (next_button b) n (restored_tex b tex) st'.
Proof.
  intros H0 [Hok Hup Hs Hb (si & Hsi & Ht) Ha]. specialize (Hb H0).
  assert (Hk : (k < MAXBUTTONS)%nat) by (rewrite <- (bo_length _ Hok); by eapply lookup_lt_Some).
  destruct (tick_button_run k st Hok Hk) as (x & st' & Ex & E & T). assert (x = b) as -> by congruence. exists st'. split; [done|]. split.
  - by eapply ticked_ok.
  - by eapply ticked_updatable.
  - by rewrite (tk_buttons _ _ _ _ T), list_lookup_insert_eq by (by eapply lookup_lt_Some).
  - intros Hn. destruct (next_button_running b Hn) as (_ & Hl & _). rewrite (ticked_where _ _ _ _ _ T). unfold button_side in *. by rewrite Hl.
  - exists (restored b si). rewrite (tk_side _ _ _ _ T n Hb), Hsi. split; [done|]. intros w. by apply restored_shows.
  - intros m y Hm Ey Hy. rewrite (ticked_where _ _ _ _ _ T). rewrite (tk_buttons _ _ _ _ T), list_lookup_insert_ne in Ey by done. by eapply Ha.
Qed.

Lemma run_each_app {B W} (body : B -> W -> outcome W) l1 l2 : forall w,
  run_each body (l1 ++ l2) w = let* w := run_each body l1 w in run_each body l2 w.
Proof. induction l1 as [|x l1 IH]; intros w; [done|]. cbn [run_each app]. destruct (body x w); cbn [obind]; auto. Qed.

Lemma update_buttons_run k b n tex st : Button.btimer b <> 0 -> showing k b n tex st ->
  exists st', update_buttons st = Ret st' /\ showing k (next_button b) n (restored_tex b tex) st'.
Proof.
  intros H0 Hs. assert (Hk : (k < MAXBUTTONS)%nat) by (rewrite <- (bo_length _ (sh_ok _ _ _ _ _ Hs)); eapply lookup_lt_Some, Hs).
  unfold update_buttons. replace (seq 0 MAXBUTTONS) with (seq 0 k ++ k :: seq (S k) (MAXBUTTONS - S k)).
  2: { change (k :: seq (S k) (MAXBUTTONS - S k)) with (seq (0 + k) (S (MAXBUTTONS - S k))). rewrite <- seq_app. f_equal. lia. }
  destruct (ticks_other (seq 0 k) k b n tex) with (st := st) as (st1 & E1 & H1); [|done|].
  { apply Forall_seq. lia. }
  rewrite run_each_app, E1. cbn [obind run_each]. destruct (tick_self k b n tex st1 H0 H1) as (st2 & -> & H2). cbn [obind].
  apply ticks_other; [|done]. apply Forall_seq. lia.
Qed.

(** ** The rest of a tic *)
Definition same_textures (si si' : Side.side_t) : Prop := forall w, texture_at w si' = texture_at w si.
Record backdrop (st st' : stage) : Prop := {
  bd_buttons : buttonlist st' = buttonlist st;
  bd_lines : lines_of st' = lines_of st;
  bd_sides : Forall2 same_textures (sides_of st) (sides_of st');
  bd_anims : anims st' = anims st;
  bd_scroll : linespeciallist st' = linespeciallist st;
  bd_textures : length (texturetranslation st') = length (texturetranslation st);
  bd_flats : length (flattranslation st') = length (flattranslation st)
}.
#[export] Instance same_textures_pre : PreOrder same_textures.
Proof. split; [done|]. intros x y z H1 H2 w. by rewrite H2, H1. Qed.
#[export] Instance backdrop_pre : PreOrder backdrop.
Proof.
  split; [done|]. intros x y z [] []. split; try congruence. by etransitivity.
Qed.

Lemma backdrop_exists st st' n : backdrop st st' -> is_Some (sides_of st !! n) -> is_Some (sides_of st' !! n).
Proof. intros B [si E]. destruct (Forall2_lookup_l _ _ _ _ _ (bd_sides _ _ B) E) as (si' & -> & _). by eexists. Qed.
Lemma backdrop_updatable st st' : backdrop st st' -> updatable st -> updatable st'.
Proof.
  intros B [H1 H2]. split; rewrite ?(bd_anims _ _ B), ?(bd_scroll _ _ B).
  - eapply Forall_impl; [exact H1|]. intros a (A1 & A2 & A3 & A4). split_and!; try done.
    destruct (Anim.istexture a); [by rewrite (bd_textures _ _ B)|by rewrite (bd_flats _ _ B)].
  - eapply Forall_impl; [exact H2|]. intros l (li & n & L1 & L2 & L3). exists li, n. rewrite (bd_lines _ _ B). split_and!; try done.
    by eapply backdrop_exists.
Qed.
Lemma backdrop_showing k b n tex st st' : backdrop st st' -> showing k b n tex st -> showing k b n tex st'.
Proof.
  intros B [[Hlen Hok] Hup Hs Hb (si & Hsi & Ht) Ha].
  assert (Hw : forall x, button_side x st' = button_side x st) by (intros x; unfold button_side; by rewrite (bd_lines _ _ B)).
  split; try setoid_rewrite Hw; rewrite ?(bd_buttons _ _ B); try done.
  - split; rewrite (bd_buttons _ _ B); [done|]. intros j x Ex Hx. rewrite Hw. destruct (Hok j x Ex Hx) as [Hr (m & Hm & Hms)].
    split; [done|]. exists m. split; [done|]. by eapply backdrop_exists.
  - by eapply backdrop_updatable.
  - destruct (Forall2_lookup_l _ _ _ _ _ (bd_sides _ _ B) Hsi) as (si' & E' & Hst). exists si'. split; [done|]. intros w. by rewrite Hst.
Qed.

Lemma set_run l i v : 0 <= i < Z.of_nat (length l) -> set l i v = Ret (<[Z.to_nat i := v]> l).
Proof.
  intros Hi. unfold set, get. rewrite (proj2 (Z.ltb_ge _ _)) by lia.
  destruct (lookup_lt_is_Some_2 l (Z.to_nat i)) as [x ->]; [lia|]. done.
Qed.

Lemma animate_pics_run a n : forall i st, 0 < Anim.numpics a -> Anim.speed a <> 0 -> 0 <= i ->
  i + Z.of_nat n <= Z.of_nat (length (if Anim.istexture a then texturetranslation st else flattranslation st)) ->
  exists st', animate_pics n i a st = Ret st' /\ backdrop st st'.
Proof.
  induction n as [|n IH]; intros i st Hn Hs Hi Hl; cbn [animate_pics]; [by exists st|].
  rewrite (proj2 (Z.eqb_neq _ 0)), (proj2 (Z.eqb_neq _ 0)) by lia. cbn [orb]. set (pic := i32 _).
  assert (exists st1, (if Anim.istexture a then let* t := set (texturetranslation st) i pic in Ret (st <| texturetranslation := t |>)
           else let* t := set (flattranslation st) i pic in Ret (st <| flattranslation := t |>)) = Ret st1 /\ backdrop st st1) as (st1 & -> & B1).
  { destruct (Anim.istexture a); rewrite set_run by lia; cbn [obind]; eexists; (split; [reflexivity|]); split; try reflexivity; apply length_insert. }
  cbn [obind]. destruct (IH (i + 1) st1) as (st' & -> & B2); [done|done|lia| |exists st'; split; [done|by etransitivity]].
  destruct (Anim.istexture a); [rewrite (bd_textures _ _ B1)|rewrite (bd_flats _ _ B1)]; lia.
Qed.

Lemma animate_all_run l : forall st, Forall (anim_ok st) l -> exists st', run_each animate l st = Ret st' /\ backdrop st st'.
Proof.
  induction l as [|a l IH]; intros st Hl; cbn [run_each]; [by exists st|]. apply Forall_cons in Hl as [(A1 & A2 & A3 & A4) Hl].
  unfold animate at 1. destruct (animate_pics_run a (Z.to_nat (Anim.numpics a)) (Anim.basepic a) st) as (st1 & -> & B1); [done|done|done|lia|].
  cbn [obind]. destruct (IH st1) as (st' & -> & B2); [|exists st'; split; [done|by etransitivity]].
  eapply Forall_impl; [exact Hl|]. intros x (X1 & X2 & X3 & X4). split_and!; try done.
  destruct (Anim.istexture x); [by rewrite (bd_textures _ _ B1)|by rewrite (bd_flats _ _ B1)].
Qed.

Lemma scroll_all_run l : forall st, Forall (scroll_ok st) l -> exists st', run_each scroll_line l st = Ret st' /\ backdrop st st'.
Proof.
  induction l as [|line l IH]; intros st Hl; cbn [run_each]; [by exists st|]. apply Forall_cons in Hl as [(li & n & L1 & L2 & si & L3) Hl].
  assert (exists st1, scroll_line line st = Ret st1 /\ backdrop st st1) as (st1 & -> & B1).
  { unfold scroll_line. change (lines (gm (wd st))) with (lines_of st). rewrite L1. cbn [of_option obind].
    destruct (_ =? 48); [|by exists st]. rewrite (proj2 (front_side_iff li _ n si)) by done. cbn [obind]. eexists. split; [reflexivity|].
    split; try done. unfold sides_of. cbn. rewrite <- (list_insert_id (sides (gm (wd st))) n si) at 1 by done.
    apply Forall2_insert; [reflexivity|]. by intros []. }
  cbn [obind]. destruct (IH st1) as (st' & -> & B2); [|exists st'; split; [done|by etransitivity]].
  eapply Forall_impl; [exact Hl|]. intros x (xi & m & X1 & X2 & X3). exists xi, m. rewrite (bd_lines _ _ B1). split_and!; try done.
  by eapply backdrop_exists.
Qed.

Lemma level_timer_backdrop st : backdrop st (level_timer st).
Proof. unfold level_timer. destruct (levelTimer st); [|reflexivity]. destruct (negb _); split; reflexivity. Qed.

Lemma P_UpdateSpecials_run k b n tex st : Button.btimer b <> 0 -> showing k b n tex st ->
  exists st', P_UpdateSpecials st = Ret st' /\ showing k (next_button b) n (restored_tex b tex) st'.
Proof.
  intros H0 Hs. unfold P_UpdateSpecials. pose proof (backdrop_showing _ _ _ _ _ _ (level_timer_backdrop st) Hs) as H1.
  set (st1 := level_timer st) in *. destruct (animate_all_run (anims st1) st1) as (st2 & -> & B2); [apply H1|]. cbn [obind].
  pose proof (backdrop_showing _ _ _ _ _ _ B2 H1) as H2.
  destruct (scroll_all_run (linespeciallist st2) st2) as (st3 & -> & B3); [apply H2|]. cbn [obind].
  apply update_buttons_run; [done|]. by eapply backdrop_showing.
Qed.

(** ** Pressing a button *)

(** The list of switches has short numbers, in pairs. *)
Record switches_ok (st : stage) : Prop := {
  so_count : 0 <= numswitches st /\ numswitches st * 2 <= Z.of_nat (length (switchlist st));
  so_short i t : (Z.of_nat i < numswitches st * 2) -> switchlist st !! i = Some t -> 0 <= t < 32768
}.
Definition shows (n : nat) (tex : bwhere_e -> Z) (st : stage) : Prop :=
  exists si, sides_of st !! n = Some si /\ forall w, texture_at w si = tex w.
Fixpoint tics (m : nat) (st : stage) : outcome stage :=
  match m with O => Ret st | S m => let* st := P_UpdateSpecials st in tics m st end.
Definition switch_of (si : Side.side_t) (st : stage) : outcome (option (Z * bwhere_e)) :=
  find_switch (Z.to_nat (numswitches st * 2)) 0 si (switchlist st).

Lemma get_inv l i t : get l i = Ret t -> 0 <= i /\ l !! Z.to_nat i = Some t.
Proof. unfold get. destruct (Z.ltb_spec i 0); [done|]. destruct (l !! Z.to_nat i); [|done]. intros [= <-]. done. Qed.

Lemma find_switch_spec si sw n : forall i j w, find_switch n i si sw = Ret (Some (j, w)) ->
  i <= j < i + Z.of_nat n /\ sw !! Z.to_nat j = Some (texture_at w si).
Proof.
  induction n as [|n IH]; intros i j w; cbn [find_switch]; [done|].
  destruct (get sw i) as [t| | |] eqn:Eg; cbn [obind]; try done. apply get_inv in Eg as [Hi Eg].
  repeat (case_match; breflect; [intros [= <- <-]; cbn; split; [lia|congruence]|]). intros E. apply IH in E as [? ?]. split; [lia|done].
Qed.

Lemma partner_range i n : 0 <= i < n * 2 -> 0 <= Z.lxor i 1 < n * 2.
Proof.
  intros Hi. assert (Z.lxor i 1 / 2 = i / 2) as E.
  { rewrite <- !(Z.shiftr_div_pow2 _ 1) by lia. rewrite Z.shiftr_lxor. apply Z.lxor_0_r. }
  zlia.
Qed.

Lemma tics_add a b st : tics (a + b) st = let* st := tics a st in tics b st.
Proof. revert st. induction a as [|a IH]; intros st; [done|]. cbn [tics Nat.add]. destruct (P_UpdateSpecials st); cbn [obind]; auto. Qed.

Definition with_timer (t : Z) (b : Button.button_t) : Button.button_t := b <| Button.btimer := t |>.

Lemma hold_run k b n tex m : forall t st, Z.of_nat m < t -> showing k (with_timer t b) n tex st ->
  exists st', tics m st = Ret st' /\ showing k (with_timer (t - Z.of_nat m) b) n tex st'.
Proof.
  induction m as [|m IH]; intros t st Ht Hs; cbn [tics].
  - exists st. by replace (t - Z.of_nat 0) with t by lia.
  - destruct (P_UpdateSpecials_run k (with_timer t b) n tex st) as (st1 & -> & H1); [cbn; lia|done|]. cbn [obind].
    destruct (IH (t - 1) st1) as (st' & -> & H2); [lia| |exists st'; split; [done|by replace (t - Z.of_nat (S m)) with (t - 1 - Z.of_nat m) by lia]].
    revert H1. unfold next_button, restored_tex. cbn [with_timer Button.btimer update].
    change (Button.btimer (with_timer t b)) with t. rewrite (proj2 (Z.eqb_neq t 0)), (proj2 (Z.eqb_neq t 1)) by lia. done.
Qed.

Lemma first_button_run l k : first_button l = Some k -> exists b, l !! k = Some b /\ Button.btimer b = 0.
Proof.
  revert k. induction l as [|b l IH]; intros k; cbn; [done|]. unfold truth. destruct (_ =? 0) eqn:E; cbn; breflect; [intros [= <-]; by exists b|].
  destruct (first_button l) as [j|]; [|done]. intros [= <-]. by apply IH.
Qed.

(** The state after the button was pressed. *)
Lemma press_run line li n si i w k st : buttons_ok st -> updatable st -> switches_ok st -> lines_of st !! line = Some li ->
  front_no li = Some n -> sides_of st !! n = Some si -> is_Some (Line.frontsector li) -> switch_of si st = Ret (Some (i, w)) ->
  (forall j x, buttonlist st !! j = Some x -> Button.btimer x <> 0 -> button_side x st <> Some n) -> first_button (buttonlist st) = Some k ->
  exists st1 t b, P_ChangeSwitchTexture line 1 st = Ret st1 /\ switchlist st !! Z.to_nat (Z.lxor i 1) = Some t /\
    Button.where_ b = w /\ Button.btexture b = texture_at w si /\
    showing k (with_timer BUTTONTIME b) n (fun v => if bool_decide (v = w) then t else texture_at v si) st1.
Proof.
  intros Hok Hup Hsw Hli Hn Hsi [f Hf] Hfs Hq Hk. destruct (find_switch_spec _ _ _ _ _ _ Hfs) as [Hi Ei].
  destruct (so_count _ Hsw) as [Hc1 Hc2]. assert (Hp : 0 <= Z.lxor i 1 < numswitches st * 2) by (apply partner_range; lia).
  destruct (lookup_lt_is_Some_2 (switchlist st) (Z.to_nat (Z.lxor i 1))) as [t Et]; [lia|].
  assert (Hpress : existsb (pressed line) (buttonlist st) = false).
  { apply not_true_is_false. intros (x & Hx & Hp')%existsb_exists. apply list_elem_of_In, list_elem_of_lookup in Hx as [j Hj].
    unfold pressed, truth in Hp'. apply andb_true_iff in Hp' as [H0%negb_true_iff%Z.eqb_neq Hl%bool_decide_eq_true]. apply (Hq j x Hj H0). unfold button_side. rewrite Hl. cbn. by rewrite Hli. }
  destruct (first_button_run _ _ Hk) as (b0 & Eb0 & Hb0). set (b := Button.mk (Some line) w (texture_at w si) BUTTONTIME (Some f)).
  set (si' := set_texture w t si). unfold P_ChangeSwitchTexture. cbn [truth Z.eqb negb].
  change (lines (gm (wd st))) with (lines_of st). rewrite Hli. cbn [of_option obind]. rewrite (proj2 (front_side_iff li _ n si)) by done. cbn [obind].
  unfold switch_of in Hfs. rewrite Hfs. cbn [obind]. set (st0 := stage_sound _ _ st). change (switchlist st0) with (switchlist st).
  unfold get at 1. rewrite (proj2 (Z.ltb_ge _ 0)), Et by lia. cbn [of_option obind].
  set (st1 := put_side n _ st0). change (switchlist st1) with (switchlist st). unfold get. rewrite (proj2 (Z.ltb_ge _ 0)), Ei by lia. cbn [of_option obind].
  unfold P_StartButton. change (buttonlist st1) with (buttonlist st). rewrite Hpress, Hk. change (lines (gm (wd st1))) with (lines_of st). rewrite Hli.
  cbn [of_option obind]. rewrite Hf. cbn [of_option obind]. eexists _, t, b. split; [reflexivity|]. split_and!; try done.
  set (st2 := st1 <| buttonlist ::= _ |>). change (with_timer BUTTONTIME b) with b.
  assert (Hs2 : sides_of st2 = <[n := si']> (sides_of st)) by done.
  assert (Hex : forall m, is_Some (sides_of st !! m) -> is_Some (sides_of st2 !! m)).
  { intros m Hm. rewrite Hs2. apply lookup_lt_is_Some_2. rewrite length_insert. by apply lookup_lt_is_Some_1. }
  assert (Hb : button_side b st = Some n) by (unfold button_side; cbn; by rewrite Hli).
  assert (Hcase : forall j x, buttonlist st2 !! j = Some x -> j = k /\ x = b \/ j <> k /\ buttonlist st !! j = Some x).
  { intros j x. change (buttonlist st2) with (<[k := b]> (buttonlist st)). destruct (decide (k = j)) as [<-|Hne].
    - rewrite list_lookup_insert_eq by (by eapply lookup_lt_Some). intros [= <-]. by left.
    - rewrite list_lookup_insert_ne by done. intros ?. right. by split. }
  split.
  - split; [change (buttonlist st2) with (<[k := b]> (buttonlist st)); rewrite length_insert; apply Hok|].
    intros j x Hx H0. change (button_side x st2) with (button_side x st). destruct (Hcase j x Hx) as [[-> ->]|[_ Hx']].
    + split; [cbn; unfold BUTTONTIME, INT_MAX; lia|]. exists n. split; [done|]. by apply Hex.
    + destruct (bo_running _ Hok j x Hx' H0) as [Hr (m & Hm & Hms)]. split; [done|]. exists m. split; [done|by apply Hex].
  - destruct Hup as [H1 H2]. split; [exact H1|]. eapply Forall_impl; [exact H2|]. intros l (xi & m & X1 & X2 & X3). exists xi, m.
    split_and!; [exact X1|done|by apply Hex].
  - change (buttonlist st2) with (<[k := b]> (buttonlist st)). by rewrite list_lookup_insert_eq by (by eapply lookup_lt_Some).
  - intros _. exact Hb.
  - exists si'. rewrite Hs2, list_lookup_insert_eq by (by eapply lookup_lt_Some). split; [done|].
    assert (Ht : i16 t = t) by (assert (0 <= t < 32768) by (eapply so_short; [done| |done]; lia); apply wraps_id; [lia|in_range]).
    intros v. unfold si'. rewrite <- Ht at 2. by destruct w, v.
  - intros j x Hj Hx H0. destruct (Hcase j x Hx) as [[-> _]|[_ Hx']]; [done|]. by apply (Hq j).
Qed.

(** ** The claims *)

(** C37: a button that is pressed shows the other texture of its pair for
    the next [BUTTONTIME] - 1 tics and its own again from then on, and its
    slot is free again, while other buttons run, animations go on, walls
    scroll and the timer of the level counts. *)
Theorem button_cycle line li n si i w k st : buttons_ok st -> updatable st -> switches_ok st -> lines_of st !! line = Some li ->
  front_no li = Some n -> sides_of st !! n = Some si -> is_Some (Line.frontsector li) -> switch_of si st = Ret (Some (i, w)) ->
  (forall j x, buttonlist st !! j = Some x -> Button.btimer x <> 0 -> button_side x st <> Some n) -> first_button (buttonlist st) = Some k ->
  exists st1 t, P_ChangeSwitchTexture line 1 st = Ret st1 /\ switchlist st !! Z.to_nat (Z.lxor i 1) = Some t /\
    (forall m, (m < 35)%nat -> exists st2, tics m st1 = Ret st2 /\ shows n (fun v => if bool_decide (v = w) then t else texture_at v si) st2) /\
    exists st2, tics 35 st1 = Ret st2 /\ shows n (fun v => texture_at v si) st2 /\ buttonlist st2 !! k = Some Button.zero.
Proof.
  intros Hok Hup Hsw Hli Hn Hsi Hf Hfs Hq Hk.
  destruct (press_run line li n si i w k st Hok Hup Hsw Hli Hn Hsi Hf Hfs Hq Hk) as (st1 & t & b & E1 & Et & Hw & Hb & Hs).
  exists st1, t. split; [done|]. split; [done|]. split.
  - intros m Hm. destruct (fun H => hold_run k b n _ m BUTTONTIME st1 H Hs) as (st2 & E2 & H2); [unfold BUTTONTIME; lia|]. exists st2. split; [done|apply H2].
  - destruct (fun H => hold_run k b n _ 34 BUTTONTIME st1 H Hs) as (st2 & E2 & H2); [unfold BUTTONTIME; lia|]. change (BUTTONTIME - Z.of_nat 34) with 1 in H2.
    assert (Button.btimer (with_timer 1 b) <> 0) as Hnz by (cbn; lia). destruct (P_UpdateSpecials_run _ _ _ _ _ Hnz H2) as (st3 & E3 & H3). exists st3.
    change 35%nat with (34 + 1)%nat. rewrite tics_add, E2. cbn [obind tics]. rewrite E3. cbn [obind]. split; [done|]. split; [|apply H3].
    destruct (sh_shown _ _ _ _ _ H3) as (x & Hx & Hxt). exists x. split; [done|]. intros v. rewrite Hxt. unfold restored_tex.
    change (Button.btimer (with_timer 1 b) =? 1) with true. change (Button.where_ (with_timer 1 b)) with (Button.where_ b).
    change (Button.btexture (with_timer 1 b)) with (Button.btexture b). rewrite Hw, Hb. cbn [andb]. case_bool_decide as Ev; [|done]. subst v.
    destruct (find_switch_spec _ _ _ _ _ _ Hfs) as [Hi Ei]. assert (0 <= texture_at w si < 32768) by (eapply so_short; [done| |done]; lia).
    apply wraps_id; [lia|in_range].
Qed.

(** ** The list of switches *)
Section init.
Context {names : TextureNames} (num : string -> Z).

Definition pair_of (episode : Z) (s : string * string * Z) : list Z :=
  let '(name1, name2, ep) := s in if ep <=? episode then [num name1; num name2] else [].
Definition known (s : string * string * Z) : Prop :=
  let '(name1, name2, ep) := s in
  R_TextureNumForName name1 = Ret (num name1) /\ R_TextureNumForName name2 = Ret (num name2) /\
  0 <= num name1 < 32768 /\ 0 <= num name2 < 32768 /\ ep <> 0.

Lemma set_app (l : list Z) x r v : set (l ++ x :: r) (Z.of_nat (length l)) v = Ret (l ++ v :: r).
Proof.
  rewrite set_run by (rewrite length_app; cbn; lia). f_equal. rewrite Nat2Z.id, insert_app_r_alt, Nat.sub_diag by lia. done.
Qed.

Lemma init_switches_run episode body a b rest : Forall known body -> forall n l index st,
  (length body < n)%nat -> index = Z.of_nat (length l) -> (2 * length body < length (drop (length l) (switchlist st)))%nat ->
  take (length l) (switchlist st) = l ->
  exists st', init_switches n (body ++ (a, b, 0) :: rest) index episode st = Ret st' /\
    numswitches st' = Z.of_nat (length (l ++ mjoin (pair_of episode <$> body))) ÷ 2 /\
    exists r, switchlist st' = (l ++ mjoin (pair_of episode <$> body)) ++ -1 :: r.
Proof.
  induction 1 as [|[[n1 n2] ep] body (K1 & K2 & _ & _ & K5) Hb IH]; intros n l index st Hn -> Hr Ht.
  - destruct n as [|n]; [lia|]. cbn [app init_switches]. cbn [truth Z.eqb negb]. cbn in Hr.
    destruct (drop (length l) (switchlist st)) as [|x r] eqn:Ed; [cbn in Hr; lia|].
    assert (Es : switchlist st = l ++ x :: r) by (rewrite <- Ht at 1; rewrite <- Ed; symmetry; apply take_drop).
    rewrite Es, set_app. cbn [obind fmap list_fmap mjoin list_join]. rewrite app_nil_r. eexists. split; [reflexivity|]. split; [done|]. by exists r.
  - destruct n as [|n]; [lia|]. cbn [app init_switches length] in *. unfold truth. rewrite (proj2 (Z.eqb_neq ep 0)) by done. cbn [negb].
    cbn [fmap list_fmap mjoin list_join pair_of]. destruct (ep <=? episode) eqn:Ep; [|apply IH; [lia|done|lia|done]].
    rewrite K1. cbn [obind]. destruct (drop (length l) (switchlist st)) as [|x [|y r]] eqn:Ed; [cbn in Hr; lia|cbn in Hr; lia|].
    assert (Es : switchlist st = l ++ x :: y :: r) by (rewrite <- Ht at 1; rewrite <- Ed; symmetry; apply take_drop).
    rewrite Es, set_app. cbn [obind]. rewrite K2. cbn [obind].
    replace (l ++ num n1 :: y :: r) with ((l ++ [num n1]) ++ y :: r) by (by rewrite <- app_assoc).
    replace (Z.of_nat (length l) + 1) with (Z.of_nat (length (l ++ [num n1]))) by (rewrite length_app; cbn; lia).
    rewrite set_app. cbn [obind]. set (l' := l ++ [num n1; num n2]).
    assert (El : (l ++ [num n1]) ++ num n2 :: r = l' ++ r) by (unfold l'; by rewrite <- !app_assoc).
    rewrite El. set (st1 := st <| switchlist := _ |>).
    destruct (IH n l' (Z.of_nat (length l) + 2) st1) as (st' & E & Hnum & r' & Hs).
    + lia.
    + unfold l'. rewrite length_app. cbn. lia.
    + change (switchlist st1) with (l' ++ r). rewrite drop_app_length. cbn in Hr. lia.
    + change (switchlist st1) with (l' ++ r). apply take_app_length.
    + exists st'. unfold l' in Hnum, Hs. rewrite <- (app_assoc l [num n1; num n2] (mjoin _)) in Hnum, Hs. split; [done|]. split; [done|]. by exists r'.
Qed.

Definition episode_of (mode : gamemode_t) : Z := match mode with registered | retail => 2 | commercial => 3 | _ => 1 end.
Definition switches : list (string * string * Z) := take 40 alphSwitchList.

(** when the WAD has the textures of all switches, the list of switches
    gets the pairs of the edition of the game in their order, an end mark
    behind them, and fits into its array; it is then as the buttons need it. *)
Theorem P_InitSwitchList_correct mode st : length (switchlist st) = (MAXSWITCHES * 2)%nat -> Forall known switches ->
  let pairs := mjoin (pair_of (episode_of mode) <$> switches) in
  exists st', P_InitSwitchList mode st = Ret st' /\ switches_ok st' /\
    numswitches st' = match mode with registered | retail => 29 | commercial => 40 | _ => 19 end /\
    take (length pairs) (switchlist st') = pairs /\ switchlist st' !! length pairs = Some (-1).
Proof.
  intros Hlen Hk pairs. assert (Hp : length pairs = match mode with registered | retail => 58 | commercial => 80 | _ => 38 end%nat) by (unfold pairs; destruct mode; vm_compute; reflexivity).
  unfold P_InitSwitchList. fold (episode_of mode). change alphSwitchList with (switches ++ [(EmptyString, EmptyString, 0)]).
  destruct (init_switches_run (episode_of mode) switches EmptyString EmptyString [] Hk MAXSWITCHES [] 0 st) as (st' & -> & Hn & r & Hs);
    [cbn; unfold MAXSWITCHES; lia|done|rewrite length_drop, Hlen; cbn; unfold MAXSWITCHES; lia|done|].
  cbn [app] in Hn, Hs. fold pairs in Hn, Hs. exists st'. split; [done|].
  assert (Hn' : numswitches st' = match mode with registered | retail => 29 | commercial => 40 | _ => 19 end) by (rewrite Hn, Hp; by destruct mode).
  rewrite Hs. split_and!.
  - split; rewrite Hn', Hs.
    + rewrite length_app, Hp. cbn [length]. destruct mode; lia.
    + intros i t Hi Ht. rewrite lookup_app_l in Ht by (rewrite Hp; destruct mode; lia).
      apply list_elem_of_lookup_2, list_elem_of_join in Ht as (l & Hin & Hl).
      apply list_elem_of_fmap in Hl as ([[a b] ep] & -> & Hx). rewrite Forall_forall in Hk. destruct (Hk _ Hx) as (_ & _ & K3 & K4 & _).
      cbn [pair_of] in Hin. destruct (ep <=? _); [|by apply elem_of_nil in Hin].
      apply elem_of_cons in Hin as [->|Hin]; [done|]. apply list_elem_of_singleton in Hin as ->. done.
  - done.
  - apply take_app_length.
  - rewrite lookup_app_r, Nat.sub_diag by done. done.
Qed.
End init.

(** A line with the special 11 that is used loses it before the sound is
    chosen: the sound of an exit switch is never started. *)
Theorem exit_sound line st st' : P_ChangeSwitchTexture line 0 st = Ret st' ->
  sounds (wd st') = sounds (wd st) \/ exists o, sounds (wd st') = (o, sfx_swtchn) :: sounds (wd st).
Proof.
  unfold P_ChangeSwitchTexture. cbn [truth Z.eqb negb]. set (st1 := clear_special_line line st). intros E.
  destruct (lines (gm (wd st1)) !! line) as [li|] eqn:Eli; [|done]. cbn [of_option obind] in E.
  assert (Hz : Line.special li = 0).
  { change (lines (gm (wd st1))) with (alter (fun li => li <| Line.special := 0 |>) line (lines_of st)) in Eli.
    rewrite list_lookup_alter_eq in Eli. destruct (lines_of st !! line); [|done]. by injection Eli as <-. }
  rewrite Hz in E. cbn [Z.eqb] in E. destruct (front_side li (gm (wd st1))) as [[n si]| | |]; try done. cbn [obind] in E.
  destruct (find_switch _ _ _ _) as [[[i w]|]| | |]; cbn [obind] in E; try done; [|injection E as <-; by left].
  destruct (get _ _); cbn [obind] in E; try done. injection E as <-. right. by eexists.
Qed.

(** ** Witnesses: a button on the middle texture of the only line *)
Section witness.
Definition one_line : Line.line_t := Line.mk 0 63 3 [0] (Some 0%nat) None.
Definition one_side : Side.side_t := Side.mk 0 0 0 0 6 0.
Definition one_game : game := mk_game 0 1 1 10 [] [] [] [one_line] [one_side] [] [] [].
Definition flow : Anim.anim_t := Anim.mk true 3 1 3 8.
Definition one_stage : stage :=
  mk_stage (mk_world one_game (mk_rnd 0 0) []) [5; 6; -1] 1 (replicate MAXBUTTONS Button.zero) true 20 [0%nat] 0 [flow] [0; 1; 2; 3] []
    ga_nothing false.

Lemma button_cycle_witness : exists st1 st2, P_ChangeSwitchTexture 0 1 one_stage = Ret st1 /\
  shows 0 (fun v => if bool_decide (v = middle) then 5 else 0) st1 /\ tics 35 st1 = Ret st2 /\ shows 0 (fun v => texture_at v one_side) st2.
Proof.
  destruct (button_cycle 0 one_line 0 one_side 1 middle 0 one_stage) as (st1 & t & E1 & Et & Hh & st2 & E2 & Hs2 & _).
  - split; [reflexivity|]. intros j b Hj H0. apply lookup_replicate in Hj as [-> _]. done.
  - split; (apply Forall_cons; split; [|constructor]); [by vm_compute|]. exists one_line, 0%nat. split_and!; try reflexivity. by exists one_side.
  - split; [vm_compute; split; discriminate|]. intros [|[|i]] x Hi E; [injection E as <-; lia|injection E as <-; lia|cbn in Hi; lia].
  - reflexivity.
  - reflexivity.
  - reflexivity.
  - by exists 0%nat.
  - reflexivity.
  - intros j b Hj H0. apply lookup_replicate in Hj as [-> _]. done.
  - reflexivity.
  - exists st1, st2. split_and!; try done. destruct (Hh 0%nat) as (st & E & Hs); [lia|]. injection E as <-. injection Et as <-.
    destruct Hs as (si & E & Hv). exists si. split; [done|]. intros v. rewrite Hv. by destruct v.
Defined.

#[local] Instance by_length : TextureNames := fun s => Ret (Z.of_nat (String.length s)).
Lemma P_InitSwitchList_correct_witness : exists st', P_InitSwitchList commercial (one_stage <| switchlist := replicate 100 0 |>) = Ret st' /\
  switches_ok st' /\ numswitches st' = 40.
Proof.
  destruct (P_InitSwitchList_correct (fun s => Z.of_nat (String.length s)) commercial (one_stage <| switchlist := replicate 100 0 |>))
    as (st' & E & Hok & Hn & _).
  - reflexivity.
  - repeat (apply Forall_cons; split; [vm_compute; split_and!; first [reflexivity|discriminate]|]). constructor.
  - exists st'. by split_and!.
Defined.
End witness.
