(* ===== verification/LineSafety.v ===== *)
(** * What lines start is safe

    Whatever the heights and textures of a level are, starting movers in its
    sectors leaves it well formed: [level_wf] says that every live mover owns its
    sector and that no pointer to a mover dangles. *)
From S2P Require Import Prelude MFixed MRandom GameTypes Thinkers SectorSearch MovePlane Frame Plats PlatTheorems Doors DoorTheorems.
From S2P Require Import Ceilings CeilingTheorems Floors FloorTheorems Lights LightTheorems Ticker TickerTheorems MoverSafety LevelSteps.
From S2P Require Import ManualDoorTheorems Switches SwitchTheorems.
#[local] Open Scope doom_scope.

(** ** What the movers of a level leave alone *)
Record same_map (w w' : world) : Prop := {
  sm_lines : lines (gm w') = lines (gm w);
  sm_sides : sides (gm w') = sides (gm w);
  sm_length : length (sectors (gm w')) = length (sectors (gm w));
  sm_walls k sec' : sectors (gm w') !! k = Some sec' -> exists sec, sectors (gm w) !! k = Some sec /\ Sector.lines sec' = Sector.lines sec /\
    Sector.tag sec' = Sector.tag sec;
  sm_people : people_ok (gm w) -> people_ok (gm w')
}.
#[export] Instance same_map_pre : PreOrder same_map.
Proof.
  split; [split; eauto; done|]. intros w1 w2 w3 [A1 A2 A4 A5 A6] [B1 B2 B4 B5 B6]. split; try congruence.
  - intros k sec3 E3. destruct (B5 k sec3 E3) as (sec2 & E2 & L2 & T2). destruct (A5 k sec2 E2) as (sec1 & E1 & L1 & T1). exists sec1. split_and!; congruence.
  - auto.
Qed.

Lemma people_same g g' : players g' = players g -> (forall a m, thing_at a g' = Some (TMobj m) -> thing_at a g = Some (TMobj m)) ->
  people_ok g -> people_ok g'.
Proof. intros Ep Ht Hok a m i Ha Hi. rewrite Ep. by eapply Hok; [apply Ht|]. Qed.

Definition same_decor (sec sec' : Sector.doomsector_t) : Prop :=
  Sector.lines sec' = Sector.lines sec /\ Sector.specialdata sec' = Sector.specialdata sec /\ Sector.tag sec' = Sector.tag sec /\
  Sector.floorheight sec' = Sector.floorheight sec /\ Sector.ceilingheight sec' = Sector.ceilingheight sec /\
  (dim_ok (Sector.lightlevel sec) -> dim_ok (Sector.lightlevel sec')).
#[export] Instance same_decor_pre : PreOrder same_decor.
Proof. split; [done|]. intros x y z (H1 & H2 & H3 & H4 & H5 & H6) (K1 & K2 & K3 & K4 & K5 & K6). split_and!; try congruence. auto. Qed.

Section decor.
Context {A : Arch} {im : Image} {V : thing -> Sector.doomsector_t -> Prop} {course : Course V}.
Implicit Types (w : world).

(** Pictures, specials and lights of sectors are changed. *)
Lemma decor_inv w w' : level_on V w -> thinkers (gm w') = thinkers (gm w) -> lines (gm w') = lines (gm w) ->
  activeplats (gm w') = activeplats (gm w) -> activeceilings (gm w') = activeceilings (gm w) ->
  Forall2 same_decor (sectors (gm w)) (sectors (gm w')) -> level_on V w'.
Proof.
  intros Hi Et El Ep Ec Hs.
  assert (Hth : forall a, thing_at a (gm w') = thing_at a (gm w)) by (intros a; unfold thing_at; by rewrite Et).
  assert (Hfw : forall k sec, sectors (gm w) !! k = Some sec -> exists sec', sectors (gm w') !! k = Some sec' /\ same_decor sec sec')
    by (intros k sec E; by apply (Forall2_lookup_l _ _ _ _ _ Hs)).
  assert (Hbw : forall k sec', sectors (gm w') !! k = Some sec' -> exists sec, sectors (gm w) !! k = Some sec /\ same_decor sec sec')
    by (intros k sec E; by apply (Forall2_lookup_r _ _ _ _ _ Hs)).
  assert (Hsl : forall b l, slots_ok b l (gm w) -> slots_ok b l (gm w'))
    by (intros b l [Hn Hk]; split; [done|]; intros p; rewrite Hth; apply Hk).
  split.
  - destruct (li_addrs _ Hi). unfold addrs_ok, addresses. by rewrite Et.
  - destruct (li_level _ Hi) as [L1 L2]. split; rewrite El.
    + intros k sec' E. destruct (Hbw k sec' E) as (sec & E1 & D1 & _). rewrite D1. by eapply L1.
    + intros l li o Eo Ho. destruct (L2 l li o Eo Ho) as [sec E]. destruct (Hfw o sec E) as (sec' & E' & _). by exists sec'.
  - intros a m. rewrite Hth. apply (li_actors _ Hi a m).
  - apply Forall_lookup. intros k sec' E. destruct (Hbw k sec' E) as (sec & E1 & _ & _ & _ & _ & _ & D). apply D.
    exact (proj1 (Forall_lookup _ _) (li_light _ Hi) k sec E1).
  - intros a th. rewrite Hth. intros Ha Hal Hm. destruct (li_movers _ Hi a th Ha Hal Hm) as (s & sec & O1 & O2 & O3 & O4 & O5).
    destruct (Hfw s sec O2) as (sec' & E' & _ & D2 & _ & D3 & D4 & _). exists s, sec'. split_and!; try done; [congruence|by eapply course_same].
  - intros a p. rewrite Hth, Ep. apply (li_plats _ Hi).
  - intros a th. rewrite Hth. intros Ha Hal Hl. destruct (li_lights _ Hi a th Ha Hal Hl) as (s & sec & lo & hi & O1 & O2 & O3).
    destruct (Hfw s sec O2) as (sec' & E' & _). by exists s, sec', lo, hi.
  - intros s sec' E Hz. destruct (Hbw s sec' E) as (sec & E1 & _ & D2 & _). rewrite D2 in *. setoid_rewrite Hth. by apply (li_owner _ Hi s sec).
  - rewrite Ep. apply Hsl, Hi.
  - rewrite Ec. apply Hsl, Hi.
Qed.

Lemma decor_map w w' : thinkers (gm w') = thinkers (gm w) -> lines (gm w') = lines (gm w) -> sides (gm w') = sides (gm w) ->
  players (gm w') = players (gm w) -> Forall2 same_decor (sectors (gm w)) (sectors (gm w')) -> same_map w w'.
Proof.
  intros Et El Es Ep Hs. split; try done.
  - symmetry. by eapply Forall2_length.
  - intros k sec' E. destruct (Forall2_lookup_r _ _ _ _ _ Hs E) as (sec & E1 & D & _ & D' & _). by exists sec.
  - apply people_same; [done|]. intros a m. unfold thing_at. by rewrite Et.
Qed.

Lemma decor_insert (l : list Sector.doomsector_t) s sec sec' : l !! s = Some sec -> same_decor sec sec' -> Forall2 same_decor l (<[s := sec']> l).
Proof. intros E D. rewrite <- (list_insert_id l s sec) at 1 by done. apply Forall2_insert; [reflexivity|done]. Qed.
End decor.

Section starts.
Context {A : Arch} {im : Image} {il : ImageLaws} {C : Crush} {H : Heap} {hlaws : HeapLaws}.
Implicit Types (w : world).

(** A level that is well formed, on the map of [w0]. *)
Definition wf_on (w0 w : world) : Prop := level_wf w /\ same_map w0 w.
Lemma wf_trans w0 w w' : wf_on w0 w -> wf_on w w' -> wf_on w0 w'.
Proof. intros [_ H1] [H2 H3]. split; [done|by transitivity w]. Qed.

(** A new mover [th] at [self] in sector [s], which gets to be [sec']. *)
Lemma start_wf self s th raw sec sec' w w' : level_wf w -> sectors (gm w) !! s = Some sec -> Sector.specialdata sec = 0 ->
  self <> 0 -> self ∉ addresses (gm w) -> thinkers (gm w') = thinkers (put_thing self th (P_AddThinker self raw (gm w))) ->
  sectors (gm w') = <[s := sec']> (sectors (gm w)) -> same_decor (sec <| Sector.specialdata := self |>) sec' ->
  lines (gm w') = lines (gm w) -> sides (gm w') = sides (gm w) -> players (gm w') = players (gm w) ->
  mover_sector th = Some (Z.of_nat s) -> thing_function th = fn_addr (thing_action th) ->
  slot_taken self (activeplats (gm w)) (activeplats (gm w')) -> slot_taken self (activeceilings (gm w)) (activeceilings (gm w')) ->
  (activeplats (gm w') <> activeplats (gm w) -> thing_action th = GameTypes.T_PlatRaise) ->
  (activeceilings (gm w') <> activeceilings (gm w) -> thing_action th = GameTypes.T_MoveCeiling) ->
  (thing_action th = GameTypes.T_PlatRaise -> self ∈ activeplats (gm w')) -> wf_on w w'.
Proof.
  intros Hi Hsec Hz Hnz Hfr Et Es Hd El Esd Epl Hms Hfn Hp Hc Hp' Hc' Hin. set (sec1 := sec <| Sector.specialdata := self |>) in *.
  set (w1 := w' <| gm ::= fun g => g <| sectors := <[s := sec1]> (sectors (gm w)) |> |>).
  assert (Hst : starts self s th sec w w1) by (by eapply starts_intro).
  assert (Hi1 : level_wf w1) by (by eapply (start_inv self s th sec w w1)).
  assert (Hd1 : Forall2 same_decor (sectors (gm w1)) (sectors (gm w'))).
  { rewrite Es. change (sectors (gm w1)) with (<[s := sec1]> (sectors (gm w))). rewrite <- (list_insert_insert_eq (sectors (gm w)) s sec' sec1).
    apply (decor_insert _ s sec1); [by rewrite list_lookup_insert_eq by (by eapply lookup_lt_Some)|done]. }
  split; [by eapply (decor_inv w1)|]. transitivity w1; [|by apply decor_map]. split; try done.
  - change (sectors (gm w1)) with (<[s := sec1]> (sectors (gm w))). apply length_insert.
  - intros k x Ex. change (sectors (gm w1)) with (<[s := sec1]> (sectors (gm w))) in Ex. apply lookup_one in Ex as [[-> ->]|[_ Ex]]; [by exists sec|by exists x].
  - apply people_same; [done|]. intros a m. rewrite (st_things _ _ _ _ _ _ Hst). destruct (a =? self); [|done]. by intros [= ->].
Qed.

(** ** The loop over the sectors with a tag *)
Lemma find_tag_spec tag l i : find_tag tag l i = -1 \/
  exists k sec, find_tag tag l i = i + Z.of_nat k /\ l !! k = Some sec /\ Sector.tag sec = tag.
Proof.
  revert i. induction l as [|sec l IH]; intros i; cbn [find_tag]; [by left|]. destruct (_ =? tag) eqn:E; breflect.
  - right. exists 0%nat, sec. split_and!; [lia|done|done].
  - destruct (IH (i + 1)) as [->|(k & x & -> & Hx & Ht)]; [by left|right]. exists (S k), x. split_and!; [lia|done|done].
Qed.

Lemma for_tagged_safe {W} (game_of : W -> game) tag (body : nat -> W -> outcome W) (I : W -> Prop) n :
  (forall x : W, I x -> length (sectors (game_of x)) = n) ->
  (forall s sec (x : W), I x -> sectors (game_of x) !! s = Some sec -> Sector.tag sec = tag -> safe (body s x) I) ->
  forall fuel secnum (x : W), I x -> -1 <= secnum < Z.of_nat n -> Z.of_nat n - secnum <= Z.of_nat fuel ->
  safe (for_tagged game_of fuel tag secnum body x) I.
Proof.
  intros Hlen Hb. induction fuel as [|fuel IH]; intros secnum x Hw Hs Hf; [lia|]. cbn [for_tagged].
  unfold P_FindSectorFromLineTag. destruct (find_tag_spec tag (drop (Z.to_nat (secnum + 1)) (sectors (game_of x))) (secnum + 1)) as [->|(k & sec & -> & Hk & Ht)]; [done|].
  rewrite lookup_drop in Hk. replace (Z.to_nat (secnum + 1) + k)%nat with (Z.to_nat (secnum + 1 + Z.of_nat k)) in Hk by lia.
  rewrite Z.geb_leb, (proj2 (Z.leb_le _ _)) by lia. apply safe_bind. pose proof (lookup_lt_Some _ _ _ Hk) as Hlt. rewrite (Hlen x Hw) in Hlt.
  eapply safe_mono; [by apply (Hb _ sec x Hw)|]. intros x' Hw'. apply IH; [done|lia|lia].
Qed.

(** The same for a loop that starts movers and has a result. *)
Lemma tagged_wf w0 tag body rtn w : wf_on w0 w ->
  (forall s sec rtn w, wf_on w0 w -> sectors (gm w) !! s = Some sec -> Sector.tag sec = tag -> safe (body s (rtn, w)) (fun r => wf_on w0 r.2)) ->
  safe (for_tagged (fun st : Z * world => gm st.2) (S (length (sectors (gm w)))) tag (-1) body (rtn, w)) (fun r => wf_on w0 r.2).
Proof.
  intros Hw Hb. apply (for_tagged_safe _ _ _ (fun st : Z * world => wf_on w0 st.2) (length (sectors (gm w)))).
  - intros [r x] Hx. cbn in *. rewrite (sm_length _ _ (proj2 Hx)), (sm_length _ _ (proj2 Hw)). done.
  - intros s sec [r x] Hx Hs Ht. by apply (Hb s sec r x).
  - done.
  - lia.
  - lia.
Qed.

(** A new object for sector [s]: what the code has done when it fills it in. *)
Definition fresh_world (self : Z) (s : nat) (raw : thing) (sec : Sector.doomsector_t) w : world :=
  set_sector (Z.of_nat s) (sec <| Sector.specialdata := self |>) (w <| gm ::= P_AddThinker self raw |>).

Lemma fresh_run self s raw sec w : sectors (gm w) !! s = Some sec ->
  on_game (set_specialdata (Z.of_nat s) self) (w <| gm ::= P_AddThinker self raw |>) = Ret (fresh_world self s raw sec w).
Proof. intros E. by apply specialdata_run. Qed.
Lemma fresh_sectors self s raw sec w : sectors (gm (fresh_world self s raw sec w)) = <[s := sec <| Sector.specialdata := self |>]> (sectors (gm w)).
Proof. unfold fresh_world. by rewrite sectors_set. Qed.
Lemma fresh_here self s raw sec w : sectors (gm w) !! s = Some sec ->
  sectors (gm (fresh_world self s raw sec w)) !! s = Some (sec <| Sector.specialdata := self |>).
Proof. intros E. rewrite fresh_sectors. by rewrite list_lookup_insert_eq by (by eapply lookup_lt_Some). Qed.
Lemma fresh_ok self s raw sec w : level_ok (gm w) -> sectors (gm w) !! s = Some sec -> level_ok (gm (fresh_world self s raw sec w)).
Proof. intros [L1 L2] E. unfold fresh_world. eapply level_ok_set; [|done|done]. split; [exact L1|exact L2]. Qed.

(** The mover is put in place of the raw object; the sector may have got
    another picture or special. *)
Lemma fresh_wf self s th raw sec sec' w w' : level_wf w -> sectors (gm w) !! s = Some sec -> Sector.specialdata sec = 0 ->
  self <> 0 -> self ∉ addresses (gm w) -> thinkers (gm w') = thinkers (put_thing self th (gm (fresh_world self s raw sec w))) ->
  sectors (gm w') = <[s := sec']> (sectors (gm w)) -> same_decor (sec <| Sector.specialdata := self |>) sec' ->
  lines (gm w') = lines (gm w) -> sides (gm w') = sides (gm w) -> players (gm w') = players (gm w) ->
  activeplats (gm w') = activeplats (gm w) -> activeceilings (gm w') = activeceilings (gm w) ->
  mover_sector th = Some (Z.of_nat s) -> thing_function th = fn_addr (thing_action th) -> thing_action th <> GameTypes.T_PlatRaise -> wf_on w w'.
Proof.
  intros Hi Hsec Hz Hnz Hfr Et Es Hd El Esd Epl Ep Ec Hms Hfn Hne. eapply (start_wf self s th raw sec sec'); try done; by left.
Qed.

Lemma around_total {S} g s sec (body : Sector.doomsector_t -> S -> outcome S) init : level_ok g -> sectors g !! s = Some sec ->
  (forall x y, exists z, body x y = Ret z) -> exists z, around g s body init = Ret z.
Proof.
  intros Hl E Hb. rewrite (around_run g Hl s sec) by done. generalize (init sec). induction (neighbours g s) as [|x l IH]; intros y; [by exists y|].
  cbn [run_each]. destruct (Hb x y) as [z ->]. apply IH.
Qed.
(** The searches that look for an extreme always find one. *)
Lemma searches_total g s sec : level_ok g -> sectors g !! s = Some sec ->
  (exists h, P_FindLowestFloorSurrounding g s = Ret h) /\ (exists h, P_FindHighestFloorSurrounding g s = Ret h) /\
  (exists h, P_FindLowestCeilingSurrounding g s = Ret h) /\ (exists h, P_FindHighestCeilingSurrounding g s = Ret h).
Proof. intros Hl E. split_and!; (eapply around_total; [done|done|]; intros x y; by eexists). Qed.
(** The next highest floor ends the program when there are too many. *)
Lemma next_highest_safe g s sec h : level_ok g -> sectors g !! s = Some sec -> safe (P_FindNextHighestFloor g s h) (fun _ => True).
Proof.
  intros Hl E. unfold P_FindNextHighestFloor. rewrite (around_run g Hl s sec) by done.
  assert (Hr : forall l st, (length st.2 <= MAX_ADJOINING_SECTORS + 2)%nat -> safe (run_each next_height l st) (fun _ => True)).
  { induction l as [|x l IH]; intros [hh hl] Hlen; [done|]. cbn [run_each]. apply safe_bind. unfold next_height. cbn [snd] in Hlen.
    destruct (_ >? hh); [|cbn [safe]; by apply IH].
    destruct (bool_decide (length hl = MAX_ADJOINING_SECTORS + 1)%nat) eqn:E1; cbn [obind]; [apply bool_decide_eq_true in E1|apply bool_decide_eq_false in E1].
    - rewrite bool_decide_eq_true_2 by lia. cbn [safe]. apply IH. cbn [snd]. rewrite length_app. cbn [length]. unfold MAX_ADJOINING_SECTORS in *. lia.
    - destruct (bool_decide (length hl = MAX_ADJOINING_SECTORS + 2)%nat) eqn:E2; cbn [obind]; [done|apply bool_decide_eq_false in E2].
      rewrite bool_decide_eq_true_2 by lia. cbn [safe]. apply IH. cbn [snd]. rewrite length_app. cbn [length]. unfold MAX_ADJOINING_SECTORS in *. lia. }
  apply safe_bind. eapply safe_mono; [apply Hr; cbn; lia|]. intros [hh [|x l]] _; done.
Qed.

Lemma truth_false x : truth x = false -> x = 0.
Proof. unfold truth. destruct (x =? 0) eqn:E; breflect; done. Qed.

(** ** Doors *)
Lemma door_setup_total type s sec d w : level_ok (gm w) -> sectors (gm w) !! s = Some sec ->
  exists d' snd, door_setup type s d w = Ret (d', snd) /\ VlDoor.sector d' = VlDoor.sector d /\ VlDoor.thinker d' = VlDoor.thinker d.
Proof.
  intros Hl E. unfold door_setup, open_height. rewrite (get_sector_at s sec) by done. cbn [obind].
  destruct (searches_total (gm w) s sec Hl E) as (_ & _ & [h ->] & _). cbn [obind].
  split_ifs; eexists _, _; (split; [reflexivity|]); done.
Qed.
Lemma start_door_safe w0 type s sec rtn w : wf_on w0 w -> sectors (gm w) !! s = Some sec ->
  safe (start_door type s (rtn, w)) (fun r => wf_on w0 r.2).
Proof.
  intros Hw E. pose proof (proj1 Hw) as Hi. unfold start_door. rewrite (get_sector_at s sec) by done. cbn [obind].
  destruct (truth (Sector.specialdata sec)) eqn:Ez; [done|apply truth_false in Ez]. unfold new_door.
  destruct (heap_fresh w) as (self & -> & Hnz & Hfr). cbn [obind]. rewrite (fresh_run self s _ sec) by done. cbn [obind].
  set (d := (raw_door self) <| VlDoor.thinker ::= _ |> <| VlDoor.sector := _ |> <| VlDoor.type := _ |> <| VlDoor.topwait := _ |> <| VlDoor.speed := _ |>).
  set (w1 := fresh_world self s _ sec w).
  destruct (door_setup_total type s (sec <| Sector.specialdata := self |>) d w1) as (d' & so & -> & Es & Et);
    [apply fresh_ok; [apply Hi|done]|by apply fresh_here|]. cbn [obind safe snd].
  eapply wf_trans; [done|]. assert (Hms : mover_sector (TDoor d') = Some (Z.of_nat s)) by (cbn; by rewrite Es).
  assert (Hfn : thing_function (TDoor d') = fn_addr GameTypes.T_VerticalDoor) by (unfold thing_function, thing_thinker; by rewrite Et).
  destruct so; eapply (fresh_wf self s (TDoor d') (TDoor (raw_door self)) sec (sec <| Sector.specialdata := self |>) w); try done;
    apply fresh_sectors.
Qed.

(** ** Ceilings *)
Lemma ceiling_setup_total type s sec c w : level_ok (gm w) -> sectors (gm w) !! s = Some sec ->
  exists c', ceiling_setup type s c w = Ret c' /\ Ceiling.sector c' = Ceiling.sector c /\ Ceiling.thinker c' = Ceiling.thinker c.
Proof.
  intros Hl E. unfold ceiling_setup. rewrite (get_sector_at s sec) by done. cbn [obind].
  destruct (searches_total (gm w) s sec Hl E) as (_ & _ & _ & [h ->]). cbn [obind].
  split_ifs; eexists; (split; [reflexivity|]); done.
Qed.
Lemma add_ceiling self g : exists l, P_AddActiveCeiling self g = g <| activeceilings := l |> /\ slot_taken self (activeceilings g) l.
Proof.
  unfold P_AddActiveCeiling, slot_taken. destruct (first_free _ _) as [l|]; [exists l; auto|exists (activeceilings g); split; [by destruct g|auto]].
Qed.
Lemma start_ceiling_safe w0 type s sec rtn w : wf_on w0 w -> sectors (gm w) !! s = Some sec ->
  safe (start_ceiling type s (rtn, w)) (fun r => wf_on w0 r.2).
Proof.
  intros Hw E. pose proof (proj1 Hw) as Hi. unfold start_ceiling. rewrite (get_sector_at s sec) by done. cbn [obind].
  destruct (truth (Sector.specialdata sec)) eqn:Ez; [done|apply truth_false in Ez].
  destruct (heap_fresh w) as (self & -> & Hnz & Hfr). cbn [obind]. rewrite (fresh_run self s _ sec) by done. cbn [obind].
  set (c := (raw_ceiling self) <| Ceiling.thinker ::= _ |> <| Ceiling.sector := _ |> <| Ceiling.crush := _ |>).
  set (w1 := fresh_world self s _ sec w).
  destruct (ceiling_setup_total type s (sec <| Sector.specialdata := self |>) c w1) as (c' & -> & Es & Et);
    [apply fresh_ok; [apply Hi|done]|by apply fresh_here|]. cbn [obind safe snd].
  set (c2 := c' <| Ceiling.tag := _ |> <| Ceiling.type := _ |>). eapply wf_trans; [done|].
  destruct (add_ceiling self (gm (put_ceiling self c2 w1))) as (l & El & Hsl).
  eapply (start_wf self s (TCeiling c2) (TCeiling (raw_ceiling self)) sec (sec <| Sector.specialdata := self |>) w);
    try done; cbn [gm update]; rewrite ?El; try done.
  - exact (fresh_sectors self s (TCeiling (raw_ceiling self)) sec w).
  - cbn. by rewrite Es.
  - unfold thing_function, thing_thinker. cbn. by rewrite Et.
  - by left.
Qed.
Lemma door_safe li type w : level_wf w -> safe (EV_DoDoor li type w) (fun r => wf_on w r.2).
Proof. intros Hi. apply tagged_wf; [done|]. intros s sec rtn w1 Hw E _. by eapply start_door_safe. Qed.

(** ** Stopping and starting again *)
Lemma slots_map {X} (get : Z -> world -> outcome X) (put : Z -> X -> world -> world) (con : X -> thing) f slots w w' :
  (forall a x w, thing_at a (gm w) = Some (con x) -> get a w = Ret x) -> (forall a x w, put a x w = w <| gm ::= put_thing a (con x) |>) ->
  (forall x m, con x <> TMobj m) -> NoDup (filter (fun x => x <> 0) slots) -> all_slots con slots (gm w) ->
  each_slot get put f slots w = Ret w' -> same_map w w'.
Proof.
  intros Hg Hp Hc Hnd Hall E. destruct (each_slot_run get put con Hg Hp f slots w Hnd Hall) as (l & E' & H1 & H2 & H3).
  rewrite E in E'. injection E' as ->. split; try done; [by eauto|]. apply people_same; [done|]. intros a m. unfold thing_at at 1. cbn [gm update thinkers].
  destruct (decide (a ∈ slots /\ a <> 0)) as [[Ha Hz]|Hn].
  - destruct (Hall a Ha Hz) as [p Ep]. change (thing_in a l = Some (TMobj m) -> thing_at a (gm w) = Some (TMobj m)).
    rewrite (H1 a p Ha Hz Ep). intros [= Em]. by destruct (Hc _ _ Em).
  - change (thing_in a l = Some (TMobj m) -> thing_at a (gm w) = Some (TMobj m)). rewrite H2; [done|].
    destruct (decide (a = 0)); [by right|left]. intros Ha. by apply Hn.
Qed.
Lemma stasis_plats f w w' : level_wf w -> each_plat f (activeplats (gm w)) w = Ret w' -> same_map w w'.
Proof.
  intros Hi. apply (slots_map get_plat put_plat TPlat); [by intros; apply get_plat_at|done|done|exact (proj1 (li_activeplats _ Hi))|exact (plat_slots w Hi)].
Qed.
Lemma stasis_ceilings f w w' : level_wf w -> each_slot get_ceiling put_ceiling f (activeceilings (gm w)) w = Ret w' -> same_map w w'.
Proof.
  intros Hi. apply (slots_map get_ceiling put_ceiling TCeiling); [by intros; apply get_ceiling_at|done|done|exact (proj1 (li_activeceilings _ Hi))|exact (ceiling_slots w Hi)].
Qed.

Lemma stop_plat_safe tag w : level_wf w -> safe (EV_StopPlat tag w) (wf_on w).
Proof. intros Hi. destruct (stop_plat_inv tag w Hi) as (w' & E & Hi'). rewrite E. split; [done|by eapply stasis_plats]. Qed.
Lemma wake_plat_safe tag w : level_wf w -> safe (P_ActivateInStasis tag w) (wf_on w).
Proof. intros Hi. destruct (activate_plat_inv tag w Hi) as (w' & E & Hi'). rewrite E. split; [done|by eapply stasis_plats]. Qed.
Lemma wake_ceiling_safe li w : level_wf w -> safe (P_ActivateInStasisCeiling li w) (wf_on w).
Proof. intros Hi. destruct (activate_ceiling_inv li w Hi) as (w' & E & Hi'). rewrite E. split; [done|by eapply stasis_ceilings]. Qed.
Lemma stop_ceiling_safe li w : level_wf w -> safe (EV_CeilingCrushStop li w) (fun r => wf_on w r.2).
Proof.
  intros Hi. destruct (stop_ceiling_inv li w Hi) as (rtn & w' & E & Hi'). rewrite E. split; [done|]. cbn [snd]. unfold EV_CeilingCrushStop in E.
  destruct (each_slot _ _ _ _ w) as [w1| | |] eqn:E1; try done. injection E as _ ->. by eapply stasis_ceilings.
Qed.
Lemma ceiling_safe li type w : level_wf w -> safe (EV_DoCeiling li type w) (fun r => wf_on w r.2).
Proof.
  intros Hi. unfold EV_DoCeiling. apply safe_bind. eapply (safe_mono _ (wf_on w)); [destruct (_ || _); [by apply wake_ceiling_safe|done]|].
  intros w1 Hw1. apply tagged_wf; [done|]. intros s sec rtn w2 Hw2 E _. by eapply start_ceiling_safe.
Qed.

(** ** Platforms *)
Lemma first_free_here l p l' : first_free l p = Some l' -> p ∈ l'.
Proof.
  revert l'. induction l as [|x l IH]; intros l' E; cbn in E; [done|]. destruct (x =? 0); [injection E as <-; left|].
  destruct (first_free l p) as [l2|]; [|done]. injection E as <-. right. by apply IH.
Qed.

(** Only pictures and the special of sector [s] change. *)
Record painted (s : nat) (sec : Sector.doomsector_t) (w w' : world) : Prop := {
  pa_sectors : exists sec', sectors (gm w') = <[s := sec']> (sectors (gm w)) /\ same_decor sec sec';
  pa_thinkers : thinkers (gm w') = thinkers (gm w);
  pa_lines : lines (gm w') = lines (gm w);
  pa_sides : sides (gm w') = sides (gm w);
  pa_players : players (gm w') = players (gm w);
  pa_plats : activeplats (gm w') = activeplats (gm w);
  pa_ceilings : activeceilings (gm w') = activeceilings (gm w)
}.
Lemma painted_id s sec w w' : sectors (gm w) !! s = Some sec -> gm w' = gm w -> painted s sec w w'.
Proof. intros E Eg. split; rewrite ?Eg; try done. exists sec. split; [by rewrite list_insert_id|done]. Qed.
Lemma painted_upd s sec f w : sectors (gm w) !! s = Some sec -> same_decor sec (f sec) ->
  exists w', upd_sector (Z.of_nat s) f w = Ret w' /\ painted s sec w w' /\ sectors (gm w') !! s = Some (f sec).
Proof.
  intros E D. rewrite (upd_sector_run s sec) by done. eexists. split; [reflexivity|]. split; [|by eapply set_sector_at].
  split; try done. exists (f sec). split; [apply sectors_set|done].
Qed.
Lemma painted_trans s sec sec1 w w1 w2 : painted s sec w w1 -> sectors (gm w1) !! s = Some sec1 -> sectors (gm w) !! s = Some sec ->
  painted s sec1 w1 w2 -> painted s sec w w2.
Proof.
  intros [(x & E1 & D1) A2 A3 A4 A5 A6 A7] Hx Hs [(y & E2 & D2) B2 B3 B4 B5 B6 B7]. split; try congruence.
  exists y. rewrite E2, E1, list_insert_insert_eq. split; [done|]. transitivity sec1; [|done].
  rewrite E1, list_lookup_insert_eq in Hx by (by eapply lookup_lt_Some). by injection Hx as <-.
Qed.
Lemma painted_level s sec w w' : painted s sec w w' -> sectors (gm w) !! s = Some sec -> level_ok (gm w) -> level_ok (gm w').
Proof.
  intros [(x & E1 & D1) _ El _ _ _ _] E [L1 L2]. split; rewrite El, E1.
  - intros k sec1 [[-> ->]|[_ Hk]]%lookup_one; [rewrite (proj1 D1); by eapply L1|by eapply L1].
  - intros l li o Hl Ho. apply lookup_lt_is_Some_2. rewrite length_insert. apply lookup_lt_is_Some_1. by eapply L2.
Qed.

Lemma painted_game s sec w w1 w2 : gm w2 = gm w1 -> painted s sec w w1 -> painted s sec w w2.
Proof. intros E [P1 P2 P3 P4 P5 P6 P7]. split; by rewrite E. Qed.

(** The sector in front of a line, through its side and directly. *)
Definition front_ok (li : Line.line_t) (g : game) : Prop :=
  (exists num si, Line.sidenum li !! 0%nat = Some num /\ 0 <= num /\ sides g !! Z.to_nat num = Some si /\
     exists o, Side.sector si = Z.of_nat o /\ is_Some (sectors g !! o)) /\
  exists o, Line.frontsector li = Some o /\ is_Some (sectors g !! o).
Lemma front_ok_same li g g' : sides g' = sides g -> length (sectors g') = length (sectors g) -> front_ok li g -> front_ok li g'.
Proof.
  intros Es En [(num & si & H1 & H2 & H3 & o & H4 & H5) (f & H6 & H7)]. split; [exists num, si; rewrite Es; split_and!; try done; exists o|exists f];
    (split; [done|]); apply lookup_lt_is_Some_2; rewrite En; by apply lookup_lt_is_Some_1.
Qed.
Lemma floorpic_run li w : front_ok li (gm w) -> exists pic, line_floorpic li w = Ret pic.
Proof.
  intros [(num & si & E1 & E2 & E3 & o & E4 & [sec E5]) _]. unfold line_floorpic. rewrite E1. cbn [of_option obind]. rewrite (proj2 (Z.ltb_ge _ _)) by done.
  rewrite E3. cbn [of_option obind]. rewrite E4, (get_sector_at o sec) by done. by eexists.
Qed.

Definition plat_kept (p : Plat.plat_t) (s : nat) (sec : Sector.doomsector_t) (w : world) (r : Plat.plat_t * world) : Prop :=
  Plat.sector r.1 = Plat.sector p /\ Plat.thinker r.1 = Plat.thinker p /\ painted s sec w r.2.
Lemma plat_setup_safe type amount s sec li p w : level_ok (gm w) -> front_ok li (gm w) -> sectors (gm w) !! s = Some sec ->
  safe (plat_setup type amount s li p w) (plat_kept p s sec w).
Proof.
  intros Hl Hf E. unfold plat_setup. rewrite (get_sector_at s sec) by done. cbn [obind].
  destruct (searches_total (gm w) s sec Hl E) as ([lo Elo] & [hi Ehi] & _). destruct (floorpic_run li w Hf) as [pic Epic].
  destruct (type =? raiseToNearestAndChange).
  { rewrite Epic. cbn [obind]. destruct (painted_upd s sec (fun x => x <| Sector.floorpic := pic |>) w E) as (w1 & -> & P1 & E1); [done|]. cbn [obind].
    apply safe_bind. eapply safe_mono; [eapply next_highest_safe; [by eapply painted_level|exact E1]|]. intros h _.
    destruct (painted_upd s _ (fun x => x <| Sector.special := 0 |>) w1 E1) as (w2 & -> & P2 & _); [done|]. split_and!; try done.
    apply (painted_game _ _ _ w2); [done|]. by eapply painted_trans. }
  destruct (type =? raiseAndChange).
  { rewrite Epic. cbn [obind]. destruct (painted_upd s sec (fun x => x <| Sector.floorpic := pic |>) w E) as (w1 & -> & P1 & E1); [done|].
    split_and!; try done. by apply (painted_game _ _ _ w1). }
  rewrite Elo, Ehi. cbn [obind]. destruct (_ || _); [split_and!; try done; by apply painted_id|].
  destruct (type =? perpetualRaise); [|split_and!; try done; by apply painted_id].
  destruct (P_Random_total (rnd w)) as (r & rn & -> & _). split_and!; try done. by apply painted_id.
Qed.
Lemma start_plat_safe w0 li type amount s sec rtn w : wf_on w0 w -> front_ok li (gm w) -> sectors (gm w) !! s = Some sec ->
  safe (start_plat li type amount s (rtn, w)) (fun r => wf_on w0 r.2).
Proof.
  intros Hw Hf E. pose proof (proj1 Hw) as Hi. unfold start_plat. rewrite (get_sector_at s sec) by done. cbn [obind].
  destruct (truth (Sector.specialdata sec)) eqn:Ez; [done|apply truth_false in Ez].
  destruct (heap_fresh w) as (self & -> & Hnz & Hfr). cbn [obind]. rewrite (fresh_run self s _ sec) by done. cbn [obind].
  set (p := (raw_plat self) <| Plat.type := _ |> <| Plat.sector := _ |> <| Plat.thinker ::= _ |> <| Plat.crush := _ |> <| Plat.tag := _ |>).
  set (w1 := fresh_world self s _ sec w). set (sec1 := sec <| Sector.specialdata := self |>).
  assert (E1 : sectors (gm w1) !! s = Some sec1) by (by apply fresh_here).
  apply safe_bind. eapply safe_mono; [apply (plat_setup_safe type amount s sec1 li p w1); [apply fresh_ok; [apply Hi|done]| |exact E1]|].
  { eapply front_ok_same; [| |exact Hf]; [done|]. unfold w1. rewrite fresh_sectors. apply length_insert. }
  intros [p' w2] (Es & Et & [(sec' & Es2 & D) P2 P3 P4 P5 P6 P7]). cbn [fst snd] in *. apply safe_bind. unfold on_game, P_AddActivePlat.
  change (activeplats (gm (put_plat self p' w2))) with (activeplats (gm w2)). rewrite P6. change (activeplats (gm w1)) with (activeplats (gm w)).
  destruct (first_free (activeplats (gm w)) self) as [l|] eqn:Ef; [|done]. cbn [obind safe snd]. eapply wf_trans; [done|].
  eapply (start_wf self s (TPlat p') (TPlat (raw_plat self)) sec sec' w); try done.
  - cbn. by rewrite P2.
  - cbn. rewrite Es2. unfold w1. rewrite fresh_sectors. apply list_insert_insert_eq.
  - cbn. by rewrite Es.
  - unfold thing_function, thing_thinker. by rewrite Et.
  - by right.
  - left. exact P7.
  - intros _. cbn. by eapply first_free_here.
Qed.
Lemma plat_safe li type amount w : level_wf w -> front_ok li (gm w) -> safe (EV_DoPlat li type amount w) (fun r => wf_on w r.2).
Proof.
  intros Hi Hf. unfold EV_DoPlat. apply safe_bind. eapply (safe_mono _ (wf_on w)); [destruct (_ =? _); [by apply wake_plat_safe|done]|].
  intros w1 Hw1. apply tagged_wf; [done|]. intros s sec rtn w2 Hw2 E _. eapply start_plat_safe; [done| |done].
  eapply front_ok_same; [apply Hw2|apply Hw2|done].
Qed.

(** ** Floors *)
Section floors.
Context {tx : Textures}.

(** The lower textures of the sides are textures of the WAD. *)
Definition lowers_ok (g : game) : Prop := forall n si, sides g !! n = Some si -> Side.bottomtexture si < Z.of_nat (length textureheight).
(** The sectors with the tag have as many lines as any other. *)
Definition widest (tag : Z) (g : game) : Prop := forall s sec, sectors g !! s = Some sec -> Sector.tag sec = tag ->
  Forall (fun x => length (Sector.lines x) <= length (Sector.lines sec))%nat (sectors g).

Lemma lower_texture_run si m : Side.bottomtexture si < Z.of_nat (length textureheight) -> exists m', lower_texture si m = Ret m'.
Proof.
  intros Hlt. unfold lower_texture. rewrite Z.geb_leb. destruct (0 <=? _) eqn:E; breflect; [|by eexists]. unfold get.
  rewrite (proj2 (Z.ltb_ge _ _)) by done. destruct (lookup_lt_is_Some_2 textureheight (Z.to_nat (Side.bottomtexture si))) as [h ->]; [lia|].
  by eexists.
Qed.
Lemma shortest_run g s sec n : level_ok g -> sides_ok g -> lowers_ok g -> sectors g !! s = Some sec ->
  forall i m, (i + n <= length (Sector.lines sec))%nat -> exists m', shortest_texture s i n m g = Ret m'.
Proof.
  intros Hl Hs Ht E. induction n as [|n IH]; intros i m Hi; cbn [shortest_texture]; [by eexists|].
  destruct (lookup_lt_is_Some_2 (Sector.lines sec) i) as [l El]; [lia|].
  destruct (proj1 (Forall_lookup _ _) (lv_lines g Hl s sec E) i l El) as [li Eli].
  assert (Elo : line_of s i g = Ret li) by (unfold line_of; rewrite E; cbn [of_option obind]; rewrite El; cbn [of_option obind]; by rewrite Eli).
  assert (Hside : has_flag (Line.flags li) ML_TWOSIDED = true -> forall k, (k < 2)%nat -> exists si, getSide s i k g = Ret si /\
    Side.bottomtexture si < Z.of_nat (length textureheight)).
  { intros E2 k Hk. destruct (Hs l li k Eli E2 Hk) as (num & si & E3 & E4 & E5 & _). exists si. split; [|by eapply Ht].
    unfold getSide. rewrite Elo. cbn [obind]. rewrite E3. cbn [of_option obind]. rewrite (proj2 (Z.ltb_ge _ _)) by done. by rewrite E5. }
  unfold twoSided. rewrite Elo. cbn [obind]. destruct (has_flag (Line.flags li) ML_TWOSIDED) eqn:E2; cbn [obind]; [|apply IH; lia].
  destruct (Hside eq_refl 0%nat) as (s0 & -> & H0); [lia|]. destruct (Hside eq_refl 1%nat) as (s1 & -> & H1); [lia|]. cbn [obind].
  destruct (lower_texture_run s0 m H0) as [m0 ->]. cbn [obind]. destruct (lower_texture_run s1 m0 H1) as [m1 ->]. cbn [obind]. apply IH. lia.
Qed.

(** What the types of floors ask of the map. *)
Definition floor_known (type : Z) : bool := (0 <=? type) && (type <=? 12) && negb (type =? donutRaise).
Definition floor_map (li : Line.line_t) (type : Z) (g : game) : Prop :=
  front_ok li g /\ sides_ok g /\ lowers_ok g /\ (type = lowerAndChange -> widest (Line.tag li) g).

Definition floor_kept (f : FloorMove.floormove_t) (s : nat) (sec : Sector.doomsector_t) (w : world) (r : FloorMove.floormove_t * world) : Prop :=
  FloorMove.sector r.1 = Z.of_nat s /\ FloorMove.thinker r.1 = FloorMove.thinker f /\ painted s sec w r.2.
Lemma floor_change_safe li s sec f w : front_ok li (gm w) -> sectors (gm w) !! s = Some sec ->
  safe (let* front := of_option (Line.frontsector li) in
        let* fs := get_sector (Z.of_nat front) w in
        let* w := upd_sector (Z.of_nat s) (fun sec => sec <| Sector.floorpic := Sector.floorpic fs |>) w in
        let* fs := get_sector (Z.of_nat front) w in
        let* w := upd_sector (Z.of_nat s) (fun sec => sec <| Sector.special := Sector.special fs |>) w in
        Ret (send f s 1 FLOORSPEED (i32 (Sector.floorheight sec + 24 * FRACUNIT)), w)) (floor_kept f s sec w).
Proof.
  intros [_ (o & Ef & [fs Eo])] E. rewrite Ef. cbn [of_option obind]. rewrite (get_sector_at o fs) by done. cbn [obind].
  destruct (painted_upd s sec (fun x => x <| Sector.floorpic := Sector.floorpic fs |>) w E) as (w1 & -> & P1 & E1); [done|]. cbn [obind].
  assert (Eo1 : exists fs1, sectors (gm w1) !! o = Some fs1).
  { destruct (pa_sectors _ _ _ _ P1) as (x & Ex & _). apply lookup_lt_is_Some_2. rewrite Ex, length_insert. by eapply lookup_lt_Some. }
  destruct Eo1 as [fs1 Eo1]. rewrite (get_sector_at o fs1) by done. cbn [obind].
  destruct (painted_upd s _ (fun x => x <| Sector.special := Sector.special fs1 |>) w1 E1) as (w2 & -> & P2 & _); [done|]. cbn [obind safe].
  split_and!; [done|done|]. by eapply painted_trans.
Qed.
Lemma floor_setup_safe li type s sec f w : floor_known type = true -> floor_map li type (gm w) -> level_ok (gm w) ->
  sectors (gm w) !! s = Some sec -> Sector.tag sec = Line.tag li -> safe (floor_setup li type s f w) (floor_kept f s sec w).
Proof.
  intros Hk (Hf & Hs & Hlo & Hw) Hl E Et. unfold floor_setup. rewrite (get_sector_at s sec) by done. cbn [obind].
  destruct (searches_total (gm w) s sec Hl E) as ([h1 E1] & [h2 E2] & [h3 E3] & _). rewrite E1, E2, E3. cbn [obind].
  assert (Hsend : forall g d sp h, FloorMove.thinker g = FloorMove.thinker f -> safe (Ret (send g s d sp h, w)) (floor_kept f s sec w))
    by (intros g d sp h Hg; split_and!; try done; by apply painted_id).
  destruct (type =? lowerFloor) eqn:T0; [by apply Hsend|]. destruct (type =? lowerFloorToLowest) eqn:T1; [by apply Hsend|].
  destruct (type =? turboLower) eqn:T2; [by apply Hsend|].
  destruct (_ || _) eqn:T3; [apply Hsend; by destruct (type =? raiseFloorCrush)|].
  destruct (type =? raiseFloorTurbo) eqn:T4; [apply safe_bind; eapply safe_mono; [by eapply next_highest_safe|]; intros h _; by apply Hsend|].
  destruct (type =? raiseFloorToNearest) eqn:T5; [apply safe_bind; eapply safe_mono; [by eapply next_highest_safe|]; intros h _; by apply Hsend|].
  destruct (type =? raiseFloor24) eqn:T6; [by apply Hsend|]. destruct (type =? raiseFloor512) eqn:T7; [by apply Hsend|].
  destruct (type =? raiseFloor24AndChange) eqn:T8; [by apply floor_change_safe|].
  destruct (type =? raiseToTexture) eqn:T9.
  { destruct (shortest_run (gm w) s sec (length (Sector.lines sec)) Hl Hs Hlo E 0 INT_MAX) as [m ->]; [lia|]. by apply Hsend. }
  destruct (type =? lowerAndChange) eqn:T10.
  { breflect. destruct (find_change_run (gm w) s sec ((send f s (-1) FLOORSPEED h1) <| FloorMove.texture := Sector.floorpic sec |>) Hl Hs E (Hw T10 s sec E Et)
      (S (length (Sector.lines sec))) s 0) as (f' & -> & _ & _ & _ & Hs' & Ht'); [by eexists|lia|lia|].
    split_and!; cbn [fst snd]; [by rewrite Hs'|by rewrite Ht'|by apply painted_id]. }
  exfalso. unfold floor_known, lowerFloor, lowerFloorToLowest, turboLower, raiseFloor, raiseFloorToNearest, raiseToTexture, lowerAndChange,
    raiseFloor24, raiseFloor24AndChange, raiseFloorCrush, raiseFloorTurbo, donutRaise, raiseFloor512 in *. breflect. lia.
Qed.

Lemma widest_same tag w w' : same_map w w' -> widest tag (gm w) -> widest tag (gm w').
Proof.
  intros [_ _ _ Hw _] Hwi s sec' E Et. destruct (Hw s sec' E) as (sec & E0 & El & Et0). apply Forall_lookup. intros k x' Ek.
  destruct (Hw k x' Ek) as (x & Ex & Elx & _). rewrite El, Elx. refine (proj1 (Forall_lookup _ _) (Hwi s sec E0 _) k x Ex). congruence.
Qed.
Lemma sides_ok_same g g' : lines g' = lines g -> sides g' = sides g -> length (sectors g') = length (sectors g) -> sides_ok g -> sides_ok g'.
Proof.
  intros El Es En Hs l li i E1 E2 Hi. rewrite El in E1. destruct (Hs l li i E1 E2 Hi) as (num & si & H1 & H2 & H3 & H4 & H5).
  exists num, si. rewrite Es. split_and!; try done. apply lookup_lt_is_Some_2. rewrite En. by apply lookup_lt_is_Some_1.
Qed.
Lemma floor_map_same li type w w' : same_map w w' -> floor_map li type (gm w) -> floor_map li type (gm w').
Proof.
  intros Hm (Hf & Hs & Hlo & Hw). pose proof Hm as [M1 M2 M4 M5 M6]. split_and!.
  - by eapply front_ok_same.
  - by eapply sides_ok_same.
  - intros n si. rewrite M2. apply Hlo.
  - intros Ht. by eapply widest_same, Hw.
Qed.
Lemma fresh_same self s raw sec w : sectors (gm w) !! s = Some sec -> (forall m, raw <> TMobj m) ->
  same_map w (fresh_world self s raw sec w).
Proof.
  intros E Hr. split; try done.
  - rewrite fresh_sectors. apply length_insert.
  - intros k x. rewrite fresh_sectors. intros [[-> ->]|[_ Hk]]%lookup_one; [by exists sec|by exists x].
  - apply people_same; [done|]. intros a m. change (thing_in a (thinkers (gm w) ++ [(self, raw)]) = Some (TMobj m) -> thing_in a (thinkers (gm w)) = Some (TMobj m)).
    rewrite thing_in_app. destruct (thing_in a (thinkers (gm w))); [done|]. cbn. destruct (self =? a); [|done]. intros [= ->]. by destruct (Hr m).
Qed.
Lemma start_floor_safe w0 li type s sec rtn w : wf_on w0 w -> floor_known type = true -> floor_map li type (gm w) ->
  sectors (gm w) !! s = Some sec -> Sector.tag sec = Line.tag li -> safe (start_floor li type s (rtn, w)) (fun r => wf_on w0 r.2).
Proof.
  intros Hw Hk Hf E Etag. pose proof (proj1 Hw) as Hi. unfold start_floor. rewrite (get_sector_at s sec) by done. cbn [obind].
  destruct (truth (Sector.specialdata sec)) eqn:Ez; [done|apply truth_false in Ez].
  destruct (heap_fresh w) as (self & -> & Hnz & Hfr). cbn [obind]. rewrite (fresh_run self s _ sec) by done. cbn [obind].
  set (f := (raw_floor self) <| FloorMove.thinker ::= _ |> <| FloorMove.type := _ |> <| FloorMove.crush := _ |>).
  set (w1 := fresh_world self s _ sec w). set (sec1 := sec <| Sector.specialdata := self |>).
  assert (Hm1 : same_map w w1) by (by apply fresh_same).
  apply safe_bind. eapply safe_mono; [apply (floor_setup_safe li type s sec1 f w1); try done;
    [by eapply floor_map_same|apply fresh_ok; [apply Hi|done]|by apply fresh_here]|].
  intros [f' w2] (Es & Et & [(sec' & Es2 & D) P2 P3 P4 P5 P6 P7]). cbn [fst snd safe] in *. eapply wf_trans; [done|].
  eapply (start_wf self s (TFloor f') (TFloor (raw_floor self)) sec sec' w); try done.
  - cbn. by rewrite P2.
  - cbn. rewrite Es2. unfold w1. rewrite fresh_sectors. apply list_insert_insert_eq.
  - cbn. by rewrite Es.
  - unfold thing_function, thing_thinker. by rewrite Et.
  - left. exact P6.
  - left. exact P7.
Qed.
Lemma floor_safe li type w : level_wf w -> floor_known type = true -> floor_map li type (gm w) ->
  safe (EV_DoFloor li type w) (fun r => wf_on w r.2).
Proof.
  intros Hi Hk Hf. apply tagged_wf; [done|]. intros s sec rtn w1 Hw E Et. eapply start_floor_safe; try done.
  eapply floor_map_same; [apply Hw|done].
Qed.

(** ** Stairs *)
Lemma new_step_wf w w' : level_wf w -> step_added w w' -> wf_on w w'.
Proof.
  intros Hi (s & sec & speed & height & E & Hz & En). unfold new_step in En.
  destruct (heap_fresh w) as (self & Em & Hnz & Hfr). rewrite Em in En. cbn [obind] in En. rewrite (fresh_run self s _ sec) in En by done.
  cbn [obind] in En. injection En as <-. set (f := (raw_floor self) <| FloorMove.thinker ::= set_function GameTypes.T_MoveFloor |> <| FloorMove.direction := 1 |>
    <| FloorMove.sector := Z.of_nat s |> <| FloorMove.speed := speed |> <| FloorMove.floordestheight := height |>).
  apply (fresh_wf self s (TFloor f) (TFloor (raw_floor self)) sec (sec <| Sector.specialdata := self |>) w); try done. exact (fresh_sectors self s (TFloor (raw_floor self)) sec w).
Qed.
Lemma stairs_safe li type w : level_wf w -> stairs_ok (gm w) -> safe (EV_BuildStairs li type w) (fun r => wf_on w r.2).
Proof.
  intros Hi Hok. destruct (stairs_run li type w Hok) as (rtn & w' & -> & Hb). cbn [safe snd].
  pose proof (bu_steps _ _ Hb) as Hr. clear Hb Hok. induction Hr as [w|w w1 w' Hs Hr IH]; [done|].
  pose proof (new_step_wf w w1 Hi Hs) as Hw1. eapply wf_trans; [exact Hw1|]. apply IH. apply Hw1.
Qed.
End floors.

(** ** Lights *)
Lemma around_light g s sec body init : level_ok g -> lights_ok g -> sectors g !! s = Some sec -> dim_ok (init sec) ->
  (forall x y, dim_ok (Sector.lightlevel x) -> dim_ok y -> exists z, body x y = Ret z /\ dim_ok z) ->
  exists z, around g s body init = Ret z /\ dim_ok z.
Proof.
  intros Hl Hd E Hi Hb. rewrite (around_run g Hl s sec) by done. pose proof (lights_neighbours g s Hd) as Hn. apply Forall_fmap in Hn.
  revert Hi Hn. generalize (init sec). induction (neighbours g s) as [|x l IH]; intros y Hy Hn; [by exists y|].
  apply Forall_cons in Hn as [Hx Hn]. cbn [run_each]. destruct (Hb x y Hx Hy) as (z & -> & Hz). by apply IH.
Qed.
Lemma set_light_wf w0 s sec l w : wf_on w0 w -> sectors (gm w) !! s = Some sec -> dim_ok l ->
  exists w', set_light (Z.of_nat s) l w = Ret w' /\ wf_on w0 w'.
Proof.
  intros Hw E Hl. rewrite (set_light_run s sec) by done. eexists. split; [reflexivity|]. eapply wf_trans; [done|].
  assert (Hd : Forall2 same_decor (sectors (gm w)) (sectors (gm (set_sector (Z.of_nat s) (sec <| Sector.lightlevel := l |>) w))))
    by (rewrite sectors_set; by apply (decor_insert _ s sec)).
  split; [exact (decor_inv w (set_sector (Z.of_nat s) (sec <| Sector.lightlevel := l |>) w) (proj1 Hw) eq_refl eq_refl eq_refl eq_refl Hd)|by apply decor_map].
Qed.
Lemma each_sector_safe {S} (I : S -> Prop) w0 tag (body : nat -> Sector.doomsector_t -> S -> world -> outcome (S * world)) :
  (forall j sec s w, wf_on w0 w -> I s -> sectors (gm w) !! j = Some sec -> safe (body j sec s w) (fun r => wf_on w0 r.2 /\ I r.1)) ->
  forall js s w, wf_on w0 w -> I s -> Forall (fun j => j < length (sectors (gm w0)))%nat js ->
  safe (each_sector js body tag s w) (fun r => wf_on w0 r.2).
Proof.
  intros Hb js. induction js as [|j js IH]; intros s w Hw Hs Hjs; cbn [each_sector]; [done|]. apply Forall_cons in Hjs as [Hj Hjs].
  destruct (lookup_lt_is_Some_2 (sectors (gm w)) j) as [sec E]; [by rewrite (sm_length _ _ (proj2 Hw))|].
  rewrite (get_sector_at j sec) by done. cbn [obind]. apply safe_bind. eapply (safe_mono _ (fun r => wf_on w0 r.2 /\ I r.1)).
  { destruct (_ =? tag); [by apply Hb|done]. }
  intros [s1 w1] [Hw1 Hs1]. by apply IH.
Qed.
Lemma seq_below n : Forall (fun j => j < n)%nat (seq 0 n).
Proof. apply Forall_forall. intros j Hj%elem_of_seq. lia. Qed.

Lemma light_on_safe li bright w : level_wf w -> dim_ok bright -> safe (EV_LightTurnOn li bright w) (wf_on w).
Proof.
  intros Hi Hb. unfold EV_LightTurnOn. apply safe_bind. eapply safe_mono; [apply (each_sector_safe dim_ok w); [|done|done|apply seq_below]|by intros [b w1]].
  intros j sec b w1 Hw Hd E. unfold turn_on. apply safe_bind. eapply (safe_mono _ dim_ok).
  - destruct (negb (truth b)); [|done]. edestruct (around_light (gm w1) j sec) as (z & -> & Hz); [apply Hw|apply Hw|done|exact Hd| |exact Hz].
    intros x y Hx Hy. eexists. split; [reflexivity|]. by destruct (_ >? y).
  - intros b1 Hb1. destruct (set_light_wf w j sec b1 w1 Hw E Hb1) as (w2 & -> & Hw2). done.
Qed.
Lemma lights_off_safe li w : level_wf w -> safe (EV_TurnTagLightsOff li w) (wf_on w).
Proof.
  intros Hi. unfold EV_TurnTagLightsOff. apply safe_bind. eapply safe_mono; [apply (each_sector_safe (fun _ => True) w); [|done|done|apply seq_below]|by intros [b w1]].
  intros j sec [] w1 Hw _ E. unfold turn_off. edestruct (around_light (gm w1) j sec) as (z & -> & Hz); [apply Hw|apply Hw|done|..].
  - exact (proj1 (Forall_lookup _ _) (li_light _ (proj1 Hw)) j sec E).
  - intros x y Hx Hy. eexists. split; [reflexivity|]. by destruct (_ <? y).
  - cbn [obind]. destruct (set_light_wf w j sec z w1 Hw E Hz) as (w2 & -> & Hw2). done.
Qed.
Lemma start_strobe_safe w0 s sec w : wf_on w0 w -> sectors (gm w) !! s = Some sec -> safe (start_strobe s w) (wf_on w0).
Proof.
  intros Hw E. pose proof (proj1 Hw) as Hi. unfold start_strobe. rewrite (get_sector_at s sec) by done. cbn [obind]. destruct (truth _); [done|].
  destruct (strobe_spawned s sec SLOWDARK 0 w (li_level _ Hi) (li_light _ Hi) E) as (self & w1 & th & -> & Hnew & Hok & Hact & Hfn & _);
    [unfold SLOWDARK, INT_MAX; lia|]. eapply wf_trans; [done|].
  split; [eapply light_inv; [done|done|done|done|by rewrite Hfn, Hact]|]. destruct Hnew as [N1 N2 N3 _ [N5 N6] (N7 & _) [Esd Epl]]. split; try done.
  - rewrite N3. apply length_insert.
  - intros k x. rewrite N3. intros [[-> ->]|[_ Hk]]%lookup_one; [by exists sec|by exists x].
  - apply people_same; [done|]. intros a m. destruct (decide (a = self)) as [->|Hne]; [|by rewrite N2]. rewrite N1. by intros [= ->].
Qed.
Lemma strobing_safe li w : level_wf w -> safe (EV_StartLightStrobing li w) (wf_on w).
Proof.
  intros Hi. unfold EV_StartLightStrobing. apply (for_tagged_safe _ _ _ (wf_on w) (length (sectors (gm w)))); [|..|done|lia|lia].
  - intros x [_ Hx]. apply (sm_length _ _ Hx).
  - intros s sec x Hx E _. by eapply start_strobe_safe.
Qed.

(** ** Locked doors *)
Lemma refuse_wf i p msg {msgs : Messages} w : level_wf w -> 0 <= i -> players (gm w) !! Z.to_nat i = Some p -> wf_on w (refuse i p msg w).
Proof.
  intros Hi Hz Hp. split; [by apply refuse_inv|]. split; try done; [by eauto|]. intros Hok a m j Ha Hj. destruct (Hok a m j Ha Hj) as (Hj0 & q & Hq & Hc).
  split; [done|]. change (players (gm (refuse i p msg w))) with (<[Z.to_nat i := p <| Player.message := message_at msg |>]> (players (gm w))).
  destruct (decide (Z.to_nat i = Z.to_nat j)) as [E|E].
  - rewrite <- E, list_lookup_insert_eq by (by eapply lookup_lt_Some). eexists. split; [reflexivity|]. rewrite <- E, Hp in Hq. by injection Hq as <-.
  - rewrite list_lookup_insert_ne by done. by exists q.
Qed.
Lemma lacks_run card skull p : length (Player.cards p) = NUMCARDS -> 0 <= card < 6 -> 0 <= skull < 6 -> exists b, lacks card skull p = Ret b.
Proof.
  intros Hlen Hc Hs. unfold lacks, get. rewrite !(proj2 (Z.ltb_ge _ 0)) by lia. unfold NUMCARDS in Hlen.
  destruct (lookup_lt_is_Some_2 (Player.cards p) (Z.to_nat card)) as [x ->]; [lia|].
  destruct (lookup_lt_is_Some_2 (Player.cards p) (Z.to_nat skull)) as [y ->]; [lia|]. cbn [of_option obind]. destruct (truth x); by eexists.
Qed.
Lemma lock_cards locks special card skull msg : lock_of locks special = Some (card, skull, msg) ->
  Forall (fun l => 0 <= l.2.1.1 < 6 /\ 0 <= l.2.1.2 < 6) locks -> 0 <= card < 6 /\ 0 <= skull < 6.
Proof.
  unfold lock_of. intros E Hl. destruct (filter _ locks) as [|l r] eqn:Ef; [done|]. injection E as E.
  assert (Hin : l ∈ locks) by (apply (list_elem_of_filter (fun l => l.1.1 = special \/ l.1.2 = special)); rewrite Ef; left).
  rewrite Forall_forall in Hl. specialize (Hl l Hin). by rewrite E in Hl.
Qed.

(** The mobj [mo] may be asked for its cards. *)
Definition carries (mo : Mobj.mobj_t) (g : game) : Prop := forall i, Mobj.player mo = Some i ->
  0 <= i /\ exists p, players g !! Z.to_nat i = Some p /\ length (Player.cards p) = NUMCARDS.
Lemma locked_safe {msgs : Messages} li type mo w : level_wf w -> carries mo (gm w) -> safe (EV_DoLockedDoor li type mo w) (fun r => wf_on w r.2).
Proof.
  intros Hi Hm. unfold EV_DoLockedDoor. destruct (Mobj.player mo) as [i|] eqn:Ep; [|done].
  destruct (lock_of locked_doors (Line.special li)) as [[[card skull] msg]|] eqn:El; [|by apply door_safe].
  destruct (Hm i Ep) as (Hz & p & Hp & Hc). unfold get_player. rewrite (proj2 (Z.ltb_ge _ _)) by done. rewrite Hp. cbn [of_option obind].
  apply lock_cards in El as [Hc1 Hc2]; [|unfold locked_doors; repeat constructor; cbn; unfold it_bluecard, it_blueskull, it_redcard, it_redskull, it_yellowcard, it_yellowskull; lia].
  destruct (lacks_run card skull p Hc Hc1 Hc2) as [[] ->]; cbn [obind]; [by apply refuse_wf|by apply door_safe].
Qed.

(** ** Doors by hand *)
Lemma frame_map self s w w' : frame self s w w' -> same_map w w'.
Proof.
  intros Fr. split; [apply Fr|apply Fr|apply Fr| |apply Fr]. intros k sec' Ek. destruct (decide (k = s)) as [->|Hne].
  - destruct (lookup_lt_is_Some_2 (sectors (gm w)) s) as [sec E]; [rewrite <- (fr_length _ _ _ _ Fr); by eapply lookup_lt_Some|].
    destruct (fr_here _ _ _ _ Fr sec E) as (x & Ex & R1 & R2 & _). assert (x = sec') as -> by congruence. by exists sec.
  - rewrite (fr_sectors _ _ _ _ Fr) in Ek by done. by exists sec'.
Qed.
Lemma put_wf self th th' w : level_wf w -> thing_at self (gm w) = Some th -> alive th -> mover_sector th <> None ->
  mover_sector th' = mover_sector th -> thing_action th' = thing_action th -> thing_function th' = thing_function th ->
  wf_on w (w <| gm ::= put_thing self th' |>).
Proof.
  intros Hi Hat Hal Hm E1 E2 E3. destruct (li_movers _ Hi self th Hat Hal Hm) as (s & sec & Hms & Hsec & Hown & _ & _).
  assert (Hmv : is_mover th' = true) by (eapply mover_is_mover; by rewrite E1).
  assert (Fr : frame self s w (w <| gm ::= put_thing self th' |>)) by (by apply frame_put).
  split; [|by eapply frame_map]. apply (plane_step_inv self s th sec th' sec w); try done; [by eapply addr_nonzero|].
  split; try done.
  - by eapply thing_at_put_same.
  - cbn. by rewrite list_insert_id.
  - left. by split_and!.
Qed.

(** The function of a mover is its own, or the mover is stopped. *)
Lemma own_function self th w : level_wf w -> thing_at self (gm w) = Some th -> alive th -> mover_sector th <> None ->
  forall a, thing_function th = fn_addr a -> thing_action th = a.
Proof.
  intros Hi Hat Hal Hm a Hf. destruct (li_movers _ Hi self th Hat Hal Hm) as (s & sec & _ & _ & _ & _ & [Hf'|[_ Hf']]).
  - apply fn_inj. congruence.
  - rewrite Hf' in Hf. by destruct (fn_nonzero a).
Qed.
(** What a line by hand may find in its sector: not a floor on a 64-bit
    target, where the place of the direction is not part of it. *)
Definition has_place (th : thing) : Prop := match th, the_abi with TFloor _, LP64 => False | _, _ => True end.
Lemma set_pun_run v th : mover_sector th <> None -> has_place th ->
  exists d th', pun_direction th = Ret d /\ set_pun v th = Ret th' /\ mover_sector th' = mover_sector th /\
    thing_action th' = thing_action th /\ thing_function th' = thing_function th.
Proof.
  intros Hm Hp. unfold has_place, pun_direction, set_pun in *.
  destruct th, the_abi; try done; (eexists _, _; split; [reflexivity|]; split; [reflexivity|]; done).
Qed.
Lemma use_mover_safe self th mo w : level_wf w -> thing_at self (gm w) = Some th -> alive th -> mover_sector th <> None -> has_place th ->
  safe (use_mover self mo w) (wf_on w).
Proof.
  intros Hi Hat Hal Hm Hp. unfold use_mover. rewrite Hat. cbn [of_option obind].
  destruct (set_pun_run 1 th Hm Hp) as (d & t1 & -> & -> & U1 & U2 & U3). destruct (set_pun_run (-1) th Hm Hp) as (d' & t2 & _ & -> & V1 & V2 & V3).
  cbn [obind]. destruct (d =? -1); [by eapply put_wf|]. destruct (Mobj.player mo); [|done].
  destruct (_ =? fn_addr GameTypes.T_VerticalDoor); [by eapply put_wf|].
  destruct (_ =? fn_addr GameTypes.T_PlatRaise) eqn:Ef; breflect; [|by eapply put_wf].
  pose proof (own_function self th w Hi Hat Hal Hm _ Ef) as Ha. destruct th; try done. by eapply put_wf.
Qed.

Lemma open_manual_safe line sp s sec w : manual_special sp = true -> level_wf w -> sectors (gm w) !! s = Some sec -> Sector.specialdata sec = 0 ->
  exists w1, open_manual line sp s w = Ret (if once sp then w1 <| gm ::= clear_line line |> else w1) /\ wf_on w w1.
Proof.
  intros Hm Hi E Hz. unfold open_manual. set (w0 := S_StartSound _ _ w). unfold new_door.
  destruct (heap_fresh w0) as (self & -> & Hnz & Hfr). cbn [obind]. rewrite (fresh_run self s _ sec) by done. cbn [obind].
  set (d0 := (raw_door self) <| VlDoor.thinker ::= set_function GameTypes.T_VerticalDoor |> <| VlDoor.sector := Z.of_nat s |>
    <| VlDoor.direction := 1 |> <| VlDoor.speed := VDOORSPEED |> <| VlDoor.topwait := VDOORWAIT |>).
  destruct (manual_setup_run sp d0 Hm eq_refl eq_refl eq_refl) as (d1 & -> & D1 & D2 & _).
  set (w1 := fresh_world self s _ sec w0).
  assert (Hl1 : level_ok (gm w1)) by (apply fresh_ok; [apply Hi|done]).
  assert (Htop : exists top, open_height s (if once sp then w1 <| gm ::= clear_line line |> else w1) = Ret top).
  { unfold open_height. assert (Hx : exists h, P_FindLowestCeilingSurrounding (gm (if once sp then w1 <| gm ::= clear_line line |> else w1)) s = Ret h).
    { pose proof (fresh_here self s (TDoor (raw_door self)) sec w0 E) as E1. fold w1 in E1. destruct (once sp).
      - apply (searches_total (clear_line line (gm w1)) s (sec <| Sector.specialdata := self |>)); [by apply clear_line_level|exact E1].
      - by apply (searches_total (gm w1) s (sec <| Sector.specialdata := self |>)). }
    destruct Hx as [h ->]. by eexists. }
  destruct Htop as [top ->]. cbn [obind]. set (d := d1 <| VlDoor.topheight := top |>).
  exists (put_door self d w1). split; [by destruct (once sp)|].
  apply (fresh_wf self s (TDoor d) (TDoor (raw_door self)) sec (sec <| Sector.specialdata := self |>) w); try done.
  - exact (fresh_sectors self s (TDoor (raw_door self)) sec w0).
  - cbn. by rewrite D2.
  - unfold thing_function, thing_thinker. cbn. by rewrite D1.
Qed.
End starts.
