(* ===== verification/Teleport.v ===== *)
(** * Teleporters (src/commands/doom/p_telept.c)

    A thing that crosses the line goes to the first teleport destination that
    stands in a sector with the tag of the line. Whether there is room for it
    is the matter of [P_TeleportMove] (p_map.c), which with [P_SpawnMobj]
    (p_mobj.c) is an interface here. *)
From S2P Require Import Prelude MFixed MRandom GameTypes Thinkers SectorSearch MovePlane Doors SaveArchive.
#[local] Open Scope doom_scope.

Class Bodies := {
  P_TeleportMove : Z -> Z -> Z -> world -> outcome (bool * world);
  P_SpawnMobj : Z -> Z -> Z -> Z -> world -> outcome (Z * world);
  (** [subsector->sector] *)
  sector_under : Z -> nat
}.
(** The table of tables.c; [finecosine] points into it. *)
Class Sines := finesine : list Z.
Definition FINEANGLES : Z := 8192.
Definition ANGLETOFINESHIFT : Z := 19.
Definition MF_MISSILE : Z := 65536.
Definition MT_TFOG : Z := 39.
Definition MT_TELEPORTMAN : Z := 41.

Section teleport.
Context {A : Arch} {im : Image} {B : Bodies} {sines : Sines}.

Definition get_mobj (self : Z) (w : world) : outcome Mobj.mobj_t :=
  match thing_at self (gm w) with Some (TMobj m) => Ret m | _ => Undef end.
Definition put_mobj (self : Z) (m : Mobj.mobj_t) (w : world) : world := w <| gm ::= put_thing self (TMobj m) |>.
Definition put_player (i : Z) (p : Player.player_t) (w : world) : world :=
  w <| gm ::= fun g => g <| players ::= <[Z.to_nat i := p]> |> |>.

(** The walk over the thinkers: the address of the first teleport destination in sector [i]. *)
Fixpoint find_teleportman (i : nat) (l : list (Z * thing)) : outcome (option Z) :=
  match l with
  | [] => Ret None
  | (a, th) :: l =>
      if negb (thing_function th =? fn_addr P_MobjThinker) then find_teleportman i l
      else
        match th with
        | TMobj m =>
            if negb (Mobj.type m =? MT_TELEPORTMAN) then find_teleportman i l
            else if negb (bool_decide (sector_under (Mobj.subsector m) = i)) then find_teleportman i l
            else Ret (Some a)
        | _ => Undef
        end
  end.
(** The loop over the sectors from number [i] on. *)
Fixpoint find_destination (tag : Z) (secs : list Sector.doomsector_t) (i : nat) (l : list (Z * thing)) : outcome (option Z) :=
  match secs with
  | [] => Ret None
  | sec :: secs =>
      if Sector.tag sec =? tag then
        let* r := find_teleportman i l in
        match r with
        | Some a => Ret (Some a)
        | None => find_destination tag secs (S i) l
        end
      else find_destination tag secs (S i) l
  end.

(** [thing->z = thing->floorz], and the eyes of a player go with it. *)
Definition land (gameversion : GameVersion_t) (self : Z) (w : world) : outcome world :=
  let* m := get_mobj self w in
  let m := match gameversion with exe_final => m | _ => m <| Mobj.z := Mobj.floorz m |> end in
  let w := put_mobj self m w in
  match Mobj.player m with
  | None => Ret w
  | Some i =>
      let* p := get_player i w in
      Ret (put_player i (p <| Player.viewz := i32 (Mobj.z m + Player.viewheight p) |>) w)
  end.

Definition telept_sound (fog : Z) (w : world) : world := S_StartSound (Some (org_thing fog)) sfx_telept w.

(** What happens once the thing has moved from its old place to [man]. *)
Definition arrive (gameversion : GameVersion_t) (self man oldx oldy oldz : Z) (w : world) : outcome world :=
  let* w := land gameversion self w in
  let* '(fog, w) := P_SpawnMobj oldx oldy oldz MT_TFOG w in
  let w := telept_sound fog w in
  let* m := get_mobj man w in
  let an := Z.shiftr (u32 (Mobj.angle m)) ANGLETOFINESHIFT in
  let* cos := get finesine (an + FINEANGLES ÷ 4) in
  let* sin := get finesine an in
  let* th := get_mobj self w in
  let* '(fog, w) := P_SpawnMobj (i32 (Mobj.x m + 20 * cos)) (i32 (Mobj.y m + 20 * sin)) (Mobj.z th) MT_TFOG w in
  let w := telept_sound fog w in
  let* th := get_mobj self w in
  let* m := get_mobj man w in
  let th := match Mobj.player th with Some _ => th <| Mobj.reactiontime := 18 |> | None => th end in
  Ret (put_mobj self (th <| Mobj.angle := Mobj.angle m |> <| Mobj.momz := 0 |> <| Mobj.momy := 0 |> <| Mobj.momx := 0 |>) w).

Definition EV_Teleport (gameversion : GameVersion_t) (li : Line.line_t) (side self : Z) (w : world) : outcome (Z * world) :=
  let* th := get_mobj self w in
  if has_flag (Mobj.flags th) MF_MISSILE then Ret (0, w)
  else if side =? 1 then Ret (0, w)
  else
    let* r := find_destination (Line.tag li) (sectors (gm w)) 0 (thinkers (gm w)) in
    match r with
    | None => Ret (0, w)
    | Some man =>
        let* m := get_mobj man w in
        let* '(moved, w) := P_TeleportMove self (Mobj.x m) (Mobj.y m) w in
        if negb moved then Ret (0, w)
        else
          let* w := arrive gameversion self man (Mobj.x th) (Mobj.y th) (Mobj.z th) w in
          Ret (1, w)
    end.
End teleport.
