(* ===== verification/TeleportTheorems.v ===== *)
(** * Teleporters: the theorems *)
From S2P Require Import Prelude MFixed MRandom GameTypes Thinkers SectorSearch MovePlane Frame Doors SaveArchive Ticker TickerTheorems LineSafety Teleport.
#[local] Open Scope doom_scope.

(** Only mobjs and players have changed: mobjs stay mobjs, and keep the
    player they belong to. *)
Record bodies {A : Arch} {im : Image} (w w' : world) : Prop := {
  by_sectors : sectors (gm w') = sectors (gm w);
  by_lines : lines (gm w') = lines (gm w);
  by_sides : sides (gm w') = sides (gm w);
  by_plats : activeplats (gm w') = activeplats (gm w);
  by_ceilings : activeceilings (gm w') = activeceilings (gm w);
  by_movers a th : is_mover th = true -> thing_at a (gm w') = Some th <-> thing_at a (gm w) = Some th;
  by_mobjs a m : thing_at a (gm w) = Some (TMobj m) ->
    exists m', thing_at a (gm w') = Some (TMobj m') /\ Mobj.player m' = Mobj.player m;
  by_addrs : addrs_ok (gm w) -> addrs_ok (gm w');
  by_actors : actors_ok (gm w) -> actors_ok (gm w');
  by_people : people_ok (gm w) -> people_ok (gm w')
}.
#[export] Instance bodies_pre {A : Arch} {im : Image} : PreOrder bodies.
Proof.
  split.
  - intros w. split; try done. intros a m Ha. by exists m.
  - intros w1 w2 w3 [A1 A2 A3 A4 A5 A6 A7 A8 A9 A10] [B1 B2 B3 B4 B5 B6 B7 B8 B9 B10]. split; try congruence; [| |auto..].
    + intros a th Hm. by rewrite B6, A6.
    + intros a m Ha. destruct (A7 a m Ha) as (m1 & Ha1 & E1). destruct (B7 a m1 Ha1) as (m2 & Ha2 & E2). exists m2. split; [done|congruence].
Qed.

(** What is relied on: moving a thing kills what is in its way, and on success
    it stands at the place; teleport destinations are in no block of the map,
    so nothing happens to them. A new object leaves the others alone. *)
Class BodiesLaws {A : Arch} {im : Image} {B : Bodies} : Prop := {
  teleport_moves self m x y w : thing_at self (gm w) = Some (TMobj m) ->
    safe (P_TeleportMove self x y w) (fun r => bodies w r.2 /\
      (forall a d, a <> self -> thing_at a (gm w) = Some (TMobj d) -> Mobj.type d = MT_TELEPORTMAN -> thing_at a (gm r.2) = Some (TMobj d)) /\
      (r.1 = true -> exists m', thing_at self (gm r.2) = Some (TMobj m') /\ Mobj.x m' = x /\ Mobj.y m' = y));
  spawn_adds x y z type w : safe (P_SpawnMobj x y z type w) (fun r => bodies w r.2 /\
    forall a th, thing_at a (gm w) = Some th -> thing_at a (gm r.2) = Some th)
}.

Section facts.
Context {A : Arch} {im : Image} {il : ImageLaws} {B : Bodies} {blaws : BodiesLaws} {sines : Sines}.
Implicit Types (w : world).

Lemma bodies_wf w w' : level_wf w -> bodies w w' -> wf_on w w'.
Proof.
  intros Hi Hb. pose proof Hb as [B1 B2 B3 B4 B5 B6 B7 B8 B9 B10].
  assert (Hfw : forall a th, is_mover th = true -> thing_at a (gm w) = Some th -> thing_at a (gm w') = Some th) by (intros a th Hm; apply B6; done).
  assert (Hbw : forall a th, is_mover th = true -> thing_at a (gm w') = Some th -> thing_at a (gm w) = Some th) by (intros a th Hm; apply B6; done).
  assert (Hsl : forall act l, act <> P_MobjThinker -> slots_ok act l (gm w) -> slots_ok act l (gm w')).
  { intros act l Hne [Hn Hs]. split; [done|]. intros p Hp Hz. destruct (Hs p Hp Hz) as (th & Ht & Ha & Hta). exists th. split; [|done].
    apply Hfw; [|done]. by destruct th. }
  split; [split|split]; rewrite ?B1, ?B2, ?B3, ?B4, ?B5; try done.
  - apply B8, Hi.
  - destruct (li_level _ Hi) as [L1 L2]. split; rewrite B1, B2; [exact L1|exact L2].
  - apply B9, Hi.
  - apply Hi.
  - intros a th Ha Hal Hm. destruct (li_movers _ Hi a th) as (s & sec & O); [apply Hbw; [by destruct th|done]|done|done|]. exists s, sec. by rewrite B1.
  - intros a p Ha Hal. apply (li_plats _ Hi a p); [by apply Hbw|done].
  - intros a th Ha Hal Hl. destruct (li_lights _ Hi a th) as (s & sec & lo & hi & O); [apply Hbw; [by destruct th|done]|done|done|]. exists s, sec, lo, hi. by rewrite B1.
  - intros s sec Es Hz. destruct (li_owner _ Hi s sec Es Hz) as (th & Ht & Ha & Hms). exists th. split; [|done]. apply Hfw; [|done]. by eapply mover_is_mover.
  - apply Hsl; [done|apply Hi].
  - apply Hsl; [done|apply Hi].
  - intros k sec' E. by exists sec'.
Qed.

(** ** The destination *)
Definition is_man (i : nat) (th : thing) : bool :=
  (thing_function th =? fn_addr P_MobjThinker) &&
  match th with TMobj m => (Mobj.type m =? MT_TELEPORTMAN) && bool_decide (sector_under (Mobj.subsector m) = i) | _ => false end.
(** The teleport destinations for a tag, in the order in which they are looked
    at: sector by sector, and in each sector in the order of the thinkers. *)
Definition men (i : nat) (l : list (Z * thing)) : list Z := fst <$> filter (fun x => is_man i x.2 = true) l.
Fixpoint arrivals (tag : Z) (secs : list Sector.doomsector_t) (i : nat) (l : list (Z * thing)) : list Z :=
  match secs with
  | [] => []
  | sec :: secs => (if Sector.tag sec =? tag then men i l else []) ++ arrivals tag secs (S i) l
  end.
(** What thinks like a mobj is one. *)
Definition typed (l : list (Z * thing)) : Prop := Forall (fun x => thing_function x.2 = fn_addr P_MobjThinker -> is_mover x.2 = false) l.

Lemma find_man_run i l : typed l -> find_teleportman i l = Ret (head (men i l)).
Proof.
  unfold men. induction 1 as [|[a th] l Ht Hl IH]; [done|].
  assert (E : find_teleportman i ((a, th) :: l) = if is_man i th then Ret (Some a) else find_teleportman i l).
  { cbn [find_teleportman snd] in *. unfold is_man. destruct (_ =? fn_addr P_MobjThinker) eqn:E; cbn [negb andb]; breflect; [|done].
    specialize (Ht E). destruct th as [m| | | | | | | |]; try done. destruct (_ =? MT_TELEPORTMAN); cbn [negb andb]; [|done]. by case_bool_decide. }
  rewrite E. destruct (is_man i th) eqn:Em; [by rewrite filter_cons_True|]. rewrite filter_cons_False; [done|]. cbn. congruence.
Qed.
Lemma find_destination_run tag secs l : typed l -> forall i, find_destination tag secs i l = Ret (head (arrivals tag secs i l)).
Proof.
  intros Ht. induction secs as [|sec secs IH]; intros i; [done|]. cbn [find_destination arrivals]. destruct (_ =? tag); [|apply IH].
  rewrite find_man_run by done. cbn [obind]. destruct (men i l); [apply IH|done].
Qed.
Lemma arrivals_in tag secs l a : forall i, a ∈ arrivals tag secs i l -> exists j sec m, secs !! j = Some sec /\ Sector.tag sec = tag /\
  (a, TMobj m) ∈ l /\ Mobj.type m = MT_TELEPORTMAN /\ sector_under (Mobj.subsector m) = (i + j)%nat.
Proof.
  induction secs as [|sec secs IH]; intros i; cbn [arrivals]; [by intros ?%elem_of_nil|]. intros [Ha|Ha]%elem_of_app.
  - destruct (_ =? tag) eqn:Et; [|by apply elem_of_nil in Ha]. breflect. apply list_elem_of_fmap in Ha as ([b th] & -> & [Hm Hin]%list_elem_of_filter).
    cbn in Hm. unfold is_man in Hm. apply andb_true_iff in Hm as [_ Hm]. destruct th as [m| | | | | | | |]; try done.
    apply andb_true_iff in Hm as [H1%Z.eqb_eq H2%bool_decide_eq_true]. exists 0%nat, sec, m. split_and!; try done. lia.
  - destruct (IH (S i) Ha) as (j & sec' & m & H1 & H2 & H3 & H4 & H5). exists (S j), sec', m. split_and!; try done. lia.
Qed.
Lemma thing_in_elem a th l : NoDup (fst <$> l) -> (a, th) ∈ l -> thing_in a l = Some th.
Proof.
  induction l as [|[b t] l IH]; [by intros _ ?%elem_of_nil|]. cbn. intros [Hn Hnd]%NoDup_cons [[= -> ->]|Hin]%elem_of_cons; [by rewrite Z.eqb_refl|].
  rewrite (proj2 (Z.eqb_neq b a)); [by apply IH|]. intros ->. apply Hn. apply (list_elem_of_fmap_2 fst _ (a, th)). done.
Qed.
Lemma level_typed w : level_wf w -> typed (thinkers (gm w)).
Proof.
  intros Hi. apply Forall_forall. intros [a th] Hin Hf. cbn [snd] in *. pose proof (thing_in_elem a th _ (proj1 (li_addrs _ Hi)) Hin) as Ha.
  assert (Hal : alive th) by (unfold alive; rewrite Hf; apply fn_live). destruct (is_mover th) eqn:Hm; [|done]. exfalso.
  destruct (mover_sector th) as [z|] eqn:Ez.
  - destruct (li_movers _ Hi a th Ha Hal ltac:(congruence)) as (s & sec & _ & _ & _ & _ & [Hf'|[_ Hf']]).
    + rewrite Hf in Hf'. apply fn_inj in Hf'. by destruct th.
    + rewrite Hf in Hf'. by destruct (fn_nonzero P_MobjThinker).
  - destruct (is_light th) eqn:El; [|by destruct th]. destruct (li_lights _ Hi a th Ha Hal El) as (s & sec & lo & hi & _ & _ & Hf').
    rewrite Hf in Hf'. apply fn_inj in Hf'. by destruct th.
Qed.

(** ** The way there *)
Lemma bodies_put self m m' w : thing_at self (gm w) = Some (TMobj m) -> Mobj.thinker m' = Mobj.thinker m -> Mobj.player m' = Mobj.player m ->
  bodies w (put_mobj self m' w).
Proof.
  intros Hat Et Ep. assert (Hth : forall a, thing_at a (gm (put_mobj self m' w)) = if a =? self then Some (TMobj m') else thing_at a (gm w)).
  { intros a. change (gm (put_mobj self m' w)) with (put_thing self (TMobj m') (gm w)). rewrite thing_at_put, Hat. done. }
  split; try done.
  - intros a th Hm. rewrite Hth. destruct (a =? self) eqn:E; breflect; [|done]. subst a. rewrite Hat. split; intros [= <-]; done.
  - intros a x Ha. rewrite Hth. destruct (a =? self) eqn:E; breflect; [|by exists x]. subst a. exists m'. split; [done|]. congruence.
  - unfold addrs_ok. change (gm (put_mobj self m' w)) with (put_thing self (TMobj m') (gm w)). by rewrite addresses_put.
  - intros Hok a x. rewrite Hth. destruct (a =? self) eqn:E; breflect; [|apply Hok]. intros [= <-]. subst a.
    destruct (Hok self m Hat) as [Hf|Hf]; [left|right]; revert Hf; unfold thing_function, thing_thinker; by rewrite Et.
  - intros Hok a x j. rewrite Hth. destruct (a =? self) eqn:E; breflect; [|apply Hok]. intros [= <-] Hj. apply (Hok self m j); [done|congruence].
Qed.
Lemma bodies_player i p p' w : 0 <= i -> players (gm w) !! Z.to_nat i = Some p -> Player.cards p' = Player.cards p -> bodies w (put_player i p' w).
Proof.
  intros Hi Hp Hc. split; try done; [by intros a m Ha; exists m|]. intros Hok a m j Ha Hj. destruct (Hok a m j Ha Hj) as (Hj0 & q & Hq & Hl). split; [done|].
  change (players (gm (put_player i p' w))) with (<[Z.to_nat i := p']> (players (gm w))). destruct (decide (Z.to_nat i = Z.to_nat j)) as [E|E].
  - rewrite <- E, list_lookup_insert_eq by (by eapply lookup_lt_Some). exists p'. split; [done|]. rewrite <- E, Hp in Hq. injection Hq as <-. congruence.
  - rewrite list_lookup_insert_ne by done. by exists q.
Qed.

Definition landed (gameversion : GameVersion_t) (m : Mobj.mobj_t) : Mobj.mobj_t :=
  match gameversion with exe_final => m | _ => m <| Mobj.z := Mobj.floorz m |> end.
Lemma land_run gv self m w : people_ok (gm w) -> thing_at self (gm w) = Some (TMobj m) ->
  exists w', land gv self w = Ret w' /\ bodies w w' /\ thing_at self (gm w') = Some (TMobj (landed gv m)) /\
    forall a, a <> self -> thing_at a (gm w') = thing_at a (gm w).
Proof.
  intros Hp Hat. unfold land, get_mobj. rewrite Hat. cbn [obind]. fold (landed gv m). set (w1 := put_mobj self (landed gv m) w).
  assert (El : Mobj.thinker (landed gv m) = Mobj.thinker m /\ Mobj.player (landed gv m) = Mobj.player m) by (by destruct gv).
  assert (B1 : bodies w w1) by (by eapply bodies_put; [done|apply El..]).
  assert (Hat1 : thing_at self (gm w1) = Some (TMobj (landed gv m))) by (by eapply thing_at_put_same).
  assert (Ho1 : forall a, a <> self -> thing_at a (gm w1) = thing_at a (gm w)).
  { intros a Ha. change (thing_at a (put_thing self (TMobj (landed gv m)) (gm w)) = thing_at a (gm w)). by rewrite thing_at_put, (proj2 (Z.eqb_neq a self)). }
  destruct (Mobj.player (landed gv m)) as [i|] eqn:Epl; [|by exists w1].
  destruct (by_people _ _ B1 Hp self _ i Hat1 Epl) as (Hi & p & Ep & Hc). unfold get_player. rewrite (proj2 (Z.ltb_ge _ _)) by done. rewrite Ep. cbn [of_option obind].
  eexists. split; [reflexivity|]. split_and!; [|done|done]. transitivity w1; [done|]. by eapply bodies_player.
Qed.

Hypothesis table_size : Z.of_nat (length finesine) = 10240.
Lemma fine_run an : 0 <= an < 8192 -> (exists c, get finesine (an + FINEANGLES ÷ 4) = Ret c) /\ exists s, get finesine an = Ret s.
Proof.
  intros Ha. change (FINEANGLES ÷ 4) with 2048. unfold get. rewrite !(proj2 (Z.ltb_ge _ 0)) by lia. split.
  - destruct (lookup_lt_is_Some_2 finesine (Z.to_nat (an + 2048))) as [x ->]; [lia|by eexists].
  - destruct (lookup_lt_is_Some_2 finesine (Z.to_nat an)) as [x ->]; [lia|by eexists].
Qed.
Lemma fine_angle x : 0 <= Z.shiftr (u32 x) ANGLETOFINESHIFT < 8192.
Proof.
  unfold u32, wrapu, ANGLETOFINESHIFT. rewrite Z.shiftr_div_pow2 by lia. pose proof (Z.mod_pos_bound x (2 ^ 32) ltac:(done)) as Hm.
  change (2 ^ 32) with 4294967296 in *. change (2 ^ 19) with 524288. zlia.
Qed.

(** The thing at the end: it stands still at the destination [d], looks where
    [d] looks, and a player cannot move for half a second. *)
Record teleported (gameversion : GameVersion_t) (d m m' : Mobj.mobj_t) : Prop := {
  te_still : Mobj.momx m' = 0 /\ Mobj.momy m' = 0 /\ Mobj.momz m' = 0;
  te_angle : Mobj.angle m' = Mobj.angle d;
  te_place : Mobj.x m' = Mobj.x m /\ Mobj.y m' = Mobj.y m /\ Mobj.z m' = Mobj.z (landed gameversion m);
  te_frozen : Mobj.player m' <> None -> Mobj.reactiontime m' = 18
}.
Definition settled (d m : Mobj.mobj_t) : Mobj.mobj_t :=
  (match Mobj.player m with Some _ => m <| Mobj.reactiontime := 18 |> | None => m end)
    <| Mobj.angle := Mobj.angle d |> <| Mobj.momz := 0 |> <| Mobj.momy := 0 |> <| Mobj.momx := 0 |>.
Lemma settled_spec gv d m : Mobj.thinker (settled d (landed gv m)) = Mobj.thinker (landed gv m) /\
  Mobj.player (settled d (landed gv m)) = Mobj.player (landed gv m) /\ teleported gv d m (settled d (landed gv m)).
Proof. destruct m, gv; unfold settled, landed; cbn; case_match; subst; split_and!; done || (split; done). Qed.
Lemma arrive_safe gv self man m d x y z w : people_ok (gm w) -> thing_at self (gm w) = Some (TMobj m) -> thing_at man (gm w) = Some (TMobj d) ->
  man <> self -> safe (arrive gv self man x y z w) (fun w' => bodies w w' /\ exists m', thing_at self (gm w') = Some (TMobj m') /\ teleported gv d m m').
Proof.
  intros Hp Hat Hman Hne. unfold arrive. destruct (land_run gv self m w Hp Hat) as (w1 & -> & B1 & Hat1 & Ho1). cbn [obind].
  assert (Hm1 : thing_at man (gm w1) = Some (TMobj d)) by (by rewrite Ho1). apply safe_bind.
  eapply safe_mono; [apply spawn_adds|]. intros [fog w2] [B2 K2]. cbn [snd] in *. set (w3 := telept_sound fog w2).
  assert (E3 : gm w3 = gm w2) by done. unfold get_mobj. rewrite E3, (K2 man _ Hm1). cbn [obind].
  destruct (fine_run _ (fine_angle (Mobj.angle d))) as [[c ->] [s' ->]]. cbn [obind]. rewrite (K2 self _ Hat1). cbn [obind]. apply safe_bind.
  eapply safe_mono; [apply spawn_adds|]. intros [fog2 w4] [B4 K4]. cbn [snd] in *. rewrite E3 in K4. set (w5 := telept_sound fog2 w4).
  assert (E5 : gm w5 = gm w4) by done. assert (Hs5 : thing_at self (gm w5) = Some (TMobj (landed gv m))) by (rewrite E5; by apply K4, K2).
  assert (Hd5 : thing_at man (gm w5) = Some (TMobj d)) by (rewrite E5; by apply K4, K2). rewrite Hs5, Hd5. cbn [obind safe].
  destruct (settled_spec gv d m) as (Hk1 & Hk2 & Hk3). fold (settled d (landed gv m)).
  assert (B25 : bodies w w5).
  { transitivity w1; [done|]. transitivity w2; [done|]. destruct B4. by split. }
  split; [transitivity w5; [done|]; by eapply bodies_put|]. exists (settled d (landed gv m)). split; [by eapply thing_at_put_same|done].
Qed.

(** Where a thing is teleported to, if it is. *)
Definition destination (li : Line.line_t) (side : Z) (th : Mobj.mobj_t) w : option Z :=
  if has_flag (Mobj.flags th) MF_MISSILE || (side =? 1) then None else head (arrivals (Line.tag li) (sectors (gm w)) 0 (thinkers (gm w))).
Lemma teleport_run gv li side self th w : level_wf w -> people_ok (gm w) -> thing_at self (gm w) = Some (TMobj th) -> Mobj.type th <> MT_TELEPORTMAN ->
  safe (EV_Teleport gv li side self w) (fun r => bodies w r.2 /\
    match destination li side th w with
    | None => r = (0, w)
    | Some man => exists d, thing_at man (gm w) = Some (TMobj d) /\ Mobj.type d = MT_TELEPORTMAN /\
        exists moved w1, P_TeleportMove self (Mobj.x d) (Mobj.y d) w = Ret (moved, w1) /\
        if moved then r.1 = 1 /\ exists m m', thing_at self (gm w1) = Some (TMobj m) /\ thing_at self (gm r.2) = Some (TMobj m') /\
             Mobj.x m' = Mobj.x d /\ Mobj.y m' = Mobj.y d /\ Mobj.player m' = Mobj.player th /\ teleported gv d m m'
        else r = (0, w1)
    end).
Proof.
  intros Hi Hp Hat Hty. unfold EV_Teleport, destination, get_mobj. rewrite Hat. cbn [obind].
  destruct (has_flag _ _); [done|]. destruct (side =? 1); [done|]. cbn [orb]. rewrite find_destination_run by (by apply level_typed). cbn [obind].
  destruct (head _) as [man|] eqn:Eh; [|done].
  assert (Hin : man ∈ arrivals (Line.tag li) (sectors (gm w)) 0 (thinkers (gm w))) by (destruct (arrivals _ _ _ _); [done|]; injection Eh as ->; left).
  apply arrivals_in in Hin as (j & sec & d & _ & _ & Hd & Htd & _). apply thing_in_elem in Hd; [|apply (li_addrs _ Hi)].
  assert (Hne : man <> self) by (intros ->; unfold thing_at in Hat; congruence). change (thing_at man (gm w) = Some (TMobj d)) in Hd. rewrite Hd. cbn [obind].
  pose proof (teleport_moves self th (Mobj.x d) (Mobj.y d) w Hat) as Hmv.
  destruct (P_TeleportMove self (Mobj.x d) (Mobj.y d) w) as [[[] w1]| | |] eqn:Emv; try done; destruct Hmv as (B1 & K1 & M1); cbn [fst snd negb obind] in *.
  - destruct (M1 eq_refl) as (m & Hm & Hx & Hy). apply safe_bind. eapply safe_mono; [apply (arrive_safe gv self man m d)|]; try done;
      [by apply (by_people _ _ B1)|by apply K1|]. intros w2 (B2 & m' & Hm' & Ht). assert (B12 : bodies w w2) by (by transitivity w1). split; [done|].
    exists d. split_and!; [done|done|]. exists true, w1. split; [done|]. split; [done|]. exists m, m'. destruct (te_place _ _ _ _ Ht) as (P1 & P2 & _).
    destruct (by_mobjs _ _ B12 self th Hat) as (m2 & Hm2 & Hpl). split_and!; congruence || done.
  - split; [done|]. exists d. split_and!; [done|done|]. by exists false, w1.
Qed.
End facts.
