(* ===== verification/LineSpecials.v ===== *)
(** * Lines and sectors with a special (src/commands/doom/p_spec.c, p_switch.c)

    What a line does when something crosses it, shoots it or uses it, what the
    special of a sector does to a player on its floor, and how a level starts its
    specials. The code dispatches on the number of the special; here [effect] names
    the call a case makes, [run_effect] makes it, and the tables [cross_special] and
    [use_special] have one line for each case. *)
From S2P Require Import Prelude MFixed MRandom GameTypes Thinkers SectorSearch MovePlane Plats Doors Ceilings Floors Lights.
From S2P Require Import SaveArchive Teleport Switches.
#[local] Open Scope doom_scope.

Definition ML_SECRET : Z := 32.
Definition MT_BRUISERSHOT : Z := 16.
Definition MT_TROOPSHOT : Z := 31.
Definition MT_HEADSHOT : Z := 32.
Definition MT_ROCKET : Z := 33.
Definition MT_PLASMA : Z := 34.
Definition MT_BFG : Z := 35.
Definition CF_GODMODE : Z := 2.
Definition pw_ironfeet : Z := 3.

(** What the rest of the program provides: the edition of the game, its
    version, a lump of the WAD, and the values that the parameter -donut leaves
    behind. *)
Class Edition := {
  gamemode : gamemode_t;
  gameversion : GameVersion_t;
  W_CheckNumForName : string -> Z;
  donut_floorheight : Z;
  donut_floorpic : Z;
  numflats : Z
}.
(** [P_DamageMobj] of p_inter.c *)
Class Damage := P_DamageMobj : Z -> option Z -> option Z -> Z -> world -> outcome world.

Inductive effect : Set :=
| EDoor (type : Z) | ELocked (type : Z) | EFloor (type : Z) | ECeiling (type : Z) | EPlat (type amount : Z) | EStairs (type : Z)
| EDonut | ELight (bright : Z) | EStrobe | ELightsOff | EStopPlat | ECrushStop | ETeleport | EExit | ESecretExit.

Section specials.
Context {A : Arch} {im : Image} {C : Crush} {H : Heap} {msgs : Messages} {tx : Textures} {B : Bodies} {sines : Sines} {ed : Edition}.

(** ** EV_DoDonut *)

(** What is read through a null sector, with its check of the parameter. *)
Definition DonutOverrun : Z * Z :=
  (donut_floorheight, i16 (if donut_floorpic >=? numflats then 22 else donut_floorpic)).

(** The loop over the lines of [s2]: the floor around the ring. *)
Fixpoint donut_rim (s1 : nat) (ls : list nat) (g : game) : outcome (option (Z * Z)) :=
  match ls with
  | [] => Ret None
  | l :: ls =>
      let* li := of_option (lines g !! l) in
      match Line.backsector li with
      | None => Ret (Some DonutOverrun)
      | Some s3 =>
          if bool_decide (s3 = s1) then donut_rim s1 ls g
          else let* sec := of_option (sectors g !! s3) in Ret (Some (Sector.floorheight sec, Sector.floorpic sec))
      end
  end.

Definition donut_floor (secnum : nat) (fill : FloorMove.floormove_t -> FloorMove.floormove_t) (w : world) : outcome world :=
  let* self := heap_malloc w in
  let w := w <| gm ::= P_AddThinker self (TFloor (raw_floor self)) |> in
  let* w := on_game (set_specialdata (Z.of_nat secnum) self) w in
  Ret (put_floor self (fill ((raw_floor self) <| FloorMove.thinker ::= set_function GameTypes.T_MoveFloor |>
                               <| FloorMove.crush := 0 |> <| FloorMove.sector := Z.of_nat secnum |> <| FloorMove.speed := FLOORSPEED ÷ 2 |>)) w).
Definition rising_slime (height pic : Z) (f : FloorMove.floormove_t) : FloorMove.floormove_t :=
  f <| FloorMove.type := donutRaise |> <| FloorMove.direction := 1 |> <| FloorMove.texture := pic |> <| FloorMove.newspecial := 0 |>
    <| FloorMove.floordestheight := height |>.
Definition lowering_hole (height : Z) (f : FloorMove.floormove_t) : FloorMove.floormove_t :=
  f <| FloorMove.type := lowerFloor |> <| FloorMove.direction := -1 |> <| FloorMove.floordestheight := height |>.

(** The body of the loop; after its [break] the flag is set and nothing more
    is done. *)
Definition start_donut (s1 : nat) (st : Z * bool * world) : outcome (Z * bool * world) :=
  let '(rtn, over, w) := st in
  if over : bool then Ret st
  else
    let* sec := get_sector (Z.of_nat s1) w in
    if truth (Sector.specialdata sec) then Ret st
    else
      let* l := of_option (Sector.lines sec !! 0%nat) in
      let* li := of_option (lines (gm w) !! l) in
      match getNextSector li s1 with
      | None => Ret (1, true, w)
      | Some s2 =>
          let* sec2 := of_option (sectors (gm w) !! s2) in
          let* r := donut_rim s1 (Sector.lines sec2) (gm w) in
          match r with
          | None => Ret (1, false, w)
          | Some (height, pic) =>
              let* w := donut_floor s2 (rising_slime height pic) w in
              let* w := donut_floor s1 (lowering_hole height) w in
              Ret (1, false, w)
          end
      end.
Definition EV_DoDonut (li : Line.line_t) (w : world) : outcome (Z * world) :=
  let* '(rtn, _, w) := for_tagged (fun st : Z * bool * world => gm st.2) (S (length (sectors (gm w)))) (Line.tag li) (-1) start_donut
                         (0, false, w) in
  Ret (rtn, w).

(** ** The calls *)

(** [G_SecretExitLevel] of g_game.c *)
Definition G_SecretExitLevel (st : stage) : stage :=
  let none := match gamemode with commercial => W_CheckNumForName "map31" <? 0 | _ => false end in
  st <| secretexit := negb none |> <| gameaction := ga_completed |>.

(** A call that returns something, and one that does not. *)
Definition on_world (m : world -> outcome (Z * world)) (st : stage) : outcome (Z * stage) :=
  let* '(rtn, w) := m (wd st) in Ret (rtn, st <| wd := w |>).
Definition on_world_ (m : world -> outcome world) (st : stage) : outcome (Z * stage) :=
  let* w := m (wd st) in Ret (0, st <| wd := w |>).

Definition run_effect (line : nat) (side self : Z) (e : effect) (st : stage) : outcome (Z * stage) :=
  let* li := of_option (lines (gm (wd st)) !! line) in
  match e with
  | EDoor type => on_world (EV_DoDoor li type) st
  | ELocked type => let* th := get_mobj self (wd st) in on_world (EV_DoLockedDoor li type th) st
  | EFloor type => on_world (EV_DoFloor li type) st
  | ECeiling type => on_world (EV_DoCeiling li type) st
  | EPlat type amount => on_world (EV_DoPlat li type amount) st
  | EStairs type => on_world (EV_BuildStairs li type) st
  | EDonut => on_world (EV_DoDonut li) st
  | ELight bright => on_world_ (EV_LightTurnOn li bright) st
  | EStrobe => on_world_ (EV_StartLightStrobing li) st
  | ELightsOff => on_world_ (EV_TurnTagLightsOff li) st
  | EStopPlat => on_world_ (EV_StopPlat (Line.tag li)) st
  | ECrushStop => on_world (EV_CeilingCrushStop li) st
  | ETeleport => on_world (EV_Teleport gameversion li side self) st
  | EExit => Ret (0, G_ExitLevel st)
  | ESecretExit => Ret (0, G_SecretExitLevel st)
  end.
Fixpoint run_effects (line : nat) (side self : Z) (es : list effect) (st : stage) : outcome stage :=
  match es with
  | [] => Ret st
  | e :: es => let* '(_, st) := run_effect line side self e st in run_effects line side self es st
  end.

(** ** Crossing a line *)

(** The calls of a case, and whether it ends with [line->special = 0]. *)
Definition cross_special (player : bool) (special : Z) : option (list effect * bool) :=
  match special with
  | 2 => Some ([EDoor vld_open], true)
  | 3 => Some ([EDoor vld_close], true)
  | 4 => Some ([EDoor vld_normal], true)
  | 5 => Some ([EFloor raiseFloor], true)
  | 6 => Some ([ECeiling fastCrushAndRaise], true)
  | 8 => Some ([EStairs build8], true)
  | 10 => Some ([EPlat downWaitUpStay 0], true)
  | 12 => Some ([ELight 0], true)
  | 13 => Some ([ELight 255], true)
  | 16 => Some ([EDoor vld_close30ThenOpen], true)
  | 17 => Some ([EStrobe], true)
  | 19 => Some ([EFloor lowerFloor], true)
  | 22 => Some ([EPlat raiseToNearestAndChange 0], true)
  | 25 => Some ([ECeiling crushAndRaise], true)
  | 30 => Some ([EFloor raiseToTexture], true)
  | 35 => Some ([ELight 35], true)
  | 36 => Some ([EFloor turboLower], true)
  | 37 => Some ([EFloor lowerAndChange], true)
  | 38 => Some ([EFloor lowerFloorToLowest], true)
  | 39 => Some ([ETeleport], true)
  | 40 => Some ([ECeiling raiseToHighest; EFloor lowerFloorToLowest], true)
  | 44 => Some ([ECeiling lowerAndCrush], true)
  | 52 => Some ([EExit], false)
  | 53 => Some ([EPlat perpetualRaise 0], true)
  | 54 => Some ([EStopPlat], true)
  | 56 => Some ([EFloor raiseFloorCrush], true)
  | 57 => Some ([ECrushStop], true)
  | 58 => Some ([EFloor raiseFloor24], true)
  | 59 => Some ([EFloor raiseFloor24AndChange], true)
  | 104 => Some ([ELightsOff], true)
  | 108 => Some ([EDoor vld_blazeRaise], true)
  | 109 => Some ([EDoor vld_blazeOpen], true)
  | 100 => Some ([EStairs turbo16], true)
  | 110 => Some ([EDoor vld_blazeClose], true)
  | 119 => Some ([EFloor raiseFloorToNearest], true)
  | 121 => Some ([EPlat blazeDWUS 0], true)
  | 124 => Some ([ESecretExit], false)
  | 125 => if player then None else Some ([ETeleport], true)
  | 130 => Some ([EFloor raiseFloorTurbo], true)
  | 141 => Some ([ECeiling silentCrushAndRaise], true)
  | 72 => Some ([ECeiling lowerAndCrush], false)
  | 73 => Some ([ECeiling crushAndRaise], false)
  | 74 => Some ([ECrushStop], false)
  | 75 => Some ([EDoor vld_close], false)
  | 76 => Some ([EDoor vld_close30ThenOpen], false)
  | 77 => Some ([ECeiling fastCrushAndRaise], false)
  | 79 => Some ([ELight 35], false)
  | 80 => Some ([ELight 0], false)
  | 81 => Some ([ELight 255], false)
  | 82 => Some ([EFloor lowerFloorToLowest], false)
  | 83 => Some ([EFloor lowerFloor], false)
  | 84 => Some ([EFloor lowerAndChange], false)
  | 86 => Some ([EDoor vld_open], false)
  | 87 => Some ([EPlat perpetualRaise 0], false)
  | 88 => Some ([EPlat downWaitUpStay 0], false)
  | 89 => Some ([EStopPlat], false)
  | 90 => Some ([EDoor vld_normal], false)
  | 91 => Some ([EFloor raiseFloor], false)
  | 92 => Some ([EFloor raiseFloor24], false)
  | 93 => Some ([EFloor raiseFloor24AndChange], false)
  | 94 => Some ([EFloor raiseFloorCrush], false)
  | 95 => Some ([EPlat raiseToNearestAndChange 0], false)
  | 96 => Some ([EFloor raiseToTexture], false)
  | 97 => Some ([ETeleport], false)
  | 98 => Some ([EFloor turboLower], false)
  | 105 => Some ([EDoor vld_blazeRaise], false)
  | 106 => Some ([EDoor vld_blazeOpen], false)
  | 107 => Some ([EDoor vld_blazeClose], false)
  | 120 => Some ([EPlat blazeDWUS 0], false)
  | 126 => if player then None else Some ([ETeleport], false)
  | 128 => Some ([EFloor raiseFloorToNearest], false)
  | 129 => Some ([EFloor raiseFloorTurbo], false)
  | _ => None
  end.

(** Things that should not trigger specials. *)
Definition is_shot (type : Z) : bool :=
  (type =? MT_ROCKET) || (type =? MT_PLASMA) || (type =? MT_BFG) || (type =? MT_TROOPSHOT) || (type =? MT_HEADSHOT) || (type =? MT_BRUISERSHOT).
(** The lines that other things than players can cross. *)
Definition monster_crosses (special : Z) : bool :=
  match special with 39 | 97 | 125 | 126 | 4 | 10 | 88 => true | _ => false end.
Definition is_player (th : Mobj.mobj_t) : bool := match Mobj.player th with Some _ => true | None => false end.

Definition P_CrossSpecialLine (linenum : nat) (side self : Z) (st : stage) : outcome stage :=
  let* li := of_option (lines (gm (wd st)) !! linenum) in
  let* th := get_mobj self (wd st) in
  if negb (is_player th) && is_shot (Mobj.type th) then Ret st
  else if negb (is_player th) && negb (monster_crosses (Line.special li)) then Ret st
  else
    match cross_special (is_player th) (Line.special li) with
    | None => Ret st
    | Some (es, once) =>
        let* st := run_effects linenum side self es st in
        Ret (if once : bool then clear_special_line linenum st else st)
    end.

(** ** Shooting a line *)
Definition shoot_special (special : Z) : option (effect * Z) :=
  match special with
  | 24 => Some (EFloor raiseFloor, 0)
  | 46 => Some (EDoor vld_open, 1)
  | 47 => Some (EPlat raiseToNearestAndChange 0, 0)
  | _ => None
  end.
Definition P_ShootSpecialLine (self : Z) (line : nat) (st : stage) : outcome stage :=
  let* li := of_option (lines (gm (wd st)) !! line) in
  let* th := get_mobj self (wd st) in
  if negb (is_player th) && negb (Line.special li =? 46) then Ret st
  else
    match shoot_special (Line.special li) with
    | None => Ret st
    | Some (e, again) =>
        let* '(_, st) := run_effect line 0 self e st in P_ChangeSwitchTexture line again st
    end.

(** ** Using a line *)

(** A door by hand; a switch that changes when its call started something,
    one that changes after it in any case, or before it. *)
Inductive use_action : Set :=
| Manual | IfStarted (e : effect) (again : Z) | After (e : effect) (again : Z) | Before (e : effect) (again : Z) | Nothing.
Definition use_special (special : Z) : use_action :=
  match special with
  | 1 | 26 | 27 | 28 | 31 | 32 | 33 | 34 | 117 | 118 => Manual
  | 7 => IfStarted (EStairs build8) 0
  | 9 => IfStarted EDonut 0
  | 11 => Before EExit 0
  | 14 => IfStarted (EPlat raiseAndChange 32) 0
  | 15 => IfStarted (EPlat raiseAndChange 24) 0
  | 18 => IfStarted (EFloor raiseFloorToNearest) 0
  | 20 => IfStarted (EPlat raiseToNearestAndChange 0) 0
  | 21 => IfStarted (EPlat downWaitUpStay 0) 0
  | 23 => IfStarted (EFloor lowerFloorToLowest) 0
  | 29 => IfStarted (EDoor vld_normal) 0
  | 41 => IfStarted (ECeiling lowerToFloor) 0
  | 71 => IfStarted (EFloor turboLower) 0
  | 49 => IfStarted (ECeiling crushAndRaise) 0
  | 50 => IfStarted (EDoor vld_close) 0
  | 51 => Before ESecretExit 0
  | 55 => IfStarted (EFloor raiseFloorCrush) 0
  | 101 => IfStarted (EFloor raiseFloor) 0
  | 102 => IfStarted (EFloor lowerFloor) 0
  | 103 => IfStarted (EDoor vld_open) 0
  | 111 => IfStarted (EDoor vld_blazeRaise) 0
  | 112 => IfStarted (EDoor vld_blazeOpen) 0
  | 113 => IfStarted (EDoor vld_blazeClose) 0
  | 122 => IfStarted (EPlat blazeDWUS 0) 0
  | 127 => IfStarted (EStairs turbo16) 0
  | 131 => IfStarted (EFloor raiseFloorTurbo) 0
  | 133 | 135 | 137 => IfStarted (ELocked vld_blazeOpen) 0
  | 140 => IfStarted (EFloor raiseFloor512) 0
  | 42 => IfStarted (EDoor vld_close) 1
  | 43 => IfStarted (ECeiling lowerToFloor) 1
  | 45 => IfStarted (EFloor lowerFloor) 1
  | 60 => IfStarted (EFloor lowerFloorToLowest) 1
  | 61 => IfStarted (EDoor vld_open) 1
  | 62 => IfStarted (EPlat downWaitUpStay 1) 1
  | 63 => IfStarted (EDoor vld_normal) 1
  | 64 => IfStarted (EFloor raiseFloor) 1
  | 66 => IfStarted (EPlat raiseAndChange 24) 1
  | 67 => IfStarted (EPlat raiseAndChange 32) 1
  | 65 => IfStarted (EFloor raiseFloorCrush) 1
  | 68 => IfStarted (EPlat raiseToNearestAndChange 0) 1
  | 69 => IfStarted (EFloor raiseFloorToNearest) 1
  | 70 => IfStarted (EFloor turboLower) 1
  | 114 => IfStarted (EDoor vld_blazeRaise) 1
  | 115 => IfStarted (EDoor vld_blazeOpen) 1
  | 116 => IfStarted (EDoor vld_blazeClose) 1
  | 123 => IfStarted (EPlat blazeDWUS 0) 1
  | 132 => IfStarted (EFloor raiseFloorTurbo) 1
  | 99 | 134 | 136 => IfStarted (ELocked vld_blazeOpen) 1
  | 138 => After (ELight 255) 1
  | 139 => After (ELight 35) 1
  | _ => Nothing
  end.
Definition run_use (line : nat) (self : Z) (th : Mobj.mobj_t) (u : use_action) (st : stage) : outcome stage :=
  match u with
  | Manual => let* w := EV_VerticalDoor line th (wd st) in Ret (st <| wd := w |>)
  | IfStarted e again =>
      let* '(rtn, st) := run_effect line 0 self e st in
      if truth rtn then P_ChangeSwitchTexture line again st else Ret st
  | After e again => let* '(_, st) := run_effect line 0 self e st in P_ChangeSwitchTexture line again st
  | Before e again =>
      let* st := P_ChangeSwitchTexture line again st in
      let* '(_, st) := run_effect line 0 self e st in Ret st
  | Nothing => Ret st
  end.

Definition monster_uses (special : Z) : bool := match special with 1 | 32 | 33 | 34 => true | _ => false end.

Definition P_UseSpecialLine (self : Z) (line : nat) (side : Z) (st : stage) : outcome (bool * stage) :=
  let* li := of_option (lines (gm (wd st)) !! line) in
  let* th := get_mobj self (wd st) in
  if truth side && negb (Line.special li =? 124) then Ret (false, st)
  else if negb (is_player th) && (has_flag (Line.flags li) ML_SECRET || negb (monster_uses (Line.special li))) then Ret (false, st)
  else let* st := run_use line self th (use_special (Line.special li)) st in Ret (true, st).

(** ** Standing in a sector *)
Section standing.
Context {dmg : Damage}.

(** [if (!(leveltime&0x1f)) P_DamageMobj (player->mo, NULL, NULL, damage)] *)
Definition floor_hurts (mo damage : Z) (w : world) : outcome world :=
  if negb (has_flag (leveltime (gm w)) 31) then P_DamageMobj mo None None damage w else Ret w.

Definition P_PlayerInSpecialSector (i : Z) (st : stage) : outcome stage :=
  let* p := get_player i (wd st) in
  let* mo := get_mobj (Player.mo p) (wd st) in
  let s := sector_under (Mobj.subsector mo) in
  let* sec := get_sector (Z.of_nat s) (wd st) in
  let feet := get (Player.powers p) pw_ironfeet in
  let hurt damage w := let* w := floor_hurts (Player.mo p) damage w in Ret (st <| wd := w |>) in
  if negb (Mobj.z mo =? Sector.floorheight sec) then Ret st
  else
    match Sector.special sec with
    | 5 => let* feet := feet in if negb (truth feet) then hurt 10 (wd st) else Ret st
    | 7 => let* feet := feet in if negb (truth feet) then hurt 5 (wd st) else Ret st
    | 16 | 4 =>
        let* feet := feet in
        if negb (truth feet) then hurt 20 (wd st)
        else
          let* '(r, rn) := P_Random (rnd (wd st)) in
          let w := (wd st) <| rnd := rn |> in
          if r <? 5 then hurt 20 w else Ret (st <| wd := w |>)
    | 9 =>
        let w := put_player i (p <| Player.secretcount ::= fun c => i32 (c + 1) |>) (wd st) in
        let* w := upd_sector (Z.of_nat s) (fun sec => sec <| Sector.special := 0 |>) w in
        Ret (st <| wd := w |>)
    | 11 =>
        let w := put_player i (p <| Player.cheats ::= fun c => Z.land c (Z.lnot CF_GODMODE) |>) (wd st) in
        let* st := hurt 20 w in
        let* p := get_player i (wd st) in
        Ret (if Player.health p <=? 10 then G_ExitLevel st else st)
    | _ => Fatal "P_PlayerInSpecialSector: unknown special"
    end.
End standing.

(** ** Starting a level *)
Definition spawn_sector (i : nat) (st : stage) : outcome stage :=
  let* sec := get_sector (Z.of_nat i) (wd st) in
  let run m := let* w := m (wd st) in Ret (st <| wd := w |>) in
  match Sector.special sec with
  | 1 => run (P_SpawnLightFlash i)
  | 2 => run (P_SpawnStrobeFlash i FASTDARK 0)
  | 3 => run (P_SpawnStrobeFlash i SLOWDARK 0)
  | 4 => run (fun w => let* w := P_SpawnStrobeFlash i FASTDARK 0 w in upd_sector (Z.of_nat i) (fun sec => sec <| Sector.special := 4 |>) w)
  | 8 => run (P_SpawnGlowingLight i)
  | 9 => Ret (st <| totalsecret ::= fun n => i32 (n + 1) |>)
  | 10 => run (P_SpawnDoorCloseIn30 i)
  | 12 => run (P_SpawnStrobeFlash i SLOWDARK 1)
  | 13 => run (P_SpawnStrobeFlash i FASTDARK 1)
  | 14 => run (P_SpawnDoorRaiseIn5Mins i)
  | 17 => run (P_SpawnFireFlicker i)
  | _ => Ret st
  end.

Definition spawn_line (i : nat) (st : stage) : outcome stage :=
  let* li := of_option (lines (gm (wd st)) !! i) in
  if Line.special li =? 48 then
    if bool_decide (MAXLINEANIMS <= length (linespeciallist st))%nat then Fatal "Too many scrolling wall linedefs! (Vanilla limit is 64)"
    else Ret (st <| linespeciallist ::= fun l => l ++ [i] |>)
  else Ret st.

Definition P_SpawnSpecials (timelimit deathmatch : Z) (st : stage) : outcome stage :=
  let st := if (timelimit >? 0) && truth deathmatch
            then st <| levelTimer := true |> <| levelTimeCount := i32 (timelimit * 60 * TICRATE) |>
            else st <| levelTimer := false |> in
  let* st := run_each spawn_sector (seq 0 (length (sectors (gm (wd st))))) st in
  let st := st <| linespeciallist := [] |> in
  let* st := run_each spawn_line (seq 0 (length (lines (gm (wd st))))) st in
  let st := st <| wd ::= fun w => w <| gm ::= fun g => g <| activeceilings := replicate MAXCEILINGS 0 |> <| activeplats := replicate MAXPLATS 0 |> |> |> in
  Ret (st <| buttonlist := replicate MAXBUTTONS Button.zero |>).
End specials.
