(* ===== verification/LineTheorems.v ===== *)
(** * Lines and sectors with a special: the theorems

    [stage_ok] is what a level is as long as it is played. Crossing, shooting
    and using lines, the turns of its movers and the tics of its buttons keep it,
    and none of them ever gets stuck: each returns or ends the program with its
    message. *)
From S2P Require Import Prelude MFixed MRandom GameTypes Thinkers SectorSearch MovePlane Frame Plats PlatTheorems Doors DoorTheorems.
From S2P Require Import Ceilings CeilingTheorems Floors FloorTheorems Lights LightTheorems Ticker TickerTheorems MoverSafety LevelSteps.
From S2P Require Import ManualDoorTheorems SaveArchive Switches SwitchTheorems LineSafety Teleport TeleportTheorems LineSpecials.
#[local] Open Scope doom_scope.

(** ** The stage *)
Section stage.
Context {A : Arch} {im : Image} {tx : Textures}.

Record map_ok (g : game) : Prop := {
  mo_front l li : lines g !! l = Some li -> front_ok li g;
  mo_two l li : lines g !! l = Some li -> has_flag (Line.flags li) ML_TWOSIDED = true ->
    is_Some (Line.frontsector li) /\ is_Some (Line.backsector li);
  mo_sides : sides_ok g;
  mo_lowers : lowers_ok g;
  (** behind a door that is used by hand there is a sector *)
  mo_behind l li : lines g !! l = Some li -> manual_special (Line.special li) = true ->
    exists num si o, Line.sidenum li !! 1%nat = Some num /\ 0 <= num /\ sides g !! Z.to_nat num = Some si /\
      Side.sector si = Z.of_nat o /\ is_Some (sectors g !! o);
  (** the sectors that [lowerAndChange] is for *)
  mo_change l li : lines g !! l = Some li -> Line.special li = 37 \/ Line.special li = 84 -> widest (Line.tag li) g
}.
Definition a_texture (t : Z) : Prop := 0 <= t < 32768 /\ t < Z.of_nat (length textureheight).
Record stage_ok (st : stage) : Prop := {
  sk_level : level_wf (wd st);
  sk_map : map_ok (gm (wd st));
  sk_people : people_ok (gm (wd st));
  sk_buttons : buttons_ok st;
  sk_faces j b : buttonlist st !! j = Some b -> Button.btimer b <> 0 -> a_texture (Button.btexture b);
  sk_update : updatable st;
  sk_count : 0 <= numswitches st /\ numswitches st * 2 <= Z.of_nat (length (switchlist st));
  sk_switches i t : Z.of_nat i < numswitches st * 2 -> switchlist st !! i = Some t -> a_texture t
}.

(** ** A world that is as good *)
Lemma map_ok_same w w' : same_map w w' -> map_ok (gm w) -> map_ok (gm w').
Proof.
  intros Hm [M1 M2 M3 M4 M5 M6]. pose proof Hm as [E1 E2 E3 E4 _]. split; rewrite ?E1.
  - intros l li El. eapply front_ok_same; [done|done|by eapply M1].
  - done.
  - by eapply sides_ok_same.
  - intros n si. rewrite E2. apply M4.
  - intros l li El Hs. destruct (M5 l li El Hs) as (num & si & o & H1 & H2 & H3 & H4 & H5). exists num, si, o. rewrite E2. split_and!; try done.
    apply lookup_lt_is_Some_2. rewrite E3. by apply lookup_lt_is_Some_1.
  - intros l li El Hs. eapply widest_same; [done|by eapply M6].
Qed.
Lemma stage_world st w' : stage_ok st -> wf_on (wd st) w' -> stage_ok (st <| wd := w' |>).
Proof.
  intros [S1 S2 S3 S4 S5 S6 S7 S8] [Hw Hm]. pose proof Hm as [E1 E2 E3 E4 E5]. set (st' := st <| wd := w' |>).
  assert (El : lines_of st' = lines_of st) by done. assert (Es : sides_of st' = sides_of st) by done.
  split; try done.
  - by eapply map_ok_same.
  - by apply E5.
  - destruct S4 as [B1 B2]. split; [done|]. intros j b Hb H0. unfold button_side. rewrite El, Es. by apply (B2 j b).
  - destruct S6 as [U1 U2]. split; [exact U1|]. eapply Forall_impl; [exact U2|]. intros l (li & n & L1 & L2 & L3). exists li, n. by rewrite El, Es.
Qed.

(** ** Lines that lose their special, sides that change their textures *)
Definition same_line (li li' : Line.line_t) : Prop := li' = li \/ li' = li <| Line.special := 0 |>.
Definition same_wall (si si' : Side.side_t) : Prop := Side.sector si' = Side.sector si /\
  (Side.bottomtexture si < Z.of_nat (length textureheight) -> Side.bottomtexture si' < Z.of_nat (length textureheight)).
Record dressed (g g' : game) : Prop := {
  dr_sectors : sectors g' = sectors g;
  dr_lines : Forall2 same_line (lines g) (lines g');
  dr_sides : Forall2 same_wall (sides g) (sides g')
}.
#[export] Instance same_line_pre : PreOrder same_line.
Proof. split; [by left|]. intros x y z [->| ->] [->| ->]; [by left|by right|by right|right; by destruct x]. Qed.
Lemma same_line_spec li li' : same_line li li' -> Line.flags li' = Line.flags li /\ Line.tag li' = Line.tag li /\ Line.sidenum li' = Line.sidenum li /\
  Line.frontsector li' = Line.frontsector li /\ Line.backsector li' = Line.backsector li /\
  (Line.special li' = Line.special li \/ Line.special li' = 0).
Proof. intros [->| ->]; split_and!; auto. Qed.
Lemma map_ok_dressed g g' : dressed g g' -> map_ok g -> map_ok g'.
Proof.
  intros [D1 D2 D3] [M1 M2 M3 M4 M5 M6].
  assert (Hl : forall l li', lines g' !! l = Some li' -> exists li, lines g !! l = Some li /\ same_line li li')
    by (intros l li' E; by apply (Forall2_lookup_r _ _ _ _ _ D2)).
  assert (Hs : forall n si, sides g !! n = Some si -> exists si', sides g' !! n = Some si' /\ same_wall si si')
    by (intros n si E; by apply (Forall2_lookup_l _ _ _ _ _ D3)).
  split.
  - intros l li' E'. destruct (Hl l li' E') as (li & E & (_ & _ & F3 & F4 & _)%same_line_spec).
    destruct (M1 l li E) as [(num & si & H1 & H2 & H3 & o & H4 & H5) (f & H6 & H7)]. split; [|exists f; by rewrite F4, D1].
    destruct (Hs _ _ H3) as (si' & H3' & W1 & _). exists num, si'. rewrite F3, D1. split_and!; try done. exists o. by rewrite W1.
  - intros l li' E'. destruct (Hl l li' E') as (li & E & (F1 & _ & _ & F4 & F5 & _)%same_line_spec). rewrite F1, F4, F5. by apply (M2 l).
  - intros l li' i E'. destruct (Hl l li' E') as (li & E & (F1 & _ & F3 & _)%same_line_spec). rewrite F1. intros Hf Hi.
    destruct (M3 l li i E Hf Hi) as (num & si & H1 & H2 & H3 & H4 & H5). destruct (Hs _ _ H3) as (si' & H3' & W1 & _).
    exists num, si'. rewrite F3, D1, W1. by split_and!.
  - intros n si' E'. destruct (Forall2_lookup_r _ _ _ _ _ D3 E') as (si & E & _ & W2). by eapply W2, M4.
  - intros l li' E'. destruct (Hl l li' E') as (li & E & (_ & _ & F3 & _ & _ & F6)%same_line_spec). intros Hm.
    destruct F6 as [F6|F6]; rewrite F6 in Hm; [|done]. destruct (M5 l li E Hm) as (num & si & o & H1 & H2 & H3 & H4 & H5).
    destruct (Hs _ _ H3) as (si' & H3' & W1 & _). exists num, si', o. rewrite F3, D1, W1. by split_and!.
  - intros l li' E'. destruct (Hl l li' E') as (li & E & (_ & F2 & _ & _ & _ & F6)%same_line_spec). intros Hm.
    destruct F6 as [F6|F6]; rewrite F6 in Hm; [|lia]. rewrite F2. unfold widest. rewrite D1. by apply (M6 l).
Qed.

Lemma dressed_level g g' : dressed g g' -> level_ok g -> level_ok g'.
Proof.
  intros [D1 D2 D3] [L1 L2]. split; rewrite D1.
  - intros k sec E. eapply Forall_impl; [by eapply L1|]. intros l [li El]. destruct (Forall2_lookup_l _ _ _ _ _ D2 El) as (li' & -> & _). by eexists.
  - intros l li' o E'. destruct (Forall2_lookup_r _ _ _ _ _ D2 E') as (li & E & (_ & _ & _ & F4 & F5 & _)%same_line_spec). rewrite F4, F5. by eapply L2.
Qed.
Lemma dressed_front g g' l li n : dressed g g' -> lines g !! l = Some li -> front_no li = Some n -> is_Some (sides g !! n) ->
  exists li', lines g' !! l = Some li' /\ front_no li' = Some n /\ is_Some (sides g' !! n).
Proof.
  intros [_ D2 D3] El En [si Es]. destruct (Forall2_lookup_l _ _ _ _ _ D2 El) as (li' & El' & (_ & _ & F3 & _)%same_line_spec).
  destruct (Forall2_lookup_l _ _ _ _ _ D3 Es) as (si' & Es' & _). exists li'. unfold front_no in *. rewrite F3. by split_and!; [| |exists si'].
Qed.
Lemma stage_dressed st w' : stage_ok st -> thinkers (gm w') = thinkers (gm (wd st)) -> players (gm w') = players (gm (wd st)) ->
  activeplats (gm w') = activeplats (gm (wd st)) -> activeceilings (gm w') = activeceilings (gm (wd st)) -> dressed (gm (wd st)) (gm w') ->
  stage_ok (st <| wd := w' |>).
Proof.
  intros [S1 S2 S3 S4 S5 S6 S7 S8] Et Epl Epp Ec D. set (st' := st <| wd := w' |>).
  assert (Hside : forall b n, button_side b st = Some n -> is_Some (sides_of st !! n) -> button_side b st' = Some n /\ is_Some (sides_of st' !! n)).
  { intros b n Hb Hn. apply button_side_inv in Hb as (line & li & Hl & Eli & En). destruct (dressed_front _ _ _ _ _ D Eli En Hn) as (li' & Eli' & En' & Hn').
    split; [|done]. unfold button_side. rewrite Hl. cbn. change (lines_of st') with (lines (gm w')). by rewrite Eli'. }
  split; try done.
  - apply (level_inv_game (wd st)); try done; [by apply (dr_sectors _ _ D)|]. eapply dressed_level; [done|apply S1].
  - by eapply map_ok_dressed.
  - eapply people_same; [done| |done]. intros a m. unfold thing_at. change (thinkers (gm (wd st'))) with (thinkers (gm w')). by rewrite Et.
  - destruct S4 as [B1 B2]. split; [done|]. intros j b Hb H0. destruct (B2 j b Hb H0) as [Hr (n & Hn & Hs)]. split; [done|]. exists n. by apply Hside.
  - destruct S6 as [U1 U2]. split; [exact U1|]. eapply Forall_impl; [exact U2|]. intros l (li & n & L1 & L2 & L3).
    destruct (dressed_front _ _ _ _ _ D L1 L2 L3) as (li' & L1' & L2' & L3'). by exists li', n.
Qed.
Lemma same_lines_refl l : Forall2 same_line l l.
Proof. reflexivity. Qed.
Lemma same_walls_refl l : Forall2 same_wall l l.
Proof. by induction l; constructor. Qed.
Lemma cleared_lines line l : Forall2 same_line l (alter (fun li => li <| Line.special := 0 |>) line l).
Proof.
  apply Forall2_same_length_lookup_2; [by rewrite length_alter|]. intros k li li' E E'. destruct (decide (line = k)) as [<-|Hne].
  - rewrite list_lookup_alter_eq, E in E'. injection E' as <-. by right.
  - rewrite list_lookup_alter_ne in E' by done. left. congruence.
Qed.
Lemma stage_clear line st : stage_ok st -> stage_ok (clear_special_line line st).
Proof.
  intros Hs. apply (stage_dressed st ((wd st) <| gm ::= clear_line line |>)); try done. split; [done|apply cleared_lines|apply same_walls_refl].
Qed.

(** ** Switches *)
Lemma stage_sound_ok o snd st : stage_ok st -> stage_ok (stage_sound o snd st).
Proof.
  intros Hs. apply (stage_dressed st (S_StartSound o snd (wd st))); try done. split; [done|apply same_lines_refl|apply same_walls_refl].
Qed.
Lemma stage_side n si si' st : stage_ok st -> sides_of st !! n = Some si -> same_wall si si' -> stage_ok (put_side n si' st).
Proof.
  intros Hs E Hw. apply (stage_dressed st ((wd st) <| gm ::= fun g => g <| sides ::= <[n := si']> |> |>)); try done.
  split; [done|apply same_lines_refl|]. change (Forall2 same_wall (sides_of st) (<[n := si']> (sides_of st))).
  rewrite <- (list_insert_id (sides_of st) n si) at 1 by done. apply Forall2_insert; [apply same_walls_refl|done].
Qed.
Lemma texture_wall w t si : a_texture t -> same_wall si (set_texture w t si).
Proof.
  intros [Ht1 Ht2]. assert (E : i16 t = t) by (apply wraps_id; [lia|in_range]).
  destruct w; split; try done. cbn. by rewrite E.
Qed.
Definition sound_button (b : Button.button_t) (st : stage) : Prop :=
  0 < Button.btimer b <= INT_MAX /\ a_texture (Button.btexture b) /\ exists n, button_side b st = Some n /\ is_Some (sides_of st !! n).
Lemma stage_button i b st : stage_ok st -> (Button.btimer b <> 0 -> sound_button b st) -> stage_ok (st <| buttonlist ::= <[i := b]> |>).
Proof.
  intros [S1 S2 S3 [B1 B2] S5 S6 S7 S8] Hb. set (st' := st <| buttonlist ::= _ |>).
  assert (Hc : forall j x, buttonlist st' !! j = Some x -> x = b \/ buttonlist st !! j = Some x).
  { intros j x Hx. apply lookup_one in Hx as [[_ ->]|[_ Hx]]; auto. }
  split; try done.
  - split; [change (length (<[i := b]> (buttonlist st)) = MAXBUTTONS); by rewrite length_insert|].
    intros j x Hx H0. destruct (Hc j x Hx) as [->|Hx']; [|by apply (B2 j)]. destruct (Hb H0) as (R1 & _ & R3). done.
  - intros j x Hx H0. destruct (Hc j x Hx) as [->|Hx']; [|by apply (S5 j)]. apply (Hb H0).
Qed.

Lemma front_side_ok line li st : stage_ok st -> lines_of st !! line = Some li ->
  exists n si, front_side li (gm (wd st)) = Ret (n, si) /\ front_no li = Some n /\ sides_of st !! n = Some si.
Proof.
  intros Hs El. destruct (mo_front _ (sk_map _ Hs) line li El) as [(num & si & H1 & H2 & H3 & _) _].
  assert (En : front_no li = Some (Z.to_nat num)) by (unfold front_no; rewrite H1; cbn; by rewrite (proj2 (Z.ltb_ge _ _))).
  exists (Z.to_nat num), si. split_and!; try done. by apply front_side_iff.
Qed.
Lemma find_switch_total si sw n : forall i, 0 <= i -> i + Z.of_nat n <= Z.of_nat (length sw) -> exists r, find_switch n i si sw = Ret r.
Proof.
  induction n as [|n IH]; intros i Hi Hn; cbn [find_switch]; [by eexists|]. unfold get. rewrite (proj2 (Z.ltb_ge _ _)) by lia.
  destruct (lookup_lt_is_Some_2 sw (Z.to_nat i)) as [t ->]; [lia|]. cbn [of_option obind]. repeat (case_match; [by eexists|]). apply IH; lia.
Qed.
Lemma start_button_safe line li w t st : stage_ok st -> lines_of st !! line = Some li -> a_texture t ->
  safe (P_StartButton line w t BUTTONTIME st) (fun st' => stage_ok st' /\ lines_of st' = lines_of st).
Proof.
  intros Hs El Ht. unfold P_StartButton. destruct (existsb _ _); [done|]. destruct (first_button _) as [i|]; [|done].
  change (lines (gm (wd st))) with (lines_of st). rewrite El. cbn [of_option obind].
  destruct (mo_front _ (sk_map _ Hs) line li El) as [_ (o & -> & _)]. cbn [of_option obind safe]. split; [|done]. apply stage_button; [done|].
  intros _. destruct (front_side_ok line li st Hs El) as (n & si & _ & En & Es). split; [cbn; unfold BUTTONTIME, INT_MAX; lia|]. split; [exact Ht|].
  exists n. split; [|by exists si]. unfold button_side. cbn. by rewrite El.
Qed.

(** The lines after one was used for the last time. *)
Definition spend (once : bool) (line : nat) (l : list Line.line_t) : list Line.line_t :=
  if once then alter (fun li => li <| Line.special := 0 |>) line l else l.
Lemma change_switch_safe line again st : stage_ok st -> is_Some (lines_of st !! line) ->
  safe (P_ChangeSwitchTexture line again st) (fun st' => stage_ok st' /\ lines_of st' = spend (negb (truth again)) line (lines_of st)).
Proof.
  intros Hs Hl. unfold P_ChangeSwitchTexture. set (st1 := if negb (truth again) then _ else st).
  assert (H1 : stage_ok st1 /\ lines_of st1 = spend (negb (truth again)) line (lines_of st)) by (unfold st1, spend; destruct (negb _); [split; [by apply stage_clear|done]|done]).
  destruct H1 as [Hs1 El1]. rewrite <- El1. assert (Hl1 : is_Some (lines_of st1 !! line)).
  { rewrite El1. unfold spend. destruct (negb _); [|done]. rewrite list_lookup_alter_eq. by apply fmap_is_Some. }
  clearbody st1. destruct Hl1 as [li Eli]. change (lines (gm (wd st1))) with (lines_of st1). rewrite Eli. cbn [of_option obind].
  destruct (front_side_ok line li st1 Hs1 Eli) as (n & si & -> & En & Es). cbn [obind]. destruct (sk_count _ Hs1) as [C1 C2].
  destruct (find_switch_total si (switchlist st1) (Z.to_nat (numswitches st1 * 2)) 0) as [r Er]; [lia|lia|]. rewrite Er. cbn [obind].
  destruct r as [[i w]|]; [|done]. destruct (find_switch_spec _ _ _ _ _ _ Er) as [Hi Ei]. set (st2 := stage_sound _ _ st1).
  assert (Hs2 : stage_ok st2) by (by apply stage_sound_ok). change (switchlist st2) with (switchlist st1).
  assert (Hp : 0 <= Z.lxor i 1 < numswitches st1 * 2) by (apply partner_range; lia).
  destruct (lookup_lt_is_Some_2 (switchlist st1) (Z.to_nat (Z.lxor i 1))) as [t Et]; [lia|]. unfold get at 1. rewrite (proj2 (Z.ltb_ge _ 0)), Et by lia. cbn [of_option obind].
  assert (Ht : a_texture t) by (eapply (sk_switches _ Hs1); [|exact Et]; lia).
  assert (Hs3 : stage_ok (put_side n (set_texture w t si) st2)) by (eapply stage_side; [done|exact Es|by apply texture_wall]).
  destruct (truth again); [|done]. change (switchlist (put_side _ _ st2)) with (switchlist st1). unfold get. rewrite (proj2 (Z.ltb_ge _ 0)), Ei by lia. cbn [of_option obind].
  eapply safe_mono; [eapply (start_button_safe line li); [done|exact Eli|]|].
  - eapply (sk_switches _ Hs1); [|exact Ei]; lia.
  - intros st' [H1 H2]. by split.
Qed.

(** ** The tics of the buttons *)
Record same_core (st st' : stage) : Prop := {
  co_world : wd st' = wd st;
  co_switches : switchlist st' = switchlist st /\ numswitches st' = numswitches st;
  co_buttons : buttonlist st' = buttonlist st
}.
Lemma stage_core st st' : stage_ok st -> same_core st st' -> updatable st' -> stage_ok st'.
Proof.
  intros [S1 S2 S3 [B1 B2] S5 S6 S7 S8] [C1 [C2 C3] C4] Hu.
  assert (Hside : forall b, button_side b st' = button_side b st) by (intros b; unfold button_side, lines_of; by rewrite C1).
  split; rewrite ?C1, ?C2, ?C3, ?C4; try done. split; rewrite C4; [done|]. intros k b Hb H0. rewrite Hside. unfold sides_of. rewrite C1. by apply (B2 k).
Qed.
Lemma animate_core l : forall st st', run_each animate l st = Ret st' -> same_core st st'.
Proof.
  assert (Hp : forall n i a st st', animate_pics n i a st = Ret st' -> same_core st st').
  { induction n as [|n IH]; intros i a st st' E; cbn [animate_pics] in E; [by injection E as <-|]. destruct (_ || _); [done|].
    destruct (Anim.istexture a); (destruct (set _ i _) as [t| | |]; cbn [obind] in E; try done); by destruct (IH _ _ _ _ E) as [C1 C2 C3]. }
  induction l as [|a l IH]; intros st st' E; cbn [run_each] in E; [by injection E as <-|].
  destruct (animate a st) as [st1| | |] eqn:E1; cbn [obind] in E; try done. destruct (Hp _ _ _ _ _ E1) as [C1 [C2 C3] C4].
  destruct (IH _ _ E) as [D1 [D2 D3] D4]. split; [congruence|split; congruence|congruence].
Qed.
Lemma scroll_safe l : forall st, stage_ok st -> (forall x, x ∈ l -> x ∈ linespeciallist st) -> safe (run_each scroll_line l st) (fun st' => stage_ok st' /\ lines_of st' = lines_of st).
Proof.
  induction l as [|x l IH]; intros st Hs Hl; cbn [run_each]; [done|]. destruct (sk_update _ Hs) as [_ Hu]. rewrite Forall_forall in Hu.
  destruct (Hu x) as (li & n & L1 & L2 & si & L3); [by apply Hl; left|]. apply safe_bind. unfold scroll_line. change (lines (gm (wd st))) with (lines_of st).
  rewrite L1. cbn [of_option obind]. destruct (_ =? 48); [|by apply IH; [|intros; apply Hl; right]]. rewrite (proj2 (front_side_iff li _ n si)) by done. cbn [obind safe].
  eapply safe_mono; [apply IH|]; [eapply stage_side; [done|exact L3|by destruct si]|intros y Hy; apply Hl; by right|]. intros st' [H1 H2]. by split.
Qed.
Lemma tick_safe j st : stage_ok st -> (j < MAXBUTTONS)%nat -> safe (tick_button j st) (fun st' => stage_ok st' /\ lines_of st' = lines_of st).
Proof.
  intros Hs Hj. pose proof (sk_buttons _ Hs) as [B1 B2]. destruct (lookup_lt_is_Some_2 (buttonlist st) j) as [b Eb]; [lia|].
  unfold tick_button. rewrite Eb. cbn [of_option obind]. unfold truth. destruct (Button.btimer b =? 0) eqn:E0; cbn [negb]; [done|]. apply Z.eqb_neq in E0.
  destruct (B2 j b Eb E0) as [Hr (n & Hn & si & Hsi)]. set (b1 := b <| Button.btimer ::= _ |>).
  assert (Et : Button.btimer b1 = Button.btimer b - 1) by (cbn; unfold INT_MAX in *; apply wraps_id; [lia|in_range]).
  set (st1 := st <| buttonlist ::= _ |>). assert (Hs1 : stage_ok st1).
  { apply stage_button; [done|]. intros Hn0. split_and!; [lia|lia|exact (sk_faces _ Hs j b Eb E0)|]. exists n. split; [exact Hn|by exists si]. }
  destruct (Button.btimer b1 =? 0) eqn:E1; cbn [negb]; [|done].
  destruct (button_side_inv _ _ _ Hn) as (line & li & El & Eli & Enn). change (Button.line b1) with (Button.line b). rewrite El. cbn [of_option obind].
  change (lines (gm (wd st1))) with (lines_of st). rewrite Eli. cbn [of_option obind].
  rewrite (proj2 (front_side_iff li _ n si)) by done. cbn [obind safe]. split; [|done]. apply stage_button; [|done]. apply stage_sound_ok.
  eapply stage_side; [done|exact Hsi|]. apply texture_wall. exact (sk_faces _ Hs j b Eb E0).
Qed.
Lemma ticks_safe l : Forall (fun j => j < MAXBUTTONS)%nat l -> forall st, stage_ok st -> safe (run_each tick_button l st) (fun st' => stage_ok st' /\ lines_of st' = lines_of st).
Proof.
  induction 1 as [|j l Hj Hl IH]; intros st Hs; cbn [run_each]; [done|]. apply safe_bind. eapply safe_mono; [by apply tick_safe|].
  intros st1 [H1 E1]. eapply safe_mono; [by apply IH|]. intros st2 [H2 E2]. split; [done|congruence].
Qed.
Lemma update_safe st : stage_ok st -> safe (P_UpdateSpecials st) (fun st' => stage_ok st' /\ lines_of st' = lines_of st).
Proof.
  intros Hs. unfold P_UpdateSpecials. assert (H1 : stage_ok (level_timer st)).
  { apply (stage_core st); [done| |apply (backdrop_updatable st); [apply level_timer_backdrop|apply Hs]].
    unfold level_timer. destruct (levelTimer st); [|by split]. destruct (negb _); by split. }
  assert (El1 : lines_of (level_timer st) = lines_of st) by (apply (bd_lines _ _ (level_timer_backdrop st))).
  set (st1 := level_timer st) in *. clearbody st1. rewrite <- El1. destruct (animate_all_run (anims st1) st1) as (st2 & E2 & B2); [apply (sk_update _ H1)|].
  rewrite E2. cbn [obind]. pose proof (animate_core _ _ _ E2) as C2. assert (H2 : stage_ok st2) by (apply (stage_core st1); [done|done|by eapply backdrop_updatable; [|apply H1]]).
  rewrite <- (bd_lines _ _ B2 : lines_of st2 = lines_of st1). apply safe_bind. eapply safe_mono; [by apply scroll_safe|]. intros st3 [H3 E3].
  rewrite <- E3. apply ticks_safe; [|done]. apply Forall_seq. lia.
Qed.
End stage.

(** ** What lines do *)
Section effects.
Context {A : Arch} {im : Image} {il : ImageLaws} {C : Crush} {H : Heap} {hlaws : HeapLaws} {msgs : Messages} {tx : Textures}.
Context {B : Bodies} {blaws : BodiesLaws} {sines : Sines} {ed : Edition}.
Hypothesis table_size : Z.of_nat (length finesine) = 10240.
Implicit Types (w : world).

(** The stage is fine, and the lines are as before. *)
Definition kept_lines (st st' : stage) : Prop := stage_ok st' /\ lines_of st' = lines_of st.
Lemma world_kept st w' : stage_ok st -> wf_on (wd st) w' -> kept_lines st (st <| wd := w' |>).
Proof. intros Hs Hw. split; [by apply stage_world|]. apply (sm_lines _ _ (proj2 Hw)). Qed.
Lemma on_world_safe m st : stage_ok st -> safe (m (wd st)) (fun r => wf_on (wd st) r.2) -> safe (on_world m st) (fun r => kept_lines st r.2).
Proof. intros Hs Hm. unfold on_world. apply safe_bind. eapply safe_mono; [exact Hm|]. intros [r w'] Hw. by apply world_kept. Qed.
Lemma on_world_safe_ m st : stage_ok st -> safe (m (wd st)) (wf_on (wd st)) -> safe (on_world_ m st) (fun r => kept_lines st r.2).
Proof. intros Hs Hm. unfold on_world_. apply safe_bind. eapply safe_mono; [exact Hm|]. intros w' Hw. by apply world_kept. Qed.
Lemma stage_action (f : stage -> stage) st : stage_ok st -> (forall s, f s = s <| secretexit := secretexit (f s) |> <| gameaction := gameaction (f s) |>) ->
  kept_lines st (f st).
Proof. intros [S1 S2 S3 S4 S5 S6 S7 S8] Ef. rewrite Ef. split; [|done]. split; try done. destruct S4 as [B1 B2]. by split. Qed.

(** The calls that ask nothing of the map, and those of a line by itself. *)
Definition plain (e : effect) : bool :=
  match e with
  | EFloor type => floor_known type && negb (type =? lowerAndChange)
  | ELight bright => (-1000 <=? bright) && (bright <=? 1000)
  | EDonut | ELocked _ | ETeleport => false
  | _ => true
  end.
Definition fits (e : effect) (li : Line.line_t) (self : Z) (g : game) : Prop :=
  match e with
  | ELocked _ => exists th, thing_at self g = Some (TMobj th)
  | ETeleport => exists th, thing_at self g = Some (TMobj th) /\ Mobj.type th <> MT_TELEPORTMAN
  | EFloor type => type = lowerAndChange /\ widest (Line.tag li) g
  | _ => False
  end.

Lemma run_effect_safe line li side self e st : stage_ok st -> lines_of st !! line = Some li ->
  plain e = true \/ fits e li self (gm (wd st)) -> safe (run_effect line side self e st) (fun r => kept_lines st r.2).
Proof.
  intros Hs El Hf. pose proof (sk_level _ Hs) as Hi. pose proof (sk_map _ Hs) as Hm. pose proof (mo_front _ Hm line li El) as Hfr.
  unfold run_effect. change (lines (gm (wd st))) with (lines_of st). rewrite El. cbn [of_option obind].
  assert (Hfl : forall t, (t = lowerAndChange -> widest (Line.tag li) (gm (wd st))) -> floor_map li t (gm (wd st)))
    by (intros t Ht; split_and!; [done|apply (mo_sides _ Hm)|apply (mo_lowers _ Hm)|done]).
  destruct e as [t|t|t|t|t a|t| |b| | | | | | |].
  - apply on_world_safe; [done|by apply door_safe].
  - destruct Hf as [Hf|[th Hth]]; [done|]. unfold get_mobj. rewrite Hth. cbn [obind]. apply on_world_safe; [done|]. apply locked_safe; [done|].
    intros i Hp. by apply (sk_people _ Hs self th).
  - apply on_world_safe; [done|]. destruct Hf as [Hf|[-> Hw]].
    + apply andb_true_iff in Hf as [Hk Hn%negb_true_iff%Z.eqb_neq]. apply floor_safe; [done|done|]. apply Hfl. by intros ->.
    + apply floor_safe; [done|done|]. by apply Hfl.
  - apply on_world_safe; [done|by apply ceiling_safe].
  - apply on_world_safe; [done|by apply plat_safe].
  - apply on_world_safe; [done|]. apply stairs_safe; [done|]. split; [apply Hi|apply (mo_two _ Hm)].
  - by destruct Hf.
  - apply on_world_safe_; [done|]. apply light_on_safe; [done|]. destruct Hf as [Hf|Hf]; [|done]. unfold plain in Hf. breflect. unfold dim_ok. lia.
  - apply on_world_safe_; [done|by apply strobing_safe].
  - apply on_world_safe_; [done|by apply lights_off_safe].
  - apply on_world_safe_; [done|by apply stop_plat_safe].
  - apply on_world_safe; [done|by apply stop_ceiling_safe].
  - destruct Hf as [Hf|(th & Hth & Hty)]; [done|]. apply on_world_safe; [done|]. eapply safe_mono; [apply (teleport_run table_size gameversion li side self th); [done|apply Hs|done|done]|].
    intros r [Hb _]. by apply bodies_wf.
  - apply (stage_action G_ExitLevel); [done|]. by intros [].
  - apply (stage_action G_SecretExitLevel); [done|]. by intros [].
Qed.
Lemma run_effects_safe line li side self es st : stage_ok st -> lines_of st !! line = Some li ->
  forallb plain es = true \/ (exists e, es = [e] /\ fits e li self (gm (wd st))) -> safe (run_effects line side self es st) (kept_lines st).
Proof.
  intros Hs El [Hp|(e & -> & Hf)].
  - revert st Hs El. induction es as [|e es IH]; intros st Hs El; cbn [run_effects]; [done|]. cbn in Hp. apply andb_true_iff in Hp as [Hp1 Hp2].
    apply safe_bind. eapply safe_mono; [eapply (run_effect_safe line li); [done|done|by left]|]. intros [r st1] [Hs1 El1]. cbn [snd] in *.
    eapply safe_mono; [apply (IH Hp2); [done|congruence]|]. intros st2 [Hs2 El2]. split; [done|congruence].
  - cbn [run_effects]. apply safe_bind. eapply safe_mono; [eapply (run_effect_safe line li); [done|done|by right]|]. by intros [r st1].
Qed.

(** ** The tables *)

(** What a thing that crosses a line sets off. *)
Definition crossed (th : Mobj.mobj_t) (special : Z) : option (list effect * bool) :=
  if is_player th || negb (is_shot (Mobj.type th)) && monster_crosses special then cross_special (is_player th) special else None.

Definition sound_cross (player : bool) (special : Z) : bool :=
  match cross_special player special with
  | None => true
  | Some (es, _) => forallb plain es ||
      match es with
      | [ETeleport] => true
      | [EFloor type] => (type =? lowerAndChange) && ((special =? 37) || (special =? 84))
      | _ => false
      end
  end.
Lemma all_cross player special : sound_cross player special = true.
Proof. destruct special as [|p|p]; [done| |done]. destruct player; do 8 (try destruct p as [p|p|]); reflexivity. Qed.
Definition sound_use (special : Z) : bool :=
  match use_special special with
  | Manual => manual_special special
  | IfStarted EDonut _ => special =? 9
  | IfStarted (ELocked _) _ => true
  | IfStarted e _ | After e _ | Before e _ => plain e
  | Nothing => true
  end.
Lemma all_use special : sound_use special = true.
Proof. destruct special as [|p|p]; [done| |done]. do 8 (try destruct p as [p|p|]); reflexivity. Qed.

Lemma stage_spend once line st : stage_ok st -> stage_ok (if once : bool then clear_special_line line st else st).
Proof. destruct once; [apply stage_clear|done]. Qed.

Lemma cross_run line li side self th st : stage_ok st -> lines_of st !! line = Some li -> thing_at self (gm (wd st)) = Some (TMobj th) ->
  Mobj.type th <> MT_TELEPORTMAN ->
  safe (P_CrossSpecialLine line side self st) (fun st' => stage_ok st' /\
    match crossed th (Line.special li) with
    | None => st' = st
    | Some (_, once) => lines_of st' = spend once line (lines_of st)
    end).
Proof.
  intros Hs El Hth Hty. unfold P_CrossSpecialLine, crossed, get_mobj. change (lines (gm (wd st))) with (lines_of st). rewrite El, Hth. cbn [of_option obind].
  destruct (is_player th) eqn:Ep; cbn [negb andb orb]; [|destruct (is_shot _); cbn [negb andb]; [done|]; destruct (monster_crosses _); cbn [negb andb]; [|done]];
    (destruct (cross_special _ _) as [[es once]|] eqn:Ec; [|done]); apply safe_bind;
    (eapply safe_mono; [apply (run_effects_safe line li); [done|done|]|]).
  all: try (intros st1 [Hs1 El1]; cbn [safe]; split; [by apply stage_spend|]; by rewrite <- El1; destruct once).
  all: match type of Ec with cross_special ?b _ = _ => pose proof (all_cross b (Line.special li)) as Hc end;
    unfold sound_cross in Hc; rewrite Ec in Hc; apply orb_true_iff in Hc as [Hc|Hc]; [by left|right].
  all: destruct es as [|[] [|? ?]]; try done; (eexists; split; [reflexivity|]); cbn [fits]; [|by exists th].
  all: apply andb_true_iff in Hc as [Ht%Z.eqb_eq Hc]; (split; [done|]); eapply (mo_change _ (sk_map _ Hs)); [exact El|];
    apply orb_true_iff in Hc as [Hc%Z.eqb_eq|Hc%Z.eqb_eq]; auto.
Qed.

(** ** Shooting *)
Lemma shoot_run line li self th st : stage_ok st -> lines_of st !! line = Some li -> thing_at self (gm (wd st)) = Some (TMobj th) ->
  safe (P_ShootSpecialLine self line st) (fun st' => stage_ok st' /\
    match (if is_player th || (Line.special li =? 46) then shoot_special (Line.special li) else None) with
    | None => st' = st
    | Some (_, again) => lines_of st' = spend (negb (truth again)) line (lines_of st)
    end).
Proof.
  intros Hs El Hth. unfold P_ShootSpecialLine, get_mobj. change (lines (gm (wd st))) with (lines_of st). rewrite El, Hth. cbn [of_option obind].
  rewrite <- negb_orb. destruct (_ || _); cbn [negb]; [|done]. destruct (shoot_special (Line.special li)) as [[e again]|] eqn:Es; [|done].
  assert (Hp : plain e = true) by (unfold shoot_special in Es; repeat case_match; try done; by injection Es as <- <-).
  apply safe_bind. eapply safe_mono; [apply (run_effect_safe line li); [done|done|by left]|]. intros [r st1] [Hs1 El1]. cbn [snd] in *.
  eapply safe_mono; [apply change_switch_safe; [done|by rewrite El1, El]|]. intros st2 [Hs2 El2]. by rewrite <- El1.
Qed.

(** ** Using *)

(** A line that can be used once only. *)
Definition single (special : Z) : bool :=
  match use_special special with
  | Manual => once special
  | IfStarted _ again | After _ again | Before _ again => negb (truth again)
  | Nothing => false
  end.
(** Where a line may be used: not to make a donut, and not for a door by
    hand whose sector is moved by something that is not looked at, or that has
    no place for a direction. *)
Record usable (line : nat) (li : Line.line_t) (st : stage) : Prop := {
  us_donut : Line.special li <> 9;
  us_idle s sec : leads line li s sec (wd st) -> once (Line.special li) = true -> Sector.specialdata sec = 0;
  us_place s sec th : leads line li s sec (wd st) -> thing_at (Sector.specialdata sec) (gm (wd st)) = Some th -> has_place th
}.
(** The stage is fine, and of the lines at most this one has changed: it has
    lost its special, if it is one that can be used once. *)
Definition spent (line : nat) (special : Z) (st st' : stage) : Prop :=
  stage_ok st' /\ exists b, lines_of st' = spend b line (lines_of st) /\ (b = true -> single special = true).
Lemma kept_spent line special st st' : kept_lines st st' -> spent line special st st'.
Proof. intros [Hs El]. split; [done|]. by exists false. Qed.

Lemma check_lock_safe special th st : stage_ok st -> carries th (gm (wd st)) ->
  safe (check_lock special th (wd st)) (fun r => wf_on (wd st) r.2 /\ (r.1 = true -> r.2 = wd st)).
Proof.
  intros Hs Hc. pose proof (sk_level _ Hs) as Hi. unfold check_lock. destruct (lock_of manual_locks special) as [[[card skull] msg]|] eqn:El; [|done].
  destruct (Mobj.player th) as [i|] eqn:Ep; [|done]. destruct (Hc i Ep) as (Hz & p & Hp & Hl). unfold get_player.
  rewrite (proj2 (Z.ltb_ge _ _)) by done. rewrite Hp. cbn [of_option obind].
  apply lock_cards in El as [Hc1 Hc2]; [|unfold manual_locks; repeat constructor; cbn; unfold it_bluecard, it_blueskull, it_redcard, it_redskull, it_yellowcard, it_yellowskull; lia].
  destruct (lacks_run card skull p Hl Hc1 Hc2) as [[] ->]; cbn [obind safe fst snd]; [|done]. split; [by apply refuse_wf|done].
Qed.
Lemma manual_safe line li th st : stage_ok st -> lines_of st !! line = Some li -> carries th (gm (wd st)) -> use_special (Line.special li) = Manual ->
  usable line li st -> safe (let* w := EV_VerticalDoor line th (wd st) in Ret (st <| wd := w |>)) (spent line (Line.special li) st).
Proof.
  intros Hs El Hc Eu Hu. pose proof (sk_level _ Hs) as Hi. pose proof (all_use (Line.special li)) as Hm. unfold sound_use in Hm. rewrite Eu in Hm.
  destruct (mo_behind _ (sk_map _ Hs) line li El Hm) as (num & si & s & N1 & N2 & N3 & N4 & [sec N5]).
  assert (Hl : leads line li s sec (wd st)) by (split; [done| |done]; by exists num, si).
  pose proof (check_lock_safe (Line.special li) th st Hs Hc) as Hck. destruct (check_lock _ th (wd st)) as [[through w1]| | |] eqn:Ek; try done.
  - rewrite (vertical_door_run _ _ _ _ _ _ _ _ Hl Ek). destruct Hck as [Hw1 Ht]. cbn [fst snd] in *.
    destruct through; cbn [negb]; [|cbn [obind safe]; by apply kept_spent, world_kept].
    destruct (truth (Sector.specialdata sec)) eqn:Ez; cbn [andb].
    + unfold truth in Ez. apply negb_true_iff, Z.eqb_neq in Ez. destruct (raise_special (Line.special li)) eqn:Er.
      * destruct (li_owner _ Hi s sec N5 Ez) as (t & Htt & Ha & Hms). apply safe_bind. eapply safe_mono; [apply (use_mover_safe _ t); try done; [by rewrite Hms|by apply (us_place _ _ _ Hu s sec)]|].
        intros w2 Hw2. by apply kept_spent, world_kept.
      * exfalso. apply Ez. apply (us_idle _ _ _ Hu s sec Hl). unfold manual_special in Hm. by rewrite Er in Hm.
    + apply truth_false in Ez. destruct (open_manual_safe line (Line.special li) s sec (wd st) Hm Hi N5 Ez) as (w2 & -> & Hw2). cbn [obind safe].
      destruct (world_kept st w2 Hs Hw2) as [Hs2 El2]. destruct (once (Line.special li)) eqn:Eo; [|by apply kept_spent, world_kept].
      split; [exact (stage_clear line (st <| wd := w2 |>) Hs2)|]. exists true. split; [|unfold single; by rewrite Eu].
      rewrite <- El2. reflexivity.
  - unfold EV_VerticalDoor. change (lines (gm (wd st))) with (lines_of st). rewrite El. cbn [of_option obind]. by rewrite Ek.
Qed.

Lemma effect_spent line li self e again st : stage_ok st -> lines_of st !! line = Some li -> plain e = true \/ fits e li self (gm (wd st)) ->
  safe (run_effect line 0 self e st) (fun r => safe (P_ChangeSwitchTexture line again r.2) (fun st' =>
    stage_ok st' /\ lines_of st' = spend (negb (truth again)) line (lines_of st)) /\ kept_lines st r.2).
Proof.
  intros Hs El Hf. eapply safe_mono; [by apply (run_effect_safe line li)|]. intros [r st1] [Hs1 El1]. cbn [snd] in *. split; [|done].
  rewrite <- El1. apply change_switch_safe; [done|]. by rewrite El1, El.
Qed.
Lemma run_use_safe line li self th st : stage_ok st -> lines_of st !! line = Some li -> thing_at self (gm (wd st)) = Some (TMobj th) ->
  usable line li st -> safe (run_use line self th (use_special (Line.special li)) st) (spent line (Line.special li) st).
Proof.
  intros Hs El Hth Hu. assert (Hc : carries th (gm (wd st))) by (intros i Hi; by apply (sk_people _ Hs self th)).
  pose proof (all_use (Line.special li)) as Hok. unfold sound_use in Hok. destruct (use_special (Line.special li)) as [|e again|e again|e again|] eqn:Eu; cbn [run_use].
  - by apply manual_safe.
  - assert (Hf : plain e = true \/ fits e li self (gm (wd st))).
    { destruct e; auto; [right; by exists th|]. apply Z.eqb_eq in Hok. by destruct (us_donut _ _ _ Hu). }
    apply safe_bind. eapply safe_mono; [by apply (effect_spent line li self e again)|]. intros [r st1] [Hch Hk]. cbn [fst snd] in *.
    destruct (truth r); [|by apply kept_spent]. eapply safe_mono; [exact Hch|]. intros st2 [Hs2 El2]. split; [done|]. eexists. split; [exact El2|]. unfold single. by rewrite Eu.
  - apply safe_bind. eapply safe_mono; [apply (effect_spent line li self e again); [done|done|by left]|]. intros [r st1] [Hch Hk]. cbn [fst snd] in *.
    eapply safe_mono; [exact Hch|]. intros st2 [Hs2 El2]. split; [done|]. eexists. split; [exact El2|]. unfold single. by rewrite Eu.
  - apply safe_bind. eapply safe_mono; [apply change_switch_safe; [done|by rewrite El]|]. intros st1 [Hs1 El1].
    assert (Hl1 : exists li1, lines_of st1 !! line = Some li1).
    { rewrite El1. unfold spend. destruct (negb _); [|by exists li]. rewrite list_lookup_alter_eq, El. by eexists. }
    destruct Hl1 as [li1 Hl1]. apply safe_bind. eapply safe_mono; [apply (run_effect_safe line li1); [done|done|by left]|].
    intros [r st2] [Hs2 El2]. cbn [safe snd] in *. split; [done|]. exists (negb (truth again)). split; [congruence|]. unfold single. by rewrite Eu.
  - split; [done|]. by exists false.
Qed.
Lemma use_run line li self th side st : stage_ok st -> lines_of st !! line = Some li -> thing_at self (gm (wd st)) = Some (TMobj th) ->
  usable line li st ->
  safe (P_UseSpecialLine self line side st) (fun r => (r.1 = false -> r.2 = st) /\ spent line (Line.special li) st r.2 /\
    (r.1 = true -> is_player th = false -> monster_uses (Line.special li) = true)).
Proof.
  intros Hs El Hth Hu. unfold P_UseSpecialLine, get_mobj. change (lines (gm (wd st))) with (lines_of st). rewrite El, Hth. cbn [of_option obind].
  destruct (_ && _); [cbn [safe fst snd]; split_and!; try done; by apply kept_spent|].
  destruct (is_player th) eqn:Ep; cbn [negb andb].
  - apply safe_bind. eapply safe_mono; [by apply (run_use_safe line li)|]. intros st1 H1. done.
  - destruct (has_flag _ _); cbn [orb]; [cbn [safe fst snd]; split_and!; try done; by apply kept_spent|].
    destruct (monster_uses _); cbn [negb]; [|cbn [safe fst snd]; split_and!; try done; by apply kept_spent].
    apply safe_bind. eapply safe_mono; [by apply (run_use_safe line li)|]. intros st1 H1. done.
Qed.
End effects.

(** ** Standing in a sector *)
Class DamageLaws {A : Arch} {im : Image} {dmg : Damage} : Prop :=
  damage_hurts target inflictor source damage w m : thing_at target (gm w) = Some (TMobj m) ->
    safe (P_DamageMobj target inflictor source damage w) (fun w' => bodies w w' /\ length (players (gm w')) = length (players (gm w))).

Section standing.
Context {A : Arch} {im : Image} {il : ImageLaws} {tx : Textures} {B : Bodies} {dmg : Damage} {dlaws : DamageLaws}.
Implicit Types (w : world).

(** Player [i] stands in sector [s]. *)
Record stands (i : Z) (p : Player.player_t) (mo : Mobj.mobj_t) (s : nat) (sec : Sector.doomsector_t) w : Prop := {
  sd_index : 0 <= i;
  sd_player : players (gm w) !! Z.to_nat i = Some p;
  sd_powers : length (Player.powers p) = NUMPOWERS;
  sd_mobj : thing_at (Player.mo p) (gm w) = Some (TMobj mo);
  sd_under : sector_under (Mobj.subsector mo) = s;
  sd_sector : sectors (gm w) !! s = Some sec
}.
Definition a_power (p : Player.player_t) (n : Z) : Z := default 0 (Player.powers p !! Z.to_nat n).
Definition hurts (special : Z) : option Z := match special with 5 => Some 10 | 7 => Some 5 | 16 | 4 => Some 20 | _ => None end.

Lemma hurt_safe mo m damage w : level_wf w -> thing_at mo (gm w) = Some (TMobj m) ->
  safe (floor_hurts mo damage w) (fun w' => wf_on w w' /\ length (players (gm w')) = length (players (gm w)) /\ sectors (gm w') = sectors (gm w) /\
    (has_flag (leveltime (gm w)) 31 = true -> w' = w)).
Proof.
  intros Hi Hm. unfold floor_hurts. destruct (has_flag _ 31); cbn [negb]; [done|]. eapply safe_mono; [by eapply damage_hurts|].
  intros w' [Hb Hl]. split_and!; try done; [by apply bodies_wf|apply Hb].
Qed.
Lemma special_wf s sec x w : level_wf w -> sectors (gm w) !! s = Some sec ->
  exists w', upd_sector (Z.of_nat s) (fun sec => sec <| Sector.special := x |>) w = Ret w' /\ wf_on w w' /\
    sectors (gm w') = <[s := sec <| Sector.special := x |>]> (sectors (gm w)) /\ players (gm w') = players (gm w).
Proof.
  intros Hi E. rewrite (upd_sector_run s sec) by done. set (w' := set_sector _ _ w). exists w'. split; [done|].
  assert (Es : sectors (gm w') = <[s := sec <| Sector.special := x |>]> (sectors (gm w))) by apply sectors_set.
  assert (Hd : Forall2 same_decor (sectors (gm w)) (sectors (gm w'))) by (rewrite Es; by apply (decor_insert _ s sec)).
  split_and!; try done. split; [exact (decor_inv w w' Hi eq_refl eq_refl eq_refl eq_refl Hd)|by apply decor_map].
Qed.

(** What the special of the sector has done, when the player stands on its
    floor. *)
Definition stood (i : Z) (p : Player.player_t) (s : nat) (sec : Sector.doomsector_t) (st st' : stage) : Prop :=
  (forall damage, hurts (Sector.special sec) = Some damage -> sectors (gm (wd st')) = sectors (gm (wd st)) /\
     (has_flag (leveltime (gm (wd st))) 31 = true -> gm (wd st') = gm (wd st)) /\
     (a_power p pw_ironfeet <> 0 -> damage < 20 -> st' = st)) /\
  (Sector.special sec = 9 -> sectors (gm (wd st')) = <[s := sec <| Sector.special := 0 |>]> (sectors (gm (wd st))) /\
     players (gm (wd st')) = <[Z.to_nat i := p <| Player.secretcount ::= fun c => i32 (c + 1) |>]> (players (gm (wd st)))) /\
  (Sector.special sec = 11 -> exists p', players (gm (wd st')) !! Z.to_nat i = Some p' /\
     (gameaction st' = ga_completed \/ 10 < Player.health p' /\ gameaction st' = gameaction st)) /\
  (hurts (Sector.special sec) <> None \/ Sector.special sec = 9 \/ Sector.special sec = 11).
Lemma hurt_stood i p mo s sec damage w1 st : stage_ok st -> stands i p mo s sec (wd st) -> gm w1 = gm (wd st) -> hurts (Sector.special sec) = Some damage ->
  (a_power p pw_ironfeet = 0 \/ damage = 20) ->
  safe (let* w := floor_hurts (Player.mo p) damage w1 in Ret (st <| wd := w |>)) (fun st' => kept_lines st st' /\ stood i p s sec st st').
Proof.
  intros Hs Hd Eg Hh Hf. assert (Hw1 : wf_on (wd st) w1).
  { split; [apply (level_inv_game (wd st)); rewrite ?Eg; try done; apply Hs|]. split; rewrite Eg; try done. intros k x Ek. by exists x. }
  apply safe_bind. eapply safe_mono; [apply (hurt_safe _ mo); [apply Hw1|rewrite Eg; apply Hd]|]. intros w2 (Hw2 & _ & Es2 & Ht2). cbn [safe].
  split; [apply world_kept; [done|by eapply wf_trans]|]. rewrite Eg in Es2, Ht2.
  assert (Hsp : Sector.special sec <> 9 /\ Sector.special sec <> 11) by (split; intros E; by rewrite E in Hh). split_and!; try tauto.
  - intros d Ed. assert (d = damage) as -> by congruence. split_and!; [exact Es2| |lia]. intros Hx. cbn. by rewrite Ht2.
  - left. by rewrite Hh.
Qed.
Lemma secret_stood i p mo s sec st : stage_ok st -> stands i p mo s sec (wd st) -> Sector.special sec = 9 ->
  safe (let w := put_player i (p <| Player.secretcount ::= fun c => i32 (c + 1) |>) (wd st) in
        let* w := upd_sector (Z.of_nat s) (fun sec => sec <| Sector.special := 0 |>) w in
        Ret (st <| wd := w |>)) (fun st' => kept_lines st st' /\ stood i p s sec st st').
Proof.
  intros Hs [D1 D2 D3 D4 D5 D6] Esp. cbv zeta. set (w1 := put_player i _ (wd st)).
  assert (Hw1 : wf_on (wd st) w1) by (apply bodies_wf; [apply Hs|by eapply bodies_player]).
  destruct (special_wf s sec 0 w1) as (w2 & -> & Hw2 & Es & Ep); [apply Hw1|done|]. cbn [obind safe].
  split; [apply world_kept; [done|by eapply wf_trans]|]. split_and!; [by rewrite Esp|by intros _|by rewrite Esp|by right; left].
Qed.
Lemma exit_stood i p mo s sec st : stage_ok st -> stands i p mo s sec (wd st) -> Sector.special sec = 11 ->
  safe (let w := put_player i (p <| Player.cheats ::= fun c => Z.land c (Z.lnot CF_GODMODE) |>) (wd st) in
        let* st := (let* w := floor_hurts (Player.mo p) 20 w in Ret (st <| wd := w |>)) in
        let* p := of_option (players (gm (wd st)) !! Z.to_nat i) in
        Ret (if Player.health p <=? 10 then G_ExitLevel st else st)) (fun st' => kept_lines st st' /\ stood i p s sec st st').
Proof.
  intros Hs [D1 D2 D3 D4 D5 D6] Esp. cbv zeta. set (w1 := put_player i _ (wd st)).
  assert (Hw1 : wf_on (wd st) w1) by (apply bodies_wf; [apply Hs|by eapply bodies_player]).
  assert (Hl1 : length (players (gm w1)) = length (players (gm (wd st)))) by apply length_insert.
  apply safe_bind, safe_bind. eapply safe_mono; [apply (hurt_safe _ mo 20 w1); [apply Hw1|done]|]. intros w2 (Hw2 & Hl2 & Es2 & _). cbn [safe].
  destruct (lookup_lt_is_Some_2 (players (gm w2)) (Z.to_nat i)) as [p' Ep'].
  { rewrite Hl2, Hl1. by eapply lookup_lt_Some. }
  change (wd (st <| wd := w2 |>)) with w2. rewrite Ep'. cbn [of_option obind safe].
  assert (Hk : kept_lines st (st <| wd := w2 |>)) by (apply world_kept; [done|by eapply wf_trans]).
  assert (Hk' : kept_lines st (G_ExitLevel (st <| wd := w2 |>))).
  { destruct (stage_action G_ExitLevel (st <| wd := w2 |>)) as [K1 K2]; [apply Hk|by intros []|]. split; [done|]. rewrite K2. apply Hk. }
  destruct (Player.health p' <=? 10) eqn:Eh; breflect; (split; [done|]); (split_and!; [by rewrite Esp|by rewrite Esp| |by right; right]); intros _; exists p'; (split; [done|]); [by left|right; done].
Qed.
Lemma stand_run i p mo s sec st : stage_ok st -> stands i p mo s sec (wd st) ->
  safe (P_PlayerInSpecialSector i st) (fun st' => kept_lines st st' /\
    (if Mobj.z mo =? Sector.floorheight sec then stood i p s sec st st' else st' = st)).
Proof.
  intros Hs Hd. pose proof (sk_level _ Hs) as Hi. pose proof Hd as [D1 D2 D3 D4 D5 D6]. unfold P_PlayerInSpecialSector, get_player, get_mobj.
  rewrite (proj2 (Z.ltb_ge _ _)) by done. rewrite D2. cbn [of_option obind]. rewrite D4. cbn [obind]. rewrite D5, (get_sector_at s sec) by done. cbn [obind].
  destruct (_ =? Sector.floorheight sec); cbn [negb]; [|done].
  assert (Ef : get (Player.powers p) pw_ironfeet = Ret (a_power p pw_ironfeet)).
  { unfold get, a_power. rewrite (proj2 (Z.ltb_ge _ _)) by done. destruct (lookup_lt_is_Some_2 (Player.powers p) (Z.to_nat pw_ironfeet)) as [x ->]; [rewrite D3; unfold NUMPOWERS, pw_ironfeet; lia|done]. }
  rewrite Ef. cbn [obind]. set (feet := a_power p pw_ironfeet) in *.
  assert (Hhurt : forall d w1, gm w1 = gm (wd st) -> hurts (Sector.special sec) = Some d -> (feet = 0 \/ d = 20) ->
    safe (let* w := floor_hurts (Player.mo p) d w1 in Ret (st <| wd := w |>)) (fun st' => kept_lines st st' /\ stood i p s sec st st'))
    by (intros; by eapply hurt_stood).
  assert (Hnone : forall d st', hurts (Sector.special sec) = Some d -> gm (wd st') = gm (wd st) -> kept_lines st st' -> (d < 20 -> st' = st) ->
    kept_lines st st' /\ stood i p s sec st st').
  { intros d st' Hh Eg Hk Hst. split; [done|]. assert (Hsp : Sector.special sec <> 9 /\ Sector.special sec <> 11) by (split; intros E; by rewrite E in Hh).
    split_and!; try tauto; [|left; by rewrite Hh]. intros d' Ed'. assert (d' = d) as -> by congruence. rewrite Eg. split_and!; auto. }
  assert (H20 : hurts (Sector.special sec) = Some 20 -> safe (if negb (truth feet) then let* w := floor_hurts (Player.mo p) 20 (wd st) in Ret (st <| wd := w |>)
    else let* '(r, rn) := P_Random (rnd (wd st)) in let w := (wd st) <| rnd := rn |> in
      if r <? 5 then let* w := floor_hurts (Player.mo p) 20 w in Ret (st <| wd := w |>) else Ret (st <| wd := w |>))
    (fun st' => kept_lines st st' /\ stood i p s sec st st')).
  { intros Hh. destruct (negb (truth feet)); [apply Hhurt; auto|]. destruct (P_Random_total (rnd (wd st))) as (r & rn & -> & _). cbn [obind].
    destruct (r <? 5); [apply Hhurt; auto|]. apply (Hnone 20); [done|done| |lia]. apply world_kept; [done|].
    split; [by apply (level_inv_game (wd st)); try done; apply Hs|]. split; try done. intros k x Ek. by exists x. }
  assert (Hlow : forall d, hurts (Sector.special sec) = Some d -> safe (if negb (truth feet) then let* w := floor_hurts (Player.mo p) d (wd st) in Ret (st <| wd := w |>) else Ret st)
    (fun st' => kept_lines st st' /\ stood i p s sec st st')).
  { intros d Hh. destruct (truth feet) eqn:Et; cbn [negb]; [by apply (Hnone d)|]. apply Hhurt; [done|done|left; by apply truth_false]. }
  destruct (Sector.special sec) as [|q|q] eqn:Esp; [done| |done]. do 5 (try destruct q as [q|q|]); try done.
  all: first [by apply (Hlow 5)|by apply (Hlow 10)|by apply H20|by eapply secret_stood|by eapply exit_stood].
Qed.
End standing.

(** ** A level that is played *)
Section play.
Context {A : Arch} {im : Image} {il : ImageLaws} {C : Crush} {laws : CrushLaws} {H : Heap} {hlaws : HeapLaws} {msgs : Messages} {tx : Textures}.
Context {act : Actors} {B : Bodies} {blaws : BodiesLaws} {sines : Sines} {ed : Edition} {dmg : Damage} {dlaws : DamageLaws}.
Implicit Types (w : world).

(** The turn of an object that is not a mobj, and the end of any object. *)
Lemma call_wf self th w : level_wf w -> thing_at self (gm w) = Some th -> alive th -> is_mover th = true -> thing_function th <> 0 ->
  exists w', call_thinker (thing_function th) self w = Ret w' /\ wf_on w w'.
Proof.
  intros Hi Hat Hal Hmv Hf0. pose proof (addr_nonzero _ _ _ Hi Hat) as Hnz. destruct (mover_sector th) as [z|] eqn:Hz.
  - destruct (li_movers _ Hi self th Hat Hal ltac:(congruence)) as (s & sec & Hms & Hsec & Hown & Hv & Hf).
    assert (Hf' : thing_function th = fn_addr (thing_action th)) by (by destruct Hf as [?|[_ ?]]).
    destruct (mover_turn self s th sec w Hi Hnz Hat Hal Hms Hsec Hv Hf') as (w' & th' & sec' & E & Hst). exists w'. split; [done|].
    split; [by eapply (plane_step_inv self s th sec)|]. eapply frame_map, Hst.
  - destruct (is_light th) eqn:Hl; [|by destruct th]. destruct (li_lights _ Hi self th Hat Hal Hl) as (s & sec & lo & hi & Hok & Hsec & Hf).
    pose proof (proj1 (Forall_lookup _ _) (li_light _ Hi) s sec Hsec) as Hd.
    destruct (light_tic_run self s lo hi th sec w Hat Hsec Hok Hd) as (w' & th' & l & E & Hat' & Et & Hok' & Hact & Es & Fr & _).
    exists w'. split; [rewrite Hf, call_fn; by destruct th|]. split; [|by eapply frame_map].
    eapply (light_step_inv self s lo hi th); try done. unfold thing_function. by rewrite Et.
Qed.
Lemma turn_safe self th w : level_wf w -> thing_at self (gm w) = Some th -> is_mover th = true \/ thing_function th = removed ->
  safe (turn self w) (fun r => wf_on w r.2).
Proof.
  intros Hi Hat Hc. unfold turn. rewrite Hat. cbn [of_option obind]. destruct (_ =? removed) eqn:Er; breflect; cbn [safe snd].
  - split; [exact (unlink_inv self th w Hi Hat Er)|]. split; try done; [intros k sec Ek; by exists sec|]. apply people_same; [done|]. intros a m. cbn [gm update]. rewrite thing_at_unlink.
    by destruct (a =? self).
  - destruct Hc as [Hm|Hc]; [|done]. unfold truth. destruct (thing_function th =? 0) eqn:E0; breflect; cbn [negb obind]; [done|].
    destruct (call_wf self th w Hi Hat Er Hm E0) as (w' & -> & Hw). done.
Qed.

(** What happens to a level. The turns of mobjs are not in one piece: they move
    and hurt each other, and cross, shoot and use lines on the way. *)
Inductive event : Type :=
| ETurn (self : Z)
| EMove (w' : world)
| ECross (line : nat) (side self : Z)
| EShoot (self : Z) (line : nat)
| EUse (self : Z) (line : nat) (side : Z)
| EStand (i : Z)
| ETic.
Definition happen (e : event) (st : stage) : outcome stage :=
  match e with
  | ETurn self => let* '(_, w) := turn self (wd st) in Ret (st <| wd := w |>)
  | EMove w' => Ret (st <| wd := w' |>)
  | ECross line side self => P_CrossSpecialLine line side self st
  | EShoot self line => P_ShootSpecialLine self line st
  | EUse self line side => let* '(_, st) := P_UseSpecialLine self line side st in Ret st
  | EStand i => P_PlayerInSpecialSector i st
  | ETic => P_UpdateSpecials st
  end.
Definition a_mobj (self : Z) (st : stage) : Prop :=
  exists th, thing_at self (gm (wd st)) = Some (TMobj th) /\ Mobj.type th <> MT_TELEPORTMAN.
Definition possible (e : event) (st : stage) : Prop :=
  match e with
  | ETurn self => exists th, thing_at self (gm (wd st)) = Some th /\ (is_mover th = true \/ thing_function th = removed)
  | EMove w' => bodies (wd st) w'
  | ECross line side self => a_mobj self st /\ is_Some (lines_of st !! line)
  | EShoot self line => a_mobj self st /\ is_Some (lines_of st !! line)
  | EUse self line side => a_mobj self st /\ exists li, lines_of st !! line = Some li /\ usable line li st
  | EStand i => exists p mo s sec, stands i p mo s sec (wd st)
  | ETic => True
  end.
Fixpoint play (es : list event) (st : stage) : outcome stage :=
  match es with [] => Ret st | e :: es => let* st := happen e st in play es st end.
(** Each event is possible when its time has come. *)
Fixpoint plays (es : list event) (st : stage) : Prop :=
  match es with [] => True | e :: es => possible e st /\ forall st', happen e st = Ret st' -> plays es st' end.

Hypothesis table_size : Z.of_nat (length finesine) = 10240.
Definition goes_on (st st' : stage) : Prop := stage_ok st' /\ Forall2 same_line (lines_of st) (lines_of st').
Lemma goes_lines st st' : stage_ok st' -> lines_of st' = lines_of st -> goes_on st st'.
Proof. intros Hs El. split; [done|]. rewrite El. apply same_lines_refl. Qed.
Lemma goes_spend st st' b line : stage_ok st' -> lines_of st' = spend b line (lines_of st) -> goes_on st st'.
Proof. intros Hs El. split; [done|]. rewrite El. unfold spend. destruct b; [apply cleared_lines|apply same_lines_refl]. Qed.
Lemma happen_safe e st : stage_ok st -> possible e st -> safe (happen e st) (goes_on st).
Proof.
  intros Hs Hp. destruct e as [self|w'|line side self|self line|self line side|i|]; cbn [happen possible] in *.
  - destruct Hp as (th & Hat & Hc). apply safe_bind. eapply safe_mono; [by apply (turn_safe self th); [apply Hs|..]|]. intros [c w1] Hw1.
    destruct (world_kept st w1 Hs Hw1). by apply goes_lines.
  - destruct (world_kept st w' Hs) as [Hs' El]; [apply bodies_wf; [apply Hs|done]|]. by apply goes_lines.
  - destruct Hp as [(th & Hat & Hty) [li El]]. eapply safe_mono; [by apply (cross_run table_size line li side self th)|]. intros st' [Hs' Hc].
    destruct (crossed _ _) as [[es b]|]; [by eapply goes_spend|]. subst st'. by apply goes_lines.
  - destruct Hp as [(th & Hat & Hty) [li El]]. eapply safe_mono; [by apply (shoot_run table_size line li self th)|]. intros st' [Hs' Hc].
    destruct (if _ || _ then _ else _) as [[e b]|]; [by eapply goes_spend|]. subst st'. by apply goes_lines.
  - destruct Hp as [(th & Hat & Hty) (li & El & Hu)]. apply safe_bind. eapply safe_mono; [by apply (use_run table_size line li self th side)|].
    intros [r st'] (_ & [Hs' (b & Eb & _)] & _). by eapply goes_spend.
  - destruct Hp as (p & mo & s & sec & Hd). eapply safe_mono; [by apply (stand_run i p mo s sec)|]. intros st' [[Hs' El] _]. by apply goes_lines.
  - eapply safe_mono; [by apply update_safe|]. intros st' [Hs' El]. by apply goes_lines.
Qed.
Lemma play_run es : forall st, stage_ok st -> plays es st -> safe (play es st) (goes_on st).
Proof.
  induction es as [|e es IH]; intros st Hs Hp; cbn [play plays] in *; [by apply goes_lines|]. destruct Hp as [Hp Hn].
  pose proof (happen_safe e st Hs Hp) as He. destruct (happen e st) as [st1| | |]; cbn [obind safe] in *; try done. destruct He as [Hs1 F1].
  eapply safe_mono; [apply IH; [done|by apply Hn]|]. intros st2 [Hs2 F2]. split; [done|]. by etransitivity.
Qed.
End play.

(** * What lines do that they do not mean to

    The line that raises ceilings and lowers floors does not lower floors, and
    the line that makes a donut does not look whether the ring is moved already. *)

Section findings.
Context {A : Arch} {im : Image} {C : Crush} {H : Heap} {hlaws : HeapLaws} {tx : Textures} {ed : Edition}.
Implicit Types (w : world).

(** ** RaiseCeilingLowerFloor *)
Definition busy (w : world) (s : nat) : Prop := exists sec, sectors (gm w) !! s = Some sec /\ Sector.specialdata sec <> 0.
(** All that happens to the sectors is that one is moved now. *)
Definition occupied (s : nat) (w w' : world) : Prop := exists sec x, sectors (gm w) !! s = Some sec /\ x <> 0 /\
  sectors (gm w') = <[s := sec <| Sector.specialdata := x |>]> (sectors (gm w)).

Lemma start_ceiling_occupies type s rtn w rtn' w' : start_ceiling type s (rtn, w) = Ret (rtn', w') -> occupied s w w'.
Proof.
  unfold start_ceiling, get_sector. rewrite (proj2 (Z.ltb_ge _ _)), Nat2Z.id by lia.
  destruct (sectors (gm w) !! s) as [sec|] eqn:E; [|done]. cbn [of_option obind]. destruct (truth (Sector.specialdata sec)) eqn:Ez.
  - intros [= <- <-]. exists sec, (Sector.specialdata sec). split_and!; [done|by intros Hz; rewrite Hz in Ez|]. destruct sec. by rewrite list_insert_id.
  - destruct (heap_fresh w) as (self & -> & Hnz & _). cbn [obind]. rewrite (fresh_run self s _ sec) by done. cbn [obind].
    destruct (ceiling_setup _ _ _ _) as [c| | |]; try done. cbn [obind]. intros [= <- <-]. exists sec, self. split_and!; [done|done|].
    cbn [gm update]. unfold P_AddActiveCeiling. destruct (first_free _ _); apply fresh_sectors.
Qed.
Lemma occupied_tags s w w' : occupied s w w' -> (Sector.tag <$> sectors (gm w')) = (Sector.tag <$> sectors (gm w)).
Proof.
  intros (sec & x & E & _ & ->). rewrite list_fmap_insert. apply list_insert_id. by rewrite list_lookup_fmap, E.
Qed.
Lemma occupied_busy s k w w' : occupied s w w' -> k = s \/ busy w k -> busy w' k.
Proof.
  intros (sec & x & E & Hx & Es) Hk. unfold busy. rewrite Es. destruct (decide (k = s)) as [->|Hne].
  - exists (sec <| Sector.specialdata := x |>). by rewrite list_lookup_insert_eq by (by eapply lookup_lt_Some).
  - rewrite list_lookup_insert_ne by congruence. by destruct Hk.
Qed.
Lemma run_ceilings_busy type l : forall rtn w rtn' w', run_each (start_ceiling type) l (rtn, w) = Ret (rtn', w') ->
  (Sector.tag <$> sectors (gm w')) = (Sector.tag <$> sectors (gm w)) /\ (forall k, k ∈ l \/ busy w k -> busy w' k).
Proof.
  induction l as [|s l IH]; intros rtn w rtn' w' E; cbn [run_each] in E.
  - injection E as <- <-. split; [done|]. intros k [Hk|Hk]; [by apply elem_of_nil in Hk|done].
  - destruct (start_ceiling type s (rtn, w)) as [[r1 w1]| | |] eqn:E1; try done. cbn [obind] in E. apply start_ceiling_occupies in E1.
    destruct (IH _ _ _ _ E) as [Ht Hb]. split; [by rewrite Ht, (occupied_tags s w)|]. intros k Hk. apply Hb. rewrite elem_of_cons in Hk.
    destruct Hk as [[->|Hk]|Hk]; [right; eapply occupied_busy; [done|by left]|by left|right; eapply occupied_busy; [done|by right]].
Qed.
Lemma busy_floors li type l : forall rtn w, (forall k, k ∈ l -> busy w k) -> run_each (start_floor li type) l (rtn, w) = Ret (rtn, w).
Proof.
  induction l as [|s l IH]; intros rtn w Hb; [done|]. cbn [run_each]. destruct (Hb s) as (sec & E & Hz); [left|].
  unfold start_floor at 1. rewrite (get_sector_at s sec) by done. cbn [obind]. replace (truth (Sector.specialdata sec)) with true by (unfold truth; by rewrite (proj2 (Z.eqb_neq _ _))). cbn [obind].
  apply IH. intros k Hk. apply Hb. by right.
Qed.
Lemma tagged_in tag l : forall i k sec, l !! k = Some sec -> Sector.tag sec = tag -> (i + k)%nat ∈ tagged_from tag l i.
Proof.
  induction l as [|x l IH]; intros i k sec E Ht; [done|]. cbn [tagged_from]. destruct k as [|k].
  - injection E as ->. rewrite Ht, Z.eqb_refl, Nat.add_0_r. left.
  - replace (i + S k)%nat with (S i + k)%nat by lia. destruct (_ =? tag); [right|]; by eapply IH.
Qed.
(** A loop whose body does nothing. *)
Lemma for_tagged_idle {W} (game_of : W -> game) tag (body : nat -> W -> outcome W) x :
  (forall s sec, sectors (game_of x) !! s = Some sec -> Sector.tag sec = tag -> body s x = Ret x) ->
  forall fuel secnum, -1 <= secnum -> Z.of_nat (length (sectors (game_of x))) - secnum <= Z.of_nat fuel ->
  (0 < fuel)%nat -> for_tagged game_of fuel tag secnum body x = Ret x.
Proof.
  intros Hb. induction fuel as [|fuel IH]; intros secnum Hs Hf H0; [lia|]. cbn [for_tagged]. unfold P_FindSectorFromLineTag.
  destruct (find_tag_spec tag (drop (Z.to_nat (secnum + 1)) (sectors (game_of x))) (secnum + 1)) as [->|(k & sec & -> & Hk & Ht)]; [done|].
  rewrite lookup_drop in Hk. replace (Z.to_nat (secnum + 1) + k)%nat with (Z.to_nat (secnum + 1 + Z.of_nat k)) in Hk by lia.
  pose proof (lookup_lt_Some _ _ _ Hk) as Hlt. rewrite Z.geb_leb, (proj2 (Z.leb_le _ _)) by lia. rewrite (Hb _ sec Hk Ht). cbn [obind]. apply IH; lia.
Qed.

(** The line that raises ceilings and lowers floors: after the first call all
    sectors of the tag are busy, and the second does nothing. *)
Theorem lower_floor_never li rtn w w' : EV_DoCeiling li raiseToHighest w = Ret (rtn, w') ->
  EV_DoFloor li lowerFloorToLowest w' = Ret (0, w').
Proof.
  unfold EV_DoCeiling. cbn [orb obind]. intros E.
  assert (E' : run_each (start_ceiling raiseToHighest) (tagged (gm w) (Line.tag li)) (0, w) = Ret (rtn, w')).
  { rewrite <- E. symmetry. apply (for_tagged_run (fun st : Z * world => gm st.2) _ _ (fun k x y Hk => ltac:(destruct x, y; eapply occupied_tags, start_ceiling_occupies, Hk)) _ 0); cbn; lia. }
  destruct (run_ceilings_busy _ _ _ _ _ _ E') as [Et Hb]. unfold EV_DoFloor.
  apply (for_tagged_idle (fun st : Z * world => gm st.2)); [cbn [snd]|cbn [snd]; lia..]. intros s sec Es Ht.
  change (run_each (start_floor li lowerFloorToLowest) [s] (0, w') = Ret (0, w')) || (etransitivity; [|apply (busy_floors li lowerFloorToLowest [s] 0 w')]).
  - cbn [run_each]. by destruct (start_floor _ _ _ _).
  - intros k ->%list_elem_of_singleton. apply Hb. left. unfold tagged. rewrite <- (tagged_from_tags _ _ _ 0 Et). by apply (tagged_in _ _ 0 s sec).
Qed.

(** ** The ring of a donut *)
Lemma donut_floor_run s fill sec w : sectors (gm w) !! s = Some sec -> exists self w', donut_floor s fill w = Ret w' /\ self <> 0 /\ self ∉ addresses (gm w) /\
  (forall a, a <> self -> thing_at a (gm w') = thing_at a (gm w)) /\ addresses (gm w') = addresses (gm w) ++ [self] /\
  sectors (gm w') = <[s := sec <| Sector.specialdata := self |>]> (sectors (gm w)).
Proof.
  intros E. unfold donut_floor. destruct (heap_fresh w) as (self & -> & Hnz & Hf). cbn [obind]. rewrite (fresh_run self s _ sec) by done. cbn [obind].
  set (f := fill _). exists self. eexists. split; [reflexivity|].
  assert (Hst : starts self s (TFloor f) sec w (put_floor self f (fresh_world self s (TFloor (raw_floor self)) sec w)))
    by (apply (starts_intro _ _ _ (TFloor (raw_floor self))); try done; apply fresh_sectors).
  destruct Hst as [_ _ S3 S4 S5 _]. split_and!; try done. intros a Ha. by rewrite S3, (proj2 (Z.eqb_neq _ _)).
Qed.
(** When something moves the ring already, it is moved twice from then on, and
    the first mover does not own its sector any more. *)
Theorem donut_takes_ring s1 s2 sec1 sec2 l li height pic th w rtn : level_wf w -> s1 <> s2 ->
  sectors (gm w) !! s1 = Some sec1 -> Sector.specialdata sec1 = 0 -> Sector.lines sec1 !! 0%nat = Some l -> lines (gm w) !! l = Some li ->
  getNextSector li s1 = Some s2 -> sectors (gm w) !! s2 = Some sec2 -> donut_rim s1 (Sector.lines sec2) (gm w) = Ret (Some (height, pic)) ->
  thing_at (Sector.specialdata sec2) (gm w) = Some th -> alive th -> mover_sector th = Some (Z.of_nat s2) ->
  exists w', start_donut s1 (rtn, false, w) = Ret (1, false, w') /\ ~ level_wf w'.
Proof.
  intros Hi Hne E1 Ez El Eli En E2 Er Hat Hal Hms. unfold start_donut. rewrite (get_sector_at s1 sec1) by done. cbn [obind]. rewrite Ez. cbn [truth Z.eqb negb].
  rewrite El. cbn [of_option obind]. rewrite Eli. cbn [of_option obind]. rewrite En, E2. cbn [of_option obind]. rewrite Er. cbn [obind].
  pose proof (thing_at_addr _ _ _ Hat) as Hin.
  destruct (donut_floor_run s2 (rising_slime height pic) sec2 w E2) as (a & w1 & -> & _ & Ha & Ta & Aa & Sa). cbn [obind].
  assert (E1' : sectors (gm w1) !! s1 = Some sec1) by (by rewrite Sa, list_lookup_insert_ne by congruence).
  destruct (donut_floor_run s1 (lowering_hole height) sec1 w1 E1') as (b & w2 & -> & _ & Hb & Tb & _ & Sb). cbn [obind].
  exists w2. split; [done|]. intros Hi2. set (x := Sector.specialdata sec2) in *.
  assert (Hxa : x <> a) by congruence. assert (Hxb : x <> b) by (intros ->; apply Hb; rewrite Aa; apply elem_of_app; by left).
  assert (Hx2 : thing_at x (gm w2) = Some th) by (by rewrite Tb, Ta).
  destruct (li_movers _ Hi2 x th Hx2 Hal ltac:(congruence)) as (s & sec & Hs & Es & Ed & _). rewrite Hms in Hs. injection Hs as Hs. assert (s = s2) as -> by lia.
  rewrite Sb, list_lookup_insert_ne, Sa, list_lookup_insert_eq in Es by (done || by eapply lookup_lt_Some). injection Es as <-. cbn in Ed. congruence.
Qed.
End findings.
