(* ===== verification/SpawnTheorems.v ===== *)
(** * The specials of a level that starts: the theorems

    A level that was loaded has no movers yet, and the lists of active movers
    may still have those of the level before. [P_SpawnSpecials] makes it a stage
    that can be played. *)
From S2P Require Import Prelude MFixed MRandom GameTypes Thinkers SectorSearch MovePlane Frame Doors DoorTheorems Floors Lights LightTheorems.
From S2P Require Import Ticker TickerTheorems LevelSteps SaveArchive Switches SwitchTheorems LineSafety Teleport TeleportTheorems LineSpecials LineTheorems.
#[local] Open Scope doom_scope.

(** The world with empty lists. *)
Definition clean (w : world) : world :=
  w <| gm ::= fun g => g <| activeceilings := replicate MAXCEILINGS 0 |> <| activeplats := replicate MAXPLATS 0 |> |>.

(** ** What special sectors start *)

(** The specials of sectors that start a light or a door. *)
Definition starts_special (k : Z) : bool := match k with 1 | 2 | 3 | 4 | 8 | 10 | 12 | 13 | 14 | 17 => true | _ => false end.
Definition timed_door (k : Z) : bool := match k with 10 | 14 => true | _ => false end.
Definition door_set (n : nat) (direction type count : Z) (th : thing) : Prop :=
  match th with
  | TDoor d => VlDoor.sector d = Z.of_nat n /\ VlDoor.direction d = direction /\ VlDoor.type d = type /\ VlDoor.topcountdown d = count /\ VlDoor.speed d = VDOORSPEED
  | _ => False
  end.
(** What sector [n] of [g] starts when its special is [k]: a light between the
    light of the sector and the least of its neighbours (0 for a strobe when that
    is no less, 16 more for a fire), or a door that waits. *)
Definition started_as (g : game) (n : nat) (sec : Sector.doomsector_t) (k : Z) (th : thing) : Prop :=
  let hi := Sector.lightlevel sec in
  let lo := zmin hi (Sector.lightlevel <$> neighbours g n) in
  let light a lo := thing_action th = a /\ light_view th = Some (Z.of_nat n, lo, hi) in
  let strobe time sync := light GameTypes.T_StrobeFlash (if lo =? hi then 0 else lo) /\ strobe_times time sync th in
  match k with
  | 1 => light GameTypes.T_LightFlash lo /\ light_times th
  | 2 | 4 => strobe FASTDARK 0
  | 3 => strobe SLOWDARK 0
  | 8 => light GameTypes.T_Glow lo /\ light_times th
  | 10 => door_set n 0 vld_normal (30 * TICRATE) th
  | 12 => strobe SLOWDARK 1
  | 13 => strobe FASTDARK 1
  | 14 => door_set n 2 vld_raiseIn5Mins (5 * 60 * TICRATE) th
  | 17 => light GameTypes.T_FireFlicker (lo + 16) /\ light_times th
  | _ => False
  end.
(** The sector then: its special is gone, unless its floor still hurts, and a door
    is its mover. *)
Definition after_special (k : Z) : Z := if starts_special k then (if k =? 4 then 4 else 0) else k.
Definition after_sector (k self : Z) (sec : Sector.doomsector_t) : Sector.doomsector_t :=
  sec <| Sector.special := after_special k |> <| Sector.specialdata := if timed_door k then self else Sector.specialdata sec |>.

Section spawn.
Context {A : Arch} {im : Image} {il : ImageLaws} {H : Heap} {hlaws : HeapLaws} {tx : Textures} {B : Bodies}.
Implicit Types (w : world).

(** Sectors from number [n] on have not been looked at. *)
Record started (n : nat) (w : world) : Prop := {
  sr_level : level_wf (clean w);
  sr_light : daylight (gm w);
  sr_idle k sec : (n <= k)%nat -> sectors (gm w) !! k = Some sec -> Sector.specialdata sec = 0
}.
Definition step_on (n : nat) (w w' : world) : Prop := started (S n) w' /\ same_map w w'.

(** What changes when sector [n] starts its light or door. *)
Record dressed {A : Arch} {im : Image} (k : Z) (n : nat) (sec : Sector.doomsector_t) (self : Z) (th : thing) (w w' : world) : Prop := {
  dr_fresh : self ∉ addresses (gm w);
  dr_order : addresses (gm w') = addresses (gm w) ++ [self];
  dr_thing : thing_at self (gm w') = Some th;
  dr_runs : thing_function th = fn_addr (thing_action th);
  dr_kind : started_as (gm w) n sec k th;
  dr_others a : a <> self -> thing_at a (gm w') = thing_at a (gm w);
  dr_sectors : sectors (gm w') = <[n := after_sector k self sec]> (sectors (gm w));
  dr_lines : lines (gm w') = lines (gm w)
}.
Definition dress (k : Z) (n : nat) (sec : Sector.doomsector_t) (w w' : world) : Prop :=
  step_on n w w' /\ exists self th, dressed k n sec self th w w'.
Lemma dressed_light k n sec self th w w' : starts_special k = true -> k <> 4 -> timed_door k = false -> new_light self n sec th w w' ->
  thing_function th = fn_addr (thing_action th) -> started_as (gm w) n sec k th -> dressed k n sec self th w w'.
Proof.
  intros Hk H4 Hd [N1 N2 N3 N4 [_ N5] (N6 & _) _] Hf Hs. split; try done. rewrite N3. f_equal. unfold after_sector, after_special.
  rewrite Hk, Hd, (proj2 (Z.eqb_neq _ _) H4). by destruct sec.
Qed.

Lemma started_next n w : started n w -> started (S n) w.
Proof. intros [S1 S2 S3]. split; try done. intros k sec Hk. apply S3. lia. Qed.
Lemma replace_sector (P : Sector.doomsector_t -> Prop) l s sec : Forall P l -> P sec -> Forall P (<[s := sec]> l).
Proof. intros Hl Hs. by apply Forall_insert. Qed.

Lemma light_step n sec self th lo hi w w' : started n w -> sectors (gm w) !! n = Some sec -> new_light self n sec th w w' -> light_ok n lo hi th ->
  thing_function th = fn_addr (thing_action th) -> step_on n w w'.
Proof.
  intros [S1 S2 S3] E Hn Hok Hf. pose proof Hn as [N1 N2 N3 N4 N5 (N6 & N7 & N8) [N9 N10]].
  assert (Hn' : new_light self n sec th (clean w) (clean w')) by (split; done).
  split; [split|split].
  - exact (light_inv self n sec lo hi th (clean w) (clean w') S1 E Hn' Hok Hf).
  - unfold daylight. rewrite N3. apply replace_sector; [done|]. exact (proj1 (Forall_lookup _ _) S2 n sec E).
  - intros k x Hk. rewrite N3. intros [[-> ->]|[_ Ek]]%lookup_one; [lia|]. apply (S3 k); [lia|done].
  - done.
  - done.
  - rewrite N3. apply length_insert.
  - intros k x. rewrite N3. intros [[-> ->]|[_ Ek]]%lookup_one; [by exists sec|by exists x].
  - apply people_same; [done|]. intros a m. destruct (decide (a = self)) as [->|Hne]; [|by rewrite N2]. rewrite N1. intros [= ->]. by destruct Hok.
Qed.
(** A strobe of a sector that keeps its special. *)
Lemma special_step m n sec x w1 : started m w1 -> sectors (gm w1) !! n = Some sec ->
  exists w2, upd_sector (Z.of_nat n) (fun sec => sec <| Sector.special := x |>) w1 = Ret w2 /\ started m w2 /\ same_map w1 w2.
Proof.
  intros [S1 S2 S3] E. rewrite (upd_sector_run n sec) by done. set (sec' := sec <| Sector.special := x |>). eexists. split; [reflexivity|]. set (w2 := set_sector _ _ w1).
  assert (Es : sectors (gm w2) = <[n := sec']> (sectors (gm w1))) by apply sectors_set.
  assert (Hd : Forall2 same_decor (sectors (gm w1)) (sectors (gm w2))) by (rewrite Es; by apply (decor_insert _ n sec)).
  split; [split|].
  - exact (decor_inv (clean w1) (clean w2) S1 eq_refl eq_refl eq_refl eq_refl Hd).
  - unfold daylight. rewrite Es. apply replace_sector; [done|]. exact (proj1 (Forall_lookup _ _) S2 n sec E).
  - intros k y Hk. rewrite Es. intros [[-> ->]|[_ Ek]]%lookup_one; [exact (S3 n sec Hk E)|]. by apply (S3 k).
  - by apply decor_map.
Qed.

(** A door that waits. *)
Lemma door_step n sec self d w w' : started n w -> sectors (gm w) !! n = Some sec -> self <> 0 -> self ∉ addresses (gm w) ->
  thinkers (gm w') = thinkers (put_thing self (TDoor d) (P_AddThinker self (TDoor (raw_door self)) (gm w))) ->
  sectors (gm w') = <[n := sec <| Sector.specialdata := self |> <| Sector.special := 0 |>]> (sectors (gm w)) ->
  lines (gm w') = lines (gm w) -> sides (gm w') = sides (gm w) -> players (gm w') = players (gm w) ->
  VlDoor.sector d = Z.of_nat n -> Thinker.function (VlDoor.thinker d) = fn_addr GameTypes.T_VerticalDoor -> step_on n w w'.
Proof.
  intros [S1 S2 S3] E Hz Hf Et Es El Esd Epl Hs Hfn. set (sec' := sec <| Sector.specialdata := self |> <| Sector.special := 0 |>) in *.
  assert (Hc : wf_on (clean w) (clean w')).
  { apply (fresh_wf self n (TDoor d) (TDoor (raw_door self)) sec sec' (clean w) (clean w')); try done; [exact (S3 n sec (le_n n) E)|]. cbn. by rewrite Hs. }
  destruct Hc as [Hc Hm]. split; [split|].
  - exact Hc.
  - unfold daylight. rewrite Es. apply replace_sector; [done|]. exact (proj1 (Forall_lookup _ _) S2 n sec E).
  - intros k x Hk. rewrite Es. intros [[-> ->]|[_ Ek]]%lookup_one; [lia|]. apply (S3 k); [lia|done].
  - destruct Hm as [M1 M2 M3 M4 M5]. by split.
Qed.
Lemma door_dress n sec self d w w' k : started n w -> sectors (gm w) !! n = Some sec -> self <> 0 -> self ∉ addresses (gm w) ->
  thinkers (gm w') = thinkers (put_thing self (TDoor d) (P_AddThinker self (TDoor (raw_door self)) (gm w))) ->
  sectors (gm w') = <[n := sec <| Sector.specialdata := self |> <| Sector.special := 0 |>]> (sectors (gm w)) ->
  lines (gm w') = lines (gm w) -> sides (gm w') = sides (gm w) -> players (gm w') = players (gm w) ->
  VlDoor.sector d = Z.of_nat n -> Thinker.function (VlDoor.thinker d) = fn_addr GameTypes.T_VerticalDoor ->
  k = 10 \/ k = 14 -> started_as (gm w) n sec k (TDoor d) -> dress k n sec w w'.
Proof.
  intros Hs E Hz Hf Et Es El Esd Epl Hn Hfn Hk Hst. split; [by eapply door_step|]. exists self, (TDoor d). set (g1 := put_thing self (TDoor d) _) in *.
  assert (Ha : forall a, thing_at a (gm w') = thing_at a g1) by (intros a; unfold thing_at; by rewrite Et).
  split; try done.
  - unfold addresses. rewrite Et. change (addresses g1 = addresses (gm w) ++ [self]). unfold g1. rewrite addresses_put. unfold addresses, P_AddThinker. cbn. by rewrite fmap_app.
  - rewrite Ha. unfold g1. by rewrite thing_at_new, Z.eqb_refl.
  - intros a Hne. rewrite Ha. unfold g1. by rewrite thing_at_new, (proj2 (Z.eqb_neq _ _) Hne).
  - rewrite Es. f_equal. destruct Hk as [-> | ->]; by destruct sec.
Qed.
Lemma spawn_30 n sec w : started n w -> sectors (gm w) !! n = Some sec -> returns (P_SpawnDoorCloseIn30 n w) (dress 10 n sec w).
Proof.
  intros Hs E. unfold P_SpawnDoorCloseIn30, new_door. destruct (heap_fresh w) as (self & -> & Hnz & Hfr). cbn [obind].
  rewrite (fresh_run self n _ sec) by done. cbn [obind]. rewrite (upd_sector_run n (sec <| Sector.specialdata := self |>)) by (by apply fresh_here).
  cbn [obind returns]. eapply (door_dress n sec self); try done; [|by auto]. cbn [gm put_door update put_thing sectors].
  change (sectors (gm (set_sector (Z.of_nat n) (sec <| Sector.specialdata := self |> <| Sector.special := 0 |>) (fresh_world self n (TDoor (raw_door self)) sec w))) =
    <[n := sec <| Sector.specialdata := self |> <| Sector.special := 0 |>]> (sectors (gm w))). rewrite sectors_set, fresh_sectors. apply list_insert_insert_eq.
Qed.
Lemma spawn_5 n sec w : started n w -> sectors (gm w) !! n = Some sec -> returns (P_SpawnDoorRaiseIn5Mins n w) (dress 14 n sec w).
Proof.
  intros Hs E. unfold P_SpawnDoorRaiseIn5Mins, new_door. destruct (heap_fresh w) as (self & -> & Hnz & Hfr). cbn [obind].
  rewrite (fresh_run self n _ sec) by done. cbn [obind]. set (w1 := fresh_world self n _ sec w). set (sec1 := sec <| Sector.specialdata := self |>).
  assert (E1 : sectors (gm w1) !! n = Some sec1) by (by apply fresh_here). rewrite (upd_sector_run n sec1) by done. cbn [obind].
  set (sec2 := sec1 <| Sector.special := 0 |>). set (w2 := set_sector _ sec2 w1).
  assert (Hl : level_ok (gm w2)).
  { eapply level_ok_set; [|exact E1|done]. apply fresh_ok; [|done]. destruct (li_level _ (sr_level _ _ Hs)) as [L1 L2]. split; [exact L1|exact L2]. }
  destruct (searches_total (gm w2) n sec2 Hl) as (_ & _ & [h Eh] & _); [by eapply set_sector_at|]. unfold open_height. rewrite Eh. cbn [obind returns].
  eapply (door_dress n sec self); try done; [|by auto]. change (sectors (gm w2) = <[n := sec2]> (sectors (gm w))). unfold w2, w1. rewrite sectors_set, fresh_sectors. apply list_insert_insert_eq.
Qed.
Lemma spawn_lights n sec w : started n w -> sectors (gm w) !! n = Some sec ->
  returns (P_SpawnGlowingLight n w) (dress 8 n sec w) /\ returns (P_SpawnLightFlash n w) (dress 1 n sec w) /\ returns (P_SpawnFireFlicker n w) (dress 17 n sec w) /\
  forall k time sync, (k, time, sync) ∈ [(2, FASTDARK, 0); (3, SLOWDARK, 0); (12, SLOWDARK, 1); (13, FASTDARK, 1)] -> returns (P_SpawnStrobeFlash n time sync w) (dress k n sec w).
Proof.
  intros Hs E. assert (Hl : level_ok (gm w)) by (destruct (li_level _ (sr_level _ _ Hs)) as [L1 L2]; split; [exact L1|exact L2]).
  destruct (spawned_run n sec w Hl (sr_light _ _ Hs) E) as ((s1 & w1 & t1 & E1 & N1 & O1 & A1 & F1 & T1) & (s2 & w2 & t2 & E2 & N2 & O2 & A2 & F2 & T2) & Hst & (s3 & w3 & t3 & E3 & N3 & O3 & A3 & F3 & T3)).
  rewrite E1, E2, E3. cbn [returns]. pose proof (lo_view _ _ _ _ O1) as V1. pose proof (lo_view _ _ _ _ O2) as V2. pose proof (lo_view _ _ _ _ O3) as V3.
  split_and!; [(split; [eapply light_step; try done; congruence|eexists _, _; apply dressed_light; [done|done|done|done|congruence|by split_and!]])..|].
  intros k time sync Hk. assert (Ht : 0 < time <= INT_MAX) by (unfold FASTDARK, SLOWDARK, INT_MAX in *; repeat (apply elem_of_cons in Hk as [[= -> -> ->]|Hk]; [lia|]); by apply elem_of_nil in Hk).
  destruct (Hst time sync Ht) as (s4 & w4 & t4 & E4 & N4 & O4 & A4 & F4 & T4). pose proof (lo_view _ _ _ _ O4) as V4. rewrite E4. cbn [returns].
  split; [eapply light_step; try done; congruence|eexists _, _]. assert (Hf : thing_function t4 = fn_addr (thing_action t4)) by congruence.
  repeat (apply elem_of_cons in Hk as [[= -> -> ->]|Hk]; [by apply dressed_light|]). by apply elem_of_nil in Hk.
Qed.

(** ** All sectors *)
Definition rest (st st' : stage) : Prop := switchlist st' = switchlist st /\ numswitches st' = numswitches st /\ anims st' = anims st /\
  texturetranslation st' = texturetranslation st /\ flattranslation st' = flattranslation st /\
  levelTimer st' = levelTimer st /\ levelTimeCount st' = levelTimeCount st.
(** What one sector starts, and a secret that is counted. *)
Definition one_sector (n : nat) (sec : Sector.doomsector_t) (st st' : stage) : Prop :=
  let k := Sector.special sec in
  (if starts_special k then dress k n sec (wd st) (wd st') else step_on n (wd st) (wd st') /\ wd st' = wd st) /\ rest st st' /\
  totalsecret st' = if k =? 9 then i32 (totalsecret st + 1) else totalsecret st.
Lemma strobe_4 n sec w w1 : sectors (gm w) !! n = Some sec -> dress 2 n sec w w1 ->
  returns (upd_sector (Z.of_nat n) (fun sec => sec <| Sector.special := 4 |>) w1) (dress 4 n sec w).
Proof.
  intros E [[S1 M1] (self & th & [D1 D2 D3 D4 D5 D6 D7 D8])].
  assert (E1 : sectors (gm w1) !! n = Some (after_sector 2 self sec)) by (rewrite D7; apply list_lookup_insert_eq; by eapply lookup_lt_Some).
  destruct (special_step (S n) n _ 4 w1 S1 E1) as (w2 & E2 & S2 & M2). rewrite E2. cbn [returns]. split; [split; [done|by transitivity w1]|].
  rewrite (upd_sector_run n _ _ _ E1) in E2. injection E2 as <-. exists self, th. split; try done.
  rewrite sectors_set, D7. by rewrite list_insert_insert_eq.
Qed.
Lemma spawn_sector_run n sec st : started n (wd st) -> sectors (gm (wd st)) !! n = Some sec ->
  returns (spawn_sector n st) (one_sector n sec st).
Proof.
  intros Hs E. unfold spawn_sector, one_sector. rewrite (get_sector_at n sec) by done. cbn [obind].
  assert (Hrun : forall k m, returns (m (wd st)) (dress k n sec (wd st)) ->
    returns (let* w := m (wd st) in Ret (st <| wd := w |>)) (fun st' => dress k n sec (wd st) (wd st') /\ rest st st' /\ totalsecret st' = totalsecret st)).
  { intros k m Hm. apply returns_bind. eapply returns_mono; [exact Hm|]. intros w' Hw. by split. }
  assert (Hnone : returns (Ret st) (fun st' => (step_on n (wd st) (wd st') /\ wd st' = wd st) /\ rest st st' /\ totalsecret st' = totalsecret st)).
  { split; [split; [split; [by apply started_next|done]|done]|]. by split. }
  destruct (spawn_lights n sec (wd st) Hs E) as (L1 & L2 & L3 & L4).
  assert (L5 : returns (let* w := P_SpawnStrobeFlash n FASTDARK 0 (wd st) in upd_sector (Z.of_nat n) (fun sec => sec <| Sector.special := 4 |>) w) (dress 4 n sec (wd st))).
  { apply returns_bind. eapply returns_mono; [apply (L4 2); set_solver|]. intros w1 Hw1. by apply strobe_4. }
  assert (Hsecret : returns (Ret (st <| totalsecret ::= fun n => i32 (n + 1) |>))
    (fun st' => (step_on n (wd st) (wd st') /\ wd st' = wd st) /\ rest st st' /\ totalsecret st' = i32 (totalsecret st + 1))).
  { split; [split; [split; [by apply started_next|done]|done]|]. by split. }
  destruct (Sector.special sec) as [|q|q]; [exact Hnone| |exact Hnone].
  do 5 (try destruct q as [q|q|]); first [exact Hnone | exact Hsecret | exact (Hrun 1 _ L2) | exact (Hrun 8 _ L1) | exact (Hrun 17 _ L3) |
    exact (Hrun 10 _ (spawn_30 n sec _ Hs E)) | exact (Hrun 14 _ (spawn_5 n sec _ Hs E)) | exact (Hrun 4 (fun w => let* w := P_SpawnStrobeFlash n FASTDARK 0 w in upd_sector (Z.of_nat n) _ w) L5) |
    apply (Hrun 2); apply L4; set_solver | apply (Hrun 3); apply L4; set_solver | apply (Hrun 12); apply L4; set_solver | apply (Hrun 13); apply L4; set_solver].
Qed.

(** The sectors before number [n] that start something, in order. *)
Definition has_special (g : game) (test : Z -> bool) (n : nat) : bool := match sectors g !! n with Some sec => test (Sector.special sec) | None => false end.
Definition special_sectors (g : game) (n : nat) : list nat := filter (fun k => has_special g starts_special k = true) (seq 0 n).
Definition secrets (g : game) (n : nat) : nat := length (filter (fun k => has_special g (Z.eqb 9) k = true) (seq 0 n)).
(** The object at [a] in [g'] is what sector [k] of [g] starts. *)
Definition begun (g g' : game) (k : nat) (a : Z) : Prop := exists sec th, sectors g !! k = Some sec /\ thing_at a g' = Some th /\
  thing_function th = fn_addr (thing_action th) /\ started_as g k sec (Sector.special sec) th /\
  exists sec', sectors g' !! k = Some sec' /\ Sector.specialdata sec' = if timed_door (Sector.special sec) then a else Sector.specialdata sec.
(** Of the level [g], the sectors before number [n] have started what they start:
    one object each, in the order of the sectors and behind the old ones, which are
    as they were; of the sectors only the specials and movers have changed. *)
Record outfitted (g : game) (n : nat) (g' : game) : Prop := {
  of_new : exists l, addresses g' = addresses g ++ l /\ Forall2 (begun g g') (special_sectors g n) l;
  of_old a : a ∈ addresses g -> thing_at a g' = thing_at a g;
  of_done k sec : (k < n)%nat -> sectors g !! k = Some sec -> exists self, sectors g' !! k = Some (after_sector (Sector.special sec) self sec);
  of_left k : (n <= k)%nat -> sectors g' !! k = sectors g !! k;
  of_lines : lines g' = lines g;
  of_light k : Sector.lightlevel <$> neighbours g' k = Sector.lightlevel <$> neighbours g k
}.
Lemma outfitted_refl g : outfitted g 0 g.
Proof. split; try done; [|lia]. exists []. rewrite app_nil_r. split; [done|constructor]. Qed.
Lemma neighbours_same (g g' : game) k : sectors g' = sectors g -> lines g' = lines g -> neighbours g' k = neighbours g k.
Proof. intros E1 E2. unfold neighbours, next_sector. by rewrite E1, E2. Qed.
Lemma neighbours_dressed k n sec self th w w' j : sectors (gm w) !! n = Some sec -> dressed k n sec self th w w' ->
  Sector.lightlevel <$> neighbours (gm w') j = Sector.lightlevel <$> neighbours (gm w) j.
Proof.
  intros E [_ _ _ _ _ _ D7 D8]. rewrite <- (neighbours_update Sector.lightlevel (gm w) n sec (after_sector k self sec) (thinkers (gm w)) j E eq_refl eq_refl).
  f_equal. apply neighbours_same; [exact D7|exact D8].
Qed.
Lemma outfitted_skip g n sec g' : outfitted g n g' -> sectors g !! n = Some sec -> starts_special (Sector.special sec) = false -> outfitted g (S n) g'.
Proof.
  intros [[l [O1 O2]] O3 O4 O5 O6 O7] E Hk. split; try done.
  - exists l. split; [done|]. unfold special_sectors. rewrite seq_S, filter_app. cbn [Nat.add]. rewrite filter_cons_False, app_nil_r; [done|]. unfold has_special. by rewrite E, Hk.
  - intros k x Hlt Ex. destruct (decide (k = n)) as [->|Hne]; [|apply O4; [lia|done]]. assert (x = sec) as -> by congruence. exists 0.
    rewrite O5, E by lia. f_equal. unfold after_sector, after_special. rewrite Hk. replace (timed_door (Sector.special sec)) with false; [by destruct sec|].
    symmetry. destruct (Sector.special sec) as [|q|q]; [done| |done]. do 5 (try destruct q as [q|q|]); done.
  - intros k Hle. apply O5. lia.
Qed.
Lemma begun_kept g w w' k n sec self th j a : j <> n -> a <> self -> dressed k n sec self th w w' -> begun g (gm w) j a -> begun g (gm w') j a.
Proof.
  intros Hj Ha [_ _ _ _ _ D6 D7 _] (s & t & H1 & H2 & H3 & H4 & s' & H5 & H6). exists s, t. rewrite D6 by done. split_and!; try done.
  exists s'. rewrite D7, list_lookup_insert_ne by done. done.
Qed.
Lemma outfitted_step g n sec self th w w' : outfitted g n (gm w) -> sectors g !! n = Some sec -> starts_special (Sector.special sec) = true ->
  dressed (Sector.special sec) n sec self th w w' -> outfitted g (S n) (gm w').
Proof.
  intros [[l [O1 O2]] O3 O4 O5 O6 O7] E Hk Hd. pose proof Hd as [D1 D2 D3 D4 D5 D6 D7 D8].
  assert (Ew : sectors (gm w) !! n = Some sec) by (rewrite O5 by lia; done). pose proof (lookup_lt_Some _ _ _ Ew) as Hlt.
  split.
  - exists (l ++ [self]). split; [by rewrite D2, O1, app_assoc|]. unfold special_sectors. rewrite seq_S, filter_app. cbn [Nat.add].
    rewrite filter_cons_True by (unfold has_special; by rewrite E). apply Forall2_app.
    + apply Forall2_same_length_lookup_2; [by eapply Forall2_length|]. intros i j a Hj Ha.
      assert (Hj' : j ∈ special_sectors g n) by (by eapply list_elem_of_lookup_2). apply list_elem_of_filter in Hj' as [_ Hj']. apply elem_of_seq in Hj'.
      assert (a <> self) by (intros ->; apply D1; rewrite O1; apply elem_of_app; right; by eapply list_elem_of_lookup_2).
      apply (begun_kept g w w' (Sector.special sec) n sec self th); [lia|done|done|]. by eapply (Forall2_lookup_lr _ _ _ i).
    + constructor; [|constructor]. exists sec, th. split_and!; try done.
      * unfold started_as in *. by rewrite <- (O7 n).
      * eexists. split; [rewrite D7; by apply list_lookup_insert_eq|done].
  - intros a Ha. rewrite D6, O3; [done|done|]. intros ->. apply D1. rewrite O1. apply elem_of_app. by left.
  - intros k x Hlt' Ex. rewrite D7. destruct (decide (k = n)) as [->|Hne]; [|rewrite list_lookup_insert_ne by done; apply O4; [lia|done]].
    assert (x = sec) as -> by congruence. exists self. by apply list_lookup_insert_eq.
  - intros k Hle. rewrite D7, list_lookup_insert_ne by lia. apply O5. lia.
  - congruence.
  - intros k. by rewrite (neighbours_dressed _ _ _ _ _ _ _ k Ew Hd).
Qed.

Definition count_up (n : nat) (x : Z) : Z := Nat.iter n (fun x => i32 (x + 1)) x.
Lemma secrets_next g n sec : sectors g !! n = Some sec -> secrets g (S n) = (secrets g n + if (Sector.special sec =? 9)%Z then 1 else 0)%nat.
Proof.
  intros E. unfold secrets. rewrite seq_S, filter_app, length_app. cbn [Nat.add]. f_equal. unfold has_special at 1. rewrite Z.eqb_sym.
  destruct (9 =? Sector.special sec) eqn:Ek; [rewrite filter_cons_True|rewrite filter_cons_False]; try done; unfold has_special; by rewrite E, Ek.
Qed.
Lemma spawn_sectors_run g t len : forall n st, started n (wd st) -> (n + len = length (sectors (gm (wd st))))%nat ->
  outfitted g n (gm (wd st)) -> totalsecret st = count_up (secrets g n) t ->
  returns (run_each spawn_sector (seq n len) st) (fun st' => started (n + len) (wd st') /\ same_map (wd st) (wd st') /\ rest st st' /\
    outfitted g (n + len) (gm (wd st')) /\ totalsecret st' = count_up (secrets g (n + len)) t).
Proof.
  induction len as [|len IH]; intros n st Hs Hn Ho Ht; cbn [seq run_each returns]; [rewrite Nat.add_0_r; by split_and!|].
  destruct (lookup_lt_is_Some_2 (sectors (gm (wd st))) n) as [sec E]; [lia|]. apply returns_bind.
  assert (Eg : sectors g !! n = Some sec) by (by rewrite <- (of_left _ _ _ Ho n (le_n n))).
  eapply returns_mono; [by eapply spawn_sector_run|]. intros st1 (H1 & R1 & T1).
  assert (Hst : step_on n (wd st) (wd st1) /\ outfitted g (S n) (gm (wd st1))).
  { destruct (starts_special _) eqn:Ek.
    - destruct H1 as [H1 (self & th & Hd)]. split; [done|by eapply outfitted_step].
    - destruct H1 as [H1 Ew]. split; [done|]. rewrite Ew. by eapply outfitted_skip. }
  assert (Ht1 : totalsecret st1 = count_up (secrets g (S n)) t).
  { rewrite T1, (secrets_next g n sec Eg), Ht. destruct (_ =? 9); [by rewrite Nat.add_1_r|by rewrite Nat.add_0_r]. }
  destruct Hst as [[S1 M1] Ho1]. eapply returns_mono; [apply IH; [done|rewrite (sm_length _ _ M1); lia|done|done]|].
  intros st2 (S2 & M2 & R2 & O2 & T2). replace (n + S len)%nat with (S n + len)%nat by lia. split_and!; [done|by etransitivity| |done|done].
  unfold rest in *. destruct R1 as (?&?&?&?&?&?&?), R2 as (?&?&?&?&?&?&?). split_and!; congruence.
Qed.

(** ** The lines that scroll *)
Definition scrolls (g : game) (l : nat) : bool := match lines g !! l with Some li => Line.special li =? 48 | None => false end.
Lemma spawn_lines_run len : forall n st, (n + len = length (lines_of st))%nat ->
  let new := filter (fun l => scrolls (gm (wd st)) l = true) (seq n len) in
  if bool_decide (length (linespeciallist st) + length new <= MAXLINEANIMS)%nat
  then run_each spawn_line (seq n len) st = Ret (st <| linespeciallist ::= fun l => l ++ new |>)
  else (length (linespeciallist st) <= MAXLINEANIMS)%nat -> run_each spawn_line (seq n len) st = Fatal "Too many scrolling wall linedefs! (Vanilla limit is 64)".
Proof.
  induction len as [|len IH]; intros n st Hn new.
  { unfold new. cbn. rewrite Nat.add_0_r. case_bool_decide; [|done]. destruct st. cbn. by rewrite app_nil_r. }
  destruct (lookup_lt_is_Some_2 (lines_of st) n) as [li E]; [lia|]. unfold new. cbn [seq run_each]. unfold spawn_line at 1 3.
  change (lines (gm (wd st))) with (lines_of st). rewrite E. cbn [of_option obind].
  assert (Esc : scrolls (gm (wd st)) n = (Line.special li =? 48)) by (unfold scrolls; change (lines (gm (wd st))) with (lines_of st); by rewrite E).
  destruct (Line.special li =? 48).
  - rewrite filter_cons_True by done. cbn [length]. case_bool_decide as Hl; [case_bool_decide as Hs; [lia|]|intros Hle; case_bool_decide as Hs; [done|]].
    + cbn [obind]. set (st1 := st <| linespeciallist ::= _ |>). assert (Hn1 : (S n + len = length (lines_of st1))%nat) by (change (lines_of st1) with (lines_of st); lia).
      specialize (IH (S n) st1 Hn1). cbn zeta in IH.
      change (gm (wd st1)) with (gm (wd st)) in IH. change (linespeciallist st1) with (linespeciallist st ++ [n]) in IH. rewrite length_app in IH. cbn [length] in IH.
      rewrite bool_decide_eq_true_2 in IH by lia. rewrite IH. unfold st1. destruct st. cbn. by rewrite <- app_assoc.
    + cbn [obind]. set (st1 := st <| linespeciallist ::= _ |>). assert (Hn1 : (S n + len = length (lines_of st1))%nat) by (change (lines_of st1) with (lines_of st); lia).
      specialize (IH (S n) st1 Hn1). cbn zeta in IH.
      change (gm (wd st1)) with (gm (wd st)) in IH. change (linespeciallist st1) with (linespeciallist st ++ [n]) in IH. rewrite length_app in IH. cbn [length] in IH.
      rewrite bool_decide_eq_false_2 in IH by lia. apply IH. lia.
  - rewrite filter_cons_False by congruence. cbn [obind]. apply (IH (S n) st). lia.
Qed.

(** ** The level *)

(** A level as it is loaded: nothing moves yet. *)
Record loaded (st : stage) : Prop := {
  lo_addrs : addrs_ok (gm (wd st));
  lo_level : level_ok (gm (wd st));
  lo_actors : actors_ok (gm (wd st));
  lo_light : daylight (gm (wd st));
  lo_mobjs a th : thing_at a (gm (wd st)) = Some th -> is_mover th = false;
  lo_idle : Forall (fun sec => Sector.specialdata sec = 0) (sectors (gm (wd st)));
  lo_map : map_ok (gm (wd st));
  lo_people : people_ok (gm (wd st));
  lo_anims : Forall (anim_ok st) (anims st);
  lo_count : 0 <= numswitches st /\ numswitches st * 2 <= Z.of_nat (length (switchlist st));
  lo_switches i t : Z.of_nat i < numswitches st * 2 -> switchlist st !! i = Some t -> a_texture t
}.
Lemma zeros_ok act n g : slots_ok act (replicate n 0) g.
Proof.
  split; [|intros p Hp Hz; apply elem_of_replicate in Hp as [-> _]; done]. assert (E : filter (fun x => x <> 0) (replicate n 0) = []); [|rewrite E; constructor].
  induction n as [|n IH]; [done|]. cbn [replicate]. rewrite filter_cons_False by lia. exact IH.
Qed.
Lemma loaded_started st : loaded st -> started 0 (wd st).
Proof.
  intros [L1 L2 L3 L4 L5 L6 _ _ _ _]. split; [|done|intros k sec _ E; exact (proj1 (Forall_lookup _ _) L6 k sec E)].
  assert (Hno : forall a th, thing_at a (gm (clean (wd st))) = Some th -> is_mover th = true -> False) by (intros a th Ha Hm; apply L5 in Ha; congruence).
  split.
  - exact L1.
  - destruct L2 as [H1 H2]. split; [exact H1|exact H2].
  - exact L3.
  - eapply Forall_impl; [exact L4|]. intros sec Hs. cbn in Hs |- *. unfold dim_ok. lia.
  - intros a th Ha _ Hm. exfalso. apply (Hno a th Ha). by destruct th.
  - intros a p Ha _. by destruct (Hno a _ Ha).
  - intros a th Ha _ Hl. exfalso. apply (Hno a th Ha). by destruct th.
  - intros k sec E Hz. by destruct (Hz (proj1 (Forall_lookup _ _) L6 k sec E)).
  - apply zeros_ok.
  - apply zeros_ok.
Qed.

(** The lines that scroll, in their order. *)
Definition scrollers (st : stage) : list nat := filter (fun l => scrolls (gm (wd st)) l = true) (seq 0 (length (lines_of st))).
Lemma scrollers_ok st : map_ok (gm (wd st)) -> Forall (scroll_ok st) (scrollers st).
Proof.
  intros Hm. apply Forall_forall. intros l [Hs _]%list_elem_of_filter. unfold scrolls in Hs. destruct (lines (gm (wd st)) !! l) as [li|] eqn:E; [|done].
  destruct (mo_front _ Hm l li E) as [(num & si & H1 & H2 & H3 & _) _]. exists li, (Z.to_nat num). split_and!; [done| |by exists si].
  unfold front_no. rewrite H1. cbn. by rewrite (proj2 (Z.ltb_ge _ _)).
Qed.

(** What the stage is at the end, when [st2] has its lights and doors. *)
Lemma ready_ok st st2 lst : loaded st -> started (length (sectors (gm (wd st2)))) (wd st2) -> same_map (wd st) (wd st2) -> rest st st2 ->
  lst = scrollers st2 ->
  stage_ok (st2 <| linespeciallist := lst |> <| wd := clean (wd st2) |> <| buttonlist := replicate MAXBUTTONS Button.zero |>).
Proof.
  intros Hl [S1 S2 S3] Hm (R1 & R2 & R3 & R4 & R5 & _) ->. set (st3 := st2 <| linespeciallist := _ |> <| wd := _ |> <| buttonlist := _ |>).
  assert (Hm2 : map_ok (gm (wd st2))) by (eapply map_ok_same; [exact Hm|apply Hl]).
  assert (Hm3 : map_ok (gm (clean (wd st2)))) by (by apply (map_ok_same (wd st2)); [split; try done; intros k x Ek; by exists x|]).
  assert (Hzero : forall j b, buttonlist st3 !! j = Some b -> Button.btimer b = 0) by (intros j b Hb; by apply lookup_replicate in Hb as [-> _]).
  split.
  - exact S1.
  - exact Hm3.
  - exact (sm_people _ _ Hm (lo_people _ Hl)).
  - split; [done|]. intros j b Hb H0. by destruct (H0 (Hzero j b Hb)).
  - intros j b Hb H0. by destruct (H0 (Hzero j b Hb)).
  - split; [|exact (scrollers_ok st2 Hm2)]. change (anims st3) with (anims st2). rewrite R3. eapply Forall_impl; [apply Hl|]. intros a Ha. unfold anim_ok in *.
    change (texturetranslation st3) with (texturetranslation st2). change (flattranslation st3) with (flattranslation st2). by rewrite R4, R5.
  - change (numswitches st3) with (numswitches st2). change (switchlist st3) with (switchlist st2). rewrite R1, R2. apply Hl.
  - change (numswitches st3) with (numswitches st2). change (switchlist st3) with (switchlist st2). rewrite R1, R2. apply Hl.
Qed.

Definition timer_set (timelimit deathmatch : Z) (st : stage) : stage :=
  if (timelimit >? 0) && truth deathmatch then st <| levelTimer := true |> <| levelTimeCount := i32 (timelimit * 60 * TICRATE) |>
  else st <| levelTimer := false |>.
Lemma loaded_timer timelimit deathmatch st : loaded st -> loaded (timer_set timelimit deathmatch st).
Proof. intros []. unfold timer_set. by destruct (_ && _); split. Qed.

Lemma spawn_specials_run timelimit deathmatch st : loaded st ->
  if bool_decide (length (scrollers st) <= MAXLINEANIMS)%nat
  then exists st', P_SpawnSpecials timelimit deathmatch st = Ret st' /\ stage_ok st' /\ linespeciallist st' = scrollers st /\
    levelTimer st' = levelTimer (timer_set timelimit deathmatch st) /\ levelTimeCount st' = levelTimeCount (timer_set timelimit deathmatch st) /\
    same_map (wd st) (wd st') /\ outfitted (gm (wd st)) (length (sectors (gm (wd st)))) (gm (wd st')) /\
    totalsecret st' = count_up (secrets (gm (wd st)) (length (sectors (gm (wd st))))) (totalsecret st) /\
    activeceilings (gm (wd st')) = replicate MAXCEILINGS 0 /\ activeplats (gm (wd st')) = replicate MAXPLATS 0 /\ buttonlist st' = replicate MAXBUTTONS Button.zero
  else P_SpawnSpecials timelimit deathmatch st = Fatal "Too many scrolling wall linedefs! (Vanilla limit is 64)".
Proof.
  intros Hl. unfold P_SpawnSpecials. fold (timer_set timelimit deathmatch st). pose proof (loaded_timer timelimit deathmatch st Hl) as Hl1.
  assert (Ew : wd (timer_set timelimit deathmatch st) = wd st) by (unfold timer_set; by destruct (_ && _)).
  assert (Esc : scrollers st = scrollers (timer_set timelimit deathmatch st)) by (unfold scrollers, lines_of; by rewrite Ew).
  assert (Et : totalsecret st = totalsecret (timer_set timelimit deathmatch st)) by (unfold timer_set; by destruct (_ && _)).
  rewrite Esc, Et, <- Ew. set (st1 := timer_set timelimit deathmatch st) in *. clearbody st1. clear Hl Ew Esc Et st.
  pose proof (spawn_sectors_run (gm (wd st1)) (totalsecret st1) (length (sectors (gm (wd st1)))) 0 st1 (loaded_started _ Hl1) eq_refl (outfitted_refl _) eq_refl) as Hs.
  destruct (run_each spawn_sector _ st1) as [st2| | |]; try done. cbn [obind returns] in *. destruct Hs as (S2 & M2 & R2 & O2 & T2).
  set (st3 := st2 <| linespeciallist := [] |>). pose proof (spawn_lines_run (length (lines_of st3)) 0 st3 eq_refl) as Hn. cbn zeta in Hn.
  assert (Esc : scrollers st1 = filter (fun l => scrolls (gm (wd st3)) l = true) (seq 0 (length (lines_of st3)))).
  { unfold scrollers. change (lines_of st3) with (lines (gm (wd st2))). rewrite (sm_lines _ _ M2). apply list_filter_iff.
    intros l. unfold scrolls. change (gm (wd st3)) with (gm (wd st2)). by rewrite (sm_lines _ _ M2). }
  change (length (linespeciallist st3)) with 0%nat in Hn. cbn [Nat.add] in Hn. rewrite <- Esc in Hn. case_bool_decide as Hle.
  - change (lines (gm (wd st3))) with (lines_of st3). rewrite Hn. cbn [obind]. eexists. split; [reflexivity|].
    destruct R2 as (R1 & R2 & R3 & R4 & R5 & R6 & R7). split; [|split_and!; [done|exact R6|exact R7|destruct M2 as [M1 M2 M3 M4 M5]; split; [exact M1|exact M2|exact M3|exact M4|exact M5]| |exact T2|done|done|done]].
    + apply (ready_ok st1 st2 (scrollers st1)); try done. rewrite (sm_length _ _ M2). exact S2.
    + destruct O2 as [P1 P2 P3 P4 P5 P6]. split; [exact P1|exact P2|exact P3|exact P4|exact P5|exact P6].
  - change (lines (gm (wd st3))) with (lines_of st3). rewrite Hn; [done|]. lia.
Qed.
End spawn.
