(* ===== verification/PlayTheorems.v ===== *)
(** * Levels that are played: the claims

    What holds of lines, teleporters, sectors with a special and whole levels,
    with a small level in which it happens. *)
From S2P Require Import Prelude MFixed MRandom GameTypes Thinkers SectorSearch MovePlane Frame Plats PlatTheorems Doors DoorTheorems.
From S2P Require Import Ceilings CeilingTheorems Floors FloorTheorems Lights LightTheorems Ticker TickerTheorems MoverSafety LevelSteps.
From S2P Require Import ManualDoorTheorems SaveArchive Switches SwitchTheorems LineSafety Teleport TeleportTheorems LineSpecials LineTheorems SpawnTheorems.
#[local] Open Scope doom_scope.

Section claims.
Context {A : Arch} {im : Image} {il : ImageLaws} {C : Crush} {laws : CrushLaws} {H : Heap} {hlaws : HeapLaws} {msgs : Messages} {tx : Textures}.
Context {act : Actors} {B : Bodies} {blaws : BodiesLaws} {sines : Sines} {ed : Edition} {dmg : Damage} {dlaws : DamageLaws}.
Implicit Types (w : world).

(** C3: a valid level stays valid under events that are [possible], in any order and
    number: movers and lights have their turns, objects that are gone are freed,
    things move and hurt each other, things other than teleport destinations cross
    and shoot lines of any special, use lines that are [usable], players stand on
    special floors, and the tics of buttons, animations and scrolling walls pass.
    Nothing on the way reads or writes where it must not; each step returns or ends
    the program with its message. Lines only ever lose their specials. Not usable
    are a line that makes a donut ([donut_takes_ring] shows that it can end the
    validity), a door that opens once whose sector moves already ([second_door]),
    and, where pointers have 64 bits, a door by hand whose sector has a floor
    mover, which has no field where the code writes the direction. *)
Theorem level_play_safe es st : Z.of_nat (length finesine) = 10240 -> stage_ok st -> plays es st -> safe (play es st) (goes_on st).
Proof. intros Ht Hs Hp. by apply play_run. Qed.

(** C29: crossing a line keeps a valid level valid and never goes wrong. Things
    that are no players set off only the lines that are meant for them, and shots
    none. A line that does nothing for the thing changes nothing; one that works
    once loses its special, and no other line changes. *)
Theorem P_CrossSpecialLine_safe line li side self th st : Z.of_nat (length finesine) = 10240 -> stage_ok st -> lines_of st !! line = Some li ->
  thing_at self (gm (wd st)) = Some (TMobj th) -> Mobj.type th <> MT_TELEPORTMAN ->
  safe (P_CrossSpecialLine line side self st) (fun st' => stage_ok st' /\
    match crossed th (Line.special li) with
    | None => st' = st
    | Some (_, once) => lines_of st' = spend once line (lines_of st)
    end).
Proof. intros Ht. by apply cross_run. Qed.

(** C30: using a line that is [usable] keeps a valid level valid and never goes
    wrong: one that makes no donut, is no door that opens once onto a sector that
    something moves already, and, where pointers have 64 bits, is no door by hand
    whose sector has a floor mover (the first two can end the validity, see
    [donut_takes_ring] and [second_door]). When it says that nothing was used, nothing has changed; monsters use only the doors
    that are meant for them; and a line loses its special only if it is one that
    can be used once. *)
Theorem P_UseSpecialLine_safe line li self th side st : Z.of_nat (length finesine) = 10240 -> stage_ok st -> lines_of st !! line = Some li ->
  thing_at self (gm (wd st)) = Some (TMobj th) -> usable line li st ->
  safe (P_UseSpecialLine self line side st) (fun r => (r.1 = false -> r.2 = st) /\ spent line (Line.special li) st r.2 /\
    (r.1 = true -> is_player th = false -> monster_uses (Line.special li) = true)).
Proof. intros Ht. by apply use_run. Qed.

(** C31: a teleporter sends a thing to the first destination in the sectors
    with its tag, sector by sector and in the order of the thinkers, if P_TeleportMove
    finds room for it there. Missiles and things that come from behind the line stay. A thing that is sent stands still at
    the destination and looks where it looks, is on the floor there, except in the
    version that forgets it, and a player cannot move for half a second. Sectors,
    lines and movers do not change. *)
Theorem EV_Teleport_correct gv li side self th w : Z.of_nat (length finesine) = 10240 -> level_wf w -> people_ok (gm w) ->
  thing_at self (gm w) = Some (TMobj th) -> Mobj.type th <> MT_TELEPORTMAN ->
  safe (EV_Teleport gv li side self w) (fun r => bodies w r.2 /\
    match destination li side th w with
    | None => r = (0, w)
    | Some man => exists d, thing_at man (gm w) = Some (TMobj d) /\ Mobj.type d = MT_TELEPORTMAN /\
        exists moved w1, P_TeleportMove self (Mobj.x d) (Mobj.y d) w = Ret (moved, w1) /\
        if moved then r.1 = 1 /\ exists m m', thing_at self (gm w1) = Some (TMobj m) /\ thing_at self (gm r.2) = Some (TMobj m') /\
             Mobj.x m' = Mobj.x d /\ Mobj.y m' = Mobj.y d /\ Mobj.player m' = Mobj.player th /\ teleported gv d m m'
        else r = (0, w1)
    end).
Proof. intros Ht. by apply teleport_run. Qed.

(** a player above the floor of a special sector is not affected by it.
    On the floor a secret counts once and its sector is ordinary from then on, a
    damaging floor hurts only every 32nd tic and not at all through radiation
    suits unless it is one of the worst, the last floor of an episode ends the
    level when it has brought the player down to ten, and no other special lets
    the program go on. *)
Theorem P_PlayerInSpecialSector_correct i p mo s sec st : stage_ok st -> stands i p mo s sec (wd st) ->
  safe (P_PlayerInSpecialSector i st) (fun st' => kept_lines st st' /\
    (if Mobj.z mo =? Sector.floorheight sec then stood i p s sec st st' else st' = st)).
Proof. apply stand_run. Qed.

(** C28: P_SpawnSpecials makes a loaded level ready to be played. Each sector with
    a special of a light or a timed door starts exactly one object, in the order of
    the sectors and behind the objects there were: a light of the kind, with the
    times and between the levels of light that its special says, or a door that
    closes in 30 seconds or opens in 5 minutes and is the mover of its sector. Those
    sectors lose their special, but for one whose floor hurts; nothing else of the
    sectors changes. Secrets are counted, the lists of active ceilings and plats are
    empty, all buttons are free, the timer is set, and the lines that scroll are
    listed in their order. With more than 64 of them the program ends. *)
Theorem P_SpawnSpecials_correct timelimit deathmatch st : loaded st ->
  let g := gm (wd st) in
  let n := length (sectors g) in
  if bool_decide (length (scrollers st) <= MAXLINEANIMS)%nat
  then exists st', P_SpawnSpecials timelimit deathmatch st = Ret st' /\ stage_ok st' /\ linespeciallist st' = scrollers st /\
    levelTimer st' = levelTimer (timer_set timelimit deathmatch st) /\ levelTimeCount st' = levelTimeCount (timer_set timelimit deathmatch st) /\
    same_map (wd st) (wd st') /\ outfitted g n (gm (wd st')) /\ totalsecret st' = count_up (secrets g n) (totalsecret st) /\
    activeceilings (gm (wd st')) = replicate MAXCEILINGS 0 /\ activeplats (gm (wd st')) = replicate MAXPLATS 0 /\ buttonlist st' = replicate MAXBUTTONS Button.zero
  else P_SpawnSpecials timelimit deathmatch st = Fatal "Too many scrolling wall linedefs! (Vanilla limit is 64)".
Proof. apply spawn_specials_run. Qed.
End claims.

(** ** A level: a player in the middle room, where there is a secret, a
    teleporter on the one side and a button for the door on the other *)
Section demo.
Import Demo.
#[local] Existing Instances statues image_laws silent textures.
#[local] Instance flat_sines : Sines := replicate (Z.to_nat 10240) 0.
Lemma flat_size : Z.of_nat (length (@finesine flat_sines)) = 10240.
Proof. unfold finesine, flat_sines. rewrite length_replicate. lia. Qed.
#[local] Instance vanilla : Edition := { gamemode := retail; gameversion := exe_ultimate; W_CheckNumForName _ := -1; donut_floorheight := 0; donut_floorpic := 22; numflats := 100 }.

Definition body (x y z type : Z) (sub : Z) (player : option Z) : Mobj.mobj_t :=
  key_mobj <| Mobj.thinker := Thinker.mk 0 0 (fn_addr P_MobjThinker) |> <| Mobj.x := x |> <| Mobj.y := y |> <| Mobj.z := z |> <| Mobj.type := type |>
    <| Mobj.subsector := sub |> <| Mobj.player := player |>.
#[local] Instance hop : Bodies := {
  P_TeleportMove self x y w := match thing_at self (gm w) with
    | Some (TMobj m) => Ret (true, put_mobj self (m <| Mobj.x := x |> <| Mobj.y := y |>) w)
    | _ => Ret (false, w)
    end;
  P_SpawnMobj x y z type w := let a := fresh_address (thinkers (gm w)) in Ret (a, w <| gm ::= P_AddThinker a (TMobj (body x y z type 0 None)) |>);
  sector_under n := Z.to_nat n
}.
Lemma added_at w a m b : a ∉ addresses (gm w) -> thing_at b (P_AddThinker a (TMobj m) (gm w)) = if b =? a then Some (TMobj m) else thing_at b (gm w).
Proof.
  intros Hf. destruct (b =? a) eqn:E; breflect; [subst b; by apply thing_at_add|]. unfold thing_at, P_AddThinker. cbn. rewrite thing_in_app. cbn.
  rewrite (proj2 (Z.eqb_neq a b)) by congruence. by destruct (thing_in b (thinkers (gm w))).
Qed.
#[local] Instance hop_laws : BodiesLaws.
Proof.
  split.
  - intros self m x y w Hat. cbn. rewrite Hat. cbn. split_and!; [by eapply bodies_put| |].
    + intros a d Ha Hd _. change (thing_at a (put_thing self (TMobj (m <| Mobj.x := x |> <| Mobj.y := y |>)) (gm w)) = Some (TMobj d)).
      by rewrite thing_at_put, (proj2 (Z.eqb_neq a self)).
    + intros _. eexists. split; [by eapply thing_at_put_same|done].
  - intros x y z type w. cbn. set (a := fresh_address _). destruct (fresh_address_new (thinkers (gm w))) as [Hz Hf]. fold a in Hz, Hf.
    pose proof (fun b => added_at w a (body x y z type 0 None) b Hf) as Hth. split; [split; try done|].
    + intros b th Hm. change (thing_at b (P_AddThinker a (TMobj (body x y z type 0 None)) (gm w)) = Some th <-> thing_at b (gm w) = Some th).
      rewrite Hth. destruct (b =? a) eqn:E; breflect; [|done]. subst b. split; [intros [= <-]; done|]. intros Ha. by destruct (Hf (thing_at_addr _ _ _ Ha)).
    + intros b m Hb. exists m. split; [|done]. change (thing_at b (P_AddThinker a (TMobj (body x y z type 0 None)) (gm w)) = Some (TMobj m)). rewrite Hth.
      destruct (b =? a) eqn:E; breflect; [|done]. subst b. by destruct (Hf (thing_at_addr _ _ _ Hb)).
    + intros [Hn H0]. unfold addrs_ok, addresses, P_AddThinker. cbn. rewrite fmap_app. split.
      * apply NoDup_app. split_and!; [done| |apply NoDup_singleton]. by intros b Hb ->%list_elem_of_singleton.
      * intros [Ha|E]%elem_of_app; [by apply H0|]. apply list_elem_of_singleton in E. by apply Hz.
    + intros Hok b m. change (thing_at b (P_AddThinker a (TMobj (body x y z type 0 None)) (gm w)) = Some (TMobj m) -> thing_function (TMobj m) = fn_addr P_MobjThinker \/ thing_function (TMobj m) = removed).
      rewrite Hth. destruct (b =? a); [intros [= <-]; by left|apply Hok].
    + intros Hok b m j. change (thing_at b (P_AddThinker a (TMobj (body x y z type 0 None)) (gm w)) = Some (TMobj m) -> Mobj.player m = Some j -> 0 <= j /\
        exists p, players (gm w) !! Z.to_nat j = Some p /\ length (Player.cards p) = NUMCARDS). rewrite Hth. destruct (b =? a); [intros [= <-]; done|apply Hok].
    + intros b th Hb. change (thing_at b (P_AddThinker a (TMobj (body x y z type 0 None)) (gm w)) = Some th). rewrite Hth.
      destruct (b =? a) eqn:E; breflect; [|done]. subst b. by destruct (Hf (thing_at_addr _ _ _ Hb)).
Qed.
#[local] Instance bruise : Damage := fun target _ _ d w =>
  match thing_at target (gm w) with
  | Some (TMobj m) => Ret (put_mobj target (m <| Mobj.health ::= fun h => h - d |>) w)
  | _ => Ret w
  end.
#[local] Instance bruise_laws : DamageLaws.
Proof. intros t i s d w m Hat. unfold P_DamageMobj, bruise. rewrite Hat. cbn. split; [by eapply bodies_put|done]. Qed.

Definition play_line (special tag : Z) (front back : nat) : Line.line_t :=
  Line.mk ML_TWOSIDED special tag [2 * Z.of_nat front; 2 * Z.of_nat front + 1] (Some front) (Some back).
Definition secret_room : Sector.doomsector_t := (room 65536 3 [0%nat; 1%nat]) <| Sector.special := 9 |>.
Definition the_player : Mobj.mobj_t := body 100 100 65536 0 1 (Some 0).
Definition play_game : game := floor_game
  <| lines := [play_line 39 7 0 1; play_line 63 3 1 2] |>
  <| sectors ::= <[1%nat := secret_room]> |>
  <| thinkers := [(1, TMobj the_player); (2, TMobj (body 500 100 131072 MT_TELEPORTMAN 2 None))] |>
  <| players := [key_player <| Player.mo := 1 |>] |>.
Definition map_stage : stage :=
  mk_stage (mk_world play_game (mk_rnd 0 0) []) [1; 0] 1 [] false 0 [] 0 [] [0; 1] [] 0 false.
Lemma play_line_in l li : lines play_game !! l = Some li -> li = play_line 39 7 0 1 \/ li = play_line 63 3 1 2.
Proof. destruct l as [|[|l]]; intros [= <-]; auto. Qed.
Ltac one_of E := match type of E with ?l !! ?n = Some _ => repeat (destruct n as [|n]; [injection E as <-|]); [..|done] end.
Lemma map_play : map_ok play_game.
Proof.
  split.
  - intros l li E. one_of E; (split; [do 2 eexists; split_and!; [reflexivity|done|reflexivity|(by exists 0%nat; split; [done|eexists]) || (by exists 1%nat; split; [done|eexists])]|by eexists]).
  - intros l li E _. one_of E; split; by eexists.
  - intros l li i E _ Hi. one_of E; destruct i as [|[|i]]; [..|lia| | |lia]; do 2 eexists; split_and!; try reflexivity; try done; by eexists.
  - intros n si E. one_of E; done.
  - intros l li E. one_of E; done.
  - intros l li E [Hs|Hs]; one_of E; done.
Qed.
Lemma map_loaded : loaded map_stage.
Proof.
  assert (Ht : forall a th, thing_at a play_game = Some th -> th = TMobj the_player \/ th = TMobj (body 500 100 131072 MT_TELEPORTMAN 2 None)).
  { intros a th. unfold thing_at. cbn. repeat case_match; intros; simplify_eq; auto. }
  split.
  - split; [vm_compute; repeat constructor; set_solver|vm_compute; set_solver].
  - split.
    + intros s sec E. change (wd map_stage) with (mk_world play_game (mk_rnd 0 0) []) in E. cbn [gm] in E. one_of E; repeat (apply Forall_cons; split; [by eexists|]); apply Forall_nil_2.
    + intros l li o E. change (wd map_stage) with (mk_world play_game (mk_rnd 0 0) []) in E. cbn [gm] in E. one_of E; intros [[= <-]|[= <-]]; by eexists.
  - intros a m Ha. destruct (Ht a _ Ha) as [[= ->]|[= ->]]; by left.
  - repeat (apply Forall_cons; split; [vm_compute; by split|]). apply Forall_nil_2.
  - intros a th Ha. by destruct (Ht a th Ha) as [-> | ->].
  - repeat (apply Forall_cons; split; [done|]). apply Forall_nil_2.
  - exact map_play.
  - intros a m i Ha. destruct (Ht a _ Ha) as [[= ->]|[= ->]]; [|done]. intros [= <-]. split; [done|]. by eexists.
  - apply Forall_nil_2.
  - done.
  - intros i t Hi E. one_of E; by vm_compute.
Qed.
Definition play_stage : stage := match P_SpawnSpecials 0 0 map_stage with Ret st => st | _ => map_stage end.
Lemma play_ready : stage_ok play_stage.
Proof.
  pose proof (spawn_specials_run 0 0 map_stage map_loaded) as Hs. rewrite bool_decide_eq_true_2 in Hs by (vm_compute; lia).
  destruct Hs as (st' & E & Hs & _). unfold play_stage. by rewrite E.
Qed.

(** The player finds the secret, is teleported, uses the switch of the door,
    which starts to open, and the switch of a button waits for its tic. *)
Definition a_visit : list event := [EStand 0; ECross 0 0 1; EUse 1 1 0; ETurn 5; ETic].
Definition at_tic (n : nat) : stage := match play (take n a_visit) play_stage with Ret st => st | _ => play_stage end.
Lemma plays_next e es st st1 : possible e st -> happen e st = Ret st1 -> plays es st1 -> plays (e :: es) st.
Proof. intros Hp E Hn. split; [done|]. intros st' E'. congruence. Qed.
Lemma player_there n m : thing_at 1 (gm (wd (at_tic n))) = Some (TMobj m) -> Mobj.type m <> MT_TELEPORTMAN -> a_mobj 1 (at_tic n).
Proof. intros E Ht. by exists m. Qed.
Lemma free_line line li st : Line.special li = 63 -> usable line li st.
Proof.
  intros E. split.
  - by rewrite E.
  - intros s sec _. by rewrite E.
  - intros s sec th _ _. unfold has_place. by destruct th.
Qed.
Lemma visit_stand : exists p mo s sec, stands 0 p mo s sec (wd play_stage).
Proof. do 4 eexists. split; reflexivity || done. Qed.
Lemma a_visit_possible : plays a_visit play_stage.
Proof.
  apply (plays_next _ _ _ (at_tic 1)); [exact visit_stand|by vm_compute|].
  apply (plays_next _ _ _ (at_tic 2)); [split; [eapply (player_there 1); [by vm_compute|done]|by eexists]|by vm_compute|].
  apply (plays_next _ _ _ (at_tic 3)); [split; [eapply (player_there 2); [by vm_compute|done]|eexists; split; [by vm_compute|by apply free_line]]|by vm_compute|].
  apply (plays_next _ _ _ (at_tic 4)); [eexists; split; [by vm_compute|by left]|by vm_compute|].
  apply (plays_next _ _ _ (at_tic 5)); [done|by vm_compute|]. done.
Qed.
Lemma level_play_safe_witness : exists st', play a_visit play_stage = Ret st' /\ goes_on play_stage st' /\
  Line.special <$> lines_of st' = [0; 63] /\ Sector.special <$> sectors (gm (wd st')) = [0; 0; 0].
Proof.
  pose proof (level_play_safe a_visit play_stage flat_size play_ready a_visit_possible) as Hs.
  assert (E : play a_visit play_stage = Ret (at_tic 5)) by (by vm_compute). rewrite E in Hs. exists (at_tic 5). split_and!; [done|exact Hs|by vm_compute|by vm_compute].
Defined.
Lemma P_CrossSpecialLine_safe_witness : exists st', P_CrossSpecialLine 0 0 1 play_stage = Ret st' /\ stage_ok st' /\
  lines_of st' = [play_line 0 7 0 1; play_line 63 3 1 2].
Proof.
  pose proof (P_CrossSpecialLine_safe 0 _ 0 1 _ play_stage flat_size play_ready eq_refl eq_refl ltac:(done)) as Hs.
  destruct (P_CrossSpecialLine 0 0 1 play_stage) as [st'| | |] eqn:E; [|vm_compute in E; discriminate..].
  exists st'. destruct Hs as [H1 H2]. split_and!; [done|exact H1|exact H2].
Defined.
Lemma P_UseSpecialLine_safe_witness : exists st', P_UseSpecialLine 1 1 0 play_stage = Ret (true, st') /\ spent 1 63 play_stage st'.
Proof.
  pose proof (P_UseSpecialLine_safe 1 (play_line 63 3 1 2) 1 _ 0 play_stage flat_size play_ready eq_refl eq_refl (free_line 1 (play_line 63 3 1 2) play_stage eq_refl)) as Hs.
  destruct (P_UseSpecialLine 1 1 0 play_stage) as [[r st']| | |] eqn:E; [|vm_compute in E; discriminate..].
  assert (r = true) as -> by (vm_compute in E; congruence). exists st'. split; [done|apply Hs].
Defined.
Lemma EV_Teleport_correct_witness : exists w m, EV_Teleport gameversion (play_line 39 7 0 1) 0 1 (wd play_stage) = Ret (1, w) /\ bodies (wd play_stage) w /\
  thing_at 1 (gm w) = Some (TMobj m) /\ Mobj.x m = 500 /\ Mobj.reactiontime m = 18.
Proof.
  pose proof (EV_Teleport_correct gameversion (play_line 39 7 0 1) 0 1 the_player (wd play_stage) flat_size (sk_level _ play_ready) (sk_people _ play_ready) eq_refl ltac:(done)) as Hs.
  destruct (EV_Teleport gameversion (play_line 39 7 0 1) 0 1 (wd play_stage)) as [[r w]| | |] eqn:E; [|vm_compute in E; discriminate..].
  assert (r = 1) as -> by (vm_compute in E; congruence). destruct Hs as [Hb Hd].
  assert (Em : destination (play_line 39 7 0 1) 0 the_player (wd play_stage) = Some 2) by (by vm_compute). rewrite Em in Hd.
  destruct Hd as (d & Ed & _ & [] & w1 & _ & Hd); [|done]. destruct Hd as (_ & m & m' & _ & Hm & Hx & _ & Hp & Ht).
  assert (Hx0 : Mobj.x d = 500) by (vm_compute in Ed; injection Ed as <-; reflexivity). exists w, m'. split_and!; [done|exact Hb|exact Hm|by rewrite Hx|].
  apply (te_frozen _ _ _ _ Ht). by rewrite Hp.
Defined.
Lemma P_PlayerInSpecialSector_correct_witness : exists st', P_PlayerInSpecialSector 0 play_stage = Ret st' /\
  Player.secretcount <$> players (gm (wd st')) = [1] /\ Sector.special <$> sectors (gm (wd st')) = [0; 0; 0].
Proof.
  destruct visit_stand as (p & mo & s & sec & Hd). pose proof (P_PlayerInSpecialSector_correct 0 p mo s sec play_stage play_ready Hd) as Hs.
  destruct Hd as [_ Ep _ Em Eu Es]. vm_compute in Ep. injection Ep as <-. vm_compute in Em. injection Em as <-. vm_compute in Eu. subst s. vm_compute in Es. injection Es as <-.
  destruct (P_PlayerInSpecialSector 0 play_stage) as [st'| | |] eqn:E; [|vm_compute in E; discriminate..].
  destruct Hs as [_ (_ & H9 & _)]. destruct (H9 eq_refl) as [H1 H2]. exists st'. rewrite H1, H2. by vm_compute.
Defined.
Lemma P_SpawnSpecials_correct_witness : exists st', P_SpawnSpecials 5 1 map_stage = Ret st' /\ stage_ok st' /\ levelTimeCount st' = 10500 /\ totalsecret st' = 1.
Proof.
  destruct (P_SpawnSpecials_correct 5 1 map_stage map_loaded) as (st' & E & Hs & _ & _ & Ht & _ & _ & Hc & _). exists st'.
  split; [exact E|]. split; [exact Hs|]. split; [exact Ht|]. rewrite Hc. by vm_compute.
Defined.
End demo.
